(* ===== verification/_CoqProject ===== *)
-Q . S2P
Prelude.v
Text.v
Hex.v
Tlv.v
Errors.v
Dataset.v
Coap.v
NetDiag.v
Messages.v
Harness.v
Flags.v
Replay.v
Record.v
Handshake.v
Hello.v
Crypto.v
Ecjpake.v
ThreadHandshake.v
Safety.v
Joiner.v
Pskc.v
JoinerSafety.v
Fuzz.v
Commissioner.v
Events.v
SessionDriver.v
SessionCore.v
SessionSafety.v
SessionInvariant.v
SessionClaims.v
SessionIsolation.v
SessionJoiners.v
SessionProgress.v
HarnessSession.v
SessionLiveness.v
SessionAnswers.v
Driver.v
Flights.v
ClientDriver.v
ServerDriver.v
DriverRuns.v
Sessions.v
DriverTermination.v
DriverReads.v
Ipv6.v
Client.v
ClientWorld.v
ClientSteering.v
ClientCache.v
ClientSession.v
System.v
SystemClaims.v
BTree.v
Topology.v
Collect.v
NetDiagTypes.v
CollectSafety.v
CollectSplit.v
CollectLinks.v
Cli.v
CliConfig.v
CliJson.v
CliText.v
CliDatasets.v
Report.v
SocketAddr.v
TokioSession.v
Link.v
CliInterpreter.v
CliSafety.v
CliSession.v
NetdiagMain.v
Examples.v
ExampleSafety.v
ExampleSecrets.v
Demo.v
DemoSessions.v
