(* ===== verification/Prelude.v ===== *)
(** * meshcop-rs: a verification development

    meshcop-rs is a Rust implementation of Thread commissioning: an external
    commissioner that petitions a border agent over a DTLS session keyed by EC
    J-PAKE, manages the network's datasets, admits joiners by running a second,
    relayed DTLS handshake with each of them, and collects diagnostics.  This
    library models the program crate by crate and proves what makes its parts
    correct.  File names below are relative to crates/, but for demo/ and fuzz/;
    definitions carry the
    names of the source, prefixed with the type where Rust would write
    [Type::method].

    ** How the code is modelled

    - Bytes and machine integers are [Z] ([uint w] is their range); wrapping,
      checked and overflowing arithmetic is written out where the source has it
      ([wrap], [checked_add], [add_or_panic]).  A [String] is its UTF-8 bytes, or
      a Rocq string where the source formats text.
    - A fallible function returns [result E A]: [Ok], [Err], or [Panic], which is
      an index out of range, an overflow, or a loop of the model out of fuel.  A
      definition that is [safe] therefore neither panics nor lacks fuel.
    - A method on [&mut self] is a state transformer [M S E A]; the state that an
      error leaves behind is part of the model.
    - The DTLS drivers run in a [World] (Driver.v): the clock in nanoseconds,
      what arrives and when, what sends return, the timers.  Computing and
      sending take no time.
    - The session task (SessionDriver.v) is a state transformer too, over its own
      state and its surroundings; [run] is its loop over a list of wakes.
    - A method of the commissioner handle is a [Prog] (Client.v), a tree of
      requests to the session task and the shared state.  [ClientWorld] is the
      transition system in which the programs of many handles interleave, and
      [System] the handles, the channel and the task as one transition system.
    - An example program is a [Script] (Examples.v): lines, requests and events; a
      board of the demo is a step function on its phases (DemoSessions.v).
    - A command of the command line is a [Cmd] (CliInterpreter.v), a tree of
      operations of the handle and of what else it waits for.
    - What other crates do is a class, with what the code relies on as a second
      class of laws: [Hash], [Aead], [Curve], [Rng], [OsRng], [Cmac] (cryptography
      and random numbers), [Hex], [Json], [ConfigParser], [SnapshotJson] (text
      formats), [Net] (addresses and errors of a transport), [Os] and [OpenThread]
      (sockets), [JoinerHandler] (the
      application's decisions; the source's [StaticJoinerHandler] is an instance).
      [JoinerSessions] is the interface between the session task and the joiner
      sessions it runs, which [SessionJoiners] discharges.  Every class of laws has a concrete
      instance, on which the witnesses run.

    ** The parts

    Wire formats.  [Tlv] (meshcop/src/tlv.rs, wire.rs), [Coap]
    (meshcop/src/meshcop/coap.rs), [Dataset] (dataset.rs), [NetDiag]
    (meshcop/diag/), [Messages] (the constants, types, flags, builders and parsers
    of meshcop/),
    [Errors] (both error types), [Ipv6] and [SocketAddr] (the parsers of the
    standard library the program relies on), [Hex] and [Text].  Theorems: round
    trips, canonical re-encoding, no input makes a parser panic, what a decoded
    answer looks like ([NetDiagTypes]).  [Fuzz] (fuzz/fuzz_targets/) models the
    fuzz targets over these formats and those of DTLS: each passes on every input.

    DTLS (meshcop-dtls/src/).  [Replay] (replay.rs), [Record] (record.rs,
    flight.rs, util.rs, constants.rs), [Handshake] (handshake.rs), [Hello]
    (hello.rs), [Crypto] (ccm.rs, record_protection.rs, key_schedule.rs), [Ecjpake]
    (ecjpake/),
    [ThreadHandshake] (thread_handshake.rs and thread_server_handshake.rs),
    [Driver], [ClientDriver] and [ServerDriver] (driver.rs, client_driver.rs,
    server_driver.rs).  Theorems: the replay window refines its set
    specification; fragments reassemble in any order; both sides of J-PAKE agree;
    an honest handshake completes, state machine against state machine
    ([ThreadHandshake]) and driver against driver over a network ([DriverRuns]);
    application data is delivered exactly once ([Sessions]); every handshake has
    ended by its deadline ([DriverTermination]), and so has every read of
    application data ([DriverReads]); what no message can do
    ([Safety]).  [Flights] has the lemmas on records and datagrams they share.
    [TokioSession] (tokio_transport.rs, tokio_session.rs): the session over a
    socket of the operating system.

    Joiners.  [Pskc] (meshcop/src/crypto/pskc.rs), [Joiner] (commissioner/joiner.rs):
    PBKDF2, steering data, the joiner session and the abstract machine it
    refines; [JoinerSafety]: hostile relay traffic.

    The session (meshcop/src/commissioner/).  [Commissioner] (types.rs, config.rs,
    client/driver/duplicates.rs and the bookkeeping of exchange.rs), [Flags]
    (flags.rs and the flag types of types.rs), [Events] (events.rs),
    [SessionDriver] (client/driver/).  [SessionCore] and [SessionSafety] state the
    invariant and that the methods keep it, [SessionInvariant] carries it through
    the loop, [SessionClaims], [SessionIsolation] and [SessionJoiners] draw the
    conclusions: no panic, every command answered exactly once, bounded
    retransmission, isolation of relayed messages.  [SessionProgress]: requests
    keep their place in line; [SessionLiveness]: every command is answered;
    [SessionAnswers]: with what was sent for it.  [Link] (client/driver/link.rs):
    a live session over a socket is a link of the task.  [Harness] (harness.rs) is
    the scripted border agent; [HarnessSession]: its answers reach the callers.

    The handle (meshcop/src/commissioner/client/).  [Client] and [ClientWorld];
    [ClientSteering] (no joiner is lost to a concurrent change), [ClientCache]
    (the cached prefix is current), [ClientSession] (what needs the role).
    [System] puts handles, channel and task together and [SystemClaims] carries
    these results over to calls that are served by the real task.

    The diagnostics tool (meshcop-netdiag/src/).  [BTree] (ordered maps),
    [Topology] (model.rs), [Collect] (collect.rs), [Report] (report.rs, graph.rs),
    [NetdiagMain] (main.rs).  [CollectSafety], [CollectSplit] and [CollectLinks]:
    the walk ends, finds what can be found, and draws the links that are
    reported; [NetdiagMain]: the tool only reads, and always resigns.

    The command line (ot-commissioner-cli/src/cli/).  [Cli] (interpreter/support.rs,
    value.rs, console.rs and the arguments of mod.rs), [CliConfig] (config.rs),
    [CliJson] (json.rs), [CliInterpreter] (interpreter/, the loop of mod.rs).
    [CliText] and [CliDatasets]: what is printed reads back; [CliSafety] and
    [CliSession]: no line faults, nothing but [start] opens a session, the joiner
    handler is current, timestamps move on.

    The programs beside the library.  [Examples] (meshcop/examples/);
    [ExampleSafety]: they leave no trace on the network and resign;
    [ExampleSecrets]: they print no secrets.  [Demo] (demo/esp32h2-dtls/src/config.rs,
    thread_udp.rs and the example that generates the dataset): the firmware reads
    datasets as the library does, and the adapter keeps the contract of a
    transport.  [DemoSessions] (main.rs of the demo): the start of a board, round
    trips between the two boards, and that neither ever stops.

    ** Bounds and fuel

    Loops that consume their input take its length as fuel ([many], the CoAP
    options, the extensions, the comments of a configuration file).  The PRF and
    PBKDF2 loops take the output length.  [loop_fuel] counts the datagrams and
    timers of a [World]; [complete_fuel] is bounded by [need], the completions
    that are left; [batch_fuel] is twice the TLVs that are left to ask.  That
    each is enough is part of the theorem that the function is [safe] or total.
    The scalar sampler and the token generator retry at random: their fuel is a
    law of the generator, not a bound of the code.

    ** Assumptions

    The laws of the classes, and that a request takes effect on the mesh when its
    answer is delivered to the task: one whose exchange has ended without an answer
    is not processed by the mesh later (ClientWorld.v, System.v).

    ** Not modelled

    - The runtime: sockets, timers, the scheduler and the broadcast channel behind
      the event streams, which are calls of other crates; the demo's chip, radio
      and Thread stack, whose results are given.
    - Zeroization, tracing, progress messages and the Debug impls, which have no
      effect on results.
    - Reading and writing of the console and of files, the logo and the usage
      banner; the parsing of program arguments by argh and serialization by
      serde.
    - The fakes and fixtures of the unit tests (test_support.rs,
      test_fixtures.rs), the tests, the process around the command line (its
      main.rs) and build scripts. *)
From Stdlib Require Export ZArith Lia.
From stdpp Require Export base tactics list numbers strings pretty.

#[global] Open Scope Z_scope.

(** ** Results

    Rust code under verification returns [core::result::Result]; on top of
    [Ok] and [Err] a computation can abort.  [Panic] records an abort: a slice
    index out of range, an arithmetic overflow caught by the debug checks, or a
    loop of the model that ran out of fuel.  A theorem that a definition is
    [safe] therefore says both that the Rust code does not panic and that the
    fuel of the model is enough. *)

Inductive fault := OutOfBounds | ArithOverflow | OutOfFuel.

Inductive result (E A : Type) :=
  | Ok (a : A)
  | Err (e : E)
  | Panic (f : fault).
Arguments Ok {E A} a.
Arguments Err {E A} e.
Arguments Panic {E A} f.

Definition rbind {E A B} (m : result E A) (k : A -> result E B) : result E B :=
  match m with
  | Ok a => k a
  | Err e => Err e
  | Panic f => Panic f
  end.

Declare Scope result_scope.
Delimit Scope result_scope with result.
#[global] Open Scope result_scope.

Notation "'let!' x ':=' m 'in' k" := (rbind m (fun x => k))
  (at level 10, x name, m at level 100, k at level 200) : result_scope.
Notation "'let!' ' p ':=' m 'in' k" := (rbind m (fun x => match x with p => k end))
  (at level 10, p pattern, m at level 100, k at level 200) : result_scope.

(** [?] across error types: the [From] conversion applied to an [Err]. *)
Definition map_err {E E' A} (f : E -> E') (m : result E A) : result E' A :=
  match m with
  | Ok a => Ok a
  | Err e => Err (f e)
  | Panic p => Panic p
  end.

Definition map_ok {E A B} (f : A -> B) (m : result E A) : result E B :=
  match m with
  | Ok a => Ok (f a)
  | Err e => Err e
  | Panic p => Panic p
  end.

(** [Option::ok_or]. *)
Definition ok_or {E A} (o : option A) (e : E) : result E A :=
  match o with Some a => Ok a | None => Err e end.

(** [Option<Result<T>>::transpose], applied to [o.map(f)]. *)
Definition map_transpose {E A B} (f : A -> result E B) (o : option A) : result E (option B) :=
  match o with
  | Some a => map_ok Some (f a)
  | None => Ok None
  end.

Definition is_ok {E A} (m : result E A) : bool :=
  match m with Ok _ => true | _ => false end.

Definition safe {E A} (m : result E A) : Prop :=
  match m with Panic _ => False | _ => True end.

Lemma rbind_ok {E A B} (m : result E A) (k : A -> result E B) b :
  rbind m k = Ok b <-> exists a, m = Ok a /\ k a = Ok b.
Proof. destruct m; simpl; split; naive_solver. Qed.

Lemma safe_bind {E A B} (m : result E A) (k : A -> result E B) :
  safe m -> (forall a, m = Ok a -> safe (k a)) -> safe (rbind m k).
Proof. destruct m; simpl; auto. Qed.

Lemma safe_ok {E A} (a : A) : safe (@Ok E A a).
Proof. exact I. Qed.

Lemma safe_err {E A} (e : E) : safe (@Err E A e).
Proof. exact I. Qed.

Lemma safe_map_err {E E' A} (f : E -> E') (m : result E A) :
  safe m -> safe (map_err f m).
Proof. by destruct m. Qed.

Lemma safe_map_ok {E A B} (f : A -> B) (m : result E A) : safe m -> safe (map_ok f m).
Proof. by destruct m. Qed.

Lemma safe_ok_or {E A} (o : option A) (e : E) : safe (ok_or o e).
Proof. by destruct o. Qed.

Lemma safe_map_transpose {E A B} (f : A -> result E B) o :
  (forall a, o = Some a -> safe (f a)) -> safe (map_transpose f o).
Proof. destruct o; simpl; auto using safe_map_ok. Qed.

Lemma map_err_ok {E E' A} (f : E -> E') (m : result E A) a :
  map_err f m = Ok a <-> m = Ok a.
Proof. destruct m; simpl; naive_solver. Qed.

Lemma map_ok_ok {E A B} (f : A -> B) (m : result E A) b :
  map_ok f m = Ok b <-> exists a, m = Ok a /\ b = f a.
Proof. destruct m; simpl; naive_solver. Qed.

Lemma ok_or_ok {E A} (o : option A) (e : E) a : ok_or o e = Ok a <-> o = Some a.
Proof. destruct o; simpl; naive_solver. Qed.

(** ** Machine integers

    Every Rust integer, [usize] included, is a [Z] with its range as a
    predicate; [usize] is 64 bits wide. *)

Definition uint (w x : Z) : Prop := 0 <= x < 2 ^ w.
Notation is_u8 := (uint 8).
Notation is_u16 := (uint 16).
Notation is_u32 := (uint 32).
Notation is_u64 := (uint 64).
Definition usize_bits : Z := 64.

#[global] Instance uint_dec w x : Decision (uint w x) := _.

(** [as uN] and [wrapping_*]. *)
Definition wrap (w x : Z) : Z := x mod 2 ^ w.

Definition checked_add (w a b : Z) : option Z :=
  if a + b <? 2 ^ w then Some (a + b) else None.
Definition checked_sub (a b : Z) : option Z :=
  if b <=? a then Some (a - b) else None.
Definition checked_mul (w a b : Z) : option Z :=
  if a * b <? 2 ^ w then Some (a * b) else None.
Definition saturating_add (w a b : Z) : Z := Z.min (a + b) (2 ^ w - 1).
Definition saturating_mul (w a b : Z) : Z := Z.min (a * b) (2 ^ w - 1).
Definition wrapping_add (w a b : Z) : Z := wrap w (a + b).

(** Unchecked [+]: an overflow aborts under the debug checks. *)
Definition add_or_panic {E} (w a b : Z) : result E Z :=
  if a + b <? 2 ^ w then Ok (a + b) else Panic ArithOverflow.

(** ** Byte strings and slices *)

Notation bytes := (list Z).
Notation bytes_ok := (Forall is_u8).

Definition len {A} (l : list A) : Z := Z.of_nat (length l).

Definition is_empty {A} (l : list A) : bool :=
  match l with [] => true | _ => false end.

(** [l[i]]. *)
Definition idx {E A} (l : list A) (i : Z) : result E A :=
  match l !! Z.to_nat i with
  | Some a => Ok a
  | None => Panic OutOfBounds
  end.

(** [l[a..b]], [l[a..]] and [l[..b]]. *)
Definition slice {E A} (l : list A) (a b : Z) : result E (list A) :=
  if (0 <=? a) && (a <=? b) && (b <=? len l)
  then Ok (take (Z.to_nat (b - a)) (drop (Z.to_nat a) l))
  else Panic OutOfBounds.
Definition slice_from {E A} (l : list A) (a : Z) : result E (list A) :=
  slice l a (len l).
Definition slice_to {E A} (l : list A) (b : Z) : result E (list A) :=
  slice l 0 b.

(** Big-endian encodings: [to_be_bytes] at width [8 * n], and [from_be_bytes]. *)
Fixpoint to_be (n : nat) (x : Z) : bytes :=
  match n with
  | O => []
  | S n' => (x / 2 ^ (8 * Z.of_nat n')) mod 256 :: to_be n' x
  end.

Definition from_be (l : bytes) : Z := fold_left (fun acc b => acc * 256 + b) l 0.

Definition vec_eqb (a b : bytes) : bool := bool_decide (a = b).

(** [slice::chunks] and [slice::chunks_exact], for a chunk size that is not zero. *)
Fixpoint chunks_fuel {A} (fuel : nat) (n : nat) (l : list A) : list (list A) :=
  match fuel, l with
  | S fuel', _ :: _ => take n l :: chunks_fuel fuel' n (drop n l)
  | _, _ => []
  end.
Definition chunks {A} (n : Z) (l : list A) : list (list A) :=
  chunks_fuel (length l) (Z.to_nat n) l.
Definition chunks_exact {A} (n : Z) (l : list A) : list (list A) :=
  filter (fun c => len c = n) (chunks n l).

(** [iter().map(f).collect::<Result<Vec<_>>>()]. *)
Fixpoint mapM_result {E A B} (f : A -> result E B) (l : list A) : result E (list B) :=
  match l with
  | [] => Ok []
  | x :: l' => let! y := f x in let! ys := mapM_result f l' in Ok (y :: ys)
  end.

(** A loop [while !rem.is_empty()] whose body reads one item off the front of
    the remaining slice and pushes it. *)
Fixpoint many_fuel {E A} (step : bytes -> result E (A * bytes)) (fuel : nat) (rem : bytes)
    : result E (list A) :=
  if is_empty rem then Ok []
  else match fuel with
       | O => Panic OutOfFuel
       | S fuel' =>
           let! '(x, rest) := step rem in
           let! xs := many_fuel step fuel' rest in
           Ok (x :: xs)
       end.
Definition many {E A} (step : bytes -> result E (A * bytes)) (rem : bytes) : result E (list A) :=
  many_fuel step (length rem) rem.

(** ** Tactics and hints *)

Create HintDb meshcop.

(** Proves a closed decidable proposition by evaluating its decision. *)
Ltac by_decide :=
  match goal with |- ?P => refine (@bool_decide_unpack P _ _); vm_compute; exact I end.

(** Turns the boolean integer tests of the code into propositions. *)
Ltac zbool :=
  repeat match goal with
    | H : (_ <? _) = true |- _ => apply Z.ltb_lt in H
    | H : (_ <? _) = false |- _ => apply Z.ltb_ge in H
    | H : (_ <=? _) = true |- _ => apply Z.leb_le in H
    | H : (_ <=? _) = false |- _ => apply Z.leb_gt in H
    | H : (_ =? _) = true |- _ => apply Z.eqb_eq in H
    | H : (_ =? _) = false |- _ => apply Z.eqb_neq in H
    | H : (_ && _)%bool = true |- _ => apply andb_true_iff in H as [? ?]
    | H : (_ || _)%bool = false |- _ => apply orb_false_iff in H as [? ?]
    | H : negb _ = true |- _ => apply negb_true_iff in H
    | H : negb _ = false |- _ => apply negb_false_iff in H
    | H : bool_decide _ = true |- _ => apply bool_decide_eq_true_1 in H
    | H : bool_decide _ = false |- _ => apply bool_decide_eq_false_1 in H
    end.

(** Splits a successful monadic computation into its steps. *)
Ltac inv_ok :=
  repeat match goal with
    | H : rbind _ _ = Ok _ |- _ => apply rbind_ok in H as (? & ? & ?)
    | H : map_err _ _ = Ok _ |- _ => apply map_err_ok in H
    | H : map_ok _ _ = Ok _ |- _ => apply map_ok_ok in H as (? & ? & ?)
    | H : ok_or _ _ = Ok _ |- _ => apply ok_or_ok in H
    | H : Ok _ = Ok _ |- _ => injection H as H; subst
    | H : Err _ = Ok _ |- _ => discriminate H
    | H : Panic _ = Ok _ |- _ => discriminate H
    | H : (if ?b then _ else _) = Ok _ |- _ => destruct b eqn:?
    | H : (let '(_, _) := ?p in _) = Ok _ |- _ => destruct p as [? ?] eqn:?
    end; zbool.

(** Evaluates list indices and offsets that are closed integers. *)
Ltac simpl_idx :=
  repeat match goal with
    | |- context [Z.to_nat (Zpos ?p)] =>
        let n := eval compute in (Z.to_nat (Zpos p)) in change (Z.to_nat (Zpos p)) with n
    | |- context [Z.to_nat 0] => change (Z.to_nat 0) with 0%nat
    end.

(** ** Generic lemmas *)

Lemma len_nil {A} : len (@nil A) = 0.
Proof. reflexivity. Qed.

Lemma len_cons {A} (x : A) l : len (x :: l) = 1 + len l.
Proof. unfold len; simpl length; lia. Qed.

Lemma len_app {A} (l k : list A) : len (l ++ k) = len l + len k.
Proof. unfold len; rewrite length_app; lia. Qed.

Lemma len_nonneg {A} (l : list A) : 0 <= len l.
Proof. unfold len; lia. Qed.

Lemma to_nat_len {A} (l : list A) : Z.to_nat (len l) = length l.
Proof. unfold len; lia. Qed.

Lemma len_zero {A} (l : list A) : len l = 0 <-> l = [].
Proof. destruct l; unfold len; simpl; split; (done || lia). Qed.

Lemma len_take {A} n (l : list A) : 0 <= n <= len l -> len (take (Z.to_nat n) l) = n.
Proof. unfold len; rewrite length_take; lia. Qed.

Lemma len_drop {A} n (l : list A) : 0 <= n <= len l -> len (drop (Z.to_nat n) l) = len l - n.
Proof. unfold len; rewrite length_drop; lia. Qed.

#[export] Hint Rewrite @len_nil @len_cons @len_app : len.

Lemma is_empty_true {A} (l : list A) : is_empty l = true <-> l = [].
Proof. by destruct l. Qed.

Lemma is_empty_false {A} (l : list A) : is_empty l = false <-> l <> [].
Proof. by destruct l. Qed.

Lemma idx_Some {E A} (l : list A) i a : l !! Z.to_nat i = Some a -> @idx E A l i = Ok a.
Proof. unfold idx; by intros ->. Qed.

Lemma idx_ok {E A} (l : list A) i : 0 <= i < len l -> exists a, @idx E A l i = Ok a.
Proof.
  intros [? Hi]; unfold idx, len in *.
  destruct (l !! Z.to_nat i) eqn:Hl; eauto.
  apply lookup_ge_None in Hl; lia.
Qed.

Lemma safe_idx {E A} (l : list A) i : 0 <= i < len l -> safe (@idx E A l i).
Proof. intros H; destruct (idx_ok (E:=E) l i H) as [? ->]; exact I. Qed.

Lemma idx_inv {E A} (l : list A) i a : @idx E A l i = Ok a -> l !! Z.to_nat i = Some a.
Proof. unfold idx; case_match; naive_solver. Qed.

Lemma idx_Forall {E A} (P : A -> Prop) (l : list A) i a :
  Forall P l -> @idx E A l i = Ok a -> P a.
Proof. intros HP H%idx_inv. by eapply Forall_lookup_1. Qed.

Lemma slice_ok {E A} (l : list A) a b :
  0 <= a <= b -> b <= len l ->
  @slice E A l a b = Ok (take (Z.to_nat (b - a)) (drop (Z.to_nat a) l)).
Proof.
  intros [? ?] ?; unfold slice.
  by rewrite !(proj2 (Z.leb_le _ _)) by lia.
Qed.

Lemma slice_from_ok {E A} (l : list A) a :
  0 <= a <= len l -> @slice_from E A l a = Ok (drop (Z.to_nat a) l).
Proof.
  intros ?; unfold slice_from; rewrite slice_ok by lia.
  rewrite take_ge; [done|]. rewrite length_drop; unfold len; lia.
Qed.

Lemma slice_to_ok {E A} (l : list A) b :
  0 <= b <= len l -> @slice_to E A l b = Ok (take (Z.to_nat b) l).
Proof.
  intros ?; unfold slice_to; rewrite slice_ok by lia.
  by rewrite Z.sub_0_r.
Qed.

Lemma slice_prefix {E A} (p l r : list A) :
  @slice E A (p ++ l ++ r) (len p) (len p + len l) = Ok l.
Proof.
  pose proof (len_nonneg p); pose proof (len_nonneg l); pose proof (len_nonneg r).
  rewrite slice_ok by (rewrite ?len_app; lia).
  rewrite to_nat_len, drop_app_length.
  replace (len p + len l - len p) with (len l) by lia.
  by rewrite to_nat_len, take_app_length.
Qed.

Lemma slice_from_prefix {E A} (p r : list A) :
  @slice_from E A (p ++ r) (len p) = Ok r.
Proof.
  pose proof (len_nonneg p); pose proof (len_nonneg r).
  rewrite slice_from_ok by (rewrite ?len_app; lia).
  by rewrite to_nat_len, drop_app_length.
Qed.

Lemma slice_inv {E A} (l : list A) a b r :
  @slice E A l a b = Ok r ->
  0 <= a <= b /\ b <= len l /\ r = take (Z.to_nat (b - a)) (drop (Z.to_nat a) l) /\ len r = b - a.
Proof.
  unfold slice. destruct (_ && _) eqn:?; [|done]. zbool. intros [= <-].
  rewrite len_take; [done|]. rewrite len_drop; lia.
Qed.

Lemma slice_from_inv {E A} (l : list A) a r :
  @slice_from E A l a = Ok r -> 0 <= a <= len l /\ r = drop (Z.to_nat a) l /\ len r = len l - a.
Proof.
  intros H; pose proof (slice_inv _ _ _ _ H) as (? & ? & _ & ?).
  rewrite slice_from_ok in H by lia. by injection H as <-.
Qed.

Lemma safe_slice {E A} (l : list A) a b :
  0 <= a <= b -> b <= len l -> safe (@slice E A l a b).
Proof. intros; rewrite slice_ok by done; exact I. Qed.

Lemma safe_slice_from {E A} (l : list A) a :
  0 <= a <= len l -> safe (@slice_from E A l a).
Proof. intros; rewrite slice_from_ok by done; exact I. Qed.

Lemma safe_slice_to {E A} (l : list A) a :
  0 <= a <= len l -> safe (@slice_to E A l a).
Proof. intros; rewrite slice_to_ok by done; exact I. Qed.

Lemma safe_add_or_panic {E} w a b : a + b < 2 ^ w -> safe (@add_or_panic E w a b).
Proof. intros; unfold add_or_panic; by rewrite (proj2 (Z.ltb_lt _ _)) by lia. Qed.

#[export] Hint Resolve safe_ok safe_err safe_map_err safe_map_ok safe_ok_or : meshcop.

(** One step of a no-panic proof: enters binds and branches, and leaves the
    range conditions of the slices and indices they use. *)
Ltac safe_step :=
  first
    [ progress auto with meshcop
    | apply safe_bind; [|intros ? ?]
    | apply safe_map_err
    | apply safe_map_ok
    | apply safe_map_transpose; intros ? ?
    | apply safe_idx
    | apply safe_slice
    | apply safe_slice_from
    | apply safe_slice_to
    | match goal with
      | |- safe (if ?b then _ else _) => destruct b eqn:?; zbool
      | |- safe (match ?x with _ => _ end) => destruct x eqn:?; zbool
      end ].
Ltac safe_auto := repeat safe_step; zbool; autorewrite with len in *; try lia.

(** Evaluates the reads of known elements at the front of a list. *)
Ltac eval_idx := repeat (erewrite idx_Some by reflexivity; cbn [rbind]).
Ltac eval_idx_in H := repeat (erewrite idx_Some in H by reflexivity; cbn [rbind] in H).

(** *** Integers *)

Lemma uint_wrap w x : 0 <= w -> uint w (wrap w x).
Proof. intros; apply Z.mod_pos_bound, Z.pow_pos_nonneg; lia. Qed.

Lemma wrap_small w x : uint w x -> wrap w x = x.
Proof. apply Z.mod_small. Qed.

Lemma uint_weaken v w x : v <= w -> uint v x -> uint w x.
Proof.
  intros Hvw [? ?]; split; [done|].
  apply Z.lt_le_trans with (2 ^ v); [done|]; apply Z.pow_le_mono_r; lia.
Qed.

(** Or of two fields that do not overlap is their sum. *)
Lemma land_shiftl_low a b n : 0 <= n -> uint n b -> Z.land (Z.shiftl a n) b = 0.
Proof.
  intros Hn Hb. apply Z.bits_inj'; intros i Hi; rewrite Z.land_spec, Z.bits_0. destruct (Z.lt_ge_cases i n).
  - by rewrite Z.shiftl_spec_low.
  - assert (Z.testbit b i = false) as ->; [|by rewrite andb_false_r].
    rewrite <- (Z.mod_small b (2 ^ n)) by apply Hb; by rewrite Z.mod_pow2_bits_high by lia.
Qed.

Lemma lor_shiftl_add a b n : 0 <= n -> uint n b -> Z.lor (Z.shiftl a n) b = a * 2 ^ n + b.
Proof.
  intros Hn Hb. rewrite <- Z.shiftl_mul_pow2, <- Z.lxor_lor, <- Z.add_nocarry_lxor by (done || by apply land_shiftl_low). done.
Qed.
Lemma lxor_shiftl_add a b n : 0 <= n -> uint n b -> Z.lxor (Z.shiftl a n) b = a * 2 ^ n + b.
Proof. intros Hn Hb. by rewrite Z.lxor_lor, lor_shiftl_add by (done || by apply land_shiftl_low). Qed.

Lemma land_ones_mod a n : 0 <= n -> Z.land a (2 ^ n - 1) = a mod 2 ^ n.
Proof. intros; rewrite <- Z.land_ones by done. f_equal. rewrite Z.ones_equiv. lia. Qed.

Lemma testbit_high w x i : uint w x -> 0 <= w <= i -> Z.testbit x i = false.
Proof.
  intros Hx Hi. rewrite <- (Z.mod_small x (2 ^ w)) by apply Hx. by apply Z.mod_pow2_bits_high.
Qed.

(** Bit equality of two [w]-bit numbers. *)
Lemma uint_bits_inj w x y :
  0 <= w -> uint w x -> uint w y -> (forall i, 0 <= i < w -> Z.testbit x i = Z.testbit y i) -> x = y.
Proof.
  intros Hw Hx Hy H. apply Z.bits_inj'. intros i Hi.
  destruct (decide (i < w)); [apply H; lia|]. by rewrite !(testbit_high w) by (done || lia).
Qed.

Lemma testbit_flag x n : 0 <= n -> (Z.land x (2 ^ n) =? 2 ^ n) = Z.testbit x n.
Proof.
  intros Hn. destruct (Z.testbit x n) eqn:Hb.
  - apply Z.eqb_eq, Z.bits_inj'. intros i Hi.
    rewrite Z.land_spec, Z.pow2_bits_eqb by done.
    destruct (n =? i) eqn:E; zbool; subst; by rewrite ?Hb, ?andb_false_r.
  - apply Z.eqb_neq. intros H. apply (f_equal (fun y => Z.testbit y n)) in H.
    rewrite Z.land_spec, Hb, Z.pow2_bits_true in H by done. done.
Qed.

Lemma uint_of_bits w x : 0 <= w -> (forall i, w <= i -> Z.testbit x i = false) -> uint w x.
Proof.
  intros Hw H. replace x with (wrap w x); [by apply uint_wrap|].
  unfold wrap. apply Z.bits_inj'. intros i Hi. destruct (decide (i < w)).
  - by rewrite Z.mod_pow2_bits_low.
  - rewrite Z.mod_pow2_bits_high by lia. symmetry. apply H. lia.
Qed.

Lemma uint_land w x y : 0 <= w -> uint w x -> uint w (Z.land x y).
Proof.
  intros Hw Hx. apply uint_of_bits; [done|]. intros i Hi.
  by rewrite Z.land_spec, (testbit_high w) by (done || lia).
Qed.

Lemma testbit_nonzero x n : 0 <= n -> negb (Z.land x (2 ^ n) =? 0) = Z.testbit x n.
Proof.
  intros Hn. destruct (Z.testbit x n) eqn:Hb.
  - apply negb_true_iff, Z.eqb_neq. intros H. apply (f_equal (fun y => Z.testbit y n)) in H.
    by rewrite Z.land_spec, Hb, Z.pow2_bits_true, Z.bits_0 in H by done.
  - apply negb_false_iff, Z.eqb_eq, Z.bits_inj'. intros i Hi.
    rewrite Z.land_spec, Z.pow2_bits_eqb, Z.bits_0 by done.
    destruct (n =? i) eqn:E; zbool; subst; by rewrite ?Hb, ?andb_false_r.
Qed.

Lemma uint_lxor w x y : 0 <= w -> uint w x -> uint w y -> uint w (Z.lxor x y).
Proof.
  intros Hw Hx Hy. apply uint_of_bits; [done|]. intros i Hi.
  by rewrite Z.lxor_spec, !(testbit_high w) by (done || lia).
Qed.

Lemma uint_lor w x y : 0 <= w -> uint w x -> uint w y -> uint w (Z.lor x y).
Proof.
  intros Hw Hx Hy. apply uint_of_bits; [done|]. intros i Hi.
  by rewrite Z.lor_spec, !(testbit_high w) by (done || lia).
Qed.

Lemma uint_div w n x : 0 <= n <= w -> uint w x -> uint (w - n) (x / 2 ^ n).
Proof.
  intros ? [? ?]; split; [apply Z.div_pos; [done|apply Z.pow_pos_nonneg; lia]|].
  apply Z.div_lt_upper_bound; [apply Z.pow_pos_nonneg; lia|].
  rewrite <- Z.pow_add_r by lia. by replace (n + (w - n)) with w by lia.
Qed.

(** *** Big-endian encodings *)

Lemma length_to_be n x : length (to_be n x) = n.
Proof. induction n; simpl; congruence. Qed.

Lemma len_to_be n x : len (to_be n x) = Z.of_nat n.
Proof. unfold len; by rewrite length_to_be. Qed.
#[export] Hint Rewrite len_to_be : len.

Lemma to_be_ok n x : bytes_ok (to_be n x).
Proof.
  induction n; simpl; constructor; [|done]. apply Z.mod_pos_bound; lia.
Qed.
#[export] Hint Resolve to_be_ok : meshcop.

Lemma from_be_acc l acc :
  fold_left (fun acc b => acc * 256 + b) l acc = acc * 2 ^ (8 * len l) + from_be l.
Proof.
  unfold from_be. revert acc; induction l as [|b l IH]; intros acc; cbn [fold_left].
  - unfold len; simpl; lia.
  - rewrite (IH (acc * 256 + b)), (IH (0 * 256 + b)), len_cons.
    pose proof (len_nonneg l).
    rewrite Z.mul_add_distr_l, Z.pow_add_r by lia. lia.
Qed.

Lemma from_be_cons b l : from_be (b :: l) = b * 2 ^ (8 * len l) + from_be l.
Proof. unfold from_be at 1; cbn [fold_left]. rewrite from_be_acc. lia. Qed.

Lemma from_to_be n x : from_be (to_be n x) = x mod 2 ^ (8 * Z.of_nat n).
Proof.
  induction n as [|n IH]; [by rewrite Z.mod_1_r|].
  simpl to_be. rewrite from_be_cons, len_to_be, IH.
  replace (8 * Z.of_nat (S n)) with (8 * Z.of_nat n + 8) by lia.
  rewrite Z.pow_add_r by lia. change (2 ^ 8) with 256.
  rewrite Z.rem_mul_r by lia. lia.
Qed.

Lemma from_to_be_small n x : uint (8 * Z.of_nat n) x -> from_be (to_be n x) = x.
Proof. intros; rewrite from_to_be; by apply Z.mod_small. Qed.

Lemma from_be_bound l : bytes_ok l -> uint (8 * len l) (from_be l).
Proof.
  induction 1 as [|b l [? ?] _ [? ?]]; [by split|].
  rewrite from_be_cons, len_cons; pose proof (len_nonneg l).
  unfold uint; rewrite Z.mul_add_distr_l, Z.pow_add_r by lia.
  change (2 ^ (8 * 1)) with 256. change (2 ^ 8) with 256 in *. nia.
Qed.

(** Bit [8 * i + k] of a big-endian number is bit [k] of the byte [i] from the end. *)
Lemma from_be_testbit l j k :
  bytes_ok l -> (j < length l)%nat -> 0 <= k < 8 ->
  Z.testbit (from_be l) (8 * (len l - 1 - Z.of_nat j) + k) = Z.testbit (nth j l 0) k.
Proof.
  intros Hok. revert j. induction Hok as [|b l Hb Hl IH]; intros j Hj Hk; [simpl in Hj; lia|].
  pose proof (len_nonneg l). pose proof (from_be_bound l Hl) as Hbd.
  rewrite from_be_cons, <- Z.shiftl_mul_pow2 by lia.
  rewrite Z.shiftl_mul_pow2, <- lor_shiftl_add, Z.lor_spec by (done || lia).
  destruct j as [|j]; cbn [nth].
  - rewrite len_cons. replace (8 * (1 + len l - 1 - Z.of_nat 0) + k) with (8 * len l + k) by lia.
    rewrite Z.shiftl_spec, (testbit_high (8 * len l) (from_be l)), orb_false_r by (done || lia).
    f_equal. lia.
  - rewrite Z.shiftl_spec_low by (rewrite len_cons; lia). simpl orb.
    rewrite <- (IH j) by (simpl in Hj; lia). f_equal. rewrite len_cons. lia.
Qed.

Lemma to_be_add_high m n b x :
  (m <= n)%nat -> to_be m (b * 2 ^ (8 * Z.of_nat n) + x) = to_be m x.
Proof.
  induction m as [|m IH]; intros Hm; [done|]. simpl; f_equal; [|apply IH; lia].
  replace (8 * Z.of_nat n)
    with (8 * (Z.of_nat n - Z.of_nat m - 1) + 8 + 8 * Z.of_nat m) by lia.
  rewrite !Z.pow_add_r, Z.mul_assoc by lia.
  rewrite Z.div_add_l by (apply Z.pow_nonzero; lia).
  change (2 ^ 8) with 256. rewrite (Z.mul_assoc b).
  by rewrite Z.add_comm, Z.mod_add by lia.
Qed.

Lemma to_be_from_be l : bytes_ok l -> to_be (length l) (from_be l) = l.
Proof.
  induction 1 as [|b l Hb Hl IH]; [done|]. simpl.
  pose proof (from_be_bound l Hl) as Hbd. unfold uint, len in *.
  rewrite from_be_cons; unfold len.
  rewrite to_be_add_high, IH by done. f_equal.
  rewrite Z.div_add_l by lia. rewrite (Z.div_small (from_be l)) by done.
  rewrite Z.add_0_r. apply Z.mod_small, Hb.
Qed.

Lemma to_be_from_be_n n l : bytes_ok l -> len l = Z.of_nat n -> to_be n (from_be l) = l.
Proof.
  intros Hl Hn. replace n with (length l) by (unfold len in Hn; lia).
  by apply to_be_from_be.
Qed.

Lemma from_be_2 a b : from_be [a; b] = a * 256 + b.
Proof. reflexivity. Qed.

(** *** The parsing loop *)

Section many.
Context {E A : Type} (step : bytes -> result E (A * bytes)).

(** The body strips at least one byte. *)
Definition consumes : Prop :=
  forall rem x rest, step rem = Ok (x, rest) -> len rest < len rem.

Hypothesis Hstep : consumes.

Lemma many_fuel_enough n m rem :
  (length rem <= n)%nat -> (length rem <= m)%nat ->
  many_fuel step n rem = many_fuel step m rem.
Proof.
  revert m rem; induction n as [|n IH]; intros [|m] rem Hn Hm; destruct rem as [|b rem];
    simpl in *; try (done || lia).
  destruct (step (b :: rem)) as [[x rest]| |] eqn:Hs; simpl; auto.
  apply Hstep in Hs. rewrite len_cons in Hs. unfold len in Hs.
  rewrite (IH m) by lia. done.
Qed.

Lemma many_nil : many step [] = Ok [].
Proof. done. Qed.

(** The defining equation of the loop. *)
Lemma many_unfold rem :
  rem <> [] ->
  many step rem =
    let! '(x, rest) := step rem in let! xs := many step rest in Ok (x :: xs).
Proof.
  destruct rem as [|b rem]; [done|intros _]. unfold many at 1; simpl length; simpl many_fuel.
  destruct (step (b :: rem)) as [[x rest]| |] eqn:Hs; simpl; auto.
  apply Hstep in Hs. rewrite len_cons in Hs. unfold len in Hs.
  unfold many. rewrite (many_fuel_enough _ (length rest)) by lia. done.
Qed.

Lemma many_ind_len (P : bytes -> Prop) :
  (forall rem, (forall rest, len rest < len rem -> P rest) -> P rem) -> forall rem, P rem.
Proof.
  intros H rem. remember (length rem) as n eqn:Hn.
  revert rem Hn; induction n as [n IH] using lt_wf_ind; intros rem ->.
  apply H; intros rest Hr. eapply IH; [|reflexivity]. unfold len in Hr; lia.
Qed.

Lemma many_safe rem : (forall r, r <> [] -> safe (step r)) -> safe (many step rem).
Proof.
  intros Hsafe. induction rem as [rem IH] using many_ind_len.
  destruct (decide (rem = [])) as [->|Hne]; [done|].
  rewrite many_unfold by done.
  apply safe_bind; [by apply Hsafe|]. intros [x rest] Hs.
  apply safe_bind; [|done]. by apply IH, (Hstep _ _ _ Hs).
Qed.

(** Parsing what an encoder wrote gives the items back. *)
Lemma many_encode (enc : A -> bytes) (P : A -> Prop) xs :
  (forall x rest, P x -> step (enc x ++ rest) = Ok (x, rest)) ->
  Forall P xs -> many step (concat (map enc xs)) = Ok xs.
Proof.
  intros Henc; induction 1 as [|x xs Hx _ IH]; [done|]. simpl.
  pose proof (Henc x (concat (map enc xs)) Hx) as Hs.
  destruct (decide (enc x ++ concat (map enc xs) = [])) as [Hnil|Hne].
  - apply Hstep in Hs. rewrite Hnil in Hs. pose proof (len_nonneg (concat (map enc xs))).
    rewrite len_nil in Hs. lia.
  - rewrite many_unfold, Hs by done. simpl. by rewrite IH.
Qed.

(** What parses is what the encoder writes for the parsed items. *)
Lemma many_decode (enc : A -> bytes) (P : A -> Prop) rem xs :
  (forall rem x rest, bytes_ok rem -> step rem = Ok (x, rest) -> rem = enc x ++ rest /\ P x) ->
  bytes_ok rem -> many step rem = Ok xs -> rem = concat (map enc xs) /\ Forall P xs.
Proof.
  intros Hdec. revert xs. induction rem as [rem IH] using many_ind_len. intros xs Hok.
  destruct (decide (rem = [])) as [->|Hne].
  - rewrite many_nil; intros [= <-]; by split.
  - rewrite many_unfold by done. intros; inv_ok.
    match goal with H : step _ = _ |- _ => pose proof H as Hs; apply Hdec in H as [-> ?]; [|done] end.
    apply Forall_app in Hok as [_ Hok].
    match goal with H : many _ _ = _ |- _ =>
      apply IH in H as [Heq ?]; [|by apply Hstep in Hs|done] end.
    simpl. split; [by rewrite <- Heq|by constructor].
Qed.
End many.

(** *** Chunks and mapped results *)

Lemma chunks_exact_len {A} n (l : list A) : Forall (fun c => len c = n) (chunks_exact n l).
Proof. unfold chunks_exact. apply Forall_forall. intros c Hc. by apply list_elem_of_filter in Hc as [? _]. Qed.

Lemma chunks_fuel_exact {A} fuel n (l : list A) :
  0 < n -> (length l <= fuel)%nat -> len l mod n = 0 ->
  Forall (fun c => len c = n) (chunks_fuel fuel (Z.to_nat n) l) /\
  concat (chunks_fuel fuel (Z.to_nat n) l) = l.
Proof.
  intros Hn. revert l; induction fuel as [|fuel IH]; intros l Hf Hm.
  { destruct l; [|simpl in Hf; lia]. by split. }
  destruct l as [|x l]; [by split|]. cbn [chunks_fuel].
  assert (n <= len (x :: l)) as Hle.
  { pose proof (len_nonneg l). rewrite len_cons in *.
    destruct (Z.lt_ge_cases (1 + len l) n); [|done].
    rewrite Z.mod_small in Hm by lia. lia. }
  destruct (IH (drop (Z.to_nat n) (x :: l))) as [H1 H2].
  - rewrite length_drop. simpl in *. lia.
  - rewrite len_drop by lia. rewrite <- (Z.mod_add _ 1) by lia. by replace (len (x :: l) - n + 1 * n)
      with (len (x :: l)) by lia.
  - split; [constructor; [by apply len_take; lia|done]|].
    cbn [concat]. rewrite H2. apply take_drop.
Qed.

Lemma filter_all {A} n (ls : list (list A)) :
  Forall (fun c => len c = n) ls -> filter (fun c => len c = n) ls = ls.
Proof. induction 1 as [|c cs Hc _ IH]; [done|]. rewrite filter_cons_True by exact Hc. by rewrite IH. Qed.

Lemma chunks_exact_concat {A} n (l : list A) :
  0 < n -> len l mod n = 0 -> concat (chunks_exact n l) = l.
Proof.
  intros Hn Hm. destruct (chunks_fuel_exact (length l) n l Hn (le_n _) Hm) as [H1 H2].
  unfold chunks_exact, chunks. by rewrite filter_all.
Qed.

Lemma chunks_fuel_concat {A} fuel n (ls : list (list A)) :
  0 < n -> Forall (fun c => len c = n) ls -> (length (concat ls) <= fuel)%nat ->
  chunks_fuel fuel (Z.to_nat n) (concat ls) = ls.
Proof.
  intros Hn H. revert fuel. induction H as [|c ls Hc _ IH]; intros fuel Hf.
  { by destruct fuel. }
  destruct c as [|x c]; [rewrite len_nil in Hc; lia|].
  destruct fuel as [|fuel]; [simpl in Hf; lia|]. cbn [concat app chunks_fuel].
  assert (Z.to_nat n = length (x :: c)) as -> by (unfold len in Hc; lia).
  change (x :: c ++ concat ls) with ((x :: c) ++ concat ls).
  rewrite take_app_length, drop_app_length.
  assert (length (x :: c) = Z.to_nat n) as -> by (unfold len in Hc; lia).
  rewrite IH; [done|]. simpl in Hf. rewrite length_app in Hf. lia.
Qed.

Lemma chunks_exact_of_concat {A} n (ls : list (list A)) :
  0 < n -> Forall (fun c => len c = n) ls -> chunks_exact n (concat ls) = ls.
Proof. intros Hn H. unfold chunks_exact, chunks. rewrite chunks_fuel_concat by done. by apply filter_all. Qed.

Lemma concat_Forall {A} (P : A -> Prop) (ls : list (list A)) :
  Forall P (concat ls) -> Forall (Forall P) ls.
Proof. induction ls as [|l ls IH]; simpl; [done|]. rewrite Forall_app. intros [? ?]. constructor; auto. Qed.

Lemma mapM_result_safe {E A B} (f : A -> result E B) l :
  Forall (fun x => safe (f x)) l -> safe (mapM_result f l).
Proof. induction 1; simpl; [done|]. apply safe_bind; [done|]. intros. by apply safe_bind. Qed.

Lemma mapM_result_Forall {E A B} (f : A -> result E B) (P : A -> Prop) (Q : B -> Prop) l ys :
  (forall x y, P x -> f x = Ok y -> Q y) -> Forall P l -> mapM_result f l = Ok ys -> Forall Q ys.
Proof.
  intros Hf Hl. revert ys. induction Hl as [|x l Hx _ IH]; intros ys H; simpl in H.
  - by injection H as <-.
  - inv_ok. constructor; eauto.
Qed.

Lemma safe_chunk_map {E A} (f : bytes -> result E A) n v :
  (forall c, len c = n -> safe (f c)) -> safe (mapM_result f (chunks_exact n v)).
Proof. intros H. apply mapM_result_safe. eapply Forall_impl; [apply chunks_exact_len|exact H]. Qed.

Lemma mapM_result_len {E A B} (f : A -> result E B) l ys :
  mapM_result f l = Ok ys -> length ys = length l.
Proof. revert ys. induction l; intros ys H; simpl in *; inv_ok; simpl; eauto. Qed.

Lemma concat_len_const {A} n (ls : list (list A)) :
  Forall (fun c => len c = n) ls -> len (concat ls) = n * len ls.
Proof. induction 1; simpl; [unfold len; simpl; lia|]. rewrite len_app, len_cons. lia. Qed.

(** ** Stateful methods

    A method that takes [&mut self] and returns a [Result] keeps what it
    changed before an error: it maps a state to the new state and a result. *)

Definition M (S E A : Type) : Type := S -> S * result E A.

Section M.
Context {S E : Type}.

Definition mret {A} (a : A) : M S E A := fun s => (s, Ok a).
Definition mbind {A B} (m : M S E A) (k : A -> M S E B) : M S E B := fun s =>
  match m s with
  | (s', Ok a) => k a s'
  | (s', Err e) => (s', Err e)
  | (s', Panic f) => (s', Panic f)
  end.
(** A call that does not touch the state, with [?]. *)
Definition mlift {A} (r : result E A) : M S E A := fun s => (s, r).
Definition mget {A} (f : S -> A) : M S E A := fun s => (s, Ok (f s)).
Definition mset (f : S -> S) : M S E unit := fun s => (f s, Ok tt).
Definition merr {A} (e : E) : M S E A := fun s => (s, Err e).

(** A method of a field [T] of the state, its error converted by [h]. *)
Definition mzoom {T E' A} (h : E' -> E) (get : S -> T) (put : T -> S -> S) (m : M T E' A) : M S E A :=
  fun s => let '(t, r) := m (get s) in (put t s, map_err h r).

Lemma mbind_ok {A B} (m : M S E A) (k : A -> M S E B) s s' b :
  mbind m k s = (s', Ok b) <-> exists s1 a, m s = (s1, Ok a) /\ k a s1 = (s', Ok b).
Proof. unfold mbind. destruct (m s) as [s1 [a|e|f]]; split; naive_solver. Qed.

Lemma mbind_step {A B} (m : M S E A) (k : A -> M S E B) s s1 a :
  m s = (s1, Ok a) -> mbind m k s = k a s1.
Proof. unfold mbind. by intros ->. Qed.

(** What every run of a method leaves of a property of the state. *)
Definition keeps (P : S -> Prop) {A} (m : M S E A) : Prop := forall s, P s -> P (m s).1.

Lemma keeps_bind (P : S -> Prop) {A B} (m : M S E A) (k : A -> M S E B) :
  keeps P m -> (forall a, keeps P (k a)) -> keeps P (mbind m k).
Proof.
  intros Hm Hk s Hs. unfold mbind. specialize (Hm s Hs). destruct (m s) as [s1 [a|e|f]]; simpl in *; [|done..].
  by apply Hk.
Qed.
Lemma keeps_lift (P : S -> Prop) {A} (r : result E A) : keeps P (mlift r).
Proof. by intros s. Qed.
Lemma keeps_ret (P : S -> Prop) {A} (a : A) : keeps P (mret a).
Proof. by intros s. Qed.
Lemma keeps_get (P : S -> Prop) {A} (f : S -> A) : keeps P (mget f).
Proof. by intros s. Qed.
Lemma keeps_err (P : S -> Prop) {A} (e : E) : keeps P (@merr A e).
Proof. by intros s. Qed.
Lemma keeps_set (P : S -> Prop) (f : S -> S) : (forall s, P s -> P (f s)) -> keeps P (mset f).
Proof. intros Hf s Hs. by apply Hf. Qed.
(** Total correctness: from [s] the method does not panic; it returns into
    [Q], or fails into [X]. *)
Definition wp {A} (m : M S E A) (Q : A -> S -> Prop) (X : E -> S -> Prop) (s : S) : Prop :=
  match m s with
  | (s', Ok a) => Q a s'
  | (s', Err e) => X e s'
  | (_, Panic _) => False
  end.

Lemma wp_bind {A B} (m : M S E A) (k : A -> M S E B) Q X s :
  wp m (fun a => wp (k a) Q X) X s -> wp (mbind m k) Q X s.
Proof. unfold wp, mbind. by destruct (m s) as [s1 [a|e|f]]. Qed.
Lemma wp_mono {A} (m : M S E A) (Q Q' : A -> S -> Prop) (X X' : E -> S -> Prop) s :
  wp m Q X s -> (forall a s', Q a s' -> Q' a s') -> (forall e s', X e s' -> X' e s') -> wp m Q' X' s.
Proof. unfold wp. destruct (m s) as [s1 [a|e|f]]; auto. Qed.
Lemma wp_lift {A} (r : result E A) (Q : A -> S -> Prop) (X : E -> S -> Prop) s :
  safe r -> (forall a, r = Ok a -> Q a s) -> (forall e, r = Err e -> X e s) -> wp (mlift r) Q X s.
Proof. unfold wp, mlift. destruct r; [auto|auto|done]. Qed.
Lemma wp_ok {A} (m : M S E A) Q s : wp m Q (fun _ _ => False) s <-> exists s' a, m s = (s', Ok a) /\ Q a s'.
Proof.
  unfold wp. destruct (m s) as [s1 [a|e|f]]; split; try done; try (by intros (? & ? & [=] & ?)); [by eexists _, _|].
  by intros (? & ? & [= <- <-] & ?).
Qed.
End M.
#[export] Hint Resolve keeps_lift keeps_ret keeps_get keeps_err : meshcop.

Notation "'let*' x ':=' m 'in' k" := (mbind m (fun x => k))
  (at level 10, x name, m at level 100, k at level 200) : result_scope.
Notation "'let*' ' p ':=' m 'in' k" := (mbind m (fun x => match x with p => k end))
  (at level 10, p pattern, m at level 100, k at level 200) : result_scope.
