(* ===== verification/Text.v ===== *)
(** * Text: UTF-8 strings

    A Rust [&str] or [String] is the list of its UTF-8 bytes.  [str_bytes]
    turns a literal of the source into that list, [utf8_valid] is the validity
    test of [core::str::from_utf8], [dec] is the [{}] formatting of an
    unsigned integer and [hex2] the [{:02x}] formatting of a byte. *)
From S2P Require Import Prelude.
From Stdlib Require Import Ascii.

Fixpoint str_bytes (s : string) : bytes :=
  match s with
  | EmptyString => []
  | String c s' => Z.of_N (N_of_ascii c) :: str_bytes s'
  end.

Definition in_range (lo hi b : Z) : bool := (lo <=? b) && (b <=? hi).
Definition utf8_cont (b : Z) : bool := in_range 0x80 0xbf b.

(** The well-formed byte sequences of the Unicode standard, table 3-7. *)
Fixpoint utf8_valid (l : bytes) : bool :=
  match l with
  | [] => true
  | b0 :: r0 =>
      if in_range 0 0x7f b0 then utf8_valid r0
      else if in_range 0xc2 0xdf b0 then
        match r0 with
        | b1 :: r1 => utf8_cont b1 && utf8_valid r1
        | _ => false
        end
      else if in_range 0xe0 0xef b0 then
        match r0 with
        | b1 :: b2 :: r2 =>
            (if b0 =? 0xe0 then in_range 0xa0 0xbf b1
             else if b0 =? 0xed then in_range 0x80 0x9f b1
             else utf8_cont b1)
            && utf8_cont b2 && utf8_valid r2
        | _ => false
        end
      else if in_range 0xf0 0xf4 b0 then
        match r0 with
        | b1 :: b2 :: b3 :: r3 =>
            (if b0 =? 0xf0 then in_range 0x90 0xbf b1
             else if b0 =? 0xf4 then in_range 0x80 0x8f b1
             else utf8_cont b1)
            && utf8_cont b2 && utf8_cont b3 && utf8_valid r3
        | _ => false
        end
      else false
  end.

(** [core::str::from_utf8(v).map_err(|_| e)]. *)
Definition from_utf8 {E} (v : bytes) (e : E) : result E bytes :=
  if utf8_valid v then Ok v else Err e.

Definition dec (n : Z) : string := pretty n.

Definition hex_digit (n : Z) : string :=
  match String.get (Z.to_nat n) "0123456789abcdef" with
  | Some c => String c EmptyString
  | None => EmptyString
  end.
Definition hex2 (n : Z) : string := hex_digit (n / 16) +:+ hex_digit (n mod 16).

(** [{:x}] of a [u16]: no leading zeros. *)
Definition hexu (n : Z) : string :=
  if n <? 0x10 then hex_digit n
  else if n <? 0x100 then hex2 n
  else if n <? 0x1000 then hex_digit (n / 0x100) +:+ hex2 (n mod 0x100)
  else hex2 (n / 0x100) +:+ hex2 (n mod 0x100).

(** ** IPv6 addresses

    [std::net::Ipv6Addr] is its sixteen octets; [ipv6_display] is its
    [Display]: the first longest run of at least two zero groups is written
    [::], and an IPv4-mapped address has a dotted tail. *)

Notation Ipv6Addr := bytes (only parsing).

Fixpoint segments (octets : bytes) : list Z :=
  match octets with
  | a :: b :: r => (a * 256 + b) :: segments r
  | _ => []
  end.

Fixpoint fmt_subslice (l : list Z) : string :=
  match l with
  | [] => ""
  | [s] => hexu s
  | s :: l' => hexu s +:+ ":" +:+ fmt_subslice l'
  end.

(** The scan for the longest run: [start, length] of the best and of the
    current run. *)
Fixpoint zero_span (l : list Z) (i : nat) (longest current : nat * nat) : nat * nat :=
  match l with
  | [] => longest
  | s :: l' =>
      if s =? 0 then
        let current := if (current.2 =? 0)%nat then (i, 1%nat) else (current.1, S current.2) in
        zero_span l' (S i) (if (longest.2 <? current.2)%nat then current else longest) current
      else zero_span l' (S i) longest (0%nat, 0%nat)
  end.

Definition ipv6_display (octets : Ipv6Addr) : string :=
  match octets with
  | [0; 0; 0; 0; 0; 0; 0; 0; 0; 0; 0xff; 0xff; a; b; c; d] =>
      "::ffff:" +:+ dec a +:+ "." +:+ dec b +:+ "." +:+ dec c +:+ "." +:+ dec d
  | _ =>
      let segs := segments octets in
      let '(start, n) := zero_span segs 0 (0%nat, 0%nat) (0%nat, 0%nat) in
      if (1 <? n)%nat
      then fmt_subslice (take start segs) +:+ "::" +:+ fmt_subslice (drop (start + n) segs)
      else fmt_subslice segs
  end.

(** [Ipv6Addr::is_multicast]. *)
Definition is_multicast (octets : Ipv6Addr) : bool :=
  match octets with o :: _ => o =? 0xff | [] => false end.

Example ipv6_display_rloc :
  ipv6_display [0xfd; 0; 0xd; 0xb8; 0; 0; 0; 0; 0; 0; 0; 0xff; 0xfe; 0; 0xfc; 0] = "fd00:db8::ff:fe00:fc00".
Proof. reflexivity. Qed.
Example ipv6_display_multicast :
  ipv6_display [0xff; 2; 0; 0; 0; 0; 0; 0; 0; 0; 0; 0; 0; 0; 0; 1] = "ff02::1".
Proof. reflexivity. Qed.

Lemma str_bytes_ok s : bytes_ok (str_bytes s).
Proof.
  induction s as [|c s IH]; simpl; constructor; [|done].
  pose proof (N_ascii_bounded c). unfold uint. lia.
Qed.
#[export] Hint Resolve str_bytes_ok : meshcop.

Lemma safe_from_utf8 {E} v (e : E) : safe (from_utf8 v e).
Proof. unfold from_utf8; by destruct (utf8_valid v). Qed.
#[export] Hint Resolve safe_from_utf8 : meshcop.

Lemma from_utf8_ok {E} v (e : E) s : from_utf8 v e = Ok s <-> s = v /\ utf8_valid v = true.
Proof. unfold from_utf8; destruct (utf8_valid v); naive_solver. Qed.
