(* ===== verification/Hex.v ===== *)
(** * Hex: the [hex] crate

    [hex::encode] and [hex::decode] are another crate's: a class of their two
    functions, the error as its [Display] text, with the documented laws. *)
From S2P Require Import Prelude Text.

Class Hex := {
  hex_encode : bytes -> string;
  hex_decode : bytes -> string + bytes }.

(** Two lower-case digits for each byte. *)
Fixpoint hex_digits (l : bytes) : string :=
  match l with [] => "" | b :: l => hex2 b +:+ hex_digits l end.

Class HexLaws `{Hex} : Prop := {
  hex_encode_lower l : bytes_ok l -> hex_encode l = hex_digits l;
  hex_decode_encode l : bytes_ok l -> hex_decode (str_bytes (hex_encode l)) = inr l;
  hex_decode_bytes s l : hex_decode s = inr l -> bytes_ok l }.

Lemma str_bytes_app s t : str_bytes (s +:+ t) = str_bytes s ++ str_bytes t.
Proof. induction s as [|c s IH]; [done|]. change (String c s +:+ t) with (String c (s +:+ t)). cbn [str_bytes]. by rewrite IH. Qed.

(** The bytes of a lower-case hexadecimal digit. *)
Definition is_lower_hex (b : Z) : bool := in_range 0x30 0x39 b || in_range 0x61 0x66 b.
Lemma hex_digit_lower n : 0 <= n < 16 -> exists b, str_bytes (hex_digit n) = [b] /\ is_lower_hex b = true.
Proof.
  intros Hn. assert (n ∈ map Z.of_nat (seq 0 16)) as H by (apply list_elem_of_In, in_map_iff; exists (Z.to_nat n); rewrite in_seq; lia).
  assert (Forall (fun n => exists b, str_bytes (hex_digit n) = [b] /\ is_lower_hex b = true) (map Z.of_nat (seq 0 16))) as HF
    by (repeat constructor; eexists; split; reflexivity).
  by eapply Forall_forall in HF.
Qed.
Lemma hex_digits_lower l : bytes_ok l -> Forall (fun b => is_lower_hex b = true) (str_bytes (hex_digits l)).
Proof.
  induction 1 as [|b l Hb _ IH]; cbn; [constructor|]. unfold hex2. unfold uint in Hb. rewrite !str_bytes_app.
  destruct (hex_digit_lower (b / 16)) as (x & -> & Hx); [Z.to_euclidean_division_equations; lia|].
  destruct (hex_digit_lower (b mod 16)) as (y & -> & Hy); [Z.to_euclidean_division_equations; lia|].
  by repeat constructor.
Qed.

(** ** An instance *)

Module ToyHex.
Definition hex_value (b : Z) : option Z :=
  if in_range 0x30 0x39 b then Some (b - 0x30)
  else if in_range 0x61 0x66 b then Some (b - 0x61 + 10)
  else if in_range 0x41 0x46 b then Some (b - 0x41 + 10) else None.
Fixpoint decode (s : bytes) : string + bytes :=
  match s with
  | [] => inr []
  | [_] => inl "Odd number of digits"%string
  | a :: b :: s =>
      match hex_value a, hex_value b, decode s with
      | Some x, Some y, inr l => inr (x * 16 + y :: l)
      | Some _, Some _, e => e
      | _, _, _ => inl "Invalid character"%string
      end
  end.
#[export] Instance toy_hex : Hex := { hex_encode := hex_digits; hex_decode := decode }.

Lemma decode_digits l : bytes_ok l -> decode (str_bytes (hex_digits l)) = inr l.
Proof.
  induction 1 as [|b l Hb _ IH]; [done|]. cbn [hex_digits]. rewrite str_bytes_app.
  assert (b ∈ map Z.of_nat (seq 0 256)) as H
    by (unfold uint in Hb; apply list_elem_of_In, in_map_iff; exists (Z.to_nat b); rewrite in_seq; lia).
  assert (Forall (fun b => forall s, decode (str_bytes (hex2 b) ++ s) = match decode s with inr l => inr (b :: l) | e => e end)
            (map Z.of_nat (seq 0 256))) as HF by (repeat constructor; intros s; reflexivity).
  rewrite Forall_forall in HF. by rewrite HF, IH.
Qed.
Lemma hex_value_range b v : hex_value b = Some v -> 0 <= v < 16.
Proof. unfold hex_value, in_range. repeat case_match; try done; intros [= <-]; zbool; lia. Qed.
Lemma decode_ok s l : decode s = inr l -> bytes_ok l.
Proof.
  revert l. remember (length s) as n eqn:En. revert s En. induction (lt_wf n) as [n _ IH]. intros s -> l.
  destruct s as [|a [|b s]]; cbn [decode]; [by intros [= <-]; constructor|done|].
  destruct (hex_value a) as [x|] eqn:Ea, (hex_value b) as [y|] eqn:Eb; try done.
  destruct (decode s) as [e|k] eqn:E; [done|]. intros [= <-]. apply hex_value_range in Ea, Eb.
  constructor; [unfold uint; lia|]. eapply (IH (length s)); [cbn; lia|done|exact E].
Qed.
#[export] Instance toy_hex_laws : HexLaws.
Proof. split; [done|exact decode_digits|exact decode_ok]. Qed.
End ToyHex.
