(* ===== verification/Tlv.v ===== *)
(** * Tlv: the TLV codec of crates/meshcop/src/tlv.rs and wire.rs

    Standard (one length byte) and extended (marker and two length bytes)
    TLVs, the ordered [TlvSet] collection, and the fixed-width readers. *)
From S2P Require Import Prelude Text.

Definition MAX_STANDARD_TLV_LENGTH : Z := 254.
Definition EXTENDED_TLV_MARKER : Z := 0xff.
Definition MAX_EXTENDED_TLV_LENGTH : Z := 2 ^ 16 - 1.

Inductive TlvError :=
  | BufferTooSmall
  | InvalidLength
  | InvalidValue
  | ValueTooLarge (n : Z).

Record TlvEntry := mkTlvEntry { ty : Z; value : bytes }.

Record TlvSet := mkTlvSet { entries : list TlvEntry }.

#[global] Instance TlvEntry_eq_dec : EqDecision TlvEntry.
Proof. solve_decision. Defined.
#[global] Instance TlvSet_eq_dec : EqDecision TlvSet.
Proof. solve_decision. Defined.

(** A function writing to an [out: &mut Vec<u8>] returns the buffer as it is
    left, also when it fails. *)
Definition written {E} (r : bytes * result E unit) : result E bytes :=
  let! _ := r.2 in Ok r.1.

Definition encode_header (ty length : Z) (out : bytes) : bytes * result TlvError unit :=
  let out := out ++ [ty] in
  if length <=? MAX_STANDARD_TLV_LENGTH then (out ++ [wrap 8 length], Ok tt)
  else if length <=? MAX_EXTENDED_TLV_LENGTH then
    (out ++ [EXTENDED_TLV_MARKER] ++ to_be 2 (wrap 16 length), Ok tt)
  else (out, Err (ValueTooLarge length)).

Definition TlvEntry_encode (self : TlvEntry) (out : bytes) : bytes * result TlvError unit :=
  match encode_header (ty self) (len (value self)) out with
  | (out, Ok _) => (out ++ value self, Ok tt)
  | (out, r) => (out, r)
  end.

Definition parse_one (bytes : bytes) : result TlvError (TlvEntry * Prelude.bytes) :=
  if len bytes <? 2 then Err BufferTooSmall
  else
    let! ty := idx bytes 0 in
    let! length_byte := idx bytes 1 in
    let! '(length, header_len) :=
      if length_byte =? EXTENDED_TLV_MARKER then
        if len bytes <? 4 then Err BufferTooSmall
        else
          let! hi := idx bytes 2 in
          let! lo := idx bytes 3 in
          Ok (from_be [hi; lo], 4)
      else Ok (length_byte, 2) in
    let! end_ := ok_or (checked_add usize_bits header_len length) InvalidLength in
    if len bytes <? end_ then Err BufferTooSmall
    else
      let! v := slice bytes header_len end_ in
      let! rest := slice_from bytes end_ in
      Ok (mkTlvEntry ty v, rest).

Definition TlvSet_parse (bytes : bytes) : result TlvError TlvSet :=
  map_ok mkTlvSet (many parse_one bytes).

Fixpoint encode_entries (l : list TlvEntry) (out : bytes) : result TlvError bytes :=
  match l with
  | [] => Ok out
  | e :: l' => let! out := written (TlvEntry_encode e out) in encode_entries l' out
  end.

Definition TlvSet_encode (self : TlvSet) : result TlvError bytes :=
  encode_entries (entries self) [].

Definition TlvSet_push (self : TlvSet) (entry : TlvEntry) : TlvSet :=
  mkTlvSet (entries self ++ [entry]).

Definition last_value (self : TlvSet) (t : Z) : option bytes :=
  value <$> List.find (fun entry => ty entry =? t) (reverse (entries self)).

Definition set_last (self : TlvSet) (t : Z) (v : bytes) : TlvSet :=
  mkTlvSet (List.filter (fun entry => negb (ty entry =? t)) (entries self) ++ [mkTlvEntry t v]).

(** crates/meshcop/src/wire.rs: [value.try_into::<[u8; N]>()] then
    [from_be_bytes]. *)
Definition wire_read (n : Z) (value : bytes) : option Z :=
  if len value =? n then Some (from_be value) else None.
Definition wire_read_u16 := wire_read 2.
Definition wire_read_u32 := wire_read 4.
Definition wire_read_u64 := wire_read 8.

Definition read_u16 (value : bytes) : result TlvError Z := ok_or (wire_read_u16 value) InvalidLength.
Definition read_u32 (value : bytes) : result TlvError Z := ok_or (wire_read_u32 value) InvalidLength.
Definition read_u64 (value : bytes) : result TlvError Z := ok_or (wire_read_u64 value) InvalidLength.

(** ** Canonical encoding of an entry *)

Definition tlv_wf (e : TlvEntry) : Prop :=
  is_u8 (ty e) /\ bytes_ok (value e) /\ len (value e) <= MAX_EXTENDED_TLV_LENGTH.

Definition TlvSet_wf (s : TlvSet) : Prop := Forall tlv_wf (entries s).

#[global] Instance tlv_wf_dec e : Decision (tlv_wf e).
Proof. unfold tlv_wf. apply _. Defined.
#[global] Instance TlvSet_wf_dec s : Decision (TlvSet_wf s).
Proof. unfold TlvSet_wf. apply _. Defined.

Definition tlv_header (t n : Z) : bytes :=
  if n <=? MAX_STANDARD_TLV_LENGTH then [t; n] else t :: EXTENDED_TLV_MARKER :: to_be 2 n.

Definition tlv_bytes (e : TlvEntry) : bytes := tlv_header (ty e) (len (value e)) ++ value e.

Lemma TlvEntry_encode_ok e out :
  len (value e) <= MAX_EXTENDED_TLV_LENGTH ->
  TlvEntry_encode e out = (out ++ tlv_bytes e, Ok tt).
Proof.
  intros Hl; unfold TlvEntry_encode, encode_header, tlv_bytes, tlv_header.
  pose proof (len_nonneg (value e)). unfold MAX_EXTENDED_TLV_LENGTH, MAX_STANDARD_TLV_LENGTH in *.
  destruct (len (value e) <=? 254) eqn:?; zbool.
  - rewrite wrap_small by (unfold uint; lia). by rewrite <- !(assoc_L (++)).
  - rewrite (proj2 (Z.leb_le _ _)) by lia.
    rewrite wrap_small by (unfold uint; lia). by rewrite <- !(assoc_L (++)).
Qed.

Lemma TlvEntry_encode_err e out :
  MAX_EXTENDED_TLV_LENGTH < len (value e) ->
  (TlvEntry_encode e out).2 = Err (ValueTooLarge (len (value e))).
Proof.
  intros Hl; unfold TlvEntry_encode, encode_header, MAX_EXTENDED_TLV_LENGTH in *.
  unfold MAX_STANDARD_TLV_LENGTH. by rewrite !(proj2 (Z.leb_gt _ _)) by lia.
Qed.

Lemma encode_entries_ok l out :
  Forall (fun e => len (value e) <= MAX_EXTENDED_TLV_LENGTH) l ->
  encode_entries l out = Ok (out ++ concat (map tlv_bytes l)).
Proof.
  intros H; revert out; induction H as [|e l He _ IH]; intros out; simpl.
  - by rewrite app_nil_r.
  - unfold written; rewrite TlvEntry_encode_ok by done. simpl. by rewrite IH, (assoc_L (++)).
Qed.

Lemma TlvSet_encode_ok s :
  TlvSet_wf s -> TlvSet_encode s = Ok (concat (map tlv_bytes (entries s))).
Proof.
  intros H; unfold TlvSet_encode. rewrite encode_entries_ok; [done|].
  eapply Forall_impl; [exact H|]. by intros e (? & ? & ?).
Qed.

(** ** The parser on one entry *)

Lemma checked_add_usize a b :
  0 <= a + b <= 2 ^ 48 -> checked_add usize_bits a b = Some (a + b).
Proof.
  intros. unfold checked_add, usize_bits. by rewrite (proj2 (Z.ltb_lt _ _)) by lia.
Qed.

Lemma parse_one_value t v hdr rest n :
  n = len hdr -> n + len v <= 2 ^ 48 ->
  (let! end_ := ok_or (checked_add usize_bits n (len v)) InvalidLength in
   if len (hdr ++ v ++ rest) <? end_ then Err BufferTooSmall
   else
     let! v' := slice (hdr ++ v ++ rest) n end_ in
     let! rest' := slice_from (hdr ++ v ++ rest) end_ in
     Ok (mkTlvEntry t v', rest')) = Ok (mkTlvEntry t v, rest).
Proof.
  intros -> Hb. pose proof (len_nonneg hdr); pose proof (len_nonneg v); pose proof (len_nonneg rest).
  rewrite checked_add_usize by lia. simpl.
  rewrite (proj2 (Z.ltb_ge _ _)) by (rewrite !len_app; lia).
  rewrite slice_prefix. simpl. rewrite <- len_app, (assoc_L (++)), slice_from_prefix. done.
Qed.

Lemma parse_one_tlv_bytes e rest : tlv_wf e -> parse_one (tlv_bytes e ++ rest) = Ok (e, rest).
Proof.
  intros (Ht & Hv & Hl). destruct e as [t v]; simpl in *.
  pose proof (len_nonneg v); pose proof (len_nonneg rest).
  unfold MAX_EXTENDED_TLV_LENGTH in Hl.
  unfold tlv_bytes, tlv_header, parse_one, MAX_STANDARD_TLV_LENGTH, EXTENDED_TLV_MARKER; simpl value; simpl ty.
  destruct (len v <=? 254) eqn:?; zbool.
  - rewrite <- (assoc_L (++)).
    rewrite (proj2 (Z.ltb_ge _ _)) by (autorewrite with len; lia).
    eval_idx. rewrite (proj2 (Z.eqb_neq _ _)) by lia.
    cbn [rbind]. apply (parse_one_value t v [t; len v] rest 2); [done|lia].
  - rewrite <- (assoc_L (++)).
    rewrite (proj2 (Z.ltb_ge _ _)) by (autorewrite with len; simpl; lia).
    eval_idx. rewrite Z.eqb_refl.
    rewrite (proj2 (Z.ltb_ge _ _)) by (autorewrite with len; simpl; lia).
    eval_idx. change [(len v / 2 ^ (8 * Z.of_nat 1)) mod 256; (len v / 2 ^ (8 * Z.of_nat 0)) mod 256] with (to_be 2 (len v)).
    rewrite from_to_be_small by (unfold uint; simpl; lia).
    apply (parse_one_value t v (t :: 255 :: to_be 2 (len v)) rest 4); [done|lia].
Qed.

(** What one successful parse step says about its input: a header of two or
    four bytes, then the value, then the rest. *)
Lemma parse_one_inv bs e rest :
  bytes_ok bs -> parse_one bs = Ok (e, rest) ->
  exists hdr, bs = hdr ++ value e ++ rest /\ tlv_wf e /\ bytes_ok rest /\
    len (tlv_header (ty e) (len (value e))) <= len hdr.
Proof.
  intros Hok H. unfold parse_one in H.
  destruct (len bs <? 2) eqn:?; [done|]. zbool.
  destruct bs as [|t [|lb bs]]; [done..|].
  apply Forall_cons_1 in Hok as [Ht Hok]. apply Forall_cons_1 in Hok as [Hlb Hok].
  eval_idx_in H.
  apply rbind_ok in H as ([n hl] & Hn & H).
  assert (exists hdr body, t :: lb :: bs = hdr ++ body /\ bytes_ok body /\ len hdr = hl /\
     0 <= n <= MAX_EXTENDED_TLV_LENGTH /\ len (tlv_header t n) <= hl) as
     (hdr & body & Heq & Hbody & <- & Hn' & Hh).
  { unfold tlv_header, MAX_EXTENDED_TLV_LENGTH, MAX_STANDARD_TLV_LENGTH.
    destruct (lb =? EXTENDED_TLV_MARKER) eqn:Hm; zbool.
    - destruct bs as [|hi [|lo bs]]; [done..|].
      apply Forall_cons_1 in Hok as [Hhi Hok]. apply Forall_cons_1 in Hok as [Hlo Hok].
      rewrite (proj2 (Z.ltb_ge _ _)) in Hn
        by (autorewrite with len; pose proof (len_nonneg bs); lia).
      eval_idx_in Hn. injection Hn as <- <-.
      exists [t; lb; hi; lo], bs. unfold uint in *. rewrite from_be_2.
      repeat split; [done|lia|lia|]. destruct (_ <=? 254); autorewrite with len; simpl; lia.
    - injection Hn as <- <-. exists [t; lb], bs. unfold uint, EXTENDED_TLV_MARKER in *.
      repeat split; [done|lia|lia|].
      rewrite (proj2 (Z.leb_le _ _)) by lia. done. }
  rewrite Heq in H. pose proof (len_nonneg hdr). unfold MAX_EXTENDED_TLV_LENGTH in *.
  assert (len hdr <= 4).
  { destruct (lb =? _); inv_ok; simplify_eq; lia. }
  rewrite checked_add_usize in H by lia. simpl in H.
  destruct (_ <? _) eqn:?; [done|]; zbool. rewrite len_app in *.
  rewrite slice_ok, slice_from_ok in H by (rewrite ?len_app; lia). simpl in H.
  replace (len hdr + n - len hdr) with n in H by lia.
  rewrite Z2Nat.inj_add, to_nat_len, drop_app_length, drop_app_add in H by lia.
  injection H as <- <-. exists hdr; simpl. rewrite take_drop.
  assert (len (take (Z.to_nat n) body) = n) as Hlen by (apply len_take; lia).
  split_and!; [done| |by apply Forall_drop|by rewrite Hlen].
  unfold tlv_wf, MAX_EXTENDED_TLV_LENGTH; simpl. rewrite Hlen.
  split_and!; [done|by apply Forall_take|lia].
Qed.

Lemma checked_add_inv w a b c : checked_add w a b = Some c -> c = a + b.
Proof. unfold checked_add; case_match; naive_solver. Qed.

Lemma parse_one_consumes : consumes parse_one.
Proof.
  intros bs e rest H. unfold parse_one in H. inv_ok.
  all: repeat match goal with
    | H : checked_add _ _ _ = Some _ |- _ => apply checked_add_inv in H as ->
    | H : slice_from _ _ = Ok _ |- _ => apply slice_from_inv in H as (? & _ & ->)
    | H : slice _ _ _ = Ok _ |- _ => apply slice_inv in H as (? & ? & _ & _)
    end; simplify_eq; lia.
Qed.

Lemma parse_one_safe bs : bytes_ok bs -> safe (parse_one bs).
Proof.
  intros Hok. unfold parse_one. safe_auto.
  all: match goal with H : ok_or _ _ = Ok _ |- _ =>
    apply ok_or_ok, checked_add_inv in H as -> end.
  all: inv_ok; repeat match goal with
    | H : idx _ _ = Ok _ |- _ => apply (idx_Forall _ _ _ _ Hok) in H end.
  all: simplify_eq; rewrite ?from_be_2 in *; unfold uint in *; lia.
Qed.

(** ** The collection *)

Lemma TlvSet_parse_ok bs s : TlvSet_parse bs = Ok s <-> many parse_one bs = Ok (entries s).
Proof.
  unfold TlvSet_parse. rewrite map_ok_ok. split; [by intros (? & ? & ->)|].
  intros ?; exists (entries s). by destruct s.
Qed.

Lemma safe_many_ok {E A} (step : bytes -> result E (A * bytes)) bs :
  consumes step -> (forall r, bytes_ok r -> safe (step r)) ->
  (forall r x rest, bytes_ok r -> step r = Ok (x, rest) -> bytes_ok rest) ->
  bytes_ok bs -> safe (many step bs).
Proof.
  intros Hc Hs Hr. induction bs as [bs IH] using (many_ind_len); intros Hok.
  destruct (decide (bs = [])) as [->|Hne]; [done|].
  rewrite many_unfold by done. apply safe_bind; [auto|]. intros [x rest] Hstep.
  apply safe_bind; [|done]. apply IH; eauto.
Qed.

Lemma many_parse_one_wf bs l :
  bytes_ok bs -> many parse_one bs = Ok l ->
  Forall tlv_wf l /\ len (concat (map tlv_bytes l)) <= len bs.
Proof.
  revert l. induction bs as [bs IH] using many_ind_len. intros l Hok.
  destruct (decide (bs = [])) as [->|Hne].
  - rewrite many_nil. intros [= <-]. by split.
  - rewrite many_unfold by (done || apply parse_one_consumes). intros; inv_ok.
    match goal with H : parse_one _ = _ |- _ =>
      pose proof (parse_one_consumes _ _ _ H) as Hlt;
      apply parse_one_inv in H as (hdr & -> & ? & ? & ?); [|done] end.
    match goal with H : many _ _ = _ |- _ => apply IH in H as [? ?]; [|done..] end.
    split; [by constructor|]. simpl. unfold tlv_bytes at 1. autorewrite with len in *. lia.
Qed.

Lemma tlv_bytes_ok e : tlv_wf e -> bytes_ok (tlv_bytes e).
Proof.
  intros (Ht & Hv & Hl). unfold tlv_bytes, tlv_header, MAX_STANDARD_TLV_LENGTH, EXTENDED_TLV_MARKER.
  pose proof (len_nonneg (value e)).
  apply Forall_app; split; [|done]. destruct (_ <=? _) eqn:?; zbool.
  - repeat constructor; (apply Ht || lia).
  - repeat constructor; try (apply Ht || lia || apply Z.mod_pos_bound; lia).
Qed.

Lemma TlvSet_parse_concat l :
  Forall tlv_wf l -> TlvSet_parse (concat (map tlv_bytes l)) = Ok (mkTlvSet l).
Proof.
  intros Hl. apply TlvSet_parse_ok. apply (many_encode _ parse_one_consumes _ tlv_wf); [|done].
  intros; by apply parse_one_tlv_bytes.
Qed.

Lemma parse_one_rest_ok r x rest : bytes_ok r -> parse_one r = Ok (x, rest) -> bytes_ok rest.
Proof. intros Hr H. by apply parse_one_inv in H as (? & ? & ? & ? & ?). Qed.

Lemma TlvSet_parse_safe bs : bytes_ok bs -> safe (TlvSet_parse bs).
Proof.
  intros. apply safe_map_ok, safe_many_ok;
    eauto using parse_one_consumes, parse_one_safe, parse_one_rest_ok.
Qed.

Lemma TlvSet_parse_wf bs s : bytes_ok bs -> TlvSet_parse bs = Ok s -> TlvSet_wf s.
Proof. intros ? H%TlvSet_parse_ok. by apply many_parse_one_wf in H as [? _]. Qed.

#[export] Hint Resolve TlvSet_parse_safe : meshcop.

Lemma find_filter_neg (f g : TlvEntry -> bool) l :
  (forall e, f e = true -> g e = true) -> List.find f (List.filter g l) = List.find f l.
Proof.
  intros Hfg. induction l as [|e l IH]; simpl; [done|].
  destruct (f e) eqn:Hf.
  - rewrite (Hfg e Hf). simpl. by rewrite Hf.
  - destruct (g e); simpl; [rewrite Hf|]; done.
Qed.

Lemma reverse_filter {A} (f : A -> bool) l :
  reverse (List.filter f l) = List.filter f (reverse l).
Proof.
  induction l as [|x l IH]; [done|]. rewrite reverse_cons, List.filter_app. simpl.
  destruct (f x); simpl; rewrite ?reverse_cons, ?IH, ?app_nil_r; done.
Qed.

Lemma last_value_set_last_eq s t v : last_value (set_last s t v) t = Some v.
Proof.
  unfold last_value, set_last. cbn [entries]. rewrite reverse_app. simpl. by rewrite Z.eqb_refl.
Qed.

Lemma last_value_set_last_ne s t t' v :
  t <> t' -> last_value (set_last s t v) t' = last_value s t'.
Proof.
  intros Hne. unfold last_value, set_last. cbn [entries]. rewrite reverse_app. simpl.
  rewrite (proj2 (Z.eqb_neq _ _)) by done. rewrite reverse_filter, find_filter_neg; [done|].
  intros e He%Z.eqb_eq. apply negb_true_iff, Z.eqb_neq. lia.
Qed.

Lemma last_value_in s t v : last_value s t = Some v -> mkTlvEntry t v ∈ entries s.
Proof.
  unfold last_value. intros (e & He & ->)%fmap_Some.
  apply List.find_some in He as [Hin Ht%Z.eqb_eq].
  apply list_elem_of_In in Hin. rewrite elem_of_reverse in Hin. subst t. by destruct e.
Qed.

Lemma last_value_wf s t v : TlvSet_wf s -> last_value s t = Some v -> bytes_ok v.
Proof.
  intros Hs H%last_value_in. unfold TlvSet_wf in Hs. rewrite Forall_forall in Hs.
  by apply Hs in H as (? & ? & ?).
Qed.

(** ** Properties *)

(** Encoding then parsing a TLV collection whose types are bytes and whose
    values fit the extended length gives back exactly the collection, with
    wire order, duplicates and unknown types preserved. *)
Theorem tlv_roundtrip s :
  TlvSet_wf s ->
  exists b, TlvSet_encode s = Ok b /\ bytes_ok b /\ TlvSet_parse b = Ok s.
Proof.
  intros Hs. exists (concat (map tlv_bytes (entries s))). split_and!.
  - by apply TlvSet_encode_ok.
  - apply Forall_concat, Forall_map. eapply Forall_impl; [exact Hs|]. apply tlv_bytes_ok.
  - destruct s. by apply TlvSet_parse_concat.
Qed.

Lemma tlv_roundtrip_witness :
  let s := mkTlvSet [mkTlvEntry 1 [0xaa; 0xbb]; mkTlvEntry 2 (repeat 0x11 255); mkTlvEntry 1 []] in
  TlvSet_wf s /\ exists b, TlvSet_encode s = Ok b /\ bytes_ok b /\ TlvSet_parse b = Ok s.
Proof.
  intros s. assert (TlvSet_wf s) as H by by_decide.
  split; [exact H|exact (tlv_roundtrip s H)].
Defined.

(** The parser never panics and always terminates on wire bytes, and what
    it accepts re-encodes, in canonical (shortest) headers, to a byte string no
    longer than the input that parses to the same collection. *)
Theorem tlv_parse_total_canonical bs :
  bytes_ok bs ->
  safe (TlvSet_parse bs) /\
  forall s, TlvSet_parse bs = Ok s ->
    TlvSet_wf s /\ exists b, TlvSet_encode s = Ok b /\ len b <= len bs /\ TlvSet_parse b = Ok s.
Proof.
  intros Hok. split; [by apply TlvSet_parse_safe|]. intros s H.
  pose proof (TlvSet_parse_wf _ _ Hok H) as Hwf. split; [done|].
  exists (concat (map tlv_bytes (entries s))). split_and!.
  - by apply TlvSet_encode_ok.
  - apply TlvSet_parse_ok in H. by apply many_parse_one_wf in H as [_ ?].
  - destruct s. by apply TlvSet_parse_concat.
Qed.

Lemma tlv_parse_total_canonical_witness :
  let bs := [7; 0xff; 0; 1; 0x2a] in
  TlvSet_parse bs = Ok (mkTlvSet [mkTlvEntry 7 [0x2a]]) /\ safe (TlvSet_parse bs).
Proof.
  intros bs. split; [reflexivity|].
  apply (tlv_parse_total_canonical bs). by_decide.
Defined.

(** [set_last] makes the value the last one of its type, leaves the last
    value of every other type alone, and leaves exactly one entry of the type. *)
Theorem tlv_set_last_spec s t v :
  last_value (set_last s t v) t = Some v /\
  (forall t', t <> t' -> last_value (set_last s t v) t' = last_value s t') /\
  List.filter (fun e => ty e =? t) (entries (set_last s t v)) = [mkTlvEntry t v].
Proof.
  split_and!; [apply last_value_set_last_eq|intros; by apply last_value_set_last_ne|].
  unfold set_last; cbn [entries]. rewrite List.filter_app. simpl. rewrite Z.eqb_refl.
  assert (forall l, List.filter (fun e => ty e =? t)
    (List.filter (fun e => negb (ty e =? t)) l) = []) as ->; [|done].
  induction l as [|e l IH]; simpl; [done|]. destruct (ty e =? t) eqn:E; simpl; [|rewrite E]; done.
Qed.
