(* ===== verification/Errors.v ===== *)
(** * Errors: the error types of the two crates

    [DtlsError] is [Error] of crates/meshcop-dtls/src/error.rs and [Error] the
    one of crates/meshcop/src/error.rs.  Payloads that come from the operating
    system or from other crates ([std::io::Error], [hex::FromHexError]) are
    kept as opaque strings.  [to_string] functions are the Display impls the
    drivers render errors with, as UTF-8 bytes. *)
From S2P Require Import Prelude Text Tlv.

Inductive DtlsError :=
  | DCrypto (msg : string)
  | DInvalidState (msg : string)
  | DTimeout (msg : string)
  | DPeerClosed
  | DIo (msg : string).

(** Why a commissioner session ended (crates/meshcop/src/commissioner/types.rs). *)
Inductive CloseReason :=
  | Resigned
  | KeepAliveRejected
  | KeepAlivePending
  | KeepAliveFailed (error : bytes)
  | PeerClosed
  | TransportFailed (error : bytes)
  | TaskStopped.
#[global] Instance CloseReason_eq_dec : EqDecision CloseReason.
Proof. solve_decision. Defined.

(** The commissioner crate. *)
Inductive Error :=
  | EConfiguration (msg : string)
  | ETlv (e : TlvError)
  | EDataset (msg : string)
  | ECrypto (msg : string)
  | EDtls (e : DtlsError)
  | EHex (msg : string)
  | EIo (msg : string)
  | ETimeout (msg : string)
  | EInvalidState (msg : string)
  | EPetitionRejected (existing_commissioner_id : option bytes)
  | ESessionClosed
  | ESessionLost (reason : CloseReason)
  | EUnsupported (msg : string).

Definition CloseReason_to_string (self : CloseReason) : bytes :=
  match self with
  | Resigned => str_bytes "the application ended the session"
  | KeepAliveRejected => str_bytes "a keep-alive was rejected"
  | KeepAlivePending => str_bytes "a keep-alive was answered with Pending"
  | KeepAliveFailed error => str_bytes "a keep-alive failed: " ++ error
  | PeerClosed => str_bytes "the border agent closed the DTLS session"
  | TransportFailed error => str_bytes "the transport failed: " ++ error
  | TaskStopped => str_bytes "the session task stopped unexpectedly"
  end.

Definition TlvError_to_string (self : TlvError) : bytes :=
  match self with
  | BufferTooSmall => str_bytes "buffer too small"
  | InvalidLength => str_bytes "invalid TLV length"
  | InvalidValue => str_bytes "invalid TLV value"
  | ValueTooLarge n => str_bytes ("TLV value too large: " +:+ dec n +:+ " bytes")
  end.

Definition DtlsError_to_string (self : DtlsError) : bytes :=
  match self with
  | DCrypto msg => str_bytes ("crypto error: " +:+ msg)
  | DInvalidState msg => str_bytes ("invalid state: " +:+ msg)
  | DTimeout msg => str_bytes ("timeout: " +:+ msg)
  | DPeerClosed => str_bytes "peer closed the DTLS session"
  | DIo msg => str_bytes ("I/O error: " +:+ msg)
  end.

Definition petition_rejected_suffix (existing_commissioner_id : option bytes) : bytes :=
  match existing_commissioner_id with
  | Some id => str_bytes " by existing commissioner `" ++ id ++ str_bytes "`"
  | None => []
  end.

Definition Error_to_string (self : Error) : bytes :=
  match self with
  | EConfiguration msg => str_bytes ("configuration error: " +:+ msg)
  | ETlv e => str_bytes "TLV error: " ++ TlvError_to_string e
  | EDataset msg => str_bytes ("dataset error: " +:+ msg)
  | ECrypto msg => str_bytes ("crypto error: " +:+ msg)
  | EDtls e => DtlsError_to_string e
  | EHex msg => str_bytes ("invalid hex: " +:+ msg)
  | EIo msg => str_bytes ("I/O error: " +:+ msg)
  | ETimeout msg => str_bytes ("timeout: " +:+ msg)
  | EInvalidState msg => str_bytes ("invalid state: " +:+ msg)
  | EPetitionRejected id => str_bytes "petition was rejected" ++ petition_rejected_suffix id
  | ESessionClosed => str_bytes "commissioner session is closed"
  | ESessionLost reason => str_bytes "commissioner session was lost: " ++ CloseReason_to_string reason
  | EUnsupported msg => str_bytes ("unsupported operation: " +:+ msg)
  end.

(** [?] from [Result<_, TlvError>] and [meshcop_dtls::Result<_>] into the
    commissioner's [Result<_>] (the [#[from]] conversions). *)
Definition from_tlv {A} (r : result TlvError A) : result Error A := map_err ETlv r.
Definition from_dtls {A} (r : result DtlsError A) : result Error A := map_err EDtls r.

Lemma safe_from_tlv {A} (r : result TlvError A) : safe r -> safe (from_tlv r).
Proof. apply safe_map_err. Qed.
Lemma safe_from_dtls {A} (r : result DtlsError A) : safe r -> safe (from_dtls r).
Proof. apply safe_map_err. Qed.
#[export] Hint Resolve safe_from_tlv safe_from_dtls : meshcop.

Lemma from_tlv_ok {A} (r : result TlvError A) a : from_tlv r = Ok a <-> r = Ok a.
Proof. apply map_err_ok. Qed.
Lemma from_dtls_ok {A} (r : result DtlsError A) a : from_dtls r = Ok a <-> r = Ok a.
Proof. apply map_err_ok. Qed.
