(* ===== verification/Dataset.v ===== *)
(** * Dataset: operational datasets, crates/meshcop/src/dataset.rs

    The TLV-backed dataset with its typed accessors, and the value codecs of
    channels, timestamps, security policies and channel masks. *)
From S2P Require Import Prelude Text Hex Tlv Errors.

Definition DS_TLV_CHANNEL : Z := 0x00.
Definition DS_TLV_PAN_ID : Z := 0x01.
Definition DS_TLV_EXTENDED_PAN_ID : Z := 0x02.
Definition DS_TLV_NETWORK_NAME : Z := 0x03.
Definition DS_TLV_PSKC : Z := 0x04.
Definition DS_TLV_NETWORK_KEY : Z := 0x05.
Definition DS_TLV_MESH_LOCAL_PREFIX : Z := 0x07.
Definition DS_TLV_SECURITY_POLICY : Z := 0x0c.
Definition DS_TLV_ACTIVE_TIMESTAMP : Z := 0x0e.
Definition DS_TLV_PENDING_TIMESTAMP : Z := 0x33.
Definition DS_TLV_DELAY_TIMER : Z := 0x34.
Definition DS_TLV_CHANNEL_MASK : Z := 0x35.

(** ** Channel *)

Record Channel := mkChannel { channel_page : Z; channel_number : Z }.

Definition Channel_parse (value : bytes) : result Error Channel :=
  if negb (len value =? 3) then Err (EDataset "channel TLV must be 3 bytes")
  else
    let! b0 := idx value 0 in
    let! b1 := idx value 1 in
    let! b2 := idx value 2 in
    Ok (mkChannel b0 (from_be [b1; b2])).

Definition Channel_to_value (self : Channel) : bytes :=
  channel_page self :: to_be 2 (channel_number self).

(** ** Timestamp *)

Record Timestamp := Timestamp_from_raw { timestamp_raw : Z }.

Definition Timestamp_from_components (seconds ticks : Z) (authoritative : bool) : Timestamp :=
  Timestamp_from_raw
    (Z.lor (Z.lor (wrap 64 (Z.shiftl seconds 16)) (wrap 64 (Z.shiftl (Z.land ticks 0x7fff) 1)))
           (Z.b2z authoritative)).

Definition Timestamp_parse (value : bytes) : result Error Timestamp :=
  let! raw := from_tlv (read_u64 value) in Ok (Timestamp_from_raw raw).

Definition Timestamp_seconds (self : Timestamp) : Z := Z.shiftr (timestamp_raw self) 16.
Definition Timestamp_ticks (self : Timestamp) : Z :=
  wrap 16 (Z.shiftr (Z.land (timestamp_raw self) 0xfffe) 1).
Definition Timestamp_authoritative (self : Timestamp) : bool :=
  Z.land (timestamp_raw self) 1 =? 1.
Definition Timestamp_to_value (self : Timestamp) : bytes := to_be 8 (timestamp_raw self).

(** ** Security policy *)

(** The flag newtype of [impl_bitflag_newtype!] over [u16]. *)
Record SecurityPolicyFlags := SecurityPolicyFlags_from_bits_retain { policy_bits : Z }.

Definition OUT_OF_BAND_COMMISSIONING_DISALLOWED : Z := 0x0001.
Definition NATIVE_COMMISSIONING_DISALLOWED : Z := 0x0002.
Definition LEGACY_ROUTERS_ENABLED : Z := 0x0004.
Definition EXTERNAL_COMMISSIONER_AUTH_REQUIRED : Z := 0x0008.
Definition COMMERCIAL_COMMISSIONING_MODE : Z := 0x0010.
Definition VERSION_THRESHOLD_MASK : Z := 0xe000.

Definition SecurityPolicyFlags_contains (self : SecurityPolicyFlags) (mask : Z) : bool :=
  Z.land (policy_bits self) mask =? mask.

Record SecurityPolicy := mkSecurityPolicy {
  rotation_time : Z;
  policy_flags : SecurityPolicyFlags }.

Definition SecurityPolicy_parse (value : bytes) : result Error SecurityPolicy :=
  if negb (len value =? 4) then Err (EDataset "security policy TLV must be 4 bytes")
  else
    let! b0 := idx value 0 in
    let! b1 := idx value 1 in
    let! b2 := idx value 2 in
    let! b3 := idx value 3 in
    Ok (mkSecurityPolicy (from_be [b0; b1])
         (SecurityPolicyFlags_from_bits_retain (from_be [b2; b3]))).

Definition SecurityPolicy_to_value (self : SecurityPolicy) : bytes :=
  to_be 2 (rotation_time self) ++ to_be 2 (policy_bits (policy_flags self)).

Inductive ThreadProtocolVersion := V1Or2 | V3 | V4 | V5 | V6 | V7 | V8 | V9 | V10.

#[global] Instance ThreadProtocolVersion_eq_dec : EqDecision ThreadProtocolVersion.
Proof. solve_decision. Defined.

Definition ThreadProtocolVersion_from_bits (bits : Z) : ThreadProtocolVersion :=
  match Z.land bits 0x07 with
  | 0 => V3
  | 1 => V4
  | 2 => V5
  | 3 => V6
  | 4 => V7
  | 5 => V8
  | 6 => V9
  | _ => V10
  end.

Definition ThreadProtocolVersion_to_bits (self : ThreadProtocolVersion) : Z :=
  match self with
  | V1Or2 | V10 => 7
  | V3 => 0
  | V4 => 1
  | V5 => 2
  | V6 => 3
  | V7 => 4
  | V8 => 5
  | V9 => 6
  end.

(** [!m] at type [u16]. *)
Definition not_u16 (m : Z) : Z := Z.lxor m 0xffff.

Definition version_threshold_for_routing (self : SecurityPolicyFlags) : ThreadProtocolVersion :=
  if SecurityPolicyFlags_contains self LEGACY_ROUTERS_ENABLED then V1Or2
  else ThreadProtocolVersion_from_bits
         (wrap 8 (Z.shiftr (Z.land (policy_bits self) VERSION_THRESHOLD_MASK) 13)).

Definition set_version_threshold_for_routing
    (self : SecurityPolicyFlags) (version : ThreadProtocolVersion) : SecurityPolicyFlags :=
  match version with
  | V1Or2 => SecurityPolicyFlags_from_bits_retain (Z.lor (policy_bits self) LEGACY_ROUTERS_ENABLED)
  | _ =>
      let bits := Z.land (policy_bits self) (not_u16 LEGACY_ROUTERS_ENABLED) in
      let cleared := Z.land bits (not_u16 VERSION_THRESHOLD_MASK) in
      SecurityPolicyFlags_from_bits_retain
        (Z.lor cleared (wrap 16 (Z.shiftl (ThreadProtocolVersion_to_bits version) 13)))
  end.

(** ** Channel mask *)

Record ChannelMaskEntry := mkChannelMaskEntry { mask_page : Z; mask : bytes }.

(** The body of the [while] loop of [parse_all]. *)
Definition ChannelMaskEntry_parse_step (value : bytes) : result Error (ChannelMaskEntry * bytes) :=
  if len value <? 2 then Err (EDataset "channel mask entry header is truncated")
  else
    let! page := idx value 0 in
    let! n := idx value 1 in
    let! value := slice_from value 2 in
    if len value <? n then Err (EDataset "channel mask entry value is truncated")
    else
      let! m := slice_to value n in
      let! rest := slice_from value n in
      Ok (mkChannelMaskEntry page m, rest).

Definition ChannelMaskEntry_parse_all (value : bytes) : result Error (list ChannelMaskEntry) :=
  many ChannelMaskEntry_parse_step value.

Fixpoint ChannelMaskEntry_encode_loop (entries : list ChannelMaskEntry) (out : bytes)
    : result Error bytes :=
  match entries with
  | [] => Ok out
  | entry :: entries' =>
      if len (mask entry) >? 255 then Err (EDataset "channel mask entry too long")
      else ChannelMaskEntry_encode_loop entries'
             (out ++ [mask_page entry] ++ [wrap 8 (len (mask entry))] ++ mask entry)
  end.
Definition ChannelMaskEntry_encode_all (entries : list ChannelMaskEntry) : result Error bytes :=
  ChannelMaskEntry_encode_loop entries [].

Definition read_array (n : Z) (value : bytes) : result Error bytes :=
  if len value =? n then Ok value
  else Err (EDataset ("expected " +:+ dec n +:+ " bytes, got " +:+ dec (len value))).

(** ** The dataset *)

Record Dataset := mkDataset { tlvs : TlvSet }.

Definition Dataset_default : Dataset := mkDataset (mkTlvSet []).

Definition Dataset_from_bytes (bytes : bytes) : result Error Dataset :=
  let! s := from_tlv (TlvSet_parse bytes) in Ok (mkDataset s).

Definition Dataset_to_bytes (self : Dataset) : result Error bytes :=
  from_tlv (TlvSet_encode (tlvs self)).

Definition Dataset_from_hex {HX : Hex} (hex : bytes) : result Error Dataset :=
  match hex_decode hex with inr bytes => Dataset_from_bytes bytes | inl e => Err (EHex e) end.
Definition Dataset_to_hex {HX : Hex} (self : Dataset) : result Error string := map_ok hex_encode (Dataset_to_bytes self).

Definition Dataset_raw (self : Dataset) (t : Z) : option bytes := last_value (tlvs self) t.

(** The zeroized entries leave the collection, so only the retained ones are
    observable. *)
Definition Dataset_remove_all (self : Dataset) (t : Z) : Dataset :=
  mkDataset (mkTlvSet (List.filter (fun entry => if ty entry =? t then false else true)
                                   (entries (tlvs self)))).

Definition Dataset_set_raw (self : Dataset) (t : Z) (v : bytes) : Dataset :=
  mkDataset (TlvSet_push (tlvs (Dataset_remove_all self t)) (mkTlvEntry t v)).

Definition Dataset_pskc (self : Dataset) : option bytes := Dataset_raw self DS_TLV_PSKC.

Definition Dataset_network_name (self : Dataset) : result Error (option bytes) :=
  map_transpose (fun v => from_utf8 v (EDataset "network name is not UTF-8"))
    (Dataset_raw self DS_TLV_NETWORK_NAME).

Definition Dataset_channel (self : Dataset) : result Error (option Channel) :=
  map_transpose Channel_parse (Dataset_raw self DS_TLV_CHANNEL).

Definition Dataset_pan_id (self : Dataset) : result Error (option Z) :=
  from_tlv (map_transpose read_u16 (Dataset_raw self DS_TLV_PAN_ID)).

Definition Dataset_extended_pan_id (self : Dataset) : result Error (option bytes) :=
  map_transpose (read_array 8) (Dataset_raw self DS_TLV_EXTENDED_PAN_ID).

Definition Dataset_network_key (self : Dataset) : result Error (option bytes) :=
  map_transpose (read_array 16) (Dataset_raw self DS_TLV_NETWORK_KEY).

Definition Dataset_mesh_local_prefix (self : Dataset) : result Error (option bytes) :=
  map_transpose (read_array 8) (Dataset_raw self DS_TLV_MESH_LOCAL_PREFIX).

Definition Dataset_active_timestamp (self : Dataset) : result Error (option Timestamp) :=
  map_transpose Timestamp_parse (Dataset_raw self DS_TLV_ACTIVE_TIMESTAMP).

Definition Dataset_pending_timestamp (self : Dataset) : result Error (option Timestamp) :=
  map_transpose Timestamp_parse (Dataset_raw self DS_TLV_PENDING_TIMESTAMP).

Definition Dataset_delay_timer (self : Dataset) : result Error (option Z) :=
  from_tlv (map_transpose read_u32 (Dataset_raw self DS_TLV_DELAY_TIMER)).

Definition Dataset_security_policy (self : Dataset) : result Error (option SecurityPolicy) :=
  map_transpose SecurityPolicy_parse (Dataset_raw self DS_TLV_SECURITY_POLICY).

Definition Dataset_channel_mask (self : Dataset) : result Error (option (list ChannelMaskEntry)) :=
  map_transpose ChannelMaskEntry_parse_all (Dataset_raw self DS_TLV_CHANNEL_MASK).

(** ** Lemmas *)

Lemma Channel_parse_to_value c :
  is_u8 (channel_page c) -> is_u16 (channel_number c) -> Channel_parse (Channel_to_value c) = Ok c.
Proof.
  intros ? Hn. destruct c as [p n].
  change (Channel_parse _) with (@Ok Error _ (mkChannel p (from_be (to_be 2 n)))).
  by rewrite from_to_be_small by done.
Qed.

Lemma Channel_parse_safe v : safe (Channel_parse v).
Proof. unfold Channel_parse. safe_auto. Qed.

Lemma SecurityPolicy_parse_safe v : safe (SecurityPolicy_parse v).
Proof. unfold SecurityPolicy_parse. safe_auto. Qed.

Lemma Timestamp_parse_safe v : safe (Timestamp_parse v).
Proof. unfold Timestamp_parse, read_u64. safe_auto. Qed.

Lemma read_array_safe n v : safe (read_array n v).
Proof. unfold read_array. safe_auto. Qed.

Definition mask_entry_wf (e : ChannelMaskEntry) : Prop :=
  is_u8 (mask_page e) /\ bytes_ok (mask e) /\ len (mask e) <= 255.

Definition mask_entry_bytes (e : ChannelMaskEntry) : bytes :=
  mask_page e :: len (mask e) :: mask e.

Lemma mask_step_consumes : consumes ChannelMaskEntry_parse_step.
Proof.
  intros v e rest H. unfold ChannelMaskEntry_parse_step in H. inv_ok.
  all: repeat match goal with
    | H : slice_from _ _ = Ok _ |- _ => apply slice_from_inv in H as (? & ? & ?) end; lia.
Qed.

Lemma mask_step_encode e rest :
  mask_entry_wf e -> ChannelMaskEntry_parse_step (mask_entry_bytes e ++ rest) = Ok (e, rest).
Proof.
  intros (? & ? & ?). destruct e as [p m]; simpl in *.
  unfold ChannelMaskEntry_parse_step, mask_entry_bytes; simpl app.
  pose proof (len_nonneg m); pose proof (len_nonneg rest).
  rewrite (proj2 (Z.ltb_ge _ _)) by (autorewrite with len; lia). eval_idx.
  rewrite slice_from_ok by (autorewrite with len; lia). cbn [rbind].
  change (drop (Z.to_nat 2) (p :: len m :: m ++ rest)) with (m ++ rest).
  rewrite (proj2 (Z.ltb_ge _ _)) by (autorewrite with len; lia).
  rewrite slice_to_ok, slice_from_ok by (autorewrite with len; lia). cbn [rbind].
  by rewrite to_nat_len, take_app_length, drop_app_length.
Qed.

Lemma mask_step_decode v e rest :
  bytes_ok v -> ChannelMaskEntry_parse_step v = Ok (e, rest) ->
  v = mask_entry_bytes e ++ rest /\ mask_entry_wf e.
Proof.
  intros Hok H. unfold ChannelMaskEntry_parse_step in H.
  destruct (len v <? 2) eqn:?; [done|]; zbool.
  destruct v as [|p [|n v]]; [done..|].
  apply Forall_cons_1 in Hok as [Hp Hok]. apply Forall_cons_1 in Hok as [Hn Hok].
  eval_idx_in H. rewrite slice_from_ok in H by (autorewrite with len in *; lia).
  change (drop (Z.to_nat 2) (p :: n :: v)) with v in H. cbn [rbind] in H. unfold uint in *.
  destruct (len v <? n) eqn:?; [done|]; zbool.
  rewrite slice_to_ok, slice_from_ok in H by lia. injection H as <- <-.
  unfold mask_entry_bytes, mask_entry_wf; simpl. rewrite len_take by lia.
  rewrite take_drop. split_and!; try done; [by apply Forall_take|lia].
Qed.

Lemma ChannelMaskEntry_encode_loop_ok es out :
  Forall mask_entry_wf es ->
  ChannelMaskEntry_encode_loop es out = Ok (out ++ concat (map mask_entry_bytes es)).
Proof.
  intros H; revert out; induction H as [|e es (? & ? & ?) _ IH]; intros out; simpl.
  - by rewrite app_nil_r.
  - rewrite Z.gtb_ltb, (proj2 (Z.ltb_ge _ _)) by lia. rewrite IH.
    pose proof (len_nonneg (mask e)). rewrite wrap_small by (unfold uint; lia).
    by rewrite <- !(assoc_L (++)).
Qed.

Lemma ChannelMaskEntry_parse_all_safe v : bytes_ok v -> safe (ChannelMaskEntry_parse_all v).
Proof.
  intros Hok. apply safe_many_ok; [apply mask_step_consumes| | |done].
  - intros r Hr. unfold ChannelMaskEntry_parse_step. safe_auto.
    all: match goal with H : idx _ 1 = Ok _ |- _ => apply (idx_Forall _ _ _ _ Hr) in H end.
    all: unfold uint in *; lia.
  - intros r x rest Hr H. apply mask_step_decode in H as [-> _]; [|done].
    by apply Forall_app in Hr as [_ ?].
Qed.

(** *** Bits of the policy flags *)

(** Splits a bit position below 16 into the sixteen cases. *)
Ltac split_bit16 i :=
  assert (i = 0 \/ i = 1 \/ i = 2 \/ i = 3 \/ i = 4 \/ i = 5 \/ i = 6 \/ i = 7 \/ i = 8 \/
    i = 9 \/ i = 10 \/ i = 11 \/ i = 12 \/ i = 13 \/ i = 14 \/ i = 15) by lia;
  destruct_or!; subst i.

Lemma to_bits_u3 v : uint 3 (ThreadProtocolVersion_to_bits v).
Proof. destruct v; by split. Qed.

Lemma from_to_bits v :
  v <> V1Or2 -> ThreadProtocolVersion_from_bits (ThreadProtocolVersion_to_bits v) = v.
Proof. by destruct v. Qed.

Lemma wrap16_version k : uint 3 k -> wrap 16 (Z.shiftl k 13) = Z.shiftl k 13.
Proof.
  intros. apply wrap_small. rewrite Z.shiftl_mul_pow2 by lia. unfold uint in *; lia.
Qed.

(** The bits after setting a version that the version field encodes. *)
Lemma set_version_bits b v i :
  v <> V1Or2 -> 0 <= i < 16 ->
  Z.testbit (policy_bits (set_version_threshold_for_routing
      (SecurityPolicyFlags_from_bits_retain b) v)) i =
  if i =? 2 then false
  else if i <? 13 then Z.testbit b i
  else Z.testbit (ThreadProtocolVersion_to_bits v) (i - 13).
Proof.
  intros Hv Hi.
  assert (policy_bits (set_version_threshold_for_routing
      (SecurityPolicyFlags_from_bits_retain b) v)
    = Z.lor (Z.land (Z.land b 0xfffb) 0x1fff) (Z.shiftl (ThreadProtocolVersion_to_bits v) 13))
    as ->.
  { rewrite <- wrap16_version by apply to_bits_u3. by destruct v. }
  rewrite Z.lor_spec, !Z.land_spec, Z.shiftl_spec by lia.
  split_bit16 i; simpl Z.testbit at 2 3; rewrite ?andb_true_r, ?andb_false_r, ?orb_false_r;
    try done.
  all: by rewrite Z.testbit_neg_r, orb_false_r by lia.
Qed.

Lemma set_version_u16 b v :
  is_u16 b -> is_u16 (policy_bits (set_version_threshold_for_routing
    (SecurityPolicyFlags_from_bits_retain b) v)).
Proof.
  intros Hb. destruct (decide (v = V1Or2)) as [->|Hv].
  - apply uint_lor; [lia|done|by split].
  - pose proof (uint_land 16 _ (not_u16 VERSION_THRESHOLD_MASK) ltac:(lia)
      (uint_land 16 b (not_u16 LEGACY_ROUTERS_ENABLED) ltac:(lia) Hb)).
    destruct v; try done; apply uint_lor; try done; apply uint_wrap; lia.
Qed.

Lemma version_field b k :
  uint 3 k -> (forall i, 0 <= i < 3 -> Z.testbit b (i + 13) = Z.testbit k i) ->
  wrap 8 (Z.shiftr (Z.land b VERSION_THRESHOLD_MASK) 13) = k.
Proof.
  intros Hk H. apply (uint_bits_inj 8); [lia|apply uint_wrap; lia|by eapply uint_weaken; [|done]|].
  intros i Hi. unfold wrap. rewrite Z.mod_pow2_bits_low, Z.shiftr_spec, Z.land_spec by lia.
  destruct (decide (i < 3)).
  - rewrite H by lia. assert (i = 0 \/ i = 1 \/ i = 2) by lia.
    destruct_or!; subst i; apply andb_true_r.
  - rewrite (testbit_high 3 k) by (done || lia).
    rewrite (testbit_high 16 VERSION_THRESHOLD_MASK), andb_false_r by (lia || by split). done.
Qed.

Lemma contains_flag b n :
  0 <= n ->
  SecurityPolicyFlags_contains (SecurityPolicyFlags_from_bits_retain b) (2 ^ n) = Z.testbit b n.
Proof. apply testbit_flag. Qed.

Lemma timestamp_components_raw s t a :
  0 <= s -> 0 <= t ->
  timestamp_raw (Timestamp_from_components s t a)
  = (s mod 2 ^ 48) * 2 ^ 16 + (t mod 2 ^ 15) * 2 + Z.b2z a.
Proof.
  intros Hs Ht. unfold Timestamp_from_components; simpl timestamp_raw.
  change 0x7fff with (2 ^ 15 - 1). rewrite land_ones_mod by lia.
  assert (wrap 64 (Z.shiftl s 16) = Z.shiftl (s mod 2 ^ 48) 16) as ->.
  { unfold wrap. rewrite !Z.shiftl_mul_pow2 by lia.
    change (2 ^ 64) with (2 ^ 48 * 2 ^ 16). by rewrite Z.mul_mod_distr_r by done. }
  pose proof (Z.mod_pos_bound t (2 ^ 15) eq_refl).
  rewrite wrap_small by (rewrite Z.shiftl_mul_pow2 by lia; unfold uint; lia).
  rewrite lor_shiftl_add by (try rewrite Z.shiftl_mul_pow2; unfold uint; lia).
  rewrite Z.shiftl_mul_pow2 by lia.
  replace (s mod 2 ^ 48 * 2 ^ 16 + t mod 2 ^ 15 * 2 ^ 1)
    with ((s mod 2 ^ 48 * 2 ^ 15 + t mod 2 ^ 15) * 2 ^ 1) by lia.
  rewrite <- Z.shiftl_mul_pow2, lor_shiftl_add by (lia || (destruct a; unfold uint; simpl; lia)).
  lia.
Qed.

Lemma Timestamp_parse_to_value ts :
  is_u64 (timestamp_raw ts) -> Timestamp_parse (Timestamp_to_value ts) = Ok ts.
Proof.
  intros H. unfold Timestamp_parse, Timestamp_to_value, read_u64, wire_read_u64, wire_read.
  rewrite len_to_be. cbn -[from_be to_be]. rewrite from_to_be_small by done. by destruct ts.
Qed.

Lemma Dataset_raw_set_raw d t v : Dataset_raw (Dataset_set_raw d t v) t = Some v.
Proof.
  unfold Dataset_raw, last_value, Dataset_set_raw, TlvSet_push; cbn [tlvs entries].
  rewrite reverse_app. simpl. by rewrite Z.eqb_refl.
Qed.

(** [set_raw] is [TlvSet::set_last] on the underlying collection. *)
Lemma Dataset_set_raw_set_last d t v :
  Dataset_set_raw d t v = mkDataset (set_last (tlvs d) t v).
Proof. reflexivity. Qed.

Lemma Dataset_bytes_roundtrip d b :
  TlvSet_wf (tlvs d) -> Dataset_to_bytes d = Ok b -> Dataset_from_bytes b = Ok d.
Proof.
  intros Hwf H%from_tlv_ok. rewrite TlvSet_encode_ok in H by done. injection H as <-.
  unfold Dataset_from_bytes. destruct d as [[l]]; simpl in *.
  by rewrite TlvSet_parse_concat.
Qed.

Lemma tlvs_bytes_ok l : Forall tlv_wf l -> bytes_ok (concat (map tlv_bytes l)).
Proof.
  intros H. apply Forall_concat, Forall_map. eapply Forall_impl; [exact H|]. intros e (Ht & Hv & Hl). cbn.
  unfold tlv_bytes, tlv_header, MAX_STANDARD_TLV_LENGTH. apply Forall_app. split; [|done].
  pose proof (len_nonneg (value e)). destruct (len (value e) <=? 254) eqn:E; zbool.
  - by repeat constructor; unfold uint in *; try lia.
  - constructor; [done|]. constructor; [unfold uint, EXTENDED_TLV_MARKER; lia|apply to_be_ok].
Qed.
Lemma Dataset_hex_roundtrip {HX : Hex} {HL : HexLaws} d h :
  TlvSet_wf (tlvs d) -> Dataset_to_hex d = Ok h -> Dataset_from_hex (str_bytes h) = Ok d.
Proof.
  intros Hw (b & Hb & ->)%map_ok_ok. unfold Dataset_from_hex. rewrite hex_decode_encode; [by apply Dataset_bytes_roundtrip|].
  unfold Dataset_to_bytes in Hb. apply from_tlv_ok in Hb. rewrite TlvSet_encode_ok in Hb by done. injection Hb as <-. by apply tlvs_bytes_ok.
Qed.

Lemma set_raw_wf d t v :
  TlvSet_wf (tlvs d) -> is_u8 t -> bytes_ok v -> len v <= MAX_EXTENDED_TLV_LENGTH ->
  TlvSet_wf (tlvs (Dataset_set_raw d t v)).
Proof.
  intros Hd Ht Hv Hl. rewrite Dataset_set_raw_set_last. unfold TlvSet_wf, set_last; simpl.
  apply Forall_app. split; [|by apply Forall_singleton].
  unfold TlvSet_wf in Hd. rewrite Forall_forall in *. intros e He.
  apply list_elem_of_In, List.filter_In in He as [He _]. by apply Hd, list_elem_of_In.
Qed.

(** ** Properties *)

(** Setting a raw field and sending the dataset over the wire reads back
    as that field, and every other field is what it was before. *)
Theorem dataset_field_roundtrip d t v :
  TlvSet_wf (tlvs d) -> is_u8 t -> bytes_ok v -> len v <= MAX_EXTENDED_TLV_LENGTH ->
  exists b d', Dataset_to_bytes (Dataset_set_raw d t v) = Ok b /\
    Dataset_from_bytes b = Ok d' /\ Dataset_raw d' t = Some v /\
    forall t', t <> t' -> Dataset_raw d' t' = Dataset_raw d t'.
Proof.
  intros Hd Ht Hv Hl. pose proof (set_raw_wf d t v Hd Ht Hv Hl) as Hwf.
  eexists _, (Dataset_set_raw d t v).
  assert (Dataset_to_bytes (Dataset_set_raw d t v) =
    Ok (concat (map tlv_bytes (entries (tlvs (Dataset_set_raw d t v)))))) as Hb
    by (apply from_tlv_ok; by apply TlvSet_encode_ok).
  split_and!; [exact Hb|by eapply Dataset_bytes_roundtrip|apply Dataset_raw_set_raw|].
  intros t' Hne. rewrite Dataset_set_raw_set_last. by apply last_value_set_last_ne.
Qed.

Lemma dataset_field_roundtrip_witness :
  let d := mkDataset (mkTlvSet [mkTlvEntry 0xfe [1]; mkTlvEntry DS_TLV_PAN_ID [0x12; 0x34]]) in
  exists b d', Dataset_to_bytes (Dataset_set_raw d DS_TLV_PAN_ID [0x56; 0x78]) = Ok b /\
    Dataset_from_bytes b = Ok d' /\ Dataset_raw d' DS_TLV_PAN_ID = Some [0x56; 0x78] /\
    forall t', DS_TLV_PAN_ID <> t' -> Dataset_raw d' t' = Dataset_raw d t'.
Proof.
  intros d. apply (dataset_field_roundtrip d DS_TLV_PAN_ID [0x56; 0x78]).
  all: by_decide.
Defined.

(** The version threshold is a faithful accessor: setting any version, on
    any 16-bit flags, reads back as that version and keeps every bit that is
    neither the legacy-routers flag nor in the version field. *)
Theorem version_threshold_roundtrip b v :
  is_u16 b ->
  let f := set_version_threshold_for_routing (SecurityPolicyFlags_from_bits_retain b) v in
  version_threshold_for_routing f = v /\ is_u16 (policy_bits f) /\
  forall i, 0 <= i < 13 -> i <> 2 -> Z.testbit (policy_bits f) i = Z.testbit b i.
Proof.
  intros Hb f. pose proof (set_version_u16 b v Hb) as Hf. fold f in Hf.
  destruct (decide (v = V1Or2)) as [->|Hv].
  - split_and!; [|done|].
    + unfold version_threshold_for_routing, f; simpl set_version_threshold_for_routing.
      change LEGACY_ROUTERS_ENABLED with (2 ^ 2). rewrite contains_flag by lia.
      by rewrite Z.lor_spec, Z.pow2_bits_true, orb_true_r by lia.
    + intros i Hi Hne. unfold f; simpl. change LEGACY_ROUTERS_ENABLED with (2 ^ 2).
      rewrite Z.lor_spec, Z.pow2_bits_false, orb_false_r by lia. done.
  - split_and!; [|done|].
    + unfold version_threshold_for_routing. destruct f as [fb] eqn:Hfe; simpl in *.
      assert (forall i, 0 <= i < 16 -> Z.testbit fb i = if i =? 2 then false
        else if i <? 13 then Z.testbit b i
        else Z.testbit (ThreadProtocolVersion_to_bits v) (i - 13)) as Hbit.
      { intros i Hi. rewrite <- set_version_bits by done. by fold f; rewrite Hfe. }
      change LEGACY_ROUTERS_ENABLED with (2 ^ 2). rewrite contains_flag, Hbit by lia. simpl.
      rewrite (version_field fb (ThreadProtocolVersion_to_bits v)) by
        (apply to_bits_u3 || (intros i Hi; rewrite Hbit by lia;
         rewrite (proj2 (Z.eqb_neq _ _)), (proj2 (Z.ltb_ge _ _)) by lia; f_equal; lia)).
      by apply from_to_bits.
    + intros i Hi Hne. unfold f. rewrite set_version_bits by (done || lia).
      by rewrite (proj2 (Z.eqb_neq _ _)), (proj2 (Z.ltb_lt _ _)) by lia.
Qed.

Lemma version_threshold_roundtrip_witness :
  version_threshold_for_routing
    (set_version_threshold_for_routing (SecurityPolicyFlags_from_bits_retain 0xfff8) V1Or2) = V1Or2.
Proof. apply (version_threshold_roundtrip 0xfff8 V1Or2). by_decide. Defined.

(** a timestamp built from components is a 64-bit value whose fields read
    back as the components truncated to their widths (48-bit seconds, 15-bit
    ticks), and its wire form parses to itself. *)
Theorem timestamp_components_roundtrip s t a :
  is_u64 s -> is_u16 t ->
  let ts := Timestamp_from_components s t a in
  Timestamp_seconds ts = s mod 2 ^ 48 /\ Timestamp_ticks ts = t mod 2 ^ 15 /\
  Timestamp_authoritative ts = a /\ Timestamp_parse (Timestamp_to_value ts) = Ok ts.
Proof.
  intros [? _] [? _] ts. pose proof (timestamp_components_raw s t a ltac:(done) ltac:(done)) as Hr.
  fold ts in Hr. pose proof (Z.mod_pos_bound s (2 ^ 48) eq_refl).
  pose proof (Z.mod_pos_bound t (2 ^ 15) eq_refl).
  assert (0 <= Z.b2z a <= 1) by (destruct a; simpl; lia).
  split_and!.
  - unfold Timestamp_seconds. rewrite Z.shiftr_div_pow2, Hr by lia.
    symmetry. eapply (Z.div_unique_pos _ _ _ (t mod 2 ^ 15 * 2 + Z.b2z a)); lia.
  - unfold Timestamp_ticks.
    assert (Z.shiftr (Z.land (timestamp_raw ts) 0xfffe) 1 = t mod 2 ^ 15) as ->.
    { rewrite Z.shiftr_land. change (Z.shiftr 0xfffe 1) with (2 ^ 15 - 1).
      rewrite land_ones_mod, Z.shiftr_div_pow2, Hr by lia.
      assert ((s mod 2 ^ 48 * 2 ^ 16 + t mod 2 ^ 15 * 2 + Z.b2z a) / 2 ^ 1
        = s mod 2 ^ 48 * 2 ^ 15 + t mod 2 ^ 15) as ->.
      { symmetry. eapply (Z.div_unique_pos _ _ _ (Z.b2z a)); lia. }
      rewrite Z.add_comm, Z.mod_add by lia. by apply Z.mod_small. }
    apply wrap_small. unfold uint; lia.
  - unfold Timestamp_authoritative. change 1 with (2 ^ 0). rewrite testbit_flag by lia.
    rewrite Z.bit0_odd, Hr.
    replace (s mod 2 ^ 48 * 2 ^ 16 + t mod 2 ^ 15 * 2 + Z.b2z a)
      with (Z.b2z a + 2 * (s mod 2 ^ 48 * 2 ^ 15 + t mod 2 ^ 15)) by lia.
    rewrite Z.odd_add_mul_2. by destruct a.
  - apply Timestamp_parse_to_value. rewrite Hr. unfold uint; lia.
Qed.

Lemma timestamp_components_roundtrip_witness :
  Timestamp_ticks (Timestamp_from_components 12345 100 true) = 100 mod 2 ^ 15.
Proof. apply (timestamp_components_roundtrip 12345 100 true); by_decide. Defined.

(** The channel-mask codec is exact: entries of at most 255 bytes encode
    and parse back to themselves, and every byte string that parses is the
    encoding of what it parsed to. *)
Theorem channel_mask_exact :
  (forall es, Forall mask_entry_wf es ->
     exists b, ChannelMaskEntry_encode_all es = Ok b /\ ChannelMaskEntry_parse_all b = Ok es) /\
  (forall b es, bytes_ok b -> ChannelMaskEntry_parse_all b = Ok es ->
     ChannelMaskEntry_encode_all es = Ok b).
Proof.
  split.
  - intros es Hes. exists (concat (map mask_entry_bytes es)).
    split; [by apply ChannelMaskEntry_encode_loop_ok|].
    eapply many_encode; [apply mask_step_consumes| |exact Hes]. apply mask_step_encode.
  - intros b es Hb H. apply (many_decode _ mask_step_consumes mask_entry_bytes mask_entry_wf)
      in H as [-> Hes]; [|apply mask_step_decode|done].
    by apply ChannelMaskEntry_encode_loop_ok.
Qed.
