(* ===== verification/Coap.v ===== *)
(** * Coap: the CoAP message codec, crates/meshcop/src/meshcop/coap.rs

    Messages as the code has them: type, code, message ID, token, options with
    their absolute numbers, payload.  Encoding sorts the options stably by
    number and writes deltas; decoding accumulates the deltas back. *)
From S2P Require Import Prelude Text Tlv Errors.
From Stdlib Require Import Sorted.

Definition COAP_OPTION_URI_PATH : Z := 11.
Definition COAP_OPTION_CONTENT_FORMAT : Z := 12.

Inductive CoapType := Confirmable | NonConfirmable | Acknowledgement | Reset.

#[global] Instance CoapType_eq_dec : EqDecision CoapType.
Proof. solve_decision. Defined.

Definition CoapType_as_u8 (t : CoapType) : Z :=
  match t with Confirmable => 0 | NonConfirmable => 1 | Acknowledgement => 2 | Reset => 3 end.

Definition CoapType_try_from (value : Z) : result Error CoapType :=
  match value with
  | 0 => Ok Confirmable
  | 1 => Ok NonConfirmable
  | 2 => Ok Acknowledgement
  | 3 => Ok Reset
  | _ => Err (EDataset "invalid CoAP type")
  end.

Definition CODE_EMPTY : Z := 0x00.
Definition CODE_POST : Z := 0x02.
Definition CODE_CHANGED : Z := 0x44.
Definition CODE_CONTENT : Z := 0x45.

Record CoapOption := mkCoapOption { opt_number : Z; opt_value : bytes }.

#[global] Instance CoapOption_eq_dec : EqDecision CoapOption.
Proof. solve_decision. Defined.

Record CoapMessage := mkCoapMessage {
  coap_ty : CoapType;
  coap_code : Z;
  message_id : Z;
  token : bytes;
  options : list CoapOption;
  payload : bytes }.

#[global] Instance CoapMessage_eq_dec : EqDecision CoapMessage.
Proof. solve_decision. Defined.

Definition set_options (self : CoapMessage) (os : list CoapOption) : CoapMessage :=
  mkCoapMessage (coap_ty self) (coap_code self) (message_id self) (token self) os (payload self).

Definition empty_ack (mid : Z) : CoapMessage :=
  mkCoapMessage Acknowledgement CODE_EMPTY mid [] [] [].

Definition empty_changed_response (request : CoapMessage) : CoapMessage :=
  mkCoapMessage Acknowledgement CODE_CHANGED (message_id request) (token request) [] [].

(** ** Uri-Path *)

(** ['/']. *)
Definition slash : Z := 47.

(** [str::split('/')] on the bytes. *)
Fixpoint split_slash (l : bytes) : list bytes :=
  match l with
  | [] => [[]]
  | b :: l' =>
      if b =? slash then [] :: split_slash l'
      else match split_slash l' with
           | s :: ss => (b :: s) :: ss
           | [] => [[b]]
           end
  end.

(** [strip_prefix('/').unwrap_or(uri_path)]. *)
Definition strip_slash (l : bytes) : bytes :=
  match l with
  | b :: l' => if b =? slash then l' else l
  | [] => []
  end.

Fixpoint push_segments (segments : list bytes) (os : list CoapOption)
    : list CoapOption * result Error unit :=
  match segments with
  | [] => (os, Ok tt)
  | segment :: segments' =>
      if is_empty segment then (os, Err (EDataset "CoAP Uri-Path has an empty segment"))
      else push_segments segments' (os ++ [mkCoapOption COAP_OPTION_URI_PATH segment])
  end.

Definition set_uri_path (self : CoapMessage) (uri_path : bytes) : CoapMessage * result Error unit :=
  let os := List.filter (fun o => negb (opt_number o =? COAP_OPTION_URI_PATH)) (options self) in
  let trimmed := strip_slash uri_path in
  if is_empty trimmed then (set_options self os, Ok tt)
  else let '(os, r) := push_segments (split_slash trimmed) os in (set_options self os, r).

Definition post_request (ty : CoapType) (mid : Z) (tok uri_path pl : bytes)
    : result Error CoapMessage :=
  let '(message, r) := set_uri_path (mkCoapMessage ty CODE_POST mid tok [] pl) uri_path in
  let! _ := r in Ok message.

(** [segments.join("/")]. *)
Fixpoint join_slash (segments : list bytes) : bytes :=
  match segments with
  | [] => []
  | [s] => s
  | s :: segments' => s ++ slash :: join_slash segments'
  end.

Definition uri_path (self : CoapMessage) : result Error (option bytes) :=
  let! segments := mapM_result
    (fun o => from_utf8 (opt_value o) (EDataset "CoAP Uri-Path is not UTF-8"))
    (List.filter (fun o => opt_number o =? COAP_OPTION_URI_PATH) (options self)) in
  if is_empty segments then Ok None else Ok (Some (slash :: join_slash segments)).

(** ** Encoding *)

Definition encode_extended_nibble (value : Z) : result Error (Z * bytes) :=
  if value <=? 12 then Ok (wrap 8 value, [])
  else if value <=? 268 then Ok (13, [wrap 8 (value - 13)])
  else Ok (14, to_be 2 (value - 269)).

Definition encode_option_header (delta length : Z) (out : bytes) : bytes * result Error unit :=
  match encode_extended_nibble delta with
  | Ok (delta_nibble, delta_extra) =>
      match
        let! l := if length <? 2 ^ 16 then Ok length else Err (EDataset "CoAP option too long") in
        encode_extended_nibble l
      with
      | Ok (len_nibble, len_extra) =>
          (out ++ [Z.lor (wrap 8 (Z.shiftl delta_nibble 4)) len_nibble] ++ delta_extra ++ len_extra,
           Ok tt)
      | Err e => (out, Err e)
      | Panic p => (out, Panic p)
      end
  | Err e => (out, Err e)
  | Panic p => (out, Panic p)
  end.

(** [iter().cloned().enumerate().collect()] and
    [sort_by_key(|(idx, option)| (option.number, *idx))]. *)
Definition key_le (a b : nat * CoapOption) : bool :=
  (opt_number a.2 <? opt_number b.2)
  || ((opt_number a.2 =? opt_number b.2) && (a.1 <=? b.1)%nat).

Fixpoint insert_by_key (x : nat * CoapOption) (l : list (nat * CoapOption))
    : list (nat * CoapOption) :=
  match l with
  | [] => [x]
  | y :: l' => if key_le x y then x :: l else y :: insert_by_key x l'
  end.
Definition sort_by_key (l : list (nat * CoapOption)) : list (nat * CoapOption) :=
  foldr insert_by_key [] l.
Definition enumerate (l : list CoapOption) : list (nat * CoapOption) := imap pair l.

Fixpoint encode_options (l : list (nat * CoapOption)) (last_number : Z) (out : bytes)
    : result Error bytes :=
  match l with
  | [] => Ok out
  | (_, option) :: l' =>
      let! delta := ok_or (checked_sub (opt_number option) last_number)
                          (EDataset "CoAP option numbers decreased") in
      let! out := written (encode_option_header delta (len (opt_value option)) out) in
      encode_options l' (opt_number option) (out ++ opt_value option)
  end.

Definition CoapMessage_encode (self : CoapMessage) : result Error bytes :=
  if len (token self) >? 8 then Err (EDataset "CoAP token length > 8")
  else
    let out := [Z.lor (Z.lor (Z.shiftl 1 6) (Z.shiftl (CoapType_as_u8 (coap_ty self)) 4))
                      (wrap 8 (len (token self)))]
               ++ [coap_code self] ++ to_be 2 (message_id self) ++ token self in
    let! out := encode_options (sort_by_key (enumerate (options self))) 0 out in
    if is_empty (payload self) then Ok out else Ok (out ++ [0xff] ++ payload self).

(** ** Decoding *)

Definition decode_extended_nibble (nibble : Z) (bytes : bytes) : result Error (Z * Z) :=
  if nibble <=? 12 then Ok (nibble, 0)
  else if nibble =? 13 then
    match bytes with
    | byte :: _ => let! v := add_or_panic 16 byte 13 in Ok (v, 1)
    | [] => Err (EDataset "CoAP option extension is truncated")
    end
  else if nibble =? 14 then
    if len bytes <? 2 then Err (EDataset "CoAP option extension is truncated")
    else
      let! b0 := idx bytes 0 in
      let! b1 := idx bytes 1 in
      let! value := ok_or (checked_add 16 (from_be [b0; b1]) 269)
                          (EDataset "CoAP option extension overflow") in
      Ok (value, 2)
  else Err (EDataset "reserved CoAP option nibble").

(** One turn of the option loop: the option and what is left after it. *)
Definition decode_option (first : Z) (after_header : bytes) (last_number : Z)
    : result Error (CoapOption * bytes) :=
  let! '(delta, used_delta) := decode_extended_nibble (Z.shiftr first 4) after_header in
  let! after_delta := slice_from after_header used_delta in
  let! '(length, used_len) := decode_extended_nibble (Z.land first 0x0f) after_delta in
  let! after_length := slice_from after_delta used_len in
  if len after_length <? length then Err (EDataset "CoAP option value is truncated")
  else
    let! number := ok_or (checked_add 16 last_number delta)
                         (EDataset "CoAP option number overflow") in
    let! v := slice_to after_length length in
    let! rest := slice_from after_length length in
    Ok (mkCoapOption number v, rest).

Fixpoint decode_options (fuel : nat) (rest : bytes) (last_number : Z)
    : result Error (list CoapOption * bytes) :=
  match rest with
  | [] => Ok ([], [])
  | first :: after_header =>
      if first =? 0xff then Ok ([], after_header)
      else match fuel with
           | O => Panic OutOfFuel
           | S fuel' =>
               let! '(o, rest) := decode_option first after_header last_number in
               let! '(os, pl) := decode_options fuel' rest (opt_number o) in
               Ok (o :: os, pl)
           end
  end.

Definition CoapMessage_decode (bytes : bytes) : result Error CoapMessage :=
  if len bytes <? 4 then Err (EDataset "CoAP header is truncated")
  else
    let! b0 := idx bytes 0 in
    if negb (Z.shiftr b0 6 =? 1) then Err (EDataset "unsupported CoAP version")
    else
      let token_len := Z.land b0 0x0f in
      if (token_len >? 8) || (len bytes <? 4 + token_len)
      then Err (EDataset "invalid CoAP token length")
      else
        let! ty := CoapType_try_from (Z.land (Z.shiftr b0 4) 0x03) in
        let! code := idx bytes 1 in
        let! b2 := idx bytes 2 in
        let! b3 := idx bytes 3 in
        let! tok := slice bytes 4 (4 + token_len) in
        let! rest := slice_from bytes (4 + token_len) in
        let! '(os, pl) := decode_options (length rest) rest 0 in
        Ok (mkCoapMessage ty code (from_be [b2; b3]) tok os pl).

(** ** Matching *)

Definition is_empty_ack_for (self : CoapMessage) (mid : Z) : bool :=
  bool_decide (coap_ty self = Acknowledgement) && (coap_code self =? CODE_EMPTY)
  && (message_id self =? mid) && is_empty (token self)
  && is_empty (options self) && is_empty (payload self).

Definition is_reset_for (self : CoapMessage) (mid : Z) : bool :=
  bool_decide (coap_ty self = Reset) && (coap_code self =? CODE_EMPTY)
  && (message_id self =? mid) && is_empty (token self)
  && is_empty (options self) && is_empty (payload self).

(** ** The option sort *)

Definition num_le (a b : CoapOption) : Prop := opt_number a <= opt_number b.

Lemma key_le_num a b : key_le a b = true -> num_le a.2 b.2.
Proof. unfold key_le, num_le. intros [?|[? _]%andb_true_iff]%orb_true_iff; zbool; lia. Qed.

Lemma key_le_false a b : key_le a b = false -> key_le b a = true.
Proof.
  unfold key_le. intros H. apply orb_true_iff. zbool.
  destruct (decide (opt_number b.2 < opt_number a.2)); [left; by apply Z.ltb_lt|right].
  replace (opt_number a.2 =? opt_number b.2) with true in * by (symmetry; apply Z.eqb_eq; lia).
  simpl in *. apply andb_true_iff. split; [apply Z.eqb_eq; lia|].
  apply Nat.leb_gt in H0. apply Nat.leb_le. lia.
Qed.

Definition keys_sorted (l : list (nat * CoapOption)) : Prop := Sorted (fun a b => key_le a b = true) l.

Lemma insert_by_key_perm x l : insert_by_key x l ≡ₚ x :: l.
Proof.
  induction l as [|y l IH]; simpl; [done|]. destruct (key_le x y); [done|].
  rewrite IH. apply Permutation_swap.
Qed.

Lemma insert_by_key_sorted x l : keys_sorted l -> keys_sorted (insert_by_key x l).
Proof.
  unfold keys_sorted. induction 1 as [|y l Hl IH Hy]; simpl; [by repeat constructor|].
  destruct (key_le x y) eqn:E; [by repeat constructor|].
  apply key_le_false in E. constructor; [done|].
  destruct l as [|z l]; simpl; [by constructor|].
  destruct (key_le x z); constructor; [done|]. by inversion Hy.
Qed.

Lemma sort_by_key_sorted l : keys_sorted (sort_by_key l).
Proof. induction l; simpl; [constructor|by apply insert_by_key_sorted]. Qed.

Lemma sort_by_key_perm l : sort_by_key l ≡ₚ l.
Proof. induction l as [|x l IH]; simpl; [done|]. by rewrite insert_by_key_perm, IH. Qed.

Lemma sort_by_key_id l : keys_sorted l -> sort_by_key l = l.
Proof.
  unfold keys_sorted. induction 1 as [|x l Hl IH Hx]; simpl; [done|]. rewrite IH.
  destruct Hx as [|y l Hxy]; simpl; [done|]. by rewrite Hxy.
Qed.

(** The options in the order they are written. *)
Definition sorted_options (os : list CoapOption) : list CoapOption :=
  map snd (sort_by_key (enumerate os)).

Lemma sorted_options_ascending os : Sorted num_le (sorted_options os).
Proof.
  unfold sorted_options. pose proof (sort_by_key_sorted (enumerate os)) as H.
  induction H as [|x l _ IH Hx]; simpl; constructor; [done|].
  destruct Hx as [|y l Hxy]; simpl; constructor. by apply key_le_num.
Qed.

Lemma map_snd_enumerate_from (f : nat -> nat) (os : list CoapOption) : map snd (imap (fun i => pair (f i)) os) = os.
Proof. revert f; induction os as [|o os IH]; intros f; simpl; [done|]. f_equal. exact (IH (fun i => f (S i))). Qed.

Lemma sorted_options_perm os : sorted_options os ≡ₚ os.
Proof.
  unfold sorted_options. rewrite (Permutation_map _ (sort_by_key_perm _)).
  unfold enumerate. by rewrite (map_snd_enumerate_from id).
Qed.

Lemma enumerate_sorted_from n os :
  Sorted num_le os -> keys_sorted (imap (fun i => pair (n + i)%nat) os).
Proof.
  intros H; revert n; induction H as [|o os _ IH Ho]; intros n; simpl; constructor.
  - erewrite imap_ext; [apply (IH (S n))|]. intros; simpl. f_equal. lia.
  - destruct Ho as [|y os Hoy]; simpl; constructor. unfold key_le, num_le in *; simpl.
    apply orb_true_iff. destruct (decide (opt_number o < opt_number y)).
    + left. by apply Z.ltb_lt.
    + right. apply andb_true_iff. split; [apply Z.eqb_eq; lia|]. apply Nat.leb_le. lia.
Qed.

Lemma sorted_options_id os : Sorted num_le os -> sorted_options os = os.
Proof.
  intros H. unfold sorted_options, enumerate.
  rewrite sort_by_key_id by exact (enumerate_sorted_from 0 os H).
  apply (map_snd_enumerate_from id).
Qed.

(** ** One option on the wire *)

(** The nibble and the extension bytes of a delta or a length. *)
Definition nib (v : Z) : Z * bytes :=
  if v <=? 12 then (v, [])
  else if v <=? 268 then (13, [v - 13])
  else (14, to_be 2 (v - 269)).

Lemma encode_extended_nibble_nib v : is_u16 v -> encode_extended_nibble v = Ok (nib v).
Proof.
  intros [? ?]. unfold encode_extended_nibble, nib. repeat case_match; zbool; try done.
  all: by rewrite wrap_small by (unfold uint; lia).
Qed.

Lemma nib_bound v : is_u16 v -> 0 <= (nib v).1 <= 14.
Proof. intros [? ?]. unfold nib. repeat case_match; zbool; simpl; lia. Qed.

Lemma nib_bytes_ok v : is_u16 v -> bytes_ok (nib v).2.
Proof.
  intros [? ?]. unfold nib. repeat case_match; zbool; cbn [snd]; [constructor| |apply to_be_ok].
  repeat constructor; lia.
Qed.

Lemma decode_nib v rest :
  is_u16 v -> decode_extended_nibble (nib v).1 ((nib v).2 ++ rest) = Ok (v, len (nib v).2).
Proof.
  intros Hv. pose proof Hv as [? ?]. change (2 ^ 16) with 65536 in *.
  unfold nib, decode_extended_nibble.
  destruct (v <=? 12) eqn:?; zbool; cbn [fst snd].
  - by rewrite (proj2 (Z.leb_le _ _)) by lia.
  - destruct (v <=? 268) eqn:?; zbool; cbn [fst snd]; simpl Z.leb; simpl Z.eqb; cbn iota.
    + cbn [app]. unfold add_or_panic. rewrite (proj2 (Z.ltb_lt _ _)) by (simpl; lia).
      cbn [rbind]. autorewrite with len. do 2 f_equal; lia.
    + pose proof (len_nonneg rest).
      rewrite (proj2 (Z.ltb_ge _ _)) by (autorewrite with len; simpl; lia). eval_idx.
      change [((v - 269) / 2 ^ (8 * Z.of_nat 1)) mod 256; ((v - 269) / 2 ^ (8 * Z.of_nat 0)) mod 256]
        with (to_be 2 (v - 269)).
      rewrite from_to_be_small by (unfold uint; simpl; lia).
      unfold checked_add. rewrite (proj2 (Z.ltb_lt _ _)) by (simpl; lia).
      cbn [ok_or rbind]. rewrite len_to_be. do 2 f_equal; simpl; lia.
Qed.

Definition option_bytes (delta : Z) (v : bytes) : bytes :=
  ((nib delta).1 * 16 + (nib (len v)).1) :: (nib delta).2 ++ (nib (len v)).2 ++ v.

Lemma encode_option_header_ok delta n out :
  is_u16 delta -> is_u16 n ->
  encode_option_header delta n out =
    (out ++ ((nib delta).1 * 16 + (nib n).1) :: (nib delta).2 ++ (nib n).2, Ok tt).
Proof.
  intros Hd Hn. unfold encode_option_header.
  rewrite encode_extended_nibble_nib by done. rewrite (surjective_pairing (nib delta)).
  rewrite (proj2 (Z.ltb_lt _ _)) by apply Hn. cbn [rbind].
  rewrite encode_extended_nibble_nib by done. rewrite (surjective_pairing (nib n)). cbn [fst snd].
  pose proof (nib_bound _ Hd). pose proof (nib_bound _ Hn).
  rewrite wrap_small by (rewrite Z.shiftl_mul_pow2 by lia; unfold uint; lia).
  by rewrite lor_shiftl_add by (unfold uint; lia).
Qed.

Lemma decode_option_ok delta v last rest :
  is_u16 delta -> len v < 2 ^ 16 -> 0 <= last -> last + delta < 2 ^ 16 ->
  decode_option ((nib delta).1 * 16 + (nib (len v)).1)
    ((nib delta).2 ++ (nib (len v)).2 ++ v ++ rest) last
  = Ok (mkCoapOption (last + delta) v, rest).
Proof.
  intros Hd Hv Hl Hs. pose proof (len_nonneg v). pose proof (len_nonneg rest).
  assert (is_u16 (len v)) as Hn by (unfold uint; lia).
  pose proof (nib_bound _ Hd). pose proof (nib_bound _ Hn).
  unfold decode_option.
  rewrite Z.shiftr_div_pow2, Z.div_add_l, (Z.div_small (nib (len v)).1), Z.add_0_r by lia.
  rewrite decode_nib by done. cbn [rbind]. rewrite slice_from_prefix. cbn [rbind].
  change 0x0f with (2 ^ 4 - 1). rewrite land_ones_mod by lia.
  rewrite Z.add_comm, Z.mod_add, Z.mod_small by lia.
  rewrite decode_nib by done. cbn [rbind]. rewrite slice_from_prefix. cbn [rbind].
  rewrite (proj2 (Z.ltb_ge _ _)) by (autorewrite with len; lia).
  unfold checked_add. rewrite (proj2 (Z.ltb_lt _ _)) by lia. cbn [ok_or rbind].
  rewrite slice_to_ok by (autorewrite with len; lia).
  cbn [rbind]. rewrite slice_from_prefix, to_nat_len, take_app_length. done.
Qed.

(** ** The option region *)

Definition option_wf (o : CoapOption) : Prop :=
  is_u16 (opt_number o) /\ bytes_ok (opt_value o) /\ len (opt_value o) < 2 ^ 16.

(** Options in ascending order, none below [last]. *)
Inductive ascending : Z -> list CoapOption -> Prop :=
  | ascending_nil last : ascending last []
  | ascending_cons last o os :
      last <= opt_number o -> ascending (opt_number o) os -> ascending last (o :: os).

Lemma Sorted_ascending last os :
  Sorted num_le os -> (forall o os', os = o :: os' -> last <= opt_number o) -> ascending last os.
Proof.
  intros H. revert last. induction H as [|o os _ IH Ho]; intros last Hl; constructor; [by eapply Hl|].
  apply IH. intros o' os' ->. by inversion Ho.
Qed.

Lemma ascending_Sorted last os : ascending last os -> Sorted num_le os.
Proof.
  induction 1 as [|last o os _ H IH]; constructor; [done|].
  inversion H; subst; [apply HdRel_nil|by apply HdRel_cons].
Qed.

Fixpoint options_bytes (last : Z) (os : list CoapOption) : bytes :=
  match os with
  | [] => []
  | o :: os' => option_bytes (opt_number o - last) (opt_value o) ++ options_bytes (opt_number o) os'
  end.

Lemma encode_options_ok l last out :
  0 <= last -> ascending last (map snd l) -> Forall option_wf (map snd l) ->
  encode_options l last out = Ok (out ++ options_bytes last (map snd l)).
Proof.
  revert last out; induction l as [|[i o] l IH]; intros last out Hlast Ha Hw; simpl.
  - by rewrite app_nil_r.
  - simpl in *. inversion Ha; subst. apply Forall_cons_1 in Hw as [([? ?] & ? & ?) Hw].
    unfold checked_sub. rewrite (proj2 (Z.leb_le _ _)) by lia. cbn [ok_or rbind].
    pose proof (len_nonneg (opt_value o)). unfold written.
    rewrite encode_option_header_ok by (unfold uint; lia). cbn [fst snd rbind].
    rewrite IH by (done || lia). unfold option_bytes. f_equal.
    simpl. rewrite <- !(assoc_L (++)). simpl. by rewrite <- !(assoc_L (++)).
Qed.

Lemma decode_options_step fuel first after last :
  first <> 0xff ->
  decode_options (S fuel) (first :: after) last =
    let! '(o, rest) := decode_option first after last in
    let! '(os, pl) := decode_options fuel rest (opt_number o) in
    Ok (o :: os, pl).
Proof. intros H. simpl. by rewrite (proj2 (Z.eqb_neq _ _)). Qed.

Lemma decode_options_ok os last fuel tail pl :
  0 <= last -> ascending last os -> Forall option_wf os ->
  (tail = [] /\ pl = [] \/ tail = 0xff :: pl) ->
  (length (options_bytes last os) <= fuel)%nat ->
  decode_options fuel (options_bytes last os ++ tail) last = Ok (os, pl).
Proof.
  intros Hlast Ha Hw Ht. revert fuel Hlast Hw. induction Ha as [last|last o os Hle Ha IH];
    intros fuel Hlast Hw Hf; simpl options_bytes in *.
  - destruct Ht as [[-> ->]| ->]; by destruct fuel.
  - apply Forall_cons_1 in Hw as [([? ?] & ? & ?) Hw].
    pose proof (len_nonneg (opt_value o)).
    assert (is_u16 (opt_number o - last)) as Hd by (unfold uint; lia).
    assert (is_u16 (len (opt_value o))) as Hn by (unfold uint; lia).
    pose proof (nib_bound _ Hd). pose proof (nib_bound _ Hn).
    unfold option_bytes in Hf |- *. destruct fuel as [|fuel]; [simpl in Hf; lia|].
    cbn [app]. rewrite decode_options_step by lia.
    rewrite <- !(assoc_L (++)), decode_option_ok by (done || lia). cbn [rbind opt_number].
    replace (last + (opt_number o - last)) with (opt_number o) by lia.
    rewrite IH; [by destruct o|lia|done|].
    simpl in Hf. rewrite !length_app in Hf. lia.
Qed.

(** ** Messages *)

Definition coap_wf (m : CoapMessage) : Prop :=
  is_u8 (coap_code m) /\ is_u16 (message_id m) /\ bytes_ok (token m) /\ len (token m) <= 8 /\
  Forall option_wf (options m) /\ bytes_ok (payload m).

#[global] Instance option_wf_dec o : Decision (option_wf o).
Proof. unfold option_wf. apply _. Defined.
#[global] Instance coap_wf_dec m : Decision (coap_wf m).
Proof. unfold coap_wf. apply _. Defined.

Definition coap_bytes (m : CoapMessage) (os : list CoapOption) : bytes :=
  ((4 + CoapType_as_u8 (coap_ty m)) * 16 + len (token m)) :: coap_code m ::
  to_be 2 (message_id m) ++ token m ++ options_bytes 0 os ++
  (if is_empty (payload m) then [] else 0xff :: payload m).

Lemma sorted_options_wf os : Forall option_wf os -> Forall option_wf (sorted_options os).
Proof. intros H. by rewrite sorted_options_perm. Qed.

Lemma sorted_options_ascending0 os : Forall option_wf os -> ascending 0 (sorted_options os).
Proof.
  intros H%sorted_options_wf. apply Sorted_ascending; [apply sorted_options_ascending|].
  intros o os' Heq. rewrite Heq in H. apply Forall_cons_1 in H as [([? ?] & _) _]. done.
Qed.

Lemma CoapMessage_encode_ok m :
  coap_wf m -> CoapMessage_encode m = Ok (coap_bytes m (sorted_options (options m))).
Proof.
  intros (? & ? & ? & Htl & Ho & ?). unfold CoapMessage_encode, coap_bytes.
  rewrite Z.gtb_ltb, (proj2 (Z.ltb_ge _ _)) by lia.
  rewrite encode_options_ok;
    [|lia|by apply sorted_options_ascending0|by apply sorted_options_wf].
  cbn [rbind]. fold (sorted_options (options m)).
  pose proof (len_nonneg (token m)). rewrite wrap_small by (unfold uint; lia).
  assert (Z.lor (Z.shiftl 1 6) (Z.shiftl (CoapType_as_u8 (coap_ty m)) 4)
    = Z.shiftl (4 + CoapType_as_u8 (coap_ty m)) 4) as -> by (by destruct (coap_ty m)).
  rewrite lor_shiftl_add by (unfold uint; lia).
  destruct (is_empty (payload m)); rewrite <- ?(assoc_L (++)), ?app_nil_r; done.
Qed.

Lemma CoapMessage_decode_bytes m os :
  coap_wf m -> ascending 0 os -> Forall option_wf os ->
  CoapMessage_decode (coap_bytes m os) = Ok (set_options m os).
Proof.
  intros (Hc & Hm & Ht & Htl & _ & Hp) Ha Hw. unfold CoapMessage_decode, coap_bytes.
  set (tail := if is_empty (payload m) then [] else 0xff :: payload m).
  set (obs := options_bytes 0 os).
  pose proof (len_nonneg (token m)). pose proof (len_nonneg obs). pose proof (len_nonneg tail).
  assert (0 <= CoapType_as_u8 (coap_ty m) <= 3) by (destruct (coap_ty m); simpl; lia).
  rewrite (proj2 (Z.ltb_ge _ _)) by (autorewrite with len; simpl; lia). eval_idx.
  set (b0 := (4 + CoapType_as_u8 (coap_ty m)) * 16 + len (token m)).
  assert (Z.shiftr b0 6 = 1) as ->.
  { rewrite Z.shiftr_div_pow2 by lia. symmetry.
    apply (Z.div_unique_pos _ _ _ (CoapType_as_u8 (coap_ty m) * 16 + len (token m))); unfold b0; lia. }
  assert (Z.land b0 0x0f = len (token m)) as ->.
  { change 0x0f with (2 ^ 4 - 1). rewrite land_ones_mod by lia. unfold b0.
    rewrite Z.add_comm, Z.mod_add, Z.mod_small; lia. }
  assert (Z.land (Z.shiftr b0 4) 0x03 = CoapType_as_u8 (coap_ty m)) as ->.
  { change 0x03 with (2 ^ 2 - 1). rewrite land_ones_mod, Z.shiftr_div_pow2 by lia. unfold b0.
    rewrite Z.div_add_l, (Z.div_small (len _)), Z.add_0_r by lia.
    rewrite <- (Z.mul_1_l 4), Z.add_comm, Z.mod_add, Z.mod_small; lia. }
  cbn [negb Z.eqb Pos.eqb]. rewrite Z.gtb_ltb, (proj2 (Z.ltb_ge 8 _)) by lia. cbn [orb].
  rewrite (proj2 (Z.ltb_ge _ _)) by (autorewrite with len; simpl; lia).
  assert (CoapType_try_from (CoapType_as_u8 (coap_ty m)) = Ok (coap_ty m)) as ->
    by (by destruct (coap_ty m)). cbn [rbind].
  eval_idx. change (from_be _) with (from_be (to_be 2 (message_id m))).
  rewrite from_to_be_small by done.
  set (hdr := b0 :: coap_code m :: to_be 2 (message_id m)).
  change (b0 :: coap_code m :: to_be 2 (message_id m) ++ token m ++ obs ++ tail)
    with (hdr ++ token m ++ obs ++ tail).
  change 4 with (len hdr). rewrite slice_prefix. cbn [rbind].
  rewrite <- len_app, (assoc_L (++)), slice_from_prefix. cbn [rbind].
  rewrite (decode_options_ok os 0 _ tail (payload m)); [by destruct m|done..| |].
  - unfold tail. destruct (payload m); simpl; auto.
  - rewrite length_app. unfold obs. lia.
Qed.

(** ** The decoder on any input *)

Lemma u8_nibbles b : is_u8 b -> 0 <= Z.shiftr b 4 < 16 /\ 0 <= Z.land b 0x0f < 16.
Proof.
  intros [? ?]. change (2 ^ 8) with 256 in *. rewrite Z.shiftr_div_pow2 by lia.
  change 0x0f with (2 ^ 4 - 1). rewrite land_ones_mod by lia.
  change (2 ^ 4) with 16. Z.div_mod_to_equations. lia.
Qed.

Lemma decode_extended_nibble_safe n bs : bytes_ok bs -> safe (decode_extended_nibble n bs).
Proof.
  intros Hok. unfold decode_extended_nibble. safe_auto.
  apply Forall_cons_1 in Hok as [[? ?] _]. apply safe_add_or_panic. lia.
Qed.

Lemma decode_extended_nibble_inv n bs v used :
  0 <= n -> bytes_ok bs -> decode_extended_nibble n bs = Ok (v, used) ->
  is_u16 v /\ 0 <= used <= len bs.
Proof.
  intros Hn Hok H. unfold decode_extended_nibble in H. pose proof (len_nonneg bs).
  destruct (n <=? 12) eqn:?; zbool; [injection H as <- <-; split; [unfold uint|]; lia|].
  destruct (n =? 13); [|destruct (n =? 14); [|done]].
  - destruct bs as [|b bs]; [done|]. apply Forall_cons_1 in Hok as [[? ?] _].
    unfold add_or_panic in H. inv_ok. autorewrite with len in *.
    pose proof (len_nonneg bs). split; [unfold uint|]; lia.
  - destruct (len bs <? 2) eqn:?; [done|]; zbool. inv_ok.
    repeat match goal with H : idx _ _ = Ok _ |- _ => apply (idx_Forall _ _ _ _ Hok) in H end.
    match goal with H : checked_add _ _ _ = _ |- _ => unfold checked_add in H;
      destruct (_ <? _) eqn:? in H; [|done]; injection H as <- end.
    zbool. rewrite from_be_2 in *. unfold uint in *. split; lia.
Qed.

Lemma decode_option_inv first after last o rest :
  is_u8 first -> bytes_ok after -> 0 <= last ->
  decode_option first after last = Ok (o, rest) ->
  option_wf o /\ last <= opt_number o /\ bytes_ok rest /\ len rest <= len after.
Proof.
  intros Hf Hok Hl H. unfold decode_option in H. destruct (u8_nibbles _ Hf) as [? ?].
  apply rbind_ok in H as ([delta ud] & Hd & H).
  apply decode_extended_nibble_inv in Hd as [Hd ?]; [|lia|done].
  rewrite slice_from_ok in H by lia. cbn [rbind] in H.
  set (ad := drop (Z.to_nat ud) after) in *.
  assert (bytes_ok ad) by (by apply Forall_drop).
  assert (len ad = len after - ud) by (apply len_drop; lia).
  apply rbind_ok in H as ([n ul] & Hn & H).
  apply decode_extended_nibble_inv in Hn as [[? ?] ?]; [|lia|done].
  rewrite slice_from_ok in H by lia. cbn [rbind] in H.
  set (al := drop (Z.to_nat ul) ad) in *.
  assert (bytes_ok al) by (by apply Forall_drop).
  assert (len al = len ad - ul) by (apply len_drop; lia).
  destruct (len al <? n) eqn:?; [done|]; zbool.
  unfold checked_add in H. destruct (last + delta <? 2 ^ 16) eqn:?; [|done]; zbool.
  cbn [ok_or rbind] in H. rewrite slice_to_ok, slice_from_ok in H by lia.
  injection H as <- <-. unfold option_wf, uint in *; cbn [opt_number opt_value].
  rewrite len_take, len_drop by lia.
  split_and!; try lia; [by apply Forall_take|by apply Forall_drop].
Qed.

Lemma decode_option_safe first after last :
  is_u8 first -> bytes_ok after -> safe (decode_option first after last).
Proof.
  intros Hf Hok. destruct (u8_nibbles _ Hf) as [? ?]. unfold decode_option.
  apply safe_bind; [by apply decode_extended_nibble_safe|]. intros [d ud] Hd.
  apply decode_extended_nibble_inv in Hd as [? ?]; [|lia|done].
  rewrite slice_from_ok by lia. cbn [rbind].
  apply safe_bind; [by apply decode_extended_nibble_safe, Forall_drop|]. intros [n un] Hn.
  apply decode_extended_nibble_inv in Hn as [[? ?] ?]; [|lia|by apply Forall_drop].
  rewrite slice_from_ok by lia. cbn [rbind]. safe_auto.
Qed.

Lemma decode_options_spec fuel rest last :
  (length rest <= fuel)%nat -> bytes_ok rest -> 0 <= last ->
  safe (decode_options fuel rest last) /\
  forall os pl, decode_options fuel rest last = Ok (os, pl) ->
    ascending last os /\ Forall option_wf os /\ bytes_ok pl.
Proof.
  revert rest last; induction fuel as [|fuel IH]; intros rest last Hf Hok Hl.
  { destruct rest; [|simpl in Hf; lia]. split; [done|]. intros os pl [= <- <-].
    split_and!; constructor. }
  destruct rest as [|b rest]; [split; [done|intros os pl [= <- <-]; split_and!; constructor]|].
  apply Forall_cons_1 in Hok as [Hb Hok].
  destruct (decide (b = 0xff)) as [->|Hne].
  { split; [done|]. intros os pl [= <- <-]. split_and!; [constructor..|done]. }
  rewrite decode_options_step by done.
  assert (forall o rest', decode_option b rest last = Ok (o, rest') ->
    0 <= opt_number o /\ (length rest' <= fuel)%nat /\ bytes_ok rest') as Hstep.
  { intros o rest' H. apply decode_option_inv in H as (_ & ? & ? & ?); try done.
    simpl in Hf. unfold len in *. split_and!; [lia|lia|done]. }
  split.
  - apply safe_bind; [by apply decode_option_safe|]. intros [o rest'] H.
    destruct (Hstep _ _ H) as (? & ? & ?). apply safe_bind; [by apply IH|]. by intros [? ?] _.
  - intros os pl H. inv_ok. match goal with H : decode_option _ _ _ = _ |- _ =>
      destruct (Hstep _ _ H) as (? & ? & ?); apply decode_option_inv in H as (? & ? & ? & ?); try done end.
    match goal with H : decode_options _ _ _ = _ |- _ => apply IH in H as (? & ? & ?); try done end.
    split_and!; [by constructor|by constructor|done].
Qed.

Lemma CoapMessage_decode_spec bs :
  bytes_ok bs ->
  safe (CoapMessage_decode bs) /\
  forall m, CoapMessage_decode bs = Ok m -> coap_wf m /\ ascending 0 (options m).
Proof.
  intros Hok. unfold CoapMessage_decode.
  destruct (len bs <? 4) eqn:?; [by split|]; zbool.
  destruct bs as [|b0 [|b1 [|b2 [|b3 bs]]]]; try (unfold len in *; simpl in *; lia).
  destruct (Forall_cons_1 _ _ _ Hok) as [Hb0 Hok1].
  destruct (Forall_cons_1 _ _ _ Hok1) as [Hb1 Hok2].
  destruct (Forall_cons_1 _ _ _ Hok2) as [Hb2 Hok3].
  destruct (Forall_cons_1 _ _ _ Hok3) as [Hb3 Hok4].
  eval_idx. destruct (u8_nibbles _ Hb0) as [_ Htl].
  destruct (negb _) eqn:?; [by split|]; zbool.
  destruct (_ || _) eqn:?; [by split|]; zbool. rewrite Z.gtb_ltb in *; zbool.
  assert (exists t, CoapType_try_from (Z.land (Z.shiftr b0 4) 0x03) = Ok t) as [t ->].
  { change 0x03 with (2 ^ 2 - 1). rewrite land_ones_mod by lia.
    pose proof (Z.mod_pos_bound (Z.shiftr b0 4) (2 ^ 2) eq_refl) as Hm.
    change (2 ^ 2) with 4 in *. unfold CoapType_try_from.
    assert (Z.shiftr b0 4 mod 4 = 0 \/ Z.shiftr b0 4 mod 4 = 1 \/ Z.shiftr b0 4 mod 4 = 2 \/
      Z.shiftr b0 4 mod 4 = 3) as [->|[->|[->| ->]]] by lia; eauto. }
  cbn [rbind]. eval_idx.
  rewrite slice_ok, slice_from_ok by lia. cbn [rbind].
  set (rest := drop _ _).
  destruct (decode_options_spec (length rest) rest 0) as [Hs Hr];
    [lia|by apply Forall_drop|lia|]. split.
  - apply safe_bind; [done|]. by intros [? ?] _.
  - intros m Hm. inv_ok. match goal with H : decode_options _ _ _ = _ |- _ =>
      apply Hr in H as (? & ? & ?) end.
    split; [|done]. unfold coap_wf; cbn [coap_code message_id token options payload].
    rewrite drop_0, len_take by (autorewrite with len in *; lia). rewrite from_be_2. unfold uint in *. split_and!; try done; try lia.
    by apply Forall_take.
Qed.

(** ** Uri-Path *)

Lemma split_slash_nonempty l : split_slash l <> [].
Proof. destruct l as [|b l]; simpl; [done|]. destruct (_ =? _); [done|]. by destruct (split_slash l). Qed.

Lemma join_split l : join_slash (split_slash l) = l.
Proof.
  induction l as [|b l IH]; [done|]. simpl. pose proof (split_slash_nonempty l).
  destruct (b =? slash) eqn:?; zbool; subst; destruct (split_slash l) as [|s ss]; try done.
  - simpl. by rewrite <- IH.
  - simpl. destruct ss; simpl in *; by rewrite <- IH.
Qed.

Lemma push_segments_ok ss os :
  Forall (fun s => s <> []) ss ->
  push_segments ss os = (os ++ map (mkCoapOption COAP_OPTION_URI_PATH) ss, Ok tt).
Proof.
  intros H; revert os; induction H as [|s ss Hs _ IH]; intros os; simpl; [by rewrite app_nil_r|].
  destruct s; [done|]. simpl. rewrite IH. by rewrite <- (assoc_L (++)).
Qed.

Lemma push_segments_err ss os :
  ~ Forall (fun s => s <> []) ss ->
  (push_segments ss os).2 = Err (EDataset "CoAP Uri-Path has an empty segment").
Proof.
  revert os; induction ss as [|s ss IH]; intros os H; simpl.
  - contradict H. constructor.
  - destruct s as [|b s]; [done|]. simpl. apply IH. contradict H. by constructor.
Qed.

Lemma mapM_from_utf8 (l : list bytes) (f : bytes -> CoapOption) e :
  (forall s, opt_value (f s) = s) -> Forall (fun s => utf8_valid s = true) l ->
  mapM_result (fun o => from_utf8 (opt_value o) (e : Error)) (map f l) = Ok l.
Proof.
  intros Hf. induction 1 as [|s l Hs _ IH]; simpl; [done|].
  unfold from_utf8 at 1. rewrite Hf, Hs. simpl. by rewrite IH.
Qed.

Lemma filter_uri_map ss :
  List.filter (fun o => opt_number o =? COAP_OPTION_URI_PATH)
    (map (mkCoapOption COAP_OPTION_URI_PATH) ss) = map (mkCoapOption COAP_OPTION_URI_PATH) ss.
Proof. induction ss as [|s ss IH]; simpl; [done|]. by rewrite IH. Qed.

(** A path of non-empty, valid segments. *)
Definition path_ok (path : bytes) : Prop :=
  Forall (fun s => s <> [] /\ utf8_valid s = true) (split_slash path).
#[global] Instance path_ok_dec p : Decision (path_ok p).
Proof. unfold path_ok. apply _. Defined.

Lemma post_request_ok ty mid tok path pl :
  path <> [] -> path_ok path ->
  post_request ty mid tok (slash :: path) pl =
    Ok (mkCoapMessage ty CODE_POST mid tok
         (map (mkCoapOption COAP_OPTION_URI_PATH) (split_slash path)) pl).
Proof.
  intros Hne Hp. unfold post_request, set_uri_path. cbn [options List.filter strip_slash].
  rewrite Z.eqb_refl. destruct (is_empty path) eqn:E; [by apply is_empty_true in E|].
  rewrite push_segments_ok; [done|]. eapply Forall_impl; [exact Hp|]. by intros ? [? _].
Qed.

Lemma uri_path_segments ty c mid tok ss pl :
  ss <> [] -> Forall (fun s => utf8_valid s = true) ss ->
  uri_path (mkCoapMessage ty c mid tok (map (mkCoapOption COAP_OPTION_URI_PATH) ss) pl)
  = Ok (Some (slash :: join_slash ss)).
Proof.
  intros Hne H. unfold uri_path; cbn [options]. rewrite filter_uri_map, mapM_from_utf8 by done.
  simpl. by destruct ss.
Qed.

Lemma split_slash_wf path :
  bytes_ok path -> Forall (fun s => bytes_ok s /\ len s <= len path) (split_slash path).
Proof.
  induction 1 as [|b l Hb Hl IH]; cbn [split_slash]; [by apply Forall_singleton|].
  pose proof (len_nonneg l).
  assert (forall s, bytes_ok s /\ len s <= len l -> bytes_ok s /\ len s <= len (b :: l)) as Hw
    by (intros s [? ?]; rewrite len_cons; split; [done|lia]).
  destruct (b =? slash).
  - constructor; [split; [constructor|rewrite len_nil, len_cons; lia]|].
    eapply Forall_impl; [exact IH|exact Hw].
  - pose proof (split_slash_nonempty l). destruct (split_slash l) as [|s ss]; [done|].
    apply Forall_cons_1 in IH as [[? ?] IH]. constructor.
    + rewrite !len_cons. split; [by constructor|lia].
    + eapply Forall_impl; [exact IH|exact Hw].
Qed.

Lemma uri_options_wf path :
  bytes_ok path -> len path < 2 ^ 16 ->
  Forall option_wf (map (mkCoapOption COAP_OPTION_URI_PATH) (split_slash path)).
Proof.
  intros Hp Hl. apply Forall_map. eapply Forall_impl; [by apply split_slash_wf|].
  intros s [? ?]. unfold option_wf; cbn [opt_number opt_value]. split_and!; [by split|done|lia].
Qed.

Lemma uri_options_sorted ss : Sorted num_le (map (mkCoapOption COAP_OPTION_URI_PATH) ss).
Proof.
  induction ss as [|s ss IH]; simpl; constructor; [done|].
  destruct ss; constructor. unfold num_le; simpl; lia.
Qed.

Lemma encode_decode_sorted m :
  coap_wf m -> Sorted num_le (options m) ->
  exists b, CoapMessage_encode m = Ok b /\ CoapMessage_decode b = Ok m.
Proof.
  intros Hm Hs. pose proof Hm as (_ & _ & _ & _ & Ho & _).
  exists (coap_bytes m (options m)). rewrite CoapMessage_encode_ok, sorted_options_id by done.
  split; [done|]. rewrite CoapMessage_decode_bytes; [by destruct m|done| |done].
  rewrite <- (sorted_options_id (options m)) by done. by apply sorted_options_ascending0.
Qed.

(** ** Properties *)

(** C40: decoding an encoded message gives back the message with its options in
    ascending number order: the same options, equal numbers keeping their
    relative order, so a message whose options already ascend is unchanged. *)
Theorem coap_roundtrip m :
  coap_wf m ->
  exists b, CoapMessage_encode m = Ok b /\
    CoapMessage_decode b = Ok (set_options m (sorted_options (options m))) /\
    sorted_options (options m) ≡ₚ options m /\
    (Sorted num_le (options m) -> CoapMessage_decode b = Ok m).
Proof.
  intros Hm. pose proof Hm as (_ & _ & _ & _ & Ho & _).
  exists (coap_bytes m (sorted_options (options m))).
  assert (CoapMessage_decode (coap_bytes m (sorted_options (options m)))
    = Ok (set_options m (sorted_options (options m)))) as Hd.
  { apply CoapMessage_decode_bytes; [done| |];
      [by apply sorted_options_ascending0|by apply sorted_options_wf]. }
  split_and!; [by apply CoapMessage_encode_ok|done|apply sorted_options_perm|].
  intros Hs. rewrite Hd, sorted_options_id by done. by destruct m.
Qed.

Definition sample_message : CoapMessage :=
  mkCoapMessage Confirmable CODE_POST 0x1234 [1; 2; 3]
    [mkCoapOption 300 [9; 9]; mkCoapOption 11 [99]; mkCoapOption 11 (repeat 97 20)] [7; 8].

Lemma coap_roundtrip_witness :
  coap_wf sample_message /\ exists b, CoapMessage_encode sample_message = Ok b /\
    CoapMessage_decode b = Ok (set_options sample_message (sorted_options (options sample_message))) /\
    sorted_options (options sample_message) ≡ₚ options sample_message /\
    (Sorted num_le (options sample_message) -> CoapMessage_decode b = Ok sample_message).
Proof.
  assert (coap_wf sample_message) as H by by_decide.
  split; [exact H|exact (coap_roundtrip sample_message H)].
Defined.

(** The decoder never panics and always terminates on wire bytes; what it
    accepts is well formed with ascending options, and re-encodes to bytes
    that decode to the same message. *)
Theorem coap_decode_total bs :
  bytes_ok bs ->
  safe (CoapMessage_decode bs) /\
  forall m, CoapMessage_decode bs = Ok m ->
    coap_wf m /\ Sorted num_le (options m) /\
    exists b, CoapMessage_encode m = Ok b /\ CoapMessage_decode b = Ok m.
Proof.
  intros Hok. destruct (CoapMessage_decode_spec bs Hok) as [Hs Hm]. split; [done|].
  intros m H. destruct (Hm m H) as [Hwf Ha]. pose proof (ascending_Sorted _ _ Ha) as Hsort.
  split_and!; [done|done|]. by apply encode_decode_sorted.
Qed.

Lemma coap_decode_total_witness :
  safe (CoapMessage_decode [0x44; 2; 0; 1; 9; 9; 9; 9; 0xb1; 99; 0xff]).
Proof. apply (coap_decode_total _). by_decide. Defined.

(** A request built for a path of non-empty segments reports that path,
    and goes over the wire unchanged. *)
Theorem uri_path_roundtrip ty mid tok path pl :
  is_u16 mid -> bytes_ok tok -> len tok <= 8 -> bytes_ok path -> bytes_ok pl ->
  len path < 2 ^ 16 -> path <> [] -> path_ok path ->
  exists m b, post_request ty mid tok (slash :: path) pl = Ok m /\
    uri_path m = Ok (Some (slash :: path)) /\
    CoapMessage_encode m = Ok b /\ CoapMessage_decode b = Ok m.
Proof.
  intros Hmid Htok Htl Hpath Hpl Hlen Hne Hp.
  rewrite post_request_ok by done.
  set (m := mkCoapMessage ty CODE_POST mid tok
    (map (mkCoapOption COAP_OPTION_URI_PATH) (split_slash path)) pl).
  destruct (encode_decode_sorted m) as (b & He & Hd);
    [|apply uri_options_sorted|exists m, b; split_and!; [done| |exact He|exact Hd]].
  - unfold coap_wf; cbn [coap_code message_id token options payload].
    split_and!; try done. by apply uri_options_wf.
  - unfold m; rewrite uri_path_segments, join_split; [done|apply split_slash_nonempty|].
    eapply Forall_impl; [exact Hp|]. by intros ? [_ ?].
Qed.

Lemma uri_path_roundtrip_witness :
  exists m b, post_request Confirmable 7 [1] (slash :: str_bytes "c/cp") [1; 2] = Ok m /\
    uri_path m = Ok (Some (slash :: str_bytes "c/cp")) /\
    CoapMessage_encode m = Ok b /\ CoapMessage_decode b = Ok m.
Proof. apply (uri_path_roundtrip Confirmable 7 [1] (str_bytes "c/cp") [1; 2]); by_decide. Defined.
