(* ===== verification/NetDiag.v ===== *)
(** * NetDiag: network diagnostics, crates/meshcop/src/meshcop/diag

    The typed model of diagnostic answers and the decoders of the TMF TLVs.
    An [Ipv6Addr] is the list of its sixteen octets. *)
From S2P Require Import Prelude Text Tlv Errors.

(** ** Model *)

Record ModeData := mkModeData {
  rx_on_when_idle : bool;
  is_mtd : bool;
  requires_full_network_data : bool }.

Record ChildTableEntry := mkChildTableEntry {
  timeout_exponent : Z;
  child_incoming_link_quality : Z;
  child_id : Z;
  child_mode : ModeData }.

Record LeaderData := mkLeaderData {
  partition_id : Z;
  weighting : Z;
  data_version : Z;
  stable_data_version : Z;
  leader_router_id : Z }.

Record RouteDataEntry := mkRouteDataEntry {
  router_id : Z;
  outgoing_link_quality : Z;
  incoming_link_quality : Z;
  route_cost : Z }.

Record Route64 := mkRoute64 {
  route_id_sequence : Z;
  route_mask : bytes;
  route_data : list RouteDataEntry }.

Record ChildIpv6AddrInfo := mkChildIpv6AddrInfo {
  child_rloc16 : Z;
  child_addr_id : Z;
  child_addresses : list Ipv6Addr }.

Record MacCounters := mkMacCounters {
  if_in_unknown_protos : Z;
  if_in_errors : Z;
  if_out_errors : Z;
  if_in_ucast_pkts : Z;
  if_in_broadcast_pkts : Z;
  if_in_discards : Z;
  if_out_ucast_pkts : Z;
  if_out_broadcast_pkts : Z;
  if_out_discards : Z }.

Record Connectivity := mkConnectivity {
  parent_priority : Z;
  link_quality_3 : Z;
  link_quality_2 : Z;
  link_quality_1 : Z;
  leader_cost : Z;
  conn_id_sequence : Z;
  active_routers : Z;
  rx_off_child_buffer_size : option Z;
  rx_off_child_datagram_count : option Z }.

Record HasRouteEntry := mkHasRouteEntry {
  route_rloc16 : Z;
  router_preference : Z;
  is_nat64 : bool }.

Record BorderRouterEntry := mkBorderRouterEntry {
  border_rloc16 : Z;
  prefix_preference : Z;
  is_preferred : bool;
  is_slaac : bool;
  is_dhcp : bool;
  is_configure : bool;
  is_default_route : bool;
  is_on_mesh : bool;
  is_nd_dns : bool;
  is_dp : bool }.

Record SixLowPanContext := mkSixLowPanContext {
  is_compress : bool;
  context_id : Z;
  context_length : Z }.

Record PrefixEntry := mkPrefixEntry {
  domain_id : Z;
  prefix_bit_length : Z;
  prefix : bytes;
  six_low_pan_context : option SixLowPanContext;
  has_route : list HasRouteEntry;
  border_routers : list BorderRouterEntry }.

Record NetworkData := mkNetworkData { prefixes : list PrefixEntry }.

Record NetDiagData := mkNetDiagData {
  ext_mac_addr : option bytes;
  mac_addr : option Z;
  diag_mode : option ModeData;
  diag_timeout : option Z;
  connectivity : option Connectivity;
  route64 : option Route64;
  leader_data : option LeaderData;
  network_data : option NetworkData;
  addresses : option (list Ipv6Addr);
  mac_counters : option MacCounters;
  battery_level : option Z;
  supply_voltage : option Z;
  child_table : option (list ChildTableEntry);
  channel_pages : option bytes;
  type_list : option bytes;
  eui64 : option bytes;
  child_ipv6_addresses : option (list ChildIpv6AddrInfo) }.

Definition NetDiagData_default : NetDiagData :=
  mkNetDiagData None None None None None None None None None None None None None None None None None.

(** Field assignments [out.f = Some(v)]. *)
Definition set_ext_mac_addr (v : bytes) (d : NetDiagData) : NetDiagData :=
  mkNetDiagData (Some v) (mac_addr d) (diag_mode d) (diag_timeout d) (connectivity d) (route64 d)
    (leader_data d) (network_data d) (addresses d) (mac_counters d) (battery_level d)
    (supply_voltage d) (child_table d) (channel_pages d) (type_list d) (eui64 d)
    (child_ipv6_addresses d).
Definition set_mac_addr (v : Z) (d : NetDiagData) : NetDiagData :=
  mkNetDiagData (ext_mac_addr d) (Some v) (diag_mode d) (diag_timeout d) (connectivity d)
    (route64 d) (leader_data d) (network_data d) (addresses d) (mac_counters d) (battery_level d)
    (supply_voltage d) (child_table d) (channel_pages d) (type_list d) (eui64 d)
    (child_ipv6_addresses d).
Definition set_diag_mode (v : ModeData) (d : NetDiagData) : NetDiagData :=
  mkNetDiagData (ext_mac_addr d) (mac_addr d) (Some v) (diag_timeout d) (connectivity d)
    (route64 d) (leader_data d) (network_data d) (addresses d) (mac_counters d) (battery_level d)
    (supply_voltage d) (child_table d) (channel_pages d) (type_list d) (eui64 d)
    (child_ipv6_addresses d).
Definition set_diag_timeout (v : Z) (d : NetDiagData) : NetDiagData :=
  mkNetDiagData (ext_mac_addr d) (mac_addr d) (diag_mode d) (Some v) (connectivity d) (route64 d)
    (leader_data d) (network_data d) (addresses d) (mac_counters d) (battery_level d)
    (supply_voltage d) (child_table d) (channel_pages d) (type_list d) (eui64 d)
    (child_ipv6_addresses d).
Definition set_connectivity (v : Connectivity) (d : NetDiagData) : NetDiagData :=
  mkNetDiagData (ext_mac_addr d) (mac_addr d) (diag_mode d) (diag_timeout d) (Some v) (route64 d)
    (leader_data d) (network_data d) (addresses d) (mac_counters d) (battery_level d)
    (supply_voltage d) (child_table d) (channel_pages d) (type_list d) (eui64 d)
    (child_ipv6_addresses d).
Definition set_route64 (v : Route64) (d : NetDiagData) : NetDiagData :=
  mkNetDiagData (ext_mac_addr d) (mac_addr d) (diag_mode d) (diag_timeout d) (connectivity d)
    (Some v) (leader_data d) (network_data d) (addresses d) (mac_counters d) (battery_level d)
    (supply_voltage d) (child_table d) (channel_pages d) (type_list d) (eui64 d)
    (child_ipv6_addresses d).
Definition set_leader_data (v : LeaderData) (d : NetDiagData) : NetDiagData :=
  mkNetDiagData (ext_mac_addr d) (mac_addr d) (diag_mode d) (diag_timeout d) (connectivity d)
    (route64 d) (Some v) (network_data d) (addresses d) (mac_counters d) (battery_level d)
    (supply_voltage d) (child_table d) (channel_pages d) (type_list d) (eui64 d)
    (child_ipv6_addresses d).
Definition set_network_data (v : NetworkData) (d : NetDiagData) : NetDiagData :=
  mkNetDiagData (ext_mac_addr d) (mac_addr d) (diag_mode d) (diag_timeout d) (connectivity d)
    (route64 d) (leader_data d) (Some v) (addresses d) (mac_counters d) (battery_level d)
    (supply_voltage d) (child_table d) (channel_pages d) (type_list d) (eui64 d)
    (child_ipv6_addresses d).
Definition set_addresses (v : list Ipv6Addr) (d : NetDiagData) : NetDiagData :=
  mkNetDiagData (ext_mac_addr d) (mac_addr d) (diag_mode d) (diag_timeout d) (connectivity d)
    (route64 d) (leader_data d) (network_data d) (Some v) (mac_counters d) (battery_level d)
    (supply_voltage d) (child_table d) (channel_pages d) (type_list d) (eui64 d)
    (child_ipv6_addresses d).
Definition set_mac_counters (v : MacCounters) (d : NetDiagData) : NetDiagData :=
  mkNetDiagData (ext_mac_addr d) (mac_addr d) (diag_mode d) (diag_timeout d) (connectivity d)
    (route64 d) (leader_data d) (network_data d) (addresses d) (Some v) (battery_level d)
    (supply_voltage d) (child_table d) (channel_pages d) (type_list d) (eui64 d)
    (child_ipv6_addresses d).
Definition set_battery_level (v : Z) (d : NetDiagData) : NetDiagData :=
  mkNetDiagData (ext_mac_addr d) (mac_addr d) (diag_mode d) (diag_timeout d) (connectivity d)
    (route64 d) (leader_data d) (network_data d) (addresses d) (mac_counters d) (Some v)
    (supply_voltage d) (child_table d) (channel_pages d) (type_list d) (eui64 d)
    (child_ipv6_addresses d).
Definition set_supply_voltage (v : Z) (d : NetDiagData) : NetDiagData :=
  mkNetDiagData (ext_mac_addr d) (mac_addr d) (diag_mode d) (diag_timeout d) (connectivity d)
    (route64 d) (leader_data d) (network_data d) (addresses d) (mac_counters d) (battery_level d)
    (Some v) (child_table d) (channel_pages d) (type_list d) (eui64 d) (child_ipv6_addresses d).
Definition set_child_table (v : list ChildTableEntry) (d : NetDiagData) : NetDiagData :=
  mkNetDiagData (ext_mac_addr d) (mac_addr d) (diag_mode d) (diag_timeout d) (connectivity d)
    (route64 d) (leader_data d) (network_data d) (addresses d) (mac_counters d) (battery_level d)
    (supply_voltage d) (Some v) (channel_pages d) (type_list d) (eui64 d) (child_ipv6_addresses d).
Definition set_channel_pages (v : bytes) (d : NetDiagData) : NetDiagData :=
  mkNetDiagData (ext_mac_addr d) (mac_addr d) (diag_mode d) (diag_timeout d) (connectivity d)
    (route64 d) (leader_data d) (network_data d) (addresses d) (mac_counters d) (battery_level d)
    (supply_voltage d) (child_table d) (Some v) (type_list d) (eui64 d) (child_ipv6_addresses d).
Definition set_type_list (v : bytes) (d : NetDiagData) : NetDiagData :=
  mkNetDiagData (ext_mac_addr d) (mac_addr d) (diag_mode d) (diag_timeout d) (connectivity d)
    (route64 d) (leader_data d) (network_data d) (addresses d) (mac_counters d) (battery_level d)
    (supply_voltage d) (child_table d) (channel_pages d) (Some v) (eui64 d)
    (child_ipv6_addresses d).
Definition set_eui64 (v : bytes) (d : NetDiagData) : NetDiagData :=
  mkNetDiagData (ext_mac_addr d) (mac_addr d) (diag_mode d) (diag_timeout d) (connectivity d)
    (route64 d) (leader_data d) (network_data d) (addresses d) (mac_counters d) (battery_level d)
    (supply_voltage d) (child_table d) (channel_pages d) (type_list d) (Some v)
    (child_ipv6_addresses d).
Definition set_child_ipv6_addresses (v : list ChildIpv6AddrInfo) (d : NetDiagData) : NetDiagData :=
  mkNetDiagData (ext_mac_addr d) (mac_addr d) (diag_mode d) (diag_timeout d) (connectivity d)
    (route64 d) (leader_data d) (network_data d) (addresses d) (mac_counters d) (battery_level d)
    (supply_voltage d) (child_table d) (channel_pages d) (type_list d) (eui64 d) (Some v).

(** [1 << (self.timeout_exponent - 4)] at type [u32]: a shift by 32 or more
    aborts. *)
Definition timeout_seconds (self : ChildTableEntry) : result Error Z :=
  if timeout_exponent self <? 4 then Ok 0
  else if timeout_exponent self - 4 <? 32 then Ok (Z.shiftl 1 (timeout_exponent self - 4))
  else Panic ArithOverflow.

(** ** Scalar decoders *)

Definition diag_read_u8 (value : bytes) (name : string) : result Error Z :=
  match value with
  | [byte] => Ok byte
  | _ => Err (EDataset (name +:+ " must be 1 byte, got " +:+ dec (len value)))
  end.

Definition diag_read_u16 (value : bytes) (name : string) : result Error Z :=
  ok_or (wire_read_u16 value) (EDataset (name +:+ " must be 2 bytes, got " +:+ dec (len value))).

Definition diag_read_u32 (value : bytes) (name : string) : result Error Z :=
  ok_or (wire_read_u32 value) (EDataset (name +:+ " must be 4 bytes, got " +:+ dec (len value))).

Definition ModeData_decode (value : bytes) : result Error ModeData :=
  match value with
  | [mode] =>
      Ok (mkModeData (negb (Z.land mode 0x08 =? 0)) (Z.land mode 0x02 =? 0)
                     (negb (Z.land mode 0x01 =? 0)))
  | _ => Err (EDataset ("Mode value must be 1 byte, got " +:+ dec (len value)))
  end.

(** [(byte >> n) & 0x01 != 0]. *)
Definition bit_at (byte n : Z) : bool := negb (Z.land (Z.shiftr byte n) 0x01 =? 0).

(** ** Network data *)

(** [NetworkDataTlvIter::next]: the item yielded and the bytes left. *)
Definition NetworkDataTlvIter_next (bs : bytes) : option ((result Error Z * bytes) * bytes) :=
  match bs with
  | [] => None
  | [_] => Some ((Err (EDataset "network data TLV header is truncated"), []), [])
  | b0 :: n :: after_header =>
      if len after_header <? n
      then Some ((Err (EDataset "network data TLV value is truncated"), []), [])
      else Some ((Ok (Z.shiftr b0 1), take (Z.to_nat n) after_header),
                 drop (Z.to_nat n) after_header)
  end.

(** [for (ty, value) in NetworkDataTlvIter::new(bs) { .. ty? .. }] over a
    loop state. *)
Fixpoint for_network_tlvs {S} (body : S -> Z -> bytes -> result Error S) (fuel : nat)
    (bs : bytes) (s : S) : result Error S :=
  match NetworkDataTlvIter_next bs with
  | None => Ok s
  | Some ((ty, value), rest) =>
      match fuel with
      | O => Panic OutOfFuel
      | Datatypes.S fuel' =>
          let! t := ty in
          let! s := body s t value in
          for_network_tlvs body fuel' rest s
      end
  end.

Definition HAS_ROUTE_ENTRY_LEN : Z := 3.
Definition BORDER_ROUTER_ENTRY_LEN : Z := 4.

Definition decode_has_route (value : bytes) : result Error (list HasRouteEntry) :=
  if negb (len value mod HAS_ROUTE_ENTRY_LEN =? 0)
  then Err (EDataset ("HasRoute length " +:+ dec (len value) +:+ " is not a multiple of "
                      +:+ dec HAS_ROUTE_ENTRY_LEN))
  else mapM_result (fun chunk =>
    let! c0 := idx chunk 0 in
    let! c1 := idx chunk 1 in
    let! c2 := idx chunk 2 in
    Ok (mkHasRouteEntry (from_be [c0; c1]) (Z.land (Z.shiftr c2 6) 0x03) (bit_at c2 5)))
    (chunks_exact HAS_ROUTE_ENTRY_LEN value).

Definition decode_border_router (value : bytes) : result Error (list BorderRouterEntry) :=
  if negb (len value mod BORDER_ROUTER_ENTRY_LEN =? 0)
  then Err (EDataset ("BorderRouter length " +:+ dec (len value) +:+ " is not a multiple of "
                      +:+ dec BORDER_ROUTER_ENTRY_LEN))
  else mapM_result (fun chunk =>
    let! c0 := idx chunk 0 in
    let! c1 := idx chunk 1 in
    let! c2 := idx chunk 2 in
    let! c3 := idx chunk 3 in
    Ok (mkBorderRouterEntry (from_be [c0; c1]) (Z.land (Z.shiftr c2 6) 0x03)
          (bit_at c2 5) (bit_at c2 4) (bit_at c2 3) (bit_at c2 2) (bit_at c2 1)
          (negb (Z.land c2 0x01 =? 0)) (bit_at c3 7) (bit_at c3 6)))
    (chunks_exact BORDER_ROUTER_ENTRY_LEN value).

Definition decode_six_low_pan_context (value : bytes) : result Error SixLowPanContext :=
  match value with
  | [flags; n] => Ok (mkSixLowPanContext (bit_at flags 4) (Z.land flags 0x0f) n)
  | _ => Err (EDataset ("6LoWPAN context must be 2 bytes, got " +:+ dec (len value)))
  end.

Definition NETWORK_DATA_PREFIX : Z := 1.
Definition NETWORK_DATA_HAS_ROUTE : Z := 0.
Definition NETWORK_DATA_BORDER_ROUTER : Z := 2.
Definition NETWORK_DATA_6LOWPAN_CONTEXT : Z := 3.

(** One turn of the sub-TLV loop of [decode_prefix_entry]. *)
Definition prefix_sub_tlv (entry : PrefixEntry) (t : Z) (value : bytes) : result Error PrefixEntry :=
  if t =? NETWORK_DATA_HAS_ROUTE then
    let! rs := decode_has_route value in
    Ok (mkPrefixEntry (domain_id entry) (prefix_bit_length entry) (prefix entry)
          (six_low_pan_context entry) (has_route entry ++ rs) (border_routers entry))
  else if t =? NETWORK_DATA_BORDER_ROUTER then
    let! rs := decode_border_router value in
    Ok (mkPrefixEntry (domain_id entry) (prefix_bit_length entry) (prefix entry)
          (six_low_pan_context entry) (has_route entry) (border_routers entry ++ rs))
  else if t =? NETWORK_DATA_6LOWPAN_CONTEXT then
    let! c := decode_six_low_pan_context value in
    Ok (mkPrefixEntry (domain_id entry) (prefix_bit_length entry) (prefix entry)
          (Some c) (has_route entry) (border_routers entry))
  else Ok entry.

Definition decode_prefix_entry (value : bytes) : result Error PrefixEntry :=
  if len value <? 2 then Err (EDataset "Prefix entry is truncated")
  else
    let! domain := idx value 0 in
    let! bit_length := idx value 1 in
    let prefix_len := (bit_length + 7) / 8 in
    let sub_tlv_offset := 2 + prefix_len in
    if len value <? sub_tlv_offset then Err (EDataset "Prefix bytes are truncated")
    else
      let! p := slice value 2 sub_tlv_offset in
      let! subs := slice_from value sub_tlv_offset in
      for_network_tlvs prefix_sub_tlv (length subs) subs
        (mkPrefixEntry domain bit_length p None [] []).

Definition NetworkData_decode (value : bytes) : result Error NetworkData :=
  let! ps := for_network_tlvs (fun ps t value =>
      if t =? NETWORK_DATA_PREFIX then
        let! p := decode_prefix_entry value in Ok (ps ++ [p])
      else Ok ps) (length value) value [] in
  Ok (mkNetworkData ps).

(** ** Structured decoders *)

Definition decode_connectivity (value : bytes) : result Error Connectivity :=
  if len value <? 7
  then Err (EDataset ("Connectivity must be at least 7 bytes, got " +:+ dec (len value)))
  else
    let! v0 := idx value 0 in
    let priority :=
      match Z.shiftr v0 6 with 1 => 1 | 0 => 0 | 3 => -1 | _ => -2 end in
    let! v1 := idx value 1 in
    let! v2 := idx value 2 in
    let! v3 := idx value 3 in
    let! v4 := idx value 4 in
    let! v5 := idx value 5 in
    let! v6 := idx value 6 in
    if len value >=? 10 then
      let! v7 := idx value 7 in
      let! v8 := idx value 8 in
      let! v9 := idx value 9 in
      Ok (mkConnectivity priority v1 v2 v3 v4 v5 v6 (Some (from_be [v7; v8])) (Some v9))
    else Ok (mkConnectivity priority v1 v2 v3 v4 v5 v6 None None).

Definition ROUTER_ID_MASK_LEN : Z := 8.

(** [mask[bit / 8] & (0x80 >> (bit % 8)) != 0] on the eight mask bytes. *)
Definition mask_bit (m : bytes) (bit : nat) : bool :=
  negb (Z.land (nth (bit / 8) m 0) (Z.shiftr 0x80 (Z.of_nat (bit mod 8))) =? 0).

Definition mask_router_ids (m : bytes) : list Z :=
  map Z.of_nat (List.filter (mask_bit m) (seq 0 64)).

Definition route_entry (p : Z * Z) : RouteDataEntry :=
  mkRouteDataEntry p.1 (Z.land (Z.shiftr p.2 6) 0x03) (Z.land (Z.shiftr p.2 4) 0x03)
                   (Z.land p.2 0x0f).

Definition decode_route64 (value : bytes) : result Error Route64 :=
  if len value <? ROUTER_ID_MASK_LEN + 1
  then Err (EDataset ("Route64 must be at least " +:+ dec (ROUTER_ID_MASK_LEN + 1)
                      +:+ " bytes, got " +:+ dec (len value)))
  else
    let! seq_ := idx value 0 in
    let! m := slice value 1 (1 + ROUTER_ID_MASK_LEN) in
    let router_ids := mask_router_ids m in
    let! route_bytes := slice_from value (1 + ROUTER_ID_MASK_LEN) in
    if negb (len route_bytes =? len router_ids)
    then Err (EDataset ("Route64 route data has " +:+ dec (len route_bytes)
                        +:+ " entries but the mask assigns " +:+ dec (len router_ids)
                        +:+ " router IDs"))
    else Ok (mkRoute64 seq_ m (map route_entry (zip router_ids route_bytes))).

Definition decode_leader_data (value : bytes) : result Error LeaderData :=
  if negb (len value =? 8)
  then Err (EDataset ("Leader Data must be 8 bytes, got " +:+ dec (len value)))
  else
    let! v0 := idx value 0 in
    let! v1 := idx value 1 in
    let! v2 := idx value 2 in
    let! v3 := idx value 3 in
    let! v4 := idx value 4 in
    let! v5 := idx value 5 in
    let! v6 := idx value 6 in
    let! v7 := idx value 7 in
    Ok (mkLeaderData (from_be [v0; v1; v2; v3]) v4 v5 v6 v7).

Definition decode_ipv6_address_list (value : bytes) : result Error (list Ipv6Addr) :=
  if negb (len value mod 16 =? 0)
  then Err (EDataset ("IPv6 address list length " +:+ dec (len value)
                      +:+ " is not a multiple of 16"))
  else Ok (chunks_exact 16 value).

Definition mac_counter (value : bytes) (i : Z) : result Error Z :=
  let! buf := slice value i (i + 4) in Ok (from_be buf).

Definition decode_mac_counters (value : bytes) : result Error MacCounters :=
  if negb (len value =? 36)
  then Err (EDataset ("MAC Counters must be 36 bytes, got " +:+ dec (len value)))
  else
    let! c0 := mac_counter value 0 in
    let! c1 := mac_counter value 4 in
    let! c2 := mac_counter value 8 in
    let! c3 := mac_counter value 12 in
    let! c4 := mac_counter value 16 in
    let! c5 := mac_counter value 20 in
    let! c6 := mac_counter value 24 in
    let! c7 := mac_counter value 28 in
    let! c8 := mac_counter value 32 in
    Ok (mkMacCounters c0 c1 c2 c3 c4 c5 c6 c7 c8).

Definition CHILD_ENTRY_LEN : Z := 3.

Definition decode_child_table (value : bytes) : result Error (list ChildTableEntry) :=
  if negb (len value mod CHILD_ENTRY_LEN =? 0)
  then Err (EDataset ("Child Table length " +:+ dec (len value) +:+ " is not a multiple of "
                      +:+ dec CHILD_ENTRY_LEN))
  else mapM_result (fun chunk =>
    let! c0 := idx chunk 0 in
    let! c1 := idx chunk 1 in
    let! m := slice chunk 2 3 in
    let! mode := ModeData_decode m in
    Ok (mkChildTableEntry (Z.shiftr c0 3) (Z.land (Z.shiftr c0 1) 0x03)
          (Z.lor (Z.shiftl (Z.land c0 0x01) 8) c1) mode))
    (chunks_exact CHILD_ENTRY_LEN value).

Definition decode_child_ipv6_addresses (value : bytes) : result Error ChildIpv6AddrInfo :=
  if (len value <? 2) || negb ((len value - 2) mod 16 =? 0)
  then Err (EDataset "Child IPv6 Address List must be an RLOC16 followed by whole addresses")
  else
    let! v0 := idx value 0 in
    let! v1 := idx value 1 in
    let rloc16 := from_be [v0; v1] in
    let! rest := slice_from value 2 in
    let! addrs := decode_ipv6_address_list rest in
    Ok (mkChildIpv6AddrInfo rloc16 (Z.land rloc16 0x01ff) addrs).

(** ** The answer *)

(** One turn of the loop of [NetDiagData::decode]: the TLV types are those of
    the module [diag_tlv]. *)
Definition diag_entry (out : NetDiagData) (entry : TlvEntry) : result Error NetDiagData :=
  let v := value entry in
  match ty entry with
  | 0 => Ok (set_ext_mac_addr v out)
  | 1 => let! x := diag_read_u16 v "MAC Address" in Ok (set_mac_addr x out)
  | 2 => let! x := ModeData_decode v in Ok (set_diag_mode x out)
  | 3 => let! x := diag_read_u32 v "Timeout" in Ok (set_diag_timeout x out)
  | 4 => let! x := decode_connectivity v in Ok (set_connectivity x out)
  | 5 => let! x := decode_route64 v in Ok (set_route64 x out)
  | 6 => let! x := decode_leader_data v in Ok (set_leader_data x out)
  | 7 => let! x := NetworkData_decode v in Ok (set_network_data x out)
  | 8 => let! x := decode_ipv6_address_list v in Ok (set_addresses x out)
  | 9 => let! x := decode_mac_counters v in Ok (set_mac_counters x out)
  | 14 => let! x := diag_read_u8 v "Battery Level" in Ok (set_battery_level x out)
  | 15 => let! x := diag_read_u16 v "Supply Voltage" in Ok (set_supply_voltage x out)
  | 16 => let! x := decode_child_table v in Ok (set_child_table x out)
  | 17 => Ok (set_channel_pages v out)
  | 18 => Ok (set_type_list v out)
  | 23 =>
      if len v =? 8 then Ok (set_eui64 v out)
      else Err (EDataset ("EUI-64 must be 8 bytes, got " +:+ dec (len v)))
  | 30 =>
      let! x := decode_child_ipv6_addresses v in
      Ok (set_child_ipv6_addresses (default [] (child_ipv6_addresses out) ++ [x]) out)
  | _ => Ok out
  end.

Fixpoint diag_entries (l : list TlvEntry) (out : NetDiagData) : result Error NetDiagData :=
  match l with
  | [] => Ok out
  | e :: l' => let! out := diag_entry out e in diag_entries l' out
  end.

Definition NetDiagData_decode (payload : bytes) : result Error NetDiagData :=
  let! tlvs := from_tlv (TlvSet_parse payload) in
  diag_entries (entries tlvs) NetDiagData_default.

(** ** No panics *)

Lemma ModeData_decode_safe v : safe (ModeData_decode v).
Proof. unfold ModeData_decode. by repeat case_match. Qed.

Lemma decode_has_route_safe v : safe (decode_has_route v).
Proof. unfold decode_has_route, HAS_ROUTE_ENTRY_LEN. case_match; [done|]. apply safe_chunk_map. intros. safe_auto. Qed.

Lemma decode_border_router_safe v : safe (decode_border_router v).
Proof. unfold decode_border_router, BORDER_ROUTER_ENTRY_LEN. case_match; [done|]. apply safe_chunk_map. intros. safe_auto. Qed.

Lemma decode_six_low_pan_context_safe v : safe (decode_six_low_pan_context v).
Proof. unfold decode_six_low_pan_context. by repeat case_match. Qed.

Lemma decode_child_table_safe v : safe (decode_child_table v).
Proof.
  unfold decode_child_table, CHILD_ENTRY_LEN. case_match; [done|]. apply safe_chunk_map. intros.
  safe_auto. apply ModeData_decode_safe.
Qed.

Lemma decode_connectivity_safe v : safe (decode_connectivity v).
Proof. unfold decode_connectivity. rewrite Z.geb_leb. safe_auto. Qed.

Lemma decode_route64_safe v : safe (decode_route64 v).
Proof. unfold decode_route64, ROUTER_ID_MASK_LEN. safe_auto. Qed.

Lemma decode_leader_data_safe v : safe (decode_leader_data v).
Proof. unfold decode_leader_data. safe_auto. Qed.

Lemma decode_ipv6_address_list_safe v : safe (decode_ipv6_address_list v).
Proof. unfold decode_ipv6_address_list. by case_match. Qed.

Lemma decode_mac_counters_safe v : safe (decode_mac_counters v).
Proof. unfold decode_mac_counters, mac_counter. safe_auto. Qed.

Lemma decode_child_ipv6_addresses_safe v : safe (decode_child_ipv6_addresses v).
Proof.
  unfold decode_child_ipv6_addresses. case_match; [done|]. zbool. safe_auto.
  apply decode_ipv6_address_list_safe.
Qed.

#[export] Hint Resolve ModeData_decode_safe decode_has_route_safe decode_border_router_safe
  decode_six_low_pan_context_safe decode_child_table_safe decode_connectivity_safe
  decode_route64_safe decode_leader_data_safe decode_ipv6_address_list_safe
  decode_mac_counters_safe decode_child_ipv6_addresses_safe : meshcop.

Lemma NetworkDataTlvIter_next_spec bs t v rest :
  bytes_ok bs -> NetworkDataTlvIter_next bs = Some ((t, v), rest) ->
  safe t /\ bytes_ok v /\ bytes_ok rest /\ (length rest < length bs)%nat.
Proof.
  intros Hok H. unfold NetworkDataTlvIter_next in H.
  destruct bs as [|b0 [|n bs]]; [done| |].
  - injection H as <- <- <-. simpl. split_and!; [done..|lia].
  - apply Forall_cons_1 in Hok as [_ Hok]. apply Forall_cons_1 in Hok as [_ Hok].
    destruct (len bs <? n); injection H as <- <- <-; simpl.
    + split_and!; [done..|lia].
    + rewrite length_drop. split_and!; [done|by apply Forall_take|by apply Forall_drop|lia].
Qed.

Lemma for_network_tlvs_safe {S} (body : S -> Z -> bytes -> result Error S) fuel bs s :
  (forall s t v, bytes_ok v -> safe (body s t v)) ->
  (length bs <= fuel)%nat -> bytes_ok bs -> safe (for_network_tlvs body fuel bs s).
Proof.
  intros Hb. revert bs s; induction fuel as [|fuel IH]; intros bs s Hf Hok.
  { by destruct bs; [|simpl in Hf; lia]. }
  cbn [for_network_tlvs].
  destruct (NetworkDataTlvIter_next bs) as [[[t v] rest]|] eqn:E; [|done].
  apply NetworkDataTlvIter_next_spec in E as (? & ? & ? & ?); [|done].
  apply safe_bind; [done|]. intros t' _. apply safe_bind; [by apply Hb|]. intros.
  apply IH; [lia|done].
Qed.

Lemma decode_prefix_entry_safe v : bytes_ok v -> safe (decode_prefix_entry v).
Proof.
  intros Hok. unfold decode_prefix_entry. safe_auto.
  all: match goal with H : idx _ 1 = Ok _ |- _ => apply (idx_Forall _ _ _ _ Hok) in H as [? ?] end.
  1,2: pose proof (Z.div_pos (a0 + 7) 8 ltac:(lia) ltac:(lia)); lia.
  match goal with H : slice_from _ _ = Ok _ |- _ => apply slice_from_inv in H as (? & -> & ?) end.
  apply for_network_tlvs_safe; [|done|by apply Forall_drop].
  intros. unfold prefix_sub_tlv. safe_auto.
Qed.

Lemma NetworkData_decode_safe v : bytes_ok v -> safe (NetworkData_decode v).
Proof.
  intros Hok. unfold NetworkData_decode. apply safe_bind; [|done].
  apply for_network_tlvs_safe; [|done|done]. intros. safe_auto. by apply decode_prefix_entry_safe.
Qed.

Lemma diag_entry_safe out e : bytes_ok (value e) -> safe (diag_entry out e).
Proof.
  intros Hok. unfold diag_entry, diag_read_u8, diag_read_u16, diag_read_u32.
  repeat case_match; try (apply safe_bind; [|done]); auto using NetworkData_decode_safe with meshcop.
  all: done.
Qed.

Lemma diag_entries_safe l out :
  Forall tlv_wf l -> safe (diag_entries l out).
Proof.
  intros H. revert out. induction H as [|e l (_ & He & _) _ IH]; intros out; simpl; [done|].
  apply safe_bind; [by apply diag_entry_safe|]. intros. apply IH.
Qed.

(** ** Router ID masks *)

Lemma mask_bit_testbit m i :
  bytes_ok m -> len m = 8 -> (i < 64)%nat ->
  mask_bit m i = Z.testbit (from_be m) (63 - Z.of_nat i).
Proof.
  intros Hm Hl Hi. unfold mask_bit.
  pose proof (Nat.mod_upper_bound i 8 ltac:(lia)) as Hr.
  pose proof (Nat.div_mod_eq i 8) as Hdm.
  assert (Z.shiftr 0x80 (Z.of_nat (i mod 8)) = 2 ^ (7 - Z.of_nat (i mod 8))) as ->.
  { rewrite Z.shiftr_div_pow2 by lia. change 0x80 with (2 ^ 7). by rewrite <- Z.pow_sub_r by lia. }
  rewrite testbit_nonzero by lia.
  rewrite <- from_be_testbit by (done || unfold len in *; lia). f_equal. rewrite Hl. lia.
Qed.

Lemma zip_fst_map {A} (ids : list Z) (bs : list Z) (f : Z * Z -> A) (g : A -> Z) :
  (forall p, g (f p) = p.1) -> length ids = length bs -> map g (map f (zip ids bs)) = ids.
Proof.
  intros Hg. revert bs. induction ids as [|i ids IH]; intros [|b bs] Hl; simpl in *; try done.
  rewrite Hg, IH by lia. done.
Qed.

Lemma decode_route64_inv v r :
  bytes_ok v -> decode_route64 v = Ok r ->
  bytes_ok (route_mask r) /\ len (route_mask r) = 8 /\
  map router_id (route_data r) = mask_router_ids (route_mask r).
Proof.
  intros Hok. unfold decode_route64, ROUTER_ID_MASK_LEN. generalize mask_router_ids. intros ids H. inv_ok.
  match goal with H : slice _ _ _ = Ok _ |- _ => apply slice_inv in H as (? & ? & -> & Hl) end.
  cbn [route_mask route_data]. split_and!.
  - by apply Forall_take, Forall_drop.
  - rewrite Hl. lia.
  - apply zip_fst_map; [done|]. unfold len in *. lia.
Qed.

Lemma elem_of_mask_router_ids m i :
  0 <= i < 64 -> i ∈ mask_router_ids m <-> mask_bit m (Z.to_nat i) = true.
Proof.
  intros Hi. unfold mask_router_ids. rewrite list_elem_of_In, in_map_iff. split.
  - intros (n & <- & [_ Hb]%List.filter_In). by rewrite Nat2Z.id.
  - intros Hb. exists (Z.to_nat i). split; [lia|]. apply List.filter_In. split; [|done].
    apply in_seq. lia.
Qed.

Definition strictly_ascending (l : list Z) : Prop :=
  forall i j x y, (i < j)%nat -> l !! i = Some x -> l !! j = Some y -> x < y.

Lemma filter_seq_ascending f a n : strictly_ascending (map Z.of_nat (List.filter f (seq a n))).
Proof.
  intros i j x y Hij.
  assert (forall n a i j (x y : nat), (i < j)%nat -> List.filter f (seq a n) !! i = Some x ->
    List.filter f (seq a n) !! j = Some y -> (a <= x < y)%nat) as H.
  { clear. induction n as [|n IH]; intros a i j x y Hij Hi Hj; [done|]. simpl in *.
    destruct (f a).
    - destruct i as [|i]; destruct j as [|j]; try lia; simpl in *.
      + injection Hi as <-. split; [lia|].
        assert (y ∈ List.filter f (seq (S a) n)) as Hy by (apply list_elem_of_lookup; eauto).
        apply list_elem_of_In, List.filter_In in Hy as [Hy _]. apply in_seq in Hy. lia.
      + specialize (IH (S a) i j x y). lia || (destruct IH; try done; lia).
    - specialize (IH (S a) i j x y). destruct IH; try done; lia. }
  change (map Z.of_nat (List.filter f (seq a n))) with (Z.of_nat <$> List.filter f (seq a n)).
  rewrite !list_lookup_fmap. intros (x' & Hx & ->)%fmap_Some (y' & Hy & ->)%fmap_Some.
  pose proof (H _ _ _ _ _ _ Hij Hx Hy). lia.
Qed.

Lemma NetDiagData_decode_safe payload : bytes_ok payload -> safe (NetDiagData_decode payload).
Proof.
  intros Hok. unfold NetDiagData_decode. apply safe_bind.
  - by apply safe_from_tlv, TlvSet_parse_safe.
  - intros s H%from_tlv_ok. apply diag_entries_safe. by apply (TlvSet_parse_wf payload).
Qed.

(** ** Properties *)

(** The router IDs of a decoded Route64 are strictly ascending and are
    exactly the bits set in its 64-bit big-endian mask, bit [i] counted from
    the most significant end. *)
Theorem route64_ids_match_mask v r :
  bytes_ok v -> decode_route64 v = Ok r ->
  strictly_ascending (map router_id (route_data r)) /\
  forall i, 0 <= i < 64 ->
    (i ∈ map router_id (route_data r) <-> Z.testbit (from_be (route_mask r)) (63 - i) = true).
Proof.
  intros Hok H. apply decode_route64_inv in H as (Hm & Hl & ->); [|done].
  split; [unfold mask_router_ids; apply filter_seq_ascending|].
  intros i Hi. rewrite elem_of_mask_router_ids by done.
  rewrite mask_bit_testbit, Z2Nat.id by (done || lia). done.
Qed.

Lemma route64_ids_match_mask_witness :
  exists r, decode_route64 [7; 0x80; 0; 0; 0; 0; 0; 0; 1; 0x5a; 0xff] = Ok r /\
    strictly_ascending (map router_id (route_data r)).
Proof.
  eexists. split; [vm_compute; reflexivity|].
  eapply (route64_ids_match_mask [7; 0x80; 0; 0; 0; 0; 0; 0; 1; 0x5a; 0xff]);
    [by_decide|vm_compute; reflexivity].
Defined.

(** The bounds a decoded child entry keeps: the widths of its bit fields. *)
Definition child_bounds (e : ChildTableEntry) : Prop :=
  0 <= timeout_exponent e < 32 /\ 0 <= child_incoming_link_quality e < 4 /\
  0 <= child_id e < 512.

Lemma child_bounds_timeout e :
  child_bounds e -> exists s, timeout_seconds e = Ok s /\ 0 <= s <= 2 ^ 27.
Proof.
  intros ([? ?] & _). unfold timeout_seconds.
  destruct (timeout_exponent e <? 4) eqn:?; zbool; [eauto with lia|].
  destruct (timeout_exponent e - 4 <? 32) eqn:?; zbool; [|lia].
  eexists; split; [done|]. rewrite Z.shiftl_mul_pow2, Z.mul_1_l by lia.
  split; [lia|]. apply Z.pow_le_mono_r; lia.
Qed.

(** The child table has one entry for every three bytes, its bit fields
    stay within their widths, and the timeout they describe never overflows. *)
Theorem child_table_bounds v l :
  bytes_ok v -> decode_child_table v = Ok l ->
  3 * len l = len v /\ Forall child_bounds l /\
  Forall (fun e => exists s, timeout_seconds e = Ok s /\ 0 <= s <= 2 ^ 27) l.
Proof.
  intros Hv H. unfold decode_child_table, CHILD_ENTRY_LEN in H.
  destruct (negb _) eqn:Hm in H; [done|]. zbool.
  pose proof (chunks_exact_concat 3 v ltac:(lia) Hm) as Hc.
  assert (Forall child_bounds l) as Hb.
  { eapply (mapM_result_Forall _ bytes_ok); [|apply concat_Forall; by rewrite Hc|exact H].
    intros c e Hok He. cbv beta in He. inv_ok. unfold child_bounds. cbn [timeout_exponent child_incoming_link_quality child_id].
    match goal with H : idx c 0 = _, H' : idx c 1 = _ |- _ =>
      apply (idx_Forall _ _ _ _ Hok) in H; apply (idx_Forall _ _ _ _ Hok) in H' end.
    refine (conj _ (conj _ _)).
    - rewrite Z.shiftr_div_pow2 by lia. by apply (uint_div 8 3).
    - rewrite (land_ones_mod _ 2 ltac:(lia) : Z.land _ 3 = _). by apply (uint_wrap 2).
    - apply (uint_lor 9); [lia| |by apply (uint_weaken 8)].
      rewrite (land_ones_mod _ 1 ltac:(lia) : Z.land _ 1 = _), Z.shiftl_mul_pow2 by lia.
      match goal with |- uint 9 (?x mod 2 ^ 1 * 2 ^ 8) => pose proof (uint_wrap 1 x ltac:(lia)) as [? ?] end.
      unfold uint, wrap in *. lia. }
  split_and!; [|done|by eapply Forall_impl; [exact Hb|apply child_bounds_timeout]].
  unfold len at 1. rewrite (mapM_result_len _ _ _ H).
  rewrite <- Hc at 2. symmetry. apply concat_len_const, chunks_exact_len.
Qed.

Lemma child_table_bounds_witness :
  exists l, decode_child_table [0xff; 0xff; 0x0f; 0x51; 0x02; 0x04] = Ok l /\ Forall child_bounds l.
Proof.
  eexists. split; [vm_compute; reflexivity|].
  eapply (child_table_bounds [0xff; 0xff; 0x0f; 0x51; 0x02; 0x04]);
    [by_decide|vm_compute; reflexivity].
Defined.

(** The TLV types [NetDiagData::decode] has an arm for. *)
Definition diag_known (e : TlvEntry) : bool :=
  existsb (Z.eqb (ty e)) [0; 1; 2; 3; 4; 5; 6; 7; 8; 9; 14; 15; 16; 17; 18; 23; 30].

Lemma diag_entry_unknown out e : diag_known e = false -> diag_entry out e = Ok out.
Proof.
  unfold diag_known, diag_entry. cbn [existsb]. intros H.
  repeat match goal with H : (_ || _) = false |- _ => apply orb_false_iff in H as [? H] end.
  zbool. by repeat case_match.
Qed.

Lemma diag_entries_filter l out :
  diag_entries (List.filter diag_known l) out = diag_entries l out.
Proof.
  revert out. induction l as [|e l IH]; intros out; [done|]. cbn [List.filter diag_entries].
  destruct (diag_known e) eqn:E; cbn [diag_entries].
  - destruct (diag_entry out e); cbn [rbind]; auto.
  - rewrite (diag_entry_unknown out e E). apply IH.
Qed.

Lemma Forall_list_filter {A} (P : A -> Prop) (f : A -> bool) l :
  Forall P l -> Forall P (List.filter f l).
Proof. induction 1; simpl; [done|]. case_match; eauto. Qed.

(** TLVs of types the decoder does not know change nothing: an answer
    decodes like the same answer with them left out. *)
Theorem netdiag_ignores_unknown l p p' :
  TlvSet_wf (mkTlvSet l) ->
  TlvSet_encode (mkTlvSet l) = Ok p ->
  TlvSet_encode (mkTlvSet (List.filter diag_known l)) = Ok p' ->
  NetDiagData_decode p = NetDiagData_decode p'.
Proof.
  intros Hl Hp Hp'. assert (TlvSet_wf (mkTlvSet (List.filter diag_known l))) as Hf
    by by apply Forall_list_filter.
  rewrite TlvSet_encode_ok in Hp, Hp' by done. injection Hp as <-. injection Hp' as <-.
  unfold NetDiagData_decode. rewrite !TlvSet_parse_concat by done. symmetry. apply diag_entries_filter.
Qed.

Lemma netdiag_ignores_unknown_witness :
  NetDiagData_decode [1; 2; 0x12; 0x34; 200; 1; 9; 14; 1; 80] =
  NetDiagData_decode [1; 2; 0x12; 0x34; 14; 1; 80].
Proof.
  apply (netdiag_ignores_unknown [mkTlvEntry 1 [0x12; 0x34]; mkTlvEntry 200 [9]; mkTlvEntry 14 [80]]);
    [by_decide|reflexivity|reflexivity].
Defined.
