(* ===== verification/Messages.v ===== *)
(** * Messages: MeshCoP constants, operations, request builders and parsers

    The model of crates/meshcop/src/meshcop: constants.rs, types.rs, util.rs,
    flags.rs, builders.rs and parsers.rs.  A builder returns the CoAP message
    of one commissioner request or the error of its first failing step; a
    parser reads the payload of a message that was received.  [impl
    Into<Vec<u8>>] tokens are byte lists, and [Ipv6Addr] is its octets. *)
From S2P Require Import Prelude Text Tlv Errors Dataset Coap NetDiag.

(** ** Constants *)

Definition TLV_BORDER_AGENT_LOCATOR : Z := 9.
Definition TLV_COMMISSIONER_ID : Z := 10.
Definition TLV_COMMISSIONER_SESSION_ID : Z := 11.
Definition TLV_GET : Z := 13.
Definition TLV_COMMISSIONER_UDP_PORT : Z := 15.
Definition TLV_STATE : Z := 16.
Definition TLV_JOINER_DTLS_ENCAPSULATION : Z := 17.
Definition TLV_JOINER_UDP_PORT : Z := 18.
Definition TLV_JOINER_IID : Z := 19.
Definition TLV_JOINER_ROUTER_LOCATOR : Z := 20.
Definition TLV_JOINER_ROUTER_KEK : Z := 21.
Definition TLV_PROVISIONING_URL : Z := 32.
Definition TLV_VENDOR_NAME : Z := 33.
Definition TLV_VENDOR_MODEL : Z := 34.
Definition TLV_VENDOR_SW_VERSION : Z := 35.
Definition TLV_VENDOR_DATA : Z := 36.
Definition TLV_VENDOR_STACK_VERSION : Z := 37.
Definition TLV_UDP_ENCAPSULATION : Z := 48.
Definition TLV_IPV6_ADDRESS : Z := 49.
Definition TLV_NETWORK_NAME : Z := 3.
Definition TLV_PAN_ID : Z := 1.
Definition TLV_STEERING_DATA : Z := 8.
Definition TLV_CHANNEL_MASK : Z := 53.
Definition TLV_COUNT : Z := 54.
Definition TLV_PERIOD : Z := 55.
Definition TLV_SCAN_DURATION : Z := 56.
Definition TLV_ENERGY_LIST : Z := 57.
Definition TLV_SECURE_DISSEMINATION : Z := 58.
Definition TLV_AE_STEERING_DATA : Z := 61.
Definition TLV_NMKP_STEERING_DATA : Z := 62.
Definition TLV_AE_UDP_PORT : Z := 65.
Definition TLV_NMKP_UDP_PORT : Z := 66.
Definition THREAD_TLV_STATUS : Z := 4.
Definition THREAD_TLV_TIMEOUT : Z := 11.
Definition THREAD_TLV_IPV6_ADDRESSES : Z := 14.
Definition THREAD_TLV_COMMISSIONER_SESSION_ID : Z := 15.
Definition NETWORK_DIAG_TLV_TYPE_LIST : Z := 18.
Definition DEFAULT_MM_PORT : Z := 61631.
Definition LEADER_ALOC16 : Z := 0xfc00.
Definition PRIMARY_BBR_ALOC16 : Z := 0xfc38.

(** The module [uri]. *)
Definition PETITIONING : bytes := str_bytes "/c/cp".
Definition KEEP_ALIVE : bytes := str_bytes "/c/ca".
Definition MGMT_COMMISSIONER_GET : bytes := str_bytes "/c/cg".
Definition MGMT_COMMISSIONER_SET : bytes := str_bytes "/c/cs".
Definition MGMT_BBR_GET : bytes := str_bytes "/c/bg".
Definition MGMT_BBR_SET : bytes := str_bytes "/c/bs".
Definition MGMT_ACTIVE_GET : bytes := str_bytes "/c/ag".
Definition MGMT_ACTIVE_SET : bytes := str_bytes "/c/as".
Definition MGMT_PENDING_GET : bytes := str_bytes "/c/pg".
Definition MGMT_PENDING_SET : bytes := str_bytes "/c/ps".
Definition MGMT_DATASET_CHANGED : bytes := str_bytes "/c/dc".
Definition MGMT_ANNOUNCE_BEGIN : bytes := str_bytes "/c/ab".
Definition MGMT_PANID_QUERY : bytes := str_bytes "/c/pq".
Definition MGMT_PANID_CONFLICT : bytes := str_bytes "/c/pc".
Definition MGMT_ED_SCAN : bytes := str_bytes "/c/es".
Definition MGMT_ED_REPORT : bytes := str_bytes "/c/er".
Definition MGMT_REENROLL : bytes := str_bytes "/c/re".
Definition MGMT_DOMAIN_RESET : bytes := str_bytes "/c/rt".
Definition MGMT_NET_MIGRATE : bytes := str_bytes "/c/nm".
Definition MGMT_SEC_PENDING_SET : bytes := str_bytes "/c/sp".
Definition RELAY_TX : bytes := str_bytes "/c/tx".
Definition RELAY_RX : bytes := str_bytes "/c/rx".
Definition UDP_TX : bytes := str_bytes "/c/ut".
Definition UDP_RX : bytes := str_bytes "/c/ur".
Definition JOIN_FIN : bytes := str_bytes "/c/jf".
Definition DIAG_GET_REQUEST : bytes := str_bytes "/d/dg".
Definition DIAG_GET_QUERY : bytes := str_bytes "/d/dq".
Definition DIAG_GET_ANSWER : bytes := str_bytes "/d/da".
Definition DIAG_RESET : bytes := str_bytes "/d/dr".
Definition MLR : bytes := str_bytes "/n/mr".

(** ** Operations and states *)

Inductive CommissionerOperation :=
  | Petition
  | KeepAlive
  | GetCommissionerDataset
  | SetCommissionerDataset
  | GetActiveDataset
  | SetActiveDataset
  | GetPendingDataset
  | SetPendingDataset
  | SetSecurePendingDataset
  | GetBbrDataset
  | SetBbrDataset
  | AnnounceBegin
  | PanIdQuery
  | EnergyScan
  | RegisterMulticastListener
  | Reenroll
  | DomainReset
  | Migrate
  | DiagnosticGet
  | DiagnosticGetUnicast
  | DiagnosticReset
  | SendToJoiner.

#[global] Instance CommissionerOperation_eq_dec : EqDecision CommissionerOperation.
Proof. solve_decision. Defined.

Definition operation_uri_path (self : CommissionerOperation) : bytes :=
  match self with
  | Petition => PETITIONING
  | KeepAlive => KEEP_ALIVE
  | GetCommissionerDataset => MGMT_COMMISSIONER_GET
  | SetCommissionerDataset => MGMT_COMMISSIONER_SET
  | GetActiveDataset => MGMT_ACTIVE_GET
  | SetActiveDataset => MGMT_ACTIVE_SET
  | GetPendingDataset => MGMT_PENDING_GET
  | SetPendingDataset => MGMT_PENDING_SET
  | SetSecurePendingDataset => MGMT_SEC_PENDING_SET
  | GetBbrDataset => MGMT_BBR_GET
  | SetBbrDataset => MGMT_BBR_SET
  | AnnounceBegin => MGMT_ANNOUNCE_BEGIN
  | PanIdQuery => MGMT_PANID_QUERY
  | EnergyScan => MGMT_ED_SCAN
  | RegisterMulticastListener => MLR
  | Reenroll => MGMT_REENROLL
  | DomainReset => MGMT_DOMAIN_RESET
  | Migrate => MGMT_NET_MIGRATE
  | DiagnosticGet => DIAG_GET_QUERY
  | DiagnosticGetUnicast => DIAG_GET_REQUEST
  | DiagnosticReset => DIAG_RESET
  | SendToJoiner => RELAY_TX
  end.

Definition operation_label (self : CommissionerOperation) : string :=
  match self with
  | Petition => "petition"
  | KeepAlive => "keep-alive"
  | GetCommissionerDataset => "get-commissioner-dataset"
  | SetCommissionerDataset => "set-commissioner-dataset"
  | GetActiveDataset => "get-active-dataset"
  | SetActiveDataset => "set-active-dataset"
  | GetPendingDataset => "get-pending-dataset"
  | SetPendingDataset => "set-pending-dataset"
  | SetSecurePendingDataset => "set-secure-pending-dataset"
  | GetBbrDataset => "get-bbr-dataset"
  | SetBbrDataset => "set-bbr-dataset"
  | AnnounceBegin => "announce-begin"
  | PanIdQuery => "pan-id-query"
  | EnergyScan => "energy-scan"
  | RegisterMulticastListener => "register-multicast-listener"
  | Reenroll => "command-reenroll"
  | DomainReset => "command-domain-reset"
  | Migrate => "command-migrate"
  | DiagnosticGet => "diagnostic-get"
  | DiagnosticGetUnicast => "diagnostic-get-unicast"
  | DiagnosticReset => "diagnostic-reset"
  | SendToJoiner => "send-to-joiner"
  end.

Inductive MeshcopState := Reject | Pending | Accept.

Definition MeshcopState_to_wire (self : MeshcopState) : Z :=
  match self with Reject => 0xff | Pending => 0x00 | Accept => 0x01 end.

Definition MeshcopState_from_wire (value : Z) : result Error MeshcopState :=
  match value with
  | 0xff => Ok Reject
  | 0x00 => Ok Pending
  | 0x01 => Ok Accept
  | _ => Err (EDataset "invalid MeshCoP State TLV value")
  end.

Record MeshcopPetitionResponse := mkMeshcopPetitionResponse {
  pet_state : MeshcopState;
  pet_session_id : option Z;
  existing_commissioner_id : option bytes }.

Inductive MeshcopNotification :=
  | DatasetChanged
  | DiagGetAnswer (data : NetDiagData)
  | PanIdConflict (channel_mask pan_id : Z)
  | EnergyReport (channel_mask : Z) (energy_list : bytes)
  | RelayRx (joiner_udp_port joiner_router_locator : Z) (joiner_iid payload : bytes).

(** ** TLV assembly (util.rs) *)

Definition append_tlv (out : bytes) (ty : Z) (value : bytes) : bytes * result Error unit :=
  let '(out, r) := TlvEntry_encode (mkTlvEntry ty value) out in (out, from_tlv r).
Definition append_u8 (out : bytes) (ty value : Z) : bytes * result Error unit :=
  append_tlv out ty [value].
Definition append_u16 (out : bytes) (ty value : Z) : bytes * result Error unit :=
  append_tlv out ty (to_be 2 value).
Definition append_u32 (out : bytes) (ty value : Z) : bytes * result Error unit :=
  append_tlv out ty (to_be 4 value).

(** ** Flag tables (flags.rs) *)

Definition flag_types (flags : Z) (mappings : list (Z * Z)) : list Z :=
  omap (fun '(bit, ty) => if negb (Z.land flags bit =? 0) then Some ty else None) mappings.

(** The flag words of diag/diag_flags.rs. *)
Module diag_flags.
Definition EXT_MAC_ADDR : Z := 1.
Definition MAC_ADDR : Z := Z.shiftl 1 1.
Definition MODE : Z := Z.shiftl 1 2.
Definition ROUTE64 : Z := Z.shiftl 1 3.
Definition LEADER_DATA : Z := Z.shiftl 1 4.
Definition IPV6_ADDRESSES : Z := Z.shiftl 1 5.
Definition CHILD_TABLE : Z := Z.shiftl 1 6.
Definition EUI64 : Z := Z.shiftl 1 7.
Definition MAC_COUNTERS : Z := Z.shiftl 1 8.
Definition CHILD_IPV6_ADDRESSES : Z := Z.shiftl 1 9.
Definition NETWORK_DATA : Z := Z.shiftl 1 10.
Definition TIMEOUT : Z := Z.shiftl 1 11.
Definition CONNECTIVITY : Z := Z.shiftl 1 12.
Definition BATTERY_LEVEL : Z := Z.shiftl 1 13.
Definition SUPPLY_VOLTAGE : Z := Z.shiftl 1 14.
Definition CHANNEL_PAGES : Z := Z.shiftl 1 15.
Definition TYPE_LIST : Z := Z.shiftl 1 16.
Definition ALL : Z := Z.shiftl 1 17 - 1.
End diag_flags.

Definition COMMISSIONER_TYPES : list (Z * Z) :=
  [(Z.shiftl 1 15, TLV_BORDER_AGENT_LOCATOR);
   (Z.shiftl 1 14, TLV_COMMISSIONER_SESSION_ID);
   (Z.shiftl 1 13, TLV_STEERING_DATA);
   (Z.shiftl 1 12, TLV_AE_STEERING_DATA);
   (Z.shiftl 1 11, TLV_NMKP_STEERING_DATA);
   (Z.shiftl 1 10, TLV_JOINER_UDP_PORT);
   (Z.shiftl 1 9, TLV_AE_UDP_PORT);
   (Z.shiftl 1 8, TLV_NMKP_UDP_PORT)].

Definition NETWORK_DIAG_TYPES : list (Z * Z) :=
  [(Z.shiftl 1 0, 0);
   (Z.shiftl 1 1, 1);
   (Z.shiftl 1 2, 2);
   (Z.shiftl 1 3, 5);
   (Z.shiftl 1 4, 6);
   (Z.shiftl 1 5, 8);
   (Z.shiftl 1 8, 9);
   (Z.shiftl 1 6, 16);
   (Z.shiftl 1 7, 23);
   (Z.shiftl 1 9, 30);
   (Z.shiftl 1 10, 7);
   (Z.shiftl 1 11, 3);
   (Z.shiftl 1 12, 4);
   (Z.shiftl 1 13, 14);
   (Z.shiftl 1 14, 15);
   (Z.shiftl 1 15, 17);
   (Z.shiftl 1 16, 18)].

Definition ACTIVE_TYPES : list (Z * Z) :=
  [(Z.shiftl 1 15, DS_TLV_ACTIVE_TIMESTAMP);
   (Z.shiftl 1 14, DS_TLV_CHANNEL);
   (Z.shiftl 1 13, DS_TLV_CHANNEL_MASK);
   (Z.shiftl 1 12, DS_TLV_EXTENDED_PAN_ID);
   (Z.shiftl 1 11, DS_TLV_MESH_LOCAL_PREFIX);
   (Z.shiftl 1 10, DS_TLV_NETWORK_KEY);
   (Z.shiftl 1 9, DS_TLV_NETWORK_NAME);
   (Z.shiftl 1 8, DS_TLV_PAN_ID);
   (Z.shiftl 1 7, DS_TLV_PSKC);
   (Z.shiftl 1 6, DS_TLV_SECURITY_POLICY)].

Definition PENDING_TYPES : list (Z * Z) :=
  [(Z.shiftl 1 5, DS_TLV_DELAY_TIMER);
   (Z.shiftl 1 4, DS_TLV_PENDING_TIMESTAMP)].

Definition dataset_tlv_types (flags : Z) (pending : bool) : list Z :=
  let types := flag_types flags ACTIVE_TYPES in
  if pending then types ++ flag_types flags PENDING_TYPES else types.
Definition active_dataset_tlv_types (flags : Z) : list Z := dataset_tlv_types flags false.
Definition pending_dataset_tlv_types (flags : Z) : list Z := dataset_tlv_types flags true.
Definition commissioner_dataset_tlv_types (flags : Z) : list Z := flag_types flags COMMISSIONER_TYPES.
Definition network_diag_tlv_types (flags : Z) : list Z := flag_types flags NETWORK_DIAG_TYPES.
(** ** Request builders (builders.rs) *)

(** [if confirmable { Confirmable } else { NonConfirmable }]. *)
Definition confirmable_type (confirmable : bool) : CoapType :=
  if confirmable then Confirmable else NonConfirmable.

Definition petition_request (mid : Z) (tok commissioner_id : bytes) : result Error CoapMessage :=
  let! pl := written (append_tlv [] TLV_COMMISSIONER_ID commissioner_id) in
  post_request Confirmable mid tok PETITIONING pl.

Definition keep_alive_request (mid : Z) (tok : bytes) (session_id : Z) (keep_alive : bool)
    : result Error CoapMessage :=
  let state := if keep_alive then Accept else Reject in
  let! pl := written (append_tlv [] TLV_STATE [MeshcopState_to_wire state]) in
  let! pl := written (append_u16 pl TLV_COMMISSIONER_SESSION_ID session_id) in
  post_request Confirmable mid tok KEEP_ALIVE pl.

Definition dataset_get_request (operation : CommissionerOperation) (mid : Z)
    (tok get_tlv_types : bytes) : result Error CoapMessage :=
  let! pl := if is_empty get_tlv_types then Ok []
             else written (append_tlv [] TLV_GET get_tlv_types) in
  post_request Confirmable mid tok (operation_uri_path operation) pl.

Definition dataset_set_request (operation : CommissionerOperation) (mid : Z) (tok : bytes)
    (session_id : Z) (dataset : Dataset) : result Error CoapMessage :=
  let! pl := written (append_u16 [] TLV_COMMISSIONER_SESSION_ID session_id) in
  let! raw := Dataset_to_bytes dataset in
  post_request Confirmable mid tok (operation_uri_path operation) (pl ++ raw).

Definition secure_pending_set_request (mid : Z) (tok : bytes) (session_id max_retrieval_timer : Z)
    (retrieval_uri : bytes) (dataset : Dataset) : result Error CoapMessage :=
  let! timestamp := Dataset_pending_timestamp dataset in
  let secure_dissemination :=
    match timestamp with Some t => Timestamp_to_value t | None => [] end
    ++ to_be 4 max_retrieval_timer ++ retrieval_uri in
  let! pl := written (append_u16 [] TLV_COMMISSIONER_SESSION_ID session_id) in
  let! pl := written (append_tlv pl TLV_SECURE_DISSEMINATION secure_dissemination) in
  let! raw := Dataset_to_bytes dataset in
  post_request Confirmable mid tok MGMT_SEC_PENDING_SET (pl ++ raw).

Definition channel_mask_value (channel_mask : Z) : result Error bytes :=
  if channel_mask =? 0 then Err (EDataset "channel mask must not be zero")
  else ChannelMaskEntry_encode_all [mkChannelMaskEntry 0 (to_be 4 channel_mask)].

Definition announce_begin_request (mid : Z) (tok : bytes) (session_id channel_mask count period_ms : Z)
    (confirmable : bool) : result Error CoapMessage :=
  let! pl := written (append_u16 [] TLV_COMMISSIONER_SESSION_ID session_id) in
  let! mask := channel_mask_value channel_mask in
  let! pl := written (append_tlv pl TLV_CHANNEL_MASK mask) in
  let! pl := written (append_u8 pl TLV_COUNT count) in
  let! pl := written (append_u16 pl TLV_PERIOD period_ms) in
  post_request (confirmable_type confirmable) mid tok MGMT_ANNOUNCE_BEGIN pl.

Definition pan_id_query_request (mid : Z) (tok : bytes) (session_id channel_mask pan_id : Z)
    (confirmable : bool) : result Error CoapMessage :=
  let! pl := written (append_u16 [] TLV_COMMISSIONER_SESSION_ID session_id) in
  let! mask := channel_mask_value channel_mask in
  let! pl := written (append_tlv pl TLV_CHANNEL_MASK mask) in
  let! pl := written (append_u16 pl TLV_PAN_ID pan_id) in
  post_request (confirmable_type confirmable) mid tok MGMT_PANID_QUERY pl.

Record EnergyScanRequest := mkEnergyScanRequest {
  scan_channel_mask : Z;
  scan_count : Z;
  scan_period_ms : Z;
  scan_duration_ms : Z;
  scan_confirmable : bool }.

Definition energy_scan_request (mid : Z) (tok : bytes) (session_id : Z) (scan : EnergyScanRequest)
    : result Error CoapMessage :=
  let! pl := written (append_u16 [] TLV_COMMISSIONER_SESSION_ID session_id) in
  let! mask := channel_mask_value (scan_channel_mask scan) in
  let! pl := written (append_tlv pl TLV_CHANNEL_MASK mask) in
  let! pl := written (append_u8 pl TLV_COUNT (scan_count scan)) in
  let! pl := written (append_u16 pl TLV_PERIOD (scan_period_ms scan)) in
  let! pl := written (append_u16 pl TLV_SCAN_DURATION (scan_duration_ms scan)) in
  post_request (confirmable_type (scan_confirmable scan)) mid tok MGMT_ED_SCAN pl.

Definition session_command_request (operation : CommissionerOperation) (mid : Z) (tok : bytes)
    (session_id : Z) (confirmable : bool) : result Error CoapMessage :=
  let! pl := written (append_u16 [] TLV_COMMISSIONER_SESSION_ID session_id) in
  post_request (confirmable_type confirmable) mid tok (operation_uri_path operation) pl.

Definition migrate_request (mid : Z) (tok : bytes) (session_id : Z) (designated_network : bytes)
    (confirmable : bool) : result Error CoapMessage :=
  let! pl := written (append_u16 [] TLV_COMMISSIONER_SESSION_ID session_id) in
  let! pl := written (append_tlv pl TLV_NETWORK_NAME designated_network) in
  post_request (confirmable_type confirmable) mid tok MGMT_NET_MIGRATE pl.

Definition diagnostic_request (operation : CommissionerOperation) (mid : Z) (tok : bytes)
    (diag_data_flags : Z) (confirmable : bool) : result Error CoapMessage :=
  let! pl := written (append_tlv [] NETWORK_DIAG_TLV_TYPE_LIST
                        (network_diag_tlv_types diag_data_flags)) in
  post_request (confirmable_type confirmable) mid tok (operation_uri_path operation) pl.

(** The loop that checks and concatenates the addresses. *)
Fixpoint raw_addresses (addresses : list Ipv6Addr) : result Error bytes :=
  match addresses with
  | [] => Ok []
  | address :: addresses' =>
      if negb (is_multicast address)
      then Err (EDataset (ipv6_display address +:+ " is not an IPv6 multicast address"))
      else let! rest := raw_addresses addresses' in Ok (address ++ rest)
  end.

Definition multicast_listener_request (mid : Z) (tok : bytes) (session_id : Z)
    (addresses : list Ipv6Addr) (timeout : Z) : result Error CoapMessage :=
  if is_empty addresses
  then Err (EDataset "multicast listener request needs at least one address")
  else
    let! raw := raw_addresses addresses in
    let! pl := written (append_u16 [] THREAD_TLV_COMMISSIONER_SESSION_ID session_id) in
    let! pl := written (append_u32 pl THREAD_TLV_TIMEOUT timeout) in
    let! pl := written (append_tlv pl THREAD_TLV_IPV6_ADDRESSES raw) in
    post_request Confirmable mid tok MLR pl.

Definition relay_tx_request_with_kek (mid : Z) (tok joiner_iid : bytes)
    (joiner_udp_port joiner_router_locator : Z) (pl : bytes) (joiner_router_kek : option bytes)
    : result Error CoapMessage :=
  if negb (len joiner_iid =? 8) then Err (EDataset "joiner IID must be 8 bytes")
  else
    let! body := written (append_u16 [] TLV_JOINER_UDP_PORT joiner_udp_port) in
    let! body := written (append_u16 body TLV_JOINER_ROUTER_LOCATOR joiner_router_locator) in
    let! body := written (append_tlv body TLV_JOINER_IID joiner_iid) in
    let! body := written (append_tlv body TLV_JOINER_DTLS_ENCAPSULATION pl) in
    let! body := match joiner_router_kek with
                 | Some kek => written (append_tlv body TLV_JOINER_ROUTER_KEK kek)
                 | None => Ok body
                 end in
    post_request NonConfirmable mid tok RELAY_TX body.

Definition relay_tx_request (mid : Z) (tok joiner_iid : bytes)
    (joiner_udp_port joiner_router_locator : Z) (pl : bytes) : result Error CoapMessage :=
  relay_tx_request_with_kek mid tok joiner_iid joiner_udp_port joiner_router_locator pl None.

Definition udp_tx_request (mid : Z) (tok : bytes) (destination : Ipv6Addr) (destination_port : Z)
    (inner : bytes) : result Error CoapMessage :=
  let encapsulation := to_be 2 DEFAULT_MM_PORT ++ to_be 2 destination_port ++ inner in
  let! pl := written (append_tlv [] TLV_IPV6_ADDRESS destination) in
  let! pl := written (append_tlv pl TLV_UDP_ENCAPSULATION encapsulation) in
  post_request NonConfirmable mid tok UDP_TX pl.

(** ** Parsers (parsers.rs) *)

Record UdpRx := mkUdpRx {
  source_address : Ipv6Addr;
  source_port : Z;
  destination_port : Z;
  udp_payload : bytes }.

Definition required_tlv (tlvs : TlvSet) (ty : Z) (name : string) : result Error bytes :=
  ok_or (last_value tlvs ty) (EDataset ("missing " +:+ name +:+ " TLV")).

Definition read_array_8 (value : bytes) : result Error bytes :=
  if len value =? 8 then Ok value
  else Err (EDataset ("expected 8 bytes, got " +:+ dec (len value))).

Definition parse_udp_rx (message : CoapMessage) : result Error (option UdpRx) :=
  let! path := uri_path message in
  if negb (bool_decide (path = Some UDP_RX)) then Ok None
  else
    let! tlvs := from_tlv (TlvSet_parse (payload message)) in
    let! address := required_tlv tlvs TLV_IPV6_ADDRESS "IPv6 Address" in
    let! octets := if len address =? 16 then Ok address
                   else Err (EDataset "IPv6 Address TLV must be 16 bytes") in
    let! encapsulation := required_tlv tlvs TLV_UDP_ENCAPSULATION "UDP Encapsulation" in
    if len encapsulation <? 4
    then Err (EDataset "UDP Encapsulation TLV must carry source and destination ports")
    else
      let! e0 := idx encapsulation 0 in
      let! e1 := idx encapsulation 1 in
      let! e2 := idx encapsulation 2 in
      let! e3 := idx encapsulation 3 in
      let! pl := slice_from encapsulation 4 in
      Ok (Some (mkUdpRx octets (from_be [e0; e1]) (from_be [e2; e3]) pl)).

Definition parse_state (pl : bytes) : result Error (option MeshcopState) :=
  let! tlvs := from_tlv (TlvSet_parse pl) in
  map_transpose (fun value =>
    if negb (len value =? 1) then Err (EDataset "State TLV must be 1 byte")
    else let! v0 := idx value 0 in MeshcopState_from_wire v0)
    (last_value tlvs TLV_STATE).

Definition parse_state_response (response : CoapMessage) (state_mandatory : bool)
    : result Error (option MeshcopState) :=
  if negb (coap_code response =? CODE_CHANGED)
  then Err (EDataset ("expected CoAP Changed response, got 0x" +:+ hex2 (coap_code response)))
  else
    let! state := parse_state (payload response) in
    if state_mandatory && bool_decide (state = None)
    then Err (EDataset "missing MeshCoP State TLV")
    else Ok state.

Definition parse_petition_response (response : CoapMessage)
    : result Error MeshcopPetitionResponse :=
  let! _ := parse_state_response response true in
  let! tlvs := from_tlv (TlvSet_parse (payload response)) in
  let! st := parse_state (payload response) in
  let! state := ok_or st (EDataset "missing petition State TLV") in
  let! session_id := map_transpose (fun v => from_tlv (read_u16 v))
                       (last_value tlvs TLV_COMMISSIONER_SESSION_ID) in
  let! existing := map_transpose
    (fun value => from_utf8 value (EDataset "Commissioner ID TLV is not UTF-8"))
    (last_value tlvs TLV_COMMISSIONER_ID) in
  Ok (mkMeshcopPetitionResponse state session_id existing).

(** The loop over the channel-mask entries, [page_zero_mask] the accumulator. *)
Fixpoint page_zero (entries : list ChannelMaskEntry) (page_zero_mask : option Z)
    : result Error (option Z) :=
  match entries with
  | [] => Ok page_zero_mask
  | entry :: entries' =>
      if mask_page entry =? 0 then
        if negb (len (mask entry) =? 4)
        then Err (EDataset "page-0 channel mask must be 4 bytes")
        else
          let! m0 := idx (mask entry) 0 in
          let! m1 := idx (mask entry) 1 in
          let! m2 := idx (mask entry) 2 in
          let! m3 := idx (mask entry) 3 in
          page_zero entries' (Some (Z.lor (default 0 page_zero_mask) (from_be [m0; m1; m2; m3])))
      else page_zero entries' page_zero_mask
  end.

Definition channel_mask_from_value (value : bytes) : result Error Z :=
  let! entries := ChannelMaskEntry_parse_all value in
  let! page_zero_mask := page_zero entries None in
  ok_or page_zero_mask (EDataset "no page-0 channel mask entry").

Definition parse_notification (message : CoapMessage) : result Error (option MeshcopNotification) :=
  let! path := uri_path message in
  match path with
  | None => Ok None
  | Some p =>
      if vec_eqb p MGMT_DATASET_CHANGED then Ok (Some DatasetChanged)
      else if vec_eqb p MGMT_PANID_CONFLICT then
        let! tlvs := from_tlv (TlvSet_parse (payload message)) in
        let! m := required_tlv tlvs TLV_CHANNEL_MASK "Channel Mask" in
        let! channel_mask := channel_mask_from_value m in
        let! v := required_tlv tlvs TLV_PAN_ID "PAN ID" in
        let! pan_id := from_tlv (read_u16 v) in
        Ok (Some (PanIdConflict channel_mask pan_id))
      else if vec_eqb p MGMT_ED_REPORT then
        let! tlvs := from_tlv (TlvSet_parse (payload message)) in
        let! channel_mask := map_transpose channel_mask_from_value
                               (last_value tlvs TLV_CHANNEL_MASK) in
        let energy_list := default [] (last_value tlvs TLV_ENERGY_LIST) in
        Ok (Some (EnergyReport (default 0 channel_mask) energy_list))
      else if vec_eqb p DIAG_GET_ANSWER then
        let! data := NetDiagData_decode (payload message) in
        Ok (Some (DiagGetAnswer data))
      else if vec_eqb p RELAY_RX then
        let! tlvs := from_tlv (TlvSet_parse (payload message)) in
        let! v := required_tlv tlvs TLV_JOINER_UDP_PORT "Joiner UDP Port" in
        let! joiner_udp_port := from_tlv (read_u16 v) in
        let! v := required_tlv tlvs TLV_JOINER_ROUTER_LOCATOR "Joiner Router Locator" in
        let! joiner_router_locator := from_tlv (read_u16 v) in
        let! v := required_tlv tlvs TLV_JOINER_IID "Joiner IID" in
        let! joiner_iid := read_array_8 v in
        let! pl := required_tlv tlvs TLV_JOINER_DTLS_ENCAPSULATION "Joiner DTLS Encapsulation" in
        Ok (Some (RelayRx joiner_udp_port joiner_router_locator joiner_iid pl))
      else Ok None
  end.

(** ** Payloads as TLV lists *)

Lemma append_tlv_ok out t v :
  len v <= MAX_EXTENDED_TLV_LENGTH ->
  written (append_tlv out t v) = Ok (out ++ tlv_bytes (mkTlvEntry t v)).
Proof. intros H. unfold append_tlv. by rewrite TlvEntry_encode_ok. Qed.

Lemma append_tlv_err out t v :
  MAX_EXTENDED_TLV_LENGTH < len v ->
  written (append_tlv out t v) = Err (ETlv (ValueTooLarge (len v))).
Proof.
  intros H. unfold append_tlv, written. pose proof (TlvEntry_encode_err (mkTlvEntry t v) out H) as E.
  destruct (TlvEntry_encode _ out) as [o r]. simpl in *. by rewrite E.
Qed.

Lemma append_u8_ok out t x :
  written (append_u8 out t x) = Ok (out ++ tlv_bytes (mkTlvEntry t [x])).
Proof. by apply append_tlv_ok. Qed.

Lemma append_u16_ok out t x :
  written (append_u16 out t x) = Ok (out ++ tlv_bytes (mkTlvEntry t (to_be 2 x))).
Proof. by apply append_tlv_ok. Qed.

Lemma append_u32_ok out t x :
  written (append_u32 out t x) = Ok (out ++ tlv_bytes (mkTlvEntry t (to_be 4 x))).
Proof. by apply append_tlv_ok. Qed.

(** The byte string of a list of TLVs, built from the left as the builders do. *)
Definition tlvs_bytes (l : list TlvEntry) : bytes := concat (map tlv_bytes l).

Lemma tlvs_bytes_snoc l e : tlvs_bytes l ++ tlv_bytes e = tlvs_bytes (l ++ [e]).
Proof. unfold tlvs_bytes. rewrite map_app, concat_app. simpl. by rewrite app_nil_r. Qed.

Lemma tlvs_bytes_one e : [] ++ tlv_bytes e = tlvs_bytes [e].
Proof. unfold tlvs_bytes. simpl. by rewrite app_nil_r. Qed.

Lemma from_tlv_parse l : Forall tlv_wf l -> from_tlv (TlvSet_parse (tlvs_bytes l)) = Ok (mkTlvSet l).
Proof. intros H. unfold tlvs_bytes. by rewrite TlvSet_parse_concat. Qed.

(** Runs the appends of a builder. *)
Ltac build := repeat (rewrite ?append_u16_ok, ?append_u8_ok, ?append_u32_ok, ?append_tlv_ok by (done || lia);
  cbn [rbind]); rewrite ?tlvs_bytes_one, ?tlvs_bytes_snoc; cbn [app].

(** A message that, once on the wire, comes back as it is, with the resource
    path [path] and the TLVs [l] as its payload. *)
Definition carries (m : CoapMessage) (path : bytes) (l : list TlvEntry) : Prop :=
  uri_path m = Ok (Some path) /\ TlvSet_parse (payload m) = Ok (mkTlvSet l) /\
  exists b, CoapMessage_encode m = Ok b /\ CoapMessage_decode b = Ok m.


Lemma post_carries t mid tok path l :
  is_u16 mid -> bytes_ok tok -> len tok <= 8 ->
  bytes_ok path -> len path < 2 ^ 16 -> path <> [] -> path_ok path -> Forall tlv_wf l ->
  exists m, post_request t mid tok (slash :: path) (tlvs_bytes l) = Ok m /\
    coap_ty m = t /\ message_id m = mid /\ token m = tok /\ payload m = tlvs_bytes l /\
    carries m (slash :: path) l.
Proof.
  intros Hmid Htok Htl Hpath Hlen Hne Hp Hl. rewrite post_request_ok by done.
  eexists. split; [done|]. split_and!; [done..|]. unfold carries.
  destruct (encode_decode_sorted (mkCoapMessage t CODE_POST mid tok
    (map (mkCoapOption COAP_OPTION_URI_PATH) (split_slash path)) (tlvs_bytes l))) as (b & He & Hd);
    [|apply uri_options_sorted|].
  - unfold coap_wf. cbn [coap_code message_id token options payload].
    split_and!; try done; [by apply uri_options_wf|by apply tlvs_bytes_ok].
  - split_and!; [|by apply TlvSet_parse_concat|by exists b].
    rewrite uri_path_segments, join_split; [done|apply split_slash_nonempty|].
    eapply Forall_impl; [exact Hp|]. by intros ? [_ ?].
Qed.

(** The same for a literal path of the module [uri]. *)
Definition literal_path (path : bytes) : Prop :=
  match path with
  | s :: p => s = slash /\ bytes_ok p /\ len p < 2 ^ 16 /\ p <> [] /\ path_ok p
  | [] => False
  end.
#[global] Instance literal_path_dec p : Decision (literal_path p).
Proof. destruct p; unfold literal_path; apply _. Defined.

Lemma post_literal t mid tok path l :
  literal_path path -> is_u16 mid -> bytes_ok tok -> len tok <= 8 -> Forall tlv_wf l ->
  exists m, post_request t mid tok path (tlvs_bytes l) = Ok m /\
    coap_ty m = t /\ message_id m = mid /\ token m = tok /\ payload m = tlvs_bytes l /\
    carries m path l.
Proof. destruct path as [|s p]; [done|]. intros (-> & ? & ? & ? & ?) ????. by apply post_carries. Qed.

Lemma post_carries_literal t mid tok path l :
  is_u16 mid -> bytes_ok tok -> len tok <= 8 -> literal_path path -> Forall tlv_wf l ->
  exists m, post_request t mid tok path (tlvs_bytes l) = Ok m /\ carries m path l.
Proof. intros. destruct (post_literal t mid tok path l) as (m & ? & _ & _ & _ & _ & ?); eauto. Qed.

Lemma operation_path_literal op : literal_path (operation_uri_path op).
Proof. destruct op; by_decide. Qed.

Lemma tlv_wf_be n t x : is_u8 t -> (n <= 8)%nat -> tlv_wf (mkTlvEntry t (to_be n x)).
Proof.
  intros. split_and!; [done|apply to_be_ok|]. cbn [value].
  rewrite len_to_be. unfold MAX_EXTENDED_TLV_LENGTH. lia.
Qed.

Lemma page_zero_wf m : mask_entry_wf (mkChannelMaskEntry 0 (to_be 4 m)).
Proof. split; [by_decide|]. split; [apply to_be_ok|done]. Qed.

Lemma tlv_wf_mask m : tlv_wf (mkTlvEntry TLV_CHANNEL_MASK (0 :: 4 :: to_be 4 m)).
Proof.
  split; [by_decide|]. split; [|done]. cbn [value].
  do 2 (apply Forall_cons; split; [by_decide|]). apply to_be_ok.
Qed.

Lemma tlv_wf_u8 t x : is_u8 t -> is_u8 x -> tlv_wf (mkTlvEntry t [x]).
Proof. intros. split; [done|]. split; [by apply Forall_singleton|done]. Qed.

Lemma tlv_wf_u16 t x : is_u8 t -> tlv_wf (mkTlvEntry t (to_be 2 x)).
Proof. intros. by apply tlv_wf_be; [|lia]. Qed.

Lemma tlv_wf_bytes t v :
  is_u8 t -> bytes_ok v -> len v <= MAX_EXTENDED_TLV_LENGTH -> tlv_wf (mkTlvEntry t v).
Proof. intros. split; [done|]. by split. Qed.
#[export] Hint Extern 1 (uint 8 _) => by_decide : meshcop.
#[export] Hint Resolve tlv_wf_mask tlv_wf_u8 tlv_wf_u16 tlv_wf_bytes : meshcop.

Lemma channel_mask_value_ok m :
  is_u32 m -> m <> 0 -> channel_mask_value m = Ok (0 :: 4 :: to_be 4 m).
Proof.
  intros Hm H0. unfold channel_mask_value. rewrite (proj2 (Z.eqb_neq _ _)) by done.
  unfold ChannelMaskEntry_encode_all. rewrite ChannelMaskEntry_encode_loop_ok; [done|].
  constructor; [apply page_zero_wf|done].
Qed.

Lemma channel_mask_from_value_ok m :
  is_u32 m -> channel_mask_from_value (0 :: 4 :: to_be 4 m) = Ok m.
Proof.
  intros Hm. unfold channel_mask_from_value.
  assert (ChannelMaskEntry_parse_all (0 :: 4 :: to_be 4 m) = Ok [mkChannelMaskEntry 0 (to_be 4 m)]) as ->.
  { apply (many_encode _ mask_step_consumes mask_entry_bytes mask_entry_wf [mkChannelMaskEntry 0 (to_be 4 m)]).
    - intros. by apply mask_step_encode.
    - constructor; [apply page_zero_wf|done]. }
  cbn [rbind page_zero mask_page mask Z.eqb]. rewrite len_to_be.
  change (negb (Z.of_nat 4 =? 4)) with false. cbv iota.
  pose proof (from_to_be_small 4 m Hm) as Hb. pose proof (length_to_be 4 m) as Hl.
  destruct (to_be 4 m) as [|b0 [|b1 [|b2 [|b3 [|]]]]]; try done.
  eval_idx. cbn [rbind ok_or default]. rewrite Z.lor_0_l. by rewrite Hb.
Qed.

Lemma read_u16_be x : is_u16 x -> from_tlv (read_u16 (to_be 2 x)) = Ok x.
Proof.
  intros Hx. unfold read_u16, wire_read_u16, wire_read. rewrite len_to_be. cbn [Z.of_nat Z.eqb].
  change (_ =? 2) with true. by rewrite from_to_be_small.
Qed.

Lemma required_tlv_ok s t n v : last_value s t = Some v -> required_tlv s t n = Ok v.
Proof. unfold required_tlv. by intros ->. Qed.

Lemma parse_notification_relay rx s port locator iid pl :
  uri_path rx = Ok (Some RELAY_RX) -> from_tlv (TlvSet_parse (payload rx)) = Ok s ->
  last_value s TLV_JOINER_UDP_PORT = Some (to_be 2 port) ->
  last_value s TLV_JOINER_ROUTER_LOCATOR = Some (to_be 2 locator) ->
  last_value s TLV_JOINER_IID = Some iid -> last_value s TLV_JOINER_DTLS_ENCAPSULATION = Some pl ->
  is_u16 port -> is_u16 locator -> len iid = 8 ->
  parse_notification rx = Ok (Some (RelayRx port locator iid pl)).
Proof.
  intros Hu Hs H1 H2 H3 H4 Hport Hloc Hiid. unfold parse_notification. rewrite Hu. cbn [rbind].
  repeat match goal with |- context [vec_eqb RELAY_RX ?p] =>
    let b := eval vm_compute in (vec_eqb RELAY_RX p) in
    replace (vec_eqb RELAY_RX p) with b by (vm_compute; reflexivity) end. cbv iota.
  rewrite Hs. cbn [rbind]. rewrite !(required_tlv_ok s _ _ _ H1). cbn [rbind].
  rewrite read_u16_be by done. cbn [rbind]. rewrite (required_tlv_ok s _ _ _ H2). cbn [rbind].
  rewrite read_u16_be by done. cbn [rbind]. rewrite (required_tlv_ok s _ _ _ H3). cbn [rbind].
  unfold read_array_8. rewrite Hiid. cbn [Z.eqb Pos.eqb rbind].
  by rewrite (required_tlv_ok s _ _ _ H4).
Qed.

(** ** No panics *)

Lemma MeshcopState_from_wire_safe v : safe (MeshcopState_from_wire v).
Proof. unfold MeshcopState_from_wire. by repeat case_match. Qed.
Lemma uri_path_safe m : safe (uri_path m).
Proof.
  unfold uri_path. apply safe_bind; [|intros; by case_match].
  apply mapM_result_safe, Forall_forall. intros. apply safe_from_utf8.
Qed.
Lemma required_tlv_safe tlvs t n : safe (required_tlv tlvs t n).
Proof. apply safe_ok_or. Qed.
Lemma read_u16_safe v : safe (from_tlv (read_u16 v)).
Proof. apply safe_from_tlv, safe_ok_or. Qed.
Lemma read_array_8_safe v : safe (read_array_8 v).
Proof. unfold read_array_8. by case_match. Qed.
Lemma page_zero_safe l acc : safe (page_zero l acc).
Proof. revert acc. induction l as [|e l IH]; intros acc; simpl; [done|]. safe_auto; apply IH. Qed.
Lemma channel_mask_from_value_safe v : bytes_ok v -> safe (channel_mask_from_value v).
Proof.
  intros Hv. unfold channel_mask_from_value. apply safe_bind; [by apply ChannelMaskEntry_parse_all_safe|].
  intros. apply safe_bind; [apply page_zero_safe|]. intros. apply safe_ok_or.
Qed.
Lemma parse_tlvs_safe pl : bytes_ok pl -> safe (from_tlv (TlvSet_parse pl)).
Proof. intros. by apply safe_from_tlv, TlvSet_parse_safe. Qed.
Lemma parse_tlvs_value pl s t v :
  bytes_ok pl -> from_tlv (TlvSet_parse pl) = Ok s -> last_value s t = Some v -> bytes_ok v.
Proof. intros Hp H%from_tlv_ok. apply last_value_wf. by apply (TlvSet_parse_wf pl). Qed.
#[export] Hint Resolve MeshcopState_from_wire_safe uri_path_safe required_tlv_safe read_u16_safe
  read_array_8_safe page_zero_safe channel_mask_from_value_safe parse_tlvs_safe : meshcop.

Lemma parse_state_safe pl : bytes_ok pl -> safe (parse_state pl).
Proof.
  intros Hp. unfold parse_state. apply safe_bind; [by apply parse_tlvs_safe|]. intros s _.
  apply safe_map_transpose. intros v _. safe_auto.
Qed.

Lemma parse_state_response_safe m b : bytes_ok (payload m) -> safe (parse_state_response m b).
Proof.
  intros Hp. unfold parse_state_response. case_match; [done|]. apply safe_bind; [by apply parse_state_safe|].
  intros; by case_match.
Qed.
Lemma parse_petition_response_safe m : bytes_ok (payload m) -> safe (parse_petition_response m).
Proof.
  intros Hp. unfold parse_petition_response. apply safe_bind; [by apply parse_state_response_safe|intros ? _].
  apply safe_bind; [by apply parse_tlvs_safe|intros s _]. apply safe_bind; [by apply parse_state_safe|intros st _].
  apply safe_bind; [apply safe_ok_or|intros state _]. safe_auto.
Qed.
Lemma parse_udp_rx_safe m : bytes_ok (payload m) -> safe (parse_udp_rx m).
Proof. intros Hp. unfold parse_udp_rx. safe_auto. Qed.

Lemma parse_udp_rx_ok m u : bytes_ok (payload m) -> parse_udp_rx m = Ok (Some u) ->
  len (source_address u) = 16 /\ bytes_ok (udp_payload u).
Proof.
  intros Hm H. unfold parse_udp_rx in H. apply rbind_ok in H as (path & _ & H). destruct (negb _); [done|].
  apply rbind_ok in H as (t & Ht & H). apply rbind_ok in H as (a & Ha & H). apply rbind_ok in H as (o & Hoct & H).
  destruct (len a =? 16) eqn:Hl; [|done]. injection Hoct as <-. zbool.
  apply rbind_ok in H as (en & Hen%ok_or_ok & H). assert (bytes_ok en) as Hb by by eapply (parse_tlvs_value (payload m) t).
  destruct (len en <? 4); [done|]. do 4 apply rbind_ok in H as (? & _ & H). apply rbind_ok in H as (pl & Hpl & H).
  injection H as <-. split; [done|]. cbn. apply slice_from_inv in Hpl as (_ & -> & _). by apply Forall_drop.
Qed.

Lemma parse_notification_safe m : bytes_ok (payload m) -> safe (parse_notification m).
Proof.
  intros Hp. unfold parse_notification. apply safe_bind; [apply uri_path_safe|]. intros [p|] _; [|done].
  destruct (vec_eqb _ _); [done|].
  destruct (vec_eqb _ _).
  { apply safe_bind; [by apply parse_tlvs_safe|]. intros s Hs. apply safe_bind; [apply required_tlv_safe|].
    intros v Hv%ok_or_ok. apply safe_bind; [|intros; safe_auto].
    apply channel_mask_from_value_safe. by eapply parse_tlvs_value. }
  destruct (vec_eqb _ _).
  { apply safe_bind; [by apply parse_tlvs_safe|]. intros s Hs. apply safe_bind; [|done].
    apply safe_map_transpose. intros. apply channel_mask_from_value_safe. by eapply parse_tlvs_value. }
  destruct (vec_eqb _ _); [apply safe_bind; [|done]; by apply NetDiagData_decode_safe|].
  destruct (vec_eqb _ _); [|done]. apply safe_bind; [by apply parse_tlvs_safe|]. intros. safe_auto.
Qed.

(** ** Properties *)
Section Requests.
Context (mid : Z) (tok : bytes) (session_id : Z).
Context (Hmid : is_u16 mid) (Htok : bytes_ok tok) (Htl : len tok <= 8).

(** The session-ID TLV every management request starts with. *)
Definition session_tlv : TlvEntry := mkTlvEntry TLV_COMMISSIONER_SESSION_ID (to_be 2 session_id).

#[local] Ltac wf_tlvs := unfold session_tlv; repeat apply Forall_cons_2; auto with meshcop; try by_decide.
#[local] Ltac carry := build; rewrite ?channel_mask_value_ok by done; build;
  apply post_carries_literal; [done..|by_decide|wf_tlvs].

(** The management requests of the commissioner.  Each one is built
    without error, goes over the wire unchanged to the resource of its
    operation, and carries exactly the listed TLVs in that order, the session
    ID among them; the scans are refused for an empty channel mask. *)
Theorem management_requests_wire cm count period dur pan name c :
  is_u32 cm -> cm <> 0 -> is_u8 count -> bytes_ok name -> len name <= MAX_EXTENDED_TLV_LENGTH ->
  (forall ka, exists m, keep_alive_request mid tok session_id ka = Ok m /\ coap_ty m = Confirmable /\
     carries m KEEP_ALIVE [mkTlvEntry TLV_STATE [if ka then 1 else 0xff]; session_tlv] /\
     parse_state (payload m) = Ok (Some (if ka then Accept else Reject))) /\
  (exists m, announce_begin_request mid tok session_id cm count period c = Ok m /\
     carries m MGMT_ANNOUNCE_BEGIN
       [session_tlv; mkTlvEntry TLV_CHANNEL_MASK (0 :: 4 :: to_be 4 cm);
        mkTlvEntry TLV_COUNT [count]; mkTlvEntry TLV_PERIOD (to_be 2 period)]) /\
  (exists m, pan_id_query_request mid tok session_id cm pan c = Ok m /\
     carries m MGMT_PANID_QUERY
       [session_tlv; mkTlvEntry TLV_CHANNEL_MASK (0 :: 4 :: to_be 4 cm);
        mkTlvEntry TLV_PAN_ID (to_be 2 pan)]) /\
  (exists m, energy_scan_request mid tok session_id (mkEnergyScanRequest cm count period dur c) = Ok m /\
     carries m MGMT_ED_SCAN
       [session_tlv; mkTlvEntry TLV_CHANNEL_MASK (0 :: 4 :: to_be 4 cm);
        mkTlvEntry TLV_COUNT [count]; mkTlvEntry TLV_PERIOD (to_be 2 period);
        mkTlvEntry TLV_SCAN_DURATION (to_be 2 dur)]) /\
  (exists m, migrate_request mid tok session_id name c = Ok m /\
     carries m MGMT_NET_MIGRATE [session_tlv; mkTlvEntry TLV_NETWORK_NAME name]) /\
  (forall op, exists m, session_command_request op mid tok session_id c = Ok m /\
     carries m (operation_uri_path op) [session_tlv]) /\
  channel_mask_from_value (0 :: 4 :: to_be 4 cm) = Ok cm /\
  announce_begin_request mid tok session_id 0 count period c
    = Err (EDataset "channel mask must not be zero").
Proof.
  intros Hcm Hcm0 Hcount Hname Hnl. split_and!.
  - intros ka. destruct (post_literal Confirmable mid tok KEEP_ALIVE
      [mkTlvEntry TLV_STATE [if ka then 1 else 0xff]; session_tlv]) as (m & Hm & ? & _ & _ & Hp & ?);
      [by_decide|done..|by destruct ka; wf_tlvs|].
    exists m. split_and!; [by unfold keep_alive_request; destruct ka; build|done..|].
    rewrite Hp. unfold parse_state. rewrite from_tlv_parse by (destruct ka; wf_tlvs). by destruct ka.
  - unfold announce_begin_request. carry.
  - unfold pan_id_query_request. carry.
  - unfold energy_scan_request. carry.
  - unfold migrate_request. carry.
  - intros op. unfold session_command_request. build.
    apply post_carries_literal; [done..|apply operation_path_literal|wf_tlvs].
  - by apply channel_mask_from_value_ok.
  - unfold announce_begin_request. by build.
Qed.

(** Relayed joiner traffic.  A RLY_TX request is built exactly when the
    IID has eight bytes; its payload, delivered under the RLY_RX resource,
    parses to the same port, locator, IID and DTLS records, and the KEK TLV is
    present exactly when a KEK was given. *)
Theorem relay_encapsulation iid port locator pl kek :
  bytes_ok iid -> is_u16 port -> is_u16 locator -> bytes_ok pl -> len pl <= MAX_EXTENDED_TLV_LENGTH ->
  (forall k, kek = Some k -> bytes_ok k /\ len k = 16) ->
  (len iid <> 8 -> relay_tx_request_with_kek mid tok iid port locator pl kek
                    = Err (EDataset "joiner IID must be 8 bytes")) /\
  (len iid = 8 -> exists m l, relay_tx_request_with_kek mid tok iid port locator pl kek = Ok m /\
     coap_ty m = NonConfirmable /\ carries m RELAY_TX l /\
     last_value (mkTlvSet l) TLV_JOINER_ROUTER_KEK = kek /\
     forall rx, uri_path rx = Ok (Some RELAY_RX) -> payload rx = payload m ->
       parse_notification rx = Ok (Some (RelayRx port locator iid pl))).
Proof.
  intros Hiid Hport Hloc Hpl Hpll Hkek. unfold relay_tx_request_with_kek.
  split; [intros H8; by rewrite (proj2 (Z.eqb_neq _ _))|]. intros H8.
  rewrite H8. cbn [Z.eqb negb Pos.eqb].
  set (base := [mkTlvEntry TLV_JOINER_UDP_PORT (to_be 2 port);
    mkTlvEntry TLV_JOINER_ROUTER_LOCATOR (to_be 2 locator); mkTlvEntry TLV_JOINER_IID iid;
    mkTlvEntry TLV_JOINER_DTLS_ENCAPSULATION pl]).
  set (l := base ++ match kek with Some k => [mkTlvEntry TLV_JOINER_ROUTER_KEK k] | None => [] end).
  assert (Forall tlv_wf l) as Hl.
  { apply Forall_app. split; [wf_tlvs; apply tlv_wf_bytes; auto with meshcop; unfold MAX_EXTENDED_TLV_LENGTH; lia|].
    destruct kek as [k|]; [|done]. destruct (Hkek k eq_refl). wf_tlvs.
    apply tlv_wf_bytes; auto with meshcop. unfold MAX_EXTENDED_TLV_LENGTH; lia. }
  destruct (post_literal NonConfirmable mid tok RELAY_TX l) as (m & Hm & ? & _ & _ & Hp & ?);
    [by_decide|done..|].
  exists m, l. split_and!; [|done|done|by destruct kek|].
  - unfold base in *. assert (len iid <= MAX_EXTENDED_TLV_LENGTH) by (unfold MAX_EXTENDED_TLV_LENGTH; lia).
    destruct kek as [k|]; [destruct (Hkek k eq_refl)|]; build;
      [rewrite append_tlv_ok by (unfold MAX_EXTENDED_TLV_LENGTH; lia); build|]; exact Hm.
  - intros rx Hu Hrx. eapply parse_notification_relay;
      [done|by rewrite Hrx, Hp, from_tlv_parse|by destruct kek..|done|done|done].
Qed.
End Requests.

Lemma management_requests_wire_witness :
  exists m, migrate_request 7 [1; 2] 0x1234 (str_bytes "Net") true = Ok m /\
    carries m MGMT_NET_MIGRATE [session_tlv 0x1234; mkTlvEntry TLV_NETWORK_NAME (str_bytes "Net")].
Proof.
  apply (management_requests_wire 7 [1; 2] 0x1234 ltac:(by_decide) ltac:(by_decide) ltac:(by_decide)
           0x07fff800 3 500 32 0xface (str_bytes "Net") true); [by_decide|done|by_decide..].
Defined.

Lemma relay_encapsulation_witness :
  exists m l, relay_tx_request_with_kek 7 [1; 2] [1; 2; 3; 4; 5; 6; 7; 8] 49155 0xf00d [22; 254; 253]
                (Some (repeat 0xaa 16)) = Ok m /\ carries m RELAY_TX l.
Proof.
  destruct (relay_encapsulation 7 [1; 2] ltac:(by_decide) ltac:(by_decide) ltac:(by_decide)
    [1; 2; 3; 4; 5; 6; 7; 8] 49155 0xf00d [22; 254; 253] (Some (repeat 0xaa 16))) as [_ H];
    [by_decide..|intros k [= <-]; split; by_decide|].
  destruct (H eq_refl) as (m & l & ? & ? & ? & ?). exists m, l. by split.
Defined.

(** The payload of a UDP_RX message, read back. *)
Definition udp_tlvs (address : Ipv6Addr) (source_port destination_port : Z) (inner : bytes) : list TlvEntry :=
  [mkTlvEntry TLV_IPV6_ADDRESS address;
   mkTlvEntry TLV_UDP_ENCAPSULATION (to_be 2 source_port ++ to_be 2 destination_port ++ inner)].
Lemma udp_tlvs_wf address source_port destination_port inner :
  bytes_ok address -> len address = 16 -> bytes_ok inner -> 4 + len inner <= MAX_EXTENDED_TLV_LENGTH ->
  Forall tlv_wf (udp_tlvs address source_port destination_port inner).
Proof.
  intros Ha Hl Hi Hm. repeat apply Forall_cons_2; [apply tlv_wf_bytes; [by_decide|done|by rewrite Hl]| |done].
  apply tlv_wf_bytes; [by_decide| |rewrite !len_app, !len_to_be; lia]. rewrite !Forall_app. auto using to_be_ok.
Qed.
Lemma parse_udp_rx_back rx address source_port destination_port inner :
  bytes_ok address -> len address = 16 -> is_u16 source_port -> is_u16 destination_port -> bytes_ok inner ->
  4 + len inner <= MAX_EXTENDED_TLV_LENGTH ->
  uri_path rx = Ok (Some UDP_RX) -> payload rx = tlvs_bytes (udp_tlvs address source_port destination_port inner) ->
  parse_udp_rx rx = Ok (Some (mkUdpRx address source_port destination_port inner)).
Proof.
  intros Ha Hl Hs Hd Hi Hm Hu Hp. unfold parse_udp_rx. rewrite Hu, Hp. cbn [rbind].
  rewrite bool_decide_true by done. cbn [negb]. rewrite from_tlv_parse by (by apply udp_tlvs_wf). cbn [rbind].
  set (enc := to_be 2 source_port ++ to_be 2 destination_port ++ inner).
  assert (len enc = 4 + len inner) as He by (unfold enc; rewrite !len_app, !len_to_be; lia).
  rewrite (required_tlv_ok _ _ _ address) by done. cbn [rbind]. rewrite Hl. cbn [Z.eqb Pos.eqb rbind].
  rewrite (required_tlv_ok _ _ _ enc) by done. cbn [rbind].
  pose proof (len_nonneg inner). rewrite (proj2 (Z.ltb_ge _ _)) by lia.
  rewrite <- (from_to_be_small 2 source_port Hs), <- (from_to_be_small 2 destination_port Hd).
  pose proof (length_to_be 2 source_port) as Hls. pose proof (length_to_be 2 destination_port) as Hld. unfold enc in *. clear enc.
  destruct (to_be 2 source_port) as [|q0 [|q1 [|]]]; [done..| |done].
  destruct (to_be 2 destination_port) as [|p0 [|p1 [|]]]; [done..| |done].
  cbn [app]. eval_idx. rewrite slice_from_ok by (simpl in *; lia). by cbn [rbind].
Qed.

(** Proxied datagrams.  A UDP_TX request is built unless the datagram is
    too long for a TLV; its payload, delivered under the UDP_RX resource,
    parses to the same address, ports and bytes, the source port being the
    Thread management port. *)
Theorem udp_encapsulation mid tok dst port inner :
  is_u16 mid -> bytes_ok tok -> len tok <= 8 ->
  bytes_ok dst -> len dst = 16 -> is_u16 port -> bytes_ok inner ->
  (MAX_EXTENDED_TLV_LENGTH < 4 + len inner ->
     udp_tx_request mid tok dst port inner = Err (ETlv (ValueTooLarge (4 + len inner)))) /\
  (4 + len inner <= MAX_EXTENDED_TLV_LENGTH ->
     exists m l, udp_tx_request mid tok dst port inner = Ok m /\ carries m UDP_TX l /\
       forall rx, uri_path rx = Ok (Some UDP_RX) -> payload rx = payload m ->
         parse_udp_rx rx = Ok (Some (mkUdpRx dst DEFAULT_MM_PORT port inner))).
Proof.
  intros Hmid Htok Htl Hdst Hdl Hport Hin.
  assert (len dst <= MAX_EXTENDED_TLV_LENGTH) by (unfold MAX_EXTENDED_TLV_LENGTH; lia).
  set (enc := to_be 2 DEFAULT_MM_PORT ++ to_be 2 port ++ inner).
  assert (len enc = 4 + len inner) as He by (unfold enc; rewrite !len_app, !len_to_be; lia).
  unfold udp_tx_request. fold enc. split; intros Hl.
  { build. by rewrite append_tlv_err, He by lia. }
  set (l := udp_tlvs dst DEFAULT_MM_PORT port inner).
  assert (Forall tlv_wf l) as Hwf by by apply udp_tlvs_wf.
  destruct (post_literal NonConfirmable mid tok UDP_TX l) as (m & Hm & _ & _ & _ & Hp & ?);
    [by_decide|done..|].
  exists m, l. split_and!; [by build|done|].
  intros rx Hu Hrx. apply parse_udp_rx_back; [done..|by_decide|done|done|done|done|by rewrite Hrx].
Qed.

Lemma udp_encapsulation_witness :
  exists m l, udp_tx_request 9 [] (repeat 0xfd 16) 61631 [1; 2; 3] = Ok m /\ carries m UDP_TX l.
Proof.
  destruct (udp_encapsulation 9 [] (repeat 0xfd 16) 61631 [1; 2; 3]) as [_ H]; [by_decide..|].
  destruct H as (m & l & ? & ? & _); [by_decide|]. exists m, l. by split.
Defined.

(** No message makes the parsers panic: whatever payload bytes arrive,
    every parser returns a value or an error. *)
Theorem message_parsers_safe m mandatory :
  bytes_ok (payload m) ->
  safe (parse_notification m) /\ safe (parse_udp_rx m) /\ safe (parse_state_response m mandatory) /\
  safe (parse_petition_response m) /\ safe (NetDiagData_decode (payload m)).
Proof.
  intros Hp. auto 6 using parse_notification_safe, parse_udp_rx_safe, parse_state_response_safe,
    parse_petition_response_safe, NetDiagData_decode_safe.
Qed.

Lemma message_parsers_safe_witness :
  safe (parse_petition_response (mkCoapMessage Acknowledgement CODE_CHANGED 1 [] [] [16; 1; 1; 11; 1])).
Proof. apply (message_parsers_safe _ true). by_decide. Defined.

Lemma flag_types_spec flags table i t :
  0 <= i -> NoDup (map snd table) -> (Z.shiftl 1 i, t) ∈ table ->
  t ∈ flag_types flags table <-> Z.testbit flags i = true.
Proof.
  intros Hi Hnd Hin. rewrite <- testbit_nonzero by done.
  assert (Z.shiftl 1 i = 2 ^ i) as Hs by (rewrite Z.shiftl_mul_pow2; lia). rewrite Hs in Hin.
  unfold flag_types. rewrite list_elem_of_omap. split.
  - intros ([b t'] & Hin' & Hb). destruct (negb _) eqn:E in Hb; [|done]. injection Hb as ->.
    apply list_elem_of_lookup in Hin as [j Hj]. apply list_elem_of_lookup in Hin' as [k Hk].
    assert (j = k) as ->.
    { apply (NoDup_lookup (snd <$> table) j k t); [done|by rewrite list_lookup_fmap, Hj|
        by rewrite list_lookup_fmap, Hk]. }
    by simplify_eq.
  - intros Hb. eexists. split; [exact Hin|]. cbv beta iota. by rewrite Hb.
Qed.

Lemma flag_types_sublist flags table : sublist (flag_types flags table) (map snd table).
Proof.
  unfold flag_types. induction table as [|[b t] table IH]; simpl; [constructor|].
  destruct (negb _); by constructor.
Qed.

(** a flag word selects TLV types exactly: for every row of a table the
    type is requested iff its bit is set, no type is requested twice, the
    flag word [ALL] requests every type of the diagnostic table, and the
    decoder has an arm for every type that can be requested. *)
Theorem flag_tables_exact flags :
  (forall i t, 0 <= i -> (Z.shiftl 1 i, t) ∈ NETWORK_DIAG_TYPES ->
     t ∈ network_diag_tlv_types flags <-> Z.testbit flags i = true) /\
  (forall i t, 0 <= i -> (Z.shiftl 1 i, t) ∈ COMMISSIONER_TYPES ->
     t ∈ commissioner_dataset_tlv_types flags <-> Z.testbit flags i = true) /\
  (forall i t, 0 <= i -> (Z.shiftl 1 i, t) ∈ ACTIVE_TYPES ->
     t ∈ active_dataset_tlv_types flags <-> Z.testbit flags i = true) /\
  (forall i t, 0 <= i -> (Z.shiftl 1 i, t) ∈ ACTIVE_TYPES ++ PENDING_TYPES ->
     t ∈ pending_dataset_tlv_types flags <-> Z.testbit flags i = true) /\
  network_diag_tlv_types diag_flags.ALL = map snd NETWORK_DIAG_TYPES /\
  network_diag_tlv_types (Z.lor diag_flags.CHILD_TABLE diag_flags.ROUTE64) = [5; 16] /\
  NoDup (network_diag_tlv_types flags) /\ NoDup (pending_dataset_tlv_types flags) /\
  Forall (fun t => diag_known (mkTlvEntry t []) = true) (network_diag_tlv_types flags).
Proof.
  assert (pending_dataset_tlv_types flags = flag_types flags (ACTIVE_TYPES ++ PENDING_TYPES)) as ->.
  { unfold pending_dataset_tlv_types, dataset_tlv_types, flag_types. by rewrite omap_app. }
  assert (forall table, NoDup (map snd table) -> NoDup (flag_types flags table)) as Hnd.
  { intros table H. eapply sublist_NoDup; [exact H|apply flag_types_sublist]. }
  split_and!; try (intros; apply flag_types_spec; [done|by_decide|done]); [reflexivity..| | |].
  - apply Hnd. by_decide.
  - apply Hnd. by_decide.
  - unfold network_diag_tlv_types.
    assert (Forall (fun t => diag_known (mkTlvEntry t []) = true) (map snd NETWORK_DIAG_TYPES)) as H by by_decide.
    induction (flag_types_sublist flags NETWORK_DIAG_TYPES); inversion H; subst; auto.
Qed.

Lemma raw_addresses_spec addresses :
  if forallb is_multicast addresses then raw_addresses addresses = Ok (concat addresses)
  else exists msg, raw_addresses addresses = Err (EDataset msg).
Proof.
  induction addresses as [|a l IH]; cbn [forallb raw_addresses concat]; [done|].
  destruct (is_multicast a); cbn [andb negb]; [|by eexists].
  destruct (forallb is_multicast l); [by rewrite IH|destruct IH as [msg ->]; by exists msg].
Qed.

Lemma ipv6_list_concat addresses :
  Forall (fun a => len a = 16) addresses -> decode_ipv6_address_list (concat addresses) = Ok addresses.
Proof.
  intros H. unfold decode_ipv6_address_list. rewrite (concat_len_const 16) by done.
  rewrite Z.mul_comm, Z.mod_mul by done. cbn [Z.eqb negb]. f_equal. by apply chunks_exact_of_concat.
Qed.

(** A multicast-listener registration is refused unless the address list
    is non-empty and all multicast; otherwise it carries the session ID, the
    timeout and the concatenated addresses, which the diagnostic address-list
    decoder splits back. *)
Theorem multicast_listener_spec mid tok session_id addresses timeout :
  is_u16 mid -> bytes_ok tok -> len tok <= 8 ->
  Forall (fun a => bytes_ok a /\ len a = 16) addresses -> 16 * len addresses <= MAX_EXTENDED_TLV_LENGTH ->
  (if negb (is_empty addresses) && forallb is_multicast addresses
   then exists m, multicast_listener_request mid tok session_id addresses timeout = Ok m /\
     carries m MLR [mkTlvEntry THREAD_TLV_COMMISSIONER_SESSION_ID (to_be 2 session_id);
                    mkTlvEntry THREAD_TLV_TIMEOUT (to_be 4 timeout);
                    mkTlvEntry THREAD_TLV_IPV6_ADDRESSES (concat addresses)] /\
     decode_ipv6_address_list (concat addresses) = Ok addresses
   else exists msg, multicast_listener_request mid tok session_id addresses timeout = Err (EDataset msg)).
Proof.
  intros Hmid Htok Htl Ha Hlen. unfold multicast_listener_request.
  destruct (is_empty addresses) eqn:Hne; [by eexists|]. cbn [negb andb].
  pose proof (raw_addresses_spec addresses) as Hraw. case_match.
  - rewrite Hraw. cbn [rbind]. assert (len (concat addresses) <= MAX_EXTENDED_TLV_LENGTH) as Hl.
    { rewrite (concat_len_const 16); [done|]. eapply Forall_impl; [exact Ha|]. by intros ? [_ ?]. }
    build. destruct (post_carries_literal Confirmable mid tok MLR
      [mkTlvEntry THREAD_TLV_COMMISSIONER_SESSION_ID (to_be 2 session_id);
       mkTlvEntry THREAD_TLV_TIMEOUT (to_be 4 timeout);
       mkTlvEntry THREAD_TLV_IPV6_ADDRESSES (concat addresses)]) as (m & ? & ?); [done..|by_decide| |].
    { repeat apply Forall_cons_2; [by apply tlv_wf_be; [by_decide|lia]..| |done]. apply tlv_wf_bytes; [by_decide| |done].
      apply Forall_concat. eapply Forall_impl; [exact Ha|]. by intros ? [? _]. }
    exists m. split_and!; [done..|]. apply ipv6_list_concat.
    eapply Forall_impl; [exact Ha|]. by intros ? [_ ?].
  - destruct Hraw as [msg ->]. by eexists.
Qed.

Lemma multicast_listener_spec_witness :
  exists m, multicast_listener_request 3 [] 1 [0xff :: repeat 2 15] 300 = Ok m.
Proof.
  pose proof (multicast_listener_spec 3 [] 1 [0xff :: repeat 2 15] 300) as H.
  destruct H as (m & Hm & _); [by_decide..|]. by exists m.
Defined.
