(* ===== verification/Harness.v ===== *)
(** * Harness: the scripted border agent

    The model of crates/meshcop/src/commissioner/harness.rs: a transport that
    answers each request from a script, in place of the DTLS session.  A request
    is taken off the wire, unwrapped if it goes through the proxy, compared with
    the script, and the scripted answers are rendered against it and queued for
    the client to receive. *)
From Stdlib Require Import Sorted.
From S2P Require Import Prelude Text Tlv Errors Dataset Coap NetDiag Messages.

Module Harness.

(** ** Data *)

Record ObservedRequest := mkObservedRequest { obs_operation : CommissionerOperation; obs_message : CoapMessage }.

(** [ScriptedResponse]; [Rejection] is the variant [Reset] of the source. *)
Inductive ScriptedResponse :=
  | EmptyAck
  | Changed (payload : bytes) (confirmable : bool)
  | Content (payload : bytes) (confirmable : bool)
  | Coded (code : Z) (payload : bytes)
  | Raw (message : CoapMessage)
  | Rejection
  | PeerClosed
  | TransportFailure
  | WithinUdpRx (source_address : Ipv6Addr) (source_port destination_port : Z) (inner : ScriptedResponse).

Record ScriptedExchange := mkScriptedExchange { operation : CommissionerOperation; responses : list ScriptedResponse }.

Inductive ScriptedIncoming :=
  | Message (message : CoapMessage)
  | IncomingPeerClosed
  | IncomingTransportFailure.

Record ScriptState := mkScriptState {
  exchanges : list ScriptedExchange;
  observed_requests : list ObservedRequest;
  sent_messages : list CoapMessage;
  incoming : list ScriptedIncoming;
  sends_fail : bool }.

(** [ScriptedMeshcopTransport::new]. *)
Definition ScriptedMeshcopTransport_new (script : list ScriptedExchange) : ScriptState :=
  mkScriptState script [] [] [] false.

(** ** Rendering answers *)

(** The short-form TLVs of util.rs, whose length byte is not checked. *)
Definition append_tlv_u8_length (out : bytes) (ty : Z) (value : bytes) : bytes :=
  out ++ [ty] ++ [wrap 8 (len value)] ++ value.
Definition append_u16_u8_length (out : bytes) (ty value : Z) : bytes := append_tlv_u8_length out ty (to_be 2 value).

Definition response (request : CoapMessage) (code : Z) (payload : bytes) (confirmable : bool) : CoapMessage :=
  mkCoapMessage (if confirmable then Confirmable else Acknowledgement) code (message_id request) (token request) [] payload.

Definition state_payload (state : MeshcopState) : bytes := append_tlv_u8_length [] TLV_STATE [MeshcopState_to_wire state].

Definition empty_ack_response : ScriptedResponse := EmptyAck.
Definition reset : ScriptedResponse := Rejection.
Definition changed (payload : bytes) (confirmable : bool) : ScriptedResponse := Changed payload confirmable.
Definition content (payload : bytes) : ScriptedResponse := Content payload false.
Definition accept : ScriptedResponse := changed (state_payload Accept) false.
Definition reject : ScriptedResponse := changed (state_payload Reject) false.
Definition pending : ScriptedResponse := changed (state_payload Pending) false.
Definition petition_accept (session_id : Z) : ScriptedResponse :=
  changed (append_u16_u8_length (state_payload Accept) TLV_COMMISSIONER_SESSION_ID session_id) false.
Definition petition_accept_with_id (session_id : Z) (commissioner_id : bytes) : ScriptedResponse :=
  changed (append_tlv_u8_length (append_u16_u8_length (state_payload Accept) TLV_COMMISSIONER_SESSION_ID session_id)
             TLV_COMMISSIONER_ID commissioner_id) false.
Definition petition_reject (existing_commissioner_id : bytes) : ScriptedResponse :=
  changed (append_tlv_u8_length (state_payload Reject) TLV_COMMISSIONER_ID existing_commissioner_id) false.
Definition changed_without_state : ScriptedResponse := changed [] false.
Definition proxied (source_address : Ipv6Addr) (inner : ScriptedResponse) : ScriptedResponse :=
  WithinUdpRx source_address DEFAULT_MM_PORT DEFAULT_MM_PORT inner.

Definition is_device_answer (t : ScriptedResponse) : bool :=
  match t with
  | EmptyAck | Changed _ _ | Content _ _ | Coded _ _ | Rejection => true
  | _ => false
  end.

(** Builds a UDP_RX.ntf message carrying [inner]. *)
Definition udp_rx_message (source_address : Ipv6Addr) (source_port destination_port : Z) (inner : bytes) : result Error CoapMessage :=
  let encapsulation := to_be 2 source_port ++ to_be 2 destination_port ++ inner in
  let payload := append_tlv_u8_length [] TLV_IPV6_ADDRESS source_address in
  let payload := append_tlv_u8_length payload TLV_UDP_ENCAPSULATION encapsulation in
  post_request NonConfirmable 0x7a7a [] UDP_RX payload.

Fixpoint into_message (t : ScriptedResponse) (logical_request : CoapMessage) : result Error CoapMessage :=
  match t with
  | EmptyAck => Ok (empty_ack (message_id logical_request))
  | Changed payload confirmable => Ok (response logical_request CODE_CHANGED payload confirmable)
  | Content payload confirmable => Ok (response logical_request CODE_CONTENT payload confirmable)
  | Coded code payload => Ok (response logical_request code payload false)
  | Raw message => Ok message
  | Rejection =>
      let reset := empty_ack (message_id logical_request) in
      Ok (mkCoapMessage Reset (coap_code reset) (message_id reset) (token reset) (options reset) (payload reset))
  | PeerClosed | TransportFailure => Err (EInvalidState "a scripted connection event is not a message")
  | WithinUdpRx source_address source_port destination_port inner =>
      let! inner_message := into_message inner logical_request in
      let! encoded := CoapMessage_encode inner_message in
      udp_rx_message source_address source_port destination_port encoded
  end.

(** ** Reading requests *)

(** The inner request of a UDP_TX.ntf message, or the message itself. *)
Definition decapsulated_request (request : CoapMessage) : result Error CoapMessage :=
  let! tlvs := from_tlv (TlvSet_parse (payload request)) in
  match last_value tlvs TLV_UDP_ENCAPSULATION with
  | Some encapsulation =>
      if len encapsulation >=? 4 then
        let! inner := slice_from encapsulation 4 in CoapMessage_decode inner
      else Ok request
  | None => Ok request
  end.

Definition ok {E A} (r : result E A) : option A := match r with Ok a => Some a | _ => None end.

(** The mesh destination of a UDP_TX.ntf request. *)
Definition proxy_destination (request : CoapMessage) : option (Ipv6Addr * Z) :=
  tlvs ← ok (TlvSet_parse (payload request));
  address ← last_value tlvs TLV_IPV6_ADDRESS;
  if len address =? 16 then
    encapsulation ← last_value tlvs TLV_UDP_ENCAPSULATION;
    if len encapsulation <? 4 then None
    else Some (address, from_be (take 2 (drop 2 encapsulation)))
  else None.

(** [ObservedRequest::inner_message] and [ObservedRequest::proxy_destination]. *)
Definition inner_message (self : ObservedRequest) : option CoapMessage :=
  tlvs ← ok (TlvSet_parse (payload (obs_message self)));
  encapsulation ← last_value tlvs TLV_UDP_ENCAPSULATION;
  if len encapsulation <? 4 then None else ok (CoapMessage_decode (drop 4 encapsulation)).
Definition observed_proxy_destination (self : ObservedRequest) : option Ipv6Addr :=
  tlvs ← ok (TlvSet_parse (payload (obs_message self)));
  address ← last_value tlvs TLV_IPV6_ADDRESS;
  if len address =? 16 then Some address else None.

(** ** The transport *)

Definition SCRIPTED_SEND_FAILURE : Error := EIo "scripted send failure".
Definition check_send (s : ScriptState) : result Error unit :=
  if sends_fail s then Err SCRIPTED_SEND_FAILURE else Ok tt.
Definition fail_sends (s : ScriptState) : ScriptState :=
  mkScriptState (exchanges s) (observed_requests s) (sent_messages s) (incoming s) true.
Definition push_incoming (m : ScriptedIncoming) (s : ScriptState) : ScriptState :=
  mkScriptState (exchanges s) (observed_requests s) (sent_messages s) (incoming s ++ [m]) (sends_fail s).
Definition deliver (message : CoapMessage) (s : ScriptState) : ScriptState := push_incoming (Message message) s.
Definition record_sent (message : CoapMessage) (s : ScriptState) : ScriptState * result Error unit :=
  match check_send s with
  | Ok _ => (mkScriptState (exchanges s) (observed_requests s) (sent_messages s ++ [message]) (incoming s) (sends_fail s), Ok tt)
  | Err e => (s, Err e)
  | Panic f => (s, Panic f)
  end.
Definition next_incoming (s : ScriptState) : ScriptState * option ScriptedIncoming :=
  match incoming s with
  | [] => (s, None)
  | m :: l => (mkScriptState (exchanges s) (observed_requests s) (sent_messages s) l (sends_fail s), Some m)
  end.
Definition acked_confirmable_responses (s : ScriptState) : list Z :=
  map message_id (List.filter (fun m => bool_decide (coap_ty m = Acknowledgement) && (coap_code m =? CODE_EMPTY)) (sent_messages s)).
Definition remaining_exchange_count (s : ScriptState) : Z := len (exchanges s).

(** How one template is queued: connection events as they are, the answers of a
    device through the proxy if the request went through it. *)
Definition route_template (proxy : option (Ipv6Addr * Z)) (t : ScriptedResponse) : ScriptedResponse :=
  match proxy with
  | Some (address, port) => if is_device_answer t then WithinUdpRx address port DEFAULT_MM_PORT t else t
  | None => t
  end.
Definition render (proxy : option (Ipv6Addr * Z)) (logical_request : CoapMessage) (t : ScriptedResponse) : result Error ScriptedIncoming :=
  match t with
  | PeerClosed => Ok IncomingPeerClosed
  | TransportFailure => Ok IncomingTransportFailure
  | _ =>
      let! message := into_message (route_template proxy t) logical_request in
      let! encoded := CoapMessage_encode message in
      let! delivered := CoapMessage_decode encoded in
      Ok (Message delivered)
  end.
(** The loop over the responses: those before an error stay queued. *)
Fixpoint queue_responses (proxy : option (Ipv6Addr * Z)) (logical_request : CoapMessage) (l : list ScriptedResponse) (s : ScriptState)
    : ScriptState * result Error unit :=
  match l with
  | [] => (s, Ok tt)
  | t :: l =>
      match render proxy logical_request t with
      | Ok m => queue_responses proxy logical_request l (push_incoming m s)
      | Err e => (s, Err e)
      | Panic f => (s, Panic f)
      end
  end.

Definition received_request (request : CoapMessage) : result Error (CoapMessage * CoapMessage) :=
  let! encoded := CoapMessage_encode request in
  let! request := CoapMessage_decode encoded in
  let! logical_request := decapsulated_request request in
  Ok (request, logical_request).

Definition exchange (request : CoapMessage) (s : ScriptState) : ScriptState * result Error unit :=
  match (let! _ := check_send s in received_request request) with
  | Err e => (s, Err e)
  | Panic f => (s, Panic f)
  | Ok (request, logical_request) =>
      let proxy := proxy_destination request in
      match exchanges s with
      | [] => (s, Err (EInvalidState "scripted MeshCoP exchange missing"))
      | e :: rest =>
          let s := mkScriptState rest (observed_requests s) (sent_messages s) (incoming s) (sends_fail s) in
          match uri_path logical_request with
          | Err e => (s, Err e)
          | Panic f => (s, Panic f)
          | Ok path =>
              if bool_decide (path = Some (operation_uri_path (operation e))) then
                let s := mkScriptState (exchanges s) (observed_requests s ++ [mkObservedRequest (operation e) request])
                           (sent_messages s) (incoming s) (sends_fail s) in
                queue_responses proxy logical_request (responses e) s
              else (s, Err (EInvalidState "scripted MeshCoP operation mismatch"))
          end
      end
  end.

(** ** What the script delivers *)

(** A message that comes off the wire as it went on. *)
Definition wire_stable (m : CoapMessage) : Prop :=
  exists b, CoapMessage_encode m = Ok b /\ bytes_ok b /\ CoapMessage_decode b = Ok m.

Lemma options_bytes_ok last os : 0 <= last -> ascending last os -> Forall option_wf os -> bytes_ok (options_bytes last os).
Proof.
  intros Hl Ha. revert Hl. induction Ha as [|last o os Hlo _ IH]; intros Hl Hw; cbn [options_bytes]; [constructor|].
  apply Forall_cons in Hw as [([? ?] & Hv & ?) Hw]. apply Forall_app. split; [|apply IH; [lia|done]].
  pose proof (len_nonneg (opt_value o)). assert (is_u16 (opt_number o - last)) as Hd by (unfold uint in *; lia).
  assert (is_u16 (len (opt_value o))) as Hn by (unfold uint in *; lia).
  pose proof (nib_bound _ Hd). pose proof (nib_bound _ Hn). unfold option_bytes. constructor; [unfold uint; lia|].
  rewrite !Forall_app. auto using nib_bytes_ok.
Qed.
Lemma encode_bytes_ok m b : coap_wf m -> CoapMessage_encode m = Ok b -> bytes_ok b.
Proof.
  intros Hm. rewrite CoapMessage_encode_ok by done. intros [= <-]. pose proof Hm as (Hc & _ & Ht & Htl & Ho & Hp).
  assert (0 <= CoapType_as_u8 (coap_ty m) <= 3) by (destruct (coap_ty m); by_decide). pose proof (len_nonneg (token m)).
  unfold coap_bytes. apply Forall_cons_2; [unfold uint in *; lia|]. apply Forall_cons_2; [done|]. rewrite !Forall_app.
  split_and!; [apply to_be_ok|done|apply options_bytes_ok; [done|by apply sorted_options_ascending0|by apply sorted_options_wf]|].
  destruct (is_empty _); [done|]. constructor; [by_decide|done].
Qed.
Lemma sorted_stable m : coap_wf m -> Sorted num_le (options m) -> wire_stable m.
Proof.
  intros Hm Hs. destruct (encode_decode_sorted m Hm Hs) as (b & He & Hd). exists b. split_and!; [done|by eapply encode_bytes_ok|done].
Qed.

(** [outer] is how the request [m] goes out, directly or through the proxy to a
    mesh destination. *)
Definition on_the_wire (m : CoapMessage) (via : option (Ipv6Addr * Z)) (outer : CoapMessage) : Prop :=
  match via with
  | None => outer = m /\ exists s, TlvSet_parse (payload m) = Ok s /\ last_value s TLV_UDP_ENCAPSULATION = None
  | Some (address, port) =>
      bytes_ok address /\ len address = 16 /\ is_u16 port /\
      exists inner, CoapMessage_encode m = Ok inner /\ bytes_ok inner /\ 4 + len inner <= MAX_EXTENDED_TLV_LENGTH /\
        payload outer = tlvs_bytes (udp_tlvs address DEFAULT_MM_PORT port inner)
  end.

(** [M] is how the answer [a] arrives: directly, or from the mesh address and
    port that the request went to. *)
Definition arrives_as (via : option (Ipv6Addr * Z)) (a M : CoapMessage) : Prop :=
  match via with
  | None => M = a
  | Some (address, port) =>
      exists b, CoapMessage_encode a = Ok b /\ CoapMessage_decode b = Ok a /\
        parse_udp_rx M = Ok (Some (mkUdpRx address port DEFAULT_MM_PORT b))
  end.

(** The answers of a device that fit the unchecked length byte of the proxy's
    TLV. *)
Definition fits (t : ScriptedResponse) : Prop :=
  match t with
  | EmptyAck | Rejection => True
  | Changed payload _ | Content payload _ => bytes_ok payload /\ len payload <= 237
  | Coded code payload => is_u8 code /\ bytes_ok payload /\ len payload <= 237
  | _ => False
  end.
#[global] Instance fits_dec t : Decision (fits t).
Proof. destruct t; cbn; apply _. Defined.

Lemma append_short out t v : len v <= MAX_STANDARD_TLV_LENGTH -> append_tlv_u8_length out t v = out ++ tlv_bytes (mkTlvEntry t v).
Proof.
  intros Hl. unfold append_tlv_u8_length, tlv_bytes, tlv_header. cbn [ty value]. rewrite (proj2 (Z.leb_le _ _)) by done.
  pose proof (len_nonneg v). unfold MAX_STANDARD_TLV_LENGTH in *. rewrite wrap_small by (unfold uint; lia). done.
Qed.

Lemma udp_rx_message_ok address source_port destination_port inner :
  bytes_ok address -> len address = 16 -> is_u16 source_port -> is_u16 destination_port -> bytes_ok inner -> len inner <= 250 ->
  exists rx, udp_rx_message address source_port destination_port inner = Ok rx /\ wire_stable rx /\
    parse_udp_rx rx = Ok (Some (mkUdpRx address source_port destination_port inner)).
Proof.
  intros Ha Hl Hs Hd Hi Hm. assert (4 + len inner <= MAX_EXTENDED_TLV_LENGTH) as Hx by (unfold MAX_EXTENDED_TLV_LENGTH; lia).
  pose proof (udp_tlvs_wf address source_port destination_port inner Ha Hl Hi Hx) as Hwf.
  pose proof (post_request_ok NonConfirmable 0x7a7a [] (str_bytes "c/ur") (tlvs_bytes (udp_tlvs address source_port destination_port inner))
    ltac:(done) ltac:(by_decide)) as E. change (slash :: str_bytes "c/ur") with UDP_RX in E.
  set (rx := mkCoapMessage _ _ _ _ _ _) in E. assert (uri_path rx = Ok (Some UDP_RX)) as Hu by reflexivity.
  exists rx. split_and!; [|apply sorted_stable; [|apply uri_options_sorted]|by apply parse_udp_rx_back].
  2:{ split_and!; cbn [coap_code message_id token options payload rx]; try by_decide. by apply tlvs_bytes_ok. }
  unfold udp_rx_message. rewrite !append_short by (rewrite ?len_app, ?len_to_be; unfold MAX_STANDARD_TLV_LENGTH; lia).
  rewrite tlvs_bytes_one, tlvs_bytes_snoc. exact E.
Qed.

(** The bytes of a message without options. *)
Lemma encode_plain m : coap_wf m -> options m = [] ->
  exists b, CoapMessage_encode m = Ok b /\ bytes_ok b /\ CoapMessage_decode b = Ok m /\ len b <= 13 + len (payload m).
Proof.
  intros Hm Ho. destruct (sorted_stable m Hm) as (b & He & Hb & Hd); [by rewrite Ho|]. exists b. split_and!; [done..|].
  destruct Hm as (Hc & Hmid & Ht & Htl & Hw & Hp).
  rewrite CoapMessage_encode_ok, Ho in He by done. injection He as <-. unfold coap_bytes.
  change (options_bytes 0 (sorted_options [])) with (@nil Z). rewrite !len_cons, !len_app, len_to_be.
  destruct (is_empty (payload m)); rewrite ?len_cons; change (len []) with 0; pose proof (len_nonneg (payload m)); lia.
Qed.

Lemma into_message_fits t m : coap_wf m -> fits t ->
  exists a, into_message t m = Ok a /\ coap_wf a /\ options a = [] /\ len (payload a) <= 237 /\ message_id a = message_id m /\
    (token a = token m \/ coap_code a = CODE_EMPTY).
Proof.
  intros (? & Hmid & Ht & Htl & _ & _) Hf.
  destruct t; cbn in Hf; try done; (eexists; split; [reflexivity|]); cbn;
    (split; [split_and!; cbn; first [done|tauto|by_decide]|]); split_and!; first [done|tauto|by left|by_decide].
Qed.

Lemma render_fits via m t : coap_wf m -> fits t -> match via with Some (a, p) => bytes_ok a /\ len a = 16 /\ is_u16 p | None => True end ->
  exists a M, into_message t m = Ok a /\ render via m t = Ok (Message M) /\ arrives_as via a M /\ wire_stable M.
Proof.
  intros Hm Hf Hv. destruct (into_message_fits t m Hm Hf) as (a & E & Ha & Ho & Hl & _).
  destruct (encode_plain a Ha Ho) as (b & He & Hb & Hd & Hlb). exists a.
  assert (is_device_answer t = true) as Hdev by (by destruct t).
  assert (render via m t = let! message := into_message (route_template via t) m in
            let! encoded := CoapMessage_encode message in let! delivered := CoapMessage_decode encoded in Ok (Message delivered)) as Hr
    by (by destruct t).
  destruct via as [[address port]|]; cbn [route_template] in Hr.
  - destruct Hv as (? & ? & ?). rewrite Hdev in Hr. cbn [into_message] in Hr. rewrite E in Hr. cbn [rbind] in Hr. rewrite He in Hr. cbn [rbind] in Hr.
    destruct (udp_rx_message_ok address port DEFAULT_MM_PORT b) as (rx & Erx & (b' & He' & Hb' & Hd') & Hp); [done..|by_decide|done|lia|].
    rewrite Erx in Hr. cbn [rbind] in Hr. rewrite He' in Hr. cbn [rbind] in Hr. rewrite Hd' in Hr. exists rx.
    split_and!; [done|done| |by exists b']. by exists b.
  - rewrite E in Hr. cbn [rbind] in Hr. rewrite He in Hr. cbn [rbind] in Hr. rewrite Hd in Hr. exists a.
    split_and!; [done|done|done|by exists b].
Qed.

Lemma received_on_the_wire m via outer : wire_stable m -> wire_stable outer -> on_the_wire m via outer ->
  received_request outer = Ok (outer, m) /\ proxy_destination outer = via.
Proof.
  intros (bm & Em & _ & Dm) (bo & Eo & _ & Do) Hw. unfold received_request. rewrite Eo. cbn [rbind]. rewrite Do. cbn [rbind].
  unfold decapsulated_request, proxy_destination. destruct via as [[address port]|]; cbn [on_the_wire] in Hw.
  - destruct Hw as (Ha & Hl & Hp & inner & Ei & Hi & Hm & Hpl). rewrite Em in Ei. injection Ei as ->.
    pose proof (udp_tlvs_wf address DEFAULT_MM_PORT port inner Ha Hl Hi Hm) as Hwf.
    pose proof (from_tlv_parse _ Hwf) as Hparse. rewrite Hpl, Hparse. cbn [rbind].
    destruct (TlvSet_parse (tlvs_bytes _)) as [s| |]; [|discriminate Hparse..]. cbn in Hparse. injection Hparse as ->. cbn [ok mbind option_bind].
    set (enc := to_be 2 DEFAULT_MM_PORT ++ to_be 2 port ++ inner).
    set (s := mkTlvSet _). assert (last_value s TLV_UDP_ENCAPSULATION = Some enc) as Hs1 by reflexivity.
    assert (last_value s TLV_IPV6_ADDRESS = Some address) as Hs2 by reflexivity. rewrite Hs1. unfold base.mbind, option_bind. cbv beta iota. rewrite Hs2, Hl, Hs1. cbn [Z.eqb Pos.eqb].
    assert (len enc = 4 + len inner) as He by (unfold enc; rewrite !len_app, !len_to_be; lia). pose proof (len_nonneg inner).
    rewrite He, (proj2 (Z.ltb_ge _ _)), Z.geb_leb, (proj2 (Z.leb_le _ _)) by lia. split.
    + rewrite slice_from_ok by lia. cbn [rbind]. unfold enc. rewrite (assoc_L (++)), drop_app_length'; [by rewrite Dm|].
      by rewrite length_app, !length_to_be.
    + do 3 f_equal. unfold enc. rewrite drop_app_length' by (by rewrite length_to_be).
      rewrite take_app_length' by (by rewrite length_to_be). by apply from_to_be_small.
  - destruct Hw as [-> (s & Hs & Hn)]. rewrite Hs. cbn. rewrite Hn. split; [done|].
    destruct (last_value s TLV_IPV6_ADDRESS); cbn; [|done]. by destruct (_ =? 16).
Qed.

Lemma queue_fits via m l s : coap_wf m -> Forall fits l -> match via with Some (a, p) => bytes_ok a /\ len a = 16 /\ is_u16 p | None => True end ->
  exists Ms, queue_responses via m l s =
      (mkScriptState (exchanges s) (observed_requests s) (sent_messages s) (incoming s ++ map Message Ms) (sends_fail s), Ok tt) /\
    Forall2 (fun t M => exists a, into_message t m = Ok a /\ arrives_as via a M /\ wire_stable M) l Ms.
Proof.
  intros Hm Hl Hv. revert s. induction Hl as [|t l Ht _ IH]; intros s; cbn [queue_responses].
  { exists []. split; [|constructor]. cbn. rewrite app_nil_r. by destruct s. }
  destruct (render_fits via m t Hm Ht Hv) as (a & M & E & -> & Harr & Hw). destruct (IH (push_incoming (Message M) s)) as (Ms & -> & HMs).
  exists (M :: Ms). split; [|constructor; eauto]. cbn. by rewrite <- (assoc_L (++)).
Qed.

(** The scripted border agent answers as a live one.  A request that
    reaches the resource of the next scripted exchange, directly or through the
    proxy, is observed and taken off the script, and each device answer of the
    exchange is queued in order: it carries the request's identity and arrives,
    off the wire, directly or from the mesh address and port that the request
    went to. *)
Theorem scripted_exchange_answers m via outer op answers rest s :
  coap_wf m -> wire_stable m -> wire_stable outer -> on_the_wire m via outer -> uri_path m = Ok (Some (operation_uri_path op)) ->
  sends_fail s = false -> exchanges s = mkScriptedExchange op answers :: rest -> Forall fits answers ->
  exists Ms, exchange outer s =
      (mkScriptState rest (observed_requests s ++ [mkObservedRequest op outer]) (sent_messages s) (incoming s ++ map Message Ms) false, Ok tt) /\
    Forall2 (fun t M => exists a, into_message t m = Ok a /\ message_id a = message_id m /\
      (token a = token m \/ coap_code a = CODE_EMPTY) /\ arrives_as via a M /\ wire_stable M) answers Ms.
Proof.
  intros Hm Hs Hso Hw Hpath Hf He Ha. destruct (received_on_the_wire m via outer Hs Hso Hw) as [Hrx Hproxy].
  unfold exchange, check_send. rewrite Hf. cbn [rbind]. rewrite Hrx, Hproxy, He, Hpath. rewrite bool_decide_true by done. cbv zeta.
  destruct (queue_fits via m answers (mkScriptState rest (observed_requests s ++ [mkObservedRequest op outer]) (sent_messages s) (incoming s) (sends_fail s)))
    as (Ms & Hq & HMs); [done|done|destruct via as [[]|]; [cbn in Hw; tauto|done]|].
  exists Ms. cbn [exchanges observed_requests sent_messages incoming sends_fail operation responses] in *. rewrite Hf in *. split; [exact Hq|].
  clear Hq He. induction HMs as [|t M l Ms (a & E & Harr & HwM) _ IH]; [constructor|]. apply Forall_cons in Ha as [Ht Ha].
  destruct (into_message_fits t m Hm Ht) as (a' & E' & _ & _ & _ & Hid & Htok). rewrite E in E'. injection E' as <-.
  constructor; [eauto 8|by apply IH].
Qed.

End Harness.

(** ** Witness *)

(** A proxied request for the active dataset, with two scripted answers. *)
Module ToyHarness.
Import Harness.
Definition leader : Ipv6Addr := [0xfd; 0; 0; 0; 0; 0; 0; 1; 0; 0; 0; 255; 254; 0; 252; 0].
Definition built (r : result Error CoapMessage) : CoapMessage := match r with Ok m => m | _ => empty_ack 0 end.
Definition encoded (m : CoapMessage) : bytes := match CoapMessage_encode m with Ok b => b | _ => [] end.
Definition request : CoapMessage := built (post_request Confirmable 7 [1; 2; 3; 4] (operation_uri_path GetActiveDataset) []).
Definition outer : CoapMessage := built (udp_tx_request 9 [] leader 61631 (encoded request)).
Definition answers : list ScriptedResponse := [EmptyAck; content [14; 1; 0]].
Definition script : ScriptState := ScriptedMeshcopTransport_new [mkScriptedExchange GetActiveDataset answers].
End ToyHarness.
Import ToyHarness.

Lemma scripted_exchange_answers_witness :
  exists Ms, (Harness.exchange outer script).2 = Ok tt /\ length Ms = 2%nat /\
    Harness.incoming (Harness.exchange outer script).1 = map Harness.Message Ms /\
    Forall2 (fun t M => exists a, Harness.into_message t request = Ok a /\ message_id a = message_id request /\
      (token a = token request \/ coap_code a = CODE_EMPTY) /\ Harness.arrives_as (Some (leader, 61631)) a M /\ Harness.wire_stable M)
      answers Ms.
Proof.
  destruct (Harness.scripted_exchange_answers request (Some (leader, 61631)) outer GetActiveDataset answers [] script)
    as (Ms & He & HMs).
  - by_decide.
  - exists (encoded request). split_and!; [reflexivity|by_decide|reflexivity].
  - exists (encoded outer). split_and!; [reflexivity|by_decide|reflexivity].
  - split; [by_decide|]. split; [done|]. split; [by_decide|]. exists (encoded request).
    split; [reflexivity|]. split; [by_decide|]. split; [by_decide|reflexivity].
  - reflexivity.
  - reflexivity.
  - reflexivity.
  - by_decide.
  - exists Ms. rewrite He. split; [reflexivity|]. split; [by apply Forall2_length in HMs|]. split; [reflexivity|exact HMs].
Defined.
