(* ===== verification/Flags.v ===== *)
(** * Flags: the flag words of dataset requests

    crates/meshcop/src/flags.rs (the macro behind the flag types) and the two
    flag types of crates/meshcop/src/commissioner/types.rs, and what each named
    flag asks for. *)
From S2P Require Import Prelude Tlv Errors Dataset Coap NetDiag Messages.

(** ** flags.rs *)

Definition flags_from_bits (bits : Z) : Z := bits.
Definition flags_bits (self : Z) : Z := self.
Definition flags_contains (self other : Z) : bool := Z.land self other =? other.
Definition flags_bitor (self rhs : Z) : Z := Z.lor self rhs.
Definition flags_bitor_assign (self rhs : Z) : Z := Z.lor self rhs.

(** ** types.rs *)

Module DatasetFlags.
Definition EMPTY : Z := 0.
Definition ALL : Z := 2 ^ 64 - 1.
Definition ACTIVE_TIMESTAMP : Z := Z.shiftl 1 15.
Definition CHANNEL : Z := Z.shiftl 1 14.
Definition CHANNEL_MASK : Z := Z.shiftl 1 13.
Definition EXTENDED_PAN_ID : Z := Z.shiftl 1 12.
Definition MESH_LOCAL_PREFIX : Z := Z.shiftl 1 11.
Definition NETWORK_KEY : Z := Z.shiftl 1 10.
Definition NETWORK_NAME : Z := Z.shiftl 1 9.
Definition PAN_ID : Z := Z.shiftl 1 8.
Definition PSKC : Z := Z.shiftl 1 7.
Definition SECURITY_POLICY : Z := Z.shiftl 1 6.
Definition DELAY_TIMER : Z := Z.shiftl 1 5.
Definition PENDING_TIMESTAMP : Z := Z.shiftl 1 4.
End DatasetFlags.

Module CommissionerDatasetFlags.
Definition EMPTY : Z := 0.
Definition ALL : Z := 2 ^ 64 - 1.
Definition BORDER_AGENT_LOCATOR : Z := Z.shiftl 1 15.
Definition COMMISSIONER_SESSION_ID : Z := Z.shiftl 1 14.
Definition STEERING_DATA : Z := Z.shiftl 1 13.
Definition AE_STEERING_DATA : Z := Z.shiftl 1 12.
Definition NMKP_STEERING_DATA : Z := Z.shiftl 1 11.
Definition JOINER_UDP_PORT : Z := Z.shiftl 1 10.
Definition AE_UDP_PORT : Z := Z.shiftl 1 9.
Definition NMKP_UDP_PORT : Z := Z.shiftl 1 8.
End CommissionerDatasetFlags.

(** ** What the flags ask for *)

Lemma flags_contains_spec self other : flags_contains self other = true <->
  forall i, 0 <= i -> Z.testbit other i = true -> Z.testbit self i = true.
Proof.
  unfold flags_contains. rewrite Z.eqb_eq. split.
  - intros H i Hi Ht. rewrite <- H, Z.land_spec in Ht. by apply andb_true_iff in Ht as [? _].
  - intros H. apply Z.bits_inj'. intros i Hi. rewrite Z.land_spec. destruct (Z.testbit other i) eqn:E; [|by rewrite andb_false_r].
    by rewrite (H i Hi E).
Qed.
Lemma union_contains a b : flags_contains (flags_bitor a b) a = true /\ flags_contains (flags_bitor a b) b = true.
Proof. split; apply flags_contains_spec; intros i _ H; unfold flags_bitor; rewrite Z.lor_spec, H; [done|apply orb_true_r]. Qed.

(** Each named flag asks for the TLV of its name; an active dataset is never
    asked for what only pending ones have. *)
Lemma dataset_flags_meaning :
  map active_dataset_tlv_types
    [DatasetFlags.ACTIVE_TIMESTAMP; DatasetFlags.CHANNEL; DatasetFlags.CHANNEL_MASK; DatasetFlags.EXTENDED_PAN_ID;
     DatasetFlags.MESH_LOCAL_PREFIX; DatasetFlags.NETWORK_KEY; DatasetFlags.NETWORK_NAME; DatasetFlags.PAN_ID; DatasetFlags.PSKC;
     DatasetFlags.SECURITY_POLICY; DatasetFlags.DELAY_TIMER; DatasetFlags.PENDING_TIMESTAMP; DatasetFlags.EMPTY] =
  [[DS_TLV_ACTIVE_TIMESTAMP]; [DS_TLV_CHANNEL]; [DS_TLV_CHANNEL_MASK]; [DS_TLV_EXTENDED_PAN_ID]; [DS_TLV_MESH_LOCAL_PREFIX];
   [DS_TLV_NETWORK_KEY]; [DS_TLV_NETWORK_NAME]; [DS_TLV_PAN_ID]; [DS_TLV_PSKC]; [DS_TLV_SECURITY_POLICY]; []; []; []] /\
  map pending_dataset_tlv_types [DatasetFlags.DELAY_TIMER; DatasetFlags.PENDING_TIMESTAMP] = [[DS_TLV_DELAY_TIMER]; [DS_TLV_PENDING_TIMESTAMP]].
Proof. split; reflexivity. Qed.
Lemma commissioner_flags_meaning :
  map commissioner_dataset_tlv_types
    [CommissionerDatasetFlags.BORDER_AGENT_LOCATOR; CommissionerDatasetFlags.COMMISSIONER_SESSION_ID; CommissionerDatasetFlags.STEERING_DATA;
     CommissionerDatasetFlags.AE_STEERING_DATA; CommissionerDatasetFlags.NMKP_STEERING_DATA; CommissionerDatasetFlags.JOINER_UDP_PORT;
     CommissionerDatasetFlags.AE_UDP_PORT; CommissionerDatasetFlags.NMKP_UDP_PORT; CommissionerDatasetFlags.EMPTY] =
  [[TLV_BORDER_AGENT_LOCATOR]; [TLV_COMMISSIONER_SESSION_ID]; [TLV_STEERING_DATA]; [TLV_AE_STEERING_DATA]; [TLV_NMKP_STEERING_DATA];
   [TLV_JOINER_UDP_PORT]; [TLV_AE_UDP_PORT]; [TLV_NMKP_UDP_PORT]; []].
Proof. reflexivity. Qed.
