(* ===== verification/Replay.v ===== *)
(** * Replay: the DTLS anti-replay window

    The model of crates/meshcop-dtls/src/replay.rs, [ReplayWindow] as its
    newest sequence number and 64-bit bitmap.  The specification is the list
    of sequence numbers marked so far; [window_repr] relates the two, every
    operation preserves it, and a receiver that checks [has_seen] before and
    calls [mark_seen] after authentication never accepts a number twice. *)
From S2P Require Import Prelude.

Record ReplayWindow := mkReplayWindow { newest_sequence : option Z; seen : Z }.

Definition ReplayWindow_new : ReplayWindow := mkReplayWindow None 0.

Definition U64_BITS : Z := 64.

Definition has_seen (self : ReplayWindow) (sequence : Z) : bool :=
  match newest_sequence self with
  | None => false
  | Some newest =>
      if sequence >? newest then false
      else
        let offset := newest - sequence in
        (offset >=? U64_BITS) || (Z.land (Z.shiftr (seen self) offset) 1 =? 1)
  end.

Definition mark_seen (self : ReplayWindow) (sequence : Z) : ReplayWindow :=
  match newest_sequence self with
  | None => mkReplayWindow (Some sequence) 1
  | Some newest =>
      if sequence >? newest then
        let shift := sequence - newest in
        mkReplayWindow (Some sequence)
          (if shift >=? U64_BITS then 1 else Z.lor (wrap 64 (Z.shiftl (seen self) shift)) 1)
      else
        let offset := newest - sequence in
        if offset <? U64_BITS
        then mkReplayWindow (Some newest) (Z.lor (seen self) (Z.shiftl 1 offset))
        else self
  end.

(** ** Specification: the set of marked numbers *)

Fixpoint newest_of (history : list Z) : option Z :=
  match history with
  | [] => None
  | s :: l => Some (match newest_of l with Some n => Z.max s n | None => s end)
  end.

(** A number is refused when it was marked, or lies 64 or more below the newest. *)
Definition refused (history : list Z) (s : Z) : Prop :=
  exists n, newest_of history = Some n /\ (s ∈ history \/ s <= n - U64_BITS).

Definition window_repr (w : ReplayWindow) (history : list Z) : Prop :=
  newest_sequence w = newest_of history /\ is_u64 (seen w) /\
  forall n i, newest_of history = Some n -> 0 <= i < U64_BITS ->
    (Z.testbit (seen w) i = true <-> n - i ∈ history).

Lemma newest_of_max history n s : newest_of history = Some n -> s ∈ history -> s <= n.
Proof.
  revert n. induction history as [|x l IH]; intros n H Hs; [by apply elem_of_nil in Hs|].
  simpl in H. injection H as <-. apply elem_of_cons in Hs as [->|Hs].
  - destruct (newest_of l); lia.
  - destruct (newest_of l) as [m|] eqn:E; [pose proof (IH m eq_refl Hs); lia|].
    destruct l; [by apply elem_of_nil in Hs|done].
Qed.

Lemma newest_of_none history : newest_of history = None -> history = [].
Proof. by destruct history. Qed.

Lemma land1_testbit x i : 0 <= i -> (Z.land (Z.shiftr x i) 1 =? 1) = Z.testbit x i.
Proof.
  intros Hi. rewrite (testbit_flag (Z.shiftr x i) 0 ltac:(lia) : (Z.land _ 1 =? 1) = _).
  by rewrite Z.shiftr_spec by lia.
Qed.

Lemma has_seen_refused w history s :
  window_repr w history -> has_seen w s = true <-> refused history s.
Proof.
  intros (Hn & _ & Hb). unfold has_seen, refused. rewrite Hn.
  destruct (newest_of history) as [n|] eqn:En; [|naive_solver].
  rewrite Z.gtb_ltb, Z.geb_leb.
  destruct (n <? s) eqn:E; zbool.
  - split; [done|]. intros (? & [= <-] & [Hs|Hs]); [pose proof (newest_of_max _ _ _ En Hs); lia|].
    unfold U64_BITS in *; lia.
  - rewrite orb_true_iff, land1_testbit, Z.leb_le by lia. split.
    + intros H. exists n. split; [done|]. destruct (decide (n - s < U64_BITS)); [|right; lia].
      left. destruct H as [?|H]; [lia|]. apply (Hb n) in H; [|done|lia]. by replace (n - (n - s)) with s in H by lia.
    + intros (? & [= <-] & [Hs|Hs]); [|left; lia]. destruct (decide (n - s < U64_BITS)); [|left; lia].
      right. apply (Hb n); [done|lia|]. by replace (n - (n - s)) with s by lia.
Qed.

Lemma testbit_one i : 0 <= i -> Z.testbit 1 i = true <-> i = 0.
Proof. intros. change 1 with (2 ^ 0). rewrite Z.pow2_bits_eqb by lia. rewrite Z.eqb_eq. lia. Qed.

Lemma mark_seen_repr w history s :
  window_repr w history -> 0 <= s -> window_repr (mark_seen w s) (s :: history).
Proof.
  intros (Hn & Hs & Hb) H0. unfold mark_seen. rewrite Hn.
  destruct (newest_of history) as [n|] eqn:En.
  - rewrite Z.gtb_ltb. destruct (n <? s) eqn:E; zbool.
    + split; [simpl; rewrite En; f_equal; lia|]. rewrite Z.geb_leb. cbn [seen newest_of]. rewrite En.
      assert (forall x, x ∈ history -> x <= n) as Hmax by (intros; by eapply newest_of_max).
      destruct (U64_BITS <=? s - n) eqn:Es; zbool; unfold U64_BITS in *.
      * split; [by split|]. intros m i [= <-] Hi. rewrite testbit_one, elem_of_cons by lia.
        split; [intros ->; left; lia|]. intros [?|Hx]; [lia|]. apply Hmax in Hx. lia.
      * split; [apply uint_lor; [lia|apply uint_wrap; lia|by split]|]. intros m i [= <-] Hi.
        rewrite Z.lor_spec, orb_true_iff, testbit_one, elem_of_cons by lia.
        unfold wrap. rewrite Z.mod_pow2_bits_low, Z.shiftl_spec by lia.
        destruct (decide (i < s - n)).
        { rewrite Z.testbit_neg_r by lia. split; [intros [?|?]; [done|left; lia]|].
          intros [?|Hx]; [right; lia|]. apply Hmax in Hx. lia. }
        rewrite (Hb n) by (done || lia). replace (n - (i - (s - n))) with (Z.max s n - i) by lia.
        split; [intros [?|?]; [by right|left; lia]|intros [?|?]; [lia|by left]].
    + unfold U64_BITS in *. destruct (n - s <? 64) eqn:Eo; zbool.
      * split; [simpl; rewrite En; f_equal; lia|]. cbn [seen newest_of]. rewrite En.
        assert (Z.shiftl 1 (n - s) = 2 ^ (n - s)) as -> by (rewrite Z.shiftl_mul_pow2; lia).
        split; [apply uint_lor; [lia|done|split; [lia|apply Z.pow_lt_mono_r; lia]]|].
        intros m i [= <-] Hi. replace (Z.max s n) with n by lia.
        rewrite Z.lor_spec, orb_true_iff, Z.pow2_bits_eqb, Z.eqb_eq, (Hb n), elem_of_cons by (done || lia).
        split; [intros [?|?]; [by right|left; lia]|intros [?|?]; [right; lia|by left]].
      * split; [rewrite Hn; simpl; rewrite En; f_equal; lia|]. split; [done|]. cbn [newest_of]. rewrite En.
        intros m i [= <-] Hi. replace (Z.max s n) with n by lia.
        unfold U64_BITS in *. rewrite (Hb n), elem_of_cons by (done || lia). split; [by right|intros [?|?]; [lia|done]].
  - apply newest_of_none in En as ->. split; [done|]. split; [by split|]. cbn [seen newest_of].
    intros m i [= <-] Hi. rewrite testbit_one, list_elem_of_singleton by lia. lia.
Qed.

Lemma window_repr_new : window_repr ReplayWindow_new [].
Proof. split; [done|]. split; [by split|done]. Qed.

(** ** The receiver

    What every DTLS endpoint of the crate does with a record: drop it when
    the window has seen its number, else authenticate it, and mark it only
    when authentication succeeds. *)
Definition receive (w : ReplayWindow) (record : Z * bool) : ReplayWindow * bool :=
  let '(sequence, authentic) := record in
  if has_seen w sequence then (w, false)
  else if authentic then (mark_seen w sequence, true) else (w, false).

Fixpoint receive_all (w : ReplayWindow) (records : list (Z * bool)) : list Z :=
  match records with
  | [] => []
  | r :: records' =>
      let '(w', accepted) := receive w r in
      (if accepted then [r.1] else []) ++ receive_all w' records'
  end.

Lemma receive_all_history w history records :
  window_repr w history -> Forall (fun r => 0 <= r.1) records ->
  NoDup (receive_all w records) /\ (forall s, s ∈ receive_all w records -> s ∉ history) /\
  Forall (fun s => (s, true) ∈ records) (receive_all w records).
Proof.
  intros Hw Hr. revert w history Hw. induction Hr as [|[s a] rs Hs _ IH]; intros w history Hw.
  { simpl. split_and!; [constructor|by intros ? ?%elem_of_nil|done]. }
  cbn [receive_all receive fst]. destruct (has_seen w s) eqn:E.
  { destruct (IH w history Hw) as (? & ? & Hf). split_and!; [done..|].
    eapply Forall_impl; [exact Hf|]. intros; by right. }
  destruct a; cbn [app].
  - destruct (IH (mark_seen w s) (s :: history)) as (Hd & Hh & Hf); [by apply mark_seen_repr|].
    assert (s ∉ history) as Hsn.
    { intros Hin. assert (has_seen w s = true); [|congruence]. apply (has_seen_refused w history); [done|].
      destruct (newest_of history) as [n|] eqn:En; [exists n; auto|].
      apply newest_of_none in En as ->. by apply elem_of_nil in Hin. }
    split_and!.
    + constructor; [|done]. intros Hin. apply (Hh s Hin). by left.
    + intros x [->|Hx]%elem_of_cons; [done|]. intros Hxh. apply (Hh x Hx). by right.
    + constructor; [by left|]. eapply Forall_impl; [exact Hf|]. intros; by right.
  - destruct (IH w history Hw) as (? & ? & Hf). split_and!; [done..|].
    eapply Forall_impl; [exact Hf|]. intros; by right.
Qed.

(** ** Properties *)

(** C18: the window implements its specification.  From a window that
    represents a history of marked numbers, [has_seen] answers exactly
    whether the number is in the history or 64 or more below the newest one,
    and [mark_seen] adds the number to the history. *)
Theorem replay_window_refines w history s :
  window_repr w history -> 0 <= s ->
  (has_seen w s = true <-> refused history s) /\ window_repr (mark_seen w s) (s :: history).
Proof. intros Hw Hs. split; [by apply has_seen_refused|by apply mark_seen_repr]. Qed.

Lemma replay_window_refines_witness :
  window_repr (mark_seen ReplayWindow_new 100) [100] /\
  (has_seen (mark_seen ReplayWindow_new 100) 36 = true <-> refused [100] 36).
Proof.
  assert (window_repr (mark_seen ReplayWindow_new 100) [100]) as H
    by (apply (replay_window_refines ReplayWindow_new []); [exact window_repr_new|lia]).
  split; [exact H|]. apply (replay_window_refines _ [100] 36 H). lia.
Defined.

(** Whatever records arrive, replayed, reordered or forged, the numbers
    a receiver accepts are pairwise different and all authentic. *)
Theorem no_record_accepted_twice records :
  Forall (fun r => 0 <= r.1) records ->
  NoDup (receive_all ReplayWindow_new records) /\
  Forall (fun s => (s, true) ∈ records) (receive_all ReplayWindow_new records).
Proof.
  intros H. destruct (receive_all_history ReplayWindow_new [] records) as (? & _ & ?); auto.
  exact window_repr_new.
Qed.

Lemma no_record_accepted_twice_witness :
  NoDup (receive_all ReplayWindow_new [(5, true); (5, true); (3, true); (70, false); (70, true); (5, true)]).
Proof. apply no_record_accepted_twice. by_decide. Defined.
