(* ===== verification/Record.v ===== *)
(** * Record: DTLS record framing and flights

    The model of util.rs, constants.rs, record.rs and the renumbering of
    flight.rs in crates/meshcop-dtls/src.  A datagram is a sequence of records,
    each a 13-byte header and its payload. *)
From S2P Require Import Prelude Text Tlv Errors.

(** ** 24-bit integers and constants *)

Definition MAX_U24 : Z := 0x00ffffff.

Definition dtls_read_u16 (bs : bytes) : result DtlsError Z :=
  let! b0 := idx bs 0 in
  let! b1 := idx bs 1 in
  Ok (from_be [b0; b1]).

Definition read_u24 (bs : bytes) : result DtlsError Z :=
  let! b0 := idx bs 0 in
  let! b1 := idx bs 1 in
  let! b2 := idx bs 2 in
  Ok (Z.lor (Z.lor (Z.shiftl b0 16) (Z.shiftl b1 8)) b2).

(** [write_u24] on a three-byte slice, its new contents. *)
Definition write_u24 (v : Z) (out : bytes) : result DtlsError bytes :=
  if (v >? MAX_U24) || negb (len out =? 3) then Err (DCrypto "invalid 24-bit integer")
  else Ok [wrap 8 (Z.shiftr v 16); wrap 8 (Z.shiftr v 8); wrap 8 v].

Definition TLS_ECJPAKE_WITH_AES_128_CCM_8 : Z := 0xc0ff.
Definition TLS_EMPTY_RENEGOTIATION_INFO_SCSV : Z := 0x00ff.
Definition DTLS_1_2_VERSION : Z := 0xfefd.
Definition TLS_COMPRESSION_NULL : Z := 0.
Definition EXTENSION_SUPPORTED_GROUPS : Z := 10.
Definition EXTENSION_MAX_FRAGMENT_LENGTH : Z := 1.
Definition EXTENSION_EC_POINT_FORMATS : Z := 11.
Definition EXTENSION_SIGNATURE_ALGORITHMS : Z := 13.
Definition EXTENSION_ECJPAKE_KKPP : Z := 256.
Definition NAMED_GROUP_SECP256R1 : Z := 23.
Definition EC_POINT_FORMAT_UNCOMPRESSED : Z := 0.

(** ** Records *)

Inductive ContentType := CtChangeCipherSpec | CtAlert | CtHandshake | CtApplicationData.

#[global] Instance ContentType_eq_dec : EqDecision ContentType.
Proof. solve_decision. Defined.

Definition ContentType_as_u8 (t : ContentType) : Z :=
  match t with
  | CtChangeCipherSpec => 20 | CtAlert => 21 | CtHandshake => 22 | CtApplicationData => 23
  end.

Definition ContentType_try_from (v : Z) : result DtlsError ContentType :=
  match v with
  | 20 => Ok CtChangeCipherSpec
  | 21 => Ok CtAlert
  | 22 => Ok CtHandshake
  | 23 => Ok CtApplicationData
  | _ => Err (DCrypto "unknown DTLS content type")
  end.

Record RecordHeader := mkRecordHeader {
  content_type : ContentType;
  rec_version : Z;
  rec_epoch : Z;
  sequence_number : Z;
  rec_length : Z }.

#[global] Instance RecordHeader_eq_dec : EqDecision RecordHeader.
Proof. solve_decision. Defined.

Definition RECORD_LEN : Z := 13.

(** The six bytes of a 48-bit sequence number. *)
Definition sequence_bytes (s : Z) : bytes :=
  [wrap 8 (Z.shiftr s 40); wrap 8 (Z.shiftr s 32); wrap 8 (Z.shiftr s 24);
   wrap 8 (Z.shiftr s 16); wrap 8 (Z.shiftr s 8); wrap 8 s].

Definition RecordHeader_parse (bs : bytes) : result DtlsError RecordHeader :=
  if len bs <? RECORD_LEN then Err (DCrypto "DTLS record header is truncated")
  else
    let! b5 := idx bs 5 in
    let! b6 := idx bs 6 in
    let! b7 := idx bs 7 in
    let! b8 := idx bs 8 in
    let! b9 := idx bs 9 in
    let! b10 := idx bs 10 in
    let sequence_number :=
      Z.lor (Z.lor (Z.lor (Z.lor (Z.lor (Z.shiftl b5 40) (Z.shiftl b6 32)) (Z.shiftl b7 24))
        (Z.shiftl b8 16)) (Z.shiftl b9 8)) b10 in
    let! b0 := idx bs 0 in
    let! content_type := ContentType_try_from b0 in
    let! b1 := idx bs 1 in
    let! b2 := idx bs 2 in
    let! b3 := idx bs 3 in
    let! b4 := idx bs 4 in
    let! b11 := idx bs 11 in
    let! b12 := idx bs 12 in
    Ok (mkRecordHeader content_type (from_be [b1; b2]) (from_be [b3; b4]) sequence_number
          (from_be [b11; b12])).

Definition RecordHeader_encode (self : RecordHeader) : bytes :=
  [ContentType_as_u8 (content_type self)] ++ to_be 2 (rec_version self) ++ to_be 2 (rec_epoch self)
  ++ sequence_bytes (sequence_number self) ++ to_be 2 (rec_length self).

Definition aead_additional_data (self : RecordHeader) (plaintext_len : Z) : bytes :=
  to_be 2 (rec_epoch self) ++ sequence_bytes (sequence_number self)
  ++ [ContentType_as_u8 (content_type self)] ++ to_be 2 (rec_version self) ++ to_be 2 plaintext_len.

Record DtlsRecord := mkDtlsRecord { rec_header : RecordHeader; rec_payload : bytes }.

#[global] Instance DtlsRecord_eq_dec : EqDecision DtlsRecord.
Proof. solve_decision. Defined.

Definition DtlsRecord_new (ct : ContentType) (epoch seq : Z) (pl : bytes) : result DtlsError DtlsRecord :=
  let! length := if len pl <? 2 ^ 16 then Ok (len pl)
                 else Err (DCrypto "DTLS record payload is too long") in
  Ok (mkDtlsRecord (mkRecordHeader ct DTLS_1_2_VERSION epoch seq length) pl).

Definition DtlsRecord_encode (self : DtlsRecord) : result DtlsError bytes :=
  if negb (len (rec_payload self) =? rec_length (rec_header self))
  then Err (DCrypto "DTLS record header length does not match payload")
  else Ok (RecordHeader_encode (rec_header self) ++ rec_payload self).

(** One turn of the loop of [parse_datagram]. *)
Definition parse_record (bs : bytes) : result DtlsError (DtlsRecord * bytes) :=
  let! header := RecordHeader_parse bs in
  let! end_ := ok_or (checked_add usize_bits RECORD_LEN (rec_length header))
                 (DCrypto "DTLS record length overflow") in
  if len bs <? end_ then Err (DCrypto "DTLS record payload is truncated")
  else
    let! pl := slice bs RECORD_LEN end_ in
    let! rest := slice_from bs end_ in
    Ok (mkDtlsRecord header pl, rest).

Definition parse_datagram (bs : bytes) : result DtlsError (list DtlsRecord) := many parse_record bs.

Fixpoint encode_datagram_loop (records : list DtlsRecord) (datagram : bytes) : result DtlsError bytes :=
  match records with
  | [] => Ok datagram
  | record :: records' =>
      let! b := DtlsRecord_encode record in encode_datagram_loop records' (datagram ++ b)
  end.
Definition encode_datagram (records : list DtlsRecord) : result DtlsError bytes :=
  encode_datagram_loop records [].

(** ** Flights (flight.rs) *)

(** [take_record_sequence]: the number and the advanced counter. *)
Definition take_record_sequence (next_sequence : Z) : Z * Z :=
  (next_sequence, wrapping_add 64 next_sequence 1).

Definition set_sequence (r : DtlsRecord) (s : Z) : DtlsRecord :=
  let h := rec_header r in
  mkDtlsRecord (mkRecordHeader (content_type h) (rec_version h) (rec_epoch h) s (rec_length h))
    (rec_payload r).

Fixpoint renumber_epoch_zero_flight (records : list DtlsRecord) (next_sequence : Z)
    : list DtlsRecord * Z :=
  match records with
  | [] => ([], next_sequence)
  | record :: records' =>
      if rec_epoch (rec_header record) =? 0 then
        let '(s, next_sequence) := take_record_sequence next_sequence in
        let '(rs, next_sequence) := renumber_epoch_zero_flight records' next_sequence in
        (set_sequence record s :: rs, next_sequence)
      else
        let '(rs, next_sequence) := renumber_epoch_zero_flight records' next_sequence in
        (record :: rs, next_sequence)
  end.

(** ** Byte-level lemmas *)

Lemma wrap8_shiftr x n : 0 <= n -> wrap 8 (Z.shiftr x n) = (x / 2 ^ n) mod 256.
Proof. intros. unfold wrap. by rewrite Z.shiftr_div_pow2. Qed.

Lemma sequence_bytes_be s : sequence_bytes s = to_be 6 s.
Proof.
  unfold sequence_bytes. rewrite !wrap8_shiftr by lia. cbn [to_be]. unfold wrap.
  repeat f_equal. by rewrite Z.div_1_r.
Qed.

(** One more byte below an accumulator that already sits at its place. *)
Lemma lor_be acc b k :
  0 <= k -> is_u8 b -> Z.lor (Z.shiftl acc (k + 8)) (Z.shiftl b k) = Z.shiftl (acc * 256 + b) k.
Proof.
  intros Hk Hb. rewrite Z.add_comm, <- Z.shiftl_shiftl by lia.
  rewrite <- Z.shiftl_lor. f_equal. by rewrite (lor_shiftl_add acc b 8) by (lia || done).
Qed.

Lemma read_be3 b0 b1 b2 : is_u8 b1 -> is_u8 b2 ->
  Z.lor (Z.lor (Z.shiftl b0 16) (Z.shiftl b1 8)) b2 = from_be [b0; b1; b2].
Proof.
  intros. rewrite (lor_be b0 b1 8 ltac:(lia) ltac:(done) : Z.lor (Z.shiftl b0 16) _ = _).
  by rewrite (lor_shiftl_add _ b2 8) by (lia || done).
Qed.

Lemma read_be6 b0 b1 b2 b3 b4 b5 : is_u8 b1 -> is_u8 b2 -> is_u8 b3 -> is_u8 b4 -> is_u8 b5 ->
  Z.lor (Z.lor (Z.lor (Z.lor (Z.lor (Z.shiftl b0 40) (Z.shiftl b1 32)) (Z.shiftl b2 24))
    (Z.shiftl b3 16)) (Z.shiftl b4 8)) b5 = from_be [b0; b1; b2; b3; b4; b5].
Proof.
  intros.
  rewrite (lor_be b0 b1 32 ltac:(lia) ltac:(done) : Z.lor (Z.shiftl b0 40) _ = _).
  rewrite (lor_be _ b2 24 ltac:(lia) ltac:(done) : Z.lor (Z.shiftl _ 32) _ = _).
  rewrite (lor_be _ b3 16 ltac:(lia) ltac:(done) : Z.lor (Z.shiftl _ 24) _ = _).
  rewrite (lor_be _ b4 8 ltac:(lia) ltac:(done) : Z.lor (Z.shiftl _ 16) _ = _).
  by rewrite (lor_shiftl_add _ b5 8) by (lia || done).
Qed.

Lemma read_u24_be x rest : uint 24 x -> read_u24 (to_be 3 x ++ rest) = Ok x.
Proof.
  intros Hx. unfold read_u24. pose proof (to_be_ok 3 x) as Hok. pose proof (from_to_be_small 3 x Hx) as Hf.
  pose proof (length_to_be 3 x) as Hl.
  destruct (to_be 3 x) as [|b0 [|b1 [|b2 [|]]]]; try done. cbn [app]. eval_idx.
  rewrite !Forall_cons in Hok. destruct Hok as (? & ? & ? & _). rewrite read_be3 by done. by rewrite Hf.
Qed.

Lemma write_u24_be x out : uint 24 x -> len out = 3 -> write_u24 x out = Ok (to_be 3 x).
Proof.
  intros [H0 H1] Hl. unfold write_u24, MAX_U24. rewrite Hl, Z.gtb_ltb.
  rewrite (proj2 (Z.ltb_ge _ _)) by lia. cbn [Z.eqb Pos.eqb negb orb].
  rewrite !wrap8_shiftr by lia. cbn [to_be]. unfold wrap. repeat f_equal. by rewrite Z.div_1_r.
Qed.

(** ** Well-formed records *)

Definition header_wf (h : RecordHeader) : Prop :=
  is_u16 (rec_version h) /\ is_u16 (rec_epoch h) /\ uint 48 (sequence_number h) /\
  is_u16 (rec_length h).

Definition record_wf (r : DtlsRecord) : Prop :=
  header_wf (rec_header r) /\ bytes_ok (rec_payload r) /\
  len (rec_payload r) = rec_length (rec_header r).

#[global] Instance header_wf_dec h : Decision (header_wf h).
Proof. unfold header_wf. apply _. Defined.
#[global] Instance record_wf_dec r : Decision (record_wf r).
Proof. unfold record_wf. apply _. Defined.

Definition record_bytes (r : DtlsRecord) : bytes := RecordHeader_encode (rec_header r) ++ rec_payload r.

Lemma ContentType_roundtrip t : ContentType_try_from (ContentType_as_u8 t) = Ok t.
Proof. by destruct t. Qed.

Lemma ContentType_try_from_inv v t : ContentType_try_from v = Ok t -> v = ContentType_as_u8 t.
Proof. unfold ContentType_try_from. repeat case_match; naive_solver. Qed.

Lemma len_header h : len (RecordHeader_encode h) = 13.
Proof. unfold RecordHeader_encode. rewrite sequence_bytes_be. by rewrite !len_app, !len_to_be. Qed.

Lemma header_bytes_ok h : bytes_ok (RecordHeader_encode h).
Proof.
  unfold RecordHeader_encode. rewrite sequence_bytes_be, !Forall_app.
  split_and!; auto using to_be_ok. destruct (content_type h); by_decide.
Qed.

Lemma parse_header_encode h rest :
  header_wf h -> RecordHeader_parse (RecordHeader_encode h ++ rest) = Ok h.
Proof.
  intros (Hv & He & Hs & Hl). unfold RecordHeader_parse.
  pose proof (len_nonneg rest). pose proof (len_header h) as Hlen.
  rewrite (proj2 (Z.ltb_ge _ _)) by (rewrite len_app, Hlen; unfold RECORD_LEN; lia).
  unfold RecordHeader_encode. rewrite sequence_bytes_be.
  pose proof (to_be_ok 6 (sequence_number h)) as Hok.
  pose proof (from_to_be_small 2 _ Hv) as Fv. pose proof (from_to_be_small 2 _ He) as Fe.
  pose proof (from_to_be_small 6 _ Hs) as Fs. pose proof (from_to_be_small 2 _ Hl) as Fl.
  cbn [to_be app] in *. eval_idx. rewrite !Forall_cons in Hok.
  destruct Hok as (? & ? & ? & ? & ? & ? & _). rewrite read_be6 by done.
  eval_idx. rewrite ContentType_roundtrip. cbn [rbind]. eval_idx.
  rewrite Fv, Fe, Fs, Fl. by destruct h.
Qed.

Lemma to_be2_pair a b : is_u8 a -> is_u8 b -> to_be 2 (from_be [a; b]) = [a; b].
Proof. intros. apply (to_be_from_be [a; b]). by repeat apply Forall_cons_2. Qed.

Lemma uint16_pair a b : is_u8 a -> is_u8 b -> is_u16 (from_be [a; b]).
Proof. intros. apply (from_be_bound [a; b]). by repeat apply Forall_cons_2. Qed.

Lemma parse_header_inv bs h :
  bytes_ok bs -> RecordHeader_parse bs = Ok h ->
  header_wf h /\ exists rest, bs = RecordHeader_encode h ++ rest /\ bytes_ok rest.
Proof.
  intros Hok H. unfold RecordHeader_parse, RECORD_LEN in H.
  destruct (len bs <? 13) eqn:El; [done|]; zbool.
  do 13 (destruct bs as [|?b bs]; [unfold len in El; simpl in El; lia|]).
  rewrite !Forall_cons in Hok. destruct Hok as (? & ? & ? & ? & ? & ? & ? & ? & ? & ? & ? & ? & ? & Hbs).
  eval_idx_in H. apply rbind_ok in H as (ct & Hct%ContentType_try_from_inv & H).
  eval_idx_in H. injection H as <-. rewrite read_be6 by done.
  set (q := [_; _; _; _; _; _]). assert (bytes_ok q) as Hq by (by repeat apply Forall_cons_2).
  split.
  - unfold header_wf. simpl. refine (conj _ (conj _ (conj _ _))); try by apply uint16_pair.
    exact (from_be_bound q Hq).
  - exists bs. split; [|done]. unfold RecordHeader_encode.
    cbn [content_type rec_version rec_epoch sequence_number rec_length].
    rewrite sequence_bytes_be, !to_be2_pair by done.
    pose proof (to_be_from_be q Hq) as Hs. unfold q at 1 in Hs. cbn [length] in Hs. rewrite Hs, <- Hct. done.
Qed.

Lemma RecordHeader_parse_safe bs : safe (RecordHeader_parse bs).
Proof.
  unfold RecordHeader_parse, RECORD_LEN. safe_auto.
  all: match goal with |- safe (ContentType_try_from ?v) => unfold ContentType_try_from; by repeat case_match end.
Qed.

Lemma parse_record_inv bs r rest :
  bytes_ok bs -> parse_record bs = Ok (r, rest) ->
  bs = record_bytes r ++ rest /\ record_wf r /\ bytes_ok rest.
Proof.
  intros Hok H. unfold parse_record in H. apply rbind_ok in H as (h & Hh & H).
  apply parse_header_inv in Hh as (Hwf & tl & -> & Htl); [|done].
  inv_ok. apply checked_add_inv in H as ->.
  match goal with H : slice _ _ _ = Ok _ |- _ => apply slice_inv in H as (? & ? & -> & Hl) end.
  match goal with H : slice_from _ _ = Ok _ |- _ => apply slice_from_inv in H as (? & -> & ?) end.
  unfold RECORD_LEN in *. pose proof Hwf as (_ & _ & _ & [? ?]).
  rewrite drop_app_length' in * by (pose proof (len_header h); unfold len in *; lia).
  rewrite len_app, len_header in *.
  replace (Z.to_nat (13 + rec_length h - 13)) with (Z.to_nat (rec_length h)) in * by (f_equal; lia).
  assert (drop (Z.to_nat (13 + rec_length h)) (RecordHeader_encode h ++ tl) = drop (Z.to_nat (rec_length h)) tl) as ->.
  { rewrite drop_app_ge by (pose proof (len_header h); unfold len in *; lia).
    f_equal. pose proof (len_header h); unfold len in *; lia. }
  unfold record_bytes, record_wf. cbn [rec_header rec_payload].
  rewrite <- (assoc_L (++)), take_drop. split_and!; [done|done|by apply Forall_take|lia|by apply Forall_drop].
Qed.

Lemma parse_record_bytes r rest : record_wf r -> parse_record (record_bytes r ++ rest) = Ok (r, rest).
Proof.
  intros (Hh & Hp & Hl). unfold parse_record, record_bytes. rewrite <- (assoc_L (++)).
  rewrite parse_header_encode by done. cbn [rbind]. pose proof Hh as (_ & _ & _ & [? ?]).
  pose proof (len_header (rec_header r)) as Hlh. pose proof (len_nonneg rest).
  rewrite checked_add_usize by (unfold RECORD_LEN; lia). cbn [ok_or rbind].
  rewrite (proj2 (Z.ltb_ge _ _)) by (rewrite !len_app, Hlh; unfold RECORD_LEN; lia).
  unfold RECORD_LEN. rewrite <- Hl. rewrite <- Hlh at 1 2.
  rewrite slice_prefix. cbn [rbind]. rewrite <- Hlh, <- len_app, (assoc_L (++)).
  rewrite slice_from_prefix. by destruct r.
Qed.

Lemma parse_record_consumes : consumes parse_record.
Proof.
  intros bs r rest H. unfold parse_record, RECORD_LEN in H. inv_ok.
  match goal with H : slice _ _ _ = Ok _ |- _ => apply slice_inv in H as (? & _) end.
  match goal with H : slice_from _ _ = Ok _ |- _ => apply slice_from_inv in H as (? & ? & ?) end. lia.
Qed.

Lemma parse_datagram_safe bs : bytes_ok bs -> safe (parse_datagram bs).
Proof.
  intros Hok. unfold parse_datagram. apply safe_many_ok; [apply parse_record_consumes| | |done].
  - intros r Hr. unfold parse_record. apply safe_bind; [apply RecordHeader_parse_safe|]. intros h Hh.
    apply parse_header_inv in Hh as ((_ & _ & _ & [? ?]) & _); [|done].
    rewrite checked_add_usize by (unfold RECORD_LEN; lia). cbn [ok_or rbind]. unfold RECORD_LEN. safe_auto.
  - intros r x rest Hr H. by apply parse_record_inv in H as (_ & _ & ?).
Qed.

Lemma encode_datagram_loop_ok rs out :
  Forall record_wf rs -> encode_datagram_loop rs out = Ok (out ++ concat (map record_bytes rs)).
Proof.
  intros H. revert out. induction H as [|r rs (_ & _ & Hl) _ IH]; intros out; simpl; [by rewrite app_nil_r|].
  unfold DtlsRecord_encode. rewrite Hl, Z.eqb_refl. cbn [negb rbind]. rewrite IH.
  by rewrite <- !(assoc_L (++)).
Qed.

Lemma encode_datagram_ok rs :
  Forall record_wf rs -> encode_datagram rs = Ok (concat (map record_bytes rs)).
Proof. apply (encode_datagram_loop_ok rs []). Qed.

Lemma parse_encode_datagram rs b :
  Forall record_wf rs -> encode_datagram rs = Ok b -> parse_datagram b = Ok rs.
Proof.
  intros Hrs. rewrite encode_datagram_ok by done. intros [= <-].
  apply (many_encode _ parse_record_consumes _ record_wf); [|done]. intros; by apply parse_record_bytes.
Qed.

(** ** Properties *)

(** A datagram and its records determine each other.  Well-formed records
    encode to bytes that parse back to them; parsing never panics, terminates,
    and accepts exactly the encodings of well-formed records. *)
Theorem datagram_codec_exact :
  (forall rs, Forall record_wf rs -> exists b, encode_datagram rs = Ok b /\ parse_datagram b = Ok rs) /\
  (forall bs, bytes_ok bs -> safe (parse_datagram bs) /\
     forall rs, parse_datagram bs = Ok rs -> Forall record_wf rs /\ encode_datagram rs = Ok bs).
Proof.
  split.
  - intros rs H. eexists. split; [by apply encode_datagram_ok|].
    eapply parse_encode_datagram; [done|by apply encode_datagram_ok].
  - intros bs Hok. split; [by apply parse_datagram_safe|]. intros rs H.
    apply (many_decode _ parse_record_consumes record_bytes record_wf) in H as [-> Hwf]; [| |done].
    + split; [done|]. by apply encode_datagram_ok.
    + intros r x rest Hr Hp. by apply parse_record_inv in Hp as (? & ? & _).
Qed.

(** The sequence numbers of the plaintext records of a flight. *)
Definition epoch_zero_sequences (rs : list DtlsRecord) : list Z :=
  map (fun r => sequence_number (rec_header r))
    (List.filter (fun r => rec_epoch (rec_header r) =? 0) rs).

(** Retransmitting a flight gives its plaintext records fresh consecutive
    numbers in flight order, changes nothing else, and leaves protected
    records untouched; the counter moves past every number used. *)
Theorem renumber_flight_fresh rs next :
  0 <= next -> next + len rs < 2 ^ 64 ->
  let '(rs', next') := renumber_epoch_zero_flight rs next in
  epoch_zero_sequences rs' = seqZ next (next' - next) /\
  next <= next' <= next + len rs /\
  map (fun r => set_sequence r 0) rs' = map (fun r => set_sequence r 0) rs /\
  (forall i r, rs !! i = Some r -> rec_epoch (rec_header r) <> 0 -> rs' !! i = Some r).
Proof.
  revert next. induction rs as [|r rs IH]; intros next H0 Hn; cbn [renumber_epoch_zero_flight].
  { split_and!; [by rewrite Z.sub_diag|lia|unfold len; simpl; lia|done|done]. }
  rewrite len_cons in Hn. pose proof (len_nonneg rs).
  unfold take_record_sequence, wrapping_add. rewrite wrap_small by (unfold uint; lia).
  destruct (rec_epoch (rec_header r) =? 0) eqn:E; zbool.
  - specialize (IH (next + 1) ltac:(lia) ltac:(lia)).
    destruct (renumber_epoch_zero_flight rs (next + 1)) as [rs' next'].
    destruct IH as (Hs & Hb & Hm & Hk). rewrite len_cons. split_and!; [|lia|lia| |].
    + unfold epoch_zero_sequences in *. cbn [List.filter set_sequence rec_header rec_epoch].
      rewrite E. cbn [Z.eqb map rec_header sequence_number]. rewrite Hs.
      rewrite (seqZ_cons next (next' - next)) by lia.
      do 2 f_equal; unfold Z.succ, Z.pred; lia.
    + cbn [map]. rewrite Hm. by destruct r as [[] ?].
    + intros [|i] r' Hi Hne; simpl in *; [by simplify_eq|eauto].
  - specialize (IH next H0 ltac:(lia)).
    destruct (renumber_epoch_zero_flight rs next) as [rs' next'].
    destruct IH as (Hs & Hb & Hm & Hk). rewrite len_cons. split_and!; [|lia|lia| |].
    + unfold epoch_zero_sequences in *. cbn [List.filter].
      by rewrite (proj2 (Z.eqb_neq _ _)) by done.
    + cbn [map]. by rewrite Hm.
    + intros [|i] r' Hi Hne; simpl in *; [by simplify_eq|eauto].
Qed.

Lemma renumber_flight_fresh_witness :
  let r e s := mkDtlsRecord (mkRecordHeader CtHandshake DTLS_1_2_VERSION e s 0) [] in
  epoch_zero_sequences (renumber_epoch_zero_flight [r 0 0; r 1 9; r 0 1] 5).1 = [5; 6].
Proof.
  intros r. exact (proj1 (renumber_flight_fresh [r 0 0; r 1 9; r 0 1] 5 ltac:(lia) ltac:(vm_compute; reflexivity))).
Defined.
