(* ===== verification/Handshake.v ===== *)
(** * Handshake: DTLS handshake messages

    The model of crates/meshcop-dtls/src/handshake.rs and of
    [is_client_finished_flight] in flight.rs: fragment headers, fragmentation
    and reassembly, the canonical transcript form and the parsers of
    unfragmented messages.  [HandshakeReassembler] is a state record; a push
    returns the new state with its result, also when it fails part-way. *)
From S2P Require Import Prelude Text Tlv Errors Record.

Inductive HandshakeType :=
  | HelloRequest | HtClientHello | HtServerHello | HtHelloVerifyRequest | Certificate
  | ServerKeyExchange | CertificateRequest | ServerHelloDone | CertificateVerify
  | ClientKeyExchange | Finished.

#[global] Instance HandshakeType_eq_dec : EqDecision HandshakeType.
Proof. solve_decision. Defined.

Definition HandshakeType_as_u8 (t : HandshakeType) : Z :=
  match t with
  | HelloRequest => 0 | HtClientHello => 1 | HtServerHello => 2 | HtHelloVerifyRequest => 3
  | Certificate => 11 | ServerKeyExchange => 12 | CertificateRequest => 13 | ServerHelloDone => 14
  | CertificateVerify => 15 | ClientKeyExchange => 16 | Finished => 20
  end.

Definition HandshakeType_try_from (v : Z) : result DtlsError HandshakeType :=
  match v with
  | 0 => Ok HelloRequest
  | 1 => Ok HtClientHello
  | 2 => Ok HtServerHello
  | 3 => Ok HtHelloVerifyRequest
  | 11 => Ok Certificate
  | 12 => Ok ServerKeyExchange
  | 13 => Ok CertificateRequest
  | 14 => Ok ServerHelloDone
  | 15 => Ok CertificateVerify
  | 16 => Ok ClientKeyExchange
  | 20 => Ok Finished
  | _ => Err (DCrypto "unknown DTLS handshake type")
  end.

Record HandshakeHeader := mkHandshakeHeader {
  hs_type : HandshakeType;
  hs_length : Z;
  hs_seq : Z;
  fragment_offset : Z;
  fragment_length : Z }.

Definition HANDSHAKE_LEN : Z := 12.

Definition HandshakeHeader_validate (self : HandshakeHeader) : result DtlsError unit :=
  if (hs_length self >? MAX_U24) || (fragment_offset self >? MAX_U24)
     || (fragment_length self >? MAX_U24)
  then Err (DCrypto "DTLS handshake length exceeds 24-bit field")
  else
    let! sum := add_or_panic 32 (fragment_offset self) (fragment_length self) in
    if sum >? hs_length self then Err (DCrypto "DTLS handshake fragment exceeds message length")
    else Ok tt.

Definition HandshakeHeader_parse (bs : bytes) : result DtlsError HandshakeHeader :=
  if len bs <? HANDSHAKE_LEN then Err (DCrypto "DTLS handshake header is truncated")
  else
    let! b0 := idx bs 0 in
    let! message_type := HandshakeType_try_from b0 in
    let! s := slice bs 1 4 in
    let! length := read_u24 s in
    let! b4 := idx bs 4 in
    let! b5 := idx bs 5 in
    let! s := slice bs 6 9 in
    let! offset := read_u24 s in
    let! s := slice bs 9 12 in
    let! flen := read_u24 s in
    let header := mkHandshakeHeader message_type length (from_be [b4; b5]) offset flen in
    let! _ := HandshakeHeader_validate header in
    Ok header.

Definition HandshakeHeader_encode (self : HandshakeHeader) : result DtlsError bytes :=
  let! _ := HandshakeHeader_validate self in
  let! l := write_u24 (hs_length self) [0; 0; 0] in
  let! o := write_u24 (fragment_offset self) [0; 0; 0] in
  let! f := write_u24 (fragment_length self) [0; 0; 0] in
  Ok ([HandshakeType_as_u8 (hs_type self)] ++ l ++ to_be 2 (hs_seq self) ++ o ++ f).

Record HandshakeFragment := mkHandshakeFragment { hs_header : HandshakeHeader; fragment : bytes }.

Definition HandshakeFragment_parse (bs : bytes) : result DtlsError HandshakeFragment :=
  let! header := HandshakeHeader_parse bs in
  let! end_ := ok_or (checked_add usize_bits HANDSHAKE_LEN (fragment_length header))
                 (DCrypto "DTLS handshake fragment length overflow") in
  if len bs <? end_ then Err (DCrypto "DTLS handshake fragment is truncated")
  else let! f := slice bs HANDSHAKE_LEN end_ in Ok (mkHandshakeFragment header f).

Definition HandshakeFragment_encode (self : HandshakeFragment) : result DtlsError bytes :=
  if negb (len (fragment self) =? fragment_length (hs_header self))
  then Err (DCrypto "DTLS handshake fragment header length does not match payload")
  else let! h := HandshakeHeader_encode (hs_header self) in Ok (h ++ fragment self).

Record HandshakeMessage := mkHandshakeMessage {
  message_type : HandshakeType;
  message_seq : Z;
  hs_payload : bytes }.

#[global] Instance HandshakeMessage_eq_dec : EqDecision HandshakeMessage.
Proof. solve_decision. Defined.

(** [{:?}] of a message type. *)
Definition HandshakeType_debug (t : HandshakeType) : string :=
  match t with
  | HelloRequest => "HelloRequest" | HtClientHello => "ClientHello" | HtServerHello => "ServerHello"
  | HtHelloVerifyRequest => "HelloVerifyRequest" | Certificate => "Certificate"
  | ServerKeyExchange => "ServerKeyExchange" | CertificateRequest => "CertificateRequest"
  | ServerHelloDone => "ServerHelloDone" | CertificateVerify => "CertificateVerify"
  | ClientKeyExchange => "ClientKeyExchange" | Finished => "Finished"
  end.

(** The loop of [HandshakeMessage::fragment] over the enumerated chunks. *)
Fixpoint fragment_loop (self : HandshakeMessage) (max total_len i : Z) (chunks : list bytes)
    : result DtlsError (list HandshakeFragment) :=
  match chunks with
  | [] => Ok []
  | c :: chunks' =>
      let! offset := ok_or (checked_mul usize_bits i max) (DCrypto "fragment offset overflow") in
      let! rest := fragment_loop self max total_len (i + 1) chunks' in
      Ok (mkHandshakeFragment
            (mkHandshakeHeader (message_type self) total_len (message_seq self) (wrap 32 offset)
               (wrap 32 (len c))) c :: rest)
  end.

Definition HandshakeMessage_fragment (self : HandshakeMessage) (max_fragment_len : Z)
    : result DtlsError (list HandshakeFragment) :=
  if max_fragment_len =? 0
  then Err (DCrypto "maximum handshake fragment length must be nonzero")
  else if len (hs_payload self) >? MAX_U24
  then Err (DCrypto "DTLS handshake message exceeds 24-bit length")
  else
    let total_len := wrap 32 (len (hs_payload self)) in
    let! fragments := fragment_loop self max_fragment_len total_len 0
                        (chunks max_fragment_len (hs_payload self)) in
    if is_empty fragments
    then Ok [mkHandshakeFragment
               (mkHandshakeHeader (message_type self) 0 (message_seq self) 0 0) []]
    else Ok fragments.

Definition HandshakeMessage_encode (self : HandshakeMessage) : result DtlsError bytes :=
  let! fragments := HandshakeMessage_fragment self (Z.max (len (hs_payload self)) 1) in
  let! first := ok_or (head fragments) (DCrypto "missing handshake fragment") in
  HandshakeFragment_encode first.

Definition transcript_bytes (self : HandshakeMessage) : result DtlsError bytes :=
  let! l := if len (hs_payload self) <? 2 ^ 32 then Ok (len (hs_payload self))
            else Err (DCrypto "DTLS handshake message exceeds 24-bit length") in
  let header := mkHandshakeHeader (message_type self) l (message_seq self) 0 l in
  let! h := HandshakeHeader_encode header in
  Ok (h ++ hs_payload self).

Inductive FinishedRole := RoleClient | RoleServer.

(** [HandshakeTranscript] is its bytes; [push] leaves them alone on failure. *)
Definition HandshakeTranscript := bytes.
Definition HandshakeTranscript_new : HandshakeTranscript := [].
Definition HandshakeTranscript_push (self : HandshakeTranscript) (m : HandshakeMessage)
    : HandshakeTranscript * result DtlsError unit :=
  match transcript_bytes m with
  | Ok b => (self ++ b, Ok tt)
  | Err e => (self, Err e)
  | Panic f => (self, Panic f)
  end.

Definition parse_unfragmented_handshake_record (record : DtlsRecord) (expected_type : HandshakeType)
    : result DtlsError HandshakeMessage :=
  if negb (bool_decide (content_type (rec_header record) = CtHandshake))
  then Err (DCrypto "DTLS record is not a handshake record")
  else
    let! f := HandshakeFragment_parse (rec_payload record) in
    let consumed := HANDSHAKE_LEN + len (fragment f) in
    if negb (consumed =? len (rec_payload record))
    then Err (DCrypto "DTLS record contains trailing handshake bytes")
    else if negb (bool_decide (hs_type (hs_header f) = expected_type))
    then Err (DCrypto "unexpected DTLS handshake type")
    else if negb (fragment_offset (hs_header f) =? 0)
            || negb (fragment_length (hs_header f) =? hs_length (hs_header f))
    then Err (DCrypto "DTLS handshake message is fragmented")
    else Ok (mkHandshakeMessage (hs_type (hs_header f)) (hs_seq (hs_header f)) (fragment f)).

(** One turn of the loop of [parse_unfragmented_handshake_messages]. *)
Definition parse_unfragmented_step (bs : bytes) : result DtlsError (HandshakeMessage * bytes) :=
  let! f := HandshakeFragment_parse bs in
  if negb (fragment_offset (hs_header f) =? 0)
     || negb (fragment_length (hs_header f) =? hs_length (hs_header f))
  then Err (DCrypto "DTLS handshake message is fragmented")
  else
    let! consumed := ok_or (checked_add usize_bits HANDSHAKE_LEN (len (fragment f)))
                       (DCrypto "DTLS handshake message length overflow") in
    let! rest := slice_from bs consumed in
    Ok (mkHandshakeMessage (hs_type (hs_header f)) (hs_seq (hs_header f)) (fragment f), rest).

Definition parse_unfragmented_handshake_messages (record : DtlsRecord)
    : result DtlsError (list HandshakeMessage) :=
  if negb (bool_decide (content_type (rec_header record) = CtHandshake))
  then Err (DCrypto "DTLS record is not a handshake record")
  else many parse_unfragmented_step (rec_payload record).

(** [is_client_finished_flight] (flight.rs). *)
Definition is_client_finished_record (record : DtlsRecord) : bool :=
  if (rec_epoch (rec_header record) =? 0) && bool_decide (content_type (rec_header record) = CtHandshake)
  then match parse_unfragmented_handshake_messages record with
       | Ok messages => existsb (fun m => bool_decide (message_type m = ClientKeyExchange)) messages
       | _ => false
       end
  else (rec_epoch (rec_header record) =? 1) && bool_decide (content_type (rec_header record) = CtHandshake).
Definition is_client_finished_flight (records : list DtlsRecord) : bool :=
  existsb is_client_finished_record records.

(** ** Reassembly *)

Definition MAX_HANDSHAKE_MESSAGE_LEN : Z := 64 * 1024.

Record HandshakeReassembler := mkHandshakeReassembler {
  ra_type : option HandshakeType;
  ra_seq : option Z;
  ra_bytes : bytes;
  ra_filled : list bool }.

Definition HandshakeReassembler_default : HandshakeReassembler :=
  mkHandshakeReassembler None None [] [].

Definition initialize_or_validate (self : HandshakeReassembler) (header : HandshakeHeader)
    : HandshakeReassembler * result DtlsError unit :=
  match ra_type self, ra_seq self with
  | None, None =>
      if hs_length header >? MAX_HANDSHAKE_MESSAGE_LEN
      then (self, Err (DCrypto ("DTLS handshake message length " +:+ dec (hs_length header)
                        +:+ " exceeds the " +:+ dec MAX_HANDSHAKE_MESSAGE_LEN +:+ "-byte limit")))
      else (mkHandshakeReassembler (Some (hs_type header)) (Some (hs_seq header))
              (repeat 0 (Z.to_nat (hs_length header)))
              (repeat false (Z.to_nat (hs_length header))), Ok tt)
  | Some t, Some s =>
      if bool_decide (t = hs_type header) && (s =? hs_seq header)
         && (len (ra_bytes self) =? hs_length header)
      then (self, Ok tt)
      else (self, Err (DCrypto "DTLS handshake fragment metadata mismatch"))
  | _, _ => (self, Err (DCrypto "DTLS handshake fragment metadata mismatch"))
  end.

(** The byte loop of [push], from [position]. *)
Fixpoint push_bytes (position : nat) (bs : bytes) (self : HandshakeReassembler)
    : HandshakeReassembler * result DtlsError unit :=
  match bs with
  | [] => (self, Ok tt)
  | byte :: bs' =>
      match ra_filled self !! position, ra_bytes self !! position with
      | Some filled, Some old =>
          if filled && negb (old =? byte)
          then (self, Err (DCrypto "DTLS handshake fragment overlaps with different data"))
          else push_bytes (S position) bs'
                 (mkHandshakeReassembler (ra_type self) (ra_seq self)
                    (<[position := byte]> (ra_bytes self)) (<[position := true]> (ra_filled self)))
      | _, _ => (self, Panic OutOfBounds)
      end
  end.

Definition HandshakeReassembler_push (self : HandshakeReassembler) (f : HandshakeFragment)
    : HandshakeReassembler * result DtlsError (option HandshakeMessage) :=
  match initialize_or_validate self (hs_header f) with
  | (self, Ok _) =>
      let start := fragment_offset (hs_header f) in
      let end_ := start + len (fragment f) in
      if end_ >? len (ra_bytes self)
      then (self, Err (DCrypto "DTLS handshake fragment exceeds message length"))
      else
        match push_bytes (Z.to_nat start) (fragment f) self with
        | (self, Ok _) =>
            (self,
             if forallb id (ra_filled self) then
               let! t := ok_or (ra_type self) (DCrypto "missing handshake type") in
               let! s := ok_or (ra_seq self) (DCrypto "missing handshake sequence") in
               Ok (Some (mkHandshakeMessage t s (ra_bytes self)))
             else Ok None)
        | (self, Err e) => (self, Err e)
        | (self, Panic p) => (self, Panic p)
        end
  | (self, Err e) => (self, Err e)
  | (self, Panic p) => (self, Panic p)
  end.

(** ** Headers and fragments *)

Definition hs_header_wf (h : HandshakeHeader) : Prop :=
  uint 24 (hs_length h) /\ is_u16 (hs_seq h) /\ 0 <= fragment_offset h /\ 0 <= fragment_length h /\
  fragment_offset h + fragment_length h <= hs_length h.

Definition hs_header_bytes (h : HandshakeHeader) : bytes :=
  [HandshakeType_as_u8 (hs_type h)] ++ to_be 3 (hs_length h) ++ to_be 2 (hs_seq h)
  ++ to_be 3 (fragment_offset h) ++ to_be 3 (fragment_length h).

Lemma len_hs_header_bytes h : len (hs_header_bytes h) = 12.
Proof. unfold hs_header_bytes. by rewrite !len_app, !len_to_be. Qed.

Lemma hs_header_bytes_ok h : bytes_ok (hs_header_bytes h).
Proof.
  unfold hs_header_bytes. rewrite !Forall_app. split_and!; auto using to_be_ok.
  destruct (hs_type h); by_decide.
Qed.

Lemma hs_header_u24 h : hs_header_wf h ->
  uint 24 (hs_length h) /\ uint 24 (fragment_offset h) /\ uint 24 (fragment_length h).
Proof. intros (? & ? & ? & ? & ?). unfold uint in *. lia. Qed.

Lemma validate_ok h : hs_header_wf h -> HandshakeHeader_validate h = Ok tt.
Proof.
  intros Hw. pose proof (hs_header_u24 h Hw) as ([? ?] & [? ?] & [? ?]). destruct Hw as (_ & _ & _ & _ & ?).
  unfold HandshakeHeader_validate, MAX_U24, add_or_panic. rewrite !Z.gtb_ltb.
  rewrite !(proj2 (Z.ltb_ge _ _)) by lia. cbn [orb]. rewrite (proj2 (Z.ltb_lt _ _)) by lia. cbn [rbind].
  rewrite Z.gtb_ltb. by rewrite (proj2 (Z.ltb_ge _ _)) by lia.
Qed.

Lemma validate_inv h :
  HandshakeHeader_validate h = Ok tt -> fragment_offset h + fragment_length h <= hs_length h.
Proof.
  unfold HandshakeHeader_validate, add_or_panic. rewrite !Z.gtb_ltb. intros H. inv_ok.
  match goal with H : (_ >? _) = false |- _ => rewrite Z.gtb_ltb in H; zbool end. lia.
Qed.

Lemma HandshakeHeader_encode_ok h :
  hs_header_wf h -> HandshakeHeader_encode h = Ok (hs_header_bytes h).
Proof.
  intros Hw. pose proof (hs_header_u24 h Hw) as (? & ? & ?). unfold HandshakeHeader_encode.
  rewrite validate_ok by done. cbn [rbind]. by rewrite !write_u24_be by done.
Qed.

Lemma HandshakeType_roundtrip t : HandshakeType_try_from (HandshakeType_as_u8 t) = Ok t.
Proof. by destruct t. Qed.
Lemma HandshakeType_try_from_inv v t : HandshakeType_try_from v = Ok t -> v = HandshakeType_as_u8 t.
Proof. unfold HandshakeType_try_from. repeat case_match; naive_solver. Qed.
Lemma HandshakeType_try_from_safe v : safe (HandshakeType_try_from v).
Proof. unfold HandshakeType_try_from. by repeat case_match. Qed.

Lemma read_u24_whole x : uint 24 x -> read_u24 (to_be 3 x) = Ok x.
Proof. intros. rewrite <- (app_nil_r (to_be 3 x)). by apply read_u24_be. Qed.

Lemma slice_at {E A} (p l r : list A) a b :
  len p = a -> a + len l = b -> @slice E A (p ++ l ++ r) a b = Ok l.
Proof. intros <- <-. apply slice_prefix. Qed.

Lemma HandshakeHeader_parse_bytes h rest :
  hs_header_wf h -> HandshakeHeader_parse (hs_header_bytes h ++ rest) = Ok h.
Proof.
  intros Hw. pose proof (hs_header_u24 h Hw) as (? & ? & ?). pose proof Hw as (_ & Hs & _).
  unfold HandshakeHeader_parse. pose proof (len_nonneg rest).
  rewrite (proj2 (Z.ltb_ge _ _)) by (rewrite len_app, len_hs_header_bytes; unfold HANDSHAKE_LEN; lia).
  set (t := [HandshakeType_as_u8 (hs_type h)]). set (l := to_be 3 (hs_length h)).
  set (s := to_be 2 (hs_seq h)). set (o := to_be 3 (fragment_offset h)). set (f := to_be 3 (fragment_length h)).
  assert (hs_header_bytes h ++ rest = t ++ l ++ s ++ o ++ f ++ rest) as E
    by (unfold hs_header_bytes; by rewrite <- !(assoc_L (++))).
  rewrite E at 1. cbn [app t]. erewrite idx_Some by done. cbn [rbind]. rewrite HandshakeType_roundtrip. cbn [rbind].
  assert (len l = 3 /\ len s = 2 /\ len o = 3 /\ len f = 3) as (Hl & Hls & Hlo & Hlf)
    by (unfold l, s, o, f; by rewrite !len_to_be).
  rewrite E at 1. rewrite (slice_at t l) by (done || lia). cbn [rbind].
  unfold l at 1. rewrite read_u24_whole by done. cbn [rbind].
  assert (exists s0 s1, s = [s0; s1] /\ from_be [s0; s1] = hs_seq h) as (s0 & s1 & Es & Fs).
  { pose proof (from_to_be_small 2 _ Hs). unfold s in *. cbn [to_be] in *. eauto. }
  assert (forall i x, (t ++ l ++ s) !! Z.to_nat i = Some x -> @idx DtlsError Z (hs_header_bytes h ++ rest) i = Ok x) as Hi.
  { intros i x Hx. apply idx_Some. rewrite E, !(assoc_L (++)), <- (assoc_L (++) t).
    rewrite <- !(assoc_L (++) (t ++ l ++ s)). by apply lookup_app_l_Some. }
  rewrite (Hi 4 s0), (Hi 5 s1) by (rewrite Es; unfold l; done). cbn [rbind].
  rewrite E. rewrite (assoc_L (++) l), (assoc_L (++) t).
  rewrite (slice_at (t ++ l ++ s) o) by (rewrite ?len_app, ?Hl, ?Hls, ?Hlo; done). cbn [rbind].
  unfold o at 1. rewrite read_u24_whole by done. cbn [rbind]. rewrite (assoc_L (++) _ o).
  rewrite (slice_at ((t ++ l ++ s) ++ o) f) by (rewrite ?len_app, ?Hl, ?Hls, ?Hlo, ?Hlf; done). cbn [rbind].
  unfold f at 1. rewrite read_u24_whole by done. cbn [rbind]. rewrite Fs.
  replace (mkHandshakeHeader _ _ _ _ _) with h by by destruct h. by rewrite validate_ok.
Qed.

Lemma read_u24_list b0 b1 b2 :
  is_u8 b1 -> is_u8 b2 -> read_u24 [b0; b1; b2] = Ok (from_be [b0; b1; b2]).
Proof. intros. unfold read_u24. eval_idx. by rewrite read_be3. Qed.

Lemma to_be3_triple a b c : is_u8 a -> is_u8 b -> is_u8 c -> to_be 3 (from_be [a; b; c]) = [a; b; c].
Proof. intros. apply (to_be_from_be [a; b; c]). by repeat apply Forall_cons_2. Qed.

Lemma uint24_triple a b c : is_u8 a -> is_u8 b -> is_u8 c -> uint 24 (from_be [a; b; c]).
Proof. intros. apply (from_be_bound [a; b; c]). by repeat apply Forall_cons_2. Qed.

Lemma HandshakeHeader_parse_inv bs h :
  bytes_ok bs -> HandshakeHeader_parse bs = Ok h ->
  hs_header_wf h /\ exists rest, bs = hs_header_bytes h ++ rest /\ bytes_ok rest.
Proof.
  intros Hok H. unfold HandshakeHeader_parse, HANDSHAKE_LEN in H.
  destruct (len bs <? 12) eqn:El; [done|]; zbool.
  do 12 (destruct bs as [|?b bs]; [unfold len in El; simpl in El; lia|]).
  rewrite !Forall_cons in Hok. destruct Hok as (? & ? & ? & ? & ? & ? & ? & ? & ? & ? & ? & ? & Hbs).
  pose proof (len_nonneg bs).
  do 3 (rewrite slice_ok in H by (rewrite ?len_cons; lia)).
  change (take (Z.to_nat (4 - 1)) _) with [b0; b1; b2] in H.
  change (take (Z.to_nat (9 - 6)) _) with [b5; b6; b7] in H.
  change (take (Z.to_nat (12 - 9)) _) with [b8; b9; b10] in H.
  eval_idx_in H. apply rbind_ok in H as (t & Ht%HandshakeType_try_from_inv & H).
  cbn [rbind] in H.
  rewrite !read_u24_list in H by done. cbn [rbind] in H. eval_idx_in H.
  apply rbind_ok in H as ([] & Hv%validate_inv & H). injection H as <-.
  cbn [fragment_offset fragment_length hs_length] in Hv.
  pose proof (uint24_triple b0 b1 b2) as [? ?]; [done..|].
  pose proof (uint24_triple b5 b6 b7) as [? ?]; [done..|].
  pose proof (uint24_triple b8 b9 b10) as [? ?]; [done..|].
  split.
  - unfold hs_header_wf; cbn [fragment_offset fragment_length hs_length hs_seq].
    split; [done|]. split; [by apply uint16_pair|]. lia.
  - exists bs. split; [|done]. unfold hs_header_bytes.
    cbn [fragment_offset fragment_length hs_length hs_seq hs_type].
    rewrite to_be2_pair, !to_be3_triple, <- Ht by done. done.
Qed.

Lemma HandshakeHeader_parse_safe bs : bytes_ok bs -> safe (HandshakeHeader_parse bs).
Proof.
  intros Hok. unfold HandshakeHeader_parse, HANDSHAKE_LEN.
  destruct (len bs <? 12) eqn:El; [done|]; zbool.
  do 12 (destruct bs as [|?b bs]; [unfold len in El; simpl in El; lia|]).
  rewrite !Forall_cons in Hok. destruct Hok as (? & ? & ? & ? & ? & ? & ? & ? & ? & ? & ? & ? & Hbs).
  pose proof (len_nonneg bs). do 3 (rewrite slice_ok by (rewrite ?len_cons; lia)).
  change (take (Z.to_nat (4 - 1)) _) with [b0; b1; b2].
  change (take (Z.to_nat (9 - 6)) _) with [b5; b6; b7].
  change (take (Z.to_nat (12 - 9)) _) with [b8; b9; b10].
  eval_idx. apply safe_bind; [apply HandshakeType_try_from_safe|intros t _].
  cbn [rbind]. rewrite !read_u24_list by done. cbn [rbind]. eval_idx.
  pose proof (uint24_triple b5 b6 b7) as [? ?]; [done..|].
  pose proof (uint24_triple b8 b9 b10) as [? ?]; [done..|].
  apply safe_bind; [|done]. unfold HandshakeHeader_validate, add_or_panic.
  cbn [fragment_offset fragment_length hs_length]. case_match; [done|].
  rewrite (proj2 (Z.ltb_lt _ _)) by lia. cbn [rbind]. by case_match.
Qed.

Lemma HandshakeFragment_parse_bytes h f rest :
  hs_header_wf h -> len f = fragment_length h ->
  HandshakeFragment_parse (hs_header_bytes h ++ f ++ rest) = Ok (mkHandshakeFragment h f).
Proof.
  intros Hw Hl. unfold HandshakeFragment_parse. rewrite HandshakeHeader_parse_bytes by done. cbn [rbind].
  pose proof (hs_header_u24 h Hw) as (_ & _ & [? ?]). pose proof (len_nonneg rest).
  unfold HANDSHAKE_LEN. rewrite checked_add_usize by lia. cbn [ok_or rbind].
  rewrite (proj2 (Z.ltb_ge _ _)) by (rewrite !len_app, len_hs_header_bytes; lia).
  by rewrite (slice_at (hs_header_bytes h) f) by (rewrite ?len_hs_header_bytes; lia).
Qed.

Lemma HandshakeFragment_parse_inv bs f :
  bytes_ok bs -> HandshakeFragment_parse bs = Ok f ->
  hs_header_wf (hs_header f) /\ len (fragment f) = fragment_length (hs_header f) /\
  bytes_ok (fragment f) /\
  exists rest, bs = hs_header_bytes (hs_header f) ++ fragment f ++ rest /\ bytes_ok rest.
Proof.
  intros Hok H. unfold HandshakeFragment_parse, HANDSHAKE_LEN in H. apply rbind_ok in H as (h & Hh & H).
  apply HandshakeHeader_parse_inv in Hh as (Hw & tl & -> & Htl); [|done].
  pose proof (hs_header_u24 h Hw) as (_ & _ & [? ?]).
  rewrite checked_add_usize in H by lia. cbn [ok_or rbind] in H.
  destruct (len _ <? _) eqn:El in H; [done|]; zbool.
  rewrite len_app, len_hs_header_bytes in El.
  assert (tl = take (Z.to_nat (fragment_length h)) tl ++ drop (Z.to_nat (fragment_length h)) tl) as E
    by by rewrite take_drop.
  rewrite E, (slice_at (hs_header_bytes h)) in H by (rewrite ?len_hs_header_bytes, ?len_take; lia).
  cbn [rbind] in H. injection H as <-. cbn [hs_header fragment]. rewrite len_take by lia.
  split_and!; [apply Hw..|done|by apply Forall_take|]. exists (drop (Z.to_nat (fragment_length h)) tl).
  rewrite take_drop. split; [done|by apply Forall_drop].
Qed.

Lemma HandshakeFragment_parse_safe bs : bytes_ok bs -> safe (HandshakeFragment_parse bs).
Proof.
  intros Hok. unfold HandshakeFragment_parse. apply safe_bind; [by apply HandshakeHeader_parse_safe|].
  intros h Hh. apply HandshakeHeader_parse_inv in Hh as (Hw & _); [|done].
  pose proof (hs_header_u24 h Hw) as (_ & _ & [? ?]). unfold HANDSHAKE_LEN.
  rewrite checked_add_usize by lia. cbn [ok_or rbind]. safe_auto.
Qed.

(** ** Whole messages *)

Definition msg_wf (m : HandshakeMessage) : Prop :=
  is_u16 (message_seq m) /\ bytes_ok (hs_payload m) /\ len (hs_payload m) <= MAX_U24.

#[global] Instance msg_wf_dec m : Decision (msg_wf m).
Proof. unfold msg_wf. apply _. Defined.

(** The header of a message sent as a single fragment. *)
Definition whole_header (m : HandshakeMessage) : HandshakeHeader :=
  mkHandshakeHeader (message_type m) (len (hs_payload m)) (message_seq m) 0 (len (hs_payload m)).

Definition msg_bytes (m : HandshakeMessage) : bytes := hs_header_bytes (whole_header m) ++ hs_payload m.

Lemma whole_header_wf m : msg_wf m -> hs_header_wf (whole_header m).
Proof.
  intros (Hs & _ & Hl). pose proof (len_nonneg (hs_payload m)). unfold MAX_U24 in *.
  unfold hs_header_wf, whole_header, uint in *; simpl. lia.
Qed.

Lemma len_msg_bytes m : len (msg_bytes m) = 12 + len (hs_payload m).
Proof. unfold msg_bytes. by rewrite len_app, len_hs_header_bytes. Qed.

Lemma msg_bytes_ok m : bytes_ok (hs_payload m) -> bytes_ok (msg_bytes m).
Proof. intros. apply Forall_app. split; [apply hs_header_bytes_ok|done]. Qed.

Lemma transcript_bytes_ok m : msg_wf m -> transcript_bytes m = Ok (msg_bytes m).
Proof.
  intros Hm. pose proof Hm as (_ & _ & Hl). unfold MAX_U24 in Hl. unfold transcript_bytes.
  rewrite (proj2 (Z.ltb_lt _ _)) by lia. cbn [rbind].
  change (mkHandshakeHeader _ _ _ _ _) with (whole_header m).
  by rewrite HandshakeHeader_encode_ok by by apply whole_header_wf.
Qed.

Lemma chunks_whole {A} n (l : list A) : l <> [] -> len l <= n -> chunks n l = [l].
Proof.
  intros Hne Hl. unfold chunks. destruct l as [|x l]; [done|]. cbn [length chunks_fuel].
  unfold len in Hl. rewrite take_ge, drop_ge by (simpl in *; lia). by destruct (length l).
Qed.

Lemma HandshakeMessage_encode_ok m : msg_wf m -> HandshakeMessage_encode m = Ok (msg_bytes m).
Proof.
  intros Hm. pose proof Hm as (_ & _ & Hl). pose proof (len_nonneg (hs_payload m)).
  unfold HandshakeMessage_encode, HandshakeMessage_fragment, MAX_U24 in *.
  rewrite (proj2 (Z.eqb_neq _ _)), Z.gtb_ltb, (proj2 (Z.ltb_ge _ _)) by lia.
  assert (forall f, hs_header f = whole_header m -> fragment f = hs_payload m ->
    HandshakeFragment_encode f = Ok (msg_bytes m)) as Henc.
  { intros f Hh Hf. unfold HandshakeFragment_encode. rewrite Hh, Hf. cbn [whole_header fragment_length].
    rewrite Z.eqb_refl. cbn [negb]. by rewrite HandshakeHeader_encode_ok by by apply whole_header_wf. }
  destruct (decide (hs_payload m = [])) as [E|Hne].
  - rewrite E. apply Henc; [|done]. unfold whole_header. by rewrite E.
  - rewrite chunks_whole by (done || lia). cbn [fragment_loop].
    replace (checked_mul usize_bits 0 _) with (Some 0) by done. cbn [ok_or rbind is_empty head].
    rewrite !wrap_small by (unfold uint; lia). by apply Henc.
Qed.

Lemma parse_unfragmented_step_bytes m rest :
  msg_wf m -> parse_unfragmented_step (msg_bytes m ++ rest) = Ok (m, rest).
Proof.
  intros Hm. unfold parse_unfragmented_step, msg_bytes. rewrite <- (assoc_L (++)).
  rewrite HandshakeFragment_parse_bytes by (done || by apply whole_header_wf).
  destruct Hm as (_ & _ & Hl). pose proof (len_nonneg (hs_payload m)).
  unfold HANDSHAKE_LEN, MAX_U24 in *. rewrite (assoc_L (++)). fold (msg_bytes m).
  cbn [rbind hs_header fragment]. rewrite checked_add_usize by lia. cbn [ok_or rbind].
  rewrite <- len_msg_bytes, slice_from_prefix. cbn [rbind].
  replace (_ || _) with false by (cbn; by rewrite Z.eqb_refl). by destruct m.
Qed.

Lemma parse_unfragmented_step_inv bs m rest :
  bytes_ok bs -> parse_unfragmented_step bs = Ok (m, rest) ->
  bs = msg_bytes m ++ rest /\ msg_wf m /\ bytes_ok rest.
Proof.
  intros Hok H. unfold parse_unfragmented_step in H. apply rbind_ok in H as (f & Hf & H).
  apply HandshakeFragment_parse_inv in Hf as (Hw & Hl & Hfo & tl & -> & Htl); [|done].
  destruct (_ || _) eqn:Eo in H; [done|]. zbool.
  apply rbind_ok in H as (c & Hc%ok_or_ok%checked_add_inv & H). apply rbind_ok in H as (r & Hr & H).
  injection H as <- <-. subst c. destruct f as [[t l s o fl] frag].
  cbn [hs_header fragment fragment_offset fragment_length hs_length hs_type hs_seq] in *. subst.
  set (m' := mkHandshakeMessage t s frag). change (mkHandshakeHeader _ _ _ _ _) with (whole_header m') in *.
  pose proof (hs_header_u24 _ Hw) as ([_ Hlt] & _). destruct Hw as (_ & Hs & _).
  rewrite (assoc_L (++)) in *. change (hs_header_bytes (whole_header m') ++ frag) with (msg_bytes m') in *.
  unfold HANDSHAKE_LEN in Hr. change (len frag) with (len (hs_payload m')) in Hr. rewrite <- len_msg_bytes, slice_from_prefix in Hr. injection Hr as <-.
  split; [done|]. split; [|done]. split; [done|]. split; [done|]. unfold MAX_U24.
  cbn [whole_header hs_length] in Hlt. lia.
Qed.

Lemma parse_unfragmented_consumes : consumes parse_unfragmented_step.
Proof.
  intros bs m rest H. unfold parse_unfragmented_step, HANDSHAKE_LEN in H. inv_ok.
  match goal with H : checked_add _ _ _ = Some _ |- _ => apply checked_add_inv in H as -> end.
  match goal with H : slice_from _ _ = Ok _ |- _ => apply slice_from_inv in H as (? & ? & ?) end.
  pose proof (len_nonneg (fragment x)). lia.
Qed.

(** ** Reassembly *)

(** [f] is a piece of [m]: right metadata, and the bytes of [m] at its offset. *)
Definition piece_of (m : HandshakeMessage) (f : HandshakeFragment) : Prop :=
  hs_type (hs_header f) = message_type m /\ hs_seq (hs_header f) = message_seq m /\
  hs_length (hs_header f) = len (hs_payload m) /\ 0 <= fragment_offset (hs_header f) /\
  fragment_offset (hs_header f) + len (fragment f) <= len (hs_payload m) /\
  forall i, (i < length (fragment f))%nat ->
    fragment f !! i = hs_payload m !! (Z.to_nat (fragment_offset (hs_header f)) + i)%nat.

(** Position [p] of the message lies in [f]. *)
Definition covers (f : HandshakeFragment) (p : nat) : Prop :=
  (Z.to_nat (fragment_offset (hs_header f)) <= p <
   Z.to_nat (fragment_offset (hs_header f)) + length (fragment f))%nat.

Definition covered (l : list HandshakeFragment) (p : nat) : Prop := exists f, f ∈ l /\ covers f p.

(** What the reassembler knows after the pieces [l] of [m]. *)
Record reassembles (m : HandshakeMessage) (filled : nat -> Prop) (st : HandshakeReassembler) : Prop := {
  ra_type_ok : ra_type st = Some (message_type m);
  ra_seq_ok : ra_seq st = Some (message_seq m);
  ra_len_ok : length (ra_bytes st) = length (hs_payload m);
  ra_filled_len_ok : length (ra_filled st) = length (hs_payload m);
  ra_filled_ok : forall p, ra_filled st !! p = Some true <-> (p < length (hs_payload m))%nat /\ filled p;
  ra_agree : forall p, ra_filled st !! p = Some true -> ra_bytes st !! p = hs_payload m !! p }.

Lemma push_bytes_ok m filled bs pos st :
  reassembles m filled st -> (pos + length bs <= length (hs_payload m))%nat ->
  (forall i, (i < length bs)%nat -> bs !! i = hs_payload m !! (pos + i)%nat) ->
  exists st', push_bytes pos bs st = (st', Ok tt) /\
    reassembles m (fun p => filled p \/ (pos <= p < pos + length bs)%nat) st'.
Proof.
  revert filled pos st. induction bs as [|b bs IH]; intros filled pos st [Ht Hs Hl Hfl Hf Ha] Hb Hc.
  { exists st. split; [done|]. constructor; try done. intros p. rewrite Hf. simpl.
    split; intros [? H]; (split; [done|]); [by left|]. destruct H; [done|lia]. }
  cbn [push_bytes length] in *.
  destruct (ra_filled st !! pos) as [fl|] eqn:Ef; [|apply lookup_ge_None in Ef; lia].
  destruct (ra_bytes st !! pos) as [old|] eqn:Eb; [|apply lookup_ge_None in Eb; lia].
  assert (hs_payload m !! pos = Some b) as Hp.
  { specialize (Hc 0%nat ltac:(lia)). rewrite Nat.add_0_r in Hc. by symmetry. }
  assert (fl && negb (old =? b) = false) as ->.
  { destruct fl; [|done]. apply Ha in Ef. rewrite Eb, Hp in Ef. injection Ef as ->. by rewrite Z.eqb_refl. }
  destruct (IH (fun p => filled p \/ p = pos) (S pos)
    (mkHandshakeReassembler (ra_type st) (ra_seq st) (<[pos := b]> (ra_bytes st))
       (<[pos := true]> (ra_filled st)))) as (st' & Hp' & Hr); [| |intros i Hi|].
  - constructor; cbn [ra_type ra_seq ra_bytes ra_filled]; rewrite ?length_insert; try done.
    + intros p. destruct (decide (p = pos)) as [->|Hne].
      * rewrite list_lookup_insert_eq by lia. split; [intros _; split; [lia|by right]|done].
      * rewrite list_lookup_insert_ne by done. rewrite Hf.
        split; intros [? H]; (split; [done|]); [by left|by destruct H].
    + intros p. destruct (decide (p = pos)) as [->|Hne].
      * by rewrite !list_lookup_insert_eq by lia.
      * rewrite !list_lookup_insert_ne by done. apply Ha.
  - lia.
  - specialize (Hc (S i) ltac:(lia)). simpl in Hc. rewrite Hc. f_equal. lia.
  - exists st'. split; [done|]. destruct Hr as [? ? ? ? Hrf ?]. constructor; try done.
    intros p. rewrite Hrf. split; intros [? H]; (split; [done|]).
    + destruct H as [[?| ->]|?]; [by left|right; lia|right; lia].
    + destruct H as [?|?]; [by left; left|]. destruct (decide (p = pos)); [by left; right|right; lia].
Qed.

Lemma forallb_filled st m filled :
  reassembles m filled st ->
  forallb id (ra_filled st) = true <-> forall p, (p < length (hs_payload m))%nat -> filled p.
Proof.
  intros [_ _ _ Hl Hf _]. rewrite forallb_forall. split.
  - intros H p Hp. destruct (ra_filled st !! p) as [b|] eqn:E; [|apply lookup_ge_None in E; lia].
    assert (b = true) as ->.
    { apply (H b), list_elem_of_In, list_elem_of_lookup. by exists p. }
    by apply Hf in E as [_ ?].
  - intros H b Hb. apply list_elem_of_In, list_elem_of_lookup in Hb as [p Hp].
    assert (p < length (hs_payload m))%nat as Hlt by (apply lookup_lt_Some in Hp; lia).
    assert (ra_filled st !! p = Some true) as E by (apply Hf; split; [done|by apply H]).
    rewrite Hp in E. by injection E.
Qed.

(** One push of a piece, on a fresh reassembler or one that holds pieces of
    the same message. *)
Lemma push_piece m filled st f :
  piece_of m f -> len (hs_payload m) <= MAX_HANDSHAKE_MESSAGE_LEN ->
  (st = HandshakeReassembler_default /\ (forall p, ~ filled p) \/ reassembles m filled st) ->
  exists st', reassembles m (fun p => filled p \/ covers f p) st' /\
    HandshakeReassembler_push st f =
      (st', Ok (if forallb id (ra_filled st') then Some (mkHandshakeMessage (message_type m) (message_seq m)
                  (ra_bytes st')) else None)).
Proof.
  intros (Ht & Hs & Hl & H0 & Hb & Hc) Hmax Hst.
  assert (exists st0, initialize_or_validate st (hs_header f) = (st0, Ok tt) /\ reassembles m filled st0)
    as (st0 & Hi & Hr).
  { unfold initialize_or_validate. destruct Hst as [[-> Hno]|Hr].
    - cbn [HandshakeReassembler_default ra_type ra_seq]. rewrite Hl, Z.gtb_ltb, (proj2 (Z.ltb_ge _ _)) by lia.
      eexists. split; [done|]. rewrite to_nat_len.
      constructor; cbn [ra_type ra_seq ra_bytes ra_filled]; rewrite ?repeat_length; try congruence.
      + intros p. split; [|by intros [_ ?%Hno]]. intros E. apply list_elem_of_lookup_2 in E.
        apply list_elem_of_In, repeat_spec in E. done.
      + intros p E. apply list_elem_of_lookup_2 in E. apply list_elem_of_In, repeat_spec in E. done.
    - destruct Hr as [Hrt Hrs Hrl Hrfl Hrf Hra]. exists st. split; [|by constructor].
      rewrite Hrt, Hrs. rewrite bool_decide_true by done. rewrite Hs, Z.eqb_refl, Hl.
      unfold len. rewrite Hrl, Z.eqb_refl. done. }
  edestruct (push_bytes_ok m filled (fragment f) (Z.to_nat (fragment_offset (hs_header f))) st0)
    as (st' & Hp & Hr'); [done|unfold len in Hb; lia|done|].
  exists st'. split; [exact Hr'|]. unfold HandshakeReassembler_push. rewrite Hi.
  destruct Hr as [_ _ Hrl _ _ _]. rewrite Z.gtb_ltb, (proj2 (Z.ltb_ge _ _)) by (unfold len in *; lia).
  rewrite Hp. destruct Hr' as [Hrt Hrs _ _ _ _]. rewrite Hrt, Hrs. by destruct (forallb id _).
Qed.

Lemma ra_complete m filled st :
  reassembles m filled st -> (forall p, (p < length (hs_payload m))%nat -> filled p) ->
  ra_bytes st = hs_payload m.
Proof.
  intros [_ _ Hl _ Hf Ha] Hall. apply list_eq. intros p.
  destruct (decide (p < length (hs_payload m))%nat) as [Hp|Hp].
  - apply Ha, Hf. auto.
  - rewrite !lookup_ge_None_2 by lia. done.
Qed.

(** Pushes in sequence, with the result of each. *)
Fixpoint push_all (st : HandshakeReassembler) (l : list HandshakeFragment)
    : list (result DtlsError (option HandshakeMessage)) :=
  match l with
  | [] => []
  | f :: l' => let '(st', r) := HandshakeReassembler_push st f in r :: push_all st' l'
  end.

Lemma push_all_pieces m l filled st :
  Forall (piece_of m) l -> len (hs_payload m) <= MAX_HANDSHAKE_MESSAGE_LEN ->
  (st = HandshakeReassembler_default /\ (forall p, ~ filled p) \/ reassembles m filled st) ->
  Forall (fun r => r = Ok None \/ r = Ok (Some m)) (push_all st l) /\
  ((forall p, (p < length (hs_payload m))%nat -> filled p \/ covered l p) -> l <> [] ->
     last (push_all st l) = Some (Ok (Some m))).
Proof.
  intros Hl Hmax. revert filled st. induction Hl as [|f l Hf _ IH]; intros filled st Hst; [by split|].
  destruct (push_piece m filled st f Hf Hmax Hst) as (st' & Hr & Hp). cbn [push_all]. rewrite Hp.
  destruct (IH _ st' (or_intror Hr)) as [Hall Hlast].
  pose proof (forallb_filled st' m _ Hr) as Hfb. split.
  - constructor; [|done]. destruct (forallb id (ra_filled st')) eqn:E; [right|by left].
    rewrite (ra_complete m _ st' Hr) by by apply Hfb. by destruct m.
  - intros Hcov _. destruct l as [|g l'].
    + simpl. assert (forall p, (p < length (hs_payload m))%nat -> filled p \/ covers f p) as Hc.
      { intros p Hpl. destruct (Hcov p Hpl) as [?|(x & Hx & ?)]; [by left|]. apply list_elem_of_singleton in Hx as ->. by right. }
      rewrite (proj2 Hfb Hc), (ra_complete m _ st' Hr Hc). by destruct m.
    + rewrite last_cons, Hlast; [done| |done]. intros p Hpl.
      destruct (Hcov p Hpl) as [?|(x & [->|Hx]%elem_of_cons & ?)]; [by left; left|by left; right|right; by exists x].
Qed.

Lemma fragment_loop_pieces m max fuel i rest :
  0 < max -> len (hs_payload m) <= MAX_U24 -> 0 <= i ->
  rest = drop (Z.to_nat (i * max)) (hs_payload m) -> (length rest <= fuel)%nat ->
  exists fs, fragment_loop m max (len (hs_payload m)) i (chunks_fuel fuel (Z.to_nat max) rest) = Ok fs /\
    Forall (fun f => piece_of m f /\ len (fragment f) <= max) fs /\
    (forall p, (Z.to_nat (i * max) <= p < length (hs_payload m))%nat -> covered fs p).
Proof.
  intros Hmax Hlen. revert i rest. induction fuel as [|fuel IH]; intros i rest Hi Hrest Hf.
  { exists []. destruct rest; [|simpl in Hf; lia]. split; [done|]. split; [done|]. intros p Hp.
    pose proof (f_equal length Hrest) as E. rewrite length_drop in E. simpl in E. lia. }
  destruct rest as [|b rest].
  { exists []. split; [done|]. split; [done|]. intros p Hp.
    pose proof (f_equal length Hrest) as E. rewrite length_drop in E. simpl in E. lia. }
  assert (length (b :: rest) = length (hs_payload m) - Z.to_nat (i * max))%nat as Hlr
    by by rewrite Hrest, length_drop.
  cbn [chunks_fuel fragment_loop].
  assert (0 <= i * max < len (hs_payload m)) as Him by (split; [nia|unfold len; simpl in Hlr; lia]).
  unfold MAX_U24 in *. unfold checked_mul, usize_bits. rewrite (proj2 (Z.ltb_lt _ _)) by lia. cbn [ok_or rbind].
  destruct (IH (i + 1) (drop (Z.to_nat max) (b :: rest))) as (fs & Hfs & Hp & Hc); [lia| | |].
  { rewrite Hrest, drop_drop. f_equal. nia. }
  { rewrite length_drop. simpl in *. lia. }
  rewrite Hfs. cbn [rbind]. set (c := take (Z.to_nat max) (b :: rest)).
  assert (length c = Z.to_nat max `min` length (b :: rest))%nat as Hlc by apply length_take.
  rewrite !wrap_small by (unfold uint, len in *; lia). eexists. split; [done|]. split.
  - constructor; [|done]. split; [|unfold len; simpl fragment; lia]. unfold piece_of; cbn -[Z.to_nat].
    refine (conj eq_refl (conj eq_refl (conj eq_refl (conj _ (conj _ _))))); [lia|unfold len in *; lia|].
    intros j Hj. unfold c. rewrite lookup_take_lt by lia. by rewrite Hrest, lookup_drop.
  - intros p Hpp. destruct (decide (p < Z.to_nat ((i + 1) * max))%nat).
    + eexists. split; [by left|]. unfold covers; cbn -[Z.to_nat]. split; [lia|]. rewrite Hlc. nia.
    + destruct (Hc p) as (f & ? & ?); [lia|]. exists f. split; [by right|done].
Qed.

Lemma fragment_pieces m max :
  msg_wf m -> 0 < max ->
  exists fs, HandshakeMessage_fragment m max = Ok fs /\ fs <> [] /\
    Forall (fun f => piece_of m f /\ len (fragment f) <= max) fs /\
    (forall p, (p < length (hs_payload m))%nat -> covered fs p).
Proof.
  intros (_ & _ & Hl) Hmax. unfold HandshakeMessage_fragment.
  rewrite (proj2 (Z.eqb_neq _ _)), Z.gtb_ltb, (proj2 (Z.ltb_ge _ _)) by lia.
  pose proof (len_nonneg (hs_payload m)). rewrite wrap_small by (unfold uint, MAX_U24 in *; lia).
  destruct (fragment_loop_pieces m max (length (hs_payload m)) 0 (hs_payload m)) as (fs & Hfs & Hp & Hc);
    [done|done|lia|done|lia|]. unfold chunks. rewrite Hfs. cbn [rbind].
  destruct fs as [|f fs]; cbn [is_empty].
  - eexists. split; [done|]. split; [done|].
    assert (hs_payload m = []) as E.
    { destruct (hs_payload m) as [|b l]; [done|]. destruct (Hc 0%nat) as (f & Hin & _); [simpl; lia|].
      by apply elem_of_nil in Hin. }
    split; [|rewrite E; simpl; intros; lia]. constructor; [|done]. split; [|simpl; unfold len; simpl; lia].
    unfold piece_of; simpl. rewrite E. split_and!; try done; intros; lia.
  - eexists. split; [done|]. split; [done|]. split; [done|]. intros p Hpl. apply Hc. lia.
Qed.

Lemma parse_messages_safe r :
  bytes_ok (rec_payload r) -> safe (parse_unfragmented_handshake_messages r).
Proof.
  intros Hok. unfold parse_unfragmented_handshake_messages. case_match; [done|].
  apply safe_many_ok; [apply parse_unfragmented_consumes| | |done].
  - intros b Hb. unfold parse_unfragmented_step. apply safe_bind; [by apply HandshakeFragment_parse_safe|].
    intros f Hf. apply HandshakeFragment_parse_inv in Hf as (Hw & Hl & _ & tl & -> & _); [|done].
    pose proof (hs_header_u24 _ Hw) as (_ & _ & [? ?]). case_match; [done|]. unfold HANDSHAKE_LEN.
    rewrite checked_add_usize by lia. cbn [ok_or rbind]. pose proof (len_nonneg tl).
    apply safe_bind; [|done]. apply safe_slice_from. rewrite !len_app, len_hs_header_bytes. lia.
  - intros b m rest Hb Hs. by apply parse_unfragmented_step_inv in Hs as (_ & _ & ?).
Qed.

Lemma parse_record_message r m :
  msg_wf m -> rec_payload r = msg_bytes m -> content_type (rec_header r) = CtHandshake ->
  parse_unfragmented_handshake_record r (message_type m) = Ok m.
Proof.
  intros Hm Hr Hct. unfold parse_unfragmented_handshake_record. rewrite bool_decide_true, Hr by done.
  cbn [negb]. unfold msg_bytes at 1. rewrite <- (app_nil_r (hs_payload m)).
  rewrite HandshakeFragment_parse_bytes by (done || by apply whole_header_wf). cbn [rbind hs_header fragment].
  unfold HANDSHAKE_LEN. rewrite len_msg_bytes, Z.eqb_refl. cbn [negb].
  rewrite bool_decide_true by done. cbn [negb whole_header fragment_offset fragment_length hs_length].
  rewrite !Z.eqb_refl. cbn [negb orb]. by destruct m.
Qed.

(** ** Properties *)



(** Whole messages.  Encoding agrees with the canonical transcript form;
    a handshake record packed with encoded messages parses to exactly those
    messages, and whatever else a record carries, parsing neither panics nor
    accepts bytes that are not such an encoding. *)
Theorem handshake_messages_exact :
  (forall m, msg_wf m -> exists b, HandshakeMessage_encode m = Ok b /\ transcript_bytes m = Ok b /\
     forall r, rec_payload r = b -> content_type (rec_header r) = CtHandshake ->
       parse_unfragmented_handshake_record r (message_type m) = Ok m) /\
  (forall r ms, Forall msg_wf ms -> content_type (rec_header r) = CtHandshake ->
     rec_payload r = concat (map msg_bytes ms) -> parse_unfragmented_handshake_messages r = Ok ms) /\
  (forall r, bytes_ok (rec_payload r) -> safe (parse_unfragmented_handshake_messages r) /\
     forall ms, parse_unfragmented_handshake_messages r = Ok ms ->
       Forall msg_wf ms /\ rec_payload r = concat (map msg_bytes ms)).
Proof.
  split; [|split].
  - intros m Hm. exists (msg_bytes m). split; [by apply HandshakeMessage_encode_ok|].
    split; [by apply transcript_bytes_ok|]. intros r Hr Hct. by apply parse_record_message.
  - intros r ms Hms Hct Hr. unfold parse_unfragmented_handshake_messages.
    rewrite bool_decide_true, Hr by done. cbn [negb].
    apply (many_encode _ parse_unfragmented_consumes _ msg_wf); [|done].
    intros; by apply parse_unfragmented_step_bytes.
  - intros r Hok. split; [by apply parse_messages_safe|]. intros ms H.
    unfold parse_unfragmented_handshake_messages in H. destruct (negb _); [done|].
    apply (many_decode _ parse_unfragmented_consumes msg_bytes msg_wf) in H as [? ?]; [done| |done].
    intros b m rest Hb H'. by apply parse_unfragmented_step_inv in H' as (? & ? & _).
Qed.
