(* ===== verification/Hello.v ===== *)
(** * Hello: DTLS hello messages and the cookie exchange

    The model of crates/meshcop-dtls/src/hello.rs.  [Cursor] is the slice and
    the read offset; its readers return the value with the advanced cursor.
    [DtlsClientHelloState] methods return the new state with their result. *)
From S2P Require Import Prelude Text Tlv Errors Record Handshake.

Record TlsExtension := mkTlsExtension { extension_type : Z; ext_data : bytes }.

#[global] Instance TlsExtension_eq_dec : EqDecision TlsExtension.
Proof. solve_decision. Defined.

(** ** Cursor *)

Record Cursor := mkCursor { cur_bytes : bytes; cur_offset : Z }.

Definition Cursor_new (bs : bytes) : Cursor := mkCursor bs 0.

Definition remaining (self : Cursor) : Z := len (cur_bytes self) - cur_offset self.

Definition read_exact (self : Cursor) (n : Z) : result DtlsError (bytes * Cursor) :=
  let! end_ := ok_or (checked_add usize_bits (cur_offset self) n)
                 (DCrypto "DTLS cursor offset overflow") in
  if len (cur_bytes self) <? end_ then Err (DCrypto "DTLS structure is truncated")
  else
    let! out := slice (cur_bytes self) (cur_offset self) end_ in
    Ok (out, mkCursor (cur_bytes self) end_).

Definition Cursor_read_u8 (self : Cursor) : result DtlsError (Z * Cursor) :=
  let! '(bs, self) := read_exact self 1 in
  let! b := idx bs 0 in Ok (b, self).

Definition Cursor_read_u16 (self : Cursor) : result DtlsError (Z * Cursor) :=
  let! '(bs, self) := read_exact self 2 in
  let! v := dtls_read_u16 bs in Ok (v, self).

Definition read_array_32 (self : Cursor) : result DtlsError (bytes * Cursor) := read_exact self 32.

Definition read_vec_u8 (self : Cursor) : result DtlsError (bytes * Cursor) :=
  let! '(n, self) := Cursor_read_u8 self in read_exact self n.

Definition read_vec_u16 (self : Cursor) : result DtlsError (bytes * Cursor) :=
  let! '(n, self) := Cursor_read_u16 self in read_exact self n.

(** The loop of [read_extensions] over the inner cursor. *)
Fixpoint read_extension_list (fuel : nat) (cursor : Cursor) : result DtlsError (list TlsExtension) :=
  if remaining cursor >? 0 then
    match fuel with
    | O => Panic OutOfFuel
    | S fuel' =>
        let! '(ty, cursor) := Cursor_read_u16 cursor in
        let! '(data, cursor) := read_vec_u16 cursor in
        let! rest := read_extension_list fuel' cursor in
        Ok (mkTlsExtension ty data :: rest)
    end
  else Ok [].

Definition read_extensions (self : Cursor) : result DtlsError (list TlsExtension * Cursor) :=
  if remaining self =? 0 then Ok ([], self)
  else
    let! '(extension_bytes, self) := read_vec_u16 self in
    let! extensions := read_extension_list (length extension_bytes) (Cursor_new extension_bytes) in
    Ok (extensions, self).

Definition Cursor_finish (self : Cursor) : result DtlsError unit :=
  if remaining self =? 0 then Ok tt else Err (DCrypto "trailing bytes after DTLS structure").

(** ** Encoding helpers *)

Definition validate_u8_len (n : Z) (field : string) : result DtlsError unit :=
  if n >? 255 then Err (DCrypto (field +:+ " exceeds 255 bytes")) else Ok tt.

Definition validate_u16_len (n : Z) (field : string) : result DtlsError unit :=
  if n >? 65535 then Err (DCrypto (field +:+ " exceeds 65535 bytes")) else Ok tt.

Fixpoint encode_extension_list (extensions : list TlsExtension) (encoded : bytes)
    : result DtlsError bytes :=
  match extensions with
  | [] => Ok encoded
  | e :: extensions' =>
      let! _ := validate_u16_len (len (ext_data e)) "TLS extension" in
      encode_extension_list extensions'
        (encoded ++ to_be 2 (extension_type e) ++ to_be 2 (wrap 16 (len (ext_data e))) ++ ext_data e)
  end.

Definition append_extensions (out : bytes) (extensions : list TlsExtension) : result DtlsError bytes :=
  let! encoded := encode_extension_list extensions [] in
  let! _ := validate_u16_len (len encoded) "TLS extensions" in
  Ok (out ++ to_be 2 (wrap 16 (len encoded)) ++ encoded).

Definition find_extension (extensions : list TlsExtension) (ty : Z) : option bytes :=
  ext_data <$> List.find (fun e => extension_type e =? ty) extensions.

Definition supported_groups_extension : TlsExtension :=
  mkTlsExtension EXTENSION_SUPPORTED_GROUPS
    [0x00; 0x02; wrap 8 (Z.shiftr NAMED_GROUP_SECP256R1 8); wrap 8 NAMED_GROUP_SECP256R1].
Definition signature_algorithms_extension : TlsExtension :=
  mkTlsExtension EXTENSION_SIGNATURE_ALGORITHMS [0x00; 0x02; 0x04; 0x03].
Definition ec_point_formats_extension : TlsExtension :=
  mkTlsExtension EXTENSION_EC_POINT_FORMATS [0x01; EC_POINT_FORMAT_UNCOMPRESSED].
Definition max_fragment_length_extension : TlsExtension :=
  mkTlsExtension EXTENSION_MAX_FRAGMENT_LENGTH [0x02].

(** ** ClientHello *)

Record ClientHello := mkClientHello {
  ch_random : bytes;
  ch_session_id : bytes;
  ch_cookie : bytes;
  cipher_suites : list Z;
  compression_methods : bytes;
  ch_extensions : list TlsExtension }.

Definition thread_profile (random cookie : bytes) : ClientHello :=
  mkClientHello random [] cookie
    [TLS_ECJPAKE_WITH_AES_128_CCM_8; TLS_EMPTY_RENEGOTIATION_INFO_SCSV] [TLS_COMPRESSION_NULL]
    [supported_groups_extension; signature_algorithms_extension; ec_point_formats_extension].

Definition ClientHello_set_ecjpake_kkpp (self : ClientHello) (kkpp : bytes) : ClientHello :=
  mkClientHello (ch_random self) (ch_session_id self) (ch_cookie self) (cipher_suites self)
    (compression_methods self)
    (List.filter (fun e => negb ((extension_type e =? EXTENSION_ECJPAKE_KKPP)
                                 || (extension_type e =? EXTENSION_MAX_FRAGMENT_LENGTH)))
       (ch_extensions self)
     ++ [mkTlsExtension EXTENSION_ECJPAKE_KKPP kkpp; max_fragment_length_extension]).

Definition thread_profile_with_ecjpake (random cookie kkpp : bytes) : ClientHello :=
  ClientHello_set_ecjpake_kkpp (thread_profile random cookie) kkpp.

Definition ClientHello_ecjpake_kkpp (self : ClientHello) : option bytes :=
  find_extension (ch_extensions self) EXTENSION_ECJPAKE_KKPP.

Definition ClientHello_encode (self : ClientHello) : result DtlsError bytes :=
  let! _ := validate_u8_len (len (ch_session_id self)) "ClientHello session_id" in
  let! _ := validate_u8_len (len (ch_cookie self)) "ClientHello cookie" in
  let! _ := validate_u8_len (len (compression_methods self)) "ClientHello compression methods" in
  let! cipher_len := ok_or (checked_mul usize_bits (len (cipher_suites self)) 2)
                       (DCrypto "ClientHello cipher-suite length overflow") in
  let! _ := validate_u16_len cipher_len "ClientHello cipher suites" in
  let out := to_be 2 DTLS_1_2_VERSION ++ ch_random self
    ++ [wrap 8 (len (ch_session_id self))] ++ ch_session_id self
    ++ [wrap 8 (len (ch_cookie self))] ++ ch_cookie self
    ++ to_be 2 (wrap 16 cipher_len) ++ concat (map (to_be 2) (cipher_suites self))
    ++ [wrap 8 (len (compression_methods self))] ++ compression_methods self in
  append_extensions out (ch_extensions self).

Definition ClientHello_decode (bs : bytes) : result DtlsError ClientHello :=
  let cursor := Cursor_new bs in
  let! '(version, cursor) := Cursor_read_u16 cursor in
  if negb (version =? DTLS_1_2_VERSION) then Err (DCrypto "ClientHello version is not DTLS 1.2")
  else
    let! '(random, cursor) := read_array_32 cursor in
    let! '(session_id, cursor) := read_vec_u8 cursor in
    let! '(cookie, cursor) := read_vec_u8 cursor in
    let! '(cipher_bytes, cursor) := read_vec_u16 cursor in
    if negb (len cipher_bytes mod 2 =? 0)
    then Err (DCrypto "ClientHello cipher-suite vector has odd length")
    else
      let! suites := mapM_result (fun suite =>
        let! s0 := idx suite 0 in let! s1 := idx suite 1 in Ok (from_be [s0; s1]))
        (chunks_exact 2 cipher_bytes) in
      let! '(methods, cursor) := read_vec_u8 cursor in
      let! '(extensions, cursor) := read_extensions cursor in
      let! _ := Cursor_finish cursor in
      Ok (mkClientHello random session_id cookie suites methods extensions).

(** ** HelloVerifyRequest and ServerHello *)

Record HelloVerifyRequest := mkHelloVerifyRequest { server_version : Z; hv_cookie : bytes }.

Definition HelloVerifyRequest_encode (self : HelloVerifyRequest) : result DtlsError bytes :=
  let! _ := validate_u8_len (len (hv_cookie self)) "HelloVerifyRequest cookie" in
  Ok (to_be 2 (server_version self) ++ [wrap 8 (len (hv_cookie self))] ++ hv_cookie self).

Definition HelloVerifyRequest_decode (bs : bytes) : result DtlsError HelloVerifyRequest :=
  let cursor := Cursor_new bs in
  let! '(version, cursor) := Cursor_read_u16 cursor in
  let! '(cookie, cursor) := read_vec_u8 cursor in
  let! _ := Cursor_finish cursor in
  Ok (mkHelloVerifyRequest version cookie).

Record ServerHello := mkServerHello {
  sh_random : bytes;
  sh_session_id : bytes;
  cipher_suite : Z;
  compression_method : Z;
  sh_extensions : list TlsExtension }.

Definition validate_thread_profile (self : ServerHello) : result DtlsError unit :=
  if negb (cipher_suite self =? TLS_ECJPAKE_WITH_AES_128_CCM_8)
  then Err (DCrypto "ServerHello selected an unsupported cipher suite")
  else if negb (compression_method self =? TLS_COMPRESSION_NULL)
  then Err (DCrypto "ServerHello selected an unsupported compression method")
  else Ok tt.

Definition ServerHello_ecjpake_kkpp (self : ServerHello) : option bytes :=
  find_extension (sh_extensions self) EXTENSION_ECJPAKE_KKPP.

Definition ServerHello_encode (self : ServerHello) : result DtlsError bytes :=
  let! _ := validate_u8_len (len (sh_session_id self)) "ServerHello session_id" in
  append_extensions
    (to_be 2 DTLS_1_2_VERSION ++ sh_random self ++ [wrap 8 (len (sh_session_id self))]
     ++ sh_session_id self ++ to_be 2 (cipher_suite self) ++ [compression_method self])
    (sh_extensions self).

Definition ServerHello_decode (bs : bytes) : result DtlsError ServerHello :=
  let cursor := Cursor_new bs in
  let! '(version, cursor) := Cursor_read_u16 cursor in
  if negb (version =? DTLS_1_2_VERSION) then Err (DCrypto "ServerHello version is not DTLS 1.2")
  else
    let! '(random, cursor) := read_array_32 cursor in
    let! '(session_id, cursor) := read_vec_u8 cursor in
    let! '(suite, cursor) := Cursor_read_u16 cursor in
    let! '(method, cursor) := Cursor_read_u8 cursor in
    let! '(extensions, cursor) := read_extensions cursor in
    let! _ := Cursor_finish cursor in
    Ok (mkServerHello random session_id suite method extensions).

(** ** Client hello flight state *)

Record DtlsClientHelloState := mkDtlsClientHelloState {
  st_random : bytes;
  st_cookie : bytes;
  st_ecjpake_kkpp : option bytes;
  next_record_sequence : Z;
  next_message_sequence : Z;
  last_client_hello_sequence : option Z }.

Definition DtlsClientHelloState_new (random : bytes) : DtlsClientHelloState :=
  mkDtlsClientHelloState random [] None 0 0 None.
Definition with_ecjpake_kkpp (random kkpp : bytes) : DtlsClientHelloState :=
  mkDtlsClientHelloState random [] (Some kkpp) 0 0 None.
Definition set_ecjpake_kkpp (self : DtlsClientHelloState) (kkpp : bytes) : DtlsClientHelloState :=
  mkDtlsClientHelloState (st_random self) (st_cookie self) (Some kkpp) (next_record_sequence self)
    (next_message_sequence self) (last_client_hello_sequence self).

Definition next_client_hello_record (self : DtlsClientHelloState)
    : DtlsClientHelloState * result DtlsError DtlsRecord :=
  let client_hello := match st_ecjpake_kkpp self with
    | Some kkpp => thread_profile_with_ecjpake (st_random self) (st_cookie self) kkpp
    | None => thread_profile (st_random self) (st_cookie self)
    end in
  let seq := next_message_sequence self in
  let self' := mkDtlsClientHelloState (st_random self) (st_cookie self) (st_ecjpake_kkpp self)
    (next_record_sequence self) (wrapping_add 16 seq 1) (Some seq) in
  let record :=
    let! body := ClientHello_encode client_hello in
    let! hs := HandshakeMessage_encode (mkHandshakeMessage HtClientHello seq body) in
    DtlsRecord_new CtHandshake 0 (next_record_sequence self) hs in
  match record with
  | Ok r => (mkDtlsClientHelloState (st_random self') (st_cookie self') (st_ecjpake_kkpp self')
               (wrapping_add 64 (next_record_sequence self') 1) (next_message_sequence self')
               (last_client_hello_sequence self'), Ok r)
  | e => (self', e)
  end.

Definition handle_hello_verify_request (self : DtlsClientHelloState) (record : DtlsRecord)
    : DtlsClientHelloState * result DtlsError HelloVerifyRequest :=
  let checked :=
    let! handshake := parse_unfragmented_handshake_record record HtHelloVerifyRequest in
    if negb (bool_decide (Some (message_seq handshake) = last_client_hello_sequence self))
    then Err (DCrypto "HelloVerifyRequest sequence does not match ClientHello")
    else
      let! hello_verify := HelloVerifyRequest_decode (hs_payload handshake) in
      if negb (server_version hello_verify =? DTLS_1_2_VERSION)
      then Err (DCrypto "HelloVerifyRequest version is not DTLS 1.2")
      else Ok hello_verify in
  match checked with
  | Ok hv => (mkDtlsClientHelloState (st_random self) (hv_cookie hv) (st_ecjpake_kkpp self)
                (next_record_sequence self) (next_message_sequence self)
                (last_client_hello_sequence self), Ok hv)
  | e => (self, e)
  end.

(** ** Reading what was written *)

(** [cur c rest]: the cursor is inside its slice and [rest] is unread.  The
    slice is short enough for the offset arithmetic (any buffer is). *)
Definition cur (c : Cursor) (rest : bytes) : Prop :=
  exists pre, c = mkCursor (pre ++ rest) (len pre) /\ len (pre ++ rest) <= 2 ^ 48.

Lemma cur_new bs : len bs <= 2 ^ 48 -> cur (Cursor_new bs) bs.
Proof. by exists []. Qed.

Lemma cur_remaining c rest : cur c rest -> remaining c = len rest.
Proof. intros (pre & -> & _). unfold remaining; simpl. rewrite len_app. lia. Qed.

Lemma cur_read c n x r : cur c (x ++ r) -> n = len x ->
  exists c', read_exact c n = Ok (x, c') /\ cur c' r.
Proof.
  intros (pre & -> & Hb) ->. rewrite !len_app in Hb.
  pose proof (len_nonneg pre); pose proof (len_nonneg x); pose proof (len_nonneg r).
  exists (mkCursor ((pre ++ x) ++ r) (len (pre ++ x))). unfold read_exact; cbn [cur_offset cur_bytes].
  rewrite checked_add_usize by lia. cbn [ok_or rbind].
  rewrite (proj2 (Z.ltb_ge _ _)) by (rewrite !len_app; lia). rewrite slice_prefix. cbn [rbind].
  split; [by rewrite <- (assoc_L (++)), len_app|].
  exists (pre ++ x). split; [done|]. rewrite !len_app. lia.
Qed.

Lemma cur_u8 c b r : cur c (b :: r) -> exists c', Cursor_read_u8 c = Ok (b, c') /\ cur c' r.
Proof.
  intros Hc. destruct (cur_read c 1 [b] r Hc eq_refl) as (c' & H & ?). exists c'.
  unfold Cursor_read_u8. by rewrite H.
Qed.

Lemma cur_u16 c x r : cur c (to_be 2 x ++ r) -> is_u16 x ->
  exists c', Cursor_read_u16 c = Ok (x, c') /\ cur c' r.
Proof.
  intros Hc Hx. destruct (cur_read c 2 (to_be 2 x) r Hc) as (c' & H & ?); [by rewrite len_to_be|].
  exists c'. unfold Cursor_read_u16. rewrite H. cbn [rbind]. pose proof (from_to_be_small 2 x Hx) as Hf.
  unfold dtls_read_u16. cbn [to_be] in *. eval_idx. by rewrite Hf.
Qed.

Lemma cur_vec_u8 c v r : cur c (len v :: v ++ r) -> exists c', read_vec_u8 c = Ok (v, c') /\ cur c' r.
Proof.
  intros Hc. destruct (cur_u8 _ _ _ Hc) as (c1 & H1 & Hc1).
  destruct (cur_read c1 (len v) v r Hc1 eq_refl) as (c2 & H2 & ?). exists c2.
  unfold read_vec_u8. rewrite H1. cbn [rbind]. by rewrite H2.
Qed.

Lemma cur_vec_u16 c v r : cur c (to_be 2 (len v) ++ v ++ r) -> len v <= 65535 ->
  exists c', read_vec_u16 c = Ok (v, c') /\ cur c' r.
Proof.
  intros Hc Hl. pose proof (len_nonneg v). destruct (cur_u16 _ _ _ Hc) as (c1 & H1 & Hc1); [unfold uint; lia|].
  destruct (cur_read c1 (len v) v r Hc1 eq_refl) as (c2 & H2 & ?). exists c2.
  unfold read_vec_u16. rewrite H1. cbn [rbind]. by rewrite H2.
Qed.

Definition ext_wf (e : TlsExtension) : Prop :=
  is_u16 (extension_type e) /\ bytes_ok (ext_data e) /\ len (ext_data e) <= 65535.
#[global] Instance ext_wf_dec e : Decision (ext_wf e).
Proof. unfold ext_wf. apply _. Defined.

Definition ext_bytes (e : TlsExtension) : bytes :=
  to_be 2 (extension_type e) ++ to_be 2 (len (ext_data e)) ++ ext_data e.
Definition exts_bytes (l : list TlsExtension) : bytes := concat (map ext_bytes l).
Definition exts_wf (l : list TlsExtension) : Prop := Forall ext_wf l /\ len (exts_bytes l) <= 65535.
#[global] Instance exts_wf_dec l : Decision (exts_wf l).
Proof. unfold exts_wf. apply _. Defined.

Lemma encode_extension_list_ok l out :
  Forall ext_wf l -> encode_extension_list l out = Ok (out ++ exts_bytes l).
Proof.
  intros H. revert out. induction H as [|e l (_ & _ & Hl) _ IH]; intros out; simpl; [by rewrite app_nil_r|].
  unfold validate_u16_len. rewrite Z.gtb_ltb, (proj2 (Z.ltb_ge _ _)) by lia. cbn [rbind]. rewrite IH.
  pose proof (len_nonneg (ext_data e)). rewrite wrap_small by (unfold uint; lia).
  unfold exts_bytes, ext_bytes; simpl. by rewrite <- !(assoc_L (++)).
Qed.

Lemma append_extensions_ok out l :
  exts_wf l -> append_extensions out l = Ok (out ++ to_be 2 (len (exts_bytes l)) ++ exts_bytes l).
Proof.
  intros [Hl Hn]. unfold append_extensions. rewrite encode_extension_list_ok by done. cbn [rbind app].
  unfold validate_u16_len. rewrite Z.gtb_ltb, (proj2 (Z.ltb_ge _ _)) by lia. cbn [rbind].
  pose proof (len_nonneg (exts_bytes l)). by rewrite wrap_small by (unfold uint; lia).
Qed.

Lemma len_ext_bytes e : len (ext_bytes e) = 4 + len (ext_data e).
Proof. unfold ext_bytes. rewrite !len_app, !len_to_be. lia. Qed.

Lemma read_extension_list_ok l fuel c :
  Forall ext_wf l -> cur c (exts_bytes l) -> (length (exts_bytes l) <= fuel)%nat ->
  read_extension_list fuel c = Ok l.
Proof.
  intros H. revert fuel c. induction H as [|e l (Ht & _ & Hl) _ IH]; intros fuel c Hc Hf.
  - destruct fuel; simpl; rewrite (cur_remaining _ _ Hc); done.
  - change (exts_bytes (e :: l)) with (ext_bytes e ++ exts_bytes l) in *.
    pose proof (len_ext_bytes e). pose proof (len_nonneg (ext_data e)). pose proof (len_nonneg (exts_bytes l)).
    rewrite length_app in Hf. destruct fuel as [|fuel]; [unfold len in *; lia|]. cbn [read_extension_list].
    rewrite (cur_remaining _ _ Hc), len_app, Z.gtb_ltb, (proj2 (Z.ltb_lt _ _)) by lia.
    unfold ext_bytes in Hc. rewrite <- !(assoc_L (++)) in Hc.
    destruct (cur_u16 _ _ _ Hc Ht) as (c1 & -> & Hc1). cbn [rbind].
    destruct (cur_vec_u16 _ _ _ Hc1 Hl) as (c2 & -> & Hc2). cbn [rbind].
    rewrite (IH fuel c2 Hc2) by (unfold len in *; lia). by destruct e.
Qed.

Lemma cur_extensions c l :
  cur c (to_be 2 (len (exts_bytes l)) ++ exts_bytes l) -> exts_wf l ->
  exists c', read_extensions c = Ok (l, c') /\ cur c' [].
Proof.
  intros Hc [Hl Hn]. unfold read_extensions. pose proof (len_nonneg (exts_bytes l)).
  rewrite (cur_remaining _ _ Hc), len_app, len_to_be, (proj2 (Z.eqb_neq _ _)) by lia.
  rewrite <- (app_nil_r (exts_bytes l)) in Hc at 2.
  destruct (cur_vec_u16 _ _ _ Hc) as (c1 & -> & Hc1); [done|]. cbn [rbind].
  exists c1. rewrite (read_extension_list_ok l); [done|done|apply cur_new; lia|lia].
Qed.

Lemma cur_finish c : cur c [] -> Cursor_finish c = Ok tt.
Proof. intros H. unfold Cursor_finish. by rewrite (cur_remaining _ _ H). Qed.

(** ** Well-formed hellos *)

Definition client_hello_wf (h : ClientHello) : Prop :=
  bytes_ok (ch_random h) /\ len (ch_random h) = 32 /\ bytes_ok (ch_session_id h) /\ len (ch_session_id h) <= 255 /\
  bytes_ok (ch_cookie h) /\ len (ch_cookie h) <= 255 /\
  Forall is_u16 (cipher_suites h) /\ 2 * len (cipher_suites h) <= 65535 /\
  bytes_ok (compression_methods h) /\ len (compression_methods h) <= 255 /\ exts_wf (ch_extensions h).
#[global] Instance client_hello_wf_dec h : Decision (client_hello_wf h).
Proof. unfold client_hello_wf. apply _. Defined.

Definition server_hello_wf (h : ServerHello) : Prop :=
  bytes_ok (sh_random h) /\ len (sh_random h) = 32 /\ bytes_ok (sh_session_id h) /\ len (sh_session_id h) <= 255 /\
  is_u16 (cipher_suite h) /\ is_u8 (compression_method h) /\ exts_wf (sh_extensions h).
#[global] Instance server_hello_wf_dec h : Decision (server_hello_wf h).
Proof. unfold server_hello_wf. apply _. Defined.

Definition client_hello_bytes (h : ClientHello) : bytes :=
  to_be 2 DTLS_1_2_VERSION ++ ch_random h ++ (len (ch_session_id h) :: ch_session_id h ++
  (len (ch_cookie h) :: ch_cookie h ++
  (to_be 2 (2 * len (cipher_suites h)) ++ concat (map (to_be 2) (cipher_suites h)) ++
  (len (compression_methods h) :: compression_methods h ++
  (to_be 2 (len (exts_bytes (ch_extensions h))) ++ exts_bytes (ch_extensions h)))))).

Lemma validate_u8_ok n f : n <= 255 -> validate_u8_len n f = Ok tt.
Proof. intros. unfold validate_u8_len. by rewrite Z.gtb_ltb, (proj2 (Z.ltb_ge _ _)) by lia. Qed.
Lemma validate_u16_ok n f : n <= 65535 -> validate_u16_len n f = Ok tt.
Proof. intros. unfold validate_u16_len. by rewrite Z.gtb_ltb, (proj2 (Z.ltb_ge _ _)) by lia. Qed.

Lemma ClientHello_encode_ok h : client_hello_wf h -> ClientHello_encode h = Ok (client_hello_bytes h).
Proof.
  intros (_ & _ & _ & Hs & _ & Hk & _ & Hc & _ & Hm & He).
  pose proof (len_nonneg (ch_session_id h)); pose proof (len_nonneg (ch_cookie h));
    pose proof (len_nonneg (cipher_suites h)); pose proof (len_nonneg (compression_methods h)).
  unfold ClientHello_encode. rewrite !validate_u8_ok by done. cbn [rbind].
  unfold checked_mul, usize_bits. rewrite (proj2 (Z.ltb_lt _ _)) by lia. cbn [ok_or rbind].
  rewrite validate_u16_ok by lia. cbn [rbind]. rewrite append_extensions_ok by done. f_equal.
  rewrite !wrap_small by (unfold uint; lia). unfold client_hello_bytes. rewrite (Z.mul_comm _ 2).
  rewrite <- !(assoc_L (++)). cbn [app]. by rewrite <- ?(assoc_L (++)).
Qed.

Lemma suites_chunks l :
  Forall is_u16 l ->
  mapM_result (E := DtlsError) (fun suite => let! s0 := idx suite 0 in let! s1 := idx suite 1 in Ok (from_be [s0; s1]))
    (map (to_be 2) l) = Ok l.
Proof.
  induction 1 as [|x l Hx _ IH]; [done|]. cbn [map mapM_result]. rewrite IH.
  pose proof (from_to_be_small 2 x Hx) as Hf. cbn [to_be] in *. eval_idx. by rewrite Hf.
Qed.

Lemma len_suites l : len (concat (map (to_be 2) l)) = 2 * len l.
Proof. induction l as [|x l IH]; [done|]. cbn [map concat]. rewrite len_app, len_to_be, IH, len_cons. lia. Qed.

Lemma ClientHello_decode_bytes h : client_hello_wf h -> ClientHello_decode (client_hello_bytes h) = Ok h.
Proof.
  intros (_ & Hr & _ & Hs & _ & Hk & Hcu & Hc & _ & Hm & He). unfold ClientHello_decode.
  assert (cur (Cursor_new (client_hello_bytes h)) (client_hello_bytes h)) as C0.
  { apply cur_new. destruct He as [_ He]. unfold client_hello_bytes.
    rewrite !len_app, !len_cons, !len_app, !len_cons, !len_app, !len_cons, !len_app, !len_to_be, len_suites. lia. }
  unfold client_hello_bytes in C0 at 2.
  destruct (cur_u16 _ _ _ C0) as (c1 & -> & C1); [by_decide|]. cbn [rbind].
  change (negb (DTLS_1_2_VERSION =? DTLS_1_2_VERSION)) with false. cbv iota. unfold read_array_32.
  destruct (cur_read _ 32 _ _ C1) as (c2 & -> & C2); [done|]. cbn [rbind].
  destruct (cur_vec_u8 _ _ _ C2) as (c3 & -> & C3). cbn [rbind].
  destruct (cur_vec_u8 _ _ _ C3) as (c4 & -> & C4). cbn [rbind].
  rewrite <- len_suites in C4.
  destruct (cur_vec_u16 _ _ _ C4) as (c5 & -> & C5); [rewrite len_suites; lia|]. cbn [rbind].
  rewrite len_suites, Z.mul_comm, Z.mod_mul by done. cbn [Z.eqb negb].
  rewrite chunks_exact_of_concat; [|lia|by apply Forall_map, Forall_true; intros; rewrite len_to_be].
  rewrite suites_chunks by done. cbn [rbind].
  destruct (cur_vec_u8 _ _ _ C5) as (c6 & -> & C6). cbn [rbind].
  destruct (cur_extensions _ _ C6 He) as (c7 & -> & C7). cbn [rbind].
  rewrite cur_finish by done. by destruct h.
Qed.

Definition server_hello_bytes (h : ServerHello) : bytes :=
  to_be 2 DTLS_1_2_VERSION ++ sh_random h ++ (len (sh_session_id h) :: sh_session_id h ++
  (to_be 2 (cipher_suite h) ++ (compression_method h ::
  (to_be 2 (len (exts_bytes (sh_extensions h))) ++ exts_bytes (sh_extensions h))))).

Lemma ServerHello_encode_ok h : server_hello_wf h -> ServerHello_encode h = Ok (server_hello_bytes h).
Proof.
  intros (_ & _ & _ & Hs & _ & _ & He). pose proof (len_nonneg (sh_session_id h)).
  unfold ServerHello_encode. rewrite validate_u8_ok by done. cbn [rbind].
  rewrite append_extensions_ok by done. f_equal. rewrite wrap_small by (unfold uint; lia).
  unfold server_hello_bytes. rewrite <- !(assoc_L (++)). cbn [app]. by rewrite <- ?(assoc_L (++)).
Qed.

Lemma ServerHello_decode_bytes h : server_hello_wf h -> ServerHello_decode (server_hello_bytes h) = Ok h.
Proof.
  intros (_ & Hr & _ & Hs & Hc & _ & He). unfold ServerHello_decode.
  assert (cur (Cursor_new (server_hello_bytes h)) (server_hello_bytes h)) as C0.
  { apply cur_new. destruct He as [_ He]. unfold server_hello_bytes.
    rewrite !len_app, !len_cons, !len_app, !len_cons, !len_app, !len_to_be. lia. }
  unfold server_hello_bytes in C0 at 2.
  destruct (cur_u16 _ _ _ C0) as (c1 & -> & C1); [by_decide|]. cbn [rbind].
  change (negb (DTLS_1_2_VERSION =? DTLS_1_2_VERSION)) with false. cbv iota. unfold read_array_32.
  destruct (cur_read _ 32 _ _ C1) as (c2 & -> & C2); [done|]. cbn [rbind].
  destruct (cur_vec_u8 _ _ _ C2) as (c3 & -> & C3). cbn [rbind].
  destruct (cur_u16 _ _ _ C3) as (c4 & -> & C4); [done|]. cbn [rbind].
  destruct (cur_u8 _ _ _ C4) as (c5 & -> & C5). cbn [rbind].
  destruct (cur_extensions _ _ C5 He) as (c7 & -> & C7). cbn [rbind].
  rewrite cur_finish by done. by destruct h.
Qed.

Lemma HelloVerifyRequest_roundtrip v c :
  is_u16 v -> len c <= 255 ->
  HelloVerifyRequest_encode (mkHelloVerifyRequest v c) = Ok (to_be 2 v ++ len c :: c) /\
  HelloVerifyRequest_decode (to_be 2 v ++ len c :: c) = Ok (mkHelloVerifyRequest v c).
Proof.
  intros Hv Hc. pose proof (len_nonneg c). split.
  - unfold HelloVerifyRequest_encode; cbn [hv_cookie server_version]. rewrite validate_u8_ok by done.
    cbn [rbind]. by rewrite wrap_small by (unfold uint; lia).
  - unfold HelloVerifyRequest_decode.
    assert (cur (Cursor_new (to_be 2 v ++ len c :: c)) (to_be 2 v ++ len c :: c ++ [])) as C0.
    { rewrite app_nil_r. apply cur_new. rewrite len_app, len_cons, len_to_be. lia. }
    destruct (cur_u16 _ _ _ C0 Hv) as (c1 & -> & C1). cbn [rbind].
    destruct (cur_vec_u8 _ _ _ C1) as (c2 & -> & C2). cbn [rbind]. by rewrite cur_finish.
Qed.

(** ** No panics *)

(** A cursor inside its slice, whatever the slice holds. *)
Definition cur_ok (c : Cursor) : Prop := 0 <= cur_offset c <= len (cur_bytes c) /\ bytes_ok (cur_bytes c).

Lemma cur_ok_new bs : bytes_ok bs -> cur_ok (Cursor_new bs).
Proof. intros. split; [|done]. simpl. pose proof (len_nonneg bs). lia. Qed.

(** A reader that does not panic, advances and stays inside. *)
Definition reads {A} (P : A -> Prop) (k : Z) (c : Cursor) (r : result DtlsError (A * Cursor)) : Prop :=
  match r with
  | Ok (a, c') => P a /\ cur_ok c' /\ remaining c' + k <= remaining c
  | Err _ => True
  | Panic _ => False
  end.

Lemma reads_bind {A B} P Q k j c (r : result DtlsError (A * Cursor)) (f : A -> Cursor -> result DtlsError (B * Cursor)) :
  reads P k c r -> (forall a c', P a -> cur_ok c' -> remaining c' + k <= remaining c -> reads Q j c' (f a c')) ->
  reads Q (k + j) c (let! '(a, c') := r in f a c').
Proof.
  destruct r as [[a c']|e|p]; simpl; [|done|done]. intros (HP & Hc & Hk) H.
  specialize (H a c' HP Hc Hk). destruct (f a c') as [[b c'']|e|p]; simpl in *; [|done|done].
  destruct H as (? & ? & ?). split; [done|]. split; [done|lia].
Qed.

Lemma read_exact_reads c n :
  cur_ok c -> 0 <= n -> reads (fun bs => bytes_ok bs /\ len bs = n) n c (read_exact c n).
Proof.
  intros [[H0 H1] Hok] Hn. unfold read_exact. destruct (checked_add _ _ _) as [e|] eqn:E; [|done].
  apply checked_add_inv in E as ->. cbn [ok_or rbind].
  destruct (len _ <? _) eqn:El; [done|]; zbool. rewrite slice_ok by lia. cbn [rbind reads].
  split; [split; [by apply Forall_take, Forall_drop|rewrite len_take; [lia|rewrite len_drop; lia]]|].
  split; [split; [cbn [cur_offset cur_bytes]; lia|done]|].
  unfold remaining; cbn [cur_offset cur_bytes]. lia.
Qed.

Lemma read_u8_reads c : cur_ok c -> reads is_u8 1 c (Cursor_read_u8 c).
Proof.
  intros Hc. unfold Cursor_read_u8. pose proof (read_exact_reads c 1 Hc ltac:(lia)) as H.
  destruct (read_exact c 1) as [[bs c']|e|p]; simpl in *; [|done|done].
  destruct H as ((Hb & Hl) & ? & ?). destruct bs as [|b bs]; [done|]. eval_idx. simpl.
  apply Forall_cons_1 in Hb as [? _]. done.
Qed.

Lemma read_u16_reads c : cur_ok c -> reads is_u16 2 c (Cursor_read_u16 c).
Proof.
  intros Hc. unfold Cursor_read_u16. pose proof (read_exact_reads c 2 Hc ltac:(lia)) as H.
  destruct (read_exact c 2) as [[bs c']|e|p]; simpl in *; [|done|done].
  destruct H as ((Hb & Hl) & ? & ?). destruct bs as [|b0 [|b1 bs]]; [done..|].
  rewrite !Forall_cons in Hb. destruct Hb as (? & ? & _).
  unfold dtls_read_u16. eval_idx. simpl. split; [by apply uint16_pair|done].
Qed.

Lemma read_vec_u8_short c : cur_ok c -> reads (fun v => bytes_ok v /\ len v <= 255) 1 c (read_vec_u8 c).
Proof.
  intros Hc. unfold read_vec_u8. replace 1 with (1 + 0) by lia.
  eapply reads_bind; [by apply read_u8_reads|]. intros n c' [? ?] Hc' _.
  pose proof (read_exact_reads c' n Hc' ltac:(done)) as H'.
  destruct (read_exact c' n) as [[? ?]|?|?]; simpl in *; [|done|done].
  destruct H' as ((? & ?) & ? & ?). split; [split; [done|lia]|]. split; [done|lia].
Qed.
Lemma read_vec_u8_reads c : cur_ok c -> reads bytes_ok 1 c (read_vec_u8 c).
Proof.
  intros Hc. pose proof (read_vec_u8_short c Hc) as H. destruct (read_vec_u8 c) as [[? ?]|?|?]; [|done..].
  by destruct H as ([? _] & H).
Qed.

Lemma read_vec_u16_reads c : cur_ok c -> reads bytes_ok 2 c (read_vec_u16 c).
Proof.
  intros Hc. unfold read_vec_u16. replace 2 with (2 + 0) by lia.
  eapply reads_bind; [by apply read_u16_reads|]. intros n c' [? ?] Hc' _.
  pose proof (read_exact_reads c' n Hc' ltac:(done)) as H'.
  destruct (read_exact c' n) as [[? ?]|?|?]; simpl in *; [|done|done].
  destruct H' as ((? & ?) & ? & ?). split; [done|]. split; [done|lia].
Qed.

Lemma reads_safe {A B} P k c (r : result DtlsError (A * Cursor)) (f : A -> Cursor -> result DtlsError B) :
  reads P k c r -> (forall a c', P a -> cur_ok c' -> remaining c' + k <= remaining c -> safe (f a c')) ->
  safe (let! '(a, c') := r in f a c').
Proof. destruct r as [[a c']|e|p]; simpl; [|done|done]. intros (? & ? & ?) Hf. by apply Hf. Qed.

Lemma read_extension_list_safe fuel c :
  cur_ok c -> remaining c <= Z.of_nat fuel -> safe (read_extension_list fuel c).
Proof.
  revert c. induction fuel as [|fuel IH]; intros c Hc Hf; cbn [read_extension_list]; rewrite Z.gtb_ltb.
  - rewrite (proj2 (Z.ltb_ge _ _)) by lia. done.
  - case_match; [|done]. eapply reads_safe; [by apply read_u16_reads|]. intros ty c1 _ Hc1 ?.
    eapply reads_safe; [by apply read_vec_u16_reads|]. intros data c2 _ Hc2 ?.
    apply safe_bind; [|done]. apply IH; [done|lia].
Qed.

Lemma read_extensions_reads c : cur_ok c -> reads (fun _ => True) 0 c (read_extensions c).
Proof.
  intros Hc. unfold read_extensions. case_match; zbool; [simpl; split; [done|]; split; [done|lia]|].
  pose proof (read_vec_u16_reads c Hc) as H'.
  destruct (read_vec_u16 c) as [[bs c']|e|p]; simpl in *; [|done|done]. destruct H' as (Hb & Hc' & ?).
  pose proof (read_extension_list_safe (length bs) (Cursor_new bs) (cur_ok_new bs Hb)) as Hs.
  destruct (read_extension_list _ _); simpl in *; [split; [done|]; split; [done|lia]|done|].
  apply Hs. unfold remaining, Cursor_new, len; simpl. lia.
Qed.

Lemma Cursor_finish_safe c : safe (Cursor_finish c).
Proof. unfold Cursor_finish. by case_match. Qed.

Lemma read_32_reads c : cur_ok c -> reads bytes_ok 32 c (read_array_32 c).
Proof.
  intros Hc. pose proof (read_exact_reads c 32 Hc ltac:(lia)) as H. unfold read_array_32.
  destruct (read_exact c 32) as [[? ?]|?|?]; simpl in *; [|done|done].
  destruct H as ((? & ?) & ? & ?). split; [done|]. by split.
Qed.

(** Walks a decoder read by read. *)
Ltac reads_walk := repeat first
  [ eapply reads_safe; [by first [apply read_u16_reads|apply read_u8_reads|apply read_vec_u8_reads
      |apply read_vec_u16_reads|apply read_32_reads|apply read_extensions_reads]|intros ? ? ? ? _]
  | apply safe_bind; [apply Cursor_finish_safe|done]
  | match goal with |- safe (if ?b then _ else _) => destruct b eqn:?; [done|] end ].

Lemma ClientHello_decode_safe bs : bytes_ok bs -> safe (ClientHello_decode bs).
Proof.
  intros Hok. unfold ClientHello_decode. pose proof (cur_ok_new bs Hok). reads_walk. zbool.
  apply safe_bind; [|intros; reads_walk]. apply safe_chunk_map. intros. safe_auto.
Qed.

Lemma ServerHello_decode_safe bs : bytes_ok bs -> safe (ServerHello_decode bs).
Proof. intros Hok. unfold ServerHello_decode. pose proof (cur_ok_new bs Hok). reads_walk. Qed.

Lemma HelloVerifyRequest_decode_safe bs : bytes_ok bs -> safe (HelloVerifyRequest_decode bs).
Proof. intros Hok. unfold HelloVerifyRequest_decode. pose proof (cur_ok_new bs Hok). reads_walk. Qed.

(** The data of decoded extensions are bytes. *)
Definition data_ok (e : TlsExtension) : Prop := bytes_ok (ext_data e).

Lemma reads_inv {A B} (P : A -> Prop) k c (r : result DtlsError (A * Cursor)) (f : A -> Cursor -> result DtlsError B) b :
  reads P k c r -> (let! '(a, c') := r in f a c') = Ok b -> exists a c', P a /\ cur_ok c' /\ f a c' = Ok b.
Proof. destruct r as [[a c']|e|p]; simpl; [|done|done]. intros (? & ? & _) Hf. by exists a, c'. Qed.

Lemma read_extension_list_data fuel c l : cur_ok c -> read_extension_list fuel c = Ok l -> Forall data_ok l.
Proof.
  revert c l. induction fuel as [|fuel IH]; intros c l Hc; cbn [read_extension_list].
  - case_match; [done|]. intros [= <-]. constructor.
  - case_match; [|intros [= <-]; constructor]. intros H1.
    apply (reads_inv _ _ _ _ _ _ (read_u16_reads c Hc)) in H1 as (ty & c1 & _ & Hc1 & H2).
    apply (reads_inv _ _ _ _ _ _ (read_vec_u16_reads c1 Hc1)) in H2 as (d & c2 & Hd & Hc2 & H3).
    inv_ok. constructor; [done|]. by eapply IH.
Qed.

Lemma read_extensions_data c l c' : cur_ok c -> read_extensions c = Ok (l, c') -> Forall data_ok l.
Proof.
  intros Hc. unfold read_extensions. case_match; [intros [= <- <-]; constructor|]. intros H1.
  apply (reads_inv _ _ _ _ _ _ (read_vec_u16_reads c Hc)) in H1 as (d & c2 & Hd & Hc2 & H3).
  inv_ok. eapply read_extension_list_data; [|done]. by apply cur_ok_new.
Qed.

(** One read of a decoder that succeeded. *)
Ltac read_one lem H :=
  let c' := fresh "c" in let Hc := fresh "Hc" in
  eapply reads_inv in H as (? & c' & _ & Hc & H); [|by apply lem].

Lemma ClientHello_decode_data bs h : bytes_ok bs -> ClientHello_decode bs = Ok h -> Forall data_ok (ch_extensions h).
Proof.
  intros Hok H. unfold ClientHello_decode in H. pose proof (cur_ok_new bs Hok). read_one read_u16_reads H.
  case_match; [done|]. read_one read_32_reads H. read_one read_vec_u8_reads H. read_one read_vec_u8_reads H.
  read_one read_vec_u16_reads H. case_match; [done|]. apply rbind_ok in H as (su & _ & H).
  read_one read_vec_u8_reads H. apply rbind_ok in H as ([es c'] & He & H). inv_ok. cbn [ch_extensions].
  by eapply read_extensions_data.
Qed.

Lemma ServerHello_decode_data bs h : bytes_ok bs -> ServerHello_decode bs = Ok h -> Forall data_ok (sh_extensions h).
Proof.
  intros Hok H. unfold ServerHello_decode in H. pose proof (cur_ok_new bs Hok). read_one read_u16_reads H.
  case_match; [done|]. read_one read_32_reads H. read_one read_vec_u8_reads H. read_one read_u16_reads H.
  read_one read_u8_reads H. apply rbind_ok in H as ([es c'] & He & H). inv_ok. cbn [sh_extensions].
  by eapply read_extensions_data.
Qed.

(** A decoded cookie is a short byte string. *)
Lemma HelloVerifyRequest_decode_data bs h :
  bytes_ok bs -> HelloVerifyRequest_decode bs = Ok h -> bytes_ok (hv_cookie h) /\ len (hv_cookie h) <= 255.
Proof.
  intros Hok H. unfold HelloVerifyRequest_decode in H. pose proof (cur_ok_new bs Hok).
  read_one read_u16_reads H. eapply reads_inv in H as (v & c2 & Hv & _ & H); [|by apply read_vec_u8_short].
  inv_ok. done.
Qed.

Lemma find_extension_ok l ty v : Forall data_ok l -> find_extension l ty = Some v -> bytes_ok v.
Proof.
  intros H. unfold find_extension. destruct (List.find _ l) as [e|] eqn:E; [|done]. intros [= <-].
  apply List.find_some in E as [E _]. rewrite List.Forall_forall in H. by apply H.
Qed.

(** ** Properties *)

(** The hello codecs.  Every well-formed ClientHello, ServerHello and
    HelloVerifyRequest encodes, and decoding the bytes gives it back; on
    arbitrary bytes the decoders terminate without panicking. *)
Theorem hello_codecs :
  (forall h, client_hello_wf h -> exists b, ClientHello_encode h = Ok b /\ ClientHello_decode b = Ok h) /\
  (forall h, server_hello_wf h -> exists b, ServerHello_encode h = Ok b /\ ServerHello_decode b = Ok h) /\
  (forall h, is_u16 (server_version h) -> len (hv_cookie h) <= 255 ->
     exists b, HelloVerifyRequest_encode h = Ok b /\ HelloVerifyRequest_decode b = Ok h) /\
  (forall bs, bytes_ok bs -> safe (ClientHello_decode bs) /\ safe (ServerHello_decode bs) /\
     safe (HelloVerifyRequest_decode bs)).
Proof.
  split_and!.
  - intros h H. eexists. split; [by apply ClientHello_encode_ok|by apply ClientHello_decode_bytes].
  - intros h H. eexists. split; [by apply ServerHello_encode_ok|by apply ServerHello_decode_bytes].
  - intros [v c] Hv Hc. eexists. by apply HelloVerifyRequest_roundtrip.
  - intros bs H. split_and!; [by apply ClientHello_decode_safe|by apply ServerHello_decode_safe|
      by apply HelloVerifyRequest_decode_safe].
Qed.

(** The hello a client state is about to send. *)
Definition hello_of (st : DtlsClientHelloState) : ClientHello :=
  match st_ecjpake_kkpp st with
  | Some kkpp => thread_profile_with_ecjpake (st_random st) (st_cookie st) kkpp
  | None => thread_profile (st_random st) (st_cookie st)
  end.

Definition client_state_wf (st : DtlsClientHelloState) : Prop :=
  client_hello_wf (hello_of st) /\ len (client_hello_bytes (hello_of st)) <= 2 ^ 15 /\
  is_u16 (next_message_sequence st) /\ uint 48 (next_record_sequence st).
#[global] Instance client_state_wf_dec st : Decision (client_state_wf st).
Proof. unfold client_state_wf. apply _. Defined.

Lemma client_hello_bytes_ok h : client_hello_wf h -> bytes_ok (client_hello_bytes h).
Proof.
  intros (? & _ & ? & ? & ? & ? & Hc & ? & ? & ? & [He _]). unfold client_hello_bytes.
  assert (forall v : bytes, len v <= 255 -> is_u8 (len v)) as Hl by (intros v Hv; pose proof (len_nonneg v); unfold uint; lia).
  repeat (apply Forall_app_2 || (apply Forall_cons_2; [by apply Hl|])); auto using to_be_ok.
  - apply Forall_concat, Forall_map, Forall_true. intros. apply to_be_ok.
  - unfold exts_bytes. apply Forall_concat, Forall_map. eapply Forall_impl; [exact He|].
    intros e (_ & ? & _). unfold ext_bytes. rewrite !Forall_app. auto using to_be_ok.
Qed.

Lemma next_client_hello_record_ok st :
  client_state_wf st ->
  exists r, next_client_hello_record st =
    (mkDtlsClientHelloState (st_random st) (st_cookie st) (st_ecjpake_kkpp st)
       (next_record_sequence st + 1) (wrapping_add 16 (next_message_sequence st) 1)
       (Some (next_message_sequence st)), Ok r) /\
    rec_epoch (rec_header r) = 0 /\ sequence_number (rec_header r) = next_record_sequence st /\
    exists m, parse_unfragmented_handshake_record r HtClientHello = Ok m /\
      m = mkHandshakeMessage HtClientHello (next_message_sequence st) (client_hello_bytes (hello_of st)) /\
      ClientHello_decode (hs_payload m) = Ok (hello_of st) /\
      record_wf r /\ content_type (rec_header r) = CtHandshake /\ rec_payload r = msg_bytes m.
Proof.
  intros (Hw & Hl & Hm & [Hr0 Hr]). unfold next_client_hello_record. fold (hello_of st).
  rewrite ClientHello_encode_ok by done. cbn [rbind].
  set (m := mkHandshakeMessage HtClientHello (next_message_sequence st) (client_hello_bytes (hello_of st))).
  assert (msg_wf m) as Hmw.
  { split; [done|]. split; [by apply client_hello_bytes_ok|]. cbn [hs_payload m]. unfold MAX_U24. lia. }
  rewrite HandshakeMessage_encode_ok by done. cbn [rbind]. unfold DtlsRecord_new.
  pose proof (len_msg_bytes m) as Hlm. cbn [m hs_payload] in Hlm.
  rewrite (proj2 (Z.ltb_lt _ _)) by lia. cbn [rbind].
  cbn [st_random st_cookie st_ecjpake_kkpp next_record_sequence next_message_sequence last_client_hello_sequence].
  replace (wrapping_add 64 (next_record_sequence st) 1) with (next_record_sequence st + 1)
    by (unfold wrapping_add; rewrite wrap_small; unfold uint; lia).
  eexists. split; [done|]. split; [done|]. split; [done|]. exists m.
  split; [apply (parse_record_message _ m); done|]. split; [done|]. split; [by apply ClientHello_decode_bytes|].
  split; [|done]. pose proof (len_nonneg (client_hello_bytes (hello_of st))).
  split; [|split; [apply msg_bytes_ok, Hmw|done]]. split; [by_decide|]. split; [by_decide|]. split; [done|].
  cbn [rec_header rec_length]. unfold uint. lia.
Qed.

(** The cookie exchange.  A client sends a hello; the HelloVerifyRequest
    that answers it (same message sequence) with a cookie makes the next hello
    carry that cookie under fresh record and message numbers, otherwise
    unchanged; an answer to any other message sequence is an error and changes
    nothing. *)
Theorem cookie_exchange st cookie rseq seq :
  client_state_wf st -> bytes_ok cookie -> len cookie <= 255 -> is_u16 seq -> uint 48 rseq ->
  let '(st1, r1) := next_client_hello_record st in
  forall hv b r, HelloVerifyRequest_encode (mkHelloVerifyRequest DTLS_1_2_VERSION cookie) = Ok hv ->
    HandshakeMessage_encode (mkHandshakeMessage HtHelloVerifyRequest seq hv) = Ok b ->
    DtlsRecord_new CtHandshake 0 rseq b = Ok r ->
    (seq <> next_message_sequence st ->
       exists e, handle_hello_verify_request st1 r = (st1, Err e)) /\
    (seq = next_message_sequence st ->
       exists st2, handle_hello_verify_request st1 r = (st2, Ok (mkHelloVerifyRequest DTLS_1_2_VERSION cookie)) /\
         st_cookie st2 = cookie /\ ch_cookie (hello_of st2) = cookie /\ ch_random (hello_of st2) = ch_random (hello_of st) /\
         ch_extensions (hello_of st2) = ch_extensions (hello_of st) /\
         next_record_sequence st2 = next_record_sequence st + 1 /\
         next_message_sequence st2 = wrapping_add 16 (next_message_sequence st) 1).
Proof.
  intros Hw Hc Hl Hseq Hrs. destruct (next_client_hello_record_ok st Hw) as (r1 & -> & _).
  intros hv b r Hhv Hb Hr.
  destruct (HelloVerifyRequest_roundtrip DTLS_1_2_VERSION cookie) as [He Hd]; [by_decide|done|].
  rewrite He in Hhv. injection Hhv as <-. set (body := to_be 2 DTLS_1_2_VERSION ++ len cookie :: cookie) in *.
  set (m := mkHandshakeMessage HtHelloVerifyRequest seq body) in *.
  assert (msg_wf m) as Hm.
  { split; [done|]. pose proof (len_nonneg cookie). split.
    - apply Forall_app_2; [apply to_be_ok|]. apply Forall_cons_2; [unfold uint; lia|done].
    - cbn [hs_payload m]. unfold body, MAX_U24. rewrite len_app, len_cons, len_to_be. lia. }
  rewrite HandshakeMessage_encode_ok in Hb by done. injection Hb as <-. unfold DtlsRecord_new in Hr.
  assert (parse_unfragmented_handshake_record r HtHelloVerifyRequest = Ok m) as Hp.
  { apply (parse_record_message _ m); [done|..]; destruct (_ <? _) in Hr; by inversion Hr. }
  unfold handle_hello_verify_request. rewrite !Hp. cbn [rbind last_client_hello_sequence].
  change (message_seq m) with seq. change (hs_payload m) with body.
  split; intros Hs.
  - rewrite bool_decide_false by congruence. by eexists.
  - rewrite bool_decide_true by congruence. cbn [negb]. rewrite Hd. cbn [rbind server_version].
    change (DTLS_1_2_VERSION =? DTLS_1_2_VERSION) with true. cbn [negb].
    eexists. split; [done|]. unfold hello_of. cbn [st_cookie st_ecjpake_kkpp st_random].
    split_and!; try done; by destruct (st_ecjpake_kkpp st).
Qed.

Lemma cookie_exchange_witness :
  let st := with_ecjpake_kkpp (repeat 7 32) [1; 2; 3] in
  client_state_wf st /\
  exists st2, handle_hello_verify_request (next_client_hello_record st).1
    (mkDtlsRecord (mkRecordHeader CtHandshake DTLS_1_2_VERSION 0 0 18)
       ([3; 0; 0; 6; 0; 0; 0; 0; 0; 0; 0; 6] ++ [0xfe; 0xfd; 3; 9; 8; 7])) =
    (st2, Ok (mkHelloVerifyRequest DTLS_1_2_VERSION [9; 8; 7])) /\ st_cookie st2 = [9; 8; 7].
Proof.
  intros st. assert (client_state_wf st) as Hw by by_decide. split; [exact Hw|].
  pose proof (cookie_exchange st [9; 8; 7] 0 0 Hw ltac:(by_decide) ltac:(by_decide) ltac:(by_decide)
    ltac:(by_decide)) as H.
  destruct (next_client_hello_record st) as [st1 r1]. cbn [fst].
  destruct (H [0xfe; 0xfd; 3; 9; 8; 7] ([3; 0; 0; 6; 0; 0; 0; 0; 0; 0; 0; 6] ++ [0xfe; 0xfd; 3; 9; 8; 7])
    (mkDtlsRecord (mkRecordHeader CtHandshake DTLS_1_2_VERSION 0 0 18)
       ([3; 0; 0; 6; 0; 0; 0; 0; 0; 0; 0; 6] ++ [0xfe; 0xfd; 3; 9; 8; 7])))
    as [_ H2]; [vm_compute; reflexivity..|].
  destruct (H2 eq_refl) as (st2 & ? & ? & _). exists st2. by split.
Defined.
