(* ===== verification/Crypto.v ===== *)
(** * Crypto: record protection and the TLS 1.2 key schedule

    The model of ccm.rs, record_protection.rs and key_schedule.rs in
    crates/meshcop-dtls/src.  The primitives come from other crates (aes, ccm,
    hmac, sha2) and are parameters: the classes [Hash] and [Aead] give their
    operations, [HashLaws] and [AeadLaws] what their documentation promises.
    The module [Toy] has concrete instances of both. *)
From S2P Require Import Prelude Text Tlv Errors Record Handshake.

(** ** Primitives of other crates *)

(** [Sha256::digest] and [Hmac::<Sha256>] ([None]: [new_from_slice] refuses the
    key). *)
Class Hash := {
  sha256 : bytes -> bytes;
  hmac_mac : bytes -> bytes -> option bytes }.

Class HashLaws `{Hash} : Prop := {
  sha256_len x : len (sha256 x) = 32;
  sha256_ok x : bytes_ok (sha256 x);
  (** HMAC takes keys of every length and returns 32 bytes. *)
  hmac_total k x : exists m, hmac_mac k x = Some m /\ len m = 32 /\ bytes_ok m }.

(** [Ccm<Aes128, U8, U12>], key, nonce, associated data and message as
    arguments ([None]: the crate's opaque error). *)
Class Aead := {
  ccm_encrypt : bytes -> bytes -> bytes -> bytes -> option bytes;
  ccm_decrypt : bytes -> bytes -> bytes -> bytes -> option bytes }.

Class AeadLaws `{Aead} : Prop := {
  (** Messages up to the length limit of a 12-byte nonce are encrypted, the
      tag adds eight bytes, and decryption inverts encryption. *)
  ccm_encrypt_total k n a m : bytes_ok m -> len m < 2 ^ 24 ->
    exists c, ccm_encrypt k n a m = Some c /\ len c = len m + 8 /\ bytes_ok c;
  ccm_decrypt_encrypt k n a m c : ccm_encrypt k n a m = Some c -> ccm_decrypt k n a c = Some m;
  ccm_decrypt_ok k n a c m : bytes_ok c -> ccm_decrypt k n a c = Some m -> bytes_ok m }.

(** ** AES-CCM-8 (ccm.rs) *)

Definition TLS_CCM_FIXED_IV_LEN : Z := 4.
Definition TLS_CCM_EXPLICIT_NONCE_LEN : Z := 8.
Definition TLS_CCM_NONCE_LEN : Z := TLS_CCM_FIXED_IV_LEN + TLS_CCM_EXPLICIT_NONCE_LEN.
Definition TLS_CCM_8_TAG_LEN : Z := 8.

(** [copy_from_slice] into an array of [n] bytes. *)
Definition copy_exact {E} (n : Z) (bs : bytes) : result E bytes :=
  if len bs =? n then Ok bs else Panic OutOfBounds.

Definition dtls_ccm_nonce (fixed_iv : bytes) (epoch seq : Z) : result DtlsError bytes :=
  if seq >? 0x0000ffffffffffff then Err (DCrypto "DTLS record sequence number exceeds 48 bits")
  else
    let! iv := copy_exact TLS_CCM_FIXED_IV_LEN fixed_iv in
    Ok (iv ++ to_be 2 epoch ++ sequence_bytes seq).

(** [RecordProtectionKey] is its 16 bytes. *)
Section Aead.
Context `{Aead}.

Definition AesCcm8_encrypt (key nonce aad plaintext : bytes) : result DtlsError bytes :=
  ok_or (ccm_encrypt key nonce aad plaintext) (DCrypto "AES-CCM encryption failed").
Definition AesCcm8_decrypt (key nonce aad ciphertext : bytes) : result DtlsError bytes :=
  ok_or (ccm_decrypt key nonce aad ciphertext) (DCrypto "AES-CCM authentication failed").

(** ** Record protection (record_protection.rs) *)

Definition protect_aes_128_ccm_8_record (ct : ContentType) (epoch seq : Z) (key fixed_iv plaintext : bytes)
    : result DtlsError DtlsRecord :=
  let! plaintext_len := if len plaintext <? 2 ^ 16 then Ok (len plaintext)
                        else Err (DCrypto "DTLS plaintext is too long") in
  let! nonce := dtls_ccm_nonce fixed_iv epoch seq in
  let header := mkRecordHeader ct DTLS_1_2_VERSION epoch seq 0 in
  let aad := aead_additional_data header plaintext_len in
  let! ciphertext := AesCcm8_encrypt key nonce aad plaintext in
  let! explicit := slice_from nonce TLS_CCM_FIXED_IV_LEN in
  DtlsRecord_new ct epoch seq (explicit ++ ciphertext).

Definition open_aes_128_ccm_8_record (record : DtlsRecord) (key fixed_iv : bytes) : result DtlsError bytes :=
  if len (rec_payload record) <? TLS_CCM_EXPLICIT_NONCE_LEN + TLS_CCM_8_TAG_LEN
  then Err (DCrypto "DTLS AES-CCM record payload is too short")
  else
    let! encrypted := slice_from (rec_payload record) TLS_CCM_EXPLICIT_NONCE_LEN in
    let! plaintext_len := ok_or (checked_sub (len encrypted) TLS_CCM_8_TAG_LEN)
                            (DCrypto "DTLS AES-CCM tag is missing") in
    let! plaintext_len := if plaintext_len <? 2 ^ 16 then Ok plaintext_len
                          else Err (DCrypto "DTLS plaintext length exceeds 16 bits") in
    let! iv := copy_exact TLS_CCM_FIXED_IV_LEN fixed_iv in
    let! explicit := slice_to (rec_payload record) TLS_CCM_EXPLICIT_NONCE_LEN in
    let aad := aead_additional_data (rec_header record) plaintext_len in
    AesCcm8_decrypt key (iv ++ explicit) aad encrypted.
End Aead.

(** ** Key schedule (key_schedule.rs) *)

Record KeyBlock := mkKeyBlock {
  client_write_key : bytes;
  server_write_key : bytes;
  client_write_iv : bytes;
  server_write_iv : bytes }.

Record ThreadDtlsKeyMaterial := mkKeyMaterial { master_secret : bytes; key_block : KeyBlock }.

Section Schedule.
Context `{Hash}.

Definition hmac_sha256 (key data : bytes) : result DtlsError bytes :=
  ok_or (hmac_mac key data) (DCrypto "invalid HMAC key").

(** The loop of [tls12_prf]: [a] the current link of the chain. *)
Fixpoint prf_loop (fuel : nat) (secret label_seed a out : bytes) (out_len : Z) : result DtlsError bytes :=
  if len out <? out_len then
    match fuel with
    | O => Panic OutOfFuel
    | S fuel' =>
        let! block := hmac_sha256 secret (a ++ label_seed) in
        let! next := hmac_sha256 secret a in
        prf_loop fuel' secret label_seed next (out ++ block) out_len
    end
  else Ok out.

Definition tls12_prf (secret label seed : bytes) (out_len : Z) : result DtlsError bytes :=
  let label_seed := label ++ seed in
  let! a := hmac_sha256 secret label_seed in
  let! out := prf_loop (Z.to_nat out_len) secret label_seed a [] out_len in
  Ok (take (Z.to_nat out_len) out).

Definition derive_master_secret (pre_master_secret client_random server_random : bytes)
    : result DtlsError bytes :=
  let! bs := tls12_prf pre_master_secret (str_bytes "master secret") (client_random ++ server_random) 48 in
  copy_exact 48 bs.

Definition derive_aes_128_ccm_8_key_block (master client_random server_random : bytes)
    : result DtlsError KeyBlock :=
  let! bs := tls12_prf master (str_bytes "key expansion") (server_random ++ client_random) 40 in
  let! cwk := slice bs 0 16 in
  let! swk := slice bs 16 32 in
  let! cwi := slice bs 32 36 in
  let! swi := slice bs 36 40 in
  Ok (mkKeyBlock cwk swk cwi swi).

Definition derive_joiner_router_kek (master client_random server_random : bytes) : result DtlsError bytes :=
  let! key_block := tls12_prf master (str_bytes "key expansion") (server_random ++ client_random) 40 in
  slice_to (sha256 key_block) 16.

Definition finished_verify_data (master : bytes) (role : FinishedRole) (handshake_hash : bytes)
    : result DtlsError bytes :=
  let label := match role with
    | RoleClient => str_bytes "client finished"
    | RoleServer => str_bytes "server finished"
    end in
  let! bs := tls12_prf master label handshake_hash 12 in
  copy_exact 12 bs.

(** [HandshakeTranscript::finished_verify_data]. *)
Definition transcript_verify_data (self : HandshakeTranscript) (master : bytes) (role : FinishedRole)
    : result DtlsError bytes :=
  finished_verify_data master role (sha256 self).
End Schedule.

(** ** The pseudo-random function *)
Section ScheduleLemmas.
Context `{HashLaws}.

Definition mac (k x : bytes) : bytes := default [] (hmac_mac k x).

Lemma hmac_sha256_ok k x : hmac_sha256 k x = Ok (mac k x).
Proof. unfold hmac_sha256, mac. by destruct (hmac_total k x) as (m & -> & _). Qed.
Lemma mac_len k x : len (mac k x) = 32.
Proof. unfold mac. by destruct (hmac_total k x) as (m & -> & ? & _). Qed.
Lemma mac_ok k x : bytes_ok (mac k x).
Proof. unfold mac. by destruct (hmac_total k x) as (m & -> & _ & ?). Qed.

(** The first [k] blocks of P_SHA-256 after link [a]. *)
Fixpoint prf_blocks (k : nat) (secret label_seed a : bytes) : bytes :=
  match k with
  | O => []
  | S k' => mac secret (a ++ label_seed) ++ prf_blocks k' secret label_seed (mac secret a)
  end.

Lemma prf_blocks_len k s ls a : len (prf_blocks k s ls a) = 32 * Z.of_nat k.
Proof. revert a. induction k as [|k IH]; intros a; [done|]. cbn [prf_blocks]. rewrite len_app, mac_len, IH. lia. Qed.

Lemma prf_blocks_ok k s ls a : bytes_ok (prf_blocks k s ls a).
Proof. revert a. induction k as [|k IH]; intros a; [done|]. apply Forall_app_2; [apply mac_ok|apply IH]. Qed.

Lemma prf_blocks_prefix k j s ls a : exists t, prf_blocks (k + j) s ls a = prf_blocks k s ls a ++ t.
Proof.
  revert a. induction k as [|k IH]; intros a; [by exists (prf_blocks j s ls a)|].
  destruct (IH (mac s a)) as [t Ht]. exists t. cbn [prf_blocks Nat.add]. by rewrite Ht, (assoc_L (++)).
Qed.

Lemma prf_loop_ok fuel s ls a out n :
  n <= len out + 32 * Z.of_nat fuel ->
  exists k, prf_loop fuel s ls a out n = Ok (out ++ prf_blocks k s ls a) /\ n <= len out + 32 * Z.of_nat k.
Proof.
  revert a out. induction fuel as [|fuel IH]; intros a out Hf; cbn [prf_loop].
  - rewrite (proj2 (Z.ltb_ge _ _)) by lia. exists 0%nat. rewrite app_nil_r. split; [done|lia].
  - destruct (len out <? n) eqn:E; zbool; [|exists 0%nat; rewrite app_nil_r; split; [done|lia]].
    rewrite !hmac_sha256_ok. cbn [rbind].
    destruct (IH (mac s a) (out ++ mac s (a ++ ls))) as (k & Hk & Hn); [rewrite len_app, mac_len; lia|].
    exists (S k). rewrite Hk. cbn [prf_blocks]. rewrite len_app, mac_len in Hn.
    rewrite <- (assoc_L (++)). split; [done|lia].
Qed.

Lemma tls12_prf_blocks secret label seed n :
  0 <= n -> exists k, n <= 32 * Z.of_nat k /\
    tls12_prf secret label seed n =
      Ok (take (Z.to_nat n) (prf_blocks k secret (label ++ seed) (mac secret (label ++ seed)))).
Proof.
  intros Hn. unfold tls12_prf. rewrite hmac_sha256_ok. cbn [rbind].
  destruct (prf_loop_ok (Z.to_nat n) secret (label ++ seed) (mac secret (label ++ seed)) [] n)
    as (k & -> & Hk); [rewrite len_nil; lia|]. exists k. rewrite len_nil in Hk. by split; [lia|].
Qed.

Lemma tls12_prf_ok secret label seed n :
  0 <= n -> exists p, tls12_prf secret label seed n = Ok p /\ len p = n /\ bytes_ok p.
Proof.
  intros Hn. destruct (tls12_prf_blocks secret label seed n Hn) as (k & Hk & ->). eexists. split; [done|].
  split; [apply len_take; rewrite prf_blocks_len; lia|apply Forall_take, prf_blocks_ok].
Qed.

Lemma derive_master_secret_ok pms cr sr :
  exists ms, derive_master_secret pms cr sr = Ok ms /\ len ms = 48 /\ bytes_ok ms.
Proof.
  unfold derive_master_secret. destruct (tls12_prf_ok pms (str_bytes "master secret") (cr ++ sr) 48)
    as (p & -> & Hl & Hok); [lia|]. cbn [rbind]. unfold copy_exact. rewrite Hl. by exists p.
Qed.

Lemma transcript_verify_data_ok t ms role :
  exists v, transcript_verify_data t ms role = Ok v /\ len v = 12 /\ bytes_ok v.
Proof.
  unfold transcript_verify_data, finished_verify_data.
  destruct (tls12_prf_ok ms (match role with RoleClient => str_bytes "client finished"
    | RoleServer => str_bytes "server finished" end) (sha256 t) 12) as (p & -> & Hl & Hok); [lia|].
  cbn [rbind]. unfold copy_exact. rewrite Hl. by exists p.
Qed.

(** The 40 bytes of a key block, in expansion order. *)
Definition key_block_bytes (b : KeyBlock) : bytes :=
  client_write_key b ++ server_write_key b ++ client_write_iv b ++ server_write_iv b.

Definition key_block_wf (b : KeyBlock) : Prop :=
  len (client_write_key b) = 16 /\ len (server_write_key b) = 16 /\
  len (client_write_iv b) = 4 /\ len (server_write_iv b) = 4.

Lemma derive_key_block_ok ms cr sr :
  exists b, derive_aes_128_ccm_8_key_block ms cr sr = Ok b /\ key_block_wf b /\
    tls12_prf ms (str_bytes "key expansion") (sr ++ cr) 40 = Ok (key_block_bytes b).
Proof.
  unfold derive_aes_128_ccm_8_key_block.
  destruct (tls12_prf_ok ms (str_bytes "key expansion") (sr ++ cr) 40) as (p & -> & Hl & Hok); [lia|].
  cbn [rbind]. rewrite !slice_ok by lia. cbn [rbind]. eexists. split; [done|].
  unfold key_block_bytes, key_block_wf. cbn [client_write_key server_write_key client_write_iv server_write_iv].
  split; [repeat split; (rewrite len_take; [lia|rewrite len_drop; lia])|]. f_equal.
  change (Z.to_nat (16 - 0)) with 16%nat. change (Z.to_nat (32 - 16)) with 16%nat.
  change (Z.to_nat (36 - 32)) with 4%nat. change (Z.to_nat (40 - 36)) with 4%nat.
  change (Z.to_nat 0) with 0%nat. change (Z.to_nat 16) with 16%nat. change (Z.to_nat 32) with 32%nat.
  change (Z.to_nat 36) with 36%nat. rewrite drop_0, (take_ge (drop 36 p)) by (rewrite length_drop; unfold len in Hl; lia).
  replace (drop 36 p) with (drop 4 (drop 32 p)) by by rewrite drop_drop. rewrite take_drop.
  replace (drop 32 p) with (drop 16 (drop 16 p)) by by rewrite drop_drop. by rewrite !take_drop.
Qed.

Lemma derive_kek_ok ms cr sr kb :
  tls12_prf ms (str_bytes "key expansion") (sr ++ cr) 40 = Ok kb ->
  derive_joiner_router_kek ms cr sr = Ok (take 16 (sha256 kb)).
Proof.
  intros Hp. unfold derive_joiner_router_kek. rewrite Hp. cbn [rbind].
  pose proof (sha256_len kb). by rewrite slice_to_ok by lia.
Qed.
End ScheduleLemmas.

(** ** Records on the wire *)
Section Protection.
Context `{AeadLaws}.

Lemma dtls_ccm_nonce_ok iv epoch seq :
  len iv = 4 -> uint 48 seq -> dtls_ccm_nonce iv epoch seq = Ok (iv ++ to_be 2 epoch ++ to_be 6 seq).
Proof.
  intros Hl [? ?]. unfold dtls_ccm_nonce. rewrite Z.gtb_ltb, (proj2 (Z.ltb_ge _ _)) by lia.
  unfold copy_exact, TLS_CCM_FIXED_IV_LEN. rewrite Hl. cbn [Z.eqb Pos.eqb rbind]. by rewrite sequence_bytes_be.
Qed.

Lemma protect_ok ct epoch seq key iv plaintext :
  is_u16 epoch -> uint 48 seq -> len iv = 4 -> bytes_ok plaintext -> len plaintext + 16 < 2 ^ 16 ->
  exists r, protect_aes_128_ccm_8_record ct epoch seq key iv plaintext = Ok r /\ record_wf r /\
    content_type (rec_header r) = ct /\ rec_epoch (rec_header r) = epoch /\
    sequence_number (rec_header r) = seq /\ open_aes_128_ccm_8_record r key iv = Ok plaintext.
Proof.
  intros He Hs Hiv Hp Hl. unfold protect_aes_128_ccm_8_record. pose proof (len_nonneg plaintext).
  rewrite (proj2 (Z.ltb_lt _ _)) by lia. cbn [rbind]. rewrite dtls_ccm_nonce_ok by done. cbn [rbind].
  set (explicit := to_be 2 epoch ++ to_be 6 seq).
  assert (len explicit = 8) as Hx by (unfold explicit; by rewrite len_app, !len_to_be).
  set (aad := aead_additional_data _ _).
  destruct (ccm_encrypt_total key (iv ++ explicit) aad plaintext) as (c & Hc & Hcl & Hcok); [done|lia|].
  unfold AesCcm8_encrypt. rewrite Hc. cbn [ok_or rbind]. unfold TLS_CCM_FIXED_IV_LEN.
  rewrite <- Hiv, slice_from_prefix. cbn [rbind]. unfold DtlsRecord_new.
  rewrite (proj2 (Z.ltb_lt _ _)) by (rewrite len_app; lia). cbn [rbind].
  eexists. split; [done|]. unfold record_wf, header_wf.
  cbn [rec_header rec_payload content_type rec_version rec_epoch sequence_number rec_length].
  split; [split; [|split; [|done]]|split; [done|split; [done|split; [done|]]]].
  - split; [by_decide|]. split; [done|]. split; [done|]. pose proof (len_nonneg (explicit ++ c)).
    unfold uint. rewrite len_app in *. lia.
  - apply Forall_app_2; [|done]. apply Forall_app_2; apply to_be_ok.
  - unfold open_aes_128_ccm_8_record, TLS_CCM_EXPLICIT_NONCE_LEN, TLS_CCM_8_TAG_LEN. cbn [rec_payload rec_header].
    rewrite (proj2 (Z.ltb_ge _ _)) by (rewrite len_app; lia). rewrite <- Hx, slice_from_prefix. cbn [rbind].
    unfold checked_sub. rewrite (proj2 (Z.leb_le _ _)) by lia. cbn [ok_or rbind].
    replace (len c - len explicit) with (len plaintext) by lia.
    rewrite (proj2 (Z.ltb_lt _ _)) by lia. cbn [rbind]. unfold copy_exact, TLS_CCM_FIXED_IV_LEN. rewrite Hiv.
    cbn [Z.eqb Pos.eqb rbind]. unfold slice_to. rewrite (slice_at [] explicit c) by done. cbn [rbind].
    unfold AesCcm8_decrypt. change (aead_additional_data _ (len plaintext)) with aad.
    by rewrite (ccm_decrypt_encrypt _ _ _ _ _ Hc).
Qed.
End Protection.

(** ** Concrete instances *)
Module Toy.
Definition mix (l : bytes) : Z := fold_left (fun acc b => (acc * 257 + b + 1) mod (2 ^ 61 - 1)) l 7.

#[export] Instance toy_hash : Hash := {
  sha256 x := to_be 32 (mix x);
  hmac_mac k x := Some (to_be 32 (mix (k ++ [len k] ++ x))) }.

#[export] Instance toy_hash_laws : HashLaws.
Proof.
  split; intros; [apply len_to_be|apply to_be_ok|].
  eexists. split; [done|]. split; [apply len_to_be|apply to_be_ok].
Qed.

Definition toy_tag (k n a m : bytes) : bytes := to_be 8 (mix (k ++ n ++ a ++ m)).
Definition toy_open (k n a c : bytes) : option bytes :=
  let m := take (length c - 8) c in
  if vec_eqb (drop (length c - 8) c) (toy_tag k n a m) then Some m else None.

#[export] Instance toy_aead : Aead := {
  ccm_encrypt k n a m := Some (m ++ toy_tag k n a m);
  ccm_decrypt := toy_open }.

#[export] Instance toy_aead_laws : AeadLaws.
Proof.
  split; [intros k n a m Hm Hl|intros k n a m c [= <-]|intros k n a c m Hc H].
  - eexists. split; [done|]. unfold toy_tag. split; [by rewrite len_app, len_to_be|].
    apply Forall_app_2; [done|apply to_be_ok].
  - change (toy_open k n a (m ++ toy_tag k n a m) = Some m). unfold toy_open.
    assert (length (m ++ toy_tag k n a m) - 8 = length m)%nat as ->.
    { rewrite length_app. unfold toy_tag. rewrite length_to_be. lia. }
    rewrite take_app_length, drop_app_length. unfold vec_eqb. by rewrite bool_decide_true.
  - change (toy_open k n a c = Some m) in H. unfold toy_open in H. case_match; [|done]. injection H as <-.
    by apply Forall_take.
Qed.
End Toy.

(** ** Properties *)

(** C36: record protection.  A protected record keeps its type, epoch and
    number, survives the wire, and opens with the same key and IV to the
    plaintext. *)
Theorem record_protection_roundtrip `{AeadLaws} ct epoch seq key iv plaintext :
  is_u16 epoch -> uint 48 seq -> len iv = 4 -> bytes_ok plaintext -> len plaintext + 16 < 2 ^ 16 ->
  exists r b, protect_aes_128_ccm_8_record ct epoch seq key iv plaintext = Ok r /\
    encode_datagram [r] = Ok b /\ parse_datagram b = Ok [r] /\
    content_type (rec_header r) = ct /\ rec_epoch (rec_header r) = epoch /\
    sequence_number (rec_header r) = seq /\ open_aes_128_ccm_8_record r key iv = Ok plaintext.
Proof.
  intros He Hs Hiv Hp Hl. destruct (protect_ok ct epoch seq key iv plaintext) as (r & Hr & Hw & ? & ? & ? & Ho); try done.
  assert (Forall record_wf [r]) as Hws by by apply Forall_singleton.
  exists r, (concat (map record_bytes [r])). split; [done|]. split; [by apply encode_datagram_ok|].
  split; [by apply parse_encode_datagram; [|apply encode_datagram_ok]|]. done.
Qed.

Lemma record_protection_roundtrip_witness :
  exists r b, protect_aes_128_ccm_8_record (H := Toy.toy_aead) CtApplicationData 1 42 (repeat 1 16) [1; 2; 3; 4] [5; 6; 7] = Ok r /\
    encode_datagram [r] = Ok b /\ open_aes_128_ccm_8_record (H := Toy.toy_aead) r (repeat 1 16) [1; 2; 3; 4] = Ok [5; 6; 7].
Proof.
  destruct (record_protection_roundtrip (H := Toy.toy_aead) (H0 := Toy.toy_aead_laws) CtApplicationData 1 42 (repeat 1 16) [1; 2; 3; 4] [5; 6; 7])
    as (r & b & ? & ? & _ & _ & _ & _ & ?); [by_decide|by_decide|done|by_decide|by_decide|].
  exists r, b. by split.
Defined.

(** nonces never repeat under one key: equal nonces come from the same
    epoch and record number, and a number beyond 48 bits is an error. *)
Theorem nonce_unique iv epoch seq epoch' seq' n :
  is_u16 epoch -> is_u16 epoch' -> 0 <= seq -> 0 <= seq' ->
  dtls_ccm_nonce iv epoch seq = Ok n -> dtls_ccm_nonce iv epoch' seq' = Ok n ->
  epoch = epoch' /\ seq = seq' /\ uint 48 seq.
Proof.
  intros He He' H0 H0' Hn Hn'. unfold dtls_ccm_nonce in Hn, Hn'.
  rewrite Z.gtb_ltb in Hn, Hn'. destruct (_ <? seq) eqn:E in Hn; [done|]. destruct (_ <? seq') eqn:E' in Hn'; [done|].
  zbool. rewrite sequence_bytes_be in Hn, Hn'. unfold copy_exact in *. destruct (len iv =? _); [|done].
  cbn [rbind] in *.
  assert (iv ++ to_be 2 epoch ++ to_be 6 seq = iv ++ to_be 2 epoch' ++ to_be 6 seq') as Heq by congruence.
  apply app_inv_head in Heq. apply app_inj_1 in Heq as [H1 H2]; [|by rewrite !length_to_be].
  assert (uint 48 seq /\ uint 48 seq') as [? ?] by (unfold uint; lia).
  split; [|split; [|done]].
  - rewrite <- (from_to_be_small 2 epoch), <- (from_to_be_small 2 epoch') by done. by rewrite H1.
  - rewrite <- (from_to_be_small 6 seq), <- (from_to_be_small 6 seq') by done. by rewrite H2.
Qed.

Lemma nonce_unique_witness :
  exists n, dtls_ccm_nonce [1; 2; 3; 4] 1 7 = Ok n /\ uint 48 7.
Proof.
  eexists. split; [vm_compute; reflexivity|].
  refine (proj2 (proj2 (nonce_unique [1; 2; 3; 4] 1 7 1 7 _ _ _ _ _ _ _)));
    [by_decide|by_decide|lia|lia|vm_compute; reflexivity|vm_compute; reflexivity].
Defined.

(** The key schedule.  The PRF returns exactly the requested number of
    bytes, and fewer bytes are a prefix; the key block is the 40-byte
    expansion cut at 16, 32 and 36, and the Joiner Router KEK is the first
    half of the hash of that same expansion. *)
Theorem key_schedule_spec `{HashLaws} secret label seed n m cr sr :
  0 <= m <= n ->
  (exists p, tls12_prf secret label seed n = Ok p /\ len p = n /\ bytes_ok p /\
     tls12_prf secret label seed m = Ok (take (Z.to_nat m) p)) /\
  (exists b, derive_aes_128_ccm_8_key_block secret cr sr = Ok b /\ key_block_wf b /\
     tls12_prf secret (str_bytes "key expansion") (sr ++ cr) 40 = Ok (key_block_bytes b) /\
     derive_joiner_router_kek secret cr sr = Ok (take 16 (sha256 (key_block_bytes b)))).
Proof.
  intros Hmn. split.
  - destruct (tls12_prf_blocks secret label seed n) as (k & Hk & Hn); [lia|].
    destruct (tls12_prf_blocks secret label seed m) as (j & Hj & Hm); [lia|].
    set (a := mac secret (label ++ seed)) in *.
    eexists. split; [exact Hn|]. split; [apply len_take; rewrite prf_blocks_len; lia|].
    split; [apply Forall_take, prf_blocks_ok|]. rewrite Hm, take_take, Nat.min_l by lia. f_equal.
    destruct (Nat.le_ge_cases j k) as [Hle|Hle].
    + destruct (prf_blocks_prefix j (k - j) secret (label ++ seed) a) as [t Ht].
      replace (j + (k - j))%nat with k in Ht by lia. rewrite Ht, take_app_le; [done|].
      pose proof (prf_blocks_len j secret (label ++ seed) a). unfold len in *. lia.
    + destruct (prf_blocks_prefix k (j - k) secret (label ++ seed) a) as [t Ht].
      replace (k + (j - k))%nat with j in Ht by lia. rewrite Ht, take_app_le; [done|].
      pose proof (prf_blocks_len k secret (label ++ seed) a). unfold len in *. lia.
  - destruct (derive_key_block_ok secret cr sr) as (b & ? & ? & Hp). exists b. split; [done|].
    split; [done|]. split; [done|]. by apply derive_kek_ok.
Qed.

Lemma key_schedule_spec_witness :
  exists p, tls12_prf (H := Toy.toy_hash) [1; 2] (str_bytes "test") [3] 40 = Ok p /\ len p = 40.
Proof.
  destruct (key_schedule_spec (H := Toy.toy_hash) (H0 := Toy.toy_hash_laws) [1; 2] (str_bytes "test") [3] 40 12 [] []) as [(p & ? & ? & _) _];
    [lia|]. exists p. by split.
Defined.
