(* ===== verification/Ecjpake.v ===== *)
(** * Ecjpake: EC J-PAKE over P-256

    The model of crates/meshcop-dtls/src/ecjpake (mod.rs, schnorr.rs and
    codec.rs): the two-round password-authenticated exchange, its Schnorr
    proofs and their TLS encodings.  The curve arithmetic is the p256 crate's
    and the randomness comes from the caller: [Curve] and [Rng] give their
    operations, [CurveLaws] and [RngLaws] what is relied on (P-256 is a group
    of prime order with a SEC1 codec; the generator of random scalars does not
    return zero for ever). *)
From S2P Require Import Prelude Text Tlv Errors Record Handshake Hello Crypto.

(** ** The curve and the random generator *)

Class Curve := {
  scalar : Type;
  point : Type;
  encoded : Type;
  scalar_eq_dec :: EqDecision scalar;
  point_eq_dec :: EqDecision point;
  s_zero : scalar;
  s_one : scalar;
  s_add : scalar -> scalar -> scalar;
  s_mul : scalar -> scalar -> scalar;
  s_sub : scalar -> scalar -> scalar;
  p_identity : point;
  p_generator : point;
  p_add : point -> point -> point;
  p_sub : point -> point -> point;
  p_mul : point -> scalar -> point;
  (** [Scalar::to_bytes], [Scalar::from_repr] and [Reduce::reduce_bytes]. *)
  scalar_to_bytes : scalar -> bytes;
  scalar_parse : bytes -> option scalar;
  scalar_reduce : bytes -> scalar;
  (** [EncodedPoint::from_bytes], [AffinePoint::from_encoded_point],
      [EncodedPoint::x] and [to_affine().to_encoded_point(false).as_bytes()]. *)
  sec1_parse : bytes -> option encoded;
  sec1_decode : encoded -> option point;
  sec1_x : encoded -> option bytes;
  sec1_encode : point -> bytes }.

Class CurveLaws `{Curve} : Prop := {
  scalar_ring : ring_theory s_zero s_one s_add s_mul s_sub (s_sub s_zero) eq;
  p_add_comm p q : p_add p q = p_add q p;
  p_add_assoc p q r : p_add p (p_add q r) = p_add (p_add p q) r;
  p_add_id p : p_add p p_identity = p;
  p_sub_def p q : p_sub p q = p_add p (p_mul q (s_sub s_zero s_one));
  p_mul_zero p : p_mul p s_zero = p_identity;
  p_mul_one p : p_mul p s_one = p;
  p_mul_add p a b : p_mul p (s_add a b) = p_add (p_mul p a) (p_mul p b);
  p_mul_mul p a b : p_mul p (s_mul a b) = p_mul (p_mul p a) b;
  p_mul_p_add p q a : p_mul (p_add p q) a = p_add (p_mul p a) (p_mul q a);
  (** The order is prime. *)
  p_mul_nonzero p a : p <> p_identity -> a <> s_zero -> p_mul p a <> p_identity;
  p_generator_ok : p_generator <> p_identity;
  (** Encodings of scalars (32 bytes) and of points (65 bytes) decode. *)
  scalar_to_bytes_len a : len (scalar_to_bytes a) = 32;
  scalar_to_bytes_ok a : bytes_ok (scalar_to_bytes a);
  scalar_parse_to_bytes a : scalar_parse (scalar_to_bytes a) = Some a;
  sec1_encode_ok p : bytes_ok (sec1_encode p);
  sec1_encode_len p : p <> p_identity -> len (sec1_encode p) = 65;
  sec1_decode_encode p : p <> p_identity ->
    exists e x, sec1_parse (sec1_encode p) = Some e /\ sec1_decode e = Some p /\ sec1_x e = Some x }.

(** [RngCore + CryptoRng]: [Scalar::random] and [fill_bytes]; the loop that
    retries zero scalars is followed for [draw_limit] draws. *)
Class Rng `{Curve} := {
  rng : Type;
  scalar_random : rng -> scalar * rng;
  fill_bytes : rng -> Z -> bytes * rng;
  draw_limit : nat }.

Definition THREAD_CLIENT_ID : bytes := str_bytes "client".
Definition THREAD_SERVER_ID : bytes := str_bytes "server".

Inductive EcJpakeRole := EjClient | EjServer.

Definition thread_participant_id (self : EcJpakeRole) : bytes :=
  match self with EjClient => THREAD_CLIENT_ID | EjServer => THREAD_SERVER_ID end.
Definition peer_role (self : EcJpakeRole) : EcJpakeRole :=
  match self with EjClient => EjServer | EjServer => EjClient end.

Record SchnorrProof := mkSchnorrProof { proof_v : bytes; proof_r : bytes; prover_id : bytes }.

Record RoundOne := mkRoundOne {
  g1 : bytes;
  g2 : bytes;
  proof1 : SchnorrProof;
  proof2 : SchnorrProof;
  participant_id : bytes }.

Record RoundTwo := mkRoundTwo { r2_point : bytes; r2_proof : SchnorrProof }.

Section Curve.
Context `{Hash} `{Curve}.

Record EcJpakeParty := mkEcJpakeParty {
  role : EcJpakeRole;
  party_id : bytes;
  secret : scalar;
  x1 : scalar;
  x2 : scalar }.

(** ** Scalars and points (mod.rs) *)

Definition scalar_from_secret (sec : bytes) : scalar :=
  let bs := if len sec <=? 32 then repeat 0 (Z.to_nat (32 - len sec)) ++ sec else sha256 sec in
  let s := scalar_reduce bs in
  if decide (s = s_zero) then s_one else s.

Definition scalar_from_repr (bs : bytes) : result DtlsError scalar :=
  ok_or (scalar_parse bs) (DCrypto "invalid scalar representation").

Definition point_from_bytes (bs : bytes) : result DtlsError point :=
  let! e := ok_or (sec1_parse bs) (DCrypto "invalid SEC1 point encoding") in
  let! p := ok_or (sec1_decode e) (DCrypto "point is not on P-256") in
  if decide (p = p_identity) then Err (DCrypto "identity point is not allowed") else Ok p.

Definition point_to_bytes (p : point) : bytes := sec1_encode p.

Definition point_x_bytes (p : point) : result DtlsError bytes :=
  let! e := ok_or (sec1_parse (point_to_bytes p)) (DCrypto "invalid SEC1 point encoding") in
  ok_or (sec1_x e) (DCrypto "SEC1 point has no X coordinate").

Definition derive_session_key (shared : point) : result DtlsError bytes :=
  let! shared_x := point_x_bytes shared in Ok (sha256 shared_x).

(** ** Schnorr proofs (schnorr.rs) *)

Definition hash_item (item : bytes) : bytes := to_be 4 (wrap 32 (len item)) ++ item.

Definition challenge_scalar (base v public : point) (prover other_info : bytes) : scalar :=
  scalar_reduce (sha256 (hash_item (point_to_bytes base) ++ hash_item (point_to_bytes v)
    ++ hash_item (point_to_bytes public) ++ hash_item prover
    ++ if is_empty other_info then [] else hash_item other_info)).

Definition SchnorrProof_verify (self : SchnorrProof) (base public : point) (expected_prover_id other_info : bytes)
    : result DtlsError unit :=
  if negb (vec_eqb (prover_id self) expected_prover_id) then Err (DCrypto "Schnorr proof identity mismatch")
  else if decide (public = p_identity) then Err (DCrypto "Schnorr public point is identity")
  else
    let! v_point := point_from_bytes (proof_v self) in
    let! r := scalar_from_repr (proof_r self) in
    let challenge := challenge_scalar base v_point public expected_prover_id other_info in
    let expected := p_add (p_mul base r) (p_mul public challenge) in
    if negb (vec_eqb (point_to_bytes expected) (proof_v self))
    then Err (DCrypto "Schnorr proof verification failed") else Ok tt.

Section Random.
Context `{!Rng}.

(** The loop of [random_scalar]. *)
Fixpoint random_scalar_loop (fuel : nat) (g : rng) (allow_zero : bool) : result DtlsError (scalar * rng) :=
  match fuel with
  | O => Panic OutOfFuel
  | S fuel' =>
      let '(s, g) := scalar_random g in
      if allow_zero then Ok (s, g)
      else if decide (s = s_zero) then random_scalar_loop fuel' g allow_zero
      else Ok (s, g)
  end.
Definition random_scalar (g : rng) (allow_zero : bool) : result DtlsError (scalar * rng) :=
  random_scalar_loop draw_limit g allow_zero.

Definition SchnorrProof_generate (base : point) (private : scalar) (public : point) (prover other_info : bytes)
    (g : rng) : result DtlsError (SchnorrProof * rng) :=
  let! '(v_scalar, g) := random_scalar g false in
  let v_point := p_mul base v_scalar in
  let challenge := challenge_scalar base v_point public prover other_info in
  let r := s_sub v_scalar (s_mul private challenge) in
  let! r_bytes := copy_exact 32 (scalar_to_bytes r) in
  Ok (mkSchnorrProof (point_to_bytes v_point) r_bytes prover, g).

(** ** The exchange (mod.rs) *)

Definition EcJpakeParty_new_with_rng (g : rng) (r : EcJpakeRole) (id shared_secret : bytes)
    : result DtlsError (EcJpakeParty * rng) :=
  let s := scalar_from_secret shared_secret in
  let! '(a, g) := random_scalar g false in
  let! '(b, g) := random_scalar g false in
  Ok (mkEcJpakeParty r id s a b, g).

Definition new_thread_with_rng (g : rng) (r : EcJpakeRole) (shared_secret : bytes)
    : result DtlsError (EcJpakeParty * rng) :=
  EcJpakeParty_new_with_rng g r (thread_participant_id r) shared_secret.

Definition round_one (self : EcJpakeParty) (g : rng) : result DtlsError (RoundOne * rng) :=
  let base := p_generator in
  let q1 := p_mul base (x1 self) in
  let q2 := p_mul base (x2 self) in
  let! '(pf1, g) := SchnorrProof_generate base (x1 self) q1 (party_id self) [] g in
  let! '(pf2, g) := SchnorrProof_generate base (x2 self) q2 (party_id self) [] g in
  Ok (mkRoundOne (point_to_bytes q1) (point_to_bytes q2) pf1 pf2 (party_id self), g).
End Random.

Definition new_with_scalars (r : EcJpakeRole) (id shared_secret a b : bytes) : result DtlsError EcJpakeParty :=
  let! a := scalar_from_repr a in
  let! b := scalar_from_repr b in
  if decide (a = s_zero) then Err (DCrypto "x1/x3 must be nonzero")
  else if decide (b = s_zero) then Err (DCrypto "x2/x4 must be nonzero")
  else Ok (mkEcJpakeParty r id (scalar_from_secret shared_secret) a b).

Definition verify_round_one (peer : RoundOne) : result DtlsError unit :=
  let base := p_generator in
  let! q1 := point_from_bytes (g1 peer) in
  let! q2 := point_from_bytes (g2 peer) in
  if decide (q2 = p_identity) then Err (DCrypto "peer x2/x4 point must not be identity")
  else
    let! _ := SchnorrProof_verify (proof1 peer) base q1 (participant_id peer) [] in
    let! _ := SchnorrProof_verify (proof2 peer) base q2 (participant_id peer) [] in
    Ok tt.

Definition second_round_base (self : EcJpakeParty) (own peer : RoundOne) (sender_role : EcJpakeRole)
    : result DtlsError point :=
  let! own_g1 := point_from_bytes (g1 own) in
  let! own_g2 := point_from_bytes (g2 own) in
  let! peer_g1 := point_from_bytes (g1 peer) in
  let! peer_g2 := point_from_bytes (g2 peer) in
  Ok (match role self, sender_role with
      | EjClient, EjClient => p_add (p_add own_g1 peer_g1) peer_g2
      | EjClient, EjServer => p_add (p_add own_g1 own_g2) peer_g1
      | EjServer, EjServer => p_add (p_add peer_g1 peer_g2) own_g1
      | EjServer, EjClient => p_add (p_add peer_g1 own_g1) own_g2
      end).

Definition round_two `{!Rng} (self : EcJpakeParty) (own peer : RoundOne) (g : rng)
    : result DtlsError (RoundTwo * rng) :=
  let! _ := verify_round_one peer in
  let! base := second_round_base self own peer (role self) in
  if decide (base = p_identity) then Err (DCrypto "second-round generator is identity")
  else
    let exponent := s_mul (x2 self) (secret self) in
    let q := p_mul base exponent in
    let! '(pf, g) := SchnorrProof_generate base exponent q (party_id self) [] g in
    Ok (mkRoundTwo (point_to_bytes q) pf, g).

Definition finish (self : EcJpakeParty) (own peer : RoundOne) (peer_round_two : RoundTwo)
    : result DtlsError bytes :=
  let! _ := verify_round_one peer in
  let! peer_base := second_round_base self own peer (peer_role (role self)) in
  let! peer_point := point_from_bytes (r2_point peer_round_two) in
  let! _ := SchnorrProof_verify (r2_proof peer_round_two) peer_base peer_point (participant_id peer) [] in
  let! peer_x2_point := point_from_bytes (g2 peer) in
  let exponent := s_mul (x2 self) (secret self) in
  let shared := p_mul (p_sub peer_point (p_mul peer_x2_point exponent)) (x2 self) in
  if decide (shared = p_identity) then Err (DCrypto "derived J-PAKE point is identity")
  else derive_session_key shared.
End Curve.
Arguments EcJpakeParty {_}.

(** ** Algebra *)
Section Laws.
Context {HH : Hash} {CC : Curve} {CL : CurveLaws}.
Add Ring scalar_ring_inst : scalar_ring.

Notation O := p_identity.
Notation G := p_generator.

Lemma s_one_nonzero : s_one <> s_zero.
Proof. intros E. apply p_generator_ok. by rewrite <- (p_mul_one G), E, p_mul_zero. Qed.

Lemma s_mul_nonzero a b : a <> s_zero -> b <> s_zero -> s_mul a b <> s_zero.
Proof.
  intros Ha Hb E. apply (p_mul_nonzero (p_mul G a) b); [by apply p_mul_nonzero; [apply p_generator_ok|]|done|].
  by rewrite <- p_mul_mul, E, p_mul_zero.
Qed.

Lemma scalar_from_secret_nonzero sec : scalar_from_secret sec <> s_zero.
Proof. unfold scalar_from_secret. case_decide; [apply s_one_nonzero|done]. Qed.

Lemma p_mul_G_add a b : p_add (p_mul G a) (p_mul G b) = p_mul G (s_add a b).
Proof. by rewrite p_mul_add. Qed.
Lemma p_mul_G_mul a b : p_mul (p_mul G a) b = p_mul G (s_mul a b).
Proof. by rewrite p_mul_mul. Qed.
Lemma p_mul_G_sub a b : p_sub (p_mul G a) (p_mul G b) = p_mul G (s_sub a b).
Proof. rewrite p_sub_def, p_mul_G_mul, p_mul_G_add. f_equal. ring. Qed.

Lemma p_mul_G_nonzero a : a <> s_zero -> p_mul G a <> O.
Proof. intros. apply p_mul_nonzero; [apply p_generator_ok|done]. Qed.

Lemma point_from_to_bytes p : p <> O -> point_from_bytes (point_to_bytes p) = Ok p.
Proof.
  intros Hp. unfold point_from_bytes, point_to_bytes.
  destruct (sec1_decode_encode p Hp) as (e & x & -> & Hd & _). cbn [ok_or rbind]. rewrite Hd. cbn [ok_or rbind].
  by rewrite decide_False.
Qed.

Lemma scalar_from_to_bytes a : scalar_from_repr (scalar_to_bytes a) = Ok a.
Proof. unfold scalar_from_repr. by rewrite scalar_parse_to_bytes. Qed.

(** A proof as the honest prover builds it. *)
Definition honest_proof (pf : SchnorrProof) (id : bytes) : Prop :=
  exists v a, v <> O /\ proof_v pf = point_to_bytes v /\ proof_r pf = scalar_to_bytes a /\ prover_id pf = id.

Class RngLaws `{!Rng} : Prop := {
  random_total g : exists s g', random_scalar g false = Ok (s, g') /\ s <> s_zero;
  fill_bytes_len g n : 0 <= n -> len (fill_bytes g n).1 = n;
  fill_bytes_ok g n : bytes_ok (fill_bytes g n).1 }.

(** ** Schnorr proofs are complete *)
Lemma schnorr_complete `{!Rng} `{!RngLaws} base private prover other g :
  base <> O -> private <> s_zero ->
  exists pf g', SchnorrProof_generate base private (p_mul base private) prover other g = Ok (pf, g') /\
    honest_proof pf prover /\ SchnorrProof_verify pf base (p_mul base private) prover other = Ok tt.
Proof.
  intros Hb Hp. unfold SchnorrProof_generate. destruct (random_total g) as (v & g' & -> & Hv). cbn [rbind].
  set (c := challenge_scalar _ _ _ _ _). unfold copy_exact. rewrite scalar_to_bytes_len. cbn [Z.eqb Pos.eqb rbind].
  assert (p_mul base v <> O) as Hvp by by apply p_mul_nonzero.
  eexists _, g'. split; [done|]. split; [by exists (p_mul base v), (s_sub v (s_mul private c))|].
  unfold SchnorrProof_verify. cbn [prover_id proof_v proof_r]. unfold vec_eqb.
  rewrite bool_decide_true by done. cbn [negb]. rewrite decide_False by by apply p_mul_nonzero.
  rewrite point_from_to_bytes by done. cbn [rbind]. rewrite scalar_from_to_bytes. cbn [rbind]. fold c.
  rewrite <- (p_mul_mul base private c), <- p_mul_add.
  replace (s_add (s_sub v (s_mul private c)) (s_mul private c)) with v by ring. by rewrite bool_decide_true.
Qed.

(** ** Round one *)

Definition party_wf (p : EcJpakeParty) : Prop :=
  x1 p <> s_zero /\ x2 p <> s_zero /\ secret p <> s_zero.

(** The first-round message of an honest party. *)
Definition honest_round_one (p : EcJpakeParty) (r : RoundOne) : Prop :=
  g1 r = point_to_bytes (p_mul G (x1 p)) /\ g2 r = point_to_bytes (p_mul G (x2 p)) /\
  participant_id r = party_id p /\
  honest_proof (proof1 r) (party_id p) /\ honest_proof (proof2 r) (party_id p) /\
  SchnorrProof_verify (proof1 r) G (p_mul G (x1 p)) (party_id p) [] = Ok tt /\
  SchnorrProof_verify (proof2 r) G (p_mul G (x2 p)) (party_id p) [] = Ok tt.

Lemma round_one_ok `{!Rng} `{!RngLaws} p g :
  party_wf p -> exists r g', round_one p g = Ok (r, g') /\ honest_round_one p r.
Proof.
  intros (H1 & H2 & _). unfold round_one.
  destruct (schnorr_complete G (x1 p) (party_id p) [] g) as (pf1 & g1' & -> & ? & ?); [apply p_generator_ok|done|].
  cbn [rbind].
  destruct (schnorr_complete G (x2 p) (party_id p) [] g1') as (pf2 & g2' & -> & ? & ?); [apply p_generator_ok|done|].
  cbn [rbind]. eexists _, g2'. split; [done|]. by repeat split.
Qed.

Lemma honest_points p r : party_wf p -> honest_round_one p r ->
  point_from_bytes (g1 r) = Ok (p_mul G (x1 p)) /\ point_from_bytes (g2 r) = Ok (p_mul G (x2 p)).
Proof.
  intros (H1 & H2 & _) (-> & -> & _). split; apply point_from_to_bytes; by apply p_mul_G_nonzero.
Qed.

Lemma verify_round_one_ok p r : party_wf p -> honest_round_one p r -> verify_round_one r = Ok tt.
Proof.
  intros Hp Hr. destruct (honest_points p r Hp Hr) as [E1 E2]. unfold verify_round_one.
  rewrite E1, E2. cbn [rbind]. destruct Hr as (_ & _ & -> & _ & _ & V1 & V2). destruct Hp as (_ & ? & _).
  rewrite decide_False by by apply p_mul_G_nonzero. by rewrite V1, V2.
Qed.

(** ** Round two and the key *)

(** The exponent of the generator a sender uses in its second round. *)
Definition base_exponent (client server : EcJpakeParty) (sender : EcJpakeRole) : scalar :=
  match sender with
  | EjClient => s_add (s_add (x1 client) (x1 server)) (x2 server)
  | EjServer => s_add (s_add (x1 client) (x2 client)) (x1 server)
  end.

Definition is_pair (client server : EcJpakeParty) : Prop :=
  party_wf client /\ party_wf server /\ role client = EjClient /\ role server = EjServer.

Lemma second_round_base_ok c s rc rs sender :
  is_pair c s -> honest_round_one c rc -> honest_round_one s rs ->
  second_round_base c rc rs sender = Ok (p_mul G (base_exponent c s sender)) /\
  second_round_base s rs rc sender = Ok (p_mul G (base_exponent c s sender)).
Proof.
  intros (Hc & Hs & Rc & Rs) Hrc Hrs.
  destruct (honest_points c rc Hc Hrc) as [C1 C2]. destruct (honest_points s rs Hs Hrs) as [S1 S2].
  unfold second_round_base. rewrite C1, C2, S1, S2. cbn [rbind]. rewrite Rc, Rs.
  destruct sender; cbn [base_exponent]; rewrite !p_mul_G_add; split; do 2 f_equal; ring.
Qed.

(** A second-round message an honest sender builds. *)
Lemma round_two_ok `{!Rng} `{!RngLaws} c s rc rs self own peer g :
  is_pair c s -> honest_round_one c rc -> honest_round_one s rs ->
  (self = c /\ own = rc /\ peer = rs \/ self = s /\ own = rs /\ peer = rc) ->
  base_exponent c s (role self) <> s_zero ->
  exists r2 g', round_two self own peer g = Ok (r2, g') /\
    r2_point r2 = point_to_bytes (p_mul G (s_mul (base_exponent c s (role self)) (s_mul (x2 self) (secret self)))) /\
    honest_proof (r2_proof r2) (party_id self) /\
    SchnorrProof_verify (r2_proof r2) (p_mul G (base_exponent c s (role self)))
      (p_mul G (s_mul (base_exponent c s (role self)) (s_mul (x2 self) (secret self)))) (party_id self) [] = Ok tt.
Proof.
  intros Hp Hrc Hrs Hself Hb. pose proof Hp as (Hc & Hs & _).
  destruct (second_round_base_ok c s rc rs (role self) Hp Hrc Hrs) as [Bc Bs]. unfold round_two.
  assert (verify_round_one peer = Ok tt) as ->.
  { destruct Hself as [(_ & _ & ->)|(_ & _ & ->)]; [by apply (verify_round_one_ok s)|by apply (verify_round_one_ok c)]. }
  assert (second_round_base self own peer (role self) = Ok (p_mul G (base_exponent c s (role self)))) as ->.
  { destruct Hself as [(-> & -> & ->)|(-> & -> & ->)]; done. }
  cbn [rbind]. assert (p_mul G (base_exponent c s (role self)) <> O) as Hbn by by apply p_mul_G_nonzero.
  rewrite decide_False by done.
  assert (s_mul (x2 self) (secret self) <> s_zero) as He.
  { destruct Hself as [(-> & _)|(-> & _)]; apply s_mul_nonzero; [apply Hc..|apply Hs|apply Hs]. }
  destruct (schnorr_complete (p_mul G (base_exponent c s (role self))) (s_mul (x2 self) (secret self))
    (party_id self) [] g Hbn He) as (pf & g' & -> & ? & Hv). cbn [rbind].
  rewrite p_mul_G_mul in *. eexists _, g'. split; [done|]. by split.
Qed.

(** The scalar of the point [self] derives from the message of [sender]. *)
Definition shared_scalar (c s self sender : EcJpakeParty) : scalar :=
  s_mul (s_sub (s_mul (base_exponent c s (role sender)) (s_mul (x2 sender) (secret sender)))
           (s_mul (x2 sender) (s_mul (x2 self) (secret self)))) (x2 self).

Lemma finish_ok c s rc rs self sender own peer r2 :
  is_pair c s -> honest_round_one c rc -> honest_round_one s rs ->
  (self = c /\ sender = s /\ own = rc /\ peer = rs \/ self = s /\ sender = c /\ own = rs /\ peer = rc) ->
  let b := base_exponent c s (role sender) in
  let e := s_mul b (s_mul (x2 sender) (secret sender)) in
  b <> s_zero -> r2_point r2 = point_to_bytes (p_mul G e) ->
  SchnorrProof_verify (r2_proof r2) (p_mul G b) (p_mul G e) (party_id sender) [] = Ok tt ->
  shared_scalar c s self sender <> s_zero ->
  finish self own peer r2 = derive_session_key (p_mul G (shared_scalar c s self sender)).
Proof.
  intros Hp Hrc Hrs Hself b e Hb Hr2 Hv Hsum. pose proof Hp as (Hc & Hs & Rc & Rs).
  assert (verify_round_one peer = Ok tt /\ point_from_bytes (g2 peer) = Ok (p_mul G (x2 sender)) /\
    participant_id peer = party_id sender /\ second_round_base self own peer (peer_role (role self)) = Ok (p_mul G b))
    as (E1 & E2 & E3 & E4).
  { destruct (second_round_base_ok c s rc rs (role sender) Hp Hrc Hrs) as [Bc Bs].
    destruct Hself as [(-> & -> & -> & ->)|(-> & -> & -> & ->)].
    - split; [by apply (verify_round_one_ok s)|]. split; [by apply honest_points|].
      split; [apply Hrs|]. rewrite Rc. cbn [peer_role]. by rewrite <- Rs.
    - split; [by apply (verify_round_one_ok c)|]. split; [by apply honest_points|].
      split; [apply Hrc|]. rewrite Rs. cbn [peer_role]. by rewrite <- Rc. }
  assert (x2 sender <> s_zero /\ secret sender <> s_zero /\ x2 self <> s_zero) as (N1 & N2 & N3)
    by (destruct Hself as [(-> & -> & _)|(-> & -> & _)]; split_and!; first [apply Hc|apply Hs]).
  assert (e <> s_zero) as He by (by repeat apply s_mul_nonzero).
  unfold finish. rewrite E1, E4. cbn [rbind]. rewrite Hr2, point_from_to_bytes by by apply p_mul_G_nonzero.
  cbn [rbind]. rewrite E3, Hv, E2. cbn [rbind]. rewrite p_mul_G_mul, p_mul_G_sub, p_mul_G_mul.
  fold (shared_scalar c s self sender). rewrite decide_False; [done|]. by apply p_mul_G_nonzero.
Qed.

Lemma derive_session_key_ok a : a <> s_zero -> exists k, derive_session_key (p_mul G a) = Ok k.
Proof.
  intros Ha. unfold derive_session_key, point_x_bytes, point_to_bytes.
  destruct (sec1_decode_encode (p_mul G a)) as (e & x & -> & _ & Hx); [by apply p_mul_G_nonzero|].
  cbn [ok_or rbind]. rewrite Hx. cbn [ok_or rbind]. by eexists.
Qed.

Lemma s_sub_nonzero a b : a <> b -> s_sub a b <> s_zero.
Proof. intros Hne E. apply Hne. replace a with (s_add (s_sub a b) b) by ring. rewrite E. ring. Qed.

Lemma s_sub_diag a : s_sub a a = s_zero.
Proof. ring. Qed.

Lemma p_mul_G_inj a b : p_mul G a = p_mul G b -> a = b.
Proof.
  intros E. destruct (decide (a = b)) as [|Hne]; [done|]. destruct (p_mul_G_nonzero (s_sub a b)).
  - by apply s_sub_nonzero.
  - rewrite <- p_mul_G_sub, E, p_mul_G_sub, <- (p_mul_zero G). f_equal. ring.
Qed.

(** With one password both sides reach [(x1 + x3) * x2 * x4 * s]; with two
    different ones they part by [x2 * x4 * (x1 + x2 + x3 + x4) * (s' - s)]. *)
Lemma shared_scalar_agree c s :
  is_pair c s -> secret c = secret s ->
  shared_scalar c s c s = s_mul (s_add (x1 c) (x1 s)) (s_mul (s_mul (x2 c) (x2 s)) (secret s)) /\
  shared_scalar c s s c = shared_scalar c s c s.
Proof.
  intros (_ & _ & Rc & Rs) Hsec. unfold shared_scalar. rewrite Rc, Rs, Hsec. cbn [base_exponent]. split; ring.
Qed.

Lemma shared_scalar_differ c s :
  is_pair c s ->
  s_sub (shared_scalar c s c s) (shared_scalar c s s c) =
    s_mul (s_mul (x2 c) (x2 s))
      (s_mul (s_add (s_add (x1 c) (x2 c)) (s_add (x1 s) (x2 s))) (s_sub (secret s) (secret c))).
Proof. intros (_ & _ & Rc & Rs). unfold shared_scalar. rewrite Rc, Rs. cbn [base_exponent]. ring. Qed.
End Laws.

(** ** TLS encodings (codec.rs)

    [TlsEcJpakeCursor] has the fields of [Cursor]; the writers return the new
    contents of [out]. *)

Definition trim_scalar_bytes (bs : bytes) : bytes :=
  let first_nonzero := match list_find (fun b => b <> 0) bs with
                       | Some (i, _) => i
                       | None => (length bs - 1)%nat
                       end in
  drop first_nonzero bs.

Definition validate_tls_u8_len (n : Z) (name : string) : result DtlsError unit :=
  if n >? 255 then Err (DCrypto (name +:+ " exceeds 255 bytes")) else Ok tt.

Definition write_secp256r1_curve_params (out : bytes) : bytes := out ++ [0x03; 0x00; 0x17].

Definition ej_read_exact (self : Cursor) (n : Z) : result DtlsError (bytes * Cursor) :=
  let! end_ := ok_or (checked_add usize_bits (cur_offset self) n)
                 (DCrypto "ECJPAKE cursor offset overflow") in
  if len (cur_bytes self) <? end_ then Err (DCrypto "ECJPAKE structure is truncated")
  else
    let! out := slice (cur_bytes self) (cur_offset self) end_ in
    Ok (out, mkCursor (cur_bytes self) end_).

Definition ej_read_u8 (self : Cursor) : result DtlsError (Z * Cursor) :=
  let! '(bs, self) := ej_read_exact self 1 in
  let! b := idx bs 0 in Ok (b, self).

Definition ej_read_u16 (self : Cursor) : result DtlsError (Z * Cursor) :=
  let! '(bs, self) := ej_read_exact self 2 in
  let! v := dtls_read_u16 bs in Ok (v, self).

Definition read_opaque_u8 (self : Cursor) (name : string) : result DtlsError (bytes * Cursor) :=
  let! '(n, self) := ej_read_u8 self in
  if n =? 0 then Err (DCrypto (name +:+ " is empty")) else ej_read_exact self n.

Definition read_secp256r1_curve_params (self : Cursor) : result DtlsError (unit * Cursor) :=
  let! '(curve_type, self) := ej_read_u8 self in
  let! '(named_curve, self) := ej_read_u16 self in
  if negb (curve_type =? 0x03) || negb (named_curve =? 0x0017)
  then Err (DCrypto "ECJPAKE key exchange does not use secp256r1") else Ok (tt, self).

Definition ej_finish (self : Cursor) : result DtlsError unit :=
  if cur_offset self =? len (cur_bytes self) then Ok tt
  else Err (DCrypto "trailing bytes after ECJPAKE structure").

Section Codec.
Context {HH : Hash} {CC : Curve}.

Definition write_tls_point (out p : bytes) : result DtlsError bytes :=
  let! parsed := point_from_bytes p in
  let canonical := point_to_bytes parsed in
  let! _ := validate_tls_u8_len (len canonical) "EC point" in
  Ok (out ++ [wrap 8 (len canonical)] ++ canonical).

Definition SchnorrProof_encode_tls (self : SchnorrProof) : result DtlsError bytes :=
  let! out := write_tls_point [] (proof_v self) in
  let r := trim_scalar_bytes (proof_r self) in
  let! _ := validate_tls_u8_len (len r) "Schnorr scalar" in
  if is_empty r then Err (DCrypto "Schnorr scalar must not be empty")
  else Ok (out ++ [wrap 8 (len r)] ++ r).

Definition write_key_kp (out p : bytes) (proof : SchnorrProof) : result DtlsError bytes :=
  let! out := write_tls_point out p in
  let! b := SchnorrProof_encode_tls proof in
  Ok (out ++ b).

Definition encode_tls_kkpp (self : RoundOne) : result DtlsError bytes :=
  let! out := write_key_kp [] (g1 self) (proof1 self) in
  write_key_kp out (g2 self) (proof2 self).

Definition encode_tls_key_exchange (self : RoundTwo) (include_curve_params : bool) : result DtlsError bytes :=
  let out := if include_curve_params then write_secp256r1_curve_params [] else [] in
  write_key_kp out (r2_point self) (r2_proof self).

Definition read_tls_point (self : Cursor) : result DtlsError (bytes * Cursor) :=
  let! '(p, self) := read_opaque_u8 self "EC point" in
  let! parsed := point_from_bytes p in
  Ok (point_to_bytes parsed, self).

Definition read_proof (self : Cursor) (id : bytes) : result DtlsError (SchnorrProof * Cursor) :=
  let! '(v, self) := read_tls_point self in
  let! '(r_bytes, self) := read_opaque_u8 self "Schnorr scalar" in
  if is_empty r_bytes then Err (DCrypto "Schnorr scalar must not be empty")
  else if len r_bytes >? 32 then Err (DCrypto "Schnorr scalar exceeds 32 bytes")
  else
    let r := repeat 0 (Z.to_nat (32 - len r_bytes)) ++ r_bytes in
    let! _ := scalar_from_repr r in
    Ok (mkSchnorrProof v r id, self).

Definition read_key_kp (self : Cursor) (id : bytes) : result DtlsError (bytes * SchnorrProof * Cursor) :=
  let! '(p, self) := read_tls_point self in
  let! '(proof, self) := read_proof self id in
  Ok (p, proof, self).

Definition decode_tls_kkpp (bs id : bytes) : result DtlsError RoundOne :=
  let cursor := Cursor_new bs in
  let! '(p1, pf1, cursor) := read_key_kp cursor id in
  let! '(p2, pf2, cursor) := read_key_kp cursor id in
  let! _ := ej_finish cursor in
  let out := mkRoundOne p1 p2 pf1 pf2 id in
  let! q1 := point_from_bytes (g1 out) in
  let! q2 := point_from_bytes (g2 out) in
  let! _ := SchnorrProof_verify (proof1 out) p_generator q1 (participant_id out) [] in
  let! _ := SchnorrProof_verify (proof2 out) p_generator q2 (participant_id out) [] in
  Ok out.

Definition decode_tls_key_exchange (bs id : bytes) (expect_curve_params : bool) : result DtlsError RoundTwo :=
  let cursor := Cursor_new bs in
  let! '(_, cursor) := if expect_curve_params then read_secp256r1_curve_params cursor else Ok (tt, cursor) in
  let! '(p, pf, cursor) := read_key_kp cursor id in
  let! _ := ej_finish cursor in
  Ok (mkRoundTwo p pf).
End Codec.

(** ** Codec round trips *)

Lemma repeat_zero l : Forall (fun b => b = 0) l -> l = repeat 0 (length l).
Proof. induction 1; simpl; congruence. Qed.

Lemma trim_pad r :
  len r = 32 ->
  let t := trim_scalar_bytes r in
  1 <= len t <= 32 /\ repeat 0 (Z.to_nat (32 - len t)) ++ t = r.
Proof.
  intros Hl t. assert (exists k, (k < 32)%nat /\ t = drop k r /\ Forall (fun b => b = 0) (take k r)) as (k & Hk & Ht & Hz).
  { unfold t, trim_scalar_bytes. unfold len in Hl. destruct (list_find _ r) as [[i b]|] eqn:E.
    - apply list_find_Some in E as (Hi & _ & Hj). exists i. pose proof (lookup_lt_Some _ _ _ Hi).
      split; [lia|]. split; [done|]. apply Forall_lookup. intros j x Hx.
      apply lookup_take_Some in Hx as [Hx ?]. specialize (Hj j x Hx ltac:(lia)). lia.
    - apply list_find_None in E. exists (length r - 1)%nat. split; [lia|]. split; [done|].
      apply Forall_take. eapply Forall_impl; [exact E|]. intros b Hb. simpl in Hb. lia. }
  assert (len t = 32 - Z.of_nat k) as Hlt by (rewrite Ht; unfold len in *; rewrite length_drop; lia).
  split; [lia|]. replace (Z.to_nat (32 - len t)) with (length (take k r))
    by (unfold len in Hl; rewrite length_take; lia).
  rewrite <- (repeat_zero (take k r)) by done. rewrite Ht. apply take_drop.
Qed.

Lemma ej_cur_read c n x r : cur c (x ++ r) -> n = len x ->
  exists c', ej_read_exact c n = Ok (x, c') /\ cur c' r.
Proof.
  intros (pre & -> & Hb) ->. rewrite !len_app in Hb.
  pose proof (len_nonneg pre); pose proof (len_nonneg x); pose proof (len_nonneg r).
  exists (mkCursor ((pre ++ x) ++ r) (len (pre ++ x))). unfold ej_read_exact; cbn [cur_offset cur_bytes].
  rewrite checked_add_usize by lia. cbn [ok_or rbind].
  rewrite (proj2 (Z.ltb_ge _ _)) by (rewrite !len_app; lia). rewrite slice_prefix. cbn [rbind].
  split; [by rewrite <- (assoc_L (++)), len_app|].
  exists (pre ++ x). split; [done|]. rewrite !len_app. lia.
Qed.

Lemma ej_cur_u8 c b r : cur c (b :: r) -> exists c', ej_read_u8 c = Ok (b, c') /\ cur c' r.
Proof.
  intros Hc. destruct (ej_cur_read c 1 [b] r Hc eq_refl) as (c' & Hr & ?). exists c'.
  unfold ej_read_u8. by rewrite Hr.
Qed.

Lemma ej_cur_opaque c v r name : cur c (len v :: v ++ r) -> v <> [] ->
  exists c', read_opaque_u8 c name = Ok (v, c') /\ cur c' r.
Proof.
  intros Hc Hv. destruct (ej_cur_u8 _ _ _ Hc) as (c1 & H1 & Hc1).
  destruct (ej_cur_read c1 (len v) v r Hc1 eq_refl) as (c2 & H2 & ?). exists c2.
  unfold read_opaque_u8. rewrite H1. cbn [rbind].
  rewrite (proj2 (Z.eqb_neq _ _)); [by rewrite H2|]. by rewrite len_zero.
Qed.

Lemma ej_finish_ok c : cur c [] -> ej_finish c = Ok tt.
Proof. intros (pre & -> & _). unfold ej_finish; simpl. by rewrite app_nil_r, Z.eqb_refl. Qed.

Lemma read_curve_params_ok c r : cur c (0x03 :: 0x00 :: 0x17 :: r) ->
  exists c', read_secp256r1_curve_params c = Ok (tt, c') /\ cur c' r.
Proof.
  intros Hc. destruct (ej_cur_u8 _ _ _ Hc) as (c1 & H1 & Hc1).
  destruct (ej_cur_read c1 2 [0; 0x17] r Hc1 eq_refl) as (c2 & H2 & ?). exists c2.
  unfold read_secp256r1_curve_params, ej_read_u16. rewrite H1. cbn [rbind]. by rewrite H2.
Qed.

Section CodecLaws.
Context {HH : Hash} {CC : Curve} {CL : CurveLaws}.

Definition point_field (p : point) : bytes := 65 :: point_to_bytes p.
Definition proof_field (pf : SchnorrProof) : bytes :=
  65 :: proof_v pf ++ len (trim_scalar_bytes (proof_r pf)) :: trim_scalar_bytes (proof_r pf).

Lemma write_tls_point_ok out p :
  p <> p_identity -> write_tls_point out (point_to_bytes p) = Ok (out ++ point_field p).
Proof.
  intros Hp. unfold write_tls_point. rewrite point_from_to_bytes by done. cbn [rbind].
  unfold validate_tls_u8_len, point_to_bytes. rewrite sec1_encode_len by done. done.
Qed.

Lemma encode_proof_ok pf id : honest_proof pf id -> SchnorrProof_encode_tls pf = Ok (proof_field pf).
Proof.
  intros (v & a & Hv & Ev & Er & _). unfold SchnorrProof_encode_tls, proof_field. rewrite Ev.
  rewrite write_tls_point_ok by done. cbn [rbind].
  assert (len (proof_r pf) = 32) as Hl by (rewrite Er; apply scalar_to_bytes_len).
  destruct (trim_pad _ Hl) as [Ht _]. unfold validate_tls_u8_len.
  rewrite Z.gtb_ltb, (proj2 (Z.ltb_ge _ _)) by lia. cbn [rbind].
  destruct (is_empty (trim_scalar_bytes (proof_r pf))) eqn:E; [apply is_empty_true in E; rewrite E, len_nil in Ht; lia|].
  by rewrite wrap_small by (unfold uint; lia).
Qed.

Lemma read_tls_point_ok c p r : cur c (point_field p ++ r) -> p <> p_identity ->
  exists c', read_tls_point c = Ok (point_to_bytes p, c') /\ cur c' r.
Proof.
  intros Hc Hp. unfold point_field in Hc. cbn [app] in Hc.
  rewrite <- (sec1_encode_len p) in Hc by done. fold (point_to_bytes p) in Hc.
  assert (point_to_bytes p <> []) as Hne.
  { intros E. pose proof (sec1_encode_len p Hp) as El. fold (point_to_bytes p) in El. by rewrite E in El. }
  destruct (ej_cur_opaque _ _ _ "EC point" Hc Hne) as (c' & Hr & ?).
  exists c'. unfold read_tls_point. rewrite Hr. cbn [rbind]. by rewrite point_from_to_bytes.
Qed.

Lemma read_proof_ok c pf id r : honest_proof pf id -> cur c (proof_field pf ++ r) ->
  exists c', read_proof c id = Ok (pf, c') /\ cur c' r.
Proof.
  intros (v & a & Hv & Ev & Er & Ei) Hc. unfold proof_field in Hc. rewrite Ev in Hc. cbn [app] in Hc.
  rewrite <- (assoc_L (++)) in Hc. cbn [app] in Hc.
  destruct (read_tls_point_ok c v _ Hc Hv) as (c1 & H1 & Hc1).
  assert (len (proof_r pf) = 32) as Hl by (rewrite Er; apply scalar_to_bytes_len).
  destruct (trim_pad _ Hl) as [Ht Hpad]. set (t := trim_scalar_bytes (proof_r pf)) in *.
  assert (t <> []) as Hne by (intros E; rewrite E, len_nil in Ht; lia).
  destruct (ej_cur_opaque _ _ _ "Schnorr scalar" Hc1 Hne) as (c2 & H2 & ?).
  exists c2. unfold read_proof. rewrite H1. cbn [rbind]. rewrite H2. cbn [rbind].
  destruct (is_empty t) eqn:E; [by apply is_empty_true in E|].
  rewrite Z.gtb_ltb, (proj2 (Z.ltb_ge _ _)) by lia. rewrite Hpad, Er, scalar_from_to_bytes. cbn [rbind].
  split; [|done]. rewrite <- Er, <- Ev, <- Ei. by destruct pf.
Qed.

Definition key_kp_field (p : point) (pf : SchnorrProof) : bytes := point_field p ++ proof_field pf.

Lemma write_key_kp_ok out p pf id : p <> p_identity -> honest_proof pf id ->
  write_key_kp out (point_to_bytes p) pf = Ok (out ++ key_kp_field p pf).
Proof.
  intros Hp Hpf. unfold write_key_kp. rewrite write_tls_point_ok by done. cbn [rbind].
  rewrite (encode_proof_ok pf id) by done. cbn [rbind]. unfold key_kp_field. by rewrite <- (assoc_L (++)).
Qed.

Lemma read_key_kp_ok c p pf id r : p <> p_identity -> honest_proof pf id -> cur c (key_kp_field p pf ++ r) ->
  exists c', read_key_kp c id = Ok (point_to_bytes p, pf, c') /\ cur c' r.
Proof.
  intros Hp Hpf Hc. unfold key_kp_field in Hc. rewrite <- (assoc_L (++)) in Hc.
  destruct (read_tls_point_ok c p _ Hc Hp) as (c1 & H1 & Hc1).
  destruct (read_proof_ok c1 pf id r Hpf Hc1) as (c2 & H2 & ?). exists c2.
  unfold read_key_kp. rewrite H1. cbn [rbind]. by rewrite H2.
Qed.

Lemma len_key_kp_field p pf id : p <> p_identity -> honest_proof pf id -> len (key_kp_field p pf) <= 165.
Proof.
  intros Hp (v & a & Hv & Ev & Er & _). unfold key_kp_field, point_field, proof_field. rewrite Ev.
  assert (len (proof_r pf) = 32) as Hl by (rewrite Er; apply scalar_to_bytes_len).
  destruct (trim_pad _ Hl) as [Ht _].
  rewrite len_app, !len_cons, len_app, len_cons. unfold point_to_bytes. rewrite !sec1_encode_len by done. lia.
Qed.

Lemma key_kp_field_ok p pf id : p <> p_identity -> honest_proof pf id -> bytes_ok (key_kp_field p pf).
Proof.
  intros Hp (v & a & Hv & Ev & Er & _). unfold key_kp_field, point_field, proof_field, point_to_bytes in *. rewrite Ev.
  assert (len (proof_r pf) = 32) as Hl by (rewrite Er; apply scalar_to_bytes_len).
  destruct (trim_pad _ Hl) as [Ht _].
  apply Forall_app_2; (apply Forall_cons_2; [by_decide|]); [apply sec1_encode_ok|].
  apply Forall_app_2; [apply sec1_encode_ok|]. apply Forall_cons_2; [unfold uint; lia|].
  unfold trim_scalar_bytes. apply Forall_drop. rewrite Er. apply scalar_to_bytes_ok.
Qed.

(** The first-round message of an honest party over the wire. *)
Lemma kkpp_roundtrip p r :
  party_wf p -> honest_round_one p r ->
  exists b, encode_tls_kkpp r = Ok b /\ bytes_ok b /\ len b <= 330 /\ decode_tls_kkpp b (party_id p) = Ok r.
Proof.
  intros Hp Hr. destruct (honest_points p r Hp Hr) as [Q1 Q2].
  destruct Hr as (E1 & E2 & Ei & P1 & P2 & V1 & V2). pose proof Hp as (N1 & N2 & _).
  pose proof (p_mul_G_nonzero _ N1) as M1. pose proof (p_mul_G_nonzero _ N2) as M2.
  set (k1 := key_kp_field (p_mul p_generator (x1 p)) (proof1 r)).
  set (k2 := key_kp_field (p_mul p_generator (x2 p)) (proof2 r)).
  pose proof (len_key_kp_field _ _ _ M1 P1). pose proof (len_key_kp_field _ _ _ M2 P2).
  exists (k1 ++ k2). split.
  { unfold encode_tls_kkpp. rewrite E1, E2. rewrite (write_key_kp_ok [] _ _ _ M1 P1). cbn [rbind].
    by rewrite (write_key_kp_ok _ _ _ _ M2 P2). }
  split; [by apply Forall_app_2; eapply key_kp_field_ok|]. split; [rewrite len_app; unfold k1, k2; lia|].
  assert (cur (Cursor_new (k1 ++ k2)) (k1 ++ k2 ++ [])) as C0
    by (rewrite app_nil_r; apply cur_new; rewrite len_app; unfold k1, k2; lia).
  destruct (read_key_kp_ok _ _ _ _ _ M1 P1 C0) as (c1 & R1 & C1).
  destruct (read_key_kp_ok _ _ _ _ _ M2 P2 C1) as (c2 & R2 & C2).
  unfold decode_tls_kkpp. rewrite R1. cbn [rbind]. rewrite R2. cbn [rbind]. rewrite ej_finish_ok by done. cbn [rbind].
  cbn [g1 g2 proof1 proof2 participant_id]. rewrite <- E1, <- E2, Q1, Q2. cbn [rbind]. rewrite V1. cbn [rbind].
  rewrite V2. cbn [rbind]. rewrite <- Ei. by destruct r.
Qed.

(** A second-round message over the wire, with or without curve parameters. *)
Lemma key_exchange_roundtrip p pf id params :
  p <> p_identity -> honest_proof pf id ->
  exists b, encode_tls_key_exchange (mkRoundTwo (point_to_bytes p) pf) params = Ok b /\ bytes_ok b /\ len b <= 168 /\
    decode_tls_key_exchange b id params = Ok (mkRoundTwo (point_to_bytes p) pf).
Proof.
  intros Hp Hpf. pose proof (len_key_kp_field _ _ _ Hp Hpf). set (k := key_kp_field p pf) in *.
  pose proof (key_kp_field_ok _ _ _ Hp Hpf) as Hk.
  exists ((if params then [0x03; 0x00; 0x17] else []) ++ k). split.
  { unfold encode_tls_key_exchange. cbn [r2_point r2_proof]. rewrite (write_key_kp_ok _ _ _ _ Hp Hpf). by destruct params. }
  split; [destruct params; apply Forall_app_2; by first [by_decide|done]|].
  split; [destruct params; rewrite ?len_app, ?len_cons, ?len_nil; lia|].
  unfold decode_tls_key_exchange.
  assert (exists c, (if params then read_secp256r1_curve_params (Cursor_new ((if params then [0x03; 0x00; 0x17] else []) ++ k))
    else Ok (tt, Cursor_new ((if params then [0x03; 0x00; 0x17] else []) ++ k))) = Ok (tt, c) /\ cur c (k ++ []))
    as (c & -> & Hc).
  { rewrite app_nil_r. destruct params; cbn [app].
    - apply read_curve_params_ok, cur_new. rewrite !len_cons. lia.
    - eexists. split; [done|]. apply cur_new. lia. }
  cbn [rbind]. destruct (read_key_kp_ok _ _ _ _ _ Hp Hpf Hc) as (c1 & R1 & C1). rewrite R1. cbn [rbind].
  by rewrite ej_finish_ok.
Qed.

(** ** No panics *)

Lemma ej_read_exact_reads c n :
  cur_ok c -> 0 <= n -> reads (fun bs => bytes_ok bs /\ len bs = n) n c (ej_read_exact c n).
Proof.
  intros [[H0 H1] Hok] Hn. unfold ej_read_exact. destruct (checked_add _ _ _) as [e|] eqn:E; [|done].
  apply checked_add_inv in E as ->. cbn [ok_or rbind].
  destruct (len _ <? _) eqn:El; [done|]; zbool. rewrite slice_ok by lia. cbn [rbind reads].
  split; [split; [by apply Forall_take, Forall_drop|rewrite len_take; [lia|rewrite len_drop; lia]]|].
  split; [split; [cbn [cur_offset cur_bytes]; lia|done]|].
  unfold remaining; cbn [cur_offset cur_bytes]. lia.
Qed.

Lemma ej_read_u8_reads c : cur_ok c -> reads is_u8 1 c (ej_read_u8 c).
Proof.
  intros Hc. unfold ej_read_u8. pose proof (ej_read_exact_reads c 1 Hc ltac:(lia)) as H.
  destruct (ej_read_exact c 1) as [[bs c']|e|p]; simpl in *; [|done|done].
  destruct H as ((Hb & Hl) & ? & ?). destruct bs as [|b bs]; [done|]. eval_idx. simpl.
  apply Forall_cons_1 in Hb as [? _]. done.
Qed.

Lemma ej_read_u16_reads c : cur_ok c -> reads (fun _ => True) 2 c (ej_read_u16 c).
Proof.
  intros Hc. unfold ej_read_u16. pose proof (ej_read_exact_reads c 2 Hc ltac:(lia)) as H.
  destruct (ej_read_exact c 2) as [[bs c']|e|p]; simpl in *; [|done|done].
  destruct H as ((Hb & Hl) & ? & ?). destruct bs as [|b0 [|b1 bs]]; [done..|].
  unfold dtls_read_u16. eval_idx. done.
Qed.

Lemma read_opaque_u8_reads c name : cur_ok c -> reads (fun bs => bytes_ok bs) 1 c (read_opaque_u8 c name).
Proof.
  intros Hc. unfold read_opaque_u8. replace 1 with (1 + 0) by lia.
  eapply reads_bind; [by apply ej_read_u8_reads|]. intros n c' [? ?] Hc' _. case_match; [done|].
  pose proof (ej_read_exact_reads c' n Hc' ltac:(done)) as H'.
  destruct (ej_read_exact c' n) as [[? ?]|?|?]; simpl in *; [|done|done].
  destruct H' as ((? & ?) & ? & ?). split; [done|]. split; [done|lia].
Qed.

(** A check between two reads. *)
Lemma reads_check {A B} P k c (r : result DtlsError A) (f : A -> result DtlsError (B * Cursor)) :
  safe r -> (forall a, reads P k c (f a)) -> reads P k c (rbind r f).
Proof. intros Hr Hf. destruct r; [apply Hf|done|done]. Qed.

Lemma point_from_bytes_safe b : safe (point_from_bytes b).
Proof. unfold point_from_bytes. safe_auto. Qed.

Lemma read_tls_point_reads c : cur_ok c -> reads (fun _ => True) 1 c (read_tls_point c).
Proof.
  intros Hc. unfold read_tls_point. replace 1 with (1 + 0) by lia.
  eapply reads_bind; [by apply read_opaque_u8_reads|]. intros p c' _ Hc' _.
  apply reads_check; [apply point_from_bytes_safe|]. intros q. simpl. split; [done|]. split; [done|lia].
Qed.

Lemma read_key_kp_reads c id : cur_ok c -> reads (fun _ => True) 3 c (read_key_kp c id).
Proof.
  intros Hc. unfold read_key_kp. replace 3 with (1 + 2) by lia.
  eapply reads_bind; [by apply read_tls_point_reads|]. intros p c' _ Hc' _. replace 2 with (2 + 0) by lia.
  eapply (reads_bind (fun _ => True)).
  - unfold read_proof. replace 2 with (1 + 1) by lia. eapply reads_bind; [by apply read_tls_point_reads|].
    intros v c1 _ Hc1 _. replace 1 with (1 + 0) by lia. eapply reads_bind; [by apply read_opaque_u8_reads|].
    intros r c2 _ Hc2 _. do 2 (case_match; [done|]).
    apply reads_check; [unfold scalar_from_repr; safe_auto|]. intros _. simpl. split; [done|]. split; [done|lia].
  - intros pf c1 _ Hc1 _. simpl. split; [done|]. split; [done|lia].
Qed.

Lemma verify_safe pf base public id other : safe (SchnorrProof_verify pf base public id other).
Proof.
  unfold SchnorrProof_verify, scalar_from_repr. do 2 (case_match; [done|]).
  apply safe_bind; [apply point_from_bytes_safe|]. intros. safe_auto.
Qed.

Lemma ej_finish_safe c : safe (ej_finish c).
Proof. unfold ej_finish. by case_match. Qed.

Lemma reads_safe3 {A B C} P k c (r : result DtlsError (A * B * Cursor)) (f : A -> B -> Cursor -> result DtlsError C) :
  reads P k c r -> (forall a b c', cur_ok c' -> safe (f a b c')) -> safe (let! '(a, b, c') := r in f a b c').
Proof. destruct r as [[[a b] c']|e|p]; simpl; [|done|done]. intros (? & ? & ?) Hf. by apply Hf. Qed.

Lemma decode_kkpp_safe bs id : bytes_ok bs -> safe (decode_tls_kkpp bs id).
Proof.
  intros Hok. unfold decode_tls_kkpp. eapply reads_safe3; [by apply read_key_kp_reads, cur_ok_new|].
  intros p1 pf1 c1 Hc1. eapply reads_safe3; [by apply read_key_kp_reads|]. intros p2 pf2 c2 Hc2.
  apply safe_bind; [apply ej_finish_safe|]. intros _ _.
  repeat (apply safe_bind; [by first [apply point_from_bytes_safe|apply verify_safe]|intros ? _]). done.
Qed.

Lemma decode_key_exchange_safe bs id params : bytes_ok bs -> safe (decode_tls_key_exchange bs id params).
Proof.
  intros Hok. unfold decode_tls_key_exchange. pose proof (cur_ok_new bs Hok) as Hc.
  assert (reads (fun _ => True) 0 (Cursor_new bs)
    (if params then read_secp256r1_curve_params (Cursor_new bs) else Ok (tt, Cursor_new bs))) as Hp.
  { destruct params; [|simpl; split; [done|]; split; [done|lia]]. unfold read_secp256r1_curve_params.
    destruct (ej_read_u8 _) as [[t c1]|e|p] eqn:E1; pose proof (ej_read_u8_reads _ Hc) as R1; rewrite E1 in R1; [|done|done].
    destruct R1 as (_ & Hc1 & ?). cbn [rbind]. pose proof (ej_read_u16_reads c1 Hc1) as R2.
    destruct (ej_read_u16 c1) as [[u c2]|e|p]; simpl in *; [|done|done]. destruct R2 as (_ & Hc2 & ?).
    case_match; [done|]. simpl. split; [done|]. split; [done|lia]. }
  eapply reads_safe; [exact Hp|]. intros ? c1 _ Hc1 _.
  eapply reads_safe3; [by apply read_key_kp_reads|]. intros p pf c2 Hc2.
  apply safe_bind; [apply ej_finish_safe|done].
Qed.

Lemma verify_round_one_safe r : safe (verify_round_one r).
Proof.
  unfold verify_round_one. do 2 (apply safe_bind; [apply point_from_bytes_safe|intros ? _]). case_match; [done|].
  do 2 (apply safe_bind; [apply verify_safe|intros ? _]). done.
Qed.

Lemma second_round_base_safe self own peer r : safe (second_round_base self own peer r).
Proof. unfold second_round_base. do 4 (apply safe_bind; [apply point_from_bytes_safe|intros ? _]). done. Qed.

Lemma finish_safe self own peer r2 : safe (finish self own peer r2).
Proof.
  unfold finish, derive_session_key, point_x_bytes.
  apply safe_bind; [apply verify_round_one_safe|intros _ _].
  apply safe_bind; [apply second_round_base_safe|intros b _].
  apply safe_bind; [apply point_from_bytes_safe|intros p _]. apply safe_bind; [apply verify_safe|intros _ _].
  apply safe_bind; [apply point_from_bytes_safe|intros q _]. safe_auto.
Qed.

Lemma round_two_safe `{!Rng} `{!RngLaws} self own peer g : safe (round_two self own peer g).
Proof.
  unfold round_two. apply safe_bind; [apply verify_round_one_safe|intros _ _].
  apply safe_bind; [apply second_round_base_safe|intros b _]. case_match; [done|].
  unfold SchnorrProof_generate. destruct (random_total g) as (v & g' & -> & _). cbn [rbind].
  unfold copy_exact. rewrite scalar_to_bytes_len. done.
Qed.
End CodecLaws.

(** ** A concrete curve

    The additive group of the field with seven elements, with one-byte
    values at the end of fixed-width encodings, and a generator of random
    scalars that counts. *)
Module ToyCurve.
Inductive f7 := F0 | F1 | F2 | F3 | F4 | F5 | F6.

#[export] Instance f7_eq_dec : EqDecision f7.
Proof. solve_decision. Defined.

Definition f7_to_Z (a : f7) : Z :=
  match a with F0 => 0 | F1 => 1 | F2 => 2 | F3 => 3 | F4 => 4 | F5 => 5 | F6 => 6 end.
Definition f7_of_Z (z : Z) : f7 :=
  match z mod 7 with 0 => F0 | 1 => F1 | 2 => F2 | 3 => F3 | 4 => F4 | 5 => F5 | _ => F6 end.
Definition f7_op (op : Z -> Z -> Z) (a b : f7) : f7 := f7_of_Z (op (f7_to_Z a) (f7_to_Z b)).

Definition f7_bytes (n : nat) (a : f7) : bytes := repeat 0 n ++ [f7_to_Z a].
Definition f7_parse (n : nat) (bs : bytes) : option f7 :=
  let a := f7_of_Z (List.last bs 0) in if vec_eqb bs (f7_bytes n a) then Some a else None.

#[export] Instance toy_curve : Curve := {
  scalar := f7; point := f7; encoded := f7;
  s_zero := F0; s_one := F1; s_add := f7_op Z.add; s_mul := f7_op Z.mul; s_sub := f7_op Z.sub;
  p_identity := F0; p_generator := F1; p_add := f7_op Z.add; p_sub := f7_op Z.sub; p_mul := f7_op Z.mul;
  scalar_to_bytes := f7_bytes 31; scalar_parse := f7_parse 31; scalar_reduce bs := f7_of_Z (from_be bs);
  sec1_parse := f7_parse 64; sec1_decode := Some; sec1_x a := Some [f7_to_Z a]; sec1_encode := f7_bytes 64 }.

#[export] Instance toy_curve_laws : CurveLaws.
Proof.
  split; [split|..]; intros;
    repeat match goal with a : f7 |- _ => destruct a | a : scalar |- _ => destruct a | a : point |- _ => destruct a end;
    try reflexivity; try congruence; try (vm_compute; discriminate); try by_decide;
    try match goal with Hne : _ <> _ |- _ => destruct (Hne eq_refl) end.
  all: eexists _, _; split; [vm_compute; reflexivity|split; reflexivity].
Qed.

#[export] Instance toy_rng : Rng := {
  rng := Z;
  scalar_random g := (f7_of_Z g, g + 1);
  fill_bytes g n := (repeat (g mod 256) (Z.to_nat n), g + 1);
  draw_limit := 2%nat }.

Lemma f7_succ g : f7_of_Z g = F0 -> f7_of_Z (g + 1) <> F0.
Proof.
  unfold f7_of_Z. rewrite Zplus_mod. pose proof (Z.mod_pos_bound g 7 ltac:(lia)).
  assert (g mod 7 = 0 \/ g mod 7 = 1 \/ g mod 7 = 2 \/ g mod 7 = 3 \/ g mod 7 = 4 \/ g mod 7 = 5 \/ g mod 7 = 6)
    as [E|[E|[E|[E|[E|[E|E]]]]]] by lia; rewrite E; vm_compute; discriminate.
Qed.

#[export] Instance toy_rng_laws : RngLaws.
Proof.
  split; intros g; [|intros n Hn; unfold len; cbn; rewrite repeat_length; lia|
    intros n; cbn; induction (Z.to_nat n); constructor; [apply Z.mod_pos_bound; lia|done]].
  unfold random_scalar. cbn [draw_limit toy_rng random_scalar_loop scalar_random].
  destruct (decide (f7_of_Z g = F0)) as [E|E].
  - exists (f7_of_Z (g + 1)), (g + 2). pose proof (f7_succ g E) as E'.
    rewrite decide_True, decide_False by done. split; [|done]. do 2 f_equal. lia.
  - exists (f7_of_Z g), (g + 1). by rewrite decide_False.
Qed.
End ToyCurve.

Lemma party_new_ok {HH : Hash} {CC : Curve} {CL : CurveLaws} {R : Rng} {RL : RngLaws} g r id sec :
  exists p g', EcJpakeParty_new_with_rng g r id sec = Ok (p, g') /\ party_wf p /\ role p = r /\
    party_id p = id /\ secret p = scalar_from_secret sec.
Proof.
  unfold EcJpakeParty_new_with_rng. destruct (random_total g) as (a & ga & -> & Ha). cbn [rbind].
  destruct (random_total ga) as (b & gb & -> & Hb). cbn [rbind]. eexists _, gb. split; [done|].
  split; [|done]. split; [done|]. split; [done|]. apply scalar_from_secret_nonzero.
Qed.

(** ** Properties *)

(** C10: the exchange.  A client and a server with passwords of the same
    scalar, both rounds sent honestly, derive the same session key, outside
    the three degenerate sums of ephemeral scalars the protocol refuses.  With
    passwords of different scalars (and ephemeral scalars whose sum is not
    zero) the points they derive are different. *)
Theorem ecjpake_agreement {HH : Hash} {CC : Curve} {CL : CurveLaws} {R : Rng} {RL : RngLaws} c s gc gs :
  is_pair c s ->
  (forall r, base_exponent c s r <> s_zero) ->
  exists rc gc' rs gs' r2c gc'' r2s gs'',
    round_one c gc = Ok (rc, gc') /\ round_one s gs = Ok (rs, gs') /\
    round_two c rc rs gc' = Ok (r2c, gc'') /\ round_two s rs rc gs' = Ok (r2s, gs'') /\
    (secret c = secret s -> s_add (x1 c) (x1 s) <> s_zero ->
       exists k, finish c rc rs r2s = Ok k /\ finish s rs rc r2c = Ok k) /\
    (secret c <> secret s -> s_add (s_add (x1 c) (x2 c)) (s_add (x1 s) (x2 s)) <> s_zero ->
       shared_scalar c s c s <> s_zero -> shared_scalar c s s c <> s_zero ->
       exists p q, p <> q /\ finish c rc rs r2s = derive_session_key p /\
         finish s rs rc r2c = derive_session_key q).
Proof.
  intros Hp Hb. pose proof Hp as (Hc & Hs & Rc & Rs).
  destruct (round_one_ok c gc Hc) as (rc & gc' & Ec & Hrc). destruct (round_one_ok s gs Hs) as (rs & gs' & Es & Hrs).
  destruct (round_two_ok c s rc rs c rc rs gc' Hp Hrc Hrs) as (r2c & gc'' & E2c & Pc & _ & Vc); [by left|apply Hb|].
  destruct (round_two_ok c s rc rs s rs rc gs' Hp Hrc Hrs) as (r2s & gs'' & E2s & Ps & _ & Vs); [by right|apply Hb|].
  exists rc, gc', rs, gs', r2c, gc'', r2s, gs''. do 4 (split; [done|]).
  pose proof (finish_ok c s rc rs c s rc rs r2s Hp Hrc Hrs (or_introl (conj eq_refl (conj eq_refl (conj eq_refl eq_refl))))
    (Hb _) Ps Vs) as Fc.
  pose proof (finish_ok c s rc rs s c rs rc r2c Hp Hrc Hrs (or_intror (conj eq_refl (conj eq_refl (conj eq_refl eq_refl))))
    (Hb _) Pc Vc) as Fs.
  split.
  - intros Hsec Hsum. destruct (shared_scalar_agree c s Hp Hsec) as [A1 A2].
    assert (shared_scalar c s c s <> s_zero) as Hn.
    { rewrite A1. apply s_mul_nonzero; [done|]. apply s_mul_nonzero; [apply s_mul_nonzero|]; first [apply Hc|apply Hs]. }
    destruct (derive_session_key_ok _ Hn) as [k Hk]. exists k.
    rewrite Fc by done. rewrite Fs by by rewrite A2. by rewrite A2.
  - intros Hsec Hsum N1 N2. do 2 eexists. split; [|split; [by apply Fc|by apply Fs]].
    intros E%p_mul_G_inj. pose proof (shared_scalar_differ c s Hp) as D. rewrite E in D.
    assert (s_sub (shared_scalar c s s c) (shared_scalar c s s c) <> s_zero) as Hne.
    { rewrite D. apply s_mul_nonzero; [apply s_mul_nonzero; [apply Hc|apply Hs]|].
      apply s_mul_nonzero; [done|]. apply s_sub_nonzero. congruence. }
    apply Hne, s_sub_diag.
Qed.

(** the TLS encodings of both rounds, curve parameters and trimmed
    scalars included, decode to the message the honest party sent, and the
    first-round decoder verifies its proofs. *)
Theorem ecjpake_codec_roundtrip {HH : Hash} {CC : Curve} {CL : CurveLaws} {R : Rng} {RL : RngLaws} p g params q pf :
  party_wf p -> q <> p_identity -> honest_proof pf (party_id p) ->
  (exists r g' b, round_one p g = Ok (r, g') /\ encode_tls_kkpp r = Ok b /\ bytes_ok b /\
     decode_tls_kkpp b (party_id p) = Ok r) /\
  (exists b, encode_tls_key_exchange (mkRoundTwo (point_to_bytes q) pf) params = Ok b /\ bytes_ok b /\
     decode_tls_key_exchange b (party_id p) params = Ok (mkRoundTwo (point_to_bytes q) pf)).
Proof.
  intros Hp Hq Hpf. split.
  - destruct (round_one_ok p g Hp) as (r & g' & Hr & Hh). destruct (kkpp_roundtrip p r Hp Hh) as (b & ? & ? & _ & ?).
    by exists r, g', b.
  - destruct (key_exchange_roundtrip q pf (party_id p) params Hq Hpf) as (b & ? & ? & _ & ?). by exists b.
Qed.

Section Witness.
#[local] Existing Instance Toy.toy_hash.
#[local] Existing Instance ToyCurve.toy_curve.
#[local] Existing Instance ToyCurve.toy_curve_laws.
#[local] Existing Instance ToyCurve.toy_rng.
#[local] Existing Instance ToyCurve.toy_rng_laws.

Definition toy_client : EcJpakeParty :=
  @mkEcJpakeParty ToyCurve.toy_curve EjClient THREAD_CLIENT_ID ToyCurve.F3 ToyCurve.F1 ToyCurve.F2.
Definition toy_server : EcJpakeParty :=
  @mkEcJpakeParty ToyCurve.toy_curve EjServer THREAD_SERVER_ID ToyCurve.F3 ToyCurve.F2 ToyCurve.F3.

Definition toy_round_one := @round_one Toy.toy_hash ToyCurve.toy_curve ToyCurve.toy_rng.

Lemma toy_pair : is_pair toy_client toy_server.
Proof.
  unfold is_pair, party_wf. split_and!; first [reflexivity|vm_compute; discriminate].
Qed.

Lemma ecjpake_agreement_witness :
  exists rc gc rs gs r2c r2s k,
    toy_round_one toy_client 5 = Ok (rc, gc) /\ toy_round_one toy_server 9 = Ok (rs, gs) /\
    finish toy_client rc rs r2s = Ok k /\ finish toy_server rs rc r2c = Ok k.
Proof.
  destruct (ecjpake_agreement (R := ToyCurve.toy_rng) toy_client toy_server 5 9 toy_pair)
    as (rc & gc & rs & gs & r2c & gc' & r2s & gs' & ? & ? & ? & ? & H & _);
    [intros []; vm_compute; discriminate|].
  destruct H as (k & ? & ?); [reflexivity|vm_compute; discriminate|].
  by exists rc, gc, rs, gs, r2c, r2s, k.
Defined.

Lemma ecjpake_codec_roundtrip_witness :
  exists r g' b, toy_round_one toy_client 5 = Ok (r, g') /\ encode_tls_kkpp r = Ok b /\
    decode_tls_kkpp b THREAD_CLIENT_ID = Ok r.
Proof.
  destruct (ecjpake_codec_roundtrip (CC := ToyCurve.toy_curve) (R := ToyCurve.toy_rng) toy_client 5 true ToyCurve.F2
    (mkSchnorrProof (ToyCurve.f7_bytes 64 ToyCurve.F4) (ToyCurve.f7_bytes 31 ToyCurve.F5) THREAD_CLIENT_ID))
    as [(r & g' & b & ? & ? & ? & ?) _].
  - apply toy_pair.
  - vm_compute. discriminate.
  - exists ToyCurve.F4, ToyCurve.F5. split; [vm_compute; discriminate|]. by split.
  - by exists r, g', b.
Defined.
End Witness.
