(* ===== verification/ThreadHandshake.v ===== *)
(** * ThreadHandshake: the two sides of the Thread DTLS handshake

    The model of crates/meshcop-dtls/src/thread_server_handshake.rs (the
    stateless cookie generator and the server) and thread_handshake.rs (the
    client).  A method that takes [&mut self] is a state transformer [M]; one
    that also takes the random generator works on the pair of the two (a method
    that fails leaves the generator where the last successful step left it).
    The honest run at the end sends every message over the wire as one record. *)
From S2P Require Import Prelude Text Tlv Errors Record Handshake Hello Crypto Ecjpake.

(** Runs a method and keeps the new state with its value. *)
Definition run {S E A} (m : M S E A) (s : S) : result E (S * A) :=
  match m s with (s', Ok a) => Ok (s', a) | (_, Err e) => Err e | (_, Panic f) => Panic f end.

(** ** Cookies *)

Section Cookie.
Context `{Hash}.

(** [DtlsCookieGenerator] is its HMAC key. *)
Record DtlsCookieGenerator := mkDtlsCookieGenerator { cookie_key : bytes }.

Definition DTLS_COOKIE_LEN : Z := 16.

Definition cookie (self : DtlsCookieGenerator) (client_random : bytes) : result DtlsError bytes :=
  let! digest := ok_or (hmac_mac (cookie_key self) client_random) (DCrypto "invalid cookie HMAC key") in
  slice_to digest DTLS_COOKIE_LEN.

Definition verify (self : DtlsCookieGenerator) (client_random received : bytes) : bool :=
  match cookie self client_random with
  | Ok expected => vec_eqb expected received
  | _ => false
  end.
End Cookie.

Section Handshakes.
Context {HH : Hash} {CC : Curve} {RR : Rng}.

Definition DtlsCookieGenerator_new_with_rng (g : rng) : DtlsCookieGenerator * rng :=
  let '(key, g) := fill_bytes g 32 in (mkDtlsCookieGenerator key, g).

(** ** The server (thread_server_handshake.rs) *)

Record ThreadDtlsServerHandshake := mkServerHandshake {
  sv_ecjpake : EcJpakeParty;
  sv_server_round_one : RoundOne;
  sv_client_round_one : option RoundOne;
  sv_client_round_two : option RoundTwo;
  sv_server_random : bytes;
  sv_client_random : option bytes;
  sv_transcript : HandshakeTranscript }.

Definition ServerHandshake_new_with_rng (g : rng) (shared_secret : bytes)
    : result DtlsError (ThreadDtlsServerHandshake * rng) :=
  let '(server_random, g) := fill_bytes g 32 in
  let! '(party, g) := new_thread_with_rng g EjServer shared_secret in
  let! '(server_round_one, g) := round_one party g in
  Ok (mkServerHandshake party server_round_one None None server_random None HandshakeTranscript_new, g).

Definition set_sv_client_round_one (r : RoundOne) (s : ThreadDtlsServerHandshake) :=
  mkServerHandshake (sv_ecjpake s) (sv_server_round_one s) (Some r) (sv_client_round_two s)
    (sv_server_random s) (sv_client_random s) (sv_transcript s).
Definition set_sv_client_round_two (r : RoundTwo) (s : ThreadDtlsServerHandshake) :=
  mkServerHandshake (sv_ecjpake s) (sv_server_round_one s) (sv_client_round_one s) (Some r)
    (sv_server_random s) (sv_client_random s) (sv_transcript s).
Definition set_sv_client_random (r : bytes) (s : ThreadDtlsServerHandshake) :=
  mkServerHandshake (sv_ecjpake s) (sv_server_round_one s) (sv_client_round_one s) (sv_client_round_two s)
    (sv_server_random s) (Some r) (sv_transcript s).
Definition set_sv_transcript (t : HandshakeTranscript) (s : ThreadDtlsServerHandshake) :=
  mkServerHandshake (sv_ecjpake s) (sv_server_round_one s) (sv_client_round_one s) (sv_client_round_two s)
    (sv_server_random s) (sv_client_random s) t.

(** [self.transcript.push(message)?]. *)
Definition sv_push (m : HandshakeMessage) : M ThreadDtlsServerHandshake DtlsError unit := fun s =>
  let '(t, r) := HandshakeTranscript_push (sv_transcript s) m in (set_sv_transcript t s, r).

(** A method of the server inside one that also has the generator. *)
Definition with_rng {S A} (m : M S DtlsError A) : M (S * rng) DtlsError A := fun '(s, g) =>
  let '(s', r) := m s in ((s', g), r).
(** A fallible computation that draws from the generator, with [?]. *)
Definition mdraw {S A} (f : S -> rng -> result DtlsError (A * rng)) : M (S * rng) DtlsError A := fun '(s, g) =>
  match f s g with
  | Ok (a, g') => ((s, g'), Ok a)
  | Err e => ((s, g), Err e)
  | Panic p => ((s, g), Panic p)
  end.

Definition handle_client_hello (message : HandshakeMessage) : M ThreadDtlsServerHandshake DtlsError ClientHello :=
  if negb (bool_decide (message_type message = HtClientHello))
  then merr (DCrypto "expected ClientHello message")
  else
    let* hello := mlift (ClientHello_decode (hs_payload message)) in
    if negb (existsb (Z.eqb TLS_ECJPAKE_WITH_AES_128_CCM_8) (cipher_suites hello))
    then merr (DCrypto "ClientHello does not offer TLS_ECJPAKE_WITH_AES_128_CCM_8")
    else if negb (existsb (Z.eqb TLS_COMPRESSION_NULL) (compression_methods hello))
    then merr (DCrypto "ClientHello does not offer null compression")
    else
      let* kkpp := mlift (ok_or (ClientHello_ecjpake_kkpp hello) (DCrypto "ClientHello missing ECJPAKE KKPP")) in
      let* r := mlift (decode_tls_kkpp kkpp THREAD_CLIENT_ID) in
      let* _ := mset (set_sv_client_round_one r) in
      let* _ := mset (set_sv_client_random (ch_random hello)) in
      let* _ := sv_push message in
      mret hello.

Definition build_server_hello (seq : Z) : M ThreadDtlsServerHandshake DtlsError HandshakeMessage :=
  let* self := mget id in
  if bool_decide (sv_client_random self = None) then merr (DInvalidState "ClientHello has not been accepted")
  else
    let* kkpp := mlift (encode_tls_kkpp (sv_server_round_one self)) in
    let hello := mkServerHello (sv_server_random self) [] TLS_ECJPAKE_WITH_AES_128_CCM_8 TLS_COMPRESSION_NULL
      [mkTlsExtension EXTENSION_ECJPAKE_KKPP kkpp; ec_point_formats_extension] in
    let* payload := mlift (ServerHello_encode hello) in
    let message := mkHandshakeMessage HtServerHello seq payload in
    let* _ := sv_push message in
    mret message.

Definition build_server_key_exchange (seq : Z) : M (ThreadDtlsServerHandshake * rng) DtlsError HandshakeMessage :=
  let* self := mget fst in
  let* client_round_one := mlift (ok_or (sv_client_round_one self)
                             (DInvalidState "client ECJPAKE round one is missing")) in
  let* server_round_two := mdraw (fun self g =>
    round_two (sv_ecjpake self) (sv_server_round_one self) client_round_one g) in
  let* payload := mlift (encode_tls_key_exchange server_round_two true) in
  let message := mkHandshakeMessage ServerKeyExchange seq payload in
  let* _ := with_rng (sv_push message) in
  mret message.

Definition build_server_hello_done (seq : Z) : M ThreadDtlsServerHandshake DtlsError HandshakeMessage :=
  let message := mkHandshakeMessage ServerHelloDone seq [] in
  let* _ := sv_push message in
  mret message.

Definition handle_client_key_exchange (message : HandshakeMessage) : M ThreadDtlsServerHandshake DtlsError unit :=
  if negb (bool_decide (message_type message = ClientKeyExchange))
  then merr (DCrypto "expected ClientKeyExchange message")
  else
    let* client_round_two := mlift (decode_tls_key_exchange (hs_payload message) THREAD_CLIENT_ID false) in
    let* _ := mset (set_sv_client_round_two client_round_two) in
    sv_push message.

Definition server_derive_key_material (self : ThreadDtlsServerHandshake) : result DtlsError ThreadDtlsKeyMaterial :=
  let! client_round_one := ok_or (sv_client_round_one self) (DInvalidState "client ECJPAKE round one is missing") in
  let! client_round_two := ok_or (sv_client_round_two self) (DInvalidState "client ECJPAKE round two is missing") in
  let! client_random := ok_or (sv_client_random self) (DInvalidState "client random is missing") in
  let! pre_master_secret := finish (sv_ecjpake self) (sv_server_round_one self) client_round_one client_round_two in
  let! master := derive_master_secret pre_master_secret client_random (sv_server_random self) in
  let! block := derive_aes_128_ccm_8_key_block master client_random (sv_server_random self) in
  Ok (mkKeyMaterial master block).

Definition verify_client_finished (message : HandshakeMessage) (key_material : ThreadDtlsKeyMaterial)
    : M ThreadDtlsServerHandshake DtlsError unit :=
  if negb (bool_decide (message_type message = Finished)) then merr (DCrypto "expected Finished message")
  else
    let* self := mget id in
    let* expected := mlift (transcript_verify_data (sv_transcript self) (master_secret key_material) RoleClient) in
    if negb (vec_eqb expected (hs_payload message)) then merr (DCrypto "client Finished verify_data mismatch")
    else sv_push message.

Definition build_server_finished (seq : Z) (key_material : ThreadDtlsKeyMaterial)
    : M ThreadDtlsServerHandshake DtlsError HandshakeMessage :=
  let* self := mget id in
  let* verify_data := mlift (transcript_verify_data (sv_transcript self) (master_secret key_material) RoleServer) in
  let message := mkHandshakeMessage Finished seq verify_data in
  let* _ := sv_push message in
  mret message.

Definition server_derive_joiner_router_kek (self : ThreadDtlsServerHandshake) (key_material : ThreadDtlsKeyMaterial)
    : result DtlsError bytes :=
  let! client_random := ok_or (sv_client_random self) (DInvalidState "client random is missing") in
  derive_joiner_router_kek (master_secret key_material) client_random (sv_server_random self).

(** ** The client (thread_handshake.rs) *)

Record ThreadDtlsHandshake := mkClientHandshake {
  cl_ecjpake : EcJpakeParty;
  cl_client_round_one : RoundOne;
  cl_server_round_one : option RoundOne;
  cl_server_round_two : option RoundTwo;
  cl_client_random : bytes;
  cl_server_random : option bytes;
  cl_transcript : HandshakeTranscript }.

Definition ClientHandshake_new_with_rng (g : rng) (pskc : bytes) : result DtlsError (ThreadDtlsHandshake * rng) :=
  let '(client_random, g) := fill_bytes g 32 in
  let! '(party, g) := new_thread_with_rng g EjClient pskc in
  let! '(client_round_one, g) := round_one party g in
  Ok (mkClientHandshake party client_round_one None None client_random None HandshakeTranscript_new, g).

Definition set_cl_server_round_one (r : RoundOne) (s : ThreadDtlsHandshake) :=
  mkClientHandshake (cl_ecjpake s) (cl_client_round_one s) (Some r) (cl_server_round_two s)
    (cl_client_random s) (cl_server_random s) (cl_transcript s).
Definition set_cl_server_round_two (r : RoundTwo) (s : ThreadDtlsHandshake) :=
  mkClientHandshake (cl_ecjpake s) (cl_client_round_one s) (cl_server_round_one s) (Some r)
    (cl_client_random s) (cl_server_random s) (cl_transcript s).
Definition set_cl_server_random (r : bytes) (s : ThreadDtlsHandshake) :=
  mkClientHandshake (cl_ecjpake s) (cl_client_round_one s) (cl_server_round_one s) (cl_server_round_two s)
    (cl_client_random s) (Some r) (cl_transcript s).
Definition set_cl_transcript (t : HandshakeTranscript) (s : ThreadDtlsHandshake) :=
  mkClientHandshake (cl_ecjpake s) (cl_client_round_one s) (cl_server_round_one s) (cl_server_round_two s)
    (cl_client_random s) (cl_server_random s) t.

Definition cl_push (m : HandshakeMessage) : M ThreadDtlsHandshake DtlsError unit := fun s =>
  let '(t, r) := HandshakeTranscript_push (cl_transcript s) m in (set_cl_transcript t s, r).

Definition client_hello_state (self : ThreadDtlsHandshake) : result DtlsError DtlsClientHelloState :=
  let! kkpp := encode_tls_kkpp (cl_client_round_one self) in
  Ok (with_ecjpake_kkpp (cl_client_random self) kkpp).

Definition record_client_hello (message : HandshakeMessage) : M ThreadDtlsHandshake DtlsError unit :=
  if negb (bool_decide (message_type message = HtClientHello))
  then merr (DCrypto "expected ClientHello message")
  else cl_push message.

Definition handle_server_hello (message : HandshakeMessage) : M ThreadDtlsHandshake DtlsError ServerHello :=
  if negb (bool_decide (message_type message = HtServerHello))
  then merr (DCrypto "expected ServerHello message")
  else
    let* hello := mlift (ServerHello_decode (hs_payload message)) in
    let* _ := mlift (validate_thread_profile hello) in
    let* kkpp := mlift (ok_or (ServerHello_ecjpake_kkpp hello) (DCrypto "ServerHello missing ECJPAKE KKPP")) in
    let* r := mlift (decode_tls_kkpp kkpp THREAD_SERVER_ID) in
    let* _ := mset (set_cl_server_round_one r) in
    let* _ := mset (set_cl_server_random (sh_random hello)) in
    let* _ := cl_push message in
    mret hello.

Definition handle_server_key_exchange (message : HandshakeMessage) : M ThreadDtlsHandshake DtlsError RoundTwo :=
  if negb (bool_decide (message_type message = ServerKeyExchange))
  then merr (DCrypto "expected ServerKeyExchange message")
  else
    let* server_round_two := mlift (decode_tls_key_exchange (hs_payload message) THREAD_SERVER_ID true) in
    let* _ := mset (set_cl_server_round_two server_round_two) in
    let* _ := cl_push message in
    mret server_round_two.

Definition handle_server_hello_done (message : HandshakeMessage) : M ThreadDtlsHandshake DtlsError unit :=
  if negb (bool_decide (message_type message = ServerHelloDone)) || negb (is_empty (hs_payload message))
  then merr (DCrypto "expected empty ServerHelloDone message")
  else cl_push message.

Definition build_client_key_exchange (seq : Z) : M (ThreadDtlsHandshake * rng) DtlsError HandshakeMessage :=
  let* self := mget fst in
  let* server_round_one := mlift (ok_or (cl_server_round_one self)
                             (DInvalidState "server ECJPAKE round one is missing")) in
  let* client_round_two := mdraw (fun self g =>
    round_two (cl_ecjpake self) (cl_client_round_one self) server_round_one g) in
  let* payload := mlift (encode_tls_key_exchange client_round_two false) in
  let message := mkHandshakeMessage ClientKeyExchange seq payload in
  let* _ := with_rng (cl_push message) in
  mret message.

Definition client_derive_key_material (self : ThreadDtlsHandshake) : result DtlsError ThreadDtlsKeyMaterial :=
  let! server_round_one := ok_or (cl_server_round_one self) (DInvalidState "server ECJPAKE round one is missing") in
  let! server_round_two := ok_or (cl_server_round_two self) (DInvalidState "server ECJPAKE round two is missing") in
  let! server_random := ok_or (cl_server_random self) (DInvalidState "server random is missing") in
  let! pre_master_secret := finish (cl_ecjpake self) (cl_client_round_one self) server_round_one server_round_two in
  let! master := derive_master_secret pre_master_secret (cl_client_random self) server_random in
  let! block := derive_aes_128_ccm_8_key_block master (cl_client_random self) server_random in
  Ok (mkKeyMaterial master block).

Definition client_finished_verify_data (self : ThreadDtlsHandshake) : result DtlsError bytes :=
  let! key_material := client_derive_key_material self in
  transcript_verify_data (cl_transcript self) (master_secret key_material) RoleClient.

Definition build_client_finished (seq : Z) : M ThreadDtlsHandshake DtlsError HandshakeMessage :=
  let* self := mget id in
  let* verify_data := mlift (client_finished_verify_data self) in
  let message := mkHandshakeMessage Finished seq verify_data in
  let* _ := cl_push message in
  mret message.

Definition verify_server_finished (message : HandshakeMessage) (key_material : ThreadDtlsKeyMaterial)
    : M ThreadDtlsHandshake DtlsError unit :=
  if negb (bool_decide (message_type message = Finished)) then merr (DCrypto "expected Finished message")
  else
    let* self := mget id in
    let* expected := mlift (transcript_verify_data (cl_transcript self) (master_secret key_material) RoleServer) in
    if negb (vec_eqb expected (hs_payload message)) then merr (DCrypto "server Finished verify_data mismatch")
    else cl_push message.

(** ** An honest run

    The client's hello with a cookie, then the server's flight, the client's
    flight and the server's Finished, each sent as one plaintext record. *)

Definition over_wire (m : HandshakeMessage) : result DtlsError HandshakeMessage :=
  let! b := HandshakeMessage_encode m in
  let! r := DtlsRecord_new CtHandshake 0 0 b in
  let! d := encode_datagram [r] in
  let! rs := parse_datagram d in
  match rs with
  | [r] => parse_unfragmented_handshake_record r (message_type m)
  | _ => Err (DCrypto "one record per message")
  end.

Record Session := mkSession {
  client : ThreadDtlsHandshake;
  server : ThreadDtlsServerHandshake;
  client_keys : ThreadDtlsKeyMaterial;
  server_keys : ThreadDtlsKeyMaterial }.

(** The hello exchange and the server's flight. *)
Definition hello_phase (cl : ThreadDtlsHandshake) (sv : ThreadDtlsServerHandshake) (ck : bytes) (seq : Z) (gs : rng)
    : result DtlsError (ThreadDtlsHandshake * ThreadDtlsServerHandshake * rng) :=
  let! kkpp := encode_tls_kkpp (cl_client_round_one cl) in
  let! body := ClientHello_encode (thread_profile_with_ecjpake (cl_client_random cl) ck kkpp) in
  let ch := mkHandshakeMessage HtClientHello seq body in
  let! '(cl, _) := run (record_client_hello ch) cl in
  let! ch := over_wire ch in
  let! '(sv, _) := run (handle_client_hello ch) sv in
  let! '(sv, sh) := run (build_server_hello (wrapping_add 16 seq 0)) sv in
  let! '((sv, gs), ske) := run (build_server_key_exchange (wrapping_add 16 seq 1)) (sv, gs) in
  let! '(sv, shd) := run (build_server_hello_done (wrapping_add 16 seq 2)) sv in
  let! sh := over_wire sh in
  let! '(cl, _) := run (handle_server_hello sh) cl in
  let! ske := over_wire ske in
  let! '(cl, _) := run (handle_server_key_exchange ske) cl in
  let! shd := over_wire shd in
  let! '(cl, _) := run (handle_server_hello_done shd) cl in
  Ok (cl, sv, gs).

(** The client's key exchange and both Finished messages. *)
Definition finish_phase (cl : ThreadDtlsHandshake) (sv : ThreadDtlsServerHandshake) (seq : Z) (gc : rng)
    : result DtlsError Session :=
  let! '((cl, gc), cke) := run (build_client_key_exchange (wrapping_add 16 seq 1)) (cl, gc) in
  let! cke := over_wire cke in
  let! '(sv, _) := run (handle_client_key_exchange cke) sv in
  let! server_keys := server_derive_key_material sv in
  let! client_keys := client_derive_key_material cl in
  let! '(cl, fin) := run (build_client_finished (wrapping_add 16 seq 2)) cl in
  let! fin := over_wire fin in
  let! '(sv, _) := run (verify_client_finished fin server_keys) sv in
  let! '(sv, sfin) := run (build_server_finished (wrapping_add 16 seq 3) server_keys) sv in
  let! sfin := over_wire sfin in
  let! '(cl, _) := run (verify_server_finished sfin client_keys) cl in
  Ok (mkSession cl sv client_keys server_keys).

Definition honest_handshake (cl : ThreadDtlsHandshake) (sv : ThreadDtlsServerHandshake) (ck : bytes) (seq : Z)
    (gc gs : rng) : result DtlsError Session :=
  let! '(cl, sv, _) := hello_phase cl sv ck seq gs in
  finish_phase cl sv seq gc.
End Handshakes.

(** ** Steps

    Each method on a state where it succeeds. *)

Ltac mstep := unfold run, mbind, mlift, mget, mset, mret, merr, id; cbv beta iota zeta.

Section Steps.
Context {HH : Hash} {HL : HashLaws} {CC : Curve} {CL : CurveLaws} {RR : Rng} {RL : RngLaws}.

(** A message every record carries whole. *)
Definition short_msg (m : HandshakeMessage) : Prop :=
  is_u16 (message_seq m) /\ bytes_ok (hs_payload m) /\ len (hs_payload m) <= 1000.

Lemma short_msg_wf m : short_msg m -> msg_wf m.
Proof. intros (? & ? & ?). unfold msg_wf, MAX_U24. split; [done|]. split; [done|lia]. Qed.

Lemma wrapping_u16 s k : is_u16 (wrapping_add 16 s k).
Proof. unfold wrapping_add, wrap, uint. apply Z.mod_pos_bound. lia. Qed.

Lemma over_wire_ok m : short_msg m -> over_wire m = Ok m.
Proof.
  intros Hm. pose proof (short_msg_wf m Hm) as Hw. destruct Hm as (_ & Hb & Hl). unfold over_wire.
  rewrite HandshakeMessage_encode_ok by done. cbn [rbind]. pose proof (len_msg_bytes m). pose proof (len_nonneg (hs_payload m)).
  unfold DtlsRecord_new. rewrite (proj2 (Z.ltb_lt _ _)) by lia. cbn [rbind].
  set (r := mkDtlsRecord _ _). assert (Forall record_wf [r]) as Hr.
  { apply Forall_singleton. split; [|split; [by apply msg_bytes_ok|done]].
    split; [by_decide|]. split; [by_decide|]. split; [by_decide|]. cbn [r rec_header rec_length]. unfold uint. lia. }
  destruct (encode_datagram [r]) as [d|e|p] eqn:E; [|by rewrite encode_datagram_ok in E..]. cbn [rbind].
  rewrite (parse_encode_datagram _ _ Hr E). cbn [rbind]. by apply parse_record_message.
Qed.

Lemma sv_push_ok m s : short_msg m -> sv_push m s = (set_sv_transcript (sv_transcript s ++ msg_bytes m) s, Ok tt).
Proof. intros. unfold sv_push, HandshakeTranscript_push. by rewrite transcript_bytes_ok by by apply short_msg_wf. Qed.
Lemma cl_push_ok m s : short_msg m -> cl_push m s = (set_cl_transcript (cl_transcript s ++ msg_bytes m) s, Ok tt).
Proof. intros. unfold cl_push, HandshakeTranscript_push. by rewrite transcript_bytes_ok by by apply short_msg_wf. Qed.

Lemma kkpp_extension_wf kkpp :
  bytes_ok kkpp -> len kkpp <= 330 -> ext_wf (mkTlsExtension EXTENSION_ECJPAKE_KKPP kkpp).
Proof. intros Ho Hl. split; [by_decide|]. split; [done|]. cbn. lia. Qed.

(** The hello messages the two sides build. *)
Lemma thread_client_hello_wf random ck kkpp :
  bytes_ok random -> len random = 32 -> bytes_ok ck -> len ck <= 255 -> bytes_ok kkpp -> len kkpp <= 330 ->
  let h := thread_profile_with_ecjpake random ck kkpp in
  client_hello_wf h /\ len (client_hello_bytes h) <= 1000 /\ ClientHello_ecjpake_kkpp h = Some kkpp.
Proof.
  intros Hr Hl Hc Hlc Hk Hlk h. pose proof (len_nonneg ck). pose proof (len_nonneg kkpp).
  assert (len (exts_bytes (ch_extensions h)) <= 400) as He.
  { change (ch_extensions h) with [supported_groups_extension; signature_algorithms_extension; ec_point_formats_extension;
      mkTlsExtension EXTENSION_ECJPAKE_KKPP kkpp; max_fragment_length_extension].
    unfold exts_bytes. cbn [map concat]. rewrite !len_app, !len_ext_bytes.
    cbn [ext_data supported_groups_extension signature_algorithms_extension ec_point_formats_extension max_fragment_length_extension].
    rewrite ?len_app, ?len_to_be, ?len_cons, ?len_nil. lia. }
  split; [|split; [|done]].
  - unfold client_hello_wf. split; [done|]. split; [done|]. split; [constructor|]. split; [by_decide|]. split; [done|].
    split; [done|]. split; [by_decide|]. split; [by_decide|]. split; [by_decide|]. split; [by_decide|].
    split; [|lia]. change (ch_extensions h) with [supported_groups_extension; signature_algorithms_extension; ec_point_formats_extension;
      mkTlsExtension EXTENSION_ECJPAKE_KKPP kkpp; max_fragment_length_extension].
    do 3 (apply Forall_cons_2; [by_decide|]). apply Forall_cons_2; [by apply kkpp_extension_wf|].
    apply Forall_cons_2; [by_decide|constructor].
  - unfold client_hello_bytes. change (ch_session_id h) with (@nil Z). change (ch_cookie h) with ck.
    change (ch_random h) with random. change (compression_methods h) with [0].
    change (concat (map (to_be 2) (cipher_suites h))) with [0xc0; 0xff; 0; 0xff].
    repeat rewrite ?len_app, ?len_cons, ?len_to_be, ?len_nil.
    change (@len Z []) with 0. lia.
Qed.

Definition thread_server_hello (random kkpp : bytes) : ServerHello :=
  mkServerHello random [] TLS_ECJPAKE_WITH_AES_128_CCM_8 TLS_COMPRESSION_NULL
    [mkTlsExtension EXTENSION_ECJPAKE_KKPP kkpp; ec_point_formats_extension].

Lemma thread_server_hello_wf random kkpp :
  bytes_ok random -> len random = 32 -> bytes_ok kkpp -> len kkpp <= 330 ->
  let h := thread_server_hello random kkpp in
  server_hello_wf h /\ bytes_ok (server_hello_bytes h) /\ len (server_hello_bytes h) <= 1000.
Proof.
  intros Hr Hl Hk Hlk h. pose proof (len_nonneg kkpp).
  set (es := [mkTlsExtension EXTENSION_ECJPAKE_KKPP kkpp; ec_point_formats_extension]).
  assert (len (exts_bytes es) <= 400) as He.
  { unfold exts_bytes, es. cbn [map concat]. rewrite !len_app, !len_ext_bytes.
    cbn [ext_data ec_point_formats_extension]. rewrite ?len_cons, ?len_nil. lia. }
  assert (exts_wf es) as Hw.
  { split; [|lia]. apply Forall_cons_2; [by apply kkpp_extension_wf|]. apply Forall_cons_2; [by_decide|constructor]. }
  split; [|split].
  - split; [done|]. split; [done|]. split; [constructor|]. split; [by_decide|]. split; [by_decide|]. by split; [by_decide|].
  - unfold server_hello_bytes. apply Forall_app_2; [apply to_be_ok|]. apply Forall_app_2; [done|].
    apply Forall_cons_2; [by_decide|]. apply Forall_app_2; [constructor|]. apply Forall_app_2; [apply to_be_ok|].
    apply Forall_cons_2; [by_decide|]. apply Forall_app_2; [apply to_be_ok|].
    unfold exts_bytes. apply Forall_concat, Forall_map. eapply Forall_impl; [apply Hw|].
    intros e (_ & ? & _). unfold ext_bytes. rewrite !Forall_app. auto using to_be_ok.
  - unfold server_hello_bytes. change (sh_session_id h) with (@nil Z). change (sh_random h) with random.
    change (sh_extensions h) with es.
    repeat rewrite ?len_app, ?len_cons, ?len_to_be, ?len_nil. lia.
Qed.


Lemma handle_client_hello_ok sv ch h kkpp r :
  message_type ch = HtClientHello -> short_msg ch -> ClientHello_decode (hs_payload ch) = Ok h ->
  existsb (Z.eqb TLS_ECJPAKE_WITH_AES_128_CCM_8) (cipher_suites h) = true ->
  existsb (Z.eqb TLS_COMPRESSION_NULL) (compression_methods h) = true ->
  ClientHello_ecjpake_kkpp h = Some kkpp -> decode_tls_kkpp kkpp THREAD_CLIENT_ID = Ok r ->
  handle_client_hello ch sv = (mkServerHandshake (sv_ecjpake sv) (sv_server_round_one sv) (Some r)
    (sv_client_round_two sv) (sv_server_random sv) (Some (ch_random h)) (sv_transcript sv ++ msg_bytes ch), Ok h).
Proof.
  intros Ht Hs Hd Hc Hm Hk Hr. unfold handle_client_hello. rewrite bool_decide_true by done. cbn [negb].
  mstep. rewrite Hd, Hc, Hm. cbn [negb]. rewrite Hk. cbn [ok_or]. by rewrite Hr, sv_push_ok.
Qed.

Lemma build_server_hello_ok sv seq cr kkpp :
  sv_client_random sv = Some cr -> encode_tls_kkpp (sv_server_round_one sv) = Ok kkpp ->
  is_u16 seq -> bytes_ok (sv_server_random sv) -> len (sv_server_random sv) = 32 -> bytes_ok kkpp -> len kkpp <= 330 ->
  let m := mkHandshakeMessage HtServerHello seq (server_hello_bytes (thread_server_hello (sv_server_random sv) kkpp)) in
  short_msg m /\
  build_server_hello seq sv = (set_sv_transcript (sv_transcript sv ++ msg_bytes m) sv, Ok m).
Proof.
  intros Hr Hk Hs Ho Hl Hko Hkl m.
  destruct (thread_server_hello_wf _ _ Ho Hl Hko Hkl) as (Hw & Hb & Hn).
  assert (short_msg m) as Hm by done. split; [done|]. unfold build_server_hello. mstep.
  rewrite bool_decide_false by by rewrite Hr. rewrite Hk. unfold thread_server_hello in *.
  rewrite ServerHello_encode_ok by done. fold m. by rewrite sv_push_ok.
Qed.

Lemma build_server_key_exchange_ok sv g g' seq rc r2 b :
  sv_client_round_one sv = Some rc -> round_two (sv_ecjpake sv) (sv_server_round_one sv) rc g = Ok (r2, g') ->
  encode_tls_key_exchange r2 true = Ok b -> is_u16 seq -> bytes_ok b -> len b <= 168 ->
  let m := mkHandshakeMessage ServerKeyExchange seq b in
  short_msg m /\
  build_server_key_exchange seq (sv, g) = ((set_sv_transcript (sv_transcript sv ++ msg_bytes m) sv, g'), Ok m).
Proof.
  intros Hc Hr Hb Hs Ho Hl m. assert (short_msg m) as Hm by (split; [done|split; [done|cbn; lia]]).
  split; [done|]. unfold build_server_key_exchange, mdraw, with_rng. mstep. cbn [fst]. rewrite Hc. cbn [ok_or].
  rewrite Hr, Hb. fold m. by rewrite sv_push_ok.
Qed.

Lemma build_server_hello_done_ok sv seq :
  is_u16 seq -> let m := mkHandshakeMessage ServerHelloDone seq [] in
  short_msg m /\ build_server_hello_done seq sv = (set_sv_transcript (sv_transcript sv ++ msg_bytes m) sv, Ok m).
Proof.
  intros Hs m. assert (short_msg m) as Hm by (split; [done|split; [constructor|by_decide]]).
  split; [done|]. unfold build_server_hello_done. mstep. fold m. by rewrite sv_push_ok.
Qed.

Lemma handle_client_key_exchange_ok sv m r2 :
  message_type m = ClientKeyExchange -> short_msg m ->
  decode_tls_key_exchange (hs_payload m) THREAD_CLIENT_ID false = Ok r2 ->
  handle_client_key_exchange m sv =
    (set_sv_transcript (sv_transcript sv ++ msg_bytes m) (set_sv_client_round_two r2 sv), Ok tt).
Proof.
  intros Ht Hs Hd. unfold handle_client_key_exchange. rewrite bool_decide_true by done. cbn [negb]. mstep.
  by rewrite Hd, sv_push_ok.
Qed.

Lemma verify_client_finished_ok sv m km :
  message_type m = Finished -> short_msg m ->
  transcript_verify_data (sv_transcript sv) (master_secret km) RoleClient = Ok (hs_payload m) ->
  verify_client_finished m km sv = (set_sv_transcript (sv_transcript sv ++ msg_bytes m) sv, Ok tt).
Proof.
  intros Ht Hs Hd. unfold verify_client_finished. rewrite bool_decide_true by done. cbn [negb]. mstep.
  rewrite Hd. unfold vec_eqb. rewrite bool_decide_true by done. cbn [negb]. by rewrite sv_push_ok.
Qed.

Lemma finished_short seq b : is_u16 seq -> bytes_ok b -> len b = 12 -> short_msg (mkHandshakeMessage Finished seq b).
Proof. intros. split; [done|]. split; [done|]. cbn. lia. Qed.

Lemma build_server_finished_ok sv km seq :
  is_u16 seq -> exists b, transcript_verify_data (sv_transcript sv) (master_secret km) RoleServer = Ok b /\
    let m := mkHandshakeMessage Finished seq b in short_msg m /\
    build_server_finished seq km sv = (set_sv_transcript (sv_transcript sv ++ msg_bytes m) sv, Ok m).
Proof.
  intros Hs. destruct (transcript_verify_data_ok (sv_transcript sv) (master_secret km) RoleServer) as (b & Hb & Hl & Ho).
  exists b. split; [done|]. pose proof (finished_short seq b Hs Ho Hl) as Hm. split; [done|].
  unfold build_server_finished. mstep. by rewrite Hb, sv_push_ok.
Qed.

Lemma handle_server_hello_ok cl m h kkpp r :
  message_type m = HtServerHello -> short_msg m -> ServerHello_decode (hs_payload m) = Ok h ->
  validate_thread_profile h = Ok tt -> ServerHello_ecjpake_kkpp h = Some kkpp ->
  decode_tls_kkpp kkpp THREAD_SERVER_ID = Ok r ->
  handle_server_hello m cl = (mkClientHandshake (cl_ecjpake cl) (cl_client_round_one cl) (Some r)
    (cl_server_round_two cl) (cl_client_random cl) (Some (sh_random h)) (cl_transcript cl ++ msg_bytes m), Ok h).
Proof.
  intros Ht Hs Hd Hv Hk Hr. unfold handle_server_hello. rewrite bool_decide_true by done. cbn [negb].
  mstep. rewrite Hd, Hv, Hk. cbn [ok_or]. by rewrite Hr, cl_push_ok.
Qed.

Lemma handle_server_key_exchange_ok cl m r2 :
  message_type m = ServerKeyExchange -> short_msg m ->
  decode_tls_key_exchange (hs_payload m) THREAD_SERVER_ID true = Ok r2 ->
  handle_server_key_exchange m cl =
    (set_cl_transcript (cl_transcript cl ++ msg_bytes m) (set_cl_server_round_two r2 cl), Ok r2).
Proof.
  intros Ht Hs Hd. unfold handle_server_key_exchange. rewrite bool_decide_true by done. cbn [negb]. mstep.
  by rewrite Hd, cl_push_ok.
Qed.

Lemma build_client_key_exchange_ok cl g g' seq rs r2 b :
  cl_server_round_one cl = Some rs -> round_two (cl_ecjpake cl) (cl_client_round_one cl) rs g = Ok (r2, g') ->
  encode_tls_key_exchange r2 false = Ok b -> is_u16 seq -> bytes_ok b -> len b <= 168 ->
  let m := mkHandshakeMessage ClientKeyExchange seq b in
  short_msg m /\
  build_client_key_exchange seq (cl, g) = ((set_cl_transcript (cl_transcript cl ++ msg_bytes m) cl, g'), Ok m).
Proof.
  intros Hc Hr Hb Hs Ho Hl m. assert (short_msg m) as Hm by (split; [done|split; [done|cbn; lia]]).
  split; [done|]. unfold build_client_key_exchange, mdraw, with_rng. mstep. cbn [fst]. rewrite Hc. cbn [ok_or].
  rewrite Hr, Hb. fold m. by rewrite cl_push_ok.
Qed.

Lemma build_client_finished_ok cl km seq :
  is_u16 seq -> client_derive_key_material cl = Ok km ->
  exists b, transcript_verify_data (cl_transcript cl) (master_secret km) RoleClient = Ok b /\
    let m := mkHandshakeMessage Finished seq b in short_msg m /\
    build_client_finished seq cl = (set_cl_transcript (cl_transcript cl ++ msg_bytes m) cl, Ok m).
Proof.
  intros Hs Hk. destruct (transcript_verify_data_ok (cl_transcript cl) (master_secret km) RoleClient) as (b & Hb & Hl & Ho).
  exists b. split; [done|]. pose proof (finished_short seq b Hs Ho Hl) as Hm. split; [done|].
  unfold build_client_finished, client_finished_verify_data. mstep. rewrite Hk. cbn [rbind]. by rewrite Hb, cl_push_ok.
Qed.

Lemma verify_server_finished_ok cl m km :
  message_type m = Finished -> short_msg m ->
  transcript_verify_data (cl_transcript cl) (master_secret km) RoleServer = Ok (hs_payload m) ->
  verify_server_finished m km cl = (set_cl_transcript (cl_transcript cl ++ msg_bytes m) cl, Ok tt).
Proof.
  intros Ht Hs Hd. unfold verify_server_finished. rewrite bool_decide_true by done. cbn [negb]. mstep.
  rewrite Hd. unfold vec_eqb. rewrite bool_decide_true by done. cbn [negb]. by rewrite cl_push_ok.
Qed.

(** Keys from a premaster secret. *)
Lemma derive_ok pms cr sr :
  exists km, (let! master := derive_master_secret pms cr sr in
              let! block := derive_aes_128_ccm_8_key_block master cr sr in
              Ok (mkKeyMaterial master block)) = Ok km /\ key_block_wf (key_block km).
Proof.
  destruct (derive_master_secret_ok pms cr sr) as (ms & -> & _). cbn [rbind].
  destruct (derive_key_block_ok ms cr sr) as (b & -> & Hw & _). by eexists.
Qed.
End Steps.

(** ** The honest run completes *)

Section Run.
Context {HH : Hash} {HL : HashLaws} {CC : Curve} {CL : CurveLaws} {RR : Rng} {RL : RngLaws}.
Context (c s : EcJpakeParty) (rc rs : RoundOne) (cr sr : bytes).
Context (pair : is_pair c s) (honest_c : honest_round_one c rc) (honest_s : honest_round_one s rs).
Context (id_c : party_id c = THREAD_CLIENT_ID) (id_s : party_id s = THREAD_SERVER_ID).
Context (bases : forall r, base_exponent c s r <> s_zero).
Context (cr_ok : bytes_ok cr) (cr_len : len cr = 32) (sr_ok : bytes_ok sr) (sr_len : len sr = 32).

(** A second-round message of [self], as both sides see it. *)
Definition honest_round_two (self : EcJpakeParty) (r2 : RoundTwo) : Prop :=
  let b := base_exponent c s (role self) in
  let e := s_mul b (s_mul (x2 self) (secret self)) in
  r2_point r2 = point_to_bytes (p_mul p_generator e) /\
  SchnorrProof_verify (r2_proof r2) (p_mul p_generator b) (p_mul p_generator e) (party_id self) [] = Ok tt.

Lemma round_two_wire self own peer g params :
  (self = c /\ own = rc /\ peer = rs \/ self = s /\ own = rs /\ peer = rc) ->
  exists r2 g' b, round_two self own peer g = Ok (r2, g') /\ honest_round_two self r2 /\
    encode_tls_key_exchange r2 params = Ok b /\ bytes_ok b /\ len b <= 168 /\
    decode_tls_key_exchange b (party_id self) params = Ok r2.
Proof.
  intros Hself. destruct (round_two_ok c s rc rs self own peer g pair honest_c honest_s Hself (bases _))
    as (r2 & g' & Hr & Hp & Hpf & Hv).
  set (e := s_mul _ _) in *. assert (p_mul p_generator e <> p_identity) as Hne.
  { apply p_mul_G_nonzero. destruct pair as ((? & ? & ?) & (? & ? & ?) & _).
    destruct Hself as [(-> & _)|(-> & _)]; repeat apply s_mul_nonzero; auto. }
  destruct (key_exchange_roundtrip _ (r2_proof r2) (party_id self) params Hne Hpf) as (b & He & Hb & Hl & Hd).
  exists r2, g', b. rewrite <- Hp in He, Hd. destruct r2 as [pt pf]. by split_and!.
Qed.

(** The messages of the hello phase and the states they lead to. *)
Inductive hello_run (cl cl' : ThreadDtlsHandshake) (sv sv' : ThreadDtlsServerHandshake) (gs gs' : rng)
    (ch sh ske shd : HandshakeMessage) : Prop :=
  | HelloRun cl1 cl2 cl3 sv1 sv2 sv3 h sh' r2 :
      record_client_hello ch cl = (cl1, Ok tt) -> handle_client_hello ch sv = (sv1, Ok h) ->
      build_server_hello (message_seq ch) sv1 = (sv2, Ok sh) ->
      build_server_key_exchange (wrapping_add 16 (message_seq ch) 1) (sv2, gs) = ((sv3, gs'), Ok ske) ->
      build_server_hello_done (wrapping_add 16 (message_seq ch) 2) sv3 = (sv', Ok shd) ->
      handle_server_hello sh cl1 = (cl2, Ok sh') -> handle_server_key_exchange ske cl2 = (cl3, Ok r2) ->
      handle_server_hello_done shd cl3 = (cl', Ok tt) ->
      Forall short_msg [sh; ske; shd] ->
      map message_type [sh; ske; shd] = [HtServerHello; ServerKeyExchange; ServerHelloDone] ->
      hello_run cl cl' sv sv' gs gs' ch sh ske shd.

(** The hello of an honest client. *)
Definition hello_message (random ck kkpp : bytes) (seq : Z) : HandshakeMessage :=
  mkHandshakeMessage HtClientHello seq (client_hello_bytes (thread_profile_with_ecjpake random ck kkpp)).

Lemma hello_run_ok ck seq gs :
  bytes_ok ck -> len ck <= 255 -> is_u16 seq ->
  let cl := mkClientHandshake c rc None None cr None [] in
  let sv := mkServerHandshake s rs None None sr None [] in
  exists kc r2s gs' t sh ske shd, honest_round_two s r2s /\ encode_tls_kkpp rc = Ok kc /\
    bytes_ok kc /\ len kc <= 330 /\ short_msg (hello_message cr ck kc seq) /\
    hello_run cl (mkClientHandshake c rc (Some rs) (Some r2s) cr (Some sr) t)
      sv (mkServerHandshake s rs (Some rc) None sr (Some cr) t) gs gs' (hello_message cr ck kc seq) sh ske shd.
Proof.
  intros Hck Hlck Hseq cl sv.
  destruct (kkpp_roundtrip c rc) as (kc & Ekc & Okc & Lkc & Dkc); [apply pair|done|]. rewrite id_c in Dkc.
  destruct (kkpp_roundtrip s rs) as (ks & Eks & Oks & Lks & Dks); [apply pair|done|]. rewrite id_s in Dks.
  destruct (thread_client_hello_wf cr ck kc cr_ok cr_len Hck Hlck Okc Lkc) as (Wc & Bc & Kc).
  destruct (thread_server_hello_wf sr ks sr_ok sr_len Oks Lks) as (Ws & _ & _).
  destruct (round_two_wire s rs rc gs true) as (r2s & gs' & b & Er & Hr2 & Eb & Ob & Lb & Db); [by right|]. rewrite id_s in Db.
  set (ch := hello_message cr ck kc seq).
  assert (short_msg ch) as Sch by (split; [done|split; [by apply client_hello_bytes_ok|done]]).
  set (h := thread_profile_with_ecjpake cr ck kc) in *.
  pose proof (handle_client_hello_ok sv ch h kc rc eq_refl Sch ltac:(by apply ClientHello_decode_bytes) eq_refl eq_refl Kc Dkc) as Esv.
  match type of Esv with _ = (?st, _) => set (sv1 := st) in * end.
  destruct (build_server_hello_ok sv1 seq cr ks) as (Ssh & Esh); [done..|].
  match type of Esh with _ = (?st, Ok ?m) => set (sv2 := st) in *; set (sh := m) in * end.
  destruct (build_server_key_exchange_ok sv2 gs gs' (wrapping_add 16 seq 1) rc r2s b) as (Sske & Eske);
    [done|done|done|apply wrapping_u16|done..|].
  match type of Eske with _ = ((?st, _), Ok ?m) => set (sv3 := st) in *; set (ske := m) in * end.
  destruct (build_server_hello_done_ok sv3 (wrapping_add 16 seq 2)) as (Sshd & Eshd); [apply wrapping_u16|].
  match type of Eshd with _ = (?st, Ok ?m) => set (shd := m) in * end.
  exists kc, r2s, gs'. eexists. exists sh, ske, shd. do 4 (split; [done|]). split; [done|].
  eapply (HelloRun _ _ _ _ _ _ _ _ _ _ (set_cl_transcript (msg_bytes ch) cl)).
  - unfold record_client_hello. rewrite bool_decide_true by done. cbn [negb]. by rewrite cl_push_ok.
  - exact Esv.
  - exact Esh.
  - exact Eske.
  - exact Eshd.
  - by rewrite (handle_server_hello_ok _ sh (thread_server_hello sr ks) ks rs);
      [|done|done|by apply ServerHello_decode_bytes|..].
  - by rewrite (handle_server_key_exchange_ok _ ske r2s).
  - unfold handle_server_hello_done. rewrite bool_decide_true by done. cbn [negb is_empty orb hs_payload shd]. by rewrite cl_push_ok.
  - do 3 (apply Forall_cons_2; [done|]). constructor.
  - done.
Qed.

Lemma hello_phase_ok ck seq gs :
  bytes_ok ck -> len ck <= 255 -> is_u16 seq ->
  exists r2s gs' t, honest_round_two s r2s /\
    hello_phase (mkClientHandshake c rc None None cr None []) (mkServerHandshake s rs None None sr None []) ck seq gs =
      Ok (mkClientHandshake c rc (Some rs) (Some r2s) cr (Some sr) t,
          mkServerHandshake s rs (Some rc) None sr (Some cr) t, gs').
Proof.
  intros Hck Hlck Hseq.
  destruct (hello_run_ok ck seq gs Hck Hlck Hseq) as (kc & r2s & gs' & t & sh & ske & shd & Hr2 & Ekc & Okc & Lkc & Sch & R).
  exists r2s, gs', t. split; [done|]. destruct R as [cl1 cl2 cl3 sv1 sv2 sv3 h sh' r2 E1 E2 E3 E4 E5 E6 E7 E8 Hs Ht].
  apply Forall_cons_1 in Hs as [S1 [S2 [S3 _]%Forall_cons_1]%Forall_cons_1].
  destruct (thread_client_hello_wf cr ck kc cr_ok cr_len Hck Hlck Okc Lkc) as (Wc & _).
  unfold hello_phase. cbn [cl_client_round_one cl_client_random]. rewrite Ekc. cbn [rbind].
  rewrite ClientHello_encode_ok by done. cbn [rbind]. unfold hello_message in *. cbn [cl_client_random message_seq] in *.
  replace (wrapping_add 16 seq 0) with seq by (unfold wrapping_add; rewrite Z.add_0_r; symmetry; by apply wrap_small).
  unfold run. rewrite E1. cbn [rbind]. rewrite over_wire_ok by done. cbn [rbind]. rewrite E2. cbn [rbind].
  rewrite E3. cbn [rbind]. rewrite E4. cbn [rbind]. rewrite E5. cbn [rbind].
  repeat first [rewrite over_wire_ok by done | rewrite E6 | rewrite E7 | rewrite E8 | progress cbn [rbind]]. done.
Qed.

(** The keys both sides derive once they share a premaster secret. *)
Lemma keys_agree r2c r2s t t' :
  honest_round_two c r2c -> honest_round_two s r2s -> secret c = secret s -> s_add (x1 c) (x1 s) <> s_zero ->
  exists km, key_block_wf (key_block km) /\
    client_derive_key_material (mkClientHandshake c rc (Some rs) (Some r2s) cr (Some sr) t) = Ok km /\
    server_derive_key_material (mkServerHandshake s rs (Some rc) (Some r2c) sr (Some cr) t') = Ok km.
Proof.
  intros [Pc Vc] [Ps Vs] Hsec Hsum. pose proof pair as (Hc & Hs & _).
  destruct (shared_scalar_agree c s pair Hsec) as [A1 A2].
  assert (shared_scalar c s c s <> s_zero) as Hn.
  { rewrite A1. apply s_mul_nonzero; [done|]. apply s_mul_nonzero; [apply s_mul_nonzero|]; first [apply Hc|apply Hs]. }
  pose proof (finish_ok c s rc rs c s rc rs r2s pair honest_c honest_s (or_introl (conj eq_refl (conj eq_refl (conj eq_refl eq_refl))))
    (bases _) Ps Vs Hn) as Fc.
  pose proof (finish_ok c s rc rs s c rs rc r2c pair honest_c honest_s (or_intror (conj eq_refl (conj eq_refl (conj eq_refl eq_refl))))
    (bases _) Pc Vc ltac:(by rewrite A2)) as Fs.
  rewrite A2 in Fs. destruct (derive_session_key_ok _ Hn) as [k Hk]. rewrite Hk in Fc, Fs.
  destruct (derive_ok k cr sr) as (km & Hkm & Hw). exists km. split; [done|].
  unfold client_derive_key_material, server_derive_key_material.
  cbn [cl_ecjpake cl_client_round_one cl_server_round_one cl_server_round_two cl_client_random cl_server_random
    sv_ecjpake sv_server_round_one sv_client_round_one sv_client_round_two sv_client_random sv_server_random ok_or rbind].
  by rewrite Fc, Fs.
Qed.

(** The messages that finish the handshake: the client numbers its two [q1] and
    [q2], the server answers with [q3]. *)
Inductive finish_run (cl cl' : ThreadDtlsHandshake) (sv sv' : ThreadDtlsServerHandshake) (gc gc' : rng)
    (km : ThreadDtlsKeyMaterial) (q1 q2 q3 : Z) (cke fin sfin : HandshakeMessage) : Prop :=
  | FinishRun cl1 cl2 sv1 sv2 :
      build_client_key_exchange q1 (cl, gc) = ((cl1, gc'), Ok cke) ->
      handle_client_key_exchange cke sv = (sv1, Ok tt) ->
      server_derive_key_material sv1 = Ok km -> client_derive_key_material cl1 = Ok km ->
      build_client_finished q2 cl1 = (cl2, Ok fin) -> verify_client_finished fin km sv1 = (sv2, Ok tt) ->
      build_server_finished q3 km sv2 = (sv', Ok sfin) -> verify_server_finished sfin km cl2 = (cl', Ok tt) ->
      Forall short_msg [cke; fin; sfin] ->
      map message_type [cke; fin; sfin] = [ClientKeyExchange; Finished; Finished] ->
      finish_run cl cl' sv sv' gc gc' km q1 q2 q3 cke fin sfin.

Lemma finish_run_ok r2s t gc q1 q2 q3 :
  honest_round_two s r2s -> secret c = secret s -> s_add (x1 c) (x1 s) <> s_zero ->
  is_u16 q1 -> is_u16 q2 -> is_u16 q3 ->
  exists gc' cl sv km cke fin sfin, key_block_wf (key_block km) /\
    finish_run (mkClientHandshake c rc (Some rs) (Some r2s) cr (Some sr) t) cl
      (mkServerHandshake s rs (Some rc) None sr (Some cr) t) sv gc gc' km q1 q2 q3 cke fin sfin /\
    cl_transcript cl = sv_transcript sv /\ sv_client_random sv = Some cr /\ sv_server_random sv = sr.
Proof.
  intros Hr2s Hsec Hsum Hq1 Hq2 Hq3.
  destruct (round_two_wire c rc rs gc false) as (r2c & gc' & b & Er & Hr2 & Eb & Ob & Lb & Db); [by left|]. rewrite id_c in Db.
  destruct (build_client_key_exchange_ok (mkClientHandshake c rc (Some rs) (Some r2s) cr (Some sr) t) gc gc'
    q1 rs r2c b) as (Scke & Ecke); [done..|].
  match type of Ecke with _ = ((?st, _), Ok ?m) => set (cl1 := st) in *; set (cke := m) in * end.
  pose proof (handle_client_key_exchange_ok (mkServerHandshake s rs (Some rc) None sr (Some cr) t) cke r2c eq_refl Scke Db) as Esv.
  destruct (keys_agree r2c r2s (t ++ msg_bytes cke) (t ++ msg_bytes cke) Hr2 Hr2s Hsec Hsum) as (km & Hw & Kc & Ks).
  destruct (build_client_finished_ok cl1 km q2 Hq2 Kc) as (fb & Efb & Sfin & Efin).
  set (fin := mkHandshakeMessage Finished _ fb) in *.
  match type of Esv with _ = (?st, _) => set (sv1 := st) in * end.
  pose proof (verify_client_finished_ok sv1 fin km eq_refl Sfin Efb) as Ev.
  match type of Ev with _ = (?st, _) => set (sv2 := st) in * end.
  destruct (build_server_finished_ok sv2 km q3 Hq3) as (sb & Esb & Ssf & Esf).
  set (sfin := mkHandshakeMessage Finished _ sb) in *.
  match type of Efin with _ = (?st, _) => set (cl2 := st) in * end.
  pose proof (verify_server_finished_ok cl2 sfin km eq_refl Ssf Esb) as Evs.
  match type of Evs with _ = (?a, _) => match type of Esf with _ = (?b, _) => exists gc', a, b, km, cke, fin, sfin end end.
  split; [done|]. split; [|done].
  eapply (FinishRun _ _ _ _ _ _ _ _ _ _ _ _ _ cl1 cl2 sv1 sv2);
    [done..|do 3 (apply Forall_cons_2; [done|]); constructor|done].
Qed.

Lemma finish_phase_ok r2s t seq gc :
  honest_round_two s r2s -> secret c = secret s -> s_add (x1 c) (x1 s) <> s_zero -> is_u16 seq ->
  exists cl sv km, key_block_wf (key_block km) /\
    finish_phase (mkClientHandshake c rc (Some rs) (Some r2s) cr (Some sr) t)
      (mkServerHandshake s rs (Some rc) None sr (Some cr) t) seq gc = Ok (mkSession cl sv km km) /\
    cl_transcript cl = sv_transcript sv /\ sv_client_random sv = Some cr /\ sv_server_random sv = sr.
Proof.
  intros Hr2s Hsec Hsum Hseq.
  destruct (finish_run_ok r2s t gc (wrapping_add 16 seq 1) (wrapping_add 16 seq 2) (wrapping_add 16 seq 3) Hr2s Hsec Hsum)
    as (gc' & cl & sv & km & cke & fin & sfin & Hw & R & Hend); [apply wrapping_u16..|].
  exists cl, sv, km. split; [done|]. split; [|done].
  destruct R as [cl1 cl2 sv1 sv2 E1 E2 E3 E4 E5 E6 E7 E8 Hs _].
  apply Forall_cons_1 in Hs as [S1 [S2 [S3 _]%Forall_cons_1]%Forall_cons_1].
  unfold finish_phase, run. rewrite E1. cbn [rbind].
  repeat first [rewrite over_wire_ok by done | rewrite E2 | rewrite E3 | rewrite E4 | rewrite E5 | rewrite E6 | rewrite E7
    | rewrite E8 | progress cbn [rbind]]. done.
Qed.
End Run.

(** ** Handlers on arbitrary messages *)

Section Behaved.
Context {S T A : Type} (proj : S -> T).

(** A method that does not panic, and leaves [proj] of the state alone when it fails. *)
Definition behaved (m : M S DtlsError A) : Prop := forall s,
  safe (m s).2 /\ forall e, (m s).2 = Err e -> proj (m s).1 = proj s.
End Behaved.

Section BehavedLemmas.
Context {S T : Type} (proj : S -> T).

Lemma behaved_lift {A} (r : result DtlsError A) : safe r -> behaved proj (mlift r).
Proof. intros Hr s. by split. Qed.
Lemma behaved_err {A} e : behaved proj (@merr S DtlsError A e).
Proof. intros s. by split. Qed.
Lemma behaved_ret {A} (a : A) : behaved proj (mret a).
Proof. intros s. by split. Qed.

(** After steps that do not touch [proj]. *)
Lemma behaved_bind {A B} (m : M S DtlsError A) (k : A -> M S DtlsError B) :
  (forall s, proj (m s).1 = proj s /\ safe (m s).2) -> (forall a, behaved proj (k a)) -> behaved proj (mbind m k).
Proof.
  intros Hm Hk s. destruct (Hm s) as [Hp Hs]. unfold mbind. destruct (m s) as [s1 [a|e|p]]; simpl in *; [|done..].
  destruct (Hk a s1) as [? He]. split; [done|]. intros e E. by rewrite (He e E).
Qed.
Lemma behaved_lift_bind {A B} (r : result DtlsError A) (k : A -> M S DtlsError B) :
  safe r -> (forall a, r = Ok a -> behaved proj (k a)) -> behaved proj (mbind (mlift r) k).
Proof.
  intros Hr Hk s. unfold mbind, mlift. destruct r as [a|e|p]; simpl; [by apply Hk|done|done].
Qed.
Lemma behaved_get_bind {A B} (f : S -> A) (k : A -> M S DtlsError B) :
  (forall a, behaved proj (k a)) -> behaved proj (mbind (mget f) k).
Proof. intros Hk s. by apply Hk. Qed.
(** The last step that can fail. *)
Lemma behaved_bind_ret {A B} (m : M S DtlsError A) (b : A -> B) :
  behaved proj m -> behaved proj (mbind m (fun a => mret (b a))).
Proof.
  intros Hm s. destruct (Hm s) as [Hs He]. unfold behaved, mbind. destruct (m s) as [s1 [a|e|p]]; simpl in *; [by split| |done].
  split; [done|]. intros e' [= <-]. by apply (He e).
Qed.
End BehavedLemmas.

Lemma transcript_bytes_safe m : safe (transcript_bytes m).
Proof. unfold transcript_bytes, HandshakeHeader_encode, HandshakeHeader_validate, write_u24. safe_auto.
  apply safe_add_or_panic. cbn in *. unfold MAX_U24 in *.
  rewrite Z.gtb_ltb in *. zbool. lia.
Qed.

Section Handlers.
Context {HH : Hash} {HL : HashLaws} {CC : Curve} {CL : CurveLaws} {RR : Rng} {RL : RngLaws}.

Lemma sv_push_behaved m : behaved sv_transcript (sv_push m).
Proof.
  intros s. unfold sv_push, HandshakeTranscript_push. pose proof (transcript_bytes_safe m) as Hs.
  destruct (transcript_bytes m); by split.
Qed.
Lemma cl_push_behaved m : behaved cl_transcript (cl_push m).
Proof.
  intros s. unfold cl_push, HandshakeTranscript_push. pose proof (transcript_bytes_safe m) as Hs.
  destruct (transcript_bytes m); by split.
Qed.

Ltac behaved_walk := repeat first
  [ apply behaved_err | apply behaved_ret | apply sv_push_behaved | apply cl_push_behaved
  | match goal with
    | |- behaved _ (mbind (mlift _) _) => apply behaved_lift_bind; [|intros ? ?]
    | |- behaved _ (mbind (mget _) _) => apply behaved_get_bind; intros ?
    | |- behaved _ (mbind (mset _) _) => apply behaved_bind; [by intros|intros ?]
    | |- behaved _ (mbind _ (fun _ => mret _)) => apply behaved_bind_ret
    end
  | match goal with |- behaved _ (if ?b then _ else _) => destruct b eqn:? end ].

Lemma transcript_verify_data_safe t ms r : safe (transcript_verify_data t ms r).
Proof. by destruct (transcript_verify_data_ok t ms r) as (v & -> & _). Qed.

(** The handlers never panic, whatever the peer sends, and one that fails
    leaves the transcript as it was. *)
Lemma server_handlers_behaved m :
  bytes_ok (hs_payload m) ->
  behaved sv_transcript (handle_client_hello m) /\ behaved sv_transcript (handle_client_key_exchange m) /\
  (forall km, behaved sv_transcript (verify_client_finished m km)).
Proof.
  intros Hok. split; [|split; [|intros km]].
  - unfold handle_client_hello. behaved_walk; [by apply ClientHello_decode_safe|apply safe_ok_or|].
    apply decode_kkpp_safe. eapply find_extension_ok; [by eapply ClientHello_decode_data|].
    match goal with H : ok_or _ _ = Ok ?k |- _ = Some ?k => by apply ok_or_ok in H end.
  - unfold handle_client_key_exchange. behaved_walk. by apply decode_key_exchange_safe.
  - unfold verify_client_finished. behaved_walk. apply transcript_verify_data_safe.
Qed.

Lemma client_handlers_behaved m :
  bytes_ok (hs_payload m) ->
  behaved cl_transcript (handle_server_hello m) /\ behaved cl_transcript (handle_server_key_exchange m) /\
  behaved cl_transcript (handle_server_hello_done m) /\
  (forall km, behaved cl_transcript (verify_server_finished m km)).
Proof.
  intros Hok. split; [|split; [|split; [|intros km]]].
  - unfold handle_server_hello. behaved_walk;
      [by apply ServerHello_decode_safe|unfold validate_thread_profile; safe_auto|apply safe_ok_or|].
    apply decode_kkpp_safe. eapply find_extension_ok; [by eapply ServerHello_decode_data|].
    match goal with H : ok_or _ _ = Ok ?k |- _ = Some ?k => by apply ok_or_ok in H end.
  - unfold handle_server_key_exchange. behaved_walk. by apply decode_key_exchange_safe.
  - unfold handle_server_hello_done. behaved_walk.
  - unfold verify_server_finished. behaved_walk. apply transcript_verify_data_safe.
Qed.

(** Key derivation never panics either. *)
Lemma derive_safe pms cr sr :
  safe (let! master := derive_master_secret pms cr sr in
        let! block := derive_aes_128_ccm_8_key_block master cr sr in Ok (mkKeyMaterial master block)).
Proof. by destruct (derive_ok pms cr sr) as (km & -> & _). Qed.

Lemma server_derive_safe sv : safe (server_derive_key_material sv).
Proof.
  unfold server_derive_key_material. do 3 (apply safe_bind; [apply safe_ok_or|intros ? _]).
  apply safe_bind; [apply finish_safe|]. intros. apply derive_safe.
Qed.
Lemma client_derive_safe cl : safe (client_derive_key_material cl).
Proof.
  unfold client_derive_key_material. do 3 (apply safe_bind; [apply safe_ok_or|intros ? _]).
  apply safe_bind; [apply finish_safe|]. intros. apply derive_safe.
Qed.

Lemma cookie_ok gen random : exists ck, cookie gen random = Ok ck /\ len ck = 16 /\ bytes_ok ck.
Proof.
  unfold cookie. destruct (hmac_total (cookie_key gen) random) as (m & -> & Hl & Ho). cbn [ok_or rbind].
  rewrite slice_to_ok by (unfold DTLS_COOKIE_LEN; lia). eexists. split; [done|].
  split; [apply len_take; cbn; lia|by apply Forall_take].
Qed.

Lemma verify_spec gen random ck received :
  cookie gen random = Ok ck -> verify gen random received = bool_decide (received = ck).
Proof. intros Hc. unfold verify. rewrite Hc. unfold vec_eqb. by apply bool_decide_ext. Qed.

(** The states the constructors build. *)
Lemma client_new_ok g pskc :
  exists c rc cr g', ClientHandshake_new_with_rng g pskc = Ok (mkClientHandshake c rc None None cr None [], g') /\
    party_wf c /\ role c = EjClient /\ party_id c = THREAD_CLIENT_ID /\ secret c = scalar_from_secret pskc /\
    honest_round_one c rc /\ bytes_ok cr /\ len cr = 32.
Proof.
  unfold ClientHandshake_new_with_rng, new_thread_with_rng.
  pose proof (fill_bytes_ok g 32) as Ho. pose proof (fill_bytes_len g 32 ltac:(lia)) as Hl.
  destruct (fill_bytes g 32) as [cr g1]. simpl in Ho, Hl.
  destruct (party_new_ok g1 EjClient (thread_participant_id EjClient) pskc) as (c & g2 & -> & Hw & Hr & Hi & Hs).
  cbn [rbind]. destruct (round_one_ok c g2 Hw) as (rc & g3 & -> & Hh). cbn [rbind]. by exists c, rc, cr, g3.
Qed.

Lemma server_new_ok g psk :
  exists s rs sr g', ServerHandshake_new_with_rng g psk = Ok (mkServerHandshake s rs None None sr None [], g') /\
    party_wf s /\ role s = EjServer /\ party_id s = THREAD_SERVER_ID /\ secret s = scalar_from_secret psk /\
    honest_round_one s rs /\ bytes_ok sr /\ len sr = 32.
Proof.
  unfold ServerHandshake_new_with_rng, new_thread_with_rng.
  pose proof (fill_bytes_ok g 32) as Ho. pose proof (fill_bytes_len g 32 ltac:(lia)) as Hl.
  destruct (fill_bytes g 32) as [sr g1]. simpl in Ho, Hl.
  destruct (party_new_ok g1 EjServer (thread_participant_id EjServer) psk) as (s & g2 & -> & Hw & Hr & Hi & Hs).
  cbn [rbind]. destruct (round_one_ok s g2 Hw) as (rs & g3 & -> & Hh). cbn [rbind]. by exists s, rs, sr, g3.
Qed.

(** The degenerate sums of ephemeral scalars the exchange refuses. *)
Definition nondegenerate (c s : EcJpakeParty) : Prop :=
  (forall r, base_exponent c s r <> s_zero) /\ s_add (x1 c) (x1 s) <> s_zero.

(** ** Properties *)

(** C28: the handshake.  A client and a server created with secrets of the
    same scalar, whatever their randomness outside the degenerate sums, run
    the whole exchange over the wire: every message is accepted, both derive
    the same key material, each verifies the other's Finished, they end with
    the same transcript, and the server derives the Joiner Router KEK of that
    key block. *)
Theorem honest_handshake_completes gc gs pskc psk :
  exists cl gc' sv gs',
    ClientHandshake_new_with_rng gc pskc = Ok (cl, gc') /\ ServerHandshake_new_with_rng gs psk = Ok (sv, gs') /\
    (scalar_from_secret pskc = scalar_from_secret psk -> nondegenerate (cl_ecjpake cl) (sv_ecjpake sv) ->
     forall ck seq, bytes_ok ck -> len ck <= 255 -> is_u16 seq ->
     exists cl' sv' km,
       honest_handshake cl sv ck seq gc' gs' = Ok (mkSession cl' sv' km km) /\ key_block_wf (key_block km) /\
       cl_transcript cl' = sv_transcript sv' /\
       exists kek, server_derive_joiner_router_kek sv' km = Ok kek /\ len kek = 16).
Proof.
  destruct (client_new_ok gc pskc) as (c & rc & cr & gc' & Ec & Wc & Rc & Ic & Sc & Hc & Oc & Lc).
  destruct (server_new_ok gs psk) as (s & rs & sr & gs' & Es & Ws & Rs & Is & Ss & Hs & Os & Ls).
  eexists _, gc', _, gs'. split; [exact Ec|]. split; [exact Es|]. cbn [cl_ecjpake sv_ecjpake].
  intros Hsec [Hb Hsum] ck seq Hck Hl Hseq. assert (is_pair c s) as Hp by done.
  destruct (hello_phase_ok c s rc rs cr sr Hp Hc Hs Ic Is Hb Oc Lc Os Ls ck seq gs' Hck Hl Hseq)
    as (r2s & gs'' & t & Hr2s & Eh).
  destruct (finish_phase_ok c s rc rs cr sr Hp Hc Hs Ic Hb r2s t seq gc' Hr2s ltac:(congruence) Hsum Hseq)
    as (cl' & sv' & km & Hk & Ef & Ht & Hcr & Hsr).
  exists cl', sv', km. unfold honest_handshake. rewrite Eh. cbn [rbind]. rewrite Ef. split; [done|]. split; [done|].
  split; [done|]. unfold server_derive_joiner_router_kek. rewrite Hcr, Hsr. cbn [ok_or rbind].
  destruct (derive_key_block_ok (master_secret km) cr sr) as (kb & _ & _ & Hp40).
  rewrite (derive_kek_ok _ _ _ _ Hp40). eexists. split; [done|].
  pose proof (sha256_len (key_block_bytes kb)). unfold len in *. rewrite length_take. lia.
Qed.

(** The handlers on hostile input.  Whatever handshake message arrives,
    in whatever state, no handler of either side panics and one that fails
    leaves the transcript unchanged; a Finished is accepted exactly when it
    carries the verify data of the transcript so far, and then it is recorded;
    a cookie is accepted exactly when it is the sixteen bytes computed for
    that client random. *)
Theorem handshake_handlers_exact m :
  bytes_ok (hs_payload m) -> len (hs_payload m) <= 2 ^ 15 -> is_u16 (message_seq m) ->
  (behaved sv_transcript (handle_client_hello m) /\ behaved sv_transcript (handle_client_key_exchange m) /\
   behaved cl_transcript (handle_server_hello m) /\ behaved cl_transcript (handle_server_key_exchange m) /\
   behaved cl_transcript (handle_server_hello_done m)) /\
  (forall sv km, exists v e,
     transcript_verify_data (sv_transcript sv) (master_secret km) RoleClient = Ok v /\
     verify_client_finished m km sv =
       if bool_decide (message_type m = Finished /\ hs_payload m = v)
       then (set_sv_transcript (sv_transcript sv ++ msg_bytes m) sv, Ok tt) else (sv, Err e)) /\
  (forall gen random, exists ck, cookie gen random = Ok ck /\ len ck = 16 /\
     forall received, verify gen random received = bool_decide (received = ck)).
Proof.
  intros Hok Hl Hseq. split; [|split].
  - destruct (server_handlers_behaved m Hok) as (? & ? & _). by destruct (client_handlers_behaved m Hok) as (? & ? & ? & _).
  - intros sv km. destruct (transcript_verify_data_ok (sv_transcript sv) (master_secret km) RoleClient) as (v & Hv & Hlv & _).
    destruct (decide (message_type m = Finished)) as [Ht|Ht].
    + destruct (decide (hs_payload m = v)) as [Hp|Hp].
      * exists v, DPeerClosed. split; [done|]. rewrite bool_decide_true by done.
        apply verify_client_finished_ok; [done|split; [done|split; [done|rewrite Hp; lia]]|]. by rewrite Hp.
      * exists v. eexists. split; [done|]. rewrite bool_decide_false by naive_solver.
        unfold verify_client_finished. rewrite bool_decide_true by done. cbn [negb]. mstep. rewrite Hv.
        unfold vec_eqb. rewrite bool_decide_false by naive_solver. done.
    + exists v. eexists. split; [done|]. rewrite bool_decide_false by naive_solver.
      unfold verify_client_finished. by rewrite bool_decide_false by done.
  - intros gen random. destruct (cookie_ok gen random) as (ck & Hc & Hlen & _). exists ck. split; [done|].
    split; [done|]. intros. by apply verify_spec.
Qed.
End Handlers.

Section Witness.
#[local] Existing Instance Toy.toy_hash.
#[local] Existing Instance Toy.toy_hash_laws.
#[local] Existing Instance ToyCurve.toy_curve.
#[local] Existing Instance ToyCurve.toy_curve_laws.
#[local] Existing Instance ToyCurve.toy_rng.
#[local] Existing Instance ToyCurve.toy_rng_laws.

Definition client_scalars (r : result DtlsError (ThreadDtlsHandshake * Z)) : option (scalar * scalar) :=
  match r with Ok (cl, _) => Some (x1 (cl_ecjpake cl), x2 (cl_ecjpake cl)) | _ => None end.
Definition server_scalars (r : result DtlsError (ThreadDtlsServerHandshake * Z)) : option (scalar * scalar) :=
  match r with Ok (sv, _) => Some (x1 (sv_ecjpake sv), x2 (sv_ecjpake sv)) | _ => None end.

Lemma toy_client_scalars : client_scalars (ClientHandshake_new_with_rng (RR := ToyCurve.toy_rng) 1 [5]) = Some (ToyCurve.F2, ToyCurve.F3).
Proof. vm_compute. reflexivity. Qed.
Lemma toy_server_scalars : server_scalars (ServerHandshake_new_with_rng (RR := ToyCurve.toy_rng) 0 [5]) = Some (ToyCurve.F1, ToyCurve.F2).
Proof. vm_compute. reflexivity. Qed.

Lemma honest_handshake_completes_witness :
  exists cl gc' sv gs' cl' sv' km,
    ClientHandshake_new_with_rng (RR := ToyCurve.toy_rng) 1 [5] = Ok (cl, gc') /\
    ServerHandshake_new_with_rng (RR := ToyCurve.toy_rng) 0 [5] = Ok (sv, gs') /\
    honest_handshake cl sv [1; 2; 3] 1 gc' gs' = Ok (mkSession cl' sv' km km).
Proof.
  destruct (honest_handshake_completes (RR := ToyCurve.toy_rng) 1 0 [5] [5]) as (cl & gc' & sv & gs' & Ec & Es & H).
  destruct (H eq_refl) with (ck := [1; 2; 3]) (seq := 1) as (cl' & sv' & km & ? & _);
    [|by_decide|by_decide|by_decide|by exists cl, gc', sv, gs', cl', sv', km].
  pose proof toy_client_scalars as Sc. pose proof toy_server_scalars as Ss. rewrite Ec in Sc. rewrite Es in Ss.
  injection Sc as Sc1 Sc2. injection Ss as Ss1 Ss2. unfold nondegenerate, base_exponent.
  rewrite Sc1, Sc2, Ss1, Ss2. split; [intros []|]; vm_compute; discriminate.
Defined.

Lemma handshake_handlers_exact_witness :
  let m := mkHandshakeMessage HtClientHello 0 [1; 2; 3] in
  behaved sv_transcript (handle_client_hello (CC := ToyCurve.toy_curve) m) /\
  exists ck, cookie (mkDtlsCookieGenerator [7]) [1] = Ok ck /\ verify (mkDtlsCookieGenerator [7]) [1] ck = true.
Proof.
  intros m. destruct (handshake_handlers_exact m) as ((? & _) & _ & H); [by_decide|by_decide|by_decide|].
  split; [done|]. destruct (H (mkDtlsCookieGenerator [7]) [1]) as (ck & ? & _ & Hv). exists ck.
  split; [done|]. rewrite Hv. by apply bool_decide_true.
Defined.
End Witness.
