(* ===== verification/Safety.v ===== *)
(** * Safety: what the DTLS operations never do

    The Hoare logic of methods that keep an invariant and do not panic, and
    the panic freedom of the operations the drivers and the joiner sessions
    call: encoders, record protection, handshake message builders. *)
From S2P Require Import Prelude Text Tlv Errors Coap Messages Replay Record Handshake.
From S2P Require Import Hello Crypto Ecjpake ThreadHandshake.

(** ** Methods that keep an invariant and do not panic *)

Definition good {S E A} (P : S -> Prop) (Q : A -> Prop) (m : M S E A) : Prop := forall s,
  P s -> P (m s).1 /\ match (m s).2 with Ok a => Q a | Err _ => True | Panic _ => False end.

Section Good.
Context {S E : Type} (P : S -> Prop).

Lemma good_bind {A B} (Q : A -> Prop) (R : B -> Prop) (m : M S E A) (k : A -> M S E B) :
  good P Q m -> (forall a, Q a -> good P R (k a)) -> good P R (mbind m k).
Proof.
  intros Hm Hk s Hs. destruct (Hm s Hs) as [H1 H2]. unfold mbind.
  destruct (m s) as [s1 [a|e|f]]; simpl in *; [by apply Hk|done..].
Qed.
Lemma good_ret {A} (Q : A -> Prop) a : Q a -> good P Q (@mret S E A a).
Proof. by intros ? s. Qed.
Lemma good_err {A} (Q : A -> Prop) e : good P Q (@merr S E A e).
Proof. by intros s. Qed.
Lemma good_lift {A} (Q : A -> Prop) (r : result E A) :
  safe r -> (forall a, r = Ok a -> Q a) -> good P Q (mlift r).
Proof. intros Hr Hq s Hs. split; [done|]. unfold mlift. simpl. destruct r; [by apply Hq|done|done]. Qed.
Lemma good_get {A} (Q : A -> Prop) (f : S -> A) : (forall s, P s -> Q (f s)) -> good P Q (@mget S E A f).
Proof. intros Hf s Hs. by split; [|apply Hf]. Qed.
Lemma good_set (f : S -> S) : (forall s, P s -> P (f s)) -> good P (fun _ => True) (@mset S E f).
Proof. intros Hf s Hs. by split; [apply Hf|]. Qed.
Lemma good_weaken {A} (Q R : A -> Prop) (m : M S E A) : good P Q m -> (forall a, Q a -> R a) -> good P R m.
Proof. intros Hm Hq s Hs. destruct (Hm s Hs) as [? H]. split; [done|]. destruct (m s).2; auto. Qed.
End Good.

Section Safety.
Context {HH : Hash} {HL : HashLaws} {AA : Aead} {AL : AeadLaws} {CC : Curve} {CL : CurveLaws} {RR : Rng} {RL : RngLaws}.

(** ** The operations a session calls *)

Lemma encode_header_safe h : 0 <= fragment_offset h -> safe (HandshakeHeader_encode h).
Proof.
  intros Ho. unfold HandshakeHeader_encode, HandshakeHeader_validate, write_u24. safe_auto.
  apply safe_add_or_panic. rewrite Z.gtb_ltb in *. zbool. unfold MAX_U24 in *. lia.
Qed.

Lemma fragment_loop_offsets m max n i cs fs :
  fragment_loop m max n i cs = Ok fs -> Forall (fun f => 0 <= fragment_offset (hs_header f)) fs.
Proof.
  revert i fs. induction cs as [|c cs IH]; intros i fs H; cbn [fragment_loop] in H; [by injection H as <-|].
  apply rbind_ok in H as (o & _ & H). apply rbind_ok in H as (r & Hr & H). injection H as <-.
  constructor; [cbn; unfold wrap; apply Z.mod_pos_bound; lia|by eapply IH].
Qed.

Lemma fragment_loop_safe m max n i cs : safe (fragment_loop m max n i cs).
Proof. revert i. induction cs as [|c cs IH]; intros i; cbn [fragment_loop]; [done|]. safe_auto. Qed.

Lemma HandshakeMessage_encode_safe m : safe (HandshakeMessage_encode m).
Proof.
  unfold HandshakeMessage_encode. apply safe_bind.
  { unfold HandshakeMessage_fragment. do 2 (case_match; [done|]). apply safe_bind; [apply fragment_loop_safe|].
    intros fs _. by case_match. }
  intros fs Hfs. apply safe_bind; [apply safe_ok_or|]. intros f Hf%ok_or_ok.
  unfold HandshakeFragment_encode. case_match; [done|]. apply safe_bind; [|done]. apply encode_header_safe.
  unfold HandshakeMessage_fragment in Hfs. do 2 (case_match; [done|]). apply rbind_ok in Hfs as (gs & Hg & Hfs).
    apply fragment_loop_offsets in Hg. destruct (is_empty gs); injection Hfs as <-; [by injection Hf as <-|].
    destruct gs; [done|]. injection Hf as <-. by apply Forall_cons_1 in Hg as [? _].
Qed.

Lemma encode_datagram_safe rs : safe (encode_datagram rs).
Proof.
  unfold encode_datagram. generalize (@nil Z). induction rs as [|r rs IH]; intros b; cbn [encode_datagram_loop]; [done|].
  apply safe_bind; [unfold DtlsRecord_encode; by case_match|]. intros. apply IH.
Qed.

Lemma record_new_safe ct ep seq pl : safe (DtlsRecord_new ct ep seq pl).
Proof. unfold DtlsRecord_new. by case_match. Qed.
Lemma record_encode_safe r : safe (DtlsRecord_encode r).
Proof. unfold DtlsRecord_encode. by case_match. Qed.

Lemma hello_verify_encode_safe h : safe (HelloVerifyRequest_encode h).
Proof. unfold HelloVerifyRequest_encode, validate_u8_len. by case_match. Qed.

Lemma write_key_kp_safe out p pf : safe (write_key_kp out p pf).
Proof.
  unfold write_key_kp, SchnorrProof_encode_tls, write_tls_point, validate_tls_u8_len.
  apply safe_bind; [apply safe_bind; [apply point_from_bytes_safe|intros; safe_auto]|].
  intros ? _. apply safe_bind; [|done]. apply safe_bind; [apply safe_bind; [apply point_from_bytes_safe|intros; safe_auto]|].
  intros. safe_auto.
Qed.

Lemma encode_extension_list_safe l out : safe (encode_extension_list l out).
Proof.
  revert out. induction l as [|x l IH]; intros out; cbn [encode_extension_list]; [done|].
  unfold validate_u16_len. apply safe_bind; [by case_match|]. intros. apply IH.
Qed.

Lemma server_hello_encode_safe h : safe (ServerHello_encode h).
Proof.
  unfold ServerHello_encode, validate_u8_len, append_extensions, validate_u16_len.
  apply safe_bind; [by case_match|intros _ _]. apply safe_bind; [apply encode_extension_list_safe|intros ? _]. safe_auto.
Qed.

Lemma ccm_nonce_safe iv e n : len iv = 4 -> safe (dtls_ccm_nonce iv e n).
Proof. intros H. unfold dtls_ccm_nonce, copy_exact, TLS_CCM_FIXED_IV_LEN. rewrite H. by case_match. Qed.

Lemma protect_safe ct ep n key iv pl : len iv = 4 -> safe (protect_aes_128_ccm_8_record ct ep n key iv pl).
Proof.
  intros H. unfold protect_aes_128_ccm_8_record, AesCcm8_encrypt. case_match; cbn [rbind]; [|done].
  apply safe_bind; [by apply ccm_nonce_safe|]. intros nonce Hn. apply safe_bind; [apply safe_ok_or|]. intros c _.
  apply safe_bind; [|intros; apply record_new_safe]. apply safe_slice_from. unfold TLS_CCM_FIXED_IV_LEN.
  unfold dtls_ccm_nonce, copy_exact in Hn. destruct (_ >? _) in Hn; [done|]. destruct (_ =? _) in Hn; [|done].
  injection Hn as <-. rewrite len_app, H.
  match goal with |- context [4 + len ?l] => pose proof (len_nonneg l) end. lia.
Qed.

Lemma open_safe r key iv : len iv = 4 -> safe (open_aes_128_ccm_8_record r key iv).
Proof.
  intros H. unfold open_aes_128_ccm_8_record, AesCcm8_decrypt, copy_exact, TLS_CCM_FIXED_IV_LEN, TLS_CCM_EXPLICIT_NONCE_LEN, TLS_CCM_8_TAG_LEN.
  rewrite H. case_match; [done|]. zbool. safe_auto.
Qed.

Lemma open_bytes r key iv pl : bytes_ok (rec_payload r) -> open_aes_128_ccm_8_record r key iv = Ok pl -> bytes_ok pl.
Proof.
  intros Hb H. unfold open_aes_128_ccm_8_record, AesCcm8_decrypt in H. inv_ok.
  match goal with H : ccm_decrypt _ _ _ ?x = Some _ |- _ => apply ccm_decrypt_ok in H; [done|] end.
  match goal with H : slice_from _ _ = Ok _ |- _ => apply slice_from_inv in H as (_ & -> & _) end.
  by apply Forall_drop.
Qed.

Lemma mbind_safe {S E A B} (m : M S E A) (k : A -> M S E B) s :
  safe (m s).2 -> (forall a s', m s = (s', Ok a) -> safe (k a s').2) -> safe (mbind m k s).2.
Proof.
  intros Hm Hk. unfold mbind. destruct (m s) as [s' [a|e|f]] eqn:Em; [|done|done]. by apply Hk.
Qed.

Lemma with_rng_safe {S A} (m : M S DtlsError A) x : safe (m x.1).2 -> safe (with_rng m x).2.
Proof. destruct x as [s g]. unfold with_rng. simpl. by destruct (m s) as [s' r]. Qed.

(** ** The handshake methods of the server *)

Lemma sv_push_safe m s : safe (sv_push m s).2.
Proof. apply sv_push_behaved. Qed.

Lemma build_server_hello_safe seq s : safe (build_server_hello seq s).2.
Proof.
  unfold build_server_hello. apply mbind_safe; [done|]. intros self s1 _. case_match; [done|].
  apply mbind_safe; [apply safe_bind; [apply write_key_kp_safe|intros; apply write_key_kp_safe]|]. intros kk s2 _.
  apply mbind_safe; [apply server_hello_encode_safe|]. intros pl s3 _. apply mbind_safe; [apply sv_push_safe|done].
Qed.

Lemma build_server_key_exchange_safe seq x : safe (build_server_key_exchange seq x).2.
Proof.
  unfold build_server_key_exchange. apply mbind_safe; [done|]. intros self s1 _.
  apply mbind_safe; [apply safe_ok_or|]. intros r1 [s2 g2] _. apply mbind_safe.
  { unfold mdraw. pose proof (round_two_safe (sv_ecjpake s2) (sv_server_round_one s2) r1 g2).
    by destruct (round_two _ _ _ _) as [[? ?]|?|?]. }
  intros r2 s3 _. apply mbind_safe; [apply write_key_kp_safe|]. intros pl s4 _.
  apply mbind_safe; [apply with_rng_safe, sv_push_safe|done].
Qed.

Lemma build_server_hello_done_safe seq s : safe (build_server_hello_done seq s).2.
Proof. unfold build_server_hello_done. apply mbind_safe; [apply sv_push_safe|done]. Qed.

Lemma build_server_finished_safe seq km s : safe (build_server_finished seq km s).2.
Proof.
  unfold build_server_finished. apply mbind_safe; [done|]. intros self s1 _.
  apply mbind_safe; [apply transcript_verify_data_safe|]. intros v s2 _. apply mbind_safe; [apply sv_push_safe|done].
Qed.

(** ** Parsed records and messages *)

Lemma many_messages_ok r ms : bytes_ok (rec_payload r) -> parse_unfragmented_handshake_messages r = Ok ms ->
  Forall (fun m => bytes_ok (hs_payload m)) ms.
Proof.
  intros Hb H. unfold parse_unfragmented_handshake_messages in H. case_match; [done|].
  apply (many_decode _ parse_unfragmented_consumes msg_bytes msg_wf) in H as [_ H];
    [|intros rem x rest Hr Hx; by apply parse_unfragmented_step_inv in Hx as (? & ? & _)|done].
  eapply Forall_impl; [exact H|]. by intros m (_ & ? & _).
Qed.

Lemma parsed_records_ok d rs : bytes_ok d -> parse_datagram d = Ok rs -> Forall (fun r => bytes_ok (rec_payload r)) rs.
Proof.
  intros Hb H. unfold parse_datagram in H.
  apply (many_decode _ parse_record_consumes record_bytes record_wf) in H as [_ H];
    [|intros rem x rest Hr Hx; by apply parse_record_inv in Hx as (? & ? & _)|done].
  eapply Forall_impl; [exact H|]. by intros r (_ & ? & _).
Qed.

End Safety.
