(* ===== verification/Joiner.v ===== *)
(** * Joiner: joiner commissioning sessions

    The model of crates/meshcop/src/commissioner/joiner.rs.  The session is a
    record with the source's fields and one setter per field it assigns; its
    methods are state transformers over the session, or over [Env] where they
    also take the event list, the application's handler and the random
    generator.  An [Instant] is its number of nanoseconds, a [String] its UTF-8
    bytes.  The application's [JoinerHandler] trait is a class whose methods
    return the handler's new state; [StaticJoinerHandler] is an instance. *)
From S2P Require Import Prelude Text Tlv Errors Coap Messages Replay Record Handshake.
From S2P Require Import Hello Crypto Ecjpake ThreadHandshake.

Definition LOCAL_EXTERNAL_ADDR_MASK : Z := Z.shiftl 1 1.
Definition MAX_DUPLICATE_FLIGHT_RETRANSMISSIONS : Z := 4.
(** Nanoseconds. *)
Definition JOINER_SESSION_TIMEOUT : Z := (60 + 20) * 1000000000.

(** [iid] has eight bytes; indexing a [u8; 8] at 0 cannot fail. *)
Definition joiner_id_from_iid (iid : bytes) : bytes :=
  match iid with
  | b :: rest => Z.lxor b LOCAL_EXTERNAL_ADDR_MASK :: rest
  | [] => []
  end.

Record JoinerFinalizeInfo := mkJoinerFinalizeInfo {
  vendor_name : bytes;
  vendor_model : bytes;
  vendor_sw_version : bytes;
  vendor_stack_version : bytes;
  provisioning_url : option bytes;
  vendor_data : option bytes }.

(** The closures of [from_payload]. *)
Definition join_fin_required (tlvs : TlvSet) (ty : Z) (name : string) : result Error bytes :=
  ok_or (last_value tlvs ty) (EDataset ("JOIN_FIN.req missing " +:+ name +:+ " TLV")).
Definition join_fin_utf8 (value : bytes) (name : string) : result Error bytes :=
  from_utf8 value (EDataset ("JOIN_FIN.req " +:+ name +:+ " TLV is not UTF-8")).

Definition JoinerFinalizeInfo_from_payload (payload : bytes) : result Error JoinerFinalizeInfo :=
  let! tlvs := from_tlv (TlvSet_parse payload) in
  let! _ := join_fin_required tlvs TLV_STATE "State" in
  let! name := join_fin_required tlvs TLV_VENDOR_NAME "Vendor Name" in
  let! name := join_fin_utf8 name "Vendor Name" in
  let! model := join_fin_required tlvs TLV_VENDOR_MODEL "Vendor Model" in
  let! model := join_fin_utf8 model "Vendor Model" in
  let! sw := join_fin_required tlvs TLV_VENDOR_SW_VERSION "Vendor SW Version" in
  let! sw := join_fin_utf8 sw "Vendor SW Version" in
  let! stack := join_fin_required tlvs TLV_VENDOR_STACK_VERSION "Vendor Stack Version" in
  let! url := map_transpose (fun value => join_fin_utf8 value "Provisioning URL")
                (last_value tlvs TLV_PROVISIONING_URL) in
  Ok (mkJoinerFinalizeInfo name model sw stack url (last_value tlvs TLV_VENDOR_DATA)).

Definition parse_join_fin (request : CoapMessage) : result Error JoinerFinalizeInfo :=
  JoinerFinalizeInfo_from_payload (payload request).

(** ** The application *)

Class JoinerHandler := {
  handler : Type;
  joiner_pskd : handler -> bytes -> option bytes * handler;
  on_joiner_connected : handler -> bytes -> handler;
  on_joiner_finalize : handler -> bytes -> JoinerFinalizeInfo -> bool * handler }.

Record StaticJoinerHandler := mkStaticJoinerHandler {
  wildcard_pskd : option bytes;
  by_joiner_id : list (bytes * bytes) }.

Definition StaticJoinerHandler_new : StaticJoinerHandler := mkStaticJoinerHandler None [].
Definition enable_all (self : StaticJoinerHandler) (pskd : bytes) : StaticJoinerHandler :=
  mkStaticJoinerHandler (Some pskd) (by_joiner_id self).
Definition retain_other (id : bytes) (l : list (bytes * bytes)) : list (bytes * bytes) :=
  List.filter (fun e => negb (vec_eqb e.1 id)) l.
Definition enable_joiner_id (self : StaticJoinerHandler) (id pskd : bytes) : StaticJoinerHandler :=
  mkStaticJoinerHandler (wildcard_pskd self) (retain_other id (by_joiner_id self) ++ [(id, pskd)]).
Definition disable_joiner_id (self : StaticJoinerHandler) (id : bytes) : StaticJoinerHandler :=
  mkStaticJoinerHandler (wildcard_pskd self) (retain_other id (by_joiner_id self)).
Definition disable_all (self : StaticJoinerHandler) : StaticJoinerHandler :=
  mkStaticJoinerHandler None (by_joiner_id self).
Definition static_joiner_pskd (self : StaticJoinerHandler) (id : bytes) : option bytes :=
  match List.find (fun e => vec_eqb e.1 id) (by_joiner_id self) with
  | Some (_, pskd) => Some pskd
  | None => wildcard_pskd self
  end.

(** The trait's default methods accept every finalization and ignore connections. *)
#[global] Instance static_joiner_handler : JoinerHandler := {
  handler := StaticJoinerHandler;
  joiner_pskd h id := (static_joiner_pskd h id, h);
  on_joiner_connected h _ := h;
  on_joiner_finalize h _ _ := (true, h) }.

(** ** The session *)

Inductive JoinerSessionEvent :=
  | Transmit (datagram : bytes) (include_kek : bool)
  | EvConnected
  | EvFinalized (accepted : bool) (info : JoinerFinalizeInfo).

Inductive JoinerSessionPhase := AwaitingClientHello | AwaitingClientFlight | PhConnected | PhFinalized.
#[global] Instance JoinerSessionPhase_eq_dec : EqDecision JoinerSessionPhase.
Proof. solve_decision. Defined.

Section Session.
Context {HH : Hash} {AA : Aead} {CC : Curve} {RR : Rng}.

Record JoinerSession := mkJoinerSession {
  joiner_id : bytes;
  joiner_iid : bytes;
  joiner_udp_port : Z;
  joiner_router_locator : Z;
  phase : JoinerSessionPhase;
  handshake : ThreadDtlsServerHandshake;
  cookie_generator : DtlsCookieGenerator;
  key_material : option ThreadDtlsKeyMaterial;
  accepted_client_hello : option HandshakeMessage;
  accepted_client_key_exchange : option HandshakeMessage;
  server_flight : list DtlsRecord;
  server_finished : bytes;
  server_flight_retransmissions : Z;
  server_finished_retransmissions : Z;
  replay_window : ReplayWindow;
  epoch0_sequence : Z;
  epoch1_sequence : Z;
  saw_client_change_cipher_spec : bool;
  finalize_decision : option bool;
  expires_at : Z }.

(** Assignments to the fields. *)
Definition set_phase (v : JoinerSessionPhase) (s : JoinerSession) : JoinerSession :=
  mkJoinerSession (joiner_id s) (joiner_iid s) (joiner_udp_port s) (joiner_router_locator s) v (handshake s)
    (cookie_generator s) (key_material s) (accepted_client_hello s) (accepted_client_key_exchange s)
    (server_flight s) (server_finished s) (server_flight_retransmissions s) (server_finished_retransmissions
    s) (replay_window s) (epoch0_sequence s) (epoch1_sequence s) (saw_client_change_cipher_spec s)
    (finalize_decision s) (expires_at s).
Definition set_handshake (v : ThreadDtlsServerHandshake) (s : JoinerSession) : JoinerSession :=
  mkJoinerSession (joiner_id s) (joiner_iid s) (joiner_udp_port s) (joiner_router_locator s) (phase s) v
    (cookie_generator s) (key_material s) (accepted_client_hello s) (accepted_client_key_exchange s)
    (server_flight s) (server_finished s) (server_flight_retransmissions s) (server_finished_retransmissions
    s) (replay_window s) (epoch0_sequence s) (epoch1_sequence s) (saw_client_change_cipher_spec s)
    (finalize_decision s) (expires_at s).
Definition set_key_material (v : option ThreadDtlsKeyMaterial) (s : JoinerSession) : JoinerSession :=
  mkJoinerSession (joiner_id s) (joiner_iid s) (joiner_udp_port s) (joiner_router_locator s) (phase s)
    (handshake s) (cookie_generator s) v (accepted_client_hello s) (accepted_client_key_exchange s)
    (server_flight s) (server_finished s) (server_flight_retransmissions s) (server_finished_retransmissions
    s) (replay_window s) (epoch0_sequence s) (epoch1_sequence s) (saw_client_change_cipher_spec s)
    (finalize_decision s) (expires_at s).
Definition set_accepted_client_hello (v : option HandshakeMessage) (s : JoinerSession) : JoinerSession :=
  mkJoinerSession (joiner_id s) (joiner_iid s) (joiner_udp_port s) (joiner_router_locator s) (phase s)
    (handshake s) (cookie_generator s) (key_material s) v (accepted_client_key_exchange s) (server_flight s)
    (server_finished s) (server_flight_retransmissions s) (server_finished_retransmissions s) (replay_window
    s) (epoch0_sequence s) (epoch1_sequence s) (saw_client_change_cipher_spec s) (finalize_decision s)
    (expires_at s).
Definition set_accepted_client_key_exchange (v : option HandshakeMessage) (s : JoinerSession) : JoinerSession :=
  mkJoinerSession (joiner_id s) (joiner_iid s) (joiner_udp_port s) (joiner_router_locator s) (phase s)
    (handshake s) (cookie_generator s) (key_material s) (accepted_client_hello s) v (server_flight s)
    (server_finished s) (server_flight_retransmissions s) (server_finished_retransmissions s) (replay_window
    s) (epoch0_sequence s) (epoch1_sequence s) (saw_client_change_cipher_spec s) (finalize_decision s)
    (expires_at s).
Definition set_server_flight (v : list DtlsRecord) (s : JoinerSession) : JoinerSession :=
  mkJoinerSession (joiner_id s) (joiner_iid s) (joiner_udp_port s) (joiner_router_locator s) (phase s)
    (handshake s) (cookie_generator s) (key_material s) (accepted_client_hello s)
    (accepted_client_key_exchange s) v (server_finished s) (server_flight_retransmissions s)
    (server_finished_retransmissions s) (replay_window s) (epoch0_sequence s) (epoch1_sequence s)
    (saw_client_change_cipher_spec s) (finalize_decision s) (expires_at s).
Definition set_server_finished (v : bytes) (s : JoinerSession) : JoinerSession :=
  mkJoinerSession (joiner_id s) (joiner_iid s) (joiner_udp_port s) (joiner_router_locator s) (phase s)
    (handshake s) (cookie_generator s) (key_material s) (accepted_client_hello s)
    (accepted_client_key_exchange s) (server_flight s) v (server_flight_retransmissions s)
    (server_finished_retransmissions s) (replay_window s) (epoch0_sequence s) (epoch1_sequence s)
    (saw_client_change_cipher_spec s) (finalize_decision s) (expires_at s).
Definition set_server_flight_retransmissions (v : Z) (s : JoinerSession) : JoinerSession :=
  mkJoinerSession (joiner_id s) (joiner_iid s) (joiner_udp_port s) (joiner_router_locator s) (phase s)
    (handshake s) (cookie_generator s) (key_material s) (accepted_client_hello s)
    (accepted_client_key_exchange s) (server_flight s) (server_finished s) v (server_finished_retransmissions
    s) (replay_window s) (epoch0_sequence s) (epoch1_sequence s) (saw_client_change_cipher_spec s)
    (finalize_decision s) (expires_at s).
Definition set_server_finished_retransmissions (v : Z) (s : JoinerSession) : JoinerSession :=
  mkJoinerSession (joiner_id s) (joiner_iid s) (joiner_udp_port s) (joiner_router_locator s) (phase s)
    (handshake s) (cookie_generator s) (key_material s) (accepted_client_hello s)
    (accepted_client_key_exchange s) (server_flight s) (server_finished s) (server_flight_retransmissions s) v
    (replay_window s) (epoch0_sequence s) (epoch1_sequence s) (saw_client_change_cipher_spec s)
    (finalize_decision s) (expires_at s).
Definition set_replay_window (v : ReplayWindow) (s : JoinerSession) : JoinerSession :=
  mkJoinerSession (joiner_id s) (joiner_iid s) (joiner_udp_port s) (joiner_router_locator s) (phase s)
    (handshake s) (cookie_generator s) (key_material s) (accepted_client_hello s)
    (accepted_client_key_exchange s) (server_flight s) (server_finished s) (server_flight_retransmissions s)
    (server_finished_retransmissions s) v (epoch0_sequence s) (epoch1_sequence s)
    (saw_client_change_cipher_spec s) (finalize_decision s) (expires_at s).
Definition set_epoch0_sequence (v : Z) (s : JoinerSession) : JoinerSession :=
  mkJoinerSession (joiner_id s) (joiner_iid s) (joiner_udp_port s) (joiner_router_locator s) (phase s)
    (handshake s) (cookie_generator s) (key_material s) (accepted_client_hello s)
    (accepted_client_key_exchange s) (server_flight s) (server_finished s) (server_flight_retransmissions s)
    (server_finished_retransmissions s) (replay_window s) v (epoch1_sequence s) (saw_client_change_cipher_spec
    s) (finalize_decision s) (expires_at s).
Definition set_epoch1_sequence (v : Z) (s : JoinerSession) : JoinerSession :=
  mkJoinerSession (joiner_id s) (joiner_iid s) (joiner_udp_port s) (joiner_router_locator s) (phase s)
    (handshake s) (cookie_generator s) (key_material s) (accepted_client_hello s)
    (accepted_client_key_exchange s) (server_flight s) (server_finished s) (server_flight_retransmissions s)
    (server_finished_retransmissions s) (replay_window s) (epoch0_sequence s) v (saw_client_change_cipher_spec
    s) (finalize_decision s) (expires_at s).
Definition set_saw_client_change_cipher_spec (v : bool) (s : JoinerSession) : JoinerSession :=
  mkJoinerSession (joiner_id s) (joiner_iid s) (joiner_udp_port s) (joiner_router_locator s) (phase s)
    (handshake s) (cookie_generator s) (key_material s) (accepted_client_hello s)
    (accepted_client_key_exchange s) (server_flight s) (server_finished s) (server_flight_retransmissions s)
    (server_finished_retransmissions s) (replay_window s) (epoch0_sequence s) (epoch1_sequence s) v
    (finalize_decision s) (expires_at s).
Definition set_finalize_decision (v : option bool) (s : JoinerSession) : JoinerSession :=
  mkJoinerSession (joiner_id s) (joiner_iid s) (joiner_udp_port s) (joiner_router_locator s) (phase s)
    (handshake s) (cookie_generator s) (key_material s) (accepted_client_hello s)
    (accepted_client_key_exchange s) (server_flight s) (server_finished s) (server_flight_retransmissions s)
    (server_finished_retransmissions s) (replay_window s) (epoch0_sequence s) (epoch1_sequence s)
    (saw_client_change_cipher_spec s) v (expires_at s).

Definition JoinerSession_new (iid : bytes) (udp_port router_locator : Z) (pskd : bytes) (now : Z) (g : rng)
    : result Error (JoinerSession * rng) :=
  let! '(hs, g) := from_dtls (ServerHandshake_new_with_rng g pskd) in
  let '(gen, g) := DtlsCookieGenerator_new_with_rng g in
  Ok (mkJoinerSession (joiner_id_from_iid iid) iid udp_port router_locator AwaitingClientHello hs gen None None None
        [] [] 0 0 ReplayWindow_new 0 0 false None (now + JOINER_SESSION_TIMEOUT), g).

Definition expired (self : JoinerSession) (now : Z) : bool := expires_at self <=? now.

Definition established (p : JoinerSessionPhase) : bool :=
  match p with PhConnected | PhFinalized => true | _ => false end.

(** A DTLS operation without effect on the session, with [?]. *)
Definition mdtls {S A} (r : result DtlsError A) : M S Error A := mlift (from_dtls r).

Definition key_material_required (self : JoinerSession) : result Error ThreadDtlsKeyMaterial :=
  ok_or (key_material self) (EInvalidState "joiner key material is not derived").

Definition joiner_router_kek (self : JoinerSession) : result Error bytes :=
  let! km := key_material_required self in
  from_dtls (server_derive_joiner_router_kek (handshake self) km).

Definition open_record (record : DtlsRecord) : M JoinerSession Error (option bytes) :=
  let* self := mget id in
  if has_seen (replay_window self) (sequence_number (rec_header record)) then mret None
  else
    let* km := mlift (key_material_required self) in
    let* plaintext := mdtls (open_aes_128_ccm_8_record record (client_write_key (key_block km))
                               (client_write_iv (key_block km))) in
    let* _ := mset (set_replay_window (mark_seen (replay_window self) (sequence_number (rec_header record)))) in
    mret (Some plaintext).

Definition plaintext_record (pl : bytes) : M JoinerSession Error DtlsRecord :=
  let* self := mget id in
  let* record := mdtls (DtlsRecord_new CtHandshake 0 (epoch0_sequence self) pl) in
  let* _ := mset (set_epoch0_sequence (wrapping_add 64 (epoch0_sequence self) 1)) in
  mret record.

Definition plaintext_change_cipher_spec : M JoinerSession Error DtlsRecord :=
  let* self := mget id in
  let* record := mdtls (DtlsRecord_new CtChangeCipherSpec 0 (epoch0_sequence self) [1]) in
  let* _ := mset (set_epoch0_sequence (wrapping_add 64 (epoch0_sequence self) 1)) in
  mret record.

Definition build_server_finished_flight : M JoinerSession Error bytes :=
  let* self := mget id in
  let* km := mlift (key_material_required self) in
  let* change_cipher_spec := plaintext_change_cipher_spec in
  let* finished := mdtls (protect_aes_128_ccm_8_record CtHandshake 1 (epoch1_sequence self)
    (server_write_key (key_block km)) (server_write_iv (key_block km)) (server_finished self)) in
  let* _ := mset (set_epoch1_sequence (wrapping_add 64 (epoch1_sequence self) 1)) in
  mdtls (encode_datagram [change_cipher_spec; finished]).

(** ** Receiving *)

Context {JH : JoinerHandler}.

(** What [receive] works on: the session, the arguments it mutates and the
    events collected so far. *)
Record Env := mkEnv {
  session : JoinerSession;
  env_rng : rng;
  env_handler : handler;
  events : list JoinerSessionEvent }.

Definition set_session (s : JoinerSession) (e : Env) : Env := mkEnv s (env_rng e) (env_handler e) (events e).
Definition push_event (ev : JoinerSessionEvent) (e : Env) : Env :=
  mkEnv (session e) (env_rng e) (env_handler e) (events e ++ [ev]).

(** A method of [self], and one of [self.handshake] with the generator. *)
Definition on_session {A} (m : M JoinerSession Error A) : M Env Error A :=
  mzoom (fun e => e) session set_session m.
Definition update (f : JoinerSession -> JoinerSession) : M Env Error unit := on_session (mset f).
Definition on_handshake {A} (m : M (ThreadDtlsServerHandshake * rng) DtlsError A) : M Env Error A :=
  mzoom EDtls (fun e => (handshake (session e), env_rng e))
    (fun '(h, g) e => mkEnv (set_handshake h (session e)) g (env_handler e) (events e)) m.
Definition emit (ev : JoinerSessionEvent) : M Env Error unit := mset (push_event ev).

Definition handle_plaintext_handshake (message : HandshakeMessage) (record_sequence : Z) : M Env Error unit :=
  let* self := mget session in
  match message_type message, phase self with
  | HtClientHello, AwaitingClientHello =>
      let* hello := mdtls (ClientHello_decode (hs_payload message)) in
      if negb (verify (cookie_generator self) (ch_random hello) (ch_cookie hello))
      then
        let* ck := mdtls (cookie (cookie_generator self) (ch_random hello)) in
        let* body := mdtls (HelloVerifyRequest_encode (mkHelloVerifyRequest DTLS_1_2_VERSION ck)) in
        let* verify_request := mdtls (HandshakeMessage_encode
          (mkHandshakeMessage HtHelloVerifyRequest (message_seq message) body)) in
        let* record := mdtls (DtlsRecord_new CtHandshake 0 record_sequence verify_request) in
        let* datagram := mdtls (DtlsRecord_encode record) in
        emit (Transmit datagram false)
      else
        let* _ := on_handshake (with_rng (handle_client_hello message)) in
        let* _ := update (set_accepted_client_hello (Some message)) in
        let* _ := update (set_epoch0_sequence record_sequence) in
        let seq := message_seq message in
        let* server_hello := on_handshake (with_rng (build_server_hello seq)) in
        let* key_exchange := on_handshake (build_server_key_exchange (wrapping_add 16 seq 1)) in
        let* hello_done := on_handshake (with_rng (build_server_hello_done (wrapping_add 16 seq 2))) in
        let* b1 := mdtls (HandshakeMessage_encode server_hello) in
        let* r1 := on_session (plaintext_record b1) in
        let* b2 := mdtls (HandshakeMessage_encode key_exchange) in
        let* r2 := on_session (plaintext_record b2) in
        let* b3 := mdtls (HandshakeMessage_encode hello_done) in
        let* r3 := on_session (plaintext_record b3) in
        let* _ := update (set_server_flight [r1; r2; r3]) in
        let* datagram := mdtls (encode_datagram [r1; r2; r3]) in
        let* _ := update (set_phase AwaitingClientFlight) in
        emit (Transmit datagram false)
  | HtClientHello, AwaitingClientFlight =>
      if bool_decide (accepted_client_hello self = Some message)
         && (server_flight_retransmissions self <? MAX_DUPLICATE_FLIGHT_RETRANSMISSIONS)
      then
        let* _ := update (set_server_flight_retransmissions
                            (saturating_add 8 (server_flight_retransmissions self) 1)) in
        let '(flight, next) := renumber_epoch_zero_flight (server_flight self) (epoch0_sequence self) in
        let* _ := update (set_server_flight flight) in
        let* _ := update (set_epoch0_sequence next) in
        let* datagram := mdtls (encode_datagram flight) in
        emit (Transmit datagram false)
      else mret tt
  | ClientKeyExchange, AwaitingClientFlight =>
      if bool_decide (accepted_client_key_exchange self = Some message) then mret tt
      else
        let* _ := on_handshake (with_rng (handle_client_key_exchange message)) in
        let* self := mget session in
        let* km := mdtls (server_derive_key_material (handshake self)) in
        let* _ := update (set_key_material (Some km)) in
        update (set_accepted_client_key_exchange (Some message))
  | ty, _ => merr (ECrypto ("unexpected joiner handshake message " +:+ HandshakeType_debug ty))
  end.

(** The messages of a decrypted handshake record. *)
Fixpoint handle_finished_messages (messages : list HandshakeMessage) : M Env Error unit :=
  match messages with
  | [] => mret tt
  | message :: rest =>
      if negb (bool_decide (message_type message = Finished)) then handle_finished_messages rest
      else
        let* self := mget session in
        let* km := mlift (key_material_required self) in
        let* _ := on_handshake (with_rng (verify_client_finished message km)) in
        let* hello := mlift (ok_or (accepted_client_hello self) (EInvalidState "accepted ClientHello is missing")) in
        let* finished := on_handshake (with_rng (build_server_finished (wrapping_add 16 (message_seq hello) 3) km)) in
        let* b := mdtls (HandshakeMessage_encode finished) in
        let* _ := update (set_server_finished b) in
        let* datagram := on_session build_server_finished_flight in
        let* _ := update (set_phase PhConnected) in
        let* _ := emit (Transmit datagram false) in
        let* _ := emit EvConnected in
        handle_finished_messages rest
  end.

Definition handle_encrypted_handshake (record : DtlsRecord) : M Env Error unit :=
  let* self := mget session in
  if negb (bool_decide (phase self = AwaitingClientFlight)) || negb (saw_client_change_cipher_spec self)
     || bool_decide (key_material self = None)
  then mret tt
  else
    let* opened := on_session (open_record record) in
    match opened with
    | None => mret tt
    | Some plaintext =>
        let* plain_record := mdtls (DtlsRecord_new CtHandshake 1 0 plaintext) in
        let* messages := mdtls (parse_unfragmented_handshake_messages plain_record) in
        handle_finished_messages messages
    end.

(** [if let Ok(Some(x)) = m] and [let Ok(Some(x)) = m else]: the state [m]
    leaves is kept when it fails. *)
Definition attempt {S E A} (m : M S E (option A)) : M S E (option A) := fun s =>
  match m s with
  | (s', Ok o) => (s', Ok o)
  | (s', Err _) => (s', Ok None)
  | (s', Panic f) => (s', Panic f)
  end.

Definition finalize_response (request : CoapMessage) (accepted : bool) : CoapMessage :=
  let state := if accepted then Accept else Reject in
  mkCoapMessage Acknowledgement CODE_CHANGED (message_id request) (token request) []
    [TLV_STATE; 1; MeshcopState_to_wire state].

(** [self.finalize_decision.get_or_insert_with(..)]. *)
Definition decide_finalize (info : JoinerFinalizeInfo) : M Env Error bool := fun e =>
  match finalize_decision (session e) with
  | Some accepted => (e, Ok accepted)
  | None =>
      let '(accepted, h) := on_joiner_finalize (env_handler e) (joiner_id (session e)) info in
      (mkEnv (set_finalize_decision (Some accepted) (session e)) (env_rng e) h (events e), Ok accepted)
  end.

Definition handle_application_data (record : DtlsRecord) : M Env Error unit :=
  let* self := mget session in
  if negb (established (phase self)) then mret tt
  else
    let* opened := on_session (attempt (open_record record)) in
    match opened with
    | None => mret tt
    | Some plaintext =>
        let* _ := update (set_server_finished []) in
        let* request := mlift (CoapMessage_decode plaintext) in
        let* path := mlift (uri_path request) in
        if negb (bool_decide (path = Some JOIN_FIN)) then mret tt
        else
          let* info := mlift (parse_join_fin request) in
          let* accepted := decide_finalize info in
          let* self := mget session in
          let* km := mlift (key_material_required self) in
          let* response := mlift (CoapMessage_encode (finalize_response request accepted)) in
          let* response_record := mdtls (protect_aes_128_ccm_8_record CtApplicationData 1 (epoch1_sequence self)
            (server_write_key (key_block km)) (server_write_iv (key_block km)) response) in
          let* _ := update (set_epoch1_sequence (wrapping_add 64 (epoch1_sequence self) 1)) in
          let first_decision := negb (bool_decide (phase self = PhFinalized)) in
          let* _ := update (set_phase PhFinalized) in
          let* datagram := mdtls (DtlsRecord_encode response_record) in
          let* _ := emit (Transmit datagram accepted) in
          if first_decision then emit (EvFinalized accepted info) else mret tt
    end.

Fixpoint handle_plaintext_messages (messages : list HandshakeMessage) (record_sequence : Z) : M Env Error unit :=
  match messages with
  | [] => mret tt
  | message :: rest =>
      let* _ := handle_plaintext_handshake message record_sequence in
      handle_plaintext_messages rest record_sequence
  end.

(** One record of the loop of [receive]. *)
Definition receive_record (was_established : bool) (record : DtlsRecord) : M Env Error unit :=
  let header := rec_header record in
  let* self := mget session in
  match rec_epoch header, content_type header with
  | 0, CtHandshake =>
      if was_established then mret tt
      else
        match parse_unfragmented_handshake_messages record with
        | Ok messages => handle_plaintext_messages messages (sequence_number header)
        | Err _ => mret tt
        | Panic f => mlift (Panic f)
        end
  | 0, CtChangeCipherSpec =>
      if negb (vec_eqb (rec_payload record) [1]) then merr (ECrypto "invalid ChangeCipherSpec payload")
      else update (set_saw_client_change_cipher_spec true)
  | 1, CtHandshake => handle_encrypted_handshake record
  | 1, CtApplicationData => handle_application_data record
  | 0, CtAlert =>
      if established (phase self) then mret tt
      else merr (ECrypto ("joiner DTLS alert epoch=" +:+ dec (rec_epoch header)
                          +:+ " seq=" +:+ dec (sequence_number header)))
  | 1, CtAlert =>
      let* opened := on_session (attempt (open_record record)) in
      match opened with
      | Some plaintext =>
          merr (ECrypto ("joiner DTLS alert epoch=1 seq=" +:+ dec (sequence_number header)
                         +:+ " level=" +:+ dec (default 0 (plaintext !! 0%nat))
                         +:+ " description=" +:+ dec (default 0 (plaintext !! 1%nat))))
      | None => mret tt
      end
  | _, _ => mret tt
  end.

Fixpoint receive_records (was_established : bool) (records : list DtlsRecord) : M Env Error unit :=
  match records with
  | [] => mret tt
  | record :: rest =>
      let* _ := receive_record was_established record in
      receive_records was_established rest
  end.

(** The answer to a retransmitted client flight. *)
Definition resend_finished (was_established : bool) (records : list DtlsRecord) : M Env Error unit :=
  let* self := mget session in
  if was_established && negb (is_empty (server_finished self)) && is_client_finished_flight records
     && (server_finished_retransmissions self <? MAX_DUPLICATE_FLIGHT_RETRANSMISSIONS)
  then
    let* _ := update (set_server_finished_retransmissions
                        (saturating_add 8 (server_finished_retransmissions self) 1)) in
    let* datagram := on_session build_server_finished_flight in
    emit (Transmit datagram false)
  else mret tt.

Definition process (records : list DtlsRecord) : M Env Error unit :=
  let* self := mget session in
  let was_established := established (phase self) in
  let* _ := resend_finished was_established records in
  receive_records was_established records.

(** [receive]: the session, generator and handler afterwards, and the events. *)
Definition JoinerSession_receive (self : JoinerSession) (g : rng) (h : handler) (encapsulated : bytes)
    : JoinerSession * rng * handler * result Error (list JoinerSessionEvent) :=
  match parse_datagram encapsulated with
  | Ok records =>
      let '(e, r) := process records (mkEnv self g h []) in
      (session e, env_rng e, env_handler e, map_ok (fun _ => events e) r)
  | Err _ => (self, g, h, Ok [])
  | Panic f => (self, g, h, Panic f)
  end.

(** ** The abstract session

    What an observer of a session sees: its phase, the decision, the two
    retransmission counters, the next protected record number, and the
    application's handler.  A step emits events; the protected (epoch 1) record
    numbers its datagrams carry are part of its label. *)

Record View := mkView {
  v_phase : JoinerSessionPhase;
  v_decision : option bool;
  v_flights : Z;
  v_finisheds : Z;
  v_epoch1 : Z;
  v_ccs : bool;
  v_keyed : bool;
  v_handler : handler }.

Definition view (e : Env) : View :=
  mkView (phase (session e)) (finalize_decision (session e)) (server_flight_retransmissions (session e))
    (server_finished_retransmissions (session e)) (epoch1_sequence (session e))
    (saw_client_change_cipher_spec (session e)) (bool_decide (key_material (session e) <> None)) (env_handler e).

Definition epoch1_sequences (rs : list DtlsRecord) : list Z :=
  map (fun r => sequence_number (rec_header r)) (List.filter (fun r => rec_epoch (rec_header r) =? 1) rs).

(** [datagram] encodes records whose protected ones are numbered [ns]. *)
Definition numbered (datagram : bytes) (ns : list Z) : Prop :=
  exists rs, encode_datagram rs = Ok datagram /\ epoch1_sequences rs = ns.

Inductive session_step (id : bytes) : View -> list JoinerSessionEvent -> list Z -> View -> Prop :=
  | step_verify v d :
      v_phase v = AwaitingClientHello -> numbered d [] ->
      session_step id v [Transmit d false] [] v
  | step_flight dec fl fi n ccs k h d :
      numbered d [] ->
      session_step id (mkView AwaitingClientHello dec fl fi n ccs k h) [Transmit d false] []
        (mkView AwaitingClientFlight dec fl fi n ccs k h)
  | step_reflight dec fl fi n ccs k h d :
      fl < MAX_DUPLICATE_FLIGHT_RETRANSMISSIONS -> numbered d [] ->
      session_step id (mkView AwaitingClientFlight dec fl fi n ccs k h) [Transmit d false] []
        (mkView AwaitingClientFlight dec (saturating_add 8 fl 1) fi n ccs k h)
  | step_keys dec fl fi n ccs k h :
      session_step id (mkView AwaitingClientFlight dec fl fi n ccs k h) [] []
        (mkView AwaitingClientFlight dec fl fi n ccs true h)
  | step_ccs p dec fl fi n ccs k h :
      session_step id (mkView p dec fl fi n ccs k h) [] [] (mkView p dec fl fi n true k h)
  | step_connect p dec fl fi n h d :
      p = AwaitingClientFlight \/ p = PhConnected -> n < 2 ^ 48 -> numbered d [n] ->
      session_step id (mkView p dec fl fi n true true h) [Transmit d false; EvConnected] [n]
        (mkView PhConnected dec fl fi (n + 1) true true h)
  | step_resend p dec fl fi n ccs k h d :
      established p = true -> fi < MAX_DUPLICATE_FLIGHT_RETRANSMISSIONS -> n < 2 ^ 48 -> numbered d [n] ->
      session_step id (mkView p dec fl fi n ccs k h) [Transmit d false] [n]
        (mkView p dec fl (saturating_add 8 fi 1) (n + 1) ccs k h)
  | step_answer p dec fl fi n ccs k h d accepted info h' :
      established p = true -> n < 2 ^ 48 -> numbered d [n] ->
      (dec = Some accepted /\ h' = h \/ dec = None /\ on_joiner_finalize h id info = (accepted, h')) ->
      session_step id (mkView p dec fl fi n ccs k h)
        (Transmit d accepted :: if bool_decide (p = PhFinalized) then [] else [EvFinalized accepted info]) [n]
        (mkView PhFinalized (Some accepted) fl fi (n + 1) ccs k h').

Inductive session_trace (id : bytes) : View -> list JoinerSessionEvent -> list Z -> View -> Prop :=
  | trace_refl v : session_trace id v [] [] v
  | trace_step v evs ns v1 evs' ns' v2 :
      session_trace id v evs ns v1 -> session_step id v1 evs' ns' v2 ->
      session_trace id v (evs ++ evs') (ns ++ ns') v2.

Lemma trace_one id v evs ns v' : session_step id v evs ns v' -> session_trace id v evs ns v'.
Proof. intros H. apply (trace_step id v [] [] v _ _ _ (trace_refl id v) H). Qed.

Lemma trace_app id v evs ns v1 evs' ns' v2 :
  session_trace id v evs ns v1 -> session_trace id v1 evs' ns' v2 ->
  session_trace id v (evs ++ evs') (ns ++ ns') v2.
Proof.
  intros H1 H2. induction H2 as [|v1 e n w e' n' w' H2 IH Hs]; [by rewrite !app_nil_r|].
  rewrite !(assoc_L (++)). econstructor; eauto.
Qed.

(** ** Refinement: what a method that succeeds did *)

Definition session_inv (s : JoinerSession) : Prop :=
  Forall (fun r => rec_epoch (rec_header r) = 0) (server_flight s) /\ 0 <= epoch1_sequence s.

Definition refines (e e' : Env) : Prop :=
  session_inv (session e) ->
  exists evs ns, events e' = events e ++ evs /\
    session_trace (joiner_id (session e)) (view e) evs ns (view e') /\
    joiner_id (session e') = joiner_id (session e) /\ session_inv (session e').

Lemma refines_refl e : refines e e.
Proof. intros H. exists [], []. rewrite app_nil_r. split; [done|]. by split; [constructor|]. Qed.

Lemma refines_trans e1 e2 e3 : refines e1 e2 -> refines e2 e3 -> refines e1 e3.
Proof.
  intros H12 H23 H. destruct (H12 H) as (ev & n & E & T & J & I). destruct (H23 I) as (ev' & n' & E' & T' & J' & I').
  exists (ev ++ ev'), (n ++ n'). rewrite E', E, J in *. split; [by rewrite <- (assoc_L (++))|].
  split; [by eapply trace_app|]. by rewrite J'.
Qed.

(** Nothing visible changed. *)
Lemma refines_same e e' :
  events e' = events e -> view e' = view e -> joiner_id (session e') = joiner_id (session e) ->
  server_flight (session e') = server_flight (session e) -> refines e e'.
Proof.
  intros Ee Ev Ej Ef [H1 H2]. exists [], []. rewrite app_nil_r, Ev. split; [done|]. split; [constructor|].
  split; [done|]. split; [by rewrite Ef|]. by injection Ev as _ _ _ _ -> _ _ _.
Qed.

(** One visible step. *)
Lemma refines_step e e' evs ns :
  (session_inv (session e) -> events e' = events e ++ evs /\
     session_step (joiner_id (session e)) (view e) evs ns (view e') /\
     joiner_id (session e') = joiner_id (session e) /\ session_inv (session e')) ->
  refines e e'.
Proof. intros H I. destruct (H I) as (? & ? & ? & ?). exists evs, ns. split; [done|]. by split; [apply trace_one|]. Qed.

(** Decomposing a run that succeeded. *)
Lemma on_session_ok {A} (m : M JoinerSession Error A) e e' a :
  on_session m e = (e', Ok a) <-> exists s', m (session e) = (s', Ok a) /\ e' = set_session s' e.
Proof.
  unfold on_session, mzoom. destruct (m (session e)) as [s' [x|er|f]]; simpl; split.
  - intros [= <- <-]. by exists s'.
  - intros (? & [= <- <-] & ->). done.
  - done.
  - by intros (? & ? & ?).
  - done.
  - by intros (? & ? & ?).
Qed.

Lemma on_handshake_ok {A} (m : M (ThreadDtlsServerHandshake * rng) DtlsError A) e e' a :
  on_handshake m e = (e', Ok a) -> exists h g, m (handshake (session e), env_rng e) = ((h, g), Ok a) /\
    e' = mkEnv (set_handshake h (session e)) g (env_handler e) (events e).
Proof.
  unfold on_handshake, mzoom. destruct (m _) as [[h g] [x|er|f]]; simpl; [|done..]. intros [= <- <-]. by exists h, g.
Qed.

Lemma mdtls_ok {S A} (r : result DtlsError A) (s s' : S) a : mdtls r s = (s', Ok a) -> s' = s /\ r = Ok a.
Proof. unfold mdtls, mlift. intros [= <- H]. by apply from_dtls_ok in H. Qed.
End Session.

(** Takes a successful run of a method apart. *)
Ltac minv1 :=
  match goal with
  | H : mbind _ _ _ = (_, Ok _) |- _ => apply mbind_ok in H as (? & ? & ? & ?)
  | H : on_session _ _ = (_, Ok _) |- _ => apply on_session_ok in H as (? & ? & ->)
  | H : update _ _ = (_, Ok _) |- _ => apply on_session_ok in H as (? & ? & ->)
  | H : on_handshake _ _ = (_, Ok _) |- _ => apply on_handshake_ok in H as (? & ? & ? & ->)
  | H : mdtls _ _ = (_, Ok _) |- _ => apply mdtls_ok in H as [-> ?]
  | H : mget _ _ = (_, Ok _) |- _ => injection H as <- <-
  | H : mset _ _ = (_, Ok _) |- _ => first [injection H as <- _ | injection H as <-]
  | H : emit _ _ = (_, Ok _) |- _ => unfold emit in H
  | H : mret _ _ = (_, Ok _) |- _ => first [injection H as <- <- | injection H as <-]
  | H : merr _ _ = (_, Ok _) |- _ => discriminate H
  | H : mlift _ _ = (_, Ok _) |- _ => injection H as <- H
  end.
Ltac minv := repeat minv1.
(** Reads the state at the head of [H]. *)
Ltac mread H := let Hg := fresh in apply mbind_ok in H as (? & ? & Hg & H); injection Hg as <- <-.

#[local] Arguments encode_datagram : simpl never.
#[local] Arguments DtlsRecord_encode : simpl never.
#[local] Arguments DtlsRecord_new : simpl never.
#[local] Arguments protect_aes_128_ccm_8_record : simpl never.
#[local] Arguments saturating_add : simpl never.
#[local] Arguments wrapping_add : simpl never.
#[local] Arguments CoapMessage_encode : simpl never.

Section Refinement.
Context {HH : Hash} {AA : Aead} {CC : Curve} {RR : Rng} {JH : JoinerHandler}.

(** Protection fails from sequence number 2^48 on. *)
Lemma protect_number ct n key iv pl r :
  0 <= n -> protect_aes_128_ccm_8_record ct 1 n key iv pl = Ok r ->
  n < 2 ^ 48 /\ wrapping_add 64 n 1 = n + 1 /\ rec_epoch (rec_header r) = 1 /\ sequence_number (rec_header r) = n.
Proof.
  intros Hn H. unfold protect_aes_128_ccm_8_record, dtls_ccm_nonce, DtlsRecord_new in H.
  destruct (_ <? _) in H; [|done]. cbn [rbind] in H. rewrite Z.gtb_ltb in H. destruct (_ <? n) eqn:E in H; [done|].
  zbool. inv_ok. split; [lia|]. split; [|done]. unfold wrapping_add. rewrite wrap_small; [done|unfold uint; lia].
Qed.

Lemma open_record_ok r s s' o : open_record r s = (s', Ok o) ->
  s' = s \/ exists w, s' = set_replay_window w s.
Proof.
  unfold open_record. intros H. minv. destruct (has_seen _ _); minv; [by left|]. right. by eexists.
Qed.

Lemma attempt_ok {S E A} (m : M S E (option A)) s s' o : attempt m s = (s', Ok o) ->
  (m s = (s', Ok o)) \/ exists er, m s = (s', Err er) /\ o = None.
Proof. unfold attempt. destruct (m s) as [s1 [x|er|f]]; intros [= <- <-]; [by left|right; by exists er]. Qed.

Lemma open_record_err r s s' er : open_record r s = (s', Err er) -> s' = s.
Proof.
  unfold open_record, mbind, mget, mdtls, mlift, mret, mset. case_match; [done|].
  destruct (key_material_required (id s)); [|by intros [= <- _]|done].
  destruct (from_dtls _); [done|by intros [= <- _]|done].
Qed.

Lemma opened_same r e e' o : on_session (attempt (open_record r)) e = (e', Ok o) \/ on_session (open_record r) e = (e', Ok o) ->
  e' = e \/ exists w, e' = set_session (set_replay_window w (session e)) e.
Proof.
  intros [H|H]; minv.
  - apply attempt_ok in H as [H|(er & H & _)].
    + apply open_record_ok in H as [->|[w ->]]; [left; by destruct e|right; by exists w].
    + apply open_record_err in H as ->. left. by destruct e.
  - apply open_record_ok in H as [->|[w ->]]; [left; by destruct e|right; by exists w].
Qed.

Lemma opened_refines r e e' o : on_session (attempt (open_record r)) e = (e', Ok o) \/ on_session (open_record r) e = (e', Ok o) ->
  refines e e' /\ session e' = set_replay_window (replay_window (session e')) (session e) /\ events e' = events e /\
  env_handler e' = env_handler e.
Proof.
  intros H. destruct (opened_same _ _ _ _ H) as [->|[w ->]].
  - split; [apply refines_refl|]. split; [by destruct e as [[] ]|done].
  - split; [by apply refines_same|]. by destruct e as [[] ].
Qed.

Lemma plaintext_record_ok pl s s' r : plaintext_record pl s = (s', Ok r) ->
  exists q, s' = set_epoch0_sequence q s /\ rec_epoch (rec_header r) = 0.
Proof. unfold plaintext_record. intros H. minv. eexists. split; [done|]. unfold DtlsRecord_new in *. by inv_ok. Qed.

Definition plain (r : DtlsRecord) : Prop := rec_epoch (rec_header r) = 0.

Lemma renumber_plain rs n : Forall plain rs -> Forall plain (renumber_epoch_zero_flight rs n).1.
Proof.
  intros H. revert n. induction H as [|r rs Hr _ IH]; intros n; cbn [renumber_epoch_zero_flight]; [constructor|].
  rewrite (proj2 (Z.eqb_eq _ _) Hr). destruct (take_record_sequence n) as [q k]. specialize (IH k).
  destruct (renumber_epoch_zero_flight rs k). by constructor.
Qed.

Lemma plain_numbers rs : Forall (fun r => rec_epoch (rec_header r) = 0) rs -> epoch1_sequences rs = [].
Proof.
  intros H. unfold epoch1_sequences. induction H as [|r rs Hr _ IH]; [done|]. cbn [List.filter]. rewrite Hr. done.
Qed.

Lemma plain_numbered rs d : Forall (fun r => rec_epoch (rec_header r) = 0) rs -> encode_datagram rs = Ok d -> numbered d [].
Proof. intros. exists rs. split; [done|by apply plain_numbers]. Qed.

Lemma encode_one r d : DtlsRecord_encode r = Ok d -> encode_datagram [r] = Ok d.
Proof. unfold encode_datagram. cbn [encode_datagram_loop]. by intros ->. Qed.

Lemma plaintext_handshake_refines m seq e e' :
  handle_plaintext_handshake m seq e = (e', Ok tt) -> refines e e'.
Proof.
  unfold handle_plaintext_handshake. intros H. minv. destruct (message_type m); try (by minv).
  - destruct (phase (session e)) eqn:Hp; try (by minv).
    + minv. destruct (negb _).
      * minv. match goal with H : DtlsRecord_encode _ = Ok _ |- _ => apply encode_one in H end.
        match goal with H : encode_datagram _ = Ok ?d |- _ => apply (refines_step _ _ [Transmit d false] []) end. intros I. split; [done|]. split; [|done].
        apply step_verify; [done|]. eapply plain_numbered; [|done].
        apply Forall_singleton. unfold DtlsRecord_new in *. by inv_ok.
      * minv. repeat match goal with H : plaintext_record _ _ = _ |- _ => apply plaintext_record_ok in H as (? & -> & ?) end.
        match goal with H : encode_datagram ?rs = Ok ?d |- _ =>
          apply (refines_step _ _ [Transmit d false] []); assert (Forall (fun r => rec_epoch (rec_header r) = 0) rs) as Hf
            by (by repeat constructor) end.
        intros [_ I]. split; [done|]. split; [|done]. unfold view. rewrite Hp.
        apply step_flight. by eapply plain_numbered.
    + destruct (_ && _) eqn:Hc; [|minv; apply refines_refl]. apply andb_true_iff in Hc as [_ Hc]. zbool.
      minv. destruct (renumber_epoch_zero_flight _ _) as [flight next] eqn:En. minv.
      match goal with H : encode_datagram flight = Ok ?d |- _ => apply (refines_step _ _ [Transmit d false] []) end.
      intros [If I]. assert (Forall plain flight) as Hf.
      { pose proof (renumber_plain _ (epoch0_sequence (session e)) If) as Hr. by rewrite En in Hr. }
      split; [done|]. split; [|done]. unfold view; cbn; rewrite ?Hp; apply step_reflight; [done|]. by eapply plain_numbered.
  - destruct (phase (session e)) eqn:Hp; try (by minv). destruct (bool_decide _); minv; [apply refines_refl|].
    apply (refines_step _ _ [] []). intros I. split; [by rewrite app_nil_r|]. split; [|done]. unfold view; cbn; rewrite ?Hp; apply step_keys.
Qed.

Lemma finished_flight_ok s s' d : 0 <= epoch1_sequence s -> build_server_finished_flight s = (s', Ok d) ->
  epoch1_sequence s < 2 ^ 48 /\ numbered d [epoch1_sequence s] /\
  exists q, s' = set_epoch1_sequence (epoch1_sequence s + 1) (set_epoch0_sequence q s).
Proof.
  intros Hn H. unfold build_server_finished_flight, plaintext_change_cipher_spec in H. minv. cbn in *.
  match goal with H : protect_aes_128_ccm_8_record _ _ _ _ _ _ = Ok ?r |- _ =>
    destruct (protect_number _ _ _ _ _ _ Hn H) as (? & Hw & He & Hq) end.
  split; [done|]. split; [|eexists; by rewrite Hw].
  eexists. split; [done|]. unfold epoch1_sequences. cbn [List.filter]. rewrite He.
  match goal with H : DtlsRecord_new _ _ _ _ = Ok _ |- _ => injection H as <- end.
  cbn. by rewrite Hq.
Qed.

Lemma keyed_true s : key_material_required s <> Err (EInvalidState "joiner key material is not derived") ->
  bool_decide (key_material s <> None) = true.
Proof. unfold key_material_required. destruct (key_material s); [done|]. by intros []. Qed.

Lemma finished_messages_refines ms e e' :
  (phase (session e) = AwaitingClientFlight \/ phase (session e) = PhConnected) ->
  saw_client_change_cipher_spec (session e) = true ->
  handle_finished_messages ms e = (e', Ok tt) -> refines e e'.
Proof.
  revert e. induction ms as [|m ms IH]; intros e Hp Hc H; cbn [handle_finished_messages] in H.
  { minv. apply refines_refl. }
  destruct (negb _); [by eapply IH|]. minv.
  match goal with H : handle_finished_messages ms ?e2 = _ |- _ =>
    apply (refines_trans _ e2); [|apply IH in H; [done|by right|]] end.
  2: { match goal with H : build_server_finished_flight ?s1 = (?s2, _) |- _ =>
      assert (saw_client_change_cipher_spec s2 = saw_client_change_cipher_spec s1) as Hs end.
    { unfold build_server_finished_flight, plaintext_change_cipher_spec in *. by minv. }
    cbn. rewrite Hs. exact Hc. }
  match goal with H : build_server_finished_flight ?s1 = (?s2, Ok ?d) |- _ =>
    apply (refines_step _ _ [Transmit d false; EvConnected] [epoch1_sequence (session e)]); intros [If I];
    apply finished_flight_ok in H as (Hlt & Hn & q & ->); [|exact I] end.
  cbn in Hlt, Hn. split; [cbn; by rewrite <- (assoc_L (++))|]. split; [|split; [done|split; [done|cbn; lia]]].
  assert (bool_decide (key_material (session e) <> None) = true) as Hk.
  { apply keyed_true. match goal with H : key_material_required _ = Ok _ |- _ => by rewrite H end. }
  unfold view; cbn. rewrite Hk, Hc. by apply step_connect.
Qed.

Lemma encrypted_handshake_refines r e e' :
  handle_encrypted_handshake r e = (e', Ok tt) -> refines e e'.
Proof.
  unfold handle_encrypted_handshake. intros H. mread H. destruct (_ || _) eqn:Hg in H; [minv; apply refines_refl|].
  apply orb_false_iff in Hg as [Hg _]. zbool. apply mbind_ok in H as (e1 & o & Ho & H).
  destruct (opened_refines _ _ _ _ (or_intror Ho)) as (Hr & Hs & _). clear Ho. destruct o as [plaintext|]; minv; [|done].
  apply (refines_trans _ _ _ Hr). eapply finished_messages_refines; [..|done]; rewrite Hs; by first [left|idtac].
Qed.

(** The decision the application makes, or made. *)
Lemma decide_finalize_ok info e e' a :
  decide_finalize info e = (e', Ok a) ->
  (finalize_decision (session e) = Some a /\ e' = e) \/
  (finalize_decision (session e) = None /\ exists h, on_joiner_finalize (env_handler e) (joiner_id (session e)) info = (a, h) /\
     e' = mkEnv (set_finalize_decision (Some a) (session e)) (env_rng e) h (events e)).
Proof.
  unfold decide_finalize. destruct (finalize_decision (session e)) as [b|].
  - intros [= <- <-]. by left.
  - destruct (on_joiner_finalize _ _ _) as [acc h] eqn:E. intros [= <- <-]. right. split; [done|]. by exists h.
Qed.

Lemma decide_view info e e' a :
  decide_finalize info e = (e', Ok a) ->
  events e' = events e /\ joiner_id (session e') = joiner_id (session e) /\
  server_flight (session e') = server_flight (session e) /\
  exists h, view e' = mkView (v_phase (view e)) (Some a) (v_flights (view e)) (v_finisheds (view e)) (v_epoch1 (view e))
                        (v_ccs (view e)) (v_keyed (view e)) h /\
    (finalize_decision (session e) = Some a /\ h = env_handler e \/
     finalize_decision (session e) = None /\ on_joiner_finalize (env_handler e) (joiner_id (session e)) info = (a, h)).
Proof.
  intros H. apply decide_finalize_ok in H as [(Hd & ->)|(Hd & h & Ha & ->)]; do 3 (split; [done|]).
  - exists (env_handler e). split; [unfold view; by rewrite Hd|by left].
  - exists h. split; [done|by right].
Qed.

Lemma application_data_refines r e e' :
  handle_application_data r e = (e', Ok tt) -> refines e e'.
Proof.
  unfold handle_application_data. intros H. mread H. destruct (established (phase (session e))) eqn:Hp; cbn [negb] in H;
    [|minv; apply refines_refl].
  apply mbind_ok in H as (e1 & o & Ho & H). destruct (opened_refines _ _ _ _ (or_introl Ho)) as (Hr & Hs & _). clear Ho.
  apply (refines_trans _ _ _ Hr). destruct o as [plaintext|]; minv; [|apply refines_refl].
  destruct (negb _); [minv; by apply refines_same|].
  assert (established (phase (session e1)) = true) as Hp1 by by rewrite Hs. clear Hp Hr Hs. minv.
  match goal with H : decide_finalize ?i ?e2 = (?e3, Ok ?a) |- _ =>
    rename H into Hd; rename a into acc, i into inf, e3 into e3' end.
  match goal with H : protect_aes_128_ccm_8_record _ _ _ _ _ _ = Ok ?r |- _ => rename H into Hpr; rename r into resp end.
  match goal with H : DtlsRecord_encode _ = Ok ?d |- _ => apply encode_one in H; rename H into Hen; rename d into dg end.
  match goal with H : (if _ then _ else _) _ = (e', _) |- _ => rename H into Hend end.
  apply (refines_step _ _ (Transmit dg acc :: if bool_decide (phase (session e1) = PhFinalized) then [] else [EvFinalized acc inf])
    [epoch1_sequence (session e1)]).
  intros [If I]. assert (epoch1_sequence (session e3') = epoch1_sequence (session e1)) as Hn
    by (by apply decide_finalize_ok in Hd as [(_ & ->)|(_ & h' & _ & ->)]).
  rewrite Hn in Hpr, Hend. destruct (protect_number _ _ _ _ _ _ I Hpr) as (Hlt & Hw & He & Hq). rewrite Hw in Hend.
  assert (numbered dg [epoch1_sequence (session e1)]) as Hnum.
  { exists [resp]. split; [done|]. unfold epoch1_sequences. cbn [List.filter]. rewrite He. cbn. by rewrite Hq. }
  pose proof (decide_view _ _ _ _ Hd) as (Hev & Hj & Hf & h' & Hv & Hask). cbn in Hev, Hj, Hf, Hask.
  unfold view in Hv. cbn in Hv. injection Hv as Vp Vd Vfl Vfi Vn Vc Vk Vh. rewrite Vp in Hend.
  assert (forall e4, events e4 = events e1 ++ Transmit dg acc :: (if bool_decide (phase (session e1) = PhFinalized) then [] else [EvFinalized acc inf]) ->
    session e4 = set_phase PhFinalized (set_epoch1_sequence (epoch1_sequence (session e1) + 1) (session e3')) ->
    env_handler e4 = h' ->
    events e4 = events e1 ++ Transmit dg acc :: (if bool_decide (phase (session e1) = PhFinalized) then [] else [EvFinalized acc inf]) /\
    session_step (joiner_id (session e1)) (view e1) (Transmit dg acc :: (if bool_decide (phase (session e1) = PhFinalized) then [] else [EvFinalized acc inf]))
      [epoch1_sequence (session e1)] (view e4) /\
    joiner_id (session e4) = joiner_id (session e1) /\ session_inv (session e4)) as Hdone.
  { intros e4 E1 E2 E3. split; [done|]. rewrite E2. cbn. split; [|split; [done|]].
    - unfold view. rewrite E2, E3. cbn. rewrite Vd, Vfl, Vfi, Vc, Vk. by eapply step_answer.
    - split; cbn; [by rewrite Hf|lia]. }
  apply Hdone; clear Hdone; destruct (bool_decide (phase (session e1) = PhFinalized)); cbn [negb] in Hend; minv; cbn;
    rewrite ?Hev; cbn; by rewrite <- ?(assoc_L (++)).
Qed.

Lemma plaintext_messages_refines ms seq e e' :
  handle_plaintext_messages ms seq e = (e', Ok tt) -> refines e e'.
Proof.
  revert e. induction ms as [|m ms IH]; intros e H; cbn [handle_plaintext_messages] in H; [minv; apply refines_refl|].
  apply mbind_ok in H as (e1 & [] & H1 & H2). eapply refines_trans; [by eapply plaintext_handshake_refines|by apply IH].
Qed.

Lemma receive_record_refines was r e e' : receive_record was r e = (e', Ok tt) -> refines e e'.
Proof.
  unfold receive_record. intros H. mread H.
  assert (@mret Env Error unit tt e = (e', Ok tt) -> refines e e') as Hret by (intros Hb; injection Hb as <-; apply refines_refl).
  destruct (rec_epoch (rec_header r)) as [|[?|?|]|?]; [| |by apply Hret| |by apply Hret];
    destruct (content_type (rec_header r)); try (by apply Hret).
  - destruct (negb _); minv. apply (refines_step _ _ [] []). intros I. split; [by rewrite app_nil_r|].
    split; [|done]. unfold view. apply step_ccs.
  - destruct (established _); minv. apply refines_refl.
  - destruct was; [by apply Hret|]. destruct (parse_unfragmented_handshake_messages r);
      [by eapply plaintext_messages_refines|by apply Hret|done].
  - apply mbind_ok in H as (e1 & o & Ho & H). destruct (opened_refines _ _ _ _ (or_introl Ho)) as (Hr & _). clear Ho.
    by destruct o; minv.
  - by eapply encrypted_handshake_refines.
  - by eapply application_data_refines.
Qed.

Lemma receive_records_refines was rs e e' : receive_records was rs e = (e', Ok tt) -> refines e e'.
Proof.
  revert e. induction rs as [|r rs IH]; intros e H; cbn [receive_records] in H; [minv; apply refines_refl|].
  apply mbind_ok in H as (e1 & [] & H1 & H2). eapply refines_trans; [by eapply receive_record_refines|by apply IH].
Qed.

Lemma resend_refines rs e e' :
  resend_finished (established (phase (session e))) rs e = (e', Ok tt) -> refines e e'.
Proof.
  unfold resend_finished. intros H. mread H. destruct (_ && _) eqn:Hg in H; [|minv; apply refines_refl].
  rewrite !andb_true_iff in Hg. destruct Hg as [[[Hp _] _] Hc]. zbool. minv.
  match goal with H : build_server_finished_flight _ = (_, Ok ?d) |- _ => rename H into Hb;
    apply (refines_step _ _ [Transmit d false] [epoch1_sequence (session e)]) end.
  intros [If I]. apply finished_flight_ok in Hb as (Hlt & Hn & q & ->); [|exact I]. cbn in *.
  split; [done|]. split; [|split; [done|split; [done|cbn; lia]]]. unfold view; cbn. by apply step_resend.
Qed.

Lemma process_refines rs e e' : process rs e = (e', Ok tt) -> refines e e'.
Proof.
  unfold process. intros H. mread H. apply mbind_ok in H as (e1 & [] & H1 & H2).
  eapply refines_trans; [by eapply resend_refines|by eapply receive_records_refines].
Qed.

(** The view of a session between two calls. *)
Definition session_view (s : JoinerSession) (h : handler) : View :=
  mkView (phase s) (finalize_decision s) (server_flight_retransmissions s) (server_finished_retransmissions s)
    (epoch1_sequence s) (saw_client_change_cipher_spec s) (bool_decide (key_material s <> None)) h.

Lemma receive_trace s g h d s' g' h' evs :
  session_inv s -> JoinerSession_receive s g h d = (s', g', h', Ok evs) ->
  exists ns, session_trace (joiner_id s) (session_view s h) evs ns (session_view s' h') /\
    joiner_id s' = joiner_id s /\ session_inv s'.
Proof.
  intros Hi H. unfold JoinerSession_receive in H. destruct (parse_datagram d) as [rs|er|f].
  - destruct (process rs _) as [e r] eqn:Hp. destruct r as [[]|er|f]; simpl in H; [|done..].
    injection H as <- <- <- <-. apply process_refines in Hp. destruct (Hp Hi) as (evs & ns & Hev & Ht & Hj & Hi').
    cbn in Hev. exists ns. rewrite Hev. by split.
  - injection H as <- <- <- <-. exists []. split; [constructor|by split].
  - done.
Qed.
End Refinement.

(** ** Histories of the abstract session *)

Section History.
Context {HH : Hash} {AA : Aead} {CC : Curve} {RR : Rng} {JH : JoinerHandler}.

(** The protected record numbers of the datagrams in a list of events. *)
Inductive events_numbered : list JoinerSessionEvent -> list Z -> Prop :=
  | numbered_nil : events_numbered [] []
  | numbered_transmit d k ns evs ns' :
      numbered d ns -> events_numbered evs ns' -> events_numbered (Transmit d k :: evs) (ns ++ ns')
  | numbered_connected evs ns : events_numbered evs ns -> events_numbered (EvConnected :: evs) ns
  | numbered_finalized a i evs ns : events_numbered evs ns -> events_numbered (EvFinalized a i :: evs) ns.

Lemma events_numbered_app evs ns evs' ns' :
  events_numbered evs ns -> events_numbered evs' ns' -> events_numbered (evs ++ evs') (ns ++ ns').
Proof. induction 1; intros; cbn; rewrite <- ?(assoc_L (++)); try constructor; auto. Qed.

(** An event that entrusts nothing. *)
Definition unentrusted (ev : JoinerSessionEvent) : Prop :=
  match ev with Transmit _ k => k = false | EvConnected => True | EvFinalized _ _ => False end.

Definition decisions (evs : list JoinerSessionEvent) : list bool :=
  omap (fun ev => match ev with EvFinalized a _ => Some a | _ => None end) evs.

Lemma decisions_app evs evs' : decisions (evs ++ evs') = decisions evs ++ decisions evs'.
Proof. apply omap_app. Qed.

Record history (id : bytes) (h0 : handler) (evs : list JoinerSessionEvent) (ns : list Z) (v : View) : Prop := {
  hi_numbers : events_numbered evs ns;
  hi_consecutive : ns = map Z.of_nat (seq 0 (length ns));
  hi_next : v_epoch1 v = Z.of_nat (length ns);
  hi_flights : 0 <= v_flights v <= MAX_DUPLICATE_FLIGHT_RETRANSMISSIONS;
  hi_finisheds : 0 <= v_finisheds v <= MAX_DUPLICATE_FLIGHT_RETRANSMISSIONS;
  hi_asked : match v_decision v with
             | None => v_handler v = h0
             | Some a => exists info, on_joiner_finalize h0 id info = (a, v_handler v)
             end;
  hi_final : v_phase v = PhFinalized <-> v_decision v <> None;
  hi_kek : forall d, Transmit d true ∈ evs -> v_decision v = Some true;
  hi_decided : decisions evs = match v_decision v with None => [] | Some a => [a] end;
  hi_connected : established (v_phase v) = true ->
    exists pre post, evs = pre ++ EvConnected :: post /\ Forall unentrusted pre }.

Definition initial_view (h : handler) : View := mkView AwaitingClientHello None 0 0 0 false false h.

Lemma history_initial id h : history id h [] [] (initial_view h).
Proof.
  constructor; cbn; try done; try (unfold MAX_DUPLICATE_FLIGHT_RETRANSMISSIONS; lia); [constructor|].
  intros d Hd. by apply elem_of_nil in Hd.
Qed.

Lemma undecided_unentrusted evs :
  decisions evs = [] -> (forall d, ~ Transmit d true ∈ evs) -> Forall unentrusted evs.
Proof.
  intros Hd Hk. apply Forall_forall. intros [d k| |a i] Hin; [|done|].
  - destruct k; [by destruct (Hk d)|done].
  - exfalso. assert (a ∈ decisions evs) as Ha by (apply list_elem_of_omap; by eexists).
    rewrite Hd in Ha. by apply elem_of_nil in Ha.
Qed.

Lemma consecutive_snoc ns n :
  ns = map Z.of_nat (seq 0 (length ns)) -> n = Z.of_nat (length ns) ->
  ns ++ [n] = map Z.of_nat (seq 0 (length (ns ++ [n]))).
Proof. intros H ->. rewrite length_app, seq_app, map_app. cbn. by rewrite <- H. Qed.

Lemma consecutive_extend ns ns' n :
  ns = map Z.of_nat (seq 0 (length ns)) -> n = Z.of_nat (length ns) -> ns' = [] \/ ns' = [n] ->
  ns ++ ns' = map Z.of_nat (seq 0 (length (ns ++ ns'))).
Proof. intros H Hn [->| ->]; [by rewrite app_nil_r|by apply consecutive_snoc]. Qed.

(** A step that entrusts nothing and leaves the decision alone. *)
Lemma history_extend id h0 evs ns v evs' ns' v' :
  history id h0 evs ns v -> events_numbered evs' ns' -> ns' = [] \/ ns' = [v_epoch1 v] ->
  v_epoch1 v' = v_epoch1 v + Z.of_nat (length ns') ->
  0 <= v_flights v' <= MAX_DUPLICATE_FLIGHT_RETRANSMISSIONS ->
  0 <= v_finisheds v' <= MAX_DUPLICATE_FLIGHT_RETRANSMISSIONS ->
  v_decision v' = v_decision v -> v_handler v' = v_handler v ->
  (v_phase v' = PhFinalized <-> v_phase v = PhFinalized) -> Forall unentrusted evs' ->
  (established (v_phase v') = true -> established (v_phase v) = true \/ EvConnected ∈ evs') ->
  history id h0 (evs ++ evs') (ns ++ ns') v'.
Proof.
  intros [Hnum Hcons Hnext Hfl Hfi Hask Hfin Hkek Hdec Hcon] Hn Hns He Hfl' Hfi' Ed Eh Ep Hu Hc.
  assert (decisions evs' = []) as Hd'.
  { clear - Hu. induction Hu as [|[d k| |b i] l Hx _ IH]; cbn; [done|by apply IH..|done]. }
  assert (forall d, ~ Transmit d true ∈ evs') as Hk'.
  { intros d Hd. rewrite Forall_forall in Hu. by apply Hu in Hd. }
  constructor; rewrite ?Ed, ?Eh, ?Ep; try done.
  - by apply events_numbered_app.
  - by eapply consecutive_extend.
  - rewrite He, Hnext, length_app. lia.
  - intros d Hd. apply elem_of_app in Hd as [Hd|Hd]; [by eapply Hkek|by destruct (Hk' d)].
  - by rewrite decisions_app, Hd', app_nil_r.
  - intros Hest. destruct (decide (established (v_phase v) = true)) as [Hv|Hv].
    + destruct (Hcon Hv) as (pre & post & -> & ?). exists pre, (post ++ evs'). by rewrite <- (assoc_L (++)).
    + destruct (Hc Hest) as [|Hin]; [done|]. apply list_elem_of_split in Hin as (pre & post & ->).
      exists (evs ++ pre), post. rewrite <- (assoc_L (++)). split; [done|]. apply Forall_app in Hu as [Hu _].
      apply Forall_app. split; [|done].
      assert (v_decision v = None) as Hnone.
      { destruct (v_decision v) eqn:E; [|done]. exfalso. apply Hv.
        assert (v_phase v = PhFinalized) as -> by by apply Hfin. done. }
      rewrite Hnone in *. apply undecided_unentrusted; [done|]. intros d Hd. by apply Hkek in Hd.
Qed.

(** The step that answers a finalization request. *)
Lemma history_answer id h0 evs ns p dec fl fi n ccs k h d acc info h' :
  history id h0 evs ns (mkView p dec fl fi n ccs k h) -> established p = true -> numbered d [n] ->
  (dec = Some acc /\ h' = h \/ dec = None /\ on_joiner_finalize h id info = (acc, h')) ->
  history id h0 (evs ++ Transmit d acc :: if bool_decide (p = PhFinalized) then [] else [EvFinalized acc info]) (ns ++ [n])
    (mkView PhFinalized (Some acc) fl fi (n + 1) ccs k h').
Proof.
  intros [Hnum Hcons Hnext Hfl Hfi Hask Hfin Hkek Hdec Hcon] Hp Hn Hd. cbn in *.
  set (tl := if bool_decide (p = PhFinalized) then [] else [EvFinalized acc info]).
  assert (events_numbered (Transmit d acc :: tl) [n]) as Hnt.
  { apply (numbered_transmit d acc [n] tl []); [done|]. unfold tl. case_bool_decide; repeat constructor. }
  assert (p = PhFinalized <-> dec = Some acc) as Hfd by (destruct Hd as [[-> _]|[-> _]]; naive_solver).
  constructor; cbn; try done.
  - by apply events_numbered_app.
  - by eapply consecutive_extend; [..|right].
  - rewrite length_app. cbn. lia.
  - destruct Hd as [[-> ->]|[-> Hd]]; [done|]. exists info. by rewrite <- Hask.
  - intros d' Hin. apply elem_of_app in Hin as [Hin|Hin].
    + apply Hkek in Hin. destruct Hd as [[Hd _]|[Hd _]]; congruence.
    + apply elem_of_cons in Hin as [[= _ ->]|Hin]; [done|]. unfold tl in Hin. case_bool_decide.
      * by apply elem_of_nil in Hin.
      * by apply list_elem_of_singleton in Hin.
  - rewrite decisions_app, Hdec. unfold tl. case_bool_decide as Hpf.
    + rewrite (proj1 Hfd Hpf). done.
    + destruct Hd as [[-> _]|[-> _]]; [by destruct Hpf; apply Hfd|done].
  - intros _. destruct (Hcon Hp) as (pre & post & -> & ?). eexists pre, _. by rewrite <- (assoc_L (++)).
Qed.

(** Every step keeps the history. *)
Lemma history_step id h0 evs ns v evs' ns' v' :
  history id h0 evs ns v -> session_step id v evs' ns' v' -> history id h0 (evs ++ evs') (ns ++ ns') v'.
Proof.
  intros Hh Hs. pose proof (hi_flights _ _ _ _ _ Hh). pose proof (hi_finisheds _ _ _ _ _ Hh).
  assert (forall d l, numbered d l -> events_numbered [Transmit d false] l) as Hone.
  { intros d l Hd. rewrite <- (app_nil_r l). apply numbered_transmit; [done|constructor]. }
  assert (forall x, 0 <= x < MAX_DUPLICATE_FLIGHT_RETRANSMISSIONS ->
    0 <= saturating_add 8 x 1 <= MAX_DUPLICATE_FLIGHT_RETRANSMISSIONS) as Hsat
    by (unfold saturating_add, MAX_DUPLICATE_FLIGHT_RETRANSMISSIONS; lia).
  destruct Hs as [| | | | | | |]; [eapply history_extend; [done|..]..|by eapply history_answer];
    cbn [v_phase v_decision v_flights v_finisheds v_epoch1 v_ccs v_keyed v_handler] in *; try done;
    try (by left); try (by right); try (by rewrite Z.add_0_r); try (by apply Hone); try (by repeat constructor);
    try (by apply Hsat; lia); try (by intros; left).
  - apply (numbered_transmit _ _ [n] [EvConnected] []); [done|]. by repeat constructor.
  - match goal with H : _ \/ _ |- _ => destruct H as [->| ->] end; done.
Qed.

Lemma history_trace id h0 evs ns v evs' ns' v' :
  history id h0 evs ns v -> session_trace id v evs' ns' v' -> history id h0 (evs ++ evs') (ns ++ ns') v'.
Proof.
  intros Hh Ht. revert evs ns Hh. induction Ht as [|v e n v1 e' n' v2 Ht IH Hs]; intros evs ns Hh; [by rewrite !app_nil_r|].
  rewrite !(assoc_L (++)). eapply history_step; [by apply IH|done].
Qed.
End History.

(** ** Runs of the code *)

Section Runs.
Context {HH : Hash} {AA : Aead} {CC : Curve} {RR : Rng} {JH : JoinerHandler}.

(** The datagrams a session receives until one fails it (the caller then
    drops the session). *)
Fixpoint receive_all (s : JoinerSession) (g : rng) (h : handler) (ds : list bytes)
    : JoinerSession * rng * handler * result Error (list JoinerSessionEvent) :=
  match ds with
  | [] => (s, g, h, Ok [])
  | d :: ds =>
      match JoinerSession_receive s g h d with
      | (s, g, h, Ok evs) =>
          let '(s, g, h, r) := receive_all s g h ds in (s, g, h, map_ok (fun evs' => evs ++ evs') r)
      | x => x
      end
  end.

Lemma new_session iid port loc pskd now g s g' h :
  JoinerSession_new iid port loc pskd now g = Ok (s, g') ->
  session_view s h = initial_view h /\ session_inv s /\ joiner_id s = joiner_id_from_iid iid.
Proof.
  unfold JoinerSession_new. intros H. apply rbind_ok in H as ([hs g1] & _ & H).
  destruct (DtlsCookieGenerator_new_with_rng g1) as [gen g2]. injection H as <- _.
  split; [done|]. split; [|done]. split; [constructor|done].
Qed.

Lemma receive_all_trace s g h ds s' g' h' evs :
  session_inv s -> receive_all s g h ds = (s', g', h', Ok evs) ->
  exists ns, session_trace (joiner_id s) (session_view s h) evs ns (session_view s' h') /\
    joiner_id s' = joiner_id s /\ session_inv s'.
Proof.
  revert s g h evs. induction ds as [|d ds IH]; intros s g h evs Hi H; cbn [receive_all] in H.
  - injection H as <- <- <- <-. exists []. split; [constructor|by split].
  - destruct (JoinerSession_receive s g h d) as [[[s1 g1] h1] [ev1|er|f]] eqn:E; [|done..].
    apply receive_trace in E as (n1 & T1 & J1 & I1); [|done].
    destruct (receive_all s1 g1 h1 ds) as [[[s2 g2] h2] [ev2|er|f]] eqn:E2; simpl in H; [|done..].
    injection H as <- <- <- <-. apply IH in E2 as (n2 & T2 & J2 & I2); [|done].
    exists (n1 ++ n2). rewrite J1 in T2. split; [by eapply trace_app|]. by rewrite J2, J1.
Qed.

(** ** Properties *)

(** C4: refinement.  Whatever datagrams a new session receives, as long as
    none fails it, the events it emits and its visible state are those of a
    run of the abstract session: its phase only moves along the protocol, a
    flight is resent only under its budget, a finalization is answered with
    one decision, and every protected record takes the next number. *)
Theorem joiner_session_refines iid port loc pskd now g s g1 h ds s' g' h' evs :
  JoinerSession_new iid port loc pskd now g = Ok (s, g1) ->
  receive_all s g1 h ds = (s', g', h', Ok evs) ->
  exists ns, session_trace (joiner_id_from_iid iid) (initial_view h) evs ns (session_view s' h').
Proof.
  intros Hn Hr. destruct (new_session _ _ _ _ _ _ _ _ h Hn) as (Hv & Hi & Hj).
  destruct (receive_all_trace _ _ _ _ _ _ _ _ Hi Hr) as (ns & Ht & _). exists ns. by rewrite <- Hv, <- Hj.
Qed.

(** Entrustment and freshness.  Over the whole life of a session,
    whatever it receives: the application is asked at most once and its answer
    never changes; the Joiner Router KEK goes out, and Finalized(accepted) is
    reported, only if it answered yes, and only after Connected; Finalized is
    reported exactly once when a decision was made; each flight is resent at
    most four times; and the protected records it sends are numbered 0, 1, 2,
    ..., so that no nonce is used twice. *)
Theorem joiner_session_history iid port loc pskd now g s g1 h ds s' g' h' evs :
  JoinerSession_new iid port loc pskd now g = Ok (s, g1) ->
  receive_all s g1 h ds = (s', g', h', Ok evs) ->
  match finalize_decision s' with
  | None => h' = h /\ Forall unentrusted evs
  | Some a =>
      (exists info, on_joiner_finalize h (joiner_id_from_iid iid) info = (a, h')) /\ decisions evs = [a] /\
      (forall d, Transmit d true ∈ evs -> a = true) /\
      exists pre post, evs = pre ++ EvConnected :: post /\ Forall unentrusted pre
  end /\
  0 <= server_flight_retransmissions s' <= MAX_DUPLICATE_FLIGHT_RETRANSMISSIONS /\
  0 <= server_finished_retransmissions s' <= MAX_DUPLICATE_FLIGHT_RETRANSMISSIONS /\
  exists ns, events_numbered evs ns /\ ns = map Z.of_nat (seq 0 (length ns)) /\ epoch1_sequence s' = Z.of_nat (length ns).
Proof.
  intros Hn Hr. destruct (new_session _ _ _ _ _ _ _ _ h Hn) as (Hv & Hi & Hj).
  destruct (receive_all_trace _ _ _ _ _ _ _ _ Hi Hr) as (ns & Ht & _). rewrite Hv, Hj in Ht.
  destruct (history_trace _ _ _ _ _ _ _ _ (history_initial _ h) Ht) as [Hnum Hcons Hnext Hfl Hfi Hask Hfin Hkek Hdec Hcon].
  cbn in *. split; [|split; [done|split; [done|by exists ns]]].
  destruct (finalize_decision s') as [a|].
  - split; [done|]. split; [done|]. split; [intros d Hd; by injection (Hkek d Hd)|].
    apply Hcon. by rewrite (proj2 Hfin).
  - split; [done|]. apply undecided_unentrusted; [done|]. intros d Hd. by apply Hkek in Hd.
Qed.
End Runs.
