(* ===== verification/Pskc.v ===== *)
(** * Pskc: PSKc, joiner identifiers and steering data

    The model of crates/meshcop/src/crypto/pskc.rs.  AES-CMAC is the cmac
    crate's: a class parameter with the law relied on.  Steering data is a
    Bloom filter whose bits are the two CRC-16 of a joiner identifier; the CRC
    is proved to be the remainder of a division of polynomials. *)
From S2P Require Import Prelude Text Hex Tlv Errors Dataset Crypto Joiner.

Definition MAX_PSKC_LEN : Z := 16.
Definition MIN_COMMISSIONER_CREDENTIAL_LEN : Z := 6.
Definition MAX_COMMISSIONER_CREDENTIAL_LEN : Z := 255.
Definition MAX_NETWORK_NAME_LEN : Z := 16.
Definition JOINER_ID_LEN : Z := 8.
Definition MAX_STEERING_DATA_LEN : Z := 16.

(** [Cmac::<Aes128>::new_from_slice(key)], [update], [finalize]. *)
Class Cmac := { cmac_aes128 : bytes -> bytes -> option bytes }.
Class CmacLaws `{Cmac} : Prop := {
  (** Keys of sixteen bytes are valid, and a tag has sixteen bytes. *)
  cmac_total k m : len k = 16 -> exists t, cmac_aes128 k m = Some t /\ len t = 16 /\ bytes_ok t }.

(** A [Pskc] is its sixteen bytes. *)
Definition Pskc_from_hex {HX : Hex} (value : bytes) : result Error bytes :=
  match hex_decode value with
  | inr bytes => if len bytes =? MAX_PSKC_LEN then Ok bytes else Err (EDataset "PSKc must be exactly 16 bytes")
  | inl e => Err (EHex e)
  end.

Definition pskc_from_active_dataset (dataset : Dataset) : result Error bytes :=
  let! v := ok_or (Dataset_pskc dataset) (EDataset "dataset does not contain PSKc") in
  if len v =? MAX_PSKC_LEN then Ok v else Err (EDataset "PSKc TLV must be 16 bytes").

(** ** PBKDF2-AES-CMAC-PRF-128 *)

Section Pskc.
Context {CM : Cmac}.

Definition aes_cmac (key message : bytes) : result Error bytes :=
  ok_or (cmac_aes128 key message) (ECrypto "invalid AES-CMAC key").

Definition aes_cmac_prf_128 (key message : bytes) : result Error bytes :=
  let! prf_key := if len key =? 16 then Ok key else aes_cmac (repeat 0 16) key in
  aes_cmac prf_key message.

Definition xor_bytes (a b : bytes) : bytes := zip_with Z.lxor a b.

(** The inner loop: [n] further blocks into [t]. *)
Fixpoint prf_iterate (n : nat) (password u t : bytes) : result Error bytes :=
  match n with
  | O => Ok t
  | S n =>
      let! u := aes_cmac_prf_128 password u in
      prf_iterate n password u (xor_bytes t u)
  end.

(** The loop over the blocks of [out]; [rest] is how many bytes it still
    lacks. *)
Fixpoint pbkdf2_loop (fuel : nat) (password salt : bytes) (iterations block_counter rest : Z) : result Error bytes :=
  if rest <=? 0 then Ok []
  else
    match fuel with
    | O => Panic OutOfFuel
    | S fuel =>
        let! u := aes_cmac_prf_128 password (salt ++ to_be 4 block_counter) in
        let! t := prf_iterate (Z.to_nat (iterations - 1)) password u u in
        let n := Z.min rest (len t) in
        let! block := slice_to t n in
        let! block_counter := ok_or (checked_add 32 block_counter 1) (ECrypto "PBKDF2 block counter overflow") in
        let! more := pbkdf2_loop fuel password salt iterations block_counter (rest - n) in
        Ok (block ++ more)
    end.

Definition pbkdf2_aes_cmac_prf_128 (password salt : bytes) (iterations out_len : Z) : result Error bytes :=
  if iterations =? 0 then Err (ECrypto "PBKDF2 iteration count must be nonzero")
  else pbkdf2_loop (Z.to_nat out_len) password salt iterations 1 out_len.

Definition generate_pskc (passphrase network_name extended_pan_id : bytes) : result Error bytes :=
  if negb ((MIN_COMMISSIONER_CREDENTIAL_LEN <=? len passphrase) && (len passphrase <=? MAX_COMMISSIONER_CREDENTIAL_LEN))
  then Err (EDataset ("passphrase length must be in [" +:+ dec MIN_COMMISSIONER_CREDENTIAL_LEN +:+ ", "
                      +:+ dec MAX_COMMISSIONER_CREDENTIAL_LEN +:+ "]"))
  else if len network_name >? MAX_NETWORK_NAME_LEN
  then Err (EDataset ("network name is longer than " +:+ dec MAX_NETWORK_NAME_LEN +:+ " bytes"))
  else
    let salt := str_bytes "Thread" ++ extended_pan_id ++ network_name in
    pbkdf2_aes_cmac_prf_128 passphrase salt 16384 MAX_PSKC_LEN.
End Pskc.

(** ** Joiner identifiers *)

Definition compute_joiner_id {E} `{Hash} (eui64 : Z) : result E bytes :=
  let digest := sha256 (to_be 8 eui64) in
  let! joiner_id := slice_to digest JOINER_ID_LEN in
  let! first := idx joiner_id 0 in
  Ok (<[0%nat := Z.lor first LOCAL_EXTERNAL_ADDR_MASK]> joiner_id).

(** [StaticJoinerHandler::enable_eui64]. *)
Definition enable_eui64 {E} `{Hash} (self : StaticJoinerHandler) (eui64 : Z) (pskd : bytes) : result E StaticJoinerHandler :=
  let! joiner_id := compute_joiner_id eui64 in
  Ok (enable_joiner_id self joiner_id pskd).

(** ** Steering data *)

Definition crc16_shift (poly crc : Z) : Z :=
  if negb (Z.land crc 0x8000 =? 0) then Z.lxor (wrap 16 (Z.shiftl crc 1)) poly else wrap 16 (Z.shiftl crc 1).
Definition crc16_byte (poly crc byte : Z) : Z :=
  Nat.iter 8 (crc16_shift poly) (Z.lxor crc (wrap 16 (Z.shiftl byte 8))).
Definition crc16 (poly : Z) (l : bytes) : Z := fold_left (crc16_byte poly) l 0.

Definition set_bit {E} (out : bytes) (bit : Z) : result E bytes :=
  let i := len out - 1 - bit / 8 in
  if i <? 0 then Panic ArithOverflow
  else
    let! b := idx out i in
    Ok (<[Z.to_nat i := Z.lor b (Z.shiftl 1 (bit mod 8))]> out).

Definition compute_bloom_filter {E} (out input : bytes) : result E bytes :=
  let num_bits := len out * 8 in
  if num_bits =? 0 then Panic ArithOverflow
  else
    let ccitt := crc16 0x1021 input mod num_bits in
    let ansi := crc16 0x8005 input mod num_bits in
    let! out := set_bit out ccitt in
    set_bit out ansi.

(** [steering_data.resize(..); steering_data.fill(0)]. *)
Definition add_joiner_to_steering_data {E} (steering_data joiner_id : bytes) : result E bytes :=
  let steering_data :=
    if negb (len steering_data =? MAX_STEERING_DATA_LEN) then repeat 0 (Z.to_nat MAX_STEERING_DATA_LEN)
    else steering_data in
  compute_bloom_filter steering_data joiner_id.

(** ** PBKDF2 against its definition *)

Section PskcLemmas.
Context {CM : Cmac} {CML : CmacLaws}.

(** RFC 4615 and RFC 8018 in terms of a total PRF. *)
Definition prf_tag (key message : bytes) : bytes := default [] (cmac_aes128 key message).
Definition prf_key (key : bytes) : bytes := if len key =? 16 then key else prf_tag (repeat 0 16) key.
Definition prf (password message : bytes) : bytes := prf_tag (prf_key password) message.

(** [U_1 xor U_2 xor ... xor U_n] of RFC 8018, section 5.2. *)
Fixpoint pbkdf2_f (n : nat) (password u : bytes) : bytes :=
  match n with
  | O => u
  | S n => xor_bytes u (pbkdf2_f n password (prf password u))
  end.

Lemma prf_tag_ok k m : len k = 16 -> cmac_aes128 k m = Some (prf_tag k m) /\ len (prf_tag k m) = 16.
Proof. intros Hk. unfold prf_tag. by destruct (cmac_total k m Hk) as (t & -> & ? & _). Qed.

Lemma aes_cmac_prf_ok password message :
  aes_cmac_prf_128 password message = Ok (prf password message) /\ len (prf password message) = 16.
Proof.
  unfold aes_cmac_prf_128, aes_cmac, prf, prf_key. destruct (len password =? 16) eqn:E; zbool; cbn [rbind].
  - destruct (prf_tag_ok password message E) as [-> ?]. done.
  - destruct (prf_tag_ok (repeat 0 16) password eq_refl) as [-> Hl]. cbn [ok_or rbind].
    by destruct (prf_tag_ok _ message Hl) as [-> ?].
Qed.

Lemma xor_bytes_len a b : len a = len b -> len (xor_bytes a b) = len a.
Proof. unfold xor_bytes, len. rewrite length_zip_with. lia. Qed.

Lemma xor_bytes_assoc a b c : xor_bytes (xor_bytes a b) c = xor_bytes a (xor_bytes b c).
Proof.
  unfold xor_bytes. revert b c. induction a as [|x a IH]; intros [|y b] [|z c]; try done. cbn. by rewrite Z.lxor_assoc, IH.
Qed.

Lemma prf_iterate_ok n password u t : len u = 16 -> len t = 16 ->
  prf_iterate n password u t =
    Ok (match n with O => t | S n => xor_bytes t (pbkdf2_f n password (prf password u)) end).
Proof.
  revert u t. induction n as [|n IH]; intros u t Hu Ht; [done|]. cbn [prf_iterate].
  destruct (aes_cmac_prf_ok password u) as [-> Hl]. cbn [rbind]. rewrite IH by (rewrite ?xor_bytes_len; lia).
  destruct n as [|n]; [done|]. cbn [pbkdf2_f]. by rewrite xor_bytes_assoc.
Qed.

Lemma pbkdf2_f_len n password u : len u = 16 -> len (pbkdf2_f n password u) = 16.
Proof.
  revert u. induction n as [|n IH]; intros u Hu; [done|]. cbn [pbkdf2_f].
  destruct (aes_cmac_prf_ok password u) as [_ Hl]. rewrite xor_bytes_len; [done|]. by rewrite IH.
Qed.
End PskcLemmas.

(** ** CRC-16 is a polynomial remainder

    A number is the polynomial over GF(2) of its bits.  [multiple g] is the
    ideal of [g], and two numbers are congruent when their difference is in it. *)

Inductive multiple (g : Z) : Z -> Prop :=
  | multiple_zero : multiple g 0
  | multiple_self : multiple g g
  | multiple_shift a : multiple g a -> multiple g (Z.shiftl a 1)
  | multiple_add a b : multiple g a -> multiple g b -> multiple g (Z.lxor a b).

Definition congruent (g a b : Z) : Prop := multiple g (Z.lxor a b).

#[global] Instance congruent_equivalence g : Equivalence (congruent g).
Proof.
  split.
  - intros a. unfold congruent. rewrite Z.lxor_nilpotent. constructor.
  - intros a b H. unfold congruent. by rewrite Z.lxor_comm.
  - intros a b c H1 H2. unfold congruent. replace (Z.lxor a c) with (Z.lxor (Z.lxor a b) (Z.lxor b c)); [by constructor|].
    by rewrite Z.lxor_assoc, <- (Z.lxor_assoc b b), Z.lxor_nilpotent, Z.lxor_0_l.
Qed.
#[global] Instance lxor_congruent g : Proper (congruent g ==> congruent g ==> congruent g) Z.lxor.
Proof.
  intros a a' Ha b b' Hb. unfold congruent in *.
  replace (Z.lxor (Z.lxor a b) (Z.lxor a' b')) with (Z.lxor (Z.lxor a a') (Z.lxor b b')); [by constructor|].
  by rewrite !Z.lxor_assoc, <- (Z.lxor_assoc a' b b'), (Z.lxor_comm a' b), (Z.lxor_assoc b a' b').
Qed.

Lemma shift_congruent g n a b : 0 <= n -> congruent g a b -> congruent g (Z.shiftl a n) (Z.shiftl b n).
Proof.
  intros Hn H. unfold congruent. rewrite <- Z.shiftl_lxor. revert n Hn. apply natlike_ind; [by rewrite Z.shiftl_0_r|].
  intros n Hn IH. unfold Z.succ. rewrite <- Z.shiftl_shiftl by done. by constructor.
Qed.

(** The divisor [x^16 + poly]. *)
Definition crc_divisor (poly : Z) : Z := Z.lxor (Z.shiftl 1 16) poly.

Section Crc.
Context (poly : Z) (poly_ok : is_u16 poly).

Lemma crc16_shift_ok c : is_u16 c -> is_u16 (crc16_shift poly c) /\ congruent (crc_divisor poly) (Z.shiftl c 1) (crc16_shift poly c).
Proof.
  intros Hc. assert (is_u16 (wrap 16 (Z.shiftl c 1))) as Hw by by apply uint_wrap.
  assert (negb (Z.land c 0x8000 =? 0) = Z.testbit c 15) as Eb.
  { by rewrite <- (testbit_nonzero c 15). }
  assert (Z.shiftl c 1 = Z.lxor (if Z.testbit c 15 then Z.shiftl 1 16 else 0) (wrap 16 (Z.shiftl c 1))) as E.
  { apply Z.bits_inj'. intros i Hi. rewrite Z.lxor_spec, Z.shiftl_spec by done. unfold wrap.
    destruct (decide (i < 16)).
    - rewrite Z.mod_pow2_bits_low, Z.shiftl_spec by lia. destruct (Z.testbit c 15); [|by rewrite Z.bits_0].
      by rewrite Z.shiftl_spec_low, xorb_false_l by lia.
    - rewrite Z.mod_pow2_bits_high, xorb_false_r by lia. destruct (decide (i = 16)) as [->|].
      + destruct (Z.testbit c 15) eqn:E; [done|]. by rewrite Z.bits_0.
      + rewrite (testbit_high 16 c) by (done || lia). destruct (Z.testbit c 15); [|by rewrite Z.bits_0].
        rewrite Z.shiftl_spec by lia. symmetry. apply (testbit_high 1); [done|lia]. }
  unfold crc16_shift. rewrite Eb. destruct (Z.testbit c 15).
  - split; [by apply uint_lxor|]. unfold congruent. rewrite E at 1.
    replace (Z.lxor _ _) with (crc_divisor poly); [constructor|]. unfold crc_divisor.
    by rewrite Z.lxor_assoc, <- (Z.lxor_assoc (wrap 16 _)), Z.lxor_nilpotent, Z.lxor_0_l.
  - split; [done|]. rewrite Z.lxor_0_l in E. by rewrite <- E.
Qed.

Lemma crc16_iter_ok n c : is_u16 c ->
  is_u16 (Nat.iter n (crc16_shift poly) c) /\
  congruent (crc_divisor poly) (Z.shiftl c (Z.of_nat n)) (Nat.iter n (crc16_shift poly) c).
Proof.
  intros Hc. induction n as [|n [IH1 IH2]]; [rewrite Z.shiftl_0_r; by split|]. cbn [Nat.iter nat_rect].
  destruct (crc16_shift_ok _ IH1) as [H1 H2]. split; [done|]. rewrite <- H2.
  replace (Z.of_nat (S n)) with (Z.of_nat n + 1) by lia. rewrite <- Z.shiftl_shiftl by lia. by apply shift_congruent.
Qed.

Lemma crc16_fold_ok l c p : bytes_ok l -> is_u16 c -> congruent (crc_divisor poly) (Z.shiftl p 16) c ->
  is_u16 (fold_left (crc16_byte poly) l c) /\
  congruent (crc_divisor poly) (Z.shiftl (p * 2 ^ (8 * len l) + from_be l) 16) (fold_left (crc16_byte poly) l c).
Proof.
  intros Hl. revert c p. induction Hl as [|b l Hb Hl IH]; intros c p Hc Hp; cbn [fold_left].
  { change (@len Z []) with 0. rewrite Z.mul_0_r, Z.pow_0_r, Z.mul_1_r. change (from_be []) with 0. rewrite Z.add_0_r. by split. }
  pose proof (len_nonneg l). assert (wrap 16 (Z.shiftl b 8) = Z.shiftl b 8) as Eb.
  { apply wrap_small. rewrite Z.shiftl_mul_pow2 by lia. destruct Hb. split; lia. }
  assert (is_u16 (Z.lxor c (Z.shiftl b 8))) as Hx.
  { apply uint_lxor; [lia|done|]. rewrite <- Eb. by apply uint_wrap. }
  destruct (crc16_iter_ok 8 _ Hx) as [H1 H2]. unfold crc16_byte at 2 4. rewrite Eb.
  replace (p * 2 ^ (8 * len (b :: l)) + from_be (b :: l)) with ((p * 256 + b) * 2 ^ (8 * len l) + from_be l).
  2:{ rewrite from_be_cons, len_cons. replace (8 * (1 + len l)) with (8 + 8 * len l) by lia.
      rewrite Z.pow_add_r by lia. lia. }
  apply IH; [done|]. rewrite <- H2. change (Z.of_nat 8) with 8. change 256 with (2 ^ 8).
  rewrite <- (lxor_shiftl_add p b 8) by done.
  rewrite Z.shiftl_lxor, Z.shiftl_shiftl, (Z.shiftl_lxor c), (Z.shiftl_shiftl b 8 8) by lia.
  change (8 + 16) with (16 + 8). rewrite <- (Z.shiftl_shiftl p 16 8) by lia.
  by rewrite (shift_congruent _ 8 _ _ ltac:(lia) Hp).
Qed.
End Crc.

(** ** The filter *)

(** A filter of sixteen bytes is a number of 128 bits, the first byte highest. *)
Definition filter_bit (filter : bytes) (i : Z) : bool := Z.testbit (from_be filter) i.
Definition ccitt_bit (joiner_id : bytes) : Z := crc16 0x1021 joiner_id mod 128.
Definition ansi_bit (joiner_id : bytes) : Z := crc16 0x8005 joiner_id mod 128.
(** A device whose two bits are set is steered to join. *)
Definition steers (filter joiner_id : bytes) : bool :=
  filter_bit filter (ccitt_bit joiner_id) && filter_bit filter (ansi_bit joiner_id).

Definition filter_wf (filter : bytes) : Prop := bytes_ok filter /\ len filter = MAX_STEERING_DATA_LEN.

Lemma nth_lookup_default (l : bytes) i : nth i l 0 = default 0 (l !! i).
Proof. revert i. induction l as [|x l IH]; intros [|i]; simpl; auto. Qed.

Lemma set_bit_ok {E} filter bit : filter_wf filter -> 0 <= bit < 128 ->
  exists filter', @set_bit E filter bit = Ok filter' /\ filter_wf filter' /\
    forall i, 0 <= i < 128 -> filter_bit filter' i = filter_bit filter i || (i =? bit).
Proof.
  intros [Hb Hl] Hbit. unfold MAX_STEERING_DATA_LEN in Hl. unfold set_bit. rewrite Hl.
  pose proof (Z.div_lt_upper_bound bit 8 16 ltac:(lia) ltac:(lia)). pose proof (Z.div_pos bit 8 ltac:(lia) ltac:(lia)).
  pose proof (Z.mod_pos_bound bit 8 ltac:(lia)). pose proof (Z.div_mod bit 8 ltac:(lia)) as Edm.
  set (j := Z.to_nat (16 - 1 - bit / 8)). rewrite (proj2 (Z.ltb_ge _ _)) by lia.
  assert (j < length filter)%nat as Hj by (unfold len in Hl; lia).
  destruct (lookup_lt_is_Some_2 filter j Hj) as [b Eb]. rewrite (idx_Some _ _ b) by done. cbn [rbind].
  assert (is_u8 b) as Hbu by by apply (Forall_lookup_1 _ _ _ _ Hb Eb).
  set (b' := Z.lor b (Z.shiftl 1 (bit mod 8))).
  assert (is_u8 b') as Hb'.
  { apply uint_lor; [lia|done|]. rewrite Z.shiftl_1_l. split; [apply Z.pow_nonneg; lia|].
    apply Z.pow_lt_mono_r; lia. }
  eexists. split; [done|]. split.
  { split; [by apply Forall_insert|]. unfold len. rewrite length_insert. apply Hl. }
  intros i Hi. unfold filter_bit. pose proof (Z.div_mod i 8 ltac:(lia)) as Ei. pose proof (Z.mod_pos_bound i 8 ltac:(lia)).
  pose proof (Z.div_lt_upper_bound i 8 16 ltac:(lia) ltac:(lia)). pose proof (Z.div_pos i 8 ltac:(lia) ltac:(lia)).
  set (n := Z.to_nat (16 - 1 - i / 8)). assert (n < length filter)%nat as Hn by (unfold len in Hl; lia).
  replace i with (8 * (16 - 1 - Z.of_nat n) + i mod 8) at 1 2 by lia.
  assert (bytes_ok (<[j:=b']> filter)) as Hok by by apply Forall_insert.
  pose proof (from_be_testbit _ n (i mod 8) Hok ltac:(rewrite length_insert; lia) ltac:(lia)) as E1.
  pose proof (from_be_testbit _ n (i mod 8) Hb Hn ltac:(lia)) as E2.
  unfold len in E1, E2. rewrite length_insert in E1. fold (len filter) in E1, E2. rewrite Hl in E1, E2.
  rewrite E1, E2, !nth_lookup_default. destruct (decide (j = n)) as [Ejn|Hjn].
  - rewrite <- Ejn, list_lookup_insert_eq by done. rewrite Eb. cbn [default]. cbv beta delta [id b'] iota.
    rewrite Z.lor_spec, Z.shiftl_1_l, Z.pow2_bits_eqb by lia. f_equal. apply eq_bool_prop_intro.
    rewrite !Is_true_true, !Z.eqb_eq. subst j n. lia.
  - rewrite list_lookup_insert_ne by done. destruct (i =? bit) eqn:Eib; [|by rewrite orb_false_r]. zbool. subst j n. lia.
Qed.

Lemma bloom_ok {E} filter joiner_id : filter_wf filter ->
  exists filter', @compute_bloom_filter E filter joiner_id = Ok filter' /\ filter_wf filter' /\
    forall i, 0 <= i < 128 ->
      filter_bit filter' i = filter_bit filter i || (i =? ccitt_bit joiner_id) || (i =? ansi_bit joiner_id).
Proof.
  intros Hf. pose proof (proj2 Hf) as Hl. unfold compute_bloom_filter. rewrite Hl. change (MAX_STEERING_DATA_LEN * 8) with 128.
  cbn [Z.eqb]. fold (ccitt_bit joiner_id) (ansi_bit joiner_id).
  destruct (@set_bit_ok E filter (ccitt_bit joiner_id) Hf) as (f1 & -> & H1 & B1); [apply Z.mod_pos_bound; lia|]. cbn [rbind].
  destruct (@set_bit_ok E f1 (ansi_bit joiner_id) H1) as (f2 & -> & H2 & B2); [apply Z.mod_pos_bound; lia|].
  exists f2. split; [done|]. split; [done|]. intros i Hi. by rewrite B2, B1.
Qed.

Lemma pbkdf2_one_block `{CmacLaws} password salt iterations : 1 <= iterations ->
  let t := pbkdf2_f (Z.to_nat (iterations - 1)) password (prf password (salt ++ [0; 0; 0; 1])) in
  pbkdf2_aes_cmac_prf_128 password salt iterations 16 = Ok t /\ len t = 16.
Proof.
  intros Hi t. unfold pbkdf2_aes_cmac_prf_128. destruct (iterations =? 0) eqn:E0; [zbool; lia|].
  change (Z.to_nat 16) with 16%nat. cbn [pbkdf2_loop Z.leb Z.compare]. change (to_be 4 1) with [0; 0; 0; 1].
  destruct (aes_cmac_prf_ok password (salt ++ [0; 0; 0; 1])) as [-> Hu]. cbn [rbind].
  rewrite prf_iterate_ok by done. set (u := prf password _) in *.
  assert (match Z.to_nat (iterations - 1) with O => u | S n => xor_bytes u (pbkdf2_f n password (prf password u)) end = t) as ->
    by (unfold t; by destruct (Z.to_nat (iterations - 1))).
  pose proof (pbkdf2_f_len (Z.to_nat (iterations - 1)) password u Hu) as Hl. fold t in Hl.
  cbn [rbind]. rewrite Hl. change (Z.min 16 16) with 16. rewrite slice_to_ok by lia. cbn [rbind].
  change (checked_add 32 1 1) with (Some 2). cbn [ok_or rbind]. change (16 - 16) with 0. cbn [pbkdf2_loop Z.leb Z.compare rbind].
  split; [|done]. rewrite app_nil_r, take_ge by (unfold len in Hl; lia). done.
Qed.

(** ** Properties *)

(** C37: PSKc derivation.  A commissioner credential of 6 to 255 bytes and a
    network name of at most 16 bytes give the sixteen bytes of the first block
    of PBKDF2 with AES-CMAC-PRF-128, 16384 iterations and the salt of the
    network; any other lengths are a dataset error. *)
Theorem generate_pskc_pbkdf2 `{CmacLaws} passphrase network_name extended_pan_id :
  let valid := 6 <= len passphrase <= 255 /\ len network_name <= 16 in
  let salt := str_bytes "Thread" ++ extended_pan_id ++ network_name in
  (valid -> exists pskc, generate_pskc passphrase network_name extended_pan_id = Ok pskc /\ len pskc = 16 /\
     pskc = pbkdf2_f (Z.to_nat (16384 - 1)) passphrase (prf passphrase (salt ++ [0; 0; 0; 1]))) /\
  (~ valid -> exists msg, generate_pskc passphrase network_name extended_pan_id = Err (EDataset msg)).
Proof.
  intros valid salt. unfold generate_pskc, MIN_COMMISSIONER_CREDENTIAL_LEN, MAX_COMMISSIONER_CREDENTIAL_LEN, MAX_NETWORK_NAME_LEN.
  split.
  - intros [Hp Hn]. rewrite (proj2 (Z.leb_le 6 _)), (proj2 (Z.leb_le _ 255)), Z.gtb_ltb, (proj2 (Z.ltb_ge 16 _)) by lia.
    cbn [andb negb]. fold salt. destruct (pbkdf2_one_block passphrase salt 16384) as [E Hl]; [lia|].
    eexists. split; [exact E|]. by split.
  - intros Hv. destruct ((6 <=? len passphrase) && (len passphrase <=? 255)) eqn:E; cbn [negb]; [|by eexists].
    destruct (len network_name >? 16) eqn:E'; [by eexists|]. destruct Hv. rewrite Z.gtb_ltb in E'. zbool. unfold valid. lia.
Qed.

Lemma add_joiner_ok {E} steering_data joiner_id :
  bytes_ok steering_data ->
  let base := if len steering_data =? 16 then steering_data else repeat 0 16 in
  exists filter, @add_joiner_to_steering_data E steering_data joiner_id = Ok filter /\ filter_wf filter /\
     (forall i, 0 <= i < 128 ->
        filter_bit filter i = filter_bit base i || (i =? ccitt_bit joiner_id) || (i =? ansi_bit joiner_id)) /\
     steers filter joiner_id = true /\ forall other, steers base other = true -> steers filter other = true.
Proof.
  intros Hs base. assert (filter_wf base) as Hb.
  { unfold base. destruct (len steering_data =? 16) eqn:E'; zbool; [by split|by_decide]. }
  unfold add_joiner_to_steering_data, MAX_STEERING_DATA_LEN. change (Z.to_nat 16) with 16%nat.
  assert ((if negb (len steering_data =? 16) then repeat 0 16 else steering_data) = base) as ->
    by (unfold base; by destruct (len steering_data =? 16)).
  destruct (@bloom_ok E base joiner_id Hb) as (filter & -> & Hf & Hbits). exists filter.
  split; [done|]. split; [done|]. split; [done|].
  assert (forall id, 0 <= ccitt_bit id < 128 /\ 0 <= ansi_bit id < 128) as Hr
    by (intros id; split; apply Z.mod_pos_bound; lia).
  destruct (Hr joiner_id). split.
  - unfold steers. rewrite !Hbits, !Z.eqb_refl, !orb_true_r by done. done.
  - intros other Ho. destruct (Hr other). unfold steers in *. apply andb_true_iff in Ho as [Ha Hb2].
    by rewrite !Hbits, Ha, Hb2 by done.
Qed.

(** Steering data.  Adding a joiner never fails; from a filter of sixteen
    bytes it sets exactly the two bits of that joiner, so that every joiner
    steered before still is, and the new one as well; steering data of any
    other length is replaced by a filter of that joiner alone.  The bits are
    the remainders of the identifier times [x^16] divided by the CRC-CCITT and
    CRC-ANSI polynomials. *)
Theorem steering_data_adds {E} steering_data joiner_id :
  bytes_ok steering_data -> bytes_ok joiner_id ->
  let base := if len steering_data =? 16 then steering_data else repeat 0 16 in
  (exists filter, @add_joiner_to_steering_data E steering_data joiner_id = Ok filter /\ filter_wf filter /\
     (forall i, 0 <= i < 128 ->
        filter_bit filter i = filter_bit base i || (i =? ccitt_bit joiner_id) || (i =? ansi_bit joiner_id)) /\
     steers filter joiner_id = true /\ forall other, steers base other = true -> steers filter other = true) /\
  Forall (fun poly => is_u16 (crc16 poly joiner_id) /\
    congruent (crc_divisor poly) (Z.shiftl (from_be joiner_id) 16) (crc16 poly joiner_id)) [0x1021; 0x8005].
Proof.
  intros Hs Hj base. split; [by apply add_joiner_ok|].
  assert (forall poly, is_u16 poly -> is_u16 (crc16 poly joiner_id) /\
    congruent (crc_divisor poly) (Z.shiftl (from_be joiner_id) 16) (crc16 poly joiner_id)) as Hc.
  { intros poly Hp. destruct (crc16_fold_ok poly Hp joiner_id 0 0 Hj ltac:(by_decide)) as [H1 H2]; [done|].
    by rewrite Z.mul_0_l, Z.add_0_l in H2. }
  constructor; [apply Hc; by_decide|]. constructor; [apply Hc; by_decide|]. constructor.
Qed.

(** ** Witnesses *)

Module ToyCmac.
#[export] Instance toy_cmac : Cmac := {
  cmac_aes128 k m := if len k =? 16 then Some (map (fun b => (b + from_be m) mod 256) k) else None }.
#[export] Instance toy_cmac_laws : CmacLaws.
Proof.
  split. intros k m Hk. cbn. rewrite Hk. eexists. split; [done|]. unfold len in *. rewrite length_map. split; [done|].
  apply Forall_map. apply Forall_true. intros b. apply Z.mod_pos_bound. lia.
Qed.
End ToyCmac.

(** The test vector of the source for two joiners ("J01NME", IEEE EUI-64). *)
Lemma steering_data_adds_witness :
  let filter := [0; 0; 0; 0; 0; 0; 0; 0; 0; 0; 0; 0; 0; 0; 0; 1] in
  exists filter', @add_joiner_to_steering_data unit filter [0x16; 1; 2; 3; 4; 5; 6; 7] = Ok filter' /\
    steers filter' [0x16; 1; 2; 3; 4; 5; 6; 7] = true /\ filter_bit filter' 0 = true.
Proof.
  intros filter. destruct (@steering_data_adds unit filter [0x16; 1; 2; 3; 4; 5; 6; 7]) as [(f & E & _ & Hb & Hs & _) _];
    [by_decide|by_decide|]. exists f. split; [done|]. split; [done|]. by rewrite (Hb 0) by lia.
Defined.

Lemma generate_pskc_pbkdf2_witness :
  exists pskc, generate_pskc (CM := ToyCmac.toy_cmac) (str_bytes "secret") (str_bytes "net") [1; 2; 3; 4; 5; 6; 7; 8] = Ok pskc /\
    len pskc = 16.
Proof.
  destruct (generate_pskc_pbkdf2 (H := ToyCmac.toy_cmac) (H0 := ToyCmac.toy_cmac_laws) (str_bytes "secret") (str_bytes "net") [1; 2; 3; 4; 5; 6; 7; 8])
    as [H _]. destruct H as (pskc & E & Hl & _); [by split|]. exists pskc. by split.
Defined.
