(* ===== verification/JoinerSafety.v ===== *)
(** * JoinerSafety: joiner sessions on hostile relay traffic

    [JoinerSession_receive] of [Joiner] never panics, whatever datagrams
    arrive, and records that do not authenticate change nothing. *)
From S2P Require Import Prelude Text Tlv Errors Coap Messages Replay Record Handshake.
From S2P Require Import Hello Crypto Ecjpake ThreadHandshake Safety Joiner.

Section Safety.
Context {HH : Hash} {HL : HashLaws} {AA : Aead} {AL : AeadLaws} {CC : Curve} {CL : CurveLaws} {RR : Rng} {RL : RngLaws}
  {JH : JoinerHandler}.

(** The keys of a session have their sizes. *)
Definition session_wf (s : JoinerSession) : Prop := forall km, key_material s = Some km -> key_block_wf (key_block km).
Definition env_wf (e : Env) : Prop := session_wf (session e).

Lemma dtls_safe {A} (r : result DtlsError A) : safe r -> safe (from_dtls r).
Proof. apply safe_map_err. Qed.

(** ** The methods of the session *)

Lemma good_dtls {S A} (P : S -> Prop) (Q : A -> Prop) (r : result DtlsError A) :
  safe r -> (forall a, r = Ok a -> Q a) -> good P Q (@mdtls S A r).
Proof. intros Hr Hq. apply good_lift; [by apply dtls_safe|]. intros a Ha%from_dtls_ok. auto. Qed.

Lemma good_session {A} (Q : A -> Prop) (m : M JoinerSession Error A) : good session_wf Q m -> good env_wf Q (on_session m).
Proof.
  intros Hm e He. destruct (Hm (session e) He) as [H1 H2]. unfold on_session, mzoom.
  destruct (m (session e)) as [s' [a|er|f]]; simpl in *; by split.
Qed.

Lemma good_update f : (forall s, session_wf s -> session_wf (f s)) -> good env_wf (fun _ => True) (update f).
Proof. intros. by apply good_session, good_set. Qed.

Lemma good_emit ev : good env_wf (fun _ => True) (emit ev).
Proof. by apply good_set. Qed.

Lemma good_handshake {A} (m : M (ThreadDtlsServerHandshake * rng) DtlsError A) :
  (forall x, safe (m x).2) -> good env_wf (fun _ => True) (on_handshake m).
Proof.
  intros Hm e He. specialize (Hm (handshake (session e), env_rng e)). unfold on_handshake, mzoom.
  destruct (m _) as [[h g] [a|er|f]]; simpl in *; by split.
Qed.

Lemma good_key_material s : session_wf s ->
  safe (key_material_required s) /\ forall km, key_material_required s = Ok km -> key_block_wf (key_block km).
Proof.
  intros Hs. unfold key_material_required. split; [apply safe_ok_or|]. intros km Hk%ok_or_ok. by apply Hs.
Qed.

Lemma open_record_good r : bytes_ok (rec_payload r) ->
  good session_wf (fun o => forall pl, o = Some pl -> bytes_ok pl) (open_record r).
Proof.
  intros Hb. unfold open_record. eapply (good_bind _ (fun s => session_wf s)); [by apply good_get|].
  intros self Hself. case_match; [by apply good_ret|].
  destruct (good_key_material self Hself) as [Hs Hk].
  eapply (good_bind _ (fun km => key_block_wf (key_block km))); [by apply good_lift|]. intros km (_ & _ & Hiv & _).
  eapply (good_bind _ bytes_ok); [apply good_dtls; [by apply open_safe|intros; by eapply open_bytes]|].
  intros pl Hpl. eapply good_bind; [by apply good_set|]. intros _ _. apply good_ret. by intros ? [= <-].
Qed.

Lemma attempt_good {S E A} (P : S -> Prop) (Q : option A -> Prop) (m : M S E (option A)) :
  Q None -> good P Q m -> good P Q (attempt m).
Proof.
  intros Hn Hm s Hs. destruct (Hm s Hs) as [H1 H2]. unfold attempt. by destruct (m s) as [s1 [o|e|f]].
Qed.

Lemma plaintext_record_good pl : good session_wf (fun _ => True) (plaintext_record pl).
Proof.
  unfold plaintext_record. eapply good_bind; [by apply (good_get _ (fun _ => True))|]. intros self _.
  eapply (good_bind _ (fun _ => True)); [apply good_dtls; [apply record_new_safe|done]|]. intros r _.
  eapply good_bind; [by apply good_set|]. intros _ _. by apply good_ret.
Qed.

Lemma finished_flight_good : good session_wf (fun _ => True) build_server_finished_flight.
Proof.
  unfold build_server_finished_flight. eapply (good_bind _ session_wf); [by apply good_get|]. intros self Hself.
  destruct (good_key_material self Hself) as [Hs Hk].
  eapply (good_bind _ (fun km => key_block_wf (key_block km))); [by apply good_lift|]. intros km (_ & _ & _ & Hiv).
  eapply (good_bind _ (fun _ => True)).
  { unfold plaintext_change_cipher_spec. eapply good_bind; [by apply (good_get _ (fun _ => True))|]. intros s1 _.
    eapply (good_bind _ (fun _ => True)); [apply good_dtls; [apply record_new_safe|done]|]. intros r _.
    eapply good_bind; [by apply good_set|]. intros _ _. by apply good_ret. }
  intros ccs _. eapply (good_bind _ (fun _ => True)); [apply good_dtls; [by apply protect_safe|done]|]. intros fin _.
  eapply good_bind; [by apply good_set|]. intros _ _. apply good_dtls; [apply encode_datagram_safe|done].
Qed.

(** ** The handlers of the session *)

Ltac good_walk := repeat first
  [ apply good_err | by apply good_ret | apply good_emit
  | match goal with
    | |- good _ _ (mbind (mdtls _) _) =>
        eapply (good_bind _ (fun _ => True)); [apply good_dtls; [|done]|intros ? _]
    | |- good _ _ (mbind (update _) _) => eapply good_bind; [by apply good_update|intros _ _]
    | |- good _ _ (mbind (on_handshake _) _) => eapply good_bind; [apply good_handshake; intros ?|intros ? _]
    | |- good _ _ (mbind (on_session (plaintext_record _)) _) =>
        eapply good_bind; [apply good_session, plaintext_record_good|intros ? _]
    | |- good _ _ (mbind (emit _) _) => eapply good_bind; [apply good_emit|intros _ _]
    | |- good _ _ (update _) => by apply good_update
    | |- safe (DtlsRecord_new _ _ _ _) => apply record_new_safe
    | |- safe (DtlsRecord_encode _) => apply record_encode_safe
    | |- safe (HandshakeMessage_encode _) => apply HandshakeMessage_encode_safe
    | |- safe (encode_datagram _) => apply encode_datagram_safe
    | |- safe (HelloVerifyRequest_encode _) => apply hello_verify_encode_safe
    | |- safe (with_rng _ _).2 => apply with_rng_safe
    | |- safe (build_server_hello _ _).2 => apply build_server_hello_safe
    | |- safe (build_server_key_exchange _ _).2 => apply build_server_key_exchange_safe
    | |- safe (build_server_hello_done _ _).2 => apply build_server_hello_done_safe
    | |- safe (build_server_finished _ _ _).2 => apply build_server_finished_safe
    end ].

Lemma plaintext_handshake_good m seq : bytes_ok (hs_payload m) ->
  good env_wf (fun _ => True) (handle_plaintext_handshake m seq).
Proof.
  intros Hok. destruct (server_handlers_behaved m Hok) as (Hch & Hcke & _).
  unfold handle_plaintext_handshake. eapply (good_bind _ session_wf); [by apply good_get|]. intros self Hself.
  destruct (message_type m); try (by apply good_err); destruct (phase self); try (by apply good_err).
  - good_walk; [by apply ClientHello_decode_safe|]. destruct (negb _); good_walk.
    + destruct (cookie_ok (cookie_generator self) (ch_random a)) as (ck & -> & _). done.
    + apply Hch.
  - destruct (_ && _); [|by apply good_ret]. destruct (renumber_epoch_zero_flight _ _) as [fl nx] eqn:?. good_walk.
  - destruct (bool_decide _); [by apply good_ret|]. good_walk; [apply Hcke|].
    eapply (good_bind _ (fun _ => True)); [by apply good_get|]. intros self1 _.
    eapply (good_bind _ (fun km => key_block_wf (key_block km))).
    { apply good_dtls; [apply server_derive_safe|]. intros km Hk. unfold server_derive_key_material in Hk.
      apply rbind_ok in Hk as (? & _ & Hk). apply rbind_ok in Hk as (? & _ & Hk). apply rbind_ok in Hk as (cr & _ & Hk).
      apply rbind_ok in Hk as (pms & _ & Hk). destruct (derive_ok pms cr (sv_server_random (handshake self1))) as (km' & E & Hw).
      rewrite Hk in E. by injection E as ->. }
    intros km Hkm. eapply good_bind; [apply good_update|intros _ _; by apply good_update].
    intros s _ km' [= <-]. done.
Qed.

Lemma finished_messages_good ms : Forall (fun m => bytes_ok (hs_payload m)) ms ->
  good env_wf (fun _ => True) (handle_finished_messages ms).
Proof.
  induction 1 as [|m ms Hm _ IH]; cbn [handle_finished_messages]; [by apply good_ret|]. case_match; [done|].
  eapply (good_bind _ session_wf); [by apply good_get|]. intros self Hself.
  destruct (good_key_material self Hself) as [Hs Hk].
  eapply (good_bind _ (fun _ => True)); [by apply good_lift|]. intros km _.
  good_walk; [by apply server_handlers_behaved|].
  eapply (good_bind _ (fun _ => True)); [apply good_lift; [apply safe_ok_or|done]|]. intros hello _. good_walk.
  eapply good_bind; [apply good_session, finished_flight_good|]. intros d _. good_walk. done.
Qed.

Lemma encrypted_handshake_good r : bytes_ok (rec_payload r) -> good env_wf (fun _ => True) (handle_encrypted_handshake r).
Proof.
  intros Hb. unfold handle_encrypted_handshake. eapply (good_bind _ session_wf); [by apply good_get|]. intros self Hself.
  destruct (_ || _); [by apply good_ret|]. eapply good_bind; [by apply good_session, open_record_good|].
  intros [pl|] Hpl; [|by apply good_ret]. specialize (Hpl pl eq_refl).
  eapply (good_bind _ (fun r => bytes_ok (rec_payload r))).
  { apply good_dtls; [apply record_new_safe|]. intros r' Hr. unfold DtlsRecord_new in Hr. inv_ok. done. }
  intros r' Hr'. eapply (good_bind _ (Forall (fun m => bytes_ok (hs_payload m)))).
  { apply good_dtls; [by apply parse_messages_safe|]. intros ms Hms. by eapply many_messages_ok. }
  intros ms Hms. by apply finished_messages_good.
Qed.

Lemma from_payload_safe pl : bytes_ok pl -> safe (JoinerFinalizeInfo_from_payload pl).
Proof.
  intros Hb. unfold JoinerFinalizeInfo_from_payload, join_fin_required, join_fin_utf8.
  apply safe_bind; [by apply parse_tlvs_safe|]. intros tlvs _.
  repeat (apply safe_bind; [first [apply safe_ok_or|apply safe_from_utf8|apply safe_map_transpose; intros; apply safe_from_utf8]|intros ? _]).
  done.
Qed.

Lemma decide_finalize_good info : good env_wf (fun _ => True) (decide_finalize info).
Proof.
  intros e He. unfold decide_finalize. destruct (finalize_decision (session e)); [done|].
  by destruct (on_joiner_finalize _ _ _).
Qed.

Lemma application_data_good r : bytes_ok (rec_payload r) -> good env_wf (fun _ => True) (handle_application_data r).
Proof.
  intros Hb. unfold handle_application_data. eapply (good_bind _ session_wf); [by apply good_get|]. intros self Hself.
  destruct (negb _); [by apply good_ret|].
  eapply good_bind; [by apply good_session, attempt_good, open_record_good|].
  intros [pl|] Hpl; [|by apply good_ret]. specialize (Hpl pl eq_refl).
  eapply good_bind; [by apply good_update|]. intros _ _. destruct (CoapMessage_decode_spec pl Hpl) as [Hs Hd].
  eapply (good_bind _ coap_wf); [apply good_lift; [done|by intros m Hm; apply Hd]|].
  intros req (Hc & Hmid & Htok & Htl & Hopt & Hpay).
  eapply (good_bind _ (fun _ => True)); [apply good_lift; [by apply uri_path_safe|done]|]. intros path _.
  destruct (negb _); [by apply good_ret|].
  eapply (good_bind _ (fun _ => True)); [apply good_lift; [by apply from_payload_safe|done]|]. intros info _.
  eapply good_bind; [apply decide_finalize_good|]. intros acc _.
  eapply (good_bind _ session_wf); [by apply good_get|]. intros self1 Hself1.
  destruct (good_key_material self1 Hself1) as [Hks Hk].
  eapply (good_bind _ (fun km => key_block_wf (key_block km))); [by apply good_lift|]. intros km (_ & _ & _ & Hiv).
  assert (coap_wf (finalize_response req acc)) as Hw.
  { unfold finalize_response. split; [by_decide|]. split; [done|]. split; [done|]. split; [done|].
    split; [constructor|]. destruct acc; by_decide. }
  eapply (good_bind _ (fun _ => True)); [apply good_lift; [by rewrite CoapMessage_encode_ok|done]|]. intros resp _.
  eapply (good_bind _ (fun _ => True)); [apply good_dtls; [by apply protect_safe|done]|]. intros rr _.
  good_walk. destruct (negb _); good_walk.
Qed.

Lemma plaintext_messages_good ms seq : Forall (fun m => bytes_ok (hs_payload m)) ms ->
  good env_wf (fun _ => True) (handle_plaintext_messages ms seq).
Proof.
  induction 1 as [|m ms Hm _ IH]; cbn [handle_plaintext_messages]; [by apply good_ret|].
  eapply good_bind; [by apply plaintext_handshake_good|]. by intros _ _.
Qed.

Lemma receive_record_good was r : bytes_ok (rec_payload r) -> good env_wf (fun _ => True) (receive_record was r).
Proof.
  intros Hb. unfold receive_record. eapply (good_bind _ session_wf); [by apply good_get|]. intros self Hself.
  destruct (rec_epoch (rec_header r)) as [|[?|?|]|?]; try (by apply good_ret);
    destruct (content_type (rec_header r)); try (by apply good_ret).
  - destruct (negb _); [apply good_err|by apply good_update].
  - destruct (established _); [by apply good_ret|apply good_err].
  - destruct was; [by apply good_ret|]. pose proof (parse_messages_safe r Hb) as Hs.
    destruct (parse_unfragmented_handshake_messages r) as [ms|er|f] eqn:Hm; [|by apply good_ret|done].
    by eapply plaintext_messages_good, many_messages_ok.
  - eapply good_bind; [by apply good_session, attempt_good, open_record_good|].
    intros [pl|] _; [apply good_err|by apply good_ret].
  - by apply encrypted_handshake_good.
  - by apply application_data_good.
Qed.

Lemma process_good rs : Forall (fun r => bytes_ok (rec_payload r)) rs -> good env_wf (fun _ => True) (process rs).
Proof.
  intros Hrs. unfold process. eapply (good_bind _ session_wf); [by apply good_get|]. intros self Hself.
  apply (good_bind _ (fun _ => True)).
  - unfold resend_finished. eapply (good_bind _ session_wf); [by apply good_get|]. intros s1 Hs1.
    match goal with |- good _ _ (if ?b then _ else _) => destruct b; [|by apply good_ret] end. good_walk.
    eapply good_bind; [apply good_session, finished_flight_good|]. intros d _. good_walk.
  - intros _ _. induction Hrs as [|r rs Hr _ IH]; cbn [receive_records]; [by apply good_ret|].
    eapply good_bind; [by apply receive_record_good|]. by intros _ _.
Qed.

(** ** Records that do not authenticate *)

(** The session cannot open [r]: it was seen before, or decryption fails. *)
Definition unauthenticated (s : JoinerSession) (r : DtlsRecord) : Prop :=
  has_seen (replay_window s) (sequence_number (rec_header r)) = true \/
  forall km, key_material s = Some km ->
    exists er, open_aes_128_ccm_8_record r (client_write_key (key_block km)) (client_write_iv (key_block km)) = Err er.

Lemma unauthenticated_closed s r : unauthenticated s r -> attempt (open_record r) s = (s, Ok None).
Proof.
  intros [Hs|Hk]; unfold attempt, open_record, mbind, mget, id.
  - by rewrite Hs.
  - destruct (has_seen _ _); [done|]. unfold key_material_required, mlift. destruct (key_material s) as [km|]; [|done].
    cbn [ok_or]. destruct (Hk km eq_refl) as [er He]. unfold mdtls, mlift. by rewrite He.
Qed.

(** A protected record other than a handshake record. *)
Definition protected_data (r : DtlsRecord) : Prop :=
  rec_epoch (rec_header r) = 1 /\
  (content_type (rec_header r) = CtApplicationData \/ content_type (rec_header r) = CtAlert).

Lemma forged_record_ignored was r e :
  protected_data r -> unauthenticated (session e) r -> receive_record was r e = (e, Ok tt).
Proof.
  intros [He Hc] Hu. unfold receive_record, mbind, mget. rewrite He.
  assert (on_session (attempt (open_record r)) e = (e, Ok None)) as Ho.
  { unfold on_session, mzoom. rewrite unauthenticated_closed by done. by destruct e. }
  destruct Hc as [-> | ->].
  - unfold handle_application_data, mbind, mget. destruct (negb _); [done|]. by rewrite Ho.
  - by rewrite Ho.
Qed.

Lemma protected_data_flight r : protected_data r -> is_client_finished_record r = false.
Proof. intros [He [Hc|Hc]]; unfold is_client_finished_record; by rewrite He, Hc. Qed.

Lemma forged_records_ignored s g h rs :
  Forall (fun r => protected_data r /\ unauthenticated s r) rs ->
  process rs (mkEnv s g h []) = (mkEnv s g h [], Ok tt).
Proof.
  intros H. unfold process, mbind, mget. unfold resend_finished, mbind, mget.
  assert (is_client_finished_flight rs = false) as ->.
  { unfold is_client_finished_flight. induction H as [|r rs [Hr _] _ IH]; [done|]. cbn [existsb].
    by rewrite protected_data_flight. }
  rewrite andb_false_r. cbn [andb mret session]. generalize (established (phase s)). intros was.
  induction H as [|r rs [Hr Hu] _ IH]; [done|]. cbn [receive_records]. unfold mbind.
  by rewrite forged_record_ignored.
Qed.
End Safety.

(** ** Properties *)

Section Properties.
Context {HH : Hash} {HL : HashLaws} {AA : Aead} {AL : AeadLaws} {CC : Curve} {CL : CurveLaws} {RR : Rng} {RL : RngLaws}
  {JH : JoinerHandler}.

(** An unauthenticated plaintext record ends any session it reaches: a
    ChangeCipherSpec whose payload is not the byte 1. *)
Lemma plaintext_ccs_fails_session s g h d r :
  parse_datagram d = Ok [r] -> rec_epoch (rec_header r) = 0 -> content_type (rec_header r) = CtChangeCipherSpec ->
  rec_payload r <> [1] ->
  JoinerSession_receive s g h d = (s, g, h, Err (ECrypto "invalid ChangeCipherSpec payload")).
Proof.
  intros Hp He Hc Hne. unfold JoinerSession_receive. rewrite Hp.
  unfold process, resend_finished, receive_records, receive_record, mbind, mget. cbn [session].
  assert (is_client_finished_flight [r] = false) as ->.
  { unfold is_client_finished_flight, is_client_finished_record. cbn [existsb]. by rewrite He, Hc. }
  rewrite andb_false_r. cbn [andb mret]. rewrite He, Hc. unfold vec_eqb. by rewrite bool_decide_false.
Qed.

(** A session can always be created, without keys. *)
Lemma new_session_ok iid port loc pskd now g :
  exists s g', JoinerSession_new iid port loc pskd now g = Ok (s, g') /\ key_material s = None.
Proof.
  unfold JoinerSession_new. destruct (server_new_ok g pskd) as (p & r & sr & g1 & -> & _). cbn.
  destruct (DtlsCookieGenerator_new_with_rng g1) as [gen g2]. by eexists _, g2.
Qed.

(** C12: hostile relay traffic.  Whatever bytes arrive, a session neither
    panics nor loses the sizes of its keys; a datagram that is not DTLS is
    dropped; protected data or alert records that are replayed, or that
    decryption rejects, change nothing and emit nothing; but one plaintext
    ChangeCipherSpec with a payload other than 1 makes [receive] fail, in any
    phase. *)
Theorem joiner_receive_hostile s g h d :
  session_wf s -> bytes_ok d ->
  (safe (JoinerSession_receive s g h d).2 /\ session_wf (JoinerSession_receive s g h d).1.1.1) /\
  ((forall rs, parse_datagram d <> Ok rs) -> JoinerSession_receive s g h d = (s, g, h, Ok [])) /\
  (forall rs, parse_datagram d = Ok rs -> Forall (fun r => protected_data r /\ unauthenticated s r) rs ->
     JoinerSession_receive s g h d = (s, g, h, Ok [])) /\
  (forall r, parse_datagram d = Ok [r] -> rec_epoch (rec_header r) = 0 ->
     content_type (rec_header r) = CtChangeCipherSpec -> rec_payload r <> [1] ->
     JoinerSession_receive s g h d = (s, g, h, Err (ECrypto "invalid ChangeCipherSpec payload"))).
Proof.
  intros Hs Hb. pose proof (parse_datagram_safe d Hb) as Hp.
  split; [|split; [|split; [|intros r H; by apply plaintext_ccs_fails_session]]]; unfold JoinerSession_receive.
  - destruct (parse_datagram d) as [rs|er|f] eqn:Hd; [|by split|done].
    destruct (process_good rs (parsed_records_ok d rs Hb Hd) (mkEnv s g h []) Hs) as [H1 H2].
    destruct (process rs _) as [e r]. simpl in *. split; [by destruct r|done].
  - destruct (parse_datagram d) as [rs|er|f]; [|done|done]. intros H. by destruct (H rs).
  - intros rs -> H. by rewrite forged_records_ignored.
Qed.
End Properties.

Section Witness.
#[local] Existing Instance Toy.toy_hash.
#[local] Existing Instance Toy.toy_hash_laws.
#[local] Existing Instance Toy.toy_aead.
#[local] Existing Instance Toy.toy_aead_laws.
#[local] Existing Instance ToyCurve.toy_curve.
#[local] Existing Instance ToyCurve.toy_curve_laws.
#[local] Existing Instance ToyCurve.toy_rng.
#[local] Existing Instance ToyCurve.toy_rng_laws.

(** A forged application-data record and a handler that enables every joiner. *)
Definition forged : bytes := [23; 0xfe; 0xfd; 0; 1; 0; 0; 0; 0; 0; 9; 0; 16] ++ repeat 0 16.
Definition toy_handler : StaticJoinerHandler := enable_all StaticJoinerHandler_new (str_bytes "J01NME").

Definition toy_session := JoinerSession_new (RR := ToyCurve.toy_rng) (repeat 2 8) 1000 0x6800 (str_bytes "J01NME") 0 3.

Lemma joiner_receive_hostile_witness :
  exists s g, toy_session = Ok (s, g) /\
    JoinerSession_receive s g toy_handler forged = (s, g, toy_handler, Ok []).
Proof.
  destruct (new_session_ok (RR := ToyCurve.toy_rng) (repeat 2 8) 1000 0x6800 (str_bytes "J01NME") 0 3) as (s & g & E & Hk).
  exists s, g. split; [done|].
  destruct (joiner_receive_hostile (JH := static_joiner_handler) s g toy_handler forged) as (_ & _ & H & _); [intros km; by rewrite Hk|by_decide|].
  eapply H; [vm_compute; reflexivity|]. apply Forall_singleton. split; [by split; [|left]|].
  right. intros km. by rewrite Hk.
Defined.

(** The session drops a forged record. *)
Lemma toy_forged_run :
  exists s g, toy_session = Ok (s, g) /\
    receive_all (JH := static_joiner_handler) s g toy_handler [forged] = (s, g, toy_handler, Ok []).
Proof.
  destruct (new_session_ok (RR := ToyCurve.toy_rng) (repeat 2 8) 1000 0x6800 (str_bytes "J01NME") 0 3) as (s & g & E & Hk).
  exists s, g. split; [done|]. cbn [receive_all]. unfold JoinerSession_receive.
  destruct (parse_datagram forged) as [rs|?|?] eqn:Hp; [|done..].
  rewrite forged_records_ignored; [done|]. vm_compute in Hp. injection Hp as <-. apply Forall_singleton.
  split; [by split; [|left]|]. right. intros km. by rewrite Hk.
Qed.

Lemma joiner_session_refines_witness :
  exists s g ns, toy_session = Ok (s, g) /\
    session_trace (JH := static_joiner_handler) (joiner_id_from_iid (repeat 2 8)) (initial_view (JH := static_joiner_handler) toy_handler) [] ns (session_view (JH := static_joiner_handler) s toy_handler).
Proof.
  destruct toy_forged_run as (s & g & E & H). exists s, g.
  destruct (joiner_session_refines (RR := ToyCurve.toy_rng) (JH := static_joiner_handler) _ _ _ _ _ _ _ _ toy_handler [forged] _ _ _ _ E H) as [ns T].
  by exists ns.
Defined.

Lemma joiner_session_history_witness :
  exists s g, toy_session = Ok (s, g) /\ 0 <= server_flight_retransmissions s <= MAX_DUPLICATE_FLIGHT_RETRANSMISSIONS.
Proof.
  destruct toy_forged_run as (s & g & E & H). exists s, g.
  destruct (joiner_session_history (RR := ToyCurve.toy_rng) (JH := static_joiner_handler) _ _ _ _ _ _ _ _ toy_handler [forged] _ _ _ _ E H) as (_ & Hf & _).
  by split.
Defined.
End Witness.
