(* ===== verification/Fuzz.v ===== *)
(** * Fuzz: the fuzz targets

    The model of fuzz/fuzz_targets: thirteen functions that take any bytes, call
    a decoder and check what it returned.  A target that panics or whose check
    fails is what the fuzzer looks for; here every target is shown to pass on
    every input. *)
From S2P Require Import Prelude Text Tlv Errors Dataset Coap NetDiag Messages Record Handshake Hello Crypto Ecjpake.
From S2P Require Import Safety Joiner JoinerSafety.

(** What a target ends with: a failed expectation or assertion is its message. *)
Definition verdict : Type := result string unit.
Definition pass : verdict := Ok tt.

(** [let _ = r], [if let Ok(a) = r], [.expect(message)] and [assert_eq!]. *)
Definition discard {E A} (r : result E A) : verdict := match r with Panic f => Panic f | _ => pass end.
Definition if_ok {E A} (r : result E A) (k : A -> verdict) : verdict :=
  match r with Ok a => k a | Err _ => pass | Panic f => Panic f end.
Definition must {E A} (r : result E A) (message : string) (k : A -> verdict) : verdict :=
  match r with Ok a => k a | Err _ => Err message | Panic f => Panic f end.
Definition assert_eq {A} `{EqDecision A} (a b : A) : verdict :=
  if bool_decide (a = b) then pass else Err "assertion failed: `(left == right)`"%string.
Definition and_then (v k : verdict) : verdict := match v with Ok _ => k | e => e end.

#[global] Instance ClientHello_eq_dec : EqDecision ClientHello.
Proof. solve_decision. Defined.
#[global] Instance ServerHello_eq_dec : EqDecision ServerHello.
Proof. solve_decision. Defined.
#[global] Instance HelloVerifyRequest_eq_dec : EqDecision HelloVerifyRequest.
Proof. solve_decision. Defined.

(** ** The targets *)

Section Targets.
Context {HH : Hash} {CC : Curve}.

Definition coap_message (data : bytes) : verdict :=
  if_ok (CoapMessage_decode data) (fun message =>
    and_then (if_ok (CoapMessage_encode message) (fun encoded =>
      must (CoapMessage_decode encoded) "re-encoded CoAP must decode" (fun reparsed => assert_eq message reparsed)))
    (and_then (discard (parse_state (payload message)))
    (and_then (discard (parse_state_response message false))
    (and_then (discard (parse_petition_response message))
      (discard (parse_notification message)))))).

Definition dataset (data : bytes) : verdict :=
  if_ok (Dataset_from_bytes data) (fun dataset =>
    and_then (discard (Dataset_channel dataset))
    (and_then (discard (Dataset_pan_id dataset))
    (and_then (discard (Dataset_extended_pan_id dataset))
    (and_then (discard (Dataset_network_key dataset))
    (and_then (discard (Dataset_mesh_local_prefix dataset))
    (and_then (discard (Dataset_network_name dataset))
    (and_then (discard (Dataset_active_timestamp dataset))
    (and_then (discard (Dataset_pending_timestamp dataset))
    (and_then (discard (Dataset_delay_timer dataset))
    (and_then (discard (Dataset_security_policy dataset))
    (and_then (discard (Dataset_channel_mask dataset))
      (discard (Dataset_to_bytes dataset))))))))))))).

Definition dtls_client_hello (data : bytes) : verdict :=
  if_ok (ClientHello_decode data) (fun hello =>
    if_ok (ClientHello_encode hello) (fun encoded =>
      must (ClientHello_decode encoded) "re-encoded ClientHello must decode" (fun reparsed => assert_eq hello reparsed))).

Definition dtls_handshake (data : bytes) : verdict :=
  and_then (discard (HandshakeHeader_parse data))
  (and_then (if_ok (HandshakeFragment_parse data) (fun fragment =>
    must (HandshakeFragment_encode fragment) "parsed fragment must re-encode" (fun encoded =>
      must (@slice_to DtlsError _ data (len encoded)) "" (fun head =>
        and_then (assert_eq encoded head)
          (discard (HandshakeReassembler_push HandshakeReassembler_default fragment).2)))))
  (if_ok (DtlsRecord_new CtHandshake 0 0 data) (fun record =>
    discard (parse_unfragmented_handshake_messages record)))).

Definition dtls_hello_verify (data : bytes) : verdict :=
  if_ok (HelloVerifyRequest_decode data) (fun message =>
    if_ok (HelloVerifyRequest_encode message) (fun encoded =>
      must (HelloVerifyRequest_decode encoded) "re-encoded HelloVerifyRequest must decode"
        (fun reparsed => assert_eq message reparsed))).

(** The loop over the records of a datagram. *)
Fixpoint reencode (records : list DtlsRecord) (reencoded : bytes) (k : bytes -> verdict) : verdict :=
  match records with
  | [] => k reencoded
  | record :: records =>
      must (DtlsRecord_encode record) "parsed record must re-encode" (fun encoded => reencode records (reencoded ++ encoded) k)
  end.
Definition dtls_record (data : bytes) : verdict :=
  and_then (discard (RecordHeader_parse data))
  (if_ok (parse_datagram data) (fun records =>
    reencode records [] (fun reencoded =>
      must (parse_datagram reencoded) "re-encoded datagram must re-parse" (fun reparsed => assert_eq records reparsed)))).

Definition dtls_server_hello (data : bytes) : verdict :=
  if_ok (ServerHello_decode data) (fun hello =>
    if_ok (ServerHello_encode hello) (fun encoded =>
      must (ServerHello_decode encoded) "re-encoded ServerHello must decode" (fun reparsed => assert_eq hello reparsed))).

Definition ecjpake_key_exchange (data : bytes) : verdict :=
  and_then (discard (decode_tls_key_exchange data THREAD_SERVER_ID true))
    (discard (decode_tls_key_exchange data THREAD_CLIENT_ID false)).
Definition ecjpake_kkpp (data : bytes) : verdict :=
  and_then (discard (decode_tls_kkpp data THREAD_CLIENT_ID)) (discard (decode_tls_kkpp data THREAD_SERVER_ID)).

Definition join_fin (data : bytes) : verdict := discard (JoinerFinalizeInfo_from_payload data).
Definition net_diag_data (data : bytes) : verdict := discard (NetDiagData_decode data).

Definition tlv_set (data : bytes) : verdict :=
  and_then (discard (parse_one data))
  (if_ok (TlvSet_parse data) (fun set =>
    if_ok (TlvSet_encode set) (fun encoded =>
      must (TlvSet_parse encoded) "re-encoded TlvSet must parse" (fun reparsed => assert_eq set reparsed)))).

Definition udp_rx (data : bytes) : verdict :=
  if_ok (CoapMessage_decode data) (fun message =>
    match parse_udp_rx message with
    | Ok (Some udp_rx) => discard (CoapMessage_decode (udp_payload udp_rx))
    | Panic f => Panic f
    | _ => pass
    end).

Definition fuzz_targets : list (bytes -> verdict) :=
  [coap_message; dataset; dtls_client_hello; dtls_handshake; dtls_hello_verify; dtls_record; dtls_server_hello;
   ecjpake_key_exchange; ecjpake_kkpp; join_fin; net_diag_data; tlv_set; udp_rx].
End Targets.

(** ** Checks that pass *)

Lemma discard_pass {E A} (r : result E A) : safe r -> discard r = pass.
Proof. by destruct r. Qed.
Lemma if_ok_pass {E A} (r : result E A) k : safe r -> (forall a, r = Ok a -> k a = pass) -> if_ok r k = pass.
Proof. destruct r; intros Hs Hk; [by apply Hk|done|done]. Qed.
Lemma must_ok {E A} (r : result E A) message k a : r = Ok a -> must r message k = k a.
Proof. by intros ->. Qed.
Lemma assert_eq_refl {A} `{EqDecision A} (a : A) : assert_eq a a = pass.
Proof. unfold assert_eq. by rewrite bool_decide_true. Qed.
Lemma and_then_pass v k : v = pass -> k = pass -> and_then v k = pass.
Proof. by intros -> ->. Qed.
#[local] Hint Resolve discard_pass and_then_pass : fuzz.

(** A round trip that a target checks. *)
Lemma reencodes {E E' A} `{EqDecision A} (a : A) (encoded : result E bytes) (decode : bytes -> result E' A) message :
  safe encoded -> (forall b, encoded = Ok b -> decode b = Ok a) ->
  if_ok encoded (fun b => must (decode b) message (fun reparsed => assert_eq a reparsed)) = pass.
Proof. intros Hs Hd. apply if_ok_pass; [done|]. intros b Hb. by rewrite (must_ok _ _ _ _ (Hd b Hb)), assert_eq_refl. Qed.

(** ** Decoded hellos are well formed *)

(** A read of a decoder that succeeded, with what is left. *)
Lemma reads_left {A B} (P : A -> Prop) k c (r : result DtlsError (A * Cursor)) (f : A -> Cursor -> result DtlsError B) b :
  reads P k c r -> (let! '(a, c') := r in f a c') = Ok b ->
  exists a c', r = Ok (a, c') /\ P a /\ cur_ok c' /\ remaining c' + k <= remaining c /\ f a c' = Ok b.
Proof. destruct r as [[a c']|e|p]; simpl; [|done|done]. intros (? & ? & ?) Hf. by exists a, c'. Qed.

Lemma read_vec_u16_short c : cur_ok c ->
  match read_vec_u16 c with Ok (v, c') => remaining c' + 2 + len v <= remaining c /\ len v <= 65535 | _ => True end.
Proof.
  intros Hc. unfold read_vec_u16. destruct (Cursor_read_u16 c) as [[n c1]|e|f] eqn:En; cbn [rbind]; [|done..].
  pose proof (read_u16_reads c Hc) as H. rewrite En in H. destruct H as ([? ?] & Hc1 & Hr).
  pose proof (read_exact_reads c1 n Hc1 ltac:(done)) as H'. destruct (read_exact c1 n) as [[v c2]|e|f]; [|done..].
  destruct H' as ((_ & Hl) & _ & Hr'). lia.
Qed.
Lemma read_32_len c : cur_ok c -> reads (fun v => bytes_ok v /\ len v = 32) 32 c (read_array_32 c).
Proof. intros Hc. unfold read_array_32. by apply read_exact_reads. Qed.

Lemma remaining_nonneg c : cur_ok c -> 0 <= remaining c.
Proof. intros [[? ?] _]. unfold remaining. lia. Qed.
Lemma read_extension_list_wf fuel c l : cur_ok c -> read_extension_list fuel c = Ok l ->
  Forall ext_wf l /\ len (exts_bytes l) <= remaining c.
Proof.
  revert c l. induction fuel as [|fuel IH]; intros c l Hc; cbn [read_extension_list]; rewrite Z.gtb_ltb.
  - case_match; [done|]. intros [= <-]. split; [constructor|by apply remaining_nonneg].
  - case_match; zbool; [|intros [= <-]; split; [constructor|by apply remaining_nonneg]].
    intros H1. apply (reads_left _ _ _ _ _ _ (read_u16_reads c Hc)) in H1 as (ty & c1 & _ & Hty & Hc1 & Hr1 & H2).
    pose proof (read_vec_u16_short c1 Hc1) as Hsh.
    apply (reads_left _ _ _ _ _ _ (read_vec_u16_reads c1 Hc1)) in H2 as (d & c2 & Ed & Hd & Hc2 & _ & H3).
    rewrite Ed in Hsh. apply rbind_ok in H3 as (rest & Hrest & [= <-]). destruct (IH c2 rest Hc2 Hrest) as [Hw Hl].
    destruct Hsh as [Hs1 Hs2]. split; [constructor; [by split_and!|done]|]. change (exts_bytes (?e :: rest)) with (ext_bytes e ++ exts_bytes rest).
    rewrite len_app. unfold ext_bytes. cbn [extension_type ext_data]. rewrite !len_app, !len_to_be. lia.
Qed.

Lemma read_extensions_wf c l c' : cur_ok c -> read_extensions c = Ok (l, c') -> exts_wf l.
Proof.
  intros Hc. unfold read_extensions. case_match; [intros [= <- <-]; by split|]. intros H1.
  pose proof (read_vec_u16_short c Hc) as Hsh.
  apply (reads_left _ _ _ _ _ _ (read_vec_u16_reads c Hc)) in H1 as (d & c2 & Ed & Hd & Hc2 & _ & H3).
  rewrite Ed in Hsh. apply rbind_ok in H3 as (rest & Hrest & [= <- _]).
  apply read_extension_list_wf in Hrest as [Hw Hl]; [|by apply cur_ok_new]. split; [done|].
  unfold remaining, Cursor_new in Hl. cbn in Hl. lia.
Qed.

Lemma chunk_suites cs suites : Forall (fun c => len c = 2) cs -> bytes_ok (concat cs) ->
  mapM_result (E := DtlsError) (fun suite => let! s0 := idx suite 0 in let! s1 := idx suite 1 in Ok (from_be [s0; s1])) cs = Ok suites ->
  Forall is_u16 suites /\ 2 * len suites = len (concat cs).
Proof.
  intros Hc. revert suites. induction Hc as [|c cs Hlen Hc IH]; intros suites Hv H; cbn [mapM_result concat] in *.
  { injection H as <-. by split; [constructor|]. }
  apply Forall_app in Hv as [Hvc Hvs]. apply rbind_ok in H as (x & Hx & H). apply rbind_ok in H as (xs & Hxs & [= <-]).
  destruct (IH xs Hvs Hxs) as [H1 H2]. rewrite len_app, len_cons, Hlen. split; [|lia]. constructor; [|done].
  destruct c as [|a [|b c]]; [done..|]. rewrite !Forall_cons in Hvc. destruct Hvc as (Ha & Hb & _).
  revert Hx. eval_idx. intros [= <-]. by apply uint16_pair.
Qed.

Ltac left_of lem H x c Hx Hc :=
  eapply reads_left in H as (x & c & _ & Hx & Hc & _ & H); [|by apply lem].

Lemma ClientHello_decode_wf bs h : bytes_ok bs -> ClientHello_decode bs = Ok h -> client_hello_wf h.
Proof.
  intros Hok H. unfold ClientHello_decode in H. pose proof (cur_ok_new bs Hok) as C0.
  left_of read_u16_reads H v c1 Hv C1. case_match; [done|]. left_of read_32_len H r c2 Hr C2.
  left_of read_vec_u8_short H sid c3 Hsid C3. left_of read_vec_u8_short H ck c4 Hck C4.
  pose proof (read_vec_u16_short c4 C4) as Hsh.
  eapply reads_left in H as (cb & c5 & Ecb & Hcb & C5 & _ & H); [|by apply read_vec_u16_reads]. rewrite Ecb in Hsh.
  case_match eqn:Em; [done|]. zbool. apply rbind_ok in H as (su & Hsu & H).
  left_of read_vec_u8_short H ms c6 Hms C6. apply rbind_ok in H as ([es c7] & He & H). apply rbind_ok in H as ([] & _ & [= <-]).
  apply chunk_suites in Hsu as [Hsu Hl]; [|apply chunks_exact_len|by rewrite chunks_exact_concat].
  rewrite chunks_exact_concat in Hl by (done || lia).
  unfold client_hello_wf. cbn [ch_random ch_session_id ch_cookie cipher_suites compression_methods ch_extensions].
  apply read_extensions_wf in He; [|done]. cbv beta in *. split_and!; try tauto; lia.
Qed.

Lemma ServerHello_decode_wf bs h : bytes_ok bs -> ServerHello_decode bs = Ok h -> server_hello_wf h.
Proof.
  intros Hok H. unfold ServerHello_decode in H. pose proof (cur_ok_new bs Hok) as C0.
  left_of read_u16_reads H v c1 Hv C1. case_match; [done|]. left_of read_32_len H r c2 Hr C2.
  left_of read_vec_u8_short H sid c3 Hsid C3. left_of read_u16_reads H su c4 Hsu C4. left_of read_u8_reads H me c5 Hme C5.
  apply rbind_ok in H as ([es c7] & He & H). apply rbind_ok in H as ([] & _ & [= <-]).
  apply read_extensions_wf in He; [|done]. unfold server_hello_wf. cbn [sh_random sh_session_id cipher_suite compression_method sh_extensions].
  cbv beta in *. split_and!; tauto.
Qed.

Lemma HelloVerifyRequest_decode_wf bs h : bytes_ok bs -> HelloVerifyRequest_decode bs = Ok h ->
  is_u16 (server_version h) /\ len (hv_cookie h) <= 255.
Proof.
  intros Hok H. unfold HelloVerifyRequest_decode in H. pose proof (cur_ok_new bs Hok) as C0.
  left_of read_u16_reads H v c1 Hv C1. left_of read_vec_u8_short H ck c2 Hck C2. apply rbind_ok in H as ([] & _ & [= <-]).
  split; [done|apply Hck].
Qed.

(** ** One fragment *)

(** A fragment that was parsed re-encodes to the bytes it was parsed from. *)
Lemma HandshakeFragment_encode_parsed data f : bytes_ok data -> HandshakeFragment_parse data = Ok f ->
  exists b rest, HandshakeFragment_encode f = Ok b /\ data = b ++ rest.
Proof.
  intros Hok H. apply HandshakeFragment_parse_inv in H as (Hw & Hl & Hb & rest & -> & _); [|done].
  exists (hs_header_bytes (hs_header f) ++ fragment f), rest. rewrite <- app_assoc. split; [|done].
  unfold HandshakeFragment_encode. rewrite Hl, Z.eqb_refl. cbn [negb]. by rewrite HandshakeHeader_encode_ok.
Qed.

Lemma push_bytes_safe position bs self :
  length (ra_filled self) = length (ra_bytes self) -> (position + length bs <= length (ra_bytes self))%nat ->
  safe (push_bytes position bs self).2.
Proof.
  revert position self. induction bs as [|b bs IH]; intros position self Hf Hp; cbn [push_bytes length] in *; [done|].
  destruct (lookup_lt_is_Some_2 (ra_filled self) position ltac:(lia)) as [x ->].
  destruct (lookup_lt_is_Some_2 (ra_bytes self) position ltac:(lia)) as [y ->].
  case_match; [done|]. apply IH; cbn [ra_filled ra_bytes]; rewrite ?length_insert; lia.
Qed.

Lemma first_push_safe f : 0 <= fragment_offset (hs_header f) -> safe (HandshakeReassembler_push HandshakeReassembler_default f).2.
Proof.
  intros Ho. unfold HandshakeReassembler_push, initialize_or_validate, HandshakeReassembler_default. cbn [ra_type ra_seq].
  destruct (hs_length (hs_header f) >? MAX_HANDSHAKE_MESSAGE_LEN); [done|]. cbn [ra_bytes ra_filled].
  destruct (_ >? _) eqn:E; [done|]. rewrite Z.gtb_ltb in E. zbool.
  match goal with |- context [push_bytes ?n ?b ?st] => pose proof (push_bytes_safe n b st) as Hs end.
  cbn [ra_bytes ra_filled] in Hs. rewrite !repeat_length in Hs. unfold len in E. rewrite repeat_length in E.
  specialize (Hs eq_refl ltac:(lia)).
  destruct (push_bytes _ _ _) as [st [u|e|p]]; [|done|done]. cbn [snd]. case_match; [|done].
  apply safe_bind; [apply safe_ok_or|intros t _]. apply safe_bind; [apply safe_ok_or|done].
Qed.

(** ** Properties *)

Section Properties.
Context {HH : Hash} {CC : Curve}.

#[local] Ltac checks := repeat (apply and_then_pass; [apply discard_pass|]).

Lemma coap_message_passes data : bytes_ok data -> coap_message data = pass.
Proof.
  intros Hd. pose proof (coap_decode_total data Hd) as [Hs Hm]. apply if_ok_pass; [done|]. intros m Em.
  destruct (Hm m Em) as (Hw & _ & b & Eb & Hb). assert (bytes_ok (payload m)) as Hp by apply Hw.
  apply and_then_pass.
  { apply reencodes; [by rewrite Eb|]. rewrite Eb. by intros ? [= <-]. }
  checks; [by apply parse_state_safe|by apply parse_state_response_safe|by apply parse_petition_response_safe|].
  by apply discard_pass, parse_notification_safe.
Qed.

Lemma dataset_passes data : bytes_ok data -> dataset data = pass.
Proof.
  intros Hd. apply if_ok_pass; [apply safe_bind; [by apply safe_from_tlv, TlvSet_parse_safe|done]|].
  intros d Ed. apply rbind_ok in Ed as (s & Hs%from_tlv_ok & [= <-]).
  pose proof (TlvSet_parse_wf _ _ Hd Hs) as Hw.
  checks; repeat first [apply safe_from_tlv|apply safe_map_transpose; intros ? ?]; auto with meshcop;
    try apply Channel_parse_safe; try apply read_array_safe; try apply Timestamp_parse_safe; try apply SecurityPolicy_parse_safe;
    try apply safe_ok_or.
  - apply ChannelMaskEntry_parse_all_safe. by eapply last_value_wf.
  - apply discard_pass. unfold Dataset_to_bytes. cbn [tlvs]. by rewrite TlvSet_encode_ok.
Qed.

Lemma client_hello_passes data : bytes_ok data -> dtls_client_hello data = pass.
Proof.
  intros Hd. apply if_ok_pass; [by apply ClientHello_decode_safe|]. intros h Hh%ClientHello_decode_wf; [|done].
  apply reencodes; rewrite ClientHello_encode_ok by done; [done|]. intros b [= <-]. by apply ClientHello_decode_bytes.
Qed.
Lemma server_hello_passes data : bytes_ok data -> dtls_server_hello data = pass.
Proof.
  intros Hd. apply if_ok_pass; [by apply ServerHello_decode_safe|]. intros h Hh%ServerHello_decode_wf; [|done].
  apply reencodes; rewrite ServerHello_encode_ok by done; [done|]. intros b [= <-]. by apply ServerHello_decode_bytes.
Qed.
Lemma hello_verify_passes data : bytes_ok data -> dtls_hello_verify data = pass.
Proof.
  intros Hd. apply if_ok_pass; [by apply HelloVerifyRequest_decode_safe|]. intros [v c] [Hv Hc]%HelloVerifyRequest_decode_wf; [|done].
  destruct (proj1 (proj2 (proj2 hello_codecs)) (mkHelloVerifyRequest v c) Hv Hc) as (b & Eb & Db).
  apply reencodes; rewrite Eb; [done|]. by intros ? [= <-].
Qed.

Lemma handshake_passes data : bytes_ok data -> dtls_handshake data = pass.
Proof.
  intros Hd. checks; [by apply HandshakeHeader_parse_safe|]. apply and_then_pass.
  - apply if_ok_pass; [by apply HandshakeFragment_parse_safe|]. intros f Hf.
    pose proof (HandshakeFragment_parse_inv _ _ Hd Hf) as (Hw & _).
    destruct (HandshakeFragment_encode_parsed data f Hd Hf) as (b & rest & Eb & ->).
    rewrite (must_ok _ _ _ _ Eb). pose proof (len_nonneg b). pose proof (len_nonneg rest).
    rewrite (must_ok _ _ _ b).
    + apply and_then_pass; [apply assert_eq_refl|]. apply discard_pass, first_push_safe, Hw.
    + unfold slice_to, slice. rewrite len_app, !(proj2 (Z.leb_le _ _)) by lia. cbn [andb].
      by rewrite Z.sub_0_r, drop_0, to_nat_len, take_app_length.
  - apply if_ok_pass; [apply record_new_safe|]. intros r Hr. apply discard_pass, parse_messages_safe.
    unfold DtlsRecord_new in Hr. apply rbind_ok in Hr as (n & _ & [= <-]). exact Hd.
Qed.

Lemma reencode_all rs out k : Forall record_wf rs -> exists b, encode_datagram rs = Ok b /\ reencode rs out k = k (out ++ b).
Proof.
  intros H. exists (concat (map record_bytes rs)). split; [by apply encode_datagram_ok|]. revert out.
  induction H as [|r rs Hr _ IH]; intros out; cbn [reencode map concat]; [by rewrite app_nil_r|].
  rewrite (must_ok _ _ _ (record_bytes r)) by (destruct Hr as (_ & _ & Hl); unfold DtlsRecord_encode; by rewrite Hl, Z.eqb_refl). by rewrite IH, <- app_assoc.
Qed.
Lemma record_passes data : bytes_ok data -> dtls_record data = pass.
Proof.
  intros Hd. checks; [apply RecordHeader_parse_safe|]. destruct datagram_codec_exact as [_ H].
  destruct (H data Hd) as [Hs Hr]. apply if_ok_pass; [done|]. intros rs Ers. destruct (Hr rs Ers) as [Hw Eb].
  destruct (reencode_all rs [] (fun reencoded => must (parse_datagram reencoded) "re-encoded datagram must re-parse"
    (fun reparsed => assert_eq rs reparsed)) Hw) as (b & Eb' & ->). rewrite Eb in Eb'. injection Eb' as <-.
  cbn [app]. by rewrite (must_ok _ _ _ _ Ers), assert_eq_refl.
Qed.

Lemma tlv_set_passes data : bytes_ok data -> tlv_set data = pass.
Proof.
  intros Hd. checks; [by apply parse_one_safe|]. destruct (tlv_parse_total_canonical data Hd) as [Hs Hc].
  apply if_ok_pass; [done|]. intros s Es. destruct (Hc s Es) as (_ & b & Eb & _ & Pb).
  apply reencodes; rewrite Eb; [done|]. by intros ? [= <-].
Qed.

Lemma udp_rx_passes data : bytes_ok data -> udp_rx data = pass.
Proof.
  intros Hd. pose proof (coap_decode_total data Hd) as [Hs Hm]. apply if_ok_pass; [done|]. intros m Em.
  destruct (Hm m Em) as (Hw & _). assert (bytes_ok (payload m)) as Hp by apply Hw.
  pose proof (parse_udp_rx_safe m Hp) as Hu. destruct (parse_udp_rx m) as [[u|]|e|f] eqn:Eu; [|done..].
  apply discard_pass, coap_decode_total. by eapply parse_udp_rx_ok.
Qed.

(** C8: the fuzz targets pass.  Whatever bytes a target of fuzz/fuzz_targets is
    given, it does not panic and none of its expectations fails: no decoder of
    the CoAP, TLV, dataset, diagnostics, joiner, record, handshake, hello and
    EC J-PAKE formats panics on any input, and what the CoAP, TLV, record, hello
    and fragment decoders accept re-encodes to bytes that decode to the same
    value, a fragment to the bytes it was read from. *)
Theorem fuzz_targets_pass data : bytes_ok data -> Forall (fun target => target data = pass) fuzz_targets.
Proof.
  intros Hd. unfold fuzz_targets.
  repeat (apply Forall_cons_2; [first
    [by apply coap_message_passes|by apply dataset_passes|by apply client_hello_passes|by apply handshake_passes
    |by apply hello_verify_passes|by apply record_passes|by apply server_hello_passes
    |by apply and_then_pass; apply discard_pass, decode_key_exchange_safe|by apply and_then_pass; apply discard_pass, decode_kkpp_safe
    |by apply discard_pass, from_payload_safe|by apply discard_pass, NetDiagData_decode_safe
    |by apply tlv_set_passes|by apply udp_rx_passes]|]); constructor.
Qed.
End Properties.

(** A CoAP acknowledgement with an option and a payload marker but no payload. *)
Lemma fuzz_targets_pass_witness :
  Forall (fun target => target [0x44; 2; 0; 1; 9; 9; 9; 9; 0xb1; 99; 0xff] = pass)
    (@fuzz_targets Toy.toy_hash ToyCurve.toy_curve).
Proof. apply (@fuzz_targets_pass Toy.toy_hash ToyCurve.toy_curve). by_decide. Defined.
