(* ===== verification/Commissioner.v ===== *)
(** * Commissioner: the vocabulary of a commissioner session

    The model of crates/meshcop/src/commissioner/types.rs and config.rs, of the
    bookkeeping of client/driver/exchange.rs ([Exchanges], retransmission
    schedules) and of client/driver/duplicates.rs ([AnsweredMessages]), and of
    the helpers of client/mod.rs.  A [Duration] or [Instant] is a number of
    nanoseconds, a [oneshot::Sender] the number of its channel, and
    [Result<T>] is [Error + T]. *)
From stdpp Require Import gmap.
From S2P Require Import Prelude Text Tlv Errors Dataset Coap NetDiag Messages Joiner.
From S2P Require Import Pskc.

(** The monotonic clock: each [Instant::now] advances it by the next of
    [ticks], the time the program took since the last one. *)
Record Clock := mkClock { clock_now : Z; ticks : list Z }.
Definition instant_now (c : Clock) : Z * Clock :=
  match ticks c with
  | [] => (clock_now c, c)
  | t :: ts => let now := clock_now c + t in (now, mkClock now ts)
  end.

Definition seconds (n : Z) : Z := n * 1000000000.
Definition millis (n : Z) : Z := n * 1000000.

(** ** types.rs *)

Inductive SessionStatus :=
  | Connected
  | Idle
  | Petitioning
  | Active (session_id : Z)
  | Closed (reason : CloseReason).
#[global] Instance SessionStatus_eq_dec : EqDecision SessionStatus.
Proof. solve_decision. Defined.

Definition SessionStatus_session_id (self : SessionStatus) : option Z :=
  match self with Active session_id => Some session_id | _ => None end.
Definition is_active (self : SessionStatus) : bool :=
  match self with Active _ => true | _ => false end.

Inductive Destination :=
  | BorderAgent
  | Mesh (address : Ipv6Addr) (port : Z).
#[global] Instance Destination_eq_dec : EqDecision Destination.
Proof. solve_decision. Defined.

Inductive ResultCode := RcAccept | RcReject | RcPending.

(** [JoinerSession] keys and identifiers are eight bytes. *)
Inductive CommissionerEvent :=
  | EvSessionLost (reason : CloseReason)
  | EvLagged (missed : Z)
  | EvKeepAliveResponse (code : ResultCode)
  | EvDatasetChanged
  | EvPanIdConflict (peer_addr : string) (channel_mask pan_id : Z)
  | EvEnergyReport (peer_addr : string) (channel_mask : Z) (energy_list : bytes)
  | EvJoinerMessage (joiner_id : bytes) (port : Z) (payload : bytes)
  | EvDiagnosticAnswer (peer_addr : string) (data : NetDiagData)
  | EvJoinerConnected (joiner_id : bytes)
  | EvJoinerFinalized (joiner_id : bytes) (accepted : bool) (info : JoinerFinalizeInfo).

Record PetitionResponse := mkPetitionResponse {
  pr_session_id : Z;
  pr_existing_commissioner_id : option bytes }.

(** ** config.rs *)

Definition MIN_KEEPALIVE_INTERVAL : Z := seconds 30.
Definition MAX_KEEPALIVE_INTERVAL : Z := seconds 45.
Definition DEFAULT_KEEPALIVE_INTERVAL : Z := seconds 40.
Definition DEFAULT_DOMAIN_NAME : bytes := str_bytes "Thread".
Definition DEFAULT_EVENT_CAPACITY : Z := 64.

Inductive KeepAlive := Automatic | Manual.
#[global] Instance KeepAlive_eq_dec : EqDecision KeepAlive.
Proof. solve_decision. Defined.

Record CommissionerConfig := mkCommissionerConfig {
  cfg_commissioner_id : bytes;
  cfg_pskc : bytes;
  keepalive_interval : Z;
  keep_alive : KeepAlive;
  event_capacity : Z;
  domain_name : bytes;
  enable_ccm : bool }.

Definition CommissionerConfig_pskc (commissioner_id pskc : bytes) : CommissionerConfig :=
  mkCommissionerConfig commissioner_id pskc DEFAULT_KEEPALIVE_INTERVAL Automatic DEFAULT_EVENT_CAPACITY
    DEFAULT_DOMAIN_NAME false.
Definition CommissionerConfig_from_dataset (commissioner_id : bytes) (dataset : Dataset) : result Error CommissionerConfig :=
  map_ok (CommissionerConfig_pskc commissioner_id) (pskc_from_active_dataset dataset).

Definition validate (self : CommissionerConfig) : result Error unit :=
  if negb ((MIN_KEEPALIVE_INTERVAL <=? keepalive_interval self) && (keepalive_interval self <=? MAX_KEEPALIVE_INTERVAL))
  then Err (EConfiguration "keepalive interval must be between 30 and 45 seconds")
  else if event_capacity self =? 0 then Err (EConfiguration "event capacity must be non-zero")
  else Ok tt.

Record CommissionerConfigBuilder := mkCommissionerConfigBuilder {
  cb_commissioner_id : bytes;
  cb_pskc : option bytes;
  cb_keepalive_interval : Z;
  cb_keep_alive : KeepAlive;
  cb_event_capacity : Z;
  cb_domain_name : bytes;
  cb_enable_ccm : bool }.

Definition CommissionerConfigBuilder_new (commissioner_id : bytes) : CommissionerConfigBuilder :=
  mkCommissionerConfigBuilder commissioner_id None DEFAULT_KEEPALIVE_INTERVAL Automatic DEFAULT_EVENT_CAPACITY
    DEFAULT_DOMAIN_NAME false.
Definition builder_pskc (pskc : bytes) (b : CommissionerConfigBuilder) : CommissionerConfigBuilder :=
  mkCommissionerConfigBuilder (cb_commissioner_id b) (Some pskc) (cb_keepalive_interval b) (cb_keep_alive b)
    (cb_event_capacity b) (cb_domain_name b) (cb_enable_ccm b).
Definition builder_from_dataset (dataset : Dataset) (b : CommissionerConfigBuilder) : result Error CommissionerConfigBuilder :=
  map_ok (fun pskc => builder_pskc pskc b) (pskc_from_active_dataset dataset).
Definition builder_keepalive_interval (d : Z) (b : CommissionerConfigBuilder) : CommissionerConfigBuilder :=
  mkCommissionerConfigBuilder (cb_commissioner_id b) (cb_pskc b) d (cb_keep_alive b) (cb_event_capacity b)
    (cb_domain_name b) (cb_enable_ccm b).
Definition builder_keep_alive (k : KeepAlive) (b : CommissionerConfigBuilder) : CommissionerConfigBuilder :=
  mkCommissionerConfigBuilder (cb_commissioner_id b) (cb_pskc b) (cb_keepalive_interval b) k (cb_event_capacity b)
    (cb_domain_name b) (cb_enable_ccm b).
Definition builder_event_capacity (n : Z) (b : CommissionerConfigBuilder) : CommissionerConfigBuilder :=
  mkCommissionerConfigBuilder (cb_commissioner_id b) (cb_pskc b) (cb_keepalive_interval b) (cb_keep_alive b) n
    (cb_domain_name b) (cb_enable_ccm b).
Definition builder_domain_name (d : bytes) (b : CommissionerConfigBuilder) : CommissionerConfigBuilder :=
  mkCommissionerConfigBuilder (cb_commissioner_id b) (cb_pskc b) (cb_keepalive_interval b) (cb_keep_alive b)
    (cb_event_capacity b) d (cb_enable_ccm b).
Definition builder_enable_ccm (e : bool) (b : CommissionerConfigBuilder) : CommissionerConfigBuilder :=
  mkCommissionerConfigBuilder (cb_commissioner_id b) (cb_pskc b) (cb_keepalive_interval b) (cb_keep_alive b)
    (cb_event_capacity b) (cb_domain_name b) e.

Definition build (b : CommissionerConfigBuilder) : result Error CommissionerConfig :=
  let! pskc := ok_or (cb_pskc b) (EConfiguration "a PSKc is required") in
  let config := mkCommissionerConfig (cb_commissioner_id b) pskc (cb_keepalive_interval b) (cb_keep_alive b)
                  (cb_event_capacity b) (cb_domain_name b) (cb_enable_ccm b) in
  let! _ := validate config in
  Ok config.

(** ** client/mod.rs *)

Record PrefixCache := mkPrefixCache { prefix : option bytes; generation : Z }.
Definition PrefixCache_default : PrefixCache := mkPrefixCache None 0.
Definition invalidate_mesh_local_prefix (cache : PrefixCache) : PrefixCache :=
  mkPrefixCache None (wrapping_add 64 (generation cache) 1).

Definition aloc_address (mesh_local_prefix : bytes) (aloc16 : Z) : Ipv6Addr :=
  mesh_local_prefix ++ [0x00; 0x00; 0x00; 0xff; 0xfe; 0x00] ++ to_be 2 aloc16.

Fixpoint require_dataset_tlvs (dataset : Dataset) (required : list (Z * string)) : result Error unit :=
  match required with
  | [] => Ok tt
  | (ty, name) :: required =>
      match Dataset_raw dataset ty with
      | None => Err (EDataset (name +:+ " TLV is mandatory"))
      | Some _ => require_dataset_tlvs dataset required
      end
  end.

Definition strip_managed_commissioner_tlvs (dataset : Dataset) : Dataset :=
  Dataset_remove_all (Dataset_remove_all dataset TLV_COMMISSIONER_SESSION_ID) TLV_BORDER_AGENT_LOCATOR.

Definition check_state_response (response : CoapMessage) (state_mandatory : bool) : result Error unit :=
  let! state := parse_state_response response state_mandatory in
  match state with
  | None | Some Accept => Ok tt
  | Some Pending => Err (EInvalidState "MeshCoP response is pending")
  | Some Reject => Err (EInvalidState "MeshCoP request was rejected")
  end.

Definition require_success_response (response : CoapMessage) : result Error CoapMessage :=
  let class := Z.shiftr (coap_code response) 5 in
  if (class =? 4) || (class =? 5) then Err (EInvalidState "MeshCoP exchange returned a CoAP error response")
  else Ok response.

Definition COAP_EXCHANGE_TIMEOUT : Z := seconds 12.
Definition SESSION_REPLACEMENT_MARGIN : Z := seconds 3.
Definition DTLS_HANDSHAKE_TIMEOUT : Z := MIN_KEEPALIVE_INTERVAL - COAP_EXCHANGE_TIMEOUT - SESSION_REPLACEMENT_MARGIN.

Definition result_code_from_meshcop_state (state : MeshcopState) : ResultCode :=
  match state with Accept => RcAccept | Pending => RcPending | Reject => RcReject end.

(** ** exchange.rs: requests and their bookkeeping *)

Definition COAP_ACK_TIMEOUT : Z := seconds 2.
Definition COAP_ACK_RANDOM_WINDOW_MILLIS : Z := 1000.
Definition COAP_MAX_RETRANSMIT : Z := 2.
Definition MAX_APPLICATION_IN_FLIGHT : Z := 1.
Definition TOKEN_LENGTH : Z := 4.
Definition COAP_RESET_ERROR : string := "CoAP request was reset by the peer".
(** The longest [Duration]. *)
Definition MAX_DURATION : Z := 2 ^ 64 * 1000000000 - 1.

Record CoapRetransmitSchedule := mkSchedule { sched_timeout : Z; retransmissions : Z }.

Definition CoapRetransmitSchedule_new (timeout : Z) : CoapRetransmitSchedule := mkSchedule timeout 0.
(** [random] is the generator's [next_u32]. *)
Definition randomized (random : Z) : CoapRetransmitSchedule :=
  let jitter := random mod (COAP_ACK_RANDOM_WINDOW_MILLIS + 1) in
  CoapRetransmitSchedule_new (COAP_ACK_TIMEOUT + millis jitter).
Definition schedule_timeout (self : CoapRetransmitSchedule) : option Z :=
  if retransmissions self <? COAP_MAX_RETRANSMIT then Some (sched_timeout self) else None.
Definition record_retransmission (self : CoapRetransmitSchedule) : CoapRetransmitSchedule :=
  mkSchedule (Z.min (sched_timeout self * 2) MAX_DURATION) (saturating_add 8 (retransmissions self) 1).

Record Outbound := mkOutbound {
  ob_message : CoapMessage;
  ob_destination : Destination;
  expect_response : bool;
  ob_label : string }.

Inductive Completion :=
  | CCaller (id : Z) (reply : nat)
  | CPetition (reply : nat)
  | CKeepAlive (reply : option nat)
  | CResign (reply : option nat).

Definition is_application (self : Completion) : bool := match self with CCaller _ _ => true | _ => false end.
Definition is_caller (id : Z) (self : Completion) : bool :=
  match self with CCaller caller _ => caller =? id | _ => false end.

Record PendingExchange := mkPending {
  request : CoapMessage;
  destination : Destination;
  label : string;
  retransmit : option CoapRetransmitSchedule;
  retry_at : option Z;
  deadline : Z;
  completion : Completion }.

Definition set_retry_at (v : option Z) (p : PendingExchange) : PendingExchange :=
  mkPending (request p) (destination p) (label p) (retransmit p) v (deadline p) (completion p).
Definition set_retransmit (v : option CoapRetransmitSchedule) (p : PendingExchange) : PendingExchange :=
  mkPending (request p) (destination p) (label p) v (retry_at p) (deadline p) (completion p).

Definition is_proxied (self : PendingExchange) : bool :=
  match destination self with Mesh _ _ => true | BorderAgent => false end.

Record Exchanges := mkExchanges {
  in_flight : list PendingExchange;
  queued : list (Outbound * Completion) }.

Definition Exchanges_default : Exchanges := mkExchanges [] [].

Definition application_in_flight (self : Exchanges) : Z :=
  len (List.filter (fun pending => is_application (completion pending)) (in_flight self)).
Definition is_resign (c : Completion) : bool := match c with CResign _ => true | _ => false end.
Definition is_keep_alive (c : Completion) : bool := match c with CKeepAlive _ => true | _ => false end.
Definition resigning (self : Exchanges) : bool :=
  existsb (fun pending => is_resign (completion pending)) (in_flight self).
Definition keep_alive_outstanding (self : Exchanges) : bool :=
  existsb (fun pending => is_keep_alive (completion pending)) (in_flight self).

(** [iter().position(p)], and [remove(index)] of an element that is there. *)
Fixpoint position {A} (p : A -> bool) (l : list A) : option nat :=
  match l with
  | [] => None
  | x :: l => if p x then Some O else option_map S (position p l)
  end.
Definition remove_at {A} (i : nat) (l : list A) : list A := take i l ++ drop (S i) l.

(** The removed completion is dropped with its reply channel. *)
Definition Exchanges_withdraw (id : Z) (self : Exchanges) : Exchanges * option Completion :=
  match position (fun q => is_caller id q.2) (queued self) with
  | Some index =>
      (mkExchanges (in_flight self) (remove_at index (queued self)), snd <$> queued self !! index)
  | None =>
      match position (fun pending => is_caller id (completion pending)) (in_flight self) with
      | Some index =>
          (mkExchanges (remove_at index (in_flight self)) (queued self), completion <$> in_flight self !! index)
      | None => (self, None)
      end
  end.

(** [flatten().min()]. *)
Fixpoint min_some (l : list (option Z)) : option Z :=
  match l with
  | [] => None
  | None :: l => min_some l
  | Some x :: l => match min_some l with None => Some x | Some y => Some (Z.min x y) end
  end.

Definition Exchanges_next_deadline (self : Exchanges) : option Z :=
  min_some (flat_map (fun pending => [retry_at pending; Some (deadline pending)]) (in_flight self)).

Definition drain (self : Exchanges) : Exchanges * list Completion :=
  (Exchanges_default, map completion (in_flight self) ++ map snd (queued self)).

Definition is_response (message : CoapMessage) : bool :=
  let class := Z.shiftr (coap_code message) 5 in (class =? 2) || (class =? 4) || (class =? 5).

Definition is_transport_error (err : Error) : bool :=
  match err with EIo _ | EDtls _ => true | _ => false end.

(** ** duplicates.rs: answered confirmable messages *)

Definition EXCHANGE_LIFETIME : Z := seconds 247.
Definition MAX_REMEMBERED : Z := 64.

Record Answered := mkAnswered {
  an_origin : Destination;
  an_message_id : Z;
  an_reply : CoapMessage;
  an_at : Z }.

Notation AnsweredMessages := (list Answered).

(** [Instant::elapsed] saturates at zero. *)
Definition elapsed (now at_ : Z) : Z := Z.max 0 (now - at_).

Fixpoint forget_expired (entries : AnsweredMessages) (c : Clock) : AnsweredMessages * Clock :=
  match entries with
  | [] => ([], c)
  | e :: rest =>
      let '(now, c) := instant_now c in
      if EXCHANGE_LIFETIME <=? elapsed now (an_at e) then forget_expired rest c else (entries, c)
  end.

Definition answers (origin : Destination) (mid : Z) (e : Answered) : bool :=
  bool_decide (an_origin e = origin) && (an_message_id e =? mid).

Definition reply_to (origin : Destination) (mid : Z) (self : AnsweredMessages) (c : Clock)
    : AnsweredMessages * Clock * option CoapMessage :=
  let '(entries, c) := forget_expired self c in
  (entries, c, an_reply <$> List.find (answers origin mid) entries).

Definition remember (origin : Destination) (mid : Z) (reply : CoapMessage) (self : AnsweredMessages) (c : Clock)
    : AnsweredMessages * Clock :=
  let '(entries, c) := forget_expired self c in
  let entries := if len entries =? MAX_REMEMBERED then drop 1 entries else entries in
  let '(now, c) := instant_now c in
  (entries ++ [mkAnswered origin mid reply now], c).

Definition forget_border_agent (self : AnsweredMessages) : AnsweredMessages :=
  List.filter (fun e => negb (bool_decide (an_origin e = BorderAgent))) self.
