(* ===== verification/Events.v ===== *)
(** * Events: the event stream of a subscriber

    crates/meshcop/src/commissioner/events.rs.  The receiver of the broadcast
    channel is another crate's; a poll of its pending receive returns nothing
    yet, or a result and the receiver. *)
From S2P Require Import Prelude Text Tlv Errors Coap NetDiag Messages Joiner Commissioner.

Section Events.
Context {Receiver : Type}.

(** [Result<CommissionerEvent, RecvError>]. *)
Inductive Received := RecvOk (event : CommissionerEvent) | RecvLagged (missed : Z) | RecvClosed.
Record Events := mkEvents { receiver : option Receiver; pending : option Receiver }.
Inductive Poll := Ready (event : option CommissionerEvent) | Pending.

Definition Events_new (r : Receiver) : Events := mkEvents (Some r) None.

Definition poll_pending (poll : Receiver -> option (Received * Receiver)) (r : Receiver) : Events * Poll :=
  match poll r with
  | None => (mkEvents None (Some r), Pending)
  | Some (RecvOk event, r) => (mkEvents (Some r) None, Ready (Some event))
  | Some (RecvLagged missed, r) => (mkEvents (Some r) None, Ready (Some (EvLagged missed)))
  | Some (RecvClosed, _) => (mkEvents None None, Ready None)
  end.
Definition poll_next (poll : Receiver -> option (Received * Receiver)) (self : Events) : Events * Poll :=
  match pending self with
  | Some r => poll_pending poll r
  | None => match receiver self with None => (self, Ready None) | Some r => poll_pending poll r end
  end.

(** ** The stream *)

Fixpoint polls (answers : list (Receiver -> option (Received * Receiver))) (self : Events) : list Poll :=
  match answers with
  | [] => []
  | poll :: answers => let '(self, p) := poll_next poll self in p :: polls answers self
  end.
(** The results of the receive, by what it returned when. *)
Fixpoint stream (answers : list (Receiver -> option (Received * Receiver))) (r : Receiver) : list Poll :=
  match answers with
  | [] => []
  | poll :: answers =>
      match poll r with
      | None => Pending :: stream answers r
      | Some (RecvOk event, r) => Ready (Some event) :: stream answers r
      | Some (RecvLagged missed, r) => Ready (Some (EvLagged missed)) :: stream answers r
      | Some (RecvClosed, _) => Ready None :: map (fun _ => Ready None) answers
      end
  end.

Lemma ended_polls answers : polls answers (mkEvents None None) = map (fun _ => Ready None) answers.
Proof. induction answers as [|p answers IH]; [done|]. cbn. by rewrite IH. Qed.
(** A subscriber sees every result of the receive, once and in order, also when
    it stops waiting and comes back; the stream stays ended once it has. *)
Lemma events_in_order answers r : polls answers (Events_new r) = stream answers r.
Proof.
  assert (forall answers r, polls answers (mkEvents (Some r) None) = stream answers r /\ polls answers (mkEvents None (Some r)) = stream answers r) as H.
  { clear. induction answers as [|p answers IH]; intros r; [done|]. cbn. unfold poll_pending.
    destruct (p r) as [[[e|n|] r']|]; rewrite ?ended_polls; [destruct (IH r') as [-> _]..| |destruct (IH r) as [_ ->]]; done. }
  apply H.
Qed.
End Events.
