(* ===== verification/SessionDriver.v ===== *)
(** * SessionDriver: the task that runs a commissioner session

    The model of crates/meshcop/src/commissioner/client/driver/ (mod.rs,
    exchange.rs, incoming.rs, relay.rs and the live link of link.rs).  [Driver]
    is the task's own state and [State] adds what surrounds it: the clock, the
    system generator, the outcomes the network has in store for sends and
    handshakes, the prefix cache shared with the handles, and a log of what the
    task did.  A method is a state transformer; one that returns [()] is
    polymorphic in the error type, hence has no error.  The methods from
    [complete] to [fail_all] call each other: they are defined over the
    [complete] they call, and [complete] itself by recursion on a fuel that
    [need] bounds. *)
From stdpp Require Import gmap.
From S2P Require Import Prelude Text Tlv Errors Dataset Coap NetDiag Messages Joiner.
From S2P Require Import Commissioner.

(** [rand_core::OsRng]. [token_limit] bounds how many tokens are drawn before
    one is not in use. *)
Class OsRng := {
  os_rng : Type;
  os_fill_bytes : os_rng -> Z -> bytes * os_rng;
  os_next_u32 : os_rng -> Z * os_rng;
  token_limit : nat }.

(** What the driver uses of joiner sessions (joiner.rs). *)
Class JoinerSessions `{JoinerHandler} `{OsRng} := {
  jsession : Type;
  js_joiner_id : jsession -> bytes;
  js_joiner_iid : jsession -> bytes;
  js_udp_port : jsession -> Z;
  js_router_locator : jsession -> Z;
  js_new : bytes -> Z -> Z -> bytes -> Z -> os_rng -> result Error (jsession * os_rng);
  js_expired : jsession -> Z -> bool;
  js_router_kek : jsession -> result Error bytes;
  js_receive : jsession -> os_rng -> handler -> bytes ->
    jsession * os_rng * handler * result Error (list JoinerSessionEvent) }.

(** What a reply channel is sent, or that its sender was dropped. *)
Inductive Answer :=
  | AnExchange (r : Error + option CoapMessage)
  | AnPetition (r : Error + PetitionResponse)
  | AnKeepAlive (r : Error + ResultCode)
  | AnResign (r : Error + unit)
  | AnDropped.

Inductive Effect :=
  | Sent (message : CoapMessage)
  | Replied (reply : nat) (answer : Answer)
  | Published (event : CommissionerEvent)
  | StatusSet (status : SessionStatus).

Definition RESIGNING : string := "commissioner is resigning".

Section Driver.
Context {JH : JoinerHandler} {OR : OsRng} {JS : JoinerSessions}.

(** [shared.config] and [shared.border_agent.ip().to_string()]. *)
Context (config : CommissionerConfig) (border_agent_ip : string).

Inductive Command :=
  | CmdExchange (id : Z) (request : Outbound) (reply : nat)
  | CmdWithdraw (id : Z)
  | CmdPetition (reply : nat)
  | CmdKeepAlive (reply : nat)
  | CmdResign (reply : nat)
  | CmdSetJoinerHandler (h : option handler).

Inductive Wake :=
  | WakeCommand (command : option Command)
  | WakeReceived (received : Error + bytes)
  | WakeTimer.

Record Driver := mkDriver {
  link_open : bool;
  status : SessionStatus;
  next_message_id : Z;
  exchanges : Exchanges;
  answered : AnsweredMessages;
  keep_alive_at : option Z;
  joiner_handler : option handler;
  joiner_sessions : gmap bytes jsession;
  handles_dropped : bool }.

Record State := mkState {
  driver : Driver;
  clock : Clock;
  osrng : os_rng;
  send_results : list (option DtlsError);
  reopen_results : list (option Error);
  mesh_prefix : PrefixCache;
  log : list Effect }.

Definition Driver_new : Driver :=
  mkDriver true Connected 0 Exchanges_default [] None None ∅ false.

(** ** Fields *)

Definition upd_driver (f : Driver -> Driver) (s : State) : State :=
  mkState (f (driver s)) (clock s) (osrng s) (send_results s) (reopen_results s) (mesh_prefix s) (log s).
Definition d_link_open (v : bool) (d : Driver) : Driver :=
  mkDriver v (status d) (next_message_id d) (exchanges d) (answered d) (keep_alive_at d) (joiner_handler d)
    (joiner_sessions d) (handles_dropped d).
Definition d_status (v : SessionStatus) (d : Driver) : Driver :=
  mkDriver (link_open d) v (next_message_id d) (exchanges d) (answered d) (keep_alive_at d) (joiner_handler d)
    (joiner_sessions d) (handles_dropped d).
Definition d_next_message_id (v : Z) (d : Driver) : Driver :=
  mkDriver (link_open d) (status d) v (exchanges d) (answered d) (keep_alive_at d) (joiner_handler d)
    (joiner_sessions d) (handles_dropped d).
Definition d_exchanges (v : Exchanges) (d : Driver) : Driver :=
  mkDriver (link_open d) (status d) (next_message_id d) v (answered d) (keep_alive_at d) (joiner_handler d)
    (joiner_sessions d) (handles_dropped d).
Definition d_answered (v : AnsweredMessages) (d : Driver) : Driver :=
  mkDriver (link_open d) (status d) (next_message_id d) (exchanges d) v (keep_alive_at d) (joiner_handler d)
    (joiner_sessions d) (handles_dropped d).
Definition d_keep_alive_at (v : option Z) (d : Driver) : Driver :=
  mkDriver (link_open d) (status d) (next_message_id d) (exchanges d) (answered d) v (joiner_handler d)
    (joiner_sessions d) (handles_dropped d).
Definition d_joiner_handler (v : option handler) (d : Driver) : Driver :=
  mkDriver (link_open d) (status d) (next_message_id d) (exchanges d) (answered d) (keep_alive_at d) v
    (joiner_sessions d) (handles_dropped d).
Definition d_joiner_sessions (v : gmap bytes jsession) (d : Driver) : Driver :=
  mkDriver (link_open d) (status d) (next_message_id d) (exchanges d) (answered d) (keep_alive_at d)
    (joiner_handler d) v (handles_dropped d).
Definition d_handles_dropped (v : bool) (d : Driver) : Driver :=
  mkDriver (link_open d) (status d) (next_message_id d) (exchanges d) (answered d) (keep_alive_at d)
    (joiner_handler d) (joiner_sessions d) v.

Definition with_clock (c : Clock) (s : State) : State :=
  mkState (driver s) c (osrng s) (send_results s) (reopen_results s) (mesh_prefix s) (log s).
Definition with_osrng (g : os_rng) (s : State) : State :=
  mkState (driver s) (clock s) g (send_results s) (reopen_results s) (mesh_prefix s) (log s).
Definition with_send_results (l : list (option DtlsError)) (s : State) : State :=
  mkState (driver s) (clock s) (osrng s) l (reopen_results s) (mesh_prefix s) (log s).
Definition with_reopen_results (l : list (option Error)) (s : State) : State :=
  mkState (driver s) (clock s) (osrng s) (send_results s) l (mesh_prefix s) (log s).
Definition with_mesh_prefix (p : PrefixCache) (s : State) : State :=
  mkState (driver s) (clock s) (osrng s) (send_results s) (reopen_results s) p (log s).
Definition record_effect (e : Effect) (s : State) : State :=
  mkState (driver s) (clock s) (osrng s) (send_results s) (reopen_results s) (mesh_prefix s) (log s ++ [e]).

Notation act E A := (M State E A).

Definition modify {E} (f : Driver -> Driver) : act E unit := mset (upd_driver f).
Definition get {E A} (f : Driver -> A) : act E A := mget (fun s => f (driver s)).
Definition effect {E} (e : Effect) : act E unit := mset (record_effect e).
Definition now {E} : act E Z := fun s =>
  let '(t, c) := instant_now (clock s) in (with_clock c s, Ok t).
Definition next_u32 {E} : act E Z := fun s =>
  let '(n, g) := os_next_u32 (osrng s) in (with_osrng g s, Ok n).
Definition with_answered {E A} (f : AnsweredMessages -> Clock -> AnsweredMessages * Clock * A) : act E A := fun s =>
  let '(entries, c, a) := f (answered (driver s)) (clock s) in
  (with_clock c (upd_driver (d_answered entries) s), Ok a).

(** A fallible call whose error the caller handles, and a [Result] in hand. *)
Definition attempt {E E' A} (m : act E' A) : act E (E' + A) := fun s =>
  match m s with
  | (s', Ok a) => (s', Ok (inr a))
  | (s', Err e) => (s', Ok (inl e))
  | (s', Panic f) => (s', Panic f)
  end.
Definition settled {E A} (r : result Error A) : act E (Error + A) := attempt (mlift r).
Definition of_sum {A} (r : Error + A) : result Error A :=
  match r with inl e => Err e | inr a => Ok a end.

Definition send_reply_channel {E} (reply : nat) (answer : Answer) : act E unit := effect (Replied reply answer).
Definition reply_some {E} (reply : option nat) (answer : Answer) : act E unit :=
  match reply with Some reply => send_reply_channel reply answer | None => mret tt end.

(** Dropping a [Completion] drops its reply channel. *)
Definition completion_reply (c : Completion) : option nat :=
  match c with CCaller _ reply => Some reply | CPetition reply => Some reply | CKeepAlive reply => reply | CResign reply => reply end.
Definition drop_completion {E} (c : Completion) : act E unit := reply_some (completion_reply c) AnDropped.

(** ** link.rs *)

Definition link_close {E} : act E unit := modify (d_link_open false).

(** The handshake, whose outcome is the next of [reopen_results]. *)
Definition link_reopen : act Error unit := fun s =>
  let s := upd_driver (d_link_open false) s in
  match reopen_results s with
  | Some e :: l => (with_reopen_results l s, Err e)
  | None :: l => (with_reopen_results l (upd_driver (d_link_open true) s), Ok tt)
  | [] => (upd_driver (d_link_open true) s, Ok tt)
  end.

Definition send_application_data (message : CoapMessage) : act Error unit := fun s =>
  match send_results s with
  | Some e :: l => (with_send_results l s, Err (EDtls e))
  | None :: l => (with_send_results l (record_effect (Sent message) s), Ok tt)
  | [] => (record_effect (Sent message) s, Ok tt)
  end.

Definition link_send (message : CoapMessage) : act Error unit :=
  let* is_open := get link_open in
  if negb is_open then merr (EInvalidState "DTLS session is not established")
  else
    let* _ := mlift (CoapMessage_encode message) in
    send_application_data message.
Definition link_send_request (message : CoapMessage) : act Error unit := link_send message.

(** ** mod.rs: accessors *)

Definition is_closed (d : Driver) : bool := match status d with Closed _ => true | _ => false end.
Definition session_id (d : Driver) : option Z := SessionStatus_session_id (status d).
Definition next_deadline (d : Driver) : option Z :=
  min_some [Exchanges_next_deadline (exchanges d); keep_alive_at d].

Definition set_status {E} (st : SessionStatus) : act E unit :=
  let* _ := modify (d_status st) in
  effect (StatusSet st).
Definition publish {E} (event : CommissionerEvent) : act E unit := effect (Published event).
Definition invalidate_prefix {E} : act E unit := mset (fun s => with_mesh_prefix (invalidate_mesh_local_prefix (mesh_prefix s)) s).

Definition control_request (message : CoapMessage) (operation : CommissionerOperation) : Outbound :=
  mkOutbound message BorderAgent true (operation_label operation).

Definition response_required (outcome : Error + option CoapMessage) : result Error CoapMessage :=
  let! o := of_sum outcome in
  let! response := ok_or o (EInvalidState "MeshCoP exchange produced no response") in
  require_success_response response.

(** ** exchange.rs: identities *)

Definition set_identity (mid : Z) (tok : bytes) (m : CoapMessage) : CoapMessage :=
  mkCoapMessage (coap_ty m) (coap_code m) mid tok (options m) (payload m).

Fixpoint draw_token {E} (fuel : nat) : act E bytes :=
  match fuel with
  | O => fun s => (s, Panic OutOfFuel)
  | S fuel => fun s =>
      let '(tok, g) := os_fill_bytes (osrng s) TOKEN_LENGTH in
      let s := with_osrng g s in
      let in_use := existsb (fun pending => vec_eqb (token (request pending)) tok) (in_flight (exchanges (driver s))) in
      if negb in_use then (s, Ok tok) else draw_token fuel s
  end.
Definition unused_token {E} : act E bytes := draw_token token_limit.

Definition assign_identity {E} (message : CoapMessage) : act E CoapMessage :=
  let* _ := modify (fun d => d_next_message_id (wrapping_add 16 (next_message_id d) 1) d) in
  let* mid := get next_message_id in
  let* tok := unused_token in
  mret (set_identity mid tok message).

Definition wire_message (request : CoapMessage) (destination : Destination) : act Error CoapMessage :=
  match destination with
  | BorderAgent => mret request
  | Mesh address port =>
      let* inner := mlift (CoapMessage_encode request) in
      let* outer := mlift (udp_tx_request 0 [] address port inner) in
      assign_identity outer
  end.

Definition schedule_keep_alive {E} : act E unit :=
  let* sid := get session_id in
  if bool_decide (keep_alive config = Automatic) && bool_decide (is_Some sid) then
    let* t := now in
    modify (d_keep_alive_at (Some (t + keepalive_interval config)))
  else mret tt.

Definition petition_response (outcome : Error + option CoapMessage) : result Error PetitionResponse :=
  let! response := response_required outcome in
  let! petition := parse_petition_response response in
  match pet_state petition with
  | Accept =>
      let! session_id := ok_or (pet_session_id petition) (EInvalidState "petition accepted without a session ID") in
      Ok (mkPetitionResponse session_id (existing_commissioner_id petition))
  | Pending => Err (EInvalidState "petition response is pending")
  | Reject => Err (EPetitionRejected (existing_commissioner_id petition))
  end.

Definition petition_outcome {E} (outcome : Error + option CoapMessage) : act E (Error + PetitionResponse) :=
  let* res := settled (petition_response outcome) in
  let* closed := get is_closed in
  if (closed : bool) then mret res
  else
    let* _ := match res with
              | inr petition =>
                  let* _ := set_status (Active (pr_session_id petition)) in
                  schedule_keep_alive
              | inl _ => set_status Connected
              end in
    mret res.

Definition keep_alive_result (outcome : Error + option CoapMessage) : result Error ResultCode :=
  let! response := response_required outcome in
  let! state := parse_state_response response true in
  ok_or (result_code_from_meshcop_state <$> state) (EInvalidState "keepalive response did not include state").

Definition resign_result (outcome : Error + option CoapMessage) : result Error unit :=
  let! response := response_required outcome in
  let! state := parse_state_response response true in
  match state with
  | Some Pending => Err (EInvalidState "resign response is pending")
  | _ => Ok tt
  end.

(** ** Completing and starting exchanges *)

Section Recursive.
Context {E : Type} (complete : Completion -> Error + option CoapMessage -> act E unit).

Fixpoint fail_each (completions : list Completion) (error : Error) : act E unit :=
  match completions with
  | [] => mret tt
  | c :: completions =>
      let* _ := complete c (inl error) in
      fail_each completions error
  end.

Definition fail_all (error : Error) : act E unit :=
  let* ex := get exchanges in
  let '(ex, completions) := drain ex in
  let* _ := modify (d_exchanges ex) in
  fail_each completions error.

Definition end_session (reason : CloseReason) : act E unit :=
  let* closed := get is_closed in
  if (closed : bool) then mret tt
  else
    let* _ := set_status (Closed reason) in
    let* _ := modify (d_keep_alive_at None) in
    let* _ := modify (d_joiner_sessions ∅) in
    let* _ := link_close in
    let lost := negb (bool_decide (reason = Resigned)) in
    let* _ := fail_all (if lost then ESessionLost reason else ESessionClosed) in
    if lost then publish (EvSessionLost reason) else mret tt.

Definition transport_failed (error : bytes) : act E unit := end_session (TransportFailed error).

Definition fail_send (c : Completion) (err : Error) : act E unit :=
  let* _ := if is_transport_error err then transport_failed (Error_to_string err) else mret tt in
  complete c (inl err).

Definition push_pending (p : PendingExchange) (d : Driver) : Driver :=
  d_exchanges (mkExchanges (in_flight (exchanges d) ++ [p]) (queued (exchanges d))) d.

Definition start (outbound : Outbound) (c : Completion) : act E unit :=
  let* message := assign_identity (ob_message outbound) in
  let* wire := attempt (wire_message message (ob_destination outbound)) in
  match wire with
  | inl err => complete c (inl err)
  | inr wire =>
      let* sent := attempt (link_send_request wire) in
      match sent with
      | inl err => fail_send c err
      | inr _ =>
          if negb (expect_response outbound) then complete c (inr None)
          else
            let* t := now in
            let* retransmit :=
              if bool_decide (coap_ty message = Confirmable) then
                let* random := next_u32 in mret (Some (randomized random))
              else mret None in
            let retry_at := Z.add t <$> (retransmit ≫= schedule_timeout) in
            modify (push_pending (mkPending message (ob_destination outbound) (ob_label outbound) retransmit retry_at
                                    (t + COAP_EXCHANGE_TIMEOUT) c))
      end
  end.

(** [queued.pop_front()]. *)
Definition set_queued (q : list (Outbound * Completion)) (d : Driver) : Driver :=
  d_exchanges (mkExchanges (in_flight (exchanges d)) q) d.

Fixpoint send_loop (fuel : nat) : act E unit :=
  let* ex := get exchanges in
  if application_in_flight ex <? MAX_APPLICATION_IN_FLIGHT then
    match queued ex with
    | [] => mret tt
    | (outbound, c) :: rest =>
        match fuel with
        | O => fun s => (s, Panic OutOfFuel)
        | S fuel =>
            let* _ := modify (set_queued rest) in
            let* _ := start outbound c in
            let* closed := get is_closed in
            if (closed : bool) then mret tt else send_loop fuel
        end
    end
  else mret tt.
Definition send_queued : act E unit := fun s => send_loop (length (queued (exchanges (driver s)))) s.

Definition keep_alive_outcome (outcome : Error + option CoapMessage) (reply : option nat) : act E unit :=
  let* res := settled (keep_alive_result outcome) in
  let* ending := match res with
                 | inr code =>
                     let* _ := publish (EvKeepAliveResponse code) in
                     mret (match code with
                           | RcAccept => None
                           | RcReject => Some KeepAliveRejected
                           | RcPending => Some KeepAlivePending
                           end)
                 | inl err => mret (Some (KeepAliveFailed (Error_to_string err)))
                 end in
  let* _ := reply_some reply (AnKeepAlive res) in
  match ending with
  | None => schedule_keep_alive
  | Some reason => end_session reason
  end.

Definition complete_body (c : Completion) (outcome : Error + option CoapMessage) : act E unit :=
  match c with
  | CCaller _ reply =>
      let* _ := send_reply_channel reply (AnExchange outcome) in
      send_queued
  | CPetition reply =>
      let* res := petition_outcome outcome in
      send_reply_channel reply (AnPetition res)
  | CKeepAlive reply => keep_alive_outcome outcome reply
  | CResign reply =>
      let* res := settled (resign_result outcome) in
      let* _ := end_session Resigned in
      reply_some reply (AnResign res)
  end.
End Recursive.

Fixpoint complete_fuel {E} (fuel : nat) (c : Completion) (outcome : Error + option CoapMessage) : act E unit :=
  match fuel with
  | O => fun s => (s, Panic OutOfFuel)
  | S fuel => complete_body (complete_fuel fuel) c outcome
  end.

(** Enough fuel: every call but those of a closed session takes a request off
    the queue, and closing empties it. *)
Definition need (s : State) : nat :=
  if is_closed (driver s) then 1 else length (queued (exchanges (driver s))) + 2.
Definition complete {E} (c : Completion) (outcome : Error + option CoapMessage) : act E unit := fun s =>
  complete_fuel (need s) c outcome s.

(** ** exchange.rs: submitting, withdrawing, timers, matching *)

Definition submit {E} (outbound : Outbound) (c : Completion) : act E unit :=
  let* _ := modify (fun d => set_queued (queued (exchanges d) ++ [(outbound, c)]) d) in
  send_queued complete.

Definition withdraw {E} (id : Z) : act E unit :=
  let* ex := get exchanges in
  let '(ex, found) := Exchanges_withdraw id ex in
  let* _ := modify (d_exchanges ex) in
  match found with
  | Some c =>
      let* _ := drop_completion c in
      send_queued complete
  | None => mret tt
  end.

Definition remove_in_flight (i : nat) (d : Driver) : Driver :=
  d_exchanges (mkExchanges (remove_at i (in_flight (exchanges d))) (queued (exchanges d))) d.
Definition set_in_flight (i : nat) (p : PendingExchange) (d : Driver) : Driver :=
  d_exchanges (mkExchanges (<[i:=p]> (in_flight (exchanges d))) (queued (exchanges d))) d.
Definition due (o : option Z) (t : Z) : bool := match o with Some x => x <=? t | None => false end.

(** The [retransmit] and [retry_at] of an exchange sent again at [t]. *)
Definition retransmitted (t : Z) (p : PendingExchange) : PendingExchange :=
  match retransmit p with
  | Some schedule =>
      let schedule := record_retransmission schedule in
      set_retry_at (Z.add t <$> schedule_timeout schedule) (set_retransmit (Some schedule) p)
  | None => p
  end.

(** The body of the loop at [index], with the loop it continues to; [false]
    when the loop returned early. *)
Definition timer_step {E} (t : Z) (index : nat) (p : PendingExchange) (continue : nat -> act E bool) : act E bool :=
  if deadline p <=? t then
    let* _ := modify (remove_in_flight index) in
    let* _ := complete (completion p) (inl (ETimeout "MeshCoP exchange timed out")) in
    let* closed := get is_closed in
    if (closed : bool) then mret false else continue index
  else if due (retry_at p) t then
    let* res := attempt (let* wire := wire_message (request p) (destination p) in link_send wire) in
    match res with
    | inl err =>
        if is_transport_error err then
          let* _ := transport_failed complete (Error_to_string err) in mret false
        else
          let* _ := modify (set_in_flight index (retransmitted t p)) in
          continue (S index)
    | inr _ =>
        let* _ := modify (set_in_flight index (retransmitted t p)) in
        continue (S index)
    end
  else continue (S index).

Fixpoint timer_loop {E} (fuel : nat) (t : Z) (index : nat) : act E bool :=
  let* ex := get exchanges in
  match in_flight ex !! index with
  | None => mret true
  | Some p =>
      match fuel with
      | O => fun s => (s, Panic OutOfFuel)
      | S fuel => timer_step t index p (timer_loop fuel t)
      end
  end.

(** Enough fuel: an exchange that expires makes room for at most one more,
    which is not due. *)
Definition run_exchange_timers {E} : act E unit :=
  let* t := now in
  let* ex := get exchanges in
  let* finished := timer_loop (2 * length (in_flight ex)) t 0 in
  if (finished : bool) then send_queued complete else mret tt.

Definition acknowledges (ack : CoapMessage) (proxied : bool) (p : PendingExchange) : bool :=
  eqb (is_proxied p) proxied && is_empty_ack_for ack (message_id (request p)).

Definition acknowledge {E} (ack : CoapMessage) (proxied : bool) : act E bool :=
  let* ex := get exchanges in
  match position (acknowledges ack proxied) (in_flight ex) with
  | Some index =>
      match in_flight ex !! index with
      | Some p =>
          let* _ := modify (set_in_flight index (set_retry_at None p)) in
          mret true
      | None => mret false
      end
  | None => mret false
  end.

Definition answered_by (response : CoapMessage) (proxied : bool) (p : PendingExchange) : bool :=
  eqb (is_proxied p) proxied
  && (is_reset_for response (message_id (request p))
      || (is_response response && vec_eqb (token response) (token (request p)))).

Definition take_answered {E} (response : CoapMessage) (proxied : bool) : act E (option PendingExchange) :=
  let* ex := get exchanges in
  match position (answered_by response proxied) (in_flight ex) with
  | Some index =>
      let* _ := modify (remove_in_flight index) in
      mret (in_flight ex !! index)
  | None => mret None
  end.

(** ** incoming.rs *)

Definition send_reply (reply : CoapMessage) (origin : Destination) : act Error unit :=
  let* wire := wire_message reply origin in
  link_send wire.

Definition reply (message reply : CoapMessage) (origin : Destination) : act Error unit :=
  let* _ := send_reply reply origin in
  with_answered (fun l c => (remember origin (message_id message) reply l c, tt)).

Definition answer_retransmission (message : CoapMessage) (origin : Destination) : act Error bool :=
  if negb (bool_decide (coap_ty message = Confirmable)) then mret false
  else
    let* found := with_answered (reply_to origin (message_id message)) in
    match found with
    | None => mret false
    | Some reply =>
        let* _ := send_reply reply origin in
        mret true
    end.

Definition ack_if_confirmable (message : CoapMessage) : act Error unit :=
  if bool_decide (coap_ty message = Confirmable) then reply message (empty_ack (message_id message)) BorderAgent
  else mret tt.

Definition notification_to_event (notification : MeshcopNotification) (peer_addr : string) : CommissionerEvent :=
  match notification with
  | DatasetChanged => EvDatasetChanged
  | DiagGetAnswer data => EvDiagnosticAnswer peer_addr data
  | PanIdConflict channel_mask pan_id => EvPanIdConflict peer_addr channel_mask pan_id
  | EnergyReport channel_mask energy_list => EvEnergyReport peer_addr channel_mask energy_list
  | RelayRx joiner_udp_port _ joiner_iid payload => EvJoinerMessage joiner_iid joiner_udp_port payload
  end.
Definition is_dataset_changed (n : MeshcopNotification) : bool := match n with DatasetChanged => true | _ => false end.

(** A completion in hand is dropped when what follows fails. *)
Definition or_drop {A} (c : Completion) (m : act Error A) : act Error A :=
  let* r := attempt m in
  match r with
  | inr a => mret a
  | inl err => let* _ := drop_completion c in merr err
  end.

(** ** relay.rs *)

Definition drop_expired (t : Z) (sessions : gmap bytes jsession) : gmap bytes jsession :=
  filter (fun '(_, session) => js_expired session t = false) sessions.
Definition put_session (id : bytes) (session : jsession) (d : Driver) : Driver :=
  d_joiner_sessions (<[id := session]> (joiner_sessions d)) d.
Definition remove_session (id : bytes) (d : Driver) : Driver :=
  d_joiner_sessions (delete id (joiner_sessions d)) d.

Record Relayed := mkRelayed {
  transmissions : list (bytes * option bytes);
  queued_events : list CommissionerEvent;
  session_failed : bool }.

(** The loop over the events of the session; it breaks when the KEK cannot be
    derived. *)
Fixpoint relay_events (id : bytes) (session : jsession) (events : list JoinerSessionEvent) (h : handler) (r : Relayed)
    : result Error (handler * Relayed) :=
  match events with
  | [] => Ok (h, r)
  | Transmit datagram include_kek :: events =>
      if include_kek then
        match js_router_kek session with
        | Ok kek =>
            relay_events id session events h
              (mkRelayed (transmissions r ++ [(datagram, Some kek)]) (queued_events r) (session_failed r))
        | Err _ => Ok (h, mkRelayed (transmissions r) (queued_events r) true)
        | Panic f => Panic f
        end
      else
        relay_events id session events h
          (mkRelayed (transmissions r ++ [(datagram, None)]) (queued_events r) (session_failed r))
  | EvConnected :: events =>
      relay_events id session events (on_joiner_connected h id)
        (mkRelayed (transmissions r) (queued_events r ++ [EvJoinerConnected id]) (session_failed r))
  | EvFinalized accepted info :: events =>
      relay_events id session events h
        (mkRelayed (transmissions r) (queued_events r ++ [EvJoinerFinalized id accepted info]) (session_failed r))
  end.

Fixpoint publish_all {E} (evs : list CommissionerEvent) : act E unit :=
  match evs with
  | [] => mret tt
  | ev :: evs => let* _ := publish ev in publish_all evs
  end.

Fixpoint transmit_all (iid : bytes) (udp_port router_locator : Z) (l : list (bytes * option bytes)) : act Error unit :=
  match l with
  | [] => mret tt
  | (datagram, kek) :: l =>
      let* relay := mlift (relay_tx_request_with_kek 0 [] iid udp_port router_locator datagram kek) in
      let* relay := assign_identity relay in
      let* _ := link_send relay in
      transmit_all iid udp_port router_locator l
  end.

(** [handler.joiner_pskd], and the session of a new joiner. *)
Definition ask_pskd {E} (id : bytes) (h : handler) : act E (option bytes) :=
  let '(pskd, h) := joiner_pskd h id in
  let* _ := modify (d_joiner_handler (Some h)) in
  mret pskd.
Definition create_session (iid : bytes) (udp_port router_locator : Z) (pskd : bytes) (t : Z) : act Error unit := fun s =>
  match js_new iid udp_port router_locator pskd t (osrng s) with
  | Ok (session, g) => (upd_driver (put_session (joiner_id_from_iid iid) session) (with_osrng g s), Ok tt)
  | Err e => (s, Err e)
  | Panic f => (s, Panic f)
  end.

(** [session.receive(payload, handler, rng)]. *)
Definition session_receive {E} (id : bytes) (session : jsession) (h : handler) (payload : bytes)
    : act E (jsession * handler * (Error + list JoinerSessionEvent)) := fun s =>
  let '(session, g, h, r) := js_receive session (osrng s) h payload in
  let s := upd_driver (fun d => put_session id session (d_joiner_handler (Some h) d)) (with_osrng g s) in
  match r with
  | Ok evs => (s, Ok (session, h, inr evs))
  | Err e => (s, Ok (session, h, inl e))
  | Panic f => (s, Panic f)
  end.

Definition handle_session (id : bytes) (session : jsession) (h : handler) (payload : bytes) : act Error unit :=
  let target := (js_joiner_iid session, js_udp_port session, js_router_locator session) in
  let* '(session, h, r) := session_receive id session h payload in
  match r with
  | inl _ => modify (remove_session id)
  | inr events =>
      let* '(h, relayed) := mlift (relay_events id session events h (mkRelayed [] [] false)) in
      let* _ := modify (d_joiner_handler (Some h)) in
      let* _ := publish_all (queued_events relayed) in
      if session_failed relayed then modify (remove_session id)
      else
        let '(iid, udp_port, router_locator) := target in
        transmit_all iid udp_port router_locator (transmissions relayed)
  end.

Definition handle_relay_rx (udp_port router_locator : Z) (iid payload : bytes) : act Error unit :=
  let* t := now in
  let* _ := modify (fun d => d_joiner_sessions (drop_expired t (joiner_sessions d)) d) in
  let id := joiner_id_from_iid iid in
  let* h := get joiner_handler in
  match h with
  | None => mret tt
  | Some h =>
      let* sessions := get joiner_sessions in
      let* enabled :=
        match sessions !! id with
        | Some _ => mret true
        | None =>
            let* pskd := ask_pskd id h in
            match pskd with
            | None => mret false
            | Some pskd => let* _ := create_session iid udp_port router_locator pskd t in mret true
            end
        end in
      if negb enabled then mret tt
      else
        let* h := get joiner_handler in
        let* sessions := get joiner_sessions in
        match h, sessions !! id with
        | Some h, Some session => handle_session id session h payload
        | _, _ => mret tt
        end
  end.

(** ** incoming.rs: routing *)

Definition route_unsolicited_message (message : CoapMessage) : act Error bool :=
  let* notification := mlift (parse_notification message) in
  match notification with
  | None => mret false
  | Some n =>
      let* h := get joiner_handler in
      match n, h with
      | RelayRx udp_port router_locator iid payload, Some _ =>
          let* _ := handle_relay_rx udp_port router_locator iid payload in
          mret true
      | _, _ =>
          let* _ := if is_dataset_changed n then invalidate_prefix else mret tt in
          let* _ := publish (notification_to_event n border_agent_ip) in
          mret true
      end
  end.

Definition route_unsolicited_proxied (inner : CoapMessage) (udp_rx : UdpRx) (origin : Destination) : act Error bool :=
  let* notification := mlift (parse_notification inner) in
  match notification with
  | None => mret false
  | Some n =>
      let* _ := if is_dataset_changed n then invalidate_prefix else mret tt in
      let* _ := publish (notification_to_event n (ipv6_display (source_address udp_rx))) in
      let* _ := if bool_decide (coap_ty inner = Confirmable)
                then reply inner (empty_changed_response inner) origin else mret tt in
      mret true
  end.

(** The answer to an exchange that was taken out of flight. *)
Definition deliver (c : Completion) (message : CoapMessage) (ack : act Error unit) : act Error unit :=
  if bool_decide (coap_ty message = Reset) then complete c (inl (EInvalidState COAP_RESET_ERROR))
  else
    let* _ := or_drop c ack in
    complete c (inr (Some message)).

Definition route_direct (incoming : CoapMessage) : act Error unit :=
  let* again := answer_retransmission incoming BorderAgent in
  if (again : bool) then mret tt
  else
    let* acked := acknowledge incoming false in
    if (acked : bool) then mret tt
    else
      let* pending := take_answered incoming false in
      match pending with
      | Some p => deliver (completion p) incoming (ack_if_confirmable incoming)
      | None =>
          let* unsolicited := route_unsolicited_message incoming in
          if (unsolicited : bool) then ack_if_confirmable incoming else mret tt
      end.

Definition route_proxied (udp_rx : UdpRx) (inner : CoapMessage) : act Error unit :=
  let origin := Mesh (source_address udp_rx) (source_port udp_rx) in
  let* again := answer_retransmission inner origin in
  if (again : bool) then mret tt
  else
    let* acked := acknowledge inner true in
    if (acked : bool) then mret tt
    else
      let* pending := take_answered inner true in
      match pending with
      | Some p =>
          deliver (completion p) inner
            (if bool_decide (coap_ty inner = Confirmable) then reply inner (empty_ack (message_id inner)) origin
             else mret tt)
      | None =>
          let* _ := route_unsolicited_proxied inner udp_rx origin in
          mret tt
      end.

Definition route_incoming (incoming : CoapMessage) : act Error unit :=
  let* parsed := settled (parse_udp_rx incoming) in
  match parsed with
  | inl _ => mret tt
  | inr None => route_direct incoming
  | inr (Some udp_rx) =>
      if negb (destination_port udp_rx =? DEFAULT_MM_PORT) then mret tt
      else
        let* inner := settled (CoapMessage_decode (udp_payload udp_rx)) in
        match inner with
        | inl _ => mret tt
        | inr inner => route_proxied udp_rx inner
        end
  end.

(** ** mod.rs: commands *)

Definition ensure_open : act Error unit :=
  let* is_open := get link_open in
  if (is_open : bool) then mret tt
  else
    let* _ := link_reopen in
    let* _ := modify (fun d => d_answered (forget_border_agent (answered d)) d) in
    set_status Connected.

Definition petition_refusal (st : SessionStatus) : option string :=
  match st with
  | Connected | Idle => None
  | Petitioning => Some "petition is already active"
  | Active _ => Some "commissioner is already active"
  | Closed _ => Some "commissioner is disconnected"
  end%string.

Definition petition {E} (reply : nat) : act E unit :=
  let* st := get status in
  match petition_refusal st with
  | Some refusal => send_reply_channel reply (AnPetition (inl (EInvalidState refusal)))
  | None =>
      let* opened := attempt ensure_open in
      match opened with
      | inl err => send_reply_channel reply (AnPetition (inl err))
      | inr _ =>
          let* request := settled (petition_request 0 [] (cfg_commissioner_id config)) in
          match request with
          | inl err => send_reply_channel reply (AnPetition (inl err))
          | inr request =>
              let* _ := set_status Petitioning in
              start complete (control_request request Petition) (CPetition reply)
          end
      end
  end.

Definition send_keep_alive {E} (c : Completion) : act E unit :=
  let* sid := get session_id in
  match sid with
  | None => complete c (inl (EInvalidState "commissioner session is not active"))
  | Some sid =>
      let* _ := modify (d_keep_alive_at None) in
      let* request := settled (keep_alive_request 0 [] sid true) in
      match request with
      | inr request => start complete (control_request request Messages.KeepAlive) c
      | inl err => complete c (inl err)
      end
  end.

Definition resign {E} (reply : option nat) : act E unit :=
  let* sid := get session_id in
  match sid with
  | None =>
      let* _ := end_session complete Resigned in
      reply_some reply (AnResign (inr tt))
  | Some sid =>
      let* _ := modify (d_keep_alive_at None) in
      let* request := settled (keep_alive_request 0 [] sid false) in
      match request with
      | inr request => start complete (control_request request Messages.KeepAlive) (CResign reply)
      | inl err => complete (CResign reply) (inl err)
      end
  end.

Definition keep_alive_refusal (d : Driver) : option string :=
  match session_id d with
  | None => Some "commissioner session is not active"%string
  | Some _ =>
      if resigning (exchanges d) then Some RESIGNING
      else if keep_alive_outstanding (exchanges d) then Some "a keep-alive is already outstanding"%string
      else None
  end.

Definition handle_command {E} (command : Command) : act E unit :=
  match command with
  | CmdExchange id request reply =>
      let* ex := get exchanges in
      if resigning ex then send_reply_channel reply (AnExchange (inl (EInvalidState RESIGNING)))
      else
        let* opened := attempt ensure_open in
        match opened with
        | inl err => send_reply_channel reply (AnExchange (inl err))
        | inr _ => submit request (CCaller id reply)
        end
  | CmdWithdraw id => withdraw id
  | CmdPetition reply => petition reply
  | CmdKeepAlive reply =>
      let* refusal := get keep_alive_refusal in
      match refusal with
      | Some refusal => send_reply_channel reply (AnKeepAlive (inl (EInvalidState refusal)))
      | None => send_keep_alive (CKeepAlive (Some reply))
      end
  | CmdResign reply =>
      let* ex := get exchanges in
      if resigning ex then send_reply_channel reply (AnResign (inl (EInvalidState RESIGNING)))
      else resign (Some reply)
  | CmdSetJoinerHandler h =>
      let* _ := match h with None => modify (d_joiner_sessions ∅) | Some _ => mret tt end in
      modify (d_joiner_handler h)
  end.

Definition on_handles_dropped {E} : act E unit :=
  let* _ := modify (d_handles_dropped true) in
  let* ex := get exchanges in
  if resigning ex then mret tt else resign None.

(** ** mod.rs: datagrams, failures and timers *)

Definition handle_datagram {E} (plaintext : bytes) : act E unit :=
  let* decoded := settled (CoapMessage_decode plaintext) in
  match decoded with
  | inl _ => mret tt
  | inr message =>
      let* routed := attempt (route_incoming message) in
      match routed with
      | inl err => if is_transport_error err then transport_failed complete (Error_to_string err) else mret tt
      | inr _ => mret tt
      end
  end.

Definition is_peer_closed (err : Error) : bool := match err with EDtls DPeerClosed => true | _ => false end.

Definition receive_failed {E} (err : Error) : act E unit :=
  let peer_closed := is_peer_closed err in
  let* sid := get session_id in
  let* dropped := get handles_dropped in
  if peer_closed && bool_decide (sid = None) && negb dropped then
    let* _ := link_close in
    let* _ := fail_all complete (ESessionLost PeerClosed) in
    set_status Idle
  else if peer_closed then end_session complete PeerClosed
  else transport_failed complete (Error_to_string err).

Definition run_timers {E} : act E unit :=
  let* _ := run_exchange_timers in
  let* closed := get is_closed in
  if (closed : bool) then mret tt
  else
    let* at_ := get keep_alive_at in
    match at_ with
    | None => mret tt
    | Some at_ =>
        let* t := now in
        if at_ <=? t then send_keep_alive (CKeepAlive None) else mret tt
    end.

(** ** The loop *)

(** What [next_wake] may return: the timer only when a deadline has passed
    and, since it polls in order, the others only when none has; nothing is
    received without a session, and commands are not read once every handle is
    dropped. *)
Definition timer_due (s : State) : bool := due (next_deadline (driver s)) (clock_now (clock s)).
Definition wake_enabled (s : State) (w : Wake) : bool :=
  match w with
  | WakeTimer => timer_due s
  | WakeReceived _ => negb (timer_due s) && link_open (driver s)
  | WakeCommand _ => negb (timer_due s) && negb (handles_dropped (driver s))
  end.

Definition handle_wake {E} (w : Wake) : act E unit :=
  match w with
  | WakeCommand (Some command) => handle_command command
  | WakeCommand None => on_handles_dropped
  | WakeReceived (inr plaintext) => handle_datagram plaintext
  | WakeReceived (inl err) => receive_failed err
  | WakeTimer => run_timers
  end.

(** [run]: the wakes that arrive, each with the time that passes before it, as
    long as the session is not closed; one that cannot happen yet is skipped. *)
Fixpoint run {E} (wakes : list (Z * Wake)) : act E unit :=
  let* closed := get is_closed in
  if (closed : bool) then mret tt
  else
    match wakes with
    | [] => mret tt
    | (dt, w) :: wakes =>
        let* _ := mset (fun s => with_clock (mkClock (clock_now (clock s) + dt) (ticks (clock s))) s) in
        let* enabled := mget (fun s => wake_enabled s w) in
        let* _ := if (enabled : bool) then handle_wake w else mret tt in
        run wakes
    end.
End Driver.
