(* ===== verification/SessionCore.v ===== *)
(** * SessionCore: the invariant of a commissioner session

    [core R cs s] is the invariant of the session task of [SessionDriver] when
    the completions [cs] have been taken out of its exchanges and are still to
    be answered, and the reply channels read so far are [R].  This file states
    it, with what the task relies on of the system generator and of joiner
    sessions, and shows that the methods that touch neither the exchanges nor
    the status keep it, do not panic and draw a token within the limit. *)
From stdpp Require Import gmap.
From S2P Require Import Prelude Text Tlv Errors Dataset Coap NetDiag Messages Joiner.
From S2P Require Import Commissioner SessionDriver.

(** The generator yields a token that is not among a few in use within
    [token_limit] draws. *)
Class OsRngLaws `{OsRng} : Prop := {
  os_bytes_ok g n : bytes_ok (os_fill_bytes g n).1;
  os_bytes_len g n : 0 <= n -> len (os_fill_bytes g n).1 = n;
  os_u32_ok g : is_u32 (os_next_u32 g).1;
  os_fresh g (used : list bytes) : (length used <= 4)%nat ->
    exists n, (n < token_limit)%nat /\
      (os_fill_bytes (Nat.iter n (fun g => (os_fill_bytes g TOKEN_LENGTH).2) g) TOKEN_LENGTH).1 ∉ used }.

Class JoinerSessionsLaws `{JoinerSessions} := {
  js_wf : jsession -> Prop;
  js_new_ok iid port loc pskd t g : exists session g', js_new iid port loc pskd t g = Ok (session, g') /\ js_wf session;
  js_kek_safe session : js_wf session -> safe (js_router_kek session);
  js_receive_ok session g h payload : js_wf session -> bytes_ok payload ->
    safe (js_receive session g h payload).2 /\ js_wf (js_receive session g h payload).1.1.1 }.

(** ** Requests can always be encoded or refused *)

Lemma encode_option_header_safe d l out : safe (encode_option_header d l out).2.
Proof.
  unfold encode_option_header, encode_extended_nibble.
  repeat first [done | match goal with |- context [if ?b then _ else _] => destruct b end; cbn [rbind]].
Qed.
Lemma CoapMessage_encode_safe m : safe (CoapMessage_encode m).
Proof.
  unfold CoapMessage_encode. case_match; [done|]. apply safe_bind; [|intros; by case_match].
  generalize (sort_by_key (enumerate (options m))) as l. intros l. generalize 0 as last.
  match goal with |- forall last, safe (encode_options _ _ ?o) => generalize o end.
  induction l as [|[i o] l IH]; intros out last; cbn [encode_options]; [done|].
  apply safe_bind; [apply safe_ok_or|]. intros d _. apply safe_bind; [|intros; apply IH].
  pose proof (encode_option_header_safe d (len (opt_value o)) out) as Hh. unfold written.
  by destruct (encode_option_header _ _ _) as [o' [[]|e|f]].
Qed.
Lemma push_segments_safe l os : safe (push_segments l os).2.
Proof. revert os. induction l as [|s l IH]; intros os; cbn [push_segments]; [done|]. repeat (case_match; try done); auto. Qed.
Lemma post_request_safe ty mid tok path pl : safe (post_request ty mid tok path pl).
Proof.
  unfold post_request, set_uri_path. destruct (is_empty _); [done|].
  match goal with |- context [push_segments ?l ?o] => pose proof (push_segments_safe l o) as H; destruct (push_segments l o) as [os r] end.
  by destruct r.
Qed.
Lemma append_tlv_safe out t v : safe (written (append_tlv out t v)).
Proof.
  destruct (Z.le_gt_cases (len v) MAX_EXTENDED_TLV_LENGTH); [by rewrite append_tlv_ok|by rewrite append_tlv_err by lia].
Qed.
Lemma udp_tx_request_safe mid tok a p inner : safe (udp_tx_request mid tok a p inner).
Proof. unfold udp_tx_request. do 2 (apply safe_bind; [apply append_tlv_safe|intros ? _]). apply post_request_safe. Qed.
Lemma petition_request_safe mid tok id : safe (petition_request mid tok id).
Proof. unfold petition_request. apply safe_bind; [apply append_tlv_safe|intros ? _]. apply post_request_safe. Qed.
Lemma keep_alive_request_safe mid tok sid b : safe (keep_alive_request mid tok sid b).
Proof. unfold keep_alive_request. do 2 (apply safe_bind; [apply append_tlv_safe|intros ? _]). apply post_request_safe. Qed.
Lemma relay_tx_safe mid tok iid p l pl kek : safe (relay_tx_request_with_kek mid tok iid p l pl kek).
Proof.
  unfold relay_tx_request_with_kek. case_match; [done|]. do 4 (apply safe_bind; [apply append_tlv_safe|intros ? _]).
  apply safe_bind; [destruct kek; [apply append_tlv_safe|done]|intros ? _]. apply post_request_safe.
Qed.

(** ** The invariant *)

Section Core.
Context {JH : JoinerHandler} {OR : OsRng} {OL : OsRngLaws} {JS : JoinerSessions} {JL : JoinerSessionsLaws}.

Notation ex s := (exchanges (driver s)).
Notation closed s := (is_closed (driver s) = true).

Definition is_petition (c : Completion) : bool := match c with CPetition _ => true | _ => false end.
Definition count (p : Completion -> bool) (l : list Completion) : nat := length (List.filter p l).
#[global] Arguments count : simpl never.
Definition taken (cs : list Completion) (s : State) : list Completion := map completion (in_flight (ex s)) ++ cs.

(** Reply channels that were used, and those still owed an answer. *)
Definition effect_reply (e : Effect) : option nat := match e with Replied r _ => Some r | _ => None end.
Definition replied (l : list Effect) : list nat := omap effect_reply l.
Definition owed (cs : list Completion) (s : State) : list nat :=
  omap completion_reply (map completion (in_flight (ex s)) ++ map snd (queued (ex s)) ++ cs).

(** The moves of the status. *)
Definition status_step (a b : SessionStatus) : bool :=
  match a, b with
  | Closed _, _ => false
  | _, Closed _ => true
  | Connected, Petitioning | Connected, Idle | Idle, Connected
  | Petitioning, Connected | Petitioning, Active _ => true
  | _, _ => false
  end.
Fixpoint status_path (from : SessionStatus) (l : list SessionStatus) (to : SessionStatus) : Prop :=
  match l with
  | [] => from = to
  | st :: l => status_step from st = true /\ status_path st l to
  end.
Definition effect_status (e : Effect) : option SessionStatus := match e with StatusSet st => Some st | _ => None end.
Definition statuses (l : list Effect) : list SessionStatus := omap effect_status l.

(** A sent request: retransmitted at most twice, and addressed to the border
    agent unless a handle submitted it. *)
Definition pending_ok (p : PendingExchange) : Prop :=
  (is_application (completion p) = false -> destination p = BorderAgent) /\
  match retransmit p with
  | Some r => 0 <= retransmissions r <= 2 /\ (retry_at p <> None -> retransmissions r <= 1) /\ 0 < sched_timeout r
  | None => retry_at p = None
  end.

(** Entries are in the order of their times, which have passed. *)
Fixpoint answered_ok (t : Z) (l : AnsweredMessages) : Prop :=
  match l with
  | [] => True
  | e :: l => an_at e <= t /\ Forall (fun e' => an_at e <= an_at e') l /\ answered_ok t l
  end.

(** What surrounds the exchanges. *)
Record env_ok (s : State) : Prop := {
  e_length : (length (in_flight (ex s)) <= 4)%nat;
  e_mid : is_u16 (next_message_id (driver s));
  e_sessions : map_Forall (fun _ session => js_wf session) (joiner_sessions (driver s));
  e_ticks : Forall (Z.le 0) (ticks (clock s));
  e_answered : answered_ok (clock_now (clock s)) (answered (driver s)) /\ len (answered (driver s)) <= 64;
  e_deadline : Forall (fun p => deadline p <= clock_now (clock s) + COAP_EXCHANGE_TIMEOUT) (in_flight (ex s)) }.

Record core (R : list nat) (cs : list Completion) (s : State) : Prop := {
  c_app : application_in_flight (ex s) <= 1;
  c_petition : closed s \/ count is_petition (taken cs s) = (if decide (status (driver s) = Petitioning) then 1 else 0)%nat;
  c_keep_alive : (count is_keep_alive (taken cs s) <= 1)%nat;
  c_resign : (count is_resign (taken cs s) <= 1)%nat;
  c_active : (0 < count is_keep_alive (taken cs s) + count is_resign (taken cs s))%nat ->
    closed s \/ is_active (status (driver s)) = true;
  c_timer : keep_alive_at (driver s) <> None ->
    is_active (status (driver s)) = true /\ count is_keep_alive (taken cs s) = 0%nat;
  c_closed : closed s -> ex s = Exchanges_default /\ link_open (driver s) = false /\
    keep_alive_at (driver s) = None /\ joiner_sessions (driver s) = ∅;
  c_idle : status (driver s) = Idle -> ex s = Exchanges_default /\ link_open (driver s) = false;
  c_queued : Forall (fun q => is_application q.2 = true) (queued (ex s));
  c_pending : Forall pending_ok (in_flight (ex s));
  c_tokens : NoDup (map (fun p => token (request p)) (in_flight (ex s)));
  c_ledger : replied (log s) ++ owed cs s ≡ₚ R;
  c_status : status_path Connected (statuses (log s)) (status (driver s));
  c_env : env_ok s }.

(** A free slot is not kept from a queued request. *)
Definition working (s : State) : Prop := queued (ex s) <> [] -> 1 <= application_in_flight (ex s).

(** ** Steps that leave the exchanges and the status alone *)

Definition silent (e : Effect) : Prop := effect_reply e = None /\ effect_status e = None.

Record quiet (s s' : State) : Prop := {
  q_link : link_open (driver s') = link_open (driver s);
  q_status : status (driver s') = status (driver s);
  q_exchanges : ex s' = ex s;
  q_timer : keep_alive_at (driver s') = keep_alive_at (driver s);
  q_dropped : handles_dropped (driver s') = handles_dropped (driver s);
  q_clock : clock_now (clock s) <= clock_now (clock s');
  q_log : exists l, log s' = log s ++ l /\ Forall silent l;
  q_sessions : closed s -> joiner_sessions (driver s') = joiner_sessions (driver s) }.

Lemma quiet_closed s s' : quiet s s' -> is_closed (driver s') = is_closed (driver s).
Proof. intros H. unfold is_closed. by rewrite (q_status _ _ H). Qed.

#[global] Instance quiet_refl : Reflexive quiet.
Proof. intros s. split; try done. exists []. rewrite app_nil_r. by split. Qed.
#[global] Instance quiet_trans : Transitive quiet.
Proof.
  intros s1 s2 s3 H12 H23. pose proof (quiet_closed _ _ H12) as Hc.
  destruct H12 as [A1 A2 A3 A4 A5 A6 (l & A7 & A8) A9], H23 as [B1 B2 B3 B4 B5 B6 (l' & B7 & B8) B9].
  split; try congruence; [lia| |].
  - exists (l ++ l'). rewrite B7, A7, (assoc_L (++)). split; [done|]. by apply Forall_app.
  - intros Hs. rewrite B9, A9 by congruence. done.
Qed.

Lemma silent_replied l l' : Forall silent l' -> replied (l ++ l') = replied l.
Proof.
  intros H. unfold replied. rewrite omap_app. replace (omap effect_reply l') with (@nil nat); [apply app_nil_r|].
  induction H as [|e l' [He _] _ IH]; [done|]. cbn. by rewrite He.
Qed.
Lemma silent_statuses l l' : Forall silent l' -> statuses (l ++ l') = statuses l.
Proof.
  intros H. unfold statuses. rewrite omap_app. replace (omap effect_status l') with (@nil SessionStatus); [apply app_nil_r|].
  induction H as [|e l' [_ He] _ IH]; [done|]. cbn. by rewrite He.
Qed.

Lemma core_quiet R cs s s' : quiet s s' -> env_ok s' -> core R cs s -> core R cs s'.
Proof.
  intros Hq He [C1 C2 C3 C4 C5 C6 C7 C8 C9 C10 C11 C12 C13 C14]. pose proof (quiet_closed _ _ Hq) as Hc.
  destruct Hq as [A1 A2 A3 A4 A5 A6 (l & A7 & A8) A9].
  assert (taken cs s' = taken cs s) as Ht by (unfold taken; by rewrite A3).
  assert (owed cs s' = owed cs s) as Ho by (unfold owed; by rewrite A3).
  split; rewrite ?Ht, ?Ho, ?A1, ?A2, ?A3, ?A4, ?A7, ?silent_replied, ?silent_statuses, ?Hc by done; auto.
  intros H. destruct (C7 H) as (? & ? & ? & ?). by rewrite A9.
Qed.

Lemma core_env R cs s : core R cs s -> env_ok s.
Proof. by destruct 1. Qed.

(** A method all of whose outcomes are quiet, as long as the session is open. *)
Definition still {E A} (m : M State E A) (Q : A -> Prop) : Prop := forall s, env_ok s -> is_closed (driver s) = false ->
  wp m (fun a s' => (quiet s s' /\ env_ok s') /\ Q a) (fun _ s' => quiet s s' /\ env_ok s') s.

(** The same of a method without errors. *)
Definition calm {E A} (m : M State E A) (Q : A -> Prop) : Prop := forall s, env_ok s ->
  wp m (fun a s' => (quiet s s' /\ env_ok s') /\ Q a) (fun _ _ => False) s.
Lemma calm_still {E A} (m : M State E A) Q : calm m Q -> still m Q.
Proof. intros Hm s Hs _. eapply wp_mono; [by apply Hm|done|done]. Qed.
Lemma wp_attempt {E E' A} (m : M State E' A) (Q : E' + A -> State -> Prop) s :
  wp m (fun a => Q (inr a)) (fun e => Q (inl e)) s -> wp (@attempt _ _ _ E E' A m) Q (fun _ _ => False) s.
Proof. unfold wp, attempt. by destruct (m s) as [s' [a|e|f]]. Qed.

Lemma still_bind {E A B} (m : M State E A) (k : A -> M State E B) P Q :
  still m P -> (forall a, P a -> still (k a) Q) -> still (mbind m k) Q.
Proof.
  intros Hm Hk s Hs Hc. apply wp_bind. eapply wp_mono; [by apply Hm| |done].
  intros a s1 [[Hq Hs1] Ha]. eapply wp_mono; [apply (Hk a Ha); [done|by rewrite (quiet_closed _ _ Hq)]| |].
  - intros b s2 [[Hq2 Hs2] Hb]. split; [|done]. split; [by etrans|done].
  - intros e s2 [Hq2 Hs2]. split; [by etrans|done].
Qed.
Lemma still_ret {E A} (a : A) (Q : A -> Prop) : Q a -> still (@mret State E A a) Q.
Proof. intros Ha s Hs _. by split. Qed.
Lemma still_err {E A} (e : E) (Q : A -> Prop) : still (@merr State E A e) Q.
Proof. intros s Hs _. by split. Qed.
Lemma still_lift {E A} (r : result E A) (Q : A -> Prop) : safe r -> (forall a, r = Ok a -> Q a) -> still (mlift r) Q.
Proof. intros Hr HQ s Hs _. apply wp_lift; [done| |done]. intros a Ha. split; [done|by apply HQ]. Qed.
Lemma still_get {E A} (f : Driver -> A) (Q : A -> Prop) : (forall s, env_ok s -> Q (f (driver s))) -> still (@get _ _ _ E A f) Q.
Proof. intros Hf s Hs _. split; [done|by apply Hf]. Qed.
Lemma still_weaken {E A} (m : M State E A) (P Q : A -> Prop) : still m P -> (forall a, P a -> Q a) -> still m Q.
Proof. intros Hm H s Hs Hc. eapply wp_mono; [by apply Hm| |done]. intros a s' [? ?]. auto. Qed.
Lemma still_settled {E A} (r : result Error A) (Q : Error + A -> Prop) :
  safe r -> (forall a, r = Ok a -> Q (inr a)) -> (forall e, Q (inl e)) -> still (@settled _ _ _ E A r) Q.
Proof.
  intros Hr H1 H2 s Hs _. unfold wp, settled, attempt, mlift. destruct r; [|by split|done]. split; [done|auto].
Qed.
Lemma still_attempt {E E' A} (m : M State E' A) (Q : A -> Prop) :
  still m Q -> still (@attempt _ _ _ E E' A m) (fun r => match r with inr a => Q a | inl _ => True end).
Proof.
  intros Hm s Hs Hc. specialize (Hm s Hs Hc). unfold wp, attempt in *. by destruct (m s) as [s' [a|e|f]].
Qed.

Lemma instant_now_ok c : Forall (Z.le 0) (ticks c) -> let '(t, c') := instant_now c in
  clock_now c <= t /\ clock_now c' = t /\ Forall (Z.le 0) (ticks c').
Proof. unfold instant_now. destruct c as [t [|d l]]; cbn; intros H; [split; [lia|done]|]. inversion H; subst. split; [lia|done]. Qed.

Lemma answered_later t t' l : t <= t' -> answered_ok t l -> answered_ok t' l.
Proof. intros Ht. induction l as [|e l IH]; [done|]. cbn. intros (? & ? & ?). split; [lia|auto]. Qed.

Lemma env_clock s c : env_ok s -> clock_now (clock s) <= clock_now c -> Forall (Z.le 0) (ticks c) ->
  quiet s (with_clock c s) /\ env_ok (with_clock c s).
Proof.
  intros [E1 E2 E3 E4 [E5 E6] E9] Hc Ht. split.
  - split; try done. exists []. by rewrite app_nil_r.
  - split; try done; cbn.
    + split; [|done]. by eapply answered_later.
    + eapply Forall_impl; [exact E9|]. cbn. intros p Hp. lia.
Qed.

Lemma now_ok {E} s : env_ok s ->
  wp (@now _ _ _ E) (fun t s' => (quiet s s' /\ env_ok s') /\ t = clock_now (clock s')) (fun _ _ => False) s.
Proof.
  intros Hs. unfold wp, now. pose proof (instant_now_ok (clock s) (e_ticks _ Hs)) as H.
  destruct (instant_now (clock s)) as [t c]. destruct H as (H1 & H2 & H3). split; [|done]. apply env_clock; [done|lia|done].
Qed.
Lemma calm_now {E} : calm (@now _ _ _ E) (fun _ => True).
Proof. intros s Hs. eapply wp_mono; [by apply now_ok| |done]. intros t s' [H _]. by split. Qed.

Lemma still_now {E} : still (@now _ _ _ E) (fun _ => True).
Proof. apply calm_still, calm_now. Qed.

Lemma env_rng s g : env_ok s -> quiet s (with_osrng g s) /\ env_ok (with_osrng g s).
Proof.
  intros [E1 E2 E3 E4 E5 E9]. split; [|by split]. split; try done. exists []. by rewrite app_nil_r.
Qed.
Lemma calm_u32 {E} : calm (@next_u32 _ _ _ E) is_u32.
Proof.
  intros s Hs. unfold wp, next_u32. pose proof (os_u32_ok (osrng s)) as H. destruct (os_next_u32 (osrng s)) as [n g].
  split; [by apply env_rng|done].
Qed.

Lemma env_effect e s : silent e -> env_ok s -> quiet s (record_effect e s) /\ env_ok (record_effect e s).
Proof.
  intros He [E1 E2 E3 E4 E5 E9]. split; [|by split]. split; try done. exists [e]. split; [done|]. by constructor.
Qed.
Lemma calm_publish {E} ev : calm (@publish _ _ _ E ev) (fun _ => True).
Proof. intros s Hs. split; [by apply env_effect|done]. Qed.
Lemma still_publish {E} ev : still (@publish _ _ _ E ev) (fun _ => True).
Proof. apply calm_still, calm_publish. Qed.

Lemma still_modify {E} (f : Driver -> Driver) : (forall s, env_ok s -> is_closed (driver s) = false -> quiet s (upd_driver f s) /\ env_ok (upd_driver f s)) ->
  still (@modify _ _ _ E f) (fun _ => True).
Proof. intros Hf s Hs Hc. split; [by apply Hf|done]. Qed.

Notation tokens s := (map (fun p => token (request p)) (in_flight (ex s))).

Lemma draw_token_ok {E} fuel s n : env_ok s -> (n < fuel)%nat ->
  (os_fill_bytes (Nat.iter n (fun g => (os_fill_bytes g TOKEN_LENGTH).2) (osrng s)) TOKEN_LENGTH).1 ∉ tokens s ->
  wp (@draw_token _ _ _ E fuel) (fun tok s' => (quiet s s' /\ env_ok s') /\ tok ∉ tokens s /\ len tok = 4) (fun _ _ => False) s.
Proof.
  revert s n. induction fuel as [|fuel IH]; intros s n Hs Hn Hf; [lia|]. unfold wp. cbn [draw_token].
  pose proof (os_bytes_len (osrng s) TOKEN_LENGTH ltac:(done)) as Hlen.
  destruct (os_fill_bytes (osrng s) TOKEN_LENGTH) as [tok g] eqn:Eg. cbn [fst] in Hlen. destruct (env_rng s g Hs) as [Hq Hs'].
  cbn [driver with_osrng]. destruct (existsb _ _) eqn:Ex; cbn [negb].
  - destruct n as [|n].
    { exfalso. apply Hf. cbn. rewrite Eg. cbn. apply existsb_exists in Ex as (p & Hp & Ht). unfold vec_eqb in Ht.
      zbool. subst tok. apply list_elem_of_fmap. exists p. split; [done|]. by apply list_elem_of_In. }
    rewrite Nat.iter_succ_r, Eg in Hf. cbn in Hf. specialize (IH (with_osrng g s) n Hs' ltac:(lia) Hf). unfold wp in IH.
    destruct (draw_token _ _) as [s' [a|e|f]]; [|done..]. destruct IH as [[? ?] ?]. split; [|done]. split; [by etrans|done].
  - split; [done|]. split; [|done]. intros Hin. apply list_elem_of_fmap in Hin as (p & -> & Hp%list_elem_of_In).
    enough (existsb (fun pending => vec_eqb (token (request pending)) (token (request p))) (in_flight (ex s)) = true) by congruence.
    apply existsb_exists. exists p. split; [done|]. unfold vec_eqb. by apply bool_decide_true.
Qed.

Lemma assign_identity_ok {E} m s : env_ok s ->
  wp (@assign_identity _ _ _ E m) (fun m' s' => (quiet s s' /\ env_ok s') /\
    m' = set_identity (message_id m') (token m') m /\ token m' ∉ tokens s /\ len (token m') = 4) (fun _ _ => False) s.
Proof.
  intros Hs. unfold assign_identity. apply wp_bind. unfold modify, mset, wp at 1.
  set (s1 := upd_driver _ s). assert (quiet s s1 /\ env_ok s1) as [Hq1 Hs1].
  { destruct Hs as [E1 E2 E3 E4 E5 E9]. split; [split; try done; exists []; by rewrite app_nil_r|]. split; try done.
    cbn. apply Z.mod_pos_bound. lia. }
  apply wp_bind. unfold get, mget, wp at 1. apply wp_bind.
  destruct (os_fresh (osrng s1) (tokens s1)) as (n & Hn & Hf).
  { rewrite length_map. apply Hs1. }
  eapply wp_mono; [by eapply (draw_token_ok _ s1 n)| |done]. intros tok s' ([Hq Hs'] & Ht & Hl).
  split; [|done]. split; [by etrans|done].
Qed.
Lemma still_assign {E} m : still (@assign_identity _ _ _ E m) (fun _ => True).
Proof.
  intros s Hs _. eapply wp_mono; [by apply assign_identity_ok| |done]. intros m' s' [H _]. by split.
Qed.

Lemma still_wire m d : still (@wire_message _ _ _ m d) (fun _ => True).
Proof.
  unfold wire_message. destruct d as [|a p]; [by apply still_ret|].
  eapply (still_bind _ _ (fun _ => True)); [apply still_lift; [apply CoapMessage_encode_safe|done]|]. intros inner _.
  eapply (still_bind _ _ (fun _ => True)); [apply still_lift; [apply udp_tx_request_safe|done]|]. intros outer _.
  apply still_assign.
Qed.

Lemma env_send_results s l : env_ok s -> quiet s (with_send_results l s) /\ env_ok (with_send_results l s).
Proof.
  intros [E1 E2 E3 E4 E5 E9]. split; [|by split]. split; try done. exists []. by rewrite app_nil_r.
Qed.

Lemma still_send m : still (@link_send _ _ _ m) (fun _ => True).
Proof.
  unfold link_send. eapply (still_bind _ _ (fun _ => True)); [by apply still_get|]. intros b _.
  destruct (negb b); [apply still_err|]. eapply (still_bind _ _ (fun _ => True)).
  { apply still_lift; [apply CoapMessage_encode_safe|done]. }
  intros _ _ s Hs _. unfold wp, send_application_data. destruct (send_results s) as [|[e|] l].
  - split; [by apply env_effect|done].
  - by apply env_send_results.
  - split; [|done]. destruct (env_effect (Sent m) s) as [H1 H2]; [done..|].
    destruct (env_send_results _ l H2) as [H3 H4]. split; [by etrans|done].
Qed.

Lemma still_send_reply m d : still (@send_reply _ _ _ m d) (fun _ => True).
Proof. eapply still_bind; [apply still_wire|]. intros w _. apply still_send. Qed.

(** ** Answered messages *)

Lemma forget_expired_ok l c : Forall (Z.le 0) (ticks c) -> answered_ok (clock_now c) l ->
  let '(l', c') := forget_expired l c in
  clock_now c <= clock_now c' /\ Forall (Z.le 0) (ticks c') /\ answered_ok (clock_now c') l' /\
  l' = List.filter (fun e => negb (EXCHANGE_LIFETIME <=? elapsed (clock_now c') (an_at e))) l.
Proof.
  revert c. induction l as [|e l IH]; intros c Ht Hl; cbn [forget_expired]; [split; [lia|done]|].
  pose proof (instant_now_ok c Ht) as H. destruct (instant_now c) as [t c1]. destruct H as (H1 & H2 & H3).
  pose proof Hl as (Hle & Hall & Hok). destruct (EXCHANGE_LIFETIME <=? elapsed t (an_at e)) eqn:Ex.
  - specialize (IH c1 H3). destruct (forget_expired l c1) as [l' c'].
    destruct IH as (I1 & I2 & I3 & I4); [eapply answered_later; [|done]; lia|].
    split; [lia|]. split; [done|]. split; [done|]. cbn [List.filter].
    replace (EXCHANGE_LIFETIME <=? elapsed (clock_now c') (an_at e)) with true; [done|].
    symmetry. unfold elapsed in *. zbool. apply Z.leb_le. lia.
  - rewrite H2. split; [lia|]. split; [done|]. split; [by eapply answered_later|].
    assert (forall e', In e' (e :: l) -> (EXCHANGE_LIFETIME <=? elapsed t (an_at e')) = false) as Hk.
    { intros e' [<-|Hin]; [done|]. rewrite Forall_forall in Hall. apply list_elem_of_In in Hin.
      specialize (Hall _ Hin). unfold elapsed in *. zbool. apply Z.leb_gt. lia. }
    clear -Hk. induction (e :: l) as [|x xs IHx]; [done|]. cbn [List.filter]. rewrite Hk by by left.
    cbn [negb]. f_equal. apply IHx. intros ? ?. apply Hk. by right.
Qed.

Lemma answered_ok_drop t n l : answered_ok t l -> answered_ok t (drop n l).
Proof. revert n. induction l as [|e l IH]; intros [|n]; try done. cbn. intros (_ & _ & H). by apply IH. Qed.
Lemma answered_ok_snoc t l e : answered_ok t l -> Forall (fun e' => an_at e' <= an_at e) l -> an_at e <= t ->
  answered_ok t (l ++ [e]).
Proof.
  intros Hl Hf He. induction l as [|x l IH]; [by repeat split|]. cbn in *. destruct Hl as (H1 & H2 & H3).
  pose proof (Forall_inv Hf) as Hx. pose proof (Forall_inv_tail Hf) as Hl. cbn in Hx. split; [done|]. split; [|by apply IH].
  apply Forall_app. split; [done|]. by constructor.
Qed.
Lemma answered_ok_times t l : answered_ok t l -> Forall (fun e => an_at e <= t) l.
Proof. induction l as [|e l IH]; [done|]. cbn. intros (? & _ & ?). constructor; auto. Qed.
Lemma answered_ok_filter t p l : answered_ok t l -> answered_ok t (List.filter p l).
Proof.
  induction l as [|e l IH]; [done|]. cbn. intros (H1 & H2 & H3). case_match; [|by apply IH]. cbn.
  split; [done|]. split; [|by apply IH]. rewrite List.Forall_forall in *. intros x [Hx _]%filter_In. by apply H2.
Qed.
Lemma filter_length_le {A} p (l : list A) : len (List.filter p l) <= len l.
Proof. induction l as [|x l IH]; [done|]. cbn [List.filter]. case_match; rewrite ?len_cons; lia. Qed.

Lemma env_answered s l c : env_ok s -> clock_now (clock s) <= clock_now c -> Forall (Z.le 0) (ticks c) ->
  answered_ok (clock_now c) l -> len l <= 64 ->
  quiet s (with_clock c (upd_driver (d_answered l) s)) /\ env_ok (with_clock c (upd_driver (d_answered l) s)).
Proof.
  intros [E1 E2 E3 E4 E5 E9] H1 H2 H3 H4. split; [split; try done; exists []; by rewrite app_nil_r|].
  split; try done; cbn. eapply Forall_impl; [exact E9|]. cbn. intros p Hp. lia.
Qed.

Lemma still_reply_to {E} d mid : still (@with_answered _ _ _ E _ (reply_to d mid)) (fun _ => True).
Proof.
  intros s Hs _. pose proof Hs as [E1 E2 E3 E4 [E5 E6] E9]. unfold wp, with_answered, reply_to.
  pose proof (forget_expired_ok (answered (driver s)) (clock s) E4 E5) as H.
  destruct (forget_expired _ _) as [l c]. destruct H as (H1 & H2 & H3 & H4). split; [|done].
  apply env_answered; [done|lia|done|done|]. rewrite H4. etrans; [apply filter_length_le|done].
Qed.

Lemma still_remember {E} d mid m : still (@with_answered _ _ _ E _ (fun l c => (remember d mid m l c, tt))) (fun _ => True).
Proof.
  intros s Hs _. pose proof Hs as [E1 E2 E3 E4 [E5 E6] E9]. unfold wp, with_answered, remember.
  pose proof (forget_expired_ok (answered (driver s)) (clock s) E4 E5) as H.
  destruct (forget_expired _ _) as [l c]. destruct H as (H1 & H2 & H3 & H4).
  assert (len l <= 64) as Hl by (rewrite H4; etrans; [apply filter_length_le|done]).
  set (l' := if len l =? MAX_REMEMBERED then drop 1 l else l).
  assert (answered_ok (clock_now c) l' /\ len l' <= 63) as [Hl' Hn].
  { unfold l'. destruct (len l =? MAX_REMEMBERED) eqn:El; unfold MAX_REMEMBERED in El; zbool; [|split; [done|lia]].
    split; [by apply answered_ok_drop|]. rewrite (len_drop 1) by lia. lia. }
  pose proof (instant_now_ok c H2) as Hi. destruct (instant_now c) as [t c']. destruct Hi as (I1 & I2 & I3).
  split; [|done]. apply env_answered; [done|lia|done| |].
  - apply answered_ok_snoc; [eapply answered_later; [|done]; lia| |simpl; lia].
    eapply Forall_impl; [by apply answered_ok_times|]. intros e He. simpl in *. lia.
  - rewrite len_app. unfold len at 2. simpl. lia.
Qed.

Lemma still_reply m r d : still (@reply _ _ _ m r d) (fun _ => True).
Proof. eapply still_bind; [apply still_send_reply|]. intros _ _. apply still_remember. Qed.

Lemma still_answer_retransmission m d : still (@answer_retransmission _ _ _ m d) (fun _ => True).
Proof.
  unfold answer_retransmission. destruct (negb _); [by apply still_ret|].
  eapply still_bind; [apply still_reply_to|]. intros [r|] _; [|by apply still_ret].
  eapply still_bind; [apply still_send_reply|]. intros _ _. by apply still_ret.
Qed.

Lemma still_ack m : still (@ack_if_confirmable _ _ _ m) (fun _ => True).
Proof. unfold ack_if_confirmable. case_match; [apply still_reply|by apply still_ret]. Qed.

(** ** Relayed joiners *)

Lemma env_joiners s f : env_ok s -> is_closed (driver s) = false ->
  map_Forall (fun _ session => js_wf session) (f (joiner_sessions (driver s))) ->
  let s' := upd_driver (fun d => d_joiner_sessions (f (joiner_sessions d)) d) s in quiet s s' /\ env_ok s'.
Proof.
  intros [E1 E2 E3 E4 E5 E9] Hc Hf. split; [split; try done; [exists []; by rewrite app_nil_r|]|by split].
  cbn. congruence.
Qed.
Lemma env_handler s h : env_ok s -> quiet s (upd_driver (d_joiner_handler h) s) /\ env_ok (upd_driver (d_joiner_handler h) s).
Proof. intros [E1 E2 E3 E4 E5 E9]. split; [split; try done; exists []; by rewrite app_nil_r|by split]. Qed.

Lemma still_remove id : still (@modify _ _ _ Error (remove_session id)) (fun _ => True).
Proof.
  apply still_modify. intros s Hs Hc. apply (env_joiners s (delete id)); [done..|].
  apply map_Forall_delete, Hs.
Qed.
Lemma still_handler {E} h : still (@modify _ _ _ E (d_joiner_handler h)) (fun _ => True).
Proof. apply still_modify. intros s Hs _. by apply env_handler. Qed.

Lemma relay_events_safe id session evs h r : js_wf session -> safe (relay_events id session evs h r).
Proof.
  intros Hw. revert h r. induction evs as [|[d k| |a i] evs IH]; intros h r; cbn [relay_events]; auto; [done|].
  destruct k; [|apply IH]. pose proof (js_kek_safe session Hw) as Hk. destruct (js_router_kek session); [apply IH|done|done].
Qed.

Lemma still_publish_all {E} evs : still (@publish_all _ _ _ E evs) (fun _ => True).
Proof.
  induction evs as [|ev evs IH]; cbn [publish_all]; [by apply still_ret|].
  eapply still_bind; [apply still_publish|]. by intros _ _.
Qed.
Lemma still_transmit iid p loc l : still (@transmit_all _ _ _ iid p loc l) (fun _ => True).
Proof.
  induction l as [|[d k] l IH]; cbn [transmit_all]; [by apply still_ret|].
  eapply (still_bind _ _ (fun _ => True)); [apply still_lift; [apply relay_tx_safe|done]|]. intros m _.
  eapply still_bind; [apply still_assign|]. intros m' _. eapply still_bind; [apply still_send|]. by intros _ _.
Qed.

Lemma still_receive {E} id session h pl : js_wf session -> bytes_ok pl ->
  still (@session_receive _ _ _ E id session h pl) (fun r => js_wf r.1.1).
Proof.
  intros Hw Hp s Hs Hc. unfold wp, session_receive.
  destruct (js_receive_ok session (osrng s) h pl Hw Hp) as [Hr Hw'].
  destruct (js_receive session (osrng s) h pl) as [[[session' g] h'] r]. simpl in Hr, Hw'.
  destruct (env_rng s g Hs) as [Q1 H1]. destruct (env_handler _ (Some h') H1) as [Q2 H2].
  destruct (env_joiners _ (insert id session') H2 Hc) as [Q3 H3]; [by apply map_Forall_insert_2; [|apply Hs]|].
  assert (quiet s (upd_driver (fun d => put_session id session' (d_joiner_handler (Some h') d)) (with_osrng g s)) /\
    env_ok (upd_driver (fun d => put_session id session' (d_joiner_handler (Some h') d)) (with_osrng g s))) as [Q H].
  { split; [etrans; [exact Q1|etrans; [exact Q2|exact Q3]]|exact H3]. }
  by destruct r.
Qed.

Lemma still_session id session h pl : js_wf session -> bytes_ok pl ->
  still (@handle_session _ _ _ id session h pl) (fun _ => True).
Proof.
  intros Hw Hp. unfold handle_session. eapply still_bind; [by apply still_receive|].
  intros [[session' h'] [e|evs]] Hw'; [apply still_remove|].
  eapply (still_bind _ _ (fun _ => True)); [apply still_lift; [by apply relay_events_safe|done]|]. intros [h2 r] _.
  eapply still_bind; [apply still_handler|]. intros _ _. eapply still_bind; [apply still_publish_all|]. intros _ _.
  case_match; [apply still_remove|apply still_transmit].
Qed.

Lemma still_create iid p loc pskd t : still (@create_session _ _ _ iid p loc pskd t) (fun _ => True).
Proof.
  intros s Hs Hc. unfold wp, create_session. destruct (js_new_ok iid p loc pskd t (osrng s)) as (session & g & -> & Hw).
  split; [|done]. destruct (env_rng s g Hs) as [Q1 H1].
  destruct (env_joiners _ (insert (joiner_id_from_iid iid) session) H1 Hc) as [Q2 H2].
  { apply map_Forall_insert_2; [done|apply Hs]. }
  split; [by etrans|done].
Qed.

Lemma still_relay p loc iid pl : bytes_ok pl -> still (@handle_relay_rx _ _ _ p loc iid pl) (fun _ => True).
Proof.
  intros Hp. unfold handle_relay_rx. eapply still_bind; [apply still_now|]. intros t _.
  eapply still_bind; [apply still_modify|].
  { intros s Hs Hc. apply (env_joiners s (drop_expired t)); [done..|]. intros id0 se [Hse _]%map_lookup_filter_Some. by eapply (e_sessions _ Hs). }
  intros _ _. eapply (still_bind _ _ (fun _ => True)); [by apply still_get|]. intros [h|] _; [|by apply still_ret].
  eapply (still_bind _ _ (fun _ => True)); [by apply still_get|]. intros sessions _.
  eapply (still_bind _ _ (fun _ => True)).
  { case_match; [by apply still_ret|]. eapply (still_bind _ _ (fun _ => True)).
    - unfold ask_pskd. destruct (joiner_pskd h (joiner_id_from_iid iid)) as [o h']. eapply still_bind; [apply still_handler|].
      intros _ _. by apply still_ret.
    - intros [k|] _; [|by apply still_ret]. eapply still_bind; [apply still_create|]. intros _ _. by apply still_ret. }
  intros b _. destruct (negb b); [by apply still_ret|].
  eapply (still_bind _ _ (fun _ => True)); [by apply still_get|]. intros h' _.
  eapply (still_bind _ _ (map_Forall (fun _ session => js_wf session))); [apply still_get; by intros s []|].
  intros sessions' Hs. destruct h' as [h'|]; [|by apply still_ret]. destruct (sessions' !! _) as [session|] eqn:El; [|by apply still_ret].
  apply still_session; [by eapply Hs|done].
Qed.

(** ** Notifications *)

Lemma still_prefix {E} : still (@invalidate_prefix _ _ _ E) (fun _ => True).
Proof.
  intros s [E1 E2 E3 E4 E5 E9] _. split; [|done]. split; [|by split]. split; try done. exists []. by rewrite app_nil_r.
Qed.

Lemma relay_payload_ok m p loc iid pl : bytes_ok (payload m) ->
  parse_notification m = Ok (Some (RelayRx p loc iid pl)) -> bytes_ok pl.
Proof.
  intros Hm H. unfold parse_notification in H. apply rbind_ok in H as ([path|] & _ & H); [|done].
  repeat (destruct (vec_eqb _ _); [try done; inv_ok; try done|]); [|done].
  match goal with H : required_tlv _ TLV_JOINER_DTLS_ENCAPSULATION _ = Ok _ |- _ => apply ok_or_ok in H; revert H end.
  match goal with H : from_tlv (TlvSet_parse _) = Ok ?t |- _ => intros; by eapply (parse_tlvs_value (payload m) t) end.
Qed.

Lemma still_unsolicited ip m : bytes_ok (payload m) -> still (@route_unsolicited_message _ _ _ ip m) (fun _ => True).
Proof.
  intros Hm. unfold route_unsolicited_message.
  eapply still_bind; [apply (still_lift _ (fun n => parse_notification m = Ok n)); [by apply parse_notification_safe|done]|].
  intros [n|] Hn; [|by apply still_ret]. eapply (still_bind _ _ (fun _ => True)); [by apply still_get|]. intros h _.
  assert (still (let* _ := if is_dataset_changed n then invalidate_prefix else mret tt in
    let* _ := @publish _ _ _ Error (notification_to_event n ip) in mret true) (fun _ => True)) as Hpub.
  { apply (still_bind _ _ (fun _ => True)); [case_match; [apply still_prefix|by apply still_ret]|]. intros _ _.
    eapply still_bind; [apply still_publish|]. intros _ _. by apply still_ret. }
  destruct n as [| | | |p loc iid pl]; try exact Hpub. destruct h as [h|]; [|exact Hpub].
  eapply still_bind; [apply still_relay; by eapply relay_payload_ok|]. intros _ _. by apply still_ret.
Qed.

Lemma still_unsolicited_proxied m u d : bytes_ok (payload m) ->
  still (@route_unsolicited_proxied _ _ _ m u d) (fun _ => True).
Proof.
  intros Hm. unfold route_unsolicited_proxied.
  eapply (still_bind _ _ (fun _ => True)); [apply still_lift; [by apply parse_notification_safe|done]|].
  intros [n|] _; [|by apply still_ret].
  apply (still_bind _ _ (fun _ => True)); [case_match; [apply still_prefix|by apply still_ret]|]. intros _ _.
  eapply still_bind; [apply still_publish|]. intros _ _.
  apply (still_bind _ _ (fun _ => True)); [case_match; [apply still_reply|by apply still_ret]|]. intros _ _.
  by apply still_ret.
Qed.
End Core.
