(* ===== verification/SessionSafety.v ===== *)
(** * SessionSafety: what a commissioner session never does

    Every method of the session task of [SessionDriver] keeps the invariant of
    [SessionCore] and terminates without a panic, whatever the network and the
    application do.  The methods that call each other are specified through
    what they need of the [complete] they call: [closed_spec] on a session
    that has ended, [open_spec k] with at most [k] requests in the queue. *)
From stdpp Require Import gmap.
From S2P Require Import Prelude Text Tlv Errors Dataset Coap NetDiag Messages Joiner.
From S2P Require Import Commissioner SessionDriver SessionCore.

Section Safety.
Context {JH : JoinerHandler} {OR : OsRng} {OL : OsRngLaws} {JS : JoinerSessions} {JL : JoinerSessionsLaws}.
Context (config : CommissionerConfig).

Notation ex s := (exchanges (driver s)).
Notation closed s := (is_closed (driver s) = true).
Notation open s := (is_closed (driver s) = false).
Notation never := (fun _ _ => False).

(** ** Counting completions *)

Lemma count_cons p c l : count p (c :: l) = ((if p c then 1 else 0) + count p l)%nat.
Proof. unfold count. cbn. by destruct (p c). Qed.
Lemma count_app p l k : count p (l ++ k) = (count p l + count p k)%nat.
Proof. unfold count. by rewrite List.filter_app, length_app. Qed.
Lemma count_none p l : Forall (fun c => p c = false) l -> count p l = 0%nat.
Proof. induction 1 as [|c l Hc _ IH]; [done|]. by rewrite count_cons, Hc. Qed.
Lemma count_total l :
  length l = (count is_application l + count is_petition l + count is_keep_alive l + count is_resign l)%nat.
Proof. induction l as [|c l IH]; [done|]. rewrite !count_cons. cbn [length]. destruct c; cbn; lia. Qed.
Lemma count_app_in_flight s : application_in_flight (ex s) = Z.of_nat (count is_application (map completion (in_flight (ex s)))).
Proof.
  unfold application_in_flight, count, len. f_equal. induction (in_flight (ex s)) as [|p l IH]; [done|]. cbn.
  destruct (is_application (completion p)); cbn; by rewrite IH.
Qed.
Lemma taken_cons p c cs s : count p (taken (c :: cs) s) = ((if p c then 1 else 0) + count p (taken cs s))%nat.
Proof. unfold taken. rewrite !count_app, count_cons. lia. Qed.

Lemma owed_cons c cs s : owed (c :: cs) s ≡ₚ option_list (completion_reply c) ++ owed cs s.
Proof.
  unfold owed. rewrite !omap_app. cbn. destruct (completion_reply c) as [r|]; cbn; [|done].
  by rewrite !(assoc_L (++)), <- Permutation_middle.
Qed.

(** ** Taking a completion and answering it *)

Lemma core_take R c cs s : core R (c :: cs) s -> is_petition c = false \/ closed s ->
  exists R', R ≡ₚ option_list (completion_reply c) ++ R' /\ core R' cs s.
Proof.
  intros [C1 C2 C3 C4 C5 C6 C7 C8 C9 C10 C11 C12 C13 C14] Hc. rewrite !taken_cons in C2, C3, C4, C5, C6. rewrite taken_cons in C5.
  exists (replied (log s) ++ owed cs s). split.
  { rewrite <- C12, owed_cons, !(assoc_L (++)). f_equiv. apply Permutation_app_comm. }
  split; try done.
  - destruct Hc as [Hc|Hc]; [|by left]. by rewrite Hc in C2.
  - lia.
  - lia.
  - intros H. apply C5. lia.
  - intros H. destruct (C6 H) as [? ?]. split; [done|lia].
Qed.

Lemma replied_snoc l r a : replied (l ++ [Replied r a]) = replied l ++ [r].
Proof. unfold replied. by rewrite omap_app. Qed.

Lemma core_give R R' cs s r a : core R' cs s -> R ≡ₚ r :: R' -> core R cs (record_effect (Replied r a) s).
Proof.
  intros [C1 C2 C3 C4 C5 C6 C7 C8 C9 C10 C11 C12 C13 [E1 E2 E3 E4 E5 E9]] HR. split; try done.
  - cbn. rewrite replied_snoc, HR, <- C12. rewrite <- (assoc_L (++)). symmetry. apply Permutation_middle.
  - cbn. unfold statuses in *. by rewrite omap_app, app_nil_r.
Qed.

Lemma core_perm R R' cs s : core R cs s -> R ≡ₚ R' -> core R' cs s.
Proof. intros [C1 C2 C3 C4 C5 C6 C7 C8 C9 C10 C11 C12 C13 C14] H. split; try done. by rewrite C12. Qed.

Lemma reply_some_ok {E} R R' cs s r a : core R' cs s -> R ≡ₚ option_list r ++ R' ->
  wp (@reply_some _ _ _ E r a) (fun _ s' => core R cs s' /\ driver s' = driver s /\ clock s' = clock s) never s.
Proof.
  intros Hc HR. destruct r as [r|]; cbn in *; [split; [by eapply core_give|done]|]. split; [by eapply core_perm|done].
Qed.

(** ** What completing leaves of the exchanges *)

Definition not_due (t : Z) (p : PendingExchange) : Prop := t < deadline p /\ forall x, retry_at p = Some x -> t < x.

(** The exchanges in flight are [F], and at most one that satisfies [P] and is
    not due at [t]. *)
Definition grown (P : Completion -> Prop) (F : list PendingExchange) (t : Z) (l : list PendingExchange) : Prop :=
  l = F \/ exists p, l = F ++ [p] /\ P (completion p) /\ not_due t p.

Record frame_open (P : Completion -> Prop) (St : SessionStatus -> Prop) F t lo q (s : State) : Prop := {
  f_link : link_open (driver s) = lo;
  f_status : St (status (driver s));
  f_queued : (length (queued (ex s)) <= q)%nat;
  f_clock : t <= clock_now (clock s);
  f_grown : grown P F t (in_flight (ex s)) }.
Definition frame P St F t lo q (s : State) : Prop :=
  (closed s /\ St (status (driver s))) \/ frame_open P St F t lo q s.
Notation appl c := (is_application c = true).

Lemma frame_quiet P St F t lo q s s' : quiet s s' -> frame_open P St F t lo q s -> frame_open P St F t lo q s'.
Proof.
  intros [A1 A2 A3 A4 A5 A6 A7 A8] [F1 F2 F3 F4 F5]. split; [congruence|congruence| |lia|]; by rewrite A3.
Qed.
Lemma frame_open_weaken (P P' : Completion -> Prop) (St : SessionStatus -> Prop) F t lo q q' s :
  frame_open P St F t lo q s -> (forall c, P c -> P' c) -> (q <= q')%nat -> frame_open P' St F t lo q' s.
Proof.
  intros [F1 F2 F3 F4 F5] HP Hq. split; [done|done|lia|done|].
  destruct F5 as [->|(p & -> & Hp & Hd)]; [by left|]. right. exists p. auto.
Qed.
Lemma frame_weaken (P P' : Completion -> Prop) (St : SessionStatus -> Prop) F t lo q q' s :
  frame P St F t lo q s -> (forall c, P c -> P' c) -> (q <= q')%nat -> frame P' St F t lo q' s.
Proof. intros [H|H] HP Hq; [by left|right]. by eapply frame_open_weaken. Qed.

Lemma working_quiet s s' : quiet s s' -> working s -> working s'.
Proof. intros Hq. unfold working. by rewrite (q_exchanges _ _ Hq). Qed.
Lemma working_closed R cs s : core R cs s -> closed s -> working s.
Proof. intros Hc Hs. destruct (c_closed _ _ _ Hc Hs) as [He _]. unfold working. by rewrite He. Qed.

(** ** Responses *)

Definition outcome_ok (o : Error + option CoapMessage) : Prop := forall m, o = inr (Some m) -> bytes_ok (payload m).

Lemma response_ok o : outcome_ok o -> safe (response_required o) /\ forall m, response_required o = Ok m -> bytes_ok (payload m).
Proof.
  intros Ho. destruct o as [e|[m|]]; [done| |done]. cbn. unfold require_success_response.
  destruct (_ || _); [done|]. split; [done|]. intros m' [= <-]. by apply Ho.
Qed.
Lemma response_bind_safe {A} o (k : CoapMessage -> result Error A) :
  outcome_ok o -> (forall m, bytes_ok (payload m) -> safe (k m)) -> safe (rbind (response_required o) k).
Proof. intros Ho Hk. destruct (response_ok o Ho) as [Hs Hm]. apply safe_bind; auto. Qed.
Lemma petition_response_safe o : outcome_ok o -> safe (petition_response o).
Proof.
  intros Ho. apply response_bind_safe; [done|]. intros m Hm. apply safe_bind; [by apply parse_petition_response_safe|].
  intros p _. destruct (pet_state p); try done. apply safe_bind; [apply safe_ok_or|done].
Qed.
Lemma keep_alive_result_safe o : outcome_ok o -> safe (keep_alive_result o).
Proof.
  intros Ho. apply response_bind_safe; [done|]. intros m Hm. apply safe_bind; [by apply parse_state_response_safe|].
  intros st _. apply safe_ok_or.
Qed.
Lemma resign_result_safe o : outcome_ok o -> safe (resign_result o).
Proof.
  intros Ho. apply response_bind_safe; [done|]. intros m Hm. apply safe_bind; [by apply parse_state_response_safe|].
  intros [[]|] _; done.
Qed.

Lemma wp_settled {E A} (r : result Error A) (Q : Error + A -> State -> Prop) s :
  safe r -> (forall x, Q x s) -> wp (@settled _ _ _ E A r) Q never s.
Proof. intros Hr HQ. unfold wp, settled, attempt, mlift. destruct r; [apply HQ|apply HQ|done]. Qed.
Lemma wp_get {E A} (f : Driver -> A) (Q : A -> State -> Prop) (X : E -> State -> Prop) s : Q (f (driver s)) s -> wp (get f) Q X s.
Proof. done. Qed.
Lemma wp_modify {E} (f : Driver -> Driver) (Q : unit -> State -> Prop) (X : E -> State -> Prop) s :
  Q tt (upd_driver f s) -> wp (modify f) Q X s.
Proof. done. Qed.

(** ** The interface between the methods that call each other *)

Definition closed_spec {E} (rec : Completion -> Error + option CoapMessage -> M State E unit) : Prop :=
  forall R cs c o s, outcome_ok o -> core R (c :: cs) s -> closed s ->
    wp (rec c o) (fun _ s' => core R cs s' /\ status (driver s') = status (driver s)) never s.

(** [St] is what the status is known to be; completing the request of a handle
    changes it only when a send fails. *)
Definition open_spec {E} (k : nat) (rec : Completion -> Error + option CoapMessage -> M State E unit) : Prop :=
  forall R cs c o s (St : SessionStatus -> Prop) F t lo q, outcome_ok o -> core R (c :: cs) s -> open s ->
    (length (queued (ex s)) <= k)%nat -> frame_open (fun c => appl c) St F t lo q s ->
    (forall e, St (Closed (TransportFailed e))) -> appl c \/ (working s /\ forall st, St st) ->
    wp (rec c o) (fun _ s' => core R cs s' /\ frame (fun c => appl c) St F t lo q s' /\ working s') never s.

(** ** Ending the session *)

Lemma schedule_ok {E} R cs s : core R cs s -> count is_keep_alive (taken cs s) = 0%nat ->
  wp (@schedule_keep_alive _ _ _ config E) (fun _ s' => core R cs s' /\ ex s' = ex s /\ status (driver s') = status (driver s) /\
    link_open (driver s') = link_open (driver s) /\ clock_now (clock s) <= clock_now (clock s')) never s.
Proof.
  intros Hc Hk. unfold schedule_keep_alive. apply wp_bind, wp_get. destruct (_ && _) eqn:Eb; [|by split].
  apply andb_true_iff in Eb as [_ Hsid%bool_decide_eq_true_1]. apply wp_bind.
  assert (open s) as Ho by (unfold is_closed; unfold session_id in Hsid; destruct (status (driver s)); try done; by destruct Hsid).
  eapply wp_mono; [apply (calm_now s), Hc| |done].
  intros t s1 [[Hq He] _]. apply wp_modify. pose proof (core_quiet _ _ _ _ Hq He Hc) as [C1 C2 C3 C4 C5 C6 C7 C8 C9 C10 C11 C12 C13 [E1 E2 E3 E4 E5 E9]].
  pose proof (quiet_closed _ _ Hq) as Hcl. destruct Hq as [A1 A2 A3 A4 A5 A6 A7 A8].
  assert (is_active (status (driver s1)) = true) as Ha.
  { rewrite A2. unfold session_id in Hsid. destruct (status (driver s)); try done; by destruct Hsid. }
  split; [|done]. split; try done.
  - intros _. split; [done|]. by unfold taken in *; cbn; rewrite A3.
  - cbn. unfold is_closed. cbn. by destruct (status (driver s1)).
Qed.

Lemma closed_session_id (s : State) : closed s -> session_id (driver s) = None.
Proof. unfold is_closed, session_id. by destruct (status (driver s)). Qed.

Lemma send_queued_empty {E} (rec : Completion -> Error + option CoapMessage -> M State E unit) s :
  queued (ex s) = [] -> send_queued rec s = (s, Ok tt).
Proof.
  intros Hq. unfold send_queued. rewrite Hq. cbn [length send_loop]. unfold get, mget, mbind.
  destruct (_ <? _); [by rewrite Hq|done].
Qed.

(** Answering on a session that has ended. *)
Lemma end_closed {E} (rec : Completion -> Error + option CoapMessage -> M State E unit) reason s :
  closed s -> end_session rec reason s = (s, Ok tt).
Proof. intros Hs. unfold end_session, get, mget, mbind. by rewrite Hs. Qed.

Lemma wp_eq {E A} (m : M State E A) (Q : A -> State -> Prop) (X : E -> State -> Prop) s s' a :
  m s = (s', Ok a) -> Q a s' -> wp m Q X s.
Proof. unfold wp. by intros ->. Qed.

Lemma wp_effect {E} e (Q : unit -> State -> Prop) (X : E -> State -> Prop) s : Q tt (record_effect e s) -> wp (effect e) Q X s.
Proof. done. Qed.
Lemma core_silent R cs e s : silent e -> core R cs s -> core R cs (record_effect e s).
Proof. intros He Hc. destruct (env_effect e s He (c_env _ _ _ Hc)). by eapply core_quiet. Qed.

(** The exchanges, the status and the link are untouched. *)
Definition kept (s s' : State) : Prop :=
  ex s' = ex s /\ status (driver s') = status (driver s) /\ link_open (driver s') = link_open (driver s) /\
  clock_now (clock s) <= clock_now (clock s').

Lemma keep_alive_outcome_ok {E} (rec : Completion -> Error + option CoapMessage -> M State E unit) o r R cs s (Ended : State -> Prop) :
  outcome_ok o -> core R (CKeepAlive r :: cs) s ->
  (forall s1 reason, core R cs s1 -> driver s1 = driver s ->
     wp (end_session rec reason) (fun _ s' => core R cs s' /\ Ended s') never s1) ->
  wp (keep_alive_outcome config rec o r) (fun _ s' => core R cs s' /\ (Ended s' \/ kept s s')) never s.
Proof.
  intros Ho Hc Hend. destruct (core_take _ _ _ _ Hc (or_introl eq_refl)) as (R' & HR & Hc'). cbn in HR.
  assert (count is_keep_alive (taken cs s) = 0%nat) as Hk.
  { pose proof (c_keep_alive _ _ _ Hc) as H. rewrite taken_cons in H. cbn in H. lia. }
  unfold keep_alive_outcome. apply wp_bind, wp_settled; [by apply keep_alive_result_safe|]. intros res. apply wp_bind.
  eapply (wp_mono _ (fun _ s1 => core R' cs s1 /\ driver s1 = driver s /\ clock s1 = clock s) _ never never); [| |done].
  { destruct res as [e|code]; [done|]. apply wp_bind, wp_effect. split; [by apply core_silent|done]. }
  intros ending s1 (H1 & D1 & K1). apply wp_bind. eapply wp_mono; [by eapply reply_some_ok| |done].
  intros [] s2 (H2 & D2 & K2). rewrite D1 in D2. rewrite K1 in K2. destruct ending as [reason|].
  - eapply wp_mono; [by apply Hend| |done]. intros _ s' [? ?]. auto.
  - assert (count is_keep_alive (taken cs s2) = 0%nat) as Hk2 by (unfold taken; by rewrite D2).
    eapply wp_mono; [by eapply schedule_ok| |done]. intros _ s' (Hc3 & E3 & S3 & L3 & T3). split; [done|]. right.
    unfold kept. rewrite D2, K2 in *. done.
Qed.

Lemma body_closed {E} (rec : Completion -> Error + option CoapMessage -> M State E unit) : closed_spec (complete_body config rec).
Proof.
  intros R cs c o s Ho Hc Hs. destruct (c_closed _ _ _ Hc Hs) as (He & _).
  destruct c as [id r|r|r|r]; cbn [complete_body].
  4: assert (safe (resign_result o)) by by apply resign_result_safe.
  1,2,4: destruct (core_take _ _ _ _ Hc (or_intror Hs)) as (R' & HR & Hc').
  - apply wp_bind, wp_effect. eapply wp_eq; [apply send_queued_empty; cbn; by rewrite He|].
    split; [by eapply core_give|done].
  - apply wp_bind. unfold petition_outcome. apply wp_bind, wp_settled; [by apply petition_response_safe|]. intros res.
    apply wp_bind, wp_get. rewrite Hs. split; [by eapply core_give|done].
  - apply wp_bind, wp_settled; [done|]. intros res. apply wp_bind. eapply wp_eq; [by apply end_closed|].
    eapply wp_mono; [by eapply reply_some_ok| |done]. intros [] s1 (H1 & D1 & _). split; [done|congruence].
  - eapply wp_mono; [eapply (keep_alive_outcome_ok rec o r R cs s (fun s' => status (driver s') = status (driver s))); [done|done|]| |done].
    + intros s1 reason H1 D1. eapply wp_eq; [apply end_closed; by rewrite D1|]. split; [done|by rewrite D1].
    + intros _ s' [H1 [H2|(_ & H2 & _)]]; by split.
Qed.

(** What closing an open session leaves. *)
Definition close_state (reason : CloseReason) (s : State) : State :=
  upd_driver (d_exchanges Exchanges_default) (upd_driver (d_link_open false) (upd_driver (d_joiner_sessions ∅)
    (upd_driver (d_keep_alive_at None) (record_effect (StatusSet (Closed reason)) (upd_driver (d_status (Closed reason)) s))))).

Lemma status_path_snoc from l a b : status_path from l a -> status_step a b = true -> status_path from (l ++ [b]) b.
Proof.
  revert from. induction l as [|x l IH]; intros from; cbn.
  - by intros <- ?.
  - intros [? ?] ?. auto.
Qed.
Lemma statuses_snoc l st : statuses (l ++ [StatusSet st]) = statuses l ++ [st].
Proof. unfold statuses. by rewrite omap_app. Qed.
Lemma replied_status l st : replied (l ++ [StatusSet st]) = replied l.
Proof. unfold replied. by rewrite omap_app, app_nil_r. Qed.

Lemma core_close R cs s reason : core R cs s -> open s ->
  core R ((map completion (in_flight (ex s)) ++ map snd (queued (ex s))) ++ cs) (close_state reason s).
Proof.
  intros [C1 C2 C3 C4 C5 C6 C7 C8 C9 C10 C11 C12 C13 [E1 E2 E3 E4 E5 E9]] Ho.
  assert (forall p, (forall c, appl c -> p c = false) -> count p (map snd (queued (ex s))) = 0%nat) as Hq.
  { intros p Hp. apply count_none. rewrite Forall_map. eapply Forall_impl; [exact C9|]. intros q Hqa. by apply Hp. }
  assert (forall p, (forall c, appl c -> p c = false) ->
    count p (taken ((map completion (in_flight (ex s)) ++ map snd (queued (ex s))) ++ cs) (close_state reason s)) =
    count p (taken cs s)) as Hp.
    intros p Hpa. unfold taken. change (in_flight (ex (close_state reason s))) with (@nil PendingExchange).
    cbn [map app]. rewrite !count_app, (Hq p Hpa). lia.
  split; try done.
  - by left.
  - rewrite Hp; [done|]. by intros [].
  - rewrite Hp; [done|]. by intros [].
  - by left.
  - constructor.
  - cbn. rewrite replied_status, <- C12. f_equiv. unfold owed. cbn. by rewrite <- (assoc_L (++)).
  - cbn. rewrite statuses_snoc. eapply status_path_snoc; [exact C13|]. unfold is_closed in Ho.
    by destruct (status (driver s)).
  - split; try done. cbn. lia.
Qed.

Lemma fail_each_closed {E} (rec : Completion -> Error + option CoapMessage -> M State E unit) R cs l e s :
  closed_spec rec -> core R (l ++ cs) s -> closed s ->
  wp (fail_each rec l e) (fun _ s' => core R cs s' /\ status (driver s') = status (driver s)) never s.
Proof.
  intros Hrec. revert s. induction l as [|c l IH]; intros s Hc Hs; cbn [fail_each]; [done|]. apply wp_bind.
  eapply wp_mono; [apply (Hrec R (l ++ cs) c); [done|done|done]| |done]. intros [] s' [H1 H2]. rewrite <- H2.
  apply IH; [done|]. unfold is_closed in *. by rewrite H2.
Qed.

Definition completions (s : State) : list Completion := map completion (in_flight (ex s)) ++ map snd (queued (ex s)).

Lemma end_session_run {E} (rec : Completion -> Error + option CoapMessage -> M State E unit) R cs s reason :
  closed_spec rec -> open s -> core R (completions s ++ cs) (close_state reason s) ->
  wp (end_session rec reason) (fun _ s' => core R cs s' /\ closed s' /\ status (driver s') = Closed reason) never s.
Proof.
  intros Hrec Hs Hc.
  unfold end_session. apply wp_bind, wp_get. rewrite Hs. unfold set_status. apply wp_bind, wp_bind, wp_modify, wp_effect.
  apply wp_bind, wp_modify, wp_bind, wp_modify, wp_bind, wp_modify, wp_bind. unfold fail_all.
  apply wp_bind, wp_get. cbn [drain]. apply wp_bind, wp_modify.
  eapply wp_mono; [apply (fail_each_closed rec R cs _ _ (close_state reason s)); [done|exact Hc|done]| |done].
  intros [] s' [H1 H2]. assert (closed s' /\ status (driver s') = Closed reason) as [H3 H4]
    by (unfold is_closed; by rewrite H2).
  case_match; [|done]. apply wp_effect. split; [by apply core_silent|done].
Qed.
Lemma end_session_ok {E} (rec : Completion -> Error + option CoapMessage -> M State E unit) R cs s reason :
  closed_spec rec -> core R cs s ->
  wp (end_session rec reason) (fun _ s' => core R cs s' /\ closed s' /\ (open s -> status (driver s') = Closed reason)) never s.
Proof.
  intros Hrec Hc. destruct (is_closed (driver s)) eqn:Hs; [by eapply wp_eq; [apply end_closed|]|].
  eapply wp_mono; [apply end_session_run; [done|done|by apply core_close]| |done]. by intros [] s' (? & ? & ?).
Qed.

(** ** Starting an exchange *)

Notation tokens s := (map (fun p => token (request p)) (in_flight (ex s))).


Lemma core_push R cs s p : core R (completion p :: cs) s -> open s -> status (driver s) <> Idle ->
  (is_application (completion p) = true -> application_in_flight (ex s) = 0) ->
  pending_ok p -> token (request p) ∉ tokens s -> deadline p <= clock_now (clock s) + COAP_EXCHANGE_TIMEOUT ->
  core R cs (upd_driver (push_pending p) s).
Proof.
  intros [C1 C2 C3 C4 C5 C6 C7 C8 C9 C10 C11 C12 C13 [E1 E2 E3 E4 E5 E9]] Ho Hi Ha Hp Ht Hdl.
  assert (forall q, count q (taken cs (upd_driver (push_pending p) s)) = count q (taken (completion p :: cs) s)) as Hk.
  { intros q. unfold taken. cbn. by rewrite map_app, <- (assoc_L (++)). }
  assert (application_in_flight (ex (upd_driver (push_pending p) s)) <= 1) as Hlen.
  { rewrite count_app_in_flight in *. cbn. rewrite map_app, count_app. cbn [map]. rewrite count_cons. change (count is_application []) with 0%nat. cbn.
    destruct (is_application (completion p)); [specialize (Ha eq_refl)|]; lia. }
  split; rewrite ?Hk; try done.
  - intros H. change (is_closed (driver s) = true) in H. congruence.
  - apply Forall_app. split; [done|]. by constructor.
  - cbn. rewrite map_app. apply NoDup_app. split; [done|]. cbn. split; [|apply NoDup_singleton].
    intros x Hx Hin%list_elem_of_singleton. by subst x.
  - change (log (upd_driver (push_pending p) s)) with (log s). rewrite <- C12. f_equiv. unfold owed.
    change (in_flight (ex (upd_driver (push_pending p) s))) with (in_flight (ex s) ++ [p]).
    change (queued (ex (upd_driver (push_pending p) s))) with (queued (ex s)).
    rewrite map_app, <- (assoc_L (++)), !omap_app. f_equiv. cbn.
    destruct (completion_reply (completion p)); [|done]. cbn [app]. apply Permutation_middle.
  - split; try done; [|apply Forall_app; split; [done|by constructor]].
    pose proof (count_total (map completion (in_flight (ex (upd_driver (push_pending p) s))))) as Hl.
    rewrite length_map in Hl. rewrite Hl. rewrite count_app_in_flight in Hlen.
    assert (forall q, (count q (map completion (in_flight (ex (upd_driver (push_pending p) s)))) <=
      count q (taken (completion p :: cs) s))%nat) as Hle.
    { intros q. rewrite <- Hk. unfold taken. rewrite count_app. lia. }
    pose proof (Hle is_petition). pose proof (Hle is_keep_alive). pose proof (Hle is_resign).
    destruct C2 as [C2|C2]; [congruence|]. rewrite C2 in *.
    destruct (decide (status (driver s) = Petitioning)); lia.
Qed.


Definition start_pre k St F t lo q (c : Completion) (ob : Outbound) (s : State) : Prop :=
  open s /\ status (driver s) <> Idle /\ (length (queued (ex s)) <= k)%nat /\
  (length (queued (ex s)) <= q)%nat /\ link_open (driver s) = lo /\ St (status (driver s)) /\
  t <= clock_now (clock s) /\ in_flight (ex s) = F /\
  (appl c -> application_in_flight (ex s) = 0) /\ (is_application c = false -> ob_destination ob = BorderAgent) /\
  (appl c \/ (working s /\ forall st, St st)) /\ (forall e, St (Closed (TransportFailed e))).

Lemma start_pre_frame k (St : SessionStatus -> Prop) F t lo q c ob s :
  start_pre k St F t lo q c ob s -> frame_open (fun c => appl c) St F t lo q s.
Proof. intros (H1 & H2 & H3 & H4 & H5 & H6 & H7 & H8 & _). split; try done. by left. Qed.

Lemma start_pre_quiet k (St : SessionStatus -> Prop) F t lo q c ob s s' : quiet s s' ->
  start_pre k St F t lo q c ob s -> start_pre k St F t lo q c ob s'.
Proof.
  intros Hq (H1 & H2 & H3 & H4 & H5 & H6 & H7 & H8 & H9 & H10 & H11 & H12).
  pose proof (quiet_closed _ _ Hq) as Hcl. pose proof (working_quiet _ _ Hq) as Hw.
  destruct Hq as [A1 A2 A3 A4 A5 A6 A7 A8]. unfold start_pre. rewrite A1, A2, A3, Hcl.
  split; [done|]. split; [done|]. split; [done|]. split; [done|]. split; [done|]. split; [done|]. split; [lia|].
  split; [done|]. split; [done|]. split; [done|]. split; [destruct H11 as [?|[? ?]]; auto|done].
Qed.

(** Completing [c] in the middle of [start]. *)
Lemma start_complete {E} k (rec : Completion -> Error + option CoapMessage -> M State E unit) R cs c ob o s
    (St : SessionStatus -> Prop) F t lo q :
  open_spec k rec -> outcome_ok o -> core R (c :: cs) s -> start_pre k St F t lo q c ob s ->
  wp (rec c o) (fun _ s' => core R cs s' /\ frame (fun c' => appl c' \/ c' = c) St F t lo q s' /\ working s') never s.
Proof.
  intros Hrec Ho Hc Hpre. pose proof (start_pre_frame _ _ _ _ _ _ _ _ _ Hpre) as Hf.
  destruct Hpre as (H1 & H2 & H3 & H4 & H5 & H6 & H7 & H8 & H9 & H10 & H11 & H12).
  eapply wp_mono; [eapply (Hrec R cs c o s St F t lo q); done| |done]. intros [] s' (? & ? & ?).
  split; [done|]. split; [|done]. eapply frame_weaken; [done| |done]. auto.
Qed.

Lemma randomized_ok n : let s := randomized n in retransmissions s = 0 /\ seconds 2 <= sched_timeout s <= seconds 3.
Proof.
  split; [done|]. unfold randomized, COAP_ACK_TIMEOUT, COAP_ACK_RANDOM_WINDOW_MILLIS, seconds, millis.
  cbn [sched_timeout CoapRetransmitSchedule_new]. change (1000 + 1) with 1001. pose proof (Z.mod_pos_bound n 1001 ltac:(lia)). lia.
Qed.

Lemma start_ok {E} k (rec : Completion -> Error + option CoapMessage -> M State E unit) R cs c ob s
    (St : SessionStatus -> Prop) F t lo q :
  open_spec k rec -> closed_spec rec -> core R (c :: cs) s -> start_pre k St F t lo q c ob s ->
  wp (start rec ob c) (fun _ s' => core R cs s' /\ frame (fun c' => appl c' \/ c' = c) St F t lo q s' /\ working s') never s.
Proof.
  intros Hopen Hclosed Hc Hpre. unfold start. apply wp_bind.
  eapply wp_mono; [apply assign_identity_ok, Hc| |done]. intros m s1 ([Q1 E1] & Em & Ht & _).
  pose proof (core_quiet _ _ _ _ Q1 E1 Hc) as C1. pose proof (start_pre_quiet _ _ _ _ _ _ _ _ _ _ Q1 Hpre) as P1.
  rewrite <- (q_exchanges _ _ Q1) in Ht. clear Hc Hpre Q1. apply wp_bind, wp_attempt.
  eapply wp_mono; [apply (still_wire m (ob_destination ob) s1 E1), P1| |].
  2:{ intros e s2 [Q2 E2]. eapply start_complete; [done|done|by eapply core_quiet|by eapply start_pre_quiet]. }
  intros w s2 [[Q2 E2] _]. pose proof (core_quiet _ _ _ _ Q2 E2 C1) as C2.
  pose proof (start_pre_quiet _ _ _ _ _ _ _ _ _ _ Q2 P1) as P2. rewrite <- (q_exchanges _ _ Q2) in Ht. clear C1 P1 Q2 E1.
  apply wp_bind, wp_attempt. eapply wp_mono; [apply (still_send w s2 E2), P2| |].
  2:{ intros e s3 [Q3 E3]. pose proof (core_quiet _ _ _ _ Q3 E3 C2) as C3.
      pose proof (start_pre_quiet _ _ _ _ _ _ _ _ _ _ Q3 P2) as P3. unfold fail_send. apply wp_bind.
      destruct (is_transport_error e); [|by eapply start_complete].
      eapply wp_mono; [by apply end_session_ok| |done]. intros [] s4 (C4 & H4 & S4).
      destruct P3 as (Hopen3 & _ & _ & _ & _ & _ & _ & _ & _ & _ & _ & Htf). specialize (S4 Hopen3).
      eapply wp_mono; [by eapply (Hclosed R cs c _ s4)| |done]. intros [] s5 [C5 H5]. rewrite S4 in H5.
      assert (closed s5) by (unfold is_closed; by rewrite H5).
      split; [done|]. split; [left; split; [done|by rewrite H5]|by eapply working_closed]. }
  intros [] s3 [[Q3 E3] _]. pose proof (core_quiet _ _ _ _ Q3 E3 C2) as C3.
  pose proof (start_pre_quiet _ _ _ _ _ _ _ _ _ _ Q3 P2) as P3. rewrite <- (q_exchanges _ _ Q3) in Ht. clear C2 P2 Q3 E2.
  destruct (negb (expect_response ob)); [by eapply start_complete|].
  apply wp_bind. eapply wp_mono; [by apply (now_ok s3)| |done]. intros t1 s4 [[Q4 E4] Et].
  pose proof (core_quiet _ _ _ _ Q4 E4 C3) as C4. pose proof (start_pre_quiet _ _ _ _ _ _ _ _ _ _ Q4 P3) as P4.
  rewrite <- (q_exchanges _ _ Q4) in Ht. clear C3 P3 Q4 E3. apply wp_bind.
  eapply (wp_mono _ (fun r s5 => (quiet s4 s5 /\ env_ok s5) /\ forall x, r = Some x -> exists n, x = randomized n) _ never never); [| |done].
  { destruct (bool_decide _); [|split; [by split|done]]. apply wp_bind. eapply wp_mono; [by apply (calm_u32 s4)| |done].
    intros n s5 [H _]. split; [done|]. intros x [= <-]. by exists n. }
  intros r s5 [[Q5 E5] Hr]. pose proof (core_quiet _ _ _ _ Q5 E5 C4) as C5.
  pose proof (start_pre_quiet _ _ _ _ _ _ _ _ _ _ Q5 P4) as P5. rewrite <- (q_exchanges _ _ Q5) in Ht.
  set (p := mkPending m (ob_destination ob) (ob_label ob) r (Z.add t1 <$> (r ≫= schedule_timeout)) (t1 + COAP_EXCHANGE_TIMEOUT) c).
  assert (t <= t1) as Ht1.
  { destruct P4 as (_ & _ & _ & _ & _ & _ & P4 & _). by rewrite Et. }
  assert (pending_ok p /\ not_due t p) as [Hpo Hnd].
  { destruct P5 as (_ & _ & _ & _ & _ & _ & _ & _ & _ & Hb & _). unfold pending_ok, not_due. cbn [completion destination retransmit retry_at deadline p]. split.
    - split; [done|]. destruct r as [x|]; [|done]. destruct (Hr x eq_refl) as [n ->]. pose proof (randomized_ok n) as [Hr0 Hr1].
      rewrite Hr0. split; [lia|]. split; [intros _; lia|]. unfold seconds in Hr1. lia.
    - split; [unfold COAP_EXCHANGE_TIMEOUT, seconds; lia|]. intros y Hy. destruct r as [x|]; [|done].
      destruct (Hr x eq_refl) as [n ->]. pose proof (randomized_ok n) as [_ Hn]. cbn in Hy. injection Hy as <-.
      cbn in Hn. unfold seconds in Hn. lia. }
  destruct P5 as (H1 & H2 & H3 & H4 & H5 & H6 & H7 & H8 & H9 & H10 & H11 & H12). apply wp_modify.
  split; [apply (core_push R cs s5 p); try done; cbn [deadline p]; pose proof (q_clock _ _ Q5); lia|]. split.
  - right. split; [done|done|done|done|]. right. exists p. split; [cbn; by rewrite H8|]. split; [by right|done].
  - unfold working. rewrite !count_app_in_flight. cbn. rewrite map_app, count_app. cbn [map]. rewrite count_cons. change (count is_application []) with 0%nat. cbn. intros Hq.
    destruct (is_application c); [lia|]. destruct H11 as [?|[Hw _]]; [done|]. specialize (Hw Hq).
    rewrite count_app_in_flight in Hw. lia.
Qed.

(** ** Sending what is queued *)

Lemma core_pop R cs s ob c rest : core R cs s -> queued (ex s) = (ob, c) :: rest ->
  core R (c :: cs) (upd_driver (set_queued rest) s) /\ appl c.
Proof.
  intros [C1 C2 C3 C4 C5 C6 C7 C8 C9 C10 C11 C12 C13 [E1 E2 E3 E4 E5 E9]] Hq.
  assert (appl c) as Ha by (rewrite Hq in C9; by apply Forall_inv in C9). split; [|done].
  assert (forall p, p c = false -> count p (taken (c :: cs) (upd_driver (set_queued rest) s)) = count p (taken cs s)) as Hk.
  { intros p Hp. rewrite taken_cons, Hp. done. }
  split; rewrite ?Hk by (by destruct c); try done.
  - intros H. change (is_closed (driver s) = true) in H. destruct (C7 H) as [He _]. by rewrite He in Hq.
  - intros H. destruct (C8 H) as [He _]. by rewrite He in Hq.
  - rewrite Hq in C9. by apply Forall_inv_tail in C9.
  - rewrite <- C12. change (log (upd_driver (set_queued rest) s)) with (log s). f_equiv. unfold owed.
    change (in_flight (ex (upd_driver (set_queued rest) s))) with (in_flight (ex s)).
    change (queued (ex (upd_driver (set_queued rest) s))) with rest. rewrite Hq, !omap_app. f_equiv. cbn.
    destruct (completion_reply c); [|done]. symmetry. apply Permutation_middle.
Qed.

Lemma send_loop_ok {E} k (rec : Completion -> Error + option CoapMessage -> M State E unit) R cs
    (St : SessionStatus -> Prop) F t lo q fuel s :
  closed_spec rec -> (forall j, k = S j -> open_spec j rec) -> (length (queued (ex s)) <= k)%nat ->
  (length (queued (ex s)) <= fuel)%nat -> core R cs s -> open s -> frame_open (fun c => appl c) St F t lo q s ->
  (forall e, St (Closed (TransportFailed e))) ->
  wp (send_loop rec fuel) (fun _ s' => core R cs s' /\ frame (fun c => appl c) St F t lo q s' /\ working s') never s.
Proof.
  intros Hclosed Hopen. revert s. induction fuel as [|fuel IH]; intros s Hk Hf Hc Ho Hfr Htf; cbn [send_loop];
    apply wp_bind, wp_get; destruct (_ <? _) eqn:Ea; unfold MAX_APPLICATION_IN_FLIGHT in Ea; zbool;
    destruct (queued (ex s)) as [|[ob c] rest] eqn:Hq; try (cbn in Hf; lia).
  all: try (split; [done|]; split; [by right|]; unfold working; first [by rewrite Hq|done]).
  destruct (core_pop _ _ _ _ _ _ Hc Hq) as [Hc1 Happ]. apply wp_bind, wp_modify, wp_bind.
  destruct k as [|k]; [cbn in Hk; lia|]. cbn in Hk, Hf.
  pose proof (count_app_in_flight s) as Hz. destruct Hfr as [F1 F2 F3 F4 F5]. rewrite Hq in F3. cbn in F3.
  assert (in_flight (ex s) = F) as HF.
  { destruct F5 as [F5|(p & F5 & Hp & _)]; [done|]. rewrite F5, map_app, count_app in Hz. cbn [map] in Hz.
    rewrite count_cons, Hp in Hz. lia. }
  eapply wp_mono; [eapply (start_ok k rec R cs c ob _ St F t lo (length rest)); [by apply Hopen|done|done|]| |done].
  { split; [done|]. split; [intros H; destruct (c_idle _ _ _ Hc H) as [He _]; by rewrite He in Hq|].
    split; [cbn; lia|]. split; [done|]. split; [done|]. split; [done|]. split; [done|]. split; [done|].
    split; [intros _; cbn; unfold application_in_flight, len in *; cbn; lia|]. split; [congruence|]. split; [by left|done]. }
  intros [] s1 (Hc2 & Hf2 & Hw). apply wp_bind, wp_get. destruct (is_closed (driver s1)) eqn:Hcl.
  { destruct Hf2 as [?|Hf2]; [split; [done|]; split; [by left|done]|]. split; [done|]. split; [|done].
    left. split; [done|apply Hf2]. }
  destruct Hf2 as [[? _]|Hf2]; [congruence|]. pose proof (f_queued _ _ _ _ _ _ _ Hf2) as Hq2.
  apply IH; [lia|lia|done|done| |done]. eapply frame_open_weaken; [exact Hf2| |lia]. by intros c' [?| ->].
Qed.

Lemma send_queued_ok {E} k (rec : Completion -> Error + option CoapMessage -> M State E unit) R cs
    (St : SessionStatus -> Prop) F t lo q s :
  closed_spec rec -> (forall j, k = S j -> open_spec j rec) -> (length (queued (ex s)) <= k)%nat ->
  core R cs s -> open s -> frame_open (fun c => appl c) St F t lo q s -> (forall e, St (Closed (TransportFailed e))) ->
  wp (send_queued rec) (fun _ s' => core R cs s' /\ frame (fun c => appl c) St F t lo q s' /\ working s') never s.
Proof. intros. by eapply send_loop_ok. Qed.

(** ** Completing on an open session *)

Lemma frame_kept P (St : SessionStatus -> Prop) F t lo q s s' : kept s s' -> frame_open P St F t lo q s -> frame_open P St F t lo q s'.
Proof. intros (K1 & K2 & K3 & K4) [F1 F2 F3 F4 F5]. split; [congruence|congruence|by rewrite K1|lia|by rewrite K1]. Qed.

Lemma petitioned R r cs s st : core R (CPetition r :: cs) s -> open s -> st = Connected \/ is_active st = true ->
  exists R', R ≡ₚ r :: R' /\ let s' := record_effect (StatusSet st) (upd_driver (d_status st) s) in
    core R' cs s' /\ count is_keep_alive (taken cs s') = 0%nat.
Proof.
  intros [C1 C2 C3 C4 C5 C6 C7 C8 C9 C10 C11 C12 C13 [E1 E2 E3 E4 E5 E9]] Ho Hst.
  rewrite !taken_cons in C2, C3, C4, C5, C6. rewrite taken_cons in C5. cbn [is_petition is_keep_alive is_resign] in *.
  destruct C2 as [C2|C2]; [congruence|]. destruct (decide (status (driver s) = Petitioning)) as [Hp|]; [|lia].
  rewrite Hp in *. assert (count is_keep_alive (taken cs s) = 0%nat /\ count is_resign (taken cs s) = 0%nat) as [Hk Hr].
  { destruct (count is_keep_alive (taken cs s)); [|destruct C5; [lia|congruence|done]].
    destruct (count is_resign (taken cs s)); [done|destruct C5; [lia|congruence|done]]. }
  exists (replied (log s) ++ owed cs s). split.
  { rewrite <- C12, owed_cons. symmetry. apply Permutation_middle. }
  cbn. split; [|done]. split; try done.
  - right. change (taken cs (record_effect (StatusSet st) (upd_driver (d_status st) s))) with (taken cs s).
    cbn. destruct (decide (st = Petitioning)) as [->|]; [by destruct Hst|lia].
  - change (taken cs (record_effect (StatusSet st) (upd_driver (d_status st) s))) with (taken cs s). intros H. lia.
  - cbn. intros H. by destruct (C6 H).
  - cbn. destruct Hst as [->|Hst]; [done|]. unfold is_closed. cbn. by destruct st.
  - cbn. intros ->. by destruct Hst.
  - cbn. by rewrite replied_status.
  - cbn. rewrite statuses_snoc. eapply status_path_snoc; [exact C13|]. by destruct Hst as [->|Hst]; [|destruct st].
Qed.

Lemma petition_outcome_ok {E} R r cs o s : outcome_ok o -> core R (CPetition r :: cs) s -> open s ->
  wp (@petition_outcome _ _ _ config E o) (fun _ s' => exists R', R ≡ₚ r :: R' /\ core R' cs s' /\ open s' /\ ex s' = ex s /\
    link_open (driver s') = link_open (driver s) /\ clock_now (clock s) <= clock_now (clock s')) never s.
Proof.
  intros Ho Hc Hs. unfold petition_outcome. apply wp_bind, wp_settled; [by apply petition_response_safe|]. intros res.
  apply wp_bind, wp_get. rewrite Hs. apply wp_bind. destruct res as [e|p].
  - destruct (petitioned R r cs s Connected Hc Hs) as (R' & HR & Hc' & _); [by left|].
    unfold set_status. apply wp_bind, wp_modify, wp_effect. exists R'. split; [done|]. by split.
  - destruct (petitioned R r cs s (Active (pr_session_id p)) Hc Hs) as (R' & HR & Hc' & Hk); [by right|].
    unfold set_status. apply wp_bind, wp_bind, wp_modify, wp_effect.
    eapply wp_mono; [by apply (schedule_ok R' cs)| |done]. intros [] s' (H1 & H2 & H3 & H4 & H5).
    exists R'. split; [done|]. split; [done|]. split; [unfold is_closed; by rewrite H3|done].
Qed.

Lemma body_open {E} k (rec : Completion -> Error + option CoapMessage -> M State E unit) :
  closed_spec rec -> (forall j, k = S j -> open_spec j rec) -> open_spec k (complete_body config rec).
Proof.
  intros Hclosed Hopen R cs c o s St F t lo q Ho Hc Hs Hk Hf Htf Hw.
  destruct c as [id r|r|r|r]; cbn [complete_body].
  1: { destruct (core_take _ _ _ _ Hc (or_introl eq_refl)) as (R' & HR & Hc'). apply wp_bind, wp_effect.
       eapply send_queued_ok; [done|done|done|by eapply core_give|done| |done]. destruct Hf. by split. }
  all: destruct Hw as [?|[Hw HSt]]; [done|].
  all: assert (forall s', core R cs s' -> closed s' ->
    core R cs s' /\ frame (fun c => appl c) St F t lo q s' /\ working s') as Hend
    by (intros s' H1 H2; split; [done|]; split; [by left|by eapply working_closed]).
  - apply wp_bind. eapply wp_mono; [by eapply petition_outcome_ok| |done].
    intros res s1 (R' & HR & H1 & H2 & H3 & H4 & H5). apply wp_effect. split; [by eapply core_give|].
    split; [right|unfold working in *; cbn; by rewrite H3]. destruct Hf as [F1 F2 F3 F4 F5].
    split; cbn; [congruence|apply HSt|by rewrite H3|lia|by rewrite H3].
  - eapply wp_mono; [eapply (keep_alive_outcome_ok rec o r R cs s (fun s' => is_closed (driver s') = true)); [done|done|]| |done].
    + intros s1 reason H1 _. eapply wp_mono; [by apply end_session_ok| |done]. by intros [] s' (? & ? & _).
    + intros [] s' [H1 [H2|H2]]; [by apply Hend|].
      split; [done|]. split; [right; by eapply frame_kept|]. destruct H2 as (H2 & _). unfold working in *. by rewrite H2.
  - apply wp_bind, wp_settled; [by apply resign_result_safe|]. intros res. apply wp_bind.
    destruct (core_take _ _ _ _ Hc (or_introl eq_refl)) as (R' & HR & Hc').
    eapply wp_mono; [by apply end_session_ok| |done]. intros [] s1 (H1 & H2 & _).
    eapply wp_mono; [eapply (reply_some_ok R R' cs); [exact H1|done]| |done].
    intros [] s2 (H3 & H4 & H5). apply Hend; [done|congruence].
Qed.

Lemma complete_fuel_ok {E} k n : (k + 2 <= n)%nat -> open_spec k (@complete_fuel _ _ _ config E n).
Proof.
  revert n. induction k as [|k IH]; intros [|n] Hn; [lia| |lia|]; cbn [complete_fuel];
    (assert (closed_spec (@complete_fuel _ _ _ config E n)) by (destruct n; [lia|apply body_closed]));
    apply body_open; try done.
  intros j [= <-]. apply IH. lia.
Qed.

Lemma complete_closed {E} : closed_spec (@complete _ _ _ config E).
Proof.
  intros R cs c o s Ho Hc Hs. unfold wp, complete, need. rewrite Hs. by apply body_closed.
Qed.
Lemma complete_open {E} k : open_spec k (@complete _ _ _ config E).
Proof.
  intros R cs c o s St F t lo q Ho Hc Hs Hk Hf Htf Hw. unfold wp, complete, need. rewrite Hs.
  eapply (complete_fuel_ok (length (queued (ex s)))); try done.
Qed.
End Safety.
