(* ===== verification/SessionInvariant.v ===== *)
(** * SessionInvariant: the invariant over the life of a session

    [session_inv] adds to [core] what holds between two turns of the loop of
    the session task.  Every turn keeps it: commands, datagrams, failures and
    timers.  The theorems state what follows for any run. *)
From stdpp Require Import gmap.
From S2P Require Import Prelude Text Tlv Errors Dataset Coap NetDiag Messages Joiner.
From S2P Require Import Commissioner SessionDriver SessionCore SessionSafety.

Section Invariant.
Context {JH : JoinerHandler} {OR : OsRng} {OL : OsRngLaws} {JS : JoinerSessions} {JL : JoinerSessionsLaws}.
Context (config : CommissionerConfig) (border_agent_ip : string).

Notation ex s := (exchanges (driver s)).
Notation closed s := (is_closed (driver s) = true).
Notation open s := (is_closed (driver s) = false).
Notation never := (fun _ _ => False).
Notation any := (fun _ : SessionStatus => True).
Notation appl c := (is_application c = true).

Record session_inv (R : list nat) (s : State) : Prop := {
  i_core : core R [] s;
  i_working : working s;
  i_link : link_open (driver s) = false -> status (driver s) = Idle \/ closed s }.

(** ** Taking exchanges out, and changing one *)

Lemma position_Some {A} (p : A -> bool) l i : position p l = Some i -> exists x, l !! i = Some x /\ p x = true.
Proof.
  revert i. induction l as [|x l IH]; intros i; cbn [position]; [done|]. destruct (p x) eqn:Hp; [intros [= <-]; by exists x|].
  destruct (position p l) as [j|]; [|done]. intros [= <-]. by apply IH.
Qed.

Lemma remove_at_split {A} (l : list A) i x : l !! i = Some x ->
  exists l1 l2, l = l1 ++ x :: l2 /\ remove_at i l = l1 ++ l2 /\ length l1 = i.
Proof.
  intros H. exists (take i l), (drop (S i) l). split; [by rewrite take_drop_middle|]. split; [done|].
  apply length_take_le. apply lookup_lt_Some in H. lia.
Qed.

Lemma take_pending R cs s i p : core R cs s -> in_flight (ex s) !! i = Some p ->
  core R (completion p :: cs) (upd_driver (remove_in_flight i) s).
Proof.
  intros [C1 C2 C3 C4 C5 C6 C7 C8 C9 C10 C11 C12 C13 [E1 E2 E3 E4 E5 E9]] Hi.
  destruct (remove_at_split _ _ _ Hi) as (l1 & l2 & Hl & Hr & _). set (s' := upd_driver (remove_in_flight i) s).
  assert (in_flight (ex s') = l1 ++ l2) as Hf by done.
  assert (forall q, count q (taken (completion p :: cs) s') = count q (taken cs s)) as Hk.
  { intros q. unfold taken. rewrite Hf, Hl, !map_app, !count_app. cbn [map]. rewrite !count_cons. lia. }
  assert (forall q, (count q (map completion (in_flight (ex s'))) <= count q (map completion (in_flight (ex s))))%nat) as Hle.
  { intros q. rewrite Hf, Hl, !map_app, !count_app. cbn [map]. rewrite count_cons. lia. }
  split; rewrite ?Hk; try done.
  - rewrite count_app_in_flight in *. specialize (Hle is_application). lia.
  - intros H. change (is_closed (driver s) = true) in H. destruct (C7 H) as [He _]. by rewrite He in Hi.
  - intros H. destruct (C8 H) as [He _]. by rewrite He in Hi.
  - rewrite Hf. rewrite Hl in C10. apply Forall_app in C10 as [H1 H2%Forall_inv_tail]. by apply Forall_app.
  - rewrite Hf. rewrite Hl in C11. eapply sublist_NoDup; [exact C11|]. rewrite !map_app. cbn [map].
    apply sublist_app; [done|]. by apply sublist_cons.
  - rewrite <- C12. change (log s') with (log s). f_equiv. unfold owed.
    change (queued (ex s')) with (queued (ex s)). rewrite Hf, Hl, !map_app. cbn [map]. rewrite !omap_app. cbn.
    destruct (completion_reply (completion p)); [|done]. cbn. rewrite <- !Permutation_middle.
    rewrite !(assoc_L (++)). done.
  - split; try done; rewrite Hf.
    + rewrite Hl, !length_app in E1. rewrite length_app. cbn in E1. lia.
    + rewrite Hl in E9. apply Forall_app in E9 as [H1 H2%Forall_inv_tail]. by apply Forall_app.
Qed.

Lemma take_queued R cs s i ob c : core R cs s -> queued (ex s) !! i = Some (ob, c) ->
  core R (c :: cs) (upd_driver (d_exchanges (mkExchanges (in_flight (ex s)) (remove_at i (queued (ex s))))) s) /\ appl c.
Proof.
  intros [C1 C2 C3 C4 C5 C6 C7 C8 C9 C10 C11 C12 C13 [E1 E2 E3 E4 E5 E9]] Hi.
  destruct (remove_at_split _ _ _ Hi) as (l1 & l2 & Hl & Hr & _). set (s' := upd_driver _ s).
  assert (queued (ex s') = l1 ++ l2) as Hf by done.
  assert (appl c) as Ha by (rewrite Hl in C9; by apply Forall_app in C9 as [_ H%Forall_inv]). split; [|done].
  assert (forall p, p c = false -> count p (taken (c :: cs) s') = count p (taken cs s)) as Hk.
  { intros p Hp. rewrite taken_cons, Hp. done. }
  split; rewrite ?Hk by (by destruct c); try done.
  - intros H. change (is_closed (driver s) = true) in H. destruct (C7 H) as [He _]. by rewrite He in Hi.
  - intros H. destruct (C8 H) as [He _]. by rewrite He in Hi.
  - rewrite Hf. rewrite Hl in C9. apply Forall_app in C9 as [H1 H2%Forall_inv_tail]. by apply Forall_app.
  - rewrite <- C12. change (log s') with (log s). f_equiv. unfold owed.
    change (in_flight (ex s')) with (in_flight (ex s)). rewrite Hf, Hl, !map_app. cbn [map]. rewrite !omap_app. f_equiv. cbn.
    destruct (completion_reply c); [|done]. rewrite <- !(assoc_L (++)). f_equiv. cbn. symmetry. apply Permutation_middle.
Qed.

Lemma set_pending R cs s i p p' : core R cs s -> in_flight (ex s) !! i = Some p ->
  completion p' = completion p -> request p' = request p -> pending_ok p' -> deadline p' = deadline p ->
  core R cs (upd_driver (set_in_flight i p') s).
Proof.
  intros [C1 C2 C3 C4 C5 C6 C7 C8 C9 C10 C11 C12 C13 [E1 E2 E3 E4 E5 E9]] Hi Hc Hr Hp Hd. set (s' := upd_driver (set_in_flight i p') s).
  assert (in_flight (ex s') = <[i:=p']> (in_flight (ex s))) as Hf by done.
  assert (map completion (in_flight (ex s')) = map completion (in_flight (ex s))) as Hm.
  { rewrite Hf. change (completion <$> <[i:=p']> (in_flight (ex s)) = completion <$> in_flight (ex s)).
    rewrite list_fmap_insert, Hc. apply list_insert_id. by rewrite list_lookup_fmap, Hi. }
  assert (taken cs s' = taken cs s) as Ht by (unfold taken; by rewrite Hm).
  assert (owed cs s' = owed cs s) as Ho by (unfold owed; by rewrite Hm).
  split; rewrite ?Ht, ?Ho; try done.
  - rewrite count_app_in_flight in *. by rewrite Hm.
  - intros H. change (is_closed (driver s) = true) in H. destruct (C7 H) as [He _]. by rewrite He in Hi.
  - intros H. destruct (C8 H) as [He _]. by rewrite He in Hi.
  - rewrite Hf. by apply Forall_insert.
  - rewrite Hf. change (NoDup ((fun p => token (request p)) <$> <[i:=p']> (in_flight (ex s)))).
    rewrite list_fmap_insert, Hr, list_insert_id; [done|]. by rewrite list_lookup_fmap, Hi.
  - split; try done; rewrite Hf; [by rewrite length_insert|]. apply Forall_insert; [done|]. rewrite Hd.
    exact (Forall_lookup_1 _ _ _ _ E9 Hi).
Qed.

Lemma set_working s i p p' : in_flight (ex s) !! i = Some p -> completion p' = completion p ->
  working s -> working (upd_driver (set_in_flight i p') s).
Proof.
  intros Hi Hc Hw Hq. specialize (Hw Hq). rewrite count_app_in_flight in *.
  change (1 <= Z.of_nat (count is_application (completion <$> <[i:=p']> (in_flight (ex s))))).
  rewrite list_fmap_insert, Hc, list_insert_id; [done|]. by rewrite list_lookup_fmap, Hi.
Qed.

Lemma take_working s i p : in_flight (ex s) !! i = Some p -> working s ->
  appl (completion p) \/ working (upd_driver (remove_in_flight i) s).
Proof.
  intros Hi Hw. destruct (is_application (completion p)) eqn:Ha; [by left|right]. intros Hq. specialize (Hw Hq).
  rewrite count_app_in_flight in *. destruct (remove_at_split _ _ _ Hi) as (l1 & l2 & Hl & Hr & _).
  change (1 <= Z.of_nat (count is_application (map completion (remove_at i (in_flight (ex s)))))).
  rewrite Hr. rewrite Hl in Hw. rewrite map_app, count_app in *. cbn [map] in Hw. rewrite count_cons, Ha in Hw. lia.
Qed.

(** ** Calls from the loop *)

Lemma whole_frame s : link_open (driver s) = true ->
  frame_open (fun c => appl c) any (in_flight (ex s)) (clock_now (clock s)) true (length (queued (ex s))) s.
Proof. intros. split; try done. by left. Qed.

Lemma frame_inv P St F t q R s : core R [] s -> frame P St F t true q s -> working s -> session_inv R s.
Proof.
  intros Hc Hf Hw. split; [done|done|]. intros Hl. destruct Hf as [[Hf _]|Hf]; [by right|].
  pose proof (f_link _ _ _ _ _ _ _ Hf). congruence.
Qed.

Lemma wp_frame_inv {E} (m : M State E unit) P St F t q R s :
  wp m (fun _ s' => core R [] s' /\ frame P St F t true q s' /\ working s') never s ->
  wp m (fun _ s' => session_inv R s') never s.
Proof. intros H. eapply wp_mono; [exact H| |done]. intros _ s' (? & ? & ?). by eapply frame_inv. Qed.

Lemma closed_inv R s : core R [] s -> closed s -> session_inv R s.
Proof. intros Hc Hs. split; [done|by eapply working_closed|by right]. Qed.

Lemma open_link R s : session_inv R s -> open s -> status (driver s) <> Idle -> link_open (driver s) = true.
Proof. intros Hi Ho Hs. destruct (link_open (driver s)) eqn:Hl; [done|]. destruct (i_link _ _ Hi Hl); [done|congruence]. Qed.

Lemma complete_inv {E} R c o s : outcome_ok o -> core R [c] s -> open s -> link_open (driver s) = true ->
  appl c \/ working s -> wp (@complete _ _ _ config E c o) (fun _ s' => session_inv R s') never s.
Proof.
  intros Ho Hc Hs Hl Hw. eapply wp_frame_inv.
  eapply (complete_open config (length (queued (ex s)))); [done|done|done|done|by apply whole_frame|done|].
  destruct Hw; auto.
Qed.

Lemma send_queued_inv {E} R s : core R [] s -> open s -> link_open (driver s) = true ->
  wp (send_queued (@complete _ _ _ config E)) (fun _ s' => session_inv R s') never s.
Proof.
  intros Hc Hs Hl. eapply wp_frame_inv.
  eapply (send_queued_ok (length (queued (ex s)))); [apply complete_closed|intros; apply complete_open|done|done|done|by apply whole_frame|done].
Qed.

Lemma end_session_inv {E} R s reason : core R [] s ->
  wp (end_session (@complete _ _ _ config E) reason) (fun _ s' => session_inv R s' /\ closed s') never s.
Proof.
  intros Hc. eapply wp_mono; [apply (end_session_ok); [apply complete_closed|done]| |done].
  intros [] s' (H1 & H2 & _). split; [by apply closed_inv|done].
Qed.

(** Starting an exchange of the session itself. *)
Lemma start_control {E} R c m op s : core R [c] s -> open s -> status (driver s) <> Idle ->
  link_open (driver s) = true -> working s -> is_application c = false ->
  wp (start (@complete _ _ _ config E) (control_request m op) c) (fun _ s' => session_inv R s') never s.
Proof.
  intros Hc Hs Hi Hl Hw Ha. eapply wp_frame_inv.
  eapply (start_ok (length (queued (ex s))) _ _ _ _ _ s any (in_flight (ex s)) (clock_now (clock s)) true (length (queued (ex s))));
    [apply complete_open|apply complete_closed|exact Hc|].
  split; [done|]. split; [done|]. split; [done|]. split; [done|]. split; [done|]. split; [done|].
  split; [done|]. split; [done|]. split; [congruence|]. split; [done|]. split; [by right|done].
Qed.

(** ** Commands *)

Definition command_replies (c : Command) : list nat :=
  match c with
  | CmdExchange _ _ r | CmdPetition r | CmdKeepAlive r | CmdResign r => [r]
  | _ => []
  end.

(** Answering a command at once. *)
Lemma refuse R r a s : session_inv R s -> session_inv (r :: R) (record_effect (Replied r a) s).
Proof. intros [H1 H2 H3]. split; [by eapply core_give|done|done]. Qed.

Lemma env_reopen s l : env_ok s -> quiet s (with_reopen_results l s) /\ env_ok (with_reopen_results l s).
Proof. intros [E1 E2 E3 E4 E5 E9]. split; [split; try done; exists []; by rewrite app_nil_r|by split]. Qed.

Lemma ensure_open_ok R s : session_inv R s -> open s ->
  wp ensure_open (fun _ s' => session_inv R s' /\ open s' /\ link_open (driver s') = true /\ status (driver s') <> Idle /\
      ex s' = ex s /\ (status (driver s') = status (driver s) \/ status (driver s') = Connected))
    (fun _ s' => session_inv R s' /\ open s') s.
Proof.
  intros Hi Ho. pose proof (i_core _ _ Hi) as Hc. unfold ensure_open. apply wp_bind, wp_get.
  destruct (link_open (driver s)) eqn:Hl.
  { assert (status (driver s) <> Idle) by (intros H; destruct (c_idle _ _ _ Hc H); congruence).
    split; [done|]. split; [done|]. split; [done|]. split; [done|]. split; [done|by left]. }
  destruct (i_link _ _ Hi Hl) as [Hs|]; [|congruence]. destruct (c_idle _ _ _ Hc Hs) as [He _].
  assert (forall l, upd_driver (d_link_open false) s = s /\ quiet s (with_reopen_results l s) /\ env_ok (with_reopen_results l s)) as Hsame.
  { intros l. split; [|apply env_reopen, Hc]. destruct s as [[] ? ? ? ? ? ?]. cbn in *. by rewrite Hl. }
  assert (forall l, session_inv R (with_reopen_results l s) /\ open (with_reopen_results l s)) as Hfail.
  { intros l. destruct (Hsame l) as (_ & Hq & Hen). split; [|done]. destruct Hi as [I1 I2 I3].
    split; [by eapply core_quiet|done|done]. }
  assert (forall l, let s1 := with_reopen_results l (upd_driver (d_link_open true) s) in
    let s2 := record_effect (StatusSet Connected) (upd_driver (d_status Connected)
      (upd_driver (fun d => d_answered (forget_border_agent (answered d)) d) s1)) in
    session_inv R s2) as Hok.
  { intros l s1 s2. destruct Hc as [C1 C2 C3 C4 C5 C6 C7 C8 C9 C10 C11 C12 C13 [E1 E2 E3 E4 [E5 E6] E9]].
    unfold is_closed in Ho. rewrite Hs in *. destruct C2 as [C2|C2]; [unfold is_closed in C2; by rewrite Hs in C2|].
    split; [|exact (i_working _ _ Hi)|done]. split; try done.
    - by right.
    - intros H. destruct (C5 H) as [H'|H']; [unfold is_closed in H'; by rewrite Hs in H'|done].
    - cbn. by rewrite replied_status.
    - cbn. rewrite statuses_snoc. by eapply status_path_snoc.
    - split; try done. cbn. split; [by apply answered_ok_filter|]. etrans; [apply filter_length_le|done]. }
  assert (forall l, wp (let* _ := modify (fun d => d_answered (forget_border_agent (answered d)) d) in set_status Connected)
    (fun _ s' => session_inv R s' /\ open s' /\ link_open (driver s') = true /\ status (driver s') <> Idle /\
      ex s' = ex s /\ (status (driver s') = status (driver s) \/ status (driver s') = Connected))
    (fun (_ : Error) s' => session_inv R s' /\ open s') (with_reopen_results l (upd_driver (d_link_open true) s))) as Hrest.
  { intros l. apply wp_bind, wp_modify. unfold set_status. apply wp_bind, wp_modify, wp_effect. split; [apply Hok|].
    split; [done|]. split; [done|]. split; [done|]. split; [done|by right]. }
  apply wp_bind. unfold wp at 1, link_reopen. rewrite (proj1 (Hsame [])).
  destruct (reopen_results s) as [|[e|] l] eqn:Hr.
  - specialize (Hrest []). destruct s as [d c g sr rr mp lg]. cbn in Hr. subst rr. exact Hrest.
  - apply Hfail.
  - apply Hrest.
Qed.

Lemma core_queue R s ob id r : core R [] s -> open s -> status (driver s) <> Idle ->
  core (r :: R) [] (upd_driver (fun d => set_queued (queued (exchanges d) ++ [(ob, CCaller id r)]) d) s).
Proof.
  intros [C1 C2 C3 C4 C5 C6 C7 C8 C9 C10 C11 C12 C13 [E1 E2 E3 E4 E5 E9]] Ho Hs. set (s' := upd_driver _ s).
  split; try done.
  - intros H. change (is_closed (driver s) = true) in H. congruence.
  - apply Forall_app. split; [done|]. by constructor.
  - rewrite <- C12. change (log s') with (log s). unfold owed.
    change (in_flight (ex s')) with (in_flight (ex s)). change (queued (ex s')) with (queued (ex s) ++ [(ob, CCaller id r)]).
    rewrite map_app, !omap_app. cbn. rewrite !app_nil_r. rewrite !(assoc_L (++)). symmetry. apply Permutation_cons_append.
Qed.

Lemma exchange_inv {E} R id ob r s : session_inv R s -> open s ->
  wp (@handle_command _ _ _ config E (CmdExchange id ob r)) (fun _ s' => session_inv (r :: R) s') never s.
Proof.
  intros Hi Ho. cbn [handle_command]. apply wp_bind, wp_get. destruct (resigning _); [apply wp_effect; by apply refuse|].
  apply wp_bind, wp_attempt. eapply wp_mono; [by apply ensure_open_ok| |].
  - intros [] s1 (H1 & H2 & H3 & H4 & H5 & H6). unfold submit. apply wp_bind, wp_modify.
    apply send_queued_inv; [|done|done]. apply core_queue; [apply H1|done|done].
  - intros e s1 [H1 H2]. apply wp_effect. by apply refuse.
Qed.

Lemma withdraw_inv {E} R id s : session_inv R s -> open s ->
  wp (@withdraw _ _ _ config E id) (fun _ s' => session_inv R s') never s.
Proof.
  intros Hi Ho. pose proof (i_core _ _ Hi) as Hc. unfold withdraw. apply wp_bind, wp_get.
  assert (upd_driver (d_exchanges (ex s)) s = s) as Hsame by by destruct s as [[] ? ? ? ? ? ?].
  assert (forall s1 c, core R [c] s1 -> appl c -> open s1 -> link_open (driver s1) = true ->
    wp (let* _ := drop_completion c in send_queued (@complete _ _ _ config E)) (fun _ s' => session_inv R s') never s1) as Hdrop.
  { intros s1 c H1 H2 H3 H4. destruct (core_take _ _ _ _ H1) as (R' & HR & H1'); [left; by destruct c|].
    apply wp_bind. eapply wp_mono; [by eapply reply_some_ok| |done]. intros [] s2 (H5 & H6 & _).
    apply send_queued_inv; [done|by rewrite H6|by rewrite H6]. }
  assert (ex s <> Exchanges_default -> link_open (driver s) = true) as Hl.
  { intros He. apply (open_link R); [done|done|]. intros H. by destruct (c_idle _ _ _ Hc H). }
  unfold Exchanges_withdraw. destruct (position _ (queued (ex s))) as [i|] eqn:Hp.
  - destruct (position_Some _ _ _ Hp) as ([ob c] & Hx & _). rewrite Hx. apply wp_bind, wp_modify. cbn [fmap option_fmap option_map snd].
    destruct (take_queued _ _ _ _ _ _ Hc Hx) as [H1 H2]. apply Hdrop; [done|done|done|]. apply Hl. intros He. by rewrite He in Hx.
  - destruct (position _ (in_flight (ex s))) as [i|] eqn:Hp2.
    + destruct (position_Some _ _ _ Hp2) as (p & Hx & Hpc). rewrite Hx. apply wp_bind, wp_modify. cbn [fmap option_fmap option_map].
      apply Hdrop; [by apply take_pending|by destruct (completion p)|done|]. apply Hl. intros He. by rewrite He in Hx.
    + apply wp_bind, wp_modify. by rewrite Hsame.
Qed.

Lemma petition_begin R r s : core R [] s -> open s -> status (driver s) = Connected ->
  core (r :: R) [CPetition r] (record_effect (StatusSet Petitioning) (upd_driver (d_status Petitioning) s)).
Proof.
  intros [C1 C2 C3 C4 C5 C6 C7 C8 C9 C10 C11 C12 C13 [E1 E2 E3 E4 E5 E9]] Ho Hs. set (s' := record_effect _ _).
  destruct C2 as [C2|C2]; [congruence|]. rewrite Hs in *. cbn in C2, C5, C6.
  assert (forall q, count q (taken [CPetition r] s') = ((if q (CPetition r) then 1 else 0) + count q (taken [] s))%nat) as Hk.
  { intros q. rewrite taken_cons. done. }
  split; rewrite ?Hk; try done.
  - right. by rewrite C2.
  - cbn. intros H. destruct (C5 H) as [Hx|Hx]; [rewrite Hx in Ho|]; done.
  - cbn. rewrite replied_status, owed_cons. rewrite <- C12. cbn. by rewrite <- Permutation_middle.
  - cbn. rewrite statuses_snoc. by eapply status_path_snoc.
Qed.

Lemma petition_inv {E} R r s : session_inv R s -> open s ->
  wp (@petition _ _ _ config E r) (fun _ s' => session_inv (r :: R) s') never s.
Proof.
  intros Hi Ho. unfold petition. apply wp_bind, wp_get.
  destruct (petition_refusal (status (driver s))) as [m|] eqn:Hr; [apply wp_effect; by apply refuse|].
  apply wp_bind, wp_attempt. eapply wp_mono; [by apply ensure_open_ok| |].
  2:{ intros e s1 [H1 H2]. apply wp_effect. by apply refuse. }
  intros [] s1 (H1 & H2 & H3 & H4 & H5 & H6). apply wp_bind, wp_settled; [apply petition_request_safe|].
  intros [e|m]; [apply wp_effect; by apply refuse|]. unfold set_status. apply wp_bind, wp_bind, wp_modify, wp_effect.
  assert (status (driver s1) = Connected) as Hs.
  { destruct H6 as [H6|H6]; [|done]. rewrite H6 in *. by destruct (status (driver s)). }
  apply start_control; [apply petition_begin; [apply H1|done|done]|done|done|done|exact (i_working _ _ H1)|done].
Qed.

Lemma control_begin R c s : core R [] s -> is_active (status (driver s)) = true -> is_petition c = false ->
  is_application c = false ->
  (is_keep_alive c = true -> count is_keep_alive (taken [] s) = 0%nat) ->
  (is_resign c = true -> count is_resign (taken [] s) = 0%nat) ->
  core (option_list (completion_reply c) ++ R) [c] (upd_driver (d_keep_alive_at None) s).
Proof.
  intros [C1 C2 C3 C4 C5 C6 C7 C8 C9 C10 C11 C12 C13 [E1 E2 E3 E4 E5 E9]] Ha Hp Happ Hk Hr. set (s' := upd_driver _ s).
  assert (forall q, count q (taken [c] s') = ((if q c then 1 else 0) + count q (taken [] s))%nat) as Hc.
  { intros q. rewrite taken_cons. done. }
  split; rewrite ?Hc; try done.
  - rewrite Hp. done.
  - destruct (is_keep_alive c); [rewrite Hk by done; lia|lia].
  - destruct (is_resign c); [rewrite Hr by done; lia|lia].
  - by right.
  - intros H. destruct (C7 H) as (H1 & H2 & H3 & H4). done.
  - rewrite owed_cons. change (log s') with (log s). change (owed [] s') with (owed [] s). rewrite <- C12.
    rewrite !(assoc_L (++)). f_equiv. apply Permutation_app_comm.
Qed.

Lemma existsb_count (q : Completion -> bool) s : existsb (fun p => q (completion p)) (in_flight (ex s)) = false ->
  count q (taken [] s) = 0%nat.
Proof.
  intros H. unfold taken. rewrite app_nil_r. apply count_none. rewrite Forall_map. rewrite List.Forall_forall.
  intros p Hp. destruct (q (completion p)) eqn:Hq; [|done]. rewrite <- H. symmetry. apply existsb_exists. by exists p.
Qed.

Lemma send_keep_alive_inv {E} R r s : session_inv R s -> is_active (status (driver s)) = true ->
  count is_keep_alive (taken [] s) = 0%nat ->
  wp (@send_keep_alive _ _ _ config E (CKeepAlive r)) (fun _ s' => session_inv (option_list r ++ R) s') never s.
Proof.
  intros Hi Ha Hk. unfold send_keep_alive. apply wp_bind, wp_get. unfold session_id.
  destruct (status (driver s)) as [| | |sid|] eqn:Hs; try done. cbn [SessionStatus_session_id].
  assert (open s) as Ho by (unfold is_closed; by rewrite Hs).
  assert (link_open (driver s) = true) as Hl by (apply (open_link R); [done|done|by rewrite Hs]).
  apply wp_bind, wp_modify, wp_bind, wp_settled; [apply keep_alive_request_safe|].
  assert (core (option_list r ++ R) [CKeepAlive r] (upd_driver (d_keep_alive_at None) s)) as Hc
    by (apply (control_begin R (CKeepAlive r)); [apply Hi|by rewrite Hs|done..]).
  intros [e|m].
  - apply complete_inv; [done|done|done|done|]. right. exact (i_working _ _ Hi).
  - apply start_control; [done|done| |done|exact (i_working _ _ Hi)|done]. change (status (driver s) <> Idle). by rewrite Hs.
Qed.

Lemma resign_inv {E} R r s : session_inv R s -> open s -> resigning (ex s) = false ->
  wp (@resign _ _ _ config E r) (fun _ s' => session_inv (option_list r ++ R) s') never s.
Proof.
  intros Hi Ho Hr. unfold resign. apply wp_bind, wp_get. unfold session_id.
  destruct (SessionStatus_session_id (status (driver s))) as [sid|] eqn:Hs.
  - assert (is_active (status (driver s)) = true) as Ha by by destruct (status (driver s)).
    assert (status (driver s) <> Idle) as Hid by by intros H; rewrite H in Ha.
    assert (link_open (driver s) = true) as Hl by by apply (open_link R).
    assert (core (option_list r ++ R) [CResign r] (upd_driver (d_keep_alive_at None) s)) as Hc.
    { apply (control_begin R (CResign r)); [apply Hi|done..|]. intros _. by apply existsb_count. }
    apply wp_bind, wp_modify, wp_bind, wp_settled; [apply keep_alive_request_safe|]. intros [e|m].
    + apply complete_inv; [done|done|done|done|]. right. exact (i_working _ _ Hi).
    + apply start_control; [done|done|done|done|exact (i_working _ _ Hi)|done].
  - apply wp_bind. eapply wp_mono; [by apply (end_session_inv R), Hi| |done]. intros [] s1 [H1 H2].
    eapply wp_mono; [eapply (reply_some_ok (option_list r ++ R) R []); [apply H1|done]| |done].
    intros [] s2 (H3 & H4 & _). apply closed_inv; [done|by rewrite H4].
Qed.

Lemma handle_command_inv {E} R c s : session_inv R s -> open s ->
  wp (@handle_command _ _ _ config E c) (fun _ s' => session_inv (command_replies c ++ R) s') never s.
Proof.
  intros Hi Ho. pose proof (i_core _ _ Hi) as Hc. destruct c as [id ob r|id|r|r|r|h]; cbn [command_replies app].
  - by apply exchange_inv.
  - by apply withdraw_inv.
  - by apply petition_inv.
  - cbn [handle_command]. apply wp_bind, wp_get. destruct (keep_alive_refusal (driver s)) as [m|] eqn:Hr.
    { apply wp_effect. by apply refuse. }
    unfold keep_alive_refusal, session_id in Hr.
    assert (is_active (status (driver s)) = true) as Ha by by destruct (status (driver s)).
    destruct (SessionStatus_session_id _); [|done]. destruct (resigning _); [done|].
    destruct (keep_alive_outstanding (ex s)) eqn:Hk; [done|].
    apply (send_keep_alive_inv R (Some r)); [done|done|]. by apply existsb_count.
  - cbn [handle_command]. apply wp_bind, wp_get. destruct (resigning (ex s)) eqn:Hr; [apply wp_effect; by apply refuse|].
    by apply (resign_inv R (Some r)).
  - cbn [handle_command]. apply wp_bind. destruct Hi as [I1 I2 I3].
    assert (forall s1, core R [] s1 -> working s1 -> (link_open (driver s1) = false -> status (driver s1) = Idle \/ closed s1) ->
      session_inv R (upd_driver (d_joiner_handler h) s1)) as Hset.
    { intros s1 [C1 C2 C3 C4 C5 C6 C7 C8 C9 C10 C11 C12 C13 [E1 E2 E3 E4 E5 E9]] H2 H3. split; [|done|done]. by split. }
    destruct h as [h|]; [by apply wp_modify, Hset|]. apply wp_modify, wp_modify, Hset; [|done|done].
    destruct Hc as [C1 C2 C3 C4 C5 C6 C7 C8 C9 C10 C11 C12 C13 [E1 E2 E3 E4 E5 E9]]. split; try done.
    intros H. by destruct (C7 H) as (? & ? & ? & _).
Qed.

Lemma handles_dropped_inv {E} R s : session_inv R s -> open s ->
  wp (@on_handles_dropped _ _ _ config E) (fun _ s' => session_inv R s') never s.
Proof.
  intros Hi Ho. unfold on_handles_dropped. apply wp_bind, wp_modify, wp_bind, wp_get.
  assert (session_inv R (upd_driver (d_handles_dropped true) s)) as Hd.
  { destruct Hi as [[C1 C2 C3 C4 C5 C6 C7 C8 C9 C10 C11 C12 C13 [E1 E2 E3 E4 E5 E9]] I2 I3]. split; [by split|done|done]. }
  destruct (resigning _) eqn:Hr; [done|]. by apply (resign_inv R None).
Qed.

(** ** A session about to fail *)

(** Ending the session from here answers everything that is owed. *)
Definition doomed (R : list nat) (s : State) : Prop :=
  open s /\ forall reason, core R (completions s) (close_state reason s).

Lemma core_doomed R s : core R [] s -> open s -> doomed R s.
Proof. intros Hc Ho. split; [done|]. intros reason. pose proof (core_close _ _ _ reason Hc Ho) as H. by rewrite app_nil_r in H. Qed.

Lemma core_cs_perm R cs cs' s : core R cs s -> cs ≡ₚ cs' -> core R cs' s.
Proof.
  intros [C1 C2 C3 C4 C5 C6 C7 C8 C9 C10 C11 C12 C13 C14] Hp.
  assert (forall q, count q (taken cs' s) = count q (taken cs s)) as Hk.
  { intros q. unfold taken. rewrite !count_app. f_equal. unfold count. clear -Hp. induction Hp; cbn; repeat case_match; cbn; lia. }
  split; rewrite ?Hk; try done. rewrite <- C12. f_equiv. unfold owed. by rewrite Hp.
Qed.

(** The completion in hand is dropped, which answers it. *)
Lemma drop_doomed {E} R c s : core R [c] s -> open s ->
  wp (@drop_completion _ _ _ E c) (fun _ s' => doomed R s') never s.
Proof.
  intros Hc Ho. assert (forall reason, core R (c :: completions s) (close_state reason s)) as Hcl.
  { intros reason. eapply core_cs_perm; [by apply core_close|]. symmetry. apply Permutation_cons_append. }
  unfold drop_completion. destruct (completion_reply c) as [r|] eqn:Hr; cbn [reply_some].
  - apply wp_effect. split; [done|]. intros reason. destruct (core_take _ _ _ _ (Hcl reason)) as (R' & HR & H); [by right|].
    rewrite Hr in HR. cbn in HR. destruct H as [C1 C2 C3 C4 C5 C6 C7 C8 C9 C10 C11 C12 C13 [E1 E2 E3 E4 E5 E9]].
    split; try done.
    + cbn in *. rewrite replied_status, replied_snoc in *. rewrite HR, <- C12, <- (assoc_L (++)). symmetry. apply Permutation_middle.
    + cbn in *. rewrite statuses_snoc in *. unfold statuses in *. by rewrite omap_app, app_nil_r.
  - split; [done|]. intros reason. destruct (core_take _ _ _ _ (Hcl reason)) as (R' & HR & H); [by right|].
    rewrite Hr in HR. by eapply core_perm.
Qed.

Lemma doomed_end {E} R s reason : doomed R s ->
  wp (end_session (@complete _ _ _ config E) reason) (fun _ s' => session_inv R s') never s.
Proof.
  intros [Ho Hc]. eapply wp_mono; [apply (end_session_run _ R [] s reason); [apply complete_closed|done|by rewrite app_nil_r]| |done].
  intros [] s' (H1 & H2 & _). by apply closed_inv.
Qed.

Lemma inv_quiet R s s' : quiet s s' -> env_ok s' -> session_inv R s -> session_inv R s'.
Proof.
  intros Hq He [I1 I2 I3]. split; [by eapply core_quiet|by eapply working_quiet|].
  pose proof (quiet_closed _ _ Hq) as Hc. rewrite (q_link _ _ Hq), (q_status _ _ Hq), Hc. done.
Qed.

(** ** Acknowledgements are always sent, unless the transport fails *)

Definition destination_ok (d : Destination) : Prop := match d with Mesh a _ => len a = 16 | BorderAgent => True end.

Lemma link_send_transport w s : env_ok s -> open s -> link_open (driver s) = true -> is_ok (CoapMessage_encode w) = true ->
  wp (@link_send _ _ _ w) (fun _ s' => quiet s s' /\ env_ok s')
    (fun e s' => (quiet s s' /\ env_ok s') /\ is_transport_error e = true) s.
Proof.
  intros Hs Ho Hl Hw. pose proof (still_send w s Hs Ho) as H. unfold wp, link_send, mbind, get, mget, mlift in *.
  rewrite Hl in *. cbn [negb] in *. destruct (CoapMessage_encode w) as [b|e|f]; [|done..].
  unfold send_application_data in *. destruct (send_results s) as [|[e|] l]; [by destruct H|done|by destruct H].
Qed.

Definition udp_tx_options : list CoapOption := [mkCoapOption COAP_OPTION_URI_PATH [99]; mkCoapOption COAP_OPTION_URI_PATH [117; 116]].

Lemma empty_ack_encodes mid : is_ok (CoapMessage_encode (empty_ack mid)) = true.
Proof. done. Qed.
Lemma udp_tx_encodes mid tok pl : len tok = 4 ->
  is_ok (CoapMessage_encode (mkCoapMessage NonConfirmable CODE_POST mid tok udp_tx_options pl)) = true.
Proof.
  intros Hl. unfold CoapMessage_encode. cbn [token options payload]. rewrite Hl. cbn [Z.gtb Z.compare Pos.compare Pos.compare_cont].
  change (sort_by_key (enumerate udp_tx_options)) with (zip [0%nat; 1%nat] udp_tx_options).
  match goal with |- context [encode_options _ _ ?o] => generalize o end. intros o.
  cbn [zip zip_with encode_options udp_tx_options opt_number opt_value]. cbn. by destruct (is_empty pl).
Qed.

Lemma udp_tx_ok a p inner : len a = 16 -> len inner <= 60000 ->
  exists pl, udp_tx_request 0 [] a p inner = Ok (mkCoapMessage NonConfirmable CODE_POST 0 [] udp_tx_options pl).
Proof.
  intros Ha Hi. unfold udp_tx_request. rewrite append_tlv_ok by (rewrite Ha; done). cbn [rbind].
  rewrite append_tlv_ok.
  2:{ rewrite !len_app. rewrite !len_to_be. unfold MAX_EXTENDED_TLV_LENGTH. lia. }
  cbn [rbind]. eexists. exact (post_request_ok NonConfirmable 0 [] (str_bytes "c/ut") _ ltac:(done) ltac:(by_decide)).
Qed.

Definition acking (m : M State Error unit) (s : State) : Prop :=
  wp m (fun _ s' => quiet s s' /\ env_ok s') (fun e s' => (quiet s s' /\ env_ok s') /\ is_transport_error e = true) s.

Lemma reply_ack_ok s m d : env_ok s -> open s -> link_open (driver s) = true -> destination_ok d ->
  acking (reply m (empty_ack (message_id m)) d) s.
Proof.
  intros Hs Ho Hl Hd. unfold acking, reply, send_reply.
  assert (forall s1, quiet s s1 -> env_ok s1 -> wp (with_answered (fun l c => (remember d (message_id m) (empty_ack (message_id m)) l c, tt)))
    (fun _ s' => quiet s s' /\ env_ok s') (fun e s' => (quiet s s' /\ env_ok s') /\ is_transport_error e = true) s1) as Hrem.
  { intros s1 Q1 E1. assert (open s1) as Ho1 by by rewrite (quiet_closed _ _ Q1).
    pose proof (still_remember (E := Error) d (message_id m) (empty_ack (message_id m)) s1 E1 Ho1) as H.
    unfold wp, with_answered in *. destruct (remember _ _ _ _ _) as [l c]. destruct H as [[Q2 E2] _]. split; [by etrans|done]. }
  assert (forall s1 w, quiet s s1 -> env_ok s1 -> is_ok (CoapMessage_encode w) = true ->
    wp (link_send w) (fun _ s' => wp (with_answered (fun l c => (remember d (message_id m) (empty_ack (message_id m)) l c, tt)))
      (fun _ s' => quiet s s' /\ env_ok s') (fun e s' => (quiet s s' /\ env_ok s') /\ is_transport_error e = true) s')
      (fun e s' => (quiet s s' /\ env_ok s') /\ is_transport_error e = true) s1) as Hsend.
  { intros s1 w Q1 E1 Hw. eapply wp_mono; [apply link_send_transport; [done|by rewrite (quiet_closed _ _ Q1)|by rewrite (q_link _ _ Q1)|done]| |].
    - intros [] s2 [Q2 E2]. apply Hrem; [by etrans|done].
    - intros e s2 [[Q2 E2] He]. split; [|done]. split; [by etrans|done]. }
  apply wp_bind. unfold wire_message. destruct d as [|a p]; cbn [destination_ok] in Hd.
  - apply wp_bind. unfold wp at 1, mret. by apply Hsend.
  - apply wp_bind, wp_bind. pose proof (empty_ack_encodes (message_id m)) as He.
    destruct (CoapMessage_encode (empty_ack (message_id m))) as [inner|e|f] eqn:Hinner; [|done..]. clear He.
    assert (len inner <= 60000) as Hlen by (injection Hinner as <-; done).
    unfold wp at 1, mlift. destruct (udp_tx_ok a p inner Hd Hlen) as [pl Hpl]. apply wp_bind. rewrite Hpl.
    unfold wp at 1, mlift. eapply wp_mono; [by apply assign_identity_ok| |done].
    intros w s1 ([Q1 E1] & Ew & _ & Ht). apply Hsend; [done|done|]. rewrite Ew. by apply udp_tx_encodes.
Qed.

(** ** Messages *)

Lemma deliver_inv R c m ack s : core R [c] s -> open s -> link_open (driver s) = true -> appl c \/ working s ->
  bytes_ok (payload m) -> acking ack s ->
  wp (deliver config c m ack) (fun _ s' => session_inv R s') (fun e s' => is_transport_error e = true /\ doomed R s') s.
Proof.
  intros Hc Ho Hl Hw Hm Hack. unfold deliver. assert (forall s1 o, quiet s s1 -> env_ok s1 -> outcome_ok o ->
    wp (complete config c o) (fun _ s' => session_inv R s') (fun e s' => is_transport_error e = true /\ doomed R s') s1) as Hcomp.
  { intros s1 o Q1 E1 Hok. eapply (wp_mono _ (fun _ s' => session_inv R s') _ never); [|done|done].
    apply complete_inv; [done|by eapply core_quiet|by rewrite (quiet_closed _ _ Q1)|by rewrite (q_link _ _ Q1)|].
    destruct Hw; [by left|right]. by eapply working_quiet. }
  destruct (bool_decide _); [apply Hcomp; [done|apply Hc|done]|]. apply wp_bind. unfold or_drop. apply wp_bind.
  eapply (wp_mono _ (fun r s1 => (quiet s s1 /\ env_ok s1) /\ match r with inl e => is_transport_error e = true | inr _ => True end) _ never);
    [apply wp_attempt; eapply wp_mono; [exact Hack|done|done]| |done].
  intros [e|[]] s1 [[Q1 E1] He].
  - apply wp_bind.
    eapply (wp_mono _ _ _ never); [apply (drop_doomed R c); [by eapply core_quiet|by rewrite (quiet_closed _ _ Q1)]| |done].
    intros [] s2 Hd. by split.
  - apply Hcomp; [done|done|]. by intros m' [= <-].
Qed.

Lemma acknowledge_inv {E} R m b s : session_inv R s -> open s ->
  wp (@acknowledge _ _ _ E m b) (fun _ s' => session_inv R s' /\ open s' /\ link_open (driver s') = link_open (driver s)) never s.
Proof.
  intros Hi Ho. unfold acknowledge. apply wp_bind, wp_get. destruct (position _ _) as [i|] eqn:Hp; [|by split].
  destruct (position_Some _ _ _ Hp) as (p & Hx & _). rewrite Hx. apply wp_bind, wp_modify. split; [|done].
  destruct Hi as [I1 I2 I3]. split; [|by eapply set_working|done]. eapply set_pending; [done|done|done|done| |done].
  pose proof (c_pending _ _ _ I1) as HF. pose proof (Forall_lookup_1 _ _ _ _ HF Hx) as [H1 H2]. split; [done|].
  cbn. destruct (retransmit p); [|done]. destruct H2 as (? & ? & ?). done.
Qed.

Lemma take_answered_inv {E} R m b s : session_inv R s -> open s ->
  wp (@take_answered _ _ _ E m b) (fun o s' => open s' /\ link_open (driver s') = link_open (driver s) /\
    match o with
    | None => session_inv R s'
    | Some p => core R [completion p] s' /\ (appl (completion p) \/ working s') /\ is_proxied p = b
    end) never s.
Proof.
  intros Hi Ho. unfold take_answered. apply wp_bind, wp_get. destruct (position _ _) as [i|] eqn:Hp; [|by split].
  destruct (position_Some _ _ _ Hp) as (p & Hx & Hpp). apply wp_bind, wp_modify. rewrite Hx. split; [done|]. split; [done|].
  split; [apply take_pending; [apply Hi|done]|]. split; [by apply take_working, (i_working _ _ Hi)|].
  unfold answered_by in Hpp. apply andb_true_iff in Hpp as [Hb _]. by apply eqb_prop in Hb.
Qed.

(** What routing a message leaves: the invariant; after an error, either the
    transport failed, or the invariant. *)
Definition routed (R : list nat) (m : M State Error unit) (s : State) : Prop :=
  wp m (fun _ s' => session_inv R s')
    (fun e s' => if is_transport_error e then doomed R s' else session_inv R s') s.

Lemma inv_error R e s : session_inv R s -> open s -> if is_transport_error e then doomed R s else session_inv R s.
Proof. intros Hi Ho. destruct (is_transport_error e); [by apply core_doomed, Ho; apply Hi|done]. Qed.

Lemma routed_still {A} R (m : M State Error A) (k : A -> M State Error unit) Q s : session_inv R s -> open s ->
  link_open (driver s) = true -> still m Q ->
  (forall a s', Q a -> session_inv R s' -> open s' -> link_open (driver s') = true -> routed R (k a) s') ->
  routed R (mbind m k) s.
Proof.
  intros Hi Ho Hl Hm Hk. apply wp_bind. eapply wp_mono; [apply Hm; [apply Hi|done]| |].
  - intros a s' [[Q1 E1] Ha]. apply Hk; [done|by eapply inv_quiet|by rewrite (quiet_closed _ _ Q1)|by rewrite (q_link _ _ Q1)].
  - intros e s' [Q1 E1]. apply inv_error; [by eapply inv_quiet|by rewrite (quiet_closed _ _ Q1)].
Qed.

Lemma routed_done R (m : M State Error unit) Q s : session_inv R s -> open s -> still m Q -> routed R m s.
Proof.
  intros Hi Ho Hm. eapply wp_mono; [apply Hm; [apply Hi|done]| |].
  - intros [] s' [[Q1 E1] _]. by eapply inv_quiet.
  - intros e s' [Q1 E1]. apply inv_error; [by eapply inv_quiet|by rewrite (quiet_closed _ _ Q1)].
Qed.

Lemma deliver_routed R c m ack s : core R [c] s -> open s -> link_open (driver s) = true -> appl c \/ working s ->
  bytes_ok (payload m) -> acking ack s -> routed R (deliver config c m ack) s.
Proof.
  intros. eapply wp_mono; [by apply deliver_inv|done|]. intros e s' [He Hd]. by rewrite He.
Qed.

Lemma route_direct_inv R m s : session_inv R s -> open s -> link_open (driver s) = true -> bytes_ok (payload m) ->
  routed R (route_direct config border_agent_ip m) s.
Proof.
  intros Hi Ho Hl Hm. unfold route_direct. eapply routed_still; [done|done|done|apply still_answer_retransmission|].
  intros again s1 _ I1 O1 L1. destruct again; [exact I1|]. apply wp_bind.
  eapply (wp_mono _ _ _ never); [by apply (acknowledge_inv R)| |done]. intros acked s2 (I2 & O2 & L2). destruct acked; [done|].
  apply wp_bind. eapply (wp_mono _ _ _ never); [by apply (take_answered_inv R)| |done]. intros o s3 (O3 & L3 & H3).
  rewrite L2, L1 in L3. destruct o as [p|].
  - destruct H3 as (C3 & W3 & _). apply deliver_routed; try done. unfold ack_if_confirmable. destruct (bool_decide _).
    + apply reply_ack_ok; [apply C3|done|done|done].
    + split; [done|apply C3].
  - eapply routed_still; [done|done|done|by apply still_unsolicited|]. intros u s4 _ I4 O4 L4.
    destruct u; [|done]. eapply routed_done; [done|done|apply still_ack].
Qed.

Lemma route_proxied_inv R u m s : session_inv R s -> open s -> link_open (driver s) = true -> bytes_ok (payload m) ->
  len (source_address u) = 16 -> routed R (route_proxied config u m) s.
Proof.
  intros Hi Ho Hl Hm Hu. unfold route_proxied. eapply routed_still; [done|done|done|apply still_answer_retransmission|].
  intros again s1 _ I1 O1 L1. destruct again; [exact I1|]. apply wp_bind.
  eapply (wp_mono _ _ _ never); [by apply (acknowledge_inv R)| |done]. intros acked s2 (I2 & O2 & L2). destruct acked; [done|].
  apply wp_bind. eapply (wp_mono _ _ _ never); [by apply (take_answered_inv R)| |done]. intros o s3 (O3 & L3 & H3).
  rewrite L2, L1 in L3. destruct o as [p|].
  - destruct H3 as (C3 & W3 & _). apply deliver_routed; try done. destruct (bool_decide _).
    + apply reply_ack_ok; [apply C3|done|done|done].
    + split; [done|apply C3].
  - eapply routed_still; [done|done|done|by apply still_unsolicited_proxied|]. intros x s4 _ I4 O4 L4. done.
Qed.

Lemma handle_datagram_inv {E} R d s : session_inv R s -> open s -> link_open (driver s) = true -> bytes_ok d ->
  wp (@handle_datagram _ _ _ config border_agent_ip E d) (fun _ s' => session_inv R s') never s.
Proof.
  intros Hi Ho Hl Hd. unfold handle_datagram. destruct (CoapMessage_decode_spec d Hd) as [Hs Hwf].
  apply wp_bind. unfold wp at 1, settled, attempt, mlift. destruct (CoapMessage_decode d) as [m|e|f]; [|done|done].
  destruct (Hwf m eq_refl) as [(_ & _ & _ & _ & _ & Hm) _]. apply wp_bind, wp_attempt.
  assert (routed R (route_incoming config border_agent_ip m) s) as Hr.
  { unfold routed, route_incoming. apply wp_bind. unfold wp at 1, settled, attempt, mlift.
    pose proof (parse_udp_rx_safe m Hm) as Hps. destruct (parse_udp_rx m) as [[u|]|e|f] eqn:Hu; [| |done|done].
    - destruct (parse_udp_rx_ok m u Hm Hu) as [Ha Hp]. destruct (negb _); [done|]. apply wp_bind.
      unfold wp at 1, settled, attempt, mlift. destruct (CoapMessage_decode_spec _ Hp) as [Hs2 Hwf2].
      destruct (CoapMessage_decode (udp_payload u)) as [m2|e|f]; [|done|done].
      destruct (Hwf2 m2 eq_refl) as [(_ & _ & _ & _ & _ & Hm2) _]. by apply route_proxied_inv.
    - by apply route_direct_inv. }
  eapply wp_mono; [exact Hr|intros [] s' H; exact H|]. intros e s' H. cbv beta in H. destruct (is_transport_error e); [exact (doomed_end R s' _ H)|exact H].
Qed.

(** ** Failures to receive *)

Lemma wp_run {E A} (m : M State E A) (Q : A -> State -> Prop) s s' a : m s = (s', Ok a) -> Q a s' -> wp m Q never s.
Proof. apply wp_eq. Qed.

Lemma fail_idle {E} c e s : open s -> queued (ex s) = [] -> appl c \/ is_petition c = true ->
  @complete _ _ _ config E c (inl e) s =
    (match c with
     | CPetition r => record_effect (Replied r (AnPetition (inl e))) (record_effect (StatusSet Connected) (upd_driver (d_status Connected) s))
     | CCaller _ r => record_effect (Replied r (AnExchange (inl e))) s
     | _ => s
     end, Ok tt).
Proof.
  intros Ho Hq Hc. unfold complete, need. rewrite Ho, Hq. cbn [length Nat.add complete_fuel].
  destruct c as [id r|r|r|r]; [|..]; try (by destruct Hc); cbn [complete_body].
  - unfold mbind at 1, send_reply_channel, effect, mset. by apply send_queued_empty.
  - unfold petition_outcome, settled, attempt, mlift, petition_response, response_required, mbind, get, mget.
    cbn [of_sum rbind]. by rewrite Ho.
Qed.

Lemma fail_each_idle {E} R l e s : core R l s -> open s -> ex s = Exchanges_default -> link_open (driver s) = false ->
  Forall (fun c => appl c \/ is_petition c = true) l -> status (driver s) = Connected \/ status (driver s) = Petitioning ->
  wp (fail_each (@complete _ _ _ config E) l e) (fun _ s' => core R [] s' /\ ex s' = Exchanges_default /\
    link_open (driver s') = false /\ status (driver s') = Connected) never s.
Proof.
  intros Hc Ho He Hl Hall Hs. revert R s Hc Ho He Hl Hs. induction Hall as [|c l Hcc Hall IH]; intros R s Hc Ho He Hl Hs; cbn [fail_each].
  - split; [done|]. split; [done|]. split; [done|]. destruct Hs as [|Hs]; [done|]. exfalso.
    destruct (c_petition _ _ _ Hc) as [H|H]; [congruence|]. rewrite Hs in H. unfold taken in H. by rewrite He in H.
  - apply wp_bind. eapply wp_run; [apply fail_idle; [done|by rewrite He|done]|].
    destruct c as [id r|r|r|r]; try (by destruct Hcc).
    + apply IH; try done. destruct (core_take _ _ _ _ Hc (or_introl eq_refl)) as (R' & HR & H). by eapply core_give.
    + destruct (petitioned R r l s Connected Hc Ho) as (R' & HR & H & _); [by left|]. apply IH; try done; [by eapply core_give|by left].
Qed.

Lemma core_drain R s : core R [] s -> core R (completions s) (upd_driver (d_exchanges Exchanges_default) (upd_driver (d_link_open false) s)).
Proof.
  intros [C1 C2 C3 C4 C5 C6 C7 C8 C9 C10 C11 C12 C13 [E1 E2 E3 E4 E5 E9]]. set (s' := upd_driver _ _).
  assert (forall q, (forall c, appl c -> q c = false) -> count q (taken (completions s) s') = count q (taken [] s)) as Hk.
  { intros q Hq. unfold taken. change (in_flight (ex s')) with (@nil PendingExchange). cbn [map app].
    unfold completions. rewrite app_nil_r, count_app, (count_none q (map snd _)); [lia|].
    rewrite Forall_map. eapply Forall_impl; [exact C9|]. intros x Hx. by apply Hq. }
  split; rewrite ?Hk by (by intros []); try done.
  - intros H. destruct (C7 H) as (_ & _ & ? & ?). done.
  - by constructor.
  - rewrite <- C12. unfold owed, completions. cbn [map app]. by rewrite app_nil_r.
  - split; try done. cbn. lia.
Qed.

Lemma receive_failed_inv {E} R e s : session_inv R s -> open s -> link_open (driver s) = true ->
  wp (@receive_failed _ _ _ config E e) (fun _ s' => session_inv R s') never s.
Proof.
  intros Hi Ho Hl. pose proof (i_core _ _ Hi) as Hc. unfold receive_failed. apply wp_bind, wp_get, wp_bind, wp_get.
  assert (forall reason, wp (end_session (@complete _ _ _ config E) reason) (fun _ s' => session_inv R s') never s) as Hend.
  { intros reason. eapply wp_mono; [by apply (end_session_inv R)| |done]. by intros [] s' [? _]. }
  destruct (_ && _ && _) eqn:Hb; [|destruct (is_peer_closed e); apply Hend].
  zbool. match goal with Hx : session_id _ = None |- _ => rename Hx into Hsid end.
  assert (status (driver s) = Connected \/ status (driver s) = Petitioning) as Hs.
  { unfold session_id in Hsid. unfold is_closed in Ho. destruct (status (driver s)) eqn:Hst; auto; try done.
    destruct (c_idle _ _ _ Hc Hst). congruence. }
  assert (is_active (status (driver s)) = false) as Ha by (by destruct Hs as [-> | ->]).
  assert (keep_alive_at (driver s) = None) as Hk.
  { destruct (keep_alive_at (driver s)) eqn:Hk; [|done]. destruct (c_timer _ _ _ Hc); [by rewrite Hk|congruence]. }
  assert (Forall (fun c => appl c \/ is_petition c = true) (completions s)) as Hall.
  { unfold completions. apply Forall_app. split.
    - rewrite Forall_forall. intros c Hin. destruct c as [id r|r|r|r]; [by left|by right| |]; exfalso.
      all: destruct (c_active _ _ _ Hc) as [Hx|Hx]; [|congruence..].
      all: apply list_elem_of_split in Hin as (l1 & l2 & Hin); unfold taken; rewrite Hin, !count_app, !count_cons; cbn; lia.
    - rewrite Forall_map. eapply Forall_impl; [apply Hc|]. intros x Hx. by left. }
  apply wp_bind, wp_modify, wp_bind. unfold fail_all. apply wp_bind, wp_get. cbn [drain]. apply wp_bind, wp_modify.
  eapply wp_mono; [apply (fail_each_idle R (completions s)); [by apply core_drain|done..]| |done].
  intros [] s1 (H1 & H2 & H3 & H4). unfold set_status. apply wp_bind, wp_modify, wp_effect.
  destruct H1 as [C1 C2 C3 C4 C5 C6 C7 C8 C9 C10 C11 C12 C13 [E1 E2 E3 E4 E5 E9]].
  assert (taken [] s1 = []) as Ht by (unfold taken; by rewrite H2).
  split; [|unfold working; cbn; by rewrite H2|by left]. split; try done.
  - right. change (taken [] _) with (taken [] s1). by rewrite Ht.
  - change (taken [] (record_effect _ _)) with (taken [] s1). rewrite Ht. intros Hx. exfalso. exact (Nat.lt_irrefl 0 Hx).
  - intros Hx. destruct (C6 Hx) as [H5 _]. by rewrite H4 in H5.
  - cbn. by rewrite replied_status.
  - cbn. rewrite statuses_snoc. rewrite H4 in C13. by eapply status_path_snoc.
Qed.

(** ** Timers *)

Fixpoint weight (t : Z) (l : list PendingExchange) : nat :=
  match l with
  | [] => 0
  | p :: l => (if (deadline p <=? t)%Z then 2 else 1) + weight t l
  end.
Lemma weight_app t l k : weight t (l ++ k) = (weight t l + weight t k)%nat.
Proof. induction l as [|p l IH]; [done|]. cbn. rewrite IH. lia. Qed.
Lemma weight_le t l : (weight t l <= 2 * length l)%nat.
Proof. induction l as [|p l IH]; [done|]. cbn. destruct (_ <=? _); lia. Qed.

Lemma retransmitted_ok t p : pending_ok p -> due (retry_at p) t = true -> t < deadline p ->
  pending_ok (retransmitted t p) /\ not_due t (retransmitted t p).
Proof.
  intros [H1 H2] Hd Ht. unfold retransmitted, pending_ok, not_due. destruct (retransmit p) as [r|] eqn:Hr.
  2:{ rewrite H2 in Hd. done. }
  destruct H2 as (H3 & H4 & H5). assert (retransmissions r <= 1) as H6 by (apply H4; by destruct (retry_at p)).
  assert (retransmissions (record_retransmission r) = retransmissions r + 1) as Hn.
  { unfold record_retransmission, saturating_add. cbn [retransmissions]. lia. }
  assert (0 < sched_timeout (record_retransmission r)) as Hp by (cbn [sched_timeout record_retransmission]; unfold MAX_DURATION; lia).
  cbn [completion destination set_retry_at set_retransmit retransmit retry_at deadline]. rewrite Hn.
  unfold schedule_timeout, COAP_MAX_RETRANSMIT. rewrite Hn. split.
  - split; [done|]. split; [lia|]. split; [|done]. destruct (_ <? 2) eqn:E2; zbool; [lia|done].
  - split; [done|]. intros x Hx. apply fmap_Some in Hx as (y & Hy & ->). destruct (_ <? 2); [|done]. injection Hy as <-. cbn [sched_timeout record_retransmission] in Hp. lia.
Qed.

Lemma not_due_weight t p : not_due t p -> weight t [p] = 1%nat.
Proof. intros [H _]. cbn. by rewrite (proj2 (Z.leb_gt _ _)). Qed.

Definition timers_ran R t (b : bool) (s : State) : Prop :=
  core R [] s /\ working s /\
  if b then open s /\ link_open (driver s) = true /\ t <= clock_now (clock s) /\ Forall (not_due t) (in_flight (ex s))
  else closed s.

Lemma timer_loop_ok {E} R t fuel A B s : core R [] s -> working s -> open s -> link_open (driver s) = true ->
  t <= clock_now (clock s) -> in_flight (ex s) = A ++ B -> Forall (not_due t) A -> (weight t B <= fuel)%nat ->
  wp (@timer_loop _ _ _ config E fuel t (length A)) (timers_ran R t) never s.
Proof.
  revert A B s. induction fuel as [|fuel IH]; intros A B s Hc Hw Ho Hl Ht Hin HA Hf; cbn [timer_loop]; apply wp_bind, wp_get;
    (destruct B as [|p B];
      [rewrite app_nil_r in Hin; rewrite Hin, (lookup_ge_None_2 A) by lia; unfold wp, mret, timers_ran; by rewrite Hin|]).
  { cbn in Hf. destruct (_ <=? _); lia. }
  assert (in_flight (ex s) !! length A = Some p) as Hx by (rewrite Hin; by apply list_lookup_middle).
  rewrite Hx. unfold timer_step. pose proof (Forall_lookup_1 _ _ _ _ (c_pending _ _ _ Hc) Hx) as Hp.
  assert (forall s1 p', quiet s s1 -> env_ok s1 -> completion p' = completion p -> request p' = request p -> pending_ok p' ->
    deadline p' = deadline p -> not_due t p' -> wp (let* _ := modify (set_in_flight (length A) p') in @timer_loop _ _ _ config E fuel t (S (length A)))
      (timers_ran R t) never s1) as Hset.
  { intros s1 p' Q1 E1 P1 P2 P3 P5 P4. apply wp_bind, wp_modify.
    assert (in_flight (ex s1) !! length A = Some p) as Hx1 by by rewrite (q_exchanges _ _ Q1).
    replace (S (length A)) with (length (A ++ [p'])) by (rewrite length_app; cbn; lia).
    apply (IH (A ++ [p']) B); [eapply set_pending; [by eapply core_quiet|done..]|eapply set_working; [done|done|by eapply working_quiet]
      |by rewrite <- Ho; apply (quiet_closed _ _ Q1)|by rewrite <- Hl; apply Q1|pose proof (q_clock _ _ Q1); cbn; lia| | |].
    - cbn. rewrite (q_exchanges _ _ Q1), Hin, <- (assoc_L (++)). replace (length A) with (length A + 0)%nat by lia.
      by rewrite insert_app_r.
    - apply Forall_app. split; [done|]. by constructor.
    - cbn in Hf. destruct (_ <=? _); lia. }
  destruct (deadline p <=? t) eqn:Hd.
  - apply wp_bind, wp_modify, wp_bind. pose proof (take_pending _ _ _ _ _ Hc Hx) as Hc1. pose proof (take_working _ _ _ Hx Hw) as Hw1.
    destruct (remove_at_split _ _ _ Hx) as (l1 & l2 & Hl12 & Hr & Hlen). rewrite Hin in Hl12.
    apply app_inj_1 in Hl12 as [<- [= <-]]; [|done].
    set (s1 := upd_driver (remove_in_flight (length A)) s) in *. assert (in_flight (ex s1) = A ++ B) as Hin1 by done.
    eapply (wp_mono _ _ _ never never); [apply (complete_open config (length (queued (ex s1))) R [] _ _ s1 any (A ++ B) t true (length (queued (ex s1))));
      [done|done|done|done| |done|destruct Hw1; auto]| |done].
    { split; try done. by left. }
    intros [] s2 (H1 & H2 & H3). apply wp_bind, wp_get. destruct (is_closed (driver s2)) eqn:Hcl; [by split|].
    destruct H2 as [[? _]|[F1 F2 F3 F4 F5]]; [congruence|]. cbn in Hf. rewrite Hd in Hf.
    destruct F5 as [F5|(p' & F5 & _ & Hnd)].
    + apply (IH A B); try done. lia.
    + apply (IH A (B ++ [p'])); try done; [by rewrite (assoc_L (++))|]. rewrite weight_app, not_due_weight by done. lia.
  - zbool. destruct (due (retry_at p) t) eqn:Hdue.
    + destruct (retransmitted_ok t p Hp Hdue Hd) as [P3 P4].
      assert (completion (retransmitted t p) = completion p /\ request (retransmitted t p) = request p /\
        deadline (retransmitted t p) = deadline p) as (P1 & P2 & P5).
      { unfold retransmitted. by destruct (retransmit p). }
      apply wp_bind.
      eapply (wp_mono _ (fun r s1 => quiet s s1 /\ env_ok s1) _ never never); [apply wp_attempt| |done].
      { eapply wp_mono; [apply (still_bind _ _ _ _ (still_wire (request p) (destination p)) (fun w _ => still_send w) s); [apply Hc|done]|..].
        - by intros [] s1 [? _].
        - by intros. }
      intros [e|[]] s1 [Q1 E1]; [|by apply Hset]. destruct (is_transport_error e); [|by apply Hset].
      apply wp_bind. eapply wp_mono; [apply (end_session_inv R); by eapply core_quiet| |done].
      intros [] s2 [H1 H2]. split; [apply H1|]. split; [apply H1|done].
    + replace (S (length A)) with (length (A ++ [p])) by (rewrite length_app; cbn; lia).
      apply (IH (A ++ [p]) B); try done; [by rewrite <- (assoc_L (++))| |].
      * apply Forall_app. split; [done|]. constructor; [|done]. split; [done|]. intros x Hx'. unfold due in Hdue.
        rewrite Hx' in Hdue. by zbool.
      * cbn in Hf. destruct (_ <=? _); lia.
Qed.

Lemma run_exchange_timers_ok {E} R s : session_inv R s -> open s -> link_open (driver s) = true ->
  wp (@run_exchange_timers _ _ _ config E) (fun _ s' => session_inv R s' /\
    (closed s' \/ exists t, clock_now (clock s) <= t <= clock_now (clock s') /\ Forall (not_due t) (in_flight (ex s')))) never s.
Proof.
  intros Hi Ho Hl. unfold run_exchange_timers. apply wp_bind. eapply wp_mono; [apply (now_ok s), Hi| |done].
  intros t s1 [[Q1 E1] Ht]. assert (session_inv R s1) as I1 by by eapply inv_quiet.
  assert (open s1) as O1 by by rewrite (quiet_closed _ _ Q1). assert (link_open (driver s1) = true) as L1 by by rewrite (q_link _ _ Q1).
  pose proof (q_clock _ _ Q1) as Hq. apply wp_bind, wp_get, wp_bind.
  eapply (wp_mono _ (timers_ran R t) _ never never); [| |done].
  { apply (timer_loop_ok R t _ [] (in_flight (ex s1))); try done; [apply I1|apply I1|by subst t|apply weight_le]. }
  intros [] s2 (C2 & W2 & H2); [|by split; [apply closed_inv|left]].
  destruct H2 as (O2 & L2 & T2 & D2). eapply wp_mono; [eapply (send_queued_ok (length (queued (ex s2))) _ R [] any (in_flight (ex s2)) t true (length (queued (ex s2))));
    [apply complete_closed|intros; apply complete_open|done|done|done| |done]| |done].
  { split; try done. by left. }
  intros [] s3 (C3 & F3 & W3). split; [by eapply frame_inv|]. destruct F3 as [[F3 _]|[F1 F2 F4 F5 F6]]; [by left|right].
  exists t. split; [lia|]. destruct F6 as [->|(p & -> & _ & Hnd)]; [done|]. apply Forall_app. split; [done|]. by constructor.
Qed.

Lemma timer_link R s : session_inv R s -> timer_due s = true -> link_open (driver s) = true.
Proof.
  intros Hi Hdue. pose proof (i_core _ _ Hi) as Hc. destruct (link_open (driver s)) eqn:Hl; [done|].
  assert (ex s = Exchanges_default /\ keep_alive_at (driver s) = None) as [He Hk].
  { destruct (i_link _ _ Hi Hl) as [Hs|Hs].
    - destruct (c_idle _ _ _ Hc Hs) as [He _]. split; [done|]. destruct (keep_alive_at (driver s)) eqn:Hk; [|done].
      destruct (c_timer _ _ _ Hc) as [H1 _]; [by rewrite Hk|]. by rewrite Hs in H1.
    - by destruct (c_closed _ _ _ Hc Hs) as (? & ? & ? & ?). }
  unfold timer_due, next_deadline in Hdue. by rewrite He, Hk in Hdue.
Qed.

Lemma run_timers_inv {E} R s : session_inv R s -> open s -> timer_due s = true ->
  wp (@run_timers _ _ _ config E) (fun _ s' => session_inv R s') never s.
Proof.
  intros Hi Ho Hdue. pose proof (i_core _ _ Hi) as Hc.
  pose proof (timer_link _ _ Hi Hdue) as Hl.
  unfold run_timers. apply wp_bind. eapply wp_mono; [by apply (run_exchange_timers_ok R)| |done]. intros [] s1 [I1 _].
  apply wp_bind, wp_get. destruct (is_closed (driver s1)) eqn:O1; [done|]. apply wp_bind, wp_get.
  destruct (keep_alive_at (driver s1)) as [a|] eqn:Hk; [|done]. apply wp_bind.
  eapply wp_mono; [apply (now_ok s1), I1| |done]. intros t s2 [[Q2 E2] _].
  assert (session_inv R s2) as I2 by by eapply inv_quiet. destruct (a <=? t); [|done].
  destruct (c_timer _ _ _ (i_core _ _ I2)) as [H1 H2]; [rewrite (q_timer _ _ Q2), Hk; done|].
  by apply (send_keep_alive_inv R None).
Qed.
End Invariant.
