(* ===== verification/SessionIsolation.v ===== *)
(** * SessionIsolation: who may answer what, and repeated messages

    Theorems about single messages that reach a session in the middle of a
    run: one that was relayed from the mesh cannot complete a request that was
    sent to the border agent itself, and a confirmable message that was
    answered before gets the same reply, and nothing else happens. *)
From stdpp Require Import gmap.
From S2P Require Import Prelude Text Tlv Errors Dataset Coap NetDiag Messages Joiner.
From S2P Require Import Commissioner SessionDriver SessionCore SessionSafety SessionInvariant SessionClaims.

Section Isolation.
Context {JH : JoinerHandler} {OR : OsRng} {OL : OsRngLaws} {JS : JoinerSessions} {JL : JoinerSessionsLaws}.
Context (config : CommissionerConfig) (border_agent_ip : string).

Notation ex s := (exchanges (driver s)).
Notation closed s := (is_closed (driver s) = true).
Notation open s := (is_closed (driver s) = false).
Notation never := (fun _ _ => False).
Notation appl c := (is_application c = true).
Notation run := (@run _ _ _ config border_agent_ip Error).

(** ** Requests to the border agent *)

Definition direct_requests (s : State) : list PendingExchange :=
  List.filter (fun p => negb (is_proxied p)) (in_flight (ex s)).

Definition untouched (s0 s : State) : Prop :=
  status (driver s) = status (driver s0) /\ exists l, direct_requests s = direct_requests s0 ++ l.
(** All that can happen besides is that the session ends for a transport failure. *)
Definition isolated (s0 s : State) : Prop :=
  untouched s0 s \/ exists e, status (driver s) = Closed (TransportFailed e).

Lemma untouched_quiet s0 s s' : quiet s s' -> untouched s0 s -> untouched s0 s'.
Proof.
  intros Hq [H1 H2]. unfold untouched, direct_requests in *. rewrite (q_exchanges _ _ Hq), (q_status _ _ Hq). done.
Qed.

Lemma filter_insert_proxied l i p p' : l !! i = Some p -> is_proxied p = true -> is_proxied p' = true ->
  List.filter (fun p => negb (is_proxied p)) (<[i:=p']> l) = List.filter (fun p => negb (is_proxied p)) l.
Proof.
  revert i. induction l as [|x l IH]; intros [|i] Hi Hp Hp'; try done; cbn in *.
  - injection Hi as ->. by rewrite Hp, Hp'.
  - by rewrite IH.
Qed.
Lemma filter_remove_proxied l i p : l !! i = Some p -> is_proxied p = true ->
  List.filter (fun p => negb (is_proxied p)) (remove_at i l) = List.filter (fun p => negb (is_proxied p)) l.
Proof.
  intros Hi Hp. destruct (remove_at_split _ _ _ Hi) as (l1 & l2 & -> & -> & _). rewrite !List.filter_app. cbn. by rewrite Hp.
Qed.

Definition sealed (s0 : State) (m : M State Error unit) (s : State) : Prop :=
  wp m (fun _ s' => isolated s0 s') (fun e s' => is_transport_error e = false -> isolated s0 s') s.

Lemma sealed_still {A} s0 (m : M State Error A) (k : A -> M State Error unit) Q s : env_ok s -> open s -> untouched s0 s ->
  still m Q -> (forall a s', quiet s s' -> env_ok s' -> untouched s0 s' -> Q a -> sealed s0 (k a) s') -> sealed s0 (mbind m k) s.
Proof.
  intros Hs Ho Hu Hm Hk. apply wp_bind. eapply wp_mono; [by apply Hm| |].
  - intros a s' [[Q1 E1] Ha]. apply Hk; [done|done|by eapply untouched_quiet|done].
  - intros e s' [Q1 E1] _. left. by eapply untouched_quiet.
Qed.

Lemma deliver_sealed R s0 c m ack s : core R [c] s -> open s -> link_open (driver s) = true -> appl c ->
  bytes_ok (payload m) -> acking ack s -> untouched s0 s -> sealed s0 (deliver config c m ack) s.
Proof.
  intros Hc Ho Hl Ha Hm Hack Hu. unfold deliver.
  assert (forall s1 o, quiet s s1 -> env_ok s1 -> outcome_ok o -> sealed s0 (complete config c o) s1) as Hcomp.
  { intros s1 o Q1 E1 Hok. pose proof (untouched_quiet _ _ _ Q1 Hu) as [Hst (l & Hd)]. pose proof (core_quiet _ _ _ _ Q1 E1 Hc) as Hc1.
    assert (open s1) as Ho1 by by rewrite (quiet_closed _ _ Q1).
    eapply wp_mono; [apply (complete_open config (length (queued (ex s1))) R [] c o s1
      (fun st => st = status (driver s0) \/ exists e, st = Closed (TransportFailed e)) (in_flight (ex s1)) (clock_now (clock s1)) true
      (length (queued (ex s1)))); try done|..].
    - split; [by rewrite (q_link _ _ Q1)|by left|done|done|by left].
    - intros e. right. by exists e.
    - by left.
    - intros [] s2 (_ & [[Hcl [Hst2|Hst2]]|[_ [Hst2|Hst2] _ _ Hg]] & _); try (by right).
      + exfalso. unfold is_closed in *. rewrite Hst2, <- Hst in Hcl. congruence.
      + left. split; [done|]. unfold direct_requests in *. destruct Hg as [->|(p & -> & _)]; [by exists l|].
        rewrite List.filter_app, Hd, <- (assoc_L (++)). eauto.
    - done. }
  destruct (bool_decide _); [apply Hcomp; [done|apply Hc|done]|]. apply wp_bind. unfold or_drop. apply wp_bind.
  eapply (wp_mono _ (fun r s1 => (quiet s s1 /\ env_ok s1) /\ match r with inl e => is_transport_error e = true | inr _ => True end) _ never);
    [apply wp_attempt; eapply wp_mono; [exact Hack|done|done]| |done].
  intros [e|[]] s1 [[Q1 E1] He].
  - apply wp_bind. unfold drop_completion, reply_some. destruct (completion_reply c); unfold wp; cbn; by rewrite He.
  - apply Hcomp; [done|done|]. by intros m' [= <-].
Qed.

Lemma route_proxied_sealed R u m s : session_inv R s -> open s -> link_open (driver s) = true -> bytes_ok (payload m) ->
  len (source_address u) = 16 -> sealed s (route_proxied config u m) s.
Proof.
  intros Hi Ho Hl Hm Hu. unfold route_proxied. pose proof (c_env _ _ _ (i_core _ _ Hi)) as Hs.
  eapply sealed_still; [done|done|split; [done|exists []; by rewrite app_nil_r]|apply still_answer_retransmission|].
  intros again s1 Q1 E1 U1 _. assert (session_inv R s1) as I1 by by eapply inv_quiet.
  assert (open s1) as O1 by by rewrite (quiet_closed _ _ Q1). rewrite <- (q_link _ _ Q1) in Hl.
  destruct again; [by left|]. apply wp_bind. eapply (wp_mono _ (fun _ s2 => (session_inv R s2 /\ open s2 /\ link_open (driver s2) = link_open (driver s1)) /\ untouched s s2) _ never).
  { pose proof (acknowledge_inv (E := Error) R m true s1 I1 O1) as Ha. unfold acknowledge in *.
    apply wp_bind, wp_get. unfold wp, mbind, get, mget in Ha.
    destruct (position _ _) as [i|] eqn:Hp; [|by split]. destruct (position_Some _ _ _ Hp) as (p & Hx & Hpp). rewrite Hx in Ha |- *.
    split; [exact Ha|]. destruct U1 as [U1 (l & U2)]. split; [done|]. exists l. rewrite <- U2. unfold direct_requests. cbn.
    unfold acknowledges in Hpp. apply andb_true_iff in Hpp as [Hb%eqb_prop _]. by eapply filter_insert_proxied. }
  2:{ done. }
  intros acked s2 [(I2 & O2 & L2) U2]. destruct acked; [by left|]. apply wp_bind.
  eapply (wp_mono _ (fun o s3 => (open s3 /\ link_open (driver s3) = link_open (driver s2) /\
    match o with
    | None => session_inv R s3
    | Some p => core R [completion p] s3 /\ appl (completion p)
    end) /\ untouched s s3) _ never); [| |done].
  { pose proof (take_answered_inv (E := Error) R m true s2 I2 O2) as Ha. unfold take_answered in *.
    apply wp_bind, wp_get. unfold wp, mbind, get, mget in Ha.
    destruct (position _ _) as [i|] eqn:Hp; [|by destruct Ha as (? & ? & ?)]. destruct (position_Some _ _ _ Hp) as (p & Hx & Hpp).
    apply wp_bind, wp_modify. unfold modify, mset in Ha. rewrite Hx in Ha |- *.
    destruct Ha as (A1 & A2 & A3 & _ & A5).
    pose proof (Forall_lookup_1 _ _ _ _ (c_pending _ _ _ (i_core _ _ I2)) Hx) as [Hb _].
    split; [split; [done|]; split; [done|]; split; [done|]|].
    - destruct (is_application (completion p)) eqn:Happ; [done|]. specialize (Hb eq_refl). unfold is_proxied in A5. by rewrite Hb in A5.
    - destruct U2 as [U2 (l & U3)]. split; [done|]. exists l. rewrite <- U3. unfold direct_requests. cbn.
      by eapply filter_remove_proxied. }
  intros o s3 [(O3 & L3 & H3) U3]. rewrite L2, Hl in L3. destruct o as [p|].
  - destruct H3 as (C3 & A3). apply (deliver_sealed R); try done. destruct (bool_decide _).
    + apply reply_ack_ok; [apply C3|done|done|done].
    + split; [done|apply C3].
  - eapply sealed_still; [apply H3|done|done|by apply still_unsolicited_proxied|]. intros x s4 Q4 E4 U4 _. by left.
Qed.

(** C24: A message the border agent relayed from the mesh (a UDP_RX.ntf for the
    management port) cannot answer, acknowledge or reset a request that was
    sent to the border agent itself: whatever its bytes, at any point of any
    run, the requests in flight to the border agent and the status are as they
    were (one more request of a handle may have been sent), or else the session
    ended because the transport failed on a reply. *)
Theorem relayed_message_isolated s0 wakes d message udp_rx :
  initial s0 -> wakes_ok wakes -> bytes_ok d ->
  CoapMessage_decode d = Ok message -> parse_udp_rx message = Ok (Some udp_rx) ->
  exists s, run wakes s0 = (s, Ok tt) /\
    (open s -> link_open (driver s) = true ->
     exists s', handle_datagram config border_agent_ip d s = (s', @Ok Error _ tt) /\ isolated s s').
Proof.
  intros H0 Hw Hd Hdec Hudp. destruct (run_inv config border_agent_ip [] wakes s0 (initial_inv _ H0) Hw) as (s & Hr & Hi).
  exists s. split; [done|]. set (R := _ ++ []) in Hi. intros Ho Hl. enough (wp (@handle_datagram _ _ _ config border_agent_ip Error d) (fun _ s' => isolated s s') never s) as Hwp.
  { unfold wp in Hwp. destruct (handle_datagram config border_agent_ip d s) as [s' [[]|e|f]]; [by exists s'|done..]. }
  destruct (CoapMessage_decode_spec d Hd) as [_ Hwf]. destruct (Hwf message Hdec) as [(_ & _ & _ & _ & _ & Hm) _].
  assert (isolated s s) as Hsame by (left; split; [done|]; exists []; by rewrite app_nil_r).
  unfold handle_datagram. rewrite Hdec. apply wp_bind. unfold wp at 1, settled, attempt, mlift. apply wp_bind, wp_attempt.
  unfold route_incoming. rewrite Hudp. apply wp_bind. unfold wp at 1, settled, attempt, mlift.
  destruct (parse_udp_rx_ok message udp_rx Hm Hudp) as [Ha Hp]. destruct (negb _); [exact Hsame|]. apply wp_bind.
  unfold wp at 1, settled, attempt, mlift. destruct (CoapMessage_decode_spec _ Hp) as [Hs2 Hwf2].
  destruct (CoapMessage_decode (udp_payload udp_rx)) as [inner|e|f]; [|exact Hsame|done].
  destruct (Hwf2 inner eq_refl) as [(_ & _ & _ & _ & _ & Hm2) _].
  pose proof (route_proxied_inv config _ udp_rx inner s Hi Ho Hl Hm2 Ha) as H1.
  pose proof (route_proxied_sealed _ udp_rx inner s Hi Ho Hl Hm2 Ha) as H2.
  unfold routed, wp in H1. unfold sealed, wp in H2. unfold wp at 1.
  destruct (route_proxied config udp_rx inner s) as [s' [[]|e|f]]; [exact H2| |done].
  destruct (is_transport_error e) eqn:He; [|exact (H2 eq_refl)]. destruct H1 as [H3 H4].
  eapply (wp_mono _ _ _ never); [apply (end_session_run (complete config) R []); [apply complete_closed|done|rewrite app_nil_r; apply H4]| |done].
  intros [] s2 (_ & _ & Hst). right. by eexists.
Qed.
(** ** Repeated messages *)

(** What is remembered after [remember], each entry with the time since the one before. *)
Fixpoint remember_all (ops : list (Z * Destination * Z * CoapMessage)) (l : AnsweredMessages) (c : Clock)
    : AnsweredMessages * Clock :=
  match ops with
  | [] => (l, c)
  | (dt, d, mid, m) :: ops =>
      let '(l, c) := remember d mid m l (mkClock (clock_now c + dt) (ticks c)) in
      remember_all ops l c
  end.

Section Kept.
Context (d : Destination) (mid : Z) (e : Answered) (He : answers d mid e = true).

Notation other := (fun x => answers d mid x = false).

(** The entry [e] is there with at most [n] after it, or it has expired. *)
Definition kept_entry (n : Z) (l : AnsweredMessages) (c : Clock) : Prop :=
  (exists a b : AnsweredMessages, l = a ++ e :: b /\ len b <= n /\ Forall other a /\ Forall other b) \/
  (Forall other l /\ an_at e + EXCHANGE_LIFETIME <= clock_now c).

Lemma Forall_filter_sub {A} (P : A -> Prop) q l : Forall P l -> Forall P (List.filter q l).
Proof. rewrite !List.Forall_forall. intros H x [Hx _]%filter_In. auto. Qed.

Lemma kept_forget n l c : Forall (Z.le 0) (ticks c) -> answered_ok (clock_now c) l -> kept_entry n l c ->
  let '(l', c') := forget_expired l c in
  (Forall (Z.le 0) (ticks c') /\ answered_ok (clock_now c') l' /\ clock_now c <= clock_now c') /\ len l' <= len l /\ kept_entry n l' c'.
Proof.
  intros Ht Hok Hk. pose proof (forget_expired_ok l c Ht Hok) as H. destruct (forget_expired l c) as [l' c'].
  destruct H as (H1 & H2 & H3 & H4). split; [done|]. split; [rewrite H4; apply filter_length_le|].
  destruct Hk as [(a & b & -> & Hb & Ha & Hbo)|[Ho Hexp]].
  - rewrite List.filter_app in H4. cbn [List.filter] in H4. destruct (EXCHANGE_LIFETIME <=? _) eqn:Ex; cbn [negb] in H4.
    + right. split; [rewrite H4; apply Forall_app; split; by apply Forall_filter_sub|]. unfold elapsed in Ex. zbool. unfold EXCHANGE_LIFETIME, seconds in *. lia.
    + left. eexists _, _. split; [exact H4|]. split; [etrans; [apply filter_length_le|done]|]. split; by apply Forall_filter_sub.
  - right. split; [rewrite H4; by apply Forall_filter_sub|lia].
Qed.

Lemma kept_remember n l c d' mid' m : Forall (Z.le 0) (ticks c) -> answered_ok (clock_now c) l -> len l <= 64 -> 0 <= n < 63 ->
  (d', mid') <> (d, mid) -> kept_entry n l c ->
  let '(l', c') := remember d' mid' m l c in
  (Forall (Z.le 0) (ticks c') /\ answered_ok (clock_now c') l' /\ clock_now c <= clock_now c') /\ len l' <= 64 /\ kept_entry (n + 1) l' c'.
Proof.
  intros Ht Hok Hl Hn Hne Hk. unfold remember. pose proof (kept_forget n l c Ht Hok Hk) as H.
  destruct (forget_expired l c) as [l1 c1]. destruct H as ((H1 & H2 & H3) & H4 & H5).
  set (l2 := if len l1 =? MAX_REMEMBERED then drop 1 l1 else l1). pose proof (instant_now_ok c1 H1) as Hi. destruct (instant_now c1) as [t c2]. destruct Hi as (I1 & I2 & I3).
  assert (answered_ok (clock_now c1) l2 /\ len l2 <= 63 /\ kept_entry n l2 c1) as (G1 & G2 & G3).
  { unfold l2. destruct (len l1 =? MAX_REMEMBERED) eqn:El; unfold MAX_REMEMBERED in El; zbool; [|split; [done|split; [lia|done]]].
    split; [by apply answered_ok_drop|]. split; [rewrite (len_drop 1) by lia; lia|].
    destruct H5 as [([|x a] & b & -> & Hb & Ha & Hbo)|[Ho Hexp]].
    - cbn [app] in El. rewrite len_cons in El. lia.
    - left. exists a, b. apply Forall_inv_tail in Ha. done.
    - right. split; [by apply Forall_drop|done]. }
  assert (answers d mid (mkAnswered d' mid' m t) = false) as Hnew.
  { unfold answers. cbn. apply andb_false_iff. destruct (decide (d' = d)) as [->|]; [right|left; by apply bool_decide_false].
    apply Z.eqb_neq. congruence. }
  split; [split; [done|]; split; [|lia]|split].
  - apply answered_ok_snoc; [eapply answered_later; [|exact G1]; lia| |simpl; lia].
    eapply Forall_impl; [by apply answered_ok_times|]. intros x Hx. simpl in *. lia.
  - rewrite len_app. unfold len at 2. simpl. lia.
  - destruct G3 as [(a & b & -> & Hb & Ha & Hbo)|[Ho Hexp]].
    + left. exists a, (b ++ [mkAnswered d' mid' m t]). split; [by rewrite <- (assoc_L (++))|]. split; [rewrite len_app; unfold len at 2; simpl; lia|].
      split; [done|]. apply Forall_app. split; [done|]. by constructor.
    + right. split; [|lia]. apply Forall_app. split; [done|]. by constructor.
Qed.

Lemma kept_all ops l c n : Forall (Z.le 0) (ticks c) -> answered_ok (clock_now c) l -> len l <= 64 -> 0 <= n ->
  Forall (fun '(dt, d', mid', _) => 0 <= dt /\ (d', mid') <> (d, mid)) ops -> n + len ops <= 63 -> kept_entry n l c ->
  let '(l', c') := remember_all ops l c in
  (Forall (Z.le 0) (ticks c') /\ answered_ok (clock_now c') l' /\ clock_now c <= clock_now c') /\ kept_entry (n + len ops) l' c'.
Proof.
  revert l c n. induction ops as [|[[[dt d'] mid'] m] ops IH]; intros l c n Ht Hok Hl Hn Hops Hlen Hk; cbn [remember_all].
  - split; [done|]. change (len []) with 0. by rewrite Z.add_0_r.
  - rewrite len_cons in *. pose proof (len_nonneg ops). apply Forall_cons in Hops as [[Hdt Hne] Hops].
    pose proof (kept_remember n l (mkClock (clock_now c + dt) (ticks c)) d' mid' m) as H1.
    destruct (remember d' mid' m l _) as [l1 c1]. destruct H1 as ((A1 & A2 & A3) & A4 & A5); [done| |done|lia|done| |].
    { eapply answered_later; [|exact Hok]. cbn. lia. }
    { destruct Hk as [Hk|[Hk1 Hk2]]; [by left|right]. split; [done|cbn; lia]. }
    specialize (IH l1 c1 (n + 1) A1 A2 A4 ltac:(lia) Hops ltac:(lia) A5). destruct (remember_all ops l1 c1) as [l2 c2].
    destruct IH as ((B1 & B2 & B3) & B4). split; [split; [done|]; split; [done|cbn in A3; lia]|]. by replace (n + (1 + len ops)) with (n + 1 + len ops) by lia.
Qed.

Lemma find_other l : Forall other l -> List.find (answers d mid) l = None.
Proof. induction 1 as [|x l Hx _ IH]; [done|]. cbn. by rewrite Hx. Qed.
Lemma find_kept a b : Forall other a -> List.find (answers d mid) (a ++ e :: b) = Some e.
Proof. induction 1 as [|x a Hx _ IH]; cbn; [by rewrite He|by rewrite Hx]. Qed.
End Kept.

(** A reply is remembered for the exchange lifetime of 247 seconds, through
    up to 63 further answered messages, and not longer: asked again for the
    message, within that time, the record yields the reply, and later none. *)
Theorem duplicate_reply_remembered d mid m ops l c dt :
  Forall (Z.le 0) (ticks c) -> answered_ok (clock_now c) l -> len l <= MAX_REMEMBERED ->
  Forall (fun e => answers d mid e = false) l ->
  Forall (fun '(dt, d', mid', _) => 0 <= dt /\ (d', mid') <> (d, mid)) ops -> len ops < MAX_REMEMBERED -> 0 <= dt ->
  let '(l1, c1) := remember d mid m l c in
  let '(l2, c2) := remember_all ops l1 c1 in
  let '(_, c3, r) := reply_to d mid l2 (mkClock (clock_now c2 + dt) (ticks c2)) in
  (clock_now c3 < clock_now c1 + EXCHANGE_LIFETIME -> r = Some m) /\
  (clock_now c1 + EXCHANGE_LIFETIME <= clock_now c2 + dt -> r = None).
Proof.
  unfold MAX_REMEMBERED. intros Ht Hok Hl Ho Hops Hlen Hdt. unfold remember.
  pose proof (forget_expired_ok l c Ht Hok) as H. destruct (forget_expired l c) as [l0 c0]. destruct H as (H1 & H2 & H3 & H4).
  set (l' := if len l0 =? MAX_REMEMBERED then drop 1 l0 else l0). pose proof (instant_now_ok c0 H2) as Hi. destruct (instant_now c0) as [t c1]. destruct Hi as (I1 & I2 & I3).
  assert (Forall (fun e => answers d mid e = false) l0) as Ho0 by (rewrite H4; by apply Forall_filter_sub).
  assert (len l0 <= 64) as Hl0 by (rewrite H4; etrans; [apply filter_length_le|done]).
  assert (answered_ok (clock_now c0) l' /\ len l' <= 63 /\ Forall (fun e => answers d mid e = false) l') as (G1 & G2 & G3).
  { unfold l'. destruct (len l0 =? MAX_REMEMBERED) eqn:El; unfold MAX_REMEMBERED in El; zbool; [|split; [done|split; [lia|done]]].
    split; [by apply answered_ok_drop|]. split; [rewrite (len_drop 1) by lia; lia|by apply Forall_drop]. }
  set (e := mkAnswered d mid m t). assert (answers d mid e = true) as He.
  { unfold answers. cbn. rewrite Z.eqb_refl, bool_decide_true; done. }
  pose proof (kept_all d mid e ops (l' ++ [e]) c1 0 I3) as Hk. destruct (remember_all ops (l' ++ [e]) c1) as [l2 c2].
  destruct Hk as ((K1 & K2 & K3) & K4); [|rewrite len_app; unfold len at 2; simpl; lia|lia|done|lia| |].
  { apply answered_ok_snoc; [eapply answered_later; [|exact G1]; lia| |simpl; lia].
    eapply Forall_impl; [by apply answered_ok_times|]. intros x Hx. simpl in *. lia. }
  { left. exists l', []. split; [done|]. split; [done|]. by split; [|constructor]. }
  unfold reply_to. set (c2' := mkClock _ _).
  pose proof (kept_forget d mid e (0 + len ops) l2 c2' K1) as Hf.
  pose proof (forget_expired_ok l2 c2' K1) as Hx. destruct (forget_expired l2 c2') as [l3 c3].
  assert (answered_ok (clock_now c2') l2) as Hok2 by (eapply answered_later; [|exact K2]; cbn; lia).
  destruct Hx as (X1 & X2 & X3 & X4); [done|].
  destruct Hf as ((F1 & F2 & F3) & _ & F4); [done| |].
  { destruct K4 as [K4|[K4 K5]]; [by left|right]. split; [done|]. cbn [clock_now c2']. lia. }
  cbn [clock_now c2'] in *. split; intros Hc.
  - destruct F4 as [(a & b & -> & _ & Fa & _)|[_ Fexp]]; [by rewrite (find_kept d mid e He)|]. cbn in Fexp. lia.
  - destruct F4 as [(a & b & F4 & _)|[Fo _]]; [|by rewrite find_other]. exfalso.
    assert (In e l3) as Hin by (rewrite F4; apply in_app_iff; right; by left).
    rewrite X4 in Hin. apply filter_In in Hin as [_ Hin]. unfold elapsed in Hin. cbn [an_at e] in Hin.
    apply negb_true_iff, Z.leb_gt in Hin. lia.
Qed.

(** A confirmable message of the border agent that was answered before and
    is remembered gets the same reply again, and nothing else happens: no
    request completes, no event is published, the status stays. *)
Theorem retransmitted_message_answered_again s d message r l c :
  CoapMessage_decode d = Ok message -> parse_udp_rx message = Ok None -> coap_ty message = Confirmable ->
  reply_to BorderAgent (message_id message) (answered (driver s)) (clock s) = (l, c, Some r) ->
  link_open (driver s) = true -> is_ok (CoapMessage_encode r) = true -> send_results s = [] ->
  handle_datagram config border_agent_ip d s =
    (record_effect (Sent r) (with_clock c (upd_driver (d_answered l) s)), @Ok Error _ tt).
Proof.
  intros Hd Hu Hc Hr Hl He Hs. set (s1 := with_clock c (upd_driver (d_answered l) s)).
  assert (send_reply r BorderAgent s1 = (record_effect (Sent r) s1, Ok tt)) as Hsend.
  { unfold send_reply, wire_message, mbind, mret, link_send, get, mget, mlift, mbind.
    change (link_open (driver s1)) with (link_open (driver s)). rewrite Hl. cbn [negb].
    destruct (CoapMessage_encode r) as [b|e|f]; [|done..]. unfold send_application_data.
    change (send_results s1) with (send_results s). by rewrite Hs. }
  assert (route_incoming config border_agent_ip message s = (record_effect (Sent r) s1, Ok tt)) as Hroute.
  { unfold route_incoming, settled, attempt, mlift, mbind. rewrite Hu.
    unfold route_direct, answer_retransmission, mbind. rewrite bool_decide_true by done. cbn [negb].
    unfold with_answered. rewrite Hr. cbv beta iota. fold s1. by rewrite Hsend. }
  unfold handle_datagram, settled, attempt, mlift, mbind. rewrite Hd. cbv beta iota. by rewrite Hroute.
Qed.
End Isolation.
