(* ===== verification/SessionJoiners.v ===== *)
(** * SessionJoiners: joiner sessions as the session task uses them

    [JoinerSession] of [Joiner] implements the interface [JoinerSessions] of
    [SessionDriver], and its laws are theorems of [JoinerSafety].  A toy
    generator shows that the laws of the system generator can hold, and a
    commissioner over it that the hypotheses of the theorems about sessions do. *)
From stdpp Require Import gmap.
From S2P Require Import Prelude Text Tlv Errors Dataset Coap NetDiag Messages Joiner.
From S2P Require Import Replay Record Handshake Hello Crypto Ecjpake ThreadHandshake Safety JoinerSafety.
From S2P Require Import Pskc Commissioner SessionDriver SessionCore SessionSafety SessionInvariant.
From S2P Require Import SessionClaims SessionIsolation.

Section Implementation.
Context {HH : Hash} {HL : HashLaws} {AA : Aead} {AL : AeadLaws} {CC : Curve} {CL : CurveLaws} {RR : Rng} {RL : RngLaws}
  {JH : JoinerHandler}.
Context (rng_u32 : rng -> Z * rng) (limit : nat).

(** The generator that joiner sessions draw from is the task's. *)
#[local] Instance session_rng : OsRng := {
  os_rng := rng;
  os_fill_bytes := fill_bytes;
  os_next_u32 := rng_u32;
  token_limit := limit }.

#[local] Instance joiner_sessions_impl : JoinerSessions := {
  jsession := JoinerSession;
  js_joiner_id := Joiner.joiner_id;
  js_joiner_iid := Joiner.joiner_iid;
  js_udp_port := Joiner.joiner_udp_port;
  js_router_locator := Joiner.joiner_router_locator;
  js_new := JoinerSession_new;
  js_expired := Joiner.expired;
  js_router_kek := Joiner.joiner_router_kek;
  js_receive := JoinerSession_receive }.

Lemma router_kek_safe s : safe (Joiner.joiner_router_kek s).
Proof.
  unfold Joiner.joiner_router_kek, key_material_required. apply safe_bind; [apply safe_ok_or|]. intros km _.
  apply safe_map_err. unfold server_derive_joiner_router_kek. apply safe_bind; [apply safe_ok_or|]. intros cr _.
  destruct (derive_key_block_ok (master_secret km) cr (sv_server_random (handshake s))) as (kb & _ & _ & Hp40).
  by rewrite (derive_kek_ok _ _ _ _ Hp40).
Qed.

Lemma receive_safe s g h d : session_wf s -> bytes_ok d ->
  safe (JoinerSession_receive s g h d).2 /\ session_wf (JoinerSession_receive s g h d).1.1.1.
Proof.
  intros Hs Hb. pose proof (parse_datagram_safe d Hb) as Hp. unfold JoinerSession_receive.
  destruct (parse_datagram d) as [rs|er|f] eqn:Hd; [|by split|done].
  destruct (process_good rs (parsed_records_ok d rs Hb Hd) (mkEnv s g h []) Hs) as [H1 H2].
  destruct (process rs _) as [e r]. simpl in *. split; [by destruct r|done].
Qed.

#[local] Instance joiner_sessions_laws : JoinerSessionsLaws.
Proof.
  refine {| js_wf := session_wf : jsession -> Prop |}.
  - intros iid port loc pskd t g. destruct (new_session_ok iid port loc pskd t g) as (s & g' & E & Hk).
    exists s, g'. split; [exact E|]. intros km. by rewrite Hk.
  - intros s _. apply router_kek_safe.
  - intros s g h d. apply receive_safe.
Defined.
End Implementation.

(** A counting generator: five draws in a row are distinct. *)
Module ToySession.
#[export] Existing Instance Toy.toy_hash.
#[export] Existing Instance Toy.toy_hash_laws.
#[export] Existing Instance Toy.toy_aead.
#[export] Existing Instance Toy.toy_aead_laws.
#[export] Existing Instance ToyCurve.toy_curve.
#[export] Existing Instance ToyCurve.toy_curve_laws.
#[export] Existing Instance ToyCurve.toy_rng.
#[export] Existing Instance ToyCurve.toy_rng_laws.

Definition toy_u32 (g : Z) : Z * Z := (g mod 2 ^ 32, g + 1).
#[export] Instance toy_os_rng : OsRng := session_rng toy_u32 5.
#[export] Instance toy_joiner_sessions : JoinerSessions := joiner_sessions_impl (JH := static_joiner_handler) toy_u32 5.
#[export] Instance toy_joiner_sessions_laws : JoinerSessionsLaws := joiner_sessions_laws toy_u32 5.

Definition token_after (g : Z) (n : nat) : bytes := repeat ((g + Z.of_nat n) mod 256) 4.
Lemma token_after_eq (g : os_rng) n :
  (os_fill_bytes (Nat.iter n (fun g => (os_fill_bytes g TOKEN_LENGTH).2) g) TOKEN_LENGTH).1 = token_after g n.
Proof.
  assert (forall g : Z, Nat.iter n (fun g : os_rng => (os_fill_bytes g TOKEN_LENGTH).2) g = g + Z.of_nat n) as H.
  { clear g. induction n as [|n IH]; intros g; [cbn; lia|]. rewrite Nat.iter_succ, IH. cbn. lia. }
  rewrite (H g). done.
Qed.

Lemma token_after_inj g n m : (n < 5)%nat -> (m < 5)%nat -> token_after g n = token_after g m -> n = m.
Proof. unfold token_after. intros Hn Hm [= H]. Z.to_euclidean_division_equations. lia. Qed.

#[export] Instance toy_os_rng_laws : OsRngLaws.
Proof.
  split.
  - intros g n. apply (fill_bytes_ok (RngLaws := ToyCurve.toy_rng_laws)).
  - intros g n. apply (fill_bytes_len (RngLaws := ToyCurve.toy_rng_laws)).
  - intros g. cbn. apply Z.mod_pos_bound. lia.
  - intros g used Hu. destruct (decide (Exists (fun n => token_after g n ∉ used) (seq 0 5))) as [He|He].
    + apply Exists_exists in He as (n & Hn & Hx). apply elem_of_seq in Hn. exists n.
      split; [cbn; lia|]. by rewrite token_after_eq.
    + exfalso. apply not_Exists_Forall in He; [|apply _].
      assert (map (token_after g) (seq 0 5) ⊆+ used) as Hs.
      { apply NoDup_submseteq.
        - apply NoDup_fmap_2_strong; [|apply NoDup_seq]. intros x y Hx%elem_of_seq Hy%elem_of_seq.
          apply token_after_inj; lia.
        - intros x (n & -> & Hn)%list_elem_of_fmap. rewrite Forall_forall in He. specialize (He n Hn).
          by destruct (decide (token_after g n ∈ used)). }
      apply submseteq_length in Hs. rewrite length_map, length_seq in Hs. lia.
Qed.

(** A commissioner over that generator. *)
Definition toy_config : CommissionerConfig := CommissionerConfig_pskc (str_bytes "lab") (repeat 7 16).
Definition toy_start : State :=
  mkState (Driver_new (JH := static_joiner_handler)) (mkClock 0 [1; 2; 3]) (7 : os_rng) [] [] PrefixCache_default [].
(** The acceptance of its first petition: session 0x1234. *)
Definition accept_petition : bytes := [0x64; 0x44; 0; 1; 7; 7; 7; 7; 0xff; 16; 1; 1; 11; 2; 0x12; 0x34].
Definition toy_request : Outbound :=
  mkOutbound (mkCoapMessage Confirmable CODE_POST 0 [] [] []) BorderAgent true "request"%string.
Definition toy_wakes : list (Z * Wake (JH := static_joiner_handler)) :=
  [(0, WakeCommand (Some (CmdPetition 0))); (5, WakeReceived (inr accept_petition));
   (1, WakeCommand (Some (CmdExchange 9 toy_request 1))); (1, WakeCommand (Some (CmdExchange 10 toy_request 2)));
   (1, WakeCommand (Some (CmdKeepAlive 3))); (seconds 13, WakeTimer); (1, WakeReceived (inl (EDtls DPeerClosed)))].

(** What becomes of it: the petition is accepted, the first request times out
    and makes room for the second, and the keep-alive that times out with it
    ends the session, which answers the second. *)
Definition toy_run : State * result Error unit := run toy_config "fd00::1" toy_wakes toy_start.
Lemma toy_run_replies : replied (log toy_run.1) = [0; 1; 3; 2]%nat /\
  statuses (log toy_run.1) = [Petitioning; Active 0x1234; Closed (KeepAliveFailed (str_bytes "timeout: MeshCoP exchange timed out"))].
Proof. by vm_compute. Qed.

Lemma toy_initial : initial toy_start.
Proof. split; [done|done|]. repeat constructor; lia. Qed.
Lemma toy_wakes_ok : wakes_ok toy_wakes.
Proof. repeat apply Forall_cons_2; try apply Forall_nil_2; split; cbn; try done; by_decide. Qed.

Lemma session_task_consistent_witness :
  exists s, run toy_config "fd00::1" toy_wakes toy_start = (s, @Ok Error _ tt) /\ consistent s.
Proof. exact (session_task_consistent toy_config "fd00::1" toy_start toy_wakes toy_initial toy_wakes_ok). Defined.

Lemma every_command_answered_once_witness :
  exists s, run toy_config "fd00::1" toy_wakes toy_start = (s, @Ok Error _ tt) /\
    replied (log s) ++ awaited s ≡ₚ reads toy_config "fd00::1" toy_wakes toy_start.
Proof.
  destruct (every_command_answered_once toy_config "fd00::1" toy_start toy_wakes toy_initial toy_wakes_ok) as (s & H1 & H2 & _).
  exists s. exact (conj H1 H2).
Defined.


(** A message from the mesh that carries an empty message. *)
Definition relayed : bytes :=
  [0x50; 2; 0; 9; 0xb1; 99; 2; 117; 114; 0xff; 49; 16] ++ repeat 0xfd 16 ++ [48; 8; 0xf0; 0xbf; 0xf0; 0xbf; 0x60; 0; 0; 2].
Definition relayed_parsed := Eval vm_compute in
  match CoapMessage_decode relayed with
  | Ok m => match parse_udp_rx m with Ok (Some u) => Some (m, u) | _ => None end
  | _ => None
  end.

Lemma relayed_message_isolated_witness :
  exists m u s, relayed_parsed = Some (m, u) /\ run toy_config "fd00::1" (take 5 toy_wakes) toy_start = (s, @Ok Error _ tt) /\
    (is_closed (driver s) = false -> link_open (driver s) = true ->
     exists s', handle_datagram toy_config "fd00::1" relayed s = (s', @Ok Error _ tt) /\ isolated s s').
Proof.
  eexists _, _.
  destruct (relayed_message_isolated toy_config "fd00::1" toy_start (take 5 toy_wakes) relayed _ _ toy_initial
    ltac:(apply Forall_take, toy_wakes_ok) ltac:(by_decide) ltac:(vm_compute; reflexivity) ltac:(vm_compute; reflexivity)) as (s & H1 & H2).
  exists s. split; [reflexivity|]. exact (conj H1 H2).
Defined.

Lemma duplicate_reply_remembered_witness :
  let '(l1, c1) := remember BorderAgent 5 (empty_ack 5) [] (mkClock 0 [1; 1]) in
  let '(_, c2, r) := reply_to BorderAgent 5 l1 (mkClock (clock_now c1 + seconds 9) (ticks c1)) in
  r = Some (empty_ack 5).
Proof.
  assert (Forall (Z.le 0) (ticks (mkClock 0 [1; 1]))) as H by (repeat constructor; lia).
  assert (len (@nil Answered) <= MAX_REMEMBERED) as H1 by by_decide.
  assert (len (@nil (Z * Destination * Z * CoapMessage)) < MAX_REMEMBERED) as H2 by by_decide.
  assert (0 <= seconds 9) as H3 by by_decide.
  pose proof (duplicate_reply_remembered BorderAgent 5 (empty_ack 5) [] [] (mkClock 0 [1; 1]) (seconds 9) H I H1
    (Forall_nil_2 _) (Forall_nil_2 _) H2 H3) as Hd.
  vm_compute in Hd. exact (proj1 Hd eq_refl).
Defined.

(** The same confirmable message of the border agent, answered a second ago. *)
Definition repeated : bytes := [0x40; 2; 0; 5].
Definition answered_start : State :=
  mkState (d_answered [mkAnswered BorderAgent 5 (empty_ack 5) 0] (Driver_new (JH := static_joiner_handler)))
    (mkClock (seconds 1) [1]) (7 : os_rng) [] [] PrefixCache_default [].
Lemma retransmitted_message_answered_again_witness :
  exists s, handle_datagram toy_config "fd00::1" repeated answered_start = (s, @Ok Error _ tt) /\ log s = [Sent (empty_ack 5)].
Proof.
  eexists. split.
  - apply (retransmitted_message_answered_again toy_config "fd00::1" answered_start repeated
      (mkCoapMessage Confirmable 2 5 [] [] []) (empty_ack 5) [mkAnswered BorderAgent 5 (empty_ack 5) 0] (mkClock (seconds 1 + 1) []));
      vm_compute; reflexivity.
  - reflexivity.
Defined.
End ToySession.
