(* ===== verification/SessionProgress.v ===== *)
(** * SessionProgress: requests keep their place in line

    The requests of the handles are served in the order in which they were
    submitted: one is in flight, the others are queued.  This file shows it of
    every method of the session task of [SessionDriver], whatever it meets: the
    line of requests only loses requests and gains new ones at its end, a
    request in flight keeps its deadline, time does not run backwards, and the
    cached prefix is only ever dropped.  [SessionLiveness] draws the conclusion
    that every command is answered, [SessionAnswers] that it is answered with
    what was sent for it. *)
From stdpp Require Import gmap.
From S2P Require Import Prelude Text Tlv Errors Dataset Coap NetDiag Messages Joiner.
From S2P Require Import Commissioner SessionDriver SessionCore SessionInvariant.

Section Progress.
Context {JH : JoinerHandler} {OR : OsRng} {JS : JoinerSessions}.
Context (config : CommissionerConfig) (border_agent_ip : string).

Notation ex s := (exchanges (driver s)).
Notation appl c := (is_application c = true).

(** ** The line *)

Definition served (l : list PendingExchange) : list Completion :=
  List.filter is_application (map completion l).
Definition waiting (s : State) : list Completion := map snd (queued (ex s)).
Definition line (s : State) : list Completion := served (in_flight (ex s)) ++ waiting s.

Lemma sublist_map {A B} (f : A -> B) l k : sublist l k -> sublist (map f l) (map f k).
Proof. induction 1; cbn; by constructor. Qed.
Lemma sublist_list_filter {A} (q : A -> bool) l k : sublist l k -> sublist (List.filter q l) (List.filter q k).
Proof. induction 1; cbn; [done|..]; case_match; solve [done | by constructor]. Qed.
Lemma sublist_Forall {A} (P : A -> Prop) l k : sublist l k -> Forall P k -> Forall P l.
Proof. intros Hs. induction Hs as [|x l k _ IH|x l k _ IH]; intros Hk; [done|..]; inversion Hk; subst; auto. Qed.

(** Completions whose reply channel, if they have one, is one of [X]. *)
Definition late (X : list nat) (c : Completion) : Prop := forall r, completion_reply c = Some r -> r ∈ X.

(** An exchange in flight is an older one, or was waiting, or is [late]. *)
Definition origin (X : list nat) (s : State) (p : PendingExchange) : Prop :=
  late X (completion p) \/ completion p ∈ waiting s \/
  exists p0, p0 ∈ in_flight (ex s) /\ completion p0 = completion p /\ deadline p0 = deadline p.

(** Time does not run backwards, and around the session task the log grows and
    the prefix is invalidated. *)
Definition later (c c' : Clock) : Prop :=
  Forall (Z.le 0) (ticks c) -> Forall (Z.le 0) (ticks c') /\ clock_now c <= clock_now c'.
Record around (s s' : State) : Prop := {
  w_clock : later (clock s) (clock s');
  w_log : exists l, log s' = log s ++ l;
  w_prefix : exists n, mesh_prefix s' = Nat.iter n invalidate_mesh_local_prefix (mesh_prefix s) }.

Lemma later_trans c1 c2 c3 : later c1 c2 -> later c2 c3 -> later c1 c3.
Proof. intros H1 H2 Ht. destruct (H1 Ht) as [Ht2 ?]. destruct (H2 Ht2). split; [done|lia]. Qed.
#[global] Instance around_refl : Reflexive around.
Proof. intros s. split; [done|exists []; by rewrite app_nil_r|by exists 0%nat]. Qed.
#[global] Instance around_trans : Transitive around.
Proof.
  intros s1 s2 s3 [C1 (l & L1) (n & M1)] [C2 (k & L2) (m & M2)]. split; [by eapply later_trans|..].
  - exists (l ++ k). by rewrite L2, L1, (assoc_L (++)).
  - exists (m + n)%nat. by rewrite Nat.iter_add, M2, M1.
Qed.
Lemma around_driver f s : around s (upd_driver f s).
Proof. split; [done|exists []; by rewrite app_nil_r|by exists 0%nat]. Qed.

Record advances (X : list nat) (s s' : State) : Prop := {
  a_line : exists old new, line s' = old ++ new /\ sublist old (line s) /\ Forall (late X) new;
  a_waiting : forall c, c ∈ waiting s' -> late X c \/ c ∈ waiting s;
  a_flight : Forall (origin X s) (in_flight (ex s'));
  a_around : around s s' }.

Lemma late_mono X Y c : X ⊆ Y -> late X c -> late Y c.
Proof. intros H Hc r Hr. apply H. by apply Hc. Qed.

Lemma advances_mono X Y s s' : X ⊆ Y -> advances X s s' -> advances Y s s'.
Proof.
  intros H [(old & new & H1 & H2 & H3) W F C]. split; [|..|done].
  - exists old, new. split; [done|]. split; [done|]. eapply Forall_impl; [exact H3|]. intros c. by apply late_mono.
  - intros c Hc. destruct (W c Hc); [left; by eapply late_mono|by right].
  - eapply Forall_impl; [exact F|]. intros p [Hp|Hp]; [left; by eapply late_mono|by right].
Qed.

#[global] Instance advances_refl X : Reflexive (advances X).
Proof.
  intros s. split; [|auto..|].
  - exists (line s), []. by rewrite app_nil_r.
  - apply Forall_forall. intros p Hp. right. right. by exists p.
  - done.
Qed.
#[global] Instance advances_trans X : Transitive (advances X).
Proof.
  intros s1 s2 s3 [(old & new & A1 & A2 & A3) W F C] [(old' & new' & B1 & B2 & B3) W' F' C']. split.
  - rewrite A1 in B2. apply sublist_app_r in B2 as (o1 & o2 & -> & Ho1 & Ho2).
    exists o1, (o2 ++ new'). split; [by rewrite B1, (assoc_L (++))|]. split; [by etrans|].
    apply Forall_app. split; [|done]. by eapply sublist_Forall.
  - intros c Hc. destruct (W' c Hc); auto.
  - eapply Forall_impl; [exact F'|]. intros p [Hp|[Hp|(p0 & Hp & Hc & Hd)]]; [by left| |].
    + destruct (W _ Hp); [by left|right; by left].
    + pose proof (Forall_forall (origin X s1) (in_flight (ex s2))) as [HF _]. specialize (HF F p0 Hp).
      unfold origin in *. rewrite Hc, Hd in HF. done.
  - by etrans.
Qed.

(** A step that leaves the exchanges alone and answers nobody. *)
Record aside (s s' : State) : Prop := {
  s_exchanges : ex s' = ex s;
  s_around : around s s';
  s_mute : exists l, log s' = log s ++ l /\ Forall (fun e => effect_reply e = None) l }.
Lemma advances_around X s s' : ex s' = ex s -> around s s' -> advances X s s'.
Proof.
  intros He Hc. split; [| | |exact Hc]; unfold line, waiting, origin; rewrite He.
  - eexists _, []. by rewrite app_nil_r.
  - auto.
  - apply Forall_forall. intros p Hp. right. right. by exists p.
Qed.
Lemma advances_aside X s s' : aside s s' -> advances X s s'.
Proof. intros [He Hc _]. by apply advances_around. Qed.
#[global] Instance aside_refl : Reflexive aside.
Proof. intros s. split; [done|done|exists []; by rewrite app_nil_r]. Qed.
#[global] Instance aside_trans : Transitive aside.
Proof.
  intros s1 s2 s3 [E1 A1 (l & L1 & F1)] [E2 A2 (k & L2 & F2)]. split; [congruence|by etrans|].
  exists (l ++ k). rewrite L2, L1, (assoc_L (++)). split; [done|]. by apply Forall_app.
Qed.
(** What does not touch the log. *)
Lemma aside_same s s' : ex s' = ex s -> later (clock s) (clock s') -> log s' = log s -> mesh_prefix s' = mesh_prefix s -> aside s s'.
Proof.
  intros He Hc Hl Hm. split; [done| |exists []; by rewrite app_nil_r].
  split; [done|exists []; by rewrite app_nil_r|by exists 0%nat].
Qed.

(** Some exchanges are gone, others were changed without a new deadline. *)
Definition same_exchange (p p' : PendingExchange) : Prop := completion p = completion p' /\ deadline p = deadline p'.
Lemma advances_fewer X s s' l q : in_flight (ex s') = l -> queued (ex s') = q ->
  sublist (map (fun p => (completion p, deadline p)) l) (map (fun p => (completion p, deadline p)) (in_flight (ex s))) ->
  sublist q (queued (ex s)) -> around s s' -> advances X s s'.
Proof.
  intros H1 H2 Hl Hq Hc.
  assert (sublist (map completion l) (map completion (in_flight (ex s)))) as Hl'.
  { apply (sublist_map fst) in Hl. by rewrite !map_map in Hl. }
  split; [| | |exact Hc]; unfold line, waiting, served, origin; rewrite ?H1, ?H2.
  - eexists _, []. rewrite app_nil_r. split; [done|]. split; [|done]. apply sublist_app; [|by apply sublist_map].
    by apply sublist_list_filter.
  - intros c Hin. right. eapply elem_of_sublist; [exact Hin|]. by apply sublist_map.
  - apply Forall_forall. intros p Hp. right. right.
    assert ((completion p, deadline p) ∈ map (fun p => (completion p, deadline p)) (in_flight (ex s))) as Hin.
    { eapply elem_of_sublist; [|exact Hl]. by apply (list_elem_of_fmap_2 (fun p => (completion p, deadline p))). }
    apply list_elem_of_fmap in Hin as (p0 & [= E1 E2] & Hp0). by exists p0.
Qed.

(** ** Methods *)

Definition frames {E A} (m : M State E A) : Prop := forall s, aside s (m s).1.
Definition evolves (X : list nat) {E A} (m : M State E A) : Prop := forall s, advances X s (m s).1.

Lemma frames_evolves X {E A} (m : M State E A) : frames m -> evolves X m.
Proof. intros Hm s. by apply advances_aside. Qed.
Lemma evolves_bind X {E A B} (m : M State E A) (k : A -> M State E B) :
  evolves X m -> (forall a, evolves X (k a)) -> evolves X (mbind m k).
Proof.
  intros Hm Hk s. unfold mbind. specialize (Hm s). destruct (m s) as [s1 [a|e|f]]; cbn in *; [|done..].
  etrans; [exact Hm|apply Hk].
Qed.
Lemma evolves_attempt X {E E' A} (m : M State E' A) : evolves X m -> evolves X (@attempt _ _ _ E E' A m).
Proof. intros Hm s. specialize (Hm s). unfold attempt. by destruct (m s) as [s1 [a|e|f]]. Qed.

Lemma frames_bind {E A B} (m : M State E A) (k : A -> M State E B) :
  frames m -> (forall a, frames (k a)) -> frames (mbind m k).
Proof.
  intros Hm Hk s. unfold mbind. specialize (Hm s). destruct (m s) as [s1 [a|e|f]]; cbn in *; [|done..].
  etrans; [exact Hm|apply Hk].
Qed.
Lemma frames_attempt {E E' A} (m : M State E' A) : frames m -> frames (@attempt _ _ _ E E' A m).
Proof. intros Hm s. specialize (Hm s). unfold attempt. by destruct (m s) as [s1 [a|e|f]]. Qed.
Lemma frames_ret {E A} (a : A) : frames (@mret State E A a).
Proof. by intros s. Qed.
Lemma frames_err {E A} (e : E) : frames (@merr State E A e).
Proof. by intros s. Qed.
Lemma frames_lift {E A} (r : result E A) : frames (@mlift State E A r).
Proof. by intros s. Qed.
Lemma frames_mget {E A} (f : State -> A) : frames (@mget State E A f).
Proof. by intros s. Qed.
Lemma frames_get {E A} (f : Driver -> A) : frames (@get _ _ _ E A f).
Proof. by intros s. Qed.
Lemma frames_settled {E A} (r : result Error A) : frames (@settled _ _ _ E A r).
Proof. apply frames_attempt, frames_lift. Qed.
Lemma frames_modify {E} (f : Driver -> Driver) : (forall d, exchanges (f d) = exchanges d) -> frames (@modify _ _ _ E f).
Proof. intros Hf s. apply aside_same; [apply Hf|done..]. Qed.
Lemma around_effect s e : around s (record_effect e s).
Proof. split; [done|by exists [e]|by exists 0%nat]. Qed.
Lemma frames_effect {E} e : effect_reply e = None -> frames (@effect _ _ _ E e).
Proof. intros He s. split; [done|apply around_effect|]. exists [e]. split; [done|]. by constructor. Qed.
Lemma frames_prefix {E} : frames (@invalidate_prefix _ _ _ E).
Proof.
  intros s. split; [done| |exists []; by rewrite app_nil_r]. split; [done|exists []; by rewrite app_nil_r|by exists 1%nat].
Qed.
Lemma evolves_effect X {E} e : evolves X (@effect _ _ _ E e).
Proof. intros s. apply advances_around; [done|apply around_effect]. Qed.

Lemma later_now c : later c (instant_now c).2.
Proof.
  unfold later, instant_now. destruct c as [t [|d l]]; cbn; intros H; [split; [done|lia]|].
  inversion H; subst. split; [done|lia].
Qed.
Lemma later_forget l c : later c (forget_expired l c).2.
Proof.
  revert c. induction l as [|e l IH]; intros c; cbn [forget_expired]; [done|].
  pose proof (later_now c) as Hn. destruct (instant_now c) as [t c1]. case_match; [|done]. by eapply later_trans.
Qed.
Lemma frames_now {E} : frames (@now _ _ _ E).
Proof.
  intros s. unfold now. pose proof (later_now (clock s)) as Hn. destruct (instant_now (clock s)) as [t c].
  by apply aside_same.
Qed.
Lemma frames_u32 {E} : frames (@next_u32 _ _ _ E).
Proof. intros s. unfold next_u32. destruct (os_next_u32 (osrng s)). by apply aside_same. Qed.
Lemma frames_answered {E A} (f : AnsweredMessages -> Clock -> AnsweredMessages * Clock * A) :
  (forall l c, later c (f l c).1.2) -> frames (@with_answered _ _ _ E A f).
Proof.
  intros Hf s. unfold with_answered. specialize (Hf (answered (driver s)) (clock s)).
  destruct (f _ _) as [[l c] a]. by apply aside_same.
Qed.
Lemma frames_reply_to {E} d mid : frames (@with_answered _ _ _ E _ (reply_to d mid)).
Proof.
  apply frames_answered. intros l c. unfold reply_to. pose proof (later_forget l c). by destruct (forget_expired l c).
Qed.
Lemma frames_remember {E} d mid m : frames (@with_answered _ _ _ E _ (fun l c => (remember d mid m l c, tt))).
Proof.
  apply frames_answered. intros l c. unfold remember. pose proof (later_forget l c) as H.
  destruct (forget_expired l c) as [l' c']. pose proof (later_now c') as H'. destruct (instant_now c'). by eapply later_trans.
Qed.
Lemma frames_token {E} n : frames (@draw_token _ _ _ E n).
Proof.
  induction n as [|n IH]; intros s; cbn [draw_token]; [done|]. destruct (os_fill_bytes _ _) as [tok g].
  case_match; [by apply aside_same|]. etrans; [|apply IH]. by apply aside_same.
Qed.
Lemma frames_reopen : frames (@link_reopen _ _ _).
Proof. intros s. unfold link_reopen. repeat case_match; by apply aside_same. Qed.
Lemma frames_transmit m : frames (@send_application_data _ _ _ m).
Proof.
  intros s. unfold send_application_data.
  assert (forall s1, aside s s1 -> aside s (record_effect (Sent m) s1)) as Hs.
  { intros s1 H. etrans; [exact H|]. by apply (frames_effect (E := Error) (Sent m) eq_refl s1). }
  repeat case_match; try (by apply Hs); [by apply aside_same|]. destruct (Hs s ltac:(done)) as [H1 H2 H3].
  split; [done| |done]. by destruct H2.
Qed.
Lemma frames_receive {E} id session h pl : frames (@session_receive _ _ _ E id session h pl).
Proof.
  intros s. unfold session_receive. destruct (js_receive _ _ _ _) as [[[se g] h'] r].
  destruct r; by apply aside_same.
Qed.
Lemma frames_create iid p loc k t : frames (@create_session _ _ _ iid p loc k t).
Proof. intros s. unfold create_session. repeat case_match; by apply aside_same. Qed.
End Progress.

#[export] Hint Resolve frames_ret frames_err frames_lift frames_mget frames_get frames_settled
  frames_now frames_u32 frames_reply_to frames_remember frames_token frames_reopen
  frames_transmit frames_receive frames_create frames_prefix evolves_effect : evolve.
#[export] Hint Extern 4 (frames (modify _)) => by apply frames_modify : evolve.
#[export] Hint Extern 4 (frames (effect _)) => by apply frames_effect : evolve.
#[export] Hint Extern 4 (frames (publish _)) => by apply frames_effect : evolve.
#[export] Hint Extern 4 (frames link_close) => by apply frames_modify : evolve.
#[export] Hint Extern 4 (evolves _ (send_reply_channel _ _)) => apply evolves_effect : evolve.

Ltac frame :=
  repeat first
    [ progress intros
    | solve [auto 3 with evolve]
    | apply frames_bind
    | apply frames_attempt
    | case_match ].
Ltac evolve :=
  repeat first
    [ progress intros
    | solve [auto 3 with evolve]
    | apply frames_evolves; solve [frame]
    | apply evolves_bind
    | apply evolves_attempt
    | case_match ].

Section Methods.
Context {JH : JoinerHandler} {OR : OsRng} {JS : JoinerSessions}.
Context (config : CommissionerConfig) (border_agent_ip : string).

Notation ex s := (exchanges (driver s)).
Notation appl c := (is_application c = true).

(** ** Messages *)

Lemma frames_status {E} st : frames (@set_status _ _ _ E st).
Proof. unfold set_status. frame. Qed.
Lemma frames_assign {E} m : frames (@assign_identity _ _ _ E m).
Proof. unfold assign_identity, unused_token. frame. Qed.
#[local] Hint Resolve frames_status frames_assign : evolve.
Lemma frames_wire m d : frames (@wire_message _ _ _ m d).
Proof. unfold wire_message. frame. Qed.
Lemma frames_send m : frames (@link_send _ _ _ m).
Proof. unfold link_send. frame. Qed.
#[local] Hint Resolve frames_wire frames_send : evolve.
Lemma frames_schedule {E} : frames (@schedule_keep_alive _ _ _ config E).
Proof. unfold schedule_keep_alive. frame. Qed.
#[local] Hint Resolve frames_schedule : evolve.
Lemma frames_petition_outcome {E} o : frames (@petition_outcome _ _ _ config E o).
Proof. unfold petition_outcome. frame. Qed.
Lemma frames_send_reply m d : frames (@send_reply _ _ _ m d).
Proof. unfold send_reply. frame. Qed.
#[local] Hint Resolve frames_petition_outcome frames_send_reply : evolve.
Lemma frames_reply m r d : frames (@reply _ _ _ m r d).
Proof. unfold reply. frame. Qed.
#[local] Hint Resolve frames_reply : evolve.
Lemma frames_ack m : frames (@ack_if_confirmable _ _ _ m).
Proof. unfold ack_if_confirmable. frame. Qed.
Lemma frames_retransmission m d : frames (@answer_retransmission _ _ _ m d).
Proof. unfold answer_retransmission. frame. Qed.
Lemma evolves_reply_some X {E} r a : evolves X (@reply_some _ _ _ E r a).
Proof. unfold reply_some. evolve. Qed.
#[local] Hint Resolve frames_ack frames_retransmission evolves_reply_some : evolve.

(** ** Relayed joiners *)

Lemma frames_publish_all {E} evs : frames (@publish_all _ _ _ E evs).
Proof. induction evs; cbn [publish_all]; frame. Qed.
Lemma frames_transmit_all iid p loc l : frames (@transmit_all _ _ _ iid p loc l).
Proof. induction l; cbn [transmit_all]; frame. Qed.
#[local] Hint Resolve frames_publish_all frames_transmit_all : evolve.
Lemma frames_session id session h pl : frames (@handle_session _ _ _ id session h pl).
Proof. unfold handle_session. frame. Qed.
#[local] Hint Resolve frames_session : evolve.
Lemma frames_relay p loc iid pl : frames (@handle_relay_rx _ _ _ p loc iid pl).
Proof. unfold handle_relay_rx, ask_pskd. frame. Qed.
#[local] Hint Resolve frames_relay : evolve.
Lemma frames_unsolicited m : frames (@route_unsolicited_message _ _ _ border_agent_ip m).
Proof. unfold route_unsolicited_message. frame. Qed.
Lemma frames_unsolicited_proxied m u d : frames (@route_unsolicited_proxied _ _ _ m u d).
Proof. unfold route_unsolicited_proxied. frame. Qed.
#[local] Hint Resolve frames_unsolicited frames_unsolicited_proxied : evolve.

(** ** Completing and starting exchanges *)

(** What can come of a step that leaves the exchanges alone, and of what follows. *)
Lemma bind_aside {E A B} (P : State -> Prop) (m : M State E A) (k : A -> M State E B) s :
  frames m -> (forall s1, aside s s1 -> P s1) -> (forall a s1, aside s s1 -> P (k a s1).1) -> P (mbind m k s).1.
Proof.
  intros Hm H1 H2. unfold mbind. specialize (Hm s). destruct (m s) as [s1 [a|e|f]]; cbn in *; auto.
Qed.

(** An exchange was put in flight. *)
Definition launched (c : Completion) (s s' : State) : Prop :=
  exists p, completion p = c /\ ex s' = mkExchanges (in_flight (ex s) ++ [p]) (queued (ex s)) /\ around s s'.

Lemma served_app l k : served (l ++ k) = served l ++ served k.
Proof. unfold served. by rewrite map_app, List.filter_app. Qed.
Lemma elem_of_snoc {A} (x y : A) l : x ∈ l ++ [y] -> x ∈ l \/ x = y.
Proof. rewrite elem_of_app, list_elem_of_singleton. tauto. Qed.

Lemma flight_snoc X s l p : Forall (origin X s) l -> origin X s p -> Forall (origin X s) (l ++ [p]).
Proof. intros. apply Forall_app. split; [done|]. by constructor. Qed.
Lemma flight_refl X s : Forall (origin X s) (in_flight (ex s)).
Proof. apply Forall_forall. intros p Hp. right. right. by exists p. Qed.

Lemma launched_control X c s s' : is_application c = false -> late X c -> launched c s s' -> advances X s s'.
Proof.
  intros Hc HX (p & Hp & He & Hl). split; [| | |exact Hl]; unfold line, waiting; rewrite He; cbn [in_flight queued].
  - eexists _, []. rewrite app_nil_r, served_app. unfold served at 2. cbn. rewrite Hp, Hc, app_nil_r. done.
  - auto.
  - apply flight_snoc; [apply flight_refl|]. left. by rewrite Hp.
Qed.

(** The next request takes the free slot. *)
Lemma launched_next X s s1 s2 ob c rest : queued (ex s) = (ob, c) :: rest -> served (in_flight (ex s)) = [] ->
  ex s1 = mkExchanges (in_flight (ex s)) rest -> around s s1 -> launched c s1 s2 -> advances X s s2.
Proof.
  intros Hq Hs He Hl (p & Hp & He2 & Hl2). split; [| | |by etrans]; unfold line, waiting; rewrite He2, He; cbn [in_flight queued].
  - eexists _, []. rewrite app_nil_r, served_app, Hs, Hq. split; [done|]. split; [|done]. unfold served. cbn. rewrite Hp.
    destruct (is_application c); [done|by constructor].
  - intros c' Hc'. right. rewrite Hq. cbn. by right.
  - apply flight_snoc; [apply flight_refl|]. right. left. rewrite Hp. unfold waiting. rewrite Hq. by left.
Qed.

Section Recursive.
Context {E : Type} (complete : Completion -> Error + option CoapMessage -> M State E unit).
Context (X : list nat) (Hrec : forall c o, evolves X (complete c o)).

Lemma evolves_fail_each l e : evolves X (fail_each complete l e).
Proof. induction l; cbn [fail_each]; evolve. Qed.
Lemma evolves_fail_all e : evolves X (fail_all complete e).
Proof.
  intros s. unfold fail_all, mbind, get, mget, modify, mset, drain. etrans; [|apply evolves_fail_each].
  by apply (advances_fewer _ _ _ [] []); [..|apply sublist_nil_l|apply sublist_nil_l|apply around_driver].
Qed.
Lemma evolves_end reason : evolves X (end_session complete reason).
Proof. pose proof evolves_fail_all. unfold end_session. evolve. Qed.
Lemma evolves_transport e : evolves X (transport_failed complete e).
Proof. apply evolves_end. Qed.
Lemma evolves_fail_send c e : evolves X (fail_send complete c e).
Proof. pose proof evolves_transport. unfold fail_send. evolve. Qed.

Lemma start_outcome ob c s : advances X s (start complete ob c s).1 \/ launched c s (start complete ob c s).1.
Proof.
  assert (forall s1 (m : M State E unit), aside s s1 -> evolves X m -> advances X s (m s1).1 \/ launched c s (m s1).1) as Hdone.
  { intros s1 m H1 Hm. left. etrans; [by apply advances_aside|apply Hm]. }
  assert (forall s1, aside s s1 -> advances X s s1 \/ launched c s s1) as Hstop by (intros; left; by apply advances_aside).
  unfold start. apply (bind_aside (fun s' => advances X s s' \/ launched c s s')); [frame|done|]. intros m s1 H1.
  apply (bind_aside (fun s' => advances X s s' \/ launched c s s')); [frame|intros; apply Hstop; by etrans|]. intros [e|w] s2 H2.
  { apply Hdone; [by etrans|apply Hrec]. }
  apply (bind_aside (fun s' => advances X s s' \/ launched c s s')); [frame|intros; apply Hstop; by repeat (etrans; [eassumption|])|].
  intros [e|[]] s3 H3; assert (aside s s3) as H03 by (by repeat (etrans; [eassumption|])).
  { apply Hdone; [done|apply evolves_fail_send]. }
  destruct (negb _); [apply Hdone; [done|apply Hrec]|].
  apply (bind_aside (fun s' => advances X s s' \/ launched c s s')); [frame|intros; apply Hstop; by etrans|]. intros t s4 H4.
  apply (bind_aside (fun s' => advances X s s' \/ launched c s s')); [frame| |].
  { intros; apply Hstop. etrans; [exact H03|]. by etrans. }
  intros r s5 H5. assert (aside s s5) as [He Hl _] by (etrans; [exact H03|]; by etrans). right. eexists.
  split; [|split; [cbn; by rewrite He|etrans; [exact Hl|apply around_driver]]]. done.
Qed.

Lemma evolves_control ob c : is_application c = false -> late X c -> evolves X (start complete ob c).
Proof. intros Hc HX s. destruct (start_outcome ob c s) as [H|H]; [done|by eapply launched_control]. Qed.

Lemma evolves_send_loop n : evolves X (send_loop complete n).
Proof.
  induction n as [|n IH]; intros s; cbn [send_loop]; unfold mbind at 1, get, mget; destruct (_ <? _) eqn:Hf; try done;
    destruct (queued (ex s)) as [|[ob c] rest] eqn:Hq; try done.
  unfold mbind at 1, modify, mset. set (s1 := upd_driver _ s).
  assert (advances X s s1) as H1.
  { apply (advances_fewer _ _ _ (in_flight (ex s)) rest); try done; [rewrite Hq; by constructor|apply around_driver]. }
  assert (served (in_flight (ex s)) = []) as Hs.
  { unfold served. apply length_zero_iff_nil. unfold application_in_flight, MAX_APPLICATION_IN_FLIGHT, len in Hf. zbool.
    rewrite <- (map_id (List.filter _ _)). revert Hf. clear. induction (in_flight (ex s)) as [|p l IH]; cbn; [done|].
    destruct (is_application (completion p)); cbn; [lia|]. exact IH. }
  unfold mbind at 1. assert (advances X s (start complete ob c s1).1) as H2.
  { destruct (start_outcome ob c s1) as [H|H]; [by etrans|].
    eapply (launched_next X s s1); [exact Hq|exact Hs|done|apply around_driver|exact H]. }
  destruct (start complete ob c s1) as [s2 [a|e|f]]; cbn in *; [|done..]. unfold mbind, get, mget. destruct (is_closed _); [done|].
  etrans; [exact H2|apply IH].
Qed.
Lemma evolves_send_queued : evolves X (send_queued complete).
Proof. intros s. apply evolves_send_loop. Qed.

Lemma evolves_keep_alive o r : evolves X (keep_alive_outcome config complete o r).
Proof. pose proof evolves_end. unfold keep_alive_outcome. evolve. Qed.
Lemma evolves_body c o : evolves X (complete_body config complete c o).
Proof.
  pose proof evolves_send_queued. pose proof evolves_keep_alive. pose proof evolves_end. unfold complete_body. evolve.
Qed.
End Recursive.

Lemma evolves_fuel X {E} n c o : evolves X (@complete_fuel _ _ _ config E n c o).
Proof. revert c o. induction n as [|n IH]; intros c o s; [done|]. by apply evolves_body. Qed.
Lemma evolves_complete X {E} c o : evolves X (@complete _ _ _ config E c o).
Proof. intros s. apply evolves_fuel. Qed.
#[local] Hint Resolve evolves_complete : evolve.
#[local] Hint Extern 4 (evolves _ (send_queued _)) => apply evolves_send_queued : evolve.
#[local] Hint Extern 4 (evolves _ (end_session _ _)) => apply evolves_end : evolve.
#[local] Hint Extern 4 (evolves _ (transport_failed _ _)) => apply evolves_transport : evolve.
#[local] Hint Extern 4 (evolves _ (fail_all _ _)) => apply evolves_fail_all : evolve.

(** ** Changing the exchanges in flight *)

Lemma sublist_remove_at {A} i (l : list A) : sublist (remove_at i l) l.
Proof.
  unfold remove_at. rewrite <- (take_drop i l) at 3. apply sublist_app; [done|].
  rewrite <- (drop_drop l i 1), Nat.add_1_r || replace (S i) with (i + 1)%nat by lia; rewrite <- ?drop_drop. apply sublist_drop.
Qed.
Lemma evolves_remove X {E} i : evolves X (@modify _ _ _ E (remove_in_flight i)).
Proof.
  intros s. eapply advances_fewer; [done..| |done|apply around_driver]. apply sublist_map, sublist_remove_at.
Qed.
Lemma set_advances X s i p p' : in_flight (ex s) !! i = Some p -> completion p' = completion p -> deadline p' = deadline p ->
  advances X s (upd_driver (set_in_flight i p') s).
Proof.
  intros Hi Hc Hd. eapply advances_fewer; [done..| |done|apply around_driver]. cbn.
  replace (map _ (<[i:=p']> _)) with (map (fun p => (completion p, deadline p)) (in_flight (ex s))); [done|].
  revert i Hi. induction (in_flight (ex s)) as [|x l IH]; intros [|i] Hi; cbn in *; [done|done| |].
  - injection Hi as ->. by rewrite Hc, Hd.
  - by rewrite <- IH.
Qed.
#[local] Hint Resolve evolves_remove : evolve.

(** ** Timers *)

Lemma retransmitted_same t p : completion (retransmitted t p) = completion p /\ deadline (retransmitted t p) = deadline p.
Proof. unfold retransmitted. by destruct (retransmit p). Qed.

Lemma timer_step_advances X {E} t i p (continue : nat -> M State E bool) s :
  (forall j, evolves X (continue j)) -> in_flight (ex s) !! i = Some p -> advances X s (timer_step config t i p continue s).1.
Proof.
  intros Hk Hi. unfold timer_step. destruct (deadline p <=? t).
  { revert s Hi. match goal with |- forall s, _ -> advances X s (?m s).1 => enough (evolves X m) as H by (intros; apply H) end. evolve. }
  destruct (due (retry_at p) t); [|apply Hk].
  assert (forall s1, aside s s1 -> advances X s ((let* _ := @modify _ _ _ E (set_in_flight i (retransmitted t p)) in continue (S i)) s1).1) as Hset.
  { intros s1 H1. destruct (retransmitted_same t p). pose proof (s_exchanges _ _ H1) as He. unfold mbind, modify, mset.
    etrans; [by apply (advances_aside X s s1)|]. etrans; [|apply Hk]. eapply set_advances; [by rewrite He|done..]. }
  apply (bind_aside (advances X s)); [frame|apply advances_aside|]. intros [e|[]] s1 H1; [|by apply Hset].
  destruct (is_transport_error e); [|by apply Hset]. etrans; [by apply advances_aside|].
  match goal with |- advances X s1 (?m s1).1 => enough (evolves X m) as H by apply H end. evolve.
Qed.
Lemma evolves_timer_loop X {E} n t i : evolves X (@timer_loop _ _ _ config E n t i).
Proof.
  revert i. induction n as [|n IH]; intros i s; cbn [timer_loop]; unfold mbind at 1, get, mget;
    destruct (in_flight (ex s) !! i) as [p|] eqn:Hi; try done. by apply timer_step_advances.
Qed.
#[local] Hint Resolve evolves_timer_loop : evolve.
Lemma evolves_exchange_timers X {E} : evolves X (@run_exchange_timers _ _ _ config E).
Proof. unfold run_exchange_timers. evolve. Qed.

(** ** Answers *)

Lemma acknowledge_aside X {E} m b : evolves X (@acknowledge _ _ _ E m b).
Proof.
  intros s. unfold acknowledge, mbind, get, mget. destruct (position _ _) as [i|]; [|done].
  destruct (in_flight (ex s) !! i) as [p|] eqn:Hi; [|done]. by apply (set_advances X s i p).
Qed.
Lemma evolves_take X {E} m b : evolves X (@take_answered _ _ _ E m b).
Proof. unfold take_answered. evolve. Qed.
#[local] Hint Resolve acknowledge_aside evolves_take : evolve.
Lemma evolves_deliver X c m ack : frames ack -> evolves X (deliver config c m ack).
Proof. intros Ha. unfold deliver, or_drop, drop_completion. evolve. Qed.
Lemma evolves_route_direct X m : evolves X (route_direct config border_agent_ip m).
Proof.
  unfold route_direct. evolve; apply evolves_deliver; frame.
Qed.
Lemma evolves_route_proxied X u m : evolves X (route_proxied config u m).
Proof. unfold route_proxied. evolve; apply evolves_deliver; frame. Qed.
#[local] Hint Resolve evolves_route_direct evolves_route_proxied : evolve.
Lemma evolves_datagram X {E} d : evolves X (@handle_datagram _ _ _ config border_agent_ip E d).
Proof. unfold handle_datagram, route_incoming. evolve. Qed.
Lemma evolves_failed X {E} e : evolves X (@receive_failed _ _ _ config E e).
Proof. unfold receive_failed. evolve. Qed.
#[local] Hint Resolve evolves_exchange_timers evolves_datagram evolves_failed : evolve.

(** ** Commands *)

Lemma late_none X c : completion_reply c = None -> late X c.
Proof. intros H r. congruence. Qed.
Lemma late_one X c r : completion_reply c = Some r -> r ∈ X -> late X c.
Proof. intros H Hr r'. rewrite H. by intros [= <-]. Qed.

Lemma evolves_submit X {E} ob c : late X c -> evolves X (@submit _ _ _ config E ob c).
Proof.
  intros HX. unfold submit. apply evolves_bind; [|evolve]. intros s.
  split; cbn; [| | |apply around_driver]; unfold line, waiting; cbn [in_flight queued].
  - exists (line s), [c]. rewrite map_app, (assoc_L (++)). split; [done|]. split; [done|]. by constructor.
  - intros c'. rewrite map_app. intros [H| ->]%elem_of_snoc; auto.
  - apply flight_refl.
Qed.
Lemma evolves_withdraw X {E} id : evolves X (@withdraw _ _ _ config E id).
Proof.
  intros s. unfold withdraw, mbind at 1, get, mget. destruct (Exchanges_withdraw id (ex s)) as [e o] eqn:Hw.
  unfold mbind at 1, modify, mset. etrans; [apply (advances_fewer X s (upd_driver (d_exchanges e) s) (in_flight e) (queued e)); try done; try apply around_driver|].
  1,2: unfold Exchanges_withdraw in Hw; repeat case_match; injection Hw as <- <-; cbn;
    first [done | apply sublist_map, sublist_remove_at | apply sublist_remove_at].
  match goal with |- advances X ?s1 (?m ?s1).1 => enough (evolves X m) as H by apply H end. unfold drop_completion. evolve.
Qed.
#[local] Hint Resolve evolves_withdraw : evolve.

Lemma frames_open : frames (@ensure_open _ _ _).
Proof. unfold ensure_open. frame. Qed.
#[local] Hint Resolve frames_open : evolve.
#[local] Hint Extern 4 (late _ _) => first [by apply late_none | eapply late_one; [reflexivity|by left]] : evolve.
#[local] Hint Extern 4 (evolves _ (start _ _ _)) => apply evolves_control; [apply evolves_complete|reflexivity|] : evolve.

Lemma evolves_petition {E} r : evolves [r] (@petition _ _ _ config E r).
Proof. unfold petition. evolve. Qed.
Lemma evolves_send_keep_alive X {E} o : (forall r, o = Some r -> r ∈ X) -> evolves X (@send_keep_alive _ _ _ config E (CKeepAlive o)).
Proof.
  intros Ho. assert (late X (CKeepAlive o)) by (intros r; apply Ho). unfold send_keep_alive. evolve.
Qed.
Lemma evolves_resign X {E} o : (forall r, o = Some r -> r ∈ X) -> evolves X (@resign _ _ _ config E o).
Proof.
  intros Ho. assert (late X (CResign o)) by (intros r; apply Ho). unfold resign. evolve.
Qed.
#[local] Hint Extern 4 (evolves _ (submit _ _ _)) => apply evolves_submit : evolve.
#[local] Hint Resolve evolves_petition : evolve.
Lemma only_reply (r : nat) : forall r', Some r = Some r' -> r' ∈ [r].
Proof. intros r' [= <-]. by left. Qed.
Lemma no_reply (X : list nat) : forall r : nat, None = Some r -> r ∈ X.
Proof. done. Qed.
#[local] Hint Resolve evolves_send_keep_alive evolves_resign only_reply no_reply : evolve.
Lemma evolves_command {E} c : evolves (command_replies c) (@handle_command _ _ _ config E c).
Proof. destruct c; cbn [handle_command command_replies]; evolve. Qed.
Lemma evolves_dropped X {E} : evolves X (@on_handles_dropped _ _ _ config E).
Proof. unfold on_handles_dropped. evolve. Qed.
Lemma evolves_after_timers X {E} : evolves X (
  let* closed := @get _ _ _ E _ is_closed in
  if (closed : bool) then mret tt
  else
    let* at_ := get keep_alive_at in
    match at_ with
    | None => mret tt
    | Some at_ => let* t := now in if at_ <=? t then send_keep_alive config (CKeepAlive None) else mret tt
    end).
Proof. evolve. Qed.
Lemma evolves_timers X {E} : evolves X (@run_timers _ _ _ config E).
Proof. unfold run_timers. apply evolves_bind; [evolve|]. intros _. apply evolves_after_timers. Qed.
End Methods.

#[export] Hint Resolve frames_status frames_assign frames_wire frames_send frames_schedule frames_petition_outcome
  frames_send_reply frames_reply frames_ack frames_retransmission frames_publish_all frames_transmit_all frames_session
  frames_relay frames_unsolicited frames_unsolicited_proxied frames_open : evolve.
