(* ===== verification/HarnessSession.v ===== *)
(** * HarnessSession: the scripted border agent answers the session task

    [Harness] shows what the scripted transport delivers, [SessionDriver] what
    the task does with a datagram.  Put together: the scripted answer to a
    request in flight reaches the handle that made the request, on both routes. *)
From stdpp Require Import gmap.
From S2P Require Import Prelude Text Tlv Errors Dataset Coap NetDiag Messages Harness Joiner.
From S2P Require Import Commissioner SessionDriver SessionCore SessionInvariant SessionClaims SessionProgress SessionJoiners.

Section Answers.
Context {JH : JoinerHandler} {OR : OsRng} {OL : OsRngLaws} {JS : JoinerSessions} {JL : JoinerSessionsLaws}.
Context (config : CommissionerConfig) (border_agent_ip : string).

Notation ex s := (exchanges (driver s)).
Notation open s := (is_closed (driver s) = false).
Notation run := (@run _ _ _ config border_agent_ip Error).
Notation handle_datagram := (@handle_datagram _ _ _ config border_agent_ip Error).

(** ** The log only grows *)

Lemma log_after {E A} (m : M State E A) s e : (forall X, evolves X m) -> e ∈ log s -> e ∈ log (m s).1.
Proof.
  intros Hm He. destruct (w_log _ _ (a_around _ _ _ (Hm [] s))) as [l ->]. apply elem_of_app. by left.
Qed.

(** ** One answer *)

Definition plain_answer (a : CoapMessage) : Prop :=
  is_response a = true /\ coap_ty a <> Confirmable /\ coap_ty a <> Reset /\ options a = [].

Lemma response_code a : is_response a = true -> coap_code a =? CODE_EMPTY = false.
Proof. unfold is_response. destruct (coap_code a =? CODE_EMPTY) eqn:E; [|done]. zbool. rewrite E. done. Qed.

Lemma position_unique {A} (q : A -> bool) l i x : l !! i = Some x -> q x = true ->
  (forall j y, l !! j = Some y -> q y = true -> j = i) -> position q l = Some i.
Proof.
  intros Hi Hq Hu. destruct (position q l) as [j|] eqn:Hp.
  - destruct (position_Some q l j Hp) as (y & Hj & Hy). by rewrite (Hu j y Hj Hy).
  - exfalso. clear Hu. revert i Hi Hp. induction l as [|y l IH]; intros [|i]; cbn; [done..| |].
    + intros [= ->]. by rewrite Hq.
    + intros Hi. destruct (q y); [done|]. destruct (position q l) eqn:E; [done|]. by eapply IH.
Qed.
Lemma position_none {A} (q : A -> bool) l : (forall x, q x = false) -> position q l = None.
Proof. intros H. induction l as [|x l IH]; cbn; [done|]. by rewrite H, IH. Qed.

Lemma not_acknowledged {E} a b s : is_response a = true -> @acknowledge _ _ _ E a b s = (s, Ok false).
Proof.
  intros Ha. unfold acknowledge, mbind, get, mget. rewrite position_none; [done|]. intros p.
  unfold acknowledges, is_empty_ack_for. rewrite (response_code a Ha). by rewrite !andb_false_r.
Qed.

Lemma answer_found {E} R a i p b s : session_inv R s -> in_flight (ex s) !! i = Some p -> plain_answer a ->
  token a = token (request p) -> is_proxied p = b ->
  @take_answered _ _ _ E a b s = (upd_driver (remove_in_flight i) s, Ok (Some p)).
Proof.
  intros Hi Hp (Hr & _ & Hreset & _) Ht Hb. unfold take_answered, mbind, get, mget.
  assert (forall q, is_reset_for a (message_id (request q)) = false) as Hn
    by (intros q; unfold is_reset_for; by rewrite bool_decide_false).
  rewrite (position_unique _ _ i p).
  - unfold modify, mset, mret. by rewrite Hp.
  - done.
  - unfold answered_by. rewrite Hb, Hn, Hr, Ht. unfold vec_eqb. rewrite bool_decide_true by done. by rewrite eqb_reflx.
  - intros j q Hj Hq. unfold answered_by in Hq. rewrite Hn, Hr in Hq. cbn [orb andb] in Hq. apply andb_true_iff in Hq as [_ Hq].
    apply bool_decide_eq_true in Hq. pose proof (c_tokens _ _ _ (i_core _ _ Hi)) as Hnd.
    apply (NoDup_lookup _ j i (token a) Hnd); change (map ?f ?l) with (f <$> l); rewrite list_lookup_fmap.
    + rewrite Hj. cbn. by rewrite Hq.
    + rewrite Hp. cbn. by rewrite Ht.
Qed.

Lemma delivered_replies c id r a s : c = CCaller id r -> coap_ty a <> Reset ->
  Replied r (AnExchange (inr (Some a))) ∈ log (deliver config c a (mret tt) s).1.
Proof.
  intros -> Ha. unfold deliver. rewrite bool_decide_false by done. unfold or_drop, attempt, mbind at 1 2, mret. cbv beta iota.
  unfold complete. assert (exists n, need s = S n) as [n ->] by (unfold need; destruct (is_closed _); eexists; [done|by rewrite Nat.add_succ_r]).
  cbn [complete_fuel]. unfold complete_body, mbind, send_reply_channel, effect, mset.
  assert (forall s X, advances X s (send_queued (complete_fuel config (E := Error) n) s).1) as Hq
    by (intros s1 X; apply evolves_send_queued; intros c o; apply evolves_fuel).
  destruct (w_log _ _ (a_around _ _ _ (Hq (record_effect (Replied r (AnExchange (inr (Some a)))) s) []))) as [l ->].
  cbn. rewrite !elem_of_app. left. right. by left.
Qed.

(** How the scripted exchange's route is written by the session. *)
Definition route_of (d : Destination) : option (Ipv6Addr * Z) := match d with BorderAgent => None | Mesh a p => Some (a, p) end.

Lemma plain_not_udp_rx a : options a = [] -> parse_udp_rx a = Ok None.
Proof. intros Ho. unfold parse_udp_rx, uri_path. by rewrite Ho. Qed.

Lemma not_retransmitted a d s : coap_ty a <> Confirmable -> answer_retransmission a d s = (s, Ok false).
Proof. intros Ha. unfold answer_retransmission. by rewrite bool_decide_false. Qed.

(** The answer is routed to the request it is for. *)
Lemma routed_to_request R a M i p id r s : session_inv R s -> in_flight (ex s) !! i = Some p -> completion p = CCaller id r ->
  plain_answer a -> token a = token (request p) -> Harness.arrives_as (route_of (destination p)) a M ->
  route_incoming config border_agent_ip M s = deliver config (CCaller id r) a (mret tt) (upd_driver (remove_in_flight i) s).
Proof.
  intros Hi Hp Hc Ha Ht Harr. pose proof Ha as (Hr & Hcon & Hreset & Ho).
  unfold route_incoming, settled, attempt, mlift, mbind. destruct (destination p) as [|address port] eqn:Hd; cbn [route_of Harness.arrives_as] in Harr.
  - subst M. rewrite (plain_not_udp_rx a Ho). unfold route_direct, mbind. rewrite (not_retransmitted a _ s Hcon).
    rewrite (not_acknowledged a false s Hr). rewrite (answer_found R a i p false s Hi Hp Ha Ht) by (unfold is_proxied; by rewrite Hd).
    rewrite Hc. unfold ack_if_confirmable. by rewrite bool_decide_false.
  - destruct Harr as (b & He & Hdec & Hu). rewrite Hu. cbn [destination_port]. change (negb (DEFAULT_MM_PORT =? DEFAULT_MM_PORT)) with false.
    cbv iota. cbn [udp_payload]. rewrite Hdec. unfold route_proxied, mbind. cbn [source_address source_port].
    rewrite (not_retransmitted a _ s Hcon). rewrite (not_acknowledged a true s Hr).
    rewrite (answer_found R a i p true s Hi Hp Ha Ht) by (unfold is_proxied; by rewrite Hd).
    rewrite Hc. by rewrite bool_decide_false.
Qed.

Lemma answer_reaches R a M b i p id r s : session_inv R s -> open s -> link_open (driver s) = true ->
  in_flight (ex s) !! i = Some p -> completion p = CCaller id r -> plain_answer a -> token a = token (request p) ->
  Harness.arrives_as (route_of (destination p)) a M -> bytes_ok b -> CoapMessage_decode b = Ok M ->
  exists s', handle_datagram b s = (s', Ok tt) /\ Replied r (AnExchange (inr (Some a))) ∈ log s'.
Proof.
  intros Hi Ho Hl Hp Hc Ha Ht Harr Hb Hdec.
  pose proof (handle_datagram_inv config border_agent_ip (E := Error) R b s Hi Ho Hl Hb) as Hwp. unfold wp in Hwp.
  assert (Replied r (AnExchange (inr (Some a))) ∈ log (handle_datagram b s).1) as Hin.
  { unfold SessionDriver.handle_datagram. rewrite Hdec. unfold settled, attempt, mlift, mbind at 1. cbv beta iota.
    unfold mbind at 1. rewrite (routed_to_request R a M i p id r s Hi Hp Hc Ha Ht Harr).
    pose proof (delivered_replies (CCaller id r) id r a (upd_driver (remove_in_flight i) s) eq_refl) as Hd.
    destruct (deliver _ _ _ _ _) as [s1 [[]|e|f]]; cbn [fst] in Hd; try (apply Hd, Ha).
    destruct (is_transport_error e); [|apply Hd, Ha].
    apply log_after; [|apply Hd, Ha]. intros X. apply evolves_transport. intros c o. apply evolves_complete. }
  destruct (handle_datagram b s) as [s' [[]|e|f]]; [by exists s'|done..].
Qed.

(** ** The script and the session *)

(** The successful answers of a device that need no acknowledgement. *)
Definition scripted (t : Harness.ScriptedResponse) : option (Z * bytes) :=
  match t with
  | Harness.Changed pl false => Some (CODE_CHANGED, pl)
  | Harness.Content pl false => Some (CODE_CONTENT, pl)
  | _ => None
  end.
Lemma scripted_plain t code pl m : scripted t = Some (code, pl) ->
  Harness.into_message t m = Ok (Harness.response m code pl false) /\ plain_answer (Harness.response m code pl false).
Proof. destruct t as [|? []|? []| | | | | |]; cbn; try done; intros [= <- <-]; by repeat split. Qed.

(** C23: What the script answers is what the caller gets.  At any point of a
    run, let a request of a handle be in flight, and let the scripted border
    agent take the message that was sent for it, directly or through the proxy:
    the scripted answer is queued, and as soon as the session receives it the
    handle is replied to with that answer. *)
Theorem scripted_answer_reaches_caller s0 wakes s i p id r outer op t code pl rest st :
  initial s0 -> wakes_ok wakes -> run wakes s0 = (s, Ok tt) -> open s -> link_open (driver s) = true ->
  in_flight (ex s) !! i = Some p -> completion p = CCaller id r ->
  coap_wf (request p) -> Harness.wire_stable (request p) -> Harness.wire_stable outer ->
  Harness.on_the_wire (request p) (route_of (destination p)) outer ->
  uri_path (request p) = Ok (Some (operation_uri_path op)) ->
  Harness.sends_fail st = false -> Harness.exchanges st = Harness.mkScriptedExchange op [t] :: rest ->
  Harness.fits t -> scripted t = Some (code, pl) ->
  exists st' M b s', Harness.exchange outer st = (st', Ok tt) /\
    Harness.incoming st' = Harness.incoming st ++ [Harness.Message M] /\ CoapMessage_encode M = Ok b /\
    handle_datagram b s = (s', Ok tt) /\
    Replied r (AnExchange (inr (Some (Harness.response (request p) code pl false)))) ∈ log s'.
Proof.
  intros H0 Hw Hrun Ho Hl Hp Hc Hm Hs Hso Hwire Hpath Hf He Ht Hcode.
  destruct (run_inv config border_agent_ip [] wakes s0 (initial_inv _ H0) Hw) as (s1 & Hr & Hi). rewrite Hrun in Hr. injection Hr as <-.
  destruct (Harness.scripted_exchange_answers (request p) _ outer op [t] rest st Hm Hs Hso Hwire Hpath Hf He) as (Ms & Hx & HMs); [by constructor|].
  destruct (Forall2_cons_inv_l _ _ _ _ HMs) as (M & l & (a & Ea & _ & _ & Harr & b & Eb & Hb & Db) & Hl' & ->).
  apply Forall2_nil_inv_l in Hl' as ->. destruct (scripted_plain t code pl (request p) Hcode) as [Ea' Hplain].
  rewrite Ea in Ea'. injection Ea' as ->.
  destruct (answer_reaches _ _ M b i p id r s Hi Ho Hl Hp Hc Hplain eq_refl Harr Hb Db) as (s' & Hs' & Hin).
  eexists _, M, b, s'. split; [exact Hx|]. done.
Qed.
End Answers.

(** ** Witness *)

(** The toy session with a request for the leader's active dataset in flight. *)
Module ToyScripted.
Import ToyHarness ToySession.
#[local] Notation request := Commissioner.request.
Definition outbound : Outbound :=
  mkOutbound (built (post_request Confirmable 0 [] (operation_uri_path GetActiveDataset) [])) (Mesh leader 61631) true "get-active-dataset"%string.
Definition wakes : list (Z * Wake (JH := static_joiner_handler)) :=
  [(0, WakeCommand (Some (CmdPetition 0))); (5, WakeReceived (inr accept_petition)); (1, WakeCommand (Some (CmdExchange 9 outbound 1)))].
Definition task : State := (run toy_config "fd00::1" wakes toy_start : State * result Error unit).1.
Definition sent_request : CoapMessage := match in_flight (exchanges (driver task)) !! 0%nat with Some p => request p | None => empty_ack 0 end.
Definition outer : CoapMessage :=
  match last (log task) with Some (Sent m) => m | _ => empty_ack 0 end.
Definition script : Harness.ScriptState :=
  Harness.ScriptedMeshcopTransport_new [Harness.mkScriptedExchange GetActiveDataset [Harness.content [14; 1; 0]]].
End ToyScripted.
Import ToyHarness ToySession ToyScripted.
#[local] Notation request := Commissioner.request.

Lemma task_run : run toy_config "fd00::1" wakes toy_start = (task, @Ok Error _ tt).
Proof.
  assert ((run toy_config "fd00::1" wakes toy_start : State * result Error unit).2 = Ok tt) as H by (vm_compute; reflexivity).
  unfold task. revert H. by destruct (run toy_config "fd00::1" wakes toy_start) as [s r]; cbn; intros ->.
Qed.
Lemma task_in_flight : exists p, in_flight (exchanges (driver task)) !! 0%nat = Some p /\ completion p = CCaller 9 1 /\
  destination p = Mesh leader 61631 /\ request p = sent_request.
Proof.
  assert ((fun p => (completion p, destination p, request p)) <$> in_flight (exchanges (driver task)) !! 0%nat = Some (CCaller 9 1, Mesh leader 61631, sent_request)) as H
    by (vm_compute; reflexivity).
  destruct (_ !! _) as [p|]; [|done]. exists p. by injection H as -> -> ->.
Qed.

Lemma scripted_answer_reaches_caller_witness :
  exists M b s', (Harness.exchange outer script).2 = Ok tt /\
    Harness.incoming (Harness.exchange outer script).1 = [Harness.Message M] /\ CoapMessage_encode M = Ok b /\
    handle_datagram toy_config "fd00::1" b task = (s', @Ok Error _ tt) /\
    Replied 1 (AnExchange (inr (Some (Harness.response sent_request CODE_CONTENT [14; 1; 0] false)))) ∈ log s'.
Proof.
  destruct task_in_flight as (p & Hp & Hc & Hd & Hr).
  destruct (scripted_answer_reaches_caller toy_config "fd00::1" toy_start wakes task 0 p 9 1 outer GetActiveDataset
    (Harness.content [14; 1; 0]) CODE_CONTENT [14; 1; 0] [] script) as (st' & M & b & s' & Hx & HM & Hb & Hs & Hin).
  - apply toy_initial.
  - repeat apply Forall_cons_2; try apply Forall_nil_2; split; cbn; try done; by_decide.
  - exact task_run.
  - vm_compute. reflexivity.
  - vm_compute. reflexivity.
  - exact Hp.
  - exact Hc.
  - rewrite Hr. by_decide.
  - rewrite Hr. exists (encoded sent_request). split_and!; [vm_compute; reflexivity|by_decide|vm_compute; reflexivity].
  - exists (encoded outer). split_and!; [vm_compute; reflexivity|by_decide|vm_compute; reflexivity].
  - rewrite Hr, Hd. split; [by_decide|]. split; [done|]. split; [by_decide|]. exists (encoded sent_request).
    split; [vm_compute; reflexivity|]. split; [by_decide|]. split; [by_decide|vm_compute; reflexivity].
  - rewrite Hr. vm_compute. reflexivity.
  - reflexivity.
  - reflexivity.
  - by_decide.
  - reflexivity.
  - rewrite Hr in Hin. exists M, b, s'. rewrite Hx. split; [reflexivity|]. split; [exact HM|]. split; [exact Hb|]. split; [exact Hs|exact Hin].
Defined.
