(* ===== verification/SessionLiveness.v ===== *)
(** * SessionLiveness: every command is answered

    The session task answers what it was asked: a request that is in flight is
    answered or expires within twelve seconds, one that waits behind others
    moves up whenever the one in flight is gone.  The theorem counts the turns
    in which the timers run at least twelve seconds after the last ones counted;
    a command is answered after one of them for each request before it and one
    for itself, whatever else the task meets in between. *)
From stdpp Require Import gmap.
From S2P Require Import Prelude Text Tlv Errors Dataset Coap NetDiag Messages Joiner.
From S2P Require Import Commissioner SessionDriver SessionCore SessionSafety SessionInvariant SessionClaims SessionProgress SessionJoiners.

Section Liveness.
Context {JH : JoinerHandler} {OR : OsRng} {OL : OsRngLaws} {JS : JoinerSessions} {JL : JoinerSessionsLaws}.
Context (config : CommissionerConfig) (border_agent_ip : string).

Notation ex s := (exchanges (driver s)).
Notation closed s := (is_closed (driver s) = true).
Notation open s := (is_closed (driver s) = false).
Notation never := (fun _ _ => False).
Notation run := (@run _ _ _ config border_agent_ip Error).
Notation reads := (reads config border_agent_ip).
Notation handle_wake := (@handle_wake _ _ _ config border_agent_ip Error).

(** ** Runs keep the line *)

Lemma evolves_wake w : evolves (wake_replies w) (handle_wake w).
Proof.
  destruct w as [[c|]|[e|d]|]; cbn [SessionDriver.handle_wake wake_replies].
  - apply evolves_command.
  - apply evolves_dropped.
  - apply evolves_failed.
  - apply evolves_datagram.
  - apply evolves_timers.
Qed.

Lemma advance_later X dt s : 0 <= dt -> advances X s (advance dt s).
Proof.
  intros Hdt. apply advances_aside, aside_same; try done. intros Ht. split; [done|]. cbn. lia.
Qed.

(** ** The place of a command in the line *)

(** The requests before the one with reply channel [r], itself included; none
    when it is in flight. *)
Definition place (r : nat) (s : State) : nat :=
  match position (fun c => bool_decide (completion_reply c = Some r)) (waiting s) with
  | Some i => S i
  | None => 0
  end.

Definition replies (l : list Completion) : list nat := omap completion_reply l.
Lemma awaited_eq s : awaited s = replies (map completion (in_flight (ex s))) ++ replies (waiting s).
Proof. apply omap_app. Qed.
Lemma elem_of_replies r l : r ∈ replies l <-> exists c, c ∈ l /\ completion_reply c = Some r.
Proof. unfold replies. by rewrite list_elem_of_omap. Qed.

Lemma place_none r s : r ∉ replies (waiting s) -> place r s = 0%nat.
Proof.
  intros Hr. unfold place. destruct (position _ _) as [i|] eqn:Hp; [|done].
  destruct (position_Some _ _ _ Hp) as (c & Hi & Hc%bool_decide_eq_true). destruct Hr. apply elem_of_replies.
  exists c. split; [by eapply list_elem_of_lookup_2|done].
Qed.
Lemma position_app {A} (q : A -> bool) b c a : (forall x, x ∈ b -> q x = false) -> q c = true -> position q (b ++ c :: a) = Some (length b).
Proof.
  intros Hb Hc. induction b as [|x b IH]; cbn; [by rewrite Hc|]. rewrite Hb by by left. rewrite IH; [done|].
  intros y Hy. apply Hb. by right.
Qed.
Lemma place_app r s b c a : NoDup (replies (waiting s)) -> waiting s = b ++ c :: a -> completion_reply c = Some r ->
  place r s = S (length b).
Proof.
  intros Hnd Hw Hc. unfold place. rewrite Hw, position_app; [done| |by apply bool_decide_true].
  intros x Hx. apply bool_decide_false. intros Hxr. rewrite Hw in Hnd. unfold replies in Hnd. rewrite omap_app in Hnd.
  apply NoDup_app in Hnd as (_ & Hnd & _). apply (Hnd r); [apply elem_of_replies; by exists x|]. cbn. rewrite Hc. by left.
Qed.

(** ** What the line does to a place *)

Lemma inv_nodup R s : session_inv R s -> NoDup R -> NoDup (awaited s).
Proof.
  intros Hi Hnd. pose proof (c_ledger _ _ _ (i_core _ _ Hi)) as Hl. unfold owed in Hl. rewrite app_nil_r in Hl.
  rewrite <- Hl in Hnd. by apply NoDup_app in Hnd as (_ & _ & ?).
Qed.

Lemma served_length s : len (served (in_flight (ex s))) = application_in_flight (ex s).
Proof.
  unfold served, application_in_flight, len. f_equal. induction (in_flight (ex s)) as [|p l IH]; cbn; [done|].
  destruct (is_application _); cbn; by rewrite IH.
Qed.
(** When a request waits, exactly one is in flight. *)
Lemma head_of_line R s : session_inv R s -> waiting s <> [] -> exists c, line s = c :: waiting s /\ served (in_flight (ex s)) = [c].
Proof.
  intros Hi Hw. assert (queued (ex s) <> []) as Hq by (intros H; apply Hw; unfold waiting; by rewrite H).
  pose proof (i_working _ _ Hi Hq) as H1. pose proof (c_app _ _ _ (i_core _ _ Hi)) as H2. rewrite <- served_length in *.
  unfold line. destruct (served (in_flight (ex s))) as [|c [|]]; unfold len in *; cbn in *; [lia| |lia]. by exists c.
Qed.

Lemma sublist_before {A} (d a' b a : list A) c : c ∉ b -> c ∉ a -> sublist (d ++ c :: a') (b ++ c :: a) -> sublist d b.
Proof.
  intros Hb Ha Hs. apply sublist_app_l in Hs as (k1 & k2 & Hk & Hd & Hc).
  apply sublist_cons_l in Hc as (k3 & k4 & -> & _). rewrite (assoc_L (++)) in Hk.
  assert (b = k1 ++ k3) as ->; [|by apply sublist_inserts_r].
  revert b Hb Hk. generalize (k1 ++ k3) as l. induction l as [|x l IH]; intros [|y b] Hb Hk; cbn in *; [done|..].
  - injection Hk as -> _. destruct Hb. by left.
  - injection Hk as <- Hk. destruct Ha. rewrite Hk. apply elem_of_app. right. by left.
  - injection Hk as -> Hk. f_equal. apply IH; [|done]. intros H. apply Hb. by right.
Qed.

Lemma served_sub c l : c ∈ served l -> c ∈ map completion l.
Proof. unfold served. intros [H _]%list_elem_of_In%filter_In. by apply list_elem_of_In. Qed.
Lemma app_split_old {A} (d a old new : list A) c : d ++ c :: a = old ++ new -> c ∉ new -> exists a', old = d ++ c :: a'.
Proof.
  intros H Hn. revert old H. induction d as [|x d IH]; intros [|y old] H; cbn in *.
  - subst new. destruct Hn. by left.
  - injection H as -> _. by exists old.
  - subst new. destruct Hn. right. apply elem_of_app. right. by left.
  - injection H as -> H. destruct (IH old H) as [a' ->]. by exists a'.
Qed.

Section Place.
Context (X R R' : list nat) (s s' : State) (r : nat).
Context (Hi : session_inv R s) (Hi' : session_inv R' s') (Hnd : NoDup R) (Hnd' : NoDup R').
Context (Ha : advances X s s') (HX : forall x, x ∈ awaited s -> x ∉ X) (Hr : r ∈ awaited s) (Hr' : r ∈ awaited s').

Lemma not_late c : c ∈ map completion (in_flight (ex s)) ++ waiting s -> is_Some (completion_reply c) -> ~ late X c.
Proof.
  intros Hc [x Hx] Hl. apply (HX x); [|by apply Hl]. unfold awaited. apply elem_of_replies. by exists c.
Qed.

(** Either the command is in flight, or it waits with the requests before it
    among those that were before it. *)
Lemma place_cases :
  (r ∈ replies (map completion (in_flight (ex s'))) /\ place r s' = 0%nat) \/
  exists c0 b c0' b', line s = c0 :: waiting s /\ line s' = c0' :: waiting s' /\ served (in_flight (ex s')) = [c0'] /\
    served (in_flight (ex s)) = [c0] /\ sublist (c0' :: b') (c0 :: b) /\ place r s = S (length b) /\ place r s' = S (length b').
Proof.
  pose proof (inv_nodup _ _ Hi Hnd) as Hn. pose proof (inv_nodup _ _ Hi' Hnd') as Hn'. rewrite awaited_eq in Hn, Hn'.
  pose proof Hr' as H. rewrite awaited_eq in H. apply elem_of_app in H as [H|H].
  { left. split; [done|]. apply place_none. apply NoDup_app in Hn' as (_ & Hn' & _). by apply Hn'. }
  right. apply elem_of_replies in H as (c & Hc & Hcr).
  assert (~ late X c) as Hnl by (intros Hl; by apply (HX r), (Hl r)).
  destruct (a_waiting _ _ _ Ha c Hc) as [|Hcs]; [done|].
  destruct (head_of_line _ _ Hi) as (c0 & Hl0 & Hs0); [intros H; by rewrite H in Hcs; inversion Hcs|].
  destruct (head_of_line _ _ Hi') as (c0' & Hl0' & Hs0'); [intros H; by rewrite H in Hc; inversion Hc|].
  apply list_elem_of_split in Hc as (b' & a' & Hw'). apply list_elem_of_split in Hcs as (b & a & Hw).
  apply NoDup_app in Hn as (_ & Hdis & Hnw). apply NoDup_app in Hn' as (_ & _ & Hnw').
  exists c0, b, c0', b'. split_and!; try done.
  2,3: by eapply place_app.
  destruct (a_line _ _ _ Ha) as (old & new & Hold & Hsub & Hnew). rewrite Hl0', Hw' in Hold.
  assert (c ∉ new) as Hcn by (intros Hcn; apply Hnl; by eapply (proj1 (Forall_forall _ _) Hnew)).
  change (c0' :: b' ++ c :: a') with ((c0' :: b') ++ c :: a') in Hold.
  apply app_split_old in Hold as [a'' ->]; [|done]. rewrite Hl0, Hw in Hsub.
  rewrite Hw in Hnw. unfold replies in Hnw. rewrite omap_app in Hnw. cbn in Hnw. rewrite Hcr in Hnw. apply NoDup_app in Hnw as (_ & N1 & N2).
  eapply (sublist_before _ _ (c0 :: b) a c); [| |exact Hsub].
  - rewrite elem_of_cons. intros [<-|Hb].
    + apply (Hdis r); apply elem_of_replies; exists c; (split; [|done]).
      * apply served_sub. rewrite Hs0. by left.
      * rewrite Hw. apply elem_of_app. right. by left.
    + apply (N1 r); [|by left]. apply elem_of_replies. by exists c.
  - intros Hb. apply NoDup_cons in N2 as [N2 _]. apply N2. apply elem_of_replies. by exists c.
Qed.

Lemma place_mono : (place r s' <= place r s)%nat.
Proof.
  destruct place_cases as [[_ ->]|(c0 & b & c0' & b' & _ & _ & _ & _ & Hs & -> & ->)]; [lia|].
  apply sublist_length in Hs. cbn in Hs. lia.
Qed.

(** Once everything that was in flight is gone, the command has moved up. *)
Lemma place_down t : Forall (fun p => deadline p <= t) (in_flight (ex s)) -> Forall (fun p => t < deadline p) (in_flight (ex s')) ->
  (place r s' < place r s)%nat.
Proof.
  intros Ht Ht'. rewrite Forall_forall in Ht. rewrite Forall_forall in Ht'.
  pose proof (proj1 (Forall_forall _ _) (a_flight _ _ _ Ha)) as Ho.
  pose proof (inv_nodup _ _ Hi Hnd) as Hn. rewrite awaited_eq in Hn.
  assert (forall c, c ∈ map completion (in_flight (ex s')) -> is_Some (completion_reply c) ->
    late X c \/ c ∈ waiting s) as Hgone.
  { intros c Hc _. apply list_elem_of_fmap in Hc as (p & -> & Hp). destruct (Ho p Hp) as [H|[H|(p0 & H1 & H2 & H3)]]; [by left|by right|].
    specialize (Ht _ H1). specialize (Ht' _ Hp). lia. }
  destruct place_cases as [[Hf ->]|(c0 & b & c0' & b' & Hl & Hl' & Hs0' & Hs0 & Hs & -> & ->)].
  - apply elem_of_replies in Hf as (c & Hc & Hcr). destruct (Hgone c Hc) as [H|H]; [by rewrite Hcr|by destruct (HX r Hr); apply H|].
    apply list_elem_of_split in H as (b & a & Hw). apply NoDup_app in Hn as (_ & _ & Hn). rewrite (place_app r s b c a); [lia|done..].
  - assert (is_application c0 = true) as Hap0.
    { assert (c0 ∈ served (in_flight (ex s))) as H by (rewrite Hs0; by left). unfold served in H.
      by apply list_elem_of_In, filter_In in H as [_ ?]. }
    assert (is_Some (completion_reply c0)) as [x0 Hx0] by (destruct c0; [by eexists|done..]).
    assert (c0 ∈ map completion (in_flight (ex s))) as Hin0 by (apply served_sub; rewrite Hs0; by left).
    inversion Hs as [|? ? ? Hs1|? ? ? Hs1]; subst; [|apply sublist_length in Hs1; cbn in Hs1; lia].
    exfalso. assert (c0 ∈ map completion (in_flight (ex s'))) as Hin by (apply served_sub; rewrite Hs0'; by left).
    destruct (Hgone c0 Hin) as [H|H]; [by eexists| |].
    + revert H. apply not_late; [apply elem_of_app; by left|by eexists].
    + apply NoDup_app in Hn as (_ & Hn & _). apply (Hn x0); apply elem_of_replies; by exists c0.
Qed.
End Place.

(** ** Turns *)

Lemma awaited_later X s s' r : advances X s s' -> r ∉ X -> r ∈ awaited s' -> r ∈ awaited s.
Proof.
  intros [_ W F _] HX. rewrite !awaited_eq, !elem_of_app, !elem_of_replies. rewrite Forall_forall in F.
  intros [(c & Hc & Hr)|(c & Hc & Hr)].
  - apply list_elem_of_fmap in Hc as (p & -> & Hp). destruct (F p Hp) as [H|[H|(p0 & H1 & H2 & _)]].
    + by destruct HX; apply H.
    + right. by exists (completion p).
    + left. exists (completion p). split; [|done]. rewrite <- H2. by apply list_elem_of_fmap_2.
  - destruct (W c Hc) as [H|H]; [by destruct HX; apply H|]. right. by exists c.
Qed.

Lemma closed_awaited R s : session_inv R s -> closed s -> awaited s = [].
Proof. intros Hi Hc. destruct (c_closed _ _ _ (i_core _ _ Hi) Hc) as [He _]. unfold awaited. by rewrite He. Qed.

Lemma min_some_le l (x : Z) : Some x ∈ l -> exists y, min_some l = Some y /\ y <= x.
Proof.
  induction l as [|o l IH]; [by inversion 1|]. rewrite elem_of_cons. intros [<-|Hl]; cbn.
  - destruct (min_some l); eexists; (split; [done|lia]).
  - destruct (IH Hl) as (y & -> & Hy). destruct o as [z|]; eexists; (split; [done|lia]).
Qed.
(** While no timer is due, nothing in flight has expired. *)
Lemma timer_not_due s : timer_due s = false -> Forall (fun p => clock_now (clock s) < deadline p) (in_flight (ex s)).
Proof.
  unfold timer_due, next_deadline, due. intros H. apply Forall_forall. intros p Hp.
  destruct (min_some_le (flat_map (fun p => [retry_at p; Some (deadline p)]) (in_flight (ex s))) (deadline p)) as (y & Hy & Hle).
  { apply list_elem_of_In, in_flat_map. exists p. split; [by apply list_elem_of_In|]. right. by left. }
  fold (Exchanges_next_deadline (ex s)) in Hy.
  destruct (min_some_le [Exchanges_next_deadline (ex s); keep_alive_at (driver s)] y) as (z & Hz & Hzl); [rewrite Hy; by left|].
  rewrite Hz in H. zbool. lia.
Qed.

Lemma timer_turn R s : session_inv R s -> open s -> timer_due s = true ->
  exists s2 s3, handle_wake WakeTimer s = (s3, Ok tt) /\ session_inv R s2 /\ session_inv R s3 /\
    advances [] s s2 /\ advances [] s2 s3 /\
    (closed s3 \/ Forall (fun p => clock_now (clock s) < deadline p) (in_flight (ex s2))).
Proof.
  intros Hi Ho Hd. pose proof (timer_link _ _ Hi Hd) as Hl.
  pose proof (@run_exchange_timers_ok _ _ _ _ _ config Error _ _ Hi Ho Hl) as Ht.
  pose proof (handle_wake_inv config border_agent_ip R WakeTimer s Hi Ho Hd I) as Hh.
  pose proof (@evolves_exchange_timers _ _ _ config [] Error s) as E1.
  pose proof (@evolves_after_timers _ _ _ config [] Error) as E2.
  cbn [SessionDriver.handle_wake] in *. unfold run_timers in *. unfold wp, mbind at 1 in Hh. unfold wp in Ht.
  unfold mbind at 1. destruct (run_exchange_timers config s) as [s2 [[]|e|f]]; [|done..]. specialize (E2 s2). cbn [fst] in E1.
  match type of E2 with advances _ _ (?k s2).1 => change (match k s2 with (s', Ok _) => session_inv ([] ++ R) s' | _ => False end) in Hh;
    destruct (k s2) as [s3 [[]|e|f]] eqn:Hk end; [|done..].
  exists s2, s3. destruct Ht as [I2 Ht]. split_and!; try done. destruct Ht as [Hc|(t & Ht & HF)].
  - left. unfold mbind, get, mget in Hk. rewrite Hc in Hk. injection Hk as <-. done.
  - right. eapply Forall_impl; [exact HF|]. intros p [Hp _]. lia.
Qed.

(** ** Rounds *)

(** The turns of the timers that come at least [COAP_EXCHANGE_TIMEOUT] after the
    last one counted; [since] has passed already. *)
Fixpoint rounds (since : Z) (wakes : list (Z * Wake)) : nat :=
  match wakes with
  | [] => 0
  | (dt, w) :: wakes =>
      let since := since + dt in
      match w with
      | WakeTimer => if COAP_EXCHANGE_TIMEOUT <=? since then S (rounds 0 wakes) else rounds since wakes
      | _ => rounds since wakes
      end
  end.

Lemma reads_fresh wakes s R : NoDup (reads wakes s ++ R) -> NoDup R /\ forall x, x ∈ R -> x ∉ reads wakes s.
Proof. intros H. apply NoDup_app in H as (_ & H1 & H2). split; [done|]. intros x Hx Hy. by apply (H1 x). Qed.

(** The start [s0] of a round and the state [s] it has come to. *)
Record round (r : nat) (R0 X : list nat) (s0 s : State) (since : Z) : Prop := {
  r_inv0 : session_inv R0 s0;
  r_inv : session_inv (X ++ R0) s;
  r_advances : advances X s0 s;
  r_awaited : r ∈ awaited s0;
  r_elapsed : clock_now (clock s0) + since <= clock_now (clock s) }.

Lemma round_start r R s : session_inv R s -> r ∈ awaited s -> round r R [] s s 0.
Proof. intros Hi Hr. split; [done|done|done|done|lia]. Qed.

Lemma inv_ticks R s : session_inv R s -> Forall (Z.le 0) (ticks (clock s)).
Proof. intros Hi. apply (e_ticks _ (c_env _ _ _ (i_core _ _ Hi))). Qed.
Lemma awaited_ledger R s x : session_inv R s -> x ∈ awaited s -> x ∈ R.
Proof.
  intros Hi Hx. pose proof (c_ledger _ _ _ (i_core _ _ Hi)) as Hl. unfold owed in Hl. rewrite app_nil_r in Hl.
  rewrite <- Hl. apply elem_of_app. by right.
Qed.

Lemma round_next r R0 X Y s0 s s' since dt : round r R0 X s0 s since -> 0 <= dt ->
  session_inv (Y ++ X ++ R0) s' -> advances Y (advance dt s) s' -> round r R0 (Y ++ X) s0 s' (since + dt).
Proof.
  intros [H1 H2 H3 H4 H5] Hdt Hi Ha. split; [done|by rewrite <- (assoc_L (++))| |done|].
  - etrans; [eapply advances_mono; [|exact H3]; set_solver|]. etrans; [by apply (advance_later _ dt)|].
    eapply advances_mono; [|exact Ha]. set_solver.
  - destruct (w_clock _ _ (a_around _ _ _ Ha)) as [_ Hc]; [cbn; by eapply inv_ticks|]. cbn in Hc. lia.
Qed.

(** What was in flight when the round began has expired by its end. *)
Lemma round_end r R0 X s0 s s1 t since : round r R0 X s0 s since -> NoDup (X ++ R0) -> session_inv (X ++ R0) s1 ->
  advances X s0 s1 -> COAP_EXCHANGE_TIMEOUT <= since -> clock_now (clock s) <= t ->
  Forall (fun p => t < deadline p) (in_flight (ex s1)) -> r ∈ awaited s1 -> (place r s1 < place r s0)%nat.
Proof.
  intros [H1 H2 H3 H4 H5] Hnd Hi Ha Hs Ht HF Hr. apply NoDup_app in Hnd as HR. destruct HR as (_ & Hd & HR).
  eapply (place_down X R0 (X ++ R0)); try done.
  - intros x Hx HxX. by apply (Hd x), (awaited_ledger _ s0).
  - eapply Forall_impl; [apply (e_deadline _ (c_env _ _ _ (i_core _ _ H1)))|]. cbn. lia.
Qed.

(** ** Runs *)

Lemma run_cons dt w wakes s : open s -> run ((dt, w) :: wakes) s =
  if wake_enabled (advance dt s) w then
    match handle_wake w (advance dt s) with
    | (s', Ok _) => run wakes s'
    | (s', Err e) => (s', Err e)
    | (s', Panic f) => (s', Panic f)
    end
  else run wakes (advance dt s).
Proof.
  intros Ho. cbn [SessionDriver.run]. unfold mbind at 1, get, mget. rewrite Ho. unfold mbind at 1, mset. fold (advance dt s).
  unfold mbind at 1. destruct (wake_enabled _ _); [|done]. unfold mbind at 1.
  by destruct (handle_wake w (advance dt s)) as [s' [[]|e|f]].
Qed.

Lemma run_advances wakes s : Forall (fun w => 0 <= w.1) wakes -> advances (reads wakes s) s (run wakes s).1.
Proof.
  intros Hw. revert s. induction Hw as [|[dt w] wakes Hdt _ IH]; intros s.
  { cbn. unfold mbind, get, mget. by destruct (is_closed _). }
  destruct (is_closed (driver s)) eqn:Ho.
  { cbn [SessionDriver.run]. unfold mbind, get, mget. by rewrite Ho. }
  rewrite run_cons by done. cbn [SessionClaims.reads]. rewrite Ho. etrans; [by apply (advance_later _ dt)|].
  destruct (wake_enabled _ _); [|apply IH]. pose proof (evolves_wake w (advance dt s)) as H.
  assert (forall s', advances (wake_replies w) (advance dt s) s' -> advances (wake_replies w ++ reads wakes s') (advance dt s) s') as Hmono.
  { intros s' Hs'. eapply advances_mono; [|exact Hs']. set_solver. }
  destruct (handle_wake w (advance dt s)) as [s' [a|e|f]]; cbn [fst] in *; [|by apply Hmono..].
  etrans; [by apply Hmono|]. eapply advances_mono; [|apply IH]. set_solver.
Qed.

Lemma run_nil s : (run [] s).1 = s.
Proof. cbn. unfold mbind, get, mget. by destruct (is_closed _). Qed.

Lemma gone_stays wakes s R r : wakes_ok wakes -> NoDup (reads wakes s ++ R) -> r ∈ R -> r ∉ awaited s ->
  r ∉ awaited (run wakes s).1.
Proof.
  intros Hw Hnd Hr Hg Hin. apply Hg. eapply awaited_later; [apply run_advances| |exact Hin].
  - eapply Forall_impl; [exact Hw|]. by intros w [? _].
  - by apply (reads_fresh wakes s R Hnd).
Qed.

Lemma answered_in wakes : wakes_ok wakes -> forall r R0 X s0 s since, round r R0 X s0 s since ->
  NoDup (reads wakes s ++ X ++ R0) -> (place r s0 < rounds since wakes)%nat -> r ∉ awaited (run wakes s).1.
Proof.
  intros Hw. induction Hw as [|[dt w] wakes [Hdt Hw] Hws IH]; intros r R0 X s0 s since Hr Hnd Hp; [cbn in Hp; lia|].
  cbn [fst snd] in *. pose proof (r_inv _ _ _ _ _ _ Hr) as Hi.
  assert (r ∈ X ++ R0) as HrR by (apply elem_of_app; right; eapply awaited_ledger; [apply Hr|apply Hr]).
  destruct (is_closed (driver s)) eqn:Ho.
  { cbn [SessionDriver.run]. unfold mbind, get, mget, mret. rewrite Ho. cbn [fst]. intros Hin. rewrite (closed_awaited _ s Hi Ho) in Hin. by inversion Hin. }
  rewrite run_cons by done. cbn [SessionClaims.reads] in Hnd. rewrite Ho in Hnd.
  pose proof (advance_inv _ dt s Hdt Hi) as Hai. set (sA := advance dt s) in *.
  (* a turn that is not counted, and one after which a new round begins *)
  assert (forall s', session_inv (wake_replies w ++ X ++ R0) s' -> advances (wake_replies w) sA s' ->
    NoDup (reads wakes s' ++ wake_replies w ++ X ++ R0) -> (place r s0 < rounds (since + dt) wakes)%nat -> r ∉ awaited (run wakes s').1) as Hgo.
  { intros s' Hi' Ha' Hnd' Hp'. apply (IH r R0 (wake_replies w ++ X) s0 s' (since + dt)); [by eapply round_next| |done].
    by rewrite <- (assoc_L (++) (wake_replies w)). }
  assert (forall s', session_inv (X ++ R0) s' -> NoDup (reads wakes s' ++ X ++ R0) ->
    (r ∈ awaited s' -> place r s' < rounds 0 wakes)%nat -> r ∉ awaited (run wakes s').1) as Hnew.
  { intros s' Hi' Hnd' Hp'. destruct (decide (r ∈ awaited s')) as [Hin|Hout]; [|by eapply gone_stays].
    apply (IH r (X ++ R0) [] s' s' 0); [by apply round_start|done|by apply Hp']. }
  pose proof (round_next r R0 X [] s0 s sA since dt Hr Hdt Hai (advances_refl _ sA)) as HrA.
  destruct (wake_enabled sA w) eqn:Hen.
  - pose proof (handle_wake_inv config border_agent_ip _ w sA Hai Ho Hen Hw) as Hh. pose proof (evolves_wake w sA) as He.
    unfold wp in Hh. destruct (handle_wake w sA) as [s' [[]|e|f]] eqn:Hsw; [|done..]. cbn [fst] in *.
    assert (NoDup (reads wakes s' ++ wake_replies w ++ X ++ R0)) as Hnd'.
    { by rewrite (assoc_L (++)), (Permutation_app_comm (reads wakes s')). }
    destruct w as [c|d|]; [by apply Hgo..|]. cbn [rounds] in Hp. cbn [wake_replies app] in Hnd'.
    destruct (COAP_EXCHANGE_TIMEOUT <=? since + dt) eqn:Hc; [|by apply Hgo]. zbool. apply Hnew; [done|done|]. intros Hin.
    destruct (timer_turn _ sA Hai Ho Hen) as (s2 & s3 & Hs3 & I2 & I3 & A2 & A3 & HF). rewrite Hsw in Hs3. injection Hs3 as <-.
    destruct HF as [Hcl|HF]; [rewrite (closed_awaited _ s' I3 Hcl) in Hin; by inversion Hin|].
    assert (NoDup (X ++ R0)) as HndX by (by apply (reads_fresh wakes s')).
    assert (r ∈ awaited s2) as Hin2 by (eapply awaited_later; [exact A3|set_solver|done]).
    assert (place r s2 < place r s0)%nat as H1.
    { eapply (round_end r R0 X s0 sA s2 (clock_now (clock sA)) (since + dt)); try done.
      etrans; [apply (r_advances _ _ _ _ _ _ HrA)|]. eapply advances_mono; [|exact A2]. set_solver. }
    assert (place r s' <= place r s2)%nat as H2 by (eapply (place_mono [] (X ++ R0) (X ++ R0)); [..|set_solver|done|done]; done).
    lia.
  - destruct w as [c|d|]; [by apply (IH r R0 X s0 sA (since + dt))..|].
    cbn [rounds] in Hp. destruct (COAP_EXCHANGE_TIMEOUT <=? since + dt) eqn:Hc; zbool.
    + apply Hnew; [done|done|]. intros Hin. assert (NoDup (X ++ R0)) as HndX by (by apply (reads_fresh wakes sA)).
      assert (place r sA < place r s0)%nat; [|lia].
      eapply (round_end r R0 X s0 sA sA (clock_now (clock sA)) (since + dt)); try done; [apply HrA|by apply timer_not_due].
    + by apply Hgo.
Qed.

(** C6: Every command the task has read is answered: at any point of a run, a
    command with [place r s] requests before it in the line has its answer once
    the timers have run that many times and once more, each time twelve seconds
    or more after the last, whatever other commands, datagrams, failures and
    timers come in between. *)
Theorem commands_are_answered s0 before s after r :
  initial s0 -> wakes_ok before -> run before s0 = (s, Ok tt) -> r ∈ reads before s0 ->
  wakes_ok after -> NoDup (reads after s ++ reads before s0) -> (place r s < rounds 0 after)%nat ->
  exists s', run after s = (s', Ok tt) /\ r ∈ replied (log s').
Proof.
  intros H0 Hb Hrun Hr Ha Hnd Hp.
  destruct (run_inv config border_agent_ip [] before s0 (initial_inv _ H0) Hb) as (s1 & Hr1 & Hi). rewrite Hrun in Hr1. injection Hr1 as <-.
  rewrite app_nil_r in Hi. destruct (run_inv config border_agent_ip _ after s Hi Ha) as (s' & Hr' & Hi').
  exists s'. split; [done|]. assert (r ∉ awaited s') as Hout.
  { assert (s' = (run after s).1) as -> by (by rewrite Hr').
    destruct (decide (r ∈ awaited s)) as [Hin|Hout]; [|by eapply gone_stays].
    eapply (answered_in after Ha r (reads before s0) [] s s 0); [by apply round_start|done|done]. }
  pose proof (c_ledger _ _ _ (i_core _ _ Hi')) as Hl. unfold owed in Hl. rewrite app_nil_r in Hl.
  assert (r ∈ replied (log s') ++ awaited s') as H by (unfold awaited; rewrite Hl; apply elem_of_app; by right).
  apply elem_of_app in H as [H|H]; [done|by destruct Hout].
Qed.
End Liveness.

Import ToySession.

(** Two requests, of which the second waits behind the first, and a border agent
    that has fallen silent. *)
Definition silent_start : State := (run toy_config "fd00::1" (take 4 toy_wakes) toy_start : State * result Error unit).1.
Lemma commands_are_answered_witness :
  place 2 silent_start = 1%nat /\
  exists s, run toy_config "fd00::1" [(seconds 13, WakeTimer); (seconds 13, WakeTimer)] silent_start = (s, @Ok Error _ tt) /\
    2%nat ∈ replied (log s).
Proof.
  split; [vm_compute; reflexivity|].
  apply (commands_are_answered toy_config "fd00::1" toy_start (take 4 toy_wakes)).
  - apply toy_initial.
  - apply Forall_take, toy_wakes_ok.
  - assert ((run toy_config "fd00::1" (take 4 toy_wakes) toy_start : State * result Error unit).2 = Ok tt) as H by (vm_compute; reflexivity).
    unfold silent_start. revert H. destruct (run toy_config "fd00::1" (take 4 toy_wakes) toy_start) as [s r].
    cbn. intros ->. reflexivity.
  - by_decide.
  - repeat apply Forall_cons_2; try apply Forall_nil_2; split; cbn; try done; by_decide.
  - by_decide.
  - vm_compute. lia.
Defined.
