(* ===== verification/SessionAnswers.v ===== *)
(** * SessionAnswers: every answer is for the request it is given to

    What the session task of [SessionDriver] sends to a reply channel is of the
    kind that the command asked for, and a response that is handed to a handle
    carries the token of a message that was sent for that very request, on the
    way the request asked for.  [books] is the invariant: what is known of the
    reply channels of the requests in flight, queued and answered. *)
From stdpp Require Import gmap.
From S2P Require Import Prelude Text Tlv Errors Dataset Coap NetDiag Messages Joiner.
From S2P Require Import Commissioner SessionDriver SessionCore SessionInvariant SessionClaims SessionProgress SessionJoiners.

(** What a reply channel was created for. *)
Inductive Kind := KExchange (o : Outbound) | KPetition | KKeepAlive | KResign.

Section Answers.
Context {JH : JoinerHandler} {OR : OsRng} {JS : JoinerSessions}.
Context (config : CommissionerConfig) (border_agent_ip : string).

Notation ex s := (exchanges (driver s)).

(** [m] was sent on the way to [d]. *)
Definition wired (l : list Effect) (m : CoapMessage) (d : Destination) : Prop :=
  match d with
  | BorderAgent => Sent m ∈ l
  | Mesh a p => exists inner outer mid tok, CoapMessage_encode m = Ok inner /\ udp_tx_request 0 [] a p inner = Ok outer /\
      Sent (set_identity mid tok outer) ∈ l
  end.

(** [m] answers a message that was sent for [o]. *)
Definition responds (l : list Effect) (o : Outbound) (m : CoapMessage) : Prop :=
  is_response m = true /\ exists mid, wired l (set_identity mid (token m) (ob_message o)) (ob_destination o).

Definition fits (l : list Effect) (o : Outbound) (outcome : Error + option CoapMessage) : Prop :=
  match outcome with
  | inl _ => True
  | inr None => expect_response o = false
  | inr (Some m) => expect_response o = true /\ responds l o m
  end.

Definition command_kinds (c : Command) : list (nat * Kind) :=
  match c with
  | CmdExchange _ o r => [(r, KExchange o)]
  | CmdPetition r => [(r, KPetition)]
  | CmdKeepAlive r => [(r, KKeepAlive)]
  | CmdResign r => [(r, KResign)]
  | _ => []
  end.
Definition wake_kinds (w : Wake) : list (nat * Kind) :=
  match w with WakeCommand (Some c) => command_kinds c | _ => [] end.

Section Books.
(** The reply channels and what they are for. *)
Context (K : nat -> Kind -> Prop).

Definition known (c : Completion) : Prop :=
  match c with
  | CCaller _ r => exists o, K r (KExchange o)
  | CPetition r => K r KPetition
  | CKeepAlive x => forall r, x = Some r -> K r KKeepAlive
  | CResign x => forall r, x = Some r -> K r KResign
  end.
Definition known_queued (q : Outbound * Completion) : Prop :=
  match q.2 with CCaller _ r => K r (KExchange q.1) | c => known c end.
Definition known_pending (l : list Effect) (p : PendingExchange) : Prop :=
  match completion p with
  | CCaller _ r => exists o mid tok, K r (KExchange o) /\ expect_response o = true /\ destination p = ob_destination o /\
      request p = set_identity mid tok (ob_message o) /\ wired l (request p) (destination p)
  | c => known c
  end.
Definition known_outcome (l : list Effect) (c : Completion) (outcome : Error + option CoapMessage) : Prop :=
  match c with CCaller _ r => exists o, K r (KExchange o) /\ fits l o outcome | c => known c end.
Definition known_reply (l : list Effect) (r : nat) (a : Answer) : Prop :=
  match a with
  | AnExchange outcome => exists o, K r (KExchange o) /\ fits l o outcome
  | AnPetition _ => K r KPetition
  | AnKeepAlive _ => K r KKeepAlive
  | AnResign _ => K r KResign
  | AnDropped => True
  end.

(** [L] is a log of the past. *)
Record books (L : list Effect) (s : State) : Prop := {
  b_past : exists l, log s = L ++ l;
  b_flight : Forall (known_pending (log s)) (in_flight (ex s));
  b_queued : Forall known_queued (queued (ex s));
  b_replies : forall r a, Replied r a ∈ log s -> known_reply (log s) r a }.

(** ** Longer logs *)

Lemma wired_app l k m d : wired l m d -> wired (l ++ k) m d.
Proof.
  destruct d; cbn; [intros H; apply elem_of_app; by left|].
  intros (i & o & mid & tok & H1 & H2 & H3). exists i, o, mid, tok. split_and!; [done..|]. apply elem_of_app. by left.
Qed.
Lemma fits_app l k o x : fits l o x -> fits (l ++ k) o x.
Proof.
  destruct x as [|[m|]]; cbn; [done| |done]. intros (H & Hr & mid & Hw). split; [done|]. split; [done|]. exists mid.
  by apply wired_app.
Qed.
Lemma pending_app l k p : known_pending l p -> known_pending (l ++ k) p.
Proof.
  unfold known_pending. destruct (completion p); try done. intros (o & mid & tok & H1 & H2 & H3 & H4 & H5).
  exists o, mid, tok. split_and!; try done. by apply wired_app.
Qed.
Lemma reply_app l k r a : known_reply l r a -> known_reply (l ++ k) r a.
Proof. destruct a; cbn; try done. intros (o & H1 & H2). exists o. split; [done|]. by apply fits_app. Qed.
Lemma outcome_app l k c x : known_outcome l c x -> known_outcome (l ++ k) c x.
Proof. destruct c; cbn; try done. intros (o & H1 & H2). exists o. split; [done|]. by apply fits_app. Qed.

Lemma known_fails l c e : known c -> known_outcome l c (inl e).
Proof. destruct c; cbn; try done. intros [o Ho]. by exists o. Qed.
Lemma pending_fails l p : known_pending l p -> known (completion p).
Proof. unfold known_pending. destruct (completion p); try done. intros (o & ? & ? & ? & _). by exists o. Qed.
Lemma queued_fails q : known_queued q -> known q.2.
Proof. unfold known_queued. destruct (q.2); try done. by exists q.1. Qed.

Lemma books_past L s : books L s -> books (log s) s.
Proof. intros [H1 H2 H3 H4]. split; try done. exists []. by rewrite app_nil_r. Qed.
Lemma books_from L L' s : (exists l, L' = L ++ l) -> books L' s -> books L s.
Proof. intros [l ->] [[k Hk] H2 H3 H4]. split; try done. exists (l ++ k). by rewrite Hk, (assoc_L (++)). Qed.

(** ** Methods that answer nobody *)

Lemma books_aside L s s' : aside s s' -> books L s -> books L s'.
Proof.
  intros [He _ (l & Hl & Hm)] [(k & Hk) H2 H3 H4]. split; rewrite ?He, ?Hl.
  - exists (k ++ l). by rewrite Hk, (assoc_L (++)).
  - eapply Forall_impl; [exact H2|]. intros p. by apply pending_app.
  - done.
  - intros r a Hr. apply reply_app, H4. apply elem_of_app in Hr as [Hr|Hr]; [done|].
    rewrite Forall_forall in Hm. by specialize (Hm _ Hr).
Qed.

Notation keeps_books L m := (keeps (books L) m).

Lemma keeps_frames L {E A} (m : M State E A) : frames m -> keeps_books L m.
Proof. intros Hm s Hs. eapply books_aside; [apply Hm|done]. Qed.
Lemma keeps_attempt L {E E' A} (m : M State E' A) : keeps_books L m -> keeps_books L (@attempt _ _ _ E E' A m).
Proof. intros Hm s Hs. specialize (Hm s Hs). unfold attempt. by destruct (m s) as [s1 [a|e|f]]. Qed.
Lemma keeps_reply L {E} r a : known_reply L r a -> keeps_books L (@send_reply_channel _ _ _ E r a).
Proof.
  intros Ha s [(k & Hk) H2 H3 H4]. split; cbn.
  - exists (k ++ [Replied r a]). by rewrite Hk, (assoc_L (++)).
  - eapply Forall_impl; [exact H2|]. intros p. by apply pending_app.
  - done.
  - intros r' a' Hr. apply elem_of_snoc in Hr as [Hr|[= -> ->]]; [by apply reply_app, H4|].
    rewrite Hk, <- (assoc_L (++)). by apply reply_app.
Qed.
Lemma keeps_reply_some L {E} o a : (forall r, o = Some r -> known_reply L r a) -> keeps_books L (@reply_some _ _ _ E o a).
Proof. intros Ha. destruct o as [r|]; [apply keeps_reply; by apply Ha|by intros s]. Qed.
Lemma keeps_drop L {E} c : keeps_books L (@drop_completion _ _ _ E c).
Proof. apply keeps_reply_some. by intros r _. Qed.
End Books.
End Answers.

#[export] Hint Resolve keeps_attempt keeps_drop : evolve.
Ltac keep :=
  repeat first
    [ progress intros
    | solve [auto 3 with evolve]
    | apply keeps_frames; solve [frame]
    | apply keeps_bind
    | apply keeps_attempt
    | case_match ].

Section Methods.
Context {JH : JoinerHandler} {OR : OsRng} {JS : JoinerSessions}.
Context (config : CommissionerConfig) (border_agent_ip : string).
Context (K : nat -> Kind -> Prop).

Notation ex s := (exchanges (driver s)).
Notation keeps_books L m := (keeps (books K L) m).

Lemma books_driver L s f : ex (upd_driver f s) = ex s -> books K L s -> books K L (upd_driver f s).
Proof. intros He. apply books_aside. by apply aside_same. Qed.
Lemma books_exchanges L s e : Forall (known_pending K (log s)) (in_flight e) -> Forall (known_queued K) (queued e) ->
  books K L s -> books K L (upd_driver (d_exchanges e) s).
Proof. intros H1 H2 [B1 B2 B3 B4]. by split. Qed.

(** ** Completing exchanges *)

Section Recursive.
Context {E : Type} (complete : Completion -> Error + option CoapMessage -> M State E unit).
Context (Hrec : forall L c o, known_outcome K L c o -> keeps_books L (complete c o)).

Lemma keeps_fail L c e : known K c -> keeps_books L (complete c (inl e)).
Proof. intros Hc. by apply Hrec, known_fails. Qed.
Lemma keeps_fail_each L l e : Forall (known K) l -> keeps_books L (fail_each complete l e).
Proof.
  induction 1 as [|c l Hc _ IH]; cbn [fail_each]; [keep|]. apply keeps_bind; [by apply keeps_fail|]. by intros _.
Qed.
Lemma keeps_fail_all L e : keeps_books L (fail_all complete e).
Proof.
  intros s Hs. unfold fail_all, mbind at 1, get, mget, drain. unfold mbind at 1, modify, mset.
  apply keeps_fail_each; [|by apply books_exchanges]. apply Forall_app. split; apply Forall_map.
  - eapply Forall_impl; [apply Hs|]. intros p. by apply pending_fails.
  - eapply Forall_impl; [apply Hs|]. intros q. by apply queued_fails.
Qed.
Lemma keeps_end L reason : keeps_books L (end_session complete reason).
Proof. pose proof keeps_fail_all. unfold end_session. keep. Qed.
Lemma keeps_transport L e : keeps_books L (transport_failed complete e).
Proof. apply keeps_end. Qed.
Lemma keeps_fail_send L c e : known K c -> keeps_books L (fail_send complete c e).
Proof. intros Hc. pose proof keeps_transport. pose proof keeps_fail. unfold fail_send. keep. Qed.

(** What was sent is in the log. *)
Lemma link_send_logs w s s' : @link_send _ _ _ w s = (s', Ok tt) -> Sent w ∈ log s'.
Proof.
  unfold link_send, mbind, get, mget. destruct (negb _); [done|]. unfold mlift, mbind.
  destruct (CoapMessage_encode w); [|done..]. unfold send_application_data.
  destruct (send_results s) as [|[e|] l]; [|done|]; intros [= <-]; apply elem_of_app; right; by left.
Qed.
Lemma assign_identity_form {E'} m s s' m' : @assign_identity _ _ _ E' m s = (s', Ok m') -> exists mid tok, m' = set_identity mid tok m.
Proof.
  unfold assign_identity, mbind. destruct (modify _ s) as [s1 [[]|e|f]]; [|done..].
  destruct (get _ s1) as [s2 [mid|e|f]]; [|done..]. destruct (unused_token s2) as [s3 [tok|e|f]]; [|done..].
  intros [= _ <-]. by exists mid, tok.
Qed.
Lemma wire_message_form m d s s' w : @wire_message _ _ _ m d s = (s', Ok w) -> forall l, Sent w ∈ l -> wired l m d.
Proof.
  unfold wire_message. destruct d as [|a p]; [by intros [= _ <-]|]. unfold mbind, mlift.
  destruct (CoapMessage_encode m) as [inner| |] eqn:Hi; [|done..].
  destruct (udp_tx_request 0 [] a p inner) as [outer| |] eqn:Ho; [|done..].
  intros (mid & tok & ->)%assign_identity_form l Hl. by exists inner, outer, mid, tok.
Qed.

Definition known_start (ob : Outbound) (c : Completion) : Prop := known_queued K (ob, c).

Lemma keeps_start L ob c : known_start ob c -> keeps_books L (start complete ob c).
Proof.
  intros Hc s Hs. assert (known K c) as Hk by exact (queued_fails _ _ Hc). unfold start.
  unfold mbind at 1. pose proof (keeps_frames K L (assign_identity (ob_message ob)) (frames_assign (E := E) _) s Hs) as H1.
  destruct (assign_identity (ob_message ob) s) as [s1 [m|e|f]] eqn:Hm; cbn [fst] in *; [|done..].
  apply assign_identity_form in Hm as (mid & tok & Hm).
  unfold mbind at 1. pose proof (keeps_attempt K L (E := E) _ (keeps_frames K L _ (frames_wire m (ob_destination ob))) s1 H1) as H2.
  unfold attempt at 1 in H2. unfold attempt at 1. destruct (wire_message m (ob_destination ob) s1) as [s2 [w|e|f]] eqn:Hw; cbn [fst] in *; [|by apply keeps_fail|done].
  pose proof (wire_message_form _ _ _ _ _ Hw) as Hwired. clear Hw.
  unfold mbind at 1. pose proof (keeps_frames K L (link_send_request w) (frames_send w) s2 H2) as H3.
  unfold attempt. destruct (link_send_request w s2) as [s3 [[]|e|f]] eqn:Hsend; cbn [fst] in *; [|by apply keeps_fail_send|done].
  apply link_send_logs in Hsend. destruct (negb (expect_response ob)) eqn:Hx; zbool.
  { apply (Hrec L); [|done]. destruct c as [id r| | |]; cbn in *; try done. by exists ob. }
  unfold mbind at 1. pose proof (keeps_frames K (log s3) now (frames_now (E := E)) s3 (books_past _ _ _ H3)) as H4.
  destruct (now s3) as [s4 [t|e|f]]; cbn [fst] in *; try (by eapply books_from; [apply H3|]).
  match goal with |- context [let* retransmit := ?m in _] =>
    assert (keeps_books (log s3) m) as Hr by keep; specialize (Hr s4 H4); unfold mbind at 1; destruct (m s4) as [s5 [r|e|f]] end;
    cbn [fst] in *; try (by eapply books_from; [apply H3|]).
  eapply books_from; [apply H3|]. cbv zeta. apply books_exchanges; [|apply Hr|done]. cbn [in_flight].
  apply Forall_app. split; [apply Hr|]. constructor; [|done]. unfold known_pending. cbn [completion].
  unfold known_start, known_queued in Hc. cbn in Hc. destruct c as [id r'| | |]; try done.
  exists ob, mid, tok. split_and!; [done|done|done|exact Hm|]. cbn [request destination]. apply Hwired.
  destruct (b_past _ _ _ Hr) as [k ->]. apply elem_of_app. by left.
Qed.

Lemma keeps_send_loop L n : keeps_books L (send_loop complete n).
Proof.
  induction n as [|n IH]; intros s Hs; cbn [send_loop]; unfold mbind at 1, get, mget; destruct (_ <? _); try done;
    destruct (queued (ex s)) as [|[ob c] rest] eqn:Hq; try done.
  pose proof (b_queued _ _ _ Hs) as HQ. rewrite Hq in HQ. apply Forall_cons in HQ as [Hc HQ].
  unfold mbind at 1, modify, mset. unfold mbind at 1. set (s1 := upd_driver _ s).
  assert (books K L s1) as H1 by (apply books_exchanges; [apply Hs|done|done]).
  pose proof (keeps_start L ob c Hc s1 H1) as H2. destruct (start complete ob c s1) as [s2 [a|e|f]]; cbn in *; [|done..].
  unfold mbind, get, mget. destruct (is_closed _); [done|]. by apply IH.
Qed.
Lemma keeps_send_queued L : keeps_books L (send_queued complete).
Proof. intros s. apply keeps_send_loop. Qed.

Lemma keeps_keep_alive L o x : known K (CKeepAlive x) -> keeps_books L (keep_alive_outcome config complete o x).
Proof.
  intros Hx. pose proof keeps_end. pose proof (fun a => keeps_reply_some K L (E := E) x (AnKeepAlive a) Hx).
  unfold keep_alive_outcome. keep.
Qed.
Lemma keeps_body L c o : known_outcome K L c o -> keeps_books L (complete_body config complete c o).
Proof.
  intros Hc. pose proof keeps_send_queued. pose proof keeps_end. destruct c as [id r|r|x|x]; cbn [complete_body].
  - apply keeps_bind; [by apply keeps_reply|keep].
  - apply keeps_bind; [keep|]. intros a. by apply keeps_reply.
  - by apply keeps_keep_alive.
  - apply keeps_bind; [keep|]. intros a. apply keeps_bind; [keep|]. intros _. by apply keeps_reply_some.
Qed.
End Recursive.

Lemma keeps_complete {E} L c o : known_outcome K L c o -> keeps_books L (@complete _ _ _ config E c o).
Proof.
  intros Hc s. unfold complete. generalize (need s) as n. intros n. revert L c o Hc s.
  induction n as [|n IH]; intros L c o Hc s; [done|]. by apply keeps_body.
Qed.
Lemma keeps_queued {E} L : keeps_books L (send_queued (@complete _ _ _ config E)).
Proof. apply keeps_send_queued, keeps_complete. Qed.
Lemma keeps_ending {E} L reason : keeps_books L (end_session (@complete _ _ _ config E) reason).
Proof. apply keeps_end, keeps_complete. Qed.
Lemma keeps_failing {E} L e : keeps_books L (fail_all (@complete _ _ _ config E) e).
Proof. apply keeps_fail_all, keeps_complete. Qed.
#[local] Hint Resolve keeps_queued keeps_ending keeps_failing : evolve.
#[local] Hint Extern 4 (keeps _ (transport_failed _ _)) => apply keeps_ending : evolve.

(** ** Changing the exchanges in flight *)

Lemma Forall_remove_at {A} (P : A -> Prop) i l : Forall P l -> Forall P (remove_at i l).
Proof. apply sublist_Forall, sublist_remove_at. Qed.
Lemma Forall_set {A} (P : A -> Prop) i x l : Forall P l -> P x -> Forall P (<[i:=x]> l).
Proof.
  intros Hl Hx. revert i. induction Hl as [|y l Hy Hl IH]; intros [|i]; cbn; constructor; auto.
Qed.
Lemma keeps_remove {E} L i : keeps_books L (@modify _ _ _ E (remove_in_flight i)).
Proof. intros s Hs. apply books_exchanges; [apply Forall_remove_at, Hs|apply Hs|done]. Qed.
#[local] Hint Resolve keeps_remove : evolve.
Lemma books_set L s i p p' : books K L s -> in_flight (ex s) !! i = Some p ->
  completion p' = completion p -> request p' = request p -> destination p' = destination p ->
  books K L (upd_driver (set_in_flight i p') s).
Proof.
  intros Hs Hi H1 H2 H3. apply books_exchanges; [|apply Hs|done]. apply Forall_set; [apply Hs|].
  pose proof (Forall_lookup_1 _ _ _ _ (b_flight _ _ _ Hs) Hi) as Hp. unfold known_pending in *. by rewrite H1, H2, H3.
Qed.

(** ** Timers *)

Lemma keeps_timer_step {E} L t i p (continue : nat -> M State E bool) s : (forall j, keeps_books L (continue j)) ->
  books K L s -> in_flight (ex s) !! i = Some p -> books K L (timer_step config t i p continue s).1.
Proof.
  intros Hk Hs Hi. unfold timer_step.
  pose proof (Forall_lookup_1 _ _ _ _ (b_flight _ _ _ Hs) Hi) as Hp. apply pending_fails in Hp.
  destruct (deadline p <=? t).
  { revert s Hs Hi. match goal with |- forall s, _ -> _ -> books K L (?m s).1 => enough (keeps_books L m) as H by (intros; by apply H) end.
    apply keeps_bind; [keep|]. intros _. apply keeps_bind; [by apply keeps_complete, known_fails|]. keep. }
  destruct (due (retry_at p) t); [|by apply Hk].
  assert (forall s1, aside s s1 -> books K L ((let* _ := @modify _ _ _ E (set_in_flight i (retransmitted t p)) in continue (S i)) s1).1) as Hset.
  { intros s1 H1. unfold mbind, modify, mset. apply Hk. eapply books_set; [by eapply books_aside|by rewrite (s_exchanges _ _ H1)|..];
      unfold retransmitted; by destruct (retransmit p). }
  apply (bind_aside (books K L)); [frame|intros; by eapply books_aside|]. intros [e|[]] s1 H1; [|by apply Hset].
  destruct (is_transport_error e); [|by apply Hset]. pose proof (books_aside K L _ _ H1 Hs) as Hs1. clear H1. revert s1 Hs1.
  match goal with |- forall s, _ -> books K L (?m s).1 => enough (keeps_books L m) as H by (intros; by apply H) end. keep.
Qed.
Lemma keeps_timer_loop {E} L n t i : keeps_books L (@timer_loop _ _ _ config E n t i).
Proof.
  revert i. induction n as [|n IH]; intros i s Hs; cbn [timer_loop]; unfold mbind at 1, get, mget;
    destruct (in_flight (ex s) !! i) as [p|] eqn:Hi; try done. by apply keeps_timer_step.
Qed.
#[local] Hint Resolve keeps_timer_loop : evolve.
Lemma keeps_exchange_timers {E} L : keeps_books L (@run_exchange_timers _ _ _ config E).
Proof. unfold run_exchange_timers. keep. Qed.

(** ** Answers *)

Lemma keeps_acknowledge {E} L m b : keeps_books L (@acknowledge _ _ _ E m b).
Proof.
  intros s Hs. unfold acknowledge, mbind, get, mget. destruct (position _ _) as [i|]; [|done].
  destruct (in_flight (ex s) !! i) as [p|] eqn:Hi; [|done]. by eapply books_set.
Qed.
#[local] Hint Resolve keeps_acknowledge : evolve.

(** The exchange that a message answers, with what is known of it. *)
Definition taken_by (l : list Effect) (m : CoapMessage) (p : PendingExchange) : Prop :=
  known_pending K l p /\ (coap_ty m = Reset \/ is_response m = true /\ token m = token (request p)).
Lemma take_answered_taken {E} L m b s : books K L s ->
  let '(s', r) := @take_answered _ _ _ E m b s in
  books K L s' /\ forall p, r = Ok (Some p) -> taken_by (log s) m p /\ log s' = log s.
Proof.
  intros Hs. unfold take_answered, mbind at 1, get, mget. destruct (position _ _) as [i|] eqn:Hpos; [|by split].
  destruct (position_Some _ _ _ Hpos) as (p & Hi & Hp). unfold mbind, modify, mset, mret.
  split; [by apply (keeps_remove (E := E) L i s)|]. rewrite Hi. intros p' [= <-]. split; [|done]. split.
  - by apply (Forall_lookup_1 _ _ _ _ (b_flight _ _ _ Hs) Hi).
  - unfold answered_by in Hp. apply andb_true_iff in Hp as [_ Hp]. apply orb_true_iff in Hp as [Hp|Hp].
    + left. unfold is_reset_for in Hp. zbool. by destruct (coap_ty m).
    + right. apply andb_true_iff in Hp as [H1 H2]. unfold vec_eqb in H2. by apply bool_decide_eq_true in H2.
Qed.

Lemma keeps_deliver l m p ack : taken_by l m p -> frames ack -> keeps_books l (deliver config (completion p) m ack).
Proof.
  intros [Hp Hm] Ha. pose proof (pending_fails K _ _ Hp) as Hk. unfold deliver.
  destruct (bool_decide (coap_ty m = Reset)) eqn:Hr; [by apply keeps_complete, known_fails|].
  apply keeps_bind; [unfold or_drop; keep|]. intros _. apply keeps_complete. apply bool_decide_eq_false in Hr.
  destruct Hm as [Hm|[H1 H2]]; [done|]. unfold known_pending in Hp. destruct (completion p); try done.
  destruct Hp as (o & mid & tok & P1 & P2 & P3 & P4 & P5). exists o. split; [done|]. split; [done|]. split; [done|].
  exists mid. rewrite P3, P4 in P5. rewrite H2, P4. done.
Qed.
Lemma keeps_taken L m b ack (k : M State Error unit) : frames ack -> keeps_books L k ->
  keeps_books L (let* pending := take_answered m b in
    match pending with Some p => deliver config (completion p) m ack | None => k end).
Proof.
  intros Ha Hk s Hs. pose proof (take_answered_taken (E := Error) L m b s Hs) as Ht. unfold mbind.
  destruct (take_answered m b s) as [s1 [[p|]|e|f]]; [|apply Hk; by destruct Ht|by destruct Ht..].
  destruct Ht as [H1 H2]. destruct (H2 p eq_refl) as [H3 H4]. eapply books_from; [apply Hs|].
  apply (keeps_deliver (log s) m p ack H3 Ha). rewrite <- H4. by eapply books_past.
Qed.

#[local] Hint Extern 3 (keeps _ (mbind (take_answered _ _) _)) => apply keeps_taken; [solve [frame]|solve [keep]] : evolve.
Lemma keeps_route_direct L m : keeps_books L (route_direct config border_agent_ip m).
Proof. unfold route_direct. keep. Qed.
Lemma keeps_route_proxied L u m : keeps_books L (route_proxied config u m).
Proof. unfold route_proxied. keep. Qed.
#[local] Hint Resolve keeps_route_direct keeps_route_proxied : evolve.
Lemma keeps_datagram {E} L d : keeps_books L (@handle_datagram _ _ _ config border_agent_ip E d).
Proof. unfold handle_datagram, route_incoming. keep. Qed.
Lemma keeps_failed {E} L e : keeps_books L (@receive_failed _ _ _ config E e).
Proof. unfold receive_failed. keep. Qed.
#[local] Hint Resolve keeps_exchange_timers keeps_datagram keeps_failed : evolve.

(** ** Commands *)

Lemma submit_books {E} L ob id r : K r (KExchange ob) -> keeps_books L (@submit _ _ _ config E ob (CCaller id r)).
Proof.
  intros Hr. unfold submit. apply keeps_bind; [|keep]. intros s Hs. apply books_exchanges; [apply Hs| |done].
  cbn. apply Forall_app. split; [apply Hs|]. by constructor.
Qed.
Lemma keeps_withdraw {E} L id : keeps_books L (@withdraw _ _ _ config E id).
Proof.
  intros s Hs. unfold withdraw, mbind at 1, get, mget. destruct (Exchanges_withdraw id (ex s)) as [e o] eqn:Hw.
  unfold mbind at 1, modify, mset. assert (books K L (upd_driver (d_exchanges e) s)) as H1.
  { unfold Exchanges_withdraw in Hw. apply books_exchanges; [| |done];
      repeat case_match; injection Hw as <- <-; cbn; first [apply Hs|apply Forall_remove_at, Hs]. }
  revert H1. generalize (upd_driver (d_exchanges e) s). clear s Hs Hw.
  match goal with |- forall s, _ -> books K L (?m s).1 => enough (keeps_books L m) as H by apply H end. keep.
Qed.
#[local] Hint Resolve keeps_withdraw : evolve.

Lemma keeps_control {E} L ob c : is_application c = false -> known K c -> keeps_books L (@start _ _ _ E (complete config) ob c).
Proof. intros Hc Hk. apply keeps_start; [apply keeps_complete|]. by destruct c. Qed.
Lemma keeps_petition {E} L r : K r KPetition -> keeps_books L (@petition _ _ _ config E r).
Proof.
  intros Hr. pose proof (fun a => keeps_reply K L (E := E) r (AnPetition a) Hr).
  pose proof (fun ob => keeps_control (E := E) L ob (CPetition r) eq_refl Hr). unfold petition. keep.
Qed.
Lemma keeps_send_keep_alive {E} L x : known K (CKeepAlive x) -> keeps_books L (@send_keep_alive _ _ _ config E (CKeepAlive x)).
Proof.
  intros Hx. pose proof (fun ob => keeps_control (E := E) L ob (CKeepAlive x) eq_refl Hx).
  pose proof (fun e => @keeps_complete E L (CKeepAlive x) (inl e) Hx). unfold send_keep_alive. keep.
Qed.
Lemma keeps_resign {E} L x : known K (CResign x) -> keeps_books L (@resign _ _ _ config E x).
Proof.
  intros Hx. pose proof (fun ob => keeps_control (E := E) L ob (CResign x) eq_refl Hx).
  pose proof (fun e => @keeps_complete E L (CResign x) (inl e) Hx).
  pose proof (fun a => keeps_reply_some K L (E := E) x (AnResign a) Hx). unfold resign. keep.
Qed.

Lemma keeps_command {E} L c : (forall r k, (r, k) ∈ command_kinds c -> K r k) -> keeps_books L (@handle_command _ _ _ config E c).
Proof.
  destruct c as [id ob r|id|r|r|r|h]; cbn [handle_command command_kinds]; intros Hc.
  - assert (K r (KExchange ob)) as Hx by (apply Hc; by left).
    pose proof (fun e => keeps_reply K L (E := E) r (AnExchange (inl e)) (ex_intro _ ob (conj Hx I))).
    pose proof (submit_books (E := E) L ob id r Hx). keep.
  - keep.
  - apply keeps_petition. apply Hc. by left.
  - assert (K r KKeepAlive) as Hx by (apply Hc; by left). pose proof (fun a => keeps_reply K L (E := E) r (AnKeepAlive a) Hx).
    assert (known K (CKeepAlive (Some r))) as Hk by (by intros r' [= <-]). pose proof (keeps_send_keep_alive (E := E) L _ Hk). keep.
  - assert (K r KResign) as Hx by (apply Hc; by left). pose proof (fun a => keeps_reply K L (E := E) r (AnResign a) Hx).
    assert (known K (CResign (Some r))) as Hk by (by intros r' [= <-]). pose proof (keeps_resign (E := E) L _ Hk). keep.
  - keep.
Qed.

Lemma keeps_wake {E} L w : (forall r k, (r, k) ∈ wake_kinds w -> K r k) -> keeps_books L (@handle_wake _ _ _ config border_agent_ip E w).
Proof.
  assert (known K (CResign None)) as H1 by done. assert (known K (CKeepAlive None)) as H2 by done.
  pose proof (keeps_resign (E := E) L _ H1). pose proof (keeps_send_keep_alive (E := E) L _ H2).
  destruct w as [[c|]|[e|d]|]; cbn [handle_wake wake_kinds]; intros Hw.
  - by apply keeps_command.
  - unfold on_handles_dropped. keep.
  - keep.
  - keep.
  - unfold run_timers. keep.
Qed.
End Methods.

(** ** Runs *)

Section Runs.
Context {JH : JoinerHandler} {OR : OsRng} {OL : OsRngLaws} {JS : JoinerSessions} {JL : JoinerSessionsLaws}.
Context (config : CommissionerConfig) (border_agent_ip : string).
Notation run := (@run _ _ _ config border_agent_ip Error).
Notation handle_wake := (@handle_wake _ _ _ config border_agent_ip Error).

(** The reply channels of the commands the task reads, with what they are for. *)
Fixpoint asked (wakes : list (Z * Wake)) (s : State) : list (nat * Kind) :=
  if is_closed (driver s) then []
  else
    match wakes with
    | [] => []
    | (dt, w) :: wakes =>
        let s := advance dt s in
        if wake_enabled s w then wake_kinds w ++ asked wakes (handle_wake w s).1 else asked wakes s
    end.

Lemma keeps_run K L wakes s : (forall r k, (r, k) ∈ asked wakes s -> K r k) -> books K L s -> books K L (run wakes s).1.
Proof.
  revert s. induction wakes as [|[dt w] wakes IH]; intros s Hk Hs; cbn [SessionDriver.run asked] in *;
    unfold mbind at 1, get, mget; destruct (is_closed (driver s)) eqn:Ho; try done.
  unfold mbind at 1, mset. fold (advance dt s). unfold mbind at 1. cbv zeta in Hk.
  assert (books K L (advance dt s)) as Ha by (destruct Hs; by split).
  destruct (wake_enabled (advance dt s) w); [|by apply IH]. unfold mbind at 1.
  assert (forall r k, (r, k) ∈ wake_kinds w -> K r k) as Hw by (intros r k Hr; apply Hk, elem_of_app; by left).
  pose proof (keeps_wake config border_agent_ip K (E := Error) L w Hw _ Ha) as H1.
  destruct (handle_wake w (advance dt s)) as [s' [a|e|f]]; cbn [fst] in *; [|done..].
  apply IH; [|done]. intros r k Hr. apply Hk, elem_of_app. by right.
Qed.

(** C7: Answers are for the requests they are given to.  Whatever the task
    meets, each reply channel gets an answer of the kind its command asked for;
    and a response handed to a handle carries the token of a message that was
    sent for that handle's request, directly or through the proxy as the
    request asked.  A request that expects no response gets none. *)
Theorem answers_match_requests s0 wakes r a :
  initial s0 -> Replied r a ∈ log (run wakes s0).1 ->
  known_reply (fun r k => (r, k) ∈ asked wakes s0) (log (run wakes s0).1) r a.
Proof.
  intros [H1 H2 _] Hr. eapply (b_replies _ []); [|exact Hr]. apply keeps_run; [done|].
  split; rewrite ?H1, ?H2; [by exists []|constructor|constructor|]. intros ? ? Hin. by inversion Hin.
Qed.
End Runs.

Import ToySession.

(** The border agent answers the first request of the toy session. *)
Definition answered_wakes : list (Z * Wake (JH := static_joiner_handler)) :=
  take 3 toy_wakes ++ [(1, WakeReceived (inr [0x64; 0x44; 0; 2; 9; 9; 9; 9]))].
Definition answered_log : list Effect := log (run toy_config "fd00::1" answered_wakes toy_start : State * result Error unit).1.
Definition toy_response : CoapMessage := mkCoapMessage Acknowledgement CODE_CHANGED 2 [9; 9; 9; 9] [] [].
Lemma answers_match_requests_witness :
  Replied 1 (AnExchange (inr (Some toy_response))) ∈ answered_log /\
  known_reply (fun r k => (r, k) ∈ asked toy_config "fd00::1" answered_wakes toy_start) answered_log 1
    (AnExchange (inr (Some toy_response))).
Proof.
  assert (Replied 1 (AnExchange (inr (Some toy_response))) ∈ answered_log) as H.
  { apply (list_elem_of_lookup_2 _ 5). vm_compute. reflexivity. }
  split; [exact H|]. unfold answered_log in *. apply answers_match_requests; [apply toy_initial|exact H].
Defined.
