(* ===== verification/Driver.v ===== *)
(** * Driver: datagram I/O, timers and established sessions

    The model of crates/meshcop-dtls/src/driver.rs.  The socket and the timer
    are traits of other crates; the asynchronous program is modelled by what
    it awaits.  A [World] holds the clock in nanoseconds, the datagrams that
    will arrive with the time each is there, what the next sends return, the
    random generator, the datagrams sent, and the running timers, innermost
    first.  Computation and sending take no time; an await of the socket ends
    with the next arrival or with the first timer to expire, and a future that
    raced the expired timer is dropped. *)
From S2P Require Import Prelude Text Tlv Errors Replay Record Handshake Hello Crypto Ecjpake.
From S2P Require Import ThreadHandshake Safety.

(** Socket addresses are only compared; the transport has its own errors. *)
Class Net := {
  SocketAddr : Type;
  SocketAddr_eq_dec : EqDecision SocketAddr;
  TransportError : Type }.
#[global] Existing Instance SocketAddr_eq_dec.

(** ** Errors, timers and budgets *)

Definition MAX_DATAGRAM_SIZE : Z := 4096.
Definition SECOND : Z := 1000000000.
Definition INITIAL_RETRANSMIT_TIMEOUT : Z := 1 * SECOND.
Definition DRIVER_INITIAL_RETRANSMIT_TIMEOUT : Z := INITIAL_RETRANSMIT_TIMEOUT.
Definition MAX_RETRANSMIT_TIMEOUT : Z := 60 * SECOND.
Definition MAX_DUPLICATE_RETRANSMISSIONS : Z := 4.
(** [Duration::MAX]. *)
Definition DURATION_MAX : Z := (2 ^ 64 - 1) * SECOND + 999999999.

Inductive DriverError `{Net} :=
  | Protocol (e : DtlsError)
  | Transport (e : TransportError)
  | Timeout.

Record RetransmitSchedule := mkRetransmitSchedule { timeout : Z }.
Definition RetransmitSchedule_new : RetransmitSchedule := mkRetransmitSchedule DRIVER_INITIAL_RETRANSMIT_TIMEOUT.
Definition back_off (self : RetransmitSchedule) : RetransmitSchedule :=
  mkRetransmitSchedule (Z.min (Z.min (timeout self * 2) DURATION_MAX) MAX_RETRANSMIT_TIMEOUT).

Record DuplicateRetransmitBudget := mkDuplicateRetransmitBudget { used : Z }.
Definition DuplicateRetransmitBudget_new : DuplicateRetransmitBudget := mkDuplicateRetransmitBudget 0.
Definition take_budget (self : DuplicateRetransmitBudget) : DuplicateRetransmitBudget * bool :=
  if used self >=? MAX_DUPLICATE_RETRANSMISSIONS then (self, false)
  else (mkDuplicateRetransmitBudget (saturating_add 8 (used self) 1), true).

(** [delay_duration]: the delays it asks the timer for, one after another. *)
Definition MAX_DELAY_NANOSECONDS : Z := 2 ^ 32 - 1.
Definition delay_duration (duration : Z) : list Z :=
  let full_chunks := duration / MAX_DELAY_NANOSECONDS in
  let remainder := duration mod MAX_DELAY_NANOSECONDS in
  repeat MAX_DELAY_NANOSECONDS (Z.to_nat full_chunks) ++ (if remainder =? 0 then [] else [remainder]).

(** ** The world *)

Section World.
Context {NN : Net} {CC : Curve} {RR : Rng}.

(** A datagram as the network delivers it, or a failed receive. *)
Inductive Arrival :=
  | Rx (datagram : bytes) (local remote : SocketAddr)
  | RxError (e : TransportError).

Record World := mkWorld {
  clock : Z;
  timers : list Z;
  arrivals : list (Z * Arrival);
  send_results : list (option TransportError);
  sent : list (SocketAddr * SocketAddr * bytes);
  world_rng : rng }.

Definition set_clock (t : Z) (w : World) : World :=
  mkWorld t (timers w) (arrivals w) (send_results w) (sent w) (world_rng w).
Definition set_timers (ts : list Z) (w : World) : World :=
  mkWorld (clock w) ts (arrivals w) (send_results w) (sent w) (world_rng w).
Definition set_arrivals (l : list (Z * Arrival)) (w : World) : World :=
  mkWorld (clock w) (timers w) l (send_results w) (sent w) (world_rng w).
Definition set_rng (g : rng) (w : World) : World :=
  mkWorld (clock w) (timers w) (arrivals w) (send_results w) (sent w) g.
Definition log_send (x : SocketAddr * SocketAddr * bytes) (w : World) : World :=
  mkWorld (clock w) (timers w) (arrivals w) (tl (send_results w)) (sent w ++ [x]) (world_rng w).

(** Why an operation ends early: it returns an error, the [n]th timer around
    it expired and the future that raced it is dropped, or nothing can ever
    wake it up. *)
Inductive Stop :=
  | Raise (e : DriverError)
  | Expired (n : nat)
  | Blocked.

Definition io (A : Type) : Type := M World Stop A.

(** [?] on the result of a DTLS operation, and a draw from the generator. *)
Definition proto {S A} (r : result DtlsError A) : M S Stop A := mlift (map_err (fun e => Raise (Protocol e)) r).
Definition draw {A} (f : rng -> result DtlsError (A * rng)) : io A := fun w =>
  match f (world_rng w) with
  | Ok (a, g) => (set_rng g w, Ok a)
  | Err e => (w, Err (Raise (Protocol e)))
  | Panic f => (w, Panic f)
  end.

(** The timer that expires first; of two that expire together the inner one,
    which is polled first. *)
Fixpoint first_expiry (ts : list Z) : option (nat * Z) :=
  match ts with
  | [] => None
  | t :: ts =>
      match first_expiry ts with
      | Some (n, u) => if t <=? u then Some (O, t) else Some (S n, u)
      | None => Some (O, t)
      end
  end.

(** [transport.receive_into(&mut buffer).await]: the buffer as it is left, and
    the length and the addresses reported.  The transport copies what fits
    and reports the whole length.  An arrival at the very time a timer expires
    is seen, since the socket is polled before the timers. *)
Definition receive_into (buffer : bytes) : io (bytes * (Z * SocketAddr * SocketAddr)) := fun w =>
  let fire :=
    match first_expiry (timers w) with
    | Some (n, t) => (set_clock (Z.max (clock w) t) w, Err (Expired n))
    | None => (w, Err Blocked)
    end in
  match arrivals w with
  | (t, a) :: rest =>
      if match first_expiry (timers w) with Some (_, u) => t <=? u | None => true end then
        let w := set_arrivals rest (set_clock (Z.max (clock w) t) w) in
        match a with
        | Rx d local remote =>
            (w, Ok (take (length buffer) d ++ drop (length d) buffer, (len d, local, remote)))
        | RxError e => (w, Err (Raise (Transport e)))
        end
      else fire
  | [] => fire
  end.

(** [transport.send(local, remote, &datagram).await]. *)
Definition send (local remote : SocketAddr) (datagram : bytes) : io unit := fun w =>
  match head (send_results w) with
  | Some (Some e) => (log_send (local, remote, datagram) w, Err (Raise (Transport e)))
  | _ => (log_send (local, remote, datagram) w, Ok tt)
  end.

(** [race_expiry]: [m] runs with one more timer around it; the running timers
    are a field of its state. *)
Definition race {S A} (get : S -> list Z) (put : list Z -> S -> S) (m : M S Stop A) (expiry : Z) : M S Stop A := fun s =>
  let '(s', r) := m (put (expiry :: get s) s) in
  (put (get s) s',
   match r with
   | Err (Expired O) => Err (Raise Timeout)
   | Err (Expired (S n)) => Err (Expired n)
   | r => r
   end).
Definition race_expiry {A} (m : io A) (expiry : Z) : io A := race timers set_timers m expiry.

(** [sleep]: when a timer started now expires. *)
Definition sleep (duration : Z) : io Z := mget (fun w => clock w + foldr Z.add 0 (delay_duration duration)).

Definition with_timeout {A} (m : io A) (duration : Z) : io A :=
  let* expiry := sleep duration in
  race_expiry m expiry.

(** [Err(DriverError::Timeout) =>] of a match on a receive. *)
Definition catch_timeout {A} (m : io A) : io (option A) := fun w =>
  match m w with
  | (w, Ok a) => (w, Ok (Some a))
  | (w, Err (Raise Timeout)) => (w, Ok None)
  | (w, Err e) => (w, Err e)
  | (w, Panic f) => (w, Panic f)
  end.

(** ** Datagrams *)

Definition send_records (local remote : SocketAddr) (records : list DtlsRecord) : io unit :=
  let* datagram := proto (encode_datagram records) in
  send local remote datagram.

Definition buffer_get (buffer : bytes) (length : Z) : option bytes :=
  if length <=? len buffer then Some (take (Z.to_nat length) buffer) else None.

(** The loop of [recv_parsed_datagram]; each turn takes one arrival. *)
Fixpoint recv_parsed_loop (fuel : nat) (peer : option SocketAddr) (buffer : bytes)
    : io (list DtlsRecord * SocketAddr * SocketAddr) :=
  match fuel with
  | O => mlift (Panic OutOfFuel)
  | S fuel =>
      let* '(buffer, (length, local, remote)) := receive_into buffer in
      if match peer with Some p => negb (bool_decide (p = remote)) | None => false end
      then recv_parsed_loop fuel peer buffer
      else
        match buffer_get buffer length with
        | None => recv_parsed_loop fuel peer buffer
        | Some datagram =>
            match parse_datagram datagram with
            | Ok records => mret (records, local, remote)
            | Err _ => recv_parsed_loop fuel peer buffer
            | Panic f => mlift (Panic f)
            end
        end
  end.

Definition recv_parsed_datagram (peer : option SocketAddr) : io (list DtlsRecord * SocketAddr * SocketAddr) := fun w =>
  recv_parsed_loop (S (length (arrivals w))) peer (repeat 0 (Z.to_nat MAX_DATAGRAM_SIZE)) w.

Definition recv_records_from_unbounded (peer : SocketAddr) := recv_parsed_datagram (Some peer).
Definition recv_records_unbounded := recv_parsed_datagram None.
Definition recv_records_before (peer : SocketAddr) (expiry : Z) : io (list DtlsRecord * SocketAddr * SocketAddr) :=
  race_expiry (recv_records_from_unbounded peer) expiry.

(** The loop of every wait of a handshake: receive before the retransmission
    timer, or retransmit and set it again; [on_datagram] gives the values of
    the next turn or what the wait returns. *)
Fixpoint wait_loop {V A} (peer : SocketAddr) (timer : V -> Z) (on_timeout : V -> io V)
    (on_datagram : list DtlsRecord -> V -> io (V + A)) (fuel : nat) (v : V) : io A :=
  match fuel with
  | O => mlift (Panic OutOfFuel)
  | S fuel =>
      let* received := catch_timeout (recv_records_before peer (timer v)) in
      match received with
      | None =>
          let* v := on_timeout v in
          wait_loop peer timer on_timeout on_datagram fuel v
      | Some (records, _, _) =>
          let* r := on_datagram records v in
          match r with
          | inl v => wait_loop peer timer on_timeout on_datagram fuel v
          | inr a => mret a
          end
      end
  end.

(** Enough turns for such a loop before the timers around it expire: each
    takes an arrival or waits for a retransmission timer of at least a second,
    which an arrival may set back by at most a minute. *)
Definition loop_fuel (w : World) : nat :=
  let last := foldr Z.max (clock w) (timers w) in
  62 * (length (arrivals w) + 1) + Z.to_nat ((last - clock w) / SECOND + 2).

(** A wait starts its timer when it is entered. *)
Definition wait {V A} (peer : SocketAddr) (timer : V -> Z) (on_timeout : V -> io V)
    (on_datagram : list DtlsRecord -> V -> io (V + A)) (start : RetransmitSchedule -> Z -> V) : io A :=
  let schedule := RetransmitSchedule_new in
  let* expiry := sleep (timeout schedule) in
  let* fuel := mget loop_fuel in
  wait_loop peer timer on_timeout on_datagram fuel (start schedule expiry).
End World.

(** ** Established sessions *)

Inductive SessionRole := RoleOfClient | RoleOfServer.

Record SessionState := mkSessionState {
  ss_key_material : ThreadDtlsKeyMaterial;
  ss_role : SessionRole;
  next_application_sequence : Z;
  application_replay : ReplayWindow;
  unread_records : list DtlsRecord }.

Definition with_next_application_sequence (km : ThreadDtlsKeyMaterial) (role : SessionRole) (next : Z) : SessionState :=
  mkSessionState km role next ReplayWindow_new [].
Definition SessionState_new km role := with_next_application_sequence km role 1.
Definition during_handshake km role := with_next_application_sequence km role 0.

Definition set_next_application_sequence (n : Z) (s : SessionState) : SessionState :=
  mkSessionState (ss_key_material s) (ss_role s) n (application_replay s) (unread_records s).
Definition set_application_replay (r : ReplayWindow) (s : SessionState) : SessionState :=
  mkSessionState (ss_key_material s) (ss_role s) (next_application_sequence s) r (unread_records s).
Definition set_unread_records (l : list DtlsRecord) (s : SessionState) : SessionState :=
  mkSessionState (ss_key_material s) (ss_role s) (next_application_sequence s) (application_replay s) l.

(** TLS [close_notify]. *)
Definition ALERT_CLOSE_NOTIFY : Z := 0.

Definition decode_alert_error (header : RecordHeader) (pl : bytes) : DtlsError :=
  match pl with
  | level :: description :: _ =>
      DCrypto ("DTLS alert epoch=" +:+ dec (rec_epoch header) +:+ " seq=" +:+ dec (sequence_number header)
               +:+ " level=" +:+ dec level +:+ " description=" +:+ dec description)
  | _ => DCrypto ("DTLS alert epoch=" +:+ dec (rec_epoch header) +:+ " seq=" +:+ dec (sequence_number header)
                  +:+ " received")
  end.
Definition decode_authenticated_alert (header : RecordHeader) (pl : bytes) : DtlsError :=
  match pl with
  | _ :: description :: _ => if description =? ALERT_CLOSE_NOTIFY then DPeerClosed else decode_alert_error header pl
  | _ => decode_alert_error header pl
  end.

Section Session.
Context {AA : Aead}.

Definition write_keys (self : SessionState) : bytes * bytes :=
  let kb := key_block (ss_key_material self) in
  match ss_role self with
  | RoleOfClient => (client_write_key kb, client_write_iv kb)
  | RoleOfServer => (server_write_key kb, server_write_iv kb)
  end.
Definition read_keys (self : SessionState) : bytes * bytes :=
  let kb := key_block (ss_key_material self) in
  match ss_role self with
  | RoleOfClient => (server_write_key kb, server_write_iv kb)
  | RoleOfServer => (client_write_key kb, client_write_iv kb)
  end.

Definition protect_record (ct : ContentType) (plaintext : bytes) : M SessionState DtlsError DtlsRecord :=
  let* self := mget id in
  let '(key, iv) := write_keys self in
  let* record := mlift (protect_aes_128_ccm_8_record ct 1 (next_application_sequence self) key iv plaintext) in
  let* _ := mset (set_next_application_sequence (wrapping_add 64 (next_application_sequence self) 1)) in
  mret record.

Definition protect_application_data (plaintext : bytes) : M SessionState DtlsError DtlsRecord :=
  protect_record CtApplicationData plaintext.

Definition open_protected_record (record : DtlsRecord) : M SessionState DtlsError (option bytes) :=
  let* self := mget id in
  if has_seen (application_replay self) (sequence_number (rec_header record)) then mret None
  else
    let '(key, iv) := read_keys self in
    let* plaintext := mlift (open_aes_128_ccm_8_record record key iv) in
    let* _ := mset (set_application_replay (mark_seen (application_replay self) (sequence_number (rec_header record)))) in
    mret (Some plaintext).

Definition receive_datagram (records : list DtlsRecord) (self : SessionState) : SessionState :=
  set_unread_records (unread_records self ++ records) self.

(** The loop of [open_next_record]; [records] is the queue. *)
Fixpoint open_next_loop (records : list DtlsRecord) (self : SessionState)
    : SessionState * result DtlsError (option (result DtlsError bytes)) :=
  match records with
  | [] => (self, Ok None)
  | record :: rest =>
      let self := set_unread_records rest self in
      if negb (rec_epoch (rec_header record) =? 1) then open_next_loop rest self
      else
        match content_type (rec_header record) with
        | CtApplicationData | CtAlert =>
            match open_protected_record record self with
            | (self, Ok (Some plaintext)) =>
                (self, Ok (Some
                  (if bool_decide (content_type (rec_header record) = CtAlert)
                   then Err (decode_authenticated_alert (rec_header record) plaintext)
                   else Ok plaintext)))
            | (self, Panic f) => (self, Panic f)
            | (self, _) => open_next_loop rest self
            end
        | _ => open_next_loop rest self
        end
  end.
Definition open_next_record : M SessionState DtlsError (option (result DtlsError bytes)) := fun self =>
  open_next_loop (unread_records self) self.

(** Operations on a session and the next epoch-0 record number, which are
    separate variables of the handshakes and fields of a server session. *)
Definition sequenced {A} (m : M SessionState DtlsError A) : M (SessionState * Z) DtlsError A :=
  mzoom (fun e => e) fst (fun s '(_, n) => (s, n)) m.
Definition take_next {S E} : M (S * Z) E Z := fun '(s, n) =>
  let '(sequence, n) := take_record_sequence n in ((s, n), Ok sequence).
End Session.

Section Receive.
Context {NN : Net} {CC : Curve} {RR : Rng} {AA : Aead}.

(** Methods of a session and of the world in one state. *)
Definition on_state {A} (m : M SessionState DtlsError A) : M (SessionState * World) Stop A :=
  mzoom (fun e => Raise (Protocol e)) fst (fun s '(_, w) => (s, w)) m.
Definition on_world {A} (m : io A) : M (SessionState * World) Stop A :=
  mzoom (fun e => e) snd (fun w '(s, _) => (s, w)) m.

(** The loop of [recv_application_data]; each further turn takes an arrival. *)
Fixpoint recv_application_loop (fuel : nat) (peer : SocketAddr) : M (SessionState * World) Stop bytes :=
  match fuel with
  | O => mlift (Panic OutOfFuel)
  | S fuel =>
      let* next := on_state open_next_record in
      match next with
      | Some r => proto r
      | None =>
          let* '(records, _, _) := on_world (recv_records_from_unbounded peer) in
          let* _ := mset (fun '(s, w) => (receive_datagram records s, w)) in
          recv_application_loop fuel peer
      end
  end.

(** [with_timeout] around a method of the session. *)
Definition session_timeout {A} (m : M (SessionState * World) Stop A) (duration : Z) : M (SessionState * World) Stop A :=
  let* expiry := on_world (sleep duration) in
  race (fun '(_, w) => timers w) (fun ts '(s, w) => (s, set_timers ts w)) m expiry.

Definition recv_application_data (peer : SocketAddr) (duration : Z) : M (SessionState * World) Stop bytes := fun sw =>
  session_timeout (recv_application_loop (S (length (arrivals sw.2))) peer) duration sw.
End Receive.

(** ** Timers *)

Lemma delay_duration_sum d : 0 <= d -> foldr Z.add 0 (delay_duration d) = d.
Proof.
  intros Hd. unfold delay_duration. rewrite foldr_app.
  assert (forall n a b, foldr Z.add a (repeat b n) = Z.of_nat n * b + a) as Hr.
  { induction n as [|n IH]; intros a b; cbn [repeat foldr]; [lia|]. rewrite IH. lia. }
  rewrite Hr. pose proof (Z.div_mod d MAX_DELAY_NANOSECONDS ltac:(done)) as E.
  pose proof (Z.div_pos d MAX_DELAY_NANOSECONDS Hd ltac:(by_decide)).
  rewrite Z2Nat.id by done. destruct (_ =? 0) eqn:Ez; zbool; cbn [foldr]; lia.
Qed.

Definition schedule_ok (s : RetransmitSchedule) : Prop := SECOND <= timeout s <= 60 * SECOND.

Lemma schedule_new_ok : schedule_ok RetransmitSchedule_new.
Proof. by_decide. Qed.
Lemma back_off_ok s : schedule_ok s -> schedule_ok (back_off s).
Proof. unfold schedule_ok, back_off, DURATION_MAX, MAX_RETRANSMIT_TIMEOUT, SECOND. cbn [timeout]. lia. Qed.

Section WorldLemmas.
Context {NN : Net} {CC : Curve} {RR : Rng}.

Lemma sleep_ok d w : 0 <= d -> sleep d w = (w, Ok (clock w + d)).
Proof. intros Hd. unfold sleep, mget. by rewrite delay_duration_sum. Qed.

Lemma first_expiry_spec ts n u : first_expiry ts = Some (n, u) ->
  ts !! n = Some u /\ Forall (Z.le u) ts /\ Forall (Z.lt u) (take n ts).
Proof.
  revert n u. induction ts as [|t ts IH]; intros n u H; cbn [first_expiry] in H; [done|].
  destruct (first_expiry ts) as [[m v]|] eqn:E.
  - destruct (IH m v eq_refl) as (H1 & H2 & H3). destruct (t <=? v) eqn:Et; injection H as <- <-; zbool.
    + split; [done|]. split; [|constructor]. constructor; [lia|]. eapply Forall_impl; [exact H2|]. simpl. lia.
    + split; [done|]. split; constructor; auto with lia.
  - injection H as <- <-. split; [done|]. destruct ts as [|a ts]; [split; repeat constructor; lia|].
    cbn [first_expiry] in E. destruct (first_expiry ts) as [[? ?]|]; [by destruct (_ <=? _) in E|done].
Qed.

(** No timer expires before [t]. *)
Definition unexpired (t : Z) (w : World) : Prop := Forall (Z.le t) (timers w).

Lemma unexpired_first t w :
  unexpired t w -> (match first_expiry (timers w) with Some (_, u) => t <=? u | None => true end) = true.
Proof.
  intros H. destruct (first_expiry (timers w)) as [[n u]|] eqn:E; [|done].
  destruct (first_expiry_spec _ _ _ E) as (H1 & _). apply (Forall_lookup_1 _ _ _ _ H) in H1. by apply Z.leb_le.
Qed.

(** The world after the first arrival is taken. *)
Definition after_arrival (t : Z) (rest : list (Z * Arrival)) (w : World) : World :=
  set_arrivals rest (set_clock (Z.max (clock w) t) w).

Lemma receive_into_ok w t d local remote rest b :
  arrivals w = (t, Rx d local remote) :: rest -> unexpired t w ->
  receive_into b w = (after_arrival t rest w,
    Ok (take (length b) d ++ drop (length d) b, (len d, local, remote))).
Proof. intros Ha Hu. unfold receive_into. by rewrite Ha, unexpired_first. Qed.

Lemma buffer_get_ok b d : length b = Z.to_nat MAX_DATAGRAM_SIZE -> len d <= MAX_DATAGRAM_SIZE ->
  buffer_get (take (length b) d ++ drop (length d) b) (len d) = Some d.
Proof.
  intros Hb Hd. assert (length d <= length b)%nat by (unfold len in Hd; lia). rewrite take_ge by done.
  unfold buffer_get. rewrite len_app. pose proof (len_nonneg (drop (length d) b)).
  rewrite (proj2 (Z.leb_le _ _)) by lia. by rewrite to_nat_len, take_app_length.
Qed.

Lemma recv_datagram_ok w t d local remote rest rs peer :
  arrivals w = (t, Rx d local remote) :: rest -> unexpired t w -> len d <= MAX_DATAGRAM_SIZE ->
  parse_datagram d = Ok rs -> (peer = None \/ peer = Some remote) ->
  recv_parsed_datagram peer w = (after_arrival t rest w, Ok (rs, local, remote)).
Proof.
  intros Ha Hu Hl Hp Hpeer. unfold recv_parsed_datagram. cbn [recv_parsed_loop]. unfold mbind.
  rewrite (receive_into_ok _ _ _ _ _ _ _ Ha Hu).
  assert ((match peer with Some p => negb (bool_decide (p = remote)) | None => false end) = false) as ->.
  { destruct Hpeer as [-> | ->]; [done|]. by rewrite bool_decide_true. }
  rewrite buffer_get_ok by (rewrite ?repeat_length; done). by rewrite Hp.
Qed.

Lemma recv_before_ok w t d local peer rest rs expiry :
  arrivals w = (t, Rx d local peer) :: rest -> unexpired t w -> t <= expiry -> len d <= MAX_DATAGRAM_SIZE ->
  parse_datagram d = Ok rs ->
  catch_timeout (recv_records_before peer expiry) w = (after_arrival t rest w, Ok (Some (rs, local, peer))).
Proof.
  intros Ha Hu Ht Hl Hp. unfold catch_timeout, recv_records_before, race_expiry, race, recv_records_from_unbounded.
  rewrite (recv_datagram_ok (set_timers (expiry :: timers w) w) t d local peer rest rs (Some peer));
    [by destruct w|done|by constructor|done|done|by right].
Qed.

Lemma send_ok w local remote rs d :
  send_results w = [] -> encode_datagram rs = Ok d ->
  send_records local remote rs w = (log_send (local, remote, d) w, Ok tt).
Proof. intros Hs Hd. unfold send_records, mbind, proto, mlift. rewrite Hd. cbn [map_err]. unfold send. by rewrite Hs. Qed.

Lemma proto_step {S A B} (r : result DtlsError A) (k : A -> M S Stop B) s a :
  r = Ok a -> mbind (proto r) k s = k a s.
Proof. by intros ->. Qed.
Lemma run_step {S A} (m : M S DtlsError A) s s' a : m s = (s', Ok a) -> run m s = Ok (s', a).
Proof. unfold run. by intros ->. Qed.
End WorldLemmas.

(** Addresses that are numbers, and one transport error. *)
Module ToyNet.
#[export] Instance toy_net : Net := {
  SocketAddr := nat;
  SocketAddr_eq_dec := _;
  TransportError := unit }.
Definition host (n : nat) : @SocketAddr toy_net := n.
End ToyNet.
