(* ===== verification/Flights.v ===== *)
(** * Flights: handshake messages in records and datagrams

    What a record that carries one whole message parses to, plaintext or
    protected, and the datagrams made of such records. *)
From S2P Require Import Prelude Text Tlv Errors Replay Record Handshake Hello Crypto Ecjpake.
From S2P Require Import ThreadHandshake Safety Driver.

Section Flights.
Context {HH : Hash} {HL : HashLaws} {AA : Aead} {AL : AeadLaws} {CC : Curve} {CL : CurveLaws} {RR : Rng} {RL : RngLaws}.

(** A plaintext record that carries one whole message. *)
Definition carries_message (r : DtlsRecord) (m : HandshakeMessage) : Prop :=
  record_wf r /\ rec_epoch (rec_header r) = 0 /\ content_type (rec_header r) = CtHandshake /\
  rec_payload r = msg_bytes m /\ msg_wf m.

(** The plaintext records of a message and of a ChangeCipherSpec. *)
Definition msg_record (n : Z) (m : HandshakeMessage) : DtlsRecord :=
  mkDtlsRecord (mkRecordHeader CtHandshake DTLS_1_2_VERSION 0 n (len (msg_bytes m))) (msg_bytes m).
Definition ccs_record (n : Z) : DtlsRecord :=
  mkDtlsRecord (mkRecordHeader CtChangeCipherSpec DTLS_1_2_VERSION 0 n 1) [1].

Lemma message_record_wf ep m n : short_msg m -> uint 48 n -> is_u16 ep ->
  let r := mkDtlsRecord (mkRecordHeader CtHandshake DTLS_1_2_VERSION ep n (len (msg_bytes m))) (msg_bytes m) in
  DtlsRecord_new CtHandshake ep n (msg_bytes m) = Ok r /\ record_wf r.
Proof.
  intros Hm Hn He r. pose proof (short_msg_wf m Hm) as Hw. destruct Hm as (_ & Hb & Hl).
  pose proof (len_msg_bytes m). pose proof (len_nonneg (hs_payload m)).
  unfold DtlsRecord_new. rewrite (proj2 (Z.ltb_lt _ _)) by lia. split; [done|].
  split; [|split; [by apply msg_bytes_ok|done]]. split; [by_decide|]. split; [done|]. split; [done|].
  cbn [r rec_header rec_length]. unfold uint. lia.
Qed.

Lemma msg_record_new n m : short_msg m -> uint 48 n ->
  DtlsRecord_new CtHandshake 0 n (msg_bytes m) = Ok (msg_record n m).
Proof. intros Hm Hn. by apply message_record_wf. Qed.
Lemma msg_record_carries n m : short_msg m -> uint 48 n -> carries_message (msg_record n m) m.
Proof.
  intros Hm Hn. destruct (message_record_wf 0 m n Hm Hn ltac:(by_decide)) as [_ Hw].
  split; [done|]. split; [done|]. split; [done|]. split; [done|]. by apply short_msg_wf.
Qed.
Lemma ccs_record_wf n : uint 48 n -> record_wf (ccs_record n).
Proof. intros Hn. split; [|split; [by_decide|done]]. split; [by_decide|]. split; [by_decide|]. split; [done|by_decide]. Qed.

Lemma carries_parsed r m :
  content_type (rec_header r) = CtHandshake -> rec_payload r = msg_bytes m -> msg_wf m ->
  parse_unfragmented_handshake_messages r = Ok [m].
Proof.
  intros Hc Hp Hm. unfold parse_unfragmented_handshake_messages. rewrite bool_decide_true, Hp by done.
  cbn [negb]. pose proof (many_encode _ parse_unfragmented_consumes msg_bytes msg_wf [m]) as H. cbn in H.
  rewrite app_nil_r in H. apply H; [intros; by apply parse_unfragmented_step_bytes|by apply Forall_singleton].
Qed.
Lemma carried_messages r m : carries_message r m -> parse_unfragmented_handshake_messages r = Ok [m].
Proof. intros (_ & _ & Hc & Hp & Hm). by apply carries_parsed. Qed.
Lemma carried_message r m : carries_message r m -> parse_unfragmented_handshake_record r (message_type m) = Ok m.
Proof. intros (_ & _ & Hc & Hp & Hm). by apply parse_record_message. Qed.

Lemma carries_renumbered r m n : carries_message r m -> uint 48 n -> carries_message (set_sequence r n) m.
Proof.
  intros (Hw & He & Hc & Hp & Hm) Hn. destruct r as [[ct v e q l] pl]. unfold carries_message in *. cbn in *.
  split_and!; try done. unfold record_wf, header_wf in *. cbn in *. naive_solver.
Qed.
Lemma sequence_renumbered r n : sequence_number (rec_header (set_sequence r n)) = n.
Proof. by destruct r as [[]]. Qed.

(** The plaintext record around an opened payload. *)
Lemma opened_messages m : short_msg m ->
  exists r, DtlsRecord_new CtHandshake 1 0 (msg_bytes m) = Ok r /\ parse_unfragmented_handshake_messages r = Ok [m] /\
    parse_unfragmented_handshake_record r (message_type m) = Ok m.
Proof.
  intros Hm. destruct (message_record_wf 1 m 0 Hm ltac:(by_decide) ltac:(by_decide)) as [E Hw].
  eexists. split; [exact E|]. apply short_msg_wf in Hm. split; [by apply carries_parsed|by apply parse_record_message].
Qed.

(** ** Protected messages *)

Lemma protect_len ct ep n key iv pl r : len iv = 4 -> uint 48 n -> bytes_ok pl -> len pl < 2 ^ 15 ->
  protect_aes_128_ccm_8_record ct ep n key iv pl = Ok r -> len (rec_payload r) = len pl + 16.
Proof.
  intros Hiv Hn Hb Hl H. unfold protect_aes_128_ccm_8_record in H. pose proof (len_nonneg pl).
  rewrite (proj2 (Z.ltb_lt _ _)) in H by lia. cbn [rbind] in H. rewrite dtls_ccm_nonce_ok in H by done. cbn [rbind] in H.
  match type of H with context [AesCcm8_encrypt ?k ?n ?a ?p] =>
    destruct (ccm_encrypt_total k n a p Hb ltac:(lia)) as (c & Ec & Lc & _) end.
  unfold AesCcm8_encrypt in H. rewrite Ec in H. cbn [ok_or rbind] in H. unfold TLS_CCM_FIXED_IV_LEN in H.
  rewrite <- Hiv, slice_from_prefix in H. cbn [rbind] in H. unfold DtlsRecord_new in H.
  rewrite !len_app, !len_to_be in H. rewrite (proj2 (Z.ltb_lt _ _)) in H by lia. cbn [rbind] in H. match type of H with Ok ?x = Ok _ => assert (r = x) as -> by congruence end.
  cbn [rec_payload]. rewrite !len_app, !len_to_be. lia.
Qed.

(** A protected record that opens to [pl] under [key] and [iv]. *)
Definition protects (r : DtlsRecord) (ct : ContentType) (n : Z) (key iv pl : bytes) : Prop :=
  record_wf r /\ content_type (rec_header r) = ct /\ rec_epoch (rec_header r) = 1 /\
  sequence_number (rec_header r) = n /\ len (rec_payload r) = len pl + 16 /\
  open_aes_128_ccm_8_record r key iv = Ok pl.

Lemma protect_protects ct n key iv pl : len iv = 4 -> uint 48 n -> bytes_ok pl -> len pl < 2 ^ 15 ->
  exists r, protect_aes_128_ccm_8_record ct 1 n key iv pl = Ok r /\ protects r ct n key iv pl.
Proof.
  intros Hiv Hn Hb Hl.
  destruct (protect_ok ct 1 n key iv pl ltac:(by_decide) Hn Hiv Hb ltac:(lia)) as (r & E & Hw & Hc & He & Hs & Ho).
  exists r. split; [done|]. split; [done|]. do 3 (split; [done|]). split; [by eapply protect_len|done].
Qed.

(** ** Datagrams *)

Definition datagram (rs : list DtlsRecord) : bytes := concat (map record_bytes rs).

Lemma datagram_len rs : len (datagram rs) = foldr (fun r n => len (record_bytes r) + n) 0 rs.
Proof. induction rs as [|r rs IH]; [done|]. unfold datagram in *. cbn [map concat foldr]. by rewrite len_app, IH. Qed.

Definition small_record (r : DtlsRecord) : Prop := record_wf r /\ len (rec_payload r) <= 1040.

(** What [d] is sent as and received as. *)
Definition carries (d : bytes) (rs : list DtlsRecord) : Prop :=
  encode_datagram rs = Ok d /\ parse_datagram d = Ok rs /\ len d <= MAX_DATAGRAM_SIZE.

Lemma small_datagram rs : Forall small_record rs -> (length rs <= 3)%nat -> carries (datagram rs) rs.
Proof.
  intros H Hl. apply Forall_and in H as [Hw Hs]. pose proof (encode_datagram_ok rs Hw) as E. split; [done|].
  split; [by eapply parse_encode_datagram|]. rewrite datagram_len.
  assert (forall l, Forall record_wf l -> Forall (fun r => len (rec_payload r) <= 1040) l ->
    foldr (fun r n => len (record_bytes r) + n) 0 l <= 1053 * len l) as Hb.
  { intros l Hlw Hls. induction Hls as [|r l Hr _ IH]; [done|]. apply Forall_cons_1 in Hlw as [_ ?]. cbn [foldr].
    assert (len (record_bytes r) = 13 + len (rec_payload r)) by (unfold record_bytes; by rewrite len_app, len_header).
    rewrite len_cons. specialize (IH ltac:(done)). lia. }
  specialize (Hb _ Hw Hs). assert (len rs <= 3) by (unfold len; lia). unfold MAX_DATAGRAM_SIZE. lia.
Qed.

Lemma carries_small r m : carries_message r m -> short_msg m -> small_record r.
Proof.
  intros (Hw & _ & _ & Hp & _) (_ & _ & Hl). split; [done|]. rewrite Hp, len_msg_bytes. lia.
Qed.
Lemma msg_record_small n m : short_msg m -> uint 48 n -> small_record (msg_record n m).
Proof. intros Hm Hn. by eapply carries_small, Hm; apply msg_record_carries. Qed.
Lemma ccs_record_small n : uint 48 n -> small_record (ccs_record n).
Proof. split; [by apply ccs_record_wf|by_decide]. Qed.
Lemma protects_small r ct n key iv m : protects r ct n key iv (msg_bytes m) -> short_msg m -> small_record r.
Proof. intros (Hw & _ & _ & _ & Hl & _) (_ & _ & Hm). split; [done|]. rewrite len_msg_bytes in Hl. lia. Qed.
End Flights.
