(* ===== verification/ClientDriver.v ===== *)
(** * ClientDriver: the DTLS client driver

    The model of crates/meshcop-dtls/src/client_driver.rs over the world of
    [Driver].  The variables a waiting loop mutates through its arguments are
    its loop-carried values; a failed handshake drops them all.  The loops
    take fuel; [loop_fuel] is proved enough for every run within a deadline. *)
From S2P Require Import Prelude Text Tlv Errors Replay Record Handshake Hello Crypto Ecjpake.
From S2P Require Import ThreadHandshake Safety Driver.

Section Client.
Context {HH : Hash} {AA : Aead} {NN : Net} {CC : Curve} {RR : Rng}.

(** [vec![..]] of the flight with the client's key exchange and Finished. *)
Definition build_client_finished_flight (client_key_exchange client_finished : HandshakeMessage)
    : M (SessionState * Z) DtlsError (list DtlsRecord) :=
  let* n1 := take_next in
  let* b1 := mlift (HandshakeMessage_encode client_key_exchange) in
  let* r1 := mlift (DtlsRecord_new CtHandshake 0 n1 b1) in
  let* n2 := take_next in
  let* r2 := mlift (DtlsRecord_new CtChangeCipherSpec 0 n2 [1]) in
  let* b3 := mlift (HandshakeMessage_encode client_finished) in
  let* r3 := sequenced (protect_record CtHandshake b3) in
  mret [r1; r2; r3].

(** ** Waiting for the HelloVerifyRequest *)

(** The records of one datagram: [Some] when the request was handled. *)
Fixpoint hello_verify_records (records : list DtlsRecord) (hello_state : DtlsClientHelloState)
    : result DtlsError (option DtlsClientHelloState) :=
  match records with
  | [] => Ok None
  | record :: rest =>
      match content_type (rec_header record) with
      | CtHandshake =>
          match parse_unfragmented_handshake_messages record with
          | Ok messages =>
              if existsb (fun m => bool_decide (message_type m = HtHelloVerifyRequest)) messages then
                let '(hello_state, r) := handle_hello_verify_request hello_state record in
                let! _ := r in
                Ok (Some hello_state)
              else hello_verify_records rest hello_state
          | Err _ => hello_verify_records rest hello_state
          | Panic f => Panic f
          end
      | CtAlert => Err (decode_alert_error (rec_header record) (rec_payload record))
      | _ => hello_verify_records rest hello_state
      end
  end.

(** The values the loop carries: the flight it resends, the next epoch-0
    record number, the hello state, the schedule and when the timer expires. *)
Record HelloWait := mkHelloWait {
  hw_client_flight : list DtlsRecord;
  hw_next : Z;
  hw_hello_state : DtlsClientHelloState;
  hw_schedule : RetransmitSchedule;
  hw_timer : Z }.

Definition hello_verify_timeout (local peer : SocketAddr) (v : HelloWait) : io HelloWait :=
  let '(client_flight, next) := renumber_epoch_zero_flight (hw_client_flight v) (hw_next v) in
  let* _ := send_records local peer client_flight in
  let schedule := back_off (hw_schedule v) in
  let* timer := sleep (timeout schedule) in
  mret (mkHelloWait client_flight next (hw_hello_state v) schedule timer).

Definition hello_verify_datagram (records : list DtlsRecord) (v : HelloWait)
    : io (HelloWait + DtlsClientHelloState * Z) :=
  let* handled := proto (hello_verify_records records (hw_hello_state v)) in
  mret (match handled with Some hello_state => inr (hello_state, hw_next v) | None => inl v end).

Definition wait_for_hello_verify (local peer : SocketAddr) (client_flight : list DtlsRecord) (next : Z)
    (hello_state : DtlsClientHelloState) : io (DtlsClientHelloState * Z) :=
  wait peer hw_timer (hello_verify_timeout local peer) hello_verify_datagram
    (mkHelloWait client_flight next hello_state).

(** ** Waiting for the server's flight *)

Record FlightWait := mkFlightWait {
  fw_client_flight : list DtlsRecord;
  fw_next : Z;
  fw_hello_state : DtlsClientHelloState;
  fw_client_hello_message : HandshakeMessage;
  fw_handshake : ThreadDtlsHandshake;
  fw_schedule : RetransmitSchedule;
  fw_timer : Z;
  fw_duplicates : DuplicateRetransmitBudget;
  fw_recorded_client_hello : bool;
  fw_server_flight : list HandshakeMessage }.

Definition fw_with_handshake (h : ThreadDtlsHandshake) (recorded : bool) (v : FlightWait) : FlightWait :=
  mkFlightWait (fw_client_flight v) (fw_next v) (fw_hello_state v) (fw_client_hello_message v) h
    (fw_schedule v) (fw_timer v) (fw_duplicates v) recorded (fw_server_flight v).
Definition fw_push (m : HandshakeMessage) (v : FlightWait) : FlightWait :=
  mkFlightWait (fw_client_flight v) (fw_next v) (fw_hello_state v) (fw_client_hello_message v) (fw_handshake v)
    (fw_schedule v) (fw_timer v) (fw_duplicates v) (fw_recorded_client_hello v) (fw_server_flight v ++ [m]).
Definition fw_with_duplicates (b : DuplicateRetransmitBudget) (v : FlightWait) : FlightWait :=
  mkFlightWait (fw_client_flight v) (fw_next v) (fw_hello_state v) (fw_client_hello_message v) (fw_handshake v)
    (fw_schedule v) (fw_timer v) b (fw_recorded_client_hello v) (fw_server_flight v).
(** A flight sent again, with the timer set back. *)
Definition fw_resent (flight : list DtlsRecord) (next : Z) (schedule : RetransmitSchedule) (timer : Z) (v : FlightWait)
    : FlightWait :=
  mkFlightWait flight next (fw_hello_state v) (fw_client_hello_message v) (fw_handshake v)
    schedule timer (fw_duplicates v) (fw_recorded_client_hello v) (fw_server_flight v).
Definition fw_with_hello (st : DtlsClientHelloState) (m : HandshakeMessage) (v : FlightWait) : FlightWait :=
  mkFlightWait (fw_client_flight v) (fw_next v) st m (fw_handshake v)
    (fw_schedule v) (fw_timer v) (fw_duplicates v) (fw_recorded_client_hello v) (fw_server_flight v).

(** How the handling of a message ends: the next message, the next datagram
    ([continue 'receive]), or the whole flight. *)
Inductive Progress :=
  | NextMessage (v : FlightWait)
  | NextDatagram (v : FlightWait)
  | WholeFlight (v : FlightWait).

(** A HelloVerifyRequest while the server's flight is awaited. *)
Definition second_hello_verify (local peer : SocketAddr) (record : DtlsRecord) (v : FlightWait) : io Progress :=
  if fw_recorded_client_hello v then mret (NextMessage v)
  else
    let '(budget, taken) := take_budget (fw_duplicates v) in
    let v := fw_with_duplicates budget v in
    if negb taken then mret (NextMessage v)
    else
      let* v :=
        match handle_hello_verify_request (fw_hello_state v) record with
        | (st, Ok _) =>
            let '(st, r) := next_client_hello_record st in
            let* r := proto r in
            let '(flight, next) := renumber_epoch_zero_flight [r] (fw_next v) in
            let* first := proto (idx flight 0) in
            let* m := proto (parse_unfragmented_handshake_record first HtClientHello) in
            mret (fw_resent flight next RetransmitSchedule_new (fw_timer v) (fw_with_hello st m v))
        | (st, Err _) =>
            let '(flight, next) := renumber_epoch_zero_flight (fw_client_flight v) (fw_next v) in
            mret (fw_resent flight next (fw_schedule v) (fw_timer v) (fw_with_hello st (fw_client_hello_message v) v))
        | (_, Panic f) => mlift (Panic f)
        end in
      let* _ := send_records local peer (fw_client_flight v) in
      let* timer := sleep (timeout (fw_schedule v)) in
      mret (NextDatagram (fw_resent (fw_client_flight v) (fw_next v) (fw_schedule v) timer v)).

Definition server_flight_message (local peer : SocketAddr) (record : DtlsRecord) (message : HandshakeMessage)
    (v : FlightWait) : io Progress :=
  if existsb (fun m => bool_decide (m = message)) (fw_server_flight v) then mret (NextMessage v)
  else
    match message_type message with
    | HtServerHello =>
        let* '(h, _) := proto (if fw_recorded_client_hello v then Ok (fw_handshake v, tt)
                               else run (record_client_hello (fw_client_hello_message v)) (fw_handshake v)) in
        let* '(h, _) := proto (run (handle_server_hello message) h) in
        mret (NextMessage (fw_push message (fw_with_handshake h true v)))
    | ServerKeyExchange =>
        if negb (fw_recorded_client_hello v) then mret (NextMessage v)
        else
          let* '(h, _) := proto (run (handle_server_key_exchange message) (fw_handshake v)) in
          mret (NextMessage (fw_push message (fw_with_handshake h true v)))
    | ServerHelloDone =>
        let has_server_key_exchange :=
          existsb (fun m => bool_decide (message_type m = ServerKeyExchange)) (fw_server_flight v) in
        if negb (fw_recorded_client_hello v) || negb has_server_key_exchange then mret (NextMessage v)
        else
          let* '(h, _) := proto (run (handle_server_hello_done message) (fw_handshake v)) in
          mret (WholeFlight (fw_push message (fw_with_handshake h true v)))
    | HtHelloVerifyRequest => second_hello_verify local peer record v
    | ty => merr (Raise (Protocol (DCrypto ("unexpected DTLS handshake message " +:+ HandshakeType_debug ty))))
    end.

(** The messages of a record and the records of a datagram, while each asks
    for the next one. *)
Fixpoint server_flight_messages (local peer : SocketAddr) (record : DtlsRecord) (messages : list HandshakeMessage)
    (v : FlightWait) : io Progress :=
  match messages with
  | [] => mret (NextMessage v)
  | message :: rest =>
      let* p := server_flight_message local peer record message v in
      match p with
      | NextMessage v => server_flight_messages local peer record rest v
      | p => mret p
      end
  end.

Fixpoint server_flight_records (local peer : SocketAddr) (records : list DtlsRecord) (v : FlightWait) : io Progress :=
  match records with
  | [] => mret (NextMessage v)
  | record :: rest =>
      match content_type (rec_header record) with
      | CtHandshake =>
          match parse_unfragmented_handshake_messages record with
          | Ok messages =>
              let* p := server_flight_messages local peer record messages v in
              match p with
              | NextMessage v => server_flight_records local peer rest v
              | p => mret p
              end
          | Err _ => server_flight_records local peer rest v
          | Panic f => mlift (Panic f)
          end
      | CtAlert => proto (Err (decode_alert_error (rec_header record) (rec_payload record)))
      | _ => server_flight_records local peer rest v
      end
  end.

Definition server_flight_timeout (local peer : SocketAddr) (v : FlightWait) : io FlightWait :=
  let '(flight, next) := renumber_epoch_zero_flight (fw_client_flight v) (fw_next v) in
  let* _ := send_records local peer flight in
  let schedule := back_off (fw_schedule v) in
  let* timer := sleep (timeout schedule) in
  mret (fw_resent flight next schedule timer v).

Definition server_flight_datagram (local peer : SocketAddr) (records : list DtlsRecord) (v : FlightWait)
    : io (FlightWait + FlightWait) :=
  let* p := server_flight_records local peer records v in
  mret (match p with NextMessage v | NextDatagram v => inl v | WholeFlight v => inr v end).

Definition wait_for_server_flight (local peer : SocketAddr) (client_flight : list DtlsRecord) (next : Z)
    (hello_state : DtlsClientHelloState) (client_hello_message : HandshakeMessage) (handshake : ThreadDtlsHandshake)
    : io FlightWait :=
  wait peer fw_timer (server_flight_timeout local peer) (server_flight_datagram local peer) (fun schedule timer =>
    mkFlightWait client_flight next hello_state client_hello_message handshake
      schedule timer DuplicateRetransmitBudget_new false []).

(** ** Waiting for the server's Finished *)

Definition repeats_final_server_message (records : list DtlsRecord) (server_flight : list HandshakeMessage) : bool :=
  match last server_flight with
  | None => false
  | Some final_message =>
      existsb (fun record =>
        (rec_epoch (rec_header record) =? 0) && bool_decide (content_type (rec_header record) = CtHandshake) &&
        match parse_unfragmented_handshake_messages record with
        | Ok messages => existsb (fun m => bool_decide (m = final_message)) messages
        | _ => false
        end) records
  end.

Record FinishedWait := mkFinishedWait {
  nw_next : Z;
  nw_handshake : ThreadDtlsHandshake;
  nw_state : SessionState;
  nw_schedule : RetransmitSchedule;
  nw_timer : Z;
  nw_duplicates : DuplicateRetransmitBudget;
  nw_saw_change_cipher_spec : bool }.

Definition nw_with_state (s : SessionState) (v : FinishedWait) : FinishedWait :=
  mkFinishedWait (nw_next v) (nw_handshake v) s (nw_schedule v) (nw_timer v) (nw_duplicates v)
    (nw_saw_change_cipher_spec v).
Definition nw_saw (v : FinishedWait) : FinishedWait :=
  mkFinishedWait (nw_next v) (nw_handshake v) (nw_state v) (nw_schedule v) (nw_timer v) (nw_duplicates v) true.
Definition nw_resent (next : Z) (s : SessionState) (schedule : RetransmitSchedule) (timer : Z)
    (b : DuplicateRetransmitBudget) (v : FinishedWait) : FinishedWait :=
  mkFinishedWait next (nw_handshake v) s schedule timer b (nw_saw_change_cipher_spec v).

(** The messages of an opened record: whether a Finished was verified. *)
Fixpoint verify_finished_messages (messages : list HandshakeMessage) (h : ThreadDtlsHandshake) (km : ThreadDtlsKeyMaterial)
    : result DtlsError bool :=
  match messages with
  | [] => Ok false
  | message :: rest =>
      if bool_decide (message_type message = Finished) then
        let! _ := run (verify_server_finished message km) h in
        Ok true
      else verify_finished_messages rest h km
  end.

(** The records of one datagram: the values afterwards, and whether the
    server's Finished was verified. *)
Fixpoint server_finished_records (records : list DtlsRecord) (v : FinishedWait)
    : result DtlsError (FinishedWait * bool) :=
  match records with
  | [] => Ok (v, false)
  | record :: rest =>
      match rec_epoch (rec_header record), content_type (rec_header record) with
      | 0, CtChangeCipherSpec =>
          if negb (vec_eqb (rec_payload record) [1]) then Err (DCrypto "invalid ChangeCipherSpec payload")
          else server_finished_records rest (nw_saw v)
      | 1, CtHandshake =>
          if negb (nw_saw_change_cipher_spec v) then server_finished_records rest v
          else
            let! '(state, opened) := run (open_protected_record record) (nw_state v) in
            let v := nw_with_state state v in
            match opened with
            | None => server_finished_records rest v
            | Some plaintext =>
                let! plain_record := DtlsRecord_new CtHandshake 1 0 plaintext in
                let! messages := parse_unfragmented_handshake_messages plain_record in
                let! verified := verify_finished_messages messages (nw_handshake v) (ss_key_material (nw_state v)) in
                if verified then Ok (v, true) else server_finished_records rest v
            end
      | 0, CtAlert => Err (decode_alert_error (rec_header record) (rec_payload record))
      | 1, CtAlert =>
          match open_protected_record record (nw_state v) with
          | (_, Ok (Some plaintext)) => Err (decode_alert_error (rec_header record) plaintext)
          | (state, Panic f) => Panic f
          | (state, _) => server_finished_records rest (nw_with_state state v)
          end
      | _, _ => server_finished_records rest v
      end
  end.

Section Finished.
Context (local peer : SocketAddr) (client_key_exchange client_finished : HandshakeMessage)
  (server_flight : list HandshakeMessage).

(** The flight built afresh and sent, with the timer set back. *)
Definition resend_client_finished (schedule : RetransmitSchedule) (budget : DuplicateRetransmitBudget) (v : FinishedWait)
    : io FinishedWait :=
  let* '((state, next), flight) :=
    proto (run (build_client_finished_flight client_key_exchange client_finished) (nw_state v, nw_next v)) in
  let* _ := send_records local peer flight in
  let* timer := sleep (timeout schedule) in
  mret (nw_resent next state schedule timer budget v).

Definition nw_with_duplicates (b : DuplicateRetransmitBudget) (v : FinishedWait) : FinishedWait :=
  nw_resent (nw_next v) (nw_state v) (nw_schedule v) (nw_timer v) b v.

Definition server_finished_timeout (v : FinishedWait) : io FinishedWait :=
  resend_client_finished (back_off (nw_schedule v)) (nw_duplicates v) v.

Definition server_finished_datagram (records : list DtlsRecord) (v : FinishedWait) : io (FinishedWait + FinishedWait) :=
  let* v :=
    if repeats_final_server_message records server_flight then
      let '(budget, taken) := take_budget (nw_duplicates v) in
      if taken then resend_client_finished (nw_schedule v) budget v
      else mret (nw_with_duplicates budget v)
    else mret v in
  let* '(v, finished) := proto (server_finished_records records v) in
  mret (if finished then inr v else inl v).

Definition wait_for_server_finished (next : Z) (handshake : ThreadDtlsHandshake) (state : SessionState) : io FinishedWait :=
  wait peer nw_timer server_finished_timeout server_finished_datagram (fun schedule timer =>
    mkFinishedWait next handshake state schedule timer DuplicateRetransmitBudget_new false).
End Finished.

(** ** The handshake *)

Definition connect_inner (local peer : SocketAddr) (pskc : bytes) : io SessionState :=
  let* handshake := draw (fun g => ClientHandshake_new_with_rng g pskc) in
  let* hello_state := proto (client_hello_state handshake) in
  let '(hello_state, r) := next_client_hello_record hello_state in
  let* r := proto r in
  let '(first_client_flight, next) := renumber_epoch_zero_flight [r] 0 in
  let* _ := proto (idx first_client_flight 0) in
  let* _ := send_records local peer first_client_flight in
  let* '(hello_state, next) := wait_for_hello_verify local peer first_client_flight next hello_state in
  let '(hello_state, r) := next_client_hello_record hello_state in
  let* r := proto r in
  let '(second_client_flight, next) := renumber_epoch_zero_flight [r] next in
  let* first := proto (idx second_client_flight 0) in
  let* client_hello_message := proto (parse_unfragmented_handshake_record first HtClientHello) in
  let* _ := send_records local peer second_client_flight in
  let* v := wait_for_server_flight local peer second_client_flight next hello_state client_hello_message handshake in
  let client_key_exchange_seq := next_message_sequence (fw_hello_state v) in
  let* '(handshake, client_key_exchange) := draw (fun g =>
    map_ok (fun '((h, g), m) => (h, m, g)) (run (build_client_key_exchange client_key_exchange_seq) (fw_handshake v, g))) in
  let* key_material := proto (client_derive_key_material handshake) in
  let* '(handshake, client_finished) :=
    proto (run (build_client_finished (wrapping_add 16 client_key_exchange_seq 1)) handshake) in
  let state := during_handshake key_material RoleOfClient in
  let* '((state, next), client_finished_flight) :=
    proto (run (build_client_finished_flight client_key_exchange client_finished) (state, fw_next v)) in
  let* _ := send_records local peer client_finished_flight in
  let* v := wait_for_server_finished local peer client_key_exchange client_finished (fw_server_flight v)
              next handshake state in
  mret (nw_state v).

Definition connect_with_rng (local peer : SocketAddr) (pskc : bytes) (duration : Z) : io SessionState :=
  with_timeout (connect_inner local peer pskc) duration.

(** ** The established client session *)

Record DtlsClientSession := mkDtlsClientSession {
  cs_local : SocketAddr;
  cs_peer : SocketAddr;
  cs_state : SessionState }.

(** [DtlsClient::connect_with_rng]. *)
Definition DtlsClient_connect_with_rng (local peer : SocketAddr) (pskc : bytes) (duration : Z) : io DtlsClientSession :=
  let* state := connect_with_rng local peer pskc duration in
  mret (mkDtlsClientSession local peer state).

Definition set_cs_state (s : SessionState) (c : DtlsClientSession) : DtlsClientSession :=
  mkDtlsClientSession (cs_local c) (cs_peer c) s.

Definition client_io (A : Type) : Type := M (DtlsClientSession * World) Stop A.
(** Methods of the session's state and of the world. *)
Definition on_cs_state {A} (m : M (SessionState * World) Stop A) : client_io A :=
  mzoom (fun e => e) (fun '(c, w) => (cs_state c, w)) (fun '(s, w) '(c, _) => (set_cs_state s c, w)) m.

Definition client_send_application_data (plaintext : bytes) : client_io unit :=
  let* '(local, peer) := mget (fun '(c, _) => (cs_local c, cs_peer c)) in
  let* record := on_cs_state (on_state (protect_application_data plaintext)) in
  on_cs_state (on_world (send_records local peer [record])).

Definition client_recv_application_data (duration : Z) : client_io bytes :=
  let* peer := mget (fun '(c, _) => cs_peer c) in
  on_cs_state (recv_application_data peer duration).

Definition request_application_data (plaintext : bytes) (duration : Z) : client_io bytes :=
  let* _ := client_send_application_data plaintext in
  client_recv_application_data duration.
End Client.
