(* ===== verification/ServerDriver.v ===== *)
(** * ServerDriver: the DTLS server driver

    The model of crates/meshcop-dtls/src/server_driver.rs over the world of
    [Driver]: the stateless cookie exchange, the handshake with the first peer
    that returns a cookie, and the established session, which answers a
    repeated client flight. *)
From S2P Require Import Prelude Text Tlv Errors Replay Record Handshake Hello Crypto Ecjpake.
From S2P Require Import ThreadHandshake Safety Driver ClientDriver.

Definition ALERT_LEVEL_FATAL : Z := 2.
Definition ALERT_HANDSHAKE_FAILURE : Z := 40.

Section Server.
Context {HH : Hash} {AA : Aead} {NN : Net} {CC : Curve} {RR : Rng}.

Definition contains_client_hello (records : list DtlsRecord) (expected : HandshakeMessage) : bool :=
  existsb (fun record =>
    if negb (rec_epoch (rec_header record) =? 0) || negb (bool_decide (content_type (rec_header record) = CtHandshake))
    then false
    else
      match parse_unfragmented_handshake_messages record with
      | Ok messages => existsb (fun m => bool_decide (m = expected)) messages
      | _ => false
      end) records.

Definition take_server_finished_retry (server_finished : bytes) (records : list DtlsRecord)
    (budget : DuplicateRetransmitBudget) : DuplicateRetransmitBudget * bool :=
  if negb (is_empty server_finished) && is_client_finished_flight records then take_budget budget else (budget, false).

Definition build_server_finished_flight (server_finished : bytes) : M (SessionState * Z) DtlsError (list DtlsRecord) :=
  let* n := take_next in
  let* r1 := mlift (DtlsRecord_new CtChangeCipherSpec 0 n [1]) in
  let* r2 := sequenced (protect_record CtHandshake server_finished) in
  mret [r1; r2].

Definition send_fatal_handshake_alert (local peer : SocketAddr) (sequence : Z) : io unit :=
  let* alert := proto (DtlsRecord_new CtAlert 0 sequence [ALERT_LEVEL_FATAL; ALERT_HANDSHAKE_FAILURE]) in
  send_records local peer [alert].

(** ** The cookie exchange *)

(** The ClientHellos of one record: the message that carried a valid cookie,
    if any; each other is answered with a HelloVerifyRequest. *)
Fixpoint hello_messages (cookies : DtlsCookieGenerator) (local peer : SocketAddr) (sequence : Z)
    (messages : list HandshakeMessage) : io (option HandshakeMessage) :=
  match messages with
  | [] => mret None
  | message :: rest =>
      if negb (bool_decide (message_type message = HtClientHello)) then hello_messages cookies local peer sequence rest
      else
        match ClientHello_decode (hs_payload message) with
        | Err _ => hello_messages cookies local peer sequence rest
        | Panic f => mlift (Panic f)
        | Ok hello =>
            if verify cookies (ch_random hello) (ch_cookie hello) then mret (Some message)
            else
              let* ck := proto (cookie cookies (ch_random hello)) in
              let* body := proto (HelloVerifyRequest_encode (mkHelloVerifyRequest DTLS_1_2_VERSION ck)) in
              let* b := proto (HandshakeMessage_encode
                          (mkHandshakeMessage HtHelloVerifyRequest (message_seq message) body)) in
              let* verify_record := proto (DtlsRecord_new CtHandshake 0 sequence b) in
              let* _ := send_records local peer [verify_record] in
              hello_messages cookies local peer sequence rest
        end
  end.

Fixpoint hello_records (cookies : DtlsCookieGenerator) (local peer : SocketAddr) (records : list DtlsRecord)
    : io (option (HandshakeMessage * Z)) :=
  match records with
  | [] => mret None
  | record :: rest =>
      if negb (rec_epoch (rec_header record) =? 0) || negb (bool_decide (content_type (rec_header record) = CtHandshake))
      then hello_records cookies local peer rest
      else
        match parse_unfragmented_handshake_messages record with
        | Ok messages =>
            let* accepted := hello_messages cookies local peer (sequence_number (rec_header record)) messages in
            match accepted with
            | Some message => mret (Some (message, sequence_number (rec_header record)))
            | None => hello_records cookies local peer rest
            end
        | Err _ => hello_records cookies local peer rest
        | Panic f => mlift (Panic f)
        end
  end.

(** Each turn takes an arrival. *)
Fixpoint accept_hello_loop (fuel : nat) (cookies : DtlsCookieGenerator)
    : io (SocketAddr * SocketAddr * HandshakeMessage * Z) :=
  match fuel with
  | O => mlift (Panic OutOfFuel)
  | S fuel =>
      let* '(records, local, peer) := recv_records_unbounded in
      let* accepted := hello_records cookies local peer records in
      match accepted with
      | Some (message, record_sequence) => mret (local, peer, message, record_sequence)
      | None => accept_hello_loop fuel cookies
      end
  end.

(** ** The client's flight *)

Record AcceptWait := mkAcceptWait {
  aw_handshake : ThreadDtlsServerHandshake;
  aw_server_flight : list DtlsRecord;
  aw_next : Z;
  aw_schedule : RetransmitSchedule;
  aw_timer : Z;
  aw_duplicates : DuplicateRetransmitBudget;
  aw_saw_change_cipher_spec : bool;
  aw_key_material : option ThreadDtlsKeyMaterial;
  aw_client_key_exchange : option HandshakeMessage }.

Definition aw_resent (flight : list DtlsRecord) (next : Z) (schedule : RetransmitSchedule) (timer : Z) (v : AcceptWait)
    : AcceptWait :=
  mkAcceptWait (aw_handshake v) flight next schedule timer (aw_duplicates v) (aw_saw_change_cipher_spec v)
    (aw_key_material v) (aw_client_key_exchange v).
Definition aw_with_duplicates (b : DuplicateRetransmitBudget) (v : AcceptWait) : AcceptWait :=
  mkAcceptWait (aw_handshake v) (aw_server_flight v) (aw_next v) (aw_schedule v) (aw_timer v) b
    (aw_saw_change_cipher_spec v) (aw_key_material v) (aw_client_key_exchange v).
Definition aw_saw (v : AcceptWait) : AcceptWait :=
  mkAcceptWait (aw_handshake v) (aw_server_flight v) (aw_next v) (aw_schedule v) (aw_timer v) (aw_duplicates v) true
    (aw_key_material v) (aw_client_key_exchange v).
Definition aw_with_keys (h : ThreadDtlsServerHandshake) (km : ThreadDtlsKeyMaterial) (m : HandshakeMessage)
    (v : AcceptWait) : AcceptWait :=
  mkAcceptWait h (aw_server_flight v) (aw_next v) (aw_schedule v) (aw_timer v) (aw_duplicates v)
    (aw_saw_change_cipher_spec v) (Some km) (Some m).

Fixpoint client_key_exchange_messages (messages : list HandshakeMessage) (v : AcceptWait) : result DtlsError AcceptWait :=
  match messages with
  | [] => Ok v
  | message :: rest =>
      if negb (bool_decide (message_type message = ClientKeyExchange)) then client_key_exchange_messages rest v
      else if bool_decide (aw_client_key_exchange v = Some message) then client_key_exchange_messages rest v
      else
        let! '(h, _) := run (handle_client_key_exchange message) (aw_handshake v) in
        let! km := server_derive_key_material h in
        client_key_exchange_messages rest (aw_with_keys h km message v)
  end.

Record Accepted := mkAccepted {
  acc_local : SocketAddr;
  acc_peer : SocketAddr;
  acc_state : SessionState;
  acc_server_finished : bytes;
  acc_next_epoch_zero_record : Z }.

(** The client's Finished under the keys: the accepted session, or a fatal
    alert and the error. *)
Definition accept_finished (local peer : SocketAddr) (server_message_sequence : Z) (record : DtlsRecord)
    (keys : ThreadDtlsKeyMaterial) (v : AcceptWait) : io Accepted :=
  let alert_and_fail e :=
    let* _ := send_fatal_handshake_alert local peer (aw_next v) in
    merr (Raise (Protocol e)) in
  match open_aes_128_ccm_8_record record (client_write_key (key_block keys)) (client_write_iv (key_block keys)) with
  | Err e => alert_and_fail e
  | Panic f => mlift (Panic f)
  | Ok plaintext =>
      let* plain_record := proto (DtlsRecord_new CtHandshake 1 0 plaintext) in
      let* finished := proto (parse_unfragmented_handshake_record plain_record Finished) in
      match verify_client_finished finished keys (aw_handshake v) with
      | (_, Err e) => alert_and_fail e
      | (_, Panic f) => mlift (Panic f)
      | (h, Ok _) =>
          let* '(h, server_finished) := proto (run (build_server_finished (wrapping_add 16 server_message_sequence 3) keys) h) in
          let* server_finished := proto (HandshakeMessage_encode server_finished) in
          let* key_material := proto (ok_or (aw_key_material v) (DInvalidState "client key material is missing")) in
          let state := during_handshake key_material RoleOfServer in
          let* '((state, next), flight) := proto (run (build_server_finished_flight server_finished) (state, aw_next v)) in
          let* _ := send_records local peer flight in
          mret (mkAccepted local peer state server_finished next)
      end
  end.

(** The records of one datagram: the values, or the accepted session. *)
Fixpoint accept_records (local peer : SocketAddr) (server_message_sequence : Z) (records : list DtlsRecord)
    (v : AcceptWait) : io (AcceptWait + Accepted) :=
  match records with
  | [] => mret (inl v)
  | record :: rest =>
      let next v := accept_records local peer server_message_sequence rest v in
      match rec_epoch (rec_header record), content_type (rec_header record) with
      | 0, CtHandshake =>
          match parse_unfragmented_handshake_messages record with
          | Ok messages => let* v := proto (client_key_exchange_messages messages v) in next v
          | Err _ => next v
          | Panic f => mlift (Panic f)
          end
      | 0, CtChangeCipherSpec =>
          if negb (vec_eqb (rec_payload record) [1])
          then merr (Raise (Protocol (DCrypto "invalid ChangeCipherSpec payload")))
          else next (aw_saw v)
      | 1, CtHandshake =>
          if negb (aw_saw_change_cipher_spec v) then next v
          else
            match aw_key_material v with
            | None => next v
            | Some keys =>
                let* a := accept_finished local peer server_message_sequence record keys v in
                mret (inr a)
            end
      | 0, CtAlert => merr (Raise (Protocol (decode_alert_error (rec_header record) (rec_payload record))))
      | _, _ => next v
      end
  end.

Definition accept_timeout (local peer : SocketAddr) (v : AcceptWait) : io AcceptWait :=
  let '(flight, next) := renumber_epoch_zero_flight (aw_server_flight v) (aw_next v) in
  let* _ := send_records local peer flight in
  let schedule := back_off (aw_schedule v) in
  let* timer := sleep (timeout schedule) in
  mret (aw_resent flight next schedule timer v).

Definition accept_datagram (local peer : SocketAddr) (client_hello : HandshakeMessage) (records : list DtlsRecord)
    (v : AcceptWait) : io (AcceptWait + Accepted) :=
  if contains_client_hello records client_hello then
    let '(budget, taken) := take_budget (aw_duplicates v) in
    let v := aw_with_duplicates budget v in
    if taken then
      let '(flight, next) := renumber_epoch_zero_flight (aw_server_flight v) (aw_next v) in
      let* _ := send_records local peer flight in
      let* timer := sleep (timeout (aw_schedule v)) in
      mret (inl (aw_resent flight next (aw_schedule v) timer v))
    else mret (inl v)
  else accept_records local peer (message_seq client_hello) records v.

(** ** The handshake *)

(** The records of the server's flight, numbered from [next]. *)
Fixpoint flight_records (messages : list HandshakeMessage) (next : Z) : result DtlsError (list DtlsRecord * Z) :=
  match messages with
  | [] => Ok ([], next)
  | message :: rest =>
      let! b := HandshakeMessage_encode message in
      let! r := DtlsRecord_new CtHandshake 0 next b in
      let! '(rs, next) := flight_records rest (wrapping_add 64 next 1) in
      Ok (r :: rs, next)
  end.

Definition accept_inner (pskc : bytes) : io Accepted :=
  let* cookies := draw (fun g => let '(c, g) := DtlsCookieGenerator_new_with_rng g in Ok (c, g)) in
  let* fuel := mget (fun w => S (length (arrivals w))) in
  let* '(local, peer, client_hello, client_hello_record_sequence) := accept_hello_loop fuel cookies in
  let* handshake := draw (fun g => ServerHandshake_new_with_rng g pskc) in
  let* '(handshake, _) := proto (run (handle_client_hello client_hello) handshake) in
  let seq := message_seq client_hello in
  let* '(handshake, m1) := proto (run (build_server_hello seq) handshake) in
  let* '(handshake, m2) := draw (fun g =>
    map_ok (fun '((h, g), m) => (h, m, g)) (run (build_server_key_exchange (wrapping_add 16 seq 1)) (handshake, g))) in
  let* '(handshake, m3) := proto (run (build_server_hello_done (wrapping_add 16 seq 2)) handshake) in
  let* '(server_flight, next) := proto (flight_records [m1; m2; m3] client_hello_record_sequence) in
  let* _ := send_records local peer server_flight in
  wait peer aw_timer (accept_timeout local peer) (accept_datagram local peer client_hello) (fun schedule timer =>
    mkAcceptWait handshake server_flight next schedule timer DuplicateRetransmitBudget_new false None None).

Definition accept_with_rng (pskc : bytes) (duration : Z) : io Accepted :=
  with_timeout (accept_inner pskc) duration.

(** ** The established server session *)

Record DtlsServerSession := mkDtlsServerSession {
  ds_local : SocketAddr;
  ds_peer : SocketAddr;
  ds_state : SessionState;
  ds_server_finished : bytes;
  ds_next_epoch_zero_record : Z }.

Definition server_session (a : Accepted) : DtlsServerSession :=
  mkDtlsServerSession (acc_local a) (acc_peer a) (acc_state a) (acc_server_finished a) (acc_next_epoch_zero_record a).

(** [DtlsServer::accept_with_rng]. *)
Definition DtlsServer_accept_with_rng (pskc : bytes) (duration : Z) : io DtlsServerSession :=
  let* accepted := accept_with_rng pskc duration in
  mret (server_session accepted).

Definition set_ds_state (s : SessionState) (d : DtlsServerSession) : DtlsServerSession :=
  mkDtlsServerSession (ds_local d) (ds_peer d) s (ds_server_finished d) (ds_next_epoch_zero_record d).
Definition clear_server_finished (d : DtlsServerSession) : DtlsServerSession :=
  mkDtlsServerSession (ds_local d) (ds_peer d) (ds_state d) [] (ds_next_epoch_zero_record d).
Definition set_ds_next (n : Z) (d : DtlsServerSession) : DtlsServerSession :=
  mkDtlsServerSession (ds_local d) (ds_peer d) (ds_state d) (ds_server_finished d) n.

Definition server_io (A : Type) : Type := M (DtlsServerSession * World) Stop A.
Definition on_ds_state {A} (m : M SessionState DtlsError A) : server_io A :=
  mzoom (fun e => Raise (Protocol e)) (fun '(d, _) => ds_state d) (fun s '(d, w) => (set_ds_state s d, w)) m.
Definition on_ds_world {A} (m : io A) : server_io A :=
  mzoom (fun e => e) snd (fun w '(d, _) => (d, w)) m.
Definition on_ds_flight {A} (m : M (SessionState * Z) DtlsError A) : server_io A :=
  mzoom (fun e => Raise (Protocol e)) (fun '(d, _) => (ds_state d, ds_next_epoch_zero_record d))
    (fun '(s, n) '(d, w) => (set_ds_next n (set_ds_state s d), w)) m.
Definition update_ds (f : DtlsServerSession -> DtlsServerSession) : server_io unit := mset (fun '(d, w) => (f d, w)).

Definition send_application_data (plaintext : bytes) : server_io unit :=
  let* '(local, peer) := mget (fun '(d, _) => (ds_local d, ds_peer d)) in
  let* record := on_ds_state (protect_application_data plaintext) in
  on_ds_world (send_records local peer [record]).

(** The loop of [recv_application_data_inner]; each further turn takes an
    arrival. *)
Fixpoint server_recv_loop (fuel : nat) (duplicates : DuplicateRetransmitBudget) : server_io bytes :=
  match fuel with
  | O => mlift (Panic OutOfFuel)
  | S fuel =>
      let* next := on_ds_state open_next_record in
      match next with
      | Some r =>
          let* _ := update_ds clear_server_finished in
          proto r
      | None =>
          let* d := mget fst in
          let* '(records, _, _) := on_ds_world (recv_records_from_unbounded (ds_peer d)) in
          let '(duplicates, retry) := take_server_finished_retry (ds_server_finished d) records duplicates in
          let* _ :=
            (if (retry : bool) then
               let* flight := on_ds_flight (build_server_finished_flight (ds_server_finished d)) in
               on_ds_world (send_records (ds_local d) (ds_peer d) flight)
             else mret tt) in
          let* _ := update_ds (fun d => set_ds_state (receive_datagram records (ds_state d)) d) in
          server_recv_loop fuel duplicates
      end
  end.

Definition server_recv_application_data (duration : Z) : server_io bytes := fun dw =>
  (let* expiry := on_ds_world (sleep duration) in
   race (fun '(_, w) => timers w) (fun ts '(d, w) => (d, set_timers ts w))
     (server_recv_loop (S (length (arrivals dw.2))) DuplicateRetransmitBudget_new) expiry) dw.

Definition respond_application_data (response : bytes) (duration : Z) : server_io bytes :=
  let* request := server_recv_application_data duration in
  let* _ := send_application_data response in
  mret request.
End Server.
