(* ===== verification/DriverRuns.v ===== *)
(** * DriverRuns: an honest client and an honest server over a network

    The client driver of [ClientDriver] and the server driver of
    [ServerDriver] exchange the datagrams of one handshake: what each sends is
    what arrives at the other. *)
From S2P Require Import Prelude Text Tlv Errors Replay Record Handshake Hello Crypto Ecjpake.
From S2P Require Import ThreadHandshake Safety Driver Flights ClientDriver ServerDriver.

(** Computes the fields of a world that is written out. *)
Ltac norm_world := cbv beta iota delta [set_rng set_timers log_send after_arrival set_arrivals set_clock clock timers arrivals send_results sent world_rng tl].

Section Runs.
Context {HH : Hash} {HL : HashLaws} {AA : Aead} {AL : AeadLaws} {NN : Net} {CC : Curve} {CL : CurveLaws} {RR : Rng}
  {RL : RngLaws}.

(** Each time is at most a second after the one before it, and none after
    [limit]: no timer of a handshake expires. *)
Fixpoint prompt (now limit : Z) (ts : list Z) : Prop :=
  match ts with
  | [] => True
  | t :: ts => now <= t <= now + SECOND /\ t <= limit /\ prompt t limit ts
  end.

Lemma loop_fuel_pos w : exists n, loop_fuel w = S n.
Proof. unfold loop_fuel. eexists. rewrite Nat.add_1_r. cbn [Nat.mul Nat.add]. reflexivity. Qed.

Lemma proto_ok {S A B} (r : result DtlsError A) (k : A -> M S Stop B) s a : r = Ok a -> mbind (proto r) k s = k a s.
Proof. by intros ->. Qed.
Lemma io_step {S E A B} (m : M S E A) (k : A -> M S E B) s s' a : m s = (s', Ok a) -> mbind m k s = k a s'.
Proof. unfold mbind. by intros ->. Qed.

(** A wait whose first datagram arrives in time. *)
Lemma wait_first {V A} peer l (timer : V -> Z) ot (od : list DtlsRecord -> V -> io (V + A)) start w t d rest rs :
  timer (start RetransmitSchedule_new (clock w + SECOND)) = clock w + SECOND ->
  arrivals w = (t, Rx d l peer) :: rest -> unexpired t w -> clock w <= t <= clock w + SECOND ->
  len d <= MAX_DATAGRAM_SIZE -> parse_datagram d = Ok rs -> exists n,
  wait peer timer ot od start w =
    mbind (od rs (start RetransmitSchedule_new (clock w + SECOND)))
      (fun r => match r with inl v => wait_loop peer timer ot od n v | inr a => mret a end) (after_arrival t rest w).
Proof.
  intros Ht Ha Hu Hle Hl Hp. destruct (loop_fuel_pos w) as [n Hn]. exists n. unfold wait, mbind at 1.
  rewrite sleep_ok by by_decide. unfold mbind at 1, mget. rewrite Hn. cbn [wait_loop].
  change (timeout RetransmitSchedule_new) with SECOND. rewrite Ht. unfold mbind at 1.
  by rewrite (recv_before_ok w t d l peer rest rs) by (done || lia).
Qed.

(** ** The client's side *)

Section Client.
Context (local peer l : SocketAddr).

(** A datagram that arrives from the peer within a second. *)
Definition arrives (w : World) (t : Z) (d : bytes) (rest : list (Z * Arrival)) (rs : list DtlsRecord) : Prop :=
  arrivals w = (t, Rx d l peer) :: rest /\ unexpired t w /\ clock w <= t <= clock w + SECOND /\
  len d <= MAX_DATAGRAM_SIZE /\ parse_datagram d = Ok rs.

Lemma arrives_mk c tm rs t rest sr sn g :
  Forall (Z.le t) tm -> c <= t <= c + SECOND -> carries (datagram rs) rs ->
  arrives (mkWorld c tm ((t, Rx (datagram rs) l peer) :: rest) sr sn g) t (datagram rs) rest rs.
Proof. intros Htm Ht (_ & Hp & Hl). by split. Qed.

Lemma arrives_wait {V A} (timer : V -> Z) ot (od : list DtlsRecord -> V -> io (V + A)) start w t d rest rs w' a :
  timer (start RetransmitSchedule_new (clock w + SECOND)) = clock w + SECOND -> arrives w t d rest rs ->
  od rs (start RetransmitSchedule_new (clock w + SECOND)) (after_arrival t rest w) = (w', Ok (inr a)) ->
  wait peer timer ot od start w = (w', Ok a).
Proof.
  intros Ht (Ha & Hu & Hle & Hl & Hp) Hod.
  destruct (wait_first peer l timer ot od start w t d rest rs Ht Ha Hu Hle Hl Hp) as [n ->]. by rewrite (io_step _ _ _ _ _ Hod).
Qed.

Lemma hello_verify_ok w t d rest flight next st hr hm st' hv :
  arrives w t d rest [hr] -> carries_message hr hm -> message_type hm = HtHelloVerifyRequest ->
  handle_hello_verify_request st hr = (st', Ok hv) ->
  wait_for_hello_verify local peer flight next st w = (after_arrival t rest w, Ok (st', next)).
Proof.
  intros Ha Hc Ht Hh. eapply arrives_wait; [done|exact Ha|]. unfold hello_verify_datagram. cbn [hw_hello_state hello_verify_records].
  rewrite (proto_ok _ _ _ (Some st')); [done|]. pose proof (carried_messages hr hm Hc) as Hm.
  destruct Hc as (_ & _ & -> & _). rewrite Hm. cbn [existsb]. rewrite bool_decide_true by done. cbn [orb]. by rewrite Hh.
Qed.

(** One message of the server's flight, in a record of its own. *)
Lemma flight_record r m rest v v' w p :
  carries_message r m -> server_flight_message local peer r m v w = (w, Ok p) ->
  (p = NextMessage v' -> server_flight_records local peer (r :: rest) v w = server_flight_records local peer rest v' w) /\
  (p = WholeFlight v' -> server_flight_records local peer (r :: rest) v w = (w, Ok (WholeFlight v'))).
Proof.
  intros Hc Hp. pose proof (carried_messages r m Hc) as Hm. destruct Hc as (_ & _ & Hct & _).
  split; intros ->; cbn [server_flight_records]; rewrite Hct, Hm; cbn [server_flight_messages]; unfold mbind; by rewrite Hp.
Qed.

Lemma server_flight_ok w t d rest flight next st cl cl' sv sv' gs gs' ch sh ske shd r1 r2 r3 :
  hello_run cl cl' sv sv' gs gs' ch sh ske shd ->
  arrives w t d rest [r1; r2; r3] -> carries_message r1 sh -> carries_message r2 ske -> carries_message r3 shd ->
  exists v, wait_for_server_flight local peer flight next st ch cl w = (after_arrival t rest w, Ok v) /\
    fw_handshake v = cl' /\ fw_next v = next /\ fw_hello_state v = st /\ fw_server_flight v = [sh; ske; shd].
Proof.
  intros [cl1 cl2 cl3 sv1 sv2 sv3 h sh' r2' E1 _ _ _ _ E6 E7 E8 _ Ht] Ha C1 C2 C3. injection Ht as T1 T2 T3.
  set (w1 := after_arrival t rest w).
  set (v0 := mkFlightWait flight next st ch cl RetransmitSchedule_new (clock w + SECOND) DuplicateRetransmitBudget_new false []).
  set (v1 := fw_push sh (fw_with_handshake cl2 true v0)). set (v2 := fw_push ske (fw_with_handshake cl3 true v1)).
  set (v3 := fw_push shd (fw_with_handshake cl' true v2)).
  assert (sh <> ske /\ sh <> shd /\ ske <> shd) as (N1 & N2 & N3) by (split_and!; congruence).
  assert (server_flight_message local peer r1 sh v0 w1 = (w1, Ok (NextMessage v1))) as M1.
  { unfold server_flight_message. cbn [fw_server_flight v0 existsb]. rewrite T1. cbn [fw_recorded_client_hello].
    rewrite (proto_ok _ _ _ (cl1, tt)) by (by apply run_step). by rewrite (proto_ok _ _ _ (cl2, sh')) by (by apply run_step). }
  assert (server_flight_message local peer r2 ske v1 w1 = (w1, Ok (NextMessage v2))) as M2.
  { unfold server_flight_message. cbn [fw_server_flight fw_push fw_with_handshake v0 v1 existsb app]. rewrite T2.
    rewrite bool_decide_false by done. cbn [orb].
    change (fw_recorded_client_hello v1) with true. change (fw_handshake v1) with cl2. cbn [negb].
    by rewrite (proto_ok _ _ _ (cl3, r2')) by (by apply run_step). }
  assert (server_flight_message local peer r3 shd v2 w1 = (w1, Ok (WholeFlight v3))) as M3.
  { unfold server_flight_message. cbn [fw_server_flight fw_push fw_with_handshake v0 v1 v2 existsb app]. rewrite T3.
    rewrite !bool_decide_false by (done || congruence). rewrite T2. rewrite (bool_decide_true (_ = _)) by done.
    rewrite orb_true_r. cbn [orb].
    change (fw_recorded_client_hello v2) with true. change (fw_handshake v2) with cl3. cbn [negb orb].
    by rewrite (proto_ok _ _ _ (cl', tt)) by (by apply run_step). }
  assert (server_flight_records local peer [r1; r2; r3] v0 w1 = (w1, Ok (WholeFlight v3))) as Hr.
  { rewrite (proj1 (flight_record _ _ _ _ v1 _ _ C1 M1) eq_refl), (proj1 (flight_record _ _ _ _ v2 _ _ C2 M2) eq_refl).
    by rewrite (proj2 (flight_record _ _ _ _ v3 _ _ C3 M3) eq_refl). }
  exists v3. split; [|by split_and!]. eapply arrives_wait; [done|exact Ha|]. unfold server_flight_datagram.
  by rewrite (io_step _ _ _ _ _ Hr).
Qed.

Definition is_ccs (r : DtlsRecord) : Prop :=
  rec_epoch (rec_header r) = 0 /\ content_type (rec_header r) = CtChangeCipherSpec /\ rec_payload r = [1].

Lemma open_fresh r ct n key iv pl self :
  protects r ct n key iv pl -> has_seen (application_replay self) n = false -> read_keys self = (key, iv) ->
  open_protected_record r self =
    (set_application_replay (mark_seen (application_replay self) n) self, Ok (Some pl)).
Proof.
  intros (_ & _ & _ & Hs & _ & Ho) Hf Hk. unfold open_protected_record, mbind, mget, id. rewrite Hs, Hf, Hk.
  unfold mlift. by rewrite Ho.
Qed.

Lemma server_finished_ok w t d rest cke fin flight next cl cl' km sfin state ccs fr :
  arrives w t d rest [ccs; fr] -> is_ccs ccs ->
  protects fr CtHandshake 0 (server_write_key (key_block km)) (server_write_iv (key_block km)) (msg_bytes sfin) ->
  short_msg sfin -> message_type sfin = Finished -> verify_server_finished sfin km cl = (cl', Ok tt) ->
  ss_role state = RoleOfClient -> ss_key_material state = km -> application_replay state = ReplayWindow_new ->
  exists v, wait_for_server_finished local peer cke fin flight next cl state w = (after_arrival t rest w, Ok v) /\
    nw_state v = set_application_replay (mark_seen ReplayWindow_new 0) state.
Proof.
  intros Ha (E1 & E2 & E3) Hp Hs Ht Hv Hr Hk Hw.
  set (v0 := mkFinishedWait next cl state RetransmitSchedule_new (clock w + SECOND) DuplicateRetransmitBudget_new false).
  assert (rec_epoch (rec_header fr) = 1 /\ content_type (rec_header fr) = CtHandshake) as [F1 F2] by (destruct Hp as (_ & ? & ? & _); done).
  assert (repeats_final_server_message [ccs; fr] flight = false) as Hrep.
  { unfold repeats_final_server_message. destruct (last flight); [|done]. cbn [existsb]. by rewrite E1, E2, F1. }
  destruct (opened_messages sfin Hs) as (pr & Epr & Pm & _).
  assert (read_keys state = (server_write_key (key_block km), server_write_iv (key_block km))) as Hkeys
    by (unfold read_keys; by rewrite Hr, Hk).
  pose proof (open_fresh fr CtHandshake 0 _ _ _ state Hp ltac:(by rewrite Hw) Hkeys) as Ho.
  rewrite Hw in Ho. set (state' := set_application_replay _ state) in *.
  exists (nw_with_state state' (nw_saw v0)). split; [|done]. eapply arrives_wait; [done|exact Ha|].
  fold v0. unfold server_finished_datagram. rewrite Hrep. rewrite (io_step (mret v0) _ _ (after_arrival t rest w) v0) by done.
  rewrite (proto_ok _ _ _ (nw_with_state state' (nw_saw v0), true)); [done|].
  cbn [server_finished_records]. rewrite E1, E2, E3, F1, F2. cbn [vec_eqb].
  change (vec_eqb [1] [1]) with true. cbn [negb]. change (nw_saw_change_cipher_spec (nw_saw v0)) with true. cbn [negb].
  change (nw_state (nw_saw v0)) with state. rewrite (run_step _ _ _ _ Ho). cbn [rbind].
  rewrite Epr. cbn [rbind]. rewrite Pm. cbn [rbind verify_finished_messages].
  rewrite bool_decide_true by done. change (nw_handshake _) with cl.
  replace (ss_key_material (nw_state (nw_with_state state' (nw_saw v0)))) with km by (symmetry; exact Hk).
  by rewrite (run_step _ _ _ _ Hv).
Qed.
End Client.

(** ** The pieces both sides build *)

Lemma hello_short cr ck kc q : bytes_ok cr -> len cr = 32 -> bytes_ok ck -> len ck <= 255 -> bytes_ok kc -> len kc <= 330 ->
  is_u16 q -> short_msg (hello_message cr ck kc q) /\
  ClientHello_encode (thread_profile_with_ecjpake cr ck kc) = Ok (hs_payload (hello_message cr ck kc q)) /\
  ClientHello_decode (hs_payload (hello_message cr ck kc q)) = Ok (thread_profile_with_ecjpake cr ck kc).
Proof.
  intros Hr Hl Hc Hlc Hk Hlk Hq. destruct (thread_client_hello_wf cr ck kc Hr Hl Hc Hlc Hk Hlk) as (Hw & Hb & _).
  split; [split; [done|split; [by apply client_hello_bytes_ok|done]]|].
  split; [by apply ClientHello_encode_ok|by apply ClientHello_decode_bytes].
Qed.

Definition hello_state (cr ck kc : bytes) (rs ms : Z) (q : option Z) : DtlsClientHelloState :=
  mkDtlsClientHelloState cr ck (Some kc) rs ms q.

Lemma client_hello_step cr ck kc rs ms q : bytes_ok cr -> len cr = 32 -> bytes_ok ck -> len ck <= 255 -> bytes_ok kc ->
  len kc <= 330 -> is_u16 ms -> uint 48 rs ->
  next_client_hello_record (hello_state cr ck kc rs ms q) =
    (hello_state cr ck kc (rs + 1) (wrapping_add 16 ms 1) (Some ms), Ok (msg_record rs (hello_message cr ck kc ms))).
Proof.
  intros Hr Hl Hc Hlc Hk Hlk Hm Hs. destruct (hello_short cr ck kc ms) as (Sm & He & _); [done..|].
  unfold next_client_hello_record, hello_state.
  cbn [st_random st_cookie st_ecjpake_kkpp next_record_sequence next_message_sequence last_client_hello_sequence].
  rewrite He. cbn [rbind]. change (mkHandshakeMessage HtClientHello ms (hs_payload (hello_message cr ck kc ms)))
    with (hello_message cr ck kc ms).
  rewrite HandshakeMessage_encode_ok by by apply short_msg_wf. cbn [rbind]. rewrite msg_record_new by done.
  unfold wrapping_add at 1. by rewrite wrap_small by (unfold uint in *; lia).
Qed.

(** The HelloVerifyRequest with cookie [ck]. *)
Definition hv_message (q : Z) (ck : bytes) : HandshakeMessage :=
  mkHandshakeMessage HtHelloVerifyRequest q (to_be 2 DTLS_1_2_VERSION ++ len ck :: ck).

Lemma hv_message_ok q ck : is_u16 q -> bytes_ok ck -> len ck <= 255 ->
  short_msg (hv_message q ck) /\
  HelloVerifyRequest_encode (mkHelloVerifyRequest DTLS_1_2_VERSION ck) = Ok (hs_payload (hv_message q ck)) /\
  HelloVerifyRequest_decode (hs_payload (hv_message q ck)) = Ok (mkHelloVerifyRequest DTLS_1_2_VERSION ck).
Proof.
  intros Hq Hc Hl. pose proof (len_nonneg ck). split; [|by apply HelloVerifyRequest_roundtrip; [by_decide|]].
  split; [done|]. cbn [hs_payload hv_message]. split.
  - apply Forall_app_2; [apply to_be_ok|]. constructor; [unfold uint; lia|done].
  - rewrite len_app, len_cons, len_to_be. lia.
Qed.

Lemma hello_verify_step cr ck0 ck kc rs ms q n : is_u16 q -> bytes_ok ck -> len ck <= 255 -> uint 48 n ->
  handle_hello_verify_request (hello_state cr ck0 kc rs ms (Some q)) (msg_record n (hv_message q ck)) =
    (hello_state cr ck kc rs ms (Some q), Ok (mkHelloVerifyRequest DTLS_1_2_VERSION ck)).
Proof.
  intros Hq Hc Hl Hn. destruct (hv_message_ok q ck Hq Hc Hl) as (Sm & _ & Hd). unfold handle_hello_verify_request.
  pose proof (carried_message _ _ (msg_record_carries n _ Sm Hn)) as Hm.
  change (message_type (hv_message q ck)) with HtHelloVerifyRequest in Hm. rewrite Hm. cbn [rbind].
  rewrite bool_decide_true by done. cbn [negb]. rewrite Hd. by cbn [rbind].
Qed.

(** A session that used [n] epoch-1 record numbers for its own records. *)
Definition handshake_session (km : ThreadDtlsKeyMaterial) (role : SessionRole) (n : Z) : SessionState :=
  with_next_application_sequence km role n.

Lemma protect_fresh ct km role b k key iv : write_keys (during_handshake km role) = (key, iv) ->
  protect_aes_128_ccm_8_record ct 1 0 key iv b = Ok k ->
  forall n : Z, sequenced (protect_record ct b) (during_handshake km role, n) =
    ((handshake_session km role 1, n), Ok k).
Proof.
  intros Hk Hp n. unfold sequenced, mzoom, protect_record, mbind, mget, id. cbn [fst].
  rewrite Hk. unfold mlift. change (next_application_sequence (during_handshake km role)) with 0. by rewrite Hp.
Qed.
Lemma take_next_ok {S E} (s : S) n : 0 <= n < 2 ^ 48 -> @take_next S E (s, n) = ((s, n + 1), Ok n).
Proof.
  intros Hn. unfold take_next, take_record_sequence, wrapping_add. by rewrite wrap_small by (unfold uint; lia).
Qed.
Lemma lift_step {S E A B} (r : result E A) (k : A -> M S E B) s a : r = Ok a -> mbind (mlift r) k s = k a s.
Proof. by intros ->. Qed.

Lemma client_flight_ok cke fin km k n : short_msg cke -> short_msg fin -> 0 <= n < 2 ^ 48 - 2 ->
  protect_aes_128_ccm_8_record CtHandshake 1 0 (client_write_key (key_block km)) (client_write_iv (key_block km)) (msg_bytes fin)
    = Ok k ->
  run (build_client_finished_flight cke fin) (during_handshake km RoleOfClient, n) =
    Ok ((handshake_session km RoleOfClient 1, n + 2), [msg_record n cke; ccs_record (n + 1); k]).
Proof.
  intros Sc Sf Hn Hk. apply run_step. unfold build_client_finished_flight.
  rewrite (io_step _ _ _ _ _ (take_next_ok _ n ltac:(lia))).
  rewrite (lift_step _ _ _ (msg_bytes cke)) by by apply HandshakeMessage_encode_ok, short_msg_wf.
  rewrite (lift_step _ _ _ (msg_record n cke)) by (apply msg_record_new; [done|unfold uint; lia]).
  rewrite (io_step _ _ _ _ _ (take_next_ok _ (n + 1) ltac:(lia))).
  rewrite (lift_step _ _ _ (ccs_record (n + 1))) by done.
  rewrite (lift_step _ _ _ (msg_bytes fin)) by by apply HandshakeMessage_encode_ok, short_msg_wf.
  rewrite (io_step _ _ _ _ _ (protect_fresh CtHandshake km RoleOfClient _ k _ _ eq_refl Hk _)).
  by replace (n + 1 + 1) with (n + 2) by lia.
Qed.

Lemma server_finished_flight_ok b km k n : 0 <= n < 2 ^ 48 - 2 ->
  protect_aes_128_ccm_8_record CtHandshake 1 0 (server_write_key (key_block km)) (server_write_iv (key_block km)) b = Ok k ->
  run (build_server_finished_flight b) (during_handshake km RoleOfServer, n) =
    Ok ((handshake_session km RoleOfServer 1, n + 1), [ccs_record n; k]).
Proof.
  intros Hn Hk. apply run_step. unfold build_server_finished_flight.
  rewrite (io_step _ _ _ _ _ (take_next_ok _ n ltac:(lia))). rewrite (lift_step _ _ _ (ccs_record n)) by done.
  by rewrite (io_step _ _ _ _ _ (protect_fresh CtHandshake km RoleOfServer _ k _ _ eq_refl Hk _)).
Qed.

(** ** One dialogue

    The messages of an honest handshake whose second hello is numbered 1, in
    their records; the client's cookie exchange took message and record 0. *)

Section Dialogue.
Context (cl0 cl4 cl7 : ThreadDtlsHandshake) (sv0 sv4 sv7 : ThreadDtlsServerHandshake) (gc0 gc1 gc2 gs1 gs2 : rng)
  (km : ThreadDtlsKeyMaterial) (cr kc ck : bytes) (sh ske shd cke fin sfin : HandshakeMessage) (kr gr : DtlsRecord).
Context (cr_ok : bytes_ok cr) (cr_len : len cr = 32) (kc_ok : bytes_ok kc) (kc_len : len kc <= 330)
  (ck_ok : bytes_ok ck) (ck_len : len ck = 16).
Context (hello : hello_run cl0 cl4 sv0 sv4 gs1 gs2 (hello_message cr ck kc 1) sh ske shd)
  (finish : finish_run cl4 cl7 sv4 sv7 gc1 gc2 km 2 3 (wrapping_add 16 1 3) cke fin sfin).
Context (kr_new : protect_aes_128_ccm_8_record CtHandshake 1 0 (client_write_key (key_block km))
    (client_write_iv (key_block km)) (msg_bytes fin) = Ok kr)
  (kr_opens : protects kr CtHandshake 0 (client_write_key (key_block km)) (client_write_iv (key_block km)) (msg_bytes fin))
  (gr_new : protect_aes_128_ccm_8_record CtHandshake 1 0 (server_write_key (key_block km))
    (server_write_iv (key_block km)) (msg_bytes sfin) = Ok gr)
  (gr_opens : protects gr CtHandshake 0 (server_write_key (key_block km)) (server_write_iv (key_block km)) (msg_bytes sfin)).

Definition hello_1 := [msg_record 0 (hello_message cr [] kc 0)].
Definition verify_1 := [msg_record 0 (hv_message 0 ck)].
Definition hello_2 := [msg_record 1 (hello_message cr ck kc 1)].
Definition flight_2 := [msg_record 1 sh; msg_record 2 ske; msg_record 3 shd].
Definition flight_3 := [msg_record 2 cke; ccs_record 3; kr].
Definition finished_3 := [ccs_record 4; gr].

Lemma dialogue_short : Forall short_msg [hello_message cr [] kc 0; hv_message 0 ck; hello_message cr ck kc 1; sh; ske; shd; cke; fin; sfin].
Proof.
  destruct hello as [cl1 cl2 cl3 sv1 sv2 sv3 h sh' r2 _ _ _ _ _ _ _ _ Hh _].
  destruct finish as [cl5 cl6 sv5 sv6 _ _ _ _ _ _ _ _ Hf _].
  pose proof (proj1 (hello_short cr [] kc 0 cr_ok cr_len (Forall_nil_2 _) ltac:(by_decide) kc_ok kc_len ltac:(by_decide))).
  pose proof (proj1 (hello_short cr ck kc 1 cr_ok cr_len ck_ok ltac:(lia) kc_ok kc_len ltac:(by_decide))).
  pose proof (proj1 (hv_message_ok 0 ck ltac:(by_decide) ck_ok ltac:(lia))).
  do 3 (apply Forall_cons_2; [done|]). by apply (Forall_app_2 _ [sh; ske; shd]).
Qed.

Lemma dialogue_datagrams : Forall (fun rs => carries (datagram rs) rs) [hello_1; verify_1; hello_2; flight_2; flight_3; finished_3].
Proof.
  pose proof dialogue_short as H. rewrite !Forall_cons in H. destruct H as (S1 & S2 & S3 & S4 & S5 & S6 & S7 & S8 & S9 & _).
  repeat (apply Forall_cons_2; [apply small_datagram; [|simpl; lia];
    repeat (apply Forall_cons_2; [first [apply msg_record_small; [done|by_decide]|apply ccs_record_small; by_decide|
      by eapply protects_small]|]); constructor|]). constructor.
Qed.

(** The session either side ends with: one record sent, one seen. *)
Definition established_session (role : SessionRole) : SessionState :=
  set_application_replay (mark_seen ReplayWindow_new 0) (handshake_session km role 1).

Lemma draw_step {A B} (f : rng -> result DtlsError (A * rng)) (k : A -> io B) w a g :
  f (world_rng w) = Ok (a, g) -> mbind (draw f) k w = k a (set_rng g w).
Proof. intros H. unfold mbind, draw. by rewrite H. Qed.

Lemma send_step {B} l r rs d (k : unit -> io B) w : carries d rs -> send_results w = [] ->
  mbind (send_records l r rs) k w = k tt (log_send (l, r, d) w).
Proof. intros (He & _) Hs. unfold mbind. by rewrite (send_ok w l r rs d Hs He). Qed.

Lemma client_connects pskc a_c a_s l c0 tm rest sn t1 t2 t3 :
  ClientHandshake_new_with_rng gc0 pskc = Ok (cl0, gc1) ->
  client_hello_state cl0 = Ok (hello_state cr [] kc 0 0 None) ->
  c0 <= t1 <= c0 + SECOND -> t1 <= t2 <= t1 + SECOND -> t2 <= t3 <= t2 + SECOND -> Forall (Z.le t3) tm ->
  connect_inner a_c a_s pskc (mkWorld c0 tm ((t1, Rx (datagram verify_1) l a_s) :: (t2, Rx (datagram flight_2) l a_s)
    :: (t3, Rx (datagram finished_3) l a_s) :: rest) [] sn gc0) =
  (mkWorld t3 tm rest [] (sn ++ [(a_c, a_s, datagram hello_1); (a_c, a_s, datagram hello_2); (a_c, a_s, datagram flight_3)]) gc2,
   Ok (established_session RoleOfClient)).
Proof.
  intros Hnew Hst Ht1 Ht2 Ht3 Htm.
  pose proof dialogue_short as S. rewrite !Forall_cons in S. destruct S as (S1 & S2 & S3 & S4 & S5 & S6 & S7 & S8 & S9 & _).
  pose proof dialogue_datagrams as D. rewrite !Forall_cons in D. destruct D as (D1 & D2 & D3 & D4 & D5 & D6 & _).
  unfold connect_inner. rewrite (draw_step _ _ _ cl0 gc1) by done. rewrite (proto_ok _ _ _ _ Hst).
  rewrite client_hello_step by (done || by_decide).
  rewrite (proto_ok (Ok _) _ _ _ eq_refl). unfold renumber_epoch_zero_flight at 1. cbn [rec_epoch rec_header msg_record Z.eqb].
  change (take_record_sequence 0) with (0, 1). cbv beta iota zeta.
  change [set_sequence _ 0] with hello_1. rewrite (proto_ok (idx hello_1 0) _ _ _ eq_refl).
  rewrite (send_step _ _ _ _ _ _ D1) by done. norm_world.
  assert (forall t, t <= t3 -> Forall (Z.le t) tm) as Htm' by (intros t Ht; eapply Forall_impl; [exact Htm|simpl; lia]).
  erewrite (io_step (wait_for_hello_verify _ _ _ _ _)); [|eapply hello_verify_ok;
    [apply arrives_mk; [apply Htm'; lia|done|done]|apply (msg_record_carries 0 _ S2); by_decide|reflexivity|
     apply hello_verify_step; [by_decide|done|lia|by_decide]]]. norm_world.
  rewrite client_hello_step by (done || by_decide || lia).
  rewrite (proto_ok (Ok _) _ _ _ eq_refl). unfold renumber_epoch_zero_flight at 1. cbn [rec_epoch rec_header msg_record Z.eqb].
  change (take_record_sequence 1) with (1, 2). cbv beta iota zeta.
  change [set_sequence _ 1] with hello_2. rewrite (proto_ok (idx hello_2 0) _ _ _ eq_refl).
  assert (parse_unfragmented_handshake_record (msg_record 1 (hello_message cr ck kc 1)) HtClientHello = Ok (hello_message cr ck kc 1))
    as Hp by (apply (carried_message _ (hello_message cr ck kc 1)), msg_record_carries; [done|by_decide]).
  rewrite (proto_ok _ _ _ _ Hp).
  rewrite (send_step _ _ _ _ _ _ D3) by done. norm_world.
  match goal with |- mbind (wait_for_server_flight _ _ ?f ?n ?st _ _) _ ?w = _ =>
    destruct (server_flight_ok a_c a_s l w t2 (datagram flight_2) ((t3, Rx (datagram finished_3) l a_s) :: rest) f n st _ _ _ _ _ _
      _ _ _ _ (msg_record 1 sh) (msg_record 2 ske) (msg_record 3 shd) hello) as (v & Ev & V1 & V2 & V3 & V4) end;
    [apply arrives_mk; [apply Htm'; lia|lia|exact D4]|apply msg_record_carries; [done|by_decide]..|].
  rewrite (io_step _ _ _ _ _ Ev). norm_world. rewrite V1, V2, V3, V4.
  destruct finish as [cl5 cl6 sv5 sv6 F1 _ _ F4 F5 _ _ F8 _ FT]. injection FT as T7 T8 T9.
  change (next_message_sequence (hello_state cr ck kc _ _ _)) with 2.
  rewrite (draw_step _ _ _ (cl5, cke) gc2) by (norm_world; unfold run; by rewrite F1). norm_world.
  rewrite (proto_ok _ _ _ _ F4). change (wrapping_add 16 2 1) with 3.
  rewrite (proto_ok _ _ _ _ (run_step _ _ _ _ F5)).
  rewrite (proto_ok _ _ _ _ (client_flight_ok cke fin km kr 2 S7 S8 ltac:(lia) kr_new)). change (2 + 2) with 4.
  rewrite (send_step _ _ _ _ _ _ D5) by done. norm_world.
  match goal with |- mbind (wait_for_server_finished _ _ _ _ _ _ _ _) _ ?w = _ =>
    destruct (server_finished_ok a_c a_s l w t3 (datagram finished_3) rest cke fin [sh; ske; shd] 4 cl6 cl7 km sfin
      (handshake_session km RoleOfClient 1) (ccs_record 4) gr) as (v' & Ev' & V') end;
    [apply arrives_mk; [exact Htm|lia|exact D6]|by split_and!|done..|].
  rewrite (io_step _ _ _ _ _ Ev'). norm_world. unfold mret. rewrite V'.
  replace (Z.max (Z.max (Z.max c0 t1) t2) t3) with t3 by lia. by rewrite <- !(assoc_L (++)).
Qed.

(** The server's answers to the two hellos. *)
Lemma first_hello_step cookies a_s a_c w : cookie cookies cr = Ok ck -> send_results w = [] ->
  hello_records cookies a_s a_c hello_1 w = (log_send (a_s, a_c, datagram verify_1) w, Ok None).
Proof.
  intros Hck Hw. pose proof dialogue_short as S. rewrite !Forall_cons in S. destruct S as (S1 & S2 & _).
  pose proof dialogue_datagrams as D. rewrite !Forall_cons in D. destruct D as (D1 & D2 & _).
  destruct (hello_short cr [] kc 0 cr_ok cr_len (Forall_nil_2 _) ltac:(by_decide) kc_ok kc_len ltac:(by_decide)) as (_ & _ & Hd).
  destruct (hv_message_ok 0 ck ltac:(by_decide) ck_ok ltac:(lia)) as (_ & He & _).
  unfold hello_1. cbn [hello_records]. rewrite (carried_messages _ _ (msg_record_carries 0 _ S1 ltac:(by_decide))).
  cbn [rec_epoch rec_header msg_record content_type sequence_number Z.eqb negb orb]. rewrite bool_decide_true by done. cbn [negb].
  cbn [hello_messages]. change (message_type (hello_message cr [] kc 0)) with HtClientHello.
  rewrite bool_decide_true by done. cbn [negb]. rewrite Hd.
  change (ch_random (thread_profile_with_ecjpake cr [] kc)) with cr. change (ch_cookie (thread_profile_with_ecjpake cr [] kc)) with (@nil Z).
  rewrite (verify_spec _ _ _ _ Hck), bool_decide_false by (intros <-; rewrite len_nil in ck_len; lia).
  unfold mbind at 1. rewrite (proto_ok _ _ _ _ Hck), (proto_ok _ _ _ _ He). change (message_seq (hello_message cr [] kc 0)) with 0.
  change (mkHandshakeMessage HtHelloVerifyRequest 0 (hs_payload (hv_message 0 ck))) with (hv_message 0 ck).
  rewrite (proto_ok _ _ _ (msg_bytes (hv_message 0 ck))) by by apply HandshakeMessage_encode_ok, short_msg_wf.
  rewrite (proto_ok _ _ _ (msg_record 0 (hv_message 0 ck))) by (apply msg_record_new; [done|by_decide]).
  change [msg_record 0 (hv_message 0 ck)] with verify_1. by rewrite (send_step _ _ _ _ _ _ D2).
Qed.

Lemma second_hello_step cookies a_s a_c w : cookie cookies cr = Ok ck ->
  hello_records cookies a_s a_c hello_2 w = (w, Ok (Some (hello_message cr ck kc 1, 1))).
Proof.
  intros Hck. pose proof dialogue_short as S. rewrite !Forall_cons in S. destruct S as (_ & _ & S3 & _).
  destruct (hello_short cr ck kc 1 cr_ok cr_len ck_ok ltac:(lia) kc_ok kc_len ltac:(by_decide)) as (_ & _ & Hd).
  unfold hello_2. cbn [hello_records]. rewrite (carried_messages _ _ (msg_record_carries 1 _ S3 ltac:(by_decide))).
  cbn [rec_epoch rec_header msg_record content_type sequence_number Z.eqb negb orb]. rewrite bool_decide_true by done. cbn [negb].
  cbn [hello_messages]. change (message_type (hello_message cr ck kc 1)) with HtClientHello.
  rewrite bool_decide_true by done. cbn [negb]. rewrite Hd.
  change (ch_random (thread_profile_with_ecjpake cr ck kc)) with cr. change (ch_cookie (thread_profile_with_ecjpake cr ck kc)) with ck.
  by rewrite (verify_spec _ _ _ _ Hck), bool_decide_true.
Qed.

Lemma flight_records_ok : flight_records [sh; ske; shd] 1 = Ok (flight_2, 4).
Proof.
  pose proof dialogue_short as S. rewrite !Forall_cons in S. destruct S as (_ & _ & _ & S4 & S5 & S6 & _).
  cbn [flight_records]. rewrite !HandshakeMessage_encode_ok by by apply short_msg_wf. cbn [rbind].
  change (wrapping_add 64 1 1) with 2. change (wrapping_add 64 2 1) with 3. change (wrapping_add 64 3 1) with 4.
  rewrite !msg_record_new by (done || by_decide). done.
Qed.

(** The client's flight at the server. *)
Lemma client_flight_step a_s a_c w v : send_results w = [] -> aw_handshake v = sv4 -> aw_next v = 4 ->
  aw_client_key_exchange v = None ->
  accept_records a_s a_c 1 flight_3 v w =
    (log_send (a_s, a_c, datagram finished_3) w,
     Ok (inr (mkAccepted a_s a_c (handshake_session km RoleOfServer 1) (msg_bytes sfin) 5))).
Proof.
  intros Hw Hh Hn Hc. pose proof dialogue_short as S. rewrite !Forall_cons in S. destruct S as (_ & _ & _ & _ & _ & _ & S7 & S8 & S9 & _).
  pose proof dialogue_datagrams as D. rewrite !Forall_cons in D. destruct D as (_ & _ & _ & _ & _ & D6 & _).
  destruct finish as [cl5 cl6 sv5 sv6 _ F2 F3 _ _ F6 F7 _ _ FT]. injection FT as T7 T8 T9.
  destruct (opened_messages fin S8) as (pr & Epr & _ & Pm). rewrite T8 in Pm.
  destruct kr_opens as (_ & K1 & K2 & _ & _ & K3).
  unfold flight_3. cbn [accept_records]. rewrite (carried_messages _ _ (msg_record_carries 2 _ S7 ltac:(by_decide))).
  cbn [rec_epoch rec_header msg_record ccs_record content_type rec_payload]. rewrite K1, K2.
  cbn [client_key_exchange_messages]. rewrite T7, bool_decide_true by done. cbn [negb]. rewrite Hc, bool_decide_false by done.
  rewrite Hh, (run_step _ _ _ _ F2). cbn [rbind]. rewrite F3. cbn [rbind]. rewrite (proto_ok (Ok _) _ _ _ eq_refl).
  change (vec_eqb [1] [1]) with true. cbn [negb].
  set (v1 := aw_saw _). change (aw_saw_change_cipher_spec v1) with true. change (aw_key_material v1) with (Some km). cbn [negb].
  unfold accept_finished. rewrite K3. change (aw_handshake v1) with sv5. change (aw_next v1) with (aw_next v).
  change (aw_key_material v1) with (Some km). unfold mbind at 1.
  rewrite (proto_ok _ _ _ _ Epr), (proto_ok _ _ _ _ Pm), F6, (proto_ok _ _ _ _ (run_step _ _ _ _ F7)).
  rewrite (proto_ok _ _ _ (msg_bytes sfin)) by by apply HandshakeMessage_encode_ok, short_msg_wf.
  rewrite (proto_ok (ok_or _ _) _ _ km) by done. rewrite Hn.
  rewrite (proto_ok _ _ _ _ (server_finished_flight_ok _ km gr 4 ltac:(lia) gr_new)).
  change [ccs_record 4; gr] with finished_3. by rewrite (send_step _ _ _ _ _ _ D6).
Qed.

Lemma no_client_hello : contains_client_hello flight_3 (hello_message cr ck kc 1) = false.
Proof.
  pose proof dialogue_short as S. rewrite !Forall_cons in S. destruct S as (_ & _ & _ & _ & _ & _ & S7 & _).
  destruct finish as [cl5 cl6 sv5 sv6 _ _ _ _ _ _ _ _ _ FT]. injection FT as T7 _ _. destruct kr_opens as (_ & K1 & K2 & _).
  unfold contains_client_hello, flight_3. cbn [existsb]. rewrite (carried_messages _ _ (msg_record_carries 2 _ S7 ltac:(by_decide))).
  rewrite K2. assert (cke <> hello_message cr ck kc 1) as Hne by by intros ->. cbn [existsb].
  rewrite (bool_decide_false _ Hne). reflexivity.
Qed.

Lemma recv_step {B} peer c tm t rs local remote rest sr sn g (k : _ -> io B) :
  Forall (Z.le t) tm -> carries (datagram rs) rs -> (peer = None \/ peer = Some remote) ->
  mbind (recv_parsed_datagram peer) k (mkWorld c tm ((t, Rx (datagram rs) local remote) :: rest) sr sn g) =
    k (rs, local, remote) (mkWorld (Z.max c t) tm rest sr sn g).
Proof.
  intros Hu (_ & Hp & Hl) Hpe. unfold mbind. by rewrite (recv_datagram_ok _ t (datagram rs) local remote rest rs peer).
Qed.

Lemma server_accepts psk cookies gs0 gs00 a_s a_c c0 tm rest sn t1 t2 t3 :
  DtlsCookieGenerator_new_with_rng gs0 = (cookies, gs00) -> cookie cookies cr = Ok ck ->
  ServerHandshake_new_with_rng gs00 psk = Ok (sv0, gs1) ->
  c0 <= t1 <= t2 -> t2 <= t3 <= t2 + SECOND -> Forall (Z.le t3) tm ->
  accept_inner psk (mkWorld c0 tm ((t1, Rx (datagram hello_1) a_s a_c) :: (t2, Rx (datagram hello_2) a_s a_c)
    :: (t3, Rx (datagram flight_3) a_s a_c) :: rest) [] sn gs0) =
  (mkWorld t3 tm rest [] (sn ++ [(a_s, a_c, datagram verify_1); (a_s, a_c, datagram flight_2); (a_s, a_c, datagram finished_3)]) gs2,
   Ok (mkAccepted a_s a_c (handshake_session km RoleOfServer 1) (msg_bytes sfin) 5)).
Proof.
  intros Hgen Hck Hnew Ht1 Ht2 Htm.
  pose proof dialogue_datagrams as D. rewrite !Forall_cons in D. destruct D as (D1 & D2 & D3 & D4 & D5 & D6 & _).
  assert (forall t, t <= t3 -> Forall (Z.le t) tm) as Htm' by (intros t Ht; eapply Forall_impl; [exact Htm|simpl; lia]).
  unfold accept_inner. rewrite (draw_step _ _ _ cookies gs00) by (norm_world; by rewrite Hgen). norm_world.
  rewrite (io_step (mget _) _ _ _ _ eq_refl). cbn [arrivals length accept_hello_loop].
  unfold mbind at 1. unfold recv_records_unbounded.
  rewrite recv_step by first [done|by left|apply Htm'; lia]. norm_world.
  erewrite io_step; [|apply first_hello_step; done]. norm_world.
  rewrite recv_step by first [done|by left|apply Htm'; lia]. norm_world.
  erewrite io_step; [|apply second_hello_step; done]. unfold mret at 1. cbv beta iota.
  destruct hello as [cl1 cl2 cl3 sv1 sv2 sv3 h sh' r2 _ H2 H3 H4 H5 _ _ _ _ HT]. injection HT as T4 T5 T6.
  rewrite (draw_step _ _ _ sv0 gs1) by done. norm_world. rewrite (proto_ok _ _ _ _ (run_step _ _ _ _ H2)).
  change (message_seq (hello_message cr ck kc 1)) with 1 in *.
  rewrite (proto_ok _ _ _ _ (run_step _ _ _ _ H3)).
  rewrite (draw_step _ _ _ (sv3, ske) gs2) by (norm_world; unfold run; by rewrite H4). norm_world.
  rewrite (proto_ok _ _ _ _ (run_step _ _ _ _ H5)), (proto_ok _ _ _ _ flight_records_ok).
  rewrite (send_step _ _ _ _ _ _ D4) by done. norm_world.
  erewrite (arrives_wait a_c a_s); [|done|apply arrives_mk; [exact Htm|lia|exact D5]|
    unfold accept_datagram; rewrite no_client_hello; by apply client_flight_step]. norm_world.
  replace (Z.max (Z.max (Z.max c0 t1) t2) t3) with t3 by lia. by rewrite <- !(assoc_L (++)).
Qed.
End Dialogue.

(** ** Completed handshakes *)

(** The client of secret [pskc] and generator [gc], given the server datagrams
    [ss] in time, sends the datagrams [cs] and ends with the keys [km]. *)
Definition client_completes (gc : rng) (pskc : bytes) (km : ThreadDtlsKeyMaterial) (cs ss : bytes * bytes * bytes) : Prop :=
  let '((c1, c2, c3), (s1, s2, s3)) := (cs, ss) in
  forall a_c a_s l duration w t1 t2 t3 rest,
    world_rng w = gc -> send_results w = [] ->
    arrivals w = (t1, Rx s1 l a_s) :: (t2, Rx s2 l a_s) :: (t3, Rx s3 l a_s) :: rest ->
    prompt (clock w) (clock w + duration) [t1; t2; t3] -> Forall (Z.le t3) (timers w) ->
    exists g, connect_with_rng a_c a_s pskc duration w =
      (mkWorld t3 (timers w) rest [] (sent w ++ [(a_c, a_s, c1); (a_c, a_s, c2); (a_c, a_s, c3)]) g,
       Ok (established_session km RoleOfClient)).

(** The same for the server. *)
Definition server_completes (gs : rng) (psk : bytes) (km : ThreadDtlsKeyMaterial) (cs ss : bytes * bytes * bytes) : Prop :=
  let '((c1, c2, c3), (s1, s2, s3)) := (cs, ss) in
  forall a_s a_c duration w t1 t2 t3 rest,
    world_rng w = gs -> send_results w = [] ->
    arrivals w = (t1, Rx c1 a_s a_c) :: (t2, Rx c2 a_s a_c) :: (t3, Rx c3 a_s a_c) :: rest ->
    prompt (clock w) (clock w + duration) [t1; t2; t3] -> Forall (Z.le t3) (timers w) ->
    exists g b, accept_with_rng psk duration w =
      (mkWorld t3 (timers w) rest [] (sent w ++ [(a_s, a_c, s1); (a_s, a_c, s2); (a_s, a_c, s3)]) g,
       Ok (mkAccepted a_s a_c (handshake_session km RoleOfServer 1) b 5)).

Lemma with_timeout_ok {A} (m : io A) duration w w' a : 0 <= duration ->
  m (set_timers (clock w + duration :: timers w) w) = (set_timers (clock w + duration :: timers w) w', Ok a) ->
  timers w' = timers w -> with_timeout m duration w = (w', Ok a).
Proof.
  intros Hd Hm Ht. unfold with_timeout. rewrite (io_step _ _ _ _ _ (sleep_ok duration w Hd)).
  unfold race_expiry, race. rewrite Hm. rewrite <- Ht. by destruct w'.
Qed.

(** C11: the drivers complete the handshake.  A client driver and a server
    driver with secrets of the same scalar, whatever their randomness outside
    the degenerate sums, complete the handshake over the network: there are
    three datagrams of each side such that, when those of one side arrive at
    the other in time, the other sends exactly its own, and both end with the
    same keys, each having used one protected record number. *)
Theorem driver_handshake_completes gc gs pskc psk :
  exists cl gc' cookies gs' sv gs'',
    ClientHandshake_new_with_rng gc pskc = Ok (cl, gc') /\ DtlsCookieGenerator_new_with_rng gs = (cookies, gs') /\
    ServerHandshake_new_with_rng gs' psk = Ok (sv, gs'') /\
    (scalar_from_secret pskc = scalar_from_secret psk -> nondegenerate (cl_ecjpake cl) (sv_ecjpake sv) ->
     exists km cs ss, key_block_wf (key_block km) /\ client_completes gc pskc km cs ss /\ server_completes gs psk km cs ss).
Proof.
  destruct (client_new_ok gc pskc) as (c & rc & cr & gc' & Ec & Wc & Rc & Ic & Sc & Hc & Oc & Lc).
  destruct (DtlsCookieGenerator_new_with_rng gs) as [cookies gs'] eqn:Eg.
  destruct (server_new_ok gs' psk) as (s & rs & sr & gs'' & Es & Ws & Rs & Is & Ss & Hs & Os & Ls).
  eexists _, gc', cookies, gs', _, gs''. split; [exact Ec|]. split; [done|]. split; [exact Es|]. cbn [cl_ecjpake sv_ecjpake].
  intros Hsec [Hb Hsum]. assert (is_pair c s) as Hp by done.
  destruct (cookie_ok cookies cr) as (ck & Eck & Lck & Ock).
  destruct (hello_run_ok c s rc rs cr sr Hp Hc Hs Ic Is Hb Oc Lc Os Ls ck 1 gs'' Ock ltac:(lia) ltac:(by_decide))
    as (kc & r2s & gs3 & t & sh & ske & shd & Hr2s & Ekc & Okc & Lkc & _ & Rh).
  destruct (finish_run_ok c s rc rs cr sr Hp Hc Hs Ic Hb r2s t gc' 2 3 (wrapping_add 16 1 3) Hr2s ltac:(congruence) Hsum
    ltac:(by_decide) ltac:(by_decide) ltac:(by_decide)) as (gc'' & cl' & sv' & km & cke & fin & sfin & Hkm & Rf & _).
  assert (short_msg fin /\ short_msg sfin) as [Sf Ssf].
  { destruct Rf as [? ? ? ? _ _ _ _ _ _ _ _ Hf _]. rewrite !Forall_cons in Hf. by destruct Hf as (_ & ? & ? & _). }
  pose proof Hkm as (_ & _ & Hiv & Hiv').
  destruct (protect_protects CtHandshake 0 (client_write_key (key_block km)) (client_write_iv (key_block km)) (msg_bytes fin))
    as (kr & Ek & Pk); [done|by_decide|apply msg_bytes_ok, Sf|rewrite len_msg_bytes; destruct Sf as (_ & _ & ?); lia|].
  destruct (protect_protects CtHandshake 0 (server_write_key (key_block km)) (server_write_iv (key_block km)) (msg_bytes sfin))
    as (gr & Er & Pr); [done|by_decide|apply msg_bytes_ok, Ssf|rewrite len_msg_bytes; destruct Ssf as (_ & _ & ?); lia|].
  exists km, (datagram (hello_1 cr kc), datagram (hello_2 cr kc ck), datagram (flight_3 cke kr)),
    (datagram (verify_1 ck), datagram (flight_2 sh ske shd), datagram (finished_3 gr)).
  split; [done|]. split.
  - intros a_c a_s l duration [c0 tm ar sr0 sn g0] t1 t2 t3 rest Hg Hsr Har (P1 & _ & P2 & _ & P3 & P4 & _) Htm.
    cbn in *. subst. exists gc''. apply with_timeout_ok; [lia| |done]. norm_world.
    eapply client_connects; first [done|by constructor|lia|unfold client_hello_state; cbn [cl_client_round_one]; by rewrite Ekc].
  - intros a_s a_c duration [c0 tm ar sr0 sn g0] t1 t2 t3 rest Hg Hsr Har (P1 & _ & P2 & _ & P3 & P4 & _) Htm.
    cbn in *. subst. exists gs3, (msg_bytes sfin). apply with_timeout_ok; [lia| |done]. norm_world.
    eapply server_accepts; first [done|by constructor|lia].
Qed.
End Runs.

Section Witness.
#[local] Existing Instance Toy.toy_hash.
#[local] Existing Instance Toy.toy_hash_laws.
#[local] Existing Instance Toy.toy_aead.
#[local] Existing Instance Toy.toy_aead_laws.
#[local] Existing Instance ToyNet.toy_net.
#[local] Existing Instance ToyCurve.toy_curve.
#[local] Existing Instance ToyCurve.toy_curve_laws.
#[local] Existing Instance ToyCurve.toy_rng.
#[local] Existing Instance ToyCurve.toy_rng_laws.

Definition toy_seed (g : Z) : @rng ToyCurve.toy_curve ToyCurve.toy_rng := g.

(** The scalars the server draws after its cookie generator. *)
Definition accepting_scalars (gs : Z) : option (scalar * scalar) :=
  let '(_, gs) := DtlsCookieGenerator_new_with_rng (RR := ToyCurve.toy_rng) gs in
  server_scalars (ServerHandshake_new_with_rng (RR := ToyCurve.toy_rng) gs [5]).
Lemma toy_accepting_scalars : accepting_scalars 6 = Some (ToyCurve.F1, ToyCurve.F2).
Proof. vm_compute. reflexivity. Qed.

(** Two toy parties: the client is connected at once when the server's
    datagrams are there at once. *)
Lemma driver_handshake_completes_witness :
  exists km c1 c2 c3 s1 s2 s3 w',
    server_completes (RR := ToyCurve.toy_rng) 6 [5] km (c1, c2, c3) (s1, s2, s3) /\
    sent w' = [((ToyNet.host 0), (ToyNet.host 1), c1); ((ToyNet.host 0), (ToyNet.host 1), c2); ((ToyNet.host 0), (ToyNet.host 1), c3)] /\
    connect_with_rng (RR := ToyCurve.toy_rng) (ToyNet.host 0) (ToyNet.host 1) [5] SECOND
      (mkWorld 0 [] [(0, Rx s1 (ToyNet.host 0) (ToyNet.host 1)); (0, Rx s2 (ToyNet.host 0) (ToyNet.host 1)); (0, Rx s3 (ToyNet.host 0) (ToyNet.host 1))] [] [] (toy_seed 1)) =
      (w', Ok (established_session km RoleOfClient)).
Proof.
  destruct (driver_handshake_completes (RR := ToyCurve.toy_rng) 1 6 [5] [5]) as (cl & gc' & cookies & gs' & sv & gs'' & Ec & Eg & Es & H).
  destruct (H eq_refl) as (km & [[c1 c2] c3] & [[s1 s2] s3] & _ & Hc & Hs).
  - pose proof toy_client_scalars as Sc. pose proof toy_accepting_scalars as Ss. unfold accepting_scalars in Ss.
    rewrite Eg, Es in Ss. rewrite Ec in Sc. injection Sc as Sc1 Sc2. injection Ss as Ss1 Ss2.
    unfold nondegenerate, base_exponent. rewrite Sc1, Sc2, Ss1, Ss2. split; [intros []|]; vm_compute; discriminate.
  - destruct (Hc (ToyNet.host 0) (ToyNet.host 1) (ToyNet.host 0) SECOND (mkWorld 0 [] [(0, Rx s1 (ToyNet.host 0) (ToyNet.host 1)); (0, Rx s2 (ToyNet.host 0) (ToyNet.host 1)); (0, Rx s3 (ToyNet.host 0) (ToyNet.host 1))] [] [] (toy_seed 1))
      0 0 0 []) as [g Hg]; [done|done|done|by_decide|by constructor|].
    eexists km, c1, c2, c3, s1, s2, s3, _. split; [exact Hs|]. split; [|exact Hg]. done.
Defined.
End Witness.
