(* ===== verification/Sessions.v ===== *)
(** * Sessions: application data between two established sessions

    What one [SessionState] of [Driver] protects, the other delivers: each
    plaintext once, whatever the network reorders, repeats or forges. *)
From S2P Require Import Prelude Text Tlv Errors Replay Record Handshake Hello Crypto Ecjpake.
From S2P Require Import ThreadHandshake Safety Driver Flights.

Section Sessions.
Context {HH : Hash} {HL : HashLaws} {AA : Aead} {AL : AeadLaws} {CC : Curve} {CL : CurveLaws} {RR : Rng} {RL : RngLaws}.

(** Protects a list of plaintexts one after another. *)
Fixpoint protect_all (plaintexts : list bytes) : M SessionState DtlsError (list DtlsRecord) :=
  match plaintexts with
  | [] => mret []
  | p :: rest =>
      let* r := protect_application_data p in
      let* rs := protect_all rest in
      mret (r :: rs)
  end.

(** Reads until no received record is left. *)
Fixpoint read_all (fuel : nat) : M SessionState DtlsError (list bytes) :=
  match fuel with
  | O => mlift (Panic OutOfFuel)
  | S fuel =>
      let* next := open_next_record in
      match next with
      | None => mret []
      | Some (Ok p) => let* ps := read_all fuel in mret (p :: ps)
      | Some (Err e) => merr e
      | Some (Panic f) => mlift (Panic f)
      end
  end.

(** What the network delivers: record [i] of the sender, or any record that
    does not open. *)
Inductive Delivered := Genuine (i : nat) | Forged (r : DtlsRecord).
Definition delivered_records (rs : list DtlsRecord) (l : list Delivered) : list DtlsRecord :=
  omap (fun d => match d with Genuine i => rs !! i | Forged r => Some r end) l.

(** The plaintexts of the first deliveries, in their order. *)
Fixpoint first_deliveries (plaintexts : list bytes) (seen : list nat) (l : list Delivered) : list bytes :=
  match l with
  | [] => []
  | Genuine i :: l =>
      if bool_decide (i ∈ seen) then first_deliveries plaintexts seen l
      else option_list (plaintexts !! i) ++ first_deliveries plaintexts (i :: seen) l
  | Forged _ :: l => first_deliveries plaintexts seen l
  end.

Definition application_plaintext (p : bytes) : Prop := bytes_ok p /\ len p < 2 ^ 15.

Lemma protect_all_ok s plaintexts n key iv :
  write_keys s = (key, iv) -> len iv = 4 -> Forall application_plaintext plaintexts ->
  next_application_sequence s = n -> 0 <= n -> n + len plaintexts <= 2 ^ 48 ->
  exists rs, protect_all plaintexts s = (set_next_application_sequence (n + len plaintexts) s, Ok rs) /\
    length rs = length plaintexts /\
    forall i p, plaintexts !! i = Some p -> exists r, rs !! i = Some r /\
      protects r CtApplicationData (n + Z.of_nat i) key iv p.
Proof.
  intros Hk Hiv Hp. revert s n Hk. induction Hp as [|p ps [Hb Hl] _ IH]; intros s n Hk Hn H0 Hmax; cbn [protect_all].
  { exists []. rewrite len_nil, Z.add_0_r, <- Hn. split; [by destruct s|done]. }
  rewrite len_cons in *. pose proof (len_nonneg ps).
  destruct (protect_protects CtApplicationData n key iv p Hiv ltac:(unfold uint; lia) Hb Hl) as (r & Er & Pr).
  assert (protect_application_data p s = (set_next_application_sequence (n + 1) s, Ok r)) as E.
  { unfold protect_application_data, protect_record, mbind, mget, id. rewrite Hk, Hn. unfold mlift. rewrite Er.
    unfold mset, mret, wrapping_add. by rewrite wrap_small by (unfold uint; lia). }
  destruct (IH (set_next_application_sequence (n + 1) s) (n + 1) Hk eq_refl ltac:(lia) ltac:(lia)) as (rs & Ers & Hlen & Prs).
  exists (r :: rs). unfold mbind. rewrite E, Ers. split; [|split; [simpl; lia|]].
  - unfold mret. by replace (n + (1 + len ps)) with (n + 1 + len ps) by lia.
  - intros [|i] q Hq; simpl in Hq; [injection Hq as <-; exists r; by rewrite Z.add_0_r|].
    destruct (Prs i q Hq) as (r' & Hr' & P'). exists r'. split; [done|].
    by replace (n + Z.of_nat (S i)) with (n + 1 + Z.of_nat i) by lia.
Qed.

(** One queued record at the receiver. *)
Lemma open_next_forged self r rest key iv :
  read_keys self = (key, iv) -> (exists e, open_aes_128_ccm_8_record r key iv = Err e) ->
  open_next_loop (r :: rest) self = open_next_loop rest (set_unread_records rest self).
Proof.
  intros Hk [e He]. cbn [open_next_loop]. case_match; [done|]. unfold open_protected_record, mbind, mget, id.
  change (read_keys (set_unread_records rest self)) with (read_keys self). rewrite Hk.
  change (application_replay (set_unread_records rest self)) with (application_replay self).
  case_match; try done; destruct (has_seen _ _); try done; unfold mlift; by rewrite He.
Qed.

Lemma open_next_seen self r rest n :
  sequence_number (rec_header r) = n -> has_seen (application_replay self) n = true ->
  open_next_loop (r :: rest) self = open_next_loop rest (set_unread_records rest self).
Proof.
  intros <- Hs. cbn [open_next_loop]. case_match; [done|]. unfold open_protected_record, mbind, mget, id.
  change (application_replay (set_unread_records rest self)) with (application_replay self). rewrite Hs. by case_match.
Qed.

Lemma open_next_fresh self r rest n key iv p :
  read_keys self = (key, iv) -> protects r CtApplicationData n key iv p -> has_seen (application_replay self) n = false ->
  open_next_loop (r :: rest) self =
    (set_application_replay (mark_seen (application_replay self) n) (set_unread_records rest self), Ok (Some (Ok p))).
Proof.
  intros Hk (_ & Hc & He & Hn & _ & Ho) Hs. cbn [open_next_loop]. rewrite He, Hc. cbn [Z.eqb Pos.eqb negb].
  unfold open_protected_record, mbind, mget, id.
  change (application_replay (set_unread_records rest self)) with (application_replay self). rewrite Hn, Hs.
  change (read_keys (set_unread_records rest self)) with (read_keys self). rewrite Hk. unfold mlift. rewrite Ho.
  cbn. by rewrite bool_decide_false.
Qed.

Lemma read_all_skip fuel self rest : 
  open_next_loop (unread_records self) self = open_next_loop rest (set_unread_records rest self) ->
  read_all (S fuel) self = read_all (S fuel) (set_unread_records rest self).
Proof. intros H. cbn [read_all]. unfold mbind, open_next_record. by rewrite H. Qed.

Lemma newest_of_elem history n : newest_of history = Some n -> n ∈ history.
Proof.
  revert n. induction history as [|x l IH]; intros n H; [done|]. simpl in H. injection H as <-.
  destruct (newest_of l) as [m|]; [|left]. destruct (Z.max_spec x m) as [[_ ->]|[_ ->]]; [right; by apply IH|left].
Qed.

(** A record number of the batch is refused exactly when it was opened before:
    the batch is no longer than the window. *)
Lemma batch_refused w history n k i :
  window_repr w history -> (forall s, s ∈ history -> s < n + k) -> k <= U64_BITS -> 0 <= i < k ->
  has_seen w (n + i) = true <-> n + i ∈ history.
Proof.
  intros Hw Hh Hk Hi. rewrite (has_seen_refused _ _ _ Hw). unfold refused. split.
  - intros (m & Hm & [Hin|Hle]); [done|]. apply newest_of_elem, Hh in Hm. lia.
  - intros Hin. destruct (newest_of history) as [m|] eqn:E; [exists m; auto|].
    apply newest_of_none in E as ->. by apply elem_of_nil in Hin.
Qed.

Section Batch.
Context (rs : list DtlsRecord) (plaintexts : list bytes) (n : Z) (key iv : bytes).
Context (n_nonneg : 0 <= n) (batch : len plaintexts <= U64_BITS)
  (genuine : forall i p, plaintexts !! i = Some p ->
    exists r, rs !! i = Some r /\ protects r CtApplicationData (n + Z.of_nat i) key iv p).

Definition deliverable (d : Delivered) : Prop :=
  match d with
  | Genuine i => (i < length plaintexts)%nat
  | Forged r => exists e, open_aes_128_ccm_8_record r key iv = Err e
  end.

Lemma read_all_batch l fuel self history seen :
  Forall deliverable l -> (length l < fuel)%nat -> read_keys self = (key, iv) ->
  unread_records self = delivered_records rs l ->
  window_repr (application_replay self) history -> (forall s, s ∈ history -> s < n + len plaintexts) ->
  (forall i : nat, n + Z.of_nat i ∈ history <-> i ∈ seen) ->
  exists self', read_all fuel self = (self', Ok (first_deliveries plaintexts seen l)).
Proof.
  intros Hl. revert fuel self history seen. induction Hl as [|d l Hd _ IH]; intros fuel self history seen Hf Hk Hu Hw Hh Hs;
    (destruct fuel as [|fuel]; [simpl in Hf; lia|]); simpl in Hf.
  { exists self. cbn [read_all]. unfold mbind, open_next_record. by rewrite Hu. }
  destruct d as [i|r]; cbn [deliverable] in Hd.
  - destruct (lookup_lt_is_Some_2 _ _ Hd) as [p Hp]. destruct (genuine i p Hp) as (r & Hr & Pr).
    cbn [delivered_records omap list_omap] in Hu. rewrite Hr in Hu. fold (delivered_records rs l) in Hu.
    pose proof (batch_refused _ _ _ _ (Z.of_nat i) Hw Hh batch ltac:(unfold len; lia)) as Href.
    cbn [first_deliveries]. destruct (decide (i ∈ seen)) as [Hi|Hi].
    + rewrite bool_decide_true by done.
      rewrite (read_all_skip _ _ (delivered_records rs l));
        [by eapply (IH (S fuel) (set_unread_records _ self)); [lia|..]|]. rewrite Hu.
      eapply open_next_seen; [apply Pr|]. by apply Href, Hs.
    + rewrite bool_decide_false by done. rewrite Hp.
      assert (has_seen (application_replay self) (n + Z.of_nat i) = false) as Hns.
      { apply not_true_is_false. by intros ?%Href%Hs. }
      cbn [read_all]. unfold mbind at 1, open_next_record. rewrite Hu, (open_next_fresh _ _ _ _ _ _ _ Hk Pr Hns).
      set (self1 := set_application_replay _ _).
      edestruct (IH fuel self1 (n + Z.of_nat i :: history) (i :: seen)) as [self' E];
        [lia|done|done|by apply mark_seen_repr; [|lia]|..|exists self'; unfold mbind; by rewrite E].
      * intros s [->|Hin]%elem_of_cons; [unfold len; lia|auto].
      * intros j. rewrite !elem_of_cons, Hs. split; intros [?|?]; auto; left; lia.
  - cbn [delivered_records omap list_omap] in Hu. fold (delivered_records rs l) in Hu. cbn [first_deliveries].
    rewrite (read_all_skip _ _ (delivered_records rs l));
      [by eapply (IH (S fuel) (set_unread_records _ self)); [lia|..]|]. rewrite Hu. by eapply open_next_forged.
Qed.
End Batch.

(** ** Properties *)

Definition opposite (a b : SessionRole) : Prop := a <> b.

Lemma opposite_keys s r : ss_key_material s = ss_key_material r -> opposite (ss_role s) (ss_role r) ->
  read_keys r = write_keys s.
Proof. intros Hk Ho. unfold read_keys, write_keys. rewrite Hk. by destruct (ss_role s), (ss_role r). Qed.

(** C5: exactly-once delivery.  Two sessions with the same keys and opposite
    roles: up to 64 plaintexts are protected under consecutive record numbers;
    however the network then reorders, repeats or drops those records, and
    whatever records that do not authenticate it mixes in, the receiver
    returns exactly the plaintexts that arrived, each once, in the order in
    which they first arrived. *)
Theorem application_data_exactly_once sender receiver plaintexts history n :
  ss_key_material sender = ss_key_material receiver -> key_block_wf (key_block (ss_key_material sender)) ->
  opposite (ss_role sender) (ss_role receiver) ->
  Forall application_plaintext plaintexts -> len plaintexts <= U64_BITS ->
  next_application_sequence sender = n -> 0 <= n -> n + len plaintexts <= 2 ^ 48 ->
  unread_records receiver = [] -> window_repr (application_replay receiver) history -> Forall (fun s => s < n) history ->
  exists rs, protect_all plaintexts sender = (set_next_application_sequence (n + len plaintexts) sender, Ok rs) /\
    map (fun r => sequence_number (rec_header r)) rs = seqZ n (len plaintexts) /\
    forall l, Forall (deliverable plaintexts (read_keys receiver).1 (read_keys receiver).2) l ->
      exists receiver', read_all (S (length l)) (receive_datagram (delivered_records rs l) receiver) =
        (receiver', Ok (first_deliveries plaintexts [] l)).
Proof.
  intros Hk (_ & _ & Hi1 & Hi2) Ho Hp Hlen Hn H0 Hmax Hu Hw Hh.
  pose proof (opposite_keys _ _ Hk Ho) as Hkeys. destruct (write_keys sender) as [key iv] eqn:Ek.
  assert (len iv = 4) as Hiv by (unfold write_keys in Ek; destruct (ss_role sender); by injection Ek as <- <-).
  destruct (protect_all_ok sender plaintexts n key iv Ek Hiv Hp Hn H0 Hmax) as (rs & Ers & Hl & Hg).
  exists rs. split; [done|]. rewrite Hkeys. split.
  - apply list_eq_same_length with (n := length rs); [rewrite length_seqZ; unfold len; lia|by rewrite length_map|].
    intros i x y Hi Hx Hy. rewrite list_lookup_fmap in Hx. destruct (lookup_lt_is_Some_2 plaintexts i ltac:(lia)) as [p Hp'].
    destruct (Hg i p Hp') as (r & Hr & (_ & _ & _ & Hs & _)). rewrite Hr in Hx. injection Hx as <-.
    apply lookup_seqZ in Hy as [-> _]. rewrite Hs. lia.
  - intros l Hdel. eapply (read_all_batch rs plaintexts n key iv H0 Hlen Hg l _ _ history []); [done|lia|done|..|done| |].
    + unfold receive_datagram. by rewrite Hu.
    + intros s Hs. rewrite Forall_forall in Hh. specialize (Hh s Hs). pose proof (len_nonneg plaintexts). lia.
    + intros i. split; [|by intros ?%elem_of_nil]. intros Hin. rewrite Forall_forall in Hh. specialize (Hh _ Hin). simpl in Hh. lia.
Qed.
End Sessions.

Section Witness.
#[local] Existing Instance Toy.toy_aead.
#[local] Existing Instance Toy.toy_aead_laws.

Definition toy_session (role : SessionRole) : SessionState :=
  SessionState_new (mkKeyMaterial [] (mkKeyBlock (repeat 1 16) (repeat 2 16) (repeat 3 4) (repeat 4 4))) role.

(** Two plaintexts; the second arrives first and again, then the first. *)
Lemma application_data_exactly_once_witness :
  exists rs sender' receiver',
    protect_all [[1; 2]; [3]] (toy_session RoleOfClient) = (sender', Ok rs) /\
    read_all 4 (receive_datagram (delivered_records rs [Genuine 1; Genuine 1; Genuine 0]) (toy_session RoleOfServer)) =
      (receiver', Ok [[3]; [1; 2]]).
Proof.
  destruct (application_data_exactly_once (toy_session RoleOfClient) (toy_session RoleOfServer) [[1; 2]; [3]] [] 1)
    as (rs & E & _ & H); [done|by_decide|done|by_decide|by_decide|done|done|by_decide|done|apply window_repr_new|by_decide|].
  destruct (H [Genuine 1; Genuine 1; Genuine 0]) as [receiver' Hr]; [repeat constructor; cbn; lia|].
  exists rs. eexists _, receiver'. split; [exact E|exact Hr].
Defined.
End Witness.
