(* ===== verification/DriverTermination.v ===== *)
(** * DriverTermination: every handshake ends by its deadline

    Whatever datagrams arrive, in whatever order and at whatever times, the
    drivers of [ClientDriver] and [ServerDriver] never panic, run out of the
    fuel of their loops or wait for ever: a handshake has returned a session
    or an error when its deadline has passed. *)
From S2P Require Import Prelude Text Tlv Errors Replay Record Handshake Hello Crypto Ecjpake.
From S2P Require Import ThreadHandshake Safety Driver Flights ClientDriver ServerDriver.

Section Ends.
Context {NN : Net} {CC : Curve} {RR : Rng}.

Definition arrival_ok (x : Z * Arrival) : Prop := match x.2 with Rx d _ _ => bytes_ok d | RxError _ => True end.

(** Bytes arrive, some timer runs, and none that runs is in the past. *)
Definition world_ok (w : World) : Prop :=
  Forall arrival_ok (arrivals w) /\ timers w <> [] /\ Forall (Z.le (clock w)) (timers w).

(** How an operation changes the world: time passes and arrivals are taken, or
    neither. *)
Definition later (w w' : World) : Prop :=
  timers w' = timers w /\ clock w <= clock w' /\ (length (arrivals w') <= length (arrivals w))%nat.
Definition instant (w w' : World) : Prop :=
  timers w' = timers w /\ clock w' = clock w /\ arrivals w' = arrivals w.
#[global] Instance later_preorder : PreOrder later.
Proof. split; [done|]. intros a b c (? & ? & ?) (? & ? & ?). split; [congruence|lia]. Qed.
#[global] Instance instant_preorder : PreOrder instant.
Proof. split; [done|]. intros a b c (? & ? & ?) (? & ? & ?). split; [congruence|split; congruence]. Qed.
Lemma instant_later w w' : instant w w' -> later w w'.
Proof. intros (E1 & E2 & E3). unfold later. rewrite E2, E3. by split. Qed.

(** The operation returns, with a value, an error of its own, or because a
    timer around it expired at that very time. *)
Definition ends_by {A} (R : World -> World -> Prop) (Q : A -> World -> Prop) (w : World) (x : World * result Stop A) : Prop :=
  world_ok x.1 /\ R w x.1 /\
  match x.2 with
  | Ok a => Q a x.1
  | Err (Raise e) => e <> Timeout
  | Err (Expired n) => timers w !! n = Some (clock x.1)
  | Err Blocked => False
  | Panic _ => False
  end.

Lemma ends_bind {A B} (R : World -> World -> Prop) `{PreOrder _ R} (Q : A -> World -> Prop) (Q' : B -> World -> Prop)
    (m : io A) (k : A -> io B) w :
  (forall w w', R w w' -> timers w' = timers w) -> ends_by R Q w (m w) ->
  (forall a w1, world_ok w1 -> R w w1 -> Q a w1 -> ends_by R Q' w1 (k a w1)) -> ends_by R Q' w (mbind m k w).
Proof.
  intros Ht (Hw & Hr & Hq) Hk. unfold mbind. destruct (m w) as [w1 [a|e|f]]; simpl in *; [|by split|done].
  destruct (Hk a w1 Hw Hr Hq) as (Hw2 & Hr2 & Hq2). split; [done|]. split; [by etrans|].
  destruct (k a w1).2 as [b|[e|n|]|f]; try done. by rewrite <- (Ht _ _ Hr).
Qed.

Lemma ends_weaken {A} (R R' : World -> World -> Prop) (Q Q' : A -> World -> Prop) w x :
  ends_by R Q w x -> (forall w', R w w' -> R' w w') -> (forall a w', world_ok w' -> R w w' -> Q a w' -> Q' a w') ->
  ends_by R' Q' w x.
Proof.
  intros (Hw & Hr & Hq) HR HQ. split; [done|]. split; [auto|]. destruct x.2 as [a|[e|n|]|f]; try done. by apply HQ.
Qed.

Lemma later_timers w w' : later w w' -> timers w' = timers w.
Proof. by intros (? & _). Qed.
Lemma instant_timers w w' : instant w w' -> timers w' = timers w.
Proof. by intros (? & _). Qed.

Lemma later_bind {A B} (Q : A -> World -> Prop) (Q' : B -> World -> Prop) (m : io A) (k : A -> io B) w :
  ends_by later Q w (m w) ->
  (forall a w1, world_ok w1 -> later w w1 -> Q a w1 -> ends_by later Q' w1 (k a w1)) -> ends_by later Q' w (mbind m k w).
Proof. apply ends_bind; [apply _|apply later_timers]. Qed.
Lemma instant_bind {A B} (Q : A -> World -> Prop) (Q' : B -> World -> Prop) (m : io A) (k : A -> io B) w :
  ends_by instant Q w (m w) ->
  (forall a w1, world_ok w1 -> instant w w1 -> Q a w1 -> ends_by instant Q' w1 (k a w1)) -> ends_by instant Q' w (mbind m k w).
Proof. apply ends_bind; [apply _|apply instant_timers]. Qed.
Lemma ends_later {A} (Q : A -> World -> Prop) w x : ends_by instant Q w x -> ends_by later Q w x.
Proof. intros H. eapply ends_weaken; [exact H|intros; by apply instant_later|done]. Qed.

(** An instant step of an operation that takes time. *)
Lemma step_bind {A B} (Q : A -> World -> Prop) (Q' : B -> World -> Prop) (m : io A) (k : A -> io B) w :
  ends_by instant Q w (m w) ->
  (forall a w1, world_ok w1 -> instant w w1 -> Q a w1 -> ends_by later Q' w1 (k a w1)) -> ends_by later Q' w (mbind m k w).
Proof.
  intros Hm Hk. apply (later_bind (fun a w1 => instant w w1 /\ Q a w1)).
  - eapply ends_weaken; [exact Hm|apply instant_later|done].
  - intros a w1 H1 _ [? ?]. by apply Hk.
Qed.

Lemma ends_ret {A} (Q : A -> World -> Prop) w a : world_ok w -> Q a w -> ends_by instant Q w (mret a w).
Proof. intros Hw Hq. by split. Qed.
Lemma ends_err {A} (Q : A -> World -> Prop) w e : world_ok w -> e <> Timeout -> ends_by instant Q w (merr (Raise e) w).
Proof. intros Hw. by split. Qed.
Lemma ends_proto {A} (Q : A -> World -> Prop) (r : result DtlsError A) w :
  world_ok w -> safe r -> (forall a, r = Ok a -> Q a w) -> ends_by instant Q w (proto r w).
Proof. intros Hw Hs Hq. unfold proto, mlift. destruct r; [by split; [|split; [|apply Hq]]|by split|done]. Qed.
Lemma ends_draw {A} (Q : A -> World -> Prop) (f : rng -> result DtlsError (A * rng)) w :
  world_ok w -> (forall g, safe (f g)) -> (forall g g' a, f g = Ok (a, g') -> Q a (set_rng g' w)) ->
  ends_by instant Q w (draw f w).
Proof.
  intros Hw Hs Hq. unfold draw. specialize (Hs (world_rng w)). destruct (f (world_rng w)) as [[a g]|e|p] eqn:E; [|by split|done].
  split; [done|]. split; [done|]. by eapply Hq.
Qed.
Lemma ends_send l r rs w : world_ok w -> ends_by instant (fun _ _ => True) w (send_records l r rs w).
Proof.
  intros Hw. unfold send_records. eapply (instant_bind (fun _ _ => True)); [apply ends_proto; [done|apply encode_datagram_safe|done]|].
  intros d w1 H1 _ _. unfold send. by destruct (head (send_results w1)) as [[e|]|].
Qed.
Lemma ends_sleep (Q : Z -> World -> Prop) d w : world_ok w -> 0 <= d -> Q (clock w + d) w -> ends_by instant Q w (sleep d w).
Proof. intros Hw Hd Hq. rewrite sleep_ok by done. by split. Qed.
Lemma ends_get {A} (Q : A -> World -> Prop) (f : World -> A) w : world_ok w -> Q (f w) w -> ends_by instant Q w (mget f w).
Proof. intros Hw Hq. by split. Qed.

(** ** Receiving *)

Lemma first_expiry_none ts : first_expiry ts = None -> ts = [].
Proof. destruct ts as [|t ts]; [done|]. cbn [first_expiry]. destruct (first_expiry ts) as [[? ?]|]; [by case_match|done]. Qed.

(** What a receive leaves: fewer arrivals, and the buffer it was given. *)
Lemma receive_into_ends b w : world_ok w ->
  ends_by later (fun x w' => (length (arrivals w') < length (arrivals w))%nat /\ exists d,
    bytes_ok d /\ x.1 = take (length b) d ++ drop (length d) b /\ x.2.1.1 = len d) w (receive_into b w).
Proof.
  intros (Ha & Hne & Ht). unfold receive_into.
  destruct (first_expiry (timers w)) as [[n u]|] eqn:Ef; [|by apply first_expiry_none in Ef].
  destruct (first_expiry_spec _ _ _ Ef) as (Hn & Hmin & _).
  assert (clock w <= u) as Hu by by apply (Forall_lookup_1 _ _ _ _ Ht Hn).
  assert (forall rest, Forall arrival_ok rest -> forall t, t <= u ->
    world_ok (set_arrivals rest (set_clock (Z.max (clock w) t) w))) as Hok.
  { intros rest Hrest t Htu. split; [done|]. split; [done|]. eapply Forall_impl; [exact Hmin|]. cbn. intros x Hx. lia. }
  assert (ends_by (A := bytes * (Z * SocketAddr * SocketAddr)) later (fun _ _ => False) w
    (set_clock (Z.max (clock w) u) w, Err (Expired n))) as Hfire.
  { split; [|split; [split; [done|split; [cbn; lia|done]]|]].
    - specialize (Hok (arrivals w) Ha u ltac:(lia)). by destruct w.
    - cbn. rewrite Hn. f_equal. lia. }
  assert (forall x, ends_by (A := bytes * (Z * SocketAddr * SocketAddr)) later (fun _ _ => False) w x ->
    forall Q : _ -> World -> Prop, ends_by later Q w x) as Hweak by (intros x Hx Q; eapply ends_weaken; [exact Hx|done|done]).
  destruct (arrivals w) as [|[t a] rest] eqn:Ear; [by apply Hweak|]. destruct (t <=? u) eqn:Etu; [|by apply Hweak].
  zbool. apply Forall_cons_1 in Ha as [Hd Hrest]. specialize (Hok rest Hrest t Etu).
  assert (later w (set_arrivals rest (set_clock (Z.max (clock w) t) w))) as Hl.
  { split; [done|]. split; [cbn; lia|]. rewrite Ear. cbn. lia. }
  destruct a as [d l r|e]; [|by split]. split; [done|]. split; [done|]. cbn. split; [lia|]. by exists d.
Qed.

Lemma buffer_get_bytes b d x : bytes_ok d -> bytes_ok b ->
  buffer_get (take (length b) d ++ drop (length d) b) (len d) = Some x -> bytes_ok x.
Proof.
  intros Hd Hb. unfold buffer_get. case_match; [|done]. intros [= <-]. apply Forall_take, Forall_app_2; [by apply Forall_take|by apply Forall_drop].
Qed.

Lemma recv_loop_ends fuel peer b w : world_ok w -> bytes_ok b -> (length (arrivals w) < fuel)%nat ->
  ends_by later (fun x w' => Forall (fun r => bytes_ok (rec_payload r)) x.1.1 /\ (length (arrivals w') < length (arrivals w))%nat)
    w (recv_parsed_loop fuel peer b w).
Proof.
  revert b w. induction fuel as [|fuel IH]; intros b w Hw Hb Hf; [lia|]. cbn [recv_parsed_loop].
  eapply later_bind; [by apply receive_into_ends|]. intros [b' [[n local] remote]] w1 H1 _ Hx. cbn in Hx.
  destruct Hx as (Hlt & d & Hd & -> & ->).
  assert (bytes_ok (take (length b) d ++ drop (length d) b)) as Hb' by (apply Forall_app_2; [by apply Forall_take|by apply Forall_drop]).
  assert (ends_by later (fun x w' => Forall (fun r => bytes_ok (rec_payload r)) x.1.1 /\ (length (arrivals w') < length (arrivals w))%nat)
    w1 (recv_parsed_loop fuel peer (take (length b) d ++ drop (length d) b) w1)) as Hrec.
  { eapply ends_weaken; [apply IH; [done|done|lia]|done|]. intros x w2 _ _ [? ?]. split; [done|lia]. }
  case_match; [done|]. destruct (buffer_get _ _) as [x|] eqn:Eg; [|done]. apply buffer_get_bytes in Eg; [|done|done].
  pose proof (parse_datagram_safe x Eg) as Hs. destruct (parse_datagram x) as [rs|e|f] eqn:Ep; [|done|done].
  apply ends_later, ends_ret; [done|]. split; [by eapply parsed_records_ok|done].
Qed.

(** A race: the timer [x] runs inside the timers of [w]; only its expiry is a
    timeout. *)
Lemma race_ends {A} (Q : A -> World -> Prop) (m : io A) x w :
  Forall arrival_ok (arrivals w) -> clock w <= x -> Forall (Z.le (clock w)) (timers w) ->
  (forall w0, world_ok w0 -> timers w0 = x :: timers w -> arrivals w0 = arrivals w -> clock w0 = clock w ->
    ends_by later Q w0 (m w0)) ->
  let '(w', r) := race_expiry m x w in
  Forall arrival_ok (arrivals w') /\ Forall (Z.le (clock w')) (timers w') /\ later w w' /\ clock w' <= x /\
  match r with
  | Ok a => exists w1, Q a w1 /\ w' = set_timers (timers w) w1
  | Err (Raise e) => e = Timeout -> clock w' = x
  | Err (Expired n) => timers w !! n = Some (clock w')
  | Err Blocked => False
  | Panic _ => False
  end.
Proof.
  intros Ha Hx Ht Hm. unfold race_expiry, race.
  destruct (Hm (set_timers (x :: timers w) w)) as ((Ha' & _ & Ht') & (E & Hc & Hl) & Hq);
    [split; [done|split; [done|by constructor]]|done|done|done|].
  destruct (m _) as [w1 r]. cbn [fst snd] in *. rewrite E in Ht'. apply Forall_cons_1 in Ht' as [Hx1 Ht1].
  split; [done|]. split; [done|]. split; [by split|]. split; [done|].
  destruct r as [a|[e|[|n]|]|f]; try done; [by exists w1|]. intros _. cbn in Hq. by injection Hq as ->.
Qed.

Lemma recv_before_ends peer x w : world_ok w -> clock w <= x ->
  ends_by later (fun o w' => clock w' <= x /\
    match o with
    | Some (rs, _, _) => Forall (fun r => bytes_ok (rec_payload r)) rs /\ (length (arrivals w') < length (arrivals w))%nat
    | None => clock w' = x
    end) w (catch_timeout (recv_records_before peer x) w).
Proof.
  intros (Ha & Hne & Ht) Hx. unfold catch_timeout, recv_records_before, recv_records_from_unbounded.
  set (m := recv_parsed_datagram (Some peer)).
  assert (forall w0, world_ok w0 -> ends_by later (fun x w' => Forall (fun r => bytes_ok (rec_payload r)) x.1.1 /\
    (length (arrivals w') < length (arrivals w0))%nat) w0 (m w0)) as Hm.
  { intros w0 H0. apply recv_loop_ends; [done|apply Forall_replicate_eq || (apply List.Forall_forall; intros y Hy; apply List.repeat_spec in Hy; subst; by_decide)|lia]. }
  pose proof (race_ends (fun x w' => Forall (fun r => bytes_ok (rec_payload r)) x.1.1 /\
    (length (arrivals w') < length (arrivals w))%nat) m x w Ha Hx Ht) as Hr.
  destruct (race_expiry m x w) as [w' r] eqn:Er. destruct Hr as (Ha' & Ht' & Hl & Hx' & Hq).
  { intros w0 H0 _ E _. rewrite <- E. by apply Hm. }
  assert (world_ok w') as Hw' by (split; [done|split; [by destruct Hl as (-> & _)|done]]).
  destruct r as [[[rs l] rm]|[[e|e|]|n|]|f]; try done.
  - destruct Hq as (w1 & [? ?] & ->). by split.
  - split; [done|]. split; [done|]. split; [done|]. by apply Hq.
Qed.

(** ** The waits of a handshake *)

(** A timer set for a retransmission schedule. *)
Definition armed (w : World) (t : Z) : Prop := clock w + SECOND <= t <= clock w + 60 * SECOND.

Lemma foldr_max_spec a ts : a <= foldr Z.max a ts /\ Forall (fun t => t <= foldr Z.max a ts) ts.
Proof.
  induction ts as [|t ts [IH1 IH2]]; [done|]. cbn [foldr]. split; [lia|]. constructor; [lia|].
  eapply Forall_impl; [exact IH2|]. cbn. lia.
Qed.

Section Wait.
Context {V A : Type} (peer : SocketAddr) (timer : V -> Z) (on_timeout : V -> io V)
  (on_datagram : list DtlsRecord -> V -> io (V + A)) (I : V -> Prop) (Q : A -> Prop).
Context (timeout_ends : forall v w, world_ok w -> I v ->
  ends_by instant (fun v' w' => I v' /\ armed w' (timer v')) w (on_timeout v w)).
Context (datagram_ends : forall rs v w, world_ok w -> I v -> Forall (fun r => bytes_ok (rec_payload r)) rs ->
  ends_by instant (fun r w' =>
    match r with inl v' => I v' /\ (timer v' = timer v \/ armed w' (timer v')) | inr a => Q a end) w (on_datagram rs v w)).

(** [L] bounds the timers around the loop.  A turn takes an arrival, which
    sets the timer back by less than 61 seconds, or ends with the timer, which
    the next one outlives by a second. *)
Lemma wait_loop_ends L fuel v w :
  world_ok w -> I v -> Forall (fun t => t <= L) (timers w) -> clock w <= timer v <= clock w + 60 * SECOND ->
  (let n := Z.of_nat (length (arrivals w)) in
   62 * n + 1 <= Z.of_nat fuel /\ L + SECOND - timer v <= SECOND * (Z.of_nat fuel - 62 * n - 1)) ->
  ends_by later (fun a _ => Q a) w (wait_loop peer timer on_timeout on_datagram fuel v w).
Proof.
  revert v w. induction fuel as [|fuel IH]; intros v w Hw Hi HL Hv [H1 H2]; [lia|]. cbn [wait_loop].
  eapply later_bind; [apply recv_before_ends; [done|lia]|]. intros [[[rs l] rm]|] w1 Hw1 (E1 & Hc & Hl) [Hx Hr].
  - destruct Hr as [Hrs Hlt]. eapply step_bind; [by apply datagram_ends|].
    intros [v'|a] w2 Hw2 (E2 & Ec & Ea) Hd; [|by apply ends_later, ends_ret]. destruct Hd as [Hi' Ht].
    assert (clock w2 <= timer v' <= clock w2 + 60 * SECOND /\ timer v <= timer v' + 60 * SECOND) as [? ?].
    { unfold armed, SECOND in *. rewrite Ec in *. destruct Ht as [->|Ht]; lia. }
    apply IH; [done|done|congruence|done|]. rewrite Ea. unfold SECOND in *. lia.
  - eapply step_bind; [by apply timeout_ends|]. intros v' w2 Hw2 (E2 & Ec & Ea) [Hi' Ht].
    assert (timer v <= L).
    { destruct Hw1 as (_ & Hne & Hge). rewrite E1, Hr in Hge. destruct Hw as (_ & Hne' & _).
      destruct (timers w) as [|t ts]; [done|]. apply Forall_cons_1 in HL as [? _]. apply Forall_cons_1 in Hge as [? _]. lia. }
    unfold armed, SECOND in *. rewrite Ec, Hr in *.
    apply IH; [done|done|congruence|unfold SECOND; lia|]. rewrite Ea. unfold SECOND. lia.
Qed.

Lemma wait_ends start w :
  world_ok w -> (forall t, I (start RetransmitSchedule_new t) /\ timer (start RetransmitSchedule_new t) = t) ->
  ends_by later (fun a _ => Q a) w (wait peer timer on_timeout on_datagram start w).
Proof.
  intros Hw Hs. unfold wait. eapply step_bind; [by apply (ends_sleep (fun t w' => t = clock w + SECOND /\ w' = w))|].
  intros t w1 H1 _ [-> ->]. eapply step_bind; [by apply (ends_get (fun n w' => n = loop_fuel w /\ w' = w))|].
  intros n w1 _ _ [-> ->]. destruct (Hs (clock w + SECOND)) as [Hi Ht].
  destruct (foldr_max_spec (clock w) (timers w)) as [Hm1 Hm2].
  eapply (wait_loop_ends _ _ _ _ H1 Hi Hm2); [rewrite Ht; unfold SECOND; lia|]. rewrite Ht. unfold loop_fuel.
  set (last := foldr Z.max (clock w) (timers w)) in *.
  pose proof (Z.div_mod (last - clock w) SECOND ltac:(done)). pose proof (Z.mod_pos_bound (last - clock w) SECOND ltac:(done)).
  pose proof (Z.div_pos (last - clock w) SECOND ltac:(lia) ltac:(done)). unfold SECOND in *. cbv zeta. split; lia.
Qed.
End Wait.

(** What a retransmission leaves armed. *)
Lemma armed_sleep w s : world_ok w -> schedule_ok s ->
  ends_by instant (fun t w' => armed w' t) w (sleep (timeout s) w).
Proof.
  unfold schedule_ok, SECOND. intros Hw Hs. apply ends_sleep; [done|lia|]. unfold armed, SECOND. lia.
Qed.
End Ends.


(** ** The operations of the drivers *)

Section Operations.
Context {HH : Hash} {HL : HashLaws} {AA : Aead} {AL : AeadLaws} {NN : Net} {CC : Curve} {CL : CurveLaws} {RR : Rng}
  {RL : RngLaws}.

(** What a client knows of its hello state. *)
Definition hello_ok (st : DtlsClientHelloState) : Prop :=
  bytes_ok (st_random st) /\ len (st_random st) = 32 /\ bytes_ok (st_cookie st) /\ len (st_cookie st) <= 255 /\
  (exists kkpp, st_ecjpake_kkpp st = Some kkpp /\ bytes_ok kkpp /\ len kkpp <= 330) /\ is_u16 (next_message_sequence st).

Definition payload_ok (r : DtlsRecord) : Prop := bytes_ok (rec_payload r).

Lemma next_hello_ok st : hello_ok st ->
  hello_ok (next_client_hello_record st).1 /\
  exists r, (next_client_hello_record st).2 = Ok r /\ payload_ok r.
Proof.
  intros (H1 & H2 & H3 & H4 & (kkpp & Ek & H5 & H6) & H7).
  destruct (thread_client_hello_wf (st_random st) (st_cookie st) kkpp H1 H2 H3 H4 H5 H6) as (Hw & Hl & _).
  unfold next_client_hello_record. rewrite Ek, ClientHello_encode_ok by done. cbn [rbind].
  rewrite HandshakeMessage_encode_ok; [|split; [done|split; [by apply client_hello_bytes_ok|cbn [hs_payload]; unfold MAX_U24; lia]]].
  cbn [rbind]. set (m := mkHandshakeMessage _ _ _). pose proof (len_msg_bytes m) as Hm. cbn [m hs_payload] in Hm.
  unfold DtlsRecord_new. rewrite (proj2 (Z.ltb_lt _ _)) by lia. split.
  - split; [done|]. split; [done|]. split; [done|]. split; [done|]. split; [by exists kkpp|]. apply wrapping_u16.
  - eexists. split; [done|]. by apply msg_bytes_ok, client_hello_bytes_ok.
Qed.

Lemma parse_record_safe r ty : payload_ok r -> safe (parse_unfragmented_handshake_record r ty).
Proof.
  intros Hb. unfold parse_unfragmented_handshake_record. case_match; [done|].
  apply safe_bind; [by apply HandshakeFragment_parse_safe|]. intros f _. safe_auto.
Qed.

Lemma parse_record_ok r ty m : payload_ok r -> parse_unfragmented_handshake_record r ty = Ok m -> bytes_ok (hs_payload m).
Proof.
  intros Hb H. unfold parse_unfragmented_handshake_record in H. case_match; [done|].
  apply rbind_ok in H as (f & Hf & H). apply HandshakeFragment_parse_inv in Hf as (_ & _ & Ho & _); [|done].
  inv_ok. done.
Qed.

Lemma verify_request_ok st r : hello_ok st -> payload_ok r ->
  safe (handle_hello_verify_request st r).2 /\ hello_ok (handle_hello_verify_request st r).1.
Proof.
  intros (H1 & H2 & H3 & H4 & H5 & H6) Hr. unfold handle_hello_verify_request.
  pose proof (parse_record_safe r HtHelloVerifyRequest Hr) as Hs.
  destruct (parse_unfragmented_handshake_record r HtHelloVerifyRequest) as [m|e|f] eqn:Em; cbn [rbind]; [|by split|done].
  apply parse_record_ok in Em; [|done]. destruct (negb (bool_decide _)); [by split|].
  pose proof (HelloVerifyRequest_decode_safe _ Em) as Hs'.
  destruct (HelloVerifyRequest_decode (hs_payload m)) as [hv|e|f] eqn:Ev; cbn [rbind]; [|by split|done].
  destruct (negb (_ =? _)); [by split|]. split; [done|]. apply HelloVerifyRequest_decode_data in Ev as [? ?]; [|done].
  destruct H5 as (k & ? & ? & ?). repeat (split; [done|]). split; [by exists k|done].
Qed.

Lemma run_safe {S A} (m : M S DtlsError A) s : safe (m s).2 -> safe (run m s).
Proof. unfold run. by destruct (m s) as [s' [a|e|f]]. Qed.
Lemma behaved_run {S T A} (f : S -> T) (m : M S DtlsError A) s : behaved f m -> safe (run m s).
Proof. intros H. apply run_safe, H. Qed.

(** ** Waiting for the HelloVerifyRequest *)

Lemma hello_verify_records_ok rs st : Forall payload_ok rs -> hello_ok st ->
  safe (hello_verify_records rs st) /\ forall st', hello_verify_records rs st = Ok (Some st') -> hello_ok st'.
Proof.
  intros Hrs Hst. induction Hrs as [|r rs Hr _ IH]; cbn [hello_verify_records]; [done|].
  destruct (content_type (rec_header r)); try done. pose proof (parse_messages_safe r Hr) as Hs.
  destruct (parse_unfragmented_handshake_messages r) as [ms|e|f]; [|done|done].
  destruct (existsb _ ms); [|done]. destruct (verify_request_ok st r Hst Hr) as [Hs' Hok].
  destruct (handle_hello_verify_request st r) as [st' [hv|e|f]]; cbn [rbind fst snd] in *; [|done|done].
  split; [done|]. by intros ? [= <-].
Qed.

Definition hello_wait_ok (v : HelloWait) : Prop := hello_ok (hw_hello_state v) /\ schedule_ok (hw_schedule v).

Lemma hello_timeout_ends local peer v w : world_ok w -> hello_wait_ok v ->
  ends_by instant (fun v' w' => hello_wait_ok v' /\ armed w' (hw_timer v')) w (hello_verify_timeout local peer v w).
Proof.
  intros Hw [Hh Hs]. unfold hello_verify_timeout. destruct (renumber_epoch_zero_flight _ _) as [fl n].
  eapply instant_bind; [by apply ends_send|]. intros _ w1 H1 _ _. apply back_off_ok in Hs.
  eapply instant_bind; [by apply armed_sleep|]. intros t w2 H2 (_ & E & _) Ht. apply ends_ret; [done|]. done.
Qed.

Lemma hello_datagram_ends rs v w : world_ok w -> hello_wait_ok v -> Forall payload_ok rs ->
  ends_by instant (fun r w' => match r with
    | inl v' => hello_wait_ok v' /\ (hw_timer v' = hw_timer v \/ armed w' (hw_timer v'))
    | inr a => hello_ok a.1 end) w (hello_verify_datagram rs v w).
Proof.
  intros Hw [Hh Hs] Hrs. unfold hello_verify_datagram. destruct (hello_verify_records_ok rs _ Hrs Hh) as [H1 H2].
  eapply instant_bind; [apply (ends_proto (fun o _ => forall st', o = Some st' -> hello_ok st')); [done|done|]|].
  { intros o Eo st' ->. by apply H2. }
  intros [st'|] w1 Hw1 _ Ho; apply ends_ret; [done|by apply Ho|done|by split; [|left]].
Qed.

Lemma wait_hello_ends local peer fl n st w : world_ok w -> hello_ok st ->
  ends_by later (fun a _ => hello_ok a.1) w (wait_for_hello_verify local peer fl n st w).
Proof.
  intros Hw Hst. apply wait_ends with (I := hello_wait_ok); [by apply hello_timeout_ends|by apply hello_datagram_ends|done|].
  intros t. split; [|done]. split; [done|apply schedule_new_ok].
Qed.

(** ** Waiting for the server's flight *)

Definition flight_wait_ok (v : FlightWait) : Prop := hello_ok (fw_hello_state v) /\ schedule_ok (fw_schedule v).

(** Where the handling of a message may leave the wait [v]. *)
Definition progress_ok (v : FlightWait) (p : Progress) (w : World) : Prop :=
  match p with
  | NextMessage v' => flight_wait_ok v' /\ fw_timer v' = fw_timer v
  | NextDatagram v' => flight_wait_ok v' /\ armed w (fw_timer v')
  | WholeFlight v' => hello_ok (fw_hello_state v')
  end.

Lemma renumber_one r n : exists r' n', renumber_epoch_zero_flight [r] n = ([r'], n') /\ rec_payload r' = rec_payload r.
Proof.
  unfold renumber_epoch_zero_flight. cbn. repeat case_match; simplify_eq; eauto.
Qed.

Lemma second_verify_ends local peer r v w : world_ok w -> flight_wait_ok v -> payload_ok r ->
  ends_by instant (progress_ok v) w (second_hello_verify local peer r v w).
Proof.
  intros Hw [Hh Hs] Hr. unfold second_hello_verify. destruct (fw_recorded_client_hello v); [by apply ends_ret|].
  destruct (take_budget _) as [b taken]. set (v1 := fw_with_duplicates b v).
  destruct taken; cbn [negb]; [|by apply ends_ret].
  eapply (instant_bind (fun v' _ => flight_wait_ok v')).
  - destruct (verify_request_ok (fw_hello_state v1) r Hh Hr) as [Hsafe Hok].
    destruct (handle_hello_verify_request _ r) as [st [hv|e|f]]; cbn [fst snd] in *; [| |done].
    + destruct (next_hello_ok st Hok) as (Hok' & r1 & Er & Hr1).
      destruct (next_client_hello_record st) as [st' res]. cbn [fst snd] in *. subst res.
      rewrite (proto_step _ _ _ _ eq_refl). destruct (renumber_one r1 (fw_next v1)) as (r2 & n & -> & Ep).
      rewrite (proto_step (idx [r2] 0) _ _ r2) by done.
      assert (payload_ok r2) as Hr2 by (unfold payload_ok; by rewrite Ep).
      eapply (instant_bind (fun _ _ => True)); [apply ends_proto; [done|by apply parse_record_safe|done]|].
      intros m w1 H1 _ _. apply ends_ret; [done|]. split; [done|apply schedule_new_ok].
    + destruct (renumber_epoch_zero_flight _ _) as [fl n]. by apply ends_ret.
  - intros v' w1 H1 _ [Hh' Hs']. eapply instant_bind; [by apply ends_send|]. intros _ w2 H2 _ _.
    eapply instant_bind; [by apply armed_sleep|]. intros t w3 H3 _ Ht. by apply ends_ret.
Qed.

(** A handler of the handshake, then what it leaves. *)
Lemma handler_ends {A} (m : M ThreadDtlsHandshake DtlsError A) h (f : ThreadDtlsHandshake -> Progress) v w :
  world_ok w -> behaved cl_transcript m -> (forall h', progress_ok v (f h') w) ->
  ends_by instant (progress_ok v) w ((let* '(h, _) := proto (run m h) in mret (f h)) w).
Proof.
  intros Hw Hm Hf. eapply (instant_bind (fun _ w' => w' = w)); [by apply ends_proto; [|eapply behaved_run|]|].
  intros [h' a] w1 H1 _ ->. by apply ends_ret.
Qed.

Lemma flight_message_ends local peer r m v w : world_ok w -> flight_wait_ok v -> payload_ok r -> bytes_ok (hs_payload m) ->
  ends_by instant (progress_ok v) w (server_flight_message local peer r m v w).
Proof.
  intros Hw Hv Hr Hm. unfold server_flight_message. destruct (existsb _ _); [by apply ends_ret|].
  destruct (client_handlers_behaved m Hm) as (B1 & B2 & B3 & _).
  destruct (message_type m); try by apply ends_err.
  - eapply (instant_bind (fun _ w' => w' = w)).
    { apply ends_proto; [done| |done]. destruct (fw_recorded_client_hello v); [done|].
      apply run_safe. unfold record_client_hello. destruct (negb _); [done|]. by apply cl_push_behaved. }
    intros [h a] w1 H1 _ ->. by apply handler_ends.
  - by apply second_verify_ends.
  - destruct (negb (fw_recorded_client_hello v)); [by apply ends_ret|]. by apply handler_ends.
  - destruct (_ || _); [by apply ends_ret|]. apply handler_ends; [done|done|]. intros h. apply Hv.
Qed.

(** The next message or record, from the wait that the last one left. *)
Lemma progress_next v (m : io Progress) (k : FlightWait -> io Progress) w :
  ends_by instant (progress_ok v) w (m w) ->
  (forall v' w', world_ok w' -> flight_wait_ok v' -> ends_by instant (progress_ok v') w' (k v' w')) ->
  ends_by instant (progress_ok v) w ((let* p := m in match p with NextMessage v => k v | p => mret p end) w).
Proof.
  intros Hm Hk. eapply instant_bind; [exact Hm|]. intros [v'|v'|v'] w1 H1 _ Hp; [|by apply ends_ret..].
  destruct Hp as [Hv' Ht]. eapply ends_weaken; [by apply Hk|done|].
  intros [x|x|x] w2 _ _ Hx; [|done..]. destruct Hx as [? Hx]. split; [done|congruence].
Qed.

Lemma flight_messages_ends local peer r ms v w : world_ok w -> flight_wait_ok v -> payload_ok r ->
  Forall (fun m => bytes_ok (hs_payload m)) ms ->
  ends_by instant (progress_ok v) w (server_flight_messages local peer r ms v w).
Proof.
  intros Hw Hv Hr Hms. revert v w Hw Hv. induction Hms as [|m ms Hm _ IH]; intros v w Hw Hv; cbn [server_flight_messages];
    [by apply ends_ret|]. apply progress_next; [by apply flight_message_ends|auto].
Qed.

Lemma flight_records_ends local peer rs v w : world_ok w -> flight_wait_ok v -> Forall payload_ok rs ->
  ends_by instant (progress_ok v) w (server_flight_records local peer rs v w).
Proof.
  intros Hw Hv Hrs. revert v w Hw Hv. induction Hrs as [|r rs Hr _ IH]; intros v w Hw Hv; cbn [server_flight_records];
    [by apply ends_ret|]. destruct (content_type (rec_header r)); auto; [by apply ends_proto|].
  pose proof (parse_messages_safe r Hr) as Hs. destruct (parse_unfragmented_handshake_messages r) as [ms|e|f] eqn:Em; [|auto|done].
  apply progress_next; [|auto]. apply flight_messages_ends; [done..|]. by eapply many_messages_ok.
Qed.

Lemma flight_timeout_ends local peer v w : world_ok w -> flight_wait_ok v ->
  ends_by instant (fun v' w' => flight_wait_ok v' /\ armed w' (fw_timer v')) w (server_flight_timeout local peer v w).
Proof.
  intros Hw [Hh Hs]. unfold server_flight_timeout. destruct (renumber_epoch_zero_flight _ _) as [fl n].
  eapply instant_bind; [by apply ends_send|]. intros _ w1 H1 _ _. apply back_off_ok in Hs.
  eapply instant_bind; [by apply armed_sleep|]. intros t w2 H2 _ Ht. by apply ends_ret.
Qed.

Lemma flight_datagram_ends local peer rs v w : world_ok w -> flight_wait_ok v -> Forall payload_ok rs ->
  ends_by instant (fun r w' => match r with
    | inl v' => flight_wait_ok v' /\ (fw_timer v' = fw_timer v \/ armed w' (fw_timer v'))
    | inr v' => hello_ok (fw_hello_state v') end) w (server_flight_datagram local peer rs v w).
Proof.
  intros Hw Hv Hrs. unfold server_flight_datagram. eapply instant_bind; [by apply flight_records_ends|].
  intros [v'|v'|v'] w1 H1 _ Hp; apply ends_ret; try done; destruct Hp; split; auto.
Qed.

Lemma wait_flight_ends local peer fl n st m h w : world_ok w -> hello_ok st ->
  ends_by later (fun v _ => hello_ok (fw_hello_state v)) w (wait_for_server_flight local peer fl n st m h w).
Proof.
  intros Hw Hst. apply (wait_ends _ _ _ _ flight_wait_ok (fun v => hello_ok (fw_hello_state v)));
    [by apply flight_timeout_ends|by apply flight_datagram_ends|done|].
  intros t. split; [|done]. split; [done|apply schedule_new_ok].
Qed.

(** ** Waiting for the server's Finished *)

Definition keys_ok (s : SessionState) : Prop :=
  key_block_wf (key_block (ss_key_material s)) /\ Forall payload_ok (unread_records s).

Lemma write_iv_ok s : keys_ok s -> len (write_keys s).2 = 4.
Proof. intros [(_ & _ & ? & ?) _]. unfold write_keys. by destruct (ss_role s). Qed.
Lemma read_iv_ok s : keys_ok s -> len (read_keys s).2 = 4.
Proof. intros [(_ & _ & ? & ?) _]. unfold read_keys. by destruct (ss_role s). Qed.

Lemma session_protect_ok ct p s : keys_ok s ->
  safe (protect_record ct p s).2 /\ keys_ok (protect_record ct p s).1.
Proof.
  intros Hk. pose proof (write_iv_ok s Hk) as Hiv. unfold protect_record, mbind, mget, id.
  destruct (write_keys s) as [key iv]. cbn [snd] in Hiv. unfold mlift.
  pose proof (protect_safe ct 1 (next_application_sequence s) key iv p Hiv) as Hs.
  by destruct (protect_aes_128_ccm_8_record _ _ _ _ _ _) as [r|e|f].
Qed.

Lemma session_open_ok r s : keys_ok s -> payload_ok r ->
  safe (open_protected_record r s).2 /\ keys_ok (open_protected_record r s).1 /\
  forall p, (open_protected_record r s).2 = Ok (Some p) -> bytes_ok p.
Proof.
  intros Hk Hr. pose proof (read_iv_ok s Hk) as Hiv. unfold open_protected_record, mbind, mget, id.
  destruct (has_seen _ _); [by split|]. destruct (read_keys s) as [key iv]. cbn [snd] in Hiv. unfold mlift.
  pose proof (open_safe r key iv Hiv) as Hs.
  destruct (open_aes_128_ccm_8_record r key iv) as [p|e|f] eqn:Eo; [|by split|done].
  split; [done|]. split; [done|]. intros ? [= <-]. by eapply open_bytes.
Qed.

Definition flight_state_ok (sn : SessionState * Z) : Prop := keys_ok sn.1.

Lemma take_next_good : good flight_state_ok (fun _ => True) (@take_next SessionState DtlsError).
Proof. intros [s n] H. unfold take_next. by destruct (take_record_sequence n). Qed.
Lemma sequenced_protect_good ct p : good flight_state_ok (fun _ => True) (sequenced (protect_record ct p)).
Proof.
  intros [s n] H. unfold sequenced, mzoom. cbn [fst]. destruct (session_protect_ok ct p s H) as [Hs Hk].
  by destruct (protect_record ct p s) as [s' [r|e|f]].
Qed.
Lemma lift_good {S A} (P : S -> Prop) (r : result DtlsError A) : safe r -> good P (fun _ => True) (mlift r).
Proof. intros H. by apply good_lift. Qed.

Lemma client_finished_flight_good cke fin : good flight_state_ok (fun _ => True) (build_client_finished_flight cke fin).
Proof.
  unfold build_client_finished_flight.
  repeat first [eapply good_bind; [apply take_next_good|intros ? _]
    |eapply good_bind; [apply lift_good, HandshakeMessage_encode_safe|intros ? _]
    |eapply good_bind; [apply lift_good, record_new_safe|intros ? _]
    |eapply good_bind; [apply sequenced_protect_good|intros ? _]]. by apply good_ret.
Qed.
Lemma server_finished_flight_good b : good flight_state_ok (fun _ => True) (build_server_finished_flight b).
Proof.
  unfold build_server_finished_flight. eapply good_bind; [apply take_next_good|intros ? _].
  eapply good_bind; [apply lift_good, record_new_safe|intros ? _].
  eapply good_bind; [apply sequenced_protect_good|intros ? _]. by apply good_ret.
Qed.

(** [proto] of a good method. *)
Lemma good_run_ends {S A} (P : S -> Prop) (m : M S DtlsError A) s w : world_ok w -> good P (fun _ => True) m -> P s ->
  ends_by instant (fun x w' => P x.1 /\ w' = w) w (proto (run m s) w).
Proof.
  intros Hw Hm Hs. destruct (Hm s Hs) as [H1 H2]. unfold run. destruct (m s) as [s' [a|e|f]]; cbn [fst snd] in *; [|by split|done].
  apply ends_proto; [done..|]. by intros ? [= <-].
Qed.

Definition finished_wait_ok (v : FinishedWait) : Prop := keys_ok (nw_state v) /\ schedule_ok (nw_schedule v).

Section Finished.
Context (local peer : SocketAddr) (cke fin : HandshakeMessage) (server_flight : list HandshakeMessage).

Lemma resend_finished_ends s b v w : world_ok w -> keys_ok (nw_state v) -> schedule_ok s ->
  ends_by instant (fun v' w' => finished_wait_ok v' /\ armed w' (nw_timer v')) w
    (resend_client_finished local peer cke fin s b v w).
Proof.
  intros Hw Hk Hs. unfold resend_client_finished.
  eapply instant_bind; [eapply good_run_ends; [done|apply client_finished_flight_good|exact Hk]|].
  intros [[st n] fl] w1 H1 _ [Hk' _]. eapply instant_bind; [by apply ends_send|]. intros _ w2 H2 _ _.
  eapply instant_bind; [by apply armed_sleep|]. intros t w3 H3 _ Ht. by apply ends_ret.
Qed.

Lemma verify_messages_safe ms h km : Forall (fun m => bytes_ok (hs_payload m)) ms -> safe (verify_finished_messages ms h km).
Proof.
  induction 1 as [|m ms Hm _ IH]; cbn [verify_finished_messages]; [done|]. case_match; [|done].
  apply safe_bind; [|done]. eapply behaved_run. by apply client_handlers_behaved.
Qed.

Lemma finished_records_ok rs v : Forall payload_ok rs -> finished_wait_ok v ->
  safe (server_finished_records rs v) /\
  forall v' b, server_finished_records rs v = Ok (v', b) -> finished_wait_ok v' /\ nw_timer v' = nw_timer v.
Proof.
  intros Hrs. revert v. induction Hrs as [|r rs Hr _ IH]; intros v Hv; cbn [server_finished_records].
  { split; [done|]. by intros v' b [= <- <-]. }
  assert (forall s, keys_ok s -> safe (server_finished_records rs (nw_with_state s v)) /\
    forall v' b, server_finished_records rs (nw_with_state s v) = Ok (v', b) -> finished_wait_ok v' /\ nw_timer v' = nw_timer v)
    as IHs by (intros s Hs; apply (IH (nw_with_state s v)); by split; [|apply Hv]).
  destruct (session_open_ok r (nw_state v) (proj1 Hv) Hr) as (Ho1 & Ho2 & Ho3).
  destruct (rec_epoch (rec_header r)) as [|[?|?|]|?]; try (by apply IH).
  - destruct (content_type (rec_header r)); try (by apply IH); [|done].
    destruct (negb (vec_eqb _ _)); [done|]. by apply (IH (nw_saw v)).
  - destruct (content_type (rec_header r)); try (by apply IH).
    + destruct (open_protected_record r (nw_state v)) as [s [[p|]|e|f]]; cbn [fst snd] in *; auto; done.
    + destruct (negb (nw_saw_change_cipher_spec v)); [by apply IH|]. unfold run.
      destruct (open_protected_record r (nw_state v)) as [s [[p|]|e|f]]; cbn [fst snd rbind] in *; [|by apply IHs|done|done].
      specialize (Ho3 p eq_refl). unfold DtlsRecord_new. case_match; cbn [rbind]; [|done].
      match goal with |- context [parse_unfragmented_handshake_messages ?x] => set (pr := x) end.
      pose proof (parse_messages_safe pr Ho3) as Hs. pose proof (many_messages_ok pr) as Hms.
      destruct (parse_unfragmented_handshake_messages pr) as [ms|e|f]; cbn [rbind]; [|done|done].
      pose proof (verify_messages_safe ms (nw_handshake (nw_with_state s v)) (ss_key_material (nw_state (nw_with_state s v)))
        (Hms ms Ho3 eq_refl)) as Hvs.
      destruct (verify_finished_messages _ _ _) as [[]|e|f]; cbn [rbind]; [|by apply IHs|done|done].
      split; [done|]. intros ? ? [= <- <-]. by split; [split; [|apply Hv]|].
Qed.

Lemma finished_datagram_ends rs v w : world_ok w -> finished_wait_ok v -> Forall payload_ok rs ->
  ends_by instant (fun r w' => match r with
    | inl v' => finished_wait_ok v' /\ (nw_timer v' = nw_timer v \/ armed w' (nw_timer v'))
    | inr v' => keys_ok (nw_state v') end) w (server_finished_datagram local peer cke fin server_flight rs v w).
Proof.
  intros Hw Hv Hrs. unfold server_finished_datagram.
  eapply (instant_bind (fun v' w' => finished_wait_ok v' /\ (nw_timer v' = nw_timer v \/ armed w' (nw_timer v')))).
  - destruct (repeats_final_server_message _ _); [|by apply ends_ret; [|split; [|left]]].
    destruct (take_budget _) as [b []]; [|by apply ends_ret; [|split; [|left]]].
    eapply ends_weaken; [apply resend_finished_ends; [done|apply Hv..]|done|]. intros v' w1 _ _ [? ?]. auto.
  - intros v' w1 H1 (_ & Ec & _) [Hv' Ht]. destruct (finished_records_ok rs v' Hrs Hv') as [Hs Hr].
    eapply (instant_bind (fun x w2 => finished_wait_ok x.1 /\ nw_timer x.1 = nw_timer v' /\ w2 = w1)).
    + apply ends_proto; [done..|]. intros [v2 b] E. by destruct (Hr v2 b E).
    + intros [v2 []] w2 H2 _ ([? ?] & E & ->); cbn [fst] in *; apply ends_ret; [done..|]. split; [done|]. by rewrite E.
Qed.

Lemma wait_finished_ends n h s w : world_ok w -> keys_ok s ->
  ends_by later (fun v _ => keys_ok (nw_state v)) w
    (wait_for_server_finished local peer cke fin server_flight n h s w).
Proof.
  intros Hw Hs. apply (wait_ends _ _ _ _ finished_wait_ok (fun v => keys_ok (nw_state v))).
  - intros v w' Hw' [Hk Hsc]. apply resend_finished_ends; [done|done|by apply back_off_ok].
  - intros. by apply finished_datagram_ends.
  - done.
  - intros t. split; [|done]. split; [done|apply schedule_new_ok].
Qed.
End Finished.

(** ** The client *)

Lemma client_hello_state_ok c rc cr : party_wf c -> honest_round_one c rc -> bytes_ok cr -> len cr = 32 ->
  exists st, client_hello_state (mkClientHandshake c rc None None cr None []) = Ok st /\ hello_ok st.
Proof.
  intros Hc Hrc Ho Hl. destruct (kkpp_roundtrip c rc Hc Hrc) as (kkpp & Ek & Hk & Hlk & _).
  unfold client_hello_state. cbn [cl_client_round_one cl_client_random]. rewrite Ek. cbn [rbind].
  eexists. split; [done|]. split; [done|]. split; [done|]. split; [constructor|]. split; [by_decide|].
  split; [by exists kkpp|by_decide].
Qed.

Lemma build_client_key_exchange_safe seq x : safe (build_client_key_exchange seq x).2.
Proof.
  unfold build_client_key_exchange. apply mbind_safe; [done|]. intros self s1 _.
  apply mbind_safe; [apply safe_ok_or|]. intros r1 [s2 g2] _. apply mbind_safe.
  { unfold mdraw. pose proof (round_two_safe (cl_ecjpake s2) (cl_client_round_one s2) r1 g2).
    by destruct (round_two _ _ _ _) as [[? ?]|?|?]. }
  intros r2 s3 _. apply mbind_safe; [apply write_key_kp_safe|]. intros pl s4 _.
  apply mbind_safe; [apply with_rng_safe, cl_push_behaved|done].
Qed.

Lemma build_client_finished_safe seq h : safe (build_client_finished seq h).2.
Proof.
  unfold build_client_finished. apply mbind_safe; [done|]. intros self s1 _. apply mbind_safe.
  { unfold client_finished_verify_data. apply safe_bind; [apply client_derive_safe|]. intros km _.
    apply transcript_verify_data_safe. }
  intros v s2 _. apply mbind_safe; [apply cl_push_behaved|done].
Qed.

Lemma client_derived_keys h km : client_derive_key_material h = Ok km -> key_block_wf (key_block km).
Proof.
  unfold client_derive_key_material. destruct (cl_server_round_one h); [|done]. destruct (cl_server_round_two h); [|done].
  destruct (cl_server_random h) as [sr|]; [|done]. cbn [ok_or rbind]. destruct (finish _ _ _ _) as [p|e|f]; [|done..].
  cbn [rbind]. destruct (derive_ok p (cl_client_random h) sr) as (k & -> & Hk). by intros [= <-].
Qed.

Lemma connect_inner_ends local peer pskc w : world_ok w ->
  ends_by later (fun s _ => keys_ok s) w (connect_inner local peer pskc w).
Proof.
  intros Hw. unfold connect_inner.
  eapply (step_bind (fun h _ => exists st, client_hello_state h = Ok st /\ hello_ok st)).
  { apply ends_draw; [done|intros g|intros g g' a E]; destruct (client_new_ok g pskc) as (c & rc & cr & g2 & E' & Hc & _ & _ & _ & Hrc & Ho & Hl);
      rewrite E' in *; [done|]. injection E as <- <-. by apply client_hello_state_ok. }
  intros h w1 H1 _ (st & Est & Hst). rewrite (proto_step _ _ _ _ Est).
  destruct (next_hello_ok st Hst) as (Hst1 & r & Er & Hr). destruct (next_client_hello_record st) as [st1 res].
  cbn [fst snd] in *. subst res. rewrite (proto_step _ _ _ _ eq_refl).
  destruct (renumber_one r 0) as (r1 & n1 & -> & _). rewrite (proto_step (idx [r1] 0) _ _ r1) by done.
  eapply step_bind; [by apply ends_send|]. intros _ w2 H2 _ _.
  eapply later_bind; [by apply wait_hello_ends|]. intros [st2 n2] w3 H3 _ Hst2. cbn [fst] in Hst2.
  destruct (next_hello_ok st2 Hst2) as (Hst3 & r2 & Er2 & Hr2). destruct (next_client_hello_record st2) as [st3 res].
  cbn [fst snd] in *. subst res. rewrite (proto_step _ _ _ _ eq_refl).
  destruct (renumber_one r2 n2) as (r3 & n3 & -> & Ep). rewrite (proto_step (idx [r3] 0) _ _ r3) by done.
  assert (payload_ok r3) as Hr3 by (unfold payload_ok; by rewrite Ep).
  eapply (step_bind (fun _ _ => True)); [by apply ends_proto; [|apply parse_record_safe|]|]. intros m w4 H4 _ _.
  eapply step_bind; [by apply ends_send|]. intros _ w5 H5 _ _.
  eapply later_bind; [by apply wait_flight_ends|]. intros v w6 H6 _ Hv.
  eapply (step_bind (fun _ _ => True)).
  { apply ends_draw; [done|intros g|done]. apply safe_map_ok, run_safe, build_client_key_exchange_safe. }
  intros [h2 cke] w7 H7 _ _.
  eapply (step_bind (fun km _ => key_block_wf (key_block km)));
    [apply ends_proto; [done|apply client_derive_safe|apply client_derived_keys]|]. intros km w8 H8 _ Hkm.
  eapply (step_bind (fun _ _ => True)); [apply ends_proto; [done|apply run_safe, build_client_finished_safe|done]|].
  intros [h3 fin] w9 H9 _ _.
  eapply step_bind; [eapply good_run_ends; [done|apply client_finished_flight_good|by split]|].
  intros [[s n4] fl] w10 H10 _ [Hs _]. eapply step_bind; [by apply ends_send|]. intros _ w11 H11 _ _.
  eapply later_bind; [by apply wait_finished_ends|]. intros v' w12 H12 _ Hv'. by apply ends_later, ends_ret.
Qed.

(** ** The server *)

Lemma server_derived_keys h km : server_derive_key_material h = Ok km -> key_block_wf (key_block km).
Proof.
  unfold server_derive_key_material. destruct (sv_client_round_one h); [|done]. destruct (sv_client_round_two h); [|done].
  destruct (sv_client_random h) as [cr|]; [|done]. cbn [ok_or rbind]. destruct (finish _ _ _ _) as [p|e|f]; [|done..].
  cbn [rbind]. destruct (derive_ok p cr (sv_server_random h)) as (k & -> & Hk). by intros [= <-].
Qed.

Lemma hello_messages_ends cookies local peer n ms w : world_ok w -> Forall (fun m => bytes_ok (hs_payload m)) ms ->
  ends_by instant (fun o _ => match o with Some m => bytes_ok (hs_payload m) | None => True end) w
    (hello_messages cookies local peer n ms w).
Proof.
  intros Hw Hms. revert w Hw. induction Hms as [|m ms Hm _ IH]; intros w Hw; cbn [hello_messages]; [by apply ends_ret|].
  destruct (negb _); [by apply IH|]. pose proof (ClientHello_decode_safe _ Hm) as Hs.
  destruct (ClientHello_decode (hs_payload m)) as [hello|e|f]; [|by apply IH|done].
  destruct (verify _ _ _); [by apply ends_ret|].
  destruct (cookie_ok cookies (ch_random hello)) as (ck & Eck & _). rewrite (proto_step _ _ _ _ Eck).
  eapply (instant_bind (fun _ _ => True)); [by apply ends_proto; [|apply hello_verify_encode_safe|]|]. intros body w1 H1 _ _.
  eapply (instant_bind (fun _ _ => True)); [by apply ends_proto; [|apply HandshakeMessage_encode_safe|]|]. intros b w2 H2 _ _.
  eapply (instant_bind (fun _ _ => True)); [by apply ends_proto; [|apply record_new_safe|]|]. intros r w3 H3 _ _.
  eapply instant_bind; [by apply ends_send|]. intros _ w4 H4 _ _. by apply IH.
Qed.

Definition accepted_hello (o : option (HandshakeMessage * Z)) (_ : World) : Prop :=
  match o with Some (m, _) => bytes_ok (hs_payload m) | None => True end.

Lemma hello_records_ends cookies local peer rs w : world_ok w -> Forall payload_ok rs ->
  ends_by instant accepted_hello w (hello_records cookies local peer rs w).
Proof.
  intros Hw Hrs. revert w Hw. induction Hrs as [|r rs Hr _ IH]; intros w Hw; cbn [hello_records]; [by apply ends_ret|].
  destruct (_ || _); [by apply IH|]. pose proof (parse_messages_safe r Hr) as Hs.
  destruct (parse_unfragmented_handshake_messages r) as [ms|e|f] eqn:Em; [|by apply IH|done].
  eapply instant_bind; [apply hello_messages_ends; [done|by eapply many_messages_ok]|].
  intros [m|] w1 H1 _ Hm; [by apply ends_ret|by apply IH].
Qed.

Lemma accept_hello_ends fuel cookies w : world_ok w -> (length (arrivals w) < fuel)%nat ->
  ends_by later (fun x _ => bytes_ok (hs_payload x.1.2)) w (accept_hello_loop fuel cookies w).
Proof.
  revert w. induction fuel as [|fuel IH]; intros w Hw Hf; [lia|]. cbn [accept_hello_loop].
  eapply (later_bind (fun x w' => Forall payload_ok x.1.1 /\ (length (arrivals w') < length (arrivals w))%nat)).
  { apply recv_loop_ends; [done| |lia]. apply List.Forall_forall. intros y Hy. apply List.repeat_spec in Hy. subst. by_decide. }
  intros [[rs local] peer] w1 H1 _ [Hrs Hlt]. eapply step_bind; [by apply hello_records_ends|].
  intros [[m n]|] w2 H2 (_ & _ & Ea) Ho; [by apply ends_later, ends_ret|]. apply IH; [done|]. rewrite Ea. cbn [fst] in *. lia.
Qed.

Definition accept_wait_ok (v : AcceptWait) : Prop :=
  schedule_ok (aw_schedule v) /\ forall km, aw_key_material v = Some km -> key_block_wf (key_block km).

Lemma client_key_exchange_ok ms v : Forall (fun m => bytes_ok (hs_payload m)) ms -> accept_wait_ok v ->
  safe (client_key_exchange_messages ms v) /\
  forall v', client_key_exchange_messages ms v = Ok v' -> accept_wait_ok v' /\ aw_timer v' = aw_timer v.
Proof.
  intros Hms. revert v. induction Hms as [|m ms Hm _ IH]; intros v Hv; cbn [client_key_exchange_messages];
    [split; [done|]; by intros v' [= <-]|]. destruct (negb _); [by apply IH|]. destruct (bool_decide _); [by apply IH|].
  pose proof (behaved_run _ _ (aw_handshake v) (proj1 (proj2 (server_handlers_behaved m Hm)))) as Hs.
  destruct (run (handle_client_key_exchange m) (aw_handshake v)) as [[h x]|e|f]; cbn [rbind]; [|done|done].
  pose proof (server_derive_safe h) as Hd. pose proof (server_derived_keys h) as Hk.
  destruct (server_derive_key_material h) as [km|e|f]; cbn [rbind]; [|done|done].
  apply (IH (aw_with_keys h km m v)). split; [apply Hv|]. intros ? [= <-]. by apply Hk.
Qed.

Lemma alert_ends Q local peer n e w : world_ok w -> e <> Timeout ->
  ends_by instant Q w ((let* _ := send_fatal_handshake_alert local peer n in merr (A := Accepted) (Raise e)) w).
Proof.
  intros Hw He. eapply (instant_bind (fun _ _ => True)).
  - unfold send_fatal_handshake_alert. eapply (instant_bind (fun _ _ => True)); [by apply ends_proto; [|apply record_new_safe|]|].
    intros r w1 H1 _ _. by apply ends_send.
  - intros _ w1 H1 _ _. by apply ends_err.
Qed.

Lemma accept_finished_ends local peer n r km v w : world_ok w -> accept_wait_ok v -> payload_ok r ->
  key_block_wf (key_block km) ->
  ends_by instant (fun a _ => keys_ok (acc_state a)) w (accept_finished local peer n r km v w).
Proof.
  intros Hw Hv Hr (Hk1 & Hk2 & Hk3 & Hk4). unfold accept_finished.
  pose proof (open_safe r (client_write_key (key_block km)) (client_write_iv (key_block km)) Hk3) as Hs.
  destruct (open_aes_128_ccm_8_record _ _ _) as [p|e|f] eqn:Eo; [|by apply alert_ends|done].
  apply open_bytes in Eo; [|done].
  eapply (instant_bind (fun x _ => payload_ok x)).
  { apply ends_proto; [done|apply record_new_safe|]. unfold DtlsRecord_new. intros x E. case_match; [|done]. by injection E as <-. }
  intros pr w1 H1 _ Hpr. eapply (instant_bind (fun m _ => bytes_ok (hs_payload m)));
    [apply ends_proto; [done|by apply parse_record_safe|intros m Em; by eapply parse_record_ok]|]. intros m w2 H2 _ Hm.
  pose proof (proj2 (proj2 (server_handlers_behaved m Hm)) km (aw_handshake v)) as [Hs' _].
  destruct (verify_client_finished m km (aw_handshake v)) as [h [[]|e|f]]; [|by apply alert_ends|done].
  eapply (instant_bind (fun _ _ => True)); [by apply ends_proto; [|apply run_safe, build_server_finished_safe|]|].
  intros [h2 sf] w3 H3 _ _. eapply (instant_bind (fun _ _ => True)); [by apply ends_proto; [|apply HandshakeMessage_encode_safe|]|].
  intros b w4 H4 _ _. eapply (instant_bind (fun k _ => key_block_wf (key_block k))).
  { apply ends_proto; [done|apply safe_ok_or|]. intros k Ek%ok_or_ok. by apply Hv. }
  intros k w5 H5 _ Hk. eapply instant_bind; [eapply good_run_ends; [done|apply server_finished_flight_good|by split]|].
  intros [[s n'] fl] w6 H6 _ [Hs1 _]. eapply instant_bind; [by apply ends_send|]. intros _ w7 H7 _ _. by apply ends_ret.
Qed.

Definition accept_progress (v : AcceptWait) (x : AcceptWait + Accepted) (_ : World) : Prop :=
  match x with inl v' => accept_wait_ok v' /\ aw_timer v' = aw_timer v | inr a => keys_ok (acc_state a) end.

Lemma accept_records_ends local peer n rs v w : world_ok w -> accept_wait_ok v -> Forall payload_ok rs ->
  ends_by instant (accept_progress v) w (accept_records local peer n rs v w).
Proof.
  intros Hw Hv Hrs. revert v w Hw Hv. induction Hrs as [|r rs Hr _ IH]; intros v w Hw Hv; cbn [accept_records];
    [by apply ends_ret|].
  destruct (rec_epoch (rec_header r)) as [|[?|?|]|?]; try (by apply IH); destruct (content_type (rec_header r)); try (by apply IH).
  - destruct (negb _); [by apply ends_err|]. by apply (IH (aw_saw v)).
  - by apply ends_err.
  - pose proof (parse_messages_safe r Hr) as Hs.
    destruct (parse_unfragmented_handshake_messages r) as [ms|e|f] eqn:Em; [|by apply IH|done].
    destruct (client_key_exchange_ok ms v (many_messages_ok r ms Hr Em) Hv) as [Hs' Hok].
    eapply (instant_bind (fun v' _ => accept_wait_ok v' /\ aw_timer v' = aw_timer v)); [by apply ends_proto; [..|intros v' E; apply Hok]|].
    intros v' w1 H1 _ [Hv' Ht]. eapply ends_weaken; [by apply IH|done|].
    intros [x|x] w2 _ _ Hx; [|done]. destruct Hx as [? Hx]. split; [done|congruence].
  - destruct (negb _); [by apply IH|]. destruct (aw_key_material v) as [km|] eqn:Ek; [|by apply IH].
    eapply instant_bind; [by apply accept_finished_ends; [..|apply Hv]|].
    intros a w1 H1 _ Ha. by apply ends_ret.
Qed.

Lemma accept_timeout_ends local peer v w : world_ok w -> accept_wait_ok v ->
  ends_by instant (fun v' w' => accept_wait_ok v' /\ armed w' (aw_timer v')) w (accept_timeout local peer v w).
Proof.
  intros Hw [Hs Hk]. unfold accept_timeout. destruct (renumber_epoch_zero_flight _ _) as [fl n].
  eapply instant_bind; [by apply ends_send|]. intros _ w1 H1 _ _. apply back_off_ok in Hs.
  eapply instant_bind; [by apply armed_sleep|]. intros t w2 H2 _ Ht. by apply ends_ret.
Qed.

Lemma accept_datagram_ends local peer ch rs v w : world_ok w -> accept_wait_ok v -> Forall payload_ok rs ->
  ends_by instant (fun r w' => match r with
    | inl v' => accept_wait_ok v' /\ (aw_timer v' = aw_timer v \/ armed w' (aw_timer v'))
    | inr a => keys_ok (acc_state a) end) w (accept_datagram local peer ch rs v w).
Proof.
  intros Hw Hv Hrs. unfold accept_datagram. destruct (contains_client_hello _ _).
  - destruct (take_budget _) as [b []]; [|by apply ends_ret; [|split; [|left]]].
    destruct (renumber_epoch_zero_flight _ _) as [fl n]. eapply instant_bind; [by apply ends_send|]. intros _ w1 H1 _ _.
    eapply instant_bind; [by apply armed_sleep; [|apply Hv]|]. intros t w2 H2 _ Ht. apply ends_ret; [done|].
    split; [done|by right].
  - eapply ends_weaken; [by apply accept_records_ends|done|]. intros [v'|a] w1 _ _ Hp; [|done]. destruct Hp; auto.
Qed.

Lemma flight_records_safe ms n : safe (flight_records ms n).
Proof.
  revert n. induction ms as [|m ms IH]; intros n; cbn [flight_records]; [done|].
  apply safe_bind; [apply HandshakeMessage_encode_safe|]. intros b _. apply safe_bind; [apply record_new_safe|]. intros r _.
  apply safe_bind; [apply IH|]. by intros [? ?] _.
Qed.

Lemma accept_inner_ends psk w : world_ok w -> ends_by later (fun a _ => keys_ok (acc_state a)) w (accept_inner psk w).
Proof.
  intros Hw. unfold accept_inner. eapply (step_bind (fun _ _ => True)).
  { apply ends_draw; [done|intros g|done]. by destruct (DtlsCookieGenerator_new_with_rng g). }
  intros cookies w1 H1 _ _. eapply step_bind;
    [by apply (ends_get (fun n w' => n = S (length (arrivals w1)) /\ w' = w1))|]. intros n w2 _ _ [-> ->].
  eapply later_bind; [apply accept_hello_ends; [done|lia]|]. intros [[[local peer] ch] n] w3 H3 _ Hch. cbn [fst snd] in Hch.
  eapply (step_bind (fun _ _ => True)).
  { apply ends_draw; [done|intros g|done]. by destruct (server_new_ok g psk) as (? & ? & ? & ? & -> & _). }
  intros h w4 H4 _ _. eapply (step_bind (fun _ _ => True));
    [by apply ends_proto; [|eapply behaved_run, server_handlers_behaved|]|]. intros [h1 x1] w5 H5 _ _.
  eapply (step_bind (fun _ _ => True)); [by apply ends_proto; [|apply run_safe, build_server_hello_safe|]|].
  intros [h2 m1] w6 H6 _ _. eapply (step_bind (fun _ _ => True)).
  { apply ends_draw; [done|intros g|done]. apply safe_map_ok, run_safe, build_server_key_exchange_safe. }
  intros [h3 m2] w7 H7 _ _. eapply (step_bind (fun _ _ => True));
    [by apply ends_proto; [|apply run_safe, build_server_hello_done_safe|]|]. intros [h4 m3] w8 H8 _ _.
  eapply (step_bind (fun _ _ => True)); [by apply ends_proto; [|apply flight_records_safe|]|]. intros [fl n'] w9 H9 _ _.
  eapply step_bind; [by apply ends_send|]. intros _ w10 H10 _ _.
  apply (wait_ends _ _ _ _ accept_wait_ok (fun a => keys_ok (acc_state a)));
    [by apply accept_timeout_ends|by apply accept_datagram_ends|done|].
  intros t. split; [|done]. split; [apply schedule_new_ok|done].
Qed.

(** ** Deadlines *)

(** An operation with [duration] to run, started at [w], ends with [x] in time. *)
Definition in_time {A} (duration : Z) (w : World) (x : World * result Stop A) : Prop :=
  clock w <= clock x.1 <= clock w + duration /\ timers x.1 = timers w /\
  match x.2 with
  | Ok _ => True
  | Err (Raise e) => e = Timeout -> clock x.1 = clock w + duration
  | Err (Expired n) => timers w !! n = Some (clock x.1)
  | Err Blocked => False
  | Panic _ => False
  end.

Lemma with_timeout_ends {A} (m : io A) Q duration w :
  0 <= duration -> Forall arrival_ok (arrivals w) -> Forall (Z.le (clock w)) (timers w) ->
  (forall w0, world_ok w0 -> ends_by later Q w0 (m w0)) -> in_time duration w (with_timeout m duration w).
Proof.
  intros Hd Ha Ht Hm. unfold with_timeout. rewrite (mbind_step _ _ _ _ _ (sleep_ok duration w Hd)).
  pose proof (race_ends Q m (clock w + duration) w Ha ltac:(lia) Ht) as Hr.
  destruct (race_expiry m (clock w + duration) w) as [w' r]. destruct Hr as (_ & _ & (E & Hc & _) & Hx & Hq).
  { intros w0 H0 _ _ _. by apply Hm. }
  split; [done|]. split; [done|]. cbn [fst snd]. destruct r as [a|[e|n|]|f]; try done.
Qed.

(** What such an operation leaves to the next one. *)
Lemma with_timeout_leaves {A} (m : io A) (Q : A -> World -> Prop) duration w :
  0 <= duration -> Forall arrival_ok (arrivals w) -> Forall (Z.le (clock w)) (timers w) ->
  (forall w0, world_ok w0 -> ends_by later Q w0 (m w0)) ->
  let '(w', r) := with_timeout m duration w in
  Forall arrival_ok (arrivals w') /\ Forall (Z.le (clock w')) (timers w') /\ (forall a, r = Ok a -> exists w1, Q a w1).
Proof.
  intros Hd Ha Ht Hm. unfold with_timeout. rewrite (mbind_step _ _ _ _ _ (sleep_ok duration w Hd)).
  pose proof (race_ends Q m (clock w + duration) w Ha ltac:(lia) Ht) as Hr.
  destruct (race_expiry m (clock w + duration) w) as [w' r]. destruct Hr as (Ha' & Ht' & _ & _ & Hq).
  { intros w0 H0 _ _ _. by apply Hm. }
  split; [done|]. split; [done|]. intros a ->. destruct Hq as (w1 & H1 & _). by exists w1.
Qed.

(** ** Properties *)

(** C9: every handshake ends by its deadline.  Whatever datagrams arrive,
    genuine, forged or malformed, in whatever order and at whatever times,
    whatever fails to be received or sent: a client and a server handshake
    with [duration] to run never panic, exhaust the fuel of their loops or
    wait for ever; they return a session or an error no later than the
    deadline, a timeout exactly at the deadline (an enclosing timer that
    expires first stops them at that very time), and leave the timers around
    them as they were. *)
Theorem handshakes_end_by_deadline local peer secret duration w :
  0 <= duration -> Forall arrival_ok (arrivals w) -> Forall (Z.le (clock w)) (timers w) ->
  in_time duration w (connect_with_rng local peer secret duration w) /\
  in_time duration w (accept_with_rng secret duration w).
Proof.
  intros Hd Ha Ht. split.
  - apply with_timeout_ends with (Q := fun s _ => keys_ok s); [done..|]. intros w0. apply connect_inner_ends.
  - apply with_timeout_ends with (Q := fun a _ => keys_ok (acc_state a)); [done..|]. intros w0. apply accept_inner_ends.
Qed.
End Operations.

Section Witness.
#[local] Existing Instance Toy.toy_hash.
#[local] Existing Instance Toy.toy_hash_laws.
#[local] Existing Instance Toy.toy_aead.
#[local] Existing Instance Toy.toy_aead_laws.
#[local] Existing Instance ToyNet.toy_net.
#[local] Existing Instance ToyCurve.toy_curve.
#[local] Existing Instance ToyCurve.toy_curve_laws.
#[local] Existing Instance ToyCurve.toy_rng.
#[local] Existing Instance ToyCurve.toy_rng_laws.

(** A client that only receives noise reports a timeout at its deadline, after
    it has sent its hello at the start and after 1, 3 and 7 seconds. *)
Definition noisy_world : World :=
  mkWorld 0 [] [(SECOND, Rx [1; 2; 3] (ToyNet.host 0) (ToyNet.host 1)); (2 * SECOND, Rx [] (ToyNet.host 0) (ToyNet.host 7))]
    [] [] (1 : @rng ToyCurve.toy_curve ToyCurve.toy_rng).

Definition noisy_run := connect_with_rng (ToyNet.host 0) (ToyNet.host 1) [5] (10 * SECOND) noisy_world.

Lemma handshakes_end_by_deadline_witness :
  in_time (10 * SECOND) noisy_world noisy_run /\ clock noisy_run.1 = 10 * SECOND /\
  noisy_run.2 = Err (Raise Timeout) /\ length (sent noisy_run.1) = 4%nat.
Proof.
  split; [refine (proj1 (handshakes_end_by_deadline _ _ _ _ _ _ _ _)); [by_decide| |constructor]|].
  { repeat constructor; by_decide. }
  split; [vm_compute; reflexivity|]. split; vm_compute; reflexivity.
Defined.
End Witness.
