(* ===== verification/DriverReads.v ===== *)
(** * DriverReads: application data read with a deadline

    The read loops of the established sessions (driver.rs): whatever arrives,
    they return by their deadline, and a session that has returned a plaintext
    can be used again. *)
From S2P Require Import Prelude Text Tlv Errors Replay Record Handshake Hello Crypto Ecjpake.
From S2P Require Import ThreadHandshake Safety Driver Flights ClientDriver ServerDriver DriverTermination.

Section Reads.
Context {HH : Hash} {HL : HashLaws} {AA : Aead} {AL : AeadLaws} {NN : Net} {CC : Curve} {CL : CurveLaws} {RR : Rng} {RL : RngLaws}.

(** A method of a session and the world as an operation on the world that
    returns the session too. *)
Definition as_io {T A} (s : T) (m : M (T * World) Stop A) : io (T * A) := fun w =>
  let '((s', w'), r) := m (s, w) in (w', map_ok (fun a => (s', a)) r).

Lemma as_io_bind {T A B} (s : T) (m : M (T * World) Stop A) (k : A -> M (T * World) Stop B) w :
  as_io s (mbind m k) w = mbind (as_io s m) (fun x => as_io x.1 (k x.2)) w.
Proof. unfold as_io, mbind. destruct (m (s, w)) as [[s' w'] [a|e|f]]; [|done|done]. reflexivity. Qed.

Lemma as_io_step {T A B} (Q : T * A -> World -> Prop) (Q' : T * B -> World -> Prop) (s : T) (m : M (T * World) Stop A)
    (k : A -> M (T * World) Stop B) w :
  ends_by later Q w (as_io s m w) ->
  (forall s1 a w1, world_ok w1 -> later w w1 -> Q (s1, a) w1 -> ends_by later Q' w1 (as_io s1 (k a) w1)) ->
  ends_by later Q' w (as_io s (mbind m k) w).
Proof. intros Hm Hk. rewrite as_io_bind. eapply later_bind; [exact Hm|]. intros [s1 a] w1. apply Hk. Qed.

(** The race with a timer is the same race on the world. *)
Lemma as_io_race {T A} (s : T) (m : M (T * World) Stop A) x w :
  as_io s (race (fun '(_, w) => timers w) (fun ts '(s, w) => (s, set_timers ts w)) m x) w = race_expiry (as_io s m) x w.
Proof.
  unfold race_expiry, race, as_io. destruct (m (s, set_timers (x :: timers w) w)) as [[s' w'] [a|[e|[|n]|]|f]]; done.
Qed.

(** The records are opened one by one; those that do not authenticate or were
    seen are passed over. *)
Lemma open_next_ok s : keys_ok s ->
  safe (open_next_record s).2 /\ keys_ok (open_next_record s).1 /\
  forall r, (open_next_record s).2 = Ok (Some r) -> safe r /\ forall p, r = Ok p -> bytes_ok p.
Proof.
  unfold open_next_record. intros Hk. pose proof (proj2 Hk) as Hu. revert Hu. generalize (unread_records s) as rs.
  intros rs Hu. revert s Hk. induction Hu as [|r rs Hr Hrs IH]; intros s Hk; cbn [open_next_loop]; [by split|].
  assert (keys_ok (set_unread_records rs s)) as Hk1 by (split; [apply Hk|done]).
  case_match; [by apply IH|].
  destruct (content_type (rec_header r)); try (by apply IH);
    pose proof (session_open_ok r _ Hk1 Hr) as (Hs & Hk2 & Hp);
    destruct (open_protected_record r (set_unread_records rs s)) as [s2 [[p|]|e|f]]; cbn [fst snd] in *;
    try done; try (by apply IH); (split; [done|]); (split; [done|]); intros x [= <-].
  - unfold decode_authenticated_alert. by repeat case_match.
  - split; [done|]. intros q [= <-]. by apply Hp.
Qed.

(** A method of the session's state, and one of the world. *)
Lemma as_io_zoom {T T' A} (get : T * World -> T') (put : T' -> T * World -> T * World) (f : T' -> T -> T)
    (m : M T' DtlsError A) s w (Q : T * A -> World -> Prop) :
  (forall t, put t (s, w) = (f t s, w)) -> world_ok w -> safe (m (get (s, w))).2 ->
  (forall a, (m (get (s, w))).2 = Ok a -> Q (f (m (get (s, w))).1 s, a) w) ->
  ends_by later Q w (as_io s (mzoom (fun e => Raise (Protocol e)) get put m) w).
Proof.
  intros Hp Hw Hs HQ. apply ends_later. unfold as_io, mzoom. destruct (m (get (s, w))) as [t [a|e|f']]; rewrite Hp; cbn [fst snd] in *;
    [split; [done|]; split; [done|]; by apply HQ|by split|done].
Qed.
Lemma as_io_world {T A} (s : T) (m : io A) w (Q : A -> World -> Prop) :
  ends_by later Q w (m w) ->
  ends_by later (fun x w' => x.1 = s /\ Q x.2 w') w (as_io s (mzoom (fun e => e) snd (fun w '(s, _) => (s, w)) m) w).
Proof.
  intros (Hw & Hl & Hq). unfold as_io, mzoom. cbn [snd]. destruct (m w) as [w' [a|e|f]]; cbn [fst snd] in *; by split; [|split].
Qed.
Lemma as_io_ret {T A} (s : T) (a : A) (Q : T * A -> World -> Prop) w : world_ok w -> Q (s, a) w ->
  ends_by later Q w (as_io s (mret a) w).
Proof. intros Hw Hq. apply ends_later. by split. Qed.
Lemma as_io_proto {T A} (s : T) (r : result DtlsError A) (Q : T * A -> World -> Prop) w : world_ok w -> safe r ->
  (forall a, r = Ok a -> Q (s, a) w) -> ends_by later Q w (as_io s (proto r) w).
Proof. intros Hw Hs Hq. apply ends_later. unfold as_io, proto, mlift. destruct r; [by split; [|split; [|apply Hq]]|by split|done]. Qed.
Lemma as_io_update {T} (f : T -> T) (s : T) (Q : T * unit -> World -> Prop) w : world_ok w -> Q (f s, tt) w ->
  ends_by later Q w (as_io s (mset (fun '(s, w) => (f s, w))) w).
Proof. intros Hw Hq. apply ends_later. by split. Qed.

(** One receive: records of bytes, from an arrival fewer. *)
Lemma recv_unbounded_ends peer w : world_ok w ->
  ends_by later (fun x w' => Forall payload_ok x.1.1 /\ (length (arrivals w') < length (arrivals w))%nat) w
    (recv_records_from_unbounded peer w).
Proof.
  intros Hw. apply recv_loop_ends; [done| |lia]. apply List.Forall_forall. intros y ->%List.repeat_spec. by_decide.
Qed.

(** What a read returns. *)
Definition read_ok (x : SessionState * bytes) (_ : World) : Prop := keys_ok x.1 /\ bytes_ok x.2.

Lemma receive_keys_ok rs s : keys_ok s -> Forall payload_ok rs -> keys_ok (receive_datagram rs s).
Proof. intros [Hk Hu] Hr. split; [done|]. by apply Forall_app_2. Qed.

Lemma open_next_ends s w : world_ok w -> keys_ok s ->
  ends_by later (fun x _ => keys_ok x.1 /\ forall r, x.2 = Some r -> safe r /\ forall p, r = Ok p -> bytes_ok p) w
    (as_io s (on_state open_next_record) w).
Proof.
  intros Hw Hk. destruct (open_next_ok s Hk) as (Hs & Hk' & Hr). apply (as_io_zoom _ _ (fun s _ => s)); [done..|].
  intros a Ea. split; [done|]. cbn [snd]. intros r ->. by apply Hr.
Qed.

Lemma recv_application_ends fuel peer s w : world_ok w -> keys_ok s -> (length (arrivals w) < fuel)%nat ->
  ends_by later read_ok w (as_io s (recv_application_loop fuel peer) w).
Proof.
  revert s w. induction fuel as [|fuel IH]; intros s w Hw Hk Hf; [lia|]. cbn [recv_application_loop].
  eapply as_io_step; [by apply open_next_ends|]. intros s1 next w1 H1 (_ & _ & Hl1) [Hk1 Hr]. cbn [fst snd] in *.
  destruct next as [r|].
  - destruct (Hr r eq_refl) as [Hs Hb]. apply as_io_proto; [done|done|]. intros p Ep. split; [done|by apply Hb].
  - eapply as_io_step; [by apply as_io_world, recv_unbounded_ends|]. intros s2 [[rs l] rm] w2 H2 _ [Es [Hrs Hl]]. cbn [fst snd] in *.
    subst s2. eapply as_io_step; [apply as_io_update with (Q := fun x w' => keys_ok x.1 /\ w' = w2); [done|split; [by apply receive_keys_ok|done]]|].
    intros s3 [] w3 H3 _ [Hk3 ->]. apply IH; [done|done|lia].
Qed.

(** What a read with a deadline is: it ends in time, and leaves a session for the next. *)
Definition reads_in_time {T} (keys : T -> Prop) (duration : Z) (w : World) (x : (T * World) * result Stop bytes) : Prop :=
  in_time duration w (x.1.2, x.2) /\ Forall arrival_ok (arrivals x.1.2) /\ Forall (Z.le (clock x.1.2)) (timers x.1.2) /\
  forall p, x.2 = Ok p -> keys x.1.1 /\ bytes_ok p.

Lemma timed_read {T} (keys : T -> Prop) (m : M (T * World) Stop bytes) duration s w :
  0 <= duration -> Forall arrival_ok (arrivals w) -> Forall (Z.le (clock w)) (timers w) ->
  (forall w0, world_ok w0 -> arrivals w0 = arrivals w -> ends_by later (fun x _ => keys x.1 /\ bytes_ok x.2) w0 (as_io s m w0)) ->
  reads_in_time keys duration w
    ((let* expiry := mzoom (fun e => e) snd (fun w '(s, _) => (s, w)) (sleep duration) in
      race (fun '(_, w) => timers w) (fun ts '(s, w) => (s, set_timers ts w)) m expiry) (s, w)).
Proof.
  intros Hd Ha Ht Hm.
  pose proof (race_ends (fun x _ => keys x.1 /\ bytes_ok x.2) (as_io s m) (clock w + duration) w Ha ltac:(lia) Ht
    (fun w0 H0 _ E _ => Hm w0 H0 E)) as Hr.
  rewrite <- as_io_race in Hr. unfold mbind, mzoom at 1. cbn [snd]. rewrite (sleep_ok duration w Hd). cbn [map_err].
  unfold as_io in Hr. destruct (race _ _ m (clock w + duration) (s, w)) as [[s' w'] r].
  destruct Hr as (Ha' & Ht' & (E & Hc & _) & Hx & Hq).
  unfold reads_in_time, in_time. cbn [fst snd].
  split; [split; [done|]; split; [done|]; by destruct r as [a|[e|n|]|f]|]. split; [done|]. split; [done|].
  intros p ->. by destruct Hq as (w1 & H1 & _).
Qed.

Lemma recv_application_in_time peer duration s w :
  0 <= duration -> Forall arrival_ok (arrivals w) -> Forall (Z.le (clock w)) (timers w) -> keys_ok s ->
  reads_in_time keys_ok duration w (recv_application_data peer duration (s, w)).
Proof.
  intros Hd Ha Ht Hk. apply timed_read; [done..|]. intros w0 H0 E. apply recv_application_ends; [done|done|]. cbn [snd]. rewrite E. lia.
Qed.

(** The server's loop may also repeat its last flight. *)
Definition server_keys_ok (d : DtlsServerSession) : Prop := keys_ok (ds_state d).

Lemma server_recv_ends fuel budget d w : world_ok w -> server_keys_ok d -> (length (arrivals w) < fuel)%nat ->
  ends_by later (fun x _ => server_keys_ok x.1 /\ bytes_ok x.2) w (as_io d (server_recv_loop fuel budget) w).
Proof.
  revert budget d w. induction fuel as [|fuel IH]; intros budget d w Hw Hk Hf; [lia|]. cbn [server_recv_loop].
  destruct (open_next_ok (ds_state d) Hk) as (Hs & Hk' & Hr).
  eapply as_io_step.
  { apply (as_io_zoom _ _ (fun s d => set_ds_state s d) _ _ _ (fun x w' => w' = w /\ server_keys_ok x.1 /\
      forall r, x.2 = Some r -> safe r /\ forall p, r = Ok p -> bytes_ok p)); [done..|].
    intros a Ea. split; [done|]. split; [exact Hk'|]. cbn [snd]. intros r ->. by apply Hr. }
  clear Hs Hk' Hr. intros d1 next w1 H1 _ (-> & Hk1 & Hr). cbn [fst snd] in *. destruct next as [r|].
  - destruct (Hr r eq_refl) as [Hs Hb].
    eapply as_io_step; [by apply as_io_update with (Q := fun x _ => server_keys_ok x.1)|]. intros d2 [] w2 H2 _ Hk2.
    apply as_io_proto; [done|done|]. intros p Ep. split; [done|by apply Hb].
  - eapply as_io_step; [apply ends_later; by apply (ends_ret (fun x w' => w' = w /\ x = (d1, d1)))|].
    intros d2 d' w2 H2 _ [-> [= -> ->]].
    eapply as_io_step; [by apply as_io_world, recv_unbounded_ends|]. intros d2 [[rs l] rm] w2 H2' _ [Es [Hrs Hl]].
    cbn [fst snd] in *. subst d2. destruct (take_server_finished_retry _ _ _) as [b retry].
    eapply as_io_step with (Q := fun x w' => server_keys_ok x.1 /\ arrivals w' = arrivals w2).
    { destruct retry; [|by apply as_io_ret].
      destruct (server_finished_flight_good (ds_server_finished d1) (ds_state d1, ds_next_epoch_zero_record d1) Hk1) as [Hk3 Hs3].
      eapply as_io_step.
      { apply (as_io_zoom _ _ (fun '(s, n) d => set_ds_next n (set_ds_state s d)) _ _ _ (fun x w' => server_keys_ok x.1 /\ w' = w2));
          [by intros [s n]|done|by destruct (build_server_finished_flight _ _) as [? [?|?|?]]|].
        intros fl _. split; [|done]. cbn [fst]. by destruct (build_server_finished_flight _ _) as [[s n] ?]. }
      intros d3 fl w3 H3 _ [Hk3' ->]. cbn [fst] in *.
      pose proof (as_io_world d3 (send_records (ds_local d1) (ds_peer d1) fl) w2 (fun _ w' => instant w2 w')) as Hw3.
      eapply ends_weaken; [apply Hw3|done|].
      - pose proof (ends_send (ds_local d1) (ds_peer d1) fl w2 H3) as (? & Hi & Hq). split; [done|]. split; [by apply instant_later|].
        by destruct (send_records _ _ _ _) as [w4 [?|[?|?|]|?]].
      - intros x w4 _ _ [-> Hi]. split; [done|]. apply Hi. }
    intros d3 [] w3 H3 _ [Hk3 Ear]. cbn [fst] in *.
    eapply as_io_step; [apply as_io_update with (Q := fun x w' => server_keys_ok x.1 /\ w' = w3); [done|split; [by apply receive_keys_ok|done]]|].
    intros d4 [] w4 H4 _ [Hk4 ->]. apply IH; [done|done|]. rewrite Ear. lia.
Qed.

Lemma server_recv_in_time duration d w :
  0 <= duration -> Forall arrival_ok (arrivals w) -> Forall (Z.le (clock w)) (timers w) -> server_keys_ok d ->
  reads_in_time server_keys_ok duration w (server_recv_application_data duration (d, w)).
Proof.
  intros Hd Ha Ht Hk. apply timed_read; [done..|]. intros w0 H0 E. apply server_recv_ends; [done|done|]. cbn [snd]. rewrite E. lia.
Qed.
End Reads.
