(* ===== verification/Ipv6.v ===== *)
(** * Ipv6: parsing IPv6 addresses

    [core::net::Ipv6Addr]'s [FromStr], a recursive-descent parser over the
    bytes of the string: a reader takes the remaining input and returns what it
    read with the rest, or [None] and then nothing was consumed.  The formatting
    of addresses is [ipv6_display] of [Text]. *)
From S2P Require Import Prelude Text.

Definition reader (A : Type) : Type := bytes -> option (A * bytes).

Definition read_given_char (c : Z) : reader unit := fun inp =>
  match inp with
  | b :: rest => if b =? c then Some (tt, rest) else None
  | [] => None
  end.

(** [read_separator]: [c] first, unless this is the first of a sequence. *)
Definition read_separator {A} (c : Z) (index : nat) (r : reader A) : reader A := fun inp =>
  match index with
  | O => r inp
  | S _ => match read_given_char c inp with Some (_, inp) => r inp | None => None end
  end.

(** [char::to_digit]. *)
Definition to_digit (radix b : Z) : option Z :=
  let d := if in_range 0x30 0x39 b then b - 0x30
           else if in_range 0x61 0x7a b then b - 0x61 + 10
           else if in_range 0x41 0x5a b then b - 0x41 + 10
           else 36 in
  if d <? radix then Some d else None.

(** The digits at the front of the input: their value and number. *)
Fixpoint read_digits (radix acc count : Z) (inp : bytes) : Z * Z * bytes :=
  match inp with
  | b :: rest =>
      match to_digit radix b with
      | Some d => read_digits radix (acc * radix + d) (count + 1) rest
      | None => (acc, count, inp)
      end
  | [] => (acc, count, inp)
  end.

(** [read_number(radix, Some(max_digits), allow_zero_prefix)] of a number that
    must stay below [limit]. *)
Definition read_number (radix max_digits limit : Z) (allow_zero_prefix : bool) : reader Z := fun inp =>
  let has_leading_zero := match inp with b :: _ => b =? 0x30 | [] => false end in
  let '(value, count, rest) := read_digits radix 0 0 inp in
  if (count =? 0) || (max_digits <? count) || (limit <=? value) then None
  else if negb allow_zero_prefix && has_leading_zero && (1 <? count) then None
  else Some (value, rest).

Fixpoint read_octets (n index : nat) : reader bytes := fun inp =>
  match n with
  | O => Some ([], inp)
  | S n =>
      match read_separator 0x2e index (read_number 10 3 256 false) inp with
      | Some (o, inp) =>
          match read_octets n (S index) inp with Some (os, inp) => Some (o :: os, inp) | None => None end
      | None => None
      end
  end.
Definition read_ipv4_addr : reader bytes := read_octets 4 0.

(** [read_groups] into [limit] slots: the groups, whether they end in an
    embedded IPv4 address, and the rest. *)
Fixpoint read_groups (limit i : nat) (inp : bytes) : list Z * bool * bytes :=
  match limit with
  | O => ([], false, inp)
  | S limit =>
      match (match limit with O => None | S _ => read_separator 0x3a i read_ipv4_addr inp end) with
      | Some (o, inp) => ([from_be (take 2 o); from_be (drop 2 o)], true, inp)
      | None =>
          match read_separator 0x3a i (read_number 16 4 0x10000 true) inp with
          | Some (g, inp) => let '(gs, v4, inp) := read_groups limit (S i) inp in (g :: gs, v4, inp)
          | None => ([], false, inp)
          end
      end
  end.

Definition groups_to_addr (gs : list Z) : Ipv6Addr := concat (map (to_be 2) gs).

Definition read_ipv6_addr : reader Ipv6Addr := fun inp =>
  let '(head, head_ipv4, inp) := read_groups 8 0 inp in
  if len head =? 8 then Some (groups_to_addr head, inp)
  else if head_ipv4 : bool then None
  else
    match read_given_char 0x3a inp with
    | None => None
    | Some (_, inp) =>
        match read_given_char 0x3a inp with
        | None => None
        | Some (_, inp) =>
            let '(tail, _, inp) := read_groups (8 - (length head + 1)) 0 inp in
            Some (groups_to_addr (head ++ repeat 0 (8 - length head - length tail) ++ tail), inp)
        end
    end.

(** [str::parse::<Ipv6Addr>()]. *)
Definition Ipv6Addr_parse (s : bytes) : option Ipv6Addr :=
  match read_ipv6_addr s with
  | Some (a, []) => Some a
  | _ => None
  end.

Example parse_full : Ipv6Addr_parse (str_bytes "fd00:db8:1:2:3:4:5:6") =
  Some (groups_to_addr [0xfd00; 0xdb8; 1; 2; 3; 4; 5; 6]).
Proof. reflexivity. Qed.
Example parse_compressed : Ipv6Addr_parse (str_bytes "ff02::1") = Some (groups_to_addr [0xff02; 0; 0; 0; 0; 0; 0; 1]).
Proof. reflexivity. Qed.
Example parse_mapped : Ipv6Addr_parse (str_bytes "::ffff:192.0.2.7") = Some (groups_to_addr [0; 0; 0; 0; 0; 0xffff; 0xc000; 0x207]).
Proof. reflexivity. Qed.
Example parse_refused : map Ipv6Addr_parse [str_bytes "ff02:::1"; str_bytes "ff02"; str_bytes "12345::"; str_bytes "::1 "; str_bytes ""] =
  [None; None; None; None; None].
Proof. reflexivity. Qed.

(** A parsed address has sixteen octets. *)
Lemma to_digit_range radix b d : to_digit radix b = Some d -> 0 <= d < radix.
Proof. unfold to_digit, in_range. repeat case_match; try done; intros [= <-]; zbool; lia. Qed.

Lemma groups_len gs : len (groups_to_addr gs) = 2 * len gs.
Proof.
  induction gs as [|g gs IH]; [done|]. unfold groups_to_addr in *. cbn [map concat]. rewrite len_app, len_cons, IH, len_to_be. lia.
Qed.
Lemma read_groups_len limit i inp gs v4 rest : read_groups limit i inp = (gs, v4, rest) -> (length gs <= limit)%nat.
Proof.
  revert i inp gs v4 rest. induction limit as [|limit IH]; intros i inp gs v4 rest; cbn [read_groups]; [by intros [= <- <- <-]|].
  destruct (match limit with O => None | S _ => _ end) as [[o inp1]|] eqn:Eo.
  - intros [= <- <- <-]. destruct limit; [done|]. cbn. lia.
  - destruct (read_separator 0x3a i (read_number 16 4 0x10000 true) inp) as [[g inp1]|]; [|intros [= <- _ _]; cbn; lia].
    destruct (read_groups limit (S i) inp1) as [[gs1 v41] inp2] eqn:E. intros [= <- _ _]. apply IH in E. cbn. lia.
Qed.
Lemma Ipv6Addr_parse_len s a : Ipv6Addr_parse s = Some a -> len a = 16.
Proof.
  unfold Ipv6Addr_parse, read_ipv6_addr. destruct (read_groups 8 0 s) as [[h v4] r] eqn:E. pose proof (read_groups_len _ _ _ _ _ _ E) as Hh.
  destruct (len h =? 8) eqn:E8.
  - destruct r; [|done]. intros [= <-]. zbool. rewrite groups_len. lia.
  - destruct v4; [done|]. destruct (read_given_char 58 r) as [[[] r1]|]; [|done]. destruct (read_given_char 58 r1) as [[[] r2]|]; [|done].
    destruct (read_groups _ 0 r2) as [[t v] r3] eqn:Et. pose proof (read_groups_len _ _ _ _ _ _ Et) as Ht. destruct r3; [|done].
    intros [= <-]. zbool. rewrite groups_len, !len_app. unfold len in *. rewrite repeat_length. lia.
Qed.
