(* ===== verification/Client.v ===== *)
(** * Client: the commissioner handle

    The model of crates/meshcop/src/commissioner/client/ (mod.rs, requests.rs,
    datasets.rs, commands.rs, diagnostics.rs and relay.rs).  A method of
    [Commissioner] is a program [Prog]: it makes [Request]s of its surroundings
    (the channels to the session task, the shared state, the write lock) and
    goes on with their answers.  [ClientWorld] runs the programs of several
    handles against a shared state and a mesh. *)
From stdpp Require Import gmap.
From S2P Require Import Prelude Text Tlv Errors Dataset Coap NetDiag Messages Joiner.
From S2P Require Import Ipv6 Pskc Commissioner SessionDriver.

Definition string_of (bs : bytes) : string :=
  fold_right (fun b s => String (Ascii.ascii_of_N (Z.to_N b)) s) EmptyString bs.

Section Client.
Context {JH : JoinerHandler}.

(** ** Programs *)

(** [Submit] is a command with a reply channel: [None] when the command channel
    or the reply channel is closed.  [SubmitWithin] is the same under a timeout,
    [None] when the time ran out, which withdraws the request.  [Watch] is the
    watched status and whether its sender is gone. *)
Inductive Request : Type -> Type :=
  | Watch : Request (SessionStatus * bool)
  | ReadPrefix : Request PrefixCache
  | StorePrefix (read_generation : Z) (prefix : bytes) : Request unit
  | Submit (outbound : Outbound) : Request (option (Error + option CoapMessage))
  | SubmitWithin (outbound : Outbound) : Request (option (option (Error + option CoapMessage)))
  | CallPetition : Request (option (Error + PetitionResponse))
  | CallKeepAlive : Request (option (Error + ResultCode))
  | CallResign : Request (option (Error + unit))
  | SendHandler (h : option handler) : Request bool
  | LockWrites : Request unit
  | UnlockWrites : Request unit.

Inductive Prog (A : Type) : Type :=
  | Ret (a : A)
  | Throw (e : Error)
  | Crash (f : fault)
  | Do (X : Type) (r : Request X) (k : X -> Prog A).
#[global] Arguments Ret {A} a.
#[global] Arguments Throw {A} e.
#[global] Arguments Crash {A} f.
#[global] Arguments Do {A X} r k.

Fixpoint pbind {A B} (p : Prog A) (k : A -> Prog B) : Prog B :=
  match p with
  | Ret a => k a
  | Throw e => Throw e
  | Crash f => Crash f
  | Do r k' => Do r (fun x => pbind (k' x) k)
  end.
Definition perform {X} (r : Request X) : Prog X := Do r Ret.
Definition plift {A} (r : result Error A) : Prog A :=
  match r with Ok a => Ret a | Err e => Throw e | Panic f => Crash f end.

(** A value dropped at the end of its scope, however it is left. *)
Fixpoint finally {A} (p : Prog A) (q : Request unit) : Prog A :=
  match p with
  | Ret a => Do q (fun _ => Ret a)
  | Throw e => Do q (fun _ => Throw e)
  | Crash f => Crash f
  | Do r k => Do r (fun x => finally (k x) q)
  end.

(** [tokio::time::timeout]: [None] when the time ran out while waiting. *)
Definition timed_request {X A} (r : Request X) : (X -> Prog (option A)) -> Prog (option A) :=
  match r in Request X return (X -> Prog (option A)) -> Prog (option A) with
  | Submit o => fun k => Do (SubmitWithin o) (fun x => match x with None => Ret None | Some x => k x end)
  | r => fun k => Do r k
  end.
Fixpoint timeout {A} (p : Prog A) : Prog (option A) :=
  match p with
  | Ret a => Ret (Some a)
  | Throw e => Throw e
  | Crash f => Crash f
  | Do r k => timed_request r (fun x => timeout (k x))
  end.

(** The result of a program as a value. *)
Fixpoint try {A} (p : Prog A) : Prog (Error + A) :=
  match p with
  | Ret a => Ret (inr a)
  | Throw e => Ret (inl e)
  | Crash f => Crash f
  | Do r k => Do r (fun x => try (k x))
  end.

Notation "'let+' x ':=' p 'in' k" := (pbind p (fun x => k)) (at level 10, x name, p at level 100, k at level 200).

(** ** mod.rs *)

Definition status_now : Prog SessionStatus :=
  let+ w := perform Watch in
  let '(status, task_stopped) := (w : SessionStatus * bool) in
  if task_stopped && negb (match status with Closed _ => true | _ => false end)
  then Ret (Closed TaskStopped) else Ret status.
Definition Commissioner_session_id : Prog (option Z) :=
  let+ status := status_now in Ret (SessionStatus_session_id status).
Definition session_id_required : Prog Z :=
  let+ sid := Commissioner_session_id in
  plift (ok_or sid (EInvalidState "commissioner session is not active")).

(** A closed channel is [SessionClosed]. *)
Definition or_closed {A} (r : option (Error + A)) : Prog A :=
  match r with None => Throw ESessionClosed | Some (inl e) => Throw e | Some (inr a) => Ret a end.

Definition Commissioner_petition : Prog PetitionResponse := let+ r := perform CallPetition in or_closed r.
Definition Commissioner_keep_alive : Prog ResultCode := let+ r := perform CallKeepAlive in or_closed r.
Definition Commissioner_resign : Prog unit := let+ r := perform CallResign in or_closed r.
Definition send_handler (h : option handler) : Prog unit :=
  let+ sent := perform (SendHandler h) in if (sent : bool) then Ret tt else Throw ESessionClosed.
Definition set_joiner_handler (h : handler) : Prog unit := send_handler (Some h).
Definition clear_joiner_handler : Prog unit := send_handler None.
Definition request_token : Prog bytes := Throw (EUnsupported "CCM token request is deferred").
Definition set_token : Prog unit := Throw (EUnsupported "CCM token support is deferred").

(** [connect_only] up to the handshake, whose outcome is [link], and [connect]:
    the error, or that a session was started. *)
Definition connect_only (config : CommissionerConfig) (link : result Error unit) : result Error unit :=
  let! _ := validate config in
  if enable_ccm config then Err (EUnsupported "CCM is reserved but deferred") else link.
Definition connect (config : CommissionerConfig) (link : result Error unit) : Prog unit :=
  let+ _ := plift (connect_only config link) in
  let+ _ := Commissioner_petition in
  Ret tt.

(** ** requests.rs *)

Definition UNASSIGNED_MESSAGE_ID : Z := 0.
Definition UNASSIGNED_TOKEN : bytes := [].

Definition Commissioner_submit (request : Outbound) : Prog (option CoapMessage) :=
  let+ r := perform (Submit request) in or_closed r.

Definition no_response : Error := EInvalidState "MeshCoP exchange produced no response".

Definition Commissioner_request (destination : Destination) (request : CoapMessage) : Prog CoapMessage :=
  let+ r := Commissioner_submit (mkOutbound request destination true "request") in
  plift (ok_or r no_response).

Definition mesh_management (address : Ipv6Addr) : Destination := Mesh address DEFAULT_MM_PORT.

Definition execute (operation : CommissionerOperation) (request : CoapMessage) (destination : Destination)
    (expect : bool) : Prog (option CoapMessage) :=
  Commissioner_submit (mkOutbound request destination expect (operation_label operation)).

Definition successful (r : option CoapMessage) : Prog CoapMessage :=
  plift (let! response := ok_or r no_response in require_success_response response).

Definition execute_meshcop (operation : CommissionerOperation) (request : CoapMessage) : Prog CoapMessage :=
  let+ r := execute operation request BorderAgent true in successful r.
Definition execute_state_operation (operation : CommissionerOperation) (request : CoapMessage)
    (state_mandatory : bool) : Prog unit :=
  let+ response := execute_meshcop operation request in
  plift (check_state_response response state_mandatory).
Definition execute_proxied (operation : CommissionerOperation) (request : CoapMessage) (destination : Ipv6Addr)
    : Prog CoapMessage :=
  let+ r := execute operation request (mesh_management destination) true in successful r.
Definition execute_proxied_command (operation : CommissionerOperation) (request : CoapMessage)
    (destination : Ipv6Addr) : Prog unit :=
  let wait_for_response := bool_decide (coap_ty request = Confirmable) in
  let+ r := execute operation request (mesh_management destination) wait_for_response in
  match r with
  | Some response => plift (check_state_response response false)
  | None => Ret tt
  end.
Definition execute_no_response (operation : CommissionerOperation) (request : CoapMessage) : Prog unit :=
  let+ _ := execute operation request BorderAgent false in Ret tt.

(** ** datasets.rs *)

Definition FLAG_MESH_LOCAL_PREFIX : Z := Z.shiftl 1 11.
Definition FLAG_STEERING_DATA : Z := Z.shiftl 1 13.

Definition get_raw_active_dataset (flags : Z) : Prog bytes :=
  let+ request := plift (dataset_get_request GetActiveDataset UNASSIGNED_MESSAGE_ID UNASSIGNED_TOKEN
                           (active_dataset_tlv_types flags)) in
  let+ response := execute_meshcop GetActiveDataset request in
  Ret (payload response).
Definition get_active_dataset (flags : Z) : Prog Dataset :=
  let+ raw := get_raw_active_dataset flags in plift (Dataset_from_bytes raw).
Definition get_pending_dataset (flags : Z) : Prog Dataset :=
  let+ request := plift (dataset_get_request GetPendingDataset UNASSIGNED_MESSAGE_ID UNASSIGNED_TOKEN
                           (pending_dataset_tlv_types flags)) in
  let+ response := execute_meshcop GetPendingDataset request in
  plift (Dataset_from_bytes (payload response)).

Definition require_mesh_local_prefix : Prog bytes :=
  let+ cache := perform ReadPrefix in
  match prefix cache with
  | Some p => Ret p
  | None =>
      let+ raw := get_raw_active_dataset FLAG_MESH_LOCAL_PREFIX in
      let+ dataset := plift (Dataset_from_bytes raw) in
      let+ found := plift (Dataset_mesh_local_prefix dataset) in
      let+ p := plift (ok_or found (EInvalidState "active dataset does not include the mesh-local prefix")) in
      let+ first := plift (idx p 0) in
      if negb (first =? 0xfd) then Throw (EDataset "mesh-local prefix must be within fd00::/8")
      else
        let+ _ := perform (StorePrefix (generation cache) p) in
        Ret p
  end.
Definition leader_aloc : Prog Ipv6Addr :=
  let+ p := require_mesh_local_prefix in Ret (aloc_address p LEADER_ALOC16).
Definition primary_bbr_aloc : Prog Ipv6Addr :=
  let+ p := require_mesh_local_prefix in Ret (aloc_address p PRIMARY_BBR_ALOC16).

Definition set_dataset (operation : CommissionerOperation) (dataset : Dataset) (required : list (Z * string)) : Prog unit :=
  let+ _ := plift (require_dataset_tlvs dataset required) in
  let+ session_id := session_id_required in
  let+ request := plift (dataset_set_request operation UNASSIGNED_MESSAGE_ID UNASSIGNED_TOKEN session_id dataset) in
  execute_state_operation operation request true.
Definition set_active_dataset (dataset : Dataset) : Prog unit :=
  set_dataset SetActiveDataset dataset [(DS_TLV_ACTIVE_TIMESTAMP, "Active Timestamp"%string)].
Definition set_pending_dataset (dataset : Dataset) : Prog unit :=
  set_dataset SetPendingDataset dataset
    [(DS_TLV_ACTIVE_TIMESTAMP, "Active Timestamp"%string); (DS_TLV_PENDING_TIMESTAMP, "Pending Timestamp"%string);
     (DS_TLV_DELAY_TIMER, "Delay Timer"%string)].
Definition set_bbr_dataset (dataset : Dataset) : Prog unit := set_dataset SetBbrDataset dataset [].

Definition set_secure_pending_dataset (max_retrieval_timer : Z) (dataset : Dataset) : Prog unit :=
  let+ _ := plift (require_dataset_tlvs dataset
    [(DS_TLV_PENDING_TIMESTAMP, "Pending Timestamp"%string); (DS_TLV_DELAY_TIMER, "Delay Timer"%string)]) in
  let+ session_id := session_id_required in
  let+ pbbr := primary_bbr_aloc in
  let retrieval_uri := str_bytes ("coaps://[" +:+ ipv6_display pbbr +:+ "]") ++ MGMT_PENDING_GET in
  let+ request := plift (secure_pending_set_request UNASSIGNED_MESSAGE_ID UNASSIGNED_TOKEN session_id
                           max_retrieval_timer retrieval_uri dataset) in
  let+ response := execute_proxied SetSecurePendingDataset request pbbr in
  plift (check_state_response response true).

Definition get_commissioner_dataset (flags : Z) : Prog Dataset :=
  let+ leader := leader_aloc in
  let+ request := plift (dataset_get_request GetCommissionerDataset UNASSIGNED_MESSAGE_ID UNASSIGNED_TOKEN
                           (commissioner_dataset_tlv_types flags)) in
  let+ response := execute_proxied GetCommissionerDataset request leader in
  plift (Dataset_from_bytes (payload response)).

Definition write_commissioner_dataset (dataset : Dataset) : Prog unit :=
  let+ session_id := session_id_required in
  let dataset := strip_managed_commissioner_tlvs dataset in
  if is_empty (entries (tlvs dataset)) then Throw (EDataset "commissioner dataset has no settable TLVs")
  else
    let+ leader := leader_aloc in
    let+ request := plift (dataset_set_request SetCommissionerDataset UNASSIGNED_MESSAGE_ID UNASSIGNED_TOKEN session_id dataset) in
    let+ response := execute_proxied SetCommissionerDataset request leader in
    plift (check_state_response response true).

(** [let _writing = self.shared.commissioner_dataset_writes.lock().await]. *)
Definition writing {A} (p : Prog A) : Prog A := Do LockWrites (fun _ => finally p UnlockWrites).

Definition set_commissioner_dataset (dataset : Dataset) : Prog unit := writing (write_commissioner_dataset dataset).

Definition steering_dataset (steering_data : bytes) : Dataset :=
  Dataset_set_raw Dataset_default TLV_STEERING_DATA steering_data.

Definition enable_joiner (joiner_id : bytes) : Prog unit :=
  writing (
    let+ current := get_commissioner_dataset FLAG_STEERING_DATA in
    let steering_data := default [] (Dataset_raw current TLV_STEERING_DATA) in
    let+ steering_data := plift (add_joiner_to_steering_data steering_data joiner_id) in
    write_commissioner_dataset (steering_dataset steering_data)).

Definition enable_all_joiners (enable : bool) : Prog unit :=
  set_commissioner_dataset (steering_dataset (if enable then [0xff] else [0x00])).

Definition get_bbr_dataset (flags : Z) : Prog Dataset :=
  let+ request := plift (dataset_get_request GetBbrDataset UNASSIGNED_MESSAGE_ID UNASSIGNED_TOKEN
                           (commissioner_dataset_tlv_types flags)) in
  let+ response := execute_meshcop GetBbrDataset request in
  plift (Dataset_from_bytes (payload response)).

(** ** commands.rs *)

Definition announce_begin (channel_mask count period_ms : Z) (destination : Ipv6Addr) : Prog unit :=
  let+ session_id := session_id_required in
  let+ request := plift (announce_begin_request UNASSIGNED_MESSAGE_ID UNASSIGNED_TOKEN session_id channel_mask count
                           period_ms (negb (is_multicast destination))) in
  execute_proxied_command AnnounceBegin request destination.
Definition pan_id_query (channel_mask pan_id : Z) (destination : Ipv6Addr) : Prog unit :=
  let+ session_id := session_id_required in
  let+ request := plift (pan_id_query_request UNASSIGNED_MESSAGE_ID UNASSIGNED_TOKEN session_id channel_mask pan_id
                           (negb (is_multicast destination))) in
  execute_proxied_command PanIdQuery request destination.
Definition energy_scan (channel_mask count period_ms scan_duration_ms : Z) (destination : Ipv6Addr) : Prog unit :=
  let+ session_id := session_id_required in
  let+ request := plift (energy_scan_request UNASSIGNED_MESSAGE_ID UNASSIGNED_TOKEN session_id
                           (mkEnergyScanRequest channel_mask count period_ms scan_duration_ms (negb (is_multicast destination)))) in
  execute_proxied_command EnergyScan request destination.

Fixpoint parse_addresses (addresses : list bytes) : result Error (list Ipv6Addr) :=
  match addresses with
  | [] => Ok []
  | address :: addresses =>
      let! parsed := ok_or (Ipv6Addr_parse address) (EDataset (string_of address +:+ " is not a valid IPv6 address")) in
      let! rest := parse_addresses addresses in
      Ok (parsed :: rest)
  end.

Definition register_multicast_listener (addresses : list bytes) (listener_timeout : Z) : Prog Z :=
  let+ session_id := session_id_required in
  let+ addresses := plift (parse_addresses addresses) in
  let+ pbbr := primary_bbr_aloc in
  let+ request := plift (multicast_listener_request UNASSIGNED_MESSAGE_ID UNASSIGNED_TOKEN session_id addresses listener_timeout) in
  let+ response := execute_proxied RegisterMulticastListener request pbbr in
  let+ set := plift (from_tlv (TlvSet_parse (payload response))) in
  let+ status := plift (ok_or (last_value set THREAD_TLV_STATUS) (EInvalidState "MLR response did not include status")) in
  match (status : bytes) with
  | [status] => Ret status
  | _ => Throw (EDataset "MLR Status TLV must be 1 byte")
  end.

Definition session_command (operation : CommissionerOperation) (destination : Ipv6Addr) : Prog unit :=
  let+ session_id := session_id_required in
  let+ request := plift (session_command_request operation UNASSIGNED_MESSAGE_ID UNASSIGNED_TOKEN session_id
                           (negb (is_multicast destination))) in
  execute_proxied_command operation request destination.
Definition command_reenroll (destination : Ipv6Addr) : Prog unit := session_command Reenroll destination.
Definition command_domain_reset (destination : Ipv6Addr) : Prog unit := session_command DomainReset destination.
Definition command_migrate (destination : Ipv6Addr) (designated_network : bytes) : Prog unit :=
  let+ session_id := session_id_required in
  let+ request := plift (migrate_request UNASSIGNED_MESSAGE_ID UNASSIGNED_TOKEN session_id designated_network
                           (negb (is_multicast destination))) in
  execute_proxied_command Migrate request destination.

(** ** diagnostics.rs and relay.rs *)

Definition destination_or_leader (destination : option Ipv6Addr) : Prog Ipv6Addr :=
  match destination with Some d => Ret d | None => leader_aloc end.
Definition diagnostic_command (operation : CommissionerOperation) (destination : option Ipv6Addr) (flags : Z) : Prog unit :=
  let+ _ := session_id_required in
  let+ destination := destination_or_leader destination in
  let+ request := plift (diagnostic_request operation UNASSIGNED_MESSAGE_ID UNASSIGNED_TOKEN flags true) in
  let+ response := execute_proxied operation request destination in
  plift (check_state_response response false).
Definition diagnostic_get (destination : option Ipv6Addr) (flags : Z) : Prog unit :=
  diagnostic_command DiagnosticGet destination flags.
Definition diagnostic_reset (destination : option Ipv6Addr) (flags : Z) : Prog unit :=
  diagnostic_command DiagnosticReset destination flags.

Definition get_diagnostics (destination : Ipv6Addr) (flags : Z) : Prog NetDiagData :=
  let+ _ := session_id_required in
  if is_multicast destination
  then Throw (EInvalidState "get_diagnostics requires a unicast destination; use diagnostic_get for a query")
  else
    let+ request := plift (diagnostic_request DiagnosticGetUnicast UNASSIGNED_MESSAGE_ID UNASSIGNED_TOKEN flags true) in
    let+ response := execute_proxied DiagnosticGetUnicast request destination in
    plift (NetDiagData_decode (payload response)).

Definition send_to_joiner (joiner_id : bytes) (port : Z) (pl : bytes) : Prog unit :=
  let+ request := plift (relay_tx_request UNASSIGNED_MESSAGE_ID UNASSIGNED_TOKEN joiner_id port 0 pl) in
  execute_no_response SendToJoiner request.
End Client.

Notation "'let+' x ':=' p 'in' k" := (pbind p (fun x => k)) (at level 10, x name, p at level 100, k at level 200).
