(* ===== verification/ClientWorld.v ===== *)
(** * ClientWorld: several handles over one session

    The handles of a session share its prefix cache and its write lock, and the
    programs of [Client] interleave at their requests.  This file is the
    transition system of a list of calls that run concurrently against a mesh
    whose dataset may change and whose answers may be late or lost, and the
    logic in which the programs are shown to keep a protocol. *)
From stdpp Require Import gmap.
From S2P Require Import Prelude Text Tlv Errors Dataset Coap NetDiag Messages Joiner.
From S2P Require Import Ipv6 Pskc Commissioner SessionDriver Client.

Section World.
Context {JH : JoinerHandler}.

(** ** The public operations *)

Inductive Call :=
  | CallRequest (d : Destination) (m : CoapMessage)
  | CallGetRawActiveDataset (flags : Z)
  | CallGetActiveDataset (flags : Z)
  | CallGetPendingDataset (flags : Z)
  | CallSetActiveDataset (d : Dataset)
  | CallSetPendingDataset (d : Dataset)
  | CallSetSecurePendingDataset (max_retrieval_timer : Z) (d : Dataset)
  | CallGetCommissionerDataset (flags : Z)
  | CallSetCommissionerDataset (d : Dataset)
  | CallEnableJoiner (joiner_id : bytes)
  | CallEnableAllJoiners (enable : bool)
  | CallGetBbrDataset (flags : Z)
  | CallSetBbrDataset (d : Dataset)
  | CallAnnounceBegin (channel_mask count period_ms : Z) (d : Ipv6Addr)
  | CallPanIdQuery (channel_mask pan_id : Z) (d : Ipv6Addr)
  | CallEnergyScan (channel_mask count period_ms scan_duration_ms : Z) (d : Ipv6Addr)
  | CallRegisterMulticastListener (addresses : list bytes) (t : Z)
  | CallReenroll (d : Ipv6Addr)
  | CallDomainReset (d : Ipv6Addr)
  | CallMigrate (d : Ipv6Addr) (designated_network : bytes)
  | CallDiagnosticGet (d : option Ipv6Addr) (flags : Z)
  | CallDiagnosticReset (d : option Ipv6Addr) (flags : Z)
  | CallGetDiagnostics (d : Ipv6Addr) (flags : Z)
  | CallSendToJoiner (joiner_id : bytes) (port : Z) (pl : bytes)
  | CallPetitionOp
  | CallKeepAliveOp
  | CallResignOp
  | CallSetJoinerHandler (h : handler)
  | CallClearJoinerHandler.

Definition discard {A} (p : Prog A) : Prog unit := pbind p (fun _ => Ret tt).

Definition call_prog (c : Call) : Prog unit :=
  match c with
  | CallRequest d m => discard (Commissioner_request d m)
  | CallGetRawActiveDataset f => discard (get_raw_active_dataset f)
  | CallGetActiveDataset f => discard (get_active_dataset f)
  | CallGetPendingDataset f => discard (get_pending_dataset f)
  | CallSetActiveDataset d => set_active_dataset d
  | CallSetPendingDataset d => set_pending_dataset d
  | CallSetSecurePendingDataset t d => set_secure_pending_dataset t d
  | CallGetCommissionerDataset f => discard (get_commissioner_dataset f)
  | CallSetCommissionerDataset d => set_commissioner_dataset d
  | CallEnableJoiner j => enable_joiner j
  | CallEnableAllJoiners e => enable_all_joiners e
  | CallGetBbrDataset f => discard (get_bbr_dataset f)
  | CallSetBbrDataset d => set_bbr_dataset d
  | CallAnnounceBegin m c p d => announce_begin m c p d
  | CallPanIdQuery m p d => pan_id_query m p d
  | CallEnergyScan m c p s d => energy_scan m c p s d
  | CallRegisterMulticastListener a t => discard (register_multicast_listener a t)
  | CallReenroll d => command_reenroll d
  | CallDomainReset d => command_domain_reset d
  | CallMigrate d n => command_migrate d n
  | CallDiagnosticGet d f => diagnostic_get d f
  | CallDiagnosticReset d f => diagnostic_reset d f
  | CallGetDiagnostics d f => discard (get_diagnostics d f)
  | CallSendToJoiner j p pl => send_to_joiner j p pl
  | CallPetitionOp => discard Commissioner_petition
  | CallKeepAliveOp => discard Commissioner_keep_alive
  | CallResignOp => Commissioner_resign
  | CallSetJoinerHandler h => set_joiner_handler h
  | CallClearJoinerHandler => clear_joiner_handler
  end.

(** ** The shared state and the mesh *)

(** [cache] and [write_lock] are the handles' shared state, [invalidations]
    counts what happened to the cache.  The rest is the mesh: its mesh-local
    prefix, whether it changed since the session was last told, and the leader's
    steering data. *)
Record Shared := mkShared {
  cache : PrefixCache;
  write_lock : bool;
  invalidations : Z;
  mesh_prefix : bytes;
  change_pending : bool;
  steering : option bytes }.

Definition Answer : Type := option (Error + option CoapMessage).

(** A call between two of its requests, or waiting for an exchange.  [late] is
    what follows when a time limit runs out first. *)
Inductive Task :=
  | Running (p : Prog unit)
  | Waiting (o : Outbound) (late : option (Prog unit)) (answer : option Answer) (k : Answer -> Prog unit).

Record State := mkState { shared : Shared; tasks : list Task }.

Definition store_prefix (read_generation : Z) (p : bytes) (c : PrefixCache) : PrefixCache :=
  if generation c =? read_generation then mkPrefixCache (Some p) (generation c) else c.

Definition with_cache (c : PrefixCache) (w : Shared) : Shared :=
  mkShared c (write_lock w) (invalidations w) (mesh_prefix w) (change_pending w) (steering w).
Definition with_lock (b : bool) (w : Shared) : Shared :=
  mkShared (cache w) b (invalidations w) (mesh_prefix w) (change_pending w) (steering w).
Definition with_steering (s : option bytes) (w : Shared) : Shared :=
  mkShared (cache w) (write_lock w) (invalidations w) (mesh_prefix w) (change_pending w) s.

Definition is_success (m : CoapMessage) : bool := is_ok (require_success_response m).
Definition accepted (m : CoapMessage) : bool := is_ok (check_state_response m true).

(** What a successful answer shows of a dataset. *)
Definition shows_steering (m : CoapMessage) : option (option bytes) :=
  if is_success m then
    match Dataset_from_bytes (payload m) with
    | Ok d => Some (Dataset_raw d TLV_STEERING_DATA)
    | _ => None
    end
  else None.
Definition shows_prefix (m : CoapMessage) : option bytes :=
  if is_success m then
    match (let! d := Dataset_from_bytes (payload m) in Dataset_mesh_local_prefix d) with
    | Ok p => p
    | _ => None
    end
  else None.

Inductive Resource := CommissionerGet | CommissionerSet | ActiveGet | OtherResource.
Definition resource (o : Outbound) : Resource :=
  match uri_path (ob_message o) with
  | Ok (Some path) =>
      if vec_eqb path MGMT_COMMISSIONER_GET then CommissionerGet
      else if vec_eqb path MGMT_COMMISSIONER_SET then CommissionerSet
      else if vec_eqb path MGMT_ACTIVE_GET then ActiveGet
      else OtherResource
  | _ => OtherResource
  end.
Definition carried_steering (o : Outbound) : option bytes :=
  match TlvSet_parse (payload (ob_message o)) with
  | Ok s => last_value s TLV_STEERING_DATA
  | _ => None
  end.

(** What the mesh may answer to a request it processes, and what that does: a
    dataset read shows the dataset, a steering write it accepts replaces the
    steering data, one it refuses is not accepted. *)
Definition serve (w : Shared) (o : Outbound) (apply_it : bool) (m : CoapMessage) : option Shared :=
  if negb (bool_decide (bytes_ok (payload m))) then None
  else match resource o with
  | CommissionerGet =>
      match shows_steering m with
      | Some s => if bool_decide (s = steering w) then Some w else None
      | None => Some w
      end
  | CommissionerSet =>
      if apply_it then Some (with_steering (carried_steering o) w)
      else if accepted m then None else Some w
  | ActiveGet =>
      match shows_prefix m with
      | Some p => if bool_decide (p = mesh_prefix w) then Some w else None
      | None => Some w
      end
  | OtherResource => Some w
  end.

(** ** Steps *)

Inductive Choice :=
  | Proceed
  | Observe (status : SessionStatus * bool)
  | PetitionAnswer (a : option (Error + PetitionResponse))
  | KeepAliveAnswer (a : option (Error + ResultCode))
  | ResignAnswer (a : option (Error + unit))
  | HandlerAnswer (sent : bool)
  | Serve (apply_it : bool) (m : CoapMessage)
  | Sent
  | Deliver
  | Fail (a : option Error)
  | Expire.

Definition local (w : Shared) {X} (r : Request X) (c : Choice) : option (Shared * X) :=
  match r in Request X return option (Shared * X) with
  | Watch => match c with Observe s => Some (w, s) | _ => None end
  | ReadPrefix => Some (w, cache w)
  | StorePrefix g p => Some (with_cache (store_prefix g p (cache w)) w, tt)
  | CallPetition => match c with PetitionAnswer a => Some (w, a) | _ => None end
  | CallKeepAlive => match c with KeepAliveAnswer a => Some (w, a) | _ => None end
  | CallResign => match c with ResignAnswer a => Some (w, a) | _ => None end
  | SendHandler _ => match c with HandlerAnswer a => Some (w, a) | _ => None end
  | LockWrites => if write_lock w then None else Some (with_lock true w, tt)
  | UnlockWrites => Some (with_lock false w, tt)
  | Submit _ | SubmitWithin _ => None
  end.

Definition start (w : Shared) {X} (r : Request X) : Choice -> (X -> Prog unit) -> option (Shared * Task) :=
  match r in Request X return Choice -> (X -> Prog unit) -> option (Shared * Task) with
  | Submit o => fun _ k => Some (w, Waiting o None None k)
  | SubmitWithin o => fun _ k => Some (w, Waiting o (Some (k None)) None (fun a => k (Some a)))
  | r => fun c k => match local w r c with Some (w', x) => Some (w', Running (k x)) | None => None end
  end.

Definition task_step (w : Shared) (t : Task) (c : Choice) : option (Shared * Task) :=
  match t with
  | Running (Do r k) => start w r c k
  | Running _ => None
  | Waiting o late answer k =>
      match c, answer with
      | Serve apply_it m, None =>
          if expect_response o then
            match serve w o apply_it m with
            | Some w' => Some (w', Waiting o late (Some (Some (inr (Some m)))) k)
            | None => None
            end
          else None
      | Sent, None => if expect_response o then None else Some (w, Waiting o late (Some (Some (inr None))) k)
      | Deliver, Some a => Some (w, Running (k a))
      | Fail a, _ => Some (w, Running (k (match a with Some e => Some (inl e) | None => None end)))
      | Expire, _ => match late with Some p => Some (w, Running p) | None => None end
      | _, _ => None
      end
  end.

Inductive Event :=
  | Act (i : nat) (c : Choice)
  | DatasetChanges (p : bytes)
  | SessionTold.

Definition exec (s : State) (e : Event) : option State :=
  match e with
  | Act i c =>
      match tasks s !! i with
      | Some t =>
          match task_step (shared s) t c with
          | Some (w, t') => Some (mkState w (<[i := t']> (tasks s)))
          | None => None
          end
      | None => None
      end
  | DatasetChanges p =>
      let w := shared s in
      Some (mkState (mkShared (cache w) (write_lock w) (invalidations w) p true (steering w)) (tasks s))
  | SessionTold =>
      let w := shared s in
      Some (mkState (mkShared (invalidate_mesh_local_prefix (cache w)) (write_lock w) (invalidations w + 1)
                       (mesh_prefix w) false (steering w)) (tasks s))
  end.

Fixpoint run (s : State) (es : list Event) : option State :=
  match es with
  | [] => Some s
  | e :: es => match exec s e with Some s' => run s' es | None => None end
  end.

Definition initial (prefix : bytes) (steering : option bytes) (calls : list Call) : State :=
  mkState (mkShared PrefixCache_default false 0 prefix false steering) (map (fun c => Running (call_prog c)) calls).
Definition finished (s : State) (i : nat) : Prop := tasks s !! i = Some (Running (Ret tt)).

Lemma run_invariant (Inv : State -> Prop) s es s' :
  Inv s -> (forall s e s', Inv s -> exec s e = Some s' -> Inv s') -> run s es = Some s' -> Inv s'.
Proof.
  intros Hs Hstep. revert s Hs. induction es as [|e es IH]; intros s Hs; cbn; [by intros [= <-]|].
  destruct (exec s e) as [s1|] eqn:E; [|done]. apply IH. by eapply Hstep.
Qed.
End World.

(** ** Protocols

    A protocol says, for a ghost state, which requests are allowed and how the
    answer moves the ghost state.  [follows p g Q R]: from [g], program [p] makes
    only allowed requests, whatever is answered, ends in a value with [Q] or in
    an error with [R].  A program that panics has no obligation. *)
Section Protocol.
Context {JH : JoinerHandler} {G : Type}.
Context (allowed : forall X, Request X -> G -> Prop) (after : forall X, Request X -> X -> G -> G).

Fixpoint follows {A} (p : Prog A) (g : G) (Q : G -> A -> Prop) (R : G -> Prop) : Prop :=
  match p with
  | Ret a => Q g a
  | Throw _ => R g
  | Crash _ => True
  | Do r k => allowed _ r g /\ forall x, follows (k x) (after _ r x g) Q R
  end.

Lemma follows_mono {A} (p : Prog A) g Q R (Q' : G -> A -> Prop) (R' : G -> Prop) :
  follows p g Q R -> (forall g a, Q g a -> Q' g a) -> (forall g, R g -> R' g) -> follows p g Q' R'.
Proof.
  revert g. induction p as [| | |X r k IH]; intros g; cbn; [eauto..|]. intros [Ha Hk] HQ HR. split; [done|]. eauto.
Qed.

Lemma follows_bind {A B} (p : Prog A) (k : A -> Prog B) g Q R :
  follows p g (fun g a => follows (k a) g Q R) R -> follows (pbind p k) g Q R.
Proof. revert g. induction p as [| | |X r k' IH]; intros g; cbn; [done..|]. intros [Ha Hk]. split; [done|]. eauto. Qed.

Lemma follows_perform {X} (r : Request X) g (Q : G -> X -> Prop) R :
  allowed _ r g -> (forall x, Q (after _ r x g) x) -> follows (perform r) g Q R.
Proof. done. Qed.

Lemma follows_plift {A} (r : result Error A) g (Q : G -> A -> Prop) (R : G -> Prop) :
  (forall a, r = Ok a -> Q g a) -> R g -> follows (plift r) g Q R.
Proof. destruct r; cbn; auto. Qed.

Lemma follows_finally {A} (p : Prog A) (q : Request unit) g (Q : G -> A -> Prop) R :
  follows p g (fun g a => allowed _ q g /\ Q (after _ q tt g) a) (fun g => allowed _ q g /\ R (after _ q tt g)) ->
  follows (finally p q) g Q R.
Proof.
  revert g. induction p as [| | |X r k' IH]; intros g; cbn; [..|done|].
  - intros [??]. split; [done|]. by intros [].
  - intros [??]. split; [done|]. by intros [].
  - intros [Ha Hk]. split; [done|]. eauto.
Qed.

(** A program all of whose requests are allowed and leave the ghost alone. *)
Fixpoint quiet {A} (p : Prog A) (g : G) : Prop :=
  match p with
  | Do r k => allowed _ r g /\ forall x, after _ r x g = g /\ quiet (k x) g
  | _ => True
  end.
Lemma quiet_follows {A} (p : Prog A) g (Q : G -> A -> Prop) (R : G -> Prop) :
  quiet p g -> (forall a, Q g a) -> R g -> follows p g Q R.
Proof.
  induction p as [| | |X r k IH]; cbn; [auto..|]. intros [Ha Hk] HQ HR. split; [done|]. intros x.
  destruct (Hk x) as [-> Hq]. auto.
Qed.
Lemma quiet_bind {A B} (p : Prog A) (k : A -> Prog B) g : quiet p g -> (forall a, quiet (k a) g) -> quiet (pbind p k) g.
Proof. induction p as [| | |X r k' IH]; cbn; [auto..|]. intros [Ha Hk] Hq. split; [done|]. intros x. destruct (Hk x). auto. Qed.
Lemma quiet_plift {A} (r : result Error A) g : quiet (plift r) g.
Proof. by destruct r. Qed.
End Protocol.
