(* ===== verification/ClientSteering.v ===== *)
(** * ClientSteering: no joiner is lost

    [enable_joiner] reads the leader's steering data, adds a joiner and writes
    it back.  Handles do so concurrently; the write lock is what keeps them from
    overwriting each other.  The protocol of this file is what each call owes to
    the others, and the invariant is what they owe to the joiners. *)
From stdpp Require Import gmap.
From S2P Require Import Prelude Text Tlv Errors Dataset Coap NetDiag Messages Joiner.
From S2P Require Import Ipv6 Pskc Commissioner SessionDriver Client ClientWorld.

(** ** The resource of a request *)

Lemma post_request_inv t mid tok path pl m : literal_path path -> post_request t mid tok path pl = Ok m ->
  uri_path m = Ok (Some path) /\ payload m = pl.
Proof.
  destruct path as [|s p]; [done|]. intros (-> & _ & _ & Hne & Hp). rewrite post_request_ok by done.
  intros [= <-]. split; [|done]. rewrite uri_path_segments, join_split; [done|apply split_slash_nonempty|].
  eapply Forall_impl; [exact Hp|]. by intros ? [_ ?].
Qed.

(** [m] is addressed to the resource of [op]. *)
Definition addressed (op : CommissionerOperation) (m : CoapMessage) : Prop :=
  uri_path m = Ok (Some (operation_uri_path op)).

Create HintDb addressed.
Ltac addressed_tac := intros; inv_ok;
  match goal with H : post_request _ _ _ _ _ = Ok _ |- _ =>
    apply post_request_inv in H as [H _]; [exact H | apply operation_path_literal || by_decide] end.

Lemma get_addressed op types m : dataset_get_request op 0 [] types = Ok m -> addressed op m.
Proof. unfold dataset_get_request. addressed_tac. Qed.
Lemma set_addressed op sid d m : dataset_set_request op 0 [] sid d = Ok m -> addressed op m.
Proof. unfold dataset_set_request. addressed_tac. Qed.
Lemma secure_addressed sid t uri d m : secure_pending_set_request 0 [] sid t uri d = Ok m -> addressed SetSecurePendingDataset m.
Proof. unfold secure_pending_set_request. addressed_tac. Qed.
Lemma announce_addressed sid cm c p b m : announce_begin_request 0 [] sid cm c p b = Ok m -> addressed AnnounceBegin m.
Proof. unfold announce_begin_request. addressed_tac. Qed.
Lemma pan_id_addressed sid cm p b m : pan_id_query_request 0 [] sid cm p b = Ok m -> addressed PanIdQuery m.
Proof. unfold pan_id_query_request. addressed_tac. Qed.
Lemma scan_addressed sid s m : energy_scan_request 0 [] sid s = Ok m -> addressed EnergyScan m.
Proof. unfold energy_scan_request. addressed_tac. Qed.
Lemma mlr_addressed sid a t m : multicast_listener_request 0 [] sid a t = Ok m -> addressed RegisterMulticastListener m.
Proof. unfold multicast_listener_request. addressed_tac. Qed.
Lemma command_addressed op sid b m : session_command_request op 0 [] sid b = Ok m -> addressed op m.
Proof. unfold session_command_request. addressed_tac. Qed.
Lemma migrate_addressed sid n b m : migrate_request 0 [] sid n b = Ok m -> addressed Migrate m.
Proof. unfold migrate_request. addressed_tac. Qed.
Lemma diagnostic_addressed op f b m : diagnostic_request op 0 [] f b = Ok m -> addressed op m.
Proof. unfold diagnostic_request. addressed_tac. Qed.
Lemma relay_addressed j p l pl m : relay_tx_request 0 [] j p l pl = Ok m -> addressed SendToJoiner m.
Proof. unfold relay_tx_request, relay_tx_request_with_kek. addressed_tac. Qed.
#[export] Hint Resolve get_addressed set_addressed secure_addressed announce_addressed pan_id_addressed scan_addressed
  mlr_addressed command_addressed migrate_addressed diagnostic_addressed relay_addressed : addressed.

Definition operation_resource (op : CommissionerOperation) : Resource :=
  match op with
  | GetCommissionerDataset => CommissionerGet
  | SetCommissionerDataset => CommissionerSet
  | GetActiveDataset => ActiveGet
  | _ => OtherResource
  end.
Lemma addressed_resource op m d e l : addressed op m -> resource (mkOutbound m d e l) = operation_resource op.
Proof. unfold addressed, resource. cbn [ob_message]. intros ->. by destruct op. Qed.

(** ** The protocol of the write lock *)

(** What a call knows: whether it holds the write lock, the steering data it
    read since it took it, and whether its joiner was written. *)
Record Ghost := mkGhost { held : bool; seen : option (option bytes); joined : bool }.
Definition outside : Ghost := mkGhost false None false.

(** Steering data of a length that is not sixteen is started afresh. *)
Definition steering_base (s : option bytes) : bytes :=
  if len (default [] s) =? 16 then default [] s else repeat 0 16.

Definition answered_message (a : Answer) : option CoapMessage :=
  match a with Some (inr (Some m)) => Some m | _ => None end.

Section Steering.
Context {JH : JoinerHandler}.

(** [j] is the joiner that the call adds, if it adds one. *)
Section Protocol.
Context (j : option bytes).

Definition extends (s : option bytes) (filter : bytes) : Prop :=
  filter_wf filter /\ (forall x, steers (steering_base s) x = true -> steers filter x = true) /\
  exists id, j = Some id /\ steers filter id = true.

Definition may_submit (o : Outbound) (g : Ghost) : Prop :=
  resource o = CommissionerSet ->
  held g = true /\ exists s, seen g = Some s /\
    (bytes_ok (default [] s) -> exists filter, carried_steering o = Some filter /\ extends s filter).

Definition allowed (X : Type) (r : Request X) (g : Ghost) : Prop :=
  match r with
  | LockWrites => held g = false
  | UnlockWrites => held g = true
  | Submit o | SubmitWithin o => may_submit o g
  | _ => True
  end.

Definition learn (o : Outbound) (a : Answer) (g : Ghost) : Ghost :=
  match resource o with
  | CommissionerGet =>
      if held g then mkGhost true (answered_message a ≫= shows_steering) (joined g) else g
  | CommissionerSet =>
      mkGhost (held g) None (joined g || match answered_message a with Some m => accepted m | None => false end)
  | _ => g
  end.

Definition after (X : Type) (r : Request X) (x : X) (g : Ghost) : Ghost :=
  match r in Request X return X -> Ghost with
  | LockWrites => fun _ => mkGhost true None (joined g)
  | UnlockWrites => fun _ => mkGhost false None (joined g)
  | Submit o => fun a => learn o a g
  | SubmitWithin o => fun a => learn o (default None a) g
  | _ => fun _ => g
  end x.

Notation follows := (follows allowed after).
Notation quiet := (quiet allowed after).

(** A request to another resource, or a read outside the lock. *)
Lemma quiet_execute op m d e g : addressed op m -> operation_resource op <> CommissionerSet ->
  (operation_resource op = CommissionerGet -> held g = false) -> quiet (execute op m d e) g.
Proof.
  intros Hm Hs Hg. unfold execute, Commissioner_submit. apply quiet_bind; [|intros [[|]|]; cbn; done].
  cbn. unfold may_submit, learn. rewrite (addressed_resource _ _ _ _ _ Hm). split; [done|]. intros a. split; [|done].
  destruct (operation_resource op); try done. by rewrite Hg.
Qed.
Lemma quiet_bind_plift {A B} (r : result Error A) (k : A -> Prog B) g :
  (forall a, r = Ok a -> quiet (k a) g) -> quiet (pbind (plift r) k) g.
Proof. destruct r; cbn; auto. Qed.
Lemma quiet_status g : quiet status_now g.
Proof. cbn. split; [done|]. intros [s b]. split; [done|]. by destruct (_ && _). Qed.
Lemma quiet_session g : quiet session_id_required g.
Proof. unfold session_id_required, Commissioner_session_id. repeat (apply quiet_bind; [|intros]); try done; [apply quiet_status|apply quiet_plift]. Qed.

Ltac op_tac := first [done | match goal with H : operation_resource _ = _ |- _ => by rewrite H end].
Ltac quiet_tac := repeat match goal with
  | |- ClientWorld.quiet _ _ (pbind (plift _) _) _ => apply quiet_bind_plift; intros ? ?
  | |- ClientWorld.quiet _ _ (pbind _ _) _ => apply quiet_bind; [|intros ?]
  | |- ClientWorld.quiet _ _ (plift _) _ => apply quiet_plift
  | |- ClientWorld.quiet _ _ session_id_required _ => apply quiet_session
  | |- ClientWorld.quiet _ _ (execute _ _ _ _) _ => apply quiet_execute; [eauto with addressed|op_tac|op_tac]
  | |- ClientWorld.quiet _ _ (Ret _) _ => exact I
  | |- ClientWorld.quiet _ _ (Throw _) _ => exact I
  | |- ClientWorld.quiet _ _ (match _ with _ => _ end) _ => case_match
  end.

Lemma quiet_raw_active flags g : quiet (get_raw_active_dataset flags) g.
Proof. unfold get_raw_active_dataset, execute_meshcop, successful. quiet_tac. Qed.
Lemma quiet_require_prefix g : quiet require_mesh_local_prefix g.
Proof.
  unfold require_mesh_local_prefix. apply quiet_bind; [by split|intros c]. destruct (prefix c); [done|].
  apply quiet_bind; [apply quiet_raw_active|intros raw]. quiet_tac. by split.
Qed.
Lemma quiet_leader g : quiet leader_aloc g.
Proof. unfold leader_aloc. apply quiet_bind; [apply quiet_require_prefix|done]. Qed.
Lemma quiet_pbbr g : quiet primary_bbr_aloc g.
Proof. unfold primary_bbr_aloc. apply quiet_bind; [apply quiet_require_prefix|done]. Qed.
Lemma quiet_set_dataset op d required g : operation_resource op = OtherResource -> quiet (set_dataset op d required) g.
Proof.
  intros Hop. unfold set_dataset, execute_state_operation, execute_meshcop, successful. quiet_tac.
Qed.
Lemma quiet_proxied_command op m d g : addressed op m -> operation_resource op = OtherResource ->
  quiet (execute_proxied_command op m d) g.
Proof.
  intros Hm Hop. unfold execute_proxied_command. apply quiet_bind; [by apply quiet_execute; rewrite ?Hop|].
  intros r. quiet_tac.
Qed.
Lemma quiet_diagnostic op d f g : operation_resource op = OtherResource -> quiet (diagnostic_command op d f) g.
Proof.
  intros Hop. unfold diagnostic_command, destination_or_leader, execute_proxied, successful.
  apply quiet_bind; [apply quiet_session|intros _]. apply quiet_bind; [destruct d; [done|apply quiet_leader]|intros a].
  quiet_tac.
Qed.

Ltac quiet_call_tac := repeat match goal with
  | |- ClientWorld.quiet _ _ (pbind (plift _) _) _ => apply quiet_bind_plift; intros ? ?
  | |- ClientWorld.quiet _ _ (pbind _ _) _ => apply quiet_bind; [|intros ?]
  | |- ClientWorld.quiet _ _ (plift _) _ => apply quiet_plift
  | |- ClientWorld.quiet _ _ session_id_required _ => apply quiet_session
  | |- ClientWorld.quiet _ _ leader_aloc _ => apply quiet_leader
  | |- ClientWorld.quiet _ _ primary_bbr_aloc _ => apply quiet_pbbr
  | |- ClientWorld.quiet _ _ (get_raw_active_dataset _) _ => apply quiet_raw_active
  | |- ClientWorld.quiet _ _ (execute _ _ _ _) _ => apply quiet_execute; [eauto with addressed|op_tac|op_tac]
  | |- ClientWorld.quiet _ _ (Ret _) _ => exact I
  | |- ClientWorld.quiet _ _ (Throw _) _ => exact I
  | |- ClientWorld.quiet _ _ (match _ with _ => _ end) _ => case_match
  end.

(** The calls that leave the steering data alone. *)
Definition leaves_steering (c : Call) : bool :=
  match c with
  | CallRequest d m => negb (match resource (mkOutbound m d true "request") with CommissionerSet => true | _ => false end)
  | CallSetCommissionerDataset _ | CallEnableJoiner _ | CallEnableAllJoiners _ => false
  | _ => true
  end.

Lemma quiet_call c : leaves_steering c = true -> quiet (call_prog c) outside.
Proof.
  destruct c; intros Hc; try discriminate Hc; cbn [call_prog]; unfold discard;
    try (apply quiet_bind; [|done]);
    try solve [apply quiet_raw_active | by apply quiet_set_dataset | by apply quiet_diagnostic
              | repeat first [apply quiet_bind_plift; intros ? ? | apply quiet_bind; [apply quiet_session|intros ?]
                             | apply quiet_proxied_command; [eauto with addressed|done]]
              | unfold get_active_dataset, get_pending_dataset, get_bbr_dataset, get_diagnostics, send_to_joiner,
                  set_secure_pending_dataset, get_commissioner_dataset, register_multicast_listener,
                  execute_meshcop, execute_proxied, execute_no_response, successful;
                quiet_call_tac ].
  - unfold Commissioner_request, Commissioner_submit. apply quiet_bind; [|intros; apply quiet_plift].
    apply quiet_bind; [|intros [[]|]; done]. cbn in Hc |- *. unfold may_submit, learn.
    change (resource (mkOutbound m d true "request")) with (resource (mkOutbound m d true "")) in *.
    destruct (resource _); done.
  - by repeat split; destruct x as [[]|].
  - by repeat split; destruct x as [[]|].
  - by repeat split; destruct x as [[]|].
  - by repeat split; destruct x.
  - by repeat split; destruct x.
Qed.

Lemma success_same m m' : require_success_response m = Ok m' -> m' = m.
Proof. unfold require_success_response. destruct (_ || _); congruence. Qed.

(** Reading the steering data under the lock. *)
Lemma follows_get flags g (Q : Ghost -> Dataset -> Prop) (R : Ghost -> Prop) : held g = true ->
  (forall d, Q (mkGhost true (Some (Dataset_raw d TLV_STEERING_DATA)) (joined g)) d) ->
  (forall s, R (mkGhost true s (joined g))) -> R g -> follows (get_commissioner_dataset flags) g Q R.
Proof.
  intros Hg HQ HR HRg. unfold get_commissioner_dataset, execute_proxied. apply follows_bind.
  apply quiet_follows; [apply quiet_leader|intros leader|done]. apply follows_bind, follows_plift; [|done]. intros m Hm.
  do 2 apply follows_bind. unfold execute, Commissioner_submit. apply follows_bind. cbn.
  assert (resource (mkOutbound m (mesh_management leader) true "get-commissioner-dataset") = CommissionerGet) as Hr
    by (apply get_addressed in Hm; by rewrite (addressed_resource _ _ _ _ _ Hm)).
  unfold may_submit, learn. rewrite Hr. split; [done|]. intros [[e|[m'|]]|]; rewrite Hg; cbn; try apply HR.
  unfold shows_steering, is_success, successful. cbn [ok_or rbind].
  destruct (require_success_response m') as [m''| |] eqn:E; cbn; [|apply HR|done].
  assert (m'' = m') as -> by by apply success_same.
  destruct (Dataset_from_bytes (payload m')); cbn; [apply HQ|apply HR|done].
Qed.

Definition session_tlv (sid : Z) : TlvEntry := mkTlvEntry TLV_COMMISSIONER_SESSION_ID (to_be 2 sid).
Lemma steering_request_carries op sid filter m d l : filter_wf filter ->
  dataset_set_request op 0 [] sid (steering_dataset filter) = Ok m -> carried_steering (mkOutbound m d true l) = Some filter.
Proof.
  intros [Hb Hl]. unfold dataset_set_request. rewrite append_u16_ok. cbn [rbind].
  assert (tlv_wf (mkTlvEntry TLV_STEERING_DATA filter)) as Hwf by (split_and!; [by_decide|done|cbn; rewrite Hl; by_decide]).
  assert (Dataset_to_bytes (steering_dataset filter) = Ok (tlv_bytes (mkTlvEntry TLV_STEERING_DATA filter))) as ->.
  { unfold Dataset_to_bytes, steering_dataset. rewrite TlvSet_encode_ok; [|by constructor]. cbn. by rewrite app_nil_r. }
  intros [_ Hp]%post_request_inv; [|apply operation_path_literal]. unfold carried_steering. cbn [ob_message]. rewrite Hp.
  pose proof (TlvSet_parse_concat [session_tlv sid; mkTlvEntry TLV_STEERING_DATA filter]) as Hc. cbn [map concat] in Hc.
  rewrite app_nil_r in Hc. cbn [app]. fold (session_tlv sid). rewrite Hc; [done|]. constructor; [apply tlv_wf_u16; by_decide|by constructor].
Qed.

(** [enable_joiner] keeps the protocol, and ends with the joiner written. *)
Lemma follows_enable_joiner id : j = Some id ->
  follows (enable_joiner id) outside (fun g _ => held g = false /\ joined g = true) (fun g => held g = false).
Proof.
  intros Hj. unfold enable_joiner, writing. cbn [ClientWorld.follows]. split; [done|]. intros [].
  apply follows_finally. apply follows_bind. apply follows_get; [done| |done|done]. intros d. cbn [after joined outside].
  set (s := Dataset_raw d TLV_STEERING_DATA). apply follows_bind, follows_plift; [|done]. intros filter Hf.
  unfold write_commissioner_dataset. apply follows_bind.
  apply quiet_follows; [apply quiet_session|intros sid|done].
  change (strip_managed_commissioner_tlvs (steering_dataset filter)) with (steering_dataset filter).
  change (is_empty (entries (tlvs (steering_dataset filter)))) with false. cbv iota. apply follows_bind.
  apply quiet_follows; [apply quiet_leader|intros leader|done]. apply follows_bind, follows_plift; [|done]. intros m Hm.
  unfold execute_proxied, execute, Commissioner_submit. do 3 apply follows_bind. cbn.
  assert (resource (mkOutbound m (mesh_management leader) true "set-commissioner-dataset") = CommissionerSet) as Hr
    by (pose proof (set_addressed _ _ _ _ Hm) as Ha; by rewrite (addressed_resource _ _ _ _ _ Ha)).
  split.
  - intros _. split; [done|]. exists s. split; [done|]. intros Hs.
    destruct (@add_joiner_ok Error _ id Hs) as (f & E & Hwf & _ & Hone & Hall).
    rewrite E in Hf. injection Hf as <-. exists f. split; [by eapply steering_request_carries|].
    split; [done|]. split; [|by exists id]. intros x. apply Hall.
  - unfold learn. rewrite Hr. intros [[e|[m'|]]|]; cbn; try done.
    unfold successful. cbn [ok_or rbind].
    destruct (require_success_response m') as [m''| |] eqn:E; cbn; [|done..].
    assert (m'' = m') as -> by by apply success_same.
    unfold accepted. by destruct (check_state_response m' true) as [[]| |].
Qed.

(** ** One step of one task *)

Definition kept (p : Prog unit) (g : Ghost) : Prop :=
  follows p g (fun g' _ => held g' = false /\ (j <> None -> joined g' = true)) (fun g' => held g' = false).

(** The knowledge of a task, its last answer included. *)
Definition knowledge (t : Task) (g : Ghost) : Ghost :=
  match t with Waiting o _ (Some a) _ => learn o a g | _ => g end.

Definition steered (w : Shared) (id : bytes) : Prop := steers (steering_base (steering w)) id = true.

Definition task_follows (g : Ghost) (t : Task) : Prop :=
  match t with
  | Running p => kept p g
  | Waiting o late a k =>
      may_submit o g /\ (forall a, kept (k a) (learn o a g)) /\ (forall p, late = Some p -> kept p (learn o None g))
  end.
Definition task_true (g : Ghost) (w : Shared) : Prop :=
  (held g = true -> forall s, seen g = Some s -> s = steering w) /\
  (joined g = true -> exists id, j = Some id /\ steered w id).
Definition task_inv (g : Ghost) (w : Shared) (t : Task) : Prop :=
  task_follows g t /\ task_true (knowledge t g) w.

(** How the lock and the steering data may move. *)
Definition moves (g : Ghost) (w : Shared) (g' : Ghost) (w' : Shared) : Prop :=
  (held g' = held g /\ write_lock w' = write_lock w \/
   write_lock w = false /\ write_lock w' = true /\ held g = false \/
   held g = true /\ held g' = false) /\
  (steering w' = steering w \/
   held g = true /\ exists filter, steering w' = Some filter /\ filter_wf filter /\ forall x, steered w x -> steered w' x).

Lemma held_learn o a g : held (learn o a g) = held g.
Proof. unfold learn. destruct (resource o); try done. by destruct (held g) eqn:E. Qed.

(** Failing forgets, and claims nothing new. *)
Lemma true_fail o a b g w : answered_message a = None ->
  task_true (match b with Some b => learn o b g | None => g end) w -> task_true (learn o a g) w.
Proof.
  destruct g as [h sn jo]. intros Ha. destruct b as [b|]; unfold learn; cbn [held seen joined]; rewrite Ha;
    destruct (resource o); cbn [held seen joined]; try done; intros [Hs Hj].
  all: split; cbn [held seen joined]; try done; rewrite ?orb_false_r; try (by destruct h).
  all: intros Hjo; apply Hj; destruct h; rewrite ?Hjo; done.
Qed.

(** Processing a request. *)
Lemma serve_moves o apply_it m g w w' : may_submit o g -> task_true g w -> bytes_ok (default [] (steering w)) ->
  serve w o apply_it m = Some w' ->
  write_lock w' = write_lock w /\ task_true (learn o (Some (inr (Some m))) g) w' /\
  (steering w' = steering w \/ held g = true /\ exists filter, steering w' = Some filter /\ filter_wf filter /\ forall x, steered w x -> steered w' x).
Proof.
  intros Hm [Hs Hj] Hb. unfold serve, may_submit, learn in *. destruct (negb _); [done|]. cbn [answered_message].
  destruct (resource o) eqn:Hr.
  - intros Hw. assert (w' = w /\ forall s, shows_steering m = Some s -> s = steering w) as [-> Hsh].
    { destruct (shows_steering m) as [s|]; [|by injection Hw as <-]. case_bool_decide; [|done]. injection Hw as <-.
      split; [done|]. by intros ? [= <-]. }
    split; [done|]. split; [|by left]. destruct (held g) eqn:Hh; [|by split; rewrite ?Hh]. split; [|done].
    intros _ s Hsn. cbn in Hsn. by apply Hsh.
  - destruct (Hm eq_refl) as (Hh & s & Hsn & Hext). destruct apply_it.
    + rewrite (Hs Hh _ Hsn) in Hext. destruct (Hext Hb) as (filter & Hc & Hwf & Hold & id & Hid & Hnew).
      intros [= <-]. split; [done|]. assert (forall x, steered w x -> steered (with_steering (carried_steering o) w) x) as Hmono.
      { intros x. unfold steered. cbn [steering with_steering]. rewrite Hc. unfold steering_base at 2. cbn [default].
        destruct Hwf as [_ Hl]. cbn. rewrite Hl. apply Hold. }
      split; [|right; split; [done|]; exists filter; by rewrite <- Hc at 1; auto].
      split; [done|]. intros Hjo. exists id. split; [done|]. unfold steered. cbn [steering with_steering]. rewrite Hc.
      unfold steering_base. cbn. by rewrite (proj2 Hwf).
    + destruct (accepted m) eqn:Ha; [done|]. intros [= <-]. split; [done|]. split; [|by left]. split; [done|].
      cbn [joined]. rewrite orb_false_r. exact Hj.
  - intros Hw. assert (w' = w) as ->.
    { destruct (shows_prefix m); [|by injection Hw]. case_bool_decide; [|done]. by injection Hw. }
    split; [done|]. split; [by split|by left].
  - intros [= <-]. split; [done|]. split; [by split|by left].
Qed.

Lemma moves_same g w : moves g w g w.
Proof. split; left; done. Qed.

Lemma task_step_inv g w t c w' t' : task_inv g w t -> bytes_ok (default [] (steering w)) ->
  task_step w t c = Some (w', t') -> exists g', task_inv g' w' t' /\ moves g w g' w'.
Proof.
  intros [Hf Ht] Hb. destruct t as [p|o late ans k]; cbn [task_step].
  - cbn in Hf, Ht. destruct p as [| | |X r k]; [done..|]. unfold kept in Hf. destruct Hf as [Ha Hk].
    destruct r; cbn [start local]; intros Hst;
      try (injection Hst as <- <-; eexists; split; [split; [exact (Hk tt)|exact Ht]|by split; left]);
      try (destruct c; try done; injection Hst as <- <-; eexists; split; [split; [apply Hk|exact Ht]|apply moves_same]).
    + injection Hst as <- <-. eexists. split; [split; [apply Hk|exact Ht]|apply moves_same].
    + injection Hst as <- <-. exists g. split; [|apply moves_same]. split; [|exact Ht]. split; [exact Ha|]. split; [apply Hk|done].
    + injection Hst as <- <-. exists g. split; [|apply moves_same]. split; [|exact Ht]. split; [exact Ha|].
      split; [intros a; apply (Hk (Some a))|]. intros p [= <-]. apply (Hk None).
    + destruct (write_lock w) eqn:Hl; [done|]. injection Hst as <- <-. eexists. split; [split; [exact (Hk tt)|]|].
      * split; [done|]. apply Ht.
      * split; [right; left; done|by left].
    + injection Hst as <- <-. eexists. split; [split; [exact (Hk tt)|]|].
      * split; [done|]. apply Ht.
      * split; [right; right; done|by left].
  - cbn in Hf. destruct Hf as (Ha & Hk & Hl). intros Hst.
    assert (forall a, answered_message a = None -> task_true (learn o a g) w) as Hfail.
    { intros a Hna. apply (true_fail o a ans g w Hna). destruct ans; apply Ht. }
    assert (forall a, moves g w (learn o a g) w) as Hmv by (intros a; split; left; by rewrite ?held_learn).
    destruct c; try done.
    + destruct ans; [done|]. destruct (expect_response o); [|done]. destruct (serve _ _ _ _) as [w1|] eqn:Hs; [|done].
      injection Hst as <- <-. destruct (serve_moves _ _ _ _ _ _ Ha Ht Hb Hs) as (Hlk & Htr & Hsr). exists g.
      split; [split; [done|exact Htr]|]. split; [by left|exact Hsr].
    + destruct ans; [done|]. destruct (expect_response o); [done|]. injection Hst as <- <-. exists g.
      split; [|apply moves_same]. split; [done|]. by apply Hfail.
    + destruct ans as [a|]; [|done]. injection Hst as <- <-. exists (learn o a g). split; [split; [apply Hk|exact Ht]|apply Hmv].
    + injection Hst as <- <-. eexists. split; [split; [apply Hk|]|apply Hmv]. apply Hfail. by destruct a.
    + destruct late; [|done]. injection Hst as <- <-. eexists. split; [split; [by apply Hl|]|apply Hmv]. by apply Hfail.
Qed.
End Protocol.

(** ** All tasks *)

Definition joiner_of (c : Call) : option bytes := match c with CallEnableJoiner id => Some id | _ => None end.
Definition only_adds (c : Call) : bool := leaves_steering c || match c with CallEnableJoiner _ => true | _ => false end.

Definition steering_inv (steering0 : option bytes) (calls : list Call) (s : State) : Prop :=
  bytes_ok (default [] (steering (shared s))) /\
  (forall x, steers (steering_base steering0) x = true -> steered (shared s) x) /\
  length (tasks s) = length calls /\
  exists gs : nat -> Ghost,
    (forall i c t, calls !! i = Some c -> tasks s !! i = Some t -> task_inv (joiner_of c) (gs i) (shared s) t) /\
    (forall i, held (gs i) = true -> write_lock (shared s) = true) /\
    (forall i k, held (gs i) = true -> held (gs k) = true -> i = k).

Lemma kept_call c : only_adds c = true -> kept (joiner_of c) (call_prog c) outside.
Proof.
  unfold only_adds. intros Hc. destruct (leaves_steering c) eqn:E.
  - apply quiet_follows; [by apply quiet_call| |done]. intros _. split; [done|]. by destruct c.
  - destruct c; try done. eapply follows_mono; [by apply follows_enable_joiner|intros ?? [??]; split; auto|done].
Qed.

Lemma steering_inv_initial p steering0 calls : bytes_ok (default [] steering0) -> Forall (fun c => only_adds c = true) calls ->
  steering_inv steering0 calls (initial p steering0 calls).
Proof.
  intros Hb Hc. split; [done|]. split; [done|]. split; [cbn; by rewrite length_map|]. exists (fun _ => outside).
  split; [|by split]. intros i c t Hi. cbn. rewrite list_lookup_fmap, Hi. intros [= <-]. split; [|by split].
  apply kept_call. rewrite Forall_forall in Hc. apply Hc. by eapply list_elem_of_lookup_2.
Qed.

Lemma steering_inv_step steering0 calls s e s' : steering_inv steering0 calls s -> exec s e = Some s' -> steering_inv steering0 calls s'.
Proof.
  intros (Hb & Hold & Hlen & gs & Htasks & Hlock & Hone). destruct e as [i c|p|]; cbn;
    [|by intros [= <-]; do 3 (split; [done|]); exists gs..].
  destruct (tasks s !! i) as [t|] eqn:Hi; [|done]. destruct (task_step _ _ _) as [[w t']|] eqn:Hst; [|done]. intros [= <-].
  destruct (lookup_lt_is_Some_2 calls i) as [call Hcall]; [rewrite <- Hlen; by eapply lookup_lt_Some|].
  destruct (task_step_inv _ _ _ _ _ _ _ (Htasks _ _ _ Hcall Hi) Hb Hst) as (g' & Hinv & Hlk & Hsr).
  assert (forall x, steered (shared s) x -> steered w x) as Hmono.
  { intros x. destruct Hsr as [E|(_ & _ & _ & _ & Hm)]; [by unfold steered; rewrite E|apply Hm]. }
  split; [|split; [|split]]; cbn [shared tasks].
  - destruct Hsr as [->|(_ & f & -> & [Hf _] & _)]; done.
  - intros x Hx. by apply Hmono, Hold.
  - by rewrite length_insert.
  - exists (fun k => if decide (k = i) then g' else gs k).
    assert (forall k, k <> i -> held (gs k) = true -> held (gs i) = false /\ write_lock w = true) as Hother.
    { intros k Hki Hk. pose proof (Hlock _ Hk). destruct (held (gs i)) eqn:Ei; [by destruct (Hki (Hone _ _ Hk Ei))|].
      split; [done|]. destruct Hlk as [[_ ->]|[(? & _)|(? & _)]]; congruence. }
    split; [|split].
    + intros k c' tk Hc' Hk. case_decide as Eki.
      { subst k. rewrite list_lookup_insert_eq in Hk by (by eapply lookup_lt_Some). by simplify_eq. }
      rewrite list_lookup_insert_ne in Hk by done. destruct (Htasks _ _ _ Hc' Hk) as [Hf [Hs Hj]]. split; [done|].
      split.
      * intros Hh. assert (held (gs k) = true) as Hh' by (unfold knowledge in Hh; repeat case_match; by rewrite ?held_learn in Hh).
        destruct (Hother k Eki Hh') as [Hi' _]. destruct Hsr as [E|(E & _)]; [|congruence]. rewrite E. by apply Hs.
      * intros Hjo. destruct (Hj Hjo) as (id & ? & ?). exists id. auto.
    + intros k. case_decide as Eki; [|intros Hk; by apply (Hother k)]. intros Hg.
      destruct Hlk as [[E ->]|[(_ & ? & _)|(_ & ?)]]; [|done|congruence]. apply (Hlock i). congruence.
    + intros k1 k2. case_decide; case_decide; subst; try done; try (intros; by apply Hone).
      * intros Hg Hk. destruct (Hother k2 ltac:(done) Hk) as [? ?]. pose proof (Hlock _ Hk).
        destruct Hlk as [[? _]|[(? & _)|(? & _)]]; congruence.
      * intros Hk Hg. destruct (Hother k1 ltac:(done) Hk) as [? ?]. pose proof (Hlock _ Hk).
        destruct Hlk as [[? _]|[(? & _)|(? & _)]]; congruence.
Qed.

(** The leader's filter has sixteen bytes and lets [id] join. *)
Definition admits (steering : option bytes) (id : bytes) : Prop :=
  exists filter, steering = Some filter /\ len filter = 16 /\ steers filter id = true.
Lemma admits_base s id : admits s id <-> steers (steering_base s) id = true.
Proof.
  unfold steering_base. split.
  - intros (f & -> & Hl & Hs). cbn. by rewrite Hl.
  - destruct s as [f|]; cbn; [|by intros H%andb_true_iff; destruct H as [H _]; unfold filter_bit in H;
      change (from_be (repeat 0 16)) with 0 in H; rewrite Z.bits_0 in H].
    destruct (len f =? 16) eqn:E; zbool; [by exists f|].
    intros H%andb_true_iff. destruct H as [H _]. unfold filter_bit in H. change (from_be (repeat 0 16)) with 0 in H.
    by rewrite Z.bits_0 in H.
Qed.

(** No joiner is lost.  Handles of one session run any number of calls
    concurrently, [enable_joiner] and the calls that do not write steering data,
    under any interleaving of their requests, with the dataset changing, writes
    refused, answers late or lost.  A leader that answers a read with its
    steering data and replaces it when it accepts a write admits, from then on,
    the joiner of every [enable_joiner] that returned without error, and every
    joiner it admitted at first. *)
Theorem no_joiner_lost prefix steering0 calls events s :
  bytes_ok (default [] steering0) -> Forall (fun c => only_adds c = true) calls ->
  run (initial prefix steering0 calls) events = Some s ->
  (forall i id, calls !! i = Some (CallEnableJoiner id) -> finished s i -> admits (steering (shared s)) id) /\
  (forall id, admits steering0 id -> admits (steering (shared s)) id).
Proof.
  intros Hb Hc Hrun.
  assert (steering_inv steering0 calls s) as (_ & Hold & _ & gs & Htasks & _)
    by (eapply (run_invariant (steering_inv steering0 calls)); [by apply steering_inv_initial|apply steering_inv_step|exact Hrun]).
  split; [|intros id Hid%admits_base; by apply admits_base, Hold].
  intros i id Hi Hfin. destruct (Htasks _ _ _ Hi Hfin) as [[_ Hj] [_ Ht]].
  destruct (Ht (Hj ltac:(done))) as (id' & [= <-] & Hs). by apply admits_base.
Qed.
End Steering.

(** ** Witness *)

Module TwoJoiners.
#[local] Existing Instance static_joiner_handler.
Definition answer (pl : bytes) : CoapMessage := mkCoapMessage Acknowledgement CODE_CHANGED 0 [] [] pl.
Definition status : Choice := Observe (Active 7, false).
Definition prefix : bytes := [0xfd; 0; 0; 0; 0; 0; 0; 1].
Definition id1 : bytes := [0x16; 1; 2; 3; 4; 5; 6; 7].
Definition id2 : bytes := [0x16; 1; 2; 3; 4; 5; 6; 8].
Definition calls : list Call := [CallEnableJoiner id1; CallKeepAliveOp; CallEnableJoiner id2].

(** One round of a task with the lock: the prefix, the read and the write. *)
Definition fetch (i : nat) : list Event :=
  [Act i Proceed; Act i Proceed; Act i (Serve false (answer (DS_TLV_MESH_LOCAL_PREFIX :: 8 :: prefix))); Act i Deliver; Act i Proceed].
Definition read (i : nat) (data : bytes) : list Event := [Act i Proceed; Act i (Serve false (answer data)); Act i Deliver].
Definition write (i : nat) : list Event :=
  [Act i status; Act i Proceed; Act i Proceed; Act i (Serve true (answer [TLV_STATE; 1; 1])); Act i Deliver; Act i Proceed].
Definition filter1 : bytes := match @add_joiner_to_steering_data unit [] id1 with Ok f => f | _ => [] end.
Definition events : list Event :=
  [Act 0 Proceed] ++ fetch 0 ++ [Act 1 (KeepAliveAnswer (Some (inr RcAccept)))] ++ read 0 [] ++ [DatasetChanges prefix] ++ write 0
  ++ [SessionTold; Act 2 Proceed] ++ fetch 2 ++ read 2 (TLV_STEERING_DATA :: 16 :: filter1) ++ write 2.
End TwoJoiners.

Lemma no_joiner_lost_witness :
  exists s, run (JH := static_joiner_handler) (initial TwoJoiners.prefix None TwoJoiners.calls) TwoJoiners.events = Some s /\
    admits (steering (shared s)) TwoJoiners.id1 /\ admits (steering (shared s)) TwoJoiners.id2.
Proof.
  destruct (run (JH := static_joiner_handler) (initial TwoJoiners.prefix None TwoJoiners.calls) TwoJoiners.events) as [s|] eqn:E;
    [|vm_compute in E; discriminate E].
  destruct (no_joiner_lost (JH := static_joiner_handler) TwoJoiners.prefix None TwoJoiners.calls TwoJoiners.events s) as [H _];
    [by_decide|by_decide|exact E|]. exists s. split; [reflexivity|].
  assert (finished (JH := static_joiner_handler) s 0 /\ finished (JH := static_joiner_handler) s 2) as [H0 H2].
  { vm_compute in E. injection E as <-. split; reflexivity. }
  split; [exact (H 0%nat _ eq_refl H0)|exact (H 2%nat _ eq_refl H2)].
Defined.
