(* ===== verification/ClientCache.v ===== *)
(** * ClientCache: the cached mesh-local prefix is current

    Routing to the leader uses a cached mesh-local prefix.  A fetch takes time,
    and the dataset may change while it runs; the generation of the cache is
    what keeps a prefix read before a change from being cached after the session
    was told of it. *)
From stdpp Require Import gmap.
From S2P Require Import Prelude Text Tlv Errors Dataset Coap NetDiag Messages Joiner.
From S2P Require Import Ipv6 Pskc Commissioner SessionDriver Client ClientWorld ClientSteering.

(** What a call knows of the prefix: the generation it read, and what the mesh
    then answered. *)
Inductive Fetch := Idling | Reading (generation : Z) | Fetched (generation : Z) (p : bytes).

Section Cache.
Context {JH : JoinerHandler}.

Definition may (X : Type) (r : Request X) (g : Fetch) : Prop :=
  match r with StorePrefix gen p => g = Fetched gen p | _ => True end.
Definition learn_prefix (o : Outbound) (a : Answer) (g : Fetch) : Fetch :=
  match resource o, g with
  | ActiveGet, Reading gen => match answered_message a ≫= shows_prefix with Some p => Fetched gen p | None => g end
  | _, _ => g
  end.
Definition learns (X : Type) (r : Request X) (x : X) (g : Fetch) : Fetch :=
  match r in Request X return X -> Fetch with
  | ReadPrefix => fun c => Reading (generation c)
  | Submit o => fun a => learn_prefix o a g
  | SubmitWithin o => fun a => learn_prefix o (default None a) g
  | _ => fun _ => g
  end x.

Notation follows := (follows may learns).

(** [p] stores only what it fetched, whatever it knew before. *)
Definition keeps {A} (p : Prog A) : Prop := forall g, follows p g (fun _ _ => True) (fun _ => True).

Lemma fetch_keeps_bind {A B} (p : Prog A) (k : A -> Prog B) : keeps p -> (forall a, keeps (k a)) -> keeps (pbind p k).
Proof. intros Hp Hk g. apply follows_bind. eapply follows_mono; [apply Hp|intros g' a _; apply Hk|done]. Qed.
Lemma keeps_plift {A} (r : result Error A) : keeps (plift r).
Proof. intros g. by apply follows_plift. Qed.
Lemma keeps_finally {A} (p : Prog A) : keeps p -> keeps (finally p UnlockWrites).
Proof. intros Hp g. apply follows_finally. eapply follows_mono; [apply Hp|done|done]. Qed.
Lemma keeps_writing {A} (p : Prog A) : keeps p -> keeps (writing p).
Proof. intros Hp g. split; [done|]. intros x. by apply keeps_finally. Qed.
Lemma keeps_submit o : keeps (Commissioner_submit o).
Proof. apply fetch_keeps_bind; [by intros g; split|]. intros [[|]|]; by intros g. Qed.
Lemma keeps_session : keeps session_id_required.
Proof.
  apply fetch_keeps_bind; [|intros; apply keeps_plift]. apply fetch_keeps_bind; [|by intros ? g]. apply fetch_keeps_bind; [by intros g; split|].
  intros [status b] g. by destruct (_ && _).
Qed.

(** The fetch of the prefix. *)
Lemma follows_prefix g : follows require_mesh_local_prefix g (fun _ _ => True) (fun _ => True).
Proof.
  unfold require_mesh_local_prefix. apply follows_bind. split; [done|]. intros c. cbn [ClientWorld.follows learns].
  destruct (prefix c) as [p|]; [done|]. unfold get_raw_active_dataset, execute_meshcop. do 2 apply follows_bind.
  apply follows_plift; [|done]. intros m Hm. do 2 apply follows_bind. unfold execute, Commissioner_submit.
  apply follows_bind. split; [done|]. intros a. cbn [ClientWorld.follows learns]. unfold learn_prefix.
  rewrite (addressed_resource _ _ _ _ _ (get_addressed _ _ _ Hm)). cbn [operation_resource].
  destruct a as [[e|[m'|]]|]; cbn [answered_message mbind option_bind or_closed ClientWorld.follows]; [done| |done|done].
  unfold successful. cbn [ok_or rbind]. destruct (require_success_response m') as [m''| |] eqn:E; [|done..].
  pose proof (success_same _ _ E) as ->. cbn [plift ClientWorld.follows].
  change (Some m' ≫= shows_prefix) with (shows_prefix m').
  assert (shows_prefix m' = match (let! d := Dataset_from_bytes (payload m') in Dataset_mesh_local_prefix d) with Ok p => p | _ => None end) as ->
    by (unfold shows_prefix, is_success; by rewrite E).
  apply follows_bind. destruct (Dataset_from_bytes (payload m')) as [d| |]; [|done..]. cbn [plift ClientWorld.follows rbind].
  apply follows_bind. destruct (Dataset_mesh_local_prefix d) as [found| |]; [|done..]. cbn [plift ClientWorld.follows].
  apply follows_bind. destruct found as [p|]; [|done]. cbn [ok_or plift ClientWorld.follows].
  apply follows_bind, follows_plift; [|done]. intros b _. destruct (negb _); [done|]. by split.
Qed.
Lemma keeps_leader : keeps leader_aloc.
Proof. intros g. apply follows_bind. eapply follows_mono; [apply follows_prefix|done|done]. Qed.
Lemma keeps_pbbr : keeps primary_bbr_aloc.
Proof. intros g. apply follows_bind. eapply follows_mono; [apply follows_prefix|done|done]. Qed.

Ltac head_of t := match t with ?f _ => head_of f | _ => t end.
Ltac keeps_tac := repeat match goal with
  | |- keeps (pbind _ _) => apply fetch_keeps_bind; [|intros ?]
  | |- keeps (plift _) => apply keeps_plift
  | |- keeps (successful _) => apply keeps_plift
  | |- keeps (Ret _) => by intros g
  | |- keeps (Throw _) => by intros g
  | |- keeps (perform _) => by intros g; split
  | |- keeps (execute _ _ _ _) => apply keeps_submit
  | |- keeps (Commissioner_submit _) => apply keeps_submit
  | |- keeps session_id_required => apply keeps_session
  | |- keeps leader_aloc => apply keeps_leader
  | |- keeps primary_bbr_aloc => apply keeps_pbbr
  | |- keeps (writing _) => apply keeps_writing
  | |- keeps (match _ with _ => _ end) => case_match
  | |- keeps (execute_meshcop _ _) => unfold execute_meshcop
  | |- keeps (execute_state_operation _ _ _) => unfold execute_state_operation
  | |- keeps (execute_proxied _ _ _) => unfold execute_proxied
  | |- keeps (execute_proxied_command _ _ _) => unfold execute_proxied_command; cbv zeta
  | |- keeps ?p => let h := head_of p in unfold h; cbv zeta
  end.

Lemma keeps_call c : keeps (call_prog c).
Proof. destruct c; cbn [call_prog]; keeps_tac. Qed.

(** ** The invariant *)

(** A call's knowledge, its last answer included, is true of the mesh unless the
    session was told of a change since, or is about to be. *)
Definition known (t : Task) (g : Fetch) : Fetch :=
  match t with Waiting o _ (Some a) _ => learn_prefix o a g | _ => g end.
Definition fetch_true (g : Fetch) (w : Shared) : Prop :=
  match g with
  | Idling => True
  | Reading gen => gen <= invalidations w
  | Fetched gen p => gen <= invalidations w /\ (gen = invalidations w -> change_pending w = true \/ p = mesh_prefix w)
  end.
Definition kept (p : Prog unit) (g : Fetch) : Prop := follows p g (fun _ _ => True) (fun _ => True).
Definition fetch_follows (g : Fetch) (t : Task) : Prop :=
  match t with
  | Running p => kept p g
  | Waiting o late _ k => (forall a, kept (k a) (learn_prefix o a g)) /\ (forall p, late = Some p -> kept p (learn_prefix o None g))
  end.

Definition cache_true (w : Shared) : Prop :=
  0 <= invalidations w /\ generation (cache w) = invalidations w /\
  forall p, prefix (cache w) = Some p -> change_pending w = true \/ p = mesh_prefix w.
Definition fetch_inv (g : Fetch) (w : Shared) (t : Task) : Prop := fetch_follows g t /\ fetch_true (known t g) w.

Definition cache_inv (s : State) : Prop :=
  0 <= invalidations (shared s) /\
  (invalidations (shared s) < 2 ^ 64 ->
   cache_true (shared s) /\ forall i t, tasks s !! i = Some t -> exists g, fetch_inv g (shared s) t).

(** A step of a task leaves the mesh and the count alone. *)
Definition same_mesh (w w' : Shared) : Prop :=
  invalidations w' = invalidations w /\ mesh_prefix w' = mesh_prefix w /\ change_pending w' = change_pending w.
Lemma fetch_true_same g w w' : same_mesh w w' -> fetch_true g w -> fetch_true g w'.
Proof. intros (E1 & E2 & E3). destruct g; cbn; rewrite ?E1, ?E2, ?E3; done. Qed.

Lemma learn_fail o a b g w : answered_message a = None ->
  fetch_true (match b with Some b => learn_prefix o b g | None => g end) w -> fetch_true (learn_prefix o a g) w.
Proof.
  intros Ha. unfold learn_prefix. rewrite Ha. destruct b as [b|]; destruct (resource o), g; try done.
  cbn. destruct (_ ≫= _); [by intros []|done].
Qed.

Lemma serve_true o b m g w w' : cache_true w -> fetch_true g w -> serve w o b m = Some w' ->
  same_mesh w w' /\ cache w' = cache w /\ fetch_true (learn_prefix o (Some (inr (Some m))) g) w'.
Proof.
  intros Hc Hg. unfold serve, learn_prefix. destruct (negb _); [done|]. cbn [answered_message].
  change (Some m ≫= shows_prefix) with (shows_prefix m). destruct (resource o).
  - intros Hs. assert (w' = w) as ->; [|done]. destruct (shows_steering m); [case_bool_decide; [|done]|]; by injection Hs.
  - destruct b; [by intros [= <-]|]. destruct (accepted m); [done|]. by intros [= <-].
  - destruct (shows_prefix m) as [p|]; [|intros [= <-]; by destruct g]. case_bool_decide as E; [|done]. intros [= <-].
    split; [done|]. split; [done|]. destruct g; [done| |done]. cbn in *. split; [done|]. by right.
  - by intros [= <-].
Qed.

Lemma task_step_count w t c w' t' : task_step w t c = Some (w', t') -> invalidations w' = invalidations w.
Proof.
  destruct t as [[| | |X r k]|o late ans k]; cbn [task_step]; [done..| |].
  - destruct r; cbn [start local]; try (destruct (write_lock w); [done|]); try (destruct c; try done); by intros [= <- <-].
  - destruct c; try done; destruct ans; try done.
    all: try (destruct (expect_response o); try done; []).
    all: try (destruct late; try done; []).
    all: try (by intros [= <- <-]).
    unfold serve. repeat (case_match; try done); intros; by simplify_eq.
Qed.

Lemma task_step_true g w t c w' t' : cache_true w -> fetch_inv g w t -> task_step w t c = Some (w', t') ->
  same_mesh w w' /\ cache_true w' /\ exists g', fetch_inv g' w' t'.
Proof.
  intros Hc [Hf Ht]. destruct t as [p|o late ans k]; cbn [task_step].
  - destruct p as [| | |X r k]; [done..|]. destruct Hf as [Ha Hk].
    destruct r; cbn [start local]; intros Hst;
      try (destruct c; try done; injection Hst as <- <-; split; [done|]; split; [done|]; eexists; split; [apply Hk|exact Ht]).
    + injection Hst as <- <-. split; [done|]. split; [done|]. eexists. split; [apply Hk|]. cbn.
      destruct Hc as (_ & E & _). rewrite E. done.
    + injection Hst as <- <-. split; [done|]. split; [|eexists; split; [exact (Hk tt)|exact Ht]].
      cbn in Ha, Ht. subst g. destruct Hc as (H0 & E & Hp). destruct Ht as [_ Ht]. split; [done|]. unfold store_prefix. cbn.
      destruct (_ =? _) eqn:Eg; cbn; [|by split]. zbool. split; [done|]. intros p [= <-]. apply Ht. congruence.
    + injection Hst as <- <-. split; [done|]. split; [done|]. exists g. split; [|exact Ht]. split; [apply Hk|done].
    + injection Hst as <- <-. split; [done|]. split; [done|]. exists g. split; [|exact Ht].
      split; [intros a; apply (Hk (Some a))|]. intros p [= <-]. apply (Hk None).
    + destruct (write_lock w); [done|]. injection Hst as <- <-. split; [done|]. split; [done|]. eexists. split; [exact (Hk tt)|exact Ht].
    + injection Hst as <- <-. split; [done|]. split; [done|]. eexists. split; [exact (Hk tt)|exact Ht].
  - destruct Hf as (Hk & Hl). intros Hst.
    assert (forall a, answered_message a = None -> fetch_true (learn_prefix o a g) w) as Hfail.
    { intros a Hna. apply (learn_fail o a ans g w Hna). destruct ans; apply Ht. }
    destruct c; try done.
    + destruct ans; [done|]. destruct (expect_response o); [|done]. destruct (serve _ _ _ _) as [w1|] eqn:Hs; [|done].
      injection Hst as <- <-. destruct (serve_true _ _ _ _ _ _ Hc Ht Hs) as (Hm & Ecache & Htr). split; [done|].
      destruct Hm as (E1 & E2 & E3). split; [unfold cache_true; by rewrite Ecache, E1, E2, E3|]. exists g. by split.
    + destruct ans; [done|]. destruct (expect_response o); [done|]. injection Hst as <- <-. split; [done|]. split; [done|].
      exists g. split; [done|]. by apply Hfail.
    + destruct ans as [a|]; [|done]. injection Hst as <- <-. split; [done|]. split; [done|].
      exists (learn_prefix o a g). split; [apply Hk|exact Ht].
    + injection Hst as <- <-. split; [done|]. split; [done|]. eexists. split; [apply Hk|]. apply Hfail. by destruct a.
    + destruct late; [|done]. injection Hst as <- <-. split; [done|]. split; [done|]. eexists. split; [by apply Hl|]. by apply Hfail.
Qed.

Lemma cache_inv_initial p steering0 calls : cache_inv (initial p steering0 calls).
Proof.
  split; [done|]. intros _. split; [by split_and!|]. intros i t. cbn. rewrite list_lookup_fmap.
  destruct (calls !! i) as [c|]; [|done]. intros [= <-]. exists Idling. split; [apply keeps_call|done].
Qed.

Lemma cache_inv_step s e s' : cache_inv s -> exec s e = Some s' -> cache_inv s'.
Proof.
  intros [H0 Hinv]. destruct e as [i c|p|]; cbn.
  - destruct (tasks s !! i) as [t|] eqn:Hi; [|done]. destruct (task_step _ _ _) as [[w t']|] eqn:Hst; [|done]. intros [= <-].
    destruct (Z.lt_ge_cases (invalidations (shared s)) (2 ^ 64)) as [Hb|Hb].
    + destruct (Hinv Hb) as [Hc Ht]. destruct (Ht _ _ Hi) as [g Hg].
      destruct (task_step_true _ _ _ _ _ _ Hc Hg Hst) as (Hm & Hc' & g' & Hg'). split; [apply Hc'|]. intros _. split; [done|].
      cbn [tasks]. intros k tk Hk. destruct (decide (k = i)) as [->|Hne].
      * rewrite list_lookup_insert_eq in Hk by (by eapply lookup_lt_Some). injection Hk as <-. by exists g'.
      * rewrite list_lookup_insert_ne in Hk by done. destruct (Ht _ _ Hk) as (gk & Hf & Htr). exists gk. split; [done|].
        by eapply fetch_true_same.
    + assert (invalidations w = invalidations (shared s)) as E by by eapply task_step_count. split; cbn; lia.
  - intros [= <-]. split; [done|]. intros Hb. destruct (Hinv Hb) as [(? & ? & ?) Ht]. split.
    + split; [done|]. split; [done|]. intros; by left.
    + intros i t Hi. destruct (Ht i t Hi) as (g & Hf & Htr). exists g. split; [done|].
      destruct (known t g); cbn in *; [done|done|]. split; [apply Htr|]. by left.
  - intros [= <-]. split; [cbn; lia|]. cbn. intros Hb. destruct (Hinv ltac:(lia)) as [(? & E & ?) Ht]. split.
    + split; [cbn; lia|]. cbn. rewrite E. unfold wrapping_add, wrap. split; [|done]. rewrite Z.mod_small; lia.
    + intros i t Hi. destruct (Ht i t Hi) as (g & Hf & Htr). exists g. split; [done|].
      destruct (known t g); cbn in *; [done|lia|]. destruct Htr. split; [lia|]. intros ->. lia.
Qed.

(** The cached prefix is current.  Whatever the handles of a session do,
    and however their requests interleave with changes of the dataset, a cached
    mesh-local prefix is the one of the mesh, unless the mesh changed and the
    session is still to be told.  In particular a fetch that raced a change never
    caches what it read before it.  The generation has 64 bits, so this is for a
    session told of fewer than [2 ^ 64] changes. *)
Theorem cached_prefix_current prefix0 steering0 calls events s p :
  run (initial prefix0 steering0 calls) events = Some s -> invalidations (shared s) < 2 ^ 64 ->
  prefix (cache (shared s)) = Some p -> change_pending (shared s) = false -> p = mesh_prefix (shared s).
Proof.
  intros Hrun Hb Hp Hc.
  assert (cache_inv s) as [_ Hinv]
    by (eapply (run_invariant cache_inv); [apply cache_inv_initial|apply cache_inv_step|exact Hrun]).
  destruct (Hinv Hb) as [(_ & _ & Hcur) _]. destruct (Hcur p Hp); [congruence|done].
Qed.
End Cache.

(** ** Witness *)

(** The first call reads the old prefix, which the change overtakes; the second
    caches the new one. *)
Module Race.
Definition old_prefix : bytes := [0xfd; 0; 0; 0; 0; 0; 0; 1].
Definition new_prefix : bytes := [0xfd; 0; 0; 0; 0; 0; 0; 2].
Definition answer (p : bytes) : Choice :=
  Serve false (mkCoapMessage Acknowledgement CODE_CHANGED 0 [] [] (DS_TLV_MESH_LOCAL_PREFIX :: 8 :: p)).
Definition calls : list Call := [CallGetCommissionerDataset 0; CallGetCommissionerDataset 0].
Definition events : list Event :=
  [Act 0 Proceed; Act 0 Proceed; Act 0 (answer old_prefix); DatasetChanges new_prefix; SessionTold;
   Act 0 Deliver; Act 0 Proceed; Act 0 Proceed; Act 0 (Fail None); Act 1 Proceed; Act 1 Proceed; Act 1 (answer new_prefix); Act 1 Deliver; Act 1 Proceed;
   Act 1 Proceed; Act 1 (Fail None)].
End Race.

Lemma cached_prefix_current_witness :
  exists s p, run (JH := static_joiner_handler) (initial Race.old_prefix None Race.calls) Race.events = Some s /\
    prefix (cache (shared s)) = Some p /\ p = mesh_prefix (shared s) /\ p = Race.new_prefix.
Proof.
  destruct (run (JH := static_joiner_handler) (initial Race.old_prefix None Race.calls) Race.events) as [s|] eqn:E;
    [|vm_compute in E; discriminate E].
  assert (cache (shared s) = mkPrefixCache (Some Race.new_prefix) 1 /\ change_pending (shared s) = false /\ invalidations (shared s) = 1)
    as (Hc & Hn & Hi) by (vm_compute in E; injection E as <-; repeat split).
  exists s, Race.new_prefix. rewrite Hc. split; [reflexivity|]. split; [reflexivity|]. split; [|reflexivity].
  apply (cached_prefix_current (JH := static_joiner_handler) Race.old_prefix None Race.calls Race.events s Race.new_prefix E);
    [rewrite Hi; lia|by rewrite Hc|exact Hn].
Defined.
