(* ===== verification/ClientSession.v ===== *)
(** * ClientSession: operations that need the commissioner role

    What the management operations of a handle do when the session is not, or
    no longer, active: they fail before anything is sent. *)
From stdpp Require Import gmap.
From S2P Require Import Prelude Text Tlv Errors Dataset Coap NetDiag Messages Joiner.
From S2P Require Import Ipv6 Pskc Commissioner SessionDriver Client ClientWorld ClientSteering.

Section Session.
Context {JH : JoinerHandler}.

Definition needs_session (c : Call) : bool :=
  match c with
  | CallSetActiveDataset _ | CallSetPendingDataset _ | CallSetSecurePendingDataset _ _ | CallSetCommissionerDataset _
  | CallEnableAllJoiners _ | CallSetBbrDataset _ | CallAnnounceBegin _ _ _ _ | CallPanIdQuery _ _ _ | CallEnergyScan _ _ _ _ _
  | CallRegisterMulticastListener _ _ | CallReenroll _ | CallDomainReset _ | CallMigrate _ _ | CallDiagnosticGet _ _
  | CallDiagnosticReset _ _ | CallGetDiagnostics _ _ => true
  | _ => false
  end.

(** The watched status says that the commissioner is active. *)
Definition is_active (s : SessionStatus * bool) : bool :=
  match s with (Active _, false) => true | _ => false end.

(** The protocol: nothing is submitted before an active session was seen. *)
Definition gated (X : Type) (r : Request X) (g : bool) : Prop :=
  match r with Submit _ | SubmitWithin _ | CallPetition | CallKeepAlive | CallResign | SendHandler _ => g = true | _ => True end.
Definition sees (X : Type) (r : Request X) (x : X) (g : bool) : bool :=
  match r in Request X return X -> bool with Watch => fun s => g || is_active s | _ => fun _ => g end x.
Notation follows := (follows gated sees).

Lemma follows_active {A} (p : Prog A) (Q : bool -> A -> Prop) (R : bool -> Prop) :
  (forall a, Q true a) -> R true -> follows p true Q R.
Proof.
  intros HQ HR. induction p as [| | |X r k IH]; cbn; [done..|]. split; [by destruct r|]. intros x.
  assert (sees X r x true = true) as -> by (by destruct r). apply IH.
Qed.

Lemma follows_session {A} (k : Z -> Prog A) (R : bool -> Prop) : R true -> R false ->
  follows (pbind session_id_required k) false (fun g _ => g = true) R.
Proof.
  intros Ht Hf. apply follows_bind. cbn. split; [done|]. intros [status stopped]. cbn.
  destruct status, stopped; cbn; try done; apply follows_active; done.
Qed.
Lemma follows_checked {A B} (r : result Error A) (k : A -> Prog B) (Q : bool -> B -> Prop) (R : bool -> Prop) g : R g ->
  (forall a, follows (k a) g Q R) -> follows (pbind (plift r) k) g Q R.
Proof. intros HR Hk. apply follows_bind, follows_plift; auto. Qed.

Lemma follows_write d : follows (set_commissioner_dataset d) false (fun g _ => g = true) (fun _ => True).
Proof.
  unfold set_commissioner_dataset, writing. split; [done|]. intros x. apply follows_finally. cbn [sees gated].
  eapply follows_mono; [by apply (follows_session _ (fun _ => True))|by intros g a ->|done].
Qed.

Lemma follows_call c : needs_session c = true -> follows (call_prog c) false (fun g _ => g = true) (fun _ => True).
Proof.
  destruct c; intros Hc; try discriminate Hc; cbn [call_prog];
    lazymatch goal with
    | |- ClientWorld.follows _ _ (discard _) _ _ _ =>
        unfold discard; apply follows_bind; eapply follows_mono; [|intros g' a Hg; exact Hg|intros ? Hr; exact Hr]
    | _ => idtac
    end;
    try apply follows_write; repeat (apply follows_checked; [done|intros ?]); by apply follows_session.
Qed.

Definition gate_inv (active : bool) (s : State) : Prop :=
  Forall (fun t => match t with
                   | Running p => follows p active (fun g _ => g = true) (fun _ => True)
                   | Waiting _ _ _ _ => active = true
                   end) (tasks s).

Definition observes_active (e : Event) : bool :=
  match e with Act _ (Observe s) => is_active s | _ => false end.

Lemma gate_inv_step s e s' : gate_inv false s -> observes_active e = false -> exec s e = Some s' -> gate_inv false s'.
Proof.
  intros Hinv He. destruct e as [i c|p|]; cbn; [|by intros [= <-]..].
  destruct (tasks s !! i) as [t|] eqn:Hi; [|done]. destruct (task_step _ _ _) as [[w t']|] eqn:Hst; [|done]. intros [= <-].
  apply Forall_insert; [done|]. pose proof (Forall_lookup_1 _ _ _ _ Hinv Hi) as Ht. clear Hinv Hi.
  destruct t as [p|]; [|done]. destruct p as [| | |X r k]; [done..|]. destruct Ht as [Ha Hk].
  destruct r; cbn [task_step start local] in Hst; try discriminate Ha.
  - destruct c as [|st| | | | | | | | |]; try discriminate Hst. injection Hst as <- <-. cbn in He. specialize (Hk st). cbn in Hk.
    by rewrite He in Hk.
  - injection Hst as <- <-. apply Hk.
  - injection Hst as <- <-. apply Hk.
  - destruct (write_lock _); [done|]. injection Hst as <- <-. apply Hk.
  - injection Hst as <- <-. apply Hk.
Qed.

End Session.

Module Inactive.
Definition calls : list Call := [CallPanIdQuery 1 2 []; CallSetActiveDataset Dataset_default; CallEnableAllJoiners true].
Definition events : list Event := [Act 2 Proceed; Act 0 (Observe (Idle, false)); Act 2 (Observe (Active 3, true)); Act 2 Proceed].
End Inactive.

