(* ===== verification/System.v ===== *)
(** * System: the handles and the session task together

    [Client] models a method of a handle as a program, [SessionDriver] the task
    that serves it.  Here they run together: handles send commands down the
    channel, the task takes turns, and what it replies wakes the callers.  The
    transition system [ClientWorld] is the abstraction of it in which a request
    is simply answered or fails: every step of the whole is some steps of it, so
    what [ClientSteering] and [ClientCache] prove of the calls holds of calls
    that are served by the real task, over any datagrams.

    The mesh is part of the state, as in [ClientWorld]: a turn of the task in
    which a caller gets a response is one in which the mesh may give it. *)
From stdpp Require Import gmap.
From S2P Require Import Prelude Text Tlv Errors Dataset Coap NetDiag Messages Joiner.
From S2P Require Import Ipv6 Pskc Commissioner SessionDriver Client ClientWorld.
From S2P Require Import SessionCore SessionInvariant SessionClaims SessionProgress SessionLiveness SessionAnswers.

#[export] Instance prefix_cache_eq_dec : EqDecision PrefixCache.
Proof. solve_decision. Defined.

Section System.
Context {JH : JoinerHandler} {OR : OsRng} {OL : OsRngLaws} {JS : JoinerSessions} {JL : JoinerSessionsLaws}.
Context (config : CommissionerConfig) (border_agent_ip : string).

Notation handle_wake := (@handle_wake _ _ _ config border_agent_ip Error).
Notation prog := (Prog unit).

(** ** The state *)

(** A call between two of its requests, or waiting for a reply channel.  An
    exchange has the identity that withdraws it, and [late] is what follows when
    a time limit runs out first. *)
Inductive Caller :=
  | Going (p : prog)
  | AwaitExchange (r : nat) (id : Z) (o : Outbound) (late : option prog) (k : ClientWorld.Answer -> prog)
  | AwaitPetition (r : nat) (k : option (Error + PetitionResponse) -> prog)
  | AwaitKeepAlive (r : nat) (k : option (Error + ResultCode) -> prog)
  | AwaitResign (r : nat) (k : option (Error + unit) -> prog).

(** The task and whether it still runs, the channel to it, what each reply
    channel made so far is for, the source of exchange identities, what the
    handles share (with the mesh), and the calls. *)
Record System := mkSystem {
  task : SessionDriver.State;
  running : bool;
  channel : list Command;
  kinds : list Kind;
  next_exchange_id : Z;
  outside : Shared;
  callers : list Caller }.

Definition set_caller (i : nat) (c : Caller) (s : System) : System :=
  mkSystem (task s) (running s) (channel s) (kinds s) (next_exchange_id s) (outside s) (<[i := c]> (callers s)).
Definition set_outside (w : Shared) (s : System) : System :=
  mkSystem (task s) (running s) (channel s) (kinds s) (next_exchange_id s) w (callers s).
(** [self.commands.send], which fails once the task is gone. *)
Definition send_command (c : Command) (s : System) : System :=
  mkSystem (task s) (running s) (if running s then channel s ++ [c] else channel s) (kinds s) (next_exchange_id s)
    (outside s) (callers s).

(** [oneshot::channel()], and the command that carries its sender. *)
Definition open_reply (kd : Kind) (c : Command) (s : System) : System :=
  mkSystem (task s) (running s) (channel s ++ [c]) (kinds s ++ [kd]) (next_exchange_id s) (outside s) (callers s).
Definition fresh_reply (s : System) : nat := length (kinds s).
(** [next_exchange_id.fetch_add(1)]. *)
Definition take_exchange_id (s : System) : System :=
  mkSystem (task s) (running s) (channel s) (kinds s) (wrapping_add 64 (next_exchange_id s) 1) (outside s) (callers s).

(** ** Callers *)

Definition submit_exchange (i : nat) (o : Outbound) (late : option prog) (k : ClientWorld.Answer -> prog) (s : System) : System :=
  let id := next_exchange_id s in
  let r := fresh_reply s in
  let s := take_exchange_id s in
  if running s then set_caller i (AwaitExchange r id o late k) (open_reply (KExchange o) (CmdExchange id o r) s)
  else set_caller i (Going (k None)) s.
Definition call {A} (i : nat) (kd : Kind) (c : nat -> Command) (await : nat -> (option A -> prog) -> Caller)
    (k : option A -> prog) (s : System) : System :=
  let r := fresh_reply s in
  if running s then set_caller i (await r k) (open_reply kd (c r) s) else set_caller i (Going (k None)) s.

(** The next request of caller [i]. *)
Definition act (i : nat) {X} (r : Request X) : (X -> prog) -> System -> option System :=
  match r in Request X return (X -> prog) -> System -> option System with
  | Watch => fun k s => Some (set_caller i (Going (k (status (driver (task s)), negb (running s)))) s)
  | ReadPrefix => fun k s => Some (set_caller i (Going (k (cache (outside s)))) s)
  | StorePrefix g p => fun k s =>
      Some (set_caller i (Going (k tt)) (set_outside (with_cache (store_prefix g p (cache (outside s))) (outside s)) s))
  | Submit o => fun k s => Some (submit_exchange i o None k s)
  | SubmitWithin o => fun k s => Some (submit_exchange i o (Some (k None)) (fun a => k (Some a)) s)
  | CallPetition => fun k s => Some (call i KPetition CmdPetition AwaitPetition k s)
  | CallKeepAlive => fun k s => Some (call i KKeepAlive CmdKeepAlive AwaitKeepAlive k s)
  | CallResign => fun k s => Some (call i KResign CmdResign AwaitResign k s)
  | SendHandler h => fun k s => Some (set_caller i (Going (k (running s))) (send_command (CmdSetJoinerHandler h) s))
  | LockWrites => fun k s =>
      if write_lock (outside s) then None
      else Some (set_caller i (Going (k tt)) (set_outside (with_lock true (outside s)) s))
  | UnlockWrites => fun k s => Some (set_caller i (Going (k tt)) (set_outside (with_lock false (outside s)) s))
  end.

(** What a reply channel was sent. *)
Fixpoint answer_of (r : nat) (l : list Effect) : option SessionDriver.Answer :=
  match l with
  | [] => None
  | Replied r' a :: l => if (r =? r')%nat then Some a else answer_of r l
  | _ :: l => answer_of r l
  end.
(** Awaiting the receiver: the answer, or that its sender is gone. *)
Definition receive {A} (r : nat) (decode : SessionDriver.Answer -> option A) (s : System) : option (option A) :=
  match answer_of r (log (task s)) with
  | Some a => Some (decode a)
  | None => if running s then None else Some None
  end.

(** The guard of an exchange withdraws it however its caller leaves. *)
Definition resume (i : nat) (c : Caller) (s : System) : option System :=
  match c with
  | Going (Do r k) => act i r k s
  | Going _ => None
  | AwaitExchange r id _ _ k =>
      match receive r (fun a => match a with AnExchange x => Some x | _ => None end) s with
      | Some a => Some (set_caller i (Going (k a)) (send_command (CmdWithdraw id) s))
      | None => None
      end
  | AwaitPetition r k =>
      match receive r (fun a => match a with AnPetition x => Some x | _ => None end) s with
      | Some a => Some (set_caller i (Going (k a)) s)
      | None => None
      end
  | AwaitKeepAlive r k =>
      match receive r (fun a => match a with AnKeepAlive x => Some x | _ => None end) s with
      | Some a => Some (set_caller i (Going (k a)) s)
      | None => None
      end
  | AwaitResign r k =>
      match receive r (fun a => match a with AnResign x => Some x | _ => None end) s with
      | Some a => Some (set_caller i (Going (k a)) s)
      | None => None
      end
  end.
Definition expire (i : nat) (c : Caller) (s : System) : option System :=
  match c with
  | AwaitExchange _ id _ (Some p) _ => Some (set_caller i (Going p) (send_command (CmdWithdraw id) s))
  | _ => None
  end.

(** ** Turns of the task *)

Inductive Turn := TurnCommand | TurnDropped | TurnReceived (received : Error + bytes) | TurnTimer.

Definition returned (c : Caller) : bool := match c with Going (Do _ _) => false | Going _ => true | _ => false end.
(** What wakes the task, and the channel then.  Once all calls have returned the
    handles may be dropped, which closes an empty channel. *)
Definition turn_wake (t : Turn) (s : System) : option (Wake * list Command) :=
  match t with
  | TurnCommand => match channel s with c :: l => Some (WakeCommand (Some c), l) | [] => None end
  | TurnDropped => if is_empty (channel s) && forallb returned (callers s) then Some (WakeCommand None, []) else None
  | TurnReceived r => Some (WakeReceived r, channel s)
  | TurnTimer => Some (WakeTimer, channel s)
  end.

Definition awaits (r : nat) (c : Caller) : option Outbound :=
  match c with AwaitExchange r' _ o _ _ => if (r =? r')%nat then Some o else None | _ => None end.
Fixpoint outbound_of (r : nat) (cs : list Caller) : option Outbound :=
  match cs with
  | [] => None
  | c :: cs => match awaits r c with Some o => Some o | None => outbound_of r cs end
  end.

(** The responses among [new] that reach a caller, given by the mesh one after
    the other. *)
Fixpoint mesh_gives (applied : bool) (cs : list Caller) (past new : list Effect) (w : Shared) : option Shared :=
  match new with
  | [] => Some w
  | e :: new =>
      match (match e with
             | Replied r (AnExchange (inr (Some m))) =>
                 match answer_of r past, outbound_of r cs with
                 | None, Some o => serve w o applied m
                 | _, _ => Some w
                 end
             | _ => Some w
             end) with
      | Some w => mesh_gives applied cs (past ++ [e]) new w
      | None => None
      end
  end.

(** The session was told of a change [n] times. *)
Definition tell (n : nat) (w : Shared) : Shared :=
  mkShared (cache w) (write_lock w) (invalidations w + Z.of_nat n) (ClientWorld.mesh_prefix w)
    (match n with O => change_pending w | _ => false end) (steering w).

Definition load (dt : Z) (s : System) : SessionDriver.State := with_mesh_prefix (cache (outside s)) (advance dt (task s)).

(** A turn of the loop of [run]: the task is gone when its session is closed,
    and the channel with it. *)
Definition turn (dt : Z) (t : Turn) (applied : bool) (n : nat) (s : System) : option System :=
  if negb (running s) then None
  else if is_closed (driver (task s)) then
    Some (mkSystem (task s) false [] (kinds s) (next_exchange_id s) (outside s) (callers s))
  else
    match turn_wake t s with
    | None => None
    | Some (w, channel) =>
        let s0 := load dt s in
        if (0 <=? dt) && wake_enabled s0 w then
          let s1 := (handle_wake w s0).1 in
          match mesh_gives applied (callers s) (log s0) (drop (length (log s0)) (log s1)) (outside s) with
          | None => None
          | Some around =>
              if bool_decide (SessionDriver.mesh_prefix s1 =
                              Nat.iter n invalidate_mesh_local_prefix (SessionDriver.mesh_prefix s0)) then
                Some (mkSystem s1 true channel (kinds s) (next_exchange_id s)
                        (tell n (with_cache (SessionDriver.mesh_prefix s1) around)) (callers s))
              else None
          end
        else None
    end.

(** ** Moves *)

Inductive Move :=
  | Resume (i : nat)
  | Late (i : nat)
  | TakeTurn (dt : Z) (t : Turn) (applied : bool) (n : nat)
  | MeshChanges (p : bytes).

Definition move (s : System) (m : Move) : option System :=
  match m with
  | Resume i => match callers s !! i with Some c => resume i c s | None => None end
  | Late i => match callers s !! i with Some c => expire i c s | None => None end
  | TakeTurn dt t applied n => turn dt t applied n s
  | MeshChanges p =>
      let w := outside s in
      Some (set_outside (mkShared (cache w) (write_lock w) (invalidations w) p true (steering w)) s)
  end.
Fixpoint moves (s : System) (ms : list Move) : option System :=
  match ms with
  | [] => Some s
  | m :: ms => match move s m with Some s' => moves s' ms | None => None end
  end.

(** [spawn] with [calls] made by as many handles. *)
Definition spawned (s0 : SessionDriver.State) (prefix : bytes) (steering : option bytes) (calls : list Call) : System :=
  mkSystem s0 true [] [] 0 (mkShared PrefixCache_default false 0 prefix false steering)
    (map (fun c => Going (call_prog c)) calls).

(** ** The abstraction *)

(** A caller's exchange as [ClientWorld] sees it: answered once the mesh answered
    it, or once it was sent when no response is expected. *)
Definition answered (r : nat) (l : list Effect) : option ClientWorld.Answer :=
  match answer_of r l with Some (AnExchange (inr x)) => Some (Some (inr x)) | _ => None end.
Definition caller_task (l : list Effect) (c : Caller) : Task :=
  match c with
  | Going p => Running p
  | AwaitExchange r _ o late k => Waiting o late (answered r l) k
  | AwaitPetition _ k => Running (Do CallPetition k)
  | AwaitKeepAlive _ k => Running (Do CallKeepAlive k)
  | AwaitResign _ k => Running (Do CallResign k)
  end.
Definition abstract (s : System) : ClientWorld.State :=
  mkState (outside s) (map (caller_task (log (task s))) (callers s)).

Notation steps := ClientWorld.run.
Lemma steps_app s es es' s1 : steps s es = Some s1 -> steps s (es ++ es') = steps s1 es'.
Proof.
  revert s. induction es as [|e es IH]; intros s; cbn; [by intros [= ->]|]. destruct (exec s e); [apply IH|done].
Qed.
Definition reaches (s s' : ClientWorld.State) : Prop := exists es, steps s es = Some s'.
#[global] Instance reaches_refl : Reflexive reaches.
Proof. intros s. by exists []. Qed.
#[global] Instance reaches_trans : Transitive reaches.
Proof. intros s1 s2 s3 [es1 H1] [es2 H2]. exists (es1 ++ es2). by erewrite steps_app. Qed.
Lemma reaches_step s e s' : exec s e = Some s' -> reaches s s'.
Proof. intros H. exists [e]. cbn. by rewrite H. Qed.

(** A step of one task. *)
Lemma reaches_act w ts i t c w' t' : ts !! i = Some t -> task_step w t c = Some (w', t') ->
  reaches (mkState w ts) (mkState w' (<[i := t']> ts)).
Proof. intros Hi Ht. apply (reaches_step _ (Act i c)). cbn. by rewrite Hi, Ht. Qed.
Lemma map_insert {A B} (f : A -> B) i x (l : list A) : map f (<[i := x]> l) = <[i := f x]> (map f l).
Proof. revert i. induction l as [|y l IH]; intros [|i]; cbn; [done..|]. by rewrite IH. Qed.
Lemma map_lookup {A B} (f : A -> B) (l : list A) i x : l !! i = Some x -> map f l !! i = Some (f x).
Proof. intros H. change (map f l) with (f <$> l). by rewrite list_lookup_fmap, H. Qed.

(** ** What is known of the callers *)

Definition kind_of (s : System) (r : nat) (k : Kind) : Prop := kinds s !! r = Some k.

Record coherent (s : System) : Prop := {
  h_books : books (kind_of s) [] (task s);
  h_channel : Forall (fun c => forall r k, (r, k) ∈ command_kinds c -> kind_of s r k) (channel s);
  h_kinds : forall i r id o late k, callers s !! i = Some (AwaitExchange r id o late k) -> kind_of s r (KExchange o);
  h_distinct : forall i j r id o late k id' o' late' k', callers s !! i = Some (AwaitExchange r id o late k) ->
    callers s !! j = Some (AwaitExchange r id' o' late' k') -> i = j }.

Lemma known_mono (K K' : nat -> Kind -> Prop) L s : (forall r k, K r k -> K' r k) -> books K L s -> books K' L s.
Proof.
  intros HK [B1 B2 B3 B4].
  assert (forall c, known K c -> known K' c) as Hk by (intros []; cbn; [intros [o ?]; exists o; auto|auto|eauto..]).
  split; [done|..].
  - eapply Forall_impl; [exact B2|]. intros p. unfold known_pending. destruct (completion p) as [id r|r|x|x];
      [|exact (Hk (CPetition r))|exact (Hk (CKeepAlive x))|exact (Hk (CResign x))].
    intros (o & mid & tok & H1 & H2). exists o, mid, tok. split; auto.
  - eapply Forall_impl; [exact B3|]. intros [o c]. unfold known_queued. cbn. destruct c as [id r|r|x|x];
      [apply HK|exact (Hk (CPetition r))|exact (Hk (CKeepAlive x))|exact (Hk (CResign x))].
  - intros r a Hr. specialize (B4 r a Hr). destruct a; cbn in *; auto. destruct B4 as (o & H1 & H2). exists o. auto.
Qed.

(** ** Turns *)

Lemma answer_of_snoc r l e : answer_of r (l ++ [e]) = match answer_of r l with Some a => Some a | None => answer_of r [e] end.
Proof.
  induction l as [|e' l IH]; cbn [answer_of app]; [done|]. destruct e'; try exact IH. by destruct (_ =? _)%nat.
Qed.
Lemma outbound_of_Some r cs o : outbound_of r cs = Some o -> exists i id late k, cs !! i = Some (AwaitExchange r id o late k).
Proof.
  induction cs as [|c cs IH]; cbn [outbound_of]; [done|]. destruct (awaits r c) as [o'|] eqn:Hc.
  - intros [= ->]. destruct c as [|r' id o' late k| | |]; cbn in Hc; try done. destruct (Nat.eqb_spec r r') as [->|]; [|done].
    injection Hc as ->. by exists 0%nat, id, late, k.
  - intros H. destruct (IH H) as (i & id & late & k & Hi). by exists (S i), id, late, k.
Qed.
Lemma outbound_of_None r cs i id o late k : outbound_of r cs = None -> cs !! i <> Some (AwaitExchange r id o late k).
Proof.
  revert i. induction cs as [|c cs IH]; intros i; cbn [outbound_of]; [done|]. destruct (awaits r c) as [o'|] eqn:Hc; [done|].
  destruct i as [|i]; [|by apply IH]. intros _ [= ->]. cbn in Hc. by rewrite Nat.eqb_refl in Hc.
Qed.

Lemma serve_cache w o b m w' : serve w o b m = Some w' -> cache w' = cache w.
Proof. unfold serve. repeat case_match; try done; by intros [= <-]. Qed.

Section Gives.
Context (K : nat -> Kind -> Prop) (cs : list Caller).
Context (Hfun : forall r k k', K r k -> K r k' -> k = k').
Context (Hkinds : forall i r id o late k, cs !! i = Some (AwaitExchange r id o late k) -> K r (KExchange o)).
Context (Hdist : forall i j r id o late k id' o' late' k', cs !! i = Some (AwaitExchange r id o late k) ->
    cs !! j = Some (AwaitExchange r id' o' late' k') -> i = j).

Lemma tasks_same past e : (forall r, (exists i id o late k, cs !! i = Some (AwaitExchange r id o late k)) -> answered r (past ++ [e]) = answered r past) ->
  map (caller_task (past ++ [e])) cs = map (caller_task past) cs.
Proof.
  intros H. apply list_eq. intros i. change (map ?f cs) with (f <$> cs). rewrite !list_lookup_fmap.
  destruct (cs !! i) as [c|] eqn:Hi; [|done]. cbn. f_equal. destruct c; cbn; try done. rewrite H; [done|]. eauto 10.
Qed.
Lemma tasks_answered past e i r id o late k a : cs !! i = Some (AwaitExchange r id o late k) ->
  answered r (past ++ [e]) = Some a -> (forall r', r' <> r -> answered r' (past ++ [e]) = answered r' past) ->
  map (caller_task (past ++ [e])) cs = <[i := Waiting o late (Some a) k]> (map (caller_task past) cs).
Proof.
  intros Hi Ha Ho. apply list_eq. intros j. change (map ?f cs) with (f <$> cs). destruct (decide (j = i)) as [->|Hne].
  - rewrite list_lookup_insert_eq by (rewrite length_fmap; by eapply lookup_lt_Some).
    rewrite list_lookup_fmap, Hi. cbn. by rewrite Ha.
  - rewrite list_lookup_insert_ne, !list_lookup_fmap by done. destruct (cs !! j) as [c|] eqn:Hj; [|done]. cbn. f_equal.
    destruct c as [|r' id' o' late' k'| | |]; cbn; try done. rewrite Ho; [done|]. intros ->. by destruct Hne; eapply Hdist.
Qed.
Lemma answered_other past r a r' : r' <> r -> answered r' (past ++ [Replied r a]) = answered r' past.
Proof.
  intros H. unfold answered. rewrite answer_of_snoc. destruct (answer_of r' past); [done|]. cbn.
  by destruct (Nat.eqb_spec r' r).
Qed.

Lemma gives_reaches applied l new past w w' : (forall r a, Replied r a ∈ new -> known_reply K l r a) ->
  mesh_gives applied cs past new w = Some w' ->
  reaches (mkState w (map (caller_task past) cs)) (mkState w' (map (caller_task (past ++ new)) cs)) /\ cache w' = cache w.
Proof.
  revert past w. induction new as [|e new IH]; intros past w Hk; cbn [mesh_gives].
  { intros [= <-]. by rewrite app_nil_r. }
  assert (forall w1, mesh_gives applied cs (past ++ [e]) new w1 = Some w' ->
    reaches (mkState w (map (caller_task past) cs)) (mkState w1 (map (caller_task (past ++ [e])) cs)) -> cache w1 = cache w ->
    reaches (mkState w (map (caller_task past) cs)) (mkState w' (map (caller_task (past ++ e :: new)) cs)) /\ cache w' = cache w) as Hgo.
  { intros w1 H1 H2 H3. destruct (IH (past ++ [e]) w1) as [H4 H5]; [intros r a Hr; apply Hk; by right|done|].
    rewrite <- (assoc_L (++)) in H4. split; [by etrans|congruence]. }
  assert (map (caller_task (past ++ [e])) cs = map (caller_task past) cs -> mesh_gives applied cs (past ++ [e]) new w = Some w' ->
    reaches (mkState w (map (caller_task past) cs)) (mkState w' (map (caller_task (past ++ e :: new)) cs)) /\ cache w' = cache w) as Hstay.
  { intros H1 H2. apply (Hgo w); [done|by rewrite H1|done]. }
  destruct e as [m|r a|ev|st];
    try (apply Hstay, tasks_same; intros r _; unfold answered; rewrite answer_of_snoc; by destruct (answer_of r past)).
  assert (answer_of r past <> None \/ answered r [Replied r a] = None -> map (caller_task (past ++ [Replied r a])) cs = map (caller_task past) cs) as Hsame.
  { intros H. apply tasks_same. intros r' _. destruct (decide (r' = r)) as [->|Hne]; [|by apply answered_other].
    unfold answered in *. rewrite answer_of_snoc. destruct (answer_of r past); [done|]. by destruct H. }
  assert (answered r [Replied r a] = None \/ exists x, a = AnExchange (inr x)) as [Ha|[x ->]].
  { unfold answered. cbn. rewrite Nat.eqb_refl. destruct a as [[|x]| | | |]; try (by left). right. by exists x. }
  { assert (match a with AnExchange (inr (Some m)) => False | _ => True end) as Hm.
    { unfold answered in Ha. cbn in Ha. rewrite Nat.eqb_refl in Ha. by destruct a as [[|[]]| | | |]. }
    destruct a as [[|[m|]]| | | |]; try done; apply Hstay, Hsame; by right. }
  destruct (answer_of r past) as [a0|] eqn:Hpast.
  { destruct x as [m|]; apply Hstay, Hsame; by left. }
  destruct (outbound_of r cs) as [o|] eqn:Ho.
  2:{ assert (map (caller_task (past ++ [Replied r (AnExchange (inr x))])) cs = map (caller_task past) cs) as H.
      { apply tasks_same. intros r' (i & id & o & late & k & Hi). apply answered_other. intros ->. by eapply outbound_of_None. }
      destruct x as [m|]; by apply Hstay. }
  destruct (outbound_of_Some _ _ _ Ho) as (i & id & late & k & Hi).
  destruct (Hk r (AnExchange (inr x))) as (o' & HK & Hf); [by left|].
  pose proof (Hfun _ _ _ HK (Hkinds _ _ _ _ _ _ Hi)) as [= ->].
  assert (answered r past = None) as Hnone by (unfold answered; by rewrite Hpast).
  assert (answered r (past ++ [Replied r (AnExchange (inr x))]) = Some (Some (inr x))) as Hnow.
  { unfold answered. rewrite answer_of_snoc, Hpast. cbn. by rewrite Nat.eqb_refl. }
  pose proof (tasks_answered past _ i r id o late k _ Hi Hnow (fun r' => answered_other past r _ r')) as Htasks.
  assert (map (caller_task past) cs !! i = Some (Waiting o late None k)) as Hti.
  { rewrite (map_lookup _ _ _ _ Hi). cbn. by rewrite Hnone. }
  destruct x as [m|]; cbn in Hf.
  - destruct Hf as [Hexp _]. destruct (serve w o applied m) as [w1|] eqn:Hs; [|done]. intros H. apply (Hgo w1); [done| |by eapply serve_cache].
    rewrite Htasks. apply (reaches_act _ _ _ _ (Serve applied m) _ _ Hti). cbn. by rewrite Hexp, Hs.
  - intros H. apply (Hgo w); [done| |done]. rewrite Htasks. apply (reaches_act _ _ _ _ ClientWorld.Sent _ _ Hti). cbn. by rewrite Hf.
Qed.
End Gives.

Lemma tell_S n w : tell (S n) (with_cache (Nat.iter (S n) invalidate_mesh_local_prefix (cache w)) w) =
  (let w' := tell n (with_cache (Nat.iter n invalidate_mesh_local_prefix (cache w)) w) in
   mkShared (invalidate_mesh_local_prefix (cache w')) (write_lock w') (invalidations w' + 1) (ClientWorld.mesh_prefix w') false (steering w')).
Proof. unfold tell. cbn -[Z.of_nat]. f_equal. lia. Qed.
Lemma told_reaches n w ts :
  reaches (mkState w ts) (mkState (tell n (with_cache (Nat.iter n invalidate_mesh_local_prefix (cache w)) w)) ts).
Proof.
  induction n as [|n IH].
  - destruct w. unfold tell. cbn. by rewrite Z.add_0_r.
  - rewrite tell_S. etrans; [exact IH|]. by apply (reaches_step _ SessionTold).
Qed.

(** ** Moves of the callers *)

Definition is_going (c : Caller) : Prop := match c with AwaitExchange _ _ _ _ _ => False | _ => True end.

Lemma coherent_caller i c s : is_going c -> coherent s -> coherent (set_caller i c s).
Proof.
  intros Hc [H1 H2 H3 H4]. split; [done|done|..]; cbn [callers set_caller].
  - intros j r id o late k Hj. apply list_lookup_insert_Some in Hj as [(_ & -> & _)|[_ Hj]]; [done|by eapply H3].
  - intros j j' r id o late k id' o' late' k' Hj Hj'.
    apply list_lookup_insert_Some in Hj as [(_ & -> & _)|[_ Hj]]; [done|].
    apply list_lookup_insert_Some in Hj' as [(_ & -> & _)|[_ Hj']]; [done|]. by eapply H4.
Qed.
Lemma coherent_outside w s : coherent s -> coherent (set_outside w s).
Proof. by intros [H1 H2 H3 H4]. Qed.
Lemma coherent_command c s : command_kinds c = [] -> coherent s -> coherent (send_command c s).
Proof.
  intros Hc [H1 H2 H3 H4]. split; [done| |done|done]. cbn. destruct (running s); [|done]. apply Forall_app. split; [done|].
  constructor; [|done]. intros r k. rewrite Hc. by inversion 1.
Qed.
Lemma kind_of_open kd c s r k : kind_of s r k -> kind_of (open_reply kd c s) r k.
Proof. unfold kind_of. cbn. intros H. by apply lookup_app_l_Some. Qed.
Lemma kind_of_fresh kd c s : kind_of (open_reply kd c s) (fresh_reply s) kd.
Proof. unfold kind_of, fresh_reply. cbn. by apply list_lookup_middle. Qed.
Lemma coherent_open kd c s : command_kinds c = [(fresh_reply s, kd)] -> coherent s -> coherent (open_reply kd c s).
Proof.
  intros Hc [H1 H2 H3 H4]. split.
  - eapply known_mono; [|exact H1]. intros r k. apply kind_of_open.
  - cbn. apply Forall_app. split.
    + eapply Forall_impl; [exact H2|]. cbn. intros c' Hc' r k Hr. by apply kind_of_open, Hc'.
    + constructor; [|done]. intros r k. rewrite Hc, list_elem_of_singleton. intros [= -> ->]. apply kind_of_fresh.
  - intros i r id o late k Hi. by eapply kind_of_open, H3.
  - done.
Qed.
Lemma coherent_await i r id o late k s : coherent s -> kind_of s r (KExchange o) ->
  (forall j id' o' late' k', callers s !! j <> Some (AwaitExchange r id' o' late' k')) ->
  coherent (set_caller i (AwaitExchange r id o late k) s).
Proof.
  intros [H1 H2 H3 H4] Hr Hf. split; [done|done|..]; cbn [callers set_caller].
  - intros j r0 id0 o0 late0 k0 Hj. apply list_lookup_insert_Some in Hj as [(_ & Hj & _)|[_ Hj]]; [by injection Hj as <- <- <- <- <-|by eapply H3].
  - intros j j' r0 id0 o0 late0 k0 id' o' late' k' Hj Hj'.
    apply list_lookup_insert_Some in Hj as [(<- & Hj & _)|[_ Hj]]; apply list_lookup_insert_Some in Hj' as [(<- & Hj' & _)|[_ Hj']].
    + done.
    + injection Hj as <- <- <- <- <-. by destruct (Hf j' id' o' late' k').
    + injection Hj' as <- <- <- <- <-. by destruct (Hf j id0 o0 late0 k0).
    + by eapply H4.
Qed.
(** No call waits for a channel that is still to be made. *)
Lemma fresh_unused s j id o late k : coherent s -> callers s !! j <> Some (AwaitExchange (fresh_reply s) id o late k).
Proof.
  intros H Hj. pose proof (h_kinds _ H _ _ _ _ _ _ Hj) as Hk. apply lookup_lt_Some in Hk. unfold fresh_reply in Hk. lia.
Qed.
Lemma coherent_take_id s : coherent s -> coherent (take_exchange_id s).
Proof. by intros [H1 H2 H3 H4]. Qed.
#[local] Hint Resolve coherent_caller coherent_outside coherent_command coherent_take_id : core.

(** The tasks of the abstraction when one caller goes on. *)
Lemma abstract_caller i c s s' : log (task s') = log (task s) -> callers s' = <[i := c]> (callers s) ->
  abstract s' = mkState (outside s') (<[i := caller_task (log (task s)) c]> (tasks (abstract s))).
Proof. intros Hl Hc. unfold abstract. cbn. by rewrite Hl, Hc, map_insert. Qed.

Lemma reaches_caller i c c' s s' ch w : callers s !! i = Some c -> log (task s') = log (task s) -> callers s' = <[i := c']> (callers s) ->
  outside s' = w -> task_step (outside s) (caller_task (log (task s)) c) ch = Some (w, caller_task (log (task s)) c') ->
  reaches (abstract s) (abstract s').
Proof.
  intros Hi Hl Hc Hw Ht. rewrite (abstract_caller i c' s s' Hl Hc), Hw. unfold abstract. cbn.
  eapply reaches_act; [by apply map_lookup|exact Ht].
Qed.
(** A caller that goes on although nothing happened in the abstraction. *)
Lemma reaches_stays i c c' s s' : callers s !! i = Some c -> log (task s') = log (task s) -> callers s' = <[i := c']> (callers s) ->
  outside s' = outside s -> caller_task (log (task s)) c = caller_task (log (task s)) c' -> reaches (abstract s) (abstract s').
Proof.
  intros Hi Hl Hc Hw Ht. rewrite (abstract_caller i c' s s' Hl Hc), Hw, <- Ht. unfold abstract. cbn.
  rewrite list_insert_id; [done|by apply map_lookup].
Qed.

Definition simulates (s s' : System) : Prop := coherent s' /\ reaches (abstract s) (abstract s').

Lemma answer_of_In r l a : answer_of r l = Some a -> Replied r a ∈ l.
Proof.
  induction l as [|e l IH]; cbn [answer_of]; [done|]. destruct e as [|r' a'| |]; try (intros; right; by apply IH).
  destruct (Nat.eqb_spec r r') as [->|]; [intros [= ->]; by left|intros; right; by apply IH].
Qed.
Lemma fresh_unanswered s : coherent s -> answered (fresh_reply s) (log (task s)) = None.
Proof.
  intros Hs. unfold answered. destruct (answer_of _ _) as [a|] eqn:Ha; [|done]. apply answer_of_In, (b_replies _ _ _ (h_books _ Hs)) in Ha.
  destruct a as [x| | | |]; try done. destruct Ha as (o & Hk & _). apply lookup_lt_Some in Hk. unfold fresh_reply in Hk. lia.
Qed.

(** An exchange is submitted while the task runs, and fails at once when it is gone. *)
Lemma submit_simulates i c o late k s : coherent s -> callers s !! i = Some c ->
  task_step (outside s) (caller_task (log (task s)) c) Proceed = Some (outside s, Waiting o late None k) ->
  simulates s (submit_exchange i o late k s).
Proof.
  intros Hs Hi Ht. unfold submit_exchange. cbv zeta. change (running (take_exchange_id s)) with (running s). destruct (running s).
  - set (r := fresh_reply s). set (s1 := open_reply _ _ _).
    assert (coherent s1) as H1 by (apply coherent_open; [done|by apply coherent_take_id]). split.
    + apply coherent_await; [done|apply (kind_of_fresh (KExchange o) (CmdExchange (next_exchange_id s) o r) (take_exchange_id s))|].
      intros j id' o' late' k'. exact (fresh_unused s j id' o' late' k' Hs).
    + apply (reaches_caller i c (AwaitExchange r (next_exchange_id s) o late k) _ _ Proceed (outside s) Hi); [done..|].
      rewrite Ht. unfold r. cbn [caller_task]. rewrite (fresh_unanswered s Hs). done.
  - split; [apply coherent_caller; [done|by apply coherent_take_id]|].
    rewrite (abstract_caller i (Going (k None)) s (set_caller i (Going (k None)) (take_exchange_id s))) by done. cbn [outside set_caller take_exchange_id caller_task].
    unfold abstract at 1. etrans; [eapply (reaches_act _ _ i _ Proceed); [by apply map_lookup|exact Ht]|].
    replace (<[i:=Running (k None)]> (tasks (abstract s))) with
      (<[i:=Running (k None)]> (<[i:=Waiting o late None k]> (map (caller_task (log (task s))) (callers s)))) by apply list_insert_insert_eq.
    eapply (reaches_act _ _ i _ (Fail None)); [apply list_lookup_insert_eq; rewrite length_map; by eapply lookup_lt_Some|reflexivity].
Qed.

Lemma call_simulates {A} i c kd cmd (await : nat -> (option A -> prog) -> Caller) (k : option A -> prog) (answer : option A -> Choice) s :
  coherent s -> callers s !! i = Some c -> command_kinds (cmd (fresh_reply s)) = [(fresh_reply s, kd)] -> is_going (await (fresh_reply s) k) ->
  caller_task (log (task s)) c = caller_task (log (task s)) (await (fresh_reply s) k) ->
  task_step (outside s) (caller_task (log (task s)) c) (answer None) = Some (outside s, Running (k None)) ->
  simulates s (call i kd cmd await k s).
Proof.
  intros Hs Hi Hc Hg Hsame Ht. unfold call. destruct (running s).
  - split; [apply coherent_caller; [done|by apply coherent_open]|].
    by apply (reaches_stays i c (await (fresh_reply s) k)).
  - split; [by apply coherent_caller|]. by apply (reaches_caller i c (Going (k None)) _ _ (answer None) (outside s)).
Qed.

Lemma act_simulates i {X} (r : Request X) k s s' : coherent s -> callers s !! i = Some (Going (Do r k)) ->
  act i r k s = Some s' -> simulates s s'.
Proof.
  intros Hs Hi. destruct r; cbn [act].
  - intros [= <-]. split; [by apply coherent_caller|]. by eapply (reaches_caller i _ (Going _) _ _ (Observe _) _ Hi).
  - intros [= <-]. split; [by apply coherent_caller|]. by eapply (reaches_caller i _ (Going _) _ _ Proceed _ Hi).
  - intros [= <-]. split; [by apply coherent_caller, coherent_outside|]. by eapply (reaches_caller i _ (Going _) _ _ Proceed _ Hi).
  - intros [= <-]. by apply (submit_simulates i _ _ _ _ _ Hs Hi).
  - intros [= <-]. by apply (submit_simulates i _ _ _ _ _ Hs Hi).
  - intros [= <-]. by apply (call_simulates i _ _ _ _ _ PetitionAnswer _ Hs Hi).
  - intros [= <-]. by apply (call_simulates i _ _ _ _ _ KeepAliveAnswer _ Hs Hi).
  - intros [= <-]. by apply (call_simulates i _ _ _ _ _ ResignAnswer _ Hs Hi).
  - intros [= <-]. split; [by apply coherent_caller, coherent_command|].
    by eapply (reaches_caller i _ (Going _) _ _ (HandlerAnswer _) _ Hi).
  - destruct (write_lock (outside s)) eqn:Hw; [done|]. intros [= <-]. split; [by apply coherent_caller, coherent_outside|].
    eapply (reaches_caller i _ (Going (k tt)) _ _ Proceed _ Hi); [done..|]. cbn. by rewrite Hw.
  - intros [= <-]. split; [by apply coherent_caller, coherent_outside|]. by eapply (reaches_caller i _ (Going _) _ _ Proceed _ Hi).
Qed.

Lemma receive_simulates {A} i c (k : option A -> prog) r decode (answer : option A -> Choice) s a :
  coherent s -> callers s !! i = Some c -> receive r decode s = Some a ->
  (forall a, task_step (outside s) (caller_task (log (task s)) c) (answer a) = Some (outside s, Running (k a))) ->
  simulates s (set_caller i (Going (k a)) s).
Proof.
  intros Hs Hi _ Ht. split; [by apply coherent_caller|]. by apply (reaches_caller i c (Going (k a)) _ _ (answer a) (outside s)).
Qed.

Lemma resume_simulates i c s s' : coherent s -> callers s !! i = Some c -> resume i c s = Some s' -> simulates s s'.
Proof.
  intros Hs Hi. destruct c as [[| | |X r k]|r id o late k|r k|r k|r k]; cbn [resume];
    [done|done|done|by apply act_simulates| | | |].
  1:{ destruct (receive r _ s) as [a|] eqn:Ha; [|done]. intros [= <-]. split; [by apply coherent_caller, coherent_command|].
      assert (exists ch, task_step (outside s) (caller_task (log (task s)) (AwaitExchange r id o late k)) ch = Some (outside s, Running (k a))) as [ch Hch].
      { unfold receive in Ha. cbn [caller_task]. unfold answered. destruct (answer_of r (log (task s))) as [x|] eqn:Hx.
        - injection Ha as <-. destruct x as [[e|y]| | | |]; [by exists (Fail (Some e))|by exists Deliver|..]; by exists (Fail None).
        - destruct (running s); [done|]. injection Ha as <-. by exists (Fail None). }
      by apply (reaches_caller i _ (Going (k a)) _ _ ch (outside s) Hi). }
  all: destruct (receive r _ s) as [a|] eqn:Ha; [|done]; intros [= <-].
  - by apply (receive_simulates i _ k r _ PetitionAnswer s a Hs Hi Ha).
  - by apply (receive_simulates i _ k r _ KeepAliveAnswer s a Hs Hi Ha).
  - by apply (receive_simulates i _ k r _ ResignAnswer s a Hs Hi Ha).
Qed.

Lemma expire_simulates i c s s' : coherent s -> callers s !! i = Some c -> expire i c s = Some s' -> simulates s s'.
Proof.
  intros Hs Hi. destruct c as [|r id o [p|] k| | |]; cbn [expire]; try done. intros [= <-].
  split; [by apply coherent_caller, coherent_command|].
  apply (reaches_caller i _ (Going p) _ _ Expire (outside s) Hi); [done..|]. cbn [caller_task task_step]. by destruct (answered r (log (task s))).
Qed.

(** ** Turns, and the whole *)

Lemma turn_simulates dt t applied n s s' : coherent s -> turn dt t applied n s = Some s' -> simulates s s'.
Proof.
  intros Hs. unfold turn. destruct (negb (running s)); [done|]. destruct (is_closed _).
  { intros [= <-]. split; [|done]. destruct Hs. by split. }
  destruct (turn_wake t s) as [[w ch]|] eqn:Hw; [|done]. destruct (_ && _); [|done].
  destruct (mesh_gives _ _ _ _ _) as [around|] eqn:Hg; [|done]. case_bool_decide as Hn; [|done]. intros [= <-].
  assert (forall r k, (r, k) ∈ wake_kinds w -> kind_of s r k) as Hk.
  { destruct t; cbn in Hw; repeat case_match; simplify_eq; cbn; try (by inversion 1).
    pose proof (h_channel _ Hs) as Hc. match goal with H : channel s = _ |- _ => rewrite H in Hc end.
    by apply Forall_cons in Hc as [Hc _]. }
  assert (books (kind_of s) [] (load dt s)) as Hb by (destruct (h_books _ Hs); by split).
  pose proof (keeps_wake config border_agent_ip (kind_of s) (E := Error) [] w Hk _ Hb) as Hb'.
  pose proof (evolves_wake config border_agent_ip w (load dt s)) as Ha. destruct (w_log _ _ (a_around _ _ _ Ha)) as [new Hnew].
  set (s1 := (handle_wake w (load dt s)).1) in *. cbn in Hg. rewrite Hnew, drop_app_length in Hg. split.
  - split; [exact Hb'| |apply Hs|apply Hs]. destruct t; cbn in Hw; repeat case_match; simplify_eq; try apply Hs; try done.
    pose proof (h_channel _ Hs) as Hc. match goal with H : channel s = _ |- _ => rewrite H in Hc end. by apply Forall_cons in Hc as [_ Hc].
  - destruct (gives_reaches (kind_of s) (callers s)) with (applied := applied) (l := log s1) (new := new) (past := log (task s))
      (w := outside s) (w' := around) as [H1 H2]; [|apply Hs|apply Hs| |exact Hg|].
    + unfold kind_of. congruence.
    + intros r a Hr. apply (b_replies _ _ _ Hb'). rewrite Hnew. apply elem_of_app. by right.
    + unfold abstract. cbn. etrans; [exact H1|]. rewrite Hnew, Hn. cbn. rewrite <- H2. apply told_reaches.
Qed.

Lemma move_simulates s m s' : coherent s -> move s m = Some s' -> simulates s s'.
Proof.
  intros Hs. destruct m as [i|i|dt t b n|p]; cbn [move].
  - destruct (callers s !! i) eqn:Hi; [by eapply resume_simulates|done].
  - destruct (callers s !! i) eqn:Hi; [by eapply expire_simulates|done].
  - by apply turn_simulates.
  - intros [= <-]. split; [by apply coherent_outside|]. by apply (reaches_step _ (DatasetChanges p)).
Qed.
Lemma moves_simulate s ms s' : coherent s -> moves s ms = Some s' -> simulates s s'.
Proof.
  revert s. induction ms as [|m ms IH]; intros s Hs; cbn [moves]; [by intros [= <-]|].
  destruct (move s m) as [s1|] eqn:Hm; [|done]. destruct (move_simulates _ _ _ Hs Hm) as [H1 H2]. intros H.
  destruct (IH s1 H1 H) as [H3 H4]. split; [done|by etrans].
Qed.

Lemma spawned_coherent s0 prefix steering calls : log s0 = [] -> exchanges (driver s0) = Exchanges_default ->
  coherent (spawned s0 prefix steering calls).
Proof.
  intros H1 H2. split.
  - split; cbn; rewrite ?H1, ?H2; [by exists []|constructor|constructor|]. intros ? ? H. by inversion H.
  - constructor.
  - intros i r id o late k Hi. cbn in Hi. change (map ?f calls) with (f <$> calls) in Hi. rewrite list_lookup_fmap in Hi. by destruct (calls !! i).
  - intros i j r id o late k id' o' late' k' Hi. cbn in Hi. change (map ?f calls) with (f <$> calls) in Hi. rewrite list_lookup_fmap in Hi.
    by destruct (calls !! i).
Qed.
Lemma spawned_abstract s0 prefix steering calls : abstract (spawned s0 prefix steering calls) = ClientWorld.initial prefix steering calls.
Proof. unfold abstract, ClientWorld.initial. cbn. f_equal. by rewrite map_map. Qed.

End System.
