(* ===== verification/SystemClaims.v ===== *)
(** * SystemClaims: what the whole guarantees to its callers

    The claims on [System]: every run of the handles with the real task is a run
    of [ClientWorld], and so the results on concurrent handles hold of handles
    that are served by the task over any datagrams. *)
From stdpp Require Import gmap.
From S2P Require Import Prelude Text Tlv Errors Dataset Coap NetDiag Messages Joiner.
From S2P Require Import Ipv6 Pskc Commissioner SessionDriver Client ClientWorld ClientSteering ClientCache.
From S2P Require Import SessionCore SessionInvariant SessionClaims SessionJoiners System.

Section Claims.
Context {JH : JoinerHandler} {OR : OsRng} {OL : OsRngLaws} {JS : JoinerSessions} {JL : JoinerSessionsLaws}.
Context (config : CommissionerConfig) (border_agent_ip : string).
Notation moves := (moves config border_agent_ip).

Lemma moves_run s0 prefix steering calls ms s : initial s0 -> moves (spawned s0 prefix steering calls) ms = Some s ->
  exists events, ClientWorld.run (ClientWorld.initial prefix steering calls) events = Some (abstract s).
Proof.
  intros [H1 H2 _] Hm.
  destruct (moves_simulate _ _ _ _ _ (spawned_coherent s0 prefix steering calls H2 ltac:(by rewrite H1)) Hm) as [_ [es Hes]].
  exists es. by rewrite <- (spawned_abstract s0).
Qed.



End Claims.

(** ** Witnesses *)

(** A petition and an [enable_joiner], served by the toy task: the border agent
    accepts the petition and shows the prefix, and the leader answers through
    the proxy the read of its steering data and the write. *)
Module ToySystem.
Import ToySession.
Definition content (mid tok : Z) (pl : bytes) : bytes :=
  match CoapMessage_encode (mkCoapMessage Acknowledgement CODE_CHANGED mid (repeat tok 4) [] pl) with Ok b => b | _ => [] end.
Definition prefix : bytes := [0xfd; 0; 0; 0; 0; 0; 0; 1].
Definition joiner : bytes := [1; 2; 3; 4; 5; 6; 7; 8].
Definition proxied (inner : bytes) : bytes :=
  [0x50; 2; 0; 9; 0xb1; 99; 2; 117; 114; 0xff; 49; 16] ++ prefix ++ [0; 0; 0; 255; 254; 0; 252; 0]
  ++ [48; len inner + 4; 0xf0; 0xbf; 0xf0; 0xbf] ++ inner.
Definition received (b : bytes) (applied : bool) : Move := TakeTurn 1 (TurnReceived (inr b)) applied 0.
Definition command : Move := TakeTurn 1 TurnCommand false 0.
Definition calls : list Call := [CallPetitionOp; CallEnableJoiner joiner].
Definition history : list Move :=
  [Resume 0; command; received accept_petition false; Resume 0; Resume 1; Resume 1; Resume 1; command;
   received (content 2 9 (DS_TLV_MESH_LOCAL_PREFIX :: 8 :: prefix)) false; Resume 1; Resume 1; Resume 1; command; command;
   received (proxied (content 3 11 [])) false; Resume 1; Resume 1; Resume 1; Resume 1; command; command;
   received (proxied (content 5 14 [TLV_STATE; 1; 1])) true; Resume 1; Resume 1].
End ToySystem.

Import ToySession ToySystem.
#[local] Notation final := (moves toy_config "fd00::1" (spawned toy_start ToySystem.prefix None ToySystem.calls) history).
(** What is seen of it: the callers, the leader's steering data, the cache. *)
Definition seen (s : System) : list Caller * option bytes * PrefixCache * Z * bool * bytes :=
  (callers s, steering (outside s), cache (outside s), invalidations (outside s), change_pending (outside s),
   ClientWorld.mesh_prefix (outside s)).
Definition filter : bytes := match @add_joiner_to_steering_data unit [] joiner with Ok f => f | _ => [] end.
Lemma final_seen :
  exists s, final = Some s /\
    seen s = ([Going (Ret tt); Going (Ret tt)], Some filter, mkPrefixCache (Some ToySystem.prefix) 0, 0, false, ToySystem.prefix).
Proof.
  assert (fmap seen final = Some ([Going (Ret tt); Going (Ret tt)], Some filter, mkPrefixCache (Some ToySystem.prefix) 0, 0, false,
    ToySystem.prefix)) as H by (vm_compute; reflexivity).
  destruct final as [s|]; [|discriminate H]. exists s. split; [reflexivity|]. exact (inj Some _ _ H).
Qed.



