(* ===== verification/BTree.v ===== *)
(** * BTree: ordered maps

    The standard library's [BTreeMap] as an association list in the order of its
    keys: what the walk of the mesh keeps its nodes and links in.  The order is a
    class, with an instance for integers and one for pairs of them. *)
From S2P Require Import Prelude.

Class KeyOrder (K : Type) := { klt : K -> K -> bool; keq : K -> K -> bool }.
Class KeyOrderLaws (K : Type) `{KeyOrder K} := {
  keq_spec a b : keq a b = true <-> a = b;
  klt_irrefl a : klt a a = false;
  klt_trans a b c : klt a b = true -> klt b c = true -> klt a c = true;
  klt_total a b : klt a b = false -> keq a b = false -> klt b a = true }.

#[export] Instance z_order : KeyOrder Z := { klt := Z.ltb; keq := Z.eqb }.
#[export] Instance pair_order : KeyOrder (Z * Z) := {
  klt a b := (a.1 <? b.1) || ((a.1 =? b.1) && (a.2 <? b.2));
  keq a b := (a.1 =? b.1) && (a.2 =? b.2) }.

#[export] Instance z_order_laws : KeyOrderLaws Z.
Proof.
  split; cbn; intros; zbool; [apply Z.eqb_eq|by apply Z.ltb_irrefl|apply Z.ltb_lt; lia|apply Z.ltb_lt; lia].
Qed.
#[export] Instance pair_order_laws : KeyOrderLaws (Z * Z).
Proof.
  split; cbn.
  - intros [] []; cbn. rewrite andb_true_iff, !Z.eqb_eq. split; [by intros [-> ->]|by intros [= -> ->]].
  - intros []; cbn. by rewrite !Z.ltb_irrefl, andb_false_r.
  - intros [] [] []; cbn. rewrite !orb_true_iff, !andb_true_iff, !Z.ltb_lt, !Z.eqb_eq. lia.
  - intros [] []; cbn. rewrite orb_false_iff, !andb_false_iff, orb_true_iff, andb_true_iff, !Z.ltb_lt, !Z.ltb_ge, !Z.eqb_eq, !Z.eqb_neq. lia.
Qed.

Section BTree.
Context {K : Type} {KO : KeyOrder K}.

Notation map A := (list (K * A)).

Fixpoint bt_insert {A} (k : K) (v : A) (m : map A) : map A :=
  match m with
  | [] => [(k, v)]
  | (k', v') :: m' => if klt k k' then (k, v) :: m else if keq k k' then (k, v) :: m' else (k', v') :: bt_insert k v m'
  end.
Fixpoint bt_get {A} (k : K) (m : map A) : option A :=
  match m with
  | [] => None
  | (k', v') :: m' => if keq k k' then Some v' else bt_get k m'
  end.
Definition bt_values {A} (m : map A) : list A := List.map snd m.
Definition bt_keys {A} (m : map A) : list K := List.map fst m.
(** [extend] inserts each item in turn. *)
Definition bt_extend {A} (m n : map A) : map A := fold_left (fun m e => bt_insert e.1 e.2 m) n m.

(** Keys strictly ascending. *)
Fixpoint sorted_from {A} (lower : option K) (m : map A) : Prop :=
  match m with
  | [] => True
  | (k, _) :: m' => match lower with None => True | Some l => klt l k = true end /\ sorted_from (Some k) m'
  end.
Definition bt_sorted {A} (m : map A) : Prop := sorted_from None m.

Context {KL : KeyOrderLaws K}.

Lemma keq_refl a : keq a a = true.
Proof. by apply keq_spec. Qed.
Lemma keq_ne a b : a <> b -> keq a b = false.
Proof. intros H. destruct (keq a b) eqn:E; [|done]. by apply keq_spec in E. Qed.

Lemma sorted_weaken {A} l l' (m : map A) : match l' with None => True | Some x => match l with Some y => x = y \/ klt x y = true | None => False end end ->
  sorted_from l m -> sorted_from l' m.
Proof.
  destruct m as [|[k v] m]; [done|]. cbn. intros Hl [H Hm]. split; [|done]. destruct l' as [x|]; [|done]. destruct l as [y|]; [|done].
  destruct Hl as [->|Hl]; [done|by eapply klt_trans].
Qed.
Lemma sorted_insert {A} l k (v : A) m : match l with None => True | Some x => klt x k = true end ->
  sorted_from l m -> sorted_from l (bt_insert k v m).
Proof.
  revert l. induction m as [|[k' v'] m IH]; intros l Hl; cbn; [done|]. intros [Hk Hm]. destruct (klt k k') eqn:E1; [done|].
  destruct (keq k k') eqn:E2.
  - apply keq_spec in E2 as <-. done.
  - split; [done|]. apply IH; [by apply klt_total|done].
Qed.
Lemma bt_insert_sorted {A} k (v : A) m : bt_sorted m -> bt_sorted (bt_insert k v m).
Proof. by apply sorted_insert. Qed.

Lemma bt_get_insert_eq {A} k (v : A) m : bt_get k (bt_insert k v m) = Some v.
Proof.
  induction m as [|[k' v'] m IH]; cbn; [by rewrite keq_refl|]. destruct (klt k k'); cbn; [by rewrite keq_refl|].
  destruct (keq k k') eqn:E; cbn; [by rewrite keq_refl|by rewrite E].
Qed.
Lemma bt_get_insert_ne {A} k j (v : A) m : j <> k -> bt_get j (bt_insert k v m) = bt_get j m.
Proof.
  intros Hne. induction m as [|[k' v'] m IH]; cbn; [by rewrite keq_ne|]. destruct (klt k k'); cbn; [by rewrite (keq_ne j k)|].
  destruct (keq k k') eqn:E; cbn; [|by rewrite IH]. apply keq_spec in E as <-. by rewrite (keq_ne j k).
Qed.
Lemma bt_get_elem {A} k (m : map A) : is_Some (bt_get k m) <-> k ∈ bt_keys m.
Proof.
  induction m as [|[k' v'] m IH]; cbn; [split; [by intros []|by intros ?%elem_of_nil]|]. rewrite elem_of_cons, <- IH.
  destruct (keq k k') eqn:E; [apply keq_spec in E; split; eauto|]. split; [eauto|]. intros [->|]; [by rewrite keq_refl in E|done].
Qed.
Lemma bt_insert_keys {A} j k (v : A) m : j ∈ bt_keys (bt_insert k v m) <-> j = k \/ j ∈ bt_keys m.
Proof.
  rewrite <- !bt_get_elem. destruct (keq j k) eqn:E.
  - apply keq_spec in E as ->. rewrite bt_get_insert_eq. split; eauto.
  - assert (j <> k) as Hne by (intros ->; by rewrite keq_refl in E). rewrite bt_get_insert_ne by done. naive_solver.
Qed.
Lemma bt_insert_Forall {A} (P : K -> A -> Prop) k v m : P k v -> Forall (fun e => P e.1 e.2) m -> Forall (fun e => P e.1 e.2) (bt_insert k v m).
Proof.
  intros Hp Hm. induction Hm as [|[k' v'] m Hx Hm IH]; cbn; [by repeat constructor|]. repeat case_match; repeat (constructor || done).
Qed.
Lemma bt_get_Forall {A} (P : K -> A -> Prop) k v m : Forall (fun e => P e.1 e.2) m -> bt_get k m = Some v -> P k v.
Proof.
  induction 1 as [|[k' v'] m Hx Hm IH]; cbn; [done|]. destruct (keq k k') eqn:E; [|done]. apply keq_spec in E as ->. by intros [= <-].
Qed.
Lemma bt_extend_sorted {A} (m n : map A) : bt_sorted m -> bt_sorted (bt_extend m n).
Proof. unfold bt_extend. revert m. induction n as [|e n IH]; intros m Hm; cbn; [done|]. by apply IH, bt_insert_sorted. Qed.
Lemma bt_extend_keys {A} j (m n : map A) : j ∈ bt_keys (bt_extend m n) <-> j ∈ bt_keys m \/ j ∈ bt_keys n.
Proof.
  unfold bt_extend. revert m. induction n as [|e n IH]; intros m; cbn [fold_left]; [cbn; rewrite elem_of_nil; naive_solver|].
  change (bt_keys (e :: n)) with (e.1 :: bt_keys n). rewrite IH, bt_insert_keys, elem_of_cons. naive_solver.
Qed.
Lemma bt_extend_Forall {A} (P : K -> A -> Prop) m n : Forall (fun e => P e.1 e.2) m -> Forall (fun e => P e.1 e.2) n ->
  Forall (fun e => P e.1 e.2) (bt_extend m n).
Proof.
  unfold bt_extend. intros Hm Hn. revert m Hm. induction Hn as [|e n He Hn IH]; intros m Hm; cbn; [done|]. by apply IH, bt_insert_Forall.
Qed.
End BTree.
