(* ===== verification/Topology.v ===== *)
(** * Topology: the picture of a mesh

    crates/meshcop-netdiag/src/model.rs: the records of the topology snapshot
    and how they are filled from diagnostic answers.  The [hex] crate is a
    parameter. *)
From S2P Require Import Prelude Text Hex Tlv Errors Dataset NetDiag.

Definition REDACTED : string := "<redacted>".

(** [{:04x}] of a [u16]. *)
Definition hex4 (n : Z) : string := hex2 (n / 0x100) +:+ hex2 (n mod 0x100).
Definition format_rloc16 (rloc16 : Z) : string := "0x" +:+ hex4 rloc16.
Definition rloc_router_id (rloc16 : Z) : Z := wrap 8 (Z.shiftr rloc16 10).
Definition rloc_child_id (rloc16 : Z) : option Z :=
  let id := Z.land rloc16 0x03ff in if id =? 0 then None else Some id.
(** [u16::from(router_id) << 10]: the bits shifted out are dropped. *)
Definition router_rloc16 (router_id : Z) : Z := wrap 16 (Z.shiftl router_id 10).

Definition format_prefix (prefix : bytes) (bit_length : Z) : string :=
  let n := Z.min (len prefix) 16 in
  let octets := take (Z.to_nat n) prefix ++ repeat 0 (Z.to_nat (16 - n)) in
  ipv6_display octets +:+ "/" +:+ dec bit_length.

(** ** Records *)

Record NetworkInfo := mkNetworkInfo {
  ni_network_name : option bytes;
  ni_pan_id : option string;
  ni_extended_pan_id : option string;
  ni_channel_page : option Z;
  ni_channel : option Z;
  ni_mesh_local_prefix : option string;
  ni_partition_id : option Z;
  ni_leader_rloc16 : option string }.

Inductive Discovery := DirectQuery | ParentTable | Unreachable.
#[global] Instance Discovery_eq_dec : EqDecision Discovery.
Proof. solve_decision. Defined.
Inductive Role := Leader | Router | Child.
#[global] Instance Role_eq_dec : EqDecision Role.
Proof. solve_decision. Defined.

Record ModeInfo := mkModeInfo { mi_rx_on_when_idle : bool; device_type : string; full_network_data : bool }.
Definition ModeInfo_from_mode (mode : ModeData) : ModeInfo :=
  mkModeInfo (rx_on_when_idle mode) (if is_mtd mode then "mtd" else "ftd") (requires_full_network_data mode).

Record ConnectivityInfo := mkConnectivityInfo {
  ci_parent_priority : Z;
  link_quality_3_neighbors : Z;
  link_quality_2_neighbors : Z;
  link_quality_1_neighbors : Z;
  ci_leader_cost : Z;
  ci_id_sequence : Z;
  ci_active_routers : Z;
  ci_rx_off_child_buffer_size : option Z;
  ci_rx_off_child_datagram_count : option Z }.
Definition ConnectivityInfo_from_connectivity (value : Connectivity) : ConnectivityInfo :=
  mkConnectivityInfo (parent_priority value) (link_quality_3 value) (link_quality_2 value) (link_quality_1 value)
    (leader_cost value) (conn_id_sequence value) (active_routers value) (rx_off_child_buffer_size value)
    (rx_off_child_datagram_count value).

Record LeaderDataInfo := mkLeaderDataInfo {
  li_partition_id : Z;
  li_weighting : Z;
  li_data_version : Z;
  li_stable_data_version : Z;
  li_leader_router_id : Z }.
Definition LeaderDataInfo_from_leader_data (value : LeaderData) : LeaderDataInfo :=
  mkLeaderDataInfo (partition_id value) (weighting value) (data_version value) (stable_data_version value)
    (leader_router_id value).

Record RouteEntryInfo := mkRouteEntryInfo {
  re_router_id : Z;
  re_rloc16 : string;
  relation : string;
  link_quality_in : Z;
  link_quality_out : Z;
  re_route_cost : Z }.

Record ChildEntryInfo := mkChildEntryInfo {
  ce_rloc16 : string;
  ce_child_id : Z;
  ce_timeout_seconds : Z;
  ce_incoming_link_quality : Z;
  ce_mode : ModeInfo }.

Record MacCountersInfo := mkMacCountersInfo {
  mc_if_in_unknown_protos : Z;
  mc_if_in_errors : Z;
  mc_if_out_errors : Z;
  mc_if_in_ucast_pkts : Z;
  mc_if_in_broadcast_pkts : Z;
  mc_if_in_discards : Z;
  mc_if_out_ucast_pkts : Z;
  mc_if_out_broadcast_pkts : Z;
  mc_if_out_discards : Z }.
Definition MacCountersInfo_from_counters (value : MacCounters) : MacCountersInfo :=
  mkMacCountersInfo (if_in_unknown_protos value) (if_in_errors value) (if_out_errors value) (if_in_ucast_pkts value)
    (if_in_broadcast_pkts value) (if_in_discards value) (if_out_ucast_pkts value) (if_out_broadcast_pkts value)
    (if_out_discards value).

Record HasRouteInfo := mkHasRouteInfo { hr_rloc16 : string; hr_preference : Z; hr_nat64 : bool }.
Record BorderRouterInfo := mkBorderRouterInfo { br_rloc16 : string; br_preference : Z; br_flags : string }.
Record PrefixInfo := mkPrefixInfo {
  pi_prefix : string;
  pi_domain_id : Z;
  six_lowpan_context_id : option Z;
  pi_has_route : list HasRouteInfo;
  pi_border_routers : list BorderRouterInfo }.

Record Node := mkNode {
  n_rloc16 : string;
  n_router_id : Z;
  n_child_id : option Z;
  role : Role;
  discovery : Discovery;
  parent_rloc16 : option string;
  ext_mac_address : option string;
  n_eui64 : option string;
  n_mode : option ModeInfo;
  n_timeout_seconds : option Z;
  ipv6_addresses : list string;
  n_connectivity : option ConnectivityInfo;
  n_leader_data : option LeaderDataInfo;
  route_table : list RouteEntryInfo;
  n_child_table : list ChildEntryInfo;
  n_mac_counters : option MacCountersInfo;
  battery_level_percent : option Z;
  supply_voltage_mv : option Z;
  network_data_prefixes : list PrefixInfo;
  n_channel_pages : option bytes }.

Record LinkView := mkLinkView { lq_in : Z; lq_out : Z }.
Inductive Link :=
  | LinkMesh (a b : string) (a_view b_view : option LinkView)
  | LinkParentChild (parent child : string) (link_quality timeout_seconds : Z).

Record TopologySnapshot := mkTopologySnapshot {
  generated_unix_time : Z;
  border_agent : string;
  network : NetworkInfo;
  nodes : list Node;
  links : list Link }.

(** ** Nodes *)

Section Nodes.
Context {HX : Hex}.

Definition Node_skeleton (rloc16 : Z) (role : Role) (discovery : Discovery) : Node :=
  mkNode (format_rloc16 rloc16) (rloc_router_id rloc16) (rloc_child_id rloc16) role discovery
    None None None None None [] None None [] [] None None None [] None.
Definition Node_unreachable (rloc16 : Z) : Node := Node_skeleton rloc16 Router Unreachable.

Definition child_entry_info (parent_rloc : Z) (entry : ChildTableEntry) : result Error ChildEntryInfo :=
  let! timeout := timeout_seconds entry in
  Ok (mkChildEntryInfo (format_rloc16 (Z.lor parent_rloc (child_id entry))) (child_id entry) timeout
        (child_incoming_link_quality entry) (ModeInfo_from_mode (child_mode entry))).

Definition border_router_flags (entry : BorderRouterEntry) : string :=
  fold_left (fun (flags : string) (e : bool * string) => if e.1 then flags +:+ e.2 else flags)
    [(is_preferred entry, "p"); (is_slaac entry, "a"); (is_dhcp entry, "d"); (is_configure entry, "c");
     (is_default_route entry, "r"); (is_on_mesh entry, "o"); (is_nd_dns entry, "n"); (is_dp entry, "D")]%string EmptyString.

Definition prefix_infos (network_data : NetworkData) : list PrefixInfo :=
  map (fun entry =>
    mkPrefixInfo (format_prefix (prefix entry) (prefix_bit_length entry)) (domain_id entry)
      (option_map context_id (six_low_pan_context entry))
      (map (fun r => mkHasRouteInfo (format_rloc16 (route_rloc16 r)) (router_preference r) (is_nat64 r)) (has_route entry))
      (map (fun b => mkBorderRouterInfo (format_rloc16 (border_rloc16 b)) (prefix_preference b) (border_router_flags b))
         (border_routers entry)))
    (prefixes network_data).

Definition route_entry_info (own_router_id : Z) (entry : RouteDataEntry) : RouteEntryInfo :=
  mkRouteEntryInfo (router_id entry) (format_rloc16 (router_rloc16 (router_id entry)))
    (if router_id entry =? own_router_id then "self"
     else if (incoming_link_quality entry >? 0) || (outgoing_link_quality entry >? 0) then "neighbor" else "multihop")
    (incoming_link_quality entry) (outgoing_link_quality entry) (route_cost entry).

(** [if let Some(v) = &data.f { self.f = g(v) }]. *)
Definition overlay {A B} (new : option A) (g : A -> B) (old : B) : B := match new with Some v => g v | None => old end.

Definition Node_merge_diag (self : Node) (data : NetDiagData) : result Error Node :=
  let! children :=
    match child_table data with
    | Some children => mapM_result (child_entry_info (router_rloc16 (n_router_id self))) children
    | None => Ok (n_child_table self)
    end in
  Ok (mkNode (n_rloc16 self) (n_router_id self) (n_child_id self) (role self) DirectQuery (parent_rloc16 self)
    (overlay (ext_mac_addr data) (fun v => Some (hex_encode v)) (ext_mac_address self))
    (overlay (eui64 data) (fun v => Some (hex_encode v)) (n_eui64 self))
    (overlay (diag_mode data) (fun v => Some (ModeInfo_from_mode v)) (n_mode self))
    (overlay (diag_timeout data) Some (n_timeout_seconds self))
    (overlay (addresses data) (map ipv6_display) (ipv6_addresses self))
    (overlay (connectivity data) (fun v => Some (ConnectivityInfo_from_connectivity v)) (n_connectivity self))
    (overlay (leader_data data) (fun v => Some (LeaderDataInfo_from_leader_data v)) (n_leader_data self))
    (overlay (route64 data) (fun r => map (route_entry_info (n_router_id self)) (route_data r)) (route_table self))
    children
    (overlay (mac_counters data) (fun v => Some (MacCountersInfo_from_counters v)) (n_mac_counters self))
    (overlay (battery_level data) Some (battery_level_percent self))
    (overlay (supply_voltage data) Some (supply_voltage_mv self))
    (overlay (network_data data) prefix_infos (network_data_prefixes self))
    (overlay (channel_pages data) Some (n_channel_pages self))).

Definition Node_from_diag (rloc16 : Z) (role : Role) (data : NetDiagData) : result Error Node :=
  Node_merge_diag (Node_skeleton rloc16 role DirectQuery) data.

Definition with_role (r : Role) (n : Node) : Node :=
  mkNode (n_rloc16 n) (n_router_id n) (n_child_id n) r (discovery n) (parent_rloc16 n) (ext_mac_address n) (n_eui64 n)
    (n_mode n) (n_timeout_seconds n) (ipv6_addresses n) (n_connectivity n) (n_leader_data n) (route_table n)
    (n_child_table n) (n_mac_counters n) (battery_level_percent n) (supply_voltage_mv n) (network_data_prefixes n) (n_channel_pages n).
Definition with_addresses (l : list string) (n : Node) : Node :=
  mkNode (n_rloc16 n) (n_router_id n) (n_child_id n) (role n) (discovery n) (parent_rloc16 n) (ext_mac_address n) (n_eui64 n)
    (n_mode n) (n_timeout_seconds n) l (n_connectivity n) (n_leader_data n) (route_table n)
    (n_child_table n) (n_mac_counters n) (battery_level_percent n) (supply_voltage_mv n) (network_data_prefixes n) (n_channel_pages n).
(** The fields a parent's table gives of a child. *)
Definition with_parent (parent : string) (mode : ModeInfo) (timeout : Z) (n : Node) : Node :=
  mkNode (n_rloc16 n) (n_router_id n) (n_child_id n) (role n) (discovery n) (Some parent) (ext_mac_address n) (n_eui64 n)
    (Some mode) (Some timeout) (ipv6_addresses n) (n_connectivity n) (n_leader_data n) (route_table n)
    (n_child_table n) (n_mac_counters n) (battery_level_percent n) (supply_voltage_mv n) (network_data_prefixes n) (n_channel_pages n).

(** ** Redaction *)

Definition Node_redact_secrets (self : Node) : Node := with_addresses (map (fun _ => REDACTED) (ipv6_addresses self)) self.

Definition redact (o : option string) : option string := match o with Some _ => Some REDACTED | None => None end.
Definition TopologySnapshot_redact_secrets (self : TopologySnapshot) : TopologySnapshot :=
  let ni := network self in
  mkTopologySnapshot (generated_unix_time self) (border_agent self)
    (mkNetworkInfo (ni_network_name ni) (ni_pan_id ni) (redact (ni_extended_pan_id ni)) (ni_channel_page ni) (ni_channel ni)
       (redact (ni_mesh_local_prefix ni)) (ni_partition_id ni) (ni_leader_rloc16 ni))
    (map Node_redact_secrets (nodes self)) (links self).
End Nodes.

(** The checks of the source's tests. *)
Example border_flags : border_router_flags (mkBorderRouterEntry 1 0 true true true true true true true true) = "padcronD"%string.
Proof. reflexivity. Qed.
Example rloc_formats : format_rloc16 1 = "0x0001"%string /\ rloc_router_id 0xfc01 = 63 /\ rloc_child_id 0x0400 = None /\
  rloc_child_id 0x0401 = Some 1.
Proof. repeat split. Qed.
Example prefix_format : format_prefix [0xfd; 0x11; 0x22; 0x33; 0x44; 0x55; 0x66; 0x77] 64 = "fd11:2233:4455:6677::/64"%string.
Proof. reflexivity. Qed.
