(* ===== verification/Collect.v ===== *)
(** * Collect: the walk of the mesh

    crates/meshcop-netdiag/src/collect.rs: diagnostics of every node are fetched
    through the commissioner handle, in batches of TLVs that are split when a
    node does not answer, and put together in a topology snapshot.  The progress
    messages on standard error are left out; the clock is read by the caller. *)
From S2P Require Import Prelude Text Hex Tlv Errors Dataset Coap NetDiag Messages Joiner.
From S2P Require Import Commissioner SessionDriver Client BTree Topology.

Definition CHUNK_SIZE : Z := 6.
Definition PRIME_ATTEMPTS : nat := 4.

Definition ROUTER_TLVS : list Z :=
  [diag_flags.MAC_ADDR; diag_flags.EXT_MAC_ADDR; diag_flags.MODE; diag_flags.TIMEOUT; diag_flags.CONNECTIVITY;
   diag_flags.ROUTE64; diag_flags.LEADER_DATA; diag_flags.MAC_COUNTERS; diag_flags.BATTERY_LEVEL;
   diag_flags.SUPPLY_VOLTAGE; diag_flags.CHILD_TABLE; diag_flags.CHANNEL_PAGES; diag_flags.EUI64;
   diag_flags.CHILD_IPV6_ADDRESSES; diag_flags.NETWORK_DATA; diag_flags.IPV6_ADDRESSES].
Definition CHILD_TLVS : list Z :=
  [diag_flags.MAC_ADDR; diag_flags.EXT_MAC_ADDR; diag_flags.MODE; diag_flags.TIMEOUT; diag_flags.CONNECTIVITY;
   diag_flags.LEADER_DATA; diag_flags.MAC_COUNTERS; diag_flags.BATTERY_LEVEL; diag_flags.SUPPLY_VOLTAGE;
   diag_flags.CHANNEL_PAGES; diag_flags.EUI64; diag_flags.IPV6_ADDRESSES].
Definition DISCOVERY_TLVS : list Z := [diag_flags.MAC_ADDR; diag_flags.ROUTE64; diag_flags.LEADER_DATA].
(** Network name, channel, PAN ID, extended PAN ID and mesh-local prefix. *)
Definition DATASET_FLAGS : Z :=
  fold_left Z.lor [Z.shiftl 1 14; Z.shiftl 1 8; Z.shiftl 1 12; Z.shiftl 1 11] (Z.shiftl 1 9).

(** ** Merging answers *)

Definition or_new {A} (new old : option A) : option A := match new with Some _ => new | None => old end.
Definition merge_netdiag (acc new : NetDiagData) : NetDiagData :=
  mkNetDiagData
    (or_new (ext_mac_addr new) (ext_mac_addr acc))
    (or_new (mac_addr new) (mac_addr acc))
    (or_new (diag_mode new) (diag_mode acc))
    (or_new (diag_timeout new) (diag_timeout acc))
    (or_new (connectivity new) (connectivity acc))
    (or_new (route64 new) (route64 acc))
    (or_new (leader_data new) (leader_data acc))
    (or_new (network_data new) (network_data acc))
    (or_new (addresses new) (addresses acc))
    (or_new (mac_counters new) (mac_counters acc))
    (or_new (battery_level new) (battery_level acc))
    (or_new (supply_voltage new) (supply_voltage acc))
    (or_new (child_table new) (child_table acc))
    (or_new (channel_pages new) (channel_pages acc))
    (or_new (type_list new) (type_list acc))
    (or_new (eui64 new) (eui64 acc))
    (or_new (child_ipv6_addresses new) (child_ipv6_addresses acc)).

(** ** Roles *)

Definition default_role (rloc16 : Z) : Role := match rloc_child_id rloc16 with Some _ => Child | None => Router end.
Definition resolve_role (rloc16 : Z) (data : NetDiagData) (fallback : Role) : Role :=
  match rloc_child_id rloc16 with
  | Some _ => Child
  | None =>
      match leader_data data with
      | Some l => if router_rloc16 (leader_router_id l) =? rloc16 then Leader else fallback
      | None => fallback
      end
  end.

Section Collector.
Context {JH : JoinerHandler} {HX : Hex}.

(** ** Children and links *)

Definition child_of_entry (parent_rloc : Z) (parent : NetDiagData) (entry : ChildTableEntry) : result Error (Z * Node) :=
  let child_rloc := Z.lor parent_rloc (child_id entry) in
  let! info := child_entry_info parent_rloc entry in
  let node := with_parent (format_rloc16 parent_rloc) (ce_mode info) (ce_timeout_seconds info)
                (Node_skeleton child_rloc Child ParentTable) in
  let node :=
    match child_ipv6_addresses parent with
    | Some lists =>
        match List.find (fun l => child_rloc16 l =? child_rloc) lists with
        | Some l => with_addresses (map ipv6_display (child_addresses l)) node
        | None => node
        end
    | None => node
    end in
  Ok (child_rloc, node).

Fixpoint merge_children (parent_rloc : Z) (parent : NetDiagData) (table : list ChildTableEntry) (children : list (Z * Node))
    : result Error (list (Z * Node)) :=
  match table with
  | [] => Ok children
  | entry :: table =>
      let! '(child_rloc, node) := child_of_entry parent_rloc parent entry in
      merge_children parent_rloc parent table (bt_insert child_rloc node children)
  end.
Definition merge_parent_children (children : list (Z * Node)) (parent_rloc : Z) (parent : NetDiagData)
    : result Error (list (Z * Node)) :=
  match child_table parent with
  | None => Ok children
  | Some table => merge_children parent_rloc parent table children
  end.

(** The two views of a mesh link, by the lower and the higher RLOC16. *)
Definition MeshLinks : Type := list ((Z * Z) * (option LinkView * option LinkView)).

Definition add_mesh_link (rloc : Z) (mesh : MeshLinks) (entry : RouteEntryInfo) : MeshLinks :=
  if negb (String.eqb (relation entry) "neighbor") then mesh
  else
    let other := router_rloc16 (re_router_id entry) in
    let view := mkLinkView (link_quality_in entry) (link_quality_out entry) in
    let key := (Z.min rloc other, Z.max rloc other) in
    let slot := default (None, None) (bt_get key mesh) in
    bt_insert key (if rloc <=? other then (Some view, slot.2) else (slot.1, Some view)) mesh.

Definition mesh_links (nodes : list (Z * Node)) : MeshLinks :=
  fold_left (fun mesh n => fold_left (add_mesh_link n.1) (route_table n.2) mesh) nodes [].
Definition child_links (nodes : list (Z * Node)) : list Link :=
  concat (map (fun n => map (fun e => LinkParentChild (format_rloc16 n.1) (ce_rloc16 e) (ce_incoming_link_quality e)
                                        (ce_timeout_seconds e)) (n_child_table n.2)) nodes).
Definition build_links (nodes : list (Z * Node)) : list Link :=
  map (fun e => LinkMesh (format_rloc16 e.1.1) (format_rloc16 e.1.2) e.2.1 e.2.2) (mesh_links nodes) ++ child_links nodes.

(** ** Queries *)

Record Collector := mkCollector { col_mesh_local_prefix : bytes; dataset : Dataset }.

Definition Collector_start : Prog Collector :=
  let+ dataset := get_active_dataset DATASET_FLAGS in
  let+ found := plift (Dataset_mesh_local_prefix dataset) in
  let+ prefix := plift (ok_or found (EInvalidState "active dataset did not include the mesh-local prefix")) in
  Ret (mkCollector prefix dataset).

Definition mesh_local_addr (self : Collector) (rloc16 : Z) : Ipv6Addr :=
  col_mesh_local_prefix self ++ [0x00; 0x00; 0x00; 0xff; 0xfe; 0x00] ++ to_be 2 rloc16.
Definition mesh_local_prefix_string (self : Collector) : string :=
  ipv6_display (col_mesh_local_prefix self ++ repeat 0 8) +:+ "/64".

Definition diag_query (destination : Ipv6Addr) (flags : Z) : Prog (option NetDiagData) :=
  let+ status := status_now in
  match status with
  | Closed reason => Throw (ESessionLost reason)
  | _ =>
      let+ answer := try (timeout (get_diagnostics destination flags)) in
      match answer with
      | inr (Some data) => Ret (Some data)
      | inr None => Ret None
      | inl (ETimeout _) | inl (ETlv _) | inl (EDataset _) | inl (EInvalidState _) => Ret None
      | inl err => Throw err
      end
  end.

Fixpoint prime_loop (attempts : nat) (destination : Ipv6Addr) : Prog (option NetDiagData) :=
  match attempts with
  | O => Ret None
  | S attempts =>
      let+ answer := diag_query destination diag_flags.MAC_ADDR in
      match (answer : option NetDiagData) with
      | Some data => Ret (Some data)
      | None => prime_loop attempts destination
      end
  end.
Definition prime (destination : Ipv6Addr) : Prog (option NetDiagData) := prime_loop PRIME_ATTEMPTS destination.

Definition combine_flags (batch : list Z) : Z := fold_left Z.lor batch 0.

(** The stack with its top first. *)
Fixpoint batch_loop (query : Z -> Prog (option NetDiagData)) (fuel : nat) (stack : list (list Z)) (merged : NetDiagData)
    : Prog NetDiagData :=
  match stack with
  | [] => Ret merged
  | batch :: stack =>
      match fuel with
      | O => Crash OutOfFuel
      | S fuel =>
          let combined := combine_flags batch in
          if combined =? 0 then batch_loop query fuel stack merged
          else
            let+ answer := query combined in
            match (answer : option NetDiagData) with
            | Some data => batch_loop query fuel stack (merge_netdiag merged data)
            | None =>
                if len batch >? 1 then
                  let mid := Z.to_nat (len batch / 2) in
                  batch_loop query fuel (drop mid batch :: take mid batch :: stack) merged
                else batch_loop query fuel stack merged
            end
      end
  end.

(** The first batches, and the turns their splitting can take. *)
Definition first_batches (tlvs : list Z) : list (list Z) :=
  chunks CHUNK_SIZE (List.filter (fun flag => negb (flag =? diag_flags.MAC_ADDR)) tlvs).
Definition batch_fuel (stack : list (list Z)) : nat := sum_list_with (fun batch => 2 * length batch - 1)%nat stack.

Definition collect_diag (destination : Ipv6Addr) (tlvs : list Z) : Prog (option NetDiagData) :=
  let+ primer := prime destination in
  match (primer : option NetDiagData) with
  | None => Ret None
  | Some primer =>
      let stack := first_batches tlvs in
      let+ merged := batch_loop (diag_query destination) (batch_fuel stack) stack (merge_netdiag NetDiagData_default primer) in
      Ret (Some merged)
  end.

(** ** The walk *)

Definition network_info (self : Collector) (leader_rloc : Z) (leader : NetDiagData) : result Error NetworkInfo :=
  let! channel := Dataset_channel (dataset self) in
  let! name := Dataset_network_name (dataset self) in
  let! pan := Dataset_pan_id (dataset self) in
  let! xpan := Dataset_extended_pan_id (dataset self) in
  Ok (mkNetworkInfo name (option_map (fun p => "0x" +:+ hex4 p) pan) (option_map hex_encode xpan)
        (option_map channel_page channel) (option_map channel_number channel) (Some (mesh_local_prefix_string self))
        (option_map partition_id (leader_data leader)) (Some (format_rloc16 leader_rloc))).

Fixpoint collect_routers (self : Collector) (leader_rloc : Z) (router_rlocs : list Z) (nodes : list (Z * Node))
    (answers : list (Z * NetDiagData)) : Prog (list (Z * Node) * list (Z * NetDiagData)) :=
  match router_rlocs with
  | [] => Ret (nodes, answers)
  | rloc :: router_rlocs =>
      let role := if rloc =? leader_rloc then Leader else Router in
      let+ answer := collect_diag (mesh_local_addr self rloc) ROUTER_TLVS in
      match (answer : option NetDiagData) with
      | Some data =>
          let+ node := plift (Node_from_diag rloc role data) in
          collect_routers self leader_rloc router_rlocs (bt_insert rloc node nodes) (bt_insert rloc data answers)
      | None =>
          collect_routers self leader_rloc router_rlocs (bt_insert rloc (with_role role (Node_unreachable rloc)) nodes) answers
      end
  end.

Fixpoint merge_answers (answers : list (Z * NetDiagData)) (children : list (Z * Node)) : result Error (list (Z * Node)) :=
  match answers with
  | [] => Ok children
  | (parent_rloc, answer) :: answers =>
      let! children := merge_parent_children children parent_rloc answer in
      merge_answers answers children
  end.

(** [for (child_rloc, child) in &mut children]. *)
Fixpoint query_children (self : Collector) (children : list (Z * Node)) : Prog (list (Z * Node)) :=
  match children with
  | [] => Ret []
  | (child_rloc, child) :: children =>
      let+ answer := collect_diag (mesh_local_addr self child_rloc) CHILD_TLVS in
      let+ child := match (answer : option NetDiagData) with
                    | Some data => plift (Node_merge_diag child data)
                    | None => Ret child
                    end in
      let+ rest := query_children self children in
      Ret ((child_rloc, child) :: rest)
  end.

Definition collect_children (self : Collector) (nodes : list (Z * Node)) (answers : list (Z * NetDiagData))
    : Prog (list (Z * Node)) :=
  let+ children := plift (merge_answers answers []) in
  let+ children := query_children self children in
  Ret (bt_extend nodes children).

Definition leader_of (discovery : NetDiagData) : option Z :=
  match mac_addr discovery with
  | Some rloc => Some rloc
  | None => option_map (fun data => router_rloc16 (leader_router_id data)) (leader_data discovery)
  end.
Definition routers_of (discovery : NetDiagData) (leader_rloc : Z) : list Z :=
  let rlocs := match route64 discovery with
               | Some r => map (fun entry => router_rloc16 (router_id entry)) (route_data r)
               | None => []
               end in
  if existsb (Z.eqb leader_rloc) rlocs then rlocs else rlocs ++ [leader_rloc].

(** [elapsed] is the time since the epoch, [None] before it. *)
Definition unix_time (elapsed : option Z) : Z := default 0 elapsed.

Definition collect_topology (self : Collector) (elapsed : option Z) (border_agent : string) : Prog TopologySnapshot :=
  let+ answer := collect_diag (mesh_local_addr self LEADER_ALOC16) DISCOVERY_TLVS in
  let+ discovery := plift (ok_or answer (ETimeout "the leader did not answer DIAG_GET.req")) in
  let+ leader_rloc := plift (ok_or (leader_of discovery)
                               (EInvalidState "leader answer carried neither RLOC16 nor leader data")) in
  let+ collected := collect_routers self leader_rloc (routers_of discovery leader_rloc) [] [] in
  let '(nodes, answers) := (collected : list (Z * Node) * list (Z * NetDiagData)) in
  let+ nodes := collect_children self nodes answers in
  let links := build_links nodes in
  let leader_diag := default discovery (bt_get leader_rloc answers) in
  let+ network := plift (network_info self leader_rloc leader_diag) in
  Ret (mkTopologySnapshot (unix_time elapsed) border_agent network (bt_values nodes) links).

Definition collect_node (self : Collector) (rloc16 : Z) : Prog Node :=
  let is_child := match rloc_child_id rloc16 with Some _ => true | None => false end in
  let+ answer := collect_diag (mesh_local_addr self rloc16) (if is_child then CHILD_TLVS else ROUTER_TLVS) in
  match (answer : option NetDiagData) with
  | Some data => plift (Node_from_diag rloc16 (resolve_role rloc16 data (default_role rloc16)) data)
  | None =>
      let unreachable := Ret (Node_skeleton rloc16 (default_role rloc16) Unreachable) in
      if is_child then
        let parent_rloc := Z.land rloc16 0xfc00 in
        let+ answer := collect_diag (mesh_local_addr self parent_rloc) ROUTER_TLVS in
        match (answer : option NetDiagData) with
        | Some parent =>
            let+ children := plift (merge_parent_children [] parent_rloc parent) in
            match bt_get rloc16 children with Some node => Ret node | None => unreachable end
        | None => unreachable
        end
      else unreachable
  end.
End Collector.
