(* ===== verification/NetDiagTypes.v ===== *)
(** * NetDiagTypes: the types of a decoded answer

    Every field of an answer that [NetDiag.NetDiagData_decode] accepts stays in
    its width, whatever the bytes: what the walk of the mesh relies on. *)
From S2P Require Import Prelude Text Tlv Errors NetDiag.

Definition u2 (x : Z) : Prop := uint 2 x.
Definition is_ipv6 (a : Ipv6Addr) : Prop := bytes_ok a /\ len a = 16.

Definition connectivity_wf (c : Connectivity) : Prop :=
  -2 <= parent_priority c <= 1 /\ is_u8 (link_quality_3 c) /\ is_u8 (link_quality_2 c) /\ is_u8 (link_quality_1 c) /\
  is_u8 (leader_cost c) /\ is_u8 (conn_id_sequence c) /\ is_u8 (active_routers c) /\
  (forall x, rx_off_child_buffer_size c = Some x -> is_u16 x) /\ (forall x, rx_off_child_datagram_count c = Some x -> is_u8 x).
Definition route_entry_wf (e : RouteDataEntry) : Prop :=
  uint 6 (router_id e) /\ u2 (outgoing_link_quality e) /\ u2 (incoming_link_quality e) /\ uint 4 (route_cost e).
Definition route64_wf (r : Route64) : Prop :=
  is_u8 (route_id_sequence r) /\ bytes_ok (route_mask r) /\ len (route_mask r) = 8 /\ Forall route_entry_wf (route_data r).
Definition leader_data_wf (l : LeaderData) : Prop :=
  is_u32 (partition_id l) /\ is_u8 (weighting l) /\ is_u8 (data_version l) /\ is_u8 (stable_data_version l) /\ is_u8 (leader_router_id l).
Definition has_route_wf (e : HasRouteEntry) : Prop := is_u16 (route_rloc16 e) /\ u2 (router_preference e).
Definition border_router_wf (e : BorderRouterEntry) : Prop := is_u16 (border_rloc16 e) /\ u2 (prefix_preference e).
Definition context_wf (c : SixLowPanContext) : Prop := uint 4 (context_id c) /\ is_u8 (context_length c).
Definition prefix_entry_wf (p : PrefixEntry) : Prop :=
  is_u8 (domain_id p) /\ is_u8 (prefix_bit_length p) /\ bytes_ok (prefix p) /\ len (prefix p) = (prefix_bit_length p + 7) / 8 /\
  (forall c, six_low_pan_context p = Some c -> context_wf c) /\ Forall has_route_wf (has_route p) /\ Forall border_router_wf (border_routers p).
Definition mac_counters_wf (c : MacCounters) : Prop :=
  Forall is_u32 [if_in_unknown_protos c; if_in_errors c; if_out_errors c; if_in_ucast_pkts c; if_in_broadcast_pkts c;
                 if_in_discards c; if_out_ucast_pkts c; if_out_broadcast_pkts c; if_out_discards c].
Definition child_ipv6_wf (c : ChildIpv6AddrInfo) : Prop :=
  is_u16 (child_rloc16 c) /\ uint 9 (child_addr_id c) /\ Forall is_ipv6 (child_addresses c).

Definition is_some_with {A} (P : A -> Prop) (o : option A) : Prop := match o with Some a => P a | None => True end.

Definition diag_wf (d : NetDiagData) : Prop :=
  is_some_with (fun v => bytes_ok v) (ext_mac_addr d) /\ is_some_with is_u16 (mac_addr d) /\ is_some_with is_u32 (diag_timeout d) /\
  is_some_with connectivity_wf (connectivity d) /\ is_some_with route64_wf (route64 d) /\
  is_some_with leader_data_wf (leader_data d) /\ is_some_with (fun n => Forall prefix_entry_wf (prefixes n)) (network_data d) /\
  is_some_with (Forall is_ipv6) (addresses d) /\ is_some_with mac_counters_wf (mac_counters d) /\
  is_some_with is_u8 (battery_level d) /\ is_some_with is_u16 (supply_voltage d) /\
  is_some_with (Forall child_bounds) (child_table d) /\ is_some_with (fun v => bytes_ok v) (channel_pages d) /\
  is_some_with (fun v => bytes_ok v) (type_list d) /\ is_some_with (fun v => bytes_ok v /\ len v = 8) (eui64 d) /\
  is_some_with (Forall child_ipv6_wf) (child_ipv6_addresses d).

(** ** The decoders *)

Lemma u2_land x : u2 (Z.land x 0x03).
Proof. unfold u2. rewrite (land_ones_mod _ 2 ltac:(lia) : Z.land _ 3 = _). apply (uint_wrap 2). lia. Qed.
Lemma u4_land x : uint 4 (Z.land x 0x0f).
Proof. rewrite (land_ones_mod _ 4 ltac:(lia) : Z.land _ 15 = _). apply (uint_wrap 4). lia. Qed.
Lemma from_be_u16 a b : is_u8 a -> is_u8 b -> is_u16 (from_be [a; b]).
Proof. intros. apply (from_be_bound [a; b]). by repeat apply Forall_cons_2. Qed.
Lemma from_be_u32 a b c d : is_u8 a -> is_u8 b -> is_u8 c -> is_u8 d -> is_u32 (from_be [a; b; c; d]).
Proof. intros. apply (from_be_bound [a; b; c; d]). by repeat apply Forall_cons_2. Qed.
#[local] Hint Resolve u2_land u4_land from_be_u16 from_be_u32 : meshcop.

(** Turns every byte read from a valid slice into a fact. *)
Ltac byte_facts v Hv :=
  repeat match goal with H : idx v _ = Ok _ |- _ => apply (idx_Forall _ _ _ _ Hv) in H end.

Lemma diag_read_u8_wf v n x : bytes_ok v -> diag_read_u8 v n = Ok x -> is_u8 x.
Proof. unfold diag_read_u8. intros Hv. destruct v as [|b [|]]; [done| |done]. intros [= <-]. by apply Forall_cons_1 in Hv as [? _]. Qed.
Lemma wire_read_wf n v x : bytes_ok v -> wire_read n v = Some x -> uint (8 * n) x.
Proof. unfold wire_read. intros Hv. destruct (len v =? n) eqn:E; [|done]. zbool. intros [= <-]. rewrite <- E. by apply from_be_bound. Qed.
Lemma diag_read_u16_wf v n x : bytes_ok v -> diag_read_u16 v n = Ok x -> is_u16 x.
Proof. intros Hv H. unfold diag_read_u16 in H. inv_ok. by apply (wire_read_wf 2 v). Qed.
Lemma diag_read_u32_wf v n x : bytes_ok v -> diag_read_u32 v n = Ok x -> is_u32 x.
Proof. intros Hv H. unfold diag_read_u32 in H. inv_ok. by apply (wire_read_wf 4 v). Qed.

Lemma decode_connectivity_wf v c : bytes_ok v -> decode_connectivity v = Ok c -> connectivity_wf c.
Proof.
  intros Hv H. unfold decode_connectivity in H. destruct (_ <? _) in H; [done|]. inv_ok; byte_facts v Hv.
  all: unfold connectivity_wf; cbn [parent_priority link_quality_3 link_quality_2 link_quality_1 leader_cost conn_id_sequence
    active_routers rx_off_child_buffer_size rx_off_child_datagram_count].
  all: split; [repeat case_match; lia|]; do 6 (split; [done|]); split; intros ? [= <-]; auto with meshcop.
Qed.
Lemma decode_leader_data_wf v l : bytes_ok v -> decode_leader_data v = Ok l -> leader_data_wf l.
Proof.
  intros Hv H. unfold decode_leader_data in H. destruct (negb _) in H; [done|]. inv_ok; byte_facts v Hv.
  unfold leader_data_wf; cbn -[from_be]. do 4 (split; [auto with meshcop|]). done.
Qed.
Lemma decode_mac_counters_wf v c : bytes_ok v -> decode_mac_counters v = Ok c -> mac_counters_wf c.
Proof.
  intros Hv H. unfold decode_mac_counters in H. destruct (negb _) in H; [done|].
  assert (forall i x, mac_counter v i = Ok x -> is_u32 x) as Hc.
  { intros i x Hx. unfold mac_counter in Hx. inv_ok. match goal with H : slice _ _ _ = Ok ?b |- _ => apply slice_inv in H as (? & ? & -> & Hl) end.
    replace 32 with (8 * len (take (Z.to_nat (i + 4 - i)) (drop (Z.to_nat i) v))) by (rewrite Hl; lia).
    by apply from_be_bound, Forall_take, Forall_drop. }
  inv_ok. unfold mac_counters_wf; cbn -[from_be]. repeat constructor; (eapply Hc; eassumption).
Qed.
Lemma decode_ipv6_address_list_wf v l : bytes_ok v -> decode_ipv6_address_list v = Ok l -> Forall is_ipv6 l.
Proof.
  intros Hv H. unfold decode_ipv6_address_list in H. destruct (negb _) eqn:E in H; [done|]. zbool. injection H as <-.
  apply Forall_and. split; [|apply chunks_exact_len]. apply concat_Forall. by rewrite chunks_exact_concat.
Qed.
Lemma decode_child_ipv6_wf v c : bytes_ok v -> decode_child_ipv6_addresses v = Ok c -> child_ipv6_wf c.
Proof.
  intros Hv H. unfold decode_child_ipv6_addresses in H. destruct (_ || _) in H; [done|]. inv_ok; byte_facts v Hv.
  match goal with H : slice_from _ _ = Ok _ |- _ => apply slice_from_inv in H as (? & -> & ?) end.
  unfold child_ipv6_wf; cbn -[from_be]. split; [auto with meshcop|]. split.
  - rewrite (land_ones_mod _ 9 ltac:(lia) : Z.land _ 511 = _). apply (uint_wrap 9). lia.
  - eapply decode_ipv6_address_list_wf; [|eassumption]. by apply Forall_drop.
Qed.
Lemma mask_router_ids_wf m i : i ∈ mask_router_ids m -> uint 6 i.
Proof.
  unfold mask_router_ids. intros Hi. apply list_elem_of_In, in_map_iff in Hi as (n & <- & [Hn _]%List.filter_In).
  apply in_seq in Hn. unfold uint. lia.
Qed.
Lemma decode_route64_wf v r : bytes_ok v -> decode_route64 v = Ok r -> route64_wf r.
Proof.
  intros Hv H. pose proof (decode_route64_inv v r Hv H) as (Hm & Hl & _). revert H.
  unfold decode_route64, ROUTER_ID_MASK_LEN. generalize mask_router_ids_wf. generalize mask_router_ids. intros ids Hids H.
  destruct (_ <? _) in H; [done|]. inv_ok; byte_facts v Hv. cbn in Hm, Hl. unfold route64_wf. cbn.
  split; [done|]. split; [done|]. split; [done|]. apply Forall_map, Forall_forall. intros [i b] Hib.
  apply elem_of_zip_l in Hib. cbn. unfold route_entry_wf; cbn. split; [by eapply Hids|auto with meshcop].
Qed.

Lemma chunk_map_wf {B} (f : bytes -> result Error B) (Q : B -> Prop) n v l : bytes_ok v -> 0 < n -> len v mod n = 0 ->
  (forall c y, bytes_ok c -> f c = Ok y -> Q y) -> mapM_result f (chunks_exact n v) = Ok l -> Forall Q l.
Proof.
  intros Hv Hn Hm Hf H. eapply (mapM_result_Forall _ bytes_ok); [exact Hf| |exact H].
  apply concat_Forall. by rewrite chunks_exact_concat.
Qed.
Lemma decode_has_route_wf v l : bytes_ok v -> decode_has_route v = Ok l -> Forall has_route_wf l.
Proof.
  intros Hv H. unfold decode_has_route, HAS_ROUTE_ENTRY_LEN in H. destruct (negb _) eqn:E in H; [done|]. zbool.
  eapply chunk_map_wf; [exact Hv| |exact E| |exact H]; [lia|]. intros c y Hc Hy. cbv beta in Hy. inv_ok. byte_facts c Hc.
  split; cbn -[from_be]; auto with meshcop.
Qed.
Lemma decode_border_router_wf v l : bytes_ok v -> decode_border_router v = Ok l -> Forall border_router_wf l.
Proof.
  intros Hv H. unfold decode_border_router, BORDER_ROUTER_ENTRY_LEN in H. destruct (negb _) eqn:E in H; [done|]. zbool.
  eapply chunk_map_wf; [exact Hv| |exact E| |exact H]; [lia|]. intros c y Hc Hy. cbv beta in Hy. inv_ok. byte_facts c Hc.
  split; cbn -[from_be]; auto with meshcop.
Qed.

(** An invariant of the sub-TLV loop. *)
Lemma for_network_tlvs_inv {S} (P : S -> Prop) (body : S -> Z -> bytes -> result Error S) fuel bs s s' : bytes_ok bs ->
  (forall s t v s', bytes_ok v -> P s -> body s t v = Ok s' -> P s') -> P s -> for_network_tlvs body fuel bs s = Ok s' -> P s'.
Proof.
  intros Hbs Hb. revert bs Hbs s. induction fuel as [|fuel IH]; intros bs Hbs s Hs; cbn [for_network_tlvs].
  - destruct (NetworkDataTlvIter_next bs) as [[[t v] rest]|]; [done|]. by intros [= <-].
  - destruct (NetworkDataTlvIter_next bs) as [[[t v] rest]|] eqn:E; [|by intros [= <-]].
    apply NetworkDataTlvIter_next_spec in E as (_ & Hv & Hr & _); [|done]. intros H. inv_ok. eapply IH; [exact Hr| |eassumption].
    eapply (Hb s _ v); [exact Hv|exact Hs|eassumption].
Qed.
Lemma decode_prefix_entry_wf v p : bytes_ok v -> decode_prefix_entry v = Ok p -> prefix_entry_wf p.
Proof.
  intros Hv H. unfold decode_prefix_entry in H. destruct (_ <? _) in H; [done|]. inv_ok; byte_facts v Hv.
  match goal with H : slice v _ _ = Ok _ |- _ => apply slice_inv in H as (? & ? & -> & Hl) end.
  match goal with H : slice_from v _ = Ok _ |- _ => apply slice_from_inv in H as (? & -> & ?) end.
  eapply (for_network_tlvs_inv prefix_entry_wf); [| | |eassumption].
  - by apply Forall_drop.
  - intros s t w s' Hw Hp Hs. pose proof Hp as (? & ? & ? & ? & Hc & Hr & Hb). unfold prefix_sub_tlv in Hs. inv_ok.
    + repeat (split; [done|]). split; [|done]. apply Forall_app. split; [done|]. eapply decode_has_route_wf; [exact Hw|eassumption].
    + repeat (split; [done|]). apply Forall_app. split; [done|]. eapply decode_border_router_wf; [exact Hw|eassumption].
    + do 4 (split; [done|]). split; [|done]. intros c [= <-].
      match goal with H : decode_six_low_pan_context _ = Ok _ |- _ => unfold decode_six_low_pan_context in H; rename H into Hd end.
      destruct w as [|f [|n [|]]]; try discriminate Hd. injection Hd as <-. split; cbn; [auto with meshcop|].
      by apply Forall_cons_1 in Hw as [_ [? _]%Forall_cons_1].
    + exact Hp.
  - do 2 (split; [done|]). cbn. split; [by apply Forall_take, Forall_drop|]. split; [|by repeat split].
    rewrite Hl. lia.
Qed.
Lemma NetworkData_decode_wf v n : bytes_ok v -> NetworkData_decode v = Ok n -> Forall prefix_entry_wf (prefixes n).
Proof.
  intros Hv H. unfold NetworkData_decode in H. inv_ok. cbn [prefixes].
  eapply (for_network_tlvs_inv (Forall prefix_entry_wf)); [exact Hv| |by constructor|eassumption].
  intros s t w s' Hw Hs Hb. cbv beta in Hb. inv_ok; [|done]. apply Forall_app. split; [done|].
  constructor; [|constructor]. eapply decode_prefix_entry_wf; [exact Hw|eassumption].
Qed.

(** ** The answer *)

Lemma diag_wf_default : diag_wf NetDiagData_default.
Proof. by repeat split. Qed.

Lemma diag_entry_wf out e d : tlv_wf e -> diag_wf out -> diag_entry out e = Ok d -> diag_wf d.
Proof.
  intros (_ & Hv & _) Hout H. unfold diag_wf in *. destruct Hout as (?&?&?&?&?&?&?&?&?&?&?&?&?&?&?&?).
  revert H. unfold diag_entry. repeat case_match; intros; inv_ok; repeat match goal with |- _ /\ _ => split end; try done; cbn; try done.
  all: first
    [ eapply diag_read_u8_wf; eassumption | eapply diag_read_u16_wf; eassumption | eapply diag_read_u32_wf; eassumption
    | eapply decode_connectivity_wf; eassumption | eapply decode_route64_wf; eassumption
    | eapply decode_leader_data_wf; eassumption | eapply NetworkData_decode_wf; eassumption
    | eapply decode_ipv6_address_list_wf; eassumption | eapply decode_mac_counters_wf; eassumption
    | eapply child_table_bounds; eassumption | idtac].
  apply Forall_app. split; [by destruct (child_ipv6_addresses out)|]. constructor; [|constructor].
  eapply decode_child_ipv6_wf; eassumption.
Qed.

Lemma diag_entries_wf l out d : Forall tlv_wf l -> diag_wf out -> diag_entries l out = Ok d -> diag_wf d.
Proof.
  intros Hl. revert out. induction Hl as [|e l He _ IH]; intros out Hout; cbn; [by intros [= <-]|]. intros H. inv_ok.
  eapply IH; [|eassumption]. by eapply diag_entry_wf.
Qed.

Lemma NetDiagData_decode_wf payload d : bytes_ok payload -> NetDiagData_decode payload = Ok d -> diag_wf d.
Proof.
  intros Hp H. unfold NetDiagData_decode in H. inv_ok. match goal with H : from_tlv _ = Ok _ |- _ => apply from_tlv_ok in H as Hs end.
  eapply diag_entries_wf; [|apply diag_wf_default|eassumption]. by apply (TlvSet_parse_wf payload).
Qed.

(** C33: decoded answers are well typed.  Decoding diagnostic bytes never panics,
    and every field of an answer it accepts stays in its type: 6-bit router IDs
    and their 2-bit link qualities, 5-bit timeout exponents (so that a child's
    timeout is a [u32]), 9-bit child IDs, whole addresses, prefixes as long as
    their bit length says, and every counter in its width. *)
Theorem decoded_answer_typed payload :
  bytes_ok payload ->
  safe (NetDiagData_decode payload) /\
  forall d, NetDiagData_decode payload = Ok d ->
    diag_wf d /\ forall table, child_table d = Some table ->
      Forall (fun e => exists s, timeout_seconds e = Ok s /\ 0 <= s <= 2 ^ 27) table.
Proof.
  intros Hp. split; [by apply NetDiagData_decode_safe|]. intros d Hd. pose proof (NetDiagData_decode_wf _ _ Hp Hd) as Hwf.
  split; [done|]. intros table Ht. destruct Hwf as (_&_&_&_&_&_&_&_&_&_&_&Hc&_). rewrite Ht in Hc.
  eapply Forall_impl; [exact Hc|apply child_bounds_timeout].
Qed.

(** RLOC16, a child table of one entry and a router table of one router. *)
Lemma decoded_answer_typed_witness :
  let p := [1; 2; 0x04; 0; 16; 3; 0x51; 0x02; 0x04; 5; 10; 7; 0x40; 0; 0; 0; 0; 0; 0; 0; 0x51] in
  exists d, NetDiagData_decode p = Ok d /\ mac_addr d = Some 0x400 /\ child_table d = Some [mkChildTableEntry 10 0 258 (mkModeData false true false)] /\ diag_wf d.
Proof.
  intros p. destruct (decoded_answer_typed p) as [_ H]; [by_decide|].
  destruct (NetDiagData_decode p) as [d| |] eqn:E; vm_compute in E; try discriminate E. exists d.
  injection E as <-. split; [reflexivity|]. split; [reflexivity|]. split; [reflexivity|]. by apply (H _ eq_refl).
Defined.
