(* ===== verification/CollectSafety.v ===== *)
(** * CollectSafety: the walk of the mesh ends, whatever the nodes answer

    A program is [total] when it neither panics nor runs out of fuel on any
    answers made of bytes.  The walk is, and what it returns is consistent. *)
From S2P Require Import Prelude Text Hex Tlv Errors Dataset Coap NetDiag Messages Joiner.
From S2P Require Import Commissioner SessionDriver SessionCore Client BTree Topology NetDiagTypes Collect.

(** ** Total programs *)

Section Total.
Context {JH : JoinerHandler}.

Definition outcome_bytes (a : option (Error + option CoapMessage)) : Prop :=
  match a with Some (inr (Some m)) => bytes_ok (payload m) | _ => True end.
Definition answer_ok {X} (r : Request X) : X -> Prop :=
  match r in Request X return X -> Prop with
  | Submit _ => outcome_bytes
  | SubmitWithin _ => is_some_with outcome_bytes
  | _ => fun _ => True
  end.

Fixpoint total {A} (p : Prog A) (Q : A -> Prop) : Prop :=
  match p with
  | Ret a => Q a
  | Throw _ => True
  | Crash _ => False
  | Do r k => forall x, answer_ok r x -> total (k x) Q
  end.

Lemma total_mono {A} (p : Prog A) (Q Q' : A -> Prop) : total p Q -> (forall a, Q a -> Q' a) -> total p Q'.
Proof. induction p as [| | |X r k IH]; cbn; eauto. Qed.
Lemma total_bind {A B} (p : Prog A) (k : A -> Prog B) Q : total p (fun a => total (k a) Q) -> total (pbind p k) Q.
Proof. induction p as [| | |X r k' IH]; cbn; eauto. Qed.
Lemma total_then {A B} (p : Prog A) (k : A -> Prog B) P Q :
  total p P -> (forall a, P a -> total (k a) Q) -> total (pbind p k) Q.
Proof. intros Hp Hk. apply total_bind. by eapply total_mono. Qed.
Lemma total_plift {A} (r : result Error A) (Q : A -> Prop) : safe r -> (forall a, r = Ok a -> Q a) -> total (plift r) Q.
Proof. destruct r; cbn; auto. Qed.
Lemma total_try {A} (p : Prog A) (Q : A -> Prop) : total p Q -> total (try p) (fun r => match r with inr a => Q a | inl _ => True end).
Proof. induction p as [| | |X r k IH]; cbn; auto. Qed.
Lemma total_timeout {A} (p : Prog A) (Q : A -> Prop) : total p Q -> total (timeout p) (is_some_with Q).
Proof.
  induction p as [| | |X r k IH]; cbn; [done..|]. intros H. destruct r; cbn in *; auto.
  intros [x|] Hx; [|done]. apply IH, H, Hx.
Qed.
End Total.

Section Safety.
Context {JH : JoinerHandler} {HX : Hex}.

(** ** Queries *)

Lemma total_status (Q : SessionStatus -> Prop) : (forall s, Q s) -> total status_now Q.
Proof. intros HQ [s b] _. cbn. destruct (_ && _); apply HQ. Qed.
Lemma total_session (Q : Z -> Prop) : (forall s, Q s) -> total session_id_required Q.
Proof.
  intros HQ. do 2 apply total_bind. apply total_status. intros s. apply total_plift; [apply safe_ok_or|auto].
Qed.
Lemma total_get_diagnostics destination flags : total (get_diagnostics destination flags) diag_wf.
Proof.
  unfold get_diagnostics. apply total_bind, total_session. intros _. destruct (is_multicast destination); [done|].
  apply total_bind, total_plift.
  { unfold diagnostic_request. apply safe_bind; [apply append_tlv_safe|intros ? _]. apply post_request_safe. }
  intros m _. apply total_bind. unfold execute_proxied, execute, Commissioner_submit. do 2 apply total_bind.
  intros [[e|[r|]]|] Hr; cbn in Hr |- *; [done| |done|done].
  unfold successful. cbn [ok_or rbind]. apply total_plift; [unfold require_success_response; by case_match|].
  intros r' E. assert (r' = r) as -> by (unfold require_success_response in E; case_match; congruence).
  apply total_plift; [by apply NetDiagData_decode_safe|]. intros d. by apply NetDiagData_decode_wf.
Qed.

Definition answer_wf : option NetDiagData -> Prop := is_some_with diag_wf.

Lemma total_diag_query destination flags : total (diag_query destination flags) answer_wf.
Proof.
  unfold diag_query. apply total_bind, total_status. intros s.
  assert (total (let+ answer := try (timeout (get_diagnostics destination flags)) in
    match answer with
    | inr (Some data) => Ret (Some data)
    | inr None => Ret None
    | inl (ETimeout _) | inl (ETlv _) | inl (EDataset _) | inl (EInvalidState _) => Ret None
    | inl err => Throw err
    end) answer_wf) as Hq.
  { eapply total_then; [apply total_try, total_timeout, total_get_diagnostics|]. intros [e|[d|]] Hd; cbn in *; [by destruct e|done|done]. }
  by destruct s.
Qed.
Lemma total_prime destination : total (prime destination) answer_wf.
Proof.
  unfold prime. induction PRIME_ATTEMPTS as [|n IH]; cbn [prime_loop]; [done|].
  eapply total_then; [apply total_diag_query|]. by intros [d|] Hd.
Qed.

Lemma or_new_with {A} (P : A -> Prop) new old : is_some_with P new -> is_some_with P old -> is_some_with P (or_new new old).
Proof. by destruct new. Qed.
Lemma merge_wf a b : diag_wf a -> diag_wf b -> diag_wf (merge_netdiag a b).
Proof.
  unfold diag_wf, merge_netdiag. cbn. intros Ha Hb. repeat match goal with H : _ /\ _ |- _ => destruct H end.
  repeat match goal with |- _ /\ _ => split end; by apply or_new_with.
Qed.

(** ** The batches *)

Lemma chunks_fuel_nonempty {A} fuel n (l : list A) : (0 < n)%nat -> Forall (fun c => c <> []) (chunks_fuel fuel n l).
Proof.
  intros Hn. revert l. induction fuel as [|fuel IH]; intros [|x l]; cbn; [constructor..|]. constructor; [by destruct n; [lia|]|apply IH].
Qed.
Lemma first_batches_nonempty tlvs : Forall (fun b => b <> []) (first_batches tlvs).
Proof. apply chunks_fuel_nonempty. unfold CHUNK_SIZE. lia. Qed.

(** The two halves of a batch, and the turns they take. *)
Lemma halves_nonempty (batch : list Z) : (len batch >? 1) = true ->
  drop (Z.to_nat (len batch / 2)) batch <> [] /\ take (Z.to_nat (len batch / 2)) batch <> [] /\
  (length (drop (Z.to_nat (len batch / 2)) batch) + length (take (Z.to_nat (len batch / 2)) batch) = length batch)%nat.
Proof.
  intros H. rewrite Z.gtb_ltb in H. zbool. unfold len in *.
  assert (0 < Z.of_nat (length batch) / 2 < Z.of_nat (length batch)) as Hm by (Z.to_euclidean_division_equations; lia).
  rewrite <- !length_zero_iff_nil, length_drop, length_take. lia.
Qed.
Lemma batch_fuel_split batch stack : (len batch >? 1) = true ->
  (batch_fuel (drop (Z.to_nat (len batch / 2)) batch :: take (Z.to_nat (len batch / 2)) batch :: stack) < batch_fuel (batch :: stack))%nat.
Proof.
  intros H. destruct (halves_nonempty batch H) as (H1 & H2 & H3). unfold batch_fuel. cbn [sum_list_with].
  rewrite <- length_zero_iff_nil in H1. rewrite <- length_zero_iff_nil in H2. lia.
Qed.
Lemma batch_fuel_cons batch stack : batch <> [] -> (batch_fuel stack < batch_fuel (batch :: stack))%nat.
Proof. intros H. unfold batch_fuel. cbn [sum_list_with]. destruct batch; [done|cbn; lia]. Qed.

Lemma total_batch_loop query fuel stack merged : (forall flags, total (query flags) answer_wf) ->
  Forall (fun b => b <> []) stack -> (batch_fuel stack <= fuel)%nat -> diag_wf merged ->
  total (batch_loop query fuel stack merged) diag_wf.
Proof.
  intros Hq. revert stack merged. induction fuel as [|fuel IH]; intros [|batch stack] merged Hne Hf Hm; cbn [batch_loop]; [done| |done|].
  - inversion Hne as [|? ? Hb]; subst. pose proof (batch_fuel_cons batch stack Hb). lia.
  - inversion Hne as [|? ? Hb Hs]; subst. pose proof (batch_fuel_cons batch stack Hb).
    destruct (_ =? 0); [apply IH; [done|lia|done]|]. eapply total_then; [apply Hq|]. intros [d|] Hd.
    + apply IH; [done|lia|by apply merge_wf].
    + destruct (len batch >? 1) eqn:E; [|apply IH; [done|lia|done]].
      destruct (halves_nonempty batch E) as (? & ? & _). pose proof (batch_fuel_split batch stack E).
      apply IH; [by repeat constructor|lia|done].
Qed.
Lemma total_collect_diag destination tlvs : total (collect_diag destination tlvs) answer_wf.
Proof.
  unfold collect_diag. eapply total_then; [apply total_prime|]. intros [primer|] Hp; [|done].
  eapply total_then; [|by intros d Hd].
  apply total_batch_loop; [apply total_diag_query|apply first_batches_nonempty|done|]. apply merge_wf; [apply diag_wf_default|done].
Qed.

(** ** Nodes *)

(** The record [n] is about the node with RLOC16 [rloc]. *)
Definition node_at (rloc : Z) (n : Node) : Prop :=
  n_rloc16 n = format_rloc16 rloc /\ n_router_id n = rloc_router_id rloc /\ n_child_id n = rloc_child_id rloc.
Notation nodes_at ns := (Forall (fun e => node_at e.1 e.2) ns).
Notation answers_wf l := (Forall (fun e => diag_wf e.2) l).

Lemma child_info_safe parent e : child_bounds e -> safe (child_entry_info parent e).
Proof. intros He. unfold child_entry_info. by destruct (child_bounds_timeout e He) as (t & -> & _). Qed.
Lemma merge_diag_ok rloc n d : diag_wf d -> node_at rloc n ->
  safe (Node_merge_diag n d) /\ forall n', Node_merge_diag n d = Ok n' -> node_at rloc n'.
Proof.
  intros Hd Hn. unfold Node_merge_diag. split.
  - apply safe_bind; [|done]. destruct Hd as (_&_&_&_&_&_&_&_&_&_&_&Hc&_). destruct (child_table d) as [l|]; [|done].
    apply mapM_result_safe. eapply Forall_impl; [exact Hc|]. intros e. apply child_info_safe.
  - intros n' H. inv_ok. exact Hn.
Qed.
Lemma skeleton_at rloc r d : node_at rloc (Node_skeleton rloc r d).
Proof. done. Qed.
Lemma from_diag_ok rloc r d : diag_wf d -> safe (Node_from_diag rloc r d) /\ forall n, Node_from_diag rloc r d = Ok n -> node_at rloc n.
Proof. intros Hd. unfold Node_from_diag. by apply merge_diag_ok. Qed.

Lemma child_of_entry_ok parent_rloc parent e : child_bounds e ->
  exists n, child_of_entry parent_rloc parent e = Ok (Z.lor parent_rloc (child_id e), n) /\ node_at (Z.lor parent_rloc (child_id e)) n.
Proof.
  intros He. unfold child_of_entry, child_entry_info. destruct (child_bounds_timeout e He) as (t & -> & _). cbn [rbind].
  eexists. split; [reflexivity|]. by repeat case_match.
Qed.
Lemma merge_children_ok parent_rloc parent table children : Forall child_bounds table -> bt_sorted children -> nodes_at children ->
  exists c, merge_children parent_rloc parent table children = Ok c /\ bt_sorted c /\ nodes_at c.
Proof.
  intros Ht. revert children. induction Ht as [|e table He _ IH]; intros children Hs Hn; cbn [merge_children]; [by exists children|].
  destruct (child_of_entry_ok parent_rloc parent e He) as (n & -> & Hat). cbn [rbind].
  apply IH; [by apply bt_insert_sorted|by apply (bt_insert_Forall node_at)].
Qed.
Lemma merge_parent_ok children parent_rloc parent : diag_wf parent -> bt_sorted children -> nodes_at children ->
  exists c, merge_parent_children children parent_rloc parent = Ok c /\ bt_sorted c /\ nodes_at c.
Proof.
  intros (_&_&_&_&_&_&_&_&_&_&_&Hc&_) Hs Hn. unfold merge_parent_children.
  destruct (child_table parent) as [table|]; [|by exists children]. by apply merge_children_ok.
Qed.
Lemma merge_answers_ok answers children : answers_wf answers -> bt_sorted children -> nodes_at children ->
  exists c, merge_answers answers children = Ok c /\ bt_sorted c /\ nodes_at c.
Proof.
  intros Ha. revert children. induction Ha as [|[rloc d] answers Hd _ IH]; intros children Hs Hn; cbn [merge_answers]; [by exists children|].
  destruct (merge_parent_ok children rloc d Hd Hs Hn) as (c & -> & Hcs & Hcn). cbn [rbind]. by apply IH.
Qed.

(** ** The walk *)

Lemma total_query_children self children : nodes_at children ->
  total (query_children self children) (fun c => nodes_at c /\ bt_keys c = bt_keys children).
Proof.
  induction 1 as [|[rloc n] children Hn _ IH]; cbn [query_children]; [by split|].
  eapply total_then; [apply total_collect_diag|]. intros answer Ha.
  apply (total_then _ _ (node_at rloc)).
  - destruct answer as [d|]; [|exact Hn]. destruct (merge_diag_ok rloc n d Ha Hn) as [Hsafe Hok]. by apply total_plift.
  - intros n' Hn'. eapply total_then; [exact IH|]. intros rest [Hr Hk]. cbn. split; [by constructor|]. unfold bt_keys in *. cbn. by rewrite Hk.
Qed.

Lemma sorted_from_keys {A B} l (m : list (Z * A)) (m' : list (Z * B)) : bt_keys m = bt_keys m' -> sorted_from l m -> sorted_from l m'.
Proof.
  revert l m'. induction m as [|[k v] m IH]; intros l [|[k' v'] m'] Hk; try discriminate Hk; [done|].
  injection Hk as <- Hk. intros [H Hm]. split; [done|]. by apply IH.
Qed.

(** The nodes of a walk: in order, each under its RLOC16, every router that was
    asked among them. *)
Definition nodes_ok (routers : list Z) (ns : list (Z * Node)) : Prop :=
  bt_sorted ns /\ nodes_at ns /\ forall r, r ∈ routers -> r ∈ bt_keys ns.

Lemma total_collect_routers self leader rlocs done_ nodes answers : nodes_ok done_ nodes -> bt_sorted answers -> answers_wf answers ->
  total (collect_routers self leader rlocs nodes answers) (fun r => nodes_ok (done_ ++ rlocs) r.1 /\ answers_wf r.2).
Proof.
  revert done_ nodes answers. induction rlocs as [|rloc rlocs IH]; intros done_ nodes answers Hn Hs Ha; cbn [collect_routers].
  { by rewrite app_nil_r. }
  assert (forall n, node_at rloc n -> nodes_ok (done_ ++ [rloc]) (bt_insert rloc n nodes)) as Hins.
  { intros n Hat. destruct Hn as (H1 & H2 & H3). split; [by apply bt_insert_sorted|]. split; [by apply (bt_insert_Forall node_at)|].
    intros r Hr. apply bt_insert_keys. apply elem_of_app in Hr as [Hr|Hr%list_elem_of_singleton]; auto. }
  change (rloc :: rlocs) with ([rloc] ++ rlocs). rewrite app_assoc.
  eapply total_then; [apply total_collect_diag|]. intros [d|] Hd.
  - apply (total_then _ _ (node_at rloc)).
    + destruct (from_diag_ok rloc (if rloc =? leader then Leader else Router) d Hd). by apply total_plift.
    + intros n Hat. apply IH; [by apply Hins|by apply bt_insert_sorted|by apply (bt_insert_Forall (fun _ => diag_wf))].
  - apply IH; [by apply Hins|done|done].
Qed.

Lemma total_collect_children self routers nodes answers : nodes_ok routers nodes -> answers_wf answers ->
  total (collect_children self nodes answers) (nodes_ok routers).
Proof.
  intros (H1 & H2 & H3) Ha. unfold collect_children.
  destruct (merge_answers_ok answers [] Ha) as (c & -> & Hcs & Hcn); [done|constructor|]. cbn [plift pbind].
  eapply total_then; [by apply total_query_children|]. intros c' [Hn Hk]. cbn. split; [by apply bt_extend_sorted|].
  split; [by apply (bt_extend_Forall node_at)|]. intros r Hr. apply bt_extend_keys. auto.
Qed.

(** The dataset accessors of [network_info] return. *)
Lemma network_info_safe self rloc d : safe (network_info self rloc d).
Proof.
  unfold network_info, Dataset_channel, Dataset_network_name, Dataset_pan_id, Dataset_extended_pan_id.
  apply safe_bind; [apply safe_map_transpose; intros; apply Channel_parse_safe|intros ? _].
  apply safe_bind; [apply safe_map_transpose; intros; unfold from_utf8; by case_match|intros ? _].
  apply safe_bind; [|intros ? _].
  { destruct (Dataset_raw _ DS_TLV_PAN_ID) as [v|]; [|done]. cbn [map_transpose]. pose proof (read_u16_safe v). by destruct (read_u16 v). }
  apply safe_bind; [apply safe_map_transpose; intros; apply read_array_safe|done].
Qed.

Definition snapshot_ok (s : TopologySnapshot) : Prop :=
  exists ns discovery leader, diag_wf discovery /\ leader_of discovery = Some leader /\
    nodes_ok (routers_of discovery leader) ns /\ leader ∈ bt_keys ns /\
    nodes s = bt_values ns /\ links s = build_links ns.

Lemma leader_routers d leader : leader ∈ routers_of d leader.
Proof.
  unfold routers_of. match goal with |- context [existsb _ ?l] => set (rl := l) end. destruct (existsb _ _) eqn:E.
  - apply existsb_exists in E as (x & Hx & ->%Z.eqb_eq). by apply list_elem_of_In in Hx.
  - apply elem_of_app. right. by apply list_elem_of_singleton.
Qed.

Lemma total_collect_topology self elapsed border_agent : total (collect_topology self elapsed border_agent) snapshot_ok.
Proof.
  unfold collect_topology. eapply total_then; [apply total_collect_diag|]. intros answer Ha.
  apply total_bind, total_plift; [apply safe_ok_or|]. intros d Hd%ok_or_ok. subst answer.
  apply total_bind, total_plift; [apply safe_ok_or|]. intros leader Hl%ok_or_ok. pose proof (leader_routers d leader) as Hin.
  eapply total_then; [by apply (total_collect_routers self leader _ [])|]. intros [ns answers] [Hn Hw]. cbn in Hn, Hw.
  eapply total_then; [by eapply total_collect_children|]. intros ns' Hn'.
  apply total_bind, total_plift; [apply network_info_safe|]. intros info _. cbn. exists ns', d, leader.
  split; [exact Ha|]. split; [done|]. split; [exact Hn'|]. split; [by apply Hn'|done].
Qed.
Lemma total_collect_node self rloc16 : total (collect_node self rloc16) (node_at rloc16).
Proof.
  unfold collect_node. eapply total_then; [apply total_collect_diag|]. intros [d|] Hd.
  - destruct (from_diag_ok rloc16 (resolve_role rloc16 d (default_role rloc16)) d Hd). by apply total_plift.
  - destruct (rloc_child_id rloc16); [|done]. eapply total_then; [apply total_collect_diag|]. intros [parent|] Hp; [|done].
    destruct (merge_parent_ok [] (Z.land rloc16 0xfc00) parent Hp) as (c & -> & _ & Hn); [done|constructor|].
    cbn [plift pbind]. destruct (bt_get rloc16 c) as [n|] eqn:E; [|done]. by eapply (bt_get_Forall node_at).
Qed.

End Safety.
