(* ===== verification/CollectSplit.v ===== *)
(** * CollectSplit: splitting batches loses nothing

    A border agent caps the size of its answers, so a batch of TLVs may go
    unanswered although each of its TLVs would be answered alone.  Splitting
    batches must then find everything the node would have told. *)
From S2P Require Import Prelude Text Tlv Errors Dataset Coap NetDiag Messages Joiner.
From S2P Require Import Commissioner SessionDriver Client BTree Topology Collect CollectSafety.

(** The part of an answer that the flags ask for. *)
Definition keep {A} (flags i : Z) (o : option A) : option A := if Z.testbit flags i then o else None.
Definition restrict (flags : Z) (d : NetDiagData) : NetDiagData :=
  mkNetDiagData (keep flags 0 (ext_mac_addr d)) (keep flags 1 (mac_addr d)) (keep flags 2 (diag_mode d))
    (keep flags 11 (diag_timeout d)) (keep flags 12 (connectivity d)) (keep flags 3 (route64 d)) (keep flags 4 (leader_data d))
    (keep flags 10 (network_data d)) (keep flags 5 (addresses d)) (keep flags 8 (mac_counters d)) (keep flags 13 (battery_level d))
    (keep flags 14 (supply_voltage d)) (keep flags 6 (child_table d)) (keep flags 15 (channel_pages d))
    (keep flags 16 (type_list d)) (keep flags 7 (eui64 d)) (keep flags 9 (child_ipv6_addresses d)).

Lemma or_new_keep {A} a b i (o : option A) : or_new (keep b i o) (keep a i o) = keep (Z.lor a b) i o.
Proof. unfold keep. rewrite Z.lor_spec. by destruct (Z.testbit a i), (Z.testbit b i), o. Qed.
Lemma merge_restrict a b d : merge_netdiag (restrict a d) (restrict b d) = restrict (Z.lor a b) d.
Proof. unfold merge_netdiag, restrict. cbn. by rewrite !or_new_keep. Qed.
Lemma merge_default b d : merge_netdiag NetDiagData_default (restrict b d) = restrict b d.
Proof.
  unfold merge_netdiag, restrict. cbn. assert (forall A (o : option A), or_new o None = o) as E by by intros A [].
  by rewrite !E.
Qed.

(** ** Flags of a batch *)

Lemma combine_acc batch acc : fold_left Z.lor batch acc = Z.lor acc (combine_flags batch).
Proof.
  unfold combine_flags. revert acc. induction batch as [|f batch IH]; intros acc; cbn [fold_left]; [by rewrite Z.lor_0_r|].
  by rewrite (IH (Z.lor acc f)), (IH (Z.lor 0 f)), Z.lor_0_l, Z.lor_assoc.
Qed.
Lemma combine_cons f batch : combine_flags (f :: batch) = Z.lor f (combine_flags batch).
Proof. unfold combine_flags at 1. cbn [fold_left]. by rewrite combine_acc, Z.lor_0_l. Qed.
Lemma combine_app a b : combine_flags (a ++ b) = Z.lor (combine_flags a) (combine_flags b).
Proof. unfold combine_flags at 1. rewrite fold_left_app. by rewrite combine_acc. Qed.

Lemma chunks_fuel_all {A} fuel n (l : list A) : (0 < n)%nat -> (length l <= fuel)%nat -> concat (chunks_fuel fuel n l) = l.
Proof.
  intros Hn. revert l. induction fuel as [|fuel IH]; intros [|x l] Hf; cbn [chunks_fuel]; try done; [cbn in Hf; lia|].
  cbn [concat]. rewrite IH, take_drop; [done|]. rewrite length_drop. cbn in *. lia.
Qed.
Lemma first_batches_concat l : concat (first_batches l) = List.filter (fun f => negb (f =? diag_flags.MAC_ADDR)) l.
Proof. unfold first_batches, chunks. apply chunks_fuel_all; [unfold CHUNK_SIZE; lia|done]. Qed.

Section Split.
Context {JH : JoinerHandler}.

(** Running a program against surroundings that always answer the same way. *)
Fixpoint eval {A} (env : forall X, Request X -> X) (p : Prog A) : result Error A :=
  match p with
  | Ret a => Ok a
  | Throw e => Err e
  | Crash f => Panic f
  | Do r k => eval env (k (env _ r))
  end.
Lemma eval_bind {A B} env (p : Prog A) (k : A -> Prog B) : eval env (pbind p k) = rbind (eval env p) (fun a => eval env (k a)).
Proof. induction p as [| | |X r k' IH]; cbn; auto. Qed.

Context (env : forall X, Request X -> X) (data : NetDiagData) (fits : Z -> bool).
(** What fits in an answer fits with less. *)
Context (fits_less : forall a b, fits (Z.lor a b) = true -> fits a = true /\ fits b = true).

Definition node_answer (flags : Z) : option NetDiagData := if fits flags then Some (restrict flags data) else None.
Definition answerable (batch : list Z) : Z := combine_flags (List.filter fits batch).

Lemma answerable_app a b : answerable (a ++ b) = Z.lor (answerable a) (answerable b).
Proof. unfold answerable. by rewrite List.filter_app, combine_app. Qed.
Lemma answerable_all batch : fits (combine_flags batch) = true -> answerable batch = combine_flags batch.
Proof.
  unfold answerable. induction batch as [|f batch IH]; [done|]. rewrite combine_cons. intros H. apply fits_less in H as [Hf Hb].
  cbn [List.filter]. by rewrite Hf, combine_cons, IH.
Qed.

(** [f] is among the flags of [tlvs]. *)
Definition within (tlvs flags : Z) : Prop := Z.land flags tlvs = flags.
Lemma within_lor t a b : within t a -> within t b -> within t (Z.lor a b).
Proof. unfold within. intros Ha Hb. by rewrite Z.land_lor_distr_l, Ha, Hb. Qed.
Lemma within_combine t batch : Forall (within t) batch -> within t (combine_flags batch).
Proof. induction 1; [done|]. rewrite combine_cons. by apply within_lor. Qed.

Context (query : Z -> Prog (option NetDiagData)) (tlvs : Z).
Context (query_answers : forall flags, within tlvs flags -> flags <> 0 -> eval env (query flags) = Ok (node_answer flags)).

Lemma eval_batches fuel stack known : Forall (fun b => b <> [] /\ Forall (fun f => within tlvs f /\ f <> 0) b) stack ->
  (batch_fuel stack <= fuel)%nat ->
  eval env (batch_loop query fuel stack (restrict known data)) = Ok (restrict (Z.lor known (answerable (concat stack))) data).
Proof.
  revert stack known. induction fuel as [|fuel IH]; intros [|batch stack] known Hst Hf; cbn [batch_loop];
    try (cbn; by rewrite Z.lor_0_r).
  { apply Forall_cons in Hst as [[Hne _] _]. pose proof (batch_fuel_cons batch stack Hne). lia. }
  pose proof Hst as Hst'. apply Forall_cons in Hst as [[Hne Hb] Hs]. pose proof (batch_fuel_cons batch stack Hne) as Hfc.
  assert (Forall (within tlvs) batch) as Hw by (eapply Forall_impl; [exact Hb|by intros ? []]).
  assert (combine_flags batch <> 0) as Hn0.
  { destruct batch as [|f batch]; [done|]. apply Forall_cons in Hb as [[_ Hf0] _]. rewrite combine_cons.
    intros E%Z.lor_eq_0_iff. by destruct E. }
  rewrite (proj2 (Z.eqb_neq _ _)) by done. rewrite eval_bind, query_answers by (done || by apply within_combine).
  unfold node_answer. cbn [concat]. rewrite answerable_app. destruct (fits (combine_flags batch)) eqn:Efit; cbn [rbind].
  - rewrite merge_restrict, IH by (done || lia). by rewrite (answerable_all batch), Z.lor_assoc.
  - destruct (len batch >? 1) eqn:El.
    + pose proof (batch_fuel_split batch stack El). destruct (halves_nonempty batch El) as (H1 & H2 & _). rewrite IH; [|..|lia].
      * cbn [concat]. rewrite !answerable_app. set (mid := Z.to_nat (len batch / 2)).
        assert (answerable batch = Z.lor (answerable (take mid batch)) (answerable (drop mid batch))) as ->
          by (by rewrite <- answerable_app, take_drop).
        do 2 f_equal. rewrite (Z.lor_comm (answerable (take _ _)) (answerable (drop _ _))). by rewrite !Z.lor_assoc.
      * repeat constructor; [done|by apply Forall_drop|done|by apply Forall_take|done].
    + rewrite Z.gtb_ltb in El. zbool. destruct batch as [|f [|]]; [done| |unfold len in El; cbn in El; lia].
      rewrite IH by (done || lia). unfold answerable at 2. cbn [List.filter].
      assert (combine_flags [f] = f) as Ecf by (cbn; by rewrite Z.lor_0_l || done). rewrite Ecf in Efit. rewrite Efit.
      cbn. by rewrite Z.lor_0_l.
Qed.
End Split.

Section Splitting.
Context {JH : JoinerHandler}.
Context (env : forall X, Request X -> X) (data : NetDiagData) (fits : Z -> bool).

Lemma answerable_mac l : fits diag_flags.MAC_ADDR = true ->
  Z.lor diag_flags.MAC_ADDR (answerable fits (List.filter (fun f => negb (f =? diag_flags.MAC_ADDR)) l)) =
  answerable fits (diag_flags.MAC_ADDR :: l).
Proof.
  intros Hm. unfold answerable. cbn [List.filter]. rewrite Hm, combine_cons.
  induction l as [|f l IH]; [done|]. cbn [List.filter]. destruct (f =? diag_flags.MAC_ADDR) eqn:E; cbn [negb].
  - zbool. subst f. rewrite IH, Hm, combine_cons. by rewrite Z.lor_assoc, Z.lor_diag.
  - cbn [List.filter]. destruct (fits f); [|exact IH]. rewrite !combine_cons.
    rewrite !(Z.lor_comm f), !Z.lor_assoc. by rewrite IH.
Qed.

(** C27: the adaptive splitter is complete.  A node answers a request with what
    it has of the TLVs asked for, if that fits in an answer, and otherwise not
    at all; what fits still fits with fewer TLVs.  Then the walk of its TLVs
    returns everything that fits on its own, and nothing but a node that does not
    even answer for its RLOC16 counts as unreachable. *)
Theorem splitting_finds_all destination tlvs :
  (forall a b, fits (Z.lor a b) = true -> fits a = true /\ fits b = true) ->
  Forall (fun f => f <> 0) tlvs ->
  (forall flags, within (combine_flags (diag_flags.MAC_ADDR :: tlvs)) flags -> flags <> 0 ->
     eval env (diag_query destination flags) = Ok (node_answer data fits flags)) ->
  eval env (collect_diag destination tlvs) =
    Ok (if fits diag_flags.MAC_ADDR then Some (restrict (answerable fits (diag_flags.MAC_ADDR :: tlvs)) data) else None).
Proof.
  intros Hless Hne Hq. assert (forall f, f ∈ diag_flags.MAC_ADDR :: tlvs -> within (combine_flags (diag_flags.MAC_ADDR :: tlvs)) f) as Hin.
  { intros f. generalize (diag_flags.MAC_ADDR :: tlvs). intros l. induction l as [|g l IH]; [by intros ?%elem_of_nil|].
    rewrite combine_cons. intros [->|Hf]%elem_of_cons.
    - unfold within. rewrite Z.land_lor_distr_r, Z.land_diag. apply Z.bits_inj'. intros i _.
      rewrite Z.lor_spec, Z.land_spec. by destruct (Z.testbit g i).
    - specialize (IH Hf). unfold within in *. rewrite Z.land_lor_distr_r, IH. apply Z.bits_inj'. intros i _.
      rewrite Z.lor_spec, Z.land_spec. by destruct (Z.testbit g i), (Z.testbit f i). }
  assert (eval env (prime destination) = Ok (node_answer data fits diag_flags.MAC_ADDR)) as Hprime.
  { unfold prime, PRIME_ATTEMPTS. assert (eval env (diag_query destination diag_flags.MAC_ADDR) = Ok (node_answer data fits diag_flags.MAC_ADDR)) as E
      by (apply Hq; [apply Hin; by left|done]).
    unfold node_answer in *. destruct (fits diag_flags.MAC_ADDR); cbn [prime_loop]; repeat (rewrite eval_bind, E; cbn [rbind]); done. }
  unfold collect_diag. rewrite eval_bind, Hprime. cbn [rbind]. unfold node_answer.
  destruct (fits diag_flags.MAC_ADDR) eqn:Hm; [|done]. cbv zeta. rewrite merge_default, eval_bind.
  rewrite (eval_batches env data fits Hless (diag_query destination) (combine_flags (diag_flags.MAC_ADDR :: tlvs)) Hq); [|..|done].
  - cbn [rbind eval]. rewrite first_batches_concat, answerable_mac by done. done.
  - assert (Forall (fun f => within (combine_flags (diag_flags.MAC_ADDR :: tlvs)) f /\ f <> 0) (concat (first_batches tlvs))) as Hall.
    { rewrite first_batches_concat. apply Forall_forall. intros f Hf. apply list_elem_of_In, List.filter_In in Hf as [Hf _].
      apply list_elem_of_In in Hf. rewrite Forall_forall in Hne. split; [apply Hin; by right|by apply Hne]. }
    pose proof (first_batches_nonempty tlvs) as Hn. apply Forall_and. split; [exact Hn|]. by apply concat_Forall.
Qed.
End Splitting.

(** ** Witness *)

(** A leader that answers for its RLOC16, its Route64 and its leader data, but
    not for the last two at once. *)
Module Capped.
#[export] Existing Instance static_joiner_handler.
Definition available (t : Z) : bytes :=
  match t with
  | 1 => [1; 2; 0x04; 0]
  | 5 => [5; 10; 7; 0x40; 0; 0; 0; 0; 0; 0; 0; 0x51]
  | 6 => [6; 8; 0; 0; 0; 9; 64; 1; 2; 1]
  | _ => []
  end.
Definition respond (types : list Z) : option bytes :=
  if existsb (Z.eqb 5) types && existsb (Z.eqb 6) types then None else Some (concat (map available types)).
Definition types_of (o : Outbound) : list Z :=
  match TlvSet_parse (payload (ob_message o)) with Ok s => default [] (last_value s NETWORK_DIAG_TLV_TYPE_LIST) | _ => [] end.
Definition env (X : Type) (r : Request X) : X :=
  match r in Request X return X with
  | Watch => (Active 1, false)
  | ReadPrefix => PrefixCache_default
  | StorePrefix _ _ => tt
  | Submit _ => None
  | SubmitWithin o =>
      match respond (types_of o) with
      | Some p => Some (Some (inr (Some (mkCoapMessage Acknowledgement CODE_CHANGED 0 [] [] p))))
      | None => None
      end
  | CallPetition | CallKeepAlive | CallResign => None
  | SendHandler _ => true
  | LockWrites | UnlockWrites => tt
  end.
Definition data : NetDiagData :=
  match NetDiagData_decode (available 1 ++ available 5 ++ available 6) with Ok d => d | _ => NetDiagData_default end.
Definition fits (flags : Z) : bool := negb (Z.testbit flags 3 && Z.testbit flags 4).
Definition destination : Ipv6Addr := repeat 0xfd 8 ++ [0; 0; 0; 0xff; 0xfe; 0; 0xfc; 0].
End Capped.

Lemma discovery_flags flags : Z.land flags 26 = flags -> flags <> 0 -> flags ∈ [2; 8; 10; 16; 18; 24; 26].
Proof.
  intros Hl Hne. assert (uint 5 (Z.land 26 flags)) as Hb by (apply uint_land; [lia|by_decide]). rewrite Z.land_comm, Hl in Hb.
  assert (Forall (fun f => Z.land f 26 = f -> f <> 0 -> f ∈ [2; 8; 10; 16; 18; 24; 26]) (seqZ 0 32)) as Hall by by_decide.
  rewrite Forall_forall in Hall. apply Hall; [|done|done]. apply elem_of_seqZ. unfold uint in Hb. lia.
Qed.

Lemma splitting_finds_all_witness :
  exists d, eval Capped.env (collect_diag Capped.destination DISCOVERY_TLVS) = Ok (Some d) /\
    mac_addr d = Some 0x400 /\ option_map leader_router_id (leader_data d) = Some 1 /\
    option_map (fun r => map router_id (route_data r)) (route64 d) = Some [1].
Proof.
  exists (restrict (answerable Capped.fits (diag_flags.MAC_ADDR :: DISCOVERY_TLVS)) Capped.data).
  split; [|repeat split].
  apply (splitting_finds_all Capped.env Capped.data Capped.fits Capped.destination DISCOVERY_TLVS).
  - intros a b. unfold Capped.fits. rewrite !Z.lor_spec.
    destruct (Z.testbit a 3), (Z.testbit a 4), (Z.testbit b 3), (Z.testbit b 4); cbn; intros H; try discriminate H; split; reflexivity.
  - by_decide.
  - intros flags Hw Hne. pose proof (discovery_flags flags Hw Hne) as Hin.
    repeat (apply elem_of_cons in Hin as [->|Hin]; [vm_compute; reflexivity|]). by apply elem_of_nil in Hin.
Defined.
