(* ===== verification/CollectLinks.v ===== *)
(** * CollectLinks: the links of a snapshot, and what redaction hides *)
From S2P Require Import Prelude Text Tlv Errors Dataset Coap NetDiag Messages Joiner.
From S2P Require Import Client BTree Topology Collect.

(** ** Mesh links *)

(** Node [x] reports [y] as a neighbor, with the view [v] of their link. *)
Definition reports (ns : list (Z * Node)) (x y : Z) (v : LinkView) : Prop :=
  exists n e, (x, n) ∈ ns /\ e ∈ route_table n /\ relation e = "neighbor"%string /\
    router_rloc16 (re_router_id e) = y /\ v = mkLinkView (link_quality_in e) (link_quality_out e).

(** The views of a link that nodes report, at the ends they belong to. *)
Definition slot_true (ns : list (Z * Node)) (k : Z * Z) (slot : option LinkView * option LinkView) : Prop :=
  k.1 <= k.2 /\ (forall v, slot.1 = Some v -> reports ns k.1 k.2 v) /\ (forall v, slot.2 = Some v -> reports ns k.2 k.1 v) /\
  (is_Some slot.1 \/ is_Some slot.2).
Definition view_at (x y : Z) (slot : option LinkView * option LinkView) : option LinkView := if x <=? y then slot.1 else slot.2.

Definition mesh_reports (ns : list (Z * Node)) : list (Z * RouteEntryInfo) :=
  concat (map (fun n => map (pair n.1) (route_table n.2)) ns).

Lemma mesh_links_flat ns m : fold_left (fun mesh n => fold_left (add_mesh_link n.1) (route_table n.2) mesh) ns m =
  fold_left (fun mesh p => add_mesh_link p.1 mesh p.2) (mesh_reports ns) m.
Proof.
  revert m. induction ns as [|[rloc n] ns IH]; intros m; [done|]. cbn [fold_left]. unfold mesh_reports in *. cbn [map concat].
  rewrite fold_left_app, IH. f_equal. cbn [fst snd]. generalize m. induction (route_table n) as [|e l IHl]; intros m'; [done|]. cbn. by rewrite IHl.
Qed.

Definition neighbor_key (p : Z * RouteEntryInfo) : Z * Z :=
  (Z.min p.1 (router_rloc16 (re_router_id p.2)), Z.max p.1 (router_rloc16 (re_router_id p.2))).
Definition is_neighbor (p : Z * RouteEntryInfo) : Prop := relation p.2 = "neighbor"%string.

Lemma add_mesh_link_ok ns p mesh : (forall v, is_neighbor p -> v = mkLinkView (link_quality_in p.2) (link_quality_out p.2) ->
    reports ns p.1 (router_rloc16 (re_router_id p.2)) v) ->
  bt_sorted mesh -> Forall (fun e => slot_true ns e.1 e.2) mesh ->
  let mesh' := add_mesh_link p.1 mesh p.2 in
  bt_sorted mesh' /\ Forall (fun e => slot_true ns e.1 e.2) mesh' /\
  (is_neighbor p -> exists slot, bt_get (neighbor_key p) mesh' = Some slot /\ is_Some (view_at p.1 (router_rloc16 (re_router_id p.2)) slot)) /\
  (forall k slot x y, bt_get k mesh = Some slot -> is_Some (view_at x y slot) ->
     exists slot', bt_get k mesh' = Some slot' /\ is_Some (view_at x y slot')).
Proof.
  destruct p as [x e]. unfold is_neighbor, neighbor_key. cbn [fst snd]. intros Hr Hs Hf. unfold add_mesh_link.
  destruct (String.eqb_spec (relation e) "neighbor") as [Hn|Hn]; cbn [negb].
  2: { split; [done|]. split; [done|]. split; [done|]. intros k slot ??? ?. by exists slot. }
  set (y := router_rloc16 (re_router_id e)) in *. set (key := (Z.min x y, Z.max x y)).
  set (view := mkLinkView (link_quality_in e) (link_quality_out e)).
  set (old := default (None, None) (bt_get key mesh)).
  assert (reports ns x y view) as Hxy by by apply Hr.
  assert ((forall v, old.1 = Some v -> reports ns key.1 key.2 v) /\ (forall v, old.2 = Some v -> reports ns key.2 key.1 v)) as [Ho1 Ho2].
  { unfold old. destruct (bt_get key mesh) as [s|] eqn:E; [|by split]. apply (bt_get_Forall (slot_true ns)) in E as (_ & ? & ? & _); done. }
  split; [by apply bt_insert_sorted|]. split.
  { apply (bt_insert_Forall (slot_true ns)); [|done]. split; [unfold key; cbn; lia|]. destruct (x <=? y) eqn:Exy; zbool; unfold key in *; cbn in *.
    - rewrite Z.min_l, Z.max_r in * by lia. split; [by intros v [= <-]|]. split; [done|by left; eexists].
    - rewrite Z.min_r, Z.max_l in * by lia. split; [done|]. split; [by intros v [= <-]|by right; eexists]. }
  split.
  { intros _. rewrite bt_get_insert_eq. eexists. split; [done|]. unfold view_at. by destruct (x <=? y). }
  intros k slot x' y' Hk Hv. destruct (decide (k = key)) as [->|Hne].
  - rewrite bt_get_insert_eq. eexists. split; [done|]. unfold old. rewrite Hk. cbn [default]. unfold view_at in *.
    by destruct (x <=? y), (x' <=? y').
  - rewrite bt_get_insert_ne by done. by exists slot.
Qed.

Lemma mesh_links_ok ns : bt_sorted (mesh_links ns) /\ Forall (fun e => slot_true ns e.1 e.2) (mesh_links ns) /\
  forall p, p ∈ mesh_reports ns -> is_neighbor p ->
    exists slot, bt_get (neighbor_key p) (mesh_links ns) = Some slot /\ is_Some (view_at p.1 (router_rloc16 (re_router_id p.2)) slot).
Proof.
  unfold mesh_links. rewrite mesh_links_flat.
  assert (forall p, p ∈ mesh_reports ns -> forall v, is_neighbor p -> v = mkLinkView (link_quality_in p.2) (link_quality_out p.2) ->
    reports ns p.1 (router_rloc16 (re_router_id p.2)) v) as Hr.
  { intros [x e] Hp v Hn Hv. unfold mesh_reports in Hp. apply list_elem_of_In, in_concat in Hp as (l & Hl & Hp).
    apply in_map_iff in Hl as ([x' n] & <- & Hx). apply in_map_iff in Hp as (e' & [= <- <-] & He). exists n, e'.
    split; [by apply list_elem_of_In|]. split; [by apply list_elem_of_In|]. by split. }
  revert Hr. generalize (mesh_reports ns) as l. intros l.
  assert (forall l m, (forall p, p ∈ l -> forall v, is_neighbor p -> v = mkLinkView (link_quality_in p.2) (link_quality_out p.2) ->
      reports ns p.1 (router_rloc16 (re_router_id p.2)) v) -> bt_sorted m -> Forall (fun e => slot_true ns e.1 e.2) m ->
    let m' := fold_left (fun mesh p => add_mesh_link p.1 mesh p.2) l m in
    bt_sorted m' /\ Forall (fun e => slot_true ns e.1 e.2) m' /\
    (forall p, p ∈ l -> is_neighbor p -> exists slot, bt_get (neighbor_key p) m' = Some slot /\
       is_Some (view_at p.1 (router_rloc16 (re_router_id p.2)) slot)) /\
    (forall k slot x y, bt_get k m = Some slot -> is_Some (view_at x y slot) ->
       exists slot', bt_get k m' = Some slot' /\ is_Some (view_at x y slot'))) as Hfold.
  { clear. induction l as [|p l IH]; intros m Hr Hs Hf; cbn [fold_left].
    - split; [done|]. split; [done|]. split; [by intros p Hp%elem_of_nil|]. intros k slot ??? ?. by exists slot.
    - destruct (add_mesh_link_ok ns p m) as (Hs1 & Hf1 & Hnew & Hold); [apply Hr; by left|done|done|].
      destruct (IH (add_mesh_link p.1 m p.2)) as (Hs2 & Hf2 & Hnew2 & Hold2); [intros q Hq; apply Hr; by right|done|done|].
      split; [done|]. split; [done|]. split.
      + intros q [->|Hq]%elem_of_cons Hn; [|by apply Hnew2]. destruct (Hnew Hn) as (slot & Hg & Hv). by eapply Hold2.
      + intros k slot x y Hg Hv. destruct (Hold _ _ _ _ Hg Hv) as (slot' & Hg' & Hv'). by eapply Hold2. }
  intros Hr. destruct (Hfold l [] Hr) as (H1 & H2 & H3 & _); [done|constructor|]. by split.
Qed.

(** C38: the links of a snapshot are those the nodes report.  There is at most one
    mesh link between two routers, from the lower to the higher RLOC16, with each
    end's own view of it and no view that its end did not report; and whenever a
    node reports a neighbor, the link is there with a view from that node. *)
Theorem mesh_links_exact ns :
  bt_sorted (mesh_links ns) /\
  (forall a b va vb, LinkMesh a b va vb ∈ build_links ns ->
     exists x y, a = format_rloc16 x /\ b = format_rloc16 y /\ slot_true ns (x, y) (va, vb)) /\
  (forall x y v, reports ns x y v ->
     exists slot, LinkMesh (format_rloc16 (Z.min x y)) (format_rloc16 (Z.max x y)) slot.1 slot.2 ∈ build_links ns /\
       is_Some (view_at x y slot)).
Proof.
  destruct (mesh_links_ok ns) as (Hs & Hf & Hc). split; [done|]. unfold build_links. split.
  - intros a b va vb [Hin|Hin]%elem_of_app.
    + apply list_elem_of_In, in_map_iff in Hin as ([[x y] [wa wb]] & [= <- <- <- <-] & Hin). apply list_elem_of_In in Hin.
      rewrite Forall_forall in Hf. exists x, y. split; [done|]. split; [done|]. by apply (Hf _ Hin).
    + unfold child_links in Hin. apply list_elem_of_In, in_concat in Hin as (l & Hl & Hin). apply in_map_iff in Hl as (n & <- & _).
      by apply in_map_iff in Hin as (e & ? & _).
  - intros x y v (n & e & Hn & He & Hrel & Hy & _). destruct (Hc (x, e)) as (slot & Hg & Hv); [|done|].
    { unfold mesh_reports. apply list_elem_of_In, in_concat. exists (map (pair x) (route_table n)). split.
      - apply in_map_iff. exists (x, n). split; [done|by apply list_elem_of_In].
      - apply in_map_iff. exists e. split; [done|by apply list_elem_of_In]. }
    unfold neighbor_key in Hg. cbn [fst snd] in Hg, Hv. rewrite Hy in Hg, Hv. exists slot. split; [|done]. apply elem_of_app. left.
    apply list_elem_of_In, in_map_iff. exists ((Z.min x y, Z.max x y), slot). split; [done|].
    clear -Hg. induction (mesh_links ns) as [|[k s] m IH]; [done|]. cbn [bt_get] in Hg. destruct (keq _ _) eqn:E.
    + apply keq_spec in E as <-. injection Hg as <-. by left.
    + right. by apply IH.
Qed.

(** ** Redaction *)

(** Nodes that differ only in what their addresses are, and snapshots that differ
    only in those, the extended PAN ID and the mesh-local prefix. *)
Definition same_node (n n' : Node) : Prop :=
  with_addresses [] n = with_addresses [] n' /\ length (ipv6_addresses n) = length (ipv6_addresses n').
Definition same_shape {A} (o o' : option A) : Prop := is_Some o <-> is_Some o'.
Definition same_network (i i' : NetworkInfo) : Prop :=
  ni_network_name i = ni_network_name i' /\ ni_pan_id i = ni_pan_id i' /\ ni_channel_page i = ni_channel_page i' /\
  ni_channel i = ni_channel i' /\ ni_partition_id i = ni_partition_id i' /\ ni_leader_rloc16 i = ni_leader_rloc16 i' /\
  same_shape (ni_extended_pan_id i) (ni_extended_pan_id i') /\ same_shape (ni_mesh_local_prefix i) (ni_mesh_local_prefix i').
Definition same_public (s s' : TopologySnapshot) : Prop :=
  generated_unix_time s = generated_unix_time s' /\ border_agent s = border_agent s' /\ links s = links s' /\
  same_network (network s) (network s') /\ Forall2 same_node (nodes s) (nodes s').

Lemma redact_shape o o' : redact o = redact o' <-> same_shape o o'.
Proof. unfold same_shape. destruct o, o'; cbn; split; try done; intros H; exfalso; destruct H as [H1 H2]; first [by destruct (H1 ltac:(eauto))|by destruct (H2 ltac:(eauto))]. Qed.
Lemma redact_node n n' : Node_redact_secrets n = Node_redact_secrets n' <-> same_node n n'.
Proof.
  unfold Node_redact_secrets, same_node. assert (forall l l' : list string, map (fun _ => REDACTED) l = map (fun _ => REDACTED) l' <-> length l = length l') as Hl.
  { induction l as [|x l IH]; intros [|x' l']; cbn; try done. split; [intros [= H]; f_equal; by apply IH|intros [= H]; f_equal; by apply IH]. }
  destruct n, n'. unfold with_addresses. cbn. rewrite <- Hl. split.
  - intros H. injection H. intros. subst. by split; [|congruence].
  - intros [H1 H2]. injection H1. intros. subst. by rewrite H2.
Qed.

(** C39: redaction hides exactly the secrets.  Two snapshots look the same after
    redaction if and only if they differ in nothing but the extended PAN ID, the
    mesh-local prefix and what the addresses of the nodes are: nothing that
    depends on those is left, and everything else is (that they are known, and
    how many addresses each node has, included). *)
Theorem redaction_hides_secrets s s' :
  TopologySnapshot_redact_secrets s = TopologySnapshot_redact_secrets s' <-> same_public s s'.
Proof.
  assert (forall l l', map Node_redact_secrets l = map Node_redact_secrets l' <-> Forall2 same_node l l') as Hl.
  { induction l as [|n l IH]; intros [|n' l']; cbn [map].
    - split; [constructor|done].
    - split; [done|by inversion 1].
    - split; [done|by inversion 1].
    - split.
      + intros H. assert (forall (a b : Node) k k', a :: k = b :: k' -> a = b /\ k = k') as Hinj by by intros ???? [= -> ->].
        apply Hinj in H as [Hn H]. constructor; [by apply redact_node|by apply IH].
      + inversion 1; subst. f_equal; [by apply redact_node|by apply IH]. }
  unfold TopologySnapshot_redact_secrets, same_public, same_network. rewrite <- Hl, <- !redact_shape.
  destruct s as [t a [] ns ls], s' as [t' a' [] ns' ls']. cbn. split.
  - intros H. injection H. clear H. intros. subst. do 3 (split; [done|]). split; [|done]. do 7 (split; [done|]). done.
  - intros (-> & -> & -> & (-> & -> & -> & -> & -> & -> & -> & ->) & ->). done.
Qed.
