(* ===== verification/Cli.v ===== *)
(** * Cli: command lines

    The model of the parts of crates/ot-commissioner-cli that read and write
    text: the tokenizer and number parsers of cli/interpreter/support.rs, the
    command results of cli/value.rs, the colours of cli/console.rs and the
    argument parsing of cli/mod.rs.  A [char] is its scalar value, a [String]
    its UTF-8 bytes.  [lexes] is the grammar of command lines [tokenize] is
    proved to implement. *)
From S2P Require Import Prelude Text Errors Ipv6.

(** ** Characters of a [&str] *)

(** [str::chars] of valid UTF-8. *)
Fixpoint chars (l : bytes) : list Z :=
  match l with
  | [] => []
  | b0 :: r0 =>
      if b0 <? 0x80 then b0 :: chars r0
      else if b0 <? 0xe0 then
        match r0 with b1 :: r1 => (b0 - 0xc0) * 64 + (b1 - 0x80) :: chars r1 | _ => [] end
      else if b0 <? 0xf0 then
        match r0 with
        | b1 :: b2 :: r2 => (b0 - 0xe0) * 4096 + (b1 - 0x80) * 64 + (b2 - 0x80) :: chars r2
        | _ => []
        end
      else
        match r0 with
        | b1 :: b2 :: b3 :: r3 =>
            (b0 - 0xf0) * 262144 + (b1 - 0x80) * 4096 + (b2 - 0x80) * 64 + (b3 - 0x80) :: chars r3
        | _ => []
        end
  end.

(** [String::push]: the UTF-8 encoding of a character. *)
Definition char_utf8 (c : Z) : bytes :=
  if c <? 0x80 then [c]
  else if c <? 0x800 then [0xc0 + c / 64; 0x80 + c mod 64]
  else if c <? 0x10000 then [0xe0 + c / 4096; 0x80 + c / 64 mod 64; 0x80 + c mod 64]
  else [0xf0 + c / 262144; 0x80 + c / 4096 mod 64; 0x80 + c / 64 mod 64; 0x80 + c mod 64].
Definition utf8 (cs : list Z) : bytes := concat (map char_utf8 cs).

(** [char::is_whitespace]: the Unicode property White_Space. *)
Definition is_whitespace (c : Z) : bool :=
  in_range 0x09 0x0d c || in_range 0x2000 0x200a c ||
  existsb (Z.eqb c) [0x20; 0x85; 0xa0; 0x1680; 0x2028; 0x2029; 0x202f; 0x205f; 0x3000].

Fixpoint trim_start (cs : list Z) : list Z :=
  match cs with
  | c :: cs' => if is_whitespace c then trim_start cs' else cs
  | [] => []
  end.
(** [str::trim]. *)
Definition trim (s : bytes) : bytes := utf8 (rev (trim_start (rev (trim_start (chars s))))).

(** [str::strip_prefix]. *)
Fixpoint strip_prefix (p s : bytes) : option bytes :=
  match p, s with
  | [], _ => Some s
  | a :: p', b :: s' => if a =? b then strip_prefix p' s' else None
  | _, [] => None
  end.
(** [s.strip_prefix("0x").or_else(|| s.strip_prefix("0X"))]. *)
Definition strip_hex_prefix (s : bytes) : option bytes :=
  match strip_prefix (str_bytes "0x") s with Some h => Some h | None => strip_prefix (str_bytes "0X") s end.

(** [token == "literal"]. *)
Definition is_str (s : bytes) (literal : string) : bool := vec_eqb s (str_bytes literal).

(** ** Numbers: [uN::from_str_radix] and [str::parse] *)

Fixpoint digits_value (w radix acc : Z) (s : bytes) : option Z :=
  match s with
  | [] => Some acc
  | b :: s' =>
      match to_digit radix b with
      | Some d =>
          match checked_mul w acc radix with
          | Some m => match checked_add w m d with Some v => digits_value w radix v s' | None => None end
          | None => None
          end
      | None => None
      end
  end.
Definition from_str_radix (w radix : Z) (s : bytes) : option Z :=
  match s with
  | [] => None
  | [b] => if (b =? 0x2b) || (b =? 0x2d) then None else digits_value w radix 0 s
  | b :: s' => if b =? 0x2b then digits_value w radix 0 s' else digits_value w radix 0 s
  end.
Definition parse_uint (w : Z) (s : bytes) : option Z := from_str_radix w 10 s.

(** support.rs *)
Definition parse_addr (s : bytes) : option Ipv6Addr := Ipv6Addr_parse (trim s).
Definition parse_u32 (s : bytes) : option Z :=
  let s := trim s in
  match strip_hex_prefix s with Some hex => from_str_radix 32 16 hex | None => parse_uint 32 s end.
Definition parse_u64 (s : bytes) : option Z :=
  let s := trim s in
  match strip_hex_prefix s with Some hex => from_str_radix 64 16 hex | None => parse_uint 64 s end.

(** ** The tokenizer *)

Notation Tokens := (list bytes) (only parsing).

Definition is_quote (c : Z) : bool := (c =? 0x27) || (c =? 0x22).

Fixpoint tokenize_loop (line : list Z) (tokens : Tokens) (current : bytes) (in_token : bool) (quote : option Z)
    : string + Tokens :=
  match line with
  | [] =>
      match quote with
      | Some _ => inl "unterminated quoted argument"
      | None => inr (if in_token then tokens ++ [current] else tokens)
      end
  | ch :: line =>
      match quote with
      | Some q =>
          if ch =? q then tokenize_loop line tokens current in_token None
          else tokenize_loop line tokens (current ++ char_utf8 ch) in_token quote
      | None =>
          if is_quote ch then tokenize_loop line tokens current true (Some ch)
          else if is_whitespace ch then
            if in_token then tokenize_loop line (tokens ++ [current]) [] false None
            else tokenize_loop line tokens current in_token None
          else tokenize_loop line tokens (current ++ char_utf8 ch) true None
      end
  end.
Definition tokenize (line : bytes) : string + Tokens := tokenize_loop (chars line) [] [] false None.

Definition has_multi_network_flag (tokens : Tokens) : bool := existsb (fun t => is_str t "--nwk" || is_str t "--dom") tokens.

(** ** value.rs and console.rs *)

Record CommandValue := mkCommandValue { cv_body : bytes; cv_failed : bool }.
Definition cv_ok (data : bytes) : CommandValue := mkCommandValue data false.
Definition cv_done : CommandValue := cv_ok [].
Definition cv_fail (message : bytes) : CommandValue := mkCommandValue message true.
Definition newline : Z := 10.
Definition rendered (self : CommandValue) : bytes :=
  (if is_empty (cv_body self) then [] else cv_body self ++ [newline]) ++
  (if cv_failed self then str_bytes "[failed]" else str_bytes "[done]").
Definition cv_from_result (r : Error + unit) : CommandValue :=
  match r with inr _ => cv_done | inl err => cv_fail (Error_to_string err) end.

Inductive Color := Green | Red | Blue | White.
Definition escape : bytes := [0x1b].
Definition Color_code (self : Color) : bytes :=
  escape ++ str_bytes (match self with Green => "[32m" | Red => "[31m" | Blue => "[34m" | White => "[37m" end).
Definition render (line : bytes) (color : Color) : bytes :=
  Color_code color ++ line ++ escape ++ str_bytes "[0m" ++ [newline].
(** What [CommandValue::print] writes. *)
Definition printed (self : CommandValue) : bytes :=
  render (rendered self) (if cv_failed self then Red else Green).

(** ** The invocation: cli/mod.rs *)

Inductive CliInvocation :=
  | Usage
  | Version
  | UsageError
  | Run (config_path : option bytes).

Fixpoint parse_args (args : list bytes) (config_path positional : option bytes) : CliInvocation :=
  match args with
  | [] => Run (match config_path with Some p => Some p | None => positional end)
  | arg :: rest =>
      if is_str arg "-h" || is_str arg "--help" then Usage
      else if is_str arg "-v" || is_str arg "--version" then Version
      else if is_str arg "-c" || is_str arg "--config" then
        match rest with path :: rest => parse_args rest (Some path) positional | [] => UsageError end
      else if is_str arg "-r" || is_str arg "--registry" then
        match rest with _ :: rest => parse_args rest config_path positional | [] => UsageError end
      else if negb (match arg with b :: _ => b =? 0x2d | [] => false end) && negb (bool_decide (is_Some positional))
      then parse_args rest config_path (Some arg)
      else parse_args rest config_path positional
  end.
Definition parse_invocation (args : list bytes) : CliInvocation := parse_args args None None.

Example tokenize_json : tokenize (str_bytes "commdataset set '{ x : y }'  last") =
  inr [str_bytes "commdataset"; str_bytes "set"; str_bytes "{ x : y }"; str_bytes "last"].
Proof. reflexivity. Qed.
Example tokenize_open : tokenize (str_bytes "netdiag 'x") = inl "unterminated quoted argument"%string.
Proof. reflexivity. Qed.
Example parse_numbers : map parse_u32 [str_bytes " 0x1F "; str_bytes "+12"; str_bytes "-1"; str_bytes "4294967296"; str_bytes "0x"] =
  [Some 31; Some 12; None; None; None].
Proof. reflexivity. Qed.
Example trim_unicode : trim [0xc2; 0xa0; 0x20; 0x61; 0x20; 0x62; 0xe3; 0x80; 0x80] = str_bytes "a b".
Proof. reflexivity. Qed.
Example invocation_explicit : parse_invocation (map str_bytes ["positional.json"; "-c"; "explicit.json"]) = Run (Some (str_bytes "explicit.json")).
Proof. reflexivity. Qed.

(** ** UTF-8 *)

Lemma utf8_app a b : utf8 (a ++ b) = utf8 a ++ utf8 b.
Proof. unfold utf8. by rewrite map_app, concat_app. Qed.
Lemma utf8_snoc cs c : utf8 cs ++ char_utf8 c = utf8 (cs ++ [c]).
Proof. rewrite utf8_app. unfold utf8. cbn. by rewrite app_nil_r. Qed.

(** Valid UTF-8 starts with the encoding of its first character, and is empty
    or goes on with valid UTF-8. *)
Lemma chars_step l : utf8_valid l = true -> l <> [] ->
  exists c r, l = char_utf8 c ++ r /\ utf8_valid r = true /\ (forall k, chars (l ++ k) = c :: chars (r ++ k)).
Proof.
  destruct l as [|b0 r0]; [done|]. cbn [utf8_valid]. unfold in_range, utf8_cont. intros H _.
  destruct ((0 <=? b0) && (b0 <=? 0x7f)) eqn:E0.
  { zbool. exists b0, r0. unfold char_utf8. rewrite (proj2 (Z.ltb_lt b0 0x80)) by lia. repeat split; [done|].
    intros k. cbn [app chars]. by rewrite (proj2 (Z.ltb_lt b0 0x80)) by lia. }
  destruct ((0xc2 <=? b0) && (b0 <=? 0xdf)) eqn:E1.
  { destruct r0 as [|b1 r]; [done|]. unfold in_range in H. zbool. exists ((b0 - 0xc0) * 64 + (b1 - 0x80)), r.
    unfold char_utf8. rewrite (proj2 (Z.ltb_ge _ 0x80)), (proj2 (Z.ltb_lt _ 0x800)) by lia. repeat split; [cbn [app]; do 2 f_equal; Z.to_euclidean_division_equations; lia|done|].
    intros k. cbn [app chars]. by rewrite (proj2 (Z.ltb_ge b0 0x80)), (proj2 (Z.ltb_lt b0 0xe0)) by lia. }
  destruct ((0xe0 <=? b0) && (b0 <=? 0xef)) eqn:E2.
  { destruct r0 as [|b1 [|b2 r]]; [done..|]. zbool. unfold in_range in *. zbool.
    assert (0x800 <= (b0 - 0xe0) * 4096 + (b1 - 0x80) * 64 + (b2 - 0x80) < 0x10000) as Hc.
    { destruct (b0 =? 0xe0) eqn:?; [zbool; lia|]. destruct (b0 =? 0xed) eqn:?; zbool; lia. }
    assert (0x80 <= b1 <= 0xbf) by (destruct (b0 =? 0xe0); [zbool; lia|]; destruct (b0 =? 0xed); zbool; lia).
    exists ((b0 - 0xe0) * 4096 + (b1 - 0x80) * 64 + (b2 - 0x80)), r.
    unfold char_utf8. rewrite (proj2 (Z.ltb_ge _ 0x80)), (proj2 (Z.ltb_ge _ 0x800)), (proj2 (Z.ltb_lt _ 0x10000)) by lia.
    repeat split; [cbn [app]; do 3 f_equal; Z.to_euclidean_division_equations; lia|done|].
    intros k. cbn [app chars]. by rewrite (proj2 (Z.ltb_ge b0 0x80)), (proj2 (Z.ltb_ge b0 0xe0)), (proj2 (Z.ltb_lt b0 0xf0)) by lia. }
  destruct ((0xf0 <=? b0) && (b0 <=? 0xf4)) eqn:E3; [|done].
  destruct r0 as [|b1 [|b2 [|b3 r]]]; [done..|]. zbool. unfold in_range in *. zbool.
  assert (0x80 <= b1 <= 0xbf) by (destruct (b0 =? 0xf0); [zbool; lia|]; destruct (b0 =? 0xf4); zbool; lia).
  assert (0x10000 <= (b0 - 0xf0) * 262144 + (b1 - 0x80) * 4096 + (b2 - 0x80) * 64 + (b3 - 0x80)) as Hc.
  { destruct (b0 =? 0xf0) eqn:?; zbool; lia. }
  exists ((b0 - 0xf0) * 262144 + (b1 - 0x80) * 4096 + (b2 - 0x80) * 64 + (b3 - 0x80)), r.
  unfold char_utf8. rewrite (proj2 (Z.ltb_ge _ 0x80)), (proj2 (Z.ltb_ge _ 0x800)), (proj2 (Z.ltb_ge _ 0x10000)) by lia.
  repeat split; [cbn [app]; do 4 f_equal; Z.to_euclidean_division_equations; lia|done|].
  intros k. cbn [app chars]. by rewrite (proj2 (Z.ltb_ge b0 0x80)), (proj2 (Z.ltb_ge b0 0xe0)), (proj2 (Z.ltb_ge b0 0xf0)) by lia.
Qed.

(** The first character takes at least one byte. *)
Lemma char_utf8_cons c : exists b r, char_utf8 c = b :: r.
Proof. unfold char_utf8. repeat case_match; eauto. Qed.
Lemma utf8_ind (P : bytes -> Prop) : P [] ->
  (forall c r, utf8_valid r = true -> (forall k, chars ((char_utf8 c ++ r) ++ k) = c :: chars (r ++ k)) -> P r -> P (char_utf8 c ++ r)) ->
  forall l, utf8_valid l = true -> P l.
Proof.
  intros Hn Hs l. remember (length l) as n eqn:En. revert l En. induction (lt_wf n) as [n _ IH]. intros l -> Hl.
  destruct l as [|b l0]; [done|]. destruct (chars_step _ Hl ltac:(done)) as (c & r & El & Hr & Hc). rewrite El in *.
  apply Hs; [done..|]. eapply IH; [|done|done]. destruct (char_utf8_cons c) as (b' & r' & Ec).
  rewrite Ec. cbn. rewrite length_app. lia.
Qed.
Lemma utf8_chars l : utf8_valid l = true -> utf8 (chars l) = l.
Proof.
  intros Hl. pattern l. apply utf8_ind; [done| |done]. intros c r _ Hc IH. specialize (Hc []). rewrite !app_nil_r in Hc.
  rewrite Hc. cbn. by rewrite <- IH at 2.
Qed.
Lemma chars_app l k : utf8_valid l = true -> chars (l ++ k) = chars l ++ chars k.
Proof.
  intros Hl. pattern l. apply utf8_ind; [done| |done]. intros c r _ Hc IH. rewrite Hc, IH.
  specialize (Hc []). rewrite !app_nil_r in Hc. by rewrite Hc.
Qed.

(** ** The grammar of command lines *)

(** [spelled w t]: the characters [w], without unquoted whitespace, stand for
    the text [t]: plain characters for themselves, a quoted span for what is
    between the quotes. *)
Inductive spelled : list Z -> list Z -> Prop :=
  | sp_nil : spelled [] []
  | sp_plain c w t : is_quote c = false -> is_whitespace c = false -> spelled w t -> spelled (c :: w) (c :: t)
  | sp_quoted q s w t : is_quote q = true -> q ∉ s -> spelled w t -> spelled (q :: s ++ q :: w) (s ++ t).
(** The end of a token. *)
Definition boundary (l : list Z) : Prop := match l with [] => True | c :: _ => is_whitespace c = true end.
Inductive lexes : list Z -> list (list Z) -> Prop :=
  | lx_end : lexes [] []
  | lx_space c l ts : is_whitespace c = true -> lexes l ts -> lexes (c :: l) ts
  | lx_token w t l ts : w <> [] -> spelled w t -> boundary l -> lexes l ts -> lexes (w ++ l) (t :: ts).

Lemma quote_not_space c : is_quote c = true -> is_whitespace c = false.
Proof. unfold is_quote. rewrite orb_true_iff, !Z.eqb_eq. by intros [-> | ->]. Qed.

(** Completeness: a derivation drives the loop. *)
Lemma loop_quoted q s line ts cur : q ∉ s ->
  tokenize_loop (s ++ q :: line) ts (utf8 cur) true (Some q) = tokenize_loop line ts (utf8 (cur ++ s)) true None.
Proof.
  revert cur. induction s as [|c s IH]; intros cur Hs; cbn [app tokenize_loop]; [by rewrite Z.eqb_refl, app_nil_r|].
  apply not_elem_of_cons in Hs as [Hc Hs]. rewrite (proj2 (Z.eqb_neq _ _)) by done. rewrite utf8_snoc, IH by done.
  by rewrite <- app_assoc.
Qed.
Lemma loop_spelled w t l ts cur : spelled w t ->
  tokenize_loop (w ++ l) ts (utf8 cur) true None = tokenize_loop l ts (utf8 (cur ++ t)) true None.
Proof.
  intros H. revert cur. induction H as [|c w t Hq Hs H IH|q s w t Hq Hs H IH]; intros cur; cbn [app tokenize_loop].
  - by rewrite app_nil_r.
  - rewrite Hq, Hs, utf8_snoc, IH. by rewrite <- app_assoc.
  - rewrite Hq, <- app_assoc. cbn [app]. rewrite loop_quoted, IH by done. by rewrite <- app_assoc.
Qed.
(** The first character of a token starts it. *)
Lemma loop_starts w t l ts : w <> [] -> spelled w t ->
  tokenize_loop (w ++ l) ts [] false None = tokenize_loop (w ++ l) ts [] true None.
Proof.
  intros Hw H. destruct H as [|c w' t' Hq Hs H|q s w' t' Hq Hs H]; [done|..]; cbn [app tokenize_loop]; rewrite Hq; [by rewrite Hs|done].
Qed.
Lemma loop_complete line cs ts : lexes line cs -> tokenize_loop line ts [] false None = inr (ts ++ map utf8 cs).
Proof.
  intros H. revert ts. induction H as [|c l cs Hc H IH|w t l cs Hw Hwt Hb H IH]; intros ts.
  - cbn. by rewrite app_nil_r.
  - cbn [tokenize_loop]. destruct (is_quote c) eqn:Eq; [by rewrite (quote_not_space _ Eq) in Hc|]. by rewrite Hc, IH.
  - rewrite (loop_starts _ _ _ _ Hw Hwt). change (@nil Z) with (utf8 []) at 1. rewrite (loop_spelled w t l ts [] Hwt). cbn [app map].
    destruct l as [|c l]; [|cbn in Hb].
    + inversion H as [| |w' ? l' ? Hw' ? ? ? E]; subst; [done|]. by destruct w'.
    + cbn [tokenize_loop]. destruct (is_quote c) eqn:Eq; [by rewrite (quote_not_space _ Eq) in Hb|]. rewrite Hb.
      specialize (IH (ts ++ [utf8 t])). cbn [tokenize_loop] in IH. rewrite Eq, Hb in IH. rewrite IH. by rewrite <- app_assoc.
Qed.

(** Soundness: what the loop accepts has a derivation. *)
Definition rest_of_token (line : list Z) (res : Tokens) (ts : Tokens) (cur : list Z) : Prop :=
  exists w t l cs, line = w ++ l /\ spelled w t /\ boundary l /\ lexes l cs /\ res = ts ++ utf8 (cur ++ t) :: map utf8 cs.
Definition rest_of_quote (q : Z) (line : list Z) (res : Tokens) (ts : Tokens) (cur : list Z) : Prop :=
  exists s l, line = s ++ q :: l /\ q ∉ s /\ rest_of_token l res ts (cur ++ s).
Lemma loop_sound line : (forall ts cur res, tokenize_loop line ts (utf8 cur) true None = inr res -> rest_of_token line res ts cur) /\
  (forall q ts cur res, tokenize_loop line ts (utf8 cur) true (Some q) = inr res -> rest_of_quote q line res ts cur) /\
  (forall ts res, tokenize_loop line ts [] false None = inr res -> exists cs, lexes line cs /\ res = ts ++ map utf8 cs).
Proof.
  induction line as [|c line (IHt & IHq & IHs)]; (split; [|split]).
  - intros ts cur res [= <-]. exists [], [], [], []. repeat split; [constructor..|by rewrite app_nil_r].
  - done.
  - intros ts res [= <-]. exists []. split; [constructor|]. by rewrite app_nil_r.
  - intros ts cur res. cbn [tokenize_loop]. destruct (is_quote c) eqn:Eq.
    + intros (s & l & -> & Hs & w & t & l' & cs & -> & Hw & Hb & Hl & ->)%IHq.
      exists (c :: s ++ c :: w), (s ++ t), l', cs. split; [cbn; by rewrite <- app_assoc|]. split; [by constructor|]. by rewrite <- app_assoc.
    + destruct (is_whitespace c) eqn:Es.
      * intros (cs & Hl & ->)%IHs. exists [], [], (c :: line), cs. repeat split; [constructor|done|by constructor|].
        by rewrite <- app_assoc, app_nil_r.
      * rewrite utf8_snoc. intros (w & t & l' & cs & -> & Hw & Hb & Hl & ->)%IHt.
        exists (c :: w), (c :: t), l', cs. repeat split; [by constructor|done..|by rewrite <- app_assoc].
  - intros q ts cur res. cbn [tokenize_loop]. destruct (c =? q) eqn:Eq.
    + apply Z.eqb_eq in Eq as ->. intros H%IHt. exists [], line. repeat split; [apply not_elem_of_nil|by rewrite app_nil_r].
    + rewrite utf8_snoc. intros (s & l & -> & Hs & H)%IHq. exists (c :: s), l. rewrite <- app_assoc in H. split; [done|]. split; [|done].
      apply not_elem_of_cons. split; [|done]. intros ->. by rewrite Z.eqb_refl in Eq.
  - intros ts res. cbn [tokenize_loop]. destruct (is_quote c) eqn:Eq.
    + intros (s & l & -> & Hs & w & t & l' & cs & -> & Hw & Hb & Hl & ->)%(IHq c ts []).
      exists ((s ++ t) :: cs). split; [|done]. change (c :: s ++ c :: w ++ l') with ((c :: s) ++ (c :: w) ++ l').
      rewrite app_assoc. apply lx_token; [done|by constructor|done..].
    + destruct (is_whitespace c) eqn:Es.
      * intros (cs & Hl & ->)%IHs. exists cs. split; [by constructor|done].
      * cbn [app]. rewrite <- (app_nil_r (char_utf8 c)). change (char_utf8 c ++ []) with (utf8 [c]).
        intros (w & t & l' & cs & -> & Hw & Hb & Hl & ->)%IHt. exists ((c :: t) :: cs). split; [|done].
        change (c :: w ++ l') with ((c :: w) ++ l'). apply lx_token; [done|by constructor|done..].
Qed.

Lemma tokenize_lexes line ts : tokenize line = inr ts <-> exists cs, lexes (chars line) cs /\ ts = map utf8 cs.
Proof.
  unfold tokenize. split.
  - intros H. by apply (proj2 (proj2 (loop_sound _))) in H.
  - intros (cs & H & ->). by rewrite (loop_complete _ _ _ H).
Qed.
Lemma tokenize_loop_error line ts cur b q e : tokenize_loop line ts cur b q = inl e -> e = "unterminated quoted argument"%string.
Proof. revert ts cur b q. induction line as [|c line IH]; intros ts cur b q; cbn [tokenize_loop]; repeat case_match; try done; try (by intros [= <-]); apply IH. Qed.

(** A command line that quotes each token, as a script would write it. *)
Fixpoint quote_line (q : Z) (tokens : Tokens) : bytes :=
  match tokens with
  | [] => []
  | t :: tokens => q :: t ++ q :: 0x20 :: quote_line q tokens
  end.

Lemma is_quote_ascii q : is_quote q = true -> 0 <= q < 0x80.
Proof. unfold is_quote. rewrite orb_true_iff, !Z.eqb_eq. lia. Qed.
Lemma chars_ascii b l : b < 0x80 -> chars (b :: l) = b :: chars l.
Proof. intros H. cbn [chars]. by rewrite (proj2 (Z.ltb_lt _ _)). Qed.
Lemma quote_line_lexes q tokens : is_quote q = true -> Forall (fun t => utf8_valid t = true /\ q ∉ chars t) tokens ->
  lexes (chars (quote_line q tokens)) (map chars tokens).
Proof.
  intros Hq. pose proof (is_quote_ascii q Hq) as Ha. induction 1 as [|t tokens [Ht Hqt] _ IH]; cbn [quote_line map]; [constructor|].
  rewrite (chars_ascii q) by lia. rewrite (chars_app t) by done. rewrite (chars_ascii q), (chars_ascii 0x20) by lia.
  replace (q :: chars t ++ q :: 0x20 :: chars (quote_line q tokens)) with ((q :: chars t ++ [q]) ++ 0x20 :: chars (quote_line q tokens))
    by (cbn; by rewrite <- app_assoc).
  apply lx_token; [done| |done|].
  - rewrite <- (app_nil_r (chars t)) at 2. apply sp_quoted; [done..|constructor].
  - by apply lx_space.
Qed.

(** The tokenizer accepts exactly the command lines of the grammar, with
    the tokens the grammar gives them, and the only error is an open quote;
    tokens of valid UTF-8 without a quote character come back from the line
    that quotes each of them, empty ones and ones with spaces included. *)
Theorem command_lines_lexed :
  (forall line tokens, tokenize line = inr tokens <-> exists cs, lexes (chars line) cs /\ tokens = map utf8 cs) /\
  (forall line e, tokenize line = inl e -> e = "unterminated quoted argument"%string /\ forall cs, ~ lexes (chars line) cs) /\
  (forall q tokens, is_quote q = true -> Forall (fun t => utf8_valid t = true /\ q ∉ chars t) tokens ->
     tokenize (quote_line q tokens) = inr tokens).
Proof.
  split; [exact tokenize_lexes|]. split.
  - intros line e He. split; [by apply tokenize_loop_error in He|]. intros cs Hc.
    assert (tokenize line = inr (map utf8 cs)) as H by (apply tokenize_lexes; eauto). by rewrite He in H.
  - intros q tokens Hq Ht. apply tokenize_lexes. exists (map chars tokens). split; [by apply quote_line_lexes|].
    rewrite map_map. induction Ht as [|t tokens [Hv _] _ IH]; [done|]. cbn [map]. by rewrite utf8_chars, <- IH.
Qed.
Lemma command_lines_lexed_witness :
  tokenize (quote_line 0x27 [str_bytes "opdataset"; []; str_bytes "a b"; [0xc3; 0xa9]]) =
    inr [str_bytes "opdataset"; []; str_bytes "a b"; [0xc3; 0xa9]].
Proof.
  apply (proj2 (proj2 command_lines_lexed)); [reflexivity|].
  repeat constructor; try reflexivity; by_decide.
Defined.
