(* ===== verification/CliConfig.v ===== *)
(** * CliConfig: the configuration file of the command line

    crates/ot-commissioner-cli/src/cli/config.rs.  Reading the file and
    deserializing JSON are other code: [load] takes the contents, and the
    deserializer is the class [ConfigParser].  [strips] is the grammar of
    commented JSON [strip_json_comments] is proved to implement. *)
From S2P Require Import Prelude Text Hex Errors Cli Commissioner.

Record ConfigFile := mkConfigFile {
  cf_id : option bytes;
  cf_domain_name : option bytes;
  cf_enable_ccm : bool;
  cf_keep_alive_interval : option Z;
  cf_pskc : option bytes }.

(** [serde_json::from_str::<ConfigFile>], an error as its text. *)
Class ConfigParser := { parse_config_file : bytes -> string + ConfigFile }.

Record CliConfig := mkCliConfig {
  cc_id : bytes;
  cc_domain_name : bytes;
  cc_enable_ccm : bool;
  cc_keep_alive_interval : Z;
  cc_pskc : bytes;
  cc_admin_code : bytes }.
Definition CliConfig_default : CliConfig :=
  mkCliConfig (str_bytes "OT-commissioner") (str_bytes "Thread") false 40 [] [].
Definition with_pskc (pskc : bytes) (c : CliConfig) : CliConfig :=
  mkCliConfig (cc_id c) (cc_domain_name c) (cc_enable_ccm c) (cc_keep_alive_interval c) pskc (cc_admin_code c).
Definition with_admin_code (code : bytes) (c : CliConfig) : CliConfig :=
  mkCliConfig (cc_id c) (cc_domain_name c) (cc_enable_ccm c) (cc_keep_alive_interval c) (cc_pskc c) code.

(** ** Comments *)

Definition QUOTE : Z := 0x22.
Definition BACKSLASH : Z := 0x5c.
Definition SLASH : Z := 0x2f.
Definition STAR : Z := 0x2a.

Fixpoint skip_line (l : bytes) : bytes :=
  match l with
  | b :: l' => if b =? newline then l else skip_line l'
  | [] => []
  end.
(** From behind the opening: the rest after the closing, nothing when it is
    missing. *)
Fixpoint skip_block (l : bytes) : bytes :=
  match l with
  | a :: (b :: r) as l' => if (a =? STAR) && (b =? SLASH) then r else skip_block l'
  | _ => []
  end.

(** [out.push(b as char)]: a byte becomes the character of its value. *)
Fixpoint strip_loop (fuel : nat) (l : bytes) (in_string : bool) : result Error bytes :=
  match l with
  | [] => Ok []
  | b :: rest =>
      match fuel with
      | O => Panic OutOfFuel
      | S fuel =>
          if in_string then
            match rest with
            | n :: rest' =>
                if b =? BACKSLASH then
                  let! out := strip_loop fuel rest' true in Ok (char_utf8 b ++ char_utf8 n ++ out)
                else let! out := strip_loop fuel rest (negb (b =? QUOTE)) in Ok (char_utf8 b ++ out)
            | [] => let! out := strip_loop fuel rest (negb (b =? QUOTE)) in Ok (char_utf8 b ++ out)
            end
          else if b =? QUOTE then let! out := strip_loop fuel rest true in Ok (QUOTE :: out)
          else
            match rest with
            | n :: rest' =>
                if (b =? SLASH) && (n =? SLASH) then strip_loop fuel (skip_line l) false
                else if (b =? SLASH) && (n =? STAR) then strip_loop fuel (skip_block rest') false
                else let! out := strip_loop fuel rest false in Ok (char_utf8 b ++ out)
            | [] => let! out := strip_loop fuel rest false in Ok (char_utf8 b ++ out)
            end
      end
  end.
Definition strip_json_comments (input : bytes) : result Error bytes := strip_loop (length input) input false.

(** ** Loading *)

Section Load.
Context {HX : Hex} {CP : ConfigParser}.

Definition load (raw : string + bytes) : result Error CliConfig :=
  let! raw := match raw with inr raw => Ok raw | inl err => Err (EDataset ("cannot read config file: " +:+ err)) end in
  let! cleaned := strip_json_comments raw in
  let! file := match parse_config_file cleaned with
               | inr file => Ok file
               | inl err => Err (EDataset ("invalid config file: " +:+ err))
               end in
  let config := mkCliConfig (default (cc_id CliConfig_default) (cf_id file))
    (default (cc_domain_name CliConfig_default) (cf_domain_name file)) (cf_enable_ccm file)
    (default (cc_keep_alive_interval CliConfig_default) (cf_keep_alive_interval file)) [] [] in
  match cf_pskc file with
  | Some pskc_hex =>
      match hex_decode (trim pskc_hex) with
      | inr pskc => Ok (with_pskc pskc config)
      | inl err => Err (EDataset ("invalid PSKc hex: " +:+ err))
      end
  | None => Ok config
  end.
End Load.

Definition to_commissioner_config (self : CliConfig) : result Error CommissionerConfig :=
  if cc_enable_ccm self then Err (EUnsupported "CCM is reserved but deferred")
  else if negb (len (cc_pskc self) =? 16)
  then Err (EDataset "PSKc must be exactly 16 bytes; set it with 'config set pskc'")
  else
    build (builder_keepalive_interval (seconds (cc_keep_alive_interval self))
      (builder_enable_ccm (cc_enable_ccm self)
        (builder_domain_name (cc_domain_name self)
          (builder_pskc (cc_pskc self) (CommissionerConfigBuilder_new (cc_id self)))))).

Example strip_example :
  strip_json_comments (str_bytes "{ // x" ++ [10] ++ [QUOTE] ++ str_bytes "a//b" ++ [BACKSLASH; QUOTE; QUOTE] ++ str_bytes "/* y */ }") =
  Ok (str_bytes "{ " ++ [10] ++ [QUOTE] ++ str_bytes "a//b" ++ [BACKSLASH; QUOTE; QUOTE] ++ str_bytes " }").
Proof. reflexivity. Qed.

(** ** The grammar of commented JSON *)

(** What stands between the quotes of a string literal: characters other than
    quotes and backslashes, and backslashes with what they escape. *)
Inductive literal : bytes -> Prop :=
  | lit_nil : literal []
  | lit_char b l : b <> BACKSLASH -> b <> QUOTE -> literal l -> literal (b :: l)
  | lit_escape n l : literal l -> literal (BACKSLASH :: n :: l).
(** A literal that runs to the end of the file. *)
Inductive open_literal : bytes -> Prop :=
  | ol_nil : open_literal []
  | ol_backslash : open_literal [BACKSLASH]
  | ol_char b l : b <> BACKSLASH -> b <> QUOTE -> open_literal l -> open_literal (b :: l)
  | ol_escape n l : open_literal l -> open_literal (BACKSLASH :: n :: l).
Definition closes (l : bytes) : Prop := exists a r, l = a ++ STAR :: SLASH :: r.
Definition opens_comment (l : bytes) : Prop := exists b r, l = SLASH :: b :: r /\ (b = SLASH \/ b = STAR).
Definition line_end (l : bytes) : Prop := match l with [] => True | b :: _ => b = newline end.

Inductive strips : bytes -> bytes -> Prop :=
  | st_end : strips [] []
  | st_plain b l out : b <> QUOTE -> ~ opens_comment (b :: l) -> strips l out -> strips (b :: l) (b :: out)
  | st_string s l out : literal s -> strips l out -> strips (QUOTE :: s ++ QUOTE :: l) (QUOTE :: s ++ QUOTE :: out)
  | st_open_string s : open_literal s -> strips (QUOTE :: s) (QUOTE :: s)
  | st_line s l out : newline ∉ s -> line_end l -> strips l out -> strips (SLASH :: SLASH :: s ++ l) out
  | st_block s l out : ~ closes s -> strips l out -> strips (SLASH :: STAR :: s ++ STAR :: SLASH :: l) out
  | st_open_block s : ~ closes s -> strips (SLASH :: STAR :: s) [].

(** ** The loop *)

Definition strip (l : bytes) (in_string : bool) : result Error bytes := strip_loop (length l) l in_string.

Lemma skip_line_length l : (length (skip_line l) <= length l)%nat.
Proof. induction l as [|b l IH]; cbn; [done|]. destruct (b =? newline); cbn; lia. Qed.
Lemma skip_block_length l : (length (skip_block l) <= length l)%nat.
Proof. induction l as [|a l IH]; cbn; [done|]. destruct l as [|b r]; [cbn; lia|]. destruct ((a =? STAR) && (b =? SLASH)); cbn in *; lia. Qed.
Lemma strip_loop_fuel n m l b : (length l <= n)%nat -> (length l <= m)%nat -> strip_loop n l b = strip_loop m l b.
Proof.
  revert m l b. induction n as [|n IH]; intros m l b Hn Hm; destruct l as [|c l]; [by destruct m|cbn in Hn; lia|by destruct m|].
  destruct m as [|m]; [cbn in Hm; lia|]. cbn [length] in Hn, Hm. cbn [strip_loop].
  destruct l as [|d r].
  - destruct b; [|destruct (c =? QUOTE)]; by rewrite (IH m) by (cbn; lia).
  - cbn [length] in Hn, Hm. pose proof (skip_line_length (c :: d :: r)) as Hl. pose proof (skip_block_length r) as Hb.
    rewrite !(IH m r), !(IH m (d :: r)), (IH m (skip_block r)) by (cbn [length] in *; lia). destruct ((c =? SLASH) && (d =? SLASH)) eqn:Ec; [|done].
    apply andb_true_iff in Ec as [->%Z.eqb_eq ->%Z.eqb_eq].
    change (skip_line (SLASH :: SLASH :: r)) with (skip_line r). pose proof (skip_line_length r).
    by rewrite (IH m (skip_line r)) by lia.
Qed.
Lemma strip_loop_strip n l b : (length l <= n)%nat -> strip_loop n l b = strip l b.
Proof. intros H. by apply strip_loop_fuel. Qed.

Lemma strip_escape n l : strip (BACKSLASH :: n :: l) true = let! out := strip l true in Ok (BACKSLASH :: char_utf8 n ++ out).
Proof.
  change (strip (BACKSLASH :: n :: l) true) with (let! out := strip_loop (S (length l)) l true in Ok (BACKSLASH :: char_utf8 n ++ out) : result Error bytes).
  by rewrite (strip_loop_strip _ l) by lia.
Qed.
Lemma strip_literal_char b l : b <> BACKSLASH -> strip (b :: l) true = let! out := strip l (negb (b =? QUOTE)) in Ok (char_utf8 b ++ out).
Proof. intros Hb. unfold strip. cbn [length strip_loop]. rewrite (proj2 (Z.eqb_neq b _) Hb). by destruct l. Qed.
Lemma strip_quote l : strip (QUOTE :: l) false = let! out := strip l true in Ok (QUOTE :: out).
Proof. done. Qed.
Lemma strip_line_comment l : strip (SLASH :: SLASH :: l) false = strip (skip_line l) false.
Proof.
  change (strip (SLASH :: SLASH :: l) false) with (strip_loop (S (length l)) (skip_line l) false).
  apply strip_loop_strip. pose proof (skip_line_length l). lia.
Qed.
Lemma strip_block_comment l : strip (SLASH :: STAR :: l) false = strip (skip_block l) false.
Proof.
  change (strip (SLASH :: STAR :: l) false) with (strip_loop (S (length l)) (skip_block l) false).
  apply strip_loop_strip. pose proof (skip_block_length l). lia.
Qed.
Lemma strip_plain b l : b <> QUOTE -> ~ opens_comment (b :: l) -> strip (b :: l) false = let! out := strip l false in Ok (char_utf8 b ++ out).
Proof.
  intros Hb Hc. unfold strip. cbn [length strip_loop]. rewrite (proj2 (Z.eqb_neq b _) Hb). destruct l as [|n l]; [done|].
  destruct ((b =? SLASH) && (n =? SLASH)) eqn:E1.
  { apply andb_true_iff in E1 as [->%Z.eqb_eq ->%Z.eqb_eq]. destruct Hc. exists SLASH, l. auto. }
  destruct ((b =? SLASH) && (n =? STAR)) eqn:E2; [|done].
  apply andb_true_iff in E2 as [->%Z.eqb_eq ->%Z.eqb_eq]. destruct Hc. exists STAR, l. auto.
Qed.

(** The loop in a literal. *)
Lemma strip_literal s l out : literal s -> strip l false = Ok out ->
  strip (s ++ QUOTE :: l) true = Ok (utf8 s ++ QUOTE :: out).
Proof.
  intros Hs Hl. induction Hs as [|b s Hb Hq _ IH|n s _ IH]; cbn [app].
  - rewrite strip_literal_char by done. change (negb (QUOTE =? QUOTE)) with false. by rewrite Hl.
  - rewrite strip_literal_char by done. rewrite (proj2 (Z.eqb_neq b _) Hq). cbn [negb]. rewrite IH. cbn [rbind].
    unfold utf8. cbn [map concat]. by rewrite <- app_assoc.
  - rewrite strip_escape, IH. cbn [rbind]. unfold utf8. cbn [map concat]. by rewrite <- !app_assoc.
Qed.
Lemma strip_open_literal s : open_literal s -> strip s true = Ok (utf8 s).
Proof.
  induction 1 as [| |b s Hb Hq _ IH|n s _ IH]; [done|done|..].
  - rewrite strip_literal_char by done. rewrite (proj2 (Z.eqb_neq b _) Hq). cbn [negb]. by rewrite IH.
  - rewrite strip_escape, IH. cbn [rbind]. unfold utf8. cbn [map concat]. by rewrite <- ?app_assoc.
Qed.

(** The ends of comments. *)
Lemma skip_line_end s l : newline ∉ s -> line_end l -> skip_line (s ++ l) = l.
Proof.
  intros Hs Hl. induction s as [|b s IH]; cbn.
  - destruct l as [|b l]; [done|]. cbn in *. by rewrite Hl.
  - apply not_elem_of_cons in Hs as [Hb Hs]. rewrite (proj2 (Z.eqb_neq _ _)) by done. by apply IH.
Qed.
Lemma closes_cons a l : closes l -> closes (a :: l).
Proof. intros (x & y & ->). by exists (a :: x), y. Qed.
Lemma skip_block_end s l : ~ closes s -> skip_block (s ++ STAR :: SLASH :: l) = l.
Proof.
  intros Hs. induction s as [|a s IH]; [done|]. cbn [app].
  assert (skip_block (s ++ STAR :: SLASH :: l) = l) as Hi by (apply IH; intros H; by apply Hs, closes_cons).
  destruct s as [|b s]; cbn [app skip_block] in *; [by rewrite andb_false_r|].
  destruct ((a =? STAR) && (b =? SLASH)) eqn:E; [|done].
  apply andb_true_iff in E as [->%Z.eqb_eq ->%Z.eqb_eq]. destruct Hs. by exists [], s.
Qed.
Lemma skip_block_open s : ~ closes s -> skip_block s = [].
Proof.
  induction s as [|a s IH]; [done|]. intros Hs. destruct s as [|b s]; [done|]. cbn [skip_block].
  destruct ((a =? STAR) && (b =? SLASH)) eqn:E.
  - apply andb_true_iff in E as [->%Z.eqb_eq ->%Z.eqb_eq]. destruct Hs. by exists [], s.
  - apply IH. intros H. by apply Hs, closes_cons.
Qed.

Lemma strip_strips l out : strips l out -> strip l false = Ok (utf8 out).
Proof.
  induction 1 as [|b l out Hb Hc _ IH|s l out Hs _ IH|s Hs|s l out Hs Hl _ IH|s l out Hs _ IH|s Hs].
  - done.
  - by rewrite strip_plain, IH.
  - rewrite strip_quote, (strip_literal s l (utf8 out)) by done. cbn [rbind].
    change (QUOTE :: s ++ QUOTE :: out) with ([QUOTE] ++ s ++ [QUOTE] ++ out). by rewrite !utf8_app.
  - by rewrite strip_quote, strip_open_literal.
  - by rewrite strip_line_comment, skip_line_end.
  - by rewrite strip_block_comment, skip_block_end.
  - by rewrite strip_block_comment, skip_block_open.
Qed.

(** ** Every file is in the grammar *)

Lemma literal_split l : open_literal l \/ exists s r, l = s ++ QUOTE :: r /\ literal s.
Proof.
  remember (length l) as n eqn:En. revert l En. induction (lt_wf n) as [n _ IH]. intros l ->.
  destruct l as [|b l]; [left; constructor|]. destruct (decide (b = QUOTE)) as [->|Hq]; [right; exists [], l; by repeat constructor|].
  destruct (decide (b = BACKSLASH)) as [->|Hb].
  - destruct l as [|n l]; [left; constructor|].
    destruct (IH (length l) ltac:(cbn; lia) l eq_refl) as [H|(s & r & -> & H)]; [left; by constructor|].
    right. exists (BACKSLASH :: n :: s), r. split; [done|by constructor].
  - destruct (IH (length l) ltac:(cbn; lia) l eq_refl) as [H|(s & r & -> & H)]; [left; by constructor|].
    right. exists (b :: s), r. split; [done|by constructor].
Qed.
Lemma line_split l : exists s r, l = s ++ r /\ newline ∉ s /\ line_end r.
Proof.
  induction l as [|b l (s & r & -> & Hs & Hr)]; [exists [], []; repeat split; apply not_elem_of_nil|].
  destruct (decide (b = newline)) as [->|Hb]; [exists [], (newline :: s ++ r); repeat split; apply not_elem_of_nil|].
  exists (b :: s), r. repeat split; [|done]. by apply not_elem_of_cons.
Qed.
Lemma block_split l : ~ closes l \/ exists s r, l = s ++ STAR :: SLASH :: r /\ ~ closes s.
Proof.
  induction l as [|a l IH]; [left; intros (x & y & H); by destruct x|].
  destruct l as [|b l]; [left; intros (x & y & H); by destruct x as [|? [|]]|].
  destruct (decide (a = STAR /\ b = SLASH)) as [[-> ->]|Hab].
  - right. exists [], l. split; [done|]. intros (x & y & H). by destruct x.
  - assert (forall s, closes (a :: s) -> head s = Some b \/ s = [] -> closes s) as Hc.
    { intros s (x & y & H) Hh. destruct x as [|c x]; [|injection H as _ ->; by exists x, y].
      injection H as -> ->. destruct Hh as [[= <-]|]; [by destruct Hab|done]. }
    destruct IH as [H|(s & r & E & H)].
    + left. intros Hk. apply H, (Hc _ Hk). by left.
    + right. exists (a :: s), r. split; [by rewrite E|]. intros Hk. apply H, (Hc _ Hk).
      destruct s as [|c s]; [by right|left]. by injection E as -> _.
Qed.
Lemma no_star_no_close s : STAR ∉ s -> ~ closes s.
Proof. intros Hs (x & y & ->). apply Hs, elem_of_app. right. by left. Qed.
Lemma opens_comment_dec l : Decision (opens_comment l).
Proof.
  destruct l as [|a [|b l]]; [right; by intros (x & r & [=] & _)..|].
  destruct (decide (a = SLASH /\ (b = SLASH \/ b = STAR))) as [[-> H]|H]; [left; by exists b, l|].
  right. intros (x & r & [= -> -> ->] & Hx). by apply H.
Qed.
Lemma strips_total l : exists out, strips l out.
Proof.
  remember (length l) as n eqn:En. revert l En. induction (lt_wf n) as [n _ IH]. intros l ->.
  destruct l as [|b l]; [exists []; constructor|]. destruct (decide (b = QUOTE)) as [->|Hq].
  { destruct (literal_split l) as [H|(s & r & -> & H)]; [eexists; by apply st_open_string|].
    destruct (IH (length r) ltac:(cbn; rewrite length_app; cbn; lia) r eq_refl) as [o Ho]. eexists. by apply st_string. }
  destruct (opens_comment_dec (b :: l)) as [(c & r & [= -> ->] & [-> | ->])|Hc].
  - destruct (line_split r) as (s & k & -> & Hs & Hk).
    destruct (IH (length k) ltac:(cbn; rewrite length_app; lia) k eq_refl) as [o Ho]. eexists. by apply st_line.
  - destruct (block_split r) as [H|(s & k & -> & Hs)]; [eexists; by apply st_open_block|].
    destruct (IH (length k) ltac:(cbn; rewrite length_app; cbn; lia) k eq_refl) as [o Ho]. eexists. by apply st_block.
  - destruct (IH (length l) ltac:(cbn; lia) l eq_refl) as [o Ho]. eexists. by apply st_plain.
Qed.

Lemma utf8_ascii l : Forall (fun b => b < 0x80) l -> utf8 l = l.
Proof.
  unfold utf8. induction 1 as [|b l Hb _ IH]; [done|]. cbn [map concat]. rewrite IH. unfold char_utf8.
  by rewrite (proj2 (Z.ltb_lt _ _)).
Qed.
Lemma strips_incl l out : strips l out -> Forall (fun b => b < 0x80) l -> Forall (fun b => b < 0x80) out.
Proof.
  induction 1 as [|b l out Hb Hc _ IH|s l out Hs _ IH|s Hs|s l out Hs Hl _ IH|s l out Hs _ IH|s Hs]; intros H; try done.
  - apply Forall_cons in H as [? ?]. constructor; [done|]. by apply IH.
  - apply Forall_cons in H as [? [? [? ?]%Forall_cons]%Forall_app]. constructor; [done|]. apply Forall_app. split; [done|].
    constructor; [done|]. by apply IH.
  - apply Forall_cons in H as [? [? [? ?]%Forall_app]%Forall_cons]. by apply IH.
  - apply Forall_cons in H as [? [? [? [? [? ?]%Forall_cons]%Forall_cons]%Forall_app]%Forall_cons]. by apply IH.
Qed.

(** [strip_json_comments] never fails, and on an ASCII file it is the
    grammar of commented JSON: string literals and everything outside comments
    stay as they are, comments go.  On other files every byte above 127 that
    stays is written as the two-byte character of its value. *)
Theorem comments_stripped input :
  (exists out, strips input out /\ strip_json_comments input = Ok (utf8 out)) /\
  (forall out, Forall (fun b => b < 0x80) input -> (strip_json_comments input = Ok out <-> strips input out)).
Proof.
  destruct (strips_total input) as [o Ho]. split; [exists o; split; [done|by apply strip_strips]|].
  intros out Ha. pose proof (strip_strips _ _ Ho) as Hs. pose proof (strips_incl _ _ Ho Ha) as Hi.
  rewrite (utf8_ascii o) in Hs by done. change (strip_json_comments input) with (strip input false). split.
  - rewrite Hs. by intros [= <-].
  - intros H. rewrite (strip_strips _ _ H). by rewrite (utf8_ascii out) by (by eapply strips_incl).
Qed.
Lemma comments_stripped_witness :
  strip_json_comments (str_bytes "/* a */{}// b") = Ok (str_bytes "{}").
Proof.
  apply (proj2 (comments_stripped (str_bytes "/* a */{}// b")) (str_bytes "{}")); [by repeat constructor|].
  apply (st_block (str_bytes " a ") (str_bytes "{}// b")).
  - apply no_star_no_close. by_decide.
  - assert (forall l, opens_comment l -> head l = Some SLASH) as Hh by (by intros l (b & r & -> & _)).
    apply st_plain; [done|by intros H%Hh|]. apply st_plain; [done|by intros H%Hh|].
    apply (st_line (str_bytes " b") []); [by_decide|done|constructor].
Defined.

(** A string literal that is not ASCII changes. *)
Lemma strip_corrupts_literals :
  strip_json_comments [QUOTE; 0xc3; 0xa9; QUOTE] = Ok [QUOTE; 0xc3; 0x83; 0xc2; 0xa9; QUOTE].
Proof. reflexivity. Qed.

(** ** From the file to the session *)

(** A [CliConfig] opens sessions exactly when CCM is off, its PSKc has sixteen
    bytes and its keep-alive interval is between 30 and 45 seconds; the session
    is then configured by its fields. *)
Lemma to_commissioner_config_ok c cfg : to_commissioner_config c = Ok cfg <->
  cc_enable_ccm c = false /\ len (cc_pskc c) = 16 /\ 30 <= cc_keep_alive_interval c <= 45 /\
  cfg = mkCommissionerConfig (cc_id c) (cc_pskc c) (seconds (cc_keep_alive_interval c)) Automatic DEFAULT_EVENT_CAPACITY
          (cc_domain_name c) false.
Proof.
  unfold to_commissioner_config. destruct (cc_enable_ccm c) eqn:Ec; [split; [done|by intros (? & _)]|].
  destruct (len (cc_pskc c) =? 16) eqn:El; cbn [negb]; [|zbool; split; [done|by intros (_ & ? & _)]].
  unfold build, validate, MIN_KEEPALIVE_INTERVAL, MAX_KEEPALIVE_INTERVAL, seconds. cbn. zbool.
  destruct ((30 * 1000000000 <=? cc_keep_alive_interval c * 1000000000) && (cc_keep_alive_interval c * 1000000000 <=? 45 * 1000000000)) eqn:Ek.
  - zbool. cbn. split; [intros [= <-]; repeat split; lia|by intros (_ & _ & _ & ->)].
  - cbn. split; [done|]. intros (_ & _ & Hk & _). apply andb_false_iff in Ek as [Ek|Ek]; zbool; lia.
Qed.
