(* ===== verification/CliJson.v ===== *)
(** * CliJson: datasets as JSON

    crates/ot-commissioner-cli/src/cli/json.rs.  [serde_json::Value] is another
    crate's: the class [Json] has the accessors and constructors the source
    uses, [JsonLaws] what they promise of each other.  [json!] and [Map] build
    objects from their members in order. *)
From S2P Require Import Prelude Text Hex Tlv Errors Dataset NetDiag Messages Ipv6.
From S2P Require Import Joiner Client Cli.

Class Json := {
  json : Type;
  (** [Value::get], [as_str], [as_u64] and the pattern [Value::Array]. *)
  json_get : json -> string -> option json;
  json_as_str : json -> option bytes;
  json_as_u64 : json -> option Z;
  json_elements : json -> option (list json);
  json_string : bytes -> json;
  json_u64 : Z -> json;
  json_i64 : Z -> json;
  json_array : list json -> json;
  json_object : list (string * json) -> json;
  (** [serde_json::from_str], [to_string_pretty] and [Value]'s [Display]. *)
  json_parse : bytes -> string + json;
  json_pretty : json -> option bytes;
  json_display : json -> bytes }.

Fixpoint member {A} (k : string) (fields : list (string * A)) : option A :=
  match fields with
  | [] => None
  | (k', v) :: fields => if String.eqb k k' then Some v else member k fields
  end.

Class JsonLaws `{Json} : Prop := {
  json_get_object fields k : NoDup (map fst fields) -> json_get (json_object fields) k = member k fields;
  json_as_str_string s : utf8_valid s = true -> json_as_str (json_string s) = Some s;
  json_as_u64_u64 n : uint 64 n -> json_as_u64 (json_u64 n) = Some n;
  json_elements_array l : json_elements (json_array l) = Some l }.

Section CliJson.
Context {HX : Hex} {JS : Json}.

Definition dataset_err (message : string) : Error := EDataset message.

Definition parse_hex (s : bytes) : result Error bytes :=
  let s := default (trim s) (strip_prefix (str_bytes "0x") (trim s)) in
  match hex_decode s with
  | inr v => Ok v
  | inl err => Err (dataset_err ("invalid hex '" +:+ string_of s +:+ "': " +:+ err))
  end.
Definition as_str (value : json) (key : string) : result Error bytes :=
  ok_or (v ← json_get value key; json_as_str v) (dataset_err ("missing or non-string field '" +:+ key +:+ "'")).
Definition as_u64 (value : json) (key : string) : result Error Z :=
  ok_or (v ← json_get value key; json_as_u64 v) (dataset_err ("missing or non-integer field '" +:+ key +:+ "'")).

(** ** Single fields *)

Definition timestamp_json (ts : Timestamp) : json :=
  let raw := from_be (Timestamp_to_value ts) in
  json_object [("Seconds", json_u64 (Z.shiftr raw 16)); ("Ticks", json_u64 (Z.land (Z.shiftr raw 1) 0x7fff));
               ("U", json_u64 (Z.land raw 1))]%string.
Definition timestamp_from_json (value : json) : result Error Timestamp :=
  let! seconds := as_u64 value "Seconds" in
  let! ticks := as_u64 value "Ticks" in
  let! u := as_u64 value "U" in
  Ok (Timestamp_from_components seconds (wrap 16 ticks) (negb (u =? 0))).
Definition channel_json (channel : Channel) : json :=
  json_object [("Page", json_u64 (channel_page channel)); ("Number", json_u64 (channel_number channel))]%string.
Definition channel_mask_json (entries : list ChannelMaskEntry) : json :=
  json_array (map (fun e => json_object [("Page", json_u64 (mask_page e)); ("Masks", json_string (str_bytes (hex_encode (mask e))))]%string)
                entries).
Definition security_policy_json (policy : SecurityPolicy) : json :=
  let bytes := SecurityPolicy_to_value policy in
  json_object [("RotationTime", json_u64 (rotation_time policy));
               ("Flags", json_string (str_bytes (hex_encode (drop 2 bytes))))]%string.
Definition mesh_local_prefix_string (prefix : bytes) : bytes :=
  str_bytes (ipv6_display (prefix ++ repeat 0 8) +:+ "/64").

(** [{:04x}] with its prefix. *)
Definition hex_u16 (n : Z) : bytes := str_bytes ("0x" +:+ hex2 (n / 0x100) +:+ hex2 (n mod 0x100)).

Definition parse_panid (s : bytes) : result Error Z :=
  let s := trim s in
  let parsed :=
    match strip_hex_prefix s with
    | Some hex => from_str_radix 16 16 hex
    | None => match from_str_radix 16 16 s with Some v => Some v | None => parse_uint 16 s end
    end in
  ok_or parsed (dataset_err ("invalid PAN ID '" +:+ string_of s +:+ "'")).

(** The first piece of [s.split('/')]. *)
Fixpoint before_slash (s : bytes) : bytes :=
  match s with
  | b :: s' => if b =? 0x2f then [] else b :: before_slash s'
  | [] => []
  end.
Definition parse_mesh_local_prefix (s : bytes) : result Error bytes :=
  let! addr := ok_or (Ipv6Addr_parse (trim (before_slash s)))
                 (dataset_err ("invalid mesh-local prefix '" +:+ string_of s +:+ "'")) in
  Ok (take 8 addr).

(** The flags of a security policy from one or two bytes. *)
Definition policy_flags_of (flag_bytes : bytes) : option Z :=
  match flag_bytes with
  | hi :: lo :: _ => Some (from_be [hi; lo])
  | [only] => Some (wrap 16 (Z.shiftl only 8))
  | [] => None
  end.

(** ** Operational datasets *)

(** [if let Some(v) = field { map.insert(key, v) }]. *)
Definition insert_some (key : string) (field : option json) (fields : list (string * json)) : list (string * json) :=
  match field with Some v => fields ++ [(key, v)] | None => fields end.

Definition op_dataset_to_json (dataset : Dataset) (pending : bool) : result Error json :=
  let! ts := Dataset_active_timestamp dataset in
  let fields := insert_some "ActiveTimestamp" (timestamp_json <$> ts) [] in
  let! fields :=
    if pending then
      let! ts := Dataset_pending_timestamp dataset in
      let fields := insert_some "PendingTimestamp" (timestamp_json <$> ts) fields in
      let! delay := Dataset_delay_timer dataset in
      Ok (insert_some "Delay" (json_u64 <$> delay) fields)
    else Ok fields in
  let! name := Dataset_network_name dataset in
  let fields := insert_some "NetworkName" (json_string <$> name) fields in
  let! channel := Dataset_channel dataset in
  let fields := insert_some "Channel" (channel_json <$> channel) fields in
  let! mask := Dataset_channel_mask dataset in
  let fields := insert_some "ChannelMask" (channel_mask_json <$> mask) fields in
  let! xpanid := Dataset_extended_pan_id dataset in
  let fields := insert_some "ExtendedPanId" ((fun v => json_string (str_bytes (hex_encode v))) <$> xpanid) fields in
  let! panid := Dataset_pan_id dataset in
  let fields := insert_some "PanId" ((fun v => json_string (hex_u16 v)) <$> panid) fields in
  let! prefix := Dataset_mesh_local_prefix dataset in
  let fields := insert_some "MeshLocalPrefix" ((fun v => json_string (mesh_local_prefix_string v)) <$> prefix) fields in
  let! key := Dataset_network_key dataset in
  let fields := insert_some "NetworkMasterKey" ((fun v => json_string (str_bytes (hex_encode v))) <$> key) fields in
  let fields := insert_some "PSKc" ((fun v => json_string (str_bytes (hex_encode v))) <$> Dataset_pskc dataset) fields in
  let! policy := Dataset_security_policy dataset in
  let fields := insert_some "SecurityPolicy" (security_policy_json <$> policy) fields in
  Ok (json_object fields).

(** [if let Some(v) = field { dataset.set_raw(ty, encode(v)?) }]. *)
Definition set_some {A} (ty : Z) (encode : A -> result Error bytes) (field : option A) (dataset : Dataset) : result Error Dataset :=
  match field with Some v => let! raw := encode v in Ok (Dataset_set_raw dataset ty raw) | None => Ok dataset end.
Definition get_str (value : json) (key : string) : option bytes := v ← json_get value key; json_as_str v.
Definition get_u64 (value : json) (key : string) : option Z := v ← json_get value key; json_as_u64 v.

Definition encode_timestamp (ts : json) : result Error bytes := map_ok Timestamp_to_value (timestamp_from_json ts).
Definition encode_channel (channel : json) : result Error bytes :=
  let! page := as_u64 channel "Page" in
  let! number := as_u64 channel "Number" in
  Ok (Channel_to_value (mkChannel (wrap 8 page) (wrap 16 number))).
Definition mask_entry_from_json (e : json) : result Error ChannelMaskEntry :=
  let! page := as_u64 e "Page" in
  let! masks := as_str e "Masks" in
  let! m := parse_hex masks in
  Ok (mkChannelMaskEntry (wrap 8 page) m).
Definition encode_channel_mask (entries : list json) : result Error bytes :=
  let! parsed := mapM_result mask_entry_from_json entries in
  ChannelMaskEntry_encode_all parsed.
Definition encode_security_policy (policy : json) : result Error bytes :=
  let! rotation := as_u64 policy "RotationTime" in
  let! flags := as_str policy "Flags" in
  let! flag_bytes := parse_hex flags in
  let! flags := ok_or (policy_flags_of flag_bytes) (dataset_err "SecurityPolicy Flags must not be empty") in
  Ok (SecurityPolicy_to_value (mkSecurityPolicy (wrap 16 rotation) (SecurityPolicyFlags_from_bits_retain flags))).

Definition op_dataset_from_json (value : json) (pending : bool) : result Error Dataset :=
  let! dataset := set_some DS_TLV_ACTIVE_TIMESTAMP encode_timestamp (json_get value "ActiveTimestamp") Dataset_default in
  let! dataset :=
    if pending then
      let! dataset := set_some DS_TLV_PENDING_TIMESTAMP encode_timestamp (json_get value "PendingTimestamp") dataset in
      set_some DS_TLV_DELAY_TIMER (fun delay => Ok (to_be 4 (wrap 32 delay))) (get_u64 value "Delay") dataset
    else Ok dataset in
  let! dataset := set_some DS_TLV_NETWORK_NAME Ok (get_str value "NetworkName") dataset in
  let! dataset := set_some DS_TLV_CHANNEL encode_channel (json_get value "Channel") dataset in
  let! dataset := set_some DS_TLV_CHANNEL_MASK encode_channel_mask (v ← json_get value "ChannelMask"; json_elements v) dataset in
  let! dataset := set_some DS_TLV_EXTENDED_PAN_ID parse_hex (get_str value "ExtendedPanId") dataset in
  let! dataset := set_some DS_TLV_PAN_ID (fun s => map_ok (to_be 2) (parse_panid s)) (get_str value "PanId") dataset in
  let! dataset := set_some DS_TLV_MESH_LOCAL_PREFIX parse_mesh_local_prefix (get_str value "MeshLocalPrefix") dataset in
  let! dataset := set_some DS_TLV_NETWORK_KEY parse_hex (get_str value "NetworkMasterKey") dataset in
  let! dataset := set_some DS_TLV_PSKC parse_hex (get_str value "PSKc") dataset in
  set_some DS_TLV_SECURITY_POLICY encode_security_policy (json_get value "SecurityPolicy") dataset.

(** ** Commissioner datasets *)

Definition u16_field (dataset : Dataset) (ty : Z) : option json :=
  match Dataset_raw dataset ty with
  | Some [hi; lo] => Some (json_u64 (from_be [hi; lo]))
  | _ => None
  end.
Definition hex_field (dataset : Dataset) (ty : Z) : option json :=
  (fun v => json_string (str_bytes (hex_encode v))) <$> Dataset_raw dataset ty.
Definition comm_dataset_to_json (dataset : Dataset) : json :=
  let fields := insert_some "BorderAgentLocator" (u16_field dataset TLV_BORDER_AGENT_LOCATOR) [] in
  let fields := insert_some "SessionId" (u16_field dataset TLV_COMMISSIONER_SESSION_ID) fields in
  let fields := insert_some "SteeringData" (hex_field dataset TLV_STEERING_DATA) fields in
  let fields := insert_some "AeSteeringData" (hex_field dataset TLV_AE_STEERING_DATA) fields in
  let fields := insert_some "NmkpSteeringData" (hex_field dataset TLV_NMKP_STEERING_DATA) fields in
  let fields := insert_some "JoinerUdpPort" (u16_field dataset TLV_JOINER_UDP_PORT) fields in
  let fields := insert_some "AeUdpPort" (u16_field dataset TLV_AE_UDP_PORT) fields in
  let fields := insert_some "NmkpUdpPort" (u16_field dataset TLV_NMKP_UDP_PORT) fields in
  json_object fields.
Definition encode_u16 (n : Z) : result Error bytes := Ok (to_be 2 (wrap 16 n)).
Definition comm_dataset_from_json (value : json) : result Error Dataset :=
  let! dataset := set_some TLV_STEERING_DATA parse_hex (get_str value "SteeringData") Dataset_default in
  let! dataset := set_some TLV_AE_STEERING_DATA parse_hex (get_str value "AeSteeringData") dataset in
  let! dataset := set_some TLV_NMKP_STEERING_DATA parse_hex (get_str value "NmkpSteeringData") dataset in
  let! dataset := set_some TLV_JOINER_UDP_PORT encode_u16 (get_u64 value "JoinerUdpPort") dataset in
  let! dataset := set_some TLV_AE_UDP_PORT encode_u16 (get_u64 value "AeUdpPort") dataset in
  set_some TLV_NMKP_UDP_PORT encode_u16 (get_u64 value "NmkpUdpPort") dataset.

Definition dump (value : json) : bytes := default (json_display value) (json_pretty value).
End CliJson.
