(* ===== verification/CliText.v ===== *)
(** * CliText: what is printed reads back

    Lemmas on the text forms the command line writes and reads: trimmed ASCII,
    hexadecimal numbers of [u16]s, and mesh-local prefixes as IPv6 text. *)
From S2P Require Import Prelude Text Hex Errors Dataset Ipv6 Client Cli CliJson.

(** ** ASCII without whitespace *)

Definition graphic (b : Z) : Prop := 0x20 < b < 0x80.
Lemma graphic_not_space b : graphic b -> is_whitespace b = false.
Proof.
  unfold graphic, is_whitespace, in_range. intros H. cbn [existsb].
  rewrite !orb_false_iff, !andb_false_iff, !Z.eqb_neq, !Z.leb_gt. repeat split; lia.
Qed.
Lemma chars_graphic s : Forall graphic s -> chars s = s.
Proof. induction 1 as [|b s Hb _ IH]; [done|]. unfold graphic in Hb. by rewrite chars_ascii, IH by lia. Qed.
Lemma utf8_graphic s : Forall graphic s -> utf8 s = s.
Proof.
  unfold utf8. induction 1 as [|b s Hb _ IH]; [done|]. unfold graphic in Hb. cbn [map concat]. rewrite IH. unfold char_utf8.
  by rewrite (proj2 (Z.ltb_lt b 0x80)) by lia.
Qed.
Lemma trim_start_graphic s : Forall graphic s -> trim_start s = s.
Proof. intros [|b s' Hb _]; [done|]. cbn [trim_start]. by rewrite graphic_not_space. Qed.
Lemma trim_graphic s : Forall graphic s -> trim s = s.
Proof.
  intros H. unfold trim. rewrite chars_graphic, (trim_start_graphic s) by done.
  assert (Forall graphic (rev s)) as Hr by by apply Forall_rev.
  rewrite (trim_start_graphic (rev s)), rev_involutive by done. by apply utf8_graphic.
Qed.
Lemma lower_hex_graphic b : is_lower_hex b = true -> graphic b.
Proof. unfold is_lower_hex, in_range, graphic. rewrite orb_true_iff, !andb_true_iff, !Z.leb_le. lia. Qed.

(** ** Hexadecimal digits *)

Definition digit_byte (d : Z) : Z := if d <? 10 then 0x30 + d else 0x61 + d - 10.
Lemma hex_digit_byte d : 0 <= d < 16 -> str_bytes (hex_digit d) = [digit_byte d].
Proof.
  intros Hd. assert (d ∈ map Z.of_nat (seq 0 16)) as H by (apply list_elem_of_In, in_map_iff; exists (Z.to_nat d); rewrite in_seq; lia).
  assert (Forall (fun d => str_bytes (hex_digit d) = [digit_byte d]) (map Z.of_nat (seq 0 16))) as HF by (repeat constructor).
  by eapply Forall_forall in HF.
Qed.
Lemma digit_byte_lower d : 0 <= d < 16 -> is_lower_hex (digit_byte d) = true.
Proof.
  unfold digit_byte, is_lower_hex, in_range. intros H. rewrite orb_true_iff, !andb_true_iff, !Z.leb_le.
  destruct (d <? 10) eqn:?; zbool; lia.
Qed.
Lemma to_digit_byte d : 0 <= d < 16 -> to_digit 16 (digit_byte d) = Some d.
Proof.
  intros H. unfold to_digit, digit_byte, in_range. destruct (d <? 10) eqn:E; zbool.
  - rewrite (proj2 (andb_true_iff _ _)) by (rewrite !Z.leb_le; lia). rewrite (proj2 (Z.ltb_lt _ _)) by lia. f_equal. lia.
  - rewrite (proj2 (andb_false_iff (0x30 <=? _) _)) by (right; apply Z.leb_gt; lia).
    rewrite (proj2 (andb_true_iff _ _)) by (rewrite !Z.leb_le; lia). rewrite (proj2 (Z.ltb_lt _ _)) by lia. f_equal. lia.
Qed.
Definition digit_bytes (ds : list Z) : bytes := map digit_byte ds.
Definition digits_number (acc : Z) (ds : list Z) : Z := fold_left (fun acc d => acc * 16 + d) ds acc.
Notation hex_digit_ok := (fun d => 0 <= d < 16).

Lemma digits_number_mono acc ds : 0 <= acc -> Forall hex_digit_ok ds -> acc <= digits_number acc ds.
Proof.
  intros Ha H. revert acc Ha. induction H as [|d ds Hd _ IH]; intros acc Ha; cbn; [lia|].
  specialize (IH (acc * 16 + d)). unfold digits_number in IH. lia.
Qed.
Lemma digits_value_digits w acc ds : 0 <= acc -> Forall hex_digit_ok ds -> digits_number acc ds < 2 ^ w ->
  digits_value w 16 acc (digit_bytes ds) = Some (digits_number acc ds).
Proof.
  intros Ha H. revert acc Ha. induction H as [|d ds Hd Hds IH]; intros acc Ha Hn; [done|]. cbn [digit_bytes map digits_value].
  rewrite to_digit_byte by done. unfold digits_number in Hn. cbn [fold_left] in Hn.
  pose proof (digits_number_mono (acc * 16 + d) ds ltac:(lia) Hds) as Hm. unfold digits_number in Hm.
  unfold checked_mul, checked_add. rewrite (proj2 (Z.ltb_lt _ _)) by lia. cbn. rewrite (proj2 (Z.ltb_lt _ _)) by lia.
  apply IH; [lia|done].
Qed.
Lemma from_str_radix_digits w ds : ds <> [] -> Forall hex_digit_ok ds -> digits_number 0 ds < 2 ^ w ->
  from_str_radix w 16 (digit_bytes ds) = Some (digits_number 0 ds).
Proof.
  intros Hne H Hn. rewrite <- (digits_value_digits w 0 ds) by done. destruct H as [|d ds Hd Hds]; [done|].
  pose proof (digit_byte_lower d Hd) as Hl. apply lower_hex_graphic in Hl as Hg.
  assert (digit_byte d <> 0x2b /\ digit_byte d <> 0x2d) as [H1 H2].
  { unfold digit_byte. destruct (d <? 10) eqn:?; zbool; lia. }
  cbn [digit_bytes map from_str_radix]. rewrite (proj2 (Z.eqb_neq _ 0x2b)), (proj2 (Z.eqb_neq _ 0x2d)) by done. by destruct ds.
Qed.
Lemma digit_bytes_lower ds : Forall hex_digit_ok ds -> Forall (fun b => is_lower_hex b = true) (digit_bytes ds).
Proof. intros H. apply Forall_map. eapply Forall_impl; [exact H|]. intros d Hd. by apply digit_byte_lower. Qed.
Lemma digit_bytes_graphic ds : Forall hex_digit_ok ds -> Forall graphic (digit_bytes ds).
Proof. intros H. eapply Forall_impl; [by apply digit_bytes_lower|]. apply lower_hex_graphic. Qed.

Lemma hex2_digits n : 0 <= n < 256 -> str_bytes (hex2 n) = digit_bytes [n / 16; n mod 16].
Proof.
  intros H. unfold hex2. rewrite str_bytes_app, !hex_digit_byte by (Z.to_euclidean_division_equations; lia). done.
Qed.

(** ** PAN IDs *)

Definition u16_digits (n : Z) : list Z := [n / 4096; n / 256 mod 16; n / 16 mod 16; n mod 16].
Lemma u16_digits_ok n : uint 16 n -> Forall hex_digit_ok (u16_digits n) /\ digits_number 0 (u16_digits n) = n.
Proof.
  unfold uint, u16_digits. intros H. split; [|cbn; Z.to_euclidean_division_equations; lia].
  repeat constructor; Z.to_euclidean_division_equations; lia.
Qed.
Lemma hex_u16_digits n : uint 16 n -> hex_u16 n = 0x30 :: 0x78 :: digit_bytes (u16_digits n).
Proof.
  unfold uint. intros H. unfold hex_u16. rewrite !str_bytes_app, !hex2_digits by (Z.to_euclidean_division_equations; lia).
  change (str_bytes "0x") with [0x30; 0x78]. unfold digit_bytes. rewrite <- map_app. cbn [app]. f_equal; f_equal. f_equal.
  unfold u16_digits. repeat (apply (f_equal2 cons); [Z.to_euclidean_division_equations; lia|]). done.
Qed.
Lemma parse_panid_hex n : uint 16 n -> parse_panid (hex_u16 n) = Ok n.
Proof.
  intros H. destruct (u16_digits_ok n H) as [Hd Hn]. unfold parse_panid. rewrite hex_u16_digits by done.
  rewrite trim_graphic by (constructor; [by unfold graphic|constructor; [by unfold graphic|by apply digit_bytes_graphic]]).
  change (strip_hex_prefix (0x30 :: 0x78 :: digit_bytes (u16_digits n))) with (Some (digit_bytes (u16_digits n))).
  unfold uint in H. cbv zeta iota. rewrite from_str_radix_digits by (done || lia). by rewrite Hn.
Qed.

(** ** IPv6 text that ends in [::] *)

(** [{:x}] of a [u16]: its digits without leading zeros. *)
Lemma hexu_digits g : uint 16 g -> exists ds, str_bytes (hexu g) = digit_bytes ds /\ Forall hex_digit_ok ds /\
  digits_number 0 ds = g /\ 1 <= len ds <= 4.
Proof.
  unfold uint. intros H. unfold hexu.
  destruct (g <? 0x10) eqn:E1; [|destruct (g <? 0x100) eqn:E2; [|destruct (g <? 0x1000) eqn:E3]]; zbool.
  - exists [g]. rewrite hex_digit_byte by lia. split; [done|]. split; [repeat constructor; lia|]. split; [cbn; lia|unfold len; cbn [length]; lia].
  - exists [g / 16; g mod 16]. rewrite hex2_digits by lia. split; [done|].
    split; [repeat constructor; Z.to_euclidean_division_equations; lia|]. split; [cbn; Z.to_euclidean_division_equations; lia|unfold len; cbn [length]; lia].
  - exists [g / 0x100; g / 16 mod 16; g mod 16]. rewrite str_bytes_app, hex_digit_byte, hex2_digits by (Z.to_euclidean_division_equations; lia).
    split; [unfold digit_bytes; cbn [map app]; repeat (apply (f_equal2 cons); [f_equal; Z.to_euclidean_division_equations; lia|]); done|].
    split; [repeat constructor; Z.to_euclidean_division_equations; lia|]. split; [cbn; Z.to_euclidean_division_equations; lia|unfold len; cbn [length]; lia].
  - exists (u16_digits g). rewrite str_bytes_app, !hex2_digits by (Z.to_euclidean_division_equations; lia).
    destruct (u16_digits_ok g H) as [Hd Hn].
    split; [unfold u16_digits, digit_bytes; cbn [map app]; repeat (apply (f_equal2 cons); [f_equal; Z.to_euclidean_division_equations; lia|]); done|].
    split; [done|]. split; [done|unfold len, u16_digits; cbn [length]; lia].
Qed.

Lemma read_digits_digits acc count ds rest : Forall hex_digit_ok ds ->
  read_digits 16 acc count (digit_bytes ds ++ 0x3a :: rest) = (digits_number acc ds, count + len ds, 0x3a :: rest).
Proof.
  intros H. revert acc count. induction H as [|d ds Hd _ IH]; intros acc count; cbn [digit_bytes map app read_digits].
  - change (to_digit 16 0x3a) with (@None Z). by rewrite len_nil, Z.add_0_r.
  - rewrite to_digit_byte by done. rewrite IH. rewrite len_cons. do 2 f_equal. lia.
Qed.
Lemma read_number_hexu g rest : uint 16 g ->
  read_number 16 4 0x10000 true (str_bytes (hexu g) ++ 0x3a :: rest) = Some (g, 0x3a :: rest).
Proof.
  intros Hg. destruct (hexu_digits g Hg) as (ds & -> & Hd & Hn & Hl). unfold read_number.
  rewrite read_digits_digits by done. rewrite Hn. unfold uint in Hg.
  rewrite (proj2 (Z.eqb_neq _ 0)), (proj2 (Z.ltb_ge 4 _)), (proj2 (Z.leb_gt _ g)) by lia. done.
Qed.

(** Digits and a colon are not the start of an IPv4 address. *)
Lemma read_digits_rest acc count h r : Forall (fun b => is_lower_hex b = true) h ->
  exists h', (read_digits 10 acc count (h ++ 0x3a :: r)).2 = h' ++ 0x3a :: r /\ Forall (fun b => is_lower_hex b = true) h'.
Proof.
  intros H. revert acc count. induction H as [|b h Hb H IH]; intros acc count; cbn [app read_digits]; [by exists []|].
  destruct (to_digit 10 b) as [d|]; [apply IH|]. exists (b :: h). split; [done|by constructor].
Qed.
Lemma no_dot h r : Forall (fun b => is_lower_hex b = true) h -> read_given_char 0x2e (h ++ 0x3a :: r) = None.
Proof.
  intros [|b h' Hb _]; [done|]. cbn [app read_given_char]. rewrite (proj2 (Z.eqb_neq b 0x2e)); [done|]. by intros ->.
Qed.
Lemma not_ipv4 h r : Forall (fun b => is_lower_hex b = true) h -> read_ipv4_addr (h ++ 0x3a :: r) = None.
Proof.
  intros H. unfold read_ipv4_addr. cbn [read_octets]. unfold read_separator at 1.
  destruct (read_number 10 3 256 false (h ++ 0x3a :: r)) as [[o inp]|] eqn:E; [|done].
  assert (exists h', inp = h' ++ 0x3a :: r /\ Forall (fun b => is_lower_hex b = true) h') as (h' & -> & Hh).
  { destruct (read_digits_rest 0 0 h r H) as (h' & Hr & Hh). exists h'. split; [|done]. revert E. unfold read_number.
    destruct (read_digits 10 0 0 (h ++ 0x3a :: r)) as [[v c] rest]. cbn in Hr. subst rest.
    destruct ((c =? 0) || (3 <? c) || (256 <=? v)); [done|]. destruct (_ && (1 <? c)); [done|]. by intros [= _ <-]. }
  unfold read_separator at 1. by rewrite no_dot.
Qed.

(** The text of groups, each but the first after a colon, then [::]. *)
Fixpoint groups_text (first : bool) (gs : list Z) : bytes :=
  match gs with
  | [] => [0x3a; 0x3a]
  | g :: gs => (if first then [] else [0x3a]) ++ str_bytes (hexu g) ++ groups_text false gs
  end.
Lemma groups_text_colon gs : exists r, groups_text false gs = 0x3a :: r.
Proof. destruct gs; cbn; eauto. Qed.
Lemma fmt_subslice_text gs : str_bytes (fmt_subslice gs +:+ "::") = groups_text true gs.
Proof.
  assert (forall g gs, str_bytes (fmt_subslice (g :: gs) +:+ "::") = str_bytes (hexu g) ++ groups_text false gs) as H.
  { intros g l. revert g. induction l as [|h l IH]; intros g.
    - cbn [fmt_subslice groups_text]. by rewrite str_bytes_app.
    - change (fmt_subslice (g :: h :: l)) with (hexu g +:+ ":" +:+ fmt_subslice (h :: l)).
      rewrite !str_bytes_app, <- !app_assoc. f_equal. cbn [groups_text].
      rewrite <- (str_bytes_app (fmt_subslice (h :: l))), IH. done. }
  destruct gs as [|g gs]; [done|]. rewrite H. done.
Qed.
Lemma hexu_lower g : uint 16 g -> Forall (fun b => is_lower_hex b = true) (str_bytes (hexu g)).
Proof. intros H. destruct (hexu_digits g H) as (ds & -> & Hd & _). by apply digit_bytes_lower. Qed.

Lemma read_groups_text gs limit i : Forall (uint 16) gs -> (length gs <= limit)%nat ->
  read_groups limit i (groups_text (match i with O => true | S _ => false end) gs) = (gs, false, [0x3a; 0x3a]).
Proof.
  intros H. revert limit i. induction H as [|g gs Hg _ IH]; intros limit i Hl.
  - destruct limit as [|[|limit]], i as [|i]; done.
  - destruct limit as [|limit]; [cbn in Hl; lia|]. cbn [length] in Hl. cbn [read_groups].
    destruct (groups_text_colon gs) as [r Hr].
    set (inp := groups_text _ (g :: gs)).
    assert (forall A (rd : reader A), read_separator 0x3a i rd inp = rd (str_bytes (hexu g) ++ groups_text false gs)) as Hs
      by (intros A rd; by destruct i).
    rewrite !Hs, Hr, not_ipv4, read_number_hexu by (done || by apply hexu_lower).
    replace (match limit with O => None | S _ => None end) with (@None (bytes * bytes)) by by destruct limit.
    rewrite <- Hr, (IH limit (S i)) by lia. done.
Qed.

Lemma parse_groups_text gs : Forall (uint 16) gs -> (length gs < 8)%nat ->
  Ipv6Addr_parse (groups_text true gs) = Some (groups_to_addr (gs ++ repeat 0 (8 - length gs))).
Proof.
  intros H Hl. unfold Ipv6Addr_parse, read_ipv6_addr. rewrite (read_groups_text gs 8 0) by (done || lia).
  rewrite (proj2 (Z.eqb_neq _ _)) by (unfold len; lia).
  assert (forall n, read_groups n 0 [] = (@nil Z, false, @nil Z)) as Hn by by intros [|[|n]].
  change (read_given_char 0x3a [0x3a; 0x3a]) with (Some (tt, [0x3a])). cbv iota.
  change (read_given_char 0x3a [0x3a]) with (Some (tt, @nil Z)). cbv iota. rewrite Hn.
  cbn [length]. by rewrite Nat.sub_0_r, app_nil_r.
Qed.

(** The display of an address whose last eight octets are zero ends in [::]. *)
Lemma display_not_mapped o0 o1 o2 o3 o4 o5 o6 o7 rest :
  let octets := o0 :: o1 :: o2 :: o3 :: o4 :: o5 :: o6 :: o7 :: 0 :: 0 :: 0 :: rest in
  ipv6_display octets =
  let segs := segments octets in
  let '(start, n) := zero_span segs 0 (0%nat, 0%nat) (0%nat, 0%nat) in
  if (1 <? n)%nat then fmt_subslice (take start segs) +:+ "::" +:+ fmt_subslice (drop (start + n) segs)
  else fmt_subslice segs.
Proof. intros octets. unfold octets, ipv6_display. repeat (case_match; try reflexivity). Qed.

(** The zero groups at the end are the longest run: what stays in front does
    not end in a zero group. *)
Lemma zero_span_prefix a b c d :
  exists gs, let k := length gs in
    zero_span [a; b; c; d; 0; 0; 0; 0] 0 (0%nat, 0%nat) (0%nat, 0%nat) = (k, (8 - k)%nat) /\ (k <= 4)%nat /\
    [a; b; c; d; 0; 0; 0; 0] = gs ++ repeat 0 (8 - k).
Proof.
  cbn [zero_span]. change (0 =? 0) with true. cbv iota.
  destruct (d =? 0) eqn:Ed; [apply Z.eqb_eq in Ed as ->|exists [a; b; c; d]; destruct (a =? 0), (b =? 0), (c =? 0); by repeat split; cbn; try lia].
  destruct (c =? 0) eqn:Ec; [apply Z.eqb_eq in Ec as ->|exists [a; b; c]; destruct (a =? 0), (b =? 0); by repeat split; cbn; try lia].
  destruct (b =? 0) eqn:Eb; [apply Z.eqb_eq in Eb as ->|exists [a; b]; destruct (a =? 0); by repeat split; cbn; try lia].
  destruct (a =? 0) eqn:Ea; [apply Z.eqb_eq in Ea as ->; exists []|exists [a]]; by repeat split; cbn; try lia.
Qed.

Lemma prefix_text prefix : len prefix = 8 -> bytes_ok prefix ->
  exists gs, ipv6_display (prefix ++ repeat 0 8) = (fmt_subslice gs +:+ "::") /\ (length gs <= 4)%nat /\ Forall (uint 16) gs /\
    groups_to_addr (gs ++ repeat 0 (8 - length gs)) = prefix ++ repeat 0 8.
Proof.
  intros Hl Hb. destruct prefix as [|o0 [|o1 [|o2 [|o3 [|o4 [|o5 [|o6 [|o7 [|]]]]]]]]]; try (unfold len in Hl; cbn in Hl; lia).
  repeat match goal with H : Forall _ (_ :: _) |- _ => apply Forall_cons in H as [? H] end. unfold uint in *.
  destruct (zero_span_prefix (o0 * 256 + o1) (o2 * 256 + o3) (o4 * 256 + o5) (o6 * 256 + o7)) as (gs & Hz & Hk & Hg).
  exists gs. split; [|split; [done|split]].
  - change ([o0; o1; o2; o3; o4; o5; o6; o7] ++ repeat 0 8) with (o0 :: o1 :: o2 :: o3 :: o4 :: o5 :: o6 :: o7 :: 0 :: 0 :: 0 :: repeat 0 5).
    rewrite display_not_mapped. cbn [segments repeat]. change (0 * 256 + 0) with 0. rewrite Hz.
    cbv zeta iota. rewrite (proj2 (Nat.ltb_lt 1 (8 - length gs))) by lia. rewrite Hg, take_app_length.
    replace (length gs + (8 - length gs))%nat with 8%nat by lia. rewrite <- Hg. by rewrite drop_ge by (cbn; lia).
  - assert (Forall (uint 16) (gs ++ repeat 0 (8 - length gs))) as H16 by (rewrite <- Hg; repeat constructor; lia).
    apply Forall_app in H16. by destruct H16.
  - rewrite <- Hg. unfold groups_to_addr. cbn [map concat app to_be repeat].
    repeat (apply (f_equal2 cons); [Z.to_euclidean_division_equations; lia|]). done.
Qed.

Lemma groups_text_bytes first gs : Forall (uint 16) gs -> Forall (fun b => b = 0x3a \/ is_lower_hex b = true) (groups_text first gs).
Proof.
  intros H. revert first. induction H as [|g gs Hg _ IH]; intros first; cbn [groups_text]; [repeat constructor|].
  apply Forall_app. split; [destruct first; repeat constructor|]. apply Forall_app. split; [|apply IH].
  eapply Forall_impl; [by apply hexu_lower|]. auto.
Qed.
Lemma before_slash_app s r : 0x2f ∉ s -> before_slash (s ++ 0x2f :: r) = s.
Proof.
  induction s as [|b s IH]; [done|]. intros [Hb Hs]%not_elem_of_cons. cbn [app before_slash].
  by rewrite (proj2 (Z.eqb_neq _ _)), IH by done.
Qed.
Lemma parse_mesh_local_prefix_string prefix : len prefix = 8 -> bytes_ok prefix ->
  parse_mesh_local_prefix (mesh_local_prefix_string prefix) = Ok prefix.
Proof.
  intros Hl Hb. destruct (prefix_text prefix Hl Hb) as (gs & Hd & Hk & Hg & Ha).
  unfold parse_mesh_local_prefix, mesh_local_prefix_string. rewrite Hd, str_bytes_app, fmt_subslice_text.
  pose proof (groups_text_bytes true gs Hg) as Ht. change (str_bytes "/64") with [0x2f; 0x36; 0x34]. rewrite before_slash_app.
  - rewrite trim_graphic; [|eapply Forall_impl; [exact Ht|]; intros b [-> |?]; [by unfold graphic|by apply lower_hex_graphic]].
    rewrite parse_groups_text, Ha by (done || lia). cbn [ok_or rbind]. f_equal.
    replace 8%nat with (length prefix) by (unfold len in Hl; lia). by rewrite take_app_length.
  - intros Hs. rewrite Forall_forall in Ht. by destruct (Ht _ Hs).
Qed.
