(* ===== verification/CliDatasets.v ===== *)
(** * CliDatasets: datasets survive the trip through JSON

    [op_dataset_from_json] undoes [op_dataset_to_json] and
    [comm_dataset_from_json] undoes [comm_dataset_to_json]: the TLVs the JSON
    form knows come back byte for byte, and no JSON makes a reader panic. *)
From S2P Require Import Prelude Text Hex Tlv Errors Dataset NetDiag Messages Ipv6.
From S2P Require Import Joiner Client Cli CliJson CliText.

(** ** Objects and their members *)

Section Objects.
Context {HX : Hex} {JS : Json}.

Definition present (fs : list (string * option json)) : list (string * json) :=
  omap (fun f => (fun v => (f.1, v)) <$> f.2) fs.
Lemma insert_present k o fs : insert_some k o (present fs) = present (fs ++ [(k, o)]).
Proof. unfold present. rewrite omap_app. destruct o; cbn; [done|]. by rewrite app_nil_r. Qed.
Lemma insert_first k o : insert_some k o [] = present [(k, o)].
Proof. by destruct o. Qed.
Lemma present_keys fs : sublist (map fst (present fs)) (map fst fs).
Proof. induction fs as [|[k [v|]] fs IH]; cbn; by constructor. Qed.
Lemma member_absent {A} k (l : list (string * A)) : k ∉ map fst l -> member k l = None.
Proof.
  induction l as [|[k' v] l IH]; [done|]. cbn. intros [Hk Hl]%not_elem_of_cons.
  by rewrite (proj2 (String.eqb_neq _ _)), IH by done.
Qed.
Lemma member_present k fs : NoDup (map fst fs) -> member k (present fs) = o ← member k fs; o.
Proof.
  induction fs as [|[k' o] fs IH]; [done|]. cbn. intros [Hk Hn]%NoDup_cons.
  destruct (String.eqb k k') eqn:E.
  - apply String.eqb_eq in E as ->. destruct o as [v|]; cbn; [by rewrite String.eqb_refl|].
    apply member_absent. intros H. apply Hk. eapply elem_of_submseteq; [exact H|]. apply sublist_submseteq, present_keys.
  - destruct o as [v|]; cbn; [rewrite E|]; by apply IH.
Qed.
End Objects.

Section Fields.
Context {HX : Hex} {HL : HexLaws} {JS : Json} {JL : JsonLaws}.

Lemma get_present fs k : NoDup (map fst fs) -> json_get (json_object (present fs)) k = o ← member k fs; o.
Proof.
  intros H. rewrite json_get_object, member_present by (done || (eapply sublist_NoDup; [done|apply present_keys])). done.
Qed.
Lemma get_object fields k : NoDup (map fst fields) -> json_get (json_object fields) k = member k fields.
Proof. apply json_get_object. Qed.

(** ** Hexadecimal members *)

Lemma lower_utf8 s : Forall graphic s -> utf8_valid s = true.
Proof.
  induction 1 as [|b s Hb _ IH]; [done|]. unfold graphic in Hb. cbn [utf8_valid]. unfold in_range.
  by rewrite (proj2 (andb_true_iff _ _)) by (rewrite !Z.leb_le; lia).
Qed.
Lemma hex_graphic l : bytes_ok l -> Forall graphic (str_bytes (hex_encode l)).
Proof. intros H. rewrite hex_encode_lower by done. eapply Forall_impl; [by apply hex_digits_lower|]. apply lower_hex_graphic. Qed.
Lemma no_prefix l : bytes_ok l -> strip_prefix (str_bytes "0x") (str_bytes (hex_encode l)) = None.
Proof.
  intros H. rewrite hex_encode_lower by done. pose proof (hex_digits_lower l H) as Hd.
  destruct Hd as [|b s Hb [|c s' Hc _]]; [done|cbn; by case_match|]. cbn. case_match; [|done]. case_match; [|done].
  zbool. by subst.
Qed.
Lemma parse_hex_encode l : bytes_ok l -> parse_hex (str_bytes (hex_encode l)) = Ok l.
Proof.
  intros H. unfold parse_hex. rewrite trim_graphic by by apply hex_graphic. rewrite no_prefix by done. cbn [default].
  by rewrite hex_decode_encode.
Qed.
Lemma as_str_hex l : bytes_ok l -> json_as_str (json_string (str_bytes (hex_encode l))) = Some (str_bytes (hex_encode l)).
Proof. intros H. apply json_as_str_string, lower_utf8. by apply hex_graphic. Qed.

(** ** One field at a time *)

(** Sets a TLV, when there is a value; copies one of [d]; sets several. *)
Definition set_value (o : option bytes) (t : Z) (ds : Dataset) : Dataset :=
  match o with Some v => Dataset_set_raw ds t v | None => ds end.
Definition copy_raw (d : Dataset) (t : Z) (ds : Dataset) : Dataset := set_value (Dataset_raw d t) t ds.
Definition copied (f : Z -> option bytes) (ts : list Z) (ds : Dataset) : Dataset := fold_left (fun ds t => set_value (f t) t ds) ts ds.

Lemma Dataset_raw_set_raw_ne d t t' v : t <> t' -> Dataset_raw (Dataset_set_raw d t v) t' = Dataset_raw d t'.
Proof. intros H. rewrite Dataset_set_raw_set_last. by apply last_value_set_last_ne. Qed.
Lemma set_value_raw o t' ds t : Dataset_raw (set_value o t' ds) t =
  if bool_decide (t = t') then match o with Some v => Some v | None => Dataset_raw ds t end else Dataset_raw ds t.
Proof.
  destruct o as [v|]; cbn; case_bool_decide as E; try done; [subst t'; apply Dataset_raw_set_raw|apply Dataset_raw_set_raw_ne; congruence].
Qed.
Lemma copied_raw f ts t : Dataset_raw (copied f ts Dataset_default) t = if bool_decide (t ∈ ts) then f t else None.
Proof.
  assert (forall ds, Dataset_raw (copied f ts ds) t =
    if bool_decide (t ∈ ts) then match f t with Some v => Some v | None => Dataset_raw ds t end else Dataset_raw ds t) as H.
  { unfold copied. induction ts as [|t' ts IH]; intros ds; cbn [fold_left]; [done|]. rewrite IH, set_value_raw. clear IH.
    rewrite (bool_decide_ext (t ∈ t' :: ts) (t = t' \/ t ∈ ts)) by apply elem_of_cons.
    destruct (decide (t = t')) as [<-|Hne].
    - rewrite (bool_decide_eq_true_2 (t = t)), (bool_decide_eq_true_2 (_ \/ _)) by auto. by destruct (bool_decide _), (f t).
    - rewrite (bool_decide_eq_false_2 (t = t')) by done. by rewrite (bool_decide_ext (t = t' \/ t ∈ ts) (t ∈ ts)) by naive_solver. }
  rewrite H. case_bool_decide; [|done]. by destruct (f t).
Qed.

Lemma dataset_raw_ok d t v : TlvSet_wf (tlvs d) -> Dataset_raw d t = Some v -> bytes_ok v.
Proof. apply last_value_wf. Qed.

(** A field whose value is read with [parse], shown with [show] and encoded
    with [encode] from what the object holds is copied. *)
Lemma field_copied {A B} (parse : bytes -> result Error A) (show : A -> json) (read : json -> option B)
    (encode : B -> result Error bytes) d t o ds :
  TlvSet_wf (tlvs d) -> map_transpose parse (Dataset_raw d t) = Ok o ->
  (forall v a, bytes_ok v -> parse v = Ok a -> exists b, read (show a) = Some b /\ encode b = Ok v) ->
  set_some t encode (v ← show <$> o; read v) ds = Ok (copy_raw d t ds).
Proof.
  intros Hd Ho H. unfold copy_raw. destruct (Dataset_raw d t) as [v|] eqn:Ev; cbn in Ho.
  - unfold map_ok in Ho. destruct (parse v) as [a| |] eqn:Ea; [|done..]. injection Ho as <-.
    destruct (H v a) as (b & Hb & He); [by eapply dataset_raw_ok|done|]. cbn. rewrite Hb. cbn. by rewrite He.
  - injection Ho as <-. done.
Qed.

(** The components of a raw timestamp, put together again. *)
Lemma timestamp_reassembled raw : uint 64 raw ->
  Timestamp_from_components (Z.shiftr raw 16) (wrap 16 (Z.land (Z.shiftr raw 1) 0x7fff)) (negb (Z.land raw 1 =? 0)) = Timestamp_from_raw raw.
Proof.
  unfold uint. intros Hr.
  assert (Z.land (Z.shiftr raw 1) 0x7fff = raw / 2 mod 2 ^ 15) as Ht
    by (change 0x7fff with (2 ^ 15 - 1); by rewrite land_ones_mod, Z.shiftr_div_pow2 by lia).
  assert (Z.land raw 1 = raw mod 2) as Hu by (change 1 with (2 ^ 1 - 1) at 1; by rewrite land_ones_mod by lia).
  rewrite Ht, Hu, Z.shiftr_div_pow2 by lia. rewrite wrap_small by (unfold uint; Z.to_euclidean_division_equations; lia).
  assert (forall ts, ts = Timestamp_from_raw (timestamp_raw ts)) as Heta by by intros [].
  rewrite (Heta (Timestamp_from_components _ _ _)), timestamp_components_raw by (Z.to_euclidean_division_equations; lia).
  f_equal. assert (Z.b2z (negb (raw mod 2 =? 0)) = raw mod 2) as -> by (destruct (raw mod 2 =? 0) eqn:E; zbool; cbn; Z.to_euclidean_division_equations; lia).
  Z.to_euclidean_division_equations; lia.
Qed.
Lemma read_fixed n v x : wire_read n v = Some x -> len v = n /\ x = from_be v.
Proof. unfold wire_read. destruct (len v =? n) eqn:E; [|done]. intros [= <-]. by zbool. Qed.
Lemma Timestamp_parse_ok v ts : bytes_ok v -> Timestamp_parse v = Ok ts ->
  len v = 8 /\ ts = Timestamp_from_raw (from_be v) /\ uint 64 (from_be v).
Proof.
  intros Hv. unfold Timestamp_parse, read_u64, wire_read_u64. intros H. inv_ok. apply from_tlv_ok in H. inv_ok.
  apply read_fixed in H as [Hl ->]. repeat split; try done; pose proof (from_be_bound v Hv) as Hr; rewrite Hl in Hr; apply Hr.
Qed.
Ltac members := unfold as_u64, as_str; rewrite ?get_object by by_decide; cbn [member String.eqb Ascii.eqb Bool.eqb]; unfold base.mbind, option_bind.
Lemma timestamp_back v ts : bytes_ok v -> Timestamp_parse v = Ok ts -> encode_timestamp (timestamp_json ts) = Ok v.
Proof.
  intros Hv (Hl & -> & Hr)%Timestamp_parse_ok; [|done]. pose proof (timestamp_reassembled _ Hr) as Hb.
  unfold encode_timestamp, timestamp_from_json, timestamp_json, Timestamp_to_value. cbn [timestamp_raw].
  rewrite from_to_be_small by done. set (raw := from_be v) in *. members.
  assert (uint 64 (Z.shiftr raw 16)) by (unfold uint in *; rewrite Z.shiftr_div_pow2 by lia; Z.to_euclidean_division_equations; lia).
  assert (uint 64 (Z.land (Z.shiftr raw 1) 0x7fff)) by (change 0x7fff with (2 ^ 15 - 1); rewrite land_ones_mod by lia; unfold uint; Z.to_euclidean_division_equations; lia).
  assert (uint 64 (Z.land raw 1)) by (change 1 with (2 ^ 1 - 1); rewrite land_ones_mod by lia; unfold uint; Z.to_euclidean_division_equations; lia).
  rewrite !json_as_u64_u64 by done. cbn [ok_or rbind map_ok]. rewrite Hb. cbn [timestamp_raw]. f_equal. by apply to_be_from_be_n.
Qed.
Lemma channel_back v c : bytes_ok v -> Channel_parse v = Ok c -> encode_channel (channel_json c) = Ok v.
Proof.
  intros Hv. unfold Channel_parse. destruct (len v =? 3) eqn:El; [|done]. zbool.
  destruct v as [|b0 [|b1 [|b2 [|]]]]; try (unfold len in El; cbn in El; lia). intros [= <-].
  repeat (apply Forall_cons in Hv as [? Hv]). unfold encode_channel, channel_json. members. cbn [channel_page channel_number].
  rewrite from_be_2. unfold uint in *. rewrite !json_as_u64_u64 by (unfold uint; lia). cbn [ok_or rbind].
  rewrite !wrap_small by (unfold uint; lia). unfold Channel_to_value. cbn [channel_page channel_number to_be].
  repeat f_equal; Z.to_euclidean_division_equations; lia.
Qed.
Lemma policy_back v p : bytes_ok v -> SecurityPolicy_parse v = Ok p -> encode_security_policy (security_policy_json p) = Ok v.
Proof.
  intros Hv. unfold SecurityPolicy_parse. destruct (len v =? 4) eqn:El; [|done]. zbool.
  destruct v as [|b0 [|b1 [|b2 [|b3 [|]]]]]; try (unfold len in El; cbn in El; lia). intros [= <-].
  assert (from_be [b0; b1] = b0 * 256 + b1 /\ from_be [b2; b3] = b2 * 256 + b3) as [E1 E2] by by rewrite !from_be_2.
  pose proof Hv as Hv'. repeat (apply Forall_cons in Hv as [? Hv]).
  assert (to_be 2 (b0 * 256 + b1) = [b0; b1] /\ to_be 2 (b2 * 256 + b3) = [b2; b3]) as [F1 F2].
  { unfold uint in *. cbn [to_be]. split; repeat f_equal; Z.to_euclidean_division_equations; lia. }
  unfold encode_security_policy, security_policy_json, SecurityPolicy_to_value. cbn [rotation_time policy_flags policy_bits].
  rewrite E1, E2, F1, F2. members. change (drop 2 ([b0; b1] ++ [b2; b3])) with [b2; b3].
  assert (bytes_ok [b2; b3]) by (apply Forall_cons in Hv' as [_ Hv']; by apply Forall_cons in Hv' as [_ Hv']).
  rewrite as_str_hex by done. rewrite json_as_u64_u64 by (unfold uint in *; lia). cbn [ok_or rbind]. rewrite parse_hex_encode by done.
  cbn [rbind policy_flags_of ok_or rotation_time policy_flags policy_bits]. rewrite wrap_small by (unfold uint in *; lia). by rewrite E2, F1, F2.
Qed.
Lemma mask_back v m : bytes_ok v -> ChannelMaskEntry_parse_all v = Ok m ->
  exists es, json_elements (channel_mask_json m) = Some es /\ encode_channel_mask es = Ok v.
Proof.
  intros Hv H. pose proof H as He. apply (proj2 channel_mask_exact) in He; [|done].
  apply (many_decode _ mask_step_consumes mask_entry_bytes mask_entry_wf) in H as [-> Hm]; [|apply mask_step_decode|done].
  unfold channel_mask_json. eexists. split; [apply json_elements_array|]. unfold encode_channel_mask.
  assert (mapM_result mask_entry_from_json (map (fun e => json_object [("Page", json_u64 (mask_page e)); ("Masks", json_string (str_bytes (hex_encode (mask e))))]%string) m) = Ok m) as ->; [|done].
  clear He Hv. induction Hm as [|[p x] m (Hp & Hx & Hl) _ IH]; [done|]. cbn [map mapM_result mask_page mask] in *.
  unfold mask_entry_from_json at 1. members. rewrite json_as_u64_u64 by (unfold uint in *; lia). rewrite as_str_hex by done.
  cbn [ok_or rbind]. rewrite parse_hex_encode, wrap_small by done. cbn [rbind]. by rewrite IH.
Qed.

(** ** The whole object *)

Lemma get_field fs k o : NoDup (map fst fs) -> member k fs = Some o -> json_get (json_object (present fs)) k = o.
Proof. intros H Ho. by rewrite get_present, Ho. Qed.
Lemma get_str_field fs k o : NoDup (map fst fs) -> member k fs = Some o -> get_str (json_object (present fs)) k = v ← o; json_as_str v.
Proof. intros H Ho. unfold get_str. by rewrite (get_field _ _ o). Qed.
Lemma get_u64_field fs k o : NoDup (map fst fs) -> member k fs = Some o -> get_u64 (json_object (present fs)) k = v ← o; json_as_u64 v.
Proof. intros H Ho. unfold get_u64. by rewrite (get_field _ _ o). Qed.
Lemma map_transpose_from_tlv {A} (f : bytes -> result TlvError A) o : from_tlv (map_transpose f o) = map_transpose (fun v => from_tlv (f v)) o.
Proof. destruct o as [v|]; [|done]. cbn. unfold from_tlv. by destruct (f v). Qed.

Lemma timestamp_copied d t o ds : TlvSet_wf (tlvs d) -> map_transpose Timestamp_parse (Dataset_raw d t) = Ok o ->
  set_some t encode_timestamp (timestamp_json <$> o) ds = Ok (copy_raw d t ds).
Proof.
  intros Hd Ho. rewrite <- (field_copied Timestamp_parse timestamp_json Some encode_timestamp d t o ds Hd Ho); [by destruct o|].
  intros v ts Hv Hp. eexists. split; [done|]. by apply timestamp_back.
Qed.
Lemma channel_copied d o ds : TlvSet_wf (tlvs d) -> Dataset_channel d = Ok o ->
  set_some DS_TLV_CHANNEL encode_channel (channel_json <$> o) ds = Ok (copy_raw d DS_TLV_CHANNEL ds).
Proof.
  intros Hd Ho. rewrite <- (field_copied Channel_parse channel_json Some encode_channel d _ o ds Hd Ho); [by destruct o|].
  intros v c Hv Hp. eexists. split; [done|]. by apply channel_back.
Qed.
Lemma policy_copied d o ds : TlvSet_wf (tlvs d) -> Dataset_security_policy d = Ok o ->
  set_some DS_TLV_SECURITY_POLICY encode_security_policy (security_policy_json <$> o) ds = Ok (copy_raw d DS_TLV_SECURITY_POLICY ds).
Proof.
  intros Hd Ho. rewrite <- (field_copied SecurityPolicy_parse security_policy_json Some encode_security_policy d _ o ds Hd Ho); [by destruct o|].
  intros v p Hv Hp. eexists. split; [done|]. by apply policy_back.
Qed.
Lemma mask_copied d o ds : TlvSet_wf (tlvs d) -> Dataset_channel_mask d = Ok o ->
  set_some DS_TLV_CHANNEL_MASK encode_channel_mask (v ← channel_mask_json <$> o; json_elements v) ds = Ok (copy_raw d DS_TLV_CHANNEL_MASK ds).
Proof. intros Hd Ho. eapply field_copied; [done|exact Ho|]. intros v m. apply mask_back. Qed.
Lemma hex_copied d t o ds : TlvSet_wf (tlvs d) -> Dataset_raw d t = o ->
  set_some t parse_hex (v ← (fun v => json_string (str_bytes (hex_encode v))) <$> o; json_as_str v) ds = Ok (copy_raw d t ds).
Proof.
  intros Hd Ho. eapply (field_copied Ok); [done|by rewrite <- Ho; destruct (Dataset_raw d t)|].
  intros v a Hv [= <-]. exists (str_bytes (hex_encode v)). split; [by apply as_str_hex|by apply parse_hex_encode].
Qed.
Lemma read_array_raw d t n o : map_transpose (read_array n) (Dataset_raw d t) = Ok o -> Dataset_raw d t = o.
Proof.
  destruct (Dataset_raw d t) as [v|]; [|by intros [= <-]]. cbn. unfold read_array, map_ok. destruct (len v =? n); [by intros [= <-]|done].
Qed.
Lemma name_copied d o ds : TlvSet_wf (tlvs d) -> Dataset_network_name d = Ok o ->
  set_some DS_TLV_NETWORK_NAME Ok (v ← json_string <$> o; json_as_str v) ds = Ok (copy_raw d DS_TLV_NETWORK_NAME ds).
Proof.
  intros Hd Ho. eapply field_copied; [done|exact Ho|]. intros v a Hv [-> Hu]%from_utf8_ok. exists v. split; [by apply json_as_str_string|done].
Qed.
Lemma read_uint_ok n v x : bytes_ok v -> from_tlv (ok_or (wire_read n v) InvalidLength) = Ok x -> len v = n /\ x = from_be v /\ uint (8 * n) x.
Proof.
  intros Hv H%from_tlv_ok. apply ok_or_ok, read_fixed in H as [Hl ->]. pose proof (from_be_bound v Hv) as Hb. rewrite Hl in Hb. done.
Qed.
Lemma panid_copied d o ds : TlvSet_wf (tlvs d) -> Dataset_pan_id d = Ok o ->
  set_some DS_TLV_PAN_ID (fun s => map_ok (to_be 2) (parse_panid s)) (v ← (fun v => json_string (hex_u16 v)) <$> o; json_as_str v) ds =
    Ok (copy_raw d DS_TLV_PAN_ID ds).
Proof.
  intros Hd Ho. unfold Dataset_pan_id in Ho. rewrite map_transpose_from_tlv in Ho. eapply field_copied; [done|exact Ho|].
  intros v a Hv (Hl & -> & Ha)%(read_uint_ok 2); [|done]. exists (hex_u16 (from_be v)). split.
  - apply json_as_str_string, lower_utf8. rewrite hex_u16_digits by done. destruct (u16_digits_ok _ Ha) as [Hg _].
    constructor; [by unfold graphic|constructor; [by unfold graphic|by apply digit_bytes_graphic]].
  - rewrite parse_panid_hex by done. cbn [map_ok]. f_equal. by apply to_be_from_be_n.
Qed.
Lemma delay_copied d o ds : TlvSet_wf (tlvs d) -> Dataset_delay_timer d = Ok o ->
  set_some DS_TLV_DELAY_TIMER (fun delay => Ok (to_be 4 (wrap 32 delay))) (v ← json_u64 <$> o; json_as_u64 v) ds = Ok (copy_raw d DS_TLV_DELAY_TIMER ds).
Proof.
  intros Hd Ho. unfold Dataset_delay_timer in Ho. rewrite map_transpose_from_tlv in Ho. eapply field_copied; [done|exact Ho|].
  intros v a Hv (Hl & -> & Ha)%(read_uint_ok 4); [|done]. exists (from_be v). split; [apply json_as_u64_u64; by eapply uint_weaken; [|exact Ha]|].
  rewrite wrap_small by exact Ha. f_equal. by apply to_be_from_be_n.
Qed.
Lemma prefix_copied d o ds : TlvSet_wf (tlvs d) -> Dataset_mesh_local_prefix d = Ok o ->
  set_some DS_TLV_MESH_LOCAL_PREFIX parse_mesh_local_prefix (v ← (fun v => json_string (mesh_local_prefix_string v)) <$> o; json_as_str v) ds =
    Ok (copy_raw d DS_TLV_MESH_LOCAL_PREFIX ds).
Proof.
  intros Hd Ho. eapply field_copied; [done|exact Ho|]. intros v a Hv H. unfold read_array in H.
  destruct (len v =? 8) eqn:El; [|done]. zbool. injection H as <-. exists (mesh_local_prefix_string v).
  split; [|by apply parse_mesh_local_prefix_string]. apply json_as_str_string, lower_utf8.
  destruct (prefix_text v El Hv) as (gs & Hg & _ & H16 & _). unfold mesh_local_prefix_string. rewrite Hg, str_bytes_app, fmt_subslice_text.
  apply Forall_app. split; [|by repeat constructor]. eapply Forall_impl; [by apply groups_text_bytes|].
  intros b [-> |?]; [by unfold graphic|by apply lower_hex_graphic].
Qed.

(** The TLVs an operational dataset shows. *)
Definition op_tlvs (pending : bool) : list Z :=
  [DS_TLV_ACTIVE_TIMESTAMP] ++ (if pending then [DS_TLV_PENDING_TIMESTAMP; DS_TLV_DELAY_TIMER] else []) ++
  [DS_TLV_NETWORK_NAME; DS_TLV_CHANNEL; DS_TLV_CHANNEL_MASK; DS_TLV_EXTENDED_PAN_ID; DS_TLV_PAN_ID; DS_TLV_MESH_LOCAL_PREFIX;
   DS_TLV_NETWORK_KEY; DS_TLV_PSKC; DS_TLV_SECURITY_POLICY].

(** Replaces the members of a known object by their values. *)
Ltac known_fields fs :=
  assert (NoDup (map fst fs)) as Hkeys by by_decide;
  repeat (erewrite (get_str_field fs) by (first [exact Hkeys | reflexivity]));
  repeat (erewrite (get_u64_field fs) by (first [exact Hkeys | reflexivity]));
  repeat (erewrite (get_field fs) by (first [exact Hkeys | reflexivity])).
Lemma op_dataset_copied d pending v : TlvSet_wf (tlvs d) -> op_dataset_to_json d pending = Ok v ->
  op_dataset_from_json v pending = Ok (copied (Dataset_raw d) (op_tlvs pending) Dataset_default).
Proof.
  intros Hd H. unfold op_dataset_to_json in H.
  unfold op_dataset_from_json. destruct pending; inv_ok; rewrite insert_first, !insert_present; cbn [app].
  all: match goal with |- context [json_object (present ?fs)] => known_fields fs end; clear Hkeys.
  all: repeat match goal with H : Dataset_extended_pan_id _ = _ |- _ => apply read_array_raw in H end.
  all: repeat match goal with H : Dataset_network_key _ = _ |- _ => apply read_array_raw in H end.
  all: rewrite (timestamp_copied d) by done; cbn [rbind].
  1: rewrite (timestamp_copied d) by done; cbn [rbind].
  1: rewrite (delay_copied d) by done; cbn [rbind].
  all: rewrite (name_copied d) by done; cbn [rbind].
  all: rewrite (channel_copied d) by done; cbn [rbind].
  all: rewrite (mask_copied d) by done; cbn [rbind].
  all: rewrite (hex_copied d) by done; cbn [rbind].
  all: rewrite (panid_copied d) by done; cbn [rbind].
  all: rewrite (prefix_copied d) by done; cbn [rbind].
  all: rewrite (hex_copied d) by done; cbn [rbind].
  all: rewrite (hex_copied d) by done; cbn [rbind].
  all: by rewrite (policy_copied d).
Qed.

(** ** Commissioner datasets *)

Definition steering_tlvs : list Z := [TLV_STEERING_DATA; TLV_AE_STEERING_DATA; TLV_NMKP_STEERING_DATA].
Definition port_tlvs : list Z := [TLV_JOINER_UDP_PORT; TLV_AE_UDP_PORT; TLV_NMKP_UDP_PORT].
(** A port is shown when it has two bytes. *)
Definition shown (d : Dataset) (t : Z) : option bytes :=
  if bool_decide (t ∈ port_tlvs) then match Dataset_raw d t with Some [hi; lo] => Some [hi; lo] | _ => None end else Dataset_raw d t.

Lemma port_copied d t ds : TlvSet_wf (tlvs d) -> t ∈ port_tlvs ->
  set_some t encode_u16 (v ← u16_field d t; json_as_u64 v) ds = Ok (set_value (shown d t) t ds).
Proof.
  intros Hd Ht. unfold shown, u16_field. rewrite bool_decide_eq_true_2 by done. destruct (Dataset_raw d t) as [v|] eqn:Ev; [|done].
  apply dataset_raw_ok in Ev as Hv; [|done]. destruct v as [|hi [|lo [|]]]; try done.
  pose proof (from_be_bound _ Hv) as Hb. change (8 * len [hi; lo]) with 16 in Hb. unfold base.mbind, option_bind.
  rewrite json_as_u64_u64 by (by eapply uint_weaken; [|exact Hb]). cbn [set_some encode_u16]. unfold encode_u16.
  rewrite wrap_small by exact Hb. cbn [rbind]. by rewrite (to_be_from_be_n 2) by done.
Qed.
Lemma comm_dataset_copied d : TlvSet_wf (tlvs d) ->
  comm_dataset_from_json (comm_dataset_to_json d) = Ok (copied (shown d) (steering_tlvs ++ port_tlvs) Dataset_default).
Proof.
  intros Hd. unfold comm_dataset_from_json, comm_dataset_to_json. rewrite insert_first, !insert_present. cbn [app].
  match goal with |- context [json_object (present ?fs)] => known_fields fs end. clear Hkeys. unfold hex_field.
  rewrite (hex_copied d) by done; cbn [rbind]. rewrite (hex_copied d) by done; cbn [rbind]. rewrite (hex_copied d) by done; cbn [rbind].
  rewrite port_copied by (done || by_decide); cbn [rbind]. rewrite port_copied by (done || by_decide); cbn [rbind].
  by rewrite port_copied by (done || by_decide).
Qed.

(** ** No JSON makes a reader panic *)

Lemma safe_parse_hex s : safe (parse_hex s).
Proof. unfold parse_hex. by destruct (hex_decode _). Qed.
Lemma safe_as_u64 v k : safe (as_u64 v k).
Proof. apply safe_ok_or. Qed.
Lemma safe_as_str v k : safe (as_str v k).
Proof. apply safe_ok_or. Qed.
Lemma safe_set_some {A} t (encode : A -> result Error bytes) o ds : (forall a, safe (encode a)) -> safe (set_some t encode o ds).
Proof. intros H. destruct o as [a|]; cbn; [|done]. apply safe_bind; [apply H|done]. Qed.
Lemma safe_parse_panid s : safe (parse_panid s).
Proof. apply safe_ok_or. Qed.
Lemma safe_encode_all es : safe (ChannelMaskEntry_encode_all es).
Proof.
  unfold ChannelMaskEntry_encode_all. generalize (@nil Z). induction es as [|e es IH]; intros out; cbn; [done|]. by destruct (_ >? 255).
Qed.
End Fields.
#[export] Hint Resolve safe_parse_hex safe_as_u64 safe_as_str safe_set_some safe_parse_panid safe_encode_all : meshcop.

Section Claim.
Context {HX : Hex} {HL : HexLaws} {JS : Json} {JL : JsonLaws}.

Lemma safe_mask_entry e : safe (mask_entry_from_json e).
Proof. unfold mask_entry_from_json. safe_auto. Qed.
Lemma op_dataset_from_json_safe v pending : safe (op_dataset_from_json v pending).
Proof.
  assert (forall ts, safe (encode_timestamp ts)) as H1.
  { intros ts. unfold encode_timestamp. apply safe_map_ok. unfold timestamp_from_json. safe_auto. }
  assert (forall c, safe (encode_channel c)) as H2 by (intros c; unfold encode_channel; safe_auto).
  assert (forall es, safe (encode_channel_mask es)) as H3.
  { intros es. unfold encode_channel_mask. apply safe_bind; [|intros ? ?; apply safe_encode_all].
    apply mapM_result_safe, Forall_true. intros e. apply safe_mask_entry. }
  assert (forall p, safe (encode_security_policy p)) as H4 by (intros p; unfold encode_security_policy; safe_auto).
  assert (forall s, safe (parse_mesh_local_prefix s)) as H5 by (intros s; unfold parse_mesh_local_prefix; safe_auto).
  unfold op_dataset_from_json. repeat first [apply safe_set_some; intros ?; safe_auto | apply safe_bind; [|intros ? ?] | destruct pending; [|done]].
Qed.
Lemma comm_dataset_from_json_safe v : safe (comm_dataset_from_json v).
Proof. unfold comm_dataset_from_json, encode_u16. safe_auto. Qed.

End Claim.

(** ** An instance *)

Module ToyJson.
Inductive value : Type :=
  | VString (s : bytes)
  | VNumber (n : Z)
  | VArray (l : list value)
  | VObject (fields : list (string * value)).
#[export] Instance toy_json : Json := {|
  json := value;
  json_get v k := match v with VObject fields => member k fields | _ => None end;
  json_as_str v := match v with VString s => Some s | _ => None end;
  json_as_u64 v := match v with VNumber n => if 0 <=? n then Some n else None | _ => None end;
  json_elements v := match v with VArray l => Some l | _ => None end;
  json_string := VString;
  json_u64 := VNumber;
  json_i64 := VNumber;
  json_array := VArray;
  json_object := VObject;
  json_parse _ := inl "not needed"%string;
  json_pretty _ := None;
  json_display _ := [] |}.
#[export] Instance toy_json_laws : JsonLaws.
Proof.
  split; cbn; [done..| |done]. intros n Hn. unfold uint in Hn. by rewrite (proj2 (Z.leb_le _ _)) by lia.
Qed.

Definition sample : Dataset := mkDataset (mkTlvSet
  [mkTlvEntry DS_TLV_ACTIVE_TIMESTAMP [0; 0; 0x68; 0xb9; 0x9f; 0xb4; 0; 0x0f]; mkTlvEntry DS_TLV_NETWORK_NAME (str_bytes "net");
   mkTlvEntry DS_TLV_CHANNEL [0; 0; 11]; mkTlvEntry DS_TLV_CHANNEL_MASK [0; 4; 0; 0x1f; 0xff; 0xe0]; mkTlvEntry DS_TLV_PAN_ID [0xab; 0xcd];
   mkTlvEntry DS_TLV_MESH_LOCAL_PREFIX [0xfd; 0; 0x0d; 0xb8; 0; 0; 0; 0]; mkTlvEntry DS_TLV_DELAY_TIMER [0; 0; 0x75; 0x30];
   mkTlvEntry DS_TLV_SECURITY_POLICY [2; 0xa0; 0xf7; 0xf8]; mkTlvEntry 0x4a [1]]).
End ToyJson.
