(* ===== verification/Report.v ===== *)
(** * Report: the topology as text

    crates/meshcop-netdiag/src/report.rs (markdown with a Mermaid graph) and
    graph.rs (a tree for terminals).  Every function returns the text it
    appends to the output. *)
From S2P Require Import Prelude Text Tlv Errors Dataset NetDiag Commissioner Client BTree Topology.
From Stdlib Require Import Ascii.

Definition LF : string := String "010"%char EmptyString.
(** [writeln!(out, ...)]. *)
Definition writeln (text : string) : string := text +:+ LF.
Definition text (l : list string) : string := fold_right String.append EmptyString l.
(** [slice.join(separator)]. *)
Fixpoint join (separator : string) (l : list string) : string :=
  match l with
  | [] => EmptyString
  | [s] => s
  | s :: l => s +:+ separator +:+ join separator l
  end.
(** [if let Some(v) = value { ... }] that appends. *)
Definition if_some {A} (value : option A) (f : A -> string) : string := match value with Some v => f v | None => EmptyString end.
(** [{:08x}] of a [u32]. *)
Definition hex8 (n : Z) : string :=
  hex2 (n / 0x1000000) +:+ hex2 (n / 0x10000 mod 0x100) +:+ hex2 (n / 0x100 mod 0x100) +:+ hex2 (n mod 0x100).

(** ** Views of a link *)

Definition swapped (view : LinkView) : LinkView := mkLinkView (lq_out view) (lq_in view).
(** graph.rs: the node's own view, or the peer's turned around. *)
Definition own_view (own peer : option LinkView) : option LinkView :=
  match own with Some view => Some view | None => swapped <$> peer end.

(** ** report.rs *)

Definition mode_words (mode : ModeInfo) : string :=
  (if mi_rx_on_when_idle mode then "rx-on" else "sleepy") +:+ " " +:+ device_type mode.
Definition Discovery_debug (d : Discovery) : string :=
  match d with DirectQuery => "DirectQuery" | ParentTable => "ParentTable" | Unreachable => "Unreachable" end.
Definition row (name value : string) : string := writeln ("| " +:+ name +:+ " | " +:+ value +:+ " |").
(** [{:?}] of a [Vec<u8>]. *)
Definition bytes_debug (l : bytes) : string := "[" +:+ join ", " (map dec l) +:+ "]".

Definition properties_markdown (node : Node) : string :=
  row "Property" "Value" +:+ writeln "| --- | --- |" +:+ row "Router ID" (dec (n_router_id node)) +:+
  if_some (n_child_id node) (fun child_id => row "Child ID" (dec child_id)) +:+
  row "Discovery" (Discovery_debug (discovery node)) +:+
  if_some (parent_rloc16 node) (fun parent => row "Parent" parent) +:+
  if_some (ext_mac_address node) (fun ext_mac => row "Extended MAC" ("`" +:+ ext_mac +:+ "`")) +:+
  if_some (n_eui64 node) (fun eui64 => row "EUI-64" ("`" +:+ eui64 +:+ "`")) +:+
  if_some (n_mode node) (fun mode =>
    row "Mode" (mode_words mode +:+ ", network data: " +:+ (if full_network_data mode then "full" else "stable-only"))) +:+
  if_some (n_timeout_seconds node) (fun timeout => row "Timeout" (dec timeout +:+ "s")) +:+
  if_some (n_connectivity node) (fun c =>
    row "Connectivity" ("parent priority " +:+ dec (ci_parent_priority c) +:+ ", neighbors lq3/lq2/lq1 = " +:+
      dec (link_quality_3_neighbors c) +:+ "/" +:+ dec (link_quality_2_neighbors c) +:+ "/" +:+ dec (link_quality_1_neighbors c) +:+
      ", leader cost " +:+ dec (ci_leader_cost c) +:+ ", active routers " +:+ dec (ci_active_routers c))) +:+
  if_some (n_leader_data node) (fun l =>
    row "Leader data" ("partition 0x" +:+ hex8 (li_partition_id l) +:+ ", weighting " +:+ dec (li_weighting l) +:+
      ", data version " +:+ dec (li_data_version l) +:+ "/" +:+ dec (li_stable_data_version l) +:+ " (stable), leader router " +:+
      dec (li_leader_router_id l))) +:+
  if_some (battery_level_percent node) (fun battery => row "Battery" (dec battery +:+ "%")) +:+
  if_some (supply_voltage_mv node) (fun voltage => row "Supply voltage" (dec voltage +:+ " mV")) +:+
  if_some (n_channel_pages node) (fun pages => row "Channel pages" (bytes_debug pages)).

Definition addresses_markdown (node : Node) : string :=
  if is_empty (ipv6_addresses node) then EmptyString
  else writeln (LF +:+ "IPv6 addresses:" +:+ LF) +:+
       text (map (fun address => writeln ("- `" +:+ address +:+ "`")) (ipv6_addresses node)).
Definition route_row (entry : RouteEntryInfo) : string :=
  writeln ("| " +:+ re_rloc16 entry +:+ " | " +:+ relation entry +:+ " | " +:+ dec (link_quality_in entry) +:+ " | " +:+
           dec (link_quality_out entry) +:+ " | " +:+ dec (re_route_cost entry) +:+ " |").
Definition routes_markdown (node : Node) : string :=
  if is_empty (route_table node) then EmptyString
  else writeln (LF +:+ "Route table:" +:+ LF) +:+ writeln "| To router | Relation | LQ in | LQ out | Cost |" +:+
       writeln "| --- | --- | --- | --- | --- |" +:+ text (map route_row (route_table node)).
Definition child_row (entry : ChildEntryInfo) : string :=
  writeln ("| " +:+ ce_rloc16 entry +:+ " | " +:+ dec (ce_timeout_seconds entry) +:+ "s | " +:+
           dec (ce_incoming_link_quality entry) +:+ " | " +:+ mode_words (ce_mode entry) +:+ " |").
Definition children_markdown (node : Node) : string :=
  if is_empty (n_child_table node) then EmptyString
  else writeln (LF +:+ "Child table:" +:+ LF) +:+ writeln "| Child | Timeout | LQ in | Mode |" +:+
       writeln "| --- | --- | --- | --- |" +:+ text (map child_row (n_child_table node)).
Definition or_dash (s : string) : string := if String.eqb s EmptyString then "—" else s.
Definition prefix_row (prefix : PrefixInfo) : string :=
  let border_routers := join ", " (map (fun entry => br_rloc16 entry +:+ " [" +:+ br_flags entry +:+ "]") (pi_border_routers prefix)) in
  let has_route := join ", " (map hr_rloc16 (pi_has_route prefix)) in
  writeln ("| `" +:+ pi_prefix prefix +:+ "` | " +:+
           match six_lowpan_context_id prefix with Some id => "6lo cid " +:+ dec id | None => "—" end +:+ " | " +:+
           or_dash border_routers +:+ " | " +:+ or_dash has_route +:+ " |").
Definition prefixes_markdown (node : Node) : string :=
  if is_empty (network_data_prefixes node) then EmptyString
  else writeln (LF +:+ "Network data prefixes:" +:+ LF) +:+ writeln "| Prefix | Context | Border routers | Has route |" +:+
       writeln "| --- | --- | --- | --- |" +:+ text (map prefix_row (network_data_prefixes node)).
Definition counters_markdown (node : Node) : string :=
  if_some (n_mac_counters node) (fun c =>
    writeln (LF +:+ "MAC counters:" +:+ LF) +:+ row "Counter" "Value" +:+ writeln "| --- | --- |" +:+
    text (map (fun e : string * Z => row e.1 (dec e.2))
      [("ifInUcastPkts", mc_if_in_ucast_pkts c); ("ifInBroadcastPkts", mc_if_in_broadcast_pkts c);
       ("ifInDiscards", mc_if_in_discards c); ("ifInErrors", mc_if_in_errors c); ("ifInUnknownProtos", mc_if_in_unknown_protos c);
       ("ifOutUcastPkts", mc_if_out_ucast_pkts c); ("ifOutBroadcastPkts", mc_if_out_broadcast_pkts c);
       ("ifOutDiscards", mc_if_out_discards c); ("ifOutErrors", mc_if_out_errors c)]%string)).

Definition Role_word (r : Role) : string := match r with Leader => "leader" | Router => "router" | Child => "child" end.
Definition node_markdown (node : Node) (heading_level : nat) : string :=
  text (repeat "#"%string heading_level) +:+ writeln (" " +:+ n_rloc16 node +:+ " — " +:+ Role_word (role node) +:+ LF) +:+
  properties_markdown node +:+ addresses_markdown node +:+ routes_markdown node +:+ children_markdown node +:+
  prefixes_markdown node +:+ counters_markdown node +:+ LF.
Definition node_report_markdown (node : Node) : string :=
  writeln ("# Node " +:+ n_rloc16 node +:+ " diagnostic report" +:+ LF) +:+ node_markdown node 2.

(** *** The whole snapshot *)

Definition is_child (node : Node) : bool := bool_decide (role node = Child).
Definition routers_of_snapshot (snapshot : TopologySnapshot) : list Node :=
  List.filter (fun node => negb (is_child node)) (nodes snapshot).

Definition network_markdown (snapshot : TopologySnapshot) : string :=
  let ni := network snapshot in
  let routers := len (routers_of_snapshot snapshot) in
  writeln ("## Network" +:+ LF) +:+ row "Property" "Value" +:+ writeln "| --- | --- |" +:+
  if_some (ni_network_name ni) (fun name => row "Network name" (string_of name)) +:+
  if_some (ni_pan_id ni) (row "PAN ID") +:+
  if_some (ni_extended_pan_id ni) (row "Extended PAN ID") +:+
  if_some (ni_channel ni) (fun channel =>
    row "Channel" (match ni_channel_page ni with
                   | Some page => dec channel +:+ " (page " +:+ dec page +:+ ")"
                   | None => dec channel
                   end)) +:+
  if_some (ni_mesh_local_prefix ni) (row "Mesh-local prefix") +:+
  if_some (ni_partition_id ni) (fun id => row "Partition ID" ("0x" +:+ hex8 id)) +:+
  if_some (ni_leader_rloc16 ni) (row "Leader RLOC16") +:+
  row "Routers" (dec routers) +:+ row "Children" (dec (len (nodes snapshot) - routers)).

(** [trim_start_matches]. *)
Fixpoint trim_0x (s : string) : string :=
  match s with
  | String "0" (String "x" s') => trim_0x s'
  | _ => s
  end.
Definition mermaid_id (rloc16 : string) : string := "N" +:+ trim_0x rloc16.
Definition QUOT : string := String "034"%char EmptyString.
Definition mermaid_node (node : Node) : string :=
  writeln ("    " +:+ mermaid_id (n_rloc16 node) +:+ "[" +:+ QUOT +:+ n_rloc16 node +:+ "<br/>" +:+ Role_word (role node) +:+ QUOT +:+ "]").
(** [a_view.or_else(|| b_view.map(..))], then its text. *)
Definition mesh_label (a_view b_view : option LinkView) : string :=
  let view := match a_view with Some view => Some view | None => swapped <$> b_view end in
  match view with Some view => "lq " +:+ dec (lq_in view) +:+ "/" +:+ dec (lq_out view) | None => "lq ?" end.
Definition mermaid_link (link : Link) : string :=
  match link with
  | LinkMesh a b a_view b_view =>
      writeln ("    " +:+ mermaid_id a +:+ " ---|" +:+ QUOT +:+ mesh_label a_view b_view +:+ QUOT +:+ "| " +:+ mermaid_id b)
  | LinkParentChild parent child link_quality _ =>
      writeln ("    " +:+ mermaid_id parent +:+ " -->|" +:+ QUOT +:+ "child lq " +:+ dec link_quality +:+ QUOT +:+ "| " +:+ mermaid_id child)
  end.
Definition mermaid_graph (snapshot : TopologySnapshot) : string :=
  writeln "graph TD" +:+ text (map mermaid_node (nodes snapshot)) +:+ text (map mermaid_link (links snapshot)).

Definition mesh_quality (a_view b_view : option LinkView) : string :=
  match a_view, b_view with
  | Some va, _ => "in " +:+ dec (lq_in va) +:+ " / out " +:+ dec (lq_out va)
  | None, Some vb => "in " +:+ dec (lq_out vb) +:+ " / out " +:+ dec (lq_in vb) +:+ " (from B)"
  | None, None => "unknown"
  end.
Definition mesh_note (a_view b_view : option LinkView) : string :=
  match a_view, b_view with Some _, Some _ => "both views collected" | _, _ => "one-sided view" end.
Definition link_row (link : Link) : string :=
  match link with
  | LinkMesh a b a_view b_view =>
      writeln ("| mesh | " +:+ a +:+ " | " +:+ b +:+ " | " +:+ mesh_quality a_view b_view +:+ " | " +:+ mesh_note a_view b_view +:+ " |")
  | LinkParentChild parent child link_quality timeout_seconds =>
      writeln ("| parent-child | " +:+ parent +:+ " | " +:+ child +:+ " | in " +:+ dec link_quality +:+ " | timeout " +:+
               dec timeout_seconds +:+ "s |")
  end.

Definition topology_markdown (snapshot : TopologySnapshot) : string :=
  writeln ("# Thread network diagnostic report" +:+ LF) +:+
  writeln ("Collected via border agent `" +:+ border_agent snapshot +:+ "` (unix time " +:+ dec (generated_unix_time snapshot) +:+ ")." +:+ LF) +:+
  network_markdown snapshot +:+
  writeln (LF +:+ "## Topology" +:+ LF) +:+ writeln "```mermaid" +:+ mermaid_graph snapshot +:+ writeln "```" +:+
  writeln (LF +:+ "## Nodes" +:+ LF) +:+ text (map (fun node => node_markdown node 3) (nodes snapshot)) +:+
  writeln (LF +:+ "## Links" +:+ LF) +:+ writeln "| Kind | A | B | Link quality | Notes |" +:+
  writeln "| --- | --- | --- | --- | --- |" +:+ text (map link_row (links snapshot)).

(** ** graph.rs *)

(** A neighbour with the quality in the perspective of the node, as the code
    tests the ends of a link. *)
Definition mesh_neighbor (rloc : string) (link : Link) : list (string * option LinkView) :=
  match link with
  | LinkMesh a b a_view b_view =>
      if String.eqb a rloc then [(b, own_view a_view b_view)]
      else if String.eqb b rloc then [(a, own_view b_view a_view)] else []
  | LinkParentChild _ _ _ _ => []
  end.
Definition neighbor_text (n : string * option LinkView) : string :=
  match n.2 with
  | Some view => n.1 +:+ " (lq " +:+ dec (lq_in view) +:+ "/" +:+ dec (lq_out view) +:+ ")"
  | None => n.1
  end.
Definition mesh_neighbors (snapshot : TopologySnapshot) (rloc : string) : list string :=
  map neighbor_text (concat (map (mesh_neighbor rloc) (links snapshot))).

(** The nodes the index holds under a parent, in the order of the snapshot. *)
Definition children_by_parent (snapshot : TopologySnapshot) (rloc : string) : list Node :=
  List.filter (fun node => is_child node && bool_decide (parent_rloc16 node = Some rloc)) (nodes snapshot).

Definition child_line (child_indent : string) (last_child : bool) (child : Node) : string :=
  let kind := match n_mode child with Some mode => mode_words mode | None => "child" end in
  let direct := match discovery child with DirectQuery => EmptyString | _ => " (parent-table only)" end in
  writeln (child_indent +:+ (if last_child then "└─" else "├─") +:+ " " +:+ n_rloc16 child +:+ " [" +:+ kind +:+ "]" +:+ direct).
(** The lines of a list whose last line differs. *)
Fixpoint with_last {A} (line : bool -> A -> string) (l : list A) : string :=
  match l with
  | [] => EmptyString
  | x :: l => line (is_empty l) x +:+ with_last line l
  end.
Definition router_lines (snapshot : TopologySnapshot) (last_router : bool) (router : Node) : string :=
  let marker := if last_router then "└─" else "├─" in
  let role := match role router with Leader => "LEADER" | _ => "router" end in
  let reachable := match discovery router with Unreachable => "  (unreachable)" | _ => EmptyString end in
  let child_indent := if last_router then "   " else "│  " in
  let neighbors := mesh_neighbors snapshot (n_rloc16 router) in
  writeln (marker +:+ " [" +:+ role +:+ "] " +:+ n_rloc16 router +:+ reachable) +:+
  (if is_empty neighbors then EmptyString else writeln (child_indent +:+ "· mesh links: " +:+ join ", " neighbors)) +:+
  if_some (n_connectivity router) (fun c =>
    writeln (child_indent +:+ "· neighbors lq3/lq2/lq1 = " +:+ dec (link_quality_3_neighbors c) +:+ "/" +:+
             dec (link_quality_2_neighbors c) +:+ "/" +:+ dec (link_quality_1_neighbors c) +:+ ", leader cost " +:+ dec (ci_leader_cost c))) +:+
  with_last (child_line child_indent) (children_by_parent snapshot (n_rloc16 router)).

Definition topology_ascii (snapshot : TopologySnapshot) : string :=
  let ni := network snapshot in
  let routers := routers_of_snapshot snapshot in
  writeln (match ni_network_name ni with Some name => string_of name | None => "Thread network" end) +:+
  match ni_channel ni, ni_pan_id ni with
  | Some channel, Some pan => writeln ("  channel " +:+ dec channel +:+ ", pan " +:+ pan)
  | _, _ => EmptyString
  end +:+
  writeln EmptyString +:+ with_last (router_lines snapshot) routers +:+
  writeln (LF +:+ dec (len routers) +:+ " routers, " +:+ dec (len (nodes snapshot) - len routers) +:+ " children, " +:+
           dec (len (links snapshot)) +:+ " links").

(** ** The three renderings agree *)

(** The table, the Mermaid graph and the tree show a link in the perspective of
    its first end: its own view, or that of the second turned around; the second
    end has the tree's line turned around when only one of them reported. *)
Lemma renderings_agree a b va vb view : a <> b -> own_view va vb = Some view ->
  let quality := dec (lq_in view) +:+ "/" +:+ dec (lq_out view) in
  mesh_label va vb = "lq " +:+ quality /\
  (exists note, mesh_quality va vb = "in " +:+ dec (lq_in view) +:+ " / out " +:+ dec (lq_out view) +:+ note) /\
  map neighbor_text (mesh_neighbor a (LinkMesh a b va vb)) = [b +:+ " (lq " +:+ quality +:+ ")"] /\
  (va = None \/ vb = None -> mesh_neighbor b (LinkMesh a b va vb) = [(a, Some (swapped view))]).
Proof.
  intros Hne Hv quality. unfold mesh_neighbor. rewrite String.eqb_refl, (proj2 (String.eqb_neq a b) Hne), String.eqb_refl.
  assert (forall s : string, s +:+ EmptyString = s) as He by (induction s as [|c s IH]; [done|]; exact (f_equal (String c) IH)).
  assert (forall x y z : string, (x +:+ y) +:+ z = x +:+ (y +:+ z)) as Happ by (induction x as [|c x IH]; intros y z; [done|]; exact (f_equal (String c) (IH y z))).
  unfold mesh_label, mesh_quality, own_view in *. destruct va as [v|]; [injection Hv as ->|destruct vb as [w|]; [injection Hv as <-|done]].
  - split; [done|]. split; [exists EmptyString; by rewrite He|]. split.
    + cbn [map neighbor_text fst snd]. unfold quality. by rewrite !Happ.
    + intros [?| ->]; [done|reflexivity].
  - split; [done|]. split; [by exists " (from B)"%string|]. split.
    + cbn [map neighbor_text fst snd]. unfold quality. by rewrite !Happ.
    + intros _. by destruct w.
Qed.

Definition two_routers : TopologySnapshot := mkTopologySnapshot 0 "192.0.2.1:49154"
  (mkNetworkInfo None (Some "0x1234"%string) None None (Some 15) None None None)
  [mkNode "0x0400" 1 None Leader DirectQuery None None None None None [] None None [] [] None None None [] None;
   mkNode "0x0401" 1 (Some 1) Child ParentTable (Some "0x0400"%string) None None None None [] None None [] [] None None None [] None]
  [LinkMesh "0x0400" "0x0800" None (Some (mkLinkView 1 2))].
Example tree_layout : topology_ascii two_routers =
  writeln "Thread network" +:+ writeln "  channel 15, pan 0x1234" +:+ writeln EmptyString +:+ writeln "└─ [LEADER] 0x0400" +:+
  writeln "   · mesh links: 0x0800 (lq 2/1)" +:+ writeln "   └─ 0x0401 [child] (parent-table only)" +:+
  writeln EmptyString +:+ writeln "1 routers, 1 children, 1 links".
Proof. vm_compute. reflexivity. Qed.
