(* ===== verification/SocketAddr.v ===== *)
(** * SocketAddr: socket addresses

    [SocketAddr]'s [FromStr], with which the command line
    (cli/interpreter/session.rs) and the diagnostics tool
    (crates/meshcop-netdiag/src/main.rs) read the address of the border agent. *)
From S2P Require Import Prelude Text Ipv6.

Inductive SocketAddr :=
  | SocketAddrV4 (ip : bytes) (port : Z)
  | SocketAddrV6 (ip : Ipv6Addr) (port scope_id : Z).

Definition read_port : reader Z := fun inp =>
  match read_given_char 0x3a inp with
  | Some (_, inp) => read_number 10 (len inp) 0x10000 true inp
  | None => None
  end.
Definition read_scope_id : reader Z := fun inp =>
  match read_given_char 0x25 inp with
  | Some (_, inp) => read_number 10 (len inp) 0x100000000 true inp
  | None => None
  end.
Definition read_socket_addr_v4 : reader SocketAddr := fun inp =>
  match read_ipv4_addr inp with
  | Some (ip, inp) => match read_port inp with Some (port, inp) => Some (SocketAddrV4 ip port, inp) | None => None end
  | None => None
  end.
Definition read_socket_addr_v6 : reader SocketAddr := fun inp =>
  match read_given_char 0x5b inp with
  | Some (_, inp) =>
      match read_ipv6_addr inp with
      | Some (ip, inp) =>
          let '(scope_id, inp) := match read_scope_id inp with Some r => r | None => (0, inp) end in
          match read_given_char 0x5d inp with
          | Some (_, inp) => match read_port inp with Some (port, inp) => Some (SocketAddrV6 ip port scope_id, inp) | None => None end
          | None => None
          end
      | None => None
      end
  | None => None
  end.
Definition SocketAddr_parse (s : bytes) : option SocketAddr :=
  match read_socket_addr_v4 s with
  | Some (a, []) => Some a
  | Some _ => None
  | None => match read_socket_addr_v6 s with Some (a, []) => Some a | _ => None end
  end.

(** An IPv6 address needs brackets, which nothing adds to the address of a border
    agent that is given apart from its port. *)
Lemma unbracketed_ipv6_refused : map SocketAddr_parse (map str_bytes ["192.0.2.1:49191"; "[fd00::1]:49191"; "fd00::1:49191"; "192.0.2.1:65536"]%string) =
  [Some (SocketAddrV4 [192; 0; 2; 1] 49191); Some (SocketAddrV6 (groups_to_addr [0xfd00; 0; 0; 0; 0; 0; 0; 1]) 49191 0); None; None].
Proof. reflexivity. Qed.
