(* ===== verification/TokioSession.v ===== *)
(** * TokioSession: the DTLS session over a Tokio socket

    The model of crates/meshcop-dtls/src/tokio_transport.rs and
    tokio_session.rs: how a connected [UdpSocket] and its errors become the
    transport of [Driver], and the public session over it.  The operating
    system's sockets are a parameter ([Os]). *)
From S2P Require Import Prelude Text Tlv Errors Ipv6 SocketAddr Replay Record Handshake Hello Crypto Ecjpake.
From S2P Require Import ThreadHandshake Safety Driver Flights ClientDriver ServerDriver DriverTermination.

(** ** Established sessions receive *)

Section Receive.
Context {HH : Hash} {HL : HashLaws} {AA : Aead} {AL : AeadLaws} {NN : Net} {CC : Curve} {CL : CurveLaws} {RR : Rng} {RL : RngLaws}.

(** What [open_next_record] finds in the records not yet read. *)
Lemma unread_next_ok records s : keys_ok s -> Forall payload_ok records ->
  exists s' o, open_next_loop records s = (s', Ok o) /\ (Forall payload_ok (unread_records s) -> keys_ok s') /\
    forall r, o = Some r -> safe r /\ (forall p, r = Ok p -> bytes_ok p) /\ forall msg, r <> Err (DTimeout msg).
Proof.
  intros Hs Hr. revert s Hs. induction Hr as [|r rs Hr Hrs IH]; intros s Hs; cbn [open_next_loop].
  { exists s, None. by split_and!. }
  set (s1 := set_unread_records rs s). assert (keys_ok s1) as H1 by (split; [apply Hs|done]).
  destruct (IH s1 H1) as (s2 & o & E & H2 & Ho).
  assert (exists s' o, open_next_loop rs s1 = (s', Ok o) /\ (Forall payload_ok (unread_records s) -> keys_ok s') /\
    forall r, o = Some r -> safe r /\ (forall p, r = Ok p -> bytes_ok p) /\ forall msg, r <> Err (DTimeout msg)) as Hgo by (exists s2, o; split_and!; [done|by intros _; apply H2|done]).
  destruct (negb _); [done|]. destruct (session_open_ok r s1 H1 Hr) as (Hsafe & Hk & Hp).
  assert (match content_type (rec_header r) with CtApplicationData | CtAlert => True | _ => False end ->
    exists s' o, (match open_protected_record r s1 with
            | (self, Ok (Some plaintext)) =>
                (self, Ok (Some (if bool_decide (content_type (rec_header r) = CtAlert)
                   then Err (decode_authenticated_alert (rec_header r) plaintext) else Ok plaintext)))
            | (self, Panic f) => (self, Panic f)
            | (self, _) => open_next_loop rs self
            end) = (s', Ok o) /\ (Forall payload_ok (unread_records s) -> keys_ok s') /\ forall r, o = Some r -> safe r /\ (forall p, r = Ok p -> bytes_ok p) /\ forall msg, r <> Err (DTimeout msg)) as Hopen.
  { intros _. destruct (open_protected_record r s1) as [s3 [[p|]|e|f]]; cbn [fst snd] in *; [| | |done].
    - eexists s3, _. split; [done|]. split; [done|]. intros r' [= <-]. case_bool_decide; (split; [done|]);
        (split; [by intros p' [= <-]; apply Hp|intros msg]); [|done]. unfold decode_authenticated_alert, decode_alert_error. by repeat case_match.
    - destruct (IH s3 Hk) as (s4 & o4 & E4 & H4 & Ho4). exists s4, o4. split_and!; [done| |done]. intros _. apply H4, Hk.
    - destruct (IH s3 Hk) as (s4 & o4 & E4 & H4 & Ho4). exists s4, o4. split_and!; [done| |done]. intros _. apply H4, Hk. }
  destruct (content_type (rec_header r)); try exact Hgo; by apply Hopen.
Qed.

(** A timer only preempts an operation that has nothing left to receive by then. *)
Definition drained (w : World) : Prop := match arrivals w with (t, _) :: _ => clock w < t | [] => True end.
Definition idle {A} (w : World) (x : World * result Stop A) : Prop :=
  suffix (arrivals x.1) (arrivals w) /\
  match x.2 with Err (Expired _) => drained x.1 | Err (Raise (Protocol (DTimeout _))) => False | _ => True end.
Lemma idle_bind {A B} (Q : A -> World -> Prop) (m : io A) (k : A -> io B) w :
  ends_by later Q w (m w) -> idle w (m w) -> (forall a w1, world_ok w1 -> Q a w1 -> idle w1 (k a w1)) -> idle w (mbind m k w).
Proof.
  intros (Hw & _ & Hq) [Hs Hi] Hk. unfold mbind. destruct (m w) as [w1 [a|e|f]]; cbn [fst snd] in *; [|by split|done].
  destruct (Hk a w1 Hw Hq) as [Hs' Hi']. split; [by etrans|done].
Qed.
Lemma receive_idle b w : world_ok w -> idle w (receive_into b w).
Proof.
  intros (_ & _ & Ht). unfold receive_into, idle, drained. destruct (first_expiry (timers w)) as [[n u]|] eqn:Ef.
  - destruct (first_expiry_spec _ _ _ Ef) as (Hn & _). assert (clock w <= u) as Hu by by apply (Forall_lookup_1 _ _ _ _ Ht Hn).
    destruct (arrivals w) as [|[t a] rest] eqn:Ear; [cbn; by rewrite Ear|].
    destruct (t <=? u) eqn:Etu; [by destruct a; split; try apply suffix_cons_r|].
    zbool. cbn. rewrite Ear. split; [done|lia].
  - destruct (arrivals w) as [|[t a] rest] eqn:Ear; [cbn; by rewrite Ear|]. by destruct a; split; try apply suffix_cons_r.
Qed.
Lemma parsed_idle fuel peer b w : world_ok w -> bytes_ok b -> (length (arrivals w) < fuel)%nat ->
  idle w (recv_parsed_loop fuel peer b w).
Proof.
  revert b w. induction fuel as [|fuel IH]; intros b w Hw Hb Hf; [lia|]. cbn [recv_parsed_loop].
  eapply idle_bind; [by apply receive_into_ends|by apply receive_idle|]. intros [b' [[n local] remote]] w1 H1 Hx. cbn in Hx.
  destruct Hx as (Hlt & d & Hd & -> & ->).
  assert (bytes_ok (take (length b) d ++ drop (length d) b)) as Hb' by (apply Forall_app_2; [by apply Forall_take|by apply Forall_drop]).
  repeat first [done | apply IH; [done|done|lia] | case_match].
Qed.

(** An operation on a session and the world that takes time. *)
Definition receives (w : World) (x : (SessionState * World) * result Stop bytes) : Prop :=
  keys_ok x.1.1 /\ ends_by later (fun p _ => bytes_ok p) w (x.1.2, x.2) /\ idle w (x.1.2, x.2).

Lemma recv_loop_receives fuel peer s w : world_ok w -> keys_ok s -> (length (arrivals w) < fuel)%nat ->
  receives w (recv_application_loop fuel peer (s, w)).
Proof.
  revert s w. induction fuel as [|fuel IH]; intros s w Hw Hs Hf; [lia|]. cbn [recv_application_loop].
  destruct (unread_next_ok (unread_records s) s Hs (proj2 Hs)) as (s1 & o & E & Hk & Ho). specialize (Hk (proj2 Hs)).
  unfold mbind at 1, on_state, mzoom, open_next_record. cbn [fst]. rewrite E. destruct o as [r|].
  { unfold proto, mlift. split; [done|]. destruct (Ho r eq_refl) as (Hsr & Hp & Hn). split; [|split; [done|destruct r as [p|[]|f]; try done; cbn; by eapply Hn]]. split; [done|]. split; [done|].
    destruct r as [p|e|f]; cbn; [by apply Hp|done|done]. }
  cbn [map_err]. unfold mbind at 1, on_world, mzoom. cbn [snd].
  assert (ends_by later (fun x w' => Forall payload_ok x.1.1 /\ (length (arrivals w') < length (arrivals w))%nat) w
    (recv_records_from_unbounded peer w) /\ idle w (recv_records_from_unbounded peer w)) as [Hr Hidle].
  { split; [apply recv_loop_ends|apply parsed_idle]; try done; try lia;
      apply List.Forall_forall; intros y Hy; apply List.repeat_spec in Hy; subst; by_decide. }
  destruct Hr as (Hw1 & Hl & Hq). destruct (recv_records_from_unbounded peer w) as [w1 [[[rs l] rm]|e|f]]; cbn [fst snd map_err] in *;
    [|by split; [exact Hk|split; [split; [exact Hw1|split; [exact Hl|exact Hq]]|exact Hidle]]|done]. destruct Hq as [Hrs Hlt]. unfold mbind, mset. cbn [fst snd].
  destruct (IH (receive_datagram rs s1) w1 Hw1) as (Hk' & (Hw2 & Hl2 & Hq2) & Hi2); [|lia|].
  { split; [apply Hk|]. cbn. apply Forall_app. split; [apply Hk|done]. }
  split; [done|]. split; [|split; [etrans; [apply Hi2|apply Hidle]|apply Hi2]]. split; [done|]. split; [by etrans|].
  destruct (recv_application_loop fuel peer (receive_datagram rs s1, w1)) as [[s2 w2] [p|[e|n|]|f]]; cbn [fst snd] in *; try done.
  by rewrite <- (proj1 Hl).
Qed.

(** A window of [recv_application_data]: it ends with a plaintext, an error of
    the session or of the socket, or a timeout exactly at its end; a timer
    around it may stop it at the time it expires. *)
Definition window_ends (duration : Z) (w : World) (x : (SessionState * World) * result Stop bytes) : Prop :=
  let '((s, w'), r) := x in
  keys_ok s /\ Forall arrival_ok (arrivals w') /\ Forall (Z.le (clock w')) (timers w') /\ later w w' /\ suffix (arrivals w') (arrivals w) /\ clock w' <= clock w + duration /\
  match r with
  | Ok p => bytes_ok p
  | Err (Raise e) => (e = Timeout -> clock w' = clock w + duration /\ drained w') /\ forall msg, e <> Protocol (DTimeout msg)
  | Err (Expired n) => timers w !! n = Some (clock w')
  | Err Blocked => False
  | Panic _ => False
  end.

Lemma recv_window peer duration s w : 0 <= duration -> keys_ok s -> Forall arrival_ok (arrivals w) -> Forall (Z.le (clock w)) (timers w) ->
  window_ends duration w (recv_application_data peer duration (s, w)).
Proof.
  intros Hd Hs Ha Ht. unfold recv_application_data, session_timeout, mbind at 1, on_world, mzoom. cbn [snd fst].
  rewrite (sleep_ok duration w Hd). cbn [fst snd]. unfold race. cbn [fst snd].
  set (x := clock w + duration). set (w0 := set_timers (x :: timers w) w).
  assert (world_ok w0) as H0 by (split; [done|split; [done|constructor; [cbn; unfold x; lia|done]]]).
  destruct (recv_loop_receives (S (length (arrivals w))) peer s w0 H0 Hs ltac:(cbn; lia)) as (Hk & ((Ha1 & _ & Ht1) & (Et & Hc & Hl) & Hq) & [Hsuf Hi]).
  cbv beta iota delta [window_ends map_err]. fold x. change (set_timers (x :: timers w) w) with w0. destruct (recv_application_loop _ peer (s, w0)) as [[s1 w1] r]. cbn [fst snd] in *. rewrite Et in Ht1. apply Forall_cons in Ht1 as [Hx Ht1].
  split; [done|]. split; [done|]. split; [done|]. split; [by split|]. split; [done|]. split; [done|].
  destruct r as [p|[e|[|n]|]|f]; try done.
  - split; [done|]. by intros msg ->.
  - split; [|done]. intros _. split; [|exact Hi]. cbn in Hq. by injection Hq as ->.
Qed.
End Receive.

(** ** Sockets *)

#[global] Instance tokio_addr_eq_dec : EqDecision SocketAddr.SocketAddr.
Proof. solve_decision. Defined.
(** An address with its port; a transport error is a [std::io::Error]. *)
#[global] Instance tokio_net : Net := {| Driver.SocketAddr := SocketAddr.SocketAddr; TransportError := string |}.

(** What a socket is given by the network: a datagram, or a failed receive. *)
Inductive OsEvent := Datagram (data : bytes) (remote : SocketAddr.SocketAddr) | Failure (error : string).

(** Tokio's [UdpSocket].  Binding may give another socket at another time, and
    a socket receives its own traffic. *)
Class Os := {
  UdpSocket : Type;
  udp_bind : Z -> string -> string + UdpSocket;
  udp_connect : SocketAddr.SocketAddr -> UdpSocket -> string + UdpSocket;
  local_addr : UdpSocket -> string + SocketAddr.SocketAddr;
  peer_addr : UdpSocket -> string + SocketAddr.SocketAddr;
  traffic : UdpSocket -> list (Z * OsEvent) }.

(** ** tokio_transport.rs *)

(** [receive_into]: [recv_from] keeps what fits the buffer, and the address of
    the socket is asked for then. *)
Definition tokio_arrival (local : string + SocketAddr.SocketAddr) (e : OsEvent) : @Arrival tokio_net :=
  match e with
  | Failure error => RxError (error : @TransportError tokio_net)
  | Datagram data remote =>
      match local with
      | inl error => RxError (error : @TransportError tokio_net)
      | inr local => Rx (take (Z.to_nat MAX_DATAGRAM_SIZE) data) (local : @Driver.SocketAddr tokio_net) remote
      end
  end.
Definition tokio_arrivals `{Os} (socket : UdpSocket) : list (Z * @Arrival tokio_net) :=
  map (fun '(t, e) => (t, tokio_arrival (local_addr socket) e)) (traffic socket).

(** [impl From<DriverError<std::io::Error>> for Error]. *)
Definition of_driver_error (error : @DriverError tokio_net) : DtlsError :=
  match error with
  | Protocol error => error
  | Transport error => DIo error
  | Timeout => DTimeout "DTLS operation timed out"
  end.

(** ** Operations that end with an error of their own *)

(** Why an operation ends early, with an error of type [E]: see [Stop]. *)
Inductive Halt (E : Type) := Failed (e : E) | Preempted (n : nat) | Pending.
Arguments Failed {E}.
Arguments Preempted {E}.
Arguments Pending {E}.

Definition map_halt {E E'} (h : E -> E') (x : Halt E) : Halt E' :=
  match x with Failed e => Failed (h e) | Preempted n => Preempted n | Pending => Pending end.
Definition of_stop (x : @Stop tokio_net) : Halt DtlsError :=
  match x with Raise e => Failed (of_driver_error e) | Expired n => Preempted n | Blocked => Pending end.
(** [.map_err(..)] on what an operation returns. *)
Definition converted {S X Y A} (h : X -> Y) (m : M S X A) : M S Y A := fun s => let '(s', r) := m s in (s', map_err h r).
(** [?] on the result of a call to the operating system. *)
Definition io_result {S A} (r : string + A) : M S (Halt DtlsError) A :=
  match r with inl e => merr (Failed (DIo e)) | inr a => mret a end.

(** ** tokio_session.rs *)

Section Session.
Context {HH : Hash} {AA : Aead} {CC : Curve} {RR : Rng} {OO : Os}.

Notation World := (@World tokio_net CC RR).

(** [DtlsSession::new] and [key_material]. *)
Definition DtlsSession_new (key_material : ThreadDtlsKeyMaterial) : SessionState := SessionState_new key_material RoleOfClient.
Definition DtlsSession_key_material (self : SessionState) : ThreadDtlsKeyMaterial := ss_key_material self.

Definition DtlsSession_connect_with_rng (socket : UdpSocket) (pskc : bytes) (timeout : Z) : M World (Halt DtlsError) SessionState :=
  let* local := io_result (local_addr socket) in
  let* peer := io_result (peer_addr socket) in
  converted of_stop (connect_with_rng local peer pskc timeout).

Definition DtlsSession_send_application_data (socket : UdpSocket) (plaintext : bytes) : M (SessionState * World) (Halt DtlsError) unit :=
  let* local := io_result (local_addr socket) in
  let* peer := io_result (peer_addr socket) in
  let* record := converted of_stop (on_state (protect_application_data plaintext)) in
  converted of_stop (on_world (send_records local peer [record])).

Definition DtlsSession_recv_application_data (socket : UdpSocket) (timeout : Z) : M (SessionState * World) (Halt DtlsError) bytes :=
  let* peer := io_result (peer_addr socket) in
  converted of_stop (recv_application_data peer timeout).

Definition DtlsSession_request_application_data (socket : UdpSocket) (plaintext : bytes) (timeout : Z)
    : M (SessionState * World) (Halt DtlsError) bytes :=
  let* _ := DtlsSession_send_application_data socket plaintext in
  DtlsSession_recv_application_data socket timeout.

(** [DtlsServer::<TokioUdpTransport, TokioDelay>::accept]. *)
Definition TokioServer_accept (pskc : bytes) (timeout : Z) : M World (Halt DtlsError) DtlsServerSession :=
  converted of_stop (DtlsServer_accept_with_rng pskc timeout).
End Session.
