(* ===== verification/Link.v ===== *)
(** * Link: the session task's connection to the border agent

    The model of crates/meshcop/src/commissioner/client/driver/link.rs and of
    how client/mod.rs connects: a live DTLS session over a socket
    ([TokioSession]), or the scripted transport ([Harness]).  [SessionDriver]
    works with a link whose sends and handshakes simply succeed or fail; the
    theorem of this file is that a live link is one. *)
From S2P Require Import Prelude Text Tlv Errors Dataset Coap NetDiag Messages Harness Joiner.
From S2P Require Import Ipv6 SocketAddr Replay Record Handshake Hello Crypto Ecjpake ThreadHandshake Safety.
From S2P Require Import Commissioner SessionDriver SessionCore SessionInvariant SessionClaims SessionJoiners.
From S2P Require Import Driver Flights ClientDriver ServerDriver DriverTermination TokioSession.

(** [RECEIVE_WINDOW]. *)
Definition RECEIVE_WINDOW : Z := seconds 3600.

Section Link.
Context {HH : Hash} {AA : Aead} {CC : Curve} {RR : Rng} {OO : Os}.

Notation World := (@World tokio_net CC RR).

Record LiveLink := mkLiveLink {
  border_agent : SocketAddr.SocketAddr;
  pskc : bytes;
  session : option (UdpSocket * SessionState) }.
Inductive Link := Live (live : LiveLink) | Scripted (transport : Harness.ScriptState) (open : bool).

Definition set_session (s : option (UdpSocket * SessionState)) (l : LiveLink) : LiveLink := mkLiveLink (border_agent l) (pskc l) s.

Notation lio A := (M (Link * World) (Halt Error) A).

(** [tokio::time::timeout]. *)
Definition tokio_timeout {A} (late : Error) (duration : Z) (m : M World (Halt Error) A) : M World (Halt Error) A := fun w =>
  let '(w', r) := m (set_timers (Driver.clock w + duration :: timers w) w) in
  (set_timers (timers w) w',
   match r with
   | Err (Preempted O) => Err (Failed late)
   | Err (Preempted (S n)) => Err (Preempted n)
   | r => r
   end).

Definition is_ipv4 (a : SocketAddr.SocketAddr) : bool := match a with SocketAddrV4 _ _ => true | SocketAddrV6 _ _ _ => false end.

(** A socket of its own, with what arrives for it. *)
Definition open_socket (border_agent : SocketAddr.SocketAddr) : M World (Halt Error) UdpSocket :=
  let bind_addr := if is_ipv4 border_agent then "0.0.0.0:0"%string else "[::]:0"%string in
  let* now := mget Driver.clock in
  let* socket := match udp_bind now bind_addr with inl e => merr (Failed (EIo e)) | inr s => mret s end in
  let* socket := match udp_connect border_agent socket with inl e => merr (Failed (EIo e)) | inr s => mret s end in
  let* _ := mset (set_arrivals (tokio_arrivals socket)) in
  mret socket.
Definition handshake (border_agent : SocketAddr.SocketAddr) (pskc : bytes) : M World (Halt Error) (UdpSocket * SessionState) :=
  let* socket := open_socket border_agent in
  let* session := tokio_timeout (ETimeout "DTLS handshake timed out") DTLS_HANDSHAKE_TIMEOUT
    (converted (map_halt EDtls) (DtlsSession_connect_with_rng socket pskc DTLS_HANDSHAKE_TIMEOUT)) in
  mret (socket, session).

Definition Link_connect (border_agent : SocketAddr.SocketAddr) (pskc : bytes) : M World (Halt Error) Link :=
  let* s := handshake border_agent pskc in
  mret (Live (mkLiveLink border_agent pskc (Some s))).

Definition is_open (l : Link) : bool :=
  match l with Live live => match session live with Some _ => true | None => false end | Scripted _ open => open end.

Definition close (l : Link) : Link :=
  match l with Live live => Live (set_session None live) | Scripted transport _ => Scripted transport false end.

Definition reopen : lio unit := fun '(l, w) =>
  match l with
  | Live live =>
      let live := set_session None live in
      let '(w, r) := handshake (border_agent live) (pskc live) w in
      match r with
      | Ok s => ((Live (set_session (Some s) live), w), Ok tt)
      | Err e => ((Live live, w), Err e)
      | Panic f => ((Live live, w), Panic f)
      end
  | Scripted transport _ => ((Scripted transport true, w), Ok tt)
  end.

Definition scripted {A} (r : result Error A) : result (Halt Error) A := map_err Failed r.

(** A method of the open session. *)
Definition on_session {A} (live : LiveLink) (socket : UdpSocket) (st : SessionState) (m : M (SessionState * World) (Halt DtlsError) A)
    : lio A := fun '(_, w) =>
  let '((st, w), r) := converted (map_halt EDtls) m (st, w) in
  ((Live (set_session (Some (socket, st)) live), w), r).

Definition send (message : CoapMessage) : lio unit := fun '(l, w) =>
  match l with
  | Live live =>
      match session live with
      | None => ((l, w), Err (Failed (EInvalidState "DTLS session is not established")))
      | Some (socket, st) =>
          match CoapMessage_encode message with
          | Ok wire => on_session live socket st (DtlsSession_send_application_data socket wire) (l, w)
          | Err e => ((l, w), Err (Failed e))
          | Panic f => ((l, w), Panic f)
          end
      end
  | Scripted transport open =>
      let '(transport, r) := Harness.record_sent message transport in ((Scripted transport open, w), scripted r)
  end.

Definition send_request (message : CoapMessage) : lio unit := fun '(l, w) =>
  match l with
  | Live _ => send message (l, w)
  | Scripted transport open =>
      let '(transport, r) := Harness.exchange message transport in ((Scripted transport open, w), scripted r)
  end.

(** The loop of [recv] on a live link, a turn for each window that passes. *)
Fixpoint recv_loop (fuel : nat) (socket : UdpSocket) : M (SessionState * World) (Halt DtlsError) bytes := fun sw =>
  match fuel with
  | O => (sw, if is_empty (arrivals sw.2) then Err Pending else Panic OutOfFuel)
  | S fuel =>
      match DtlsSession_recv_application_data socket RECEIVE_WINDOW sw with
      | (sw, Err (Failed (DTimeout _))) => recv_loop fuel socket sw
      | r => r
      end
  end.
(** Enough turns to reach the last arrival and the first timer. *)
Definition horizon (w : World) : Z := foldr Z.max (Driver.clock w) (map fst (arrivals w) ++ timers w).
Definition recv_turns (w : World) : nat := S (Z.to_nat ((horizon w - Driver.clock w) / RECEIVE_WINDOW)).

Definition SCRIPTED_TRANSPORT_FAILURE : Error := EIo "scripted transport failure".
Definition recv : lio bytes := fun '(l, w) =>
  match l with
  | Live live =>
      match session live with
      | None => ((l, w), Err Pending)
      | Some (socket, st) => on_session live socket st (recv_loop (recv_turns w) socket) (l, w)
      end
  | Scripted transport open =>
      if negb open then ((l, w), Err Pending)
      else
        let '(transport, next) := Harness.next_incoming transport in
        ((Scripted transport open, w),
         match next with
         | Some (Harness.Message message) => scripted (CoapMessage_encode message)
         | Some Harness.IncomingPeerClosed => Err (Failed (EDtls DPeerClosed))
         | Some Harness.IncomingTransportFailure => Err (Failed SCRIPTED_TRANSPORT_FAILURE)
         | None => Err Pending
         end)
  end.

(** ** client/mod.rs: starting a session *)

Section Start.
Context {JH : JoinerHandler} {OR : OsRng} {JS : JoinerSessions}.

(** [spawn]: the task starts with a new driver; the initial events are published
    to the first subscription. *)
Definition spawn (now : Clock) (g : os_rng) (initial_events : list CommissionerEvent) : SessionDriver.State :=
  SessionDriver.mkState Driver_new now g [] [] PrefixCache_default (map Published initial_events).

Definition connect_only (config : CommissionerConfig) (border_agent : SocketAddr.SocketAddr) (now : Clock) (g : os_rng)
    : M World (Halt Error) (Link * SessionDriver.State) :=
  let* _ := mlift (map_err Failed (validate config)) in
  if enable_ccm config then merr (Failed (EUnsupported "CCM is reserved but deferred"))
  else
    let* link := Link_connect border_agent (cfg_pskc config) in
    mret (link, spawn now g []).

(** [connect_scripted]. *)
Definition connect_scripted (config : CommissionerConfig) (transport : Harness.ScriptState) (initial_events : list CommissionerEvent)
    (now : Clock) (g : os_rng) : result Error (Link * SessionDriver.State) :=
  let! _ := validate config in
  Ok (Scripted transport true, spawn now g initial_events).

(** [request_token] and [set_token]. *)
Definition request_token (_registrar : SocketAddr.SocketAddr) : result Error bytes := Err (EUnsupported "CCM token request is deferred").
Definition set_token (_signed_token : bytes) : result Error unit := Err (EUnsupported "CCM token support is deferred").
End Start.

(** ** A live link *)

Section Live.
Context {HL : HashLaws} {AL : AeadLaws} {CL : CurveLaws} {RL : RngLaws}.

Definition link_ok (l : Link) : Prop :=
  match l with Live live => match session live with Some (_, st) => keys_ok st | None => True end | Scripted _ _ => False end.
Definition traffic_ok : Prop :=
  forall socket, Forall (fun x => match x.2 with Datagram d _ => bytes_ok d | Failure _ => True end) (traffic socket).
Definition quiet_world (w : World) : Prop := Forall arrival_ok (arrivals w) /\ Forall (Z.le (Driver.clock w)) (timers w).

Lemma arrivals_ok socket : traffic_ok -> Forall arrival_ok (tokio_arrivals socket).
Proof.
  intros H. unfold tokio_arrivals. apply Forall_map. eapply Forall_impl; [apply H|]. intros [t [d r|e]] Hd; [|done].
  cbn in *. destruct (local_addr socket); [done|]. by apply Forall_take.
Qed.

(** The operation ends by [duration], with a value, an error or an outer timer. *)
Definition settles {A} (duration : Z) (Q : A -> Prop) (w : World) (x : World * result (Halt Error) A) : Prop :=
  quiet_world x.1 /\ timers x.1 = timers w /\ Driver.clock w <= Driver.clock x.1 <= Driver.clock w + duration /\
  match x.2 with
  | Ok a => Q a
  | Err (Failed _) => True
  | Err (Preempted n) => timers w !! n = Some (Driver.clock x.1)
  | Err Pending => False
  | Panic _ => False
  end.

Lemma settles_fail {A} duration (Q : A -> Prop) w e : 0 <= duration -> quiet_world w -> settles duration Q w (w, Err (Failed e)).
Proof. intros Hd Hw. split; [done|]. split; [done|]. split; [cbn; lia|done]. Qed.

Lemma timeout_settles {A} late duration (Q : A -> Prop) m w : 0 <= duration -> quiet_world w ->
  (forall w0, quiet_world w0 -> settles duration Q w0 (m w0)) -> settles duration Q w (tokio_timeout late duration m w).
Proof.
  intros Hd [Ha Ht] Hm. unfold tokio_timeout. set (w0 := set_timers _ w).
  assert (quiet_world w0) as H0 by (split; [done|constructor; [cbn; lia|done]]).
  destruct (Hm w0 H0) as ([Ha1 Ht1] & Et & Hc & Hq). destruct (m w0) as [w1 r]. cbn [fst snd] in *. cbn in Hc.
  rewrite Et in Ht1. apply Forall_cons in Ht1 as [_ Ht1]. split; [by split|]. split; [done|]. split; [done|].
  destruct r as [a|[e|[|n]|]|f]; done.
Qed.

Lemma connect_settles socket secret duration w : 0 <= duration -> quiet_world w ->
  settles duration keys_ok w (converted (map_halt EDtls) (DtlsSession_connect_with_rng socket secret duration) w).
Proof.
  intros Hd [Ha Ht]. unfold converted at 1, DtlsSession_connect_with_rng, io_result.
  destruct (local_addr socket) as [e|local]; [by apply settles_fail|].
  destruct (peer_addr socket) as [e|peer]; [by apply settles_fail|].
  unfold mbind, mret, converted. unfold connect_with_rng, with_timeout.
  rewrite (mbind_step _ _ _ _ _ (sleep_ok duration w Hd)).
  pose proof (race_ends (fun s _ => keys_ok s) (connect_inner local peer secret) (Driver.clock w + duration) w Ha ltac:(lia) Ht) as Hr.
  destruct (race_expiry _ _ w) as [w' r]. destruct Hr as (Ha' & Ht' & (E & Hc & _) & Hx & Hq).
  { intros w0 H0 _ _ _. by apply connect_inner_ends. }
  split; [by split|]. split; [done|]. split; [done|]. destruct r as [a|[e|n|]|f]; try done. by destruct Hq as (w1 & ? & _).
Qed.

Lemma handshake_settles a secret w : traffic_ok -> quiet_world w ->
  settles DTLS_HANDSHAKE_TIMEOUT (fun s => keys_ok s.2) w (handshake a secret w).
Proof.
  intros Hok Hw. unfold handshake, open_socket, mbind at 1 2 3, mget.
  destruct (udp_bind _ _) as [e|socket]; [by apply settles_fail|]. unfold mret, mbind at 1.
  destruct (udp_connect a socket) as [e|socket']; [by apply settles_fail|]. unfold mset, mbind at 1 2.
  set (w1 := set_arrivals (tokio_arrivals socket') w).
  assert (quiet_world w1) as H1 by (split; [by apply arrivals_ok|apply Hw]).
  destruct (timeout_settles (ETimeout "DTLS handshake timed out") DTLS_HANDSHAKE_TIMEOUT keys_ok
    (converted (map_halt EDtls) (DtlsSession_connect_with_rng socket' secret DTLS_HANDSHAKE_TIMEOUT)) w1 ltac:(by_decide) H1) as (Hq & Et & Hc & Hr).
  { intros w0 H0. by apply connect_settles. }
  unfold mbind. destruct (tokio_timeout _ _ _ w1) as [w2 r]. cbn [fst snd] in *. by destruct r as [s|[e|n|]|f].
Qed.

(** ** Receiving *)

Definition received_ok (w : World) (w' : World) (r : result (Halt DtlsError) bytes) : Prop :=
  match r with
  | Ok p => bytes_ok p
  | Err (Failed e) => forall msg, e <> DTimeout msg
  | Err (Preempted n) => timers w !! n = Some (Driver.clock w')
  | Err Pending => timers w = [] /\ arrivals w' = []
  | Panic _ => False
  end.

Definition receives_ok (w : World) (x : (SessionState * World) * result (Halt DtlsError) bytes) : Prop :=
  keys_ok x.1.1 /\ quiet_world x.1.2 /\ timers x.1.2 = timers w /\ Driver.clock w <= Driver.clock x.1.2 /\ received_ok w x.1.2 x.2.

Lemma window_receives socket st w : keys_ok st -> quiet_world w ->
  let '((st', w'), r) := DtlsSession_recv_application_data socket RECEIVE_WINDOW (st, w) in
  match r with
  | Err (Failed (DTimeout _)) =>
      keys_ok st' /\ quiet_world w' /\ timers w' = timers w /\ suffix (arrivals w') (arrivals w) /\
      Driver.clock w' = Driver.clock w + RECEIVE_WINDOW /\ drained w'
  | _ => r <> Err Pending /\ receives_ok w ((st', w'), r)
  end.
Proof.
  intros Hk [Ha Ht]. unfold DtlsSession_recv_application_data, io_result.
  destruct (peer_addr socket) as [e|peer]; [by cbn; split|]. unfold mbind, mret, converted.
  pose proof (recv_window peer RECEIVE_WINDOW st w ltac:(by_decide) Hk Ha Ht) as Hw.
  destruct (recv_application_data (NN := tokio_net) peer RECEIVE_WINDOW (st, w)) as [[st' w'] r].
  destruct Hw as (Hk' & Ha' & Ht' & (Et & Hc & _) & Hsuf & _ & Hr).
  destruct r as [p|[[e|e|]|n|]|f]; cbn [map_err of_stop of_driver_error] in *; try done.
  - destruct Hr as [_ Hn]. destruct e; try done. by destruct (Hn msg).
  - destruct Hr as [Hr _]. by destruct (Hr eq_refl).
Qed.

Lemma link_recv_loop_ends fuel socket st w H : keys_ok st -> quiet_world w -> Forall (fun x => x.1 <= H) (arrivals w) ->
  Forall (fun t => t <= H) (timers w) -> H < Driver.clock w + Z.of_nat fuel * RECEIVE_WINDOW -> (fuel = O -> drained w) ->
  receives_ok w (recv_loop fuel socket (st, w)).
Proof.
  revert st w. induction fuel as [|fuel IH]; intros st w Hk Hw Ha Ht Hf Hd; cbn [recv_loop].
  - assert (arrivals w = []) as Hnone.
    { specialize (Hd eq_refl). unfold drained in Hd. destruct (arrivals w) as [|[t a] l]; [done|]. apply Forall_cons in Ha as [Ha _]. cbn in *. lia. }
    assert (timers w = []) as Hnot.
    { destruct Hw as [_ Hw]. destruct (timers w) as [|t l]; [done|]. apply Forall_cons in Hw as [Hw _]. apply Forall_cons in Ht as [Ht _]. lia. }
    cbn [snd]. rewrite Hnone. split; [done|]. split; [done|]. split; [done|]. split; [cbn; lia|by split].
  - pose proof (window_receives socket st w Hk Hw) as Hr.
    destruct (DtlsSession_recv_application_data socket RECEIVE_WINDOW (st, w)) as [[st' w'] r].
    destruct r as [p|[e|n|]|f]; try (by destruct Hr). destruct e as [m|m|m| |m]; try (by destruct Hr).
    destruct Hr as (Hk' & Hw' & Et & [pre Hsuf] & Hc & Hdr).
    destruct (IH st' w') as (H1 & H2 & H3 & H4 & H5); [done|done| |by rewrite Et|lia|done|].
    + rewrite Hsuf in Ha. by apply Forall_app in Ha as [_ ?].
    + split; [done|]. split; [done|]. split; [congruence|]. split; [unfold RECEIVE_WINDOW, seconds in *; lia|].
      unfold received_ok in *. by rewrite Et in H5.
Qed.

Lemma horizon_bounds w : Forall (fun x => x.1 <= horizon w) (arrivals w) /\ Forall (fun t => t <= horizon w) (timers w).
Proof.
  destruct (foldr_max_spec (Driver.clock w) (map fst (arrivals w) ++ timers w)) as [_ H]. apply Forall_app in H as [H1 H2].
  split; [exact (proj1 (Forall_fmap fst _ _) H1)|done].
Qed.
Lemma recv_session_ends socket st w : keys_ok st -> quiet_world w -> receives_ok w (recv_loop (recv_turns w) socket (st, w)).
Proof.
  intros Hk Hw. destruct (horizon_bounds w). apply (link_recv_loop_ends _ _ _ _ (horizon w)); try done.
  destruct (foldr_max_spec (Driver.clock w) (map fst (arrivals w) ++ timers w)) as [Hc _]. fold (horizon w) in Hc.
  unfold recv_turns. rewrite Nat2Z.inj_succ, Z2Nat.id by (apply Z.div_pos; [lia|done]).
  pose proof (Z.mod_pos_bound (horizon w - Driver.clock w) RECEIVE_WINDOW ltac:(done)).
  pose proof (Z.div_mod (horizon w - Driver.clock w) RECEIVE_WINDOW ltac:(done)). nia.
Qed.

(** ** The link of the session task *)

Lemma send_session_ends socket wire st w : keys_ok st ->
  let '((st', w'), r) := DtlsSession_send_application_data socket wire (st, w) in
  keys_ok st' /\ Driver.clock w' = Driver.clock w /\ timers w' = timers w /\ arrivals w' = arrivals w /\
  match r with Ok _ | Err (Failed _) => True | _ => False end.
Proof.
  intros Hk. unfold DtlsSession_send_application_data, io_result.
  destruct (local_addr socket) as [e|local]; [done|]. destruct (peer_addr socket) as [e|peer]; [done|].
  unfold mbind, mret, converted, on_state, mzoom. cbn [fst snd].
  destruct (session_protect_ok CtApplicationData wire st Hk) as [Hs Hk'].
  unfold protect_application_data. destruct (protect_record CtApplicationData wire st) as [st' [record|e|f]]; [|done|done].
  cbn [fst snd map_err] in *. unfold on_world, mzoom. cbn [snd]. unfold send_records, mbind, proto, mlift.
  pose proof (encode_datagram_safe [record]) as He. destruct (encode_datagram [record]) as [d|e|f]; [|done|done].
  cbn [map_err]. unfold Driver.send. by destruct (head (Driver.send_results w)) as [[e|]|].
Qed.

Section Driver.
Context {JH : JoinerHandler} {OR : OsRng} {JS : JoinerSessions}.

(** C13: A live link is the link that the session task works with.  Over a socket
    on which anything arrives, at any time: a send goes out or fails with an
    error of the session, at once; a new session is opened, or reported to have
    failed and the link left closed, within the handshake budget; a receive
    returns what a peer with the session's keys protected, or an error that is
    not a timeout, for its windows are repeated, and waits for ever only when
    nothing is left to arrive and no timer runs.  What each returns is what the
    link of [SessionDriver] returns for some outcome, open and closed agree, and
    nothing panics. *)
Theorem live_link_implements_link live w s m :
  link_ok (Live live) -> traffic_ok -> quiet_world w -> link_open (driver s) = is_open (Live live) ->
  (let '((l', w'), r) := send m (Live live, w) in
   link_ok l' /\ is_open l' = is_open (Live live) /\ Driver.clock w' = Driver.clock w /\
   exists o, r = map_err Failed (link_send m (with_send_results [o] s)).2) /\
  (timers w = [] ->
   let '((l', w'), r) := reopen (Live live, w) in
   link_ok l' /\ Driver.clock w' <= Driver.clock w + DTLS_HANDSHAKE_TIMEOUT /\
   exists o, r = map_err Failed (link_reopen (with_reopen_results [o] s)).2 /\
     is_open l' = link_open (driver (link_reopen (with_reopen_results [o] s)).1)) /\
  (let '((l', w'), r) := recv (Live live, w) in
   link_ok l' /\ is_open l' = is_open (Live live) /\
   match r with
   | Ok d => is_open (Live live) = true /\ bytes_ok d
   | Err (Failed e) => exists d, e = EDtls d /\ forall msg, d <> DTimeout msg
   | Err (Preempted n) => timers w !! n = Some (Driver.clock w')
   | Err Pending => is_open (Live live) = false \/ timers w = [] /\ arrivals w' = []
   | Panic _ => False
   end) /\
  is_open (close (Live live)) = link_open (driver (@link_close _ _ _ Error s).1).
Proof.
  intros Hl Htr Hw Ho. split; [|split; [|split; [|done]]].
  - unfold send, link_send, mbind, get, mget. change (link_open (driver (with_send_results _ s))) with (link_open (driver s)). rewrite Ho.
    cbn [is_open link_ok] in *. destruct (session live) as [[socket st]|] eqn:Es; cbn [negb].
    2: { cbn [link_ok is_open]. rewrite Es. split; [done|]. split; [done|]. split; [done|]. by exists None. }
    unfold mlift. pose proof (CoapMessage_encode_safe m) as Hm. destruct (CoapMessage_encode m) as [wire|e|f]; [| |done].
    2: { cbn [link_ok is_open]. rewrite Es. split; [done|]. split; [done|]. split; [done|]. by exists None. }
    unfold on_session, converted. pose proof (send_session_ends socket wire st w Hl) as Hsend.
    destruct (DtlsSession_send_application_data socket wire (st, w)) as [[st' w'] r]. destruct Hsend as (Hk & Hc & _ & _ & Hr).
    split; [done|]. split; [done|]. split; [done|]. destruct r as [[]|[e|n|]|f]; try done; [by exists None|by exists (Some e)].
  - intros Ht. unfold reopen. cbn [link_ok border_agent pskc set_session].
    pose proof (handshake_settles (border_agent live) (pskc live) w Htr Hw) as (Hw' & Et & Hc & Hr).
    destruct (handshake (border_agent live) (pskc live) w) as [w' r]. cbn [fst snd] in *.
    destruct r as [[socket st]|[e|n|]|f]; try done.
    + split; [done|]. split; [lia|]. by exists None.
    + split; [done|]. split; [lia|]. by exists (Some e).
    + by rewrite Ht in Hr.
  - unfold recv. cbn [is_open link_ok] in *. destruct (session live) as [[socket st]|] eqn:Es.
    2: { cbn [link_ok is_open]. rewrite Es. split; [done|]. split; [done|]. by left. }
    unfold on_session, converted. destruct (recv_session_ends socket st w Hl Hw) as (Hk & _ & _ & _ & Hr).
    destruct (recv_loop (recv_turns w) socket (st, w)) as [[st' w'] r]. cbn [fst snd] in *. split; [done|]. split; [done|].
    destruct r as [d|[e|n|]|f]; cbn in *; try done; [by exists e|by right].
Qed.
End Driver.
End Live.
End Link.

(** ** Witness *)

(** A session whose border agent sends one message, and a network that is then
    gone: no new socket can be bound. *)
Section Witness.
#[local] Existing Instance Toy.toy_hash.
#[local] Existing Instance Toy.toy_hash_laws.
#[local] Existing Instance Toy.toy_aead.
#[local] Existing Instance Toy.toy_aead_laws.
#[local] Existing Instance ToyCurve.toy_curve.
#[local] Existing Instance ToyCurve.toy_curve_laws.
#[local] Existing Instance ToyCurve.toy_rng.
#[local] Existing Instance ToyCurve.toy_rng_laws.

Definition agent : SocketAddr.SocketAddr := SocketAddrV4 [192; 0; 2; 1] 49191.
Definition host : SocketAddr.SocketAddr := SocketAddrV4 [192; 0; 2; 9] 40000.
#[local] Instance toy_os : Os := {|
  UdpSocket := unit;
  udp_bind := fun _ _ => inl "network is unreachable"%string;
  udp_connect := fun _ s => inr s;
  local_addr := fun _ => inr host;
  peer_addr := fun _ => inr agent;
  traffic := fun _ => [] |}.

Definition keys (role : SessionRole) : SessionState :=
  SessionState_new (mkKeyMaterial [] (mkKeyBlock (repeat 1 16) (repeat 2 16) (repeat 3 4) (repeat 4 4))) role.
Definition greeting : bytes :=
  match (let! r := (protect_application_data [1; 2] (keys RoleOfServer)).2 in encode_datagram [r]) with Ok d => d | _ => [] end.
Definition toy_world : @World tokio_net _ _ :=
  mkWorld 0 [] [(SECOND, @Rx tokio_net greeting host agent)] [] [] (1 : @rng ToyCurve.toy_curve ToyCurve.toy_rng).
Definition toy_live : LiveLink := mkLiveLink agent (repeat 5 16) (Some (tt, keys RoleOfClient)).

Import ToySession.
Lemma live_link_implements_link_witness :
  (recv (Live toy_live, toy_world)).2 = Ok [1; 2] /\
  let '((l', w'), r) := reopen (Live toy_live, toy_world) in
  link_ok l' /\ Driver.clock w' <= DTLS_HANDSHAKE_TIMEOUT /\
  exists o, r = map_err Failed (link_reopen (with_reopen_results [o] toy_start)).2 /\
    is_open l' = link_open (driver (link_reopen (with_reopen_results [o] toy_start)).1).
Proof.
  split; [vm_compute; reflexivity|].
  refine (proj1 (proj2 (live_link_implements_link toy_live toy_world toy_start (empty_ack 1) _ _ _ _)) eq_refl);
    [split; [repeat split|constructor]|intros ?; constructor|split; [repeat constructor; by_decide|constructor]|reflexivity].
Defined.
End Witness.
