(* ===== verification/CliInterpreter.v ===== *)
(** * CliInterpreter: the commands of the command line

    The model of crates/ot-commissioner-cli/src/cli/interpreter/ (mod.rs,
    session.rs, datasets.rs, joiner.rs, management.rs, misc.rs,
    network_diagnostics.rs and support.rs) and of the loop of cli/mod.rs.  A
    command is a program [Cmd]: it awaits operations of the commissioner of a
    session ([Call], whose programs are those of [Client]), installs joiner
    handlers ([set_joiner_handler] of [Client]), reads the watched status, opens
    sessions and drains events.  A session is a number; the commissioner and the
    event stream the interpreter holds are the number of theirs. *)
From stdpp Require Import gmap.
From S2P Require Import Prelude Text Hex Tlv Errors Dataset Coap NetDiag Messages Ipv6 SocketAddr.
From S2P Require Import Crypto Joiner Pskc Commissioner Client Cli CliConfig CliJson.
#[local] Existing Instance static_joiner_handler.

(** ** Command programs *)

(** The values of a type of the model that a Rust value of the type it stands
    for can have. *)
Class Typed (X : Type) := typed : X -> Prop.
#[export] Instance unit_typed : Typed unit := fun _ => True.
#[export] Instance Z_typed : Typed Z := fun _ => True.
#[export] Instance PetitionResponse_typed : Typed PetitionResponse := fun _ => True.
#[export] Instance NetDiagData_typed : Typed NetDiagData := fun _ => True.
#[export] Instance Dataset_typed : Typed Dataset := fun d => TlvSet_wf (tlvs d).
Definition typed_result {X} `{Typed X} (r : Error + X) : Prop := match r with inl _ => True | inr x => typed x end.

Inductive Cmd (A : Type) : Type :=
  | Done (a : A)
  | Fault (f : fault)
  | Call (X : Type) (T : Typed X) (session : Z) (p : Prog X) (k : Error + X -> Cmd A)
  | Install (session : Z) (h : StaticJoinerHandler) (k : Error + unit -> Cmd A)
  | Status (session : Z) (k : SessionStatus -> Cmd A)
  | Connect (config : CommissionerConfig) (address : SocketAddr) (k : Error + Z -> Cmd A)
  (** The events that come before the deadline, and whether the stream ended. *)
  | Drain (session : Z) (duration : Z) (k : list CommissionerEvent * bool -> Cmd A).
Arguments Done {A} a.
Arguments Fault {A} f.
Arguments Call {A X T} session p k.
Arguments Install {A} session h k.
Arguments Status {A} session k.
Arguments Connect {A} config address k.
Arguments Drain {A} session duration k.

Fixpoint cbind {A B} (m : Cmd A) (k : A -> Cmd B) : Cmd B :=
  match m with
  | Done a => k a
  | Fault f => Fault f
  | Call s p k' => Call s p (fun r => cbind (k' r) k)
  | Install s h k' => Install s h (fun r => cbind (k' r) k)
  | Status s k' => Status s (fun r => cbind (k' r) k)
  | Connect c a k' => Connect c a (fun r => cbind (k' r) k)
  | Drain s d k' => Drain s d (fun r => cbind (k' r) k)
  end.
Notation "'let>' x ':=' m 'in' k" := (cbind m (fun x => k)) (at level 10, x name, m at level 100, k at level 200).

Definition call {X} `{Typed X} (session : Z) (p : Prog X) : Cmd (Error + X) := Call session p Done.
(** [tokens[i]]. *)
Definition token (tokens : list bytes) (i : nat) : Cmd bytes :=
  match tokens !! i with Some t => Done t | None => Fault OutOfBounds end.

(** ** The interpreter *)

Record Interpreter := mkInterpreter {
  config : CliConfig;
  commissioner : option Z;
  events : option Z;
  joiner_pskds : gmap bytes bytes;
  joiner_all_pskd : option bytes;
  energy_reports : list (string * Z * bytes);
  panid_conflicts : list (string * Z * Z);
  should_exit : bool }.
Definition Interpreter_new (config : CliConfig) : Interpreter := mkInterpreter config None None ∅ None [] [] false.

Definition with_config (v : CliConfig) (s : Interpreter) : Interpreter :=
  mkInterpreter v (commissioner s) (events s) (joiner_pskds s) (joiner_all_pskd s) (energy_reports s) (panid_conflicts s) (should_exit s).
Definition with_commissioner (v : option Z) (s : Interpreter) : Interpreter :=
  mkInterpreter (config s) v (events s) (joiner_pskds s) (joiner_all_pskd s) (energy_reports s) (panid_conflicts s) (should_exit s).
Definition with_events (v : option Z) (s : Interpreter) : Interpreter :=
  mkInterpreter (config s) (commissioner s) v (joiner_pskds s) (joiner_all_pskd s) (energy_reports s) (panid_conflicts s) (should_exit s).
Definition with_joiner_pskds (v : gmap bytes bytes) (s : Interpreter) : Interpreter :=
  mkInterpreter (config s) (commissioner s) (events s) v (joiner_all_pskd s) (energy_reports s) (panid_conflicts s) (should_exit s).
Definition with_joiner_all_pskd (v : option bytes) (s : Interpreter) : Interpreter :=
  mkInterpreter (config s) (commissioner s) (events s) (joiner_pskds s) v (energy_reports s) (panid_conflicts s) (should_exit s).
Definition with_energy_reports (v : list (string * Z * bytes)) (s : Interpreter) : Interpreter :=
  mkInterpreter (config s) (commissioner s) (events s) (joiner_pskds s) (joiner_all_pskd s) v (panid_conflicts s) (should_exit s).
Definition with_panid_conflicts (v : list (string * Z * Z)) (s : Interpreter) : Interpreter :=
  mkInterpreter (config s) (commissioner s) (events s) (joiner_pskds s) (joiner_all_pskd s) (energy_reports s) v (should_exit s).
Definition with_should_exit (v : bool) (s : Interpreter) : Interpreter :=
  mkInterpreter (config s) (commissioner s) (events s) (joiner_pskds s) (joiner_all_pskd s) (energy_reports s) (panid_conflicts s) v.

(** A command: the new state and what it prints. *)
Notation Command := (Cmd (Interpreter * CommandValue)).
Definition failed (self : Interpreter) (message : string) : Command := Done (self, cv_fail (str_bytes message)).
Definition failed_bytes (self : Interpreter) (message : bytes) : Command := Done (self, cv_fail message).
Definition failed_with (self : Interpreter) (err : Error) : Command := Done (self, cv_fail (Error_to_string err)).
Definition conclude (self : Interpreter) (r : Error + unit) : Command := Done (self, cv_from_result r).
Definition okay (self : Interpreter) (data : bytes) : Command := Done (self, cv_ok data).

Definition SYNTAX_FEW_ARGS : string := "too few arguments".
Definition NOT_CONNECTED : string := "commissioner is not started; run 'start' first".

Definition few_args (self : Interpreter) : Command := failed self SYNTAX_FEW_ARGS.
(** [let Some(commissioner) = self.commissioner.as_ref() else { ... }]. *)
Definition connected (self : Interpreter) (k : Z -> Command) : Command :=
  match commissioner self with Some c => k c | None => failed self NOT_CONNECTED end.
Definition not_a_sub_command (self : Interpreter) (other : bytes) : Command :=
  failed_bytes self (other ++ str_bytes " is not a valid sub-command").

(** A fallible value: the command fails with the error's text. *)
Definition fallible {A} (self : Interpreter) (r : result Error A) (k : A -> Command) : Command :=
  match r with Ok a => k a | Err err => failed_with self err | Panic f => Fault f end.

Section Interpreter.
Context {HX : Hex} {JS : Json} {HS : Hash}.

(** ** Joiner handlers: joiner.rs *)

(** The map's order does not matter: its keys are distinct. *)
Definition build_joiner_handler (self : Interpreter) : StaticJoinerHandler :=
  let handler := match joiner_all_pskd self with
                 | Some pskd => enable_all StaticJoinerHandler_new pskd
                 | None => StaticJoinerHandler_new
                 end in
  fold_left (fun handler e => enable_joiner_id handler e.1 e.2) (map_to_list (joiner_pskds self)) handler.
Definition install_joiner_handler (self : Interpreter) (commissioner : Z) : Cmd (Error + unit) :=
  Install commissioner (build_joiner_handler self) Done.
Definition reinstall_joiner_handler (self : Interpreter) : Cmd (Error + unit) :=
  match commissioner self with
  | Some c => install_joiner_handler self c
  | None => Done (inr tt)
  end.
Definition reinstall (self : Interpreter) : Command := let> r := reinstall_joiner_handler self in conclude self r.

Definition FLAG_BORDER_AGENT_LOCATOR : Z := Z.shiftl 1 15.
Definition FLAG_JOINER_UDP_PORT : Z := Z.shiftl 1 10.
Definition ALL_FLAGS : Z := 2 ^ 64 - 1.
Definition FLAG_ACTIVE_TIMESTAMP : Z := Z.shiftl 1 15.

Definition cmd_border_agent (self : Interpreter) (tokens : list bytes) : Command :=
  if len tokens <? 2 then few_args self
  else
    let> sub := token tokens 1 in
    if is_str sub "discover" then failed self "mDNS border-agent discovery is not implemented in this build"
    else if is_str sub "get" then
      let> supported := if len tokens <? 3 then Done false else let> t := token tokens 2 in Done (is_str t "locator") in
      if negb supported then failed self "only 'borderagent get locator' is supported"
      else
        connected self (fun c =>
        let> r := call c (get_commissioner_dataset FLAG_BORDER_AGENT_LOCATOR) in
        match r with
        | inr dataset =>
            match Dataset_raw dataset TLV_BORDER_AGENT_LOCATOR with
            | Some [hi; lo] => okay self (hex_u16 (from_be [hi; lo]))
            | _ => failed self "border agent locator not present"
            end
        | inl err => failed_with self err
        end)
    else not_a_sub_command self sub.

Definition invalid_eui64 (self : Interpreter) (t : bytes) : Command :=
  failed_bytes self (str_bytes "invalid EUI-64 '" ++ t ++ str_bytes "'").

Definition joiner_enable (self : Interpreter) (c : Z) (tokens : list bytes) : Command :=
  if len tokens <? 5 then few_args self
  else
    let> t := token tokens 3 in
    match parse_u64 t with
    | None => invalid_eui64 self t
    | Some eui64 =>
        let> pskd := token tokens 4 in
        fallible self (compute_joiner_id eui64) (fun joiner_id =>
        let> r := call c (enable_joiner joiner_id) in
        match r with
        | inl err => failed_with self err
        | inr _ => reinstall (with_joiner_pskds (<[joiner_id := pskd]> (joiner_pskds self)) self)
        end)
    end.
Definition joiner_enable_all (self : Interpreter) (c : Z) (tokens : list bytes) : Command :=
  if len tokens <? 4 then few_args self
  else
    let> r := call c (enable_all_joiners true) in
    match r with
    | inl err => failed_with self err
    | inr _ =>
        let> pskd := token tokens 3 in
        reinstall (with_joiner_all_pskd (Some pskd) self)
    end.
Definition joiner_disable (self : Interpreter) (tokens : list bytes) : Command :=
  if len tokens <? 4 then few_args self
  else
    let> t := token tokens 3 in
    match parse_u64 t with
    | None => invalid_eui64 self t
    | Some eui64 =>
        fallible self (compute_joiner_id eui64) (fun joiner_id =>
        reinstall (with_joiner_pskds (delete joiner_id (joiner_pskds self)) self))
    end.
(** [result.and(self.reinstall_joiner_handler())]: the handler is installed
    first, whatever the result. *)
Definition joiner_disable_all (self : Interpreter) (c : Z) : Command :=
  let> result := call c (enable_all_joiners false) in
  let self := with_joiner_all_pskd None (with_joiner_pskds ∅ self) in
  let> installed := reinstall_joiner_handler self in
  conclude self (match result with inl err => inl err | inr _ => installed end).
Definition joiner_getport (self : Interpreter) (c : Z) : Command :=
  let> r := call c (get_commissioner_dataset FLAG_JOINER_UDP_PORT) in
  match r with
  | inr dataset =>
      match Dataset_raw dataset TLV_JOINER_UDP_PORT with
      | Some [hi; lo] => okay self (str_bytes (dec (from_be [hi; lo])))
      | _ => failed self "joiner UDP port not present"
      end
  | inl err => failed_with self err
  end.
Definition joiner_setport (self : Interpreter) (c : Z) (tokens : list bytes) : Command :=
  if len tokens <? 4 then few_args self
  else
    let> t := token tokens 3 in
    match parse_uint 16 t with
    | None => failed_bytes self (str_bytes "invalid port '" ++ t ++ str_bytes "'")
    | Some port =>
        let> r := call c (set_commissioner_dataset (Dataset_set_raw Dataset_default TLV_JOINER_UDP_PORT (to_be 2 port))) in
        conclude self r
    end.

Definition cmd_joiner (self : Interpreter) (tokens : list bytes) : Command :=
  if len tokens <? 3 then few_args self
  else
    let> subcommand := token tokens 1 in
    let> joiner_type := token tokens 2 in
    if is_str joiner_type "ae" || is_str joiner_type "nmkp"
    then failed_bytes self (str_bytes "joiner type '" ++ joiner_type ++ str_bytes "' (CCM) is not implemented in this build")
    else if negb (is_str joiner_type "meshcop")
    then failed_bytes self (joiner_type ++ str_bytes " is not a valid joiner type")
    else
      connected self (fun c =>
      if is_str subcommand "enable" then joiner_enable self c tokens
      else if is_str subcommand "enableall" then joiner_enable_all self c tokens
      else if is_str subcommand "disable" then joiner_disable self tokens
      else if is_str subcommand "disableall" then joiner_disable_all self c
      else if is_str subcommand "getport" then joiner_getport self c
      else if is_str subcommand "setport" then joiner_setport self c tokens
      else not_a_sub_command self subcommand).

(** ** session.rs *)

Definition with_status {A} (self : Interpreter) (k : option SessionStatus -> Cmd A) : Cmd A :=
  match commissioner self with Some c => Status c (fun status => k (Some status)) | None => k None end.

Definition cmd_state (self : Interpreter) : Command :=
  with_status self (fun status =>
  okay self (str_bytes (match status with
    | Some Connected | Some Idle => "connected"
    | Some Petitioning => "petitioning"
    | Some (Active _) => "active"
    | None | Some (Closed _) => "disabled"
    end))).
Definition cmd_active (self : Interpreter) : Command :=
  with_status self (fun status =>
  okay self (str_bytes (if match status with Some status => is_active status | None => false end then "true" else "false"))).
Definition cmd_sessionid (self : Interpreter) : Command :=
  with_status self (fun status =>
  match (status ← status; SessionStatus_session_id status) with
  | Some id => okay self (str_bytes (dec id))
  | None => failed self "commissioner session is not active"
  end).

Definition cmd_start (self : Interpreter) (tokens : list bytes) : Command :=
  if len tokens <? 3 then few_args self
  else
    let connect_only := existsb (fun t => is_str t "--connect-only") tokens in
    let> host := token tokens 1 in
    let> port := token tokens 2 in
    let text := host ++ str_bytes ":" ++ port in
    match SocketAddr_parse text with
    | None => failed_bytes self (str_bytes "invalid border-agent address '" ++ text ++ str_bytes "'")
    | Some address =>
        fallible self (to_commissioner_config (config self)) (fun cfg =>
        Connect cfg address (fun r =>
        match r with
        | inl err => failed_with self err
        | inr session =>
            let> installed := install_joiner_handler self session in
            match installed with
            | inl err => failed_with self err
            | inr _ =>
                let> petition_result :=
                  if connect_only then Done (inr tt)
                  else let> r := call session Commissioner_petition in
                       Done (match r with inl err => inl err | inr _ => inr tt end) in
                conclude (with_events (Some session) (with_commissioner (Some session) self)) petition_result
            end
        end))
    end.
Definition cmd_stop (self : Interpreter) : Command :=
  let self := with_events None self in
  match commissioner self with
  | Some c =>
      let self := with_commissioner None self in
      let> r := call c Commissioner_resign in conclude self r
  | None => Done (self, cv_done)
  end.

Definition cmd_config (self : Interpreter) (tokens : list bytes) : Command :=
  if len tokens <? 3 then few_args self
  else
    let> property := token tokens 2 in
    if negb (is_str property "pskc") && negb (is_str property "admincode")
    then failed_bytes self (property ++ str_bytes " is not a valid property")
    else
      let> sub := token tokens 1 in
      if is_str sub "get" then
        okay self (if is_str property "admincode" then cc_admin_code (config self)
                   else str_bytes (hex_encode (cc_pskc (config self))))
      else if is_str sub "set" then
        if len tokens <? 4 then few_args self
        else
          let> v := token tokens 3 in
          if is_str property "admincode"
          then Done (with_config (with_pskc v (with_admin_code v (config self))) self, cv_done)
          else
            match hex_decode (trim v) with
            | inr bytes => Done (with_config (with_pskc bytes (config self)) self, cv_done)
            | inl err => failed self ("invalid PSKc hex: " +:+ err)
            end
      else not_a_sub_command self sub.

(** ** datasets.rs *)

(** [serde_json::from_str(text).map_err(..).and_then(from_json)]. *)
Definition parse_dataset (text : bytes) (from_json : json -> result Error Dataset) : bytes + result Error Dataset :=
  match json_parse text with inl e => inl (str_bytes e) | inr v => inr (from_json v) end.
Definition with_parsed (self : Interpreter) (text : bytes) (from_json : json -> result Error Dataset) (k : Dataset -> Command) : Command :=
  match parse_dataset text from_json with
  | inl message => failed_bytes self message
  | inr r => fallible self r k
  end.

Definition cmd_comm_dataset (self : Interpreter) (tokens : list bytes) : Command :=
  if len tokens <? 2 then few_args self
  else
    connected self (fun c =>
    let> sub := token tokens 1 in
    if is_str sub "get" then
      let> r := call c (get_commissioner_dataset ALL_FLAGS) in
      match r with
      | inr dataset => okay self (dump (comm_dataset_to_json dataset))
      | inl err => failed_with self err
      end
    else if is_str sub "set" then
      if len tokens <? 3 then few_args self
      else
        let> text := token tokens 2 in
        with_parsed self text comm_dataset_from_json (fun dataset =>
        let> r := call c (set_commissioner_dataset dataset) in conclude self r)
    else not_a_sub_command self sub).

Definition cmd_bbr_dataset (self : Interpreter) (tokens : list bytes) : Command :=
  if len tokens <? 2 then few_args self
  else
    connected self (fun c =>
    let> sub := token tokens 1 in
    if is_str sub "get" then
      let> r := call c (get_bbr_dataset ALL_FLAGS) in
      match r with
      | inr dataset =>
          okay self (dump (json_object (map (fun e => ("Tlv" +:+ dec (ty e), json_string (str_bytes (hex_encode (value e)))))
                                          (entries (tlvs dataset)))))
      | inl err => failed_with self err
      end
    else if is_str sub "set" then failed self "bbrdataset set requires typed BBR TLVs not yet modeled in this build"
    else not_a_sub_command self sub).

Definition is_known_op_field (field : bytes) : bool :=
  existsb (is_str field) ["activetimestamp"; "channel"; "channelmask"; "xpanid"; "meshlocalprefix"; "networkmasterkey";
                          "networkname"; "panid"; "pskc"; "securitypolicy"]%string.

(** The closure that projects one field: [None] for a field that is absent or
    unknown. *)
Definition project_field (field : bytes) (dataset : Dataset) : result Error (option bytes) :=
  let hex v := str_bytes (hex_encode v) in
  if is_str field "activetimestamp" then
    map_ok (fmap (fun ts => dump (timestamp_json ts))) (Dataset_active_timestamp dataset)
  else if is_str field "channel" then map_ok (fmap (fun c => dump (channel_json c))) (Dataset_channel dataset)
  else if is_str field "channelmask" then map_ok (fmap (fun m => dump (channel_mask_json m))) (Dataset_channel_mask dataset)
  else if is_str field "xpanid" then map_ok (fmap hex) (Dataset_extended_pan_id dataset)
  else if is_str field "meshlocalprefix" then map_ok (fmap mesh_local_prefix_string) (Dataset_mesh_local_prefix dataset)
  else if is_str field "networkmasterkey" then map_ok (fmap hex) (Dataset_network_key dataset)
  else if is_str field "networkname" then Dataset_network_name dataset
  else if is_str field "panid" then map_ok (fmap hex_u16) (Dataset_pan_id dataset)
  else if is_str field "pskc" then Ok (hex <$> Dataset_pskc dataset)
  else if is_str field "securitypolicy" then map_ok (fmap (fun p => dump (security_policy_json p))) (Dataset_security_policy dataset)
  else Ok None.

Definition op_dataset_field_get (self : Interpreter) (field : bytes) : Command :=
  connected self (fun c =>
  let> r := call c (get_active_dataset ALL_FLAGS) in
  match r with
  | inl err => failed_with self err
  | inr dataset =>
      fallible self (project_field field dataset) (fun value =>
      match value with
      | Some value => okay self value
      | None =>
          if is_known_op_field field then failed_bytes self (field ++ str_bytes " is not present in the active dataset")
          else failed_bytes self (field ++ str_bytes " is not a valid property")
      end)
  end).

(** The closure that sets one field, an error as its text: [None] for a field
    that cannot be set. *)
Definition text_error {A} (r : result Error A) : result bytes A :=
  match r with Ok a => Ok a | Err e => Err (Error_to_string e) | Panic f => Panic f end.
Definition decode_hex (s : bytes) : result bytes bytes :=
  match hex_decode (trim s) with inr v => Ok v | inl e => Err (str_bytes e) end.
Definition set_field (field : bytes) (tokens : list bytes) : result bytes (option Dataset) :=
  let arg i := default [] (tokens !! i) in
  let set t v := Some (Dataset_set_raw Dataset_default t v) in
  if is_str field "channel" then
    let! page := ok_or (parse_u64 (arg 3%nat)) (str_bytes "invalid page") in
    let! number := ok_or (parse_u64 (arg 4%nat)) (str_bytes "invalid channel") in
    Ok (set DS_TLV_CHANNEL (Channel_to_value (mkChannel (wrap 8 page) (wrap 16 number))))
  else if is_str field "xpanid" then let! v := decode_hex (arg 3%nat) in Ok (set DS_TLV_EXTENDED_PAN_ID v)
  else if is_str field "networkmasterkey" then let! v := decode_hex (arg 3%nat) in Ok (set DS_TLV_NETWORK_KEY v)
  else if is_str field "networkname" then Ok (set DS_TLV_NETWORK_NAME (arg 3%nat))
  else if is_str field "panid" then let! panid := text_error (parse_panid (arg 3%nat)) in Ok (set DS_TLV_PAN_ID (to_be 2 panid))
  else if is_str field "pskc" then let! v := decode_hex (arg 3%nat) in Ok (set DS_TLV_PSKC v)
  else if is_str field "meshlocalprefix" then
    let! v := text_error (parse_mesh_local_prefix (arg 3%nat)) in Ok (set DS_TLV_MESH_LOCAL_PREFIX v)
  else if is_str field "securitypolicy" then
    let! rotation := ok_or (t ← tokens !! 3%nat; parse_uint 16 t) (str_bytes "invalid rotation time") in
    let! flag_bytes := decode_hex (arg 4%nat) in
    let! flags := ok_or (policy_flags_of flag_bytes) (str_bytes "flags must not be empty") in
    Ok (set DS_TLV_SECURITY_POLICY (SecurityPolicy_to_value (mkSecurityPolicy rotation (SecurityPolicyFlags_from_bits_retain flags))))
  else Ok None.

(** [get_active_dataset(..).await.and_then(|current| current.active_timestamp())]. *)
Definition current_timestamp (c : Z) : Cmd (Error + option Timestamp) :=
  let> r := call c (get_active_dataset FLAG_ACTIVE_TIMESTAMP) in
  match r with
  | inl err => Done (inl err)
  | inr current =>
      match Dataset_active_timestamp current with Ok ts => Done (inr ts) | Err err => Done (inl err) | Panic f => Fault f end
  end.
Definition op_dataset_field_set (self : Interpreter) (field : bytes) (tokens : list bytes) : Command :=
  match set_field field tokens with
  | Ok (Some dataset) =>
      connected self (fun c =>
      let> current := current_timestamp c in
      match current with
      | inl err => failed_with self err
      | inr current =>
          let seconds := match current with
                         | Some ts => add_or_panic 64 (Timestamp_seconds ts) 1
                         | None => Ok 1
                         end in
          fallible self seconds (fun seconds =>
          let dataset := Dataset_set_raw dataset DS_TLV_ACTIVE_TIMESTAMP
                           (Timestamp_to_value (Timestamp_from_components seconds 0 false)) in
          let> r := call c (set_active_dataset dataset) in conclude self r)
      end)
  | Ok None => failed_bytes self (field ++ str_bytes " cannot be set")
  | Err message => failed_bytes self message
  | Panic f => Fault f
  end.

Definition op_dataset_whole (self : Interpreter) (c : Z) (pending is_set : bool) (tokens : list bytes) : Command :=
  if is_set then
    if len tokens <? 4 then few_args self
    else
      let> text := token tokens 3 in
      with_parsed self text (fun v => op_dataset_from_json v pending) (fun dataset =>
      let> r := call c (if pending then set_pending_dataset dataset else set_active_dataset dataset) in conclude self r)
  else
    let> r := call c (if pending then get_pending_dataset ALL_FLAGS else get_active_dataset ALL_FLAGS) in
    match r with
    | inr dataset => fallible self (op_dataset_to_json dataset pending) (fun value => okay self (dump value))
    | inl err => failed_with self err
    end.
Definition cmd_op_dataset (self : Interpreter) (tokens : list bytes) : Command :=
  if len tokens <? 3 then few_args self
  else
    let> sub := token tokens 1 in
    if negb (is_str sub "get") && negb (is_str sub "set") then not_a_sub_command self sub
    else
      let is_set := is_str sub "set" in
      connected self (fun c =>
      let> field := token tokens 2 in
      if is_str field "active" || is_str field "pending" then op_dataset_whole self c (is_str field "pending") is_set tokens
      else if is_set then op_dataset_field_set self field tokens
      else op_dataset_field_get self field).

(** ** misc.rs *)

Definition record_event (event : CommissionerEvent) (self : Interpreter) : Interpreter * option bytes :=
  match event with
  | EvEnergyReport peer_addr channel_mask energy_list =>
      (with_energy_reports (energy_reports self ++ [(peer_addr, channel_mask, energy_list)]) self, None)
  | EvPanIdConflict peer_addr channel_mask pan_id =>
      (with_panid_conflicts (panid_conflicts self ++ [(peer_addr, channel_mask, pan_id)]) self, None)
  | EvLagged missed =>
      (self, Some (str_bytes ("missed " +:+ dec missed +:+ " commissioner events; energy and PAN ID reports may be incomplete")))
  | _ => (self, None)
  end.
Fixpoint record_events (l : list CommissionerEvent) (self : Interpreter) : Interpreter * list bytes :=
  match l with
  | [] => (self, [])
  | event :: l =>
      let '(self, warning) := record_event event self in
      let '(self, warnings) := record_events l self in
      (self, match warning with Some w => w :: warnings | None => warnings end)
  end.
Fixpoint join_lines (l : list bytes) : bytes :=
  match l with
  | [] => []
  | [w] => w
  | w :: l => w ++ newline :: join_lines l
  end.
Definition pump_events (self : Interpreter) (duration : Z) : Command :=
  match events self with
  | None => okay self []
  | Some stream =>
      Drain stream duration (fun r =>
      let '(l, ended) := (r : list CommissionerEvent * bool) in
      let '(self, warnings) := record_events l self in
      okay (if ended then with_events None self else self) (join_lines warnings))
  end.

(** ** management.rs *)

Inductive ManagedCommand := McReenroll | McDomainReset | McMigrate.
Definition cmd_managed (self : Interpreter) (tokens : list bytes) (command : ManagedCommand) : Command :=
  let needed := match command with McMigrate => 3 | _ => 2 end in
  if len tokens <? needed then few_args self
  else
    let> t := token tokens 1 in
    match parse_addr t with
    | None => failed_bytes self (str_bytes "invalid device address '" ++ t ++ str_bytes "'")
    | Some dst =>
        connected self (fun c =>
        match command with
        | McReenroll => let> r := call c (command_reenroll dst) in conclude self r
        | McDomainReset => let> r := call c (command_domain_reset dst) in conclude self r
        | McMigrate => let> network := token tokens 2 in let> r := call c (command_migrate dst network) in conclude self r
        end)
    end.

Definition cmd_mlr (self : Interpreter) (tokens : list bytes) : Command :=
  if len tokens <? 3 then few_args self
  else
    let> last := token tokens (length tokens - 1) in
    match parse_uint 32 last with
    | None => failed self "invalid timeout"
    | Some timeout =>
        fallible self (slice tokens 1 (len tokens - 1)) (fun addresses =>
        connected self (fun c =>
        let> r := call c (register_multicast_listener addresses timeout) in
        match r with
        | inr status => okay self (str_bytes (dec status))
        | inl err => failed_with self err
        end))
    end.

Definition cmd_announce (self : Interpreter) (tokens : list bytes) : Command :=
  if len tokens <? 5 then few_args self
  else
    let> t1 := token tokens 1 in
    let> t2 := token tokens 2 in
    let> t3 := token tokens 3 in
    let> t4 := token tokens 4 in
    match parse_u32 t1, parse_uint 8 t2, parse_uint 16 t3, parse_addr t4 with
    | Some mask, Some count, Some period, Some dst =>
        connected self (fun c => let> r := call c (announce_begin mask count period dst) in conclude self r)
    | _, _, _, _ => failed self "invalid announce arguments"
    end.

(** [format!("0x{mask:08x}")] of a [u32]. *)
Definition hex_u32 (n : Z) : bytes :=
  str_bytes ("0x" +:+ hex2 (n / 0x1000000) +:+ hex2 (n / 0x10000 mod 0x100) +:+ hex2 (n / 0x100 mod 0x100) +:+ hex2 (n mod 0x100)).

(** After a query: its failure, or the events of three seconds. *)
Definition after_query (self : Interpreter) (c : Z) (p : Prog unit) : Command :=
  let> r := call c p in
  match r with
  | inl err => failed_with self err
  | inr _ => pump_events self (seconds 3)
  end.
Definition panid_query (self : Interpreter) (tokens : list bytes) : Command :=
  if len tokens <? 5 then few_args self
  else
    let> t2 := token tokens 2 in
    let> t3 := token tokens 3 in
    let> t4 := token tokens 4 in
    match parse_u32 t2, parse_panid t3, parse_addr t4 with
    | Some mask, Ok panid, Some dst => connected self (fun c => after_query self c (pan_id_query mask panid dst))
    | _, _, _ => failed self "invalid panid query arguments"
    end.
Definition conflict_json (e : string * Z * Z) : json :=
  let '(peer, mask, p) := e in
  json_object [("Peer", json_string (str_bytes peer)); ("ChannelMask", json_string (hex_u32 mask)); ("PanId", json_string (hex_u16 p))]%string.
Definition panid_conflict (self : Interpreter) (tokens : list bytes) : Command :=
  if len tokens <? 3 then few_args self
  else
    let> t := token tokens 2 in
    match parse_panid t with
    | Ok panid =>
        okay self (dump (json_array (map conflict_json (List.filter (fun e : string * Z * Z => e.2 =? panid) (panid_conflicts self)))))
    | _ => failed self "invalid panid"
    end.
Definition cmd_panid (self : Interpreter) (tokens : list bytes) : Command :=
  if len tokens <? 2 then few_args self
  else
    let> sub := token tokens 1 in
    if is_str sub "query" then panid_query self tokens
    else if is_str sub "conflict" then panid_conflict self tokens
    else not_a_sub_command self sub.

Definition energy_scan_command (self : Interpreter) (tokens : list bytes) : Command :=
  if len tokens <? 7 then few_args self
  else
    let> t2 := token tokens 2 in
    let> t3 := token tokens 3 in
    let> t4 := token tokens 4 in
    let> t5 := token tokens 5 in
    let> t6 := token tokens 6 in
    match parse_u32 t2, parse_uint 8 t3, parse_uint 16 t4, parse_uint 16 t5, parse_addr t6 with
    | Some mask, Some count, Some period, Some duration, Some dst =>
        connected self (fun c => after_query self c (energy_scan mask count period duration dst))
    | _, _, _, _, _ => failed self "invalid energy scan arguments"
    end.
(** [*b as i8 as i64]. *)
Definition as_i8 (b : Z) : Z := if b <? 128 then b else b - 256.
Definition energy_json (e : string * Z * bytes) : json :=
  let '(peer, mask, l) := e in
  json_object [("Peer", json_string (str_bytes peer)); ("ChannelMask", json_string (hex_u32 mask));
               ("EnergyList", json_array (map (fun b => json_i64 (as_i8 b)) l))]%string.
Definition energy_report (self : Interpreter) (tokens : list bytes) : Command :=
  let filter := ipv6_display <$> (t ← tokens !! 2%nat; parse_addr t) in
  let reports := List.filter (fun e : string * Z * bytes => match filter with None => true | Some f => String.eqb f e.1.1 end)
                   (energy_reports self) in
  okay self (dump (json_array (map energy_json reports))).
Definition cmd_energy (self : Interpreter) (tokens : list bytes) : Command :=
  if len tokens <? 2 then few_args self
  else
    let> sub := token tokens 1 in
    if is_str sub "scan" then energy_scan_command self tokens
    else if is_str sub "report" then energy_report self tokens
    else not_a_sub_command self sub.

(** ** network_diagnostics.rs *)

Definition DEFAULT_NETDIAG_FLAGS : Z :=
  fold_left Z.lor [diag_flags.MAC_ADDR; diag_flags.MODE; diag_flags.CONNECTIVITY; diag_flags.ROUTE64; diag_flags.LEADER_DATA]
    diag_flags.EXT_MAC_ADDR.
Definition net_diag_json (data : NetDiagData) : json :=
  let fields := insert_some "ExtAddress" ((fun ext => json_string (str_bytes (hex_encode ext))) <$> ext_mac_addr data) [] in
  let fields := insert_some "Rloc16" ((fun rloc => json_string (hex_u16 rloc)) <$> mac_addr data) fields in
  let fields := insert_some "LeaderData"
    ((fun leader => json_object [("PartitionId", json_u64 (partition_id leader)); ("LeaderRouterId", json_u64 (leader_router_id leader))]%string)
       <$> leader_data data) fields in
  let fields := insert_some "Route64Routers" ((fun route => json_u64 (len (route_data route))) <$> route64 data) fields in
  let fields := insert_some "Addresses"
    ((fun addrs => json_array (map (fun a => json_string (str_bytes (ipv6_display a))) addrs)) <$> addresses data) fields in
  json_object fields.

Definition netdiag_query (self : Interpreter) (c : Z) (tokens : list bytes) : Command :=
  let query flags addr_token :=
    match parse_addr addr_token with
    | None => failed_bytes self (str_bytes "invalid address '" ++ addr_token ++ str_bytes "'")
    | Some dst =>
        let> r := call c (get_diagnostics dst flags) in
        match r with inr data => okay self (dump (net_diag_json data)) | inl err => failed_with self err end
    end in
  let> kind := token tokens 2 in
  if len tokens >=? 4 then
    if is_str kind "extaddr" then let> addr := token tokens 3 in query diag_flags.EXT_MAC_ADDR addr
    else if is_str kind "rloc16" then let> addr := token tokens 3 in query diag_flags.MAC_ADDR addr
    else failed_bytes self (kind ++ str_bytes " is not a valid type")
  else query DEFAULT_NETDIAG_FLAGS kind.
Definition netdiag_reset (self : Interpreter) (c : Z) (tokens : list bytes) : Command :=
  let> supported := if len tokens <? 4 then Done false else let> t := token tokens 2 in Done (is_str t "maccounters") in
  if negb supported then failed self "only 'netdiag reset maccounters <addr>' supported"
  else
    let> t := token tokens 3 in
    match parse_addr t with
    | None => failed_bytes self (str_bytes "invalid address '" ++ t ++ str_bytes "'")
    | Some dst => let> r := call c (diagnostic_reset (Some dst) diag_flags.MAC_COUNTERS) in conclude self r
    end.
Definition cmd_netdiag (self : Interpreter) (tokens : list bytes) : Command :=
  if len tokens <? 3 then few_args self
  else
    connected self (fun c =>
    let> sub := token tokens 1 in
    if is_str sub "query" then netdiag_query self c tokens
    else if is_str sub "reset" then netdiag_reset self c tokens
    else not_a_sub_command self sub).

(** ** help: misc.rs and the table of support.rs, a usage as its lines *)

Definition COMMANDS : list (string * list string) :=
  [("config", ["config get admincode"; "config set admincode <9-digits-thread-administrator-passcode>"; "config get pskc"; "config set pskc <pskc-hex-string>"]);
   ("start", ["start <border-agent-addr> <border-agent-port> [--connect-only]"; "start [ --nwk <network-alias-list | --dom <domain-alias>]"]);
   ("stop", ["stop"; "stop [ --nwk <network-alias-list | --dom <domain-alias>]"]);
   ("active", ["active"; "active [ --nwk <network-alias-list | --dom <domain-alias>]"]);
   ("token", ["token request <registrar-addr> <registrar-port>"; "token print"; "token set <signed-token-hex-string-file>"]);
   ("br", ["br list [--nwk <network-alias-list> | --dom <domain-name>]"; "br add <json-file-path>"; "br delete (<br-record-id> | --nwk <network-alias-list> | --dom <domain-name>)"; "br scan [--nwk <network-alias-list> | --dom <domain-name>] [--export <json-file-path>] [--timeout <ms>] [--netif <network-interface>]"]);
   ("domain", ["domain list [--dom <domain-name>]"]);
   ("network", ["network save <network-data-file>"; "network sync"; "network list [--nwk <network-alias-list> | --dom <domain-name>]"; "network select <extended-pan-id>|<name>|<pan-id>|none"; "network identify"]);
   ("sessionid", ["sessionid"]);
   ("borderagent", ["borderagent discover [<timeout-in-milliseconds>]"; "borderagent get locator"]);
   ("joiner", ["joiner enable (meshcop|ae|nmkp) <joiner-eui64> [<joiner-password>] [<provisioning-url>]"; "joiner enableall (meshcop|ae|nmkp) [<joiner-password>] [<provisioning-url>]"; "joiner disable (meshcop|ae|nmkp) <joiner-eui64>"; "joiner disableall (meshcop|ae|nmkp)"; "joiner getport (meshcop|ae|nmkp)"; "joiner setport (meshcop|ae|nmkp) <joiner-udp-port>"]);
   ("commdataset", ["commdataset get"; "commdataset set '<commissioner-dataset-in-json-string>'"]);
   ("opdataset", ["opdataset get activetimestamp"; "opdataset get channel"; "opdataset set channel <page> <channel> <delay-in-milliseconds>"; "opdataset get channelmask"; "opdataset set channelmask (<page> <channel-mask>)..."; "opdataset get xpanid"; "opdataset set xpanid <extended-pan-id>"; "opdataset get meshlocalprefix"; "opdataset set meshlocalprefix <prefix> <delay-in-milliseconds>"; "opdataset get networkmasterkey"; "opdataset set networkmasterkey <network-master-key> <delay-in-milliseconds>"; "opdataset get networkname"; "opdataset set networkname <network-name>"; "opdataset get panid"; "opdataset set panid <panid> <delay-in-milliseconds>"; "opdataset get pskc"; "opdataset set pskc <PSKc>"; "opdataset get securitypolicy"; "opdataset set securitypolicy <rotation-timer> <flags-hex>"; "opdataset get active"; "opdataset set active '<active-dataset-in-json-string>'"; "opdataset get pending"; "opdataset set pending '<pending-dataset-in-json-string>'"]);
   ("bbrdataset", ["bbrdataset get trihostname"; "bbrdataset set trihostname <TRI-hostname>"; "bbrdataset get reghostname"; "bbrdataset set reghostname <registrar-hostname>"; "bbrdataset get regaddr"; "bbrdataset get"; "bbrdataset set '<bbr-dataset-in-json-string>'"]);
   ("reenroll", ["reenroll <device-addr>"]);
   ("domainreset", ["domainreset <device-addr>"]);
   ("migrate", ["migrate <device-addr> <designated-network-name>"]);
   ("mlr", ["mlr (<multicast-addr>)+ <timeout-in-seconds>"]);
   ("announce", ["announce <channel-mask> <count> <period> <dst-addr>"]);
   ("panid", ["panid query <channel-mask> <panid> <dst-addr>"; "panid conflict <panid>"]);
   ("energy", ["energy scan <channel-mask> <count> <period> <scan-duration> <dst-addr>"; "energy report [<dst-addr>]"]);
   ("netdiag", ["netdiag query [extaddr | rloc16] <dest mesh local address>"; "netdiag reset maccounters <dest mesh local address>"]);
   ("state", ["state"]);
   ("exit", ["exit"]);
   ("quit", ["quit"; "(an alias to 'exit' command)"]);
   ("help", ["help [<command>]"])]%string.

(** [sort_unstable] of distinct names. *)
Fixpoint insert_name (n : string) (l : list string) : list string :=
  match l with
  | [] => [n]
  | m :: l' => if String.ltb n m then n :: l else m :: insert_name n l'
  end.
Definition sorted_names (l : list string) : list string := fold_right insert_name [] l.

Definition cmd_help (self : Interpreter) (tokens : list bytes) : Command :=
  if len tokens =? 1 then
    okay self (concat (map (fun name => str_bytes name ++ [newline]) (sorted_names (map fst COMMANDS))) ++
               [newline] ++ str_bytes "type 'help <command>' for help of specific command.")
  else
    let> t := token tokens 1 in
    match List.find (fun e : string * list string => is_str t e.1) COMMANDS with
    | Some (_, usage) => okay self (str_bytes "usage:" ++ newline :: join_lines (map str_bytes usage))
    | None => failed_bytes self (t ++ str_bytes " is not a valid command")
    end.

(** ** mod.rs *)

Definition dispatch (self : Interpreter) (tokens : list bytes) : Command :=
  let> name := token tokens 0 in
  let is_name := is_str name in
  if is_name "help" then cmd_help self tokens
  else if is_name "exit" || is_name "quit" then Done (with_should_exit true self, cv_done)
  else if is_name "config" then cmd_config self tokens
  else if is_name "state" then cmd_state self
  else if is_name "start" then cmd_start self tokens
  else if is_name "stop" then cmd_stop self
  else if is_name "active" then cmd_active self
  else if is_name "sessionid" then cmd_sessionid self
  else if is_name "borderagent" then cmd_border_agent self tokens
  else if is_name "joiner" then cmd_joiner self tokens
  else if is_name "commdataset" then cmd_comm_dataset self tokens
  else if is_name "opdataset" then cmd_op_dataset self tokens
  else if is_name "bbrdataset" then cmd_bbr_dataset self tokens
  else if is_name "reenroll" then cmd_managed self tokens McReenroll
  else if is_name "domainreset" then cmd_managed self tokens McDomainReset
  else if is_name "migrate" then cmd_managed self tokens McMigrate
  else if is_name "mlr" then cmd_mlr self tokens
  else if is_name "announce" then cmd_announce self tokens
  else if is_name "panid" then cmd_panid self tokens
  else if is_name "energy" then cmd_energy self tokens
  else if is_name "netdiag" then cmd_netdiag self tokens
  else if is_name "token" then failed self "CCM token support is not implemented in this build"
  else if is_name "br" || is_name "domain" || is_name "network"
  then failed self "the persistent network registry is not implemented in this build"
  else failed_bytes self (str_bytes "'" ++ name ++ str_bytes "' is not a valid command, type 'help' to list all commands").

(** What one line prints, if anything. *)
Definition evaluate (self : Interpreter) (line : bytes) : Cmd (Interpreter * option CommandValue) :=
  match tokenize line with
  | inl message => Done (self, Some (cv_fail (str_bytes message)))
  | inr [] => Done (self, None)
  | inr tokens =>
      if has_multi_network_flag tokens
      then Done (self, Some (cv_fail (str_bytes
             "multi-network selectors (--nwk/--dom) require the network registry, which is not implemented in this build")))
      else let> r := dispatch self tokens in Done (r.1, Some r.2)
  end.

Definition handle_background_event (event : CommissionerEvent) (self : Interpreter) : Interpreter * option bytes :=
  match event with
  | EvSessionLost reason => (self, Some (str_bytes "commissioner session lost: " ++ CloseReason_to_string reason))
  | _ => record_event event self
  end.

Definition shutdown (self : Interpreter) : Cmd (Interpreter * option CommandValue) :=
  let> running := with_status self (fun status =>
    Done (match status with None | Some (Closed _) => false | Some _ => true end)) in
  if (running : bool) then let> r := cmd_stop self in Done (r.1, Some r.2) else Done (self, None).

(** What wakes the loop: an event of the session, or none more, a line that is
    not blank, or the end of the input. *)
Inductive Input := InEvent (e : option CommissionerEvent) | InLine (line : bytes) | InEnd.

(** [run]: the lines that are written, in order. *)
Fixpoint repl (self : Interpreter) (inputs : list Input) : Cmd (Interpreter * list bytes) :=
  if should_exit self then Done (self, [])
  else
    match inputs with
    | [] | InEnd :: _ => Done (self, [])
    | InEvent None :: inputs => repl (with_events None self) inputs
    | InEvent (Some event) :: inputs =>
        let '(self, message) := handle_background_event event self in
        let> r := repl self inputs in
        Done (r.1, match message with Some m => render m Red :: r.2 | None => r.2 end)
    | InLine line :: inputs =>
        let> e := evaluate self line in
        let> r := repl e.1 inputs in
        Done (r.1, match e.2 with Some v => printed v :: r.2 | None => r.2 end)
    end.
Definition cli_run (config : CliConfig) (inputs : list Input) : Cmd (Interpreter * list bytes) :=
  let> r := repl (Interpreter_new config) inputs in
  let> e := shutdown r.1 in
  Done (e.1, match e.2 with Some v => r.2 ++ [printed v] | None => r.2 end).
End Interpreter.

Example help_sorted : sorted_names ["config"; "start"; "active"; "br"; "borderagent"]%string = ["active"; "borderagent"; "br"; "config"; "start"]%string.
Proof. reflexivity. Qed.
