(* ===== verification/CliSafety.v ===== *)
(** * CliSafety: what a command line can do

    [always] is the logic of command programs: whatever is answered, the
    program does not fault, and what it did ([effect]s, in order) and returns
    satisfy a predicate.  No line faults; without a session nothing but [start]
    reaches out; the joiner handler of the session is the one the user's
    joiners call for. *)
From stdpp Require Import gmap.
From S2P Require Import Prelude Text Hex Tlv Errors Dataset Coap NetDiag Messages Ipv6 SocketAddr.
From S2P Require Import Crypto Joiner Pskc Commissioner Client Cli CliConfig CliJson CliDatasets.
From S2P Require Import CliInterpreter.
#[local] Existing Instance static_joiner_handler.

(** ** The logic *)

Inductive effect : Type :=
  | Called (session : Z) (X : Type) (p : Prog X) (r : Error + X)
  | Installed (session : Z) (h : StaticJoinerHandler) (r : Error + unit)
  | Watched (session : Z) (status : SessionStatus)
  | Opened (config : CommissionerConfig) (address : SocketAddr) (r : Error + Z)
  | Drained (session : Z) (r : list CommissionerEvent * bool).
Arguments Called session {X} p r.

Fixpoint always {A} (m : Cmd A) (Q : list effect -> A -> Prop) : Prop :=
  match m with
  | Done a => Q [] a
  | Fault _ => False
  | Call s p k => forall r, typed_result r -> always (k r) (fun l a => Q (Called s p r :: l) a)
  | Install s h k => forall r, always (k r) (fun l a => Q (Installed s h r :: l) a)
  | Status s k => forall r, always (k r) (fun l a => Q (Watched s r :: l) a)
  | Connect c a k => forall r, always (k r) (fun l x => Q (Opened c a r :: l) x)
  | Drain s d k => forall r, always (k r) (fun l a => Q (Drained s r :: l) a)
  end.

Lemma always_mono {A} (m : Cmd A) (Q Q' : list effect -> A -> Prop) :
  (forall l a, Q l a -> Q' l a) -> always m Q -> always m Q'.
Proof.
  revert Q Q'. induction m as [a|f|X T s p k IH|s h k IH|s k IH|c a k IH|s d k IH]; intros Q Q' H; cbn; [apply H|done|..].
  1: intros Hm r Hr; eapply IH; [|by apply Hm]; cbn; auto.
  all: intros Hm r; eapply IH; [|apply Hm]; cbn; auto.
Qed.
Lemma always_bind {A B} (m : Cmd A) (k : A -> Cmd B) Q :
  always m (fun l a => always (k a) (fun l' b => Q (l ++ l') b)) -> always (cbind m k) Q.
Proof.
  revert Q. induction m as [a|f|X T s p k' IH|s h k' IH|s k' IH|c a k' IH|s d k' IH]; intros Q; cbn; [done|done|..].
  1: intros H r Hr; apply IH; by apply H.
  all: intros H r; apply IH, H.
Qed.

(** What is true of every effect and of the result. *)
Definition each {A} (E : effect -> Prop) (P : A -> Prop) (m : Cmd A) : Prop := always m (fun l a => Forall E l /\ P a).
Lemma each_done {A} (E : effect -> Prop) (P : A -> Prop) a : P a -> each E P (Done a).
Proof. by repeat constructor. Qed.
Lemma each_bind {A B} E (P : A -> Prop) (Q : B -> Prop) (m : Cmd A) k :
  each E P m -> (forall a, P a -> each E Q (k a)) -> each E Q (cbind m k).
Proof.
  intros Hm Hk. apply always_bind. eapply always_mono; [|exact Hm]. cbn. intros l a [Hl Ha].
  eapply always_mono; [|by apply Hk]. cbn. intros l' b [Hl' Hb]. split; [by apply Forall_app|done].
Qed.
Lemma each_step {A} (E : effect -> Prop) e (m : Cmd A) P : E e -> each E P m -> always m (fun l a => Forall E (e :: l) /\ P a).
Proof. intros He. apply always_mono. intros l a [Hl Ha]. split; [by constructor|done]. Qed.

(** ** Steps of commands *)

Section Steps.
Context (E : effect -> Prop) (P : Interpreter * CommandValue -> Prop).

Lemma each_token (tokens : list bytes) i (k : bytes -> Command) : (i < length tokens)%nat ->
  (forall t, tokens !! i = Some t -> each E P (k t)) -> each E P (let> t := token tokens i in k t).
Proof.
  intros Hi Hk. unfold token. destruct (tokens !! i) as [t|] eqn:Et; [by apply Hk|]. apply lookup_ge_None in Et. lia.
Qed.
Lemma each_token_bind {A} (tokens : list bytes) i (k : bytes -> Cmd A) (k' : A -> Command) : (i < length tokens)%nat ->
  (forall t, tokens !! i = Some t -> each E P (let> a := k t in k' a)) -> each E P (let> a := (let> t := token tokens i in k t) in k' a).
Proof.
  intros Hi Hk. unfold token. destruct (tokens !! i) as [t|] eqn:Et; [by apply Hk|]. apply lookup_ge_None in Et. lia.
Qed.
Lemma each_call {X} {T : Typed X} s (p : Prog X) (k : Error + X -> Command) : (forall r, E (Called s p r)) ->
  (forall r, typed_result r -> each E P (k r)) -> each E P (let> r := call s p in k r).
Proof. intros He Hk r Hr. cbn. apply each_step; [apply He|by apply Hk]. Qed.
Lemma each_connected self k : P (self, cv_fail (str_bytes NOT_CONNECTED)) -> (forall c, commissioner self = Some c -> each E P (k c)) ->
  each E P (connected self k).
Proof. intros Hf Hk. unfold connected. destruct (commissioner self) as [c|]; [by apply Hk|by apply each_done]. Qed.
Lemma each_fallible {A} self (r : result Error A) k : safe r -> (forall e, P (self, cv_fail (Error_to_string e))) ->
  (forall a, r = Ok a -> each E P (k a)) -> each E P (fallible self r k).
Proof. intros Hs Hf Hk. unfold fallible. destruct r as [a|e|f]; [by apply Hk|apply each_done, Hf|done]. Qed.
Lemma each_parsed {JS : Json} self text from_json k : (forall v, safe (from_json v)) -> (forall m, P (self, cv_fail m)) ->
  (forall d, each E P (k d)) -> each E P (with_parsed self text from_json k).
Proof.
  intros Hs Hf Hk. unfold with_parsed, parse_dataset. destruct (json_parse text) as [e|v]; [by apply each_done|].
  apply each_fallible; auto.
Qed.
End Steps.

(** The joiners and the session of an interpreter. *)
Definition same (self : Interpreter) (out : Interpreter) : Prop :=
  joiner_pskds out = joiner_pskds self /\ joiner_all_pskd out = joiner_all_pskd self /\ commissioner out = commissioner self.
(** Effects on the running session other than on its joiner handler. *)
Inductive plain (self : Interpreter) : effect -> Prop :=
  | plain_called s X (p : Prog X) r : commissioner self = Some s -> plain self (Called s p r)
  | plain_watched s st : commissioner self = Some s -> plain self (Watched s st)
  | plain_drained c s r : commissioner self = Some c -> events self = Some s -> plain self (Drained s r).
Definition ordinary (self : Interpreter) (m : Command) : Prop := each (plain self) (fun out => same self out.1) m.

Lemma same_refl self : same self self.
Proof. done. Qed.
Lemma same_trans a b c : same a b -> same b c -> same a c.
Proof. intros (? & ? & ?) (? & ? & ?). repeat split; congruence. Qed.
Lemma record_event_same event self : same self (record_event event self).1.
Proof. by destruct event. Qed.
Lemma record_events_same l self : same self (record_events l self).1.
Proof.
  revert self. induction l as [|e l IH]; intros self; cbn; [done|]. pose proof (record_event_same e self) as He.
  destruct (record_event e self) as [s w]. specialize (IH s). destruct (record_events l s) as [s' ws]. cbn in *.
  by apply (same_trans self s s').
Qed.
Lemma pump_events_ordinary self c d : commissioner self = Some c -> ordinary self (pump_events self d).
Proof.
  intros Hc. unfold ordinary, pump_events. destruct (events self) as [s|] eqn:Es; [|by apply each_done].
  intros [l ended]. cbn. pose proof (record_events_same l self) as Hs. destruct (record_events l self) as [self' ws]. cbn in *.
  split; [constructor; [by eapply plain_drained|constructor]|]. by destruct ended.
Qed.
#[export] Hint Resolve same_refl safe_parse_hex : meshcop.

Ltac cmd_step :=
  cbv zeta beta;
  first
    [ apply each_done; by cbn
    | apply each_token; [unfold len in *; lia|intros ? ?]
    | apply each_token_bind; [unfold len in *; lia|intros ? ?]
    | apply each_connected; [by cbn|intros ? ?]
    | apply each_parsed; [intros ?|by cbn|intros ?]
    | apply each_fallible; [|by cbn|intros ? ?]
    | apply each_call; [intros ?; by apply plain_called|intros ? ?]
    | eapply pump_events_ordinary; eassumption
    | match goal with
      | |- each _ _ (cbind (if ?b then _ else _) _) => destruct b eqn:?; zbool
      | |- each _ _ (cbind (Done _) _) => progress cbn [cbind]
      | |- each _ _ (if ?b then _ else _) => destruct b eqn:?; zbool
      | |- each _ _ (match ?x with _ => _ end) => destruct x eqn:?
      | |- each _ _ (let '(_, _) := ?x in _) => destruct x eqn:?
      end ].
Ltac cmd_auto := repeat cmd_step.

Section Ordinary.
Context {HX : Hex} {JS : Json}.

Lemma few_args_ordinary self : ordinary self (few_args self).
Proof. by apply each_done. Qed.
Lemma cmd_border_agent_ordinary self tokens : ordinary self (cmd_border_agent self tokens).
Proof. unfold ordinary, cmd_border_agent, few_args, not_a_sub_command, failed, failed_bytes, failed_with, okay. cmd_auto. Qed.
Lemma cmd_comm_dataset_ordinary self tokens : ordinary self (cmd_comm_dataset self tokens).
Proof.
  unfold ordinary, cmd_comm_dataset, few_args, not_a_sub_command, failed, failed_bytes, failed_with, okay, conclude. cmd_auto.
  apply comm_dataset_from_json_safe.
Qed.
Lemma cmd_bbr_dataset_ordinary self tokens : ordinary self (cmd_bbr_dataset self tokens).
Proof. unfold ordinary, cmd_bbr_dataset, few_args, not_a_sub_command, failed, failed_bytes, failed_with, okay. cmd_auto. Qed.
Lemma cmd_config_ordinary self tokens : ordinary self (cmd_config self tokens).
Proof. unfold ordinary, cmd_config, few_args, not_a_sub_command, failed, failed_bytes, okay. cmd_auto. Qed.
Lemma cmd_state_ordinary self : ordinary self (cmd_state self).
Proof.
  unfold ordinary, cmd_state, with_status, okay. destruct (commissioner self) as [c|] eqn:Ec; [|by apply each_done].
  intros st. apply each_step; [by apply plain_watched|by apply each_done].
Qed.
Lemma cmd_active_ordinary self : ordinary self (cmd_active self).
Proof.
  unfold ordinary, cmd_active, with_status, okay. destruct (commissioner self) as [c|] eqn:Ec; [|by apply each_done].
  intros st. apply each_step; [by apply plain_watched|by apply each_done].
Qed.
Lemma cmd_sessionid_ordinary self : ordinary self (cmd_sessionid self).
Proof.
  unfold ordinary, cmd_sessionid, with_status, okay, failed. destruct (commissioner self) as [c|] eqn:Ec; [|by apply each_done].
  intros st. apply each_step; [by apply plain_watched|]. cmd_auto.
Qed.
Lemma cmd_managed_ordinary self tokens command : ordinary self (cmd_managed self tokens command).
Proof. unfold ordinary, cmd_managed, few_args, failed, failed_bytes, conclude. destruct command; cmd_auto. Qed.
Lemma cmd_mlr_ordinary self tokens : ordinary self (cmd_mlr self tokens).
Proof.
  unfold ordinary, cmd_mlr, few_args, failed, failed_with, okay. cmd_auto. apply safe_slice; lia.
Qed.
Lemma cmd_announce_ordinary self tokens : ordinary self (cmd_announce self tokens).
Proof. unfold ordinary, cmd_announce, few_args, failed, conclude. cmd_auto. Qed.
Lemma cmd_panid_ordinary self tokens : ordinary self (cmd_panid self tokens).
Proof.
  unfold ordinary, cmd_panid, panid_query, panid_conflict, after_query, few_args, not_a_sub_command, failed, failed_bytes, failed_with, okay. cmd_auto.
Qed.
Lemma cmd_energy_ordinary self tokens : ordinary self (cmd_energy self tokens).
Proof.
  unfold ordinary, cmd_energy, energy_scan_command, energy_report, after_query, few_args, not_a_sub_command, failed, failed_bytes, failed_with, okay. cmd_auto.
Qed.
Lemma cmd_netdiag_ordinary self tokens : ordinary self (cmd_netdiag self tokens).
Proof.
  unfold ordinary, cmd_netdiag, netdiag_query, netdiag_reset, few_args, not_a_sub_command, failed, failed_bytes, failed_with, okay, conclude. cmd_auto.
Qed.
Lemma cmd_help_ordinary self tokens : tokens <> [] -> ordinary self (cmd_help self tokens).
Proof.
  intros Ht. unfold ordinary, cmd_help, okay, failed_bytes. destruct (len tokens =? 1) eqn:E; [by apply each_done|]. zbool.
  assert (len tokens <> 0) by by rewrite len_zero. cmd_auto.
Qed.

(** *** Operational datasets *)

Lemma safe_fixed_reads v : safe (read_u16 v) /\ safe (read_u32 v) /\ safe (read_u64 v).
Proof. repeat split; unfold read_u16, read_u32, read_u64; safe_auto. Qed.
Lemma accessors_safe d : TlvSet_wf (tlvs d) ->
  (safe (Dataset_active_timestamp d) /\ safe (Dataset_pending_timestamp d) /\ safe (Dataset_delay_timer d) /\ safe (Dataset_network_name d)) /\
  (safe (Dataset_channel d) /\ safe (Dataset_channel_mask d) /\ safe (Dataset_extended_pan_id d) /\ safe (Dataset_pan_id d)) /\
  (safe (Dataset_mesh_local_prefix d) /\ safe (Dataset_network_key d) /\ safe (Dataset_security_policy d)).
Proof.
  intros Hd. split; [split; [|split; [|split]]|split; [split; [|split; [|split]]|split; [|split]]].
  all: try apply safe_from_tlv; apply safe_map_transpose; intros v Hv.
  all: first [ apply Timestamp_parse_safe | apply safe_fixed_reads | apply Channel_parse_safe | apply read_array_safe
             | apply SecurityPolicy_parse_safe | apply ChannelMaskEntry_parse_all_safe; by eapply dataset_raw_ok | idtac ].
  unfold from_utf8. by case_match.
Qed.
Lemma active_seconds d ts : TlvSet_wf (tlvs d) -> Dataset_active_timestamp d = Ok (Some ts) -> 0 <= Timestamp_seconds ts < 2 ^ 48.
Proof.
  intros Hd H. unfold Dataset_active_timestamp in H. destruct (Dataset_raw d DS_TLV_ACTIVE_TIMESTAMP) as [v|] eqn:Ev; cbn in H; [|done].
  unfold map_ok in H. destruct (Timestamp_parse v) as [ts'| |] eqn:Et; [|done..]. injection H as ->.
  unfold Timestamp_parse, read_u64 in Et. apply rbind_ok in Et as (raw & Hr & [= <-]).
  apply from_tlv_ok, ok_or_ok, read_fixed in Hr as [Hl ->]. cbn [Timestamp_seconds timestamp_raw].
  pose proof (from_be_bound v ltac:(by eapply dataset_raw_ok)) as Hb. rewrite Hl in Hb. unfold Timestamp_seconds. cbn [timestamp_raw].
  rewrite Z.shiftr_div_pow2 by lia. unfold uint in Hb. change (8 * 8) with 64 in Hb. Z.to_euclidean_division_equations; lia.
Qed.

Lemma project_field_safe field d : TlvSet_wf (tlvs d) -> safe (project_field field d).
Proof.
  intros Hd. pose proof (accessors_safe d Hd) as H. unfold project_field.
  repeat (case_match; [first [apply safe_map_ok; apply H | apply H | done]|]). done.
Qed.
Lemma op_dataset_to_json_safe d pending : TlvSet_wf (tlvs d) -> safe (op_dataset_to_json d pending).
Proof.
  intros Hd. pose proof (accessors_safe d Hd) as H. unfold op_dataset_to_json.
  repeat first [ apply safe_ok | apply safe_bind; [|intros ? ?] | apply H | destruct pending ].
Qed.
Lemma safe_text_error {A} (r : result Error A) : safe r -> safe (text_error r).
Proof. by destruct r. Qed.
Lemma safe_decode_hex v : safe (decode_hex v).
Proof. unfold decode_hex. by case_match. Qed.
Lemma parse_mesh_local_prefix_safe s : safe (parse_mesh_local_prefix s).
Proof. unfold parse_mesh_local_prefix. safe_auto. Qed.
Lemma set_field_safe field tokens : safe (set_field field tokens).
Proof.
  unfold set_field.
  repeat first [ apply safe_ok | apply safe_bind; [|intros ? ?] | apply safe_ok_or | apply safe_decode_hex | apply safe_text_error
               | apply safe_parse_panid | apply parse_mesh_local_prefix_safe | case_match ].
Qed.

Lemma op_dataset_field_get_ordinary self field : ordinary self (op_dataset_field_get self field).
Proof.
  unfold ordinary, op_dataset_field_get, failed_bytes, failed_with, okay. cmd_auto. by apply project_field_safe.
Qed.
Lemma op_dataset_field_set_ordinary self field tokens : ordinary self (op_dataset_field_set self field tokens).
Proof.
  unfold ordinary, op_dataset_field_set, current_timestamp, failed_bytes, failed_with, conclude.
  destruct (set_field field tokens) as [[d|]|m|f] eqn:Es; [|by apply each_done..|by pose proof (set_field_safe field tokens) as H; rewrite Es in H].
  apply each_connected; [by cbn|intros c Hc]. intros r Hr. apply each_step; [by apply plain_called|].
  destruct r as [e|current]; [by apply each_done|]. cbn [cbind].
  destruct (Dataset_active_timestamp current) as [ts|e|f] eqn:Et; [|by apply each_done|by pose proof (proj1 (proj1 (accessors_safe current Hr))) as H; rewrite Et in H].
  cbn [cbind]. apply each_fallible; [|by cbn|intros ? _; cmd_auto].
  destruct ts as [ts|]; [|done]. pose proof (active_seconds current ts Hr Et). apply safe_add_or_panic. lia.
Qed.
Lemma op_dataset_whole_ordinary self c pending is_set tokens : commissioner self = Some c ->
  ordinary self (op_dataset_whole self c pending is_set tokens).
Proof.
  intros Hc. unfold ordinary, op_dataset_whole, few_args, failed, failed_with, okay, conclude. cmd_auto.
  - apply op_dataset_from_json_safe.
  - by apply op_dataset_to_json_safe.
Qed.
Lemma cmd_op_dataset_ordinary self tokens : ordinary self (cmd_op_dataset self tokens).
Proof.
  unfold ordinary, cmd_op_dataset, few_args, not_a_sub_command, failed, failed_bytes.
  repeat first [ eapply op_dataset_whole_ordinary; eassumption | apply op_dataset_field_set_ordinary | apply op_dataset_field_get_ordinary | cmd_step ].
Qed.
End Ordinary.
