(* ===== verification/CliSession.v ===== *)
(** * CliSession: what the lines of a user add up to

    The commands that change the session or its joiners, every line and the
    whole loop: nothing faults; without a session only [start] reaches out, and
    only with a usable configuration; the joiner handler that the session was
    last given is the one the user's joiners call for; setting a field of the
    operational dataset moves its timestamp on. *)
From stdpp Require Import gmap.
From S2P Require Import Prelude Text Hex Tlv Errors Dataset Coap NetDiag Messages Ipv6 SocketAddr.
From S2P Require Import Crypto Safety Joiner Pskc Commissioner Client Cli CliConfig CliJson CliDatasets.
From S2P Require Import CliInterpreter CliSafety.
#[local] Existing Instance static_joiner_handler.

(** ** The handler of a session *)

(** The handlers that sessions were last given. *)
Definition track (given : gmap Z StaticJoinerHandler) (e : effect) : gmap Z StaticJoinerHandler :=
  match e with Installed s h _ => <[s := h]> given | _ => given end.
Definition handler_current (self : Interpreter) (given : gmap Z StaticJoinerHandler) : Prop :=
  forall c, commissioner self = Some c -> given !! c = Some (build_joiner_handler self).
Definition keeps (self : Interpreter) (l : list effect) (out : Interpreter) : Prop :=
  forall given, handler_current self given -> handler_current out (fold_left track l given).

Lemma vec_eqb_refl b : vec_eqb b b = true.
Proof. by apply bool_decide_eq_true. Qed.
Lemma vec_eqb_eq a b : vec_eqb a b = true <-> a = b.
Proof. apply bool_decide_eq_true. Qed.
Lemma vec_eqb_false a b : a <> b -> vec_eqb a b = false.
Proof. apply bool_decide_eq_false. Qed.

Lemma enable_joiner_pskd h id pskd id' :
  static_joiner_pskd (enable_joiner_id h id pskd) id' = if decide (id = id') then Some pskd else static_joiner_pskd h id'.
Proof.
  unfold static_joiner_pskd, enable_joiner_id, retain_other. cbn [by_joiner_id wildcard_pskd].
  induction (by_joiner_id h) as [|[k p] l IH]; cbn.
  - destruct (decide (id = id')) as [->|Hne]; [by rewrite vec_eqb_refl|]. by rewrite vec_eqb_false.
  - destruct (vec_eqb k id) eqn:Ek; cbn.
    + apply vec_eqb_eq in Ek as ->. rewrite IH. case_decide as Hd; [done|]. by rewrite vec_eqb_false.
    + destruct (vec_eqb k id') eqn:Ek'; [|exact IH]. apply vec_eqb_eq in Ek' as ->.
      case_decide as Hd; [|done]. subst. by rewrite vec_eqb_refl in Ek.
Qed.
Lemma enable_joiners_pskd (l : list (bytes * bytes)) h id : NoDup l.*1 ->
  static_joiner_pskd (fold_left (fun h e => enable_joiner_id h e.1 e.2) l h) id =
  match (list_to_map l : gmap bytes bytes) !! id with Some p => Some p | None => static_joiner_pskd h id end.
Proof.
  revert h. induction l as [|[k p] l IH]; intros h; cbn; [done|]. intros [Hk Hl]%NoDup_cons.
  rewrite IH by done. rewrite enable_joiner_pskd. case_decide as Hd.
  - subst. rewrite lookup_insert_eq. rewrite not_elem_of_list_to_map_1 by done. done.
  - by rewrite lookup_insert_ne.
Qed.
Lemma built_handler_pskd self id :
  static_joiner_pskd (build_joiner_handler self) id =
  match joiner_pskds self !! id with Some p => Some p | None => joiner_all_pskd self end.
Proof.
  unfold build_joiner_handler. rewrite enable_joiners_pskd by apply NoDup_fst_map_to_list.
  rewrite list_to_map_to_list. by destruct (joiner_all_pskd self).
Qed.

Lemma same_handler self out : same self out -> build_joiner_handler out = build_joiner_handler self.
Proof. intros (Hj & Ha & _). unfold build_joiner_handler. by rewrite Hj, Ha. Qed.
Lemma same_keeps self l out : same self out -> Forall (plain self) l -> keeps self l out.
Proof.
  intros Hs Hl given Hg. assert (fold_left track l given = given) as ->.
  { clear Hg. revert given. induction Hl as [|e l He _ IH]; intros given; cbn; [done|]. rewrite IH. by destruct He. }
  intros c Hc. rewrite (same_handler self out Hs). apply Hg. destruct Hs as (_ & _ & ?). congruence.
Qed.
Lemma keeps_trans a l b l' c : keeps a l b -> keeps b l' c -> keeps a (l ++ l') c.
Proof. intros H1 H2 given Hg. rewrite fold_left_app. by apply H2, H1. Qed.

(** Installing the handler a state calls for makes it current there. *)
Lemma installed_current given self c r : commissioner self = Some c ->
  handler_current self (track given (Installed c (build_joiner_handler self) r)).
Proof. intros Hc c' Hc'. assert (c' = c) as -> by congruence. apply lookup_insert_eq. Qed.

(** ** Lines *)

(** Without a session: nothing, or a session that is opened as configured. *)
Definition quiet (self : Interpreter) (opens : bool) (l : list effect) : Prop :=
  commissioner self = None ->
  l = [] \/ opens = true /\ exists cfg a r l', l = Opened cfg a r :: l' /\ to_commissioner_config (CliInterpreter.config self) = Ok cfg.
Definition line {A} (self : Interpreter) (opens : bool) (m : Cmd (Interpreter * A)) : Prop :=
  always m (fun l out => quiet self opens l /\ keeps self l out.1).

Lemma ordinary_line self b m : ordinary self m -> line self b m.
Proof.
  apply always_mono. intros l out [Hl Hs]. split; [|by apply same_keeps].
  intros Hn. left. destruct Hl as [|e l He _]; [done|]. destruct He; congruence.
Qed.
Lemma keeps_same self out : same self out -> keeps self [] out.
Proof. intros H. by apply same_keeps. Qed.
Lemma line_done {A} self b out (v : A) : same self out -> line self b (Done (out, v)).
Proof. intros H. split; [by left|by apply keeps_same]. Qed.

Section Lines.
Context {HX : Hex} {JS : Json} {HS : Hash} {HL : HashLaws}.

Lemma compute_joiner_id_safe {E} eui64 : safe (compute_joiner_id (E := E) eui64).
Proof.
  unfold compute_joiner_id. pose proof (sha256_len (to_be 8 eui64)). rewrite slice_to_ok by (unfold JOINER_ID_LEN; lia).
  cbn [rbind]. apply safe_bind; [|done]. apply safe_idx. unfold JOINER_ID_LEN. rewrite len_take; lia.
Qed.

(** Whatever the joiners are set to, installing their handler keeps it current. *)
Lemma reinstall_line self self' b c : commissioner self = Some c -> commissioner self' = Some c ->
  line self b (reinstall self').
Proof.
  intros Hc Hc'. unfold line, reinstall, reinstall_joiner_handler. rewrite Hc'. intros r. cbn.
  split; [intros Hn; congruence|]. intros given _. by apply installed_current.
Qed.
Lemma each_line {A} self b e (m : Cmd (Interpreter * A)) c : commissioner self = Some c -> plain self e -> line self b m ->
  always m (fun l out => quiet self b (e :: l) /\ keeps self (e :: l) out.1).
Proof.
  intros Hc He. apply always_mono. intros l out [Hq Hk]. split; [intros Hn; congruence|].
  intros given Hg. apply Hk. by destruct He.
Qed.

Ltac line_step :=
  cbv zeta beta;
  first
    [ apply line_done; by cbn
    | eapply reinstall_line; [eassumption|by cbn]
    | match goal with
      | |- line _ _ (cbind (if ?b then _ else _) _) => destruct b eqn:?; zbool
      | |- line _ _ (if ?b then _ else _) => destruct b eqn:?; zbool
      | |- line _ _ (match ?x with _ => _ end) => destruct x eqn:?
      end ].

Lemma line_token {A} self b (tokens : list bytes) i (k : bytes -> Cmd (Interpreter * A)) : (i < length tokens)%nat ->
  (forall t, tokens !! i = Some t -> line self b (k t)) -> line self b (let> t := token tokens i in k t).
Proof.
  intros Hi Hk. unfold token. destruct (tokens !! i) as [t|] eqn:Et; [by apply Hk|]. apply lookup_ge_None in Et. lia.
Qed.
Lemma line_joiner_id self b eui64 k : (forall id, line self b (k id)) -> line self b (fallible self (compute_joiner_id eui64) k).
Proof.
  intros H. unfold fallible. pose proof (compute_joiner_id_safe (E := Error) eui64) as Hs.
  destruct (compute_joiner_id eui64); [apply H|by apply line_done|done].
Qed.
Lemma line_call {X} {T : Typed X} self b c (p : Prog X) (k : Error + X -> Command) : commissioner self = Some c ->
  (forall r, line self b (k r)) -> line self b (let> r := call c p in k r).
Proof. intros Hc Hk r _. eapply each_line; [done|by apply plain_called|apply Hk]. Qed.

Lemma joiner_enable_line self b c tokens : commissioner self = Some c -> line self b (joiner_enable self c tokens).
Proof.
  intros Hc. unfold joiner_enable, few_args, failed, invalid_eui64, failed_bytes, failed_with.
  repeat first [ apply line_token; [unfold len in *; lia|intros ? ?] | apply line_joiner_id; intros ? | apply line_call; [done|intros ?] | line_step ].
Qed.
Lemma joiner_enable_all_line self b c tokens : commissioner self = Some c -> line self b (joiner_enable_all self c tokens).
Proof.
  intros Hc. unfold joiner_enable_all, few_args, failed, failed_with.
  repeat first [ apply line_token; [unfold len in *; lia|intros ? ?] | apply line_call; [done|intros ?] | line_step ].
Qed.
Lemma joiner_disable_line self b c tokens : commissioner self = Some c -> line self b (joiner_disable self tokens).
Proof.
  intros Hc. unfold joiner_disable, few_args, failed, invalid_eui64, failed_bytes.
  repeat first [ apply line_token; [unfold len in *; lia|intros ? ?] | apply line_joiner_id; intros ? | line_step ].
Qed.
Lemma joiner_disable_all_line self b c : commissioner self = Some c -> line self b (joiner_disable_all self c).
Proof.
  intros Hc. apply line_call; [done|]. intros r. unfold line, reinstall_joiner_handler. cbn. rewrite Hc. intros r'. cbn.
  split; [intros Hn; congruence|]. intros given _. by apply installed_current.
Qed.
Lemma cmd_joiner_line self b tokens : line self b (cmd_joiner self tokens).
Proof.
  unfold cmd_joiner, few_args, failed, failed_bytes.
  destruct (len tokens <? 3) eqn:Hl; zbool; [by apply line_done|]. apply line_token; [unfold len in *; lia|intros sub ?].
  apply line_token; [unfold len in *; lia|intros t ?]. do 2 (case_match; [by apply line_done|]).
  unfold connected. destruct (commissioner self) as [c|] eqn:Hc; [|by apply line_done].
  case_match; [by apply joiner_enable_line|]. case_match; [by apply joiner_enable_all_line|].
  case_match; [by eapply joiner_disable_line|]. case_match; [by apply joiner_disable_all_line|].
  case_match; [|case_match; [|by apply line_done]]; apply ordinary_line.
  - unfold ordinary, joiner_getport, okay, failed, failed_with. cmd_auto.
  - unfold ordinary, joiner_setport, few_args, failed, failed_bytes, conclude. cmd_auto.
Qed.

Lemma safe_to_commissioner_config c : safe (to_commissioner_config c).
Proof.
  unfold to_commissioner_config. case_match; [done|]. case_match; [done|]. unfold build.
  cbv zeta. apply safe_bind; [apply safe_ok_or|intros ? _]. apply safe_bind; [|done]. unfold validate. repeat case_match; done.
Qed.
Lemma cmd_start_line self tokens : line self true (cmd_start self tokens).
Proof.
  unfold cmd_start, few_args, failed, failed_bytes, fallible, failed_with.
  destruct (len tokens <? 3) eqn:Hl; zbool; [by apply line_done|]. apply line_token; [unfold len in *; lia|intros host ?].
  apply line_token; [unfold len in *; lia|intros port ?]. destruct (SocketAddr_parse _) as [a|]; [|by apply line_done].
  pose proof (safe_to_commissioner_config (CliInterpreter.config self)) as Hs.
  destruct (to_commissioner_config _) as [cfg|e|f] eqn:Ec; [|by apply line_done|done]. clear Hs.
  assert (forall r l, quiet self true (Opened cfg a r :: l)) as Hq by (intros r l _; right; eauto 10).
  intros r. cbn. destruct r as [e|s]; cbn; [split; [apply Hq|exact (fun given Hg => Hg)]|]. intros [e|[]]; cbn.
  - split; [apply Hq|]. intros given Hg c Hc. cbn. destruct (decide (s = c)) as [->|Hne]; [by rewrite lookup_insert_eq|].
    rewrite lookup_insert_ne by done. by apply Hg.
  - assert (forall l given, Forall (plain (with_commissioner (Some s) self)) l ->
              handler_current (with_events (Some s) (with_commissioner (Some s) self))
                (fold_left track l (<[s:=build_joiner_handler self]> given))) as Hk.
    { intros l given Hl'. apply (same_keeps (with_commissioner (Some s) self)); [done|done|]. intros c [= <-]. apply lookup_insert_eq. }
    destruct (existsb _ tokens); cbn; [split; [apply Hq|]; intros given _; by apply (Hk [])|].
    intros r _. split; [apply Hq|]. intros given _. apply (Hk [Called s Commissioner_petition r]).
    constructor; [by apply plain_called|constructor].
Qed.
Lemma cmd_stop_line self : line self false (cmd_stop self).
Proof.
  unfold cmd_stop. cbn. destruct (commissioner self) as [c|] eqn:Hc; [|by apply line_done].
  intros r _. cbn. split; [intros Hn; congruence|]. by intros given _ ?.
Qed.
Lemma shutdown_line self : line self false (shutdown self).
Proof.
  unfold shutdown, with_status. destruct (commissioner self) as [c|] eqn:Hc; [|by apply line_done].
  intros st. cbn [cbind]. eapply each_line; [done|by apply plain_watched|].
  assert (line self false (let> r := cmd_stop self in Done (r.1, Some r.2))) as H.
  { apply always_bind. eapply always_mono; [|apply cmd_stop_line]. intros l out [Hq Hk]. cbn. by rewrite app_nil_r. }
  destruct st; first [exact H | by apply (line_done self false self None)].
Qed.

Lemma dispatch_line self name args : line self (is_str name "start") (dispatch self (name :: args)).
Proof.
  unfold dispatch. cbn [token lookup list_lookup cbind]. unfold failed, failed_bytes.
  destruct (is_str name "help"); [by apply ordinary_line, cmd_help_ordinary|].
  destruct (is_str name "exit" || is_str name "quit"); [by apply line_done|].
  destruct (is_str name "config"); [apply ordinary_line, cmd_config_ordinary|].
  destruct (is_str name "state"); [apply ordinary_line, cmd_state_ordinary|].
  destruct (is_str name "start"); [apply cmd_start_line|].
  destruct (is_str name "stop"); [apply cmd_stop_line|].
  destruct (is_str name "active"); [apply ordinary_line, cmd_active_ordinary|].
  destruct (is_str name "sessionid"); [apply ordinary_line, cmd_sessionid_ordinary|].
  destruct (is_str name "borderagent"); [apply ordinary_line, cmd_border_agent_ordinary|].
  destruct (is_str name "joiner"); [apply cmd_joiner_line|].
  destruct (is_str name "commdataset"); [apply ordinary_line, cmd_comm_dataset_ordinary|].
  destruct (is_str name "opdataset"); [apply ordinary_line, cmd_op_dataset_ordinary|].
  destruct (is_str name "bbrdataset"); [apply ordinary_line, cmd_bbr_dataset_ordinary|].
  do 3 (case_match; [apply ordinary_line, cmd_managed_ordinary|]).
  case_match; [apply ordinary_line, cmd_mlr_ordinary|]. case_match; [apply ordinary_line, cmd_announce_ordinary|].
  case_match; [apply ordinary_line, cmd_panid_ordinary|]. case_match; [apply ordinary_line, cmd_energy_ordinary|].
  case_match; [apply ordinary_line, cmd_netdiag_ordinary|]. repeat (case_match; [by apply line_done|]). by apply line_done.
Qed.

Definition starts (text : bytes) : bool := match tokenize text with inr (name :: _) => is_str name "start" | _ => false end.
Lemma evaluate_line self text : line self (starts text) (evaluate self text).
Proof.
  unfold evaluate, starts. destruct (tokenize text) as [e|[|name args]]; [by apply line_done..|].
  destruct (has_multi_network_flag _); [by apply line_done|]. apply always_bind.
  eapply always_mono; [|apply dispatch_line]. intros l out [Hq Hk]. cbn. by rewrite app_nil_r.
Qed.
Lemma background_same event self : same self (handle_background_event event self).1.
Proof. unfold handle_background_event. destruct event; done. Qed.

Lemma repl_keeps inputs self : always (repl self inputs) (fun l out => keeps self l out.1).
Proof.
  revert self. induction inputs as [|i inputs IH]; intros self; cbn [repl]; (destruct (should_exit self); [by apply keeps_same|]).
  { by apply keeps_same. }
  destruct i as [[event|]|text|]; [|exact (IH (with_events None self))| |by apply keeps_same].
  - pose proof (background_same event self) as Hs. destruct (handle_background_event event self) as [self' w].
    apply always_bind. eapply always_mono; [|apply IH]. intros l out Hk. cbn in *. rewrite app_nil_r.
    apply (keeps_trans self [] self'); [by apply keeps_same|done].
  - apply always_bind. eapply always_mono; [|apply evaluate_line]. intros l e [_ He]. apply always_bind.
    eapply always_mono; [|apply IH]. intros l' out Hk. cbn. rewrite app_nil_r. by apply (keeps_trans self l e.1).
Qed.

(** C29: A line of the user never makes the command line fault, whatever it
    holds and whatever the session answers: no index out of range, no
    arithmetic overflow.  While no session is held, a line that is not a
    [start] command reaches nothing, and [start] opens a session before it does
    anything else, and only when the configuration is one a commissioner can be
    built from: a key of 16 bytes, a keep-alive of 30 to 45 seconds, no CCM. *)
Theorem lines_cannot_fault self text :
  always (evaluate self text) (fun l _ =>
    commissioner self = None ->
    l = [] \/
    (exists args, tokenize text = inr (str_bytes "start" :: args)) /\
    exists cfg address r l', l = Opened cfg address r :: l' /\
      to_commissioner_config (CliInterpreter.config self) = Ok cfg /\ len (cfg_pskc cfg) = 16).
Proof.
  eapply always_mono; [|apply evaluate_line]. intros l out [Hq _] Hn. destruct (Hq Hn) as [->|(Hs & cfg & a & r & l' & -> & Hc)]; [by left|].
  right. split.
  - unfold starts in Hs. destruct (tokenize text) as [|[|name args]]; [done..|]. exists args. unfold is_str in Hs.
    by apply vec_eqb_eq in Hs as ->.
  - exists cfg, a, r, l'. split; [done|]. split; [done|]. by apply to_commissioner_config_ok in Hc as (_ & Hl & _ & ->).
Qed.

End Lines.

(** ** Setting a field of the operational dataset *)

Section Fields.
Context {HX : Hex} {JS : Json}.

Lemma set_field_entry field tokens d : set_field field tokens = Ok (Some d) ->
  exists t v, entries (tlvs d) = [mkTlvEntry t v] /\ t <> DS_TLV_ACTIVE_TIMESTAMP.
Proof.
  unfold set_field. intros H.
  repeat match type of H with
  | (if ?b then _ else _) = _ => destruct b
  | rbind _ _ = Ok _ => apply rbind_ok in H as (? & _ & H)
  end; try discriminate H; injection H as <-; by do 2 eexists.
Qed.
Lemma stamped_entries d t v ts : entries (tlvs d) = [mkTlvEntry t v] -> t <> DS_TLV_ACTIVE_TIMESTAMP ->
  entries (tlvs (Dataset_set_raw d DS_TLV_ACTIVE_TIMESTAMP ts)) = [mkTlvEntry t v; mkTlvEntry DS_TLV_ACTIVE_TIMESTAMP ts].
Proof.
  intros Hd Hne. cbn. rewrite Hd. cbn. by rewrite (proj2 (Z.eqb_neq _ _)).
Qed.
Lemma stamped_seconds d seconds : is_u64 seconds ->
  let stamp := Timestamp_from_components seconds 0 false in
  Dataset_active_timestamp (Dataset_set_raw d DS_TLV_ACTIVE_TIMESTAMP (Timestamp_to_value stamp)) = Ok (Some stamp) /\
  Timestamp_seconds stamp = seconds mod 2 ^ 48.
Proof.
  intros Hs stamp. destruct (timestamp_components_roundtrip seconds 0 false) as (H1 & _ & _ & H2); [done..|].
  split; [|exact H1]. unfold Dataset_active_timestamp. rewrite Dataset_raw_set_raw. exact (f_equal (map_ok Some) H2).
Qed.

(** C32: Setting one field of the operational dataset reads the active
    timestamp first and does nothing more when that fails.  Otherwise it sends,
    once, the field and an active timestamp, and nothing else: the timestamp's
    seconds are one more than those that were read (1 if there were none), so
    that the dataset supersedes the active one - unless its 48 bits are all in
    use, when they start again at 0. *)
Theorem timestamp_moves_on self c tokens field d :
  commissioner self = Some c -> tokens !! 1%nat = Some (str_bytes "set") -> tokens !! 2%nat = Some field ->
  set_field field tokens = Ok (Some d) ->
  always (cmd_op_dataset self tokens) (fun l out =>
    exists r l', l = Called c (get_active_dataset FLAG_ACTIVE_TIMESTAMP) r :: l' /\
    match r with
    | inl err => l' = [] /\ out = (self, cv_fail (Error_to_string err))
    | inr current =>
        match Dataset_active_timestamp current with
        | Ok previous =>
            exists sent r' t v now, l' = [Called c (set_active_dataset sent) r'] /\ out = (self, cv_from_result r') /\
              entries (tlvs d) = [mkTlvEntry t v] /\
              entries (tlvs sent) = [mkTlvEntry t v; mkTlvEntry DS_TLV_ACTIVE_TIMESTAMP (Timestamp_to_value now)] /\
              Dataset_active_timestamp sent = Ok (Some now) /\
              Timestamp_seconds now = match previous with Some ts => (Timestamp_seconds ts + 1) mod 2 ^ 48 | None => 1 end
        | Err err => l' = [] /\ out = (self, cv_fail (Error_to_string err))
        | Panic _ => False
        end
    end).
Proof.
  intros Hc Ht1 Ht2 Hd. unfold cmd_op_dataset. pose proof (lookup_lt_Some _ _ _ Ht2) as Hl.
  rewrite (proj2 (Z.ltb_ge _ _)) by (unfold len; lia). unfold token. rewrite Ht1. cbn [cbind].
  change (is_str (str_bytes "set") "get") with false. change (is_str (str_bytes "set") "set") with true. cbn [negb andb].
  unfold connected. rewrite Hc, Ht2. cbn [cbind].
  destruct (is_str field "active") eqn:Ea; [apply vec_eqb_eq in Ea as ->; discriminate Hd|].
  destruct (is_str field "pending") eqn:Ep; [apply vec_eqb_eq in Ep as ->; discriminate Hd|].
  cbn [orb]. unfold op_dataset_field_set. rewrite Hd. unfold connected. rewrite Hc.
  intros r Hr. destruct r as [err|current]; [by exists (inl err), []|]. cbn [cbind].
  pose proof (proj1 (proj1 (accessors_safe current Hr))) as Hs.
  destruct (Dataset_active_timestamp current) as [previous|err|f] eqn:Et; [| |done].
  2: { cbn. exists (inr current), []. by rewrite Et. }
  cbn [cbind].
  assert (exists n, is_u64 n /\ (match previous with Some ts => add_or_panic 64 (Timestamp_seconds ts) 1 | None => Ok 1 end) = @Ok Error Z n /\
            n mod 2 ^ 48 = match previous with Some ts => (Timestamp_seconds ts + 1) mod 2 ^ 48 | None => 1 end) as (n & Hn & -> & Hm).
  { destruct previous as [ts|]; [|by exists 1]. pose proof (active_seconds current ts Hr Et) as Hb.
    exists (Timestamp_seconds ts + 1). split; [unfold uint; lia|]. split; [|done]. unfold add_or_panic. by rewrite (proj2 (Z.ltb_lt _ _)) by lia. }
  cbn [fallible]. intros r' _. cbn [always conclude].
  exists (inr current), [Called c (set_active_dataset (Dataset_set_raw d DS_TLV_ACTIVE_TIMESTAMP (Timestamp_to_value (Timestamp_from_components n 0 false)))) r'].
  split; [done|]. rewrite Et. destruct (set_field_entry field tokens d Hd) as (t & v & Hdv & Hne).
  destruct (stamped_seconds d n Hn) as [H1 H2]. do 5 eexists. split; [done|]. split; [done|]. split; [exact Hdv|].
  split; [by apply stamped_entries|]. split; [exact H1|]. by rewrite H2.
Qed.
End Fields.

(** ** Instances *)

Module SampleCli.
#[local] Existing Instance ToyHex.toy_hex.
#[local] Existing Instance ToyJson.toy_json.
#[local] Existing Instance Toy.toy_hash.
Definition config : CliConfig := with_pskc (repeat 7 16) CliConfig_default.
Definition start_line : bytes := str_bytes "start 192.0.2.1 49191 --connect-only".
Definition joiner_line : bytes := str_bytes "joiner enable meshcop 0x0011223344556677 J01NME".
Definition connected : Interpreter := with_commissioner (Some 7) (Interpreter_new config).
Definition panid_tokens : list bytes := map str_bytes ["opdataset"; "set"; "panid"; "0xabcd"; "30000"]%string.
End SampleCli.

Lemma lines_cannot_fault_witness :
  (exists cfg a k, @evaluate ToyHex.toy_hex ToyJson.toy_json Toy.toy_hash (Interpreter_new SampleCli.config) SampleCli.start_line = Connect cfg a k) /\
  always (@evaluate ToyHex.toy_hex ToyJson.toy_json Toy.toy_hash (Interpreter_new SampleCli.config) SampleCli.start_line) (fun l _ =>
    l = [] \/ exists cfg a r l', l = Opened cfg a r :: l' /\ len (cfg_pskc cfg) = 16).
Proof.
  split; [do 3 eexists; reflexivity|].
  eapply always_mono; [|exact (@lines_cannot_fault ToyHex.toy_hex ToyJson.toy_json Toy.toy_hash Toy.toy_hash_laws
                                 (Interpreter_new SampleCli.config) SampleCli.start_line)].
  intros l out H. destruct (H eq_refl) as [->|(_ & cfg & a & r & l' & -> & _ & Hl)]; [by left|]. right. by exists cfg, a, r, l'.
Defined.
Lemma timestamp_moves_on_witness :
  always (@cmd_op_dataset ToyHex.toy_hex ToyJson.toy_json SampleCli.connected SampleCli.panid_tokens) (fun l _ =>
    exists r l', l = Called 7 (get_active_dataset FLAG_ACTIVE_TIMESTAMP) r :: l').
Proof.
  destruct (@set_field ToyHex.toy_hex (str_bytes "panid") SampleCli.panid_tokens) as [[d|]|e|f] eqn:E; [|vm_compute in E; discriminate E..].
  eapply always_mono; [|exact (@timestamp_moves_on ToyHex.toy_hex ToyJson.toy_json SampleCli.connected 7 SampleCli.panid_tokens
                                 (str_bytes "panid") d eq_refl eq_refl eq_refl E)].
  intros l out (r & l' & H & _). by exists r, l'.
Defined.
