(* ===== verification/NetdiagMain.v ===== *)
(** * NetdiagMain: the diagnostics tool

    crates/meshcop-netdiag/src/main.rs.  The parsed arguments ([argh]), the
    environment, the outcome of the DTLS handshake and the clock are arguments;
    [serde]'s serialization is the class [SnapshotJson].  What goes to standard
    error is left out, and the duration of the timeouts of [Collect].

    Whatever is answered, the tool ends without a panic, asks only reading
    requests between the petition and the resignation, and always resigns. *)
From S2P Require Import Prelude Text Hex Tlv Errors Dataset Coap NetDiag Messages Joiner Ipv6 SocketAddr.
From S2P Require Import Commissioner SessionDriver SessionCore Client ClientSteering BTree Topology Collect.
From S2P Require Import NetDiagTypes CollectSafety CollectLinks Cli Report.

Class SnapshotJson := {
  topology_json : bool -> TopologySnapshot -> string + string;
  node_json : bool -> Node -> string + string }.

Inductive OutputFormat := Json | Markdown | Graph.
Inductive DiagCommand :=
  | TopologyCmd (format : OutputFormat) (pretty : bool)
  | NodeCmd (rloc16 : bytes) (format : OutputFormat) (pretty : bool).
Record Args := mkArgs {
  arg_border_agent : bytes;
  arg_pskc : option bytes;
  commissioner_id : bytes;
  arg_show_secrets : bool;
  command : DiagCommand }.

Definition to_ascii_lowercase (s : bytes) : bytes := map (fun b => if in_range 0x41 0x5a b then b + 0x20 else b) s.
Definition OutputFormat_parse (value : bytes) : string + OutputFormat :=
  let value := to_ascii_lowercase value in
  if is_str value "json" then inr Json
  else if is_str value "markdown" || is_str value "md" then inr Markdown
  else if is_str value "graph" || is_str value "ascii" then inr Graph
  else inl ("unknown format `" +:+ string_of value +:+ "` (expected json, markdown, or graph)").

Section Main.
Context {JH : JoinerHandler} {HX : Hex} {SJ : SnapshotJson}.

(** [env] is the value of NETDIAG_PSKC, if it is set and is UTF-8. *)
Definition resolve_pskc (env pskc_arg : option bytes) : result Error bytes :=
  let env := match env with Some v => if is_empty (trim v) then None else Some v | None => None end in
  let! hex_str := ok_or (match env with Some v => Some v | None => pskc_arg end)
                    (EDataset "PSKc required: set the NETDIAG_PSKC env var (preferred) or pass --pskc") in
  let! bytes := match hex_decode (trim hex_str) with
                | inr bytes => Ok bytes
                | inl err => Err (EDataset ("PSKc must be valid hex: " +:+ err))
                end in
  if len bytes =? 16 then Ok bytes else Err (EDataset "PSKc must be exactly 16 bytes (32 hex chars)").

Definition parse_rloc16 (value : bytes) : result Error Z :=
  let trimmed := trim value in
  let parsed := match strip_hex_prefix trimmed with
                | Some hex_digits => from_str_radix 16 16 hex_digits
                | None => parse_uint 16 trimmed
                end in
  ok_or parsed (EDataset ("invalid RLOC16 `" +:+ string_of value +:+ "`")).

Definition json (serialized : string + string) : result Error string :=
  match serialized with
  | inr serialized => Ok (serialized +:+ LF)
  | inl err => Err (EDataset ("failed to serialize output: " +:+ err))
  end.
Definition render_topology (snapshot : TopologySnapshot) (format : OutputFormat) (pretty : bool) : result Error string :=
  match format with
  | Json => json (topology_json pretty snapshot)
  | Markdown => Ok (topology_markdown snapshot)
  | Graph => Ok (topology_ascii snapshot)
  end.
Definition render_node (node : Node) (format : OutputFormat) (pretty : bool) : result Error string :=
  match format with
  | Json => json (node_json pretty node)
  | Markdown | Graph => Ok (node_report_markdown node)
  end.

Definition dispatch (cmd : DiagCommand) (elapsed : option Z) (border_agent : bytes) (show_secrets : bool) : Prog string :=
  let+ collector := Collector_start in
  match cmd with
  | TopologyCmd format pretty =>
      let+ snapshot := collect_topology collector elapsed (string_of border_agent) in
      let snapshot := if show_secrets then snapshot else TopologySnapshot_redact_secrets snapshot in
      plift (render_topology snapshot format pretty)
  | NodeCmd rloc16 format pretty =>
      let+ rloc16 := plift (parse_rloc16 rloc16) in
      let+ node := collect_node collector rloc16 in
      let node := if show_secrets then node else Node_redact_secrets node in
      plift (render_node node format pretty)
  end.

(** [run] with the session in hand. *)
Definition diagnose (args : Args) (elapsed : option Z) (show_secrets : bool) : Prog string :=
  let+ _ := Commissioner_session_id in
  let+ result := try (dispatch (command args) elapsed (arg_border_agent args) show_secrets) in
  let+ resign := try Commissioner_resign in
  let+ output := plift (match result with inr output => Ok output | inl err => Err err end) in
  let+ _ := plift (match resign with inr _ => Ok tt | inl err => Err err end) in
  Ret output.
(** [env_show] tells whether MESHCOP_SHOW_SECRETS is set; the result is printed. *)
Definition run (args : Args) (env_pskc : option bytes) (env_show : bool) (link : Error + unit) (elapsed : option Z) : Prog string :=
  let+ _ := plift (ok_or (SocketAddr_parse (arg_border_agent args))
                     (EDataset ("invalid border-agent address `" +:+ string_of (arg_border_agent args) +:+ "`"))) in
  let+ pskc := plift (resolve_pskc env_pskc (arg_pskc args)) in
  let config := CommissionerConfig_pskc (commissioner_id args) pskc in
  let+ _ := connect config (match link with inr _ => Ok tt | inl err => Err err end) in
  diagnose args elapsed (arg_show_secrets args || env_show).
End Main.

Example formats : map OutputFormat_parse (map str_bytes ["JSON"; "md"; "Ascii"]%string) = [inr Json; inr Markdown; inr Graph].
Proof. reflexivity. Qed.
Example rlocs : map parse_rloc16 (map str_bytes ["0xa400"; " 41984 "]%string) = [Ok 0xa400; Ok 0xa400].
Proof. reflexivity. Qed.

(** ** The requests of a program *)

Section Requests.
Context {JH : JoinerHandler}.

(** Every request satisfies [R], whatever the answers. *)
Fixpoint asks (R : forall X, Request X -> Prop) {A} (p : Prog A) : Prop :=
  match p with
  | Ret _ | Throw _ | Crash _ => True
  | Do r k => R _ r /\ forall x, asks R (k x)
  end.
Lemma asks_bind R {A B} (p : Prog A) (k : A -> Prog B) : asks R p -> (forall a, asks R (k a)) -> asks R (pbind p k).
Proof. intros Hp Hk. induction p as [| | |X r k' IH]; cbn in *; [apply Hk|done..|]. split; [apply Hp|]. intros x. apply IH, Hp. Qed.
Lemma asks_plift R {A} (r : result Error A) : asks R (plift r).
Proof. by destruct r. Qed.
Lemma asks_try R {A} (p : Prog A) : asks R p -> asks R (try p).
Proof. intros Hp. induction p as [| | |X r k IH]; cbn in *; [done..|]. split; [apply Hp|]. intros x. apply IH, Hp. Qed.
Lemma asks_timeout (R : forall X, Request X -> Prop) {A} (p : Prog A) : (forall o, R _ (Submit o) -> R _ (SubmitWithin o)) ->
  asks R p -> asks R (timeout p).
Proof.
  intros HR Hp. induction p as [| | |X r k IH]; cbn in *; [done..|]. destruct Hp as [Hr Hk].
  assert (forall x, asks R (timeout (k x))) as H by auto. destruct r; cbn; split; auto. intros [x|]; [apply H|done].
Qed.

Inductive asked : Type := Asked (X : Type) (r : Request X) (x : X).
#[local] Arguments Asked {X} r x.
Definition asked_of (R : forall X, Request X -> Prop) (e : asked) : Prop := match e with Asked r _ => R _ r end.
(** Without a fault, what was asked and answered and the outcome satisfy [Q]. *)
Fixpoint traced {A} (p : Prog A) (Q : list asked -> Error + A -> Prop) : Prop :=
  match p with
  | Ret a => Q [] (inr a)
  | Throw e => Q [] (inl e)
  | Crash _ => False
  | Do r k => forall x, answer_ok r x -> traced (k x) (fun l o => Q (Asked r x :: l) o)
  end.
Lemma traced_mono {A} (p : Prog A) (Q Q' : list asked -> Error + A -> Prop) : (forall l o, Q l o -> Q' l o) -> traced p Q -> traced p Q'.
Proof. revert Q Q'. induction p as [| | |X r k IH]; intros Q Q' H; cbn; auto. intros Hp x Hx. eapply IH; [|by apply Hp]. auto. Qed.
Lemma traced_bind {A B} (p : Prog A) (k : A -> Prog B) Q :
  traced p (fun l o => match o with inl e => Q l (inl e) | inr a => traced (k a) (fun l' o' => Q (l ++ l') o') end) ->
  traced (pbind p k) Q.
Proof. revert Q. induction p as [| | |X r k' IH]; intros Q; cbn; [done..|]. intros H x Hx. by apply IH, H. Qed.
Lemma traced_plift {A B} (r : result Error A) (k : A -> Prog B) (Q : list asked -> Error + B -> Prop) : safe r ->
  (forall e, Q [] (inl e)) -> (forall a, r = Ok a -> traced (k a) Q) -> traced (pbind (plift r) k) Q.
Proof. destruct r; cbn; auto. Qed.
Lemma traced_try {A} (p : Prog A) Q : traced p (fun l o => Q l (inr o)) -> traced (try p) Q.
Proof. revert Q. induction p as [| | |X r k IH]; intros Q; cbn; [done..|]. intros H x Hx. apply IH. by apply H. Qed.
Lemma traced_asks R {A} (p : Prog A) P : total p P -> asks R p ->
  traced p (fun l o => Forall (asked_of R) l /\ match o with inr a => P a | inl _ => True end).
Proof.
  intros Hp Hr. induction p as [| | |X r k IH]; cbn in *; [by repeat constructor..|done|].
  destruct Hr as [Hr Hk]. intros x Hx. eapply traced_mono; [|apply IH; auto]. intros l o [Hl Ho]. split; [by constructor|done].
Qed.
End Requests.
Arguments Asked {JH X} r x.

(** ** What the tool asks *)

(** Looking at the status, reading the active dataset, asking a node for its
    diagnostics. *)
Definition reading {JH : JoinerHandler} {X} (r : Request X) : Prop :=
  match r with
  | Watch => True
  | Submit o | SubmitWithin o =>
      uri_path (ob_message o) = Ok (Some MGMT_ACTIVE_GET) \/ uri_path (ob_message o) = Ok (Some DIAG_GET_REQUEST)
  | _ => False
  end.

Section Reading.
Context {JH : JoinerHandler} {HX : Hex}.
Notation only_reads p := (asks (@reading JH) p).

Lemma status_reads : only_reads status_now.
Proof. split; [done|]. intros [s b]. by destruct b, s. Qed.
Lemma session_id_reads : only_reads Commissioner_session_id.
Proof. apply asks_bind; [apply status_reads|done]. Qed.
Lemma get_active_dataset_reads flags : only_reads (get_active_dataset flags).
Proof.
  unfold get_active_dataset, get_raw_active_dataset. apply asks_bind; [|intros ?; apply asks_plift].
  destruct (dataset_get_request _ _ _ _) as [m|e|f] eqn:E; cbn; [|done..]. apply get_addressed in E.
  split; [by left|]. intros [[e|[r|]]|]; cbn; [done| |done|done].
  apply asks_bind; [apply asks_plift|done].
Qed.
Lemma get_diagnostics_reads destination flags : only_reads (get_diagnostics destination flags).
Proof.
  unfold get_diagnostics. apply asks_bind; [unfold session_id_required; apply asks_bind; [apply session_id_reads|intros ?; apply asks_plift]|].
  intros _. destruct (is_multicast destination); [done|].
  destruct (diagnostic_request _ _ _ _ _) as [m|e|f] eqn:E; cbn; [|done..]. apply diagnostic_addressed in E.
  split; [by right|]. intros [[e|[r|]]|]; cbn; [done| |done|done].
  apply asks_bind; [apply asks_plift|intros ?; apply asks_plift].
Qed.
Lemma diag_query_reads destination flags : only_reads (diag_query destination flags).
Proof.
  unfold diag_query. apply asks_bind; [apply status_reads|]. intros s.
  assert (only_reads (let+ answer := try (timeout (get_diagnostics destination flags)) in
    match answer with
    | inr (Some data) => Ret (Some data)
    | inr None => Ret None
    | inl (ETimeout _) | inl (ETlv _) | inl (EDataset _) | inl (EInvalidState _) => Ret None
    | inl err => Throw err
    end)) as H.
  { apply asks_bind; [apply asks_try, asks_timeout; [done|apply get_diagnostics_reads]|]. by intros [[]|[]]. }
  by destruct s.
Qed.
Lemma prime_reads destination : only_reads (prime destination).
Proof.
  unfold prime. induction PRIME_ATTEMPTS as [|n IH]; cbn [prime_loop]; [done|]. apply asks_bind; [apply diag_query_reads|]. by intros [].
Qed.
Lemma batch_loop_reads query fuel stack merged : (forall flags, only_reads (query flags)) -> only_reads (batch_loop query fuel stack merged).
Proof.
  intros Hq. revert stack merged. induction fuel as [|fuel IH]; intros [|batch stack] merged; cbn [batch_loop]; [done..|].
  destruct (_ =? 0); [apply IH|]. apply asks_bind; [apply Hq|]. intros [d|]; [apply IH|]. destruct (_ >? _); apply IH.
Qed.
Lemma collect_diag_reads destination tlvs : only_reads (collect_diag destination tlvs).
Proof.
  unfold collect_diag. apply asks_bind; [apply prime_reads|]. intros [d|]; [|done].
  apply asks_bind; [apply batch_loop_reads, diag_query_reads|done].
Qed.
Lemma collect_routers_reads self leader rlocs nodes answers : only_reads (collect_routers self leader rlocs nodes answers).
Proof.
  revert nodes answers. induction rlocs as [|r rlocs IH]; intros nodes answers; cbn [collect_routers]; [done|].
  apply asks_bind; [apply collect_diag_reads|]. intros [d|]; [|apply IH]. apply asks_bind; [apply asks_plift|]. intros n. apply IH.
Qed.
Lemma query_children_reads self children : only_reads (query_children self children).
Proof.
  induction children as [|[r c] children IH]; cbn [query_children]; [done|]. apply asks_bind; [apply collect_diag_reads|]. intros a.
  apply asks_bind; [destruct a; [apply asks_plift|done]|]. intros c'. by apply asks_bind.
Qed.
Lemma collect_topology_reads self elapsed border_agent : only_reads (collect_topology self elapsed border_agent).
Proof.
  unfold collect_topology. apply asks_bind; [apply collect_diag_reads|]. intros a. apply asks_bind; [apply asks_plift|]. intros d.
  apply asks_bind; [apply asks_plift|]. intros l. apply asks_bind; [apply collect_routers_reads|]. intros [ns answers].
  apply asks_bind; [|intros ns'; apply asks_bind; [apply asks_plift|done]].
  unfold collect_children. apply asks_bind; [apply asks_plift|]. intros c. by apply asks_bind; [apply query_children_reads|].
Qed.
Lemma collect_node_reads self rloc16 : only_reads (collect_node self rloc16).
Proof.
  unfold collect_node. apply asks_bind; [apply collect_diag_reads|]. intros [d|]; [apply asks_plift|].
  destruct (rloc_child_id rloc16); [|done]. apply asks_bind; [apply collect_diag_reads|]. intros [p|]; [|done].
  apply asks_bind; [apply asks_plift|]. intros c. by destruct (bt_get _ c).
Qed.
End Reading.

(** ** The whole run *)

Section Whole.
Context {JH : JoinerHandler} {HX : Hex} {SJ : SnapshotJson}.

Lemma total_collector_start : total Collector_start (fun _ => True).
Proof.
  unfold Collector_start. apply total_bind. unfold get_active_dataset, get_raw_active_dataset. do 2 apply total_bind.
  apply total_plift.
  { unfold dataset_get_request. apply safe_bind; [by destruct (is_empty _); [|apply append_tlv_safe]|intros ? _; apply post_request_safe]. }
  intros m _ [[e|[r|]]|] Hr; cbn in Hr |- *; [done| |done|done]. apply total_bind. unfold successful.
  apply total_plift; [cbn; unfold require_success_response; by case_match|]. intros r' E.
  assert (r' = r) as -> by (cbn in E; unfold require_success_response in E; case_match; congruence).
  cbn. apply total_plift; [unfold Dataset_from_bytes; by apply safe_map_ok, parse_tlvs_safe|]. intros d _.
  apply total_bind, total_plift; [apply safe_map_transpose; intros; apply read_array_safe|]. intros found _.
  apply total_bind, total_plift; [apply safe_ok_or|]. intros p _. done.
Qed.

(** What is printed when secrets are not to be shown. *)
Definition printed_redacted (cmd : DiagCommand) (show_secrets : bool) (text : string) : Prop :=
  show_secrets = false ->
  match cmd with
  | TopologyCmd format pretty => exists s, render_topology (TopologySnapshot_redact_secrets s) format pretty = Ok text
  | NodeCmd _ format pretty => exists n, render_node (Node_redact_secrets n) format pretty = Ok text
  end.
Lemma json_safe r : safe (json r).
Proof. by destruct r. Qed.
Lemma render_safe s n format pretty : safe (render_topology s format pretty) /\ safe (render_node n format pretty).
Proof. split; destruct format; first [apply json_safe|done]. Qed.
Lemma total_dispatch cmd elapsed border_agent show_secrets :
  total (dispatch cmd elapsed border_agent show_secrets) (printed_redacted cmd show_secrets).
Proof.
  unfold dispatch. eapply total_then; [apply total_collector_start|]. intros c _. destruct cmd as [format pretty|rloc16 format pretty].
  - eapply total_then; [apply total_collect_topology|]. intros s _. apply total_plift; [by apply render_safe; exact (Node_unreachable 0)|].
    intros text Ht ->. by exists s.
  - apply total_bind, total_plift; [apply safe_ok_or|]. intros r _. eapply total_then; [apply total_collect_node|]. intros n _.
    apply total_plift; [by apply render_safe; exact (mkTopologySnapshot 0 EmptyString (mkNetworkInfo None None None None None None None None) [] [])|].
    intros text Ht ->. by exists n.
Qed.
Lemma dispatch_reads cmd elapsed border_agent show_secrets : asks (@reading JH) (dispatch cmd elapsed border_agent show_secrets).
Proof.
  unfold dispatch. apply asks_bind.
  { unfold Collector_start. apply asks_bind; [apply get_active_dataset_reads|]. intros d. apply asks_bind; [apply asks_plift|]. intros f.
    by apply asks_bind; [apply asks_plift|]. }
  intros c. destruct cmd as [format pretty|rloc16 format pretty].
  - apply asks_bind; [apply collect_topology_reads|]. intros s. apply asks_plift.
  - apply asks_bind; [apply asks_plift|]. intros r. apply asks_bind; [apply collect_node_reads|]. intros n. apply asks_plift.
Qed.

Lemma session_id_traced : traced Commissioner_session_id (fun l o => Forall (asked_of (@reading JH)) l /\ exists sid, o = inr sid).
Proof. intros [s b] _. destruct b, s; cbn; (split; [by repeat constructor|by eexists]). Qed.
Lemma diagnose_traced args elapsed show_secrets :
  traced (diagnose args elapsed show_secrets) (fun l out =>
    exists read resigned, l = read ++ [Asked CallResign resigned] /\ Forall (asked_of (@reading JH)) read /\
      forall text, out = inr text -> resigned = Some (inr tt) /\ printed_redacted (command args) show_secrets text).
Proof.
  unfold diagnose. apply traced_bind. eapply traced_mono; [|apply session_id_traced].
  intros l1 o [Hl1 [sid ->]]. apply traced_bind, traced_try.
  eapply traced_mono; [|apply (traced_asks (@reading JH)); [apply total_dispatch|apply dispatch_reads]].
  intros l2 result [Hl2 Hp]. intros resigned _. cbn [pbind try].
  assert (exists o, try (or_closed (A := unit) resigned) = Ret o /\ forall u, o = inr u -> resigned = Some (inr tt)) as (o & Ho & Hr).
  { destruct resigned as [[e|[]]|]; eexists; (split; [reflexivity|]); done. }
  rewrite Ho. cbn [pbind].
  destruct result as [e|output]; cbn [plift pbind traced]; [|destruct o as [e|u]; cbn [plift pbind traced]].
  all: exists (l1 ++ l2), resigned; rewrite <- app_assoc; split; [done|]; split; [by apply Forall_app|]; intros text Ht; try done.
  injection Ht as <-. split; [by apply (Hr u)|done].
Qed.
(** C20: The diagnostics tool only reads.  Whatever is answered, a run does not
    panic and ends.  Unless its arguments are refused, which asks nothing, it
    petitions first; once the border agent has accepted, every further request is
    a look at the status, a reading of the active dataset or a diagnostic request,
    up to the resignation, which is always made, once and last, however the walk
    ended.  Something is printed only when the resignation succeeded, and unless
    secrets are to be shown it is made of a redacted snapshot. *)
Theorem diagnostics_only_read args env_pskc env_show link elapsed :
  traced (run args env_pskc env_show link elapsed) (fun l out =>
    (l = [] /\ exists err, out = inl err) \/
    exists granted l', l = Asked CallPetition granted :: l' /\
      match granted with
      | Some (inr _) =>
          exists read resigned, l' = read ++ [Asked CallResign resigned] /\ Forall (asked_of (@reading JH)) read /\
            forall text, out = inr text ->
              resigned = Some (inr tt) /\ printed_redacted (command args) (arg_show_secrets args || env_show) text
      | _ => l' = [] /\ exists err, out = inl err
      end).
Proof.
  unfold run. apply traced_plift; [apply safe_ok_or|eauto|]. intros a _.
  apply traced_plift; [|eauto|].
  { unfold resolve_pskc. apply safe_bind; [apply safe_ok_or|]. intros h _. apply safe_bind; [by case_match|]. intros b _. by case_match. }
  intros pskc _. apply traced_bind. unfold connect. apply traced_plift; [|eauto|].
  { unfold connect_only. apply safe_bind; [unfold validate; by repeat case_match|]. intros _ _. case_match; [done|]. by destruct link. }
  intros _ _. unfold Commissioner_petition. intros granted _. cbn [pbind].
  destruct granted as [[err|response]|]; cbn [or_closed pbind traced].
  1, 3: right; do 2 eexists; split; [reflexivity|]; split; [done|by eexists].
  eapply traced_mono; [|apply diagnose_traced]. intros l out H. right. by exists (Some (inr response)), l.
Qed.
End Whole.
