(* ===== verification/Examples.v ===== *)
(** * Examples: the example programs

    The model of crates/meshcop/examples: commissionerctl.rs, smoke.rs,
    dataset_decode.rs, live_parity_probe.rs, live_scan_diag_probe.rs and their
    support modules.  A program prints lines, makes the requests of [Client], and
    listens to the session's events; the environment variables, the arguments
    and the outcome of the DTLS handshake are given.  What goes to standard error
    is left out.

    Whatever is answered, the programs only look: what a program asks between
    its connection and its resignation leaves the network as it was, and once it
    has a session it always resigns. *)
From S2P Require Import Prelude Text Hex Tlv Errors Dataset Coap NetDiag Messages Flags Joiner Ipv6 SocketAddr Pskc.
From S2P Require Import Commissioner SessionDriver SessionCore Client ClientWorld ClientSteering BTree Topology NetDiagTypes.
From S2P Require Import Collect CollectSafety Cli Report NetdiagMain CliInterpreter.

#[global] Instance Dataset_eq_dec : EqDecision Dataset.
Proof. solve_decision. Defined.

(** ** Programs at a terminal *)

(** What the session will publish, each event at its time; [None] is the end of
    the stream. *)
Record Ears := mkEars { ear_clock : Z; heard : list (Z * option CommissionerEvent) }.

(** The environment variables the examples read: MESHCOP_SHOW_SECRETS is set,
    ESP_MATTER_TEST_THREAD_DATASET_HEX and MESHCOP_BORDER_AGENT if they are set
    and are UTF-8, MESHCOP_MUTATE_OK if it is set. *)
Record Env := mkEnv { env_show : bool; env_dataset : option bytes; env_border_agent : option bytes; env_mutate : option bytes }.

(** A panic is one of a helper ([fault]) or of a failed expectation. *)
Section Scripts.
Context {JH : JoinerHandler}.

Inductive Script (X : Type) : Type :=
  | End (x : X)
  | Abort (why : fault + string)
  | Exit (code : Z)
  | Say (line : string) (s : Script X)
  | Ask (Y : Type) (r : Request Y) (k : Y -> Z -> Script X).
#[global] Arguments End {X} x.
#[global] Arguments Abort {X} why.
#[global] Arguments Exit {X} code.
#[global] Arguments Say {X} line s.
#[global] Arguments Ask {X Y} r k.

Fixpoint sbind {X Y} (s : Script X) (k : X -> Script Y) : Script Y :=
  match s with
  | End x => k x
  | Abort why => Abort why
  | Exit code => Exit code
  | Say line s => Say line (sbind s k)
  | Ask r k' => Ask r (fun y dt => sbind (k' y dt) k)
  end.

Definition Act (A : Type) : Type := Ears -> Script (Ears * (Error + A)).
Definition act_ret {A} (a : A) : Act A := fun e => End (e, inr a).
Definition act_bind {A B} (m : Act A) (k : A -> Act B) : Act B := fun e =>
  sbind (m e) (fun x => let '(e, r) := x in match r with inl err => End (e, inl err) | inr a => k a e end).
(** The result of an action as a value. *)
Definition attempt {A} (m : Act A) : Act (Error + A) := fun e => sbind (m e) (fun x => let '(e, r) := x in End (e, inr r)).
Definition of_sum {A} (r : Error + A) : Act A := fun e => End (e, r).
Definition lift {A} (r : result Error A) : Act A := fun e =>
  match r with Ok a => End (e, inr a) | Err err => End (e, inl err) | Panic f => Abort (inl f) end.
(** [.expect(message)]. *)
Definition expect {A} (o : option A) (message : string) : Act A := fun e =>
  match o with Some a => End (e, inr a) | None => Abort (inr message) end.
Definition println (line : string) : Act unit := fun e => Say line (End (e, inr tt)).
Definition exit (code : Z) : Act unit := fun _ => Exit code.
Definition hear (dt : Z) (e : Ears) : Ears := mkEars (ear_clock e + dt) (heard e).
(** A method of the handle; its requests take time. *)
Fixpoint perform_all {A} (p : Prog A) : Act A := fun e =>
  match p with
  | Ret a => End (e, inr a)
  | Throw err => End (e, inl err)
  | Crash f => Abort (inl f)
  | Do r k => Ask r (fun y dt => perform_all (k y) (hear dt e))
  end.
End Scripts.

Notation "'let&' x ':=' m 'in' k" := (act_bind m (fun x => k)) (at level 10, x name, m at level 100, k at level 200).
Notation "m1 ;& m2" := (act_bind m1 (fun _ => m2)) (at level 60, right associativity).

Section Examples.
Context {JH : JoinerHandler} {HX : Hex}.

Fixpoint for_each {A} (l : list A) (f : A -> Act unit) : Act unit :=
  match l with [] => act_ret tt | a :: l => f a ;& for_each l f end.
Definition if_let {A} (o : option A) (f : A -> Act unit) : Act unit := match o with Some a => f a | None => act_ret tt end.

(** ** support/ *)

Definition show_secrets_requested (env : Env) (args : list bytes) : list bytes * bool :=
  let show := existsb (fun arg => is_str arg "--show-secrets") args in
  (List.filter (fun arg => negb (is_str arg "--show-secrets")) args, show || env_show env).

Definition is_sensitive_tlv (t : Z) : bool :=
  existsb (Z.eqb t) [DS_TLV_PSKC; DS_TLV_NETWORK_KEY; DS_TLV_MESH_LOCAL_PREFIX; DS_TLV_EXTENDED_PAN_ID].

Definition print_tlv (label : string) (show_secrets : bool) (entry : TlvEntry) : Act unit :=
  let text := if show_secrets || negb (is_sensitive_tlv (ty entry)) then hex_encode (value entry) else "<redacted>"%string in
  println (label +:+ "_tlv type=0x" +:+ hex2 (ty entry) +:+ " len=" +:+ dec (len (value entry)) +:+ " value=" +:+ text).
Definition print_dataset_summary (label : string) (dataset : Dataset) (show_secrets : bool) : Act unit :=
  let& encoded := lift (Dataset_to_bytes dataset) in
  println (label +:+ "_encoded_len=" +:+ dec (len encoded)) ;&
  for_each (entries (tlvs dataset)) (print_tlv label show_secrets) ;&
  let& name := lift (Dataset_network_name dataset) in
  if_let name (fun name => println (label +:+ "_network_name=" +:+ string_of name)) ;&
  let& channel := lift (Dataset_channel dataset) in
  if_let channel (fun channel => println (label +:+ "_channel_page=" +:+ dec (channel_page channel) +:+ " " +:+ label +:+ "_channel="
    +:+ dec (channel_number channel))) ;&
  let& pan_id := lift (Dataset_pan_id dataset) in
  if_let pan_id (fun pan_id => println (label +:+ "_pan_id=0x" +:+ hex4 pan_id)).

(** [Display] of a socket address. *)
Definition SocketAddr_display (a : SocketAddr) : string :=
  match a with
  | SocketAddrV4 ip port => join "." (map dec ip) +:+ ":" +:+ dec port
  | SocketAddrV6 ip port scope_id =>
      "[" +:+ ipv6_display ip +:+ (if scope_id =? 0 then EmptyString else "%" +:+ dec scope_id) +:+ "]:" +:+ dec port
  end.

(** ** dataset_decode.rs *)

Definition dataset_decode_main (env : Env) (args : list bytes) : Act unit :=
  let '(args, show_secrets) := show_secrets_requested env args in
  let& hex := expect (match args with arg :: _ => Some arg | [] => env_dataset env end) "usage: dataset_decode [--show-secrets] <dataset-hex>" in
  let& dataset := lift (Dataset_from_hex hex) in
  print_dataset_summary "dataset" dataset show_secrets ;&
  act_ret tt.

(** ** smoke.rs *)

Definition DATASET_MESSAGE : string := "ESP_MATTER_TEST_THREAD_DATASET_HEX must contain an active dataset with PSKc".

(** The requests of the smoke test, whose result is the [async] block's. *)
Definition smoke (show_secrets : bool) : Act unit :=
  let& _ := perform_all Commissioner_keep_alive in
  let& active := perform_all (get_active_dataset DatasetFlags.EMPTY) in
  print_dataset_summary "active_dataset" active show_secrets ;&
  let& pending := perform_all (get_pending_dataset DatasetFlags.EMPTY) in
  print_dataset_summary "pending_dataset" pending show_secrets.
Definition smoke_main (env : Env) (args : list bytes) (link : result Error unit) : Act unit :=
  let '(_, show_secrets) := show_secrets_requested env args in
  let& dataset_hex := expect (env_dataset env) DATASET_MESSAGE in
  let& text := expect (env_border_agent env) "MESHCOP_BORDER_AGENT must name the border agent (host:port, resolved over mDNS)" in
  let& _ := expect (SocketAddr_parse text) "MESHCOP_BORDER_AGENT must be host:port" in
  let& dataset := lift (Dataset_from_hex dataset_hex) in
  let& config := lift (CommissionerConfig_from_dataset (str_bytes "meshcop-smoke") dataset) in
  perform_all (connect config link) ;&
  let& smoke_result := attempt (smoke show_secrets) in
  let& resign_result := attempt (perform_all Commissioner_resign) in
  of_sum smoke_result ;&
  of_sum resign_result.

(** ** commissionerctl.rs *)

Definition require_mutation_gate (env : Env) (command : string) : result Error unit :=
  match env_mutate env with
  | Some _ => Ok tt
  | None =>
      Err (EInvalidState (if String.eqb command "petition" then "petition command requires MESHCOP_MUTATE_OK=1"
                          else "mutating command requires MESHCOP_MUTATE_OK=1"))
  end.
(** The text of [AddrParseError]. *)
Definition PARSE_ERROR : string := "invalid socket address syntax".
Definition border_agent_arg (env : Env) (arg : option bytes) : result Error SocketAddr :=
  let! raw := ok_or (match arg with Some a => Some a | None => env_border_agent env end)
                (EConfiguration "border-agent host:port argument or MESHCOP_BORDER_AGENT required") in
  ok_or (SocketAddr_parse raw) (EDataset ("invalid border-agent address `" +:+ string_of raw +:+ "`: " +:+ PARSE_ERROR)).
Definition config_from_env (env : Env) : Act CommissionerConfig :=
  let& dataset_hex := expect (env_dataset env) DATASET_MESSAGE in
  let& dataset := lift (Dataset_from_hex dataset_hex) in
  lift (CommissionerConfig_from_dataset (str_bytes "meshcop") dataset).

Definition commissionerctl_main (env : Env) (args : list bytes) (link : result Error unit) : Act unit :=
  let '(args, show_secrets) := show_secrets_requested env args in
  match args with
  | [] => exit 2
  | command :: args =>
      let arg := head args in
      if is_str command "decode-dataset" then
        let& hex := expect (match arg with Some a => Some a | None => env_dataset env end)
                      "dataset hex argument or ESP_MATTER_TEST_THREAD_DATASET_HEX required" in
        let& dataset := lift (Dataset_from_hex hex) in
        print_dataset_summary "dataset" dataset show_secrets
      else if is_str command "connect" then
        let& addr := lift (border_agent_arg env arg) in
        let& config := config_from_env env in
        let& _ := lift (connect_only config link) in
        println ("connected to " +:+ SocketAddr_display addr) ;&
        perform_all Commissioner_resign
      else if is_str command "petition" then
        let& _ := lift (require_mutation_gate env "petition") in
        let& _ := lift (border_agent_arg env arg) in
        let& config := config_from_env env in
        perform_all (connect config link) ;&
        let& session_id := perform_all Commissioner_session_id in
        let& resign_result := attempt (perform_all Commissioner_resign) in
        if_let session_id (fun session_id => println ("petition accepted session_id=0x" +:+ hex4 session_id)) ;&
        of_sum resign_result
      else if is_str command "get-active-dataset" then
        let& _ := lift (border_agent_arg env arg) in
        let& config := config_from_env env in
        let& _ := lift (connect_only config link) in
        let& dataset_result := attempt (perform_all (get_active_dataset DatasetFlags.EMPTY)) in
        let& resign_result := attempt (perform_all Commissioner_resign) in
        let& dataset := of_sum dataset_result in
        print_dataset_summary "active_dataset" dataset show_secrets ;&
        of_sum resign_result
      else exit 2
  end.

(** ** live_parity_probe.rs *)

Definition AGENT_MESSAGE : string := "border-agent host:port argument or MESHCOP_BORDER_AGENT required".
Definition ADDRESS_MESSAGE : string := "border-agent address must be host:port".
Definition border_agent_or_env (env : Env) (args : list bytes) : Act SocketAddr :=
  let& text := expect (match args with arg :: _ => Some arg | [] => env_border_agent env end) AGENT_MESSAGE in
  expect (SocketAddr_parse text) ADDRESS_MESSAGE.

Definition result_code_label (code : ResultCode) : string :=
  match code with RcAccept => "Accept" | RcPending => "Pending" | RcReject => "Reject" end.

(** The end of both probes: the session is resigned however the probe ended. *)
Definition probe_outcome (probe_result : Error + unit) : string :=
  match probe_result with
  | inr _ => "== probe succeeded; resigning =="
  | inl err => "== probe failed (" +:+ string_of (Error_to_string err) +:+ "); resigning =="
  end.
Definition resigning (probe : Act unit) : Act unit :=
  let& probe_result := attempt probe in
  let& resign_result := attempt (perform_all Commissioner_resign) in
  println (probe_outcome probe_result) ;&
  of_sum probe_result ;&
  of_sum resign_result ;&
  println "== done ==".

Definition parity_probe (expected : Dataset) (show_secrets : bool) : Act unit :=
  let& petition := perform_all Commissioner_petition in
  println ("petition accepted: session_id=0x" +:+ hex4 (pr_session_id petition)) ;&
  if_let (pr_existing_commissioner_id petition) (fun existing =>
    println ("  (border agent reported existing commissioner: " +:+ string_of existing +:+ ")")) ;&
  let& keep_alive := perform_all Commissioner_keep_alive in
  println ("keep-alive: " +:+ result_code_label keep_alive) ;&
  let& live := perform_all (get_active_dataset DatasetFlags.ALL) in
  println "-- live active dataset --" ;&
  print_dataset_summary "active" live show_secrets ;&
  (if bool_decide (live = expected) then println "active dataset MATCHES the configured dataset"
   else println ("active dataset DIFFERS from the configured dataset (live tlvs=" +:+ dec (len (entries (tlvs live))) +:+
          ", configured tlvs=" +:+ dec (len (entries (tlvs expected))) +:+ ")")) ;&
  let& answer := attempt (perform_all (get_commissioner_dataset CommissionerDatasetFlags.ALL)) in
  match answer with
  | inr commissioner_dataset =>
      println "-- commissioner dataset (via UDP proxy to Leader ALOC) --" ;&
      print_dataset_summary "commissioner" commissioner_dataset show_secrets
  | inl err => println ("commissioner dataset read failed: " +:+ string_of (Error_to_string err))
  end.
Definition parity_probe_main (env : Env) (args : list bytes) (link : result Error unit) : Act unit :=
  let '(args, show_secrets) := show_secrets_requested env args in
  let& border_agent := border_agent_or_env env args in
  let& dataset_hex := expect (env_dataset env) DATASET_MESSAGE in
  let& expected := lift (Dataset_from_hex dataset_hex) in
  let& config := lift (CommissionerConfig_from_dataset (str_bytes "meshcop-probe") expected) in
  println ("== connecting to " +:+ SocketAddr_display border_agent +:+ " ==") ;&
  let& _ := lift (connect_only config link) in
  resigning (parity_probe expected show_secrets).

(** ** live_scan_diag_probe.rs *)

Definition EVENT_TIMEOUT : Z := seconds 20.
Definition CONFLICT_TIMEOUT : Z := seconds 8.
Definition SCAN_COUNT : Z := 1.
Definition SCAN_PERIOD_MS : Z := 500.
Definition SCAN_DURATION_MS : Z := 200.
Definition ANNOUNCE_COUNT : Z := 1.
Definition ANNOUNCE_PERIOD_MS : Z := 500.

Definition event_label (event : CommissionerEvent) : string :=
  match event with
  | EvKeepAliveResponse _ => "keep-alive response"
  | EvDatasetChanged => "dataset changed"
  | EvPanIdConflict _ _ _ => "PAN ID conflict"
  | EvEnergyReport _ _ _ => "energy report"
  | EvJoinerMessage _ _ _ => "joiner message"
  | EvDiagnosticAnswer _ _ => "diagnostic answer"
  | _ => "unhandled event"
  end.

(** The loop of [wait_for_event]: [tokio::time::timeout] looks at the stream
    first, so an event at the deadline itself is still heard. *)
Fixpoint wait_loop (matches : CommissionerEvent -> bool) (deadline now : Z) (stream : list (Z * option CommissionerEvent))
    : Script (Ears * (Error + option CommissionerEvent)) :=
  if deadline <=? now then End (mkEars now stream, inr None)
  else
    match stream with
    | [] => End (mkEars deadline [], inr None)
    | (t, next) :: rest =>
        let now' := Z.max now t in
        if deadline <? now' then End (mkEars deadline stream, inr None)
        else
          match next with
          | None => End (mkEars now' stream, inr None)
          | Some (EvSessionLost reason) => End (mkEars now' rest, inl (ESessionLost reason))
          | Some event =>
              if matches event then End (mkEars now' rest, inr (Some event))
              else Say ("  (other event: " +:+ event_label event +:+ ")") (wait_loop matches deadline now' rest)
          end
    end.
Definition wait_for_event (timeout : Z) (matches : CommissionerEvent -> bool) : Act (option CommissionerEvent) := fun e =>
  wait_loop matches (ear_clock e + timeout) (ear_clock e) (heard e).

(** [Debug] of the derived kind. *)
Definition bool_debug (b : bool) : string := if b then "true" else "false".
Definition ModeData_debug (mode : ModeData) : string :=
  "ModeData { rx_on_when_idle: " +:+ bool_debug (rx_on_when_idle mode) +:+ ", is_mtd: " +:+ bool_debug (is_mtd mode) +:+
  ", requires_full_network_data: " +:+ bool_debug (requires_full_network_data mode) +:+ " }".

Definition print_child (child : ChildTableEntry) : Act unit :=
  let& timeout := lift (timeout_seconds child) in
  println ("  child_id=" +:+ dec (child_id child) +:+ " timeout_s=" +:+ dec timeout +:+ " incoming_lq=" +:+ dec (child_incoming_link_quality child)).
Definition print_diag_summary (data : NetDiagData) (show_secrets : bool) : Act unit :=
  if_let (ext_mac_addr data) (fun ext_mac => println ("diag_ext_mac=" +:+ hex_encode ext_mac)) ;&
  if_let (mac_addr data) (fun rloc16 => println ("diag_rloc16=0x" +:+ hex4 rloc16)) ;&
  if_let (diag_mode data) (fun mode => println ("diag_mode=" +:+ ModeData_debug mode)) ;&
  if_let (leader_data data) (fun leader =>
    println ("diag_leader partition_id=0x" +:+ hex8 (partition_id leader) +:+ " weighting=" +:+ dec (weighting leader) +:+
      " data_version=" +:+ dec (data_version leader) +:+ " stable_data_version=" +:+ dec (stable_data_version leader) +:+
      " router_id=" +:+ dec (leader_router_id leader))) ;&
  if_let (route64 data) (fun route64 =>
    println ("diag_route64 id_sequence=" +:+ dec (route_id_sequence route64) +:+ " routers=" +:+ dec (len (route_data route64)))) ;&
  if_let (connectivity data) (fun connectivity =>
    println ("diag_connectivity parent_priority=" +:+ dec (parent_priority connectivity) +:+ " lq3=" +:+ dec (link_quality_3 connectivity) +:+
      " lq2=" +:+ dec (link_quality_2 connectivity) +:+ " lq1=" +:+ dec (link_quality_1 connectivity) +:+
      " leader_cost=" +:+ dec (leader_cost connectivity))) ;&
  if_let (addresses data) (fun addresses =>
    if show_secrets then for_each addresses (fun address => println ("diag_address=" +:+ ipv6_display address))
    else println ("diag_addresses=" +:+ dec (len addresses) +:+ " (redacted)")) ;&
  if_let (child_table data) (fun children =>
    println ("diag_child_table entries=" +:+ dec (len children)) ;& for_each children print_child) ;&
  if_let (network_data data) (fun network_data => println ("diag_network_data prefixes=" +:+ dec (len (prefixes network_data)))) ;&
  if_let (channel_pages data) (fun pages => println ("diag_channel_pages=" +:+ bytes_debug pages)).

Definition LEADER_ALOC_IID : bytes := [0x00; 0x00; 0x00; 0xff; 0xfe; 0x00; 0xfc; 0x00].
Definition leader_aloc_from_dataset (dataset : Dataset) : Act Ipv6Addr :=
  let& found := lift (Dataset_mesh_local_prefix dataset) in
  let& prefix := expect found "configured dataset must contain a mesh-local prefix" in
  act_ret (prefix ++ LEADER_ALOC_IID).
Definition page0_channel_mask (channel : Z) : Act Z := fun e =>
  if channel <=? 31 then End (e, inr (Z.shiftl 1 (31 - channel))) else Abort (inr "page-0 channels fit in a 32-bit mask"%string).
Definition redact_addr (addr : string) (show_secrets : bool) : string := if show_secrets then addr else "<redacted>".

Definition DIAG_FLAGS : Z :=
  fold_left Z.lor [diag_flags.MAC_ADDR; diag_flags.MODE; diag_flags.ROUTE64; diag_flags.LEADER_DATA; diag_flags.IPV6_ADDRESSES;
    diag_flags.CHILD_TABLE; diag_flags.CONNECTIVITY; diag_flags.NETWORK_DATA; diag_flags.CHANNEL_PAGES] diag_flags.EXT_MAC_ADDR.

Definition is_energy_report (event : CommissionerEvent) : bool := match event with EvEnergyReport _ _ _ => true | _ => false end.
Definition is_pan_id_conflict (event : CommissionerEvent) : bool := match event with EvPanIdConflict _ _ _ => true | _ => false end.
Definition is_diagnostic_answer (event : CommissionerEvent) : bool := match event with EvDiagnosticAnswer _ _ => true | _ => false end.
(** [unreachable!]. *)
Definition unreachable {A} : Act A := fun _ => Abort (inr "wait_for_event only returns matching events"%string).

Definition probe_energy (leader_aloc : Ipv6Addr) (channel_mask channel : Z) (show_secrets : bool) : Act unit :=
  println ("-- energy scan (channel " +:+ dec channel +:+ ", mask 0x" +:+ hex8 channel_mask +:+ ") --") ;&
  perform_all (energy_scan channel_mask SCAN_COUNT SCAN_PERIOD_MS SCAN_DURATION_MS leader_aloc) ;&
  println "energy scan accepted; waiting for MGMT_ED_REPORT.ans" ;&
  let& event := wait_for_event EVENT_TIMEOUT is_energy_report in
  match event with
  | Some (EvEnergyReport peer_addr channel_mask energy_list) =>
      println ("energy report: peer=" +:+ redact_addr peer_addr show_secrets +:+ " mask=0x" +:+ hex8 channel_mask +:+
        " samples_dbm=[" +:+ join "," (map (fun raw => dec (as_i8 raw)) energy_list) +:+ "]")
  | Some _ => unreachable
  | None => println "no energy report within 20s"
  end.
Definition probe_pan_id (leader_aloc : Ipv6Addr) (channel_mask pan_id : Z) (show_secrets : bool) : Act unit :=
  println ("-- PAN ID query (pan_id=0x" +:+ hex4 pan_id +:+ ") --") ;&
  perform_all (pan_id_query channel_mask pan_id leader_aloc) ;&
  println "PAN ID query accepted; waiting for conflict reports" ;&
  let& event := wait_for_event CONFLICT_TIMEOUT is_pan_id_conflict in
  match event with
  | Some (EvPanIdConflict peer_addr channel_mask pan_id) =>
      println ("PAN ID conflict: peer=" +:+ redact_addr peer_addr show_secrets +:+ " mask=0x" +:+ hex8 channel_mask +:+
        " pan_id=0x" +:+ hex4 pan_id)
  | Some _ => unreachable
  | None => println "no conflict reported within 8s (expected on a healthy network)"
  end.
Definition probe_diagnostics (show_secrets : bool) : Act unit :=
  println "-- network diagnostics (DIAG_GET to leader) --" ;&
  perform_all (diagnostic_get None DIAG_FLAGS) ;&
  println "diagnostic get accepted; waiting for DIAG_GET.ans" ;&
  let& event := wait_for_event EVENT_TIMEOUT is_diagnostic_answer in
  match event with
  | Some (EvDiagnosticAnswer peer_addr data) =>
      println ("diagnostic answer from peer=" +:+ redact_addr peer_addr show_secrets) ;&
      print_diag_summary data show_secrets
  | Some _ => unreachable
  | None => println "no diagnostic answer within 20s"
  end.
(** [MESHCOP_MUTATE_OK=1]. *)
Definition may_mutate (env : Env) : bool := match env_mutate env with Some v => is_str v "1" | None => false end.
Definition probe_announce (env : Env) (leader_aloc : Ipv6Addr) (channel_mask channel : Z) : Act unit :=
  if may_mutate env then
    println ("-- announce begin (channel " +:+ dec channel +:+ ") --") ;&
    perform_all (announce_begin channel_mask ANNOUNCE_COUNT ANNOUNCE_PERIOD_MS leader_aloc) ;&
    println ("announce begin accepted (devices announce on channel " +:+ dec channel +:+ ")")
  else println "-- announce begin skipped (set MESHCOP_MUTATE_OK=1 to enable) --".
Definition scan_probe (env : Env) (leader_aloc : Ipv6Addr) (channel_mask channel pan_id : Z) (show_secrets : bool) : Act unit :=
  let& petition := perform_all Commissioner_petition in
  println ("petition accepted: session_id=0x" +:+ hex4 (pr_session_id petition)) ;&
  probe_energy leader_aloc channel_mask channel show_secrets ;&
  probe_pan_id leader_aloc channel_mask pan_id show_secrets ;&
  probe_diagnostics show_secrets ;&
  probe_announce env leader_aloc channel_mask channel.

Definition scan_probe_main (env : Env) (args : list bytes) (link : result Error unit) : Act unit :=
  let '(args, show_secrets) := show_secrets_requested env args in
  let& border_agent := border_agent_or_env env args in
  let& dataset_hex := expect (env_dataset env) DATASET_MESSAGE in
  let& dataset := lift (Dataset_from_hex dataset_hex) in
  let& config := lift (CommissionerConfig_from_dataset (str_bytes "meshcop-scan") dataset) in
  let& channel := lift (Dataset_channel dataset) in
  let& channel := expect channel "configured dataset must contain a channel" in
  let& pan_id := lift (Dataset_pan_id dataset) in
  let& pan_id := expect pan_id "configured dataset must contain a PAN ID" in
  let& leader_aloc := leader_aloc_from_dataset dataset in
  let& channel_mask := page0_channel_mask (channel_number channel) in
  println ("== connecting to " +:+ SocketAddr_display border_agent +:+ " ==") ;&
  let& _ := lift (connect_only config link) in
  resigning (scan_probe env leader_aloc channel_mask (channel_number channel) pan_id show_secrets).

(** ** The examples that use the library's client *)

Inductive Example := DatasetDecode | Smoke | Commissionerctl | ParityProbe | ScanProbe.
Definition example_main (x : Example) (env : Env) (args : list bytes) (link : Error + unit) : Act unit :=
  let link := match link with inr _ => Ok tt | inl err => Err err end in
  match x with
  | DatasetDecode => dataset_decode_main env args
  | Smoke => smoke_main env args link
  | Commissionerctl => commissionerctl_main env args link
  | ParityProbe => parity_probe_main env args link
  | ScanProbe => scan_probe_main env args link
  end.
End Examples.
