(* ===== verification/ExampleSafety.v ===== *)
(** * ExampleSafety: what the example programs may do

    The logic of [Script]s, and the claims on the examples: whatever is answered
    and whatever events arrive, they panic at most before they connect, change
    nothing on the network unless they were told that they may, and resign. *)
From S2P Require Import Prelude Text Hex Tlv Errors Dataset Coap NetDiag Messages Flags Joiner Ipv6 SocketAddr Pskc.
From S2P Require Import Commissioner SessionDriver SessionCore Client ClientWorld ClientSteering BTree Topology NetDiagTypes.
From S2P Require Import Collect CollectSafety Cli CliSafety Report NetdiagMain Examples.

(** ** Methods of the handle *)

Section Mild.
Context {JH : JoinerHandler}.

(** No fault on answers made of bytes, every request satisfies [R], and what is
    returned satisfies [P]. *)
Fixpoint mild (R : forall X, Request X -> Prop) {A} (P : A -> Prop) (p : Prog A) : Prop :=
  match p with
  | Ret a => P a
  | Throw _ => True
  | Crash _ => False
  | Do r k => R _ r /\ forall x, answer_ok r x -> mild R P (k x)
  end.
Lemma mild_bind R {A B} (P : A -> Prop) (Q : B -> Prop) (p : Prog A) (k : A -> Prog B) :
  mild R P p -> (forall a, P a -> mild R Q (k a)) -> mild R Q (pbind p k).
Proof. intros Hp Hk. induction p as [| | |X r k' IH]; cbn in *; [by apply Hk|done..|]. split; [apply Hp|]. intros x Hx. by apply IH, Hp. Qed.
Lemma mild_plift R {A} (P : A -> Prop) (r : result Error A) : safe r -> (forall a, r = Ok a -> P a) -> mild R P (plift r).
Proof. destruct r; cbn; auto. Qed.
Lemma mild_mono R {A} (P Q : A -> Prop) (p : Prog A) : mild R P p -> (forall a, P a -> Q a) -> mild R Q p.
Proof. intros Hp HQ. induction p as [| | |X r k IH]; cbn in *; auto. split; [apply Hp|]. intros x Hx. by apply IH, Hp. Qed.
Lemma mild_allow (R R' : forall X, Request X -> Prop) {A} (P : A -> Prop) (p : Prog A) : mild R P p -> (forall X (r : Request X), R X r -> R' X r) -> mild R' P p.
Proof. intros Hp HR. induction p as [| | |X r k IH]; cbn in *; auto. split; [apply HR, Hp|]. intros x Hx. by apply IH, Hp. Qed.
End Mild.

(** Looking at the session, petitioning if [may_petition], keeping alive, and the
    exchanges of [ops]. *)
Definition gentle {JH : JoinerHandler} (may_petition : Prop) (ops : list CommissionerOperation) (X : Type) (r : Request X) : Prop :=
  match r with
  | Watch | ReadPrefix | StorePrefix _ _ | CallKeepAlive => True
  | CallPetition => may_petition
  | Submit o => exists op, op ∈ ops /\ addressed op (ob_message o)
  | _ => False
  end.

Section Methods.
Context {JH : JoinerHandler}.
Context (may_petition : Prop) (ops : list CommissionerOperation).
Notation mild P p := (mild (gentle may_petition ops) P p).
Notation anything := (fun _ => True).

Lemma mild_session_id : mild anything Commissioner_session_id.
Proof. split; [done|]. intros [s b] _. by destruct b, s. Qed.
Lemma mild_session_required : mild anything session_id_required.
Proof. eapply mild_bind; [apply mild_session_id|]. intros o _. by apply mild_plift; [apply safe_ok_or|]. Qed.

Definition response_bytes (m : CoapMessage) : Prop := bytes_ok (payload m).
Lemma mild_exchange op m dest expect : op ∈ ops -> addressed op m -> mild (is_some_with response_bytes) (execute op m dest expect).
Proof. intros Hop Hm. split; [by exists op|]. by intros [[e|[r|]]|]. Qed.
Lemma mild_successful r : is_some_with response_bytes r -> mild response_bytes (successful r).
Proof.
  intros Hr. unfold successful. apply mild_plift; [destruct r; cbn [ok_or rbind]; [|done]; unfold require_success_response; by case_match|].
  intros m. destruct r as [r|]; [|done]. cbn [ok_or rbind is_some_with] in *. unfold require_success_response. case_match; [done|]. by intros [= <-].
Qed.
Lemma mild_direct op m : op ∈ ops -> addressed op m -> mild response_bytes (execute_meshcop op m).
Proof. intros Hop Hm. eapply mild_bind; [by apply mild_exchange|]. apply mild_successful. Qed.
Lemma mild_proxied op m dest : op ∈ ops -> addressed op m -> mild response_bytes (execute_proxied op m dest).
Proof. intros Hop Hm. eapply mild_bind; [by apply mild_exchange|]. apply mild_successful. Qed.
Lemma mild_state m : response_bytes m -> mild anything (plift (check_state_response m false)).
Proof.
  intros Hm. apply mild_plift; [|done]. unfold check_state_response. apply safe_bind; [by apply parse_state_response_safe|]. intros st _. by repeat case_match.
Qed.
Lemma mild_command op m dest : op ∈ ops -> addressed op m -> mild anything (execute_proxied_command op m dest).
Proof. intros Hop Hm. eapply mild_bind; [by apply mild_exchange|]. by intros [r|]; [apply mild_state|]. Qed.

Lemma dataset_request_safe op types : safe (dataset_get_request op 0 [] types).
Proof. unfold dataset_get_request. apply safe_bind; [by destruct (is_empty _); [|apply append_tlv_safe]|intros ? _; apply post_request_safe]. Qed.
Lemma mild_raw_active flags : GetActiveDataset ∈ ops -> mild (fun b => bytes_ok b) (get_raw_active_dataset flags).
Proof.
  intros Hop. eapply mild_bind; [apply mild_plift with (P := addressed GetActiveDataset); [apply dataset_request_safe|apply get_addressed]|].
  intros m Hm. eapply mild_bind; [by apply mild_direct|]. by intros r Hr.
Qed.
Lemma dataset_bytes_ok b : bytes_ok b -> safe (Dataset_from_bytes b) /\ forall d, Dataset_from_bytes b = Ok d -> TlvSet_wf (tlvs d).
Proof.
  intros Hb. split; [unfold Dataset_from_bytes; by apply safe_map_ok, parse_tlvs_safe|]. intros d.
  unfold Dataset_from_bytes. destruct (from_tlv (TlvSet_parse b)) as [t|e|f] eqn:Et; [|done..]. intros [= <-]. apply from_tlv_ok in Et. by apply (TlvSet_parse_wf b).
Qed.
Lemma mild_dataset b : bytes_ok b -> mild (fun d => TlvSet_wf (tlvs d)) (plift (Dataset_from_bytes b)).
Proof. intros Hb. by apply mild_plift; apply dataset_bytes_ok. Qed.
Lemma mild_active flags : GetActiveDataset ∈ ops -> mild (fun d => TlvSet_wf (tlvs d)) (get_active_dataset flags).
Proof. intros Hop. eapply mild_bind; [by apply mild_raw_active|]. intros b. apply mild_dataset. Qed.
Lemma mild_pending flags : GetPendingDataset ∈ ops -> mild (fun d => TlvSet_wf (tlvs d)) (get_pending_dataset flags).
Proof.
  intros Hop. eapply mild_bind; [apply mild_plift with (P := addressed GetPendingDataset); [apply dataset_request_safe|apply get_addressed]|].
  intros m Hm. eapply mild_bind; [by apply mild_direct|]. intros r. apply mild_dataset.
Qed.
Lemma mild_prefix : GetActiveDataset ∈ ops -> mild anything require_mesh_local_prefix.
Proof.
  intros Hop. split; [done|]. intros c _. cbn [pbind perform]. destruct (Commissioner.prefix c) as [p|]; [done|].
  eapply mild_bind; [by apply mild_raw_active|]. intros b Hb. eapply mild_bind; [by apply mild_dataset|]. intros d Hd.
  eapply mild_bind; [apply mild_plift with (P := is_some_with (fun p => len p = 8))|].
  - apply safe_map_transpose. intros. apply read_array_safe.
  - intros o. unfold Dataset_mesh_local_prefix. destruct (Dataset_raw d _) as [v|]; cbn; [|by intros [= <-]].
    unfold read_array. case_match; cbn; [|done]. intros [= <-]. cbn. by zbool.
  - intros o Ho. eapply mild_bind; [apply mild_plift with (P := fun p => len p = 8); [apply safe_ok_or|]|].
    { intros p. destruct o; cbn; [|done]. by intros [= <-]. }
    cbn. intros p Hp. eapply mild_bind; [apply mild_plift with (P := anything); [apply safe_idx; lia|done]|].
    intros first _. case_match; [done|]. by split.
Qed.
Lemma mild_leader_aloc : GetActiveDataset ∈ ops -> mild anything leader_aloc.
Proof. intros Hop. eapply mild_bind; [by apply mild_prefix|]. done. Qed.
Lemma mild_commissioner_dataset flags : GetActiveDataset ∈ ops -> GetCommissionerDataset ∈ ops ->
  mild (fun d => TlvSet_wf (tlvs d)) (get_commissioner_dataset flags).
Proof.
  intros H1 H2. eapply mild_bind; [by apply mild_leader_aloc|]. intros a _.
  eapply mild_bind; [apply mild_plift with (P := addressed GetCommissionerDataset); [apply dataset_request_safe|apply get_addressed]|].
  intros m Hm. eapply mild_bind; [by apply mild_proxied|]. intros r. apply mild_dataset.
Qed.

(** ** The requests of the probes *)

Lemma mask_safe m : safe (channel_mask_value m).
Proof. unfold channel_mask_value. case_match; [done|]. unfold ChannelMaskEntry_encode_all. cbn [ChannelMaskEntry_encode_loop mask]. by case_match. Qed.
Lemma announce_safe sid cm c p b : safe (announce_begin_request 0 [] sid cm c p b).
Proof. unfold announce_begin_request. repeat (apply safe_bind; [first [apply append_tlv_safe|apply mask_safe]|intros ? _]). apply post_request_safe. Qed.
Lemma pan_id_safe sid cm p b : safe (pan_id_query_request 0 [] sid cm p b).
Proof. unfold pan_id_query_request. repeat (apply safe_bind; [first [apply append_tlv_safe|apply mask_safe]|intros ? _]). apply post_request_safe. Qed.
Lemma scan_safe sid s : safe (energy_scan_request 0 [] sid s).
Proof. unfold energy_scan_request. repeat (apply safe_bind; [first [apply append_tlv_safe|apply mask_safe]|intros ? _]). apply post_request_safe. Qed.
Lemma diagnostic_safe op f b : safe (diagnostic_request op 0 [] f b).
Proof. unfold diagnostic_request. apply safe_bind; [apply append_tlv_safe|intros ? _]. apply post_request_safe. Qed.

Lemma mild_energy_scan cm c p d dest : EnergyScan ∈ ops -> mild anything (energy_scan cm c p d dest).
Proof.
  intros Hop. eapply mild_bind; [apply mild_session_required|]. intros sid _.
  eapply mild_bind; [apply mild_plift with (P := addressed EnergyScan); [apply scan_safe|apply scan_addressed]|].
  intros m Hm. by apply mild_command.
Qed.
Lemma mild_pan_id_query cm p dest : PanIdQuery ∈ ops -> mild anything (pan_id_query cm p dest).
Proof.
  intros Hop. eapply mild_bind; [apply mild_session_required|]. intros sid _.
  eapply mild_bind; [apply mild_plift with (P := addressed PanIdQuery); [apply pan_id_safe|apply pan_id_addressed]|].
  intros m Hm. by apply mild_command.
Qed.
Lemma mild_announce cm c p dest : AnnounceBegin ∈ ops -> mild anything (announce_begin cm c p dest).
Proof.
  intros Hop. eapply mild_bind; [apply mild_session_required|]. intros sid _.
  eapply mild_bind; [apply mild_plift with (P := addressed AnnounceBegin); [apply announce_safe|apply announce_addressed]|].
  intros m Hm. by apply mild_command.
Qed.
Lemma mild_diagnostic_get dest f : GetActiveDataset ∈ ops -> DiagnosticGet ∈ ops -> mild anything (diagnostic_get dest f).
Proof.
  intros H1 H2. eapply mild_bind; [apply mild_session_required|]. intros _ _.
  eapply mild_bind; [instantiate (1 := anything); destruct dest; [done|by apply mild_leader_aloc]|]. intros a _.
  eapply mild_bind; [apply mild_plift with (P := addressed DiagnosticGet); [apply diagnostic_safe|apply diagnostic_addressed]|].
  intros m Hm. eapply mild_bind; [by apply mild_proxied|]. intros r. apply mild_state.
Qed.
Lemma mild_keep_alive : mild anything Commissioner_keep_alive.
Proof. split; [done|]. by intros [[e|c]|]. Qed.
Lemma mild_petition : may_petition -> mild anything Commissioner_petition.
Proof. intros Hp. split; [done|]. by intros [[e|c]|]. Qed.
End Methods.

(** ** Scripts *)

Section Scripts.
Context {JH : JoinerHandler} {HX : Hex}.

Inductive Outcome (X : Type) := Ended (x : X) | Aborted | Exited (code : Z).
#[local] Arguments Ended {X} x.
#[local] Arguments Aborted {X}.
#[local] Arguments Exited {X} code.

(** What was asked and answered, and how it ended, satisfy [Q]. *)
Fixpoint traces {X} (s : Script X) (Q : list asked -> Outcome X -> Prop) : Prop :=
  match s with
  | End x => Q [] (Ended x)
  | Abort _ => Q [] Aborted
  | Exit code => Q [] (Exited code)
  | Say _ s => traces s Q
  | Ask r k => forall y dt, answer_ok r y -> 0 <= dt -> traces (k y dt) (fun l o => Q (Asked r y :: l) o)
  end.
Lemma traces_mono {X} (s : Script X) (Q Q' : list asked -> Outcome X -> Prop) : traces s Q -> (forall l o, Q l o -> Q' l o) -> traces s Q'.
Proof.
  revert Q Q'. induction s as [| | |line s IH|Y r k IH]; intros Q Q' Hs HQ; cbn in *; eauto.
Qed.
Lemma traces_bind {X Y} (s : Script X) (k : X -> Script Y) Q :
  traces s (fun l o => match o with Ended x => traces (k x) (fun l' o' => Q (l ++ l') o') | Aborted => Q l Aborted | Exited c => Q l (Exited c) end) ->
  traces (sbind s k) Q.
Proof.
  revert Q. induction s as [| | |line s IH|Z r k' IH]; intros Q Hs; cbn in *; auto.
Qed.

(** Events carry data as the session decoded it. *)
Definition event_ok (event : CommissionerEvent) : Prop := match event with EvDiagnosticAnswer _ data => diag_wf data | _ => True end.
Definition ears_ok (e : Ears) : Prop := Forall (fun x => is_some_with event_ok x.2) (heard e).

(** An action that ends, whatever it meets, having asked only what [R] allows. *)
Definition calm (R : forall X, Request X -> Prop) {A} (P : A -> Prop) (m : Act A) : Prop := forall e, ears_ok e ->
  traces (m e) (fun l o => Forall (asked_of R) l /\ exists e' r, o = Ended (e', r) /\ ears_ok e' /\ match r with inr a => P a | inl _ => True end).
Notation anything := (fun _ => True).

Section Logic.
Context (R : forall X, Request X -> Prop).
Lemma calm_bind {A B} (P : A -> Prop) (Q : B -> Prop) m (k : A -> Act B) :
  calm R P m -> (forall a, P a -> calm R Q (k a)) -> calm R Q (act_bind m k).
Proof.
  intros Hm Hk e He. apply traces_bind. eapply traces_mono; [by apply Hm|]. cbn. intros l o (Hl & e' & r & -> & He' & Hr).
  destruct r as [err|a]; cbn.
  - rewrite app_nil_r. split; [done|]. by exists e', (inl err).
  - eapply traces_mono; [by apply (Hk a Hr e')|]. cbn. intros l' o' [Hl' Ho']. split; [by apply Forall_app|done].
Qed.
Lemma calm_attempt {A} (P : A -> Prop) m : calm R P m -> calm R (fun r => match r with inr a => P a | inl _ => True end) (attempt m).
Proof.
  intros Hm e He. apply traces_bind. eapply traces_mono; [by apply Hm|]. cbn. intros l o (Hl & e' & r & -> & He' & Hr). cbn.
  rewrite app_nil_r. split; [done|]. by exists e', (inr r).
Qed.
Lemma calm_ret {A} (P : A -> Prop) a : P a -> calm R P (act_ret a).
Proof. intros Ha e He. split; [done|]. by exists e, (inr a). Qed.
Lemma calm_println (P : unit -> Prop) line : P tt -> calm R P (println line).
Proof. intros Ha e He. split; [done|]. by exists e, (inr tt). Qed.
Lemma calm_lift {A} (P : A -> Prop) (r : result Error A) : safe r -> (forall a, r = Ok a -> P a) -> calm R P (lift r).
Proof. intros Hr HP e He. unfold lift. destruct r as [a|err|f]; [| |done]; (split; [done|]); [exists e, (inr a)|exists e, (inl err)]; auto. Qed.
Lemma calm_perform {A} (P : A -> Prop) (p : Prog A) : mild R P p -> calm R P (perform_all p).
Proof.
  intros Hp e He. revert e He. induction p as [a|err|f|X r k IH]; intros e He; cbn in Hp |- *; [..|done|].
  - split; [done|]. by exists e, (inr a).
  - split; [done|]. by exists e, (inl err).
  - destruct Hp as [Hr Hk]. intros y dt Hy Hdt. eapply traces_mono; [apply IH; [by apply Hk|done]|]. cbn.
    intros l o [Hl Ho]. split; [by constructor|done].
Qed.
Lemma calm_for_each {A} (l : list A) (f : A -> Act unit) : Forall (fun a => calm R anything (f a)) l -> calm R anything (for_each l f).
Proof. induction 1 as [|a l Ha _ IH]; cbn [for_each]; [by apply calm_ret|]. by eapply calm_bind. Qed.
Lemma calm_if_let {A} (o : option A) (f : A -> Act unit) : is_some_with (fun a => calm R anything (f a)) o -> calm R anything (if_let o f).
Proof. destruct o; [done|]. intros _. by apply calm_ret. Qed.
Lemma calm_wait timeout matches : calm R (is_some_with (fun ev => matches ev = true /\ event_ok ev)) (wait_for_event timeout matches).
Proof.
  intros e He. unfold wait_for_event. set (deadline := ear_clock e + timeout). generalize (ear_clock e) as now.
  unfold ears_ok in He. induction He as [|[t next] rest Hn Hrest IH]; intros now; cbn [wait_loop]; cbv zeta; (case_match; [split; [done|]; eexists _, (inr None); by repeat constructor|]).
  { split; [done|]. eexists _, (inr None). by repeat constructor. }
  cbn in Hn. case_match; [split; [done|]; eexists _, (inr None); split; [done|]; split; [by constructor|done]|].
  destruct next as [ev|]; [|split; [done|]; eexists _, (inr None); split; [done|]; split; [by constructor|done]].
  destruct (matches ev) eqn:Em, ev; cbn [traces]; first [apply IH | split; [done|]; eexists _, _; split; [done|]; split; [exact Hrest|done]].
Qed.
Lemma calm_of_sum {A} (r : Error + A) : calm R (fun a => r = inr a) (of_sum r).
Proof. intros e He. split; [done|]. by exists e, r; destruct r. Qed.
Lemma calm_mono {A} (P Q : A -> Prop) m : calm R P m -> (forall a, P a -> Q a) -> calm R Q m.
Proof.
  intros Hm HQ e He. eapply traces_mono; [by apply Hm|]. cbn. intros l o (Hl & e' & r & -> & He' & Hr). split; [done|].
  exists e', r. split; [done|]. split; [done|]. destruct r; auto.
Qed.
End Logic.

(** ** Programs that resign *)

Definition silent (X : Type) (r : Request X) : Prop := False.
(** The trace of a program whose last request is the resignation. *)
Definition resigned_last (R : forall X, Request X -> Prop) (l : list asked) (o : Outcome (Ears * (Error + unit))) : Prop :=
  exists looked resigned e r, l = looked ++ [Asked CallResign resigned] /\ Forall (asked_of R) looked /\ o = Ended (e, r) /\
    (r = inr tt -> resigned = Some (inr tt)).

Lemma resign_only R (k : Error + unit -> Act unit) e : ears_ok e -> (forall rr, calm silent (fun _ => rr = inr tt) (k rr)) ->
  traces ((let& rr := attempt (perform_all Commissioner_resign) in k rr) e) (resigned_last R).
Proof.
  intros He Hk. assert (forall rr l dt, (rr = inr tt -> l = Some (inr tt)) ->
    traces (k rr (hear dt e)) (fun l' o => resigned_last R (Asked CallResign l :: l') o)) as H.
  { intros rr resigned dt Hrr. eapply traces_mono; [by apply Hk|]. cbn. intros l o (Hl & e' & r & -> & _ & Hr).
    assert (l = []) as -> by (destruct l as [|[] l]; [done|]; by apply Forall_cons in Hl as [[] _]).
    exists [], resigned, e', r. split; [done|]. split; [done|]. split; [done|]. intros ->. by apply Hrr. }
  intros [[err|[]]|] dt _ Hdt; cbn; apply H; by try intros [=].
Qed.
Lemma resigned_after R l0 l o : Forall (asked_of R) l0 -> resigned_last R l o -> resigned_last R (l0 ++ l) o.
Proof.
  intros H0 (looked & resigned & e & r & -> & Hl & Ho). exists (l0 ++ looked), resigned, e, r. rewrite <- app_assoc.
  split; [done|]. split; [by apply Forall_app|done].
Qed.
Lemma resign_after R {A} (P : A -> Prop) (m : Act A) (k : Error + A -> Act unit) e : ears_ok e -> calm R P m ->
  (forall ra e', ears_ok e' -> match ra with inr a => P a | inl _ => True end -> traces (k ra e') (resigned_last R)) ->
  traces ((let& ra := attempt m in k ra) e) (resigned_last R).
Proof.
  intros He Hm Hk. do 2 apply traces_bind. eapply traces_mono; [by apply Hm|]. cbn. intros l o (Hl & e' & r & -> & He' & Hr). cbn.
  rewrite app_nil_r. eapply traces_mono; [by apply (Hk r e')|]. cbn. intros l' o' H. by apply resigned_after.
Qed.
Lemma resigning_last R (P : unit -> Prop) (probe : Act unit) e : ears_ok e -> calm R P probe -> traces (resigning probe e) (resigned_last R).
Proof.
  intros He Hp. eapply resign_after; [done|done|]. intros ra e' He' _. apply resign_only; [done|]. intros rr.
  eapply calm_bind; [by apply (calm_println _ anything)|]. intros _ _. eapply calm_bind; [apply calm_of_sum|]. intros _ _.
  eapply calm_bind; [apply calm_of_sum|]. intros u Hu. apply calm_println. by destruct u.
Qed.

(** Before a session: a failed expectation panics, an error is returned. *)
Section Start.
Context (Q : list asked -> Outcome (Ears * (Error + unit)) -> Prop).
Hypothesis Hstart : forall o, Q [] o.
Lemma start_expect {A} (o : option A) message (k : A -> Act unit) e : (forall a, o = Some a -> traces (k a e) Q) ->
  traces (act_bind (expect o message) k e) Q.
Proof. intros Hk. unfold act_bind, expect. destruct o; cbn; [by apply Hk|apply Hstart]. Qed.
Lemma start_lift {A} (r : result Error A) (k : A -> Act unit) e : safe r -> (forall a, r = Ok a -> traces (k a e) Q) ->
  traces (act_bind (lift r) k e) Q.
Proof. intros Hr Hk. unfold act_bind, lift. destruct r; cbn; [by apply Hk|apply Hstart|done]. Qed.
(** An action that neither asks nor waits. *)
Definition at_once {A} (m : Act A) (e : Ears) : Prop := (exists why, m e = Abort why) \/ exists r, m e = End (e, r).
Lemma start_once {A} (m : Act A) (k : A -> Act unit) e : at_once m e ->
  (forall a, m e = End (e, inr a) -> traces (k a e) Q) -> traces (act_bind m k e) Q.
Proof. intros [[why Hm]|[[err|a] Hm]] Hk; unfold act_bind; rewrite Hm; cbn; [apply Hstart..|by apply Hk]. Qed.
Lemma start_println line (k : unit -> Act unit) e : traces (k tt e) Q -> traces (act_bind (println line) k e) Q.
Proof. done. Qed.
End Start.

(** ** What the examples print *)

Lemma calm_summary R label d show_secrets : TlvSet_wf (tlvs d) -> calm R anything (print_dataset_summary label d show_secrets).
Proof.
  intros Hd. destruct (accessors_safe d Hd) as ((_ & _ & _ & Hname) & (Hchannel & _ & _ & Hpan) & _).
  eapply calm_bind; [apply calm_lift with (P := anything); [|done]|].
  { unfold Dataset_to_bytes. apply safe_from_tlv. by rewrite TlvSet_encode_ok. }
  intros encoded _. eapply calm_bind; [by apply (calm_println _ anything)|]. intros _ _.
  eapply calm_bind; [apply calm_for_each; apply Forall_forall; intros x _; by apply calm_println|]. intros _ _.
  eapply calm_bind; [by apply calm_lift with (P := anything)|]. intros name _.
  eapply calm_bind; [apply calm_if_let; destruct name; [by apply calm_println|done]|]. intros _ _.
  eapply calm_bind; [by apply calm_lift with (P := anything)|]. intros channel _.
  eapply calm_bind; [apply calm_if_let; destruct channel; [by apply calm_println|done]|]. intros _ _.
  eapply calm_bind; [by apply calm_lift with (P := anything)|]. intros pan _.
  apply calm_if_let; destruct pan; [by apply calm_println|done].
Qed.
#[local] Ltac printed_field :=
  eapply calm_bind; [apply calm_if_let; match goal with |- is_some_with _ ?o => destruct o; [by apply calm_println|done] end|intros _ _].
Lemma calm_diag R data show_secrets : diag_wf data -> calm R anything (print_diag_summary data show_secrets).
Proof.
  intros (_ & _ & _ & _ & _ & _ & _ & _ & _ & _ & _ & Hc & _). unfold print_diag_summary.
  do 6 printed_field. eapply calm_bind; [apply calm_if_let|intros _ _].
  { destruct (addresses data) as [l|]; [|done]. cbn. destruct show_secrets; [|by apply calm_println].
    apply calm_for_each, Forall_forall. intros x _. by apply calm_println. }
  eapply calm_bind; [apply calm_if_let|intros _ _].
  { destruct (child_table data) as [l|]; [|done]. cbn in *. eapply calm_bind; [by apply (calm_println _ anything)|]. intros _ _.
    apply calm_for_each. eapply Forall_impl; [exact Hc|]. intros c Hc'. destruct (child_bounds_timeout c Hc') as (t & Et & _).
    eapply calm_bind; [apply calm_lift with (P := anything); [by rewrite Et|done]|]. intros secs _. by apply calm_println. }
  printed_field.
  apply calm_if_let. destruct (channel_pages data); [by apply calm_println|done].
Qed.

(** ** What the examples ask *)

Definition reads : list CommissionerOperation :=
  [GetActiveDataset; GetPendingDataset; GetCommissionerDataset; EnergyScan; PanIdQuery; DiagnosticGet].
(** Announcing is the one thing that a node of the network would notice. *)
Definition allowed (env : Env) : list CommissionerOperation := if may_mutate env then AnnounceBegin :: reads else reads.
Lemma reads_allowed env op : op ∈ reads -> op ∈ allowed env.
Proof. unfold allowed. destruct (may_mutate env); [|done]. by right. Qed.

Section Asks.
Context (env : Env) (mp : Prop).
Notation R := (gentle mp (allowed env)).
#[local] Ltac is_read := apply reads_allowed; repeat first [by left|right].
#[local] Ltac said := eapply calm_bind; [by apply (calm_println _ anything)|intros _ _].

Lemma calm_smoke show_secrets : calm R anything (smoke show_secrets).
Proof.
  eapply calm_bind; [apply calm_perform, mild_keep_alive|]. intros _ _.
  eapply calm_bind; [apply calm_perform, mild_active; is_read|]. intros active Ha.
  eapply calm_bind; [by apply calm_summary|]. intros _ _.
  eapply calm_bind; [apply calm_perform, mild_pending; is_read|]. intros pending Hp. by apply calm_summary.
Qed.
Lemma calm_parity expected show_secrets : mp -> calm R anything (parity_probe expected show_secrets).
Proof.
  intros Hmp. eapply calm_bind; [by apply calm_perform, mild_petition|]. intros p _. said.
  eapply calm_bind; [apply calm_if_let; destruct (pr_existing_commissioner_id p); [by apply calm_println|done]|]. intros _ _.
  eapply calm_bind; [apply calm_perform, mild_keep_alive|]. intros code _. said.
  eapply calm_bind; [apply calm_perform, mild_active; is_read|]. intros live Hl. said.
  eapply calm_bind; [by apply calm_summary|]. intros _ _.
  eapply calm_bind; [instantiate (1 := anything); case_match; by apply calm_println|]. intros _ _.
  eapply calm_bind; [apply calm_attempt, calm_perform, mild_commissioner_dataset; is_read|]. intros [err|d] Hd; [by apply calm_println|].
  said. by apply calm_summary.
Qed.
Lemma calm_energy leader mask channel show_secrets : calm R anything (probe_energy leader mask channel show_secrets).
Proof.
  unfold probe_energy. said. eapply calm_bind; [apply calm_perform, mild_energy_scan; is_read|]. intros _ _. said.
  eapply calm_bind; [apply calm_wait|]. intros [[]|]; cbn; intros Hev; try (by destruct Hev); by apply calm_println.
Qed.
Lemma calm_pan_id leader mask pan show_secrets : calm R anything (probe_pan_id leader mask pan show_secrets).
Proof.
  unfold probe_pan_id. said. eapply calm_bind; [apply calm_perform, mild_pan_id_query; is_read|]. intros _ _. said.
  eapply calm_bind; [apply calm_wait|]. intros [[]|]; cbn; intros Hev; try (by destruct Hev); by apply calm_println.
Qed.
Lemma calm_diagnostics show_secrets : calm R anything (probe_diagnostics show_secrets).
Proof.
  unfold probe_diagnostics. said. eapply calm_bind; [apply calm_perform, mild_diagnostic_get; is_read|]. intros _ _. said.
  eapply calm_bind; [apply calm_wait|]. intros [[]|]; cbn; intros Hev; try (by destruct Hev); [|by apply calm_println].
  said. apply calm_diag, Hev.
Qed.
Lemma calm_announce leader mask channel : calm R anything (probe_announce env leader mask channel).
Proof.
  unfold probe_announce. destruct (may_mutate env) eqn:Em; [|by apply calm_println]. said.
  eapply calm_bind; [apply calm_perform, mild_announce; unfold allowed; rewrite Em; by left|]. intros _ _. by apply calm_println.
Qed.
Lemma calm_scan leader mask channel pan show_secrets : mp -> calm R anything (scan_probe env leader mask channel pan show_secrets).
Proof.
  intros Hmp. eapply calm_bind; [by apply calm_perform, mild_petition|]. intros p _. said.
  eapply calm_bind; [apply calm_energy|]. intros _ _. eapply calm_bind; [apply calm_pan_id|]. intros _ _.
  eapply calm_bind; [apply calm_diagnostics|]. intros _ _. apply calm_announce.
Qed.
End Asks.

(** ** The claim *)

(** How a run of an example may go. *)
Definition well_behaved (R : forall X, Request X -> Prop) (l : list asked) (o : Outcome (Ears * (Error + unit))) : Prop :=
  l = [] \/
  (exists granted e err, l = [Asked CallPetition granted] /\ asked_of R (Asked CallPetition granted) /\ o = Ended (e, inl err) /\
     match granted with Some (inr _) => False | _ => True end) \/
  resigned_last R l o.
(** commissionerctl petitions only with MESHCOP_MUTATE_OK. *)
Definition may_petition (x : Example) (env : Env) : Prop := x = Commissionerctl -> env_mutate env <> None.

Lemma connect_only_safe config link : safe link -> safe (connect_only config link).
Proof. intros Hl. unfold connect_only. apply safe_bind; [unfold validate; by repeat case_match|]. intros _ _. by case_match. Qed.

Section Runs.
Context {HL : HexLaws}.
Context (R : forall X, Request X -> Prop).
Notation Q := (well_behaved R).
Lemma well_start o : Q [] o.
Proof. by left. Qed.
Lemma start_connect config link (k : unit -> Act unit) e : asked_of R (Asked CallPetition None) -> safe link -> ears_ok e ->
  (forall e', ears_ok e' -> traces (k tt e') (resigned_last R)) -> traces (act_bind (perform_all (connect config link)) k e) Q.
Proof.
  intros HR Hl He Hk. unfold connect, act_bind. pose proof (connect_only_safe config link Hl) as Hc.
  destruct (connect_only config link) as [[]|err|f]; [|apply well_start|done]. cbn.
  intros granted dt _ Hdt. destruct granted as [[err|resp]|]; cbn.
  1, 3: right; left; do 3 eexists; split; [reflexivity|]; done.
  eapply traces_mono; [by apply (Hk (hear dt e))|]. cbn. intros l o H. right. right.
  change (Asked CallPetition (Some (inr resp)) :: l) with ([Asked CallPetition (Some (inr resp))] ++ l). apply resigned_after; [by constructor|done].
Qed.
Lemma start_hex hex (k : Dataset -> Act unit) e : (forall d, TlvSet_wf (tlvs d) -> traces (k d e) Q) ->
  traces (act_bind (lift (Dataset_from_hex hex)) k e) Q.
Proof.
  intros Hk. unfold Dataset_from_hex. destruct (hex_decode hex) as [err|b] eqn:Eb; [apply well_start|].
  apply hex_decode_bytes in Eb. destruct (dataset_bytes_ok b Eb) as [Hs Hd].
  apply start_lift; [apply well_start|done|]. intros d Ed. by apply Hk, Hd.
Qed.
Lemma config_safe id d : safe (CommissionerConfig_from_dataset id d).
Proof. apply safe_map_ok. apply safe_bind; [apply safe_ok_or|]. intros v _. by case_match. Qed.
Lemma last_well e (m : Act unit) : traces (m e) (resigned_last R) -> traces (m e) Q.
Proof. intros H. eapply traces_mono; [exact H|]. intros l o Ho. by right; right. Qed.
Lemma silent_well e (m : Act unit) (P : unit -> Prop) : ears_ok e -> calm silent P m -> traces (m e) Q.
Proof.
  intros He H. eapply traces_mono; [by apply H|]. cbn. intros l o (Hl & _). left. destruct l as [|[] l]; [done|]. by apply Forall_cons in Hl as [[] _].
Qed.
End Runs.

Section Claim.
Context {HL : HexLaws}.
Context (env : Env).
#[local] Ltac start :=
  repeat first
    [ apply start_expect; [apply well_start|intros ? ?]
    | apply start_hex; intros ? ?
    | apply start_lift; [apply well_start|apply config_safe|intros ? ?]
    | apply start_println ].

Lemma decode_runs R args e : ears_ok e -> traces (dataset_decode_main env args e) (well_behaved R).
Proof.
  intros He. unfold dataset_decode_main. destruct (show_secrets_requested env args) as [args' show]. start.
  eapply silent_well; [exact He|]. eapply calm_bind; [by apply calm_summary|]. intros _ _. by apply (calm_ret _ anything).
Qed.
Lemma smoke_runs mp args link e : mp -> safe link -> ears_ok e -> traces (smoke_main env args link e) (well_behaved (gentle mp (allowed env))).
Proof.
  intros Hmp Hl He. unfold smoke_main. destruct (show_secrets_requested env args) as [args' show]. start.
  apply start_connect; [exact Hmp|done|done|]. intros e' He'. eapply resign_after; [done|apply calm_smoke|]. intros ra e2 He2 _.
  apply resign_only; [done|]. intros rr. eapply calm_bind; [apply calm_of_sum|]. intros _ _.
  eapply calm_mono; [apply calm_of_sum|]. by intros [].
Qed.
Lemma agent_at_once args e : at_once (border_agent_or_env env args) e.
Proof.
  unfold border_agent_or_env, at_once, act_bind, expect. destruct (match args with arg :: _ => _ | [] => _ end); cbn; [|by left; eexists].
  destruct (SocketAddr_parse _); cbn; [right|left]; by eexists.
Qed.
Lemma config_at_once e : at_once (config_from_env env) e.
Proof.
  unfold config_from_env, at_once, act_bind, expect. destruct (env_dataset env) as [hex|]; cbn; [|by left; eexists].
  destruct (lift (Dataset_from_hex hex) e) eqn:E; unfold lift in *; destruct (Dataset_from_hex hex) as [d|err|f]; simplify_eq; cbn; try (right; by eexists); try (left; by eexists).
  unfold lift. destruct (CommissionerConfig_from_dataset _ _); [right..|left]; by eexists.
Qed.
Lemma aloc_at_once d e : at_once (leader_aloc_from_dataset d) e.
Proof.
  unfold leader_aloc_from_dataset, at_once, act_bind, expect, lift. destruct (Dataset_mesh_local_prefix d) as [[p|]|err|f]; cbn;
    [right|left|right|left]; by eexists.
Qed.
Lemma mask_at_once c e : at_once (page0_channel_mask c) e.
Proof. unfold page0_channel_mask, at_once. case_match; [right|left]; by eexists. Qed.
#[local] Ltac settle := apply start_once; [apply well_start|first [apply agent_at_once|apply config_at_once|apply aloc_at_once|apply mask_at_once]|intros ? ?].

Lemma parity_runs (mp : Prop) args link e : mp -> safe link -> ears_ok e -> traces (parity_probe_main env args link e) (well_behaved (gentle mp (allowed env))).
Proof.
  intros Hmp Hl He. unfold parity_probe_main. destruct (show_secrets_requested env args) as [args' show]. settle. start.
  apply start_lift; [apply well_start|by apply connect_only_safe|intros [] _]. apply last_well. eapply resigning_last; [done|by apply calm_parity].
Qed.
Lemma scan_runs (mp : Prop) args link e : mp -> safe link -> ears_ok e -> traces (scan_probe_main env args link e) (well_behaved (gentle mp (allowed env))).
Proof.
  intros Hmp Hl He. unfold scan_probe_main. destruct (show_secrets_requested env args) as [args' show]. settle. start.
  match goal with H : TlvSet_wf _ |- _ => destruct (accessors_safe _ H) as (_ & (Hchannel & _ & _ & Hpan) & _) end.
  apply start_lift; [apply well_start|done|intros channel _]. start.
  apply start_lift; [apply well_start|done|intros pan _]. start. settle. settle. start.
  apply start_lift; [apply well_start|by apply connect_only_safe|intros [] _]. apply last_well. eapply resigning_last; [done|by apply calm_scan].
Qed.
Lemma session_id_ends R e : (forall b, asked_of R (Asked Watch b)) -> ears_ok e -> traces (perform_all Commissioner_session_id e) (fun l o =>
  Forall (asked_of R) l /\ exists e' sid, o = Ended (e', inr sid) /\ ears_ok e').
Proof.
  intros HR He [st gone] dt _ Hdt. cbn. assert (ears_ok (hear dt e)) by done. destruct (_ && _); cbn; (split; [by constructor|]); by do 2 eexists.
Qed.
Lemma agent_arg_safe arg : safe (border_agent_arg env arg).
Proof. apply safe_bind; [apply safe_ok_or|intros ? _]. apply safe_ok_or. Qed.
Lemma ctl_runs args link e : safe link -> ears_ok e ->
  traces (commissionerctl_main env args link e) (well_behaved (gentle (env_mutate env <> None) (allowed env))).
Proof.
  intros Hl He. unfold commissionerctl_main. destruct (show_secrets_requested env args) as [[|command args'] show]; [apply well_start|].
  cbv zeta. destruct (is_str command "decode-dataset").
  { start. eapply silent_well; [exact He|]. by apply calm_summary. }
  destruct (is_str command "connect").
  { apply start_lift; [apply well_start|apply agent_arg_safe|intros ? _]. settle.
    apply start_lift; [apply well_start|by apply connect_only_safe|intros [] _]. start.
    intros [[err|[]]|] dt _ Hdt; cbn; right; right; exists []; by do 3 eexists. }
  destruct (is_str command "petition").
  { unfold require_mutation_gate. destruct (env_mutate env) as [v|] eqn:Ev; [|apply well_start]. start. apply start_lift; [apply well_start|done|intros [] _].
    apply start_lift; [apply well_start|apply agent_arg_safe|intros ? _]. settle.
    apply start_connect; [done|done|done|]. intros e' He'. unfold act_bind at 1. apply traces_bind.
    eapply traces_mono; [apply (session_id_ends (gentle (Some v <> None) (allowed env))); [done|done]|]. cbn. intros l o (Hlooked & e2 & sid & -> & He2).
    eapply traces_mono; [apply (resign_only (gentle (Some v <> None) (allowed env)) (fun rr => if_let sid _ ;& of_sum rr)); [done|]|].
    - intros rr. eapply calm_bind; [apply calm_if_let; destruct sid; [by apply calm_println|done]|]. intros _ _.
      eapply calm_mono; [apply calm_of_sum|]. by intros [].
    - intros l' o'. by apply resigned_after. }
  destruct (is_str command "get-active-dataset"); [|apply well_start].
  apply start_lift; [apply well_start|apply agent_arg_safe|intros ? _]. settle.
  apply start_lift; [apply well_start|by apply connect_only_safe|intros [] _]. apply last_well.
  eapply resign_after; [done|apply calm_perform, mild_active; apply reads_allowed; by left|]. intros ra e2 He2 Hra.
  apply resign_only; [done|]. intros rr. destruct ra as [err|d].
  - intros e3 He3. split; [done|]. by exists e3, (inl err).
  - eapply calm_bind; [apply (calm_of_sum _ (inr d))|]. intros d' [= ->]. eapply calm_bind; [by apply calm_summary|]. intros _ _.
    eapply calm_mono; [apply calm_of_sum|]. by intros [].
Qed.
End Claim.

Section Theorems.
Context {HL : HexLaws}.

End Theorems.

End Scripts.

(** ** Witness *)

(** A network whose answers are all alike, on which a probe is played. *)
Module ToyProbe.
Import ToyHex.
#[export] Existing Instance static_joiner_handler.
Definition toy_oracle {X} (r : Request X) : X :=
  match r in Request X return X with
  | Watch => (Active 7, false)
  | ReadPrefix => mkPrefixCache (Some [0xfd; 0; 0; 0; 0; 0; 0; 1]) 0
  | StorePrefix _ _ => tt
  | Submit _ => Some (inr (Some (mkCoapMessage Acknowledgement CODE_CHANGED 1 [] [] [TLV_STATE; 1; 1])))
  | SubmitWithin _ => None
  | CallPetition => Some (inr (mkPetitionResponse 7 None))
  | CallKeepAlive => Some (inr RcAccept)
  | CallResign => Some (inr tt)
  | SendHandler _ => true
  | LockWrites | UnlockWrites => tt
  end.
(** The lines that are printed, a request taking a second, and how it ends. *)
Fixpoint play {X} (s : Script X) : list string * option X :=
  match s with
  | End x => ([], Some x)
  | Abort _ | Exit _ => ([], None)
  | Say line s => let '(lines, x) := play s in (line :: lines, x)
  | Ask r k => play (k (toy_oracle r) (seconds 1))
  end.
Definition toy_env : Env :=
  mkEnv false (Some (str_bytes "0e080000000000010001000300000f0102d71d0410d31964aa08f25c71be439710e62d8b550708fd240723d7150000"))
    (Some (str_bytes "192.0.2.1:49191")) None.
Definition toy_ears : Ears :=
  mkEars 0 [(seconds 3, Some EvDatasetChanged); (seconds 4, Some (EvEnergyReport "fd00::1" 0x10000 [200; 10]))].
End ToyProbe.
Import ToyHex ToyProbe.
