(* ===== verification/ExampleSecrets.v ===== *)
(** * ExampleSecrets: what the example programs print

    Without --show-secrets (and MESHCOP_SHOW_SECRETS), what a program prints and
    asks does not depend on the values it redacts: the sensitive TLVs of a
    dataset, the mesh addresses of events and of diagnostic answers.  Two runs
    that differ only in those are told apart by nothing outside. *)
From S2P Require Import Prelude Text Hex Tlv Errors Dataset Coap NetDiag Messages Flags Joiner Ipv6 SocketAddr Pskc.
From S2P Require Import Commissioner SessionDriver SessionCore Client ClientWorld ClientSteering BTree Topology NetDiagTypes.
From S2P Require Import Collect CollectSafety Cli CliSafety Report NetdiagMain Examples ExampleSafety.

Section Secrets.
Context {JH : JoinerHandler} {HX : Hex}.

(** ** Alike but for the secrets *)

(** A key: the commissioner's, the network's, and the two values that tell
    its network apart. *)
Definition is_key (t : Z) : Prop :=
  t = DS_TLV_PSKC \/ t = DS_TLV_NETWORK_KEY \/ t = DS_TLV_MESH_LOCAL_PREFIX \/ t = DS_TLV_EXTENDED_PAN_ID.
Definition entry_alike (a b : TlvEntry) : Prop :=
  ty a = ty b /\ len (value a) = len (value b) /\ (~ is_key (ty a) -> value a = value b).
Definition dataset_alike (d d' : Dataset) : Prop := Forall2 entry_alike (entries (tlvs d)) (entries (tlvs d')).

Definition without_addresses (d : NetDiagData) : NetDiagData :=
  mkNetDiagData (ext_mac_addr d) (mac_addr d) (diag_mode d) (diag_timeout d) (connectivity d) (route64 d) (leader_data d) (network_data d)
    None (mac_counters d) (battery_level d) (supply_voltage d) (child_table d) (channel_pages d) (type_list d) (eui64 d)
    (child_ipv6_addresses d).
Definition diag_alike (d d' : NetDiagData) : Prop :=
  without_addresses d = without_addresses d' /\ option_map len (addresses d) = option_map len (addresses d').
Definition event_alike (a b : CommissionerEvent) : Prop :=
  match a, b with
  | EvPanIdConflict _ m p, EvPanIdConflict _ m' p' => m = m' /\ p = p'
  | EvEnergyReport _ m l, EvEnergyReport _ m' l' => m = m' /\ l = l'
  | EvDiagnosticAnswer _ d, EvDiagnosticAnswer _ d' => diag_alike d d'
  | _, _ => a = b
  end.
Definition next_alike (a b : option CommissionerEvent) : Prop :=
  match a, b with Some a, Some b => event_alike a b | None, None => True | _, _ => False end.
Definition stream_alike : list (Z * option CommissionerEvent) -> list (Z * option CommissionerEvent) -> Prop :=
  Forall2 (fun x y => x.1 = y.1 /\ next_alike x.2 y.2).
Definition ears_alike (e e' : Ears) : Prop := ear_clock e = ear_clock e' /\ stream_alike (heard e) (heard e').

(** ** Scripts that say and ask the same *)

Inductive same_talk {X} (S : X -> X -> Prop) : Script X -> Script X -> Prop :=
  | same_end x x' : S x x' -> same_talk S (End x) (End x')
  | same_abort why : same_talk S (Abort why) (Abort why)
  | same_exit code : same_talk S (Exit code) (Exit code)
  | same_say line s s' : same_talk S s s' -> same_talk S (Say line s) (Say line s')
  | same_ask Y (r : Request Y) k k' : (forall y dt, same_talk S (k y dt) (k' y dt)) -> same_talk S (Ask r k) (Ask r k').

Lemma same_bind {X Y} (S : X -> X -> Prop) (T : Y -> Y -> Prop) s s' (k k' : X -> Script Y) :
  same_talk S s s' -> (forall x x', S x x' -> same_talk T (k x) (k' x')) -> same_talk T (sbind s k) (sbind s' k').
Proof. intros Hs Hk. induction Hs; cbn; [by apply Hk|..]; by constructor. Qed.

Definition result_alike {A} (S : A -> A -> Prop) (x x' : Ears * (Error + A)) : Prop :=
  ears_alike x.1 x'.1 /\ match x.2, x'.2 with inl e, inl e' => e = e' | inr a, inr a' => S a a' | _, _ => False end.
Definition same_act {A} (S : A -> A -> Prop) (m m' : Act A) : Prop :=
  forall e e', ears_alike e e' -> same_talk (result_alike S) (m e) (m' e').

Lemma same_act_bind {A B} (S : A -> A -> Prop) (T : B -> B -> Prop) m m' (k k' : A -> Act B) :
  same_act S m m' -> (forall a a', S a a' -> same_act T (k a) (k' a')) -> same_act T (act_bind m k) (act_bind m' k').
Proof.
  intros Hm Hk e e' He. eapply same_bind; [by apply Hm|]. intros [e1 [x|a]] [e1' [x'|a']] [He1 Hr]; cbn in *; try done.
  - constructor. by split.
  - by apply Hk.
Qed.
Lemma same_attempt {A} (S : A -> A -> Prop) m m' : same_act S m m' ->
  same_act (fun r r' => match r, r' with inl e, inl e' => e = e' | inr a, inr a' => S a a' | _, _ => False end) (attempt m) (attempt m').
Proof. intros Hm e e' He. eapply same_bind; [by apply Hm|]. intros [e1 r] [e1' r'] [He1 Hr]. constructor. by split. Qed.
Lemma same_println line : same_act eq (println line) (println line).
Proof. intros e e' He. do 2 constructor. by split. Qed.
Lemma same_ret {A} (a : A) : same_act eq (act_ret a) (act_ret a).
Proof. intros e e' He. constructor. by split. Qed.
Lemma same_of_sum {A} (r : Error + A) : same_act eq (of_sum r) (of_sum r).
Proof. intros e e' He. constructor. split; [done|]. by destruct r. Qed.
Lemma same_lift {A} (r : result Error A) : same_act eq (lift r) (lift r).
Proof. intros e e' He. unfold lift. destruct r; constructor; by split. Qed.
Lemma same_expect {A} (o : option A) message : same_act eq (expect o message) (expect o message).
Proof. intros e e' He. unfold expect. destruct o; constructor; by split. Qed.
Lemma same_perform {A} (p : Prog A) : same_act eq (perform_all p) (perform_all p).
Proof.
  intros e e' He. revert e e' He. induction p as [a|x|f|Y r k IH]; intros e e' He; cbn; constructor; try by split.
  intros y dt. apply IH. destruct He as [Hc Hs]. split; [cbn; by rewrite Hc|done].
Qed.
Lemma same_for_each {A} (l : list A) (f : A -> Act unit) : (forall a, same_act eq (f a) (f a)) -> same_act eq (for_each l f) (for_each l f).
Proof. intros Hf. induction l as [|a l IH]; cbn [for_each]; [apply same_ret|]. eapply same_act_bind; [apply Hf|]. by intros. Qed.
Lemma same_if_let {A} (o : option A) (f : A -> Act unit) : (forall a, same_act eq (f a) (f a)) -> same_act eq (if_let o f) (if_let o f).
Proof. intros Hf. destruct o; [apply Hf|apply same_ret]. Qed.

(** ** Waiting *)

Lemma alike_label a b : event_alike a b -> event_label a = event_label b.
Proof. by destruct a, b; cbn; intros; simplify_eq. Qed.
Lemma same_wait timeout (matches : CommissionerEvent -> bool) : (forall a b, event_alike a b -> matches a = matches b) ->
  same_act next_alike (wait_for_event timeout matches) (wait_for_event timeout matches).
Proof.
  intros Hmatch e e' [Hc Hs]. unfold wait_for_event. rewrite <- Hc. generalize (ear_clock e + timeout) as deadline. generalize (ear_clock e) as now.
  clear Hc. intros now deadline. revert now. induction Hs as [|[t x] [t' x'] l l' [Ht Hx] Hl IH]; intros now; cbn [wait_loop]; cbv zeta.
  { case_match; apply same_end; (split; [split; [done|constructor]|done]). }
  cbn in Ht, Hx. subst t'. case_match; [apply same_end; split; [split; [done|by constructor]|done]|].
  case_match; [apply same_end; split; [split; [done|by constructor]|done]|].
  destruct x as [x|], x' as [x'|]; try done; [|apply same_end; split; [split; [done|by constructor]|done]].
  pose proof (Hmatch _ _ Hx) as Hm. pose proof (alike_label _ _ Hx) as Hlab.
  destruct x, x'; cbn in Hx; try done; simplify_eq; try (apply same_end; split; [by split|done]);
    try rewrite <- Hm; try rewrite <- Hlab; case_match; first [apply same_say, IH | apply same_end; split; [by split|done]].
Qed.

(** ** Datasets *)

Lemma keys_are_redacted t : is_sensitive_tlv t = false -> ~ is_key t.
Proof. intros H K. revert H. by destruct K as [-> | [-> | [-> | ->]]]. Qed.
Lemma encoded_length_alike d d' : TlvSet_wf (tlvs d) -> TlvSet_wf (tlvs d') -> dataset_alike d d' ->
  exists b b', Dataset_to_bytes d = Ok b /\ Dataset_to_bytes d' = Ok b' /\ len b = len b'.
Proof.
  intros Hd Hd' H. unfold Dataset_to_bytes. rewrite !TlvSet_encode_ok by done. cbn. do 2 eexists. split; [done|]. split; [done|].
  unfold dataset_alike in H. clear Hd Hd'. induction H as [|x y l l' (Ht & Hl & _) _ IH]; cbn; [done|].
  rewrite !len_app, IH. f_equal. unfold tlv_bytes, tlv_header. rewrite !len_app, Hl. f_equal. by case_match.
Qed.
Lemma public_value_alike d d' t : dataset_alike d d' -> is_sensitive_tlv t = false -> Dataset_raw d t = Dataset_raw d' t.
Proof.
  intros H Ht. unfold Dataset_raw, last_value. unfold dataset_alike in H. apply Forall2_reverse in H.
  induction H as [|x y l l' (Hty & _ & Hv) _ IH]; cbn; [done|]. rewrite <- Hty. destruct (Z.eqb_spec (ty x) t) as [E|_]; [|done].
  cbn. rewrite Hv; [done|]. rewrite E. by apply keys_are_redacted.
Qed.
Lemma same_print_tlv label x y : entry_alike x y -> same_act eq (print_tlv label false x) (print_tlv label false y).
Proof.
  intros (Ht & Hl & Hv). unfold print_tlv. rewrite <- Ht, <- Hl. destruct (is_sensitive_tlv (ty x)) eqn:E; cbn; [|rewrite Hv by by apply keys_are_redacted]; apply same_println.
Qed.
Lemma same_summary label d d' : TlvSet_wf (tlvs d) -> TlvSet_wf (tlvs d') -> dataset_alike d d' ->
  same_act eq (print_dataset_summary label d false) (print_dataset_summary label d' false).
Proof.
  intros Hd Hd' H. destruct (encoded_length_alike d d' Hd Hd' H) as (b & b' & Eb & Eb' & Hlen).
  unfold print_dataset_summary. rewrite Eb, Eb'.
  apply (same_act_bind (fun b b' => len b = len b')); [intros e e' He; constructor; by split|]. intros x x' ->.
  eapply same_act_bind; [apply same_println|intros _ _ _]. eapply same_act_bind; [|intros _ _ _].
  { unfold dataset_alike in H. induction H as [|y y' l l' Hy _ IH]; cbn [for_each]; [apply same_ret|].
    eapply same_act_bind; [by apply same_print_tlv|intros _ _ _; exact IH]. }
  unfold Dataset_network_name, Dataset_channel, Dataset_pan_id. rewrite !(public_value_alike d d' _ H) by done.
  eapply same_act_bind; [apply same_lift|intros name ? <-]. eapply same_act_bind; [apply same_if_let; intros; apply same_println|intros _ _ _].
  eapply same_act_bind; [apply same_lift|intros channel ? <-]. eapply same_act_bind; [apply same_if_let; intros; apply same_println|intros _ _ _].
  eapply same_act_bind; [apply same_lift|intros pan ? <-]. apply same_if_let; intros; apply same_println.
Qed.

(** ** The scan probe *)

#[local] Ltac same_field := eapply same_act_bind; [apply same_if_let; intros; apply same_println|intros _ _ _].
Lemma same_diag d d' : diag_alike d d' -> same_act eq (print_diag_summary d false) (print_diag_summary d' false).
Proof.
  destruct d, d'. intros [H Ha]. injection H as -> -> -> -> -> -> -> -> -> -> -> -> -> -> -> ->. unfold print_diag_summary. cbn in *.
  do 6 same_field. eapply same_act_bind; [|intros _ _ _].
  { instantiate (1 := eq). match type of Ha with option_map _ ?o = option_map _ ?o' => destruct o, o'; cbn in *; simplify_eq end; [|apply same_ret].
    match goal with H : len _ = len _ |- _ => rewrite H end. apply same_println. }
  eapply same_act_bind; [apply same_if_let; intros l|intros _ _ _].
  { eapply same_act_bind; [apply same_println|intros _ _ _]. apply same_for_each. intros c.
    eapply same_act_bind; [apply same_lift|intros secs ? <-]. apply same_println. }
  same_field. apply same_if_let; intros; apply same_println.
Qed.

#[local] Ltac says := eapply same_act_bind; [apply same_println|intros _ _ _].
#[local] Ltac asks_ := eapply same_act_bind; [apply same_perform|intros ? ? <-].
Lemma same_energy leader mask channel : same_act eq (probe_energy leader mask channel false) (probe_energy leader mask channel false).
Proof.
  unfold probe_energy. says. asks_. says. eapply same_act_bind; [apply same_wait; by intros [] []|].
  intros [[]|] [[]|]; cbn; intros H; try done; simplify_eq; try (intros e e' _; by constructor).
  - destruct H as [-> ->]. apply same_println.
  - apply same_println.
Qed.
Lemma same_pan_id leader mask pan : same_act eq (probe_pan_id leader mask pan false) (probe_pan_id leader mask pan false).
Proof.
  unfold probe_pan_id. says. asks_. says. eapply same_act_bind; [apply same_wait; by intros [] []|].
  intros [[]|] [[]|]; cbn; intros H; try done; simplify_eq; try (intros e e' _; by constructor).
  - destruct H as [-> ->]. apply same_println.
  - apply same_println.
Qed.
Lemma same_diagnostics : same_act eq (probe_diagnostics false) (probe_diagnostics false).
Proof.
  unfold probe_diagnostics. says. asks_. says. eapply same_act_bind; [apply same_wait; by intros [] []|].
  intros [[]|] [[]|]; cbn; intros H; try done; simplify_eq; try (intros e e' _; by constructor).
  - says. by apply same_diag.
  - apply same_println.
Qed.
Lemma same_announce env leader mask channel : same_act eq (probe_announce env leader mask channel) (probe_announce env leader mask channel).
Proof. unfold probe_announce. case_match; [|apply same_println]. says. asks_. apply same_println. Qed.
Lemma same_scan env leader mask channel pan : same_act eq (scan_probe env leader mask channel pan false) (scan_probe env leader mask channel pan false).
Proof.
  asks_. says. eapply same_act_bind; [apply same_energy|intros _ _ _]. eapply same_act_bind; [apply same_pan_id|intros _ _ _].
  eapply same_act_bind; [apply same_diagnostics|intros _ _ _]. apply same_announce.
Qed.
Lemma same_resigning probe : same_act eq probe probe -> same_act eq (resigning probe) (resigning probe).
Proof.
  intros H. eapply same_act_bind; [by apply same_attempt|]. intros ra ra' Ha. assert (ra = ra') as <- by (destruct ra, ra'; naive_solver).
  eapply same_act_bind; [apply same_attempt, same_perform|]. intros rr rr' Hr. assert (rr = rr') as <- by (destruct rr, rr'; naive_solver).
  says. eapply same_act_bind; [apply same_of_sum|intros _ _ _]. eapply same_act_bind; [apply same_of_sum|intros _ _ _]. apply same_println.
Qed.

End Secrets.

(** ** Witness *)

(** Two datasets with different PSKcs, and two probes that hear from different
    peers. *)
Module ToySecrets.
Import ToyHex ToyProbe.
Definition toy_dataset (key : Z) : Dataset := mkDataset (mkTlvSet [mkTlvEntry DS_TLV_PSKC (repeat key 16); mkTlvEntry DS_TLV_PAN_ID [1; 2]]).
Definition other_ears : Ears :=
  mkEars 0 [(seconds 3, Some EvDatasetChanged); (seconds 4, Some (EvEnergyReport "fd00::2" 0x10000 [200; 10]))].
End ToySecrets.
Import ToyHex ToyProbe ToySecrets.
