(* ===== verification/Demo.v ===== *)
(** * Demo: the configuration and the transport of the ESP32-H2 demo

    The model of demo/esp32h2-dtls/src/config.rs and thread_udp.rs, and of the
    example crates/meshcop/examples/generate_esp32h2_demo_dataset.rs that made
    the demo's dataset.  The firmware finds the PSKc and the mesh-local prefix in
    the text of that dataset with a reader of its own; OpenThread's socket is
    another crate's, a class of its operations. *)
From S2P Require Import Prelude Text Hex Tlv Errors Dataset Messages Ipv6 Joiner Commissioner.

(** ** config.rs *)

Definition TLV_PSKC : Z := 0x04.
Definition TLV_MESH_LOCAL_PREFIX : Z := 0x07.
Definition DEMO_PORT : Z := 49191.
Definition ACTIVE_DATASET_TLV_HEX : string := String.concat "" [
  "0e080000000000010001";
  "000300000f";
  "0102d71d";
  "020802240723d715a10c";
  "03107468726561642d64746c732d64656d6f";
  "0410d31964aa08f25c71be439710e62d8b55";
  "05105ac17e3942b86df01193ce2478a50bd6";
  "0708fd240723d7150000";
  "0c0402a0f7f8"]%string.

(** A failed assertion is its message; an index out of range is a panic. *)
Definition hex_nibble (value : Z) : result string Z :=
  if in_range 0x30 0x39 value then Ok (value - 0x30)
  else if in_range 0x61 0x66 value then Ok (value - 0x61 + 10)
  else if in_range 0x41 0x46 value then Ok (value - 0x41 + 10)
  else Err "invalid hex in demo dataset"%string.
Definition hex_byte (hex : bytes) (offset : Z) : result string Z :=
  let! a := idx hex offset in
  let! high := hex_nibble a in
  let! b := idx hex (offset + 1) in
  let! low := hex_nibble b in
  Ok (Z.lor (wrap 8 (Z.shiftl high 4)) low).

(** The [n] bytes from [offset] on. *)
Fixpoint hex_value (hex : bytes) (offset : Z) (n : nat) : result string bytes :=
  match n with
  | O => Ok []
  | S n =>
      let! b := hex_byte hex offset in
      let! rest := hex_value hex (offset + 2) n in
      Ok (b :: rest)
  end.

(** The outer loop; each turn moves the cursor by four or more. *)
Fixpoint dataset_tlv_loop (hex : bytes) (N wanted_type : Z) (fuel : nat) (cursor : Z) : result string bytes :=
  match fuel with
  | O => Panic OutOfFuel
  | S fuel =>
      if cursor + 4 <=? len hex then
        let! tlv_type := hex_byte hex cursor in
        let! length := hex_byte hex (cursor + 2) in
        let value_start := cursor + 4 in
        if tlv_type =? wanted_type then
          if negb (length =? N) then Err "unexpected demo dataset TLV length"%string
          else if negb (value_start + length * 2 <=? len hex) then Err "truncated demo dataset TLV"%string
          else hex_value hex value_start (Z.to_nat N)
        else dataset_tlv_loop hex N wanted_type fuel (value_start + length * 2)
      else Err "required demo dataset TLV is missing"%string
  end.
Definition dataset_tlv_value (hex : bytes) (N wanted_type : Z) : result string bytes :=
  dataset_tlv_loop hex N wanted_type (S (length hex)) 0.

Definition dataset_pskc : result string bytes := dataset_tlv_value (str_bytes ACTIVE_DATASET_TLV_HEX) 16 TLV_PSKC.

Record SocketAddrV6 := mkSocketAddrV6 { v6_ip : Ipv6Addr; v6_port : Z; v6_flowinfo : Z; v6_scope_id : Z }.
Inductive SocketAddr :=
  | V4 (ip : bytes) (port : Z)
  | V6 (address : SocketAddrV6).

#[global] Instance SocketAddrV6_eq_dec : EqDecision SocketAddrV6.
Proof. solve_decision. Defined.
#[global] Instance SocketAddr_eq_dec : EqDecision SocketAddr.
Proof. solve_decision. Defined.

(** The whole prefix is copied into the first half of the address. *)
Definition leader_aloc : result string SocketAddrV6 :=
  let! prefix := dataset_tlv_value (str_bytes ACTIVE_DATASET_TLV_HEX) 8 TLV_MESH_LOCAL_PREFIX in
  let octets := prefix ++ drop (length prefix) (repeat 0 16) in
  let octets := take 8 octets ++ [0x00; 0x00; 0x00; 0xff; 0xfe; 0x00; 0xfc; 0x00] in
  Ok (mkSocketAddrV6 octets DEMO_PORT 0 0).

(** ** generate_esp32h2_demo_dataset.rs *)

Module Generator.
Definition CHANNEL : Z := 15.
Definition PAN_ID : Z := 0xd71d.
Definition EXTENDED_PAN_ID : bytes := [0x02; 0x24; 0x07; 0x23; 0xd7; 0x15; 0xa1; 0x0c].
Definition MESH_LOCAL_PREFIX : bytes := [0xfd; 0x24; 0x07; 0x23; 0xd7; 0x15; 0x00; 0x00].
Definition NETWORK_KEY : bytes :=
  [0x5a; 0xc1; 0x7e; 0x39; 0x42; 0xb8; 0x6d; 0xf0; 0x11; 0x93; 0xce; 0x24; 0x78; 0xa5; 0x0b; 0xd6].
Definition PSKC : bytes :=
  [0xd3; 0x19; 0x64; 0xaa; 0x08; 0xf2; 0x5c; 0x71; 0xbe; 0x43; 0x97; 0x10; 0xe6; 0x2d; 0x8b; 0x55].

Definition dataset : Dataset :=
  let dataset := Dataset_default in
  let dataset := Dataset_set_raw dataset DS_TLV_ACTIVE_TIMESTAMP (Timestamp_to_value (Timestamp_from_components 1 0 true)) in
  let dataset := Dataset_set_raw dataset DS_TLV_CHANNEL (Channel_to_value (mkChannel 0 CHANNEL)) in
  let dataset := Dataset_set_raw dataset DS_TLV_PAN_ID (to_be 2 PAN_ID) in
  let dataset := Dataset_set_raw dataset DS_TLV_EXTENDED_PAN_ID EXTENDED_PAN_ID in
  let dataset := Dataset_set_raw dataset DS_TLV_NETWORK_NAME (str_bytes "meshcop-dtls-demo") in
  let dataset := Dataset_set_raw dataset DS_TLV_PSKC PSKC in
  let dataset := Dataset_set_raw dataset DS_TLV_NETWORK_KEY NETWORK_KEY in
  let dataset := Dataset_set_raw dataset DS_TLV_MESH_LOCAL_PREFIX MESH_LOCAL_PREFIX in
  Dataset_set_raw dataset DS_TLV_SECURITY_POLICY
    (SecurityPolicy_to_value (mkSecurityPolicy 672 (SecurityPolicyFlags_from_bits_retain 0xf7f8))).
(** What the program prints. *)
Definition main {HX : Hex} : result Error string := Dataset_to_hex dataset.
End Generator.

(** ** thread_udp.rs *)

Definition UDP_RX_BUFFER_SIZE : Z := 4096.

(** OpenThread's UDP socket: a send names its source or leaves it to the stack,
    a receive fills a buffer of the given length and reports the length and the
    addresses. *)
Class OpenThread := {
  OtError : Type;
  OtError_display : OtError -> string;
  UdpSocket : Type;
  udp_send : bytes -> option SocketAddrV6 -> SocketAddrV6 -> UdpSocket -> UdpSocket * result OtError unit;
  udp_recv : bytes -> UdpSocket -> UdpSocket * result OtError (bytes * (Z * SocketAddrV6 * SocketAddrV6)) }.

(** A socket that sends nowhere and never receives. *)
Definition toy_thread : OpenThread := {|
  OtError := unit;
  OtError_display _ := EmptyString;
  UdpSocket := unit;
  udp_send _ _ _ s := (s, Ok tt);
  udp_recv _ s := (s, Err tt) |}.

Module ThreadUdp.
Section ThreadUdp.
Context {OT : OpenThread}.

Record ThreadUdp := mkThreadUdp { socket : UdpSocket; bound_port : Z; rx_buffer : bytes }.
Definition new (socket : UdpSocket) (bound_port : Z) : ThreadUdp :=
  mkThreadUdp socket bound_port (repeat 0 (Z.to_nat UDP_RX_BUFFER_SIZE)).

Inductive ThreadUdpError :=
  | OfOpenThread (error : OtError)
  | Ipv4Unsupported
  | LocalPortMismatch (requested bound : Z).
Definition ThreadUdpError_display (self : ThreadUdpError) : string :=
  match self with
  | OfOpenThread error => "OpenThread UDP error: " +:+ OtError_display error
  | Ipv4Unsupported => "OpenThread transport requires IPv6"
  | LocalPortMismatch requested bound =>
      "local UDP port " +:+ dec requested +:+ " does not match bound port " +:+ dec bound
  end.
(** The kinds of [embedded_io_async] that are used. *)
Inductive ErrorKind := Other | InvalidInput.
Definition kind (self : ThreadUdpError) : ErrorKind :=
  match self with
  | OfOpenThread _ => Other
  | Ipv4Unsupported | LocalPortMismatch _ _ => InvalidInput
  end.

Definition ipv6 (address : SocketAddr) : result ThreadUdpError SocketAddrV6 :=
  match address with V6 address => Ok address | V4 _ _ => Err Ipv4Unsupported end.

Definition set_socket (s : UdpSocket) (self : ThreadUdp) : ThreadUdp := mkThreadUdp s (bound_port self) (rx_buffer self).
Definition set_rx_buffer (b : bytes) (self : ThreadUdp) : ThreadUdp := mkThreadUdp (socket self) (bound_port self) b.

Definition send (local remote : SocketAddr) (data : bytes) : M ThreadUdp ThreadUdpError unit :=
  let* local := mlift (ipv6 local) in
  let* remote := mlift (ipv6 remote) in
  let* self := mget id in
  if negb (v6_port local =? 0) && negb (v6_port local =? bound_port self)
  then merr (LocalPortMismatch (v6_port local) (bound_port self))
  else
    let source :=
      if bool_decide (v6_ip local = repeat 0 16) then None
      else Some (mkSocketAddrV6 (v6_ip local) (bound_port self) (v6_flowinfo local) (v6_scope_id local)) in
    mzoom OfOpenThread socket set_socket (udp_send data source remote).

(** The caller's buffer as it is left, and what is reported. *)
Definition receive_into (buffer : bytes) : M ThreadUdp ThreadUdpError (bytes * (Z * SocketAddr * SocketAddr)) :=
  let* self := mget id in
  let* '(received, (length, local, remote)) := mzoom OfOpenThread socket set_socket (udp_recv (rx_buffer self)) in
  let* _ := mset (set_rx_buffer received) in
  let copied := Z.min length (len buffer) in
  let* head := mlift (slice_to received copied) in
  mret (head ++ drop (Z.to_nat copied) buffer, (length, V6 local, V6 remote)).
End ThreadUdp.
End ThreadUdp.

(** ** The reader of the dataset *)

Notation digits l := (str_bytes (hex_digits l)).

Lemma digits_app a b : digits (a ++ b) = digits a ++ digits b.
Proof.
  induction a as [|x a IH]; [done|]. cbn [app hex_digits]. by rewrite !str_bytes_app, IH, app_assoc.
Qed.

(** The two digits of a byte. *)
Lemma hex2_bytes b : is_u8 b -> exists x y, str_bytes (hex2 b) = [x; y] /\
  forall pre post, hex_byte (pre ++ x :: y :: post) (len pre) = Ok b.
Proof.
  intros Hb. assert (b ∈ map Z.of_nat (seq 0 256)) as H
    by (unfold is_u8, uint in Hb; apply list_elem_of_In, in_map_iff; exists (Z.to_nat b); rewrite in_seq; lia).
  assert (Forall (fun b => exists x y, str_bytes (hex2 b) = [x; y] /\ exists h l,
      hex_nibble x = Ok h /\ hex_nibble y = Ok l /\ Z.lor (wrap 8 (Z.shiftl h 4)) l = b) (map Z.of_nat (seq 0 256))) as HF
    by (repeat constructor; eexists _, _; (split; [reflexivity|]); eexists _, _; repeat split; reflexivity).
  rewrite Forall_forall in HF. destruct (HF b H) as (x & y & E & h & l & Hh & Hl & Ev).
  exists x, y. split; [done|]. intros pre post. unfold hex_byte.
  assert (forall i c, (pre ++ x :: y :: post) !! (length pre + i)%nat = Some c -> @idx string _ (pre ++ x :: y :: post) (len pre + Z.of_nat i) = Ok c) as Hi.
  { intros i c Hc. apply idx_Some. unfold len. by replace (Z.to_nat _) with (length pre + i)%nat by lia. }
  assert (@idx string _ (pre ++ x :: y :: post) (len pre) = Ok x) as ->
    by (rewrite <- (Z.add_0_r (len pre)); apply (Hi 0%nat); by rewrite lookup_app_r, Nat.add_sub' by lia).
  cbn [rbind]. rewrite Hh. cbn [rbind].
  change (len pre + 1) with (len pre + Z.of_nat 1).
  rewrite (Hi 1%nat y) by (by rewrite lookup_app_r, Nat.add_sub' by lia). cbn [rbind]. rewrite Hl. cbn [rbind]. by rewrite Ev.
Qed.
Lemma len_digits l : bytes_ok l -> len (digits l) = 2 * len l.
Proof.
  induction 1 as [|b l Hb _ IH]; [done|]. cbn [hex_digits]. destruct (hex2_bytes b Hb) as (x & y & E & _).
  rewrite str_bytes_app, E. cbn [app]. rewrite !len_cons. lia.
Qed.
Lemma hex_byte_digits a b c : bytes_ok a -> is_u8 b -> hex_byte (digits (a ++ b :: c)) (2 * len a) = Ok b.
Proof.
  intros Ha Hb. destruct (hex2_bytes b Hb) as (x & y & E & H).
  rewrite digits_app. cbn [hex_digits]. rewrite str_bytes_app, E, <- len_digits by done. apply H.
Qed.
Lemma hex_value_digits a v c : bytes_ok a -> bytes_ok v -> hex_value (digits (a ++ v ++ c)) (2 * len a) (length v) = Ok v.
Proof.
  intros Ha Hv. revert a Ha. induction Hv as [|b v Hb _ IH]; intros a Ha; [done|]. cbn [length hex_value app].
  rewrite hex_byte_digits by done. cbn [rbind].
  specialize (IH (a ++ [b])). rewrite <- app_assoc in IH. cbn [app] in IH. rewrite len_app, Z.mul_add_distr_l in IH.
  change (2 * len [b]) with 2 in IH. rewrite IH; [done|]. by apply Forall_app_2; [|apply Forall_singleton].
Qed.

(** What the reader is to find: the first TLV of the type, of the right length. *)
Definition first_tlv_value (N wanted_type : Z) (l : list TlvEntry) : result string bytes :=
  match List.find (fun entry => ty entry =? wanted_type) l with
  | Some entry => if len (value entry) =? N then Ok (value entry) else Err "unexpected demo dataset TLV length"%string
  | None => Err "required demo dataset TLV is missing"%string
  end.
(** The reader knows no extended lengths. *)
Definition short_tlv (e : TlvEntry) : Prop := tlv_wf e /\ len (value e) <= MAX_STANDARD_TLV_LENGTH.

Lemma short_tlv_bytes e : short_tlv e -> tlv_bytes e = ty e :: len (value e) :: value e.
Proof. intros [_ H]. unfold tlv_bytes, tlv_header. by rewrite (proj2 (Z.leb_le _ _)). Qed.

Lemma dataset_tlv_loop_reads N t l a fuel : 0 <= N -> Forall short_tlv l -> bytes_ok a -> (length l < fuel)%nat ->
  dataset_tlv_loop (digits (a ++ concat (map tlv_bytes l))) N t fuel (2 * len a) = first_tlv_value N t l.
Proof.
  intros HN Hl. revert a fuel. induction Hl as [|e l He Hl IH]; intros a fuel Ha Hf;
    (destruct fuel as [|fuel]; [cbn in Hf; lia|]); cbn [length] in Hf; cbn [dataset_tlv_loop map concat].
  { rewrite app_nil_r, len_digits by done. by rewrite (proj2 (Z.leb_gt _ _)) by lia. }
  rewrite short_tlv_bytes by done. destruct He as [(Ht & Hv & _) Hs]. unfold MAX_STANDARD_TLV_LENGTH in Hs.
  assert (bytes_ok (concat (map tlv_bytes l))) as Hrest.
  { apply Forall_concat, Forall_map. eapply Forall_impl; [exact Hl|]. intros x [Hx _]. by apply tlv_bytes_ok. }
  pose proof (len_nonneg (value e)). pose proof (len_nonneg (concat (map tlv_bytes l))).
  assert (is_u8 (len (value e))) as Hn by (unfold is_u8, uint; lia).
  set (rest := concat (map tlv_bytes l)) in *. cbn [app].
  rewrite len_digits by (apply Forall_app_2; [done|]; do 2 (apply Forall_cons_2; [done|]); by apply Forall_app_2).
  rewrite len_app, !len_cons, len_app, (proj2 (Z.leb_le _ _)) by lia.
  rewrite hex_byte_digits by done. cbn [rbind].
  pose proof (hex_byte_digits (a ++ [ty e]) (len (value e)) (value e ++ rest) ltac:(by apply Forall_app_2; [|apply Forall_singleton]) Hn) as H2.
  rewrite <- app_assoc, len_app, Z.mul_add_distr_l in H2. cbn [app] in H2. change (2 * len [ty e]) with 2 in H2. rewrite H2.
  cbn [rbind]. unfold first_tlv_value. cbn [List.find].
  assert (bytes_ok (a ++ [ty e; len (value e)])) as Hpre by (apply Forall_app_2; [done|by apply Forall_cons_2, Forall_singleton]).
  assert (2 * len a + 4 = 2 * len (a ++ [ty e; len (value e)])) as Hc by (rewrite len_app, !len_cons, len_nil; lia).
  destruct (ty e =? t); [destruct (len (value e) =? N) eqn:EN; cbn [negb]; zbool; [|done]|].
  - rewrite (proj2 (Z.leb_le _ _)) by lia. cbn [negb].
    replace (Z.to_nat N) with (length (value e)) by (unfold len in EN; lia). rewrite Hc.
    pose proof (hex_value_digits (a ++ [ty e; len (value e)]) (value e) rest Hpre Hv) as H3. by rewrite <- app_assoc in H3.
  - specialize (IH (a ++ ty e :: len (value e) :: value e) fuel). rewrite <- app_assoc in IH. cbn [app] in IH.
    replace (2 * len a + 4 + len (value e) * 2) with (2 * len (a ++ ty e :: len (value e) :: value e))
      by (rewrite len_app, !len_cons; lia).
    apply IH; [|lia]. apply Forall_app_2; [done|]. by do 2 (apply Forall_cons_2; [done|]).
Qed.

Lemma find_reverse_unique {A} (f : A -> bool) l :
  (forall x y i j, l !! i = Some x -> l !! j = Some y -> f x = true -> f y = true -> i = j) ->
  List.find f (reverse l) = List.find f l.
Proof.
  induction l as [|x l IH]; intros H; [done|]. rewrite reverse_cons. cbn [List.find].
  assert (List.find f (reverse l ++ [x]) = match List.find f (reverse l) with Some y => Some y | None => List.find f [x] end) as ->.
  { generalize (reverse l) as k. induction k as [|y k IHk]; [done|]. cbn [app List.find]. destruct (f y); [done|exact IHk]. }
  rewrite IH by (intros a b i j Ha Hb Hfa Hfb; by apply (H a b (S i) (S j) Ha Hb Hfa) in Hfb as [= ->]).
  cbn [List.find]. destruct (f x) eqn:Ex; [|by destruct (List.find f l)].
  destruct (List.find f l) as [y|] eqn:Ey; [|done]. apply find_some in Ey as [Hy Hfy].
  apply list_elem_of_In, list_elem_of_lookup_1 in Hy as [j Hj]. by specialize (H x y 0%nat (S j) eq_refl Hj Ex Hfy).
Qed.

(** ** Properties *)



Definition demo_dataset : Dataset := Dataset_set_raw Generator.dataset DS_TLV_NETWORK_NAME (str_bytes "thread-dtls-demo").

Definition demo_bytes : bytes := Eval vm_compute in match ToyHex.decode (str_bytes ACTIVE_DATASET_TLV_HEX) with inr l => l | inl _ => [] end.
Definition generated_bytes : bytes := Eval vm_compute in match Dataset_to_bytes Generator.dataset with Ok l => l | _ => [] end.
Definition demo_entries : list TlvEntry := Eval vm_compute in match TlvSet_parse demo_bytes with Ok s => entries s | _ => [] end.

(** The dataset in config.rs is not what the generator prints: the generator's
    network name is the one config.rs documents and has seventeen bytes, one
    more than a Thread network name may have; the name in the constant is
    another one, of sixteen.  Every other TLV is the generator's, and the keys
    and the address the firmware takes from the constant are the generator's
    too. *)
Theorem demo_dataset_name {HX : Hex} {HL : HexLaws} :
  (exists d, Dataset_from_hex (str_bytes ACTIVE_DATASET_TLV_HEX) = Ok d /\
     (forall t, Dataset_raw d t = Dataset_raw demo_dataset t) /\
     (forall t, t <> DS_TLV_NETWORK_NAME -> Dataset_raw d t = Dataset_raw Generator.dataset t)) /\
  (exists hex, Generator.main = Ok hex /\ hex <> ACTIVE_DATASET_TLV_HEX) /\
  Dataset_network_name Generator.dataset = Ok (Some (str_bytes "meshcop-dtls-demo")) /\
  len (str_bytes "meshcop-dtls-demo") = 17 /\
  dataset_pskc = Ok Generator.PSKC /\
  leader_aloc = Ok (mkSocketAddrV6 (aloc_address Generator.MESH_LOCAL_PREFIX LEADER_ALOC16) DEMO_PORT 0 0).
Proof.
  assert (ACTIVE_DATASET_TLV_HEX = hex_digits demo_bytes) as Et by reflexivity.
  assert (bytes_ok demo_bytes) as Hb by by_decide.
  split; [|split; [|by split_and!]].
  - exists (mkDataset (mkTlvSet demo_entries)). split.
    + rewrite Et, <- hex_encode_lower by done. unfold Dataset_from_hex. by rewrite hex_decode_encode.
    + assert (forall t, t ∉ map ty demo_entries -> forall d, Forall (fun t => t ∈ map ty demo_entries) (map ty (entries (tlvs d))) -> Dataset_raw d t = None) as Hnone.
      { intros t Ht d Hd. unfold Dataset_raw, last_value. destruct (List.find _ _) as [e|] eqn:E; [|done].
        apply find_some in E as [He Ee]. zbool. destruct Ht. rewrite Forall_forall in Hd. apply Hd. rewrite <- Ee.
        apply list_elem_of_In, in_map, list_elem_of_In, elem_of_reverse. by apply list_elem_of_In. }
      assert (forall d', (forall t, t ∉ map ty demo_entries -> Dataset_raw d' t = None) -> forall (P : Z -> Prop),
        Forall (fun t => P t -> Dataset_raw (mkDataset (mkTlvSet demo_entries)) t = Dataset_raw d' t) (map ty demo_entries) ->
        forall t, P t -> Dataset_raw (mkDataset (mkTlvSet demo_entries)) t = Dataset_raw d' t) as Hsame.
      { intros d' Hd' P HP t Pt. destruct (decide (t ∈ map ty demo_entries)) as [Ht|Ht]; [|by rewrite Hd', Hnone by (done || by_decide)].
        rewrite Forall_forall in HP. by apply HP. }
      split.
      * intros t. apply (Hsame demo_dataset) with (P := fun _ => True); [intros; apply Hnone; [done|by_decide]|by repeat constructor|done].
      * apply Hsame; [intros; apply Hnone; [done|by_decide]|]. by repeat (constructor; [|]).
  - exists (hex_encode generated_bytes). split; [reflexivity|].
    by rewrite hex_encode_lower by by_decide.
Qed.

(** ** The transport's contract *)

Section Transport.
Import ThreadUdp.
Context {OT : OpenThread}.

(** What the driver relies on when it receives: OpenThread's socket fills the
    adapter's buffer with what fits of a datagram and reports its length; the
    adapter hands on what fits of that datagram in the caller's buffer, which is
    no longer than its own, the length as reported, and leaves the rest of the
    caller's buffer alone. *)
Theorem receive_into_hands_on (self : ThreadUdp) buffer d local remote s :
  length (rx_buffer self) = Z.to_nat UDP_RX_BUFFER_SIZE -> len buffer <= UDP_RX_BUFFER_SIZE ->
  udp_recv (rx_buffer self) (socket self) =
    (s, Ok (take (length (rx_buffer self)) d ++ drop (length d) (rx_buffer self), (len d, local, remote))) ->
  exists self', ThreadUdp.receive_into buffer self =
      (self', Ok (take (length buffer) d ++ drop (length d) buffer, (len d, V6 local, V6 remote))) /\
    socket self' = s /\ bound_port self' = bound_port self /\ length (rx_buffer self') = length (rx_buffer self).
Proof.
  intros Hrx Hb Hr. unfold UDP_RX_BUFFER_SIZE in *. unfold ThreadUdp.receive_into, mbind, mget, mzoom, mset, mlift, mret, id.
  rewrite Hr. cbn [map_err].
  set (received := take _ d ++ _). assert (length received = length (rx_buffer self)) as Hl.
  { unfold received. rewrite length_app, length_take, length_drop. lia. }
  assert (@slice_to ThreadUdpError _ received (Z.min (len d) (len buffer)) = Ok (take (length buffer) d)) as ->.
  { unfold slice_to, slice. pose proof (len_nonneg d). pose proof (len_nonneg buffer).
    rewrite !(proj2 (Z.leb_le _ _)) by (unfold len in *; lia). cbn [andb]. rewrite Z.sub_0_r, drop_0. f_equal.
    unfold received. rewrite take_app_le by (rewrite length_take; unfold len in *; lia). rewrite take_take.
    destruct (decide (length d <= length buffer)%nat).
    - by rewrite !take_ge by (unfold len in *; lia).
    - f_equal. unfold len in *. lia. }
  exists (mkThreadUdp s (bound_port self) received). split_and!; [|done..].
  assert (drop (Z.to_nat (Z.min (len d) (len buffer))) buffer = drop (length d) buffer) as ->; [|done].
  destruct (decide (length d <= length buffer)%nat).
  - f_equal. unfold len. lia.
  - rewrite !drop_ge; [done|unfold len in *; lia..].
Qed.

(** A send leaves with the bound port as its source, or with the source left to
    the stack, and with the address it was given as its destination; an address
    or a port that does not fit is refused before the socket is used. *)
Theorem send_from_bound_port (self : ThreadUdp) local remote data :
  (exists e, ThreadUdp.send local remote data self = (self, Err e) /\ kind e = InvalidInput) \/
  (exists l r source, local = V6 l /\ remote = V6 r /\ (v6_port l = 0 \/ v6_port l = bound_port self) /\
    (source = None \/ exists a, source = Some a /\ v6_ip a = v6_ip l /\ v6_port a = bound_port self) /\
    ThreadUdp.send local remote data self =
      let '(s, result) := udp_send data source r (socket self) in (set_socket s self, map_err OfOpenThread result)).
Proof.
  unfold ThreadUdp.send, mbind, mlift, mget, merr, mzoom, id.
  destruct local as [|l]; [left; by eexists|]. destruct remote as [|r]; [left; by eexists|]. cbn [ThreadUdp.ipv6].
  destruct (v6_port l =? 0) eqn:E0; destruct (v6_port l =? bound_port self) eqn:E1; cbn [negb andb]; zbool;
    try (left; by eexists); right; exists l, r; eexists; (split; [done|]); (split; [done|]);
    (split; [auto|]); (split; [|reflexivity]); case_bool_decide; eauto.
Qed.
End Transport.
