(* ===== verification/DemoSessions.v ===== *)
(** * DemoSessions: the two boards of the ESP32-H2 demo

    The model of demo/esp32h2-dtls/src/main.rs: what the server and the client
    board do once the hardware and Thread are up, over the sessions of
    [ClientDriver] and [ServerDriver].  Both loop for ever, so each is a step
    function on its phases; a step returns the lines it prints.  Bringing the
    chip, the radio and OpenThread up is calls of other crates only. *)
From S2P Require Import Prelude Text Hex Tlv Errors Replay Record Handshake Hello Crypto Ecjpake.
From S2P Require Import ThreadHandshake Safety Driver Flights ClientDriver ServerDriver Sessions DriverTermination DriverReads.
From S2P Require SocketAddr Demo Examples.

Definition HANDSHAKE_TIMEOUT : Z := 60 * SECOND.
Definition APPLICATION_TIMEOUT : Z := 10 * SECOND.
Definition CLIENT_RETRY_DELAY : Z := 3 * SECOND.
Definition CLIENT_MESSAGE_INTERVAL : Z := 2 * SECOND.
Definition SERVER_RETRY_DELAY : Z := 250 * 1000000.

(** The driver over the adapter of thread_udp.rs. *)
#[export] Instance demo_net {OT : Demo.OpenThread} : Net := {
  SocketAddr := Demo.SocketAddr;
  SocketAddr_eq_dec := Demo.SocketAddr_eq_dec;
  TransportError := Demo.ThreadUdp.ThreadUdpError }.

Section Demo.
Context {HH : Hash} {AA : Aead} {CC : Curve} {RR : Rng} {OT : Demo.OpenThread}.

(** ** Lines *)

(** [Display] of an address and of a driver's error. *)
Definition show_addr (a : Driver.SocketAddr) : bytes :=
  str_bytes (Examples.SocketAddr_display
    match a with
    | Demo.V4 ip port => SocketAddr.SocketAddrV4 ip port
    | Demo.V6 a => SocketAddr.SocketAddrV6 (Demo.v6_ip a) (Demo.v6_port a) (Demo.v6_scope_id a)
    end).
Definition DriverError_display (self : DriverError) : bytes :=
  match self with
  | Protocol error => DtlsError_to_string error
  | Transport error => str_bytes ("datagram transport error: " +:+ Demo.ThreadUdp.ThreadUdpError_display error)
  | Timeout => str_bytes "DTLS operation timed out"
  end.

Definition log_application_payload (prefix : string) (payload : bytes) : bytes :=
  if utf8_valid payload then str_bytes (prefix +:+ ": ") ++ payload
  else str_bytes (prefix +:+ ": <non-UTF-8 application data, " +:+ dec (len payload) +:+ " bytes>").

(** [Timer::after(d).await]: datagrams that arrive meanwhile wait in the socket. *)
Definition pause (d : Z) (w : World) : World := set_clock (clock w + d) w.

(** ** The server *)

(** Each phase keeps the number of the accept attempt. A board that cannot go
    on has panicked, or waits for ever. *)
Inductive ServerBoard :=
  | Listening (attempt : Z) (w : World)
  | Serving (attempt : Z) (session : DtlsServerSession) (w : World)
  | ServerStopped.

Definition listen_again (attempt : Z) (w : World) : ServerBoard :=
  Listening (wrapping_add 32 attempt 1) (pause SERVER_RETRY_DELAY w).

(** One accept attempt, or one turn of the inner loop. *)
Definition server_step (pskc : bytes) (b : ServerBoard) : list bytes * ServerBoard :=
  match b with
  | Listening attempt w =>
      let waiting := str_bytes ("server: waiting for client (accept attempt " +:+ dec attempt +:+ ")") in
      match DtlsServer_accept_with_rng pskc HANDSHAKE_TIMEOUT w with
      | (w, Ok session) =>
          ([waiting; str_bytes "server: DTLS established with " ++ show_addr (ds_peer session)], Serving attempt session w)
      | (w, Err (Raise error)) =>
          ([waiting; str_bytes "server: accept attempt failed: " ++ DriverError_display error], listen_again attempt w)
      | _ => ([waiting], ServerStopped)
      end
  | Serving attempt session w =>
      match server_recv_application_data APPLICATION_TIMEOUT (session, w) with
      | ((session, w), Ok payload) =>
          let received := log_application_payload "server: received" payload in
          match send_application_data (str_bytes "ack: " ++ payload) (session, w) with
          | ((session, w), Ok _) => ([received], Serving attempt session w)
          | ((_, w), Err (Raise error)) =>
              ([received; str_bytes "server: send failed, restarting session: " ++ DriverError_display error],
               listen_again attempt w)
          | _ => ([received], ServerStopped)
          end
      | ((_, w), Err (Raise error)) =>
          ([str_bytes "server: session ended, listening again: " ++ DriverError_display error], listen_again attempt w)
      | _ => ([], ServerStopped)
      end
  | ServerStopped => ([], ServerStopped)
  end.

(** [run_server] up to its loop; [dataset_pskc] may panic. *)
Definition run_server (w : World) : result string (bytes * (list bytes * ServerBoard)) :=
  let! pskc := Demo.dataset_pskc in
  Ok (pskc, ([str_bytes ("server: Leader UDP socket bound on [::]:" +:+ dec Demo.DEMO_PORT)], Listening 1 w)).

(** ** The client *)

Inductive ClientBoard :=
  | Connecting (attempt message_counter : Z) (w : World)
  | Connected (attempt message_counter : Z) (session : DtlsClientSession) (w : World)
  | ClientStopped.

Definition connect_again (attempt message_counter : Z) (w : World) : ClientBoard :=
  Connecting (wrapping_add 32 attempt 1) message_counter (pause CLIENT_RETRY_DELAY w).

Definition hello_message (message_counter : Z) : bytes := str_bytes ("hello " +:+ dec message_counter).

Definition client_step (local peer : Driver.SocketAddr) (pskc : bytes) (b : ClientBoard) : list bytes * ClientBoard :=
  match b with
  | Connecting attempt message_counter w =>
      let connecting := str_bytes "client: connecting to Leader ALOC " ++ show_addr peer
        ++ str_bytes (" (attempt " +:+ dec attempt +:+ ")") in
      match DtlsClient_connect_with_rng local peer pskc HANDSHAKE_TIMEOUT w with
      | (w, Ok session) =>
          ([connecting; str_bytes "client: DTLS established with " ++ show_addr (cs_peer session)],
           Connected attempt message_counter session w)
      | (w, Err (Raise error)) =>
          ([connecting; str_bytes "client: connect attempt failed: " ++ DriverError_display error],
           connect_again attempt message_counter w)
      | _ => ([connecting], ClientStopped)
      end
  | Connected attempt message_counter session w =>
      let message := hello_message message_counter in
      let sending := str_bytes "client: sending " ++ message in
      match request_application_data message APPLICATION_TIMEOUT (session, pause CLIENT_MESSAGE_INTERVAL w) with
      | ((session, w), Ok response) =>
          let expected := str_bytes "ack: " ++ message in
          let outcome :=
            if bool_decide (response = expected) then str_bytes "client: round trip ok: " ++ expected
            else log_application_payload "client: unexpected response" response in
          ([sending; outcome], Connected attempt (wrapping_add 32 message_counter 1) session w)
      | ((_, w), Err (Raise error)) =>
          ([sending; str_bytes "client: round trip failed, reconnecting: " ++ DriverError_display error],
           connect_again attempt message_counter w)
      | _ => ([sending], ClientStopped)
      end
  | ClientStopped => ([], ClientStopped)
  end.

Definition unspecified : Driver.SocketAddr := Demo.V6 (Demo.mkSocketAddrV6 (repeat 0 16) Demo.DEMO_PORT 0 0).

(** [run_client] up to its loop. *)
Definition run_client (w : World) : result string (Driver.SocketAddr * bytes * (list bytes * ClientBoard)) :=
  let! aloc := Demo.leader_aloc in
  let! pskc := Demo.dataset_pskc in
  Ok (Demo.V6 aloc : Driver.SocketAddr, pskc, ([], Connecting 1 0 w)).

(** [n] steps and what they print. *)
Fixpoint steps {B} (step : B -> list bytes * B) (n : nat) (b : B) : list bytes * B :=
  match n with
  | O => ([], b)
  | S n =>
      let '(lines, b) := step b in
      let '(more, b) := steps step n b in
      (lines ++ more, b)
  end.
End Demo.

(** [wait_for_role]: the roles the stack reports, each when it has changed;
    [None] is a stack that reports no more. *)
Section Roles.
Context {Role : Type} `{EqDecision Role} (show_role : Role -> bytes).
Fixpoint wait_for_role (wanted : Role) (previous : option Role) (roles : list Role) : list bytes * option (list Role) :=
  match roles with
  | [] => ([], None)
  | role :: roles =>
      let changed := if bool_decide (previous = Some role) then [] else [str_bytes "thread: role -> " ++ show_role role] in
      if bool_decide (role = wanted) then (changed ++ [str_bytes "thread: required role reached: " ++ show_role wanted], Some roles)
      else let '(lines, r) := wait_for_role wanted (Some role) roles in (changed ++ lines, r)
  end.
End Roles.

(** ** Start *)

(** What the calls of [main] into the chip, the radio and OpenThread return: the
    text of an error, or nothing. *)
Section Start.
Context {Role : Type} `{EqDecision Role} (show_role : Role -> bytes) (Leader Child : Role).

Inductive Feature := RoleServer | RoleClient.
Record Hardware := mkHardware {
  hw_trng : option bytes;
  hw_openthread : option bytes;
  hw_task : option bytes;
  hw_dataset : string -> option bytes;
  hw_link_mode : bool -> bool -> bool -> option bytes;
  hw_router_eligible : bool;
  hw_ipv6 : option bytes;
  hw_thread : option bytes;
  hw_roles : list Role;
  hw_bind : Z -> option bytes }.

(** What is printed, and the roles still to be reported to a board that has got
    its transport. *)
Definition started : Type := list bytes * option (list Role).
Definition say (line : string) (k : started) : started := (str_bytes line :: k.1, k.2).
Definition or_halt (failed : option bytes) (message : string) (k : started) : started :=
  match failed with Some error => ([str_bytes message ++ error], None) | None => k end.

Definition configure (feature : Feature) (hw : Hardware) (k : started) : started :=
  match feature with
  | RoleServer =>
      or_halt (hw_link_mode hw true true true) "fatal: could not configure Full Thread Device mode: " (
      if negb (hw_router_eligible hw) then ([str_bytes "fatal: server FTD is not router-eligible"], None)
      else say "thread: FTD configured router-eligible" k)
  | RoleClient =>
      or_halt (hw_link_mode hw true false false) "fatal: could not configure rx-on Minimal Thread Device mode: " (
      say "thread: MTD configured rx-on; MTD builds are never router-eligible" k)
  end.

Definition main (feature : Feature) (hw : Hardware) : started :=
  or_halt (hw_trng hw) "fatal: could not start hardware TRNG: " (
  or_halt (hw_openthread hw) "fatal: could not initialize OpenThread: " (
  or_halt (hw_task hw) "fatal: could not allocate OpenThread task: " (
  say (match feature with RoleServer => "ESP32-H2 Thread DTLS demo: role=server (FTD)"
       | RoleClient => "ESP32-H2 Thread DTLS demo: role=client (MTD, rx-on)" end) (
  say "thread: installing canned Active Operational Dataset" (
  or_halt (hw_dataset hw Demo.ACTIVE_DATASET_TLV_HEX) "fatal: could not install Active Operational Dataset: " (
  configure feature hw (
  or_halt (hw_ipv6 hw) "fatal: could not bring the Thread IPv6 interface up: " (
  say "thread: IPv6 interface up" (
  or_halt (hw_thread hw) "fatal: could not start Thread: " (
  say "thread: protocol started" (
  let '(lines, rest) := wait_for_role show_role (match feature with RoleServer => Leader | RoleClient => Child end) None (hw_roles hw) in
  let '(more, result) :=
    match rest with
    | Some rest => or_halt (hw_bind hw Demo.DEMO_PORT)
        ("fatal: could not bind OpenThread UDP port " +:+ dec Demo.DEMO_PORT +:+ ": ") ([], Some rest)
    | None => ([], None)
    end in
  (lines ++ more, result)))))))))))).

(** A board has its transport only in its role: the server leads the network, the
    client is a child of it, and nothing on the way has failed. *)
Lemma role_reached wanted previous roles lines rest :
  wait_for_role show_role wanted previous roles = (lines, Some rest) -> wanted ∈ roles.
Proof.
  revert previous lines. induction roles as [|r roles IH]; intros previous lines; cbn [wait_for_role]; [done|].
  case_bool_decide as E; [intros _; rewrite E; left|]. destruct (wait_for_role _ _ _ roles) as [l o] eqn:Ew.
  intros [= _ ->]. right. by eapply IH.
Qed.
Lemma or_halt_ready failed message k rest : (or_halt failed message k).2 = Some rest -> failed = None /\ k.2 = Some rest.
Proof. by destruct failed. Qed.
Lemma started_in_role feature hw lines rest : main feature hw = (lines, Some rest) ->
  (match feature with RoleServer => Leader | RoleClient => Child end) ∈ hw_roles hw /\
  hw_dataset hw Demo.ACTIVE_DATASET_TLV_HEX = None /\ hw_bind hw Demo.DEMO_PORT = None.
Proof.
  intros H. apply (f_equal snd) in H. unfold main in H. cbn [snd] in H.
  do 3 apply or_halt_ready in H as [_ H]. cbn [say snd] in H. apply or_halt_ready in H as [Hd H].
  assert (forall k, (configure feature hw k).2 = Some rest -> k.2 = Some rest) as Hc.
  { intros k Hk. unfold configure in Hk. destruct feature; apply or_halt_ready in Hk as [_ Hk]; [|done]. by destruct (negb _). }
  apply Hc in H. apply or_halt_ready in H as [_ H]. cbn [say snd] in H. apply or_halt_ready in H as [_ H]. cbn [say snd] in H.
  destruct (wait_for_role _ _ _ _) as [l [r|]] eqn:Ew; [|done]. apply role_reached in Ew.
  destruct (hw_bind hw Demo.DEMO_PORT) eqn:Eb; [by cbn in H|]. done.
Qed.
End Start.

(** ** The boards never stop *)

Section Boards.
Context {HH : Hash} {HL : HashLaws} {AA : Aead} {AL : AeadLaws} {CC : Curve} {CL : CurveLaws} {RR : Rng} {RL : RngLaws}.
Context {OT : Demo.OpenThread}.

(** A board's world: no timer runs between two steps. *)
Definition calm (w : World) : Prop := Forall arrival_ok (arrivals w) /\ timers w = [].
Definition server_ok (b : ServerBoard) : Prop :=
  match b with Listening _ w => calm w | Serving _ d w => calm w /\ server_keys_ok d | ServerStopped => False end.
Definition client_ok (b : ClientBoard) : Prop :=
  match b with Connecting _ _ w => calm w | Connected _ _ c w => calm w /\ keys_ok (cs_state c) | ClientStopped => False end.
Definition server_clock (b : ServerBoard) : Z :=
  match b with Listening _ w | Serving _ _ w => clock w | ServerStopped => 0 end.
Definition client_clock (b : ClientBoard) : Z :=
  match b with Connecting _ _ w | Connected _ _ _ w => clock w | ClientStopped => 0 end.

Lemma calm_timers w : calm w -> Forall (Z.le (clock w)) (timers w).
Proof. by intros [_ ->]. Qed.
Lemma calm_pause d w : calm w -> calm (pause d w).
Proof. by intros [? ?]. Qed.

(** Sending takes no time, and fails at most with an error of the transport. *)
Lemma calm_send local peer rs w : calm w ->
  let '(w', r) := send_records local peer rs w in
  calm w' /\ clock w' = clock w /\ match r with Ok _ | Err (Raise _) => True | _ => False end.
Proof.
  intros Hw. unfold send_records, mbind, proto, mlift. pose proof (encode_datagram_safe rs) as Hs.
  destruct (encode_datagram rs) as [d|e|f]; [|done|done]. cbn [map_err]. unfold send.
  by destruct (head (send_results w)) as [[e|]|].
Qed.

Lemma calm_server_send d p w : calm w -> server_keys_ok d ->
  let '((d', w'), r) := send_application_data p (d, w) in
  calm w' /\ server_keys_ok d' /\ clock w' = clock w /\ match r with Ok _ | Err (Raise _) => True | _ => False end.
Proof.
  intros Hw Hk. unfold send_application_data, on_ds_state, on_ds_world, mzoom, mbind, mget.
  destruct (session_protect_ok CtApplicationData p (ds_state d) Hk) as [Hs Hk'].
  unfold protect_application_data. destruct (protect_record CtApplicationData p (ds_state d)) as [s [r|e|f]]; cbn [fst snd] in *;
    [|done|done]. cbn [map_err]. cbn [snd].
  pose proof (calm_send (ds_local d) (ds_peer d) [r] w Hw) as Hsend.
  by destruct (send_records (ds_local d) (ds_peer d) [r] w) as [w' [u|[e|n|]|f]]; destruct Hsend as (? & ? & ?).
Qed.
Lemma calm_client_send c p w : calm w -> keys_ok (cs_state c) ->
  let '((c', w'), r) := client_send_application_data p (c, w) in
  calm w' /\ keys_ok (cs_state c') /\ clock w' = clock w /\ match r with Ok _ | Err (Raise _) => True | _ => False end.
Proof.
  intros Hw Hk. unfold client_send_application_data, on_cs_state, on_state, on_world, mzoom, mbind, mget. cbn [fst snd].
  destruct (session_protect_ok CtApplicationData p (cs_state c) Hk) as [Hs Hk'].
  unfold protect_application_data. destruct (protect_record CtApplicationData p (cs_state c)) as [s [r|e|f]]; cbn [fst snd] in *;
    [|done|done]. cbn [map_err fst snd].
  pose proof (calm_send (cs_local c) (cs_peer c) [r] w Hw) as Hsend.
  by destruct (send_records (cs_local c) (cs_peer c) [r] w) as [w' [u|[e|n|]|f]]; destruct Hsend as (? & ? & ?).
Qed.

(** A timed operation on a calm world: it is calm afterwards, in time, and the
    result is a value or an error. *)
Definition calm_end {A} (duration : Z) (w w' : World) (r : result Stop A) : Prop :=
  calm w' /\ clock w <= clock w' <= clock w + duration /\ match r with Ok _ | Err (Raise _) => True | _ => False end.

Lemma calm_in_time {A} duration w w' (r : result Stop A) : calm w -> in_time duration w (w', r) ->
  Forall arrival_ok (arrivals w') -> calm_end duration w w' r.
Proof.
  intros [_ Ht] (Hc & Hw & Hr) Ha. cbn [fst snd] in *. rewrite Ht in *. split; [done|]. split; [done|].
  destruct r as [a|[e|n|]|f]; try done.
Qed.

Lemma calm_handshake {A} (Q : A -> World -> Prop) (m : io A) duration w : 0 <= duration -> calm w ->
  (forall w0, world_ok w0 -> ends_by later Q w0 (m w0)) ->
  let '(w', r) := with_timeout m duration w in
  calm_end duration w w' r /\ forall a, r = Ok a -> exists w1, Q a w1.
Proof.
  intros Hd Hw Hm. pose proof (with_timeout_ends m Q duration w Hd (proj1 Hw) (calm_timers w Hw) Hm) as Ht.
  pose proof (with_timeout_leaves m Q duration w Hd (proj1 Hw) (calm_timers w Hw) Hm) as Hl.
  destruct (with_timeout m duration w) as [w' r]. destruct Hl as (Ha & _ & Hq). split; [by apply calm_in_time|done].
Qed.

Lemma calm_request p duration c w : 0 <= duration -> calm w -> keys_ok (cs_state c) ->
  let '((c', w'), r) := request_application_data p duration (c, w) in
  calm_end duration w w' r /\ forall a, r = Ok a -> keys_ok (cs_state c').
Proof.
  intros Hd Hw Hk. unfold request_application_data, mbind. pose proof (calm_client_send c p w Hw Hk) as Hs.
  destruct (client_send_application_data p (c, w)) as [[c1 w1] [u|[e|n|]|f]]; destruct Hs as (Hw1 & Hk1 & Hc1 & Hr1); try done.
  2: { split; [split; [done|split; [lia|done]]|done]. }
  unfold client_recv_application_data, mbind, mget, on_cs_state, mzoom.
  pose proof (recv_application_in_time (cs_peer c1) duration (cs_state c1) w1 Hd (proj1 Hw1) (calm_timers w1 Hw1) Hk1)
    as (Ht & Ha & _ & Hq).
  destruct (recv_application_data (cs_peer c1) duration (cs_state c1, w1)) as [[s2 w2] r]. cbn [fst snd] in *.
  destruct (calm_in_time _ _ _ _ Hw1 Ht Ha) as (Hw2 & Hc2 & Hr2). rewrite Hc1 in Hc2.
  destruct r as [a|[e|n|]|f]; try done; (split; [done|]); intros b Eb; try done. injection Eb as <-. by apply (Hq a).
Qed.

Definition server_turn_time : Z := HANDSHAKE_TIMEOUT + SERVER_RETRY_DELAY.
Definition client_turn_time : Z := HANDSHAKE_TIMEOUT + CLIENT_RETRY_DELAY.

Lemma server_step_ok pskc b : server_ok b ->
  server_ok (server_step pskc b).2 /\ (1 <= length (server_step pskc b).1)%nat /\
  server_clock b <= server_clock (server_step pskc b).2 <= server_clock b + server_turn_time.
Proof.
  unfold server_turn_time, HANDSHAKE_TIMEOUT, SERVER_RETRY_DELAY, SECOND.
  intros Hb. destruct b as [attempt w|attempt d w|]; [| |done]; cbn [server_step server_ok] in *.
  - unfold DtlsServer_accept_with_rng, accept_with_rng, mbind.
    pose proof (calm_handshake (fun a _ => keys_ok (acc_state a)) (accept_inner pskc) HANDSHAKE_TIMEOUT w ltac:(done) Hb (accept_inner_ends pskc)) as H.
    destruct (with_timeout (accept_inner pskc) HANDSHAKE_TIMEOUT w) as [w' [a|[e|n|]|f]]; destruct H as ((Hw & Hc & Hr) & Hq);
      try done; unfold HANDSHAKE_TIMEOUT, SECOND in Hc.
    + destruct (Hq a eq_refl) as [_ Hk]. cbn. split; [done|]. split; lia.
    + cbn. unfold SERVER_RETRY_DELAY. split; [by apply calm_pause|]. split; lia.
  - destruct Hb as [Hw Hk].
    pose proof (server_recv_in_time APPLICATION_TIMEOUT d w ltac:(done) (proj1 Hw) (calm_timers w Hw) Hk) as (Ht & Ha & _ & Hq).
    destruct (server_recv_application_data APPLICATION_TIMEOUT (d, w)) as [[d' w'] r]. cbn [fst snd] in *.
    destruct (calm_in_time _ _ _ _ Hw Ht Ha) as (Hw' & Hc & Hr). unfold APPLICATION_TIMEOUT, SECOND in Hc.
    destruct r as [p|[e|n|]|f]; try done.
    + destruct (Hq p eq_refl) as [Hk' _]. pose proof (calm_server_send d' (str_bytes "ack: " ++ p) w' Hw' Hk') as Hs.
      destruct (send_application_data _ (d', w')) as [[d2 w2] [u|[e|n|]|f]]; destruct Hs as (Hw2 & Hk2 & Hc2 & Hr2); try done; cbn;
        unfold SERVER_RETRY_DELAY; (split; [first [by split|by apply calm_pause]|split; lia]).
    + cbn. unfold SERVER_RETRY_DELAY. split; [by apply calm_pause|]. split; lia.
Qed.

Lemma client_step_ok local peer pskc b : client_ok b ->
  client_ok (client_step local peer pskc b).2 /\ (1 <= length (client_step local peer pskc b).1)%nat /\
  client_clock b <= client_clock (client_step local peer pskc b).2 <= client_clock b + client_turn_time.
Proof.
  unfold client_turn_time, HANDSHAKE_TIMEOUT, CLIENT_RETRY_DELAY, SECOND.
  intros Hb. destruct b as [attempt n w|attempt n c w|]; [| |done]; cbn [client_step client_ok] in *.
  - unfold DtlsClient_connect_with_rng, connect_with_rng, mbind.
    pose proof (calm_handshake (fun s _ => keys_ok s) (connect_inner local peer pskc) HANDSHAKE_TIMEOUT w ltac:(done) Hb
      (connect_inner_ends local peer pskc)) as H.
    destruct (with_timeout (connect_inner local peer pskc) HANDSHAKE_TIMEOUT w) as [w' [s|[e|k|]|f]]; destruct H as ((Hw & Hc & Hr) & Hq);
      try done; unfold HANDSHAKE_TIMEOUT, SECOND in Hc.
    + destruct (Hq s eq_refl) as [_ Hk]. cbn. split; [done|]. split; lia.
    + cbn. unfold CLIENT_RETRY_DELAY, SECOND. split; [by apply calm_pause|]. split; lia.
  - destruct Hb as [Hw Hk]. set (w0 := pause CLIENT_MESSAGE_INTERVAL w).
    assert (calm w0) as Hw0 by by apply calm_pause. assert (clock w0 = clock w + 2000000000) as Hc0 by done.
    pose proof (calm_request (hello_message n) APPLICATION_TIMEOUT c w0 ltac:(done) Hw0 Hk) as Hreq.
    destruct (request_application_data _ _ (c, w0)) as [[c1 w1] [p|[e|k|]|f]]; destruct Hreq as [(Hw1 & Hc1 & Hr) Hq]; try done;
      unfold APPLICATION_TIMEOUT, SECOND in Hc1; cbn [fst snd client_ok client_clock length].
    + split; [split; [done|by apply (Hq p)]|]. split; lia.
    + unfold connect_again, CLIENT_RETRY_DELAY, SECOND. split; [by apply calm_pause|]. cbn. split; lia.
Qed.
End Boards.

(** ** Round trips *)

(** A decimal number is its digits. *)
Definition is_digit (b : Z) : Prop := 0x30 <= b <= 0x39.
Lemma pretty_go_digits k x s : (x < 10 ^ N.of_nat k)%N -> Forall is_digit (str_bytes s) ->
  Forall is_digit (str_bytes (pretty_N_go x s)) /\ len (str_bytes (pretty_N_go x s)) <= Z.of_nat k + len (str_bytes s).
Proof.
  revert x s. induction k as [|k IH]; intros x s Hx Hs.
  { assert (x = 0)%N as -> by (cbn in Hx; lia). rewrite pretty_N_go_0. split; [done|lia]. }
  destruct (decide (x = 0)%N) as [->|Hn]; [rewrite pretty_N_go_0; split; [done|lia]|].
  rewrite pretty_N_go_step by lia. rewrite Nat2N.inj_succ, N.pow_succ_r' in Hx.
  destruct (IH (x / 10)%N (String (pretty_N_char (x mod 10)) s)) as [H1 H2];
    [apply N.Div0.div_lt_upper_bound; lia| |split; [done|]; cbn [str_bytes] in H2; rewrite len_cons in H2; lia].
  cbn [str_bytes]. constructor; [|done]. unfold pretty_N_char, is_digit. by repeat case_match.
Qed.
Lemma dec_digits n : 0 <= n < 2 ^ 32 -> Forall is_digit (str_bytes (dec n)) /\ len (str_bytes (dec n)) <= 10.
Proof.
  intros Hn. destruct n as [|p|p]; [split; [by repeat constructor|done]| |lia].
  destruct (pretty_go_digits 10 (N.pos p) "") as [H1 H2]; [cbn; lia|constructor|].
  change (dec (Z.pos p)) with (pretty_N_go (N.pos p) ""). split; [done|].
  change (len (str_bytes "")) with 0 in H2. lia.
Qed.

Lemma ascii_utf8 l : Forall (fun b => 0 <= b < 0x80) l -> utf8_valid l = true.
Proof.
  induction 1 as [|b l Hb _ IH]; [done|]. cbn [utf8_valid]. unfold in_range. by rewrite !(proj2 (Z.leb_le _ _)) by lia.
Qed.

Lemma hello_plain n : 0 <= n < 2 ^ 32 -> let m := hello_message n in
  Forall (fun b => 0 <= b < 0x80) m /\ len m <= 16.
Proof.
  intros Hn m. destruct (dec_digits n Hn) as [Hd Hl]. unfold m, hello_message. rewrite str_bytes_app. split.
  - apply Forall_app_2; [by repeat constructor|]. eapply Forall_impl; [exact Hd|]. unfold is_digit. cbn. lia.
  - rewrite len_app. change (len (str_bytes "hello ")) with 6. lia.
Qed.

Section RoundTrips.
Context {HH : Hash} {HL : HashLaws} {AA : Aead} {AL : AeadLaws} {CC : Curve} {CL : CurveLaws} {RR : Rng} {RL : RngLaws}.
Context {OT : Demo.OpenThread}.

(** A session ready to send its record [n] and to receive a record the peer has
    not sent before its record [m]. *)
Definition session_ready (s : SessionState) (n m : Z) : Prop :=
  next_application_sequence s = n /\ 0 <= n /\ unread_records s = [] /\
  exists history, window_repr (application_replay s) history /\ Forall (fun x => x < m) history.

(** What one board sends fits one record and reaches the other. *)
Definition sent_as (s : SessionState) (n : Z) (p : bytes) (q : bytes) : Prop :=
  exists r, protect_application_data p s = (set_next_application_sequence (n + 1) s, Ok r) /\
    protects r CtApplicationData n (write_keys s).1 (write_keys s).2 p /\ carries q [r].

Lemma protected_once s n p : len (write_keys s).2 = 4 -> next_application_sequence s = n -> 0 <= n < 2 ^ 48 - 1 ->
  bytes_ok p -> len p <= 1024 -> exists q, sent_as s n p q.
Proof.
  intros Hiv Hs Hn Hb Hl. destruct (write_keys s) as [key iv] eqn:Ek. cbn [snd] in Hiv.
  destruct (protect_protects CtApplicationData n key iv p Hiv ltac:(unfold uint; lia) Hb ltac:(lia)) as (r & Er & Pr).
  exists (datagram [r]), r. rewrite Ek. split; [|split; [done|]].
  - unfold protect_application_data, protect_record, mbind, mget, id. rewrite Ek, Hs. unfold mlift. rewrite Er.
    unfold mset, mret, wrapping_add. by rewrite wrap_small by (unfold uint; lia).
  - apply small_datagram; [|cbn; lia]. apply Forall_singleton. destruct Pr as (Hw & _ & _ & _ & Hp & _). split; [done|lia].
Qed.

(** The world after a datagram was sent, or received. *)
Definition idle (w : World) : Prop := timers w = [] /\ send_results w = [].

Lemma idle_after_send w x d : idle w -> idle (log_send x (pause d w)).
Proof. intros [Ht Hs]. split; [done|]. cbn. by rewrite Hs. Qed.
Lemma send_once w local peer r q : idle w -> carries q [r] ->
  send_records local peer [r] w = (log_send (local, peer, q) w, Ok tt).
Proof. intros [_ Hs] [He _]. by apply send_ok. Qed.

(** A fresh record opens and is marked. *)
Lemma ready_opens s n m r p : session_ready s n m -> m < 2 ^ 64 ->
  protects r CtApplicationData m (read_keys s).1 (read_keys s).2 p ->
  let s' := set_application_replay (mark_seen (application_replay s) m) s in
  open_next_record (receive_datagram [r] s) = (s', Ok (Some (Ok p))) /\ session_ready s' n (m + 1).
Proof.
  intros (Hn & H0 & Hu & history & Hw & Hh) Hm Pr s'.
  assert (0 <= m) as H0m by (destruct Pr as (Hr & _ & _ & <- & _); apply Hr).
  assert (has_seen (application_replay s) m = false) as Hs.
  { apply not_true_is_false. intros (k & Hk & [Hin|Hle])%(has_seen_refused _ _ _ Hw).
    - rewrite Forall_forall in Hh. specialize (Hh _ Hin). lia.
    - apply newest_of_elem in Hk. rewrite Forall_forall in Hh. specialize (Hh _ Hk). unfold U64_BITS in Hle. lia. }
  unfold open_next_record, receive_datagram. rewrite Hu. cbn [app].
  change (unread_records (set_unread_records [r] s)) with [r]. split.
  - destruct (read_keys s) as [key iv] eqn:Ek.
    rewrite (open_next_fresh (set_unread_records [r] s) r [] m key iv p Ek Pr Hs). unfold s'. destruct s. cbn in *. by subst.
  - split; [done|]. split; [done|]. split; [done|]. exists (m :: history). split; [by apply mark_seen_repr|].
    constructor; [lia|]. eapply Forall_impl; [exact Hh|]. cbn. lia.
Qed.

(** A read that finds the record in the next datagram, in time. *)
Lemma nothing_unread s n m : session_ready s n m -> open_next_record s = (s, Ok None).
Proof. intros (_ & _ & Hu & _). unfold open_next_record. by rewrite Hu. Qed.

Lemma arrives w t q l peer rest r duration : idle w -> arrivals w = (t, Rx q l peer) :: rest -> carries q [r] ->
  t <= clock w + duration ->
  recv_records_from_unbounded peer (set_timers [clock w + duration] w) =
    (set_timers [clock w + duration] (after_arrival t rest w), Ok ([r], l, peer)).
Proof.
  intros Hi Ha (_ & Hp & Hl) Ht. unfold recv_records_from_unbounded.
  rewrite (recv_datagram_ok (set_timers [clock w + duration] w) t q l peer rest [r] (Some peer));
    [done|done|by apply Forall_singleton|done|done|by right].
Qed.
Lemma timers_back w t rest ts : idle w -> set_timers [] (set_timers ts (after_arrival t rest w)) = after_arrival t rest w.
Proof. intros [Ht _]. destruct w. cbn in *. by subst. Qed.

Lemma client_receives s n m w t q r p l peer rest duration : session_ready s n m -> m < 2 ^ 64 -> 0 <= duration ->
  protects r CtApplicationData m (read_keys s).1 (read_keys s).2 p -> carries q [r] ->
  idle w -> arrivals w = (t, Rx q l peer) :: rest -> t <= clock w + duration ->
  recv_application_data peer duration (s, w) =
    ((set_application_replay (mark_seen (application_replay s) m) s, after_arrival t rest w), Ok p).
Proof.
  intros Hs Hm Hd Pr Hq Hi Ha Ht. destruct (ready_opens s n m r p Hs Hm Pr) as [Ho _].
  unfold recv_application_data, session_timeout, mbind at 1, on_world, mzoom. cbn [snd].
  rewrite (sleep_ok duration w Hd). cbn [map_err]. unfold race. rewrite Ha, (proj1 Hi). cbn [length recv_application_loop].
  unfold on_state, on_world, mbind, mzoom. cbn [fst snd]. rewrite (nothing_unread _ _ _ Hs). cbn [map_err snd].
  rewrite (arrives w t q l peer rest r duration Hi Ha Hq Ht). unfold mset. cbn [map_err fst]. rewrite Ho. cbn [map_err].
  unfold proto, mlift. cbn [map_err]. by rewrite timers_back.
Qed.

Lemma server_receives d n m w t q r p l rest duration : session_ready (ds_state d) n m -> m < 2 ^ 64 -> 0 <= duration ->
  protects r CtApplicationData m (read_keys (ds_state d)).1 (read_keys (ds_state d)).2 p -> carries q [r] ->
  idle w -> arrivals w = (t, Rx q l (ds_peer d)) :: rest -> t <= clock w + duration ->
  server_recv_application_data duration (d, w) =
    ((clear_server_finished (set_ds_state (set_application_replay (mark_seen (application_replay (ds_state d)) m) (ds_state d)) d),
      after_arrival t rest w), Ok p).
Proof.
  intros Hs Hm Hd Pr Hq Hi Ha Ht. destruct (ready_opens (ds_state d) n m r p Hs Hm Pr) as [Ho _].
  assert (forall f b, take_server_finished_retry f [r] b = (b, false)) as Hretry.
  { intros f b. unfold take_server_finished_retry, is_client_finished_flight, is_client_finished_record. cbn [existsb].
    destruct Pr as (_ & -> & _). by rewrite ?bool_decide_false, ?andb_false_r, ?orb_false_r, ?andb_false_r by done. }
  unfold server_recv_application_data, mbind at 1, on_ds_world, mzoom at 1. cbn [snd].
  rewrite (sleep_ok duration w Hd). cbn [map_err]. unfold race. rewrite Ha, (proj1 Hi). cbn [length server_recv_loop].
  unfold on_ds_state, on_ds_world, mbind, mzoom, mget. cbn [fst snd]. rewrite (nothing_unread _ _ _ Hs). cbn [map_err fst snd].
  change (ds_peer (set_ds_state (ds_state d) d)) with (ds_peer d).
  rewrite (arrives w t q l (ds_peer d) rest r duration Hi Ha Hq Ht). cbn [map_err]. rewrite Hretry.
  cbn [mret update_ds mset]. unfold update_ds, mset, mret. cbn [ds_state set_ds_state]. rewrite Ho. cbn [map_err].
  unfold proto, mlift. cbn [map_err]. by rewrite timers_back.
Qed.

(** The two ends of one connection: the client's next record is [n], the
    server's [m], and neither has seen the other's. *)
Definition linked (c : DtlsClientSession) (d : DtlsServerSession) (n m : Z) : Prop :=
  ss_key_material (cs_state c) = ss_key_material (ds_state d) /\ key_block_wf (key_block (ss_key_material (cs_state c))) /\
  ss_role (cs_state c) = RoleOfClient /\ ss_role (ds_state d) = RoleOfServer /\
  session_ready (cs_state c) n m /\ session_ready (ds_state d) m n.

Definition same_ends (c c' : DtlsClientSession) (d d' : DtlsServerSession) : Prop :=
  cs_local c' = cs_local c /\ cs_peer c' = cs_peer c /\ ds_local d' = ds_local d /\ ds_peer d' = ds_peer d.

Lemma linked_keys c d n m : linked c d n m ->
  read_keys (ds_state d) = write_keys (cs_state c) /\ read_keys (cs_state c) = write_keys (ds_state d) /\
  len (write_keys (cs_state c)).2 = 4 /\ len (write_keys (ds_state d)).2 = 4.
Proof.
  intros (Hk & (_ & _ & H1 & H2) & Hc & Hd & _). unfold read_keys, write_keys. by rewrite <- Hk, Hc, Hd.
Qed.

(** One message and its answer. *)
Lemma round_trip c d n m k : linked c d n m -> n < 2 ^ 48 - 1 -> m < 2 ^ 48 - 1 -> 0 <= k < 2 ^ 32 ->
  exists q a c' d', linked c' d' (n + 1) (m + 1) /\ same_ends c c' d d' /\
    (forall pskc attempt w t l rest, idle w -> arrivals w = (t, Rx q l (ds_peer d)) :: rest ->
      t <= clock w + APPLICATION_TIMEOUT ->
      server_step pskc (Serving attempt d w) =
        ([str_bytes "server: received: " ++ hello_message k],
         Serving attempt d' (log_send (ds_local d, ds_peer d, a) (after_arrival t rest w)))) /\
    (forall local peer pskc attempt w t l rest, idle w -> arrivals w = (t, Rx a l (cs_peer c)) :: rest ->
      t <= clock w + CLIENT_MESSAGE_INTERVAL + APPLICATION_TIMEOUT ->
      client_step local peer pskc (Connected attempt k c w) =
        ([str_bytes "client: sending " ++ hello_message k; str_bytes "client: round trip ok: " ++ str_bytes "ack: " ++ hello_message k],
         Connected attempt (wrapping_add 32 k 1) c'
           (after_arrival t rest (log_send (cs_local c, cs_peer c, q) (pause CLIENT_MESSAGE_INTERVAL w))))).
Proof.
  intros Hl Hn Hm Hk. destruct (linked_keys _ _ _ _ Hl) as (Ers & Erc & Hivc & Hivs).
  destruct Hl as (Hkm & Hwf & Hrc & Hrs & Hc & Hd).
  destruct (hello_plain k Hk) as [Hascii Hlen]. pose proof (ascii_utf8 _ Hascii) as Hutf.
  assert (bytes_ok (hello_message k)) as Hb by (eapply Forall_impl; [exact Hascii|]; unfold uint; cbn; lia).
  assert (0 <= n /\ 0 <= m) as [Hn0 Hm0] by (by destruct Hc as (_ & ? & _), Hd as (_ & ? & _)).
  destruct (protected_once (cs_state c) n (hello_message k) Hivc ltac:(apply Hc) ltac:(lia) Hb ltac:(lia)) as (q & r & Er & Pr & Hq).
  set (ds1 := set_application_replay (mark_seen (application_replay (ds_state d)) n) (ds_state d)).
  destruct (protected_once ds1 m (str_bytes "ack: " ++ hello_message k) Hivs ltac:(apply Hd) ltac:(lia)) as (a & ra & Ea & Pa & Ha).
  { apply Forall_app_2; [apply str_bytes_ok|done]. }
  { rewrite len_app. change (len (str_bytes "ack: ")) with 5. lia. }
  set (cs1 := set_next_application_sequence (n + 1) (cs_state c)).
  assert (session_ready cs1 (n + 1) m) as Hc1.
  { destruct Hc as (_ & _ & Hu & Hh). split; [done|]. split; [lia|]. by split. }
  assert (protects r CtApplicationData n (read_keys (ds_state d)).1 (read_keys (ds_state d)).2 (hello_message k)) as Pr' by by rewrite Ers.
  assert (protects ra CtApplicationData m (read_keys cs1).1 (read_keys cs1).2 (str_bytes "ack: " ++ hello_message k)) as Pa'.
  { change (read_keys cs1) with (read_keys (cs_state c)). by rewrite Erc. }
  destruct (ready_opens (ds_state d) m n r _ Hd ltac:(lia) Pr') as [_ Hd1].
  destruct (ready_opens cs1 (n + 1) m ra _ Hc1 ltac:(lia) Pa') as [_ Hc2].
  set (d1 := clear_server_finished (set_ds_state ds1 d)).
  exists q, a, (set_cs_state (set_application_replay (mark_seen (application_replay cs1) m) cs1) c),
    (set_ds_state (set_next_application_sequence (m + 1) ds1) d1).
  split; [|split; [done|split]].
  - split; [done|]. split; [done|]. split; [done|]. split; [done|]. split; [done|].
    destruct Hd1 as (_ & _ & Hu & Hh). split; [done|]. split; [cbn; lia|]. by split.
  - intros pskc attempt w t l rest Hi Hw Ht. cbn [server_step].
    rewrite (server_receives d m n w t q r (hello_message k) l rest APPLICATION_TIMEOUT Hd ltac:(lia) ltac:(done) Pr' Hq Hi Hw Ht).
    unfold log_application_payload. rewrite Hutf. fold ds1. fold d1.
    unfold send_application_data, on_ds_state, on_ds_world, mzoom, mbind, mget. cbn [fst snd].
    change (ds_state d1) with ds1. rewrite Ea. cbn [map_err fst snd].
    change (ds_local (set_ds_state _ d1)) with (ds_local d). change (ds_local d1) with (ds_local d). change (ds_peer d1) with (ds_peer d).
    rewrite (send_once _ (ds_local d) (ds_peer d) ra a); [done|by destruct Hi|done].
  - intros local peer pskc attempt w t l rest Hi Hw Ht. cbn [client_step].
    unfold request_application_data, client_send_application_data, on_cs_state, on_state, on_world, mzoom, mbind, mget. cbn [fst snd].
    rewrite Er. cbn [map_err fst snd].
    rewrite (send_once _ (cs_local c) (cs_peer c) r q); [|by destruct Hi|done]. cbn [map_err fst snd].
    unfold client_recv_application_data, on_cs_state, mzoom, mbind, mget. cbn [fst snd].
    fold cs1. change (cs_state (set_cs_state _ (set_cs_state cs1 c))) with cs1. change (cs_peer (set_cs_state _ (set_cs_state cs1 c))) with (cs_peer c).
    rewrite (client_receives cs1 (n + 1) m _ t a ra _ l (cs_peer c) rest APPLICATION_TIMEOUT Hc1 ltac:(lia) ltac:(done) Pa' Ha);
      [|by apply idle_after_send|done|cbn; unfold pause; cbn; lia]. cbn [map_err]. by rewrite bool_decide_true.
Qed.

(** Datagrams that each arrive in time for a reader that first waits [gap] and
    then reads with [APPLICATION_TIMEOUT]. *)
Fixpoint timely (gap now : Z) (ts : list Z) : Prop :=
  match ts with
  | [] => True
  | t :: ts => t <= now + gap + APPLICATION_TIMEOUT /\ timely gap (Z.max (now + gap) t) ts
  end.
Definition arriving (local remote : Driver.SocketAddr) (ts : list Z) (datagrams : list bytes) : list (Z * Arrival) :=
  zip_with (fun t q => (t, Rx q local remote)) ts datagrams.

Definition server_lines (k : Z) (count : nat) : list bytes :=
  map (fun i => str_bytes "server: received: " ++ hello_message i) (seqZ k (Z.of_nat count)).
Definition client_lines (k : Z) (count : nat) : list bytes :=
  concat (map (fun i => [str_bytes "client: sending " ++ hello_message i;
    str_bytes "client: round trip ok: " ++ str_bytes "ack: " ++ hello_message i]) (seqZ k (Z.of_nat count))).

Lemma seqZ_first k count : seqZ k (Z.of_nat (S count)) = k :: seqZ (k + 1) (Z.of_nat count).
Proof. rewrite seqZ_cons by lia. f_equal; f_equal; lia. Qed.

(** What a run of the boards over a fixed connection does. *)
Definition server_echoes (d d' : DtlsServerSession) (k : Z) (count : nat) (requests responses : list bytes) : Prop :=
  forall pskc attempt w ts l rest, idle w -> length ts = count -> timely 0 (clock w) ts ->
    arrivals w = arriving l (ds_peer d) ts requests ++ rest ->
    exists w', steps (server_step pskc) count (Serving attempt d w) = (server_lines k count, Serving attempt d' w') /\
      arrivals w' = rest /\ sent w' = sent w ++ map (fun a => (ds_local d, ds_peer d, a)) responses.
Definition client_completes (c c' : DtlsClientSession) (k : Z) (count : nat) (requests responses : list bytes) : Prop :=
  forall local peer pskc attempt w ts l rest, idle w -> length ts = count -> timely CLIENT_MESSAGE_INTERVAL (clock w) ts ->
    arrivals w = arriving l (cs_peer c) ts responses ++ rest ->
    exists w', steps (client_step local peer pskc) count (Connected attempt k c w) =
        (client_lines k count, Connected attempt (wrap 32 (k + Z.of_nat count)) c' w') /\
      arrivals w' = rest /\ sent w' = sent w ++ map (fun q => (cs_local c, cs_peer c, q)) requests.

(** C17: the demo's round trips.  On a connection whose two ends share their
    keys, let the datagrams each board receives be the ones the other has sent,
    each in time.  Then for [count] messages the client sends hello and a
    number, the server prints what it received and sends it back after "ack: ",
    and the client prints that the round trip was ok: both print nothing else,
    the counter has gone up by [count], no board leaves the connection, which is
    as usable as before, and what each has sent is exactly what the other
    received. *)
Theorem demo_round_trips c d n m k count : linked c d n m -> n + Z.of_nat count < 2 ^ 48 -> m + Z.of_nat count < 2 ^ 48 ->
  0 <= k -> k + Z.of_nat count < 2 ^ 32 ->
  exists requests responses c' d', length requests = count /\ length responses = count /\
    linked c' d' (n + Z.of_nat count) (m + Z.of_nat count) /\
    server_echoes d d' k count requests responses /\ client_completes c c' k count requests responses.
Proof.
  revert c d n m k. induction count as [|count IH]; intros c d n m k Hl Hn Hm Hk Hmax.
  { exists [], [], c, d. rewrite !Z.add_0_r. split; [done|]. split; [done|]. split; [done|]. split.
    - intros pskc attempt w [|t0 ts0] l rest _ Hts _ Ha; [|done]. exists w. split; [done|]. split; [done|]. by rewrite app_nil_r.
    - intros local peer pskc attempt w [|t0 ts0] l rest _ Hts _ Ha; [|done]. exists w. split; [|split; [done|by rewrite app_nil_r]].
      cbn [steps]. by rewrite Z.add_0_r, wrap_small by (unfold uint; lia). }
  destruct (round_trip c d n m k Hl ltac:(lia) ltac:(lia) ltac:(lia))
    as (q & a & c1 & d1 & Hl1 & (E1 & E2 & E3 & E4) & Hserver & Hclient).
  destruct (IH c1 d1 (n + 1) (m + 1) (k + 1) Hl1 ltac:(lia) ltac:(lia) ltac:(lia) ltac:(lia))
    as (qs & as_ & c' & d' & Lq & La & Hl' & Hs & Hc).
  exists (q :: qs), (a :: as_), c', d'. split; [cbn; lia|]. split; [cbn; lia|].
  replace (n + Z.of_nat (S count)) with (n + 1 + Z.of_nat count) by lia.
  replace (m + Z.of_nat (S count)) with (m + 1 + Z.of_nat count) by lia. split; [exact Hl'|]. split.
  - intros pskc attempt w [|t ts] l rest Hi Hts Ht Ha; [done|]. destruct Ht as [Ht Hrest].
    cbn [steps]. rewrite (Hserver pskc attempt w t l _ Hi Ha) by lia.
    set (w1 := log_send _ _).
    destruct (Hs pskc attempt w1 ts l rest) as (w' & E & Ear & Es).
    + destruct Hi as [Hi1 Hi2]. split; [done|]. cbn. by rewrite Hi2.
    + by injection Hts.
    + rewrite Z.add_0_r in Hrest. exact Hrest.
    + by rewrite E4.
    + rewrite E. exists w'. unfold server_lines. rewrite seqZ_first. split; [done|]. split; [done|].
      rewrite Es, E3, E4. cbn. by rewrite <- app_assoc.
  - intros local peer pskc attempt w [|t ts] l rest Hi Hts Ht Ha; [done|]. destruct Ht as [Ht Hrest].
    cbn [steps]. rewrite (Hclient local peer pskc attempt w t l _ Hi Ha) by lia.
    set (w1 := after_arrival _ _ _). unfold wrapping_add. rewrite wrap_small by (unfold uint; lia).
    destruct (Hc local peer pskc attempt w1 ts l rest) as (w' & E & Ear & Es).
    + by apply idle_after_send.
    + by injection Hts.
    + exact Hrest.
    + by rewrite E2.
    + rewrite E. exists w'. unfold client_lines. rewrite seqZ_first.
      replace (k + 1 + Z.of_nat count) with (k + Z.of_nat (S count)) by lia. split; [done|]. split; [done|].
      rewrite Es, E1, E2. cbn. by rewrite <- app_assoc.
Qed.
End RoundTrips.

(** ** The boards go on *)

(** [n] steps keep what each step keeps, print a line each, and take their
    time together. *)
Lemma steps_invariant {B} (step : B -> list bytes * B) (ok : B -> Prop) (now : B -> Z) turn n b :
  (forall b, ok b -> ok (step b).2 /\ (1 <= length (step b).1)%nat /\ now b <= now (step b).2 <= now b + turn) -> ok b ->
  ok (steps step n b).2 /\ (n <= length (steps step n b).1)%nat /\
  now b <= now (steps step n b).2 <= now b + Z.of_nat n * turn.
Proof.
  intros Hstep. revert b. induction n as [|n IH]; intros b Hb; cbn [steps]; [cbn; split; [done|split; lia]|].
  destruct (Hstep b Hb) as (H1 & H2 & H3). destruct (step b) as [lines b1]. cbn [fst snd] in *.
  destruct (IH b1 H1) as (H4 & H5 & H6). destruct (steps step n b1) as [more b2]. cbn [fst snd] in *.
  rewrite length_app. split; [done|]. split; lia.
Qed.

Section NeverStop.
Context {HH : Hash} {HL : HashLaws} {AA : Aead} {AL : AeadLaws} {CC : Curve} {CL : CurveLaws} {RR : Rng} {RL : RngLaws}.
Context {OT : Demo.OpenThread}.

(** C16: the boards never stop.  Whatever arrives at a board, at whatever
    times, genuine, forged or malformed, and whatever the transport fails to
    send or receive: no step of the server or of the client panics or waits for
    ever.  After any number of steps each board is listening, connecting or in a
    session again, has printed at least a line for each step, and the steps have
    taken no longer than as many times a handshake's timeout and the pause before
    the next attempt. *)
Theorem boards_never_stop local peer pskc steps_taken sb cb : server_ok sb -> client_ok cb ->
  let '(server_lines, sb') := steps (server_step pskc) steps_taken sb in
  let '(client_lines, cb') := steps (client_step local peer pskc) steps_taken cb in
  server_ok sb' /\ client_ok cb' /\
  (steps_taken <= length server_lines)%nat /\ (steps_taken <= length client_lines)%nat /\
  server_clock sb <= server_clock sb' <= server_clock sb + Z.of_nat steps_taken * server_turn_time /\
  client_clock cb <= client_clock cb' <= client_clock cb + Z.of_nat steps_taken * client_turn_time.
Proof.
  intros Hs Hc.
  pose proof (steps_invariant (server_step pskc) server_ok server_clock server_turn_time steps_taken sb (server_step_ok pskc) Hs) as H1.
  pose proof (steps_invariant (client_step local peer pskc) client_ok client_clock client_turn_time steps_taken cb
    (client_step_ok local peer pskc) Hc) as H2.
  destruct (steps (server_step pskc) steps_taken sb), (steps (client_step local peer pskc) steps_taken cb). cbn [fst snd] in *.
  naive_solver.
Qed.
End NeverStop.

Section Witness.
#[local] Existing Instance Toy.toy_hash.
#[local] Existing Instance Toy.toy_hash_laws.
#[local] Existing Instance Toy.toy_aead.
#[local] Existing Instance Toy.toy_aead_laws.
#[local] Existing Instance ToyCurve.toy_curve.
#[local] Existing Instance ToyCurve.toy_curve_laws.
#[local] Existing Instance ToyCurve.toy_rng.
#[local] Existing Instance ToyCurve.toy_rng_laws.
#[local] Existing Instance Demo.toy_thread.

Definition toy_world (a : list (Z * @Arrival (@demo_net Demo.toy_thread))) : @World (@demo_net Demo.toy_thread) ToyCurve.toy_curve ToyCurve.toy_rng :=
  mkWorld 0 [] a [] [] (1 : @rng ToyCurve.toy_curve ToyCurve.toy_rng).
Definition client_end : DtlsClientSession := mkDtlsClientSession unspecified unspecified (toy_session RoleOfClient).
Definition server_end : DtlsServerSession := mkDtlsServerSession unspecified unspecified (toy_session RoleOfServer) [] 3.

(** Two messages: the server's part, with the requests there after a second
    each. *)
Lemma demo_round_trips_witness :
  exists requests responses c' d' w', linked c' d' 3 3 /\ length responses = 2%nat /\
    steps (server_step []) 2 (Serving 1 server_end (toy_world (arriving unspecified unspecified [SECOND; 2 * SECOND] requests))) =
      ([str_bytes "server: received: hello 0"; str_bytes "server: received: hello 1"], Serving 1 d' w') /\
    sent w' = map (fun a => (unspecified, unspecified, a)) responses.
Proof.
  destruct (demo_round_trips client_end server_end 1 1 0 2) as (qs & as_ & c' & d' & _ & La & Hl & Hs & _);
    [|done..|].
  { split; [done|]. split; [by_decide|]. split; [done|]. split; [done|].
    split; (split; [done|]; split; [done|]; split; [done|]; exists []; split; [apply window_repr_new|constructor]). }
  destruct (Hs [] 1 (toy_world (arriving unspecified unspecified [SECOND; 2 * SECOND] qs)) [SECOND; 2 * SECOND] unspecified [])
    as (w' & E & _ & Es); [done|done|by_decide|by rewrite app_nil_r|].
  exists qs, as_, c', d', w'. split; [exact Hl|]. split; [exact La|]. split; [exact E|exact Es].
Defined.

(** A server that receives noise reports a failed attempt after its timeout and
    listens again, and so does a client that hears nothing. *)
Lemma boards_never_stop_witness :
  let sb := Listening 1 (toy_world [(SECOND, Rx [1; 2; 3] unspecified unspecified)]) in
  let cb := Connecting 1 0 (toy_world []) in
  server_ok (steps (server_step [5]) 2 sb).2 /\ client_ok (steps (client_step unspecified unspecified [5]) 2 cb).2.
Proof.
  intros sb cb. pose proof (boards_never_stop unspecified unspecified [5] 2 sb cb) as H.
  destruct (steps (server_step [5]) 2 sb), (steps (client_step unspecified unspecified [5]) 2 cb).
  destruct H as (H1 & H2 & _); [split; [repeat constructor; by_decide|done]|split; [constructor|done]|]. by split.
Defined.
End Witness.
